(* ===== verification/_CoqProject ===== *)
-Q . S2P
Prelude.v
StateM.v
ListHead.v
SepLogic.v
RbTree.v
RbShape.v
RbSpec.v
RbInsert.v
RbRemove.v
RbCorrect.v
Bitmap.v
Crc32.v
Sha256.v
Buddy.v
BuddyInv.v
BuddySteps.v
BuddyAlloc.v
BuddyFree.v
BuddySpec.v
BootAllot.v
BuddyInit.v
Dynarr.v
Heap.v
Mmu.v
MmuSpec.v
MmuHeap.v
AddressSpace.v
VmmMap.v
AsTree.v
AsSpec.v
AsDestroy.v
AsFault.v
AsCorrect.v
Endian.v
Drivers.v
DriversSpec.v
DriversCorrect.v
Devt.v
Kio.v
KioSpec.v
KioParse.v
KioCorrect.v
Files.v
Elf.v
ElfSpec.v
ElfCorrect.v
UserStack.v
UserStackSpec.v
Exec.v
ExecSpec.v
ExecCorrect.v
ExecElf.v
Hash.v
Tmpfs.v
TmpfsSpec.v
TmpfsRename.v
TmpfsCreate.v
TmpfsRemove.v
TmpfsMount.v
TmpfsFile.v
TmpfsData.v
Block.v
RamDisk.v
Gpt.v
GptSpec.v
GptFormat.v
BlockDevices.v
Timecycle.v
Clock.v
Sched.v
Vfs.v
VfsSpec.v
VfsCorrect.v
VfsTmpfs.v
VfsMount.v
VfsFile.v
