(* ===== verification/Prelude.v ===== *)
(** * ShiziOS kernel: verification development

    ShiziOS is a small x86_64 kernel in C.  This development models the parts
    of it that carry its own logic and proves what they promise.  The sources
    are under src/kernel; a definition keeps the name of the C function it
    models, and the comment in front of it names the source file.

    ** The program and the files that model it

    - Shared base.  Prelude.v (this file): machine integers as [Z] with their
      wrap-around written out, the outcome monad of C code ([Ok], [Panic] for
      printp, [Fault] for an access outside an object), counted loops and
      while loops with their proof rules, shared list lemmas and tactics.
      Endian.v: little-endian fields of packed structures.
    - include/list.h: ListHead.v, the circular doubly linked lists at the
      level of the [prev] and [next] pointers.  The components above use their
      lists as sequences; ListHead.list_ops_refine is why they may.
    - include/bitmap.h: Bitmap.v.  lib/crc32.c: Crc32.v.  lib/sha256.c:
      Sha256.v.  include/dynarr.h (growing arrays and bitmaps): Dynarr.v,
      proved against the class [HeapLaws] of the heap.
    - lib/rbtree.c: the operations on nodes with parent pointers and packed
      colours are in RbTree.v.  SepLogic.v is the logic they are proved in: an
      affine separation logic over finite maps with the Iris proof mode, and
      weakest preconditions for a state monad.  RbShape.v has the trees,
      contexts and balance on paper, RbSpec.v relates them to memory and
      proves the accesses, rotations and walks, RbInsert.v and RbRemove.v the
      two rebalancing loops, RbCorrect.v states the results.
    - Physical memory.  mm/boot_allot.c: BootAllot.v.  mm/buddy.c: the
      operations are in Buddy.v, the invariant of descriptors and free lists
      in BuddyInv.v, what one list operation, one split, one merge does in
      BuddySteps.v, allocation in BuddyAlloc.v, release in BuddyFree.v, the
      specification over abstract extents in BuddySpec.v, the construction
      from the memory map of the boot loader in BuddyInit.v.
    - mm/heap.c: Heap.v, which discharges [HeapLaws] for Dynarr.v.
    - arch/x86_64/mm/vmm_mmu.c (page tables): the walk state machine and the
      operations are in Mmu.v over the class [PageHeap]; MmuSpec.v states the
      translation the processor performs, with the rights it combines over the
      levels, and proves the operations against it, in directories whose kernel
      slots are shared and hold huge pages; MmuHeap.v instantiates the class
      with the heap of Heap.v and has the directories [mmu_add_pgd] makes.
    - Address spaces.  mm/vmm_as.c: AddressSpace.v, whose state is the page
      tables, the heap, the tree cells, the regions and spaces by address, the
      memory and the TLB flushes; mm/vmm_map.c and the vheap functions of
      mm/heap.c: VmmMap.v.  AsTree.v lifts the tree theorems to this state,
      AsSpec.v has the invariant of an address space and the regions'
      operations, AsFault.v page faults, AsDestroy.v tearing down, AsCorrect.v
      the results.  The file system is the class [VfsEnv].
    - block/core.c: Block.v over the class [BlockEnv] (drivers, device
      numbers, device nodes) and, with registration and removal,
      BlockDevices.v.  block/gpt.c: Gpt.v, the meaning of a partition table
      and the correctness of the parser in GptSpec.v, the round trip in
      GptFormat.v.  RamDisk.v is a concrete disk for the instances.
    - drivers/base/drivers.c: devices, drivers, buses and the probe queue are
      in Drivers.v, written in the state monad of StateM.v over the class
      [DriverEnv] (bus and driver callbacks, the heap); DriversSpec.v has the
      invariant of queue and reference counts and the measure of the work
      left, DriversCorrect.v the results; Devt.v has the device numbers.
    - lib/kio.c (printk): Kio.v; the reference text of directives and the
      number formatting in KioSpec.v, the parser of formats in KioParse.v, the
      results in KioCorrect.v.
    - task/files.c (descriptor tables): Files.v.
    - Program loading.  exec/elf/core.c: Elf.v over the class [ElfEnv] (the
      file that is read), the meaning of headers and notes in ElfSpec.v, the
      loader in ElfCorrect.v.  exec/core.c: the stack of a new program in
      UserStack.v and UserStackSpec.v; the framework, with its chain of
      interpreters, in Exec.v over the class [ExecEnv] (file system, address
      space, formats), its single steps in ExecSpec.v, the loop and the error
      paths in ExecCorrect.v, the instance with the ELF loader in ExecElf.v.
    - include/hash.h: Hash.v.
    - fs/tmpfs/tmpfs.c with the inode cache of fs/vfs.c: Tmpfs.v has inodes,
      names and directories, TmpfsFile.v file data and attributes, TmpfsMount.v
      mounting.  TmpfsSpec.v has directories as finite maps, TmpfsCreate.v the
      invariant of a mounted file system and the functions that make inodes,
      TmpfsRemove.v and TmpfsRename.v those that remove and move names,
      TmpfsData.v reading and writing.
    - The rest of fs/vfs.c that is modelled: Vfs.v has the dentry cache,
      references, path resolution, permissions, mounting and making
      directories, over the class [Fs] of what a file system offers.
      VfsSpec.v has the invariant of the dentries over a file system that is a
      tree of names (the class [FsTree]) and the single steps, VfsCorrect.v
      the resolution of whole paths, VfsTmpfs.v the instance with tmpfs and
      the theorems about paths on it, VfsMount.v unmounting and a run of the
      whole layer from the first mount on.  VfsFile.v has the file objects:
      opening, reading, writing, seeking, truncating and closing.
    - time/timecycle.c and arch/x86_64/div128.c: Timecycle.v.
      time/clocksource.c and time/clockevent.c: Clock.v.
    - task/scheduler/rr.c and the scheduling part of task/core.c: Sched.v.

    ** How the state of the C code is represented

    A structure is a record, a table indexed by an address or a number is a
    finite map, an intrusive list is the sequence of its nodes.  An access
    through a pointer is a lookup that answers [Fault] outside the object (for
    a block of the heap, outside the bytes asked for, although the heap gives
    whole pages); a
    theorem that an operation answers [Ok] is therefore also a memory safety
    statement.  Operations that hold a spin lock from beginning to end are
    single steps.  What the modelled code calls and this development does not
    model is a type class with named laws (the driver callbacks and the device
    nodes in Block.v) or a parameter (the callbacks of timers and clock
    devices in Clock.v); each class has a concrete instance.

    ** What the theorems show

    - Memory: allocation hands out fresh, cleared, singly referenced extents
      and fails without effect; release merges buddies; every reachable state
      keeps the extents disjoint; initialisation establishes the invariant;
      the heap and the boot allocator behave as their callers assume.
    - Page tables: after mapping, the processor translates exactly the
      requested pages to the requested frames, with the rights that were asked
      for unless a table made earlier has fewer; the walk is correct and ends.
    - Address spaces: regions behave as an ordered set of disjoint page
      ranges; mapping picks a free range and unmapping undoes it with every
      stale translation flushed; a fault maps a page of its own with the
      protection of its region, zeroed as long as the region records no memory
      and a copy of other memory afterwards; the last reference frees the
      regions, the directory and the space, but not the tables.
    - Data structures: red-black insertion and removal keep order, balance and
      pointers; list operations refine sequence operations, arrays
      refine lists, the checksum and the hash equal their bit-level
      definitions.
    - Block layer: the parser accepts exactly the partition tables that pass
      the checks of gpt.c and inverts formatting; adding a disk registers
      exactly its partitions, and the list of entries stays consistent.
    - Driver framework: serving the probe queue ends, tries every node with its
      own driver and device and leaves reference counts in order; adding a device queues the first matching driver or
      fails without effect; device numbers are handed out once and given back.
    - Formatted output: the printk functions show exactly what their
      directives stand for, cut to the buffer.
    - Program loading: an ELF file whose sizes the heap can honour is described
      exactly or refused without cost; the user stack has the layout of the
      ABI; a program and its interpreters, from files with segments above the
      first page, are mapped as a whole, and what a failure leaves behind is
      stated exactly.
    - tmpfs: a directory is a finite map from names to inode numbers; creating,
      removing and renaming change it as they promise and keep the
      inode cache, the inode numbers and the directories coherent, except on
      the error paths that the theorems name; mounting starts a coherent file
      system; the first write to a file is read back, but it replaces the
      pointer to the page allocated for it.
    - Paths: on tmpfs a path is resolved to the inode its directory entries
      lead to and the references balance, while memory lasts; a name that does
      not exist and a relative link end in a NULL pointer.  A file opened for
      writing only cannot be written, and opening leaks a reference.
    - Scheduling and time: the run queue is served first in, first out;
      migration balances; timers fire exactly when due; conversions are within
      their stated error.
    - Several theorems (kind "error") prove that the code does something its
      authors did not intend; they are listed as findings of the manifest.

    ** Bounds and fuel

    A while loop runs on fuel and answers [Fault] when the fuel is used up, so
    every theorem that concludes [Ok] shows that the fuel chosen suffices: 65
    steps for shift counts, 64 doublings for array growth, the length of the
    data plus one for hashing, the number of frames for the scans of the
    memory map, 128 levels for a red-black tree, whose height is at most twice
    the logarithm of its size, one turn per character of a format string, the
    work left in the probe queue, one turn per region for the loops over the
    regions, five turns for the chain of interpreters, the length of a note
    segment for its notes, the number of dentries for the walk to the root, one
    turn per page for file data, one turn per name of a path.  The page table walk is bounded by its six states.

    ** Not modelled

    The vendored uACPI library and the musl string routines, which are not
    the program's own code; programming of interrupt controllers, processors,
    PCI and VirtIO devices, which is device I/O; the
    operations of fs/vfs.c on names that follow the pattern of [vfs_mkdir], and what other tasks do between its steps, since its locks are
    taken and dropped in between; the ext2 file system, which keeps its
    structures in blocks of the device;
    signals, whose delivery the source leaves open; the system call table,
    copies to user memory and the order of initialisation. *)

From stdpp Require Export base numbers list gmap.
From Stdlib Require Export ZArith Lia.

#[export] Set Default Goal Selector "!".

(** ** Machine integers

    A [w]-bit unsigned C integer is a [Z] in [0, 2^w); every operation that
    the C type can wrap is followed by the truncation to its width. *)

Declare Scope c_scope.
Delimit Scope c_scope with C.

Definition wrap (w x : Z) : Z := x mod 2 ^ w.

Abbreviation u8 := (wrap 8).
Abbreviation u16 := (wrap 16).
Abbreviation u32 := (wrap 32).
Abbreviation u64 := (wrap 64).
Abbreviation u128 := (wrap 128).

(** [x] is representable in [w] unsigned bits. *)
Definition fits (w x : Z) : Prop := (0 <= x < 2 ^ w)%Z.

(** Reading a [w]-bit pattern as a two's complement signed number. *)
Definition to_signed (w x : Z) : Z :=
  let y := wrap w x in if (y <? 2 ^ (w - 1))%Z then y else (y - 2 ^ w)%Z.

Abbreviation s16 := (to_signed 16).
Abbreviation s32 := (to_signed 32).
Abbreviation s64 := (to_signed 64).

(** Bitwise complement at a given width, C's [~x]. *)
Definition cnot (w x : Z) : Z := wrap w (Z.lnot x).

(** ** Outcomes of C code

    [Ok a]: the code returned; [Panic]: it reached [printp] (the kernel
    stops); [Fault]: it touched memory outside the object it may use. *)

Inductive outcome (A : Type) : Type :=
| Ok (a : A)
| Panic
| Fault.
Arguments Ok {A} a.
Arguments Panic {A}.
Arguments Fault {A}.

#[export] Instance outcome_ret : MRet outcome := @Ok.
#[export] Instance outcome_bind : MBind outcome := fun A B f x =>
  match x with Ok a => f a | Panic => Panic | Fault => Fault end.
#[export] Instance outcome_fmap : FMap outcome := fun A B f x =>
  match x with Ok a => Ok (f a) | Panic => Panic | Fault => Fault end.

(** A lookup that is a memory access: outside the object it faults. *)
Definition deref {A} (o : option A) : outcome A :=
  match o with Some a => Ok a | None => Fault end.

(** A condition the code checks before it panics. *)
Definition assert_or_panic (b : bool) : outcome unit :=
  if b then Ok tt else Panic.

(** ** Counted loops

    [for_up n i body s] is [for (k = i; k < i + n; k++) s = body(k, s)]. *)

Fixpoint for_up {S} (n : nat) (i : Z) (body : Z -> S -> outcome S) (s : S) : outcome S :=
  match n with
  | O => Ok s
  | Datatypes.S n' => s' ← body i s; for_up n' (i + 1)%Z body s'
  end.

(** The same loop with an early exit: the body answers [inl s] to go on and
    [inr r] to leave the function with [r]. *)
Fixpoint for_ret {S R} (n : nat) (i : Z) (body : Z -> S -> outcome (S + R)) (s : S)
  : outcome (S + R) :=
  match n with
  | O => Ok (inl s)
  | Datatypes.S n' =>
      x ← body i s;
      match x with
      | inl s' => for_ret n' (i + 1)%Z body s'
      | inr r => Ok (inr r)
      end
  end.

(** A loop over the nodes of a list. *)
Fixpoint for_each {A S} (l : list A) (body : A -> S -> outcome S) (s : S) : outcome S :=
  match l with
  | [] => Ok s
  | x :: l => s ← body x s; for_each l body s
  end.

(** A loop whose body only rebuilds the state and cannot fail. *)
Fixpoint for_pure {S} (n : nat) (i : Z) (body : Z -> S -> S) (s : S) : S :=
  match n with
  | O => s
  | Datatypes.S n' => for_pure n' (i + 1)%Z body (body i s)
  end.

(** A [while] loop with fuel: the body answers [inl s] to go on and [inr r] to
    leave.  Using up the fuel is a [Fault], so a theorem that a loop answers
    [Ok] also says that it ends. *)
Fixpoint while_loop {S R} (fuel : nat) (body : S -> outcome (S + R)) (s : S) : outcome R :=
  match fuel with
  | O => Fault
  | Datatypes.S fuel =>
      x ← body s;
      match x with
      | inl s' => while_loop fuel body s'
      | inr r => Ok r
      end
  end.

(** The number of iterations of [for (k = lo; k < hi; k++)]. *)
Definition span (lo hi : Z) : nat := Z.to_nat (hi - lo).

(** ** errno values the kernel returns (include/libc/errno.h) *)

Definition ENOENT : Z := 2.
Definition EIO : Z := 5.
Definition EBADF : Z := 9.
Definition EAGAIN : Z := 11.
Definition ENOMEM : Z := 12.
Definition EACCES : Z := 13.
Definition EFAULT : Z := 14.
Definition EBUSY : Z := 16.
Definition ENODEV : Z := 19.
Definition EINVAL : Z := 22.
Definition EMFILE : Z := 24.
Definition ENOSPC : Z := 28.

Create HintDb kernel discriminated.
#[export] Hint Constants Opaque : kernel.

(** [lia] with the defining equations of [/] and [mod]. *)
Ltac dlia := Z.to_euclidean_division_equations; lia.

(** Hypotheses about booleans of the code, as propositions over [Z]. *)
Ltac zbool :=
  repeat match goal with
  | H : (_ =? _)%Z = true |- _ => apply Z.eqb_eq in H
  | H : (_ =? _)%Z = false |- _ => apply Z.eqb_neq in H
  | H : (_ <? _)%Z = true |- _ => apply Z.ltb_lt in H
  | H : (_ <? _)%Z = false |- _ => apply Z.ltb_ge in H
  | H : (_ <=? _)%Z = true |- _ => apply Z.leb_le in H
  | H : (_ <=? _)%Z = false |- _ => apply Z.leb_gt in H
  | H : negb _ = true |- _ => apply negb_true_iff in H
  | H : negb _ = false |- _ => apply negb_false_iff in H
  | H : _ && _ = true |- _ => apply andb_true_iff in H as [? ?]
  | H : _ || _ = false |- _ => apply orb_false_iff in H as [? ?]
  end.

(** Splits every conditional of the goal and keeps its guard. *)
Ltac split_ifs :=
  repeat match goal with
  | |- context [if ?b then _ else _] =>
      lazymatch b with context [if _ then _ else _] => fail | _ => idtac end;
      destruct b eqn:?; try done
  end.

(** Inverts [bind]s of successful outcomes in the hypotheses. *)
Lemma bind_Ok {A B} (x : outcome A) (f : A -> outcome B) b :
  x ≫= f = Ok b <-> exists a, x = Ok a /\ f a = Ok b.
Proof. split; [destruct x; by eauto|]. by intros (a & -> & ?). Qed.

Lemma Ok_bind {A B} (a : A) (f : A -> outcome B) : Ok a ≫= f = f a.
Proof. done. Qed.

Lemma deref_Some {A} (a : A) : deref (Some a) = Ok a.
Proof. done. Qed.

Lemma for_up_S {S} n i (body : Z -> S -> outcome S) s :
  for_up (Datatypes.S n) i body s = body i s ≫= for_up n (i + 1)%Z body.
Proof. done. Qed.

Lemma Ok_inj {A} (a b : A) : Ok a = Ok b -> a = b.
Proof. by intros [=]. Qed.

Lemma deref_Ok {A} (o : option A) a : deref o = Ok a <-> o = Some a.
Proof. destruct o; naive_solver. Qed.

Ltac inv_ok :=
  cbn beta in *;
  repeat match goal with
  | H : _ ≫= _ = Ok _ |- _ =>
      apply bind_Ok in H; let a := fresh "r" in let E := fresh "E" in
      destruct H as (a & E & H); cbn beta in H
  | H : deref _ = Ok _ |- _ => apply deref_Ok in H
  | H : Ok _ = Ok _ |- _ => apply Ok_inj in H
  | H : mret _ = Ok _ |- _ => apply Ok_inj in H
  | H : Panic = Ok _ |- _ => discriminate H
  | H : Fault = Ok _ |- _ => discriminate H
  end; simplify_eq/=.

Section machine_integers.
Local Open Scope Z_scope.

Lemma wrap_fits w x : 0 <= w -> fits w (wrap w x).
Proof. intros. unfold fits, wrap. apply Z.mod_pos_bound, Z.pow_pos_nonneg; lia. Qed.

Lemma wrap_small w x : fits w x -> wrap w x = x.
Proof. intros. by apply Z.mod_small. Qed.

Lemma to_signed_small w x : 0 < w -> - 2 ^ (w - 1) <= x < 2 ^ (w - 1) -> to_signed w x = x.
Proof.
  intros Hw Hx. unfold to_signed, wrap. assert (H2 : 2 ^ w = 2 * 2 ^ (w - 1)).
  { rewrite <- Z.pow_succ_r by lia. f_equal. lia. }
  destruct (Z.lt_ge_cases x 0).
  - assert (x mod 2 ^ w = x + 2 ^ w) as ->.
    { rewrite <- (Z.mod_small (x + 2 ^ w) (2 ^ w)) by lia.
      rewrite <- (Z.mul_1_l (2 ^ w)) at 2. by rewrite Z.mod_add by lia. }
    replace (_ <? _) with false by lia. lia.
  - rewrite Z.mod_small by lia. by replace (_ <? _) with true by lia.
Qed.

Lemma fits_mono w w' x : w <= w' -> fits w x -> fits w' x.
Proof.
  intros Hw [? ?]. split; [done|].
  destruct (Z.le_gt_cases 0 w).
  - eapply Z.lt_le_trans; [done|]. by apply Z.pow_le_mono_r.
  - rewrite (Z.pow_neg_r 2 w) in *; lia.
Qed.

Lemma wrap_testbit w x i : 0 <= w -> 0 <= i ->
  Z.testbit (wrap w x) i = (i <? w) && Z.testbit x i.
Proof.
  intros. unfold wrap. rewrite <- Z.land_ones, Z.land_spec, Z.testbit_ones_nonneg by lia.
  destruct (i <? w); by rewrite ?andb_true_r, ?andb_false_r.
Qed.

(** A non-negative number fits [w] bits exactly when its bits above are clear. *)
Lemma fits_testbit w x i : fits w x -> 0 <= w <= i -> Z.testbit x i = false.
Proof.
  intros Hf Hi. rewrite <- (wrap_small w x), wrap_testbit by (done || lia).
  replace (i <? w) with false by lia. done.
Qed.

Lemma lor_fits w a b : 0 <= w -> fits w a -> fits w b -> fits w (Z.lor a b).
Proof.
  intros Hw Ha Hb. pose proof Ha as [??]. pose proof Hb as [??].
  assert (Z.lor a b = wrap w (Z.lor a b)) as ->; [|by apply wrap_fits].
  apply Z.bits_inj'. intros i Hi. rewrite wrap_testbit, Z.lor_spec by done.
  destruct (Z.ltb_spec i w); [done|].
  rewrite !(fits_testbit w) by (done || lia). done.
Qed.

Lemma land_fits_l w a b : 0 <= w -> fits w a -> fits w (Z.land a b).
Proof.
  intros Hw Ha.
  assert (Z.land a b = wrap w (Z.land a b)) as ->; [|by apply wrap_fits].
  apply Z.bits_inj'. intros i Hi. rewrite wrap_testbit, Z.land_spec by done.
  destruct (Z.ltb_spec i w); [done|].
  rewrite (fits_testbit w a) by (done || lia). done.
Qed.

Lemma lxor_fits w a b : 0 <= w -> fits w a -> fits w b -> fits w (Z.lxor a b).
Proof.
  intros Hw Ha Hb.
  assert (Z.lxor a b = wrap w (Z.lxor a b)) as ->; [|by apply wrap_fits].
  apply Z.bits_inj'. intros i Hi. rewrite wrap_testbit, Z.lxor_spec by done.
  destruct (Z.ltb_spec i w); [done|].
  rewrite !(fits_testbit w) by (done || lia). done.
Qed.

Lemma shiftr_fits w a k : 0 <= w -> 0 <= k -> fits w a -> fits w (Z.shiftr a k).
Proof.
  intros Hw Hk [? ?]. split; [by apply Z.shiftr_nonneg|].
  rewrite Z.shiftr_div_pow2 by done.
  apply Z.div_lt_upper_bound; [by apply Z.pow_pos_nonneg|].
  assert (1 <= 2 ^ k) by (pose proof (Z.pow_pos_nonneg 2 k); lia). nia.
Qed.

Lemma shiftl_1_testbit k i : 0 <= k -> 0 <= i ->
  Z.testbit (Z.shiftl 1 k) i = (k =? i).
Proof. intros. rewrite Z.shiftl_1_l, Z.pow2_bits_eqb by done. done. Qed.

Lemma cnot_testbit w x i : 0 <= w -> 0 <= i ->
  Z.testbit (cnot w x) i = (i <? w) && negb (Z.testbit x i).
Proof. intros. unfold cnot. rewrite wrap_testbit, Z.lnot_spec by done. done. Qed.

End machine_integers.

#[export] Hint Resolve wrap_fits lor_fits land_fits_l lxor_fits shiftr_fits : kernel.

Section loops.
Local Open Scope Z_scope.
Context {S R : Type}.
Implicit Types (s : S) (r : R).

(** The loop rule: an invariant indexed by the counter that every iteration
    re-establishes without failing makes the whole loop terminate with [Ok]. *)
Lemma for_up_inv (P : Z -> S -> Prop) n i body s :
  P i s ->
  (forall k s, i <= k < i + Z.of_nat n -> P k s ->
     exists s', body k s = Ok s' /\ P (k + 1) s') ->
  exists s', for_up n i body s = Ok s' /\ P (i + Z.of_nat n) s'.
Proof.
  revert i s. induction n as [|n IH]; intros i s HP Hstep; cbn [for_up].
  - exists s. split; [done|]. by replace (i + Z.of_nat 0) with i by lia.
  - destruct (Hstep i s) as (s1 & Hb & HP1); [lia|done|]. rewrite Hb. cbn.
    destruct (IH (i + 1) s1 HP1) as (s2 & Hr & HP2).
    { intros k s' Hk. apply Hstep. lia. }
    exists s2. split; [done|]. by replace (i + Z.of_nat (Datatypes.S n)) with (i + 1 + Z.of_nat n) by lia.
Qed.

(** A loop whose body never fails is the fold of its pure body. *)
Lemma for_up_fold n i body (f : nat -> S -> S) s :
  (forall k s, (k < n)%nat -> body (i + Z.of_nat k) s = Ok (f k s)) ->
  for_up n i body s = Ok (fold_left (fun s k => f k s) (seq 0 n) s).
Proof.
  revert i f s. induction n as [|n IH]; intros i f s H; cbn [for_up seq fold_left]; [done|].
  pose proof (H O s) as H0. rewrite Z.add_0_r in H0. rewrite H0 by lia. cbn [mbind outcome_bind].
  rewrite <- seq_shift, (IH _ (fun k => f (Datatypes.S k))).
  - f_equal. generalize (f O s). generalize (seq 0 n) as l. induction l as [|k l IHl]; intros x; cbn; [done|apply IHl].
  - intros k x Hk. rewrite <- H by lia. f_equal. lia.
Qed.

(** The same for the loop with an early exit: [P] while it goes on, [Q] when
    it leaves. *)
Lemma for_ret_inv (P : Z -> S -> Prop) (Q : R -> Prop) n i body s :
  P i s ->
  (forall k s, i <= k < i + Z.of_nat n -> P k s ->
     (exists s', body k s = Ok (inl s') /\ P (k + 1) s') \/
     (exists r, body k s = Ok (inr r) /\ Q r)) ->
  (exists s', for_ret n i body s = Ok (inl s') /\ P (i + Z.of_nat n) s') \/
  (exists r, for_ret n i body s = Ok (inr r) /\ Q r).
Proof.
  revert i s. induction n as [|n IH]; intros i s HP Hstep; cbn [for_ret].
  - left. exists s. split; [done|]. by replace (i + Z.of_nat 0) with i by lia.
  - destruct (Hstep i s) as [(s1 & Hb & HP1)|(r & Hb & HQ)]; [lia|done| |]; rewrite Hb; cbn.
    + destruct (IH (i + 1) s1 HP1) as [(s2 & Hr & HP2)|(r & Hr & HQ)].
      { intros k s' Hk. apply Hstep. lia. }
      * left. exists s2. split; [done|]. by replace (i + Z.of_nat (Datatypes.S n)) with (i + 1 + Z.of_nat n) by lia.
      * right. eauto.
    + right. eauto.
Qed.

(** The rule for [while_loop]: an invariant and a measure that every further
    iteration lowers. *)
Lemma while_rule (P : S -> Prop) (Q : R -> Prop) (measure : S -> Z) fuel body s :
  P s -> measure s < Z.of_nat fuel ->
  (forall s, P s -> 0 <= measure s) ->
  (forall s, P s ->
     (exists s', body s = Ok (inl s') /\ P s' /\ measure s' < measure s) \/
     (exists r, body s = Ok (inr r) /\ Q r)) ->
  exists r, while_loop fuel body s = Ok r /\ Q r.
Proof.
  intros HP Hf Hm Hstep. revert s HP Hf. induction fuel as [|fuel IH]; intros s HP Hf; cbn [while_loop].
  - specialize (Hm s HP). lia.
  - destruct (Hstep s HP) as [(s' & -> & HP' & Hlt)|(r & -> & HQ)]; cbn [mbind outcome_bind]; [|by eauto].
    apply IH; [done|lia].
Qed.

Lemma for_pure_inv (P : Z -> S -> Prop) n i body s :
  P i s ->
  (forall k s, i <= k < i + Z.of_nat n -> P k s -> P (k + 1) (body k s)) ->
  P (i + Z.of_nat n) (for_pure n i body s).
Proof.
  revert i s. induction n as [|n IH]; intros i s HP Hstep; cbn [for_pure].
  - by replace (i + Z.of_nat 0) with i by lia.
  - replace (i + Z.of_nat (Datatypes.S n)) with (i + 1 + Z.of_nat n) by lia.
    apply IH; [apply Hstep; [lia|done]|]. intros k s' Hk. apply Hstep. lia.
Qed.

End loops.

Lemma for_each_inv {A S} (P : list A -> S -> Prop) (body : A -> S -> outcome S) l s :
  P [] s -> (forall done x s, P done s -> x ∈ l -> exists s', body x s = Ok s' /\ P (done ++ [x]) s') ->
  exists s', for_each l body s = Ok s' /\ P l s'.
Proof.
  intros H0 Hs.
  assert (forall rest done s, P done s -> (forall x, x ∈ rest -> x ∈ l) ->
    exists s', for_each rest body s = Ok s' /\ P (done ++ rest) s') as H.
  { clear s H0. induction rest as [|x rest IH]; intros dn s HP Hin; cbn.
    - exists s. by rewrite app_nil_r.
    - destruct (Hs dn x s HP) as (s1 & -> & HP1); [apply Hin; left|]. cbn.
      destruct (IH (dn ++ [x]) s1 HP1) as (s2 & -> & HP2).
      + intros y Hy. apply Hin. by right.
      + exists s2. split; [done|]. by rewrite <- app_assoc in HP2. }
  destruct (H l [] s H0) as (s' & -> & HP); [done|]. exists s'. done.
Qed.

Lemma span_spec lo hi : (lo <= hi)%Z -> (lo + Z.of_nat (span lo hi) = hi)%Z.
Proof. unfold span. lia. Qed.

Lemma span_empty lo hi : (hi <= lo)%Z -> span lo hi = O.
Proof. unfold span. lia. Qed.

(** ** Lists *)

(** Removing an element that is not there. *)
Lemma filter_notin {A} `{EqDecision A} (l : list A) (p : A) : p ∉ l -> filter (fun q => q <> p) l = l.
Proof.
  induction l as [|x l IH]; [done|]. rewrite not_elem_of_cons. intros [Hx Hl].
  rewrite filter_cons_True by congruence. by rewrite IH.
Qed.

Lemma omap_fmap {A B C} (f : A -> B) (g : B -> option C) (l : list A) :
  omap g (f <$> l) = omap (fun x => g (f x)) l.
Proof. induction l as [|x l IH]; csimpl; [done|]. by rewrite IH. Qed.

(** Updating a map at a key the list does not mention. *)
Lemma omap_insert_notin {A} (m : gmap Z A) (p : Z) (a : A) (l : list Z) : p ∉ l ->
  omap (fun q => <[p := a]> m !! q) l = omap (fun q => m !! q) l.
Proof.
  induction l as [|q l IH]; [done|]. rewrite not_elem_of_cons. intros [Hq Hl]. csimpl.
  rewrite lookup_insert_ne, IH by done. done.
Qed.

Lemma omap_delete_notin {A} (m : gmap Z A) (p : Z) (l : list Z) : p ∉ l ->
  omap (fun q => delete p m !! q) l = omap (fun q => m !! q) l.
Proof.
  induction l as [|q l IH]; [done|]. rewrite not_elem_of_cons. intros [Hq Hl]. csimpl.
  rewrite lookup_delete_ne, IH by done. done.
Qed.
