(* ===== verification/StateM.v ===== *)
(** * State passing with the outcomes of C code

    The operations of a component as functions of its state; a [while] loop
    runs on fuel and faults when the fuel is used up. *)

From S2P Require Import Prelude.

Local Open Scope Z_scope.

Definition ST (S A : Type) : Type := S -> outcome (A * S).

#[export] Instance ST_ret {S} : MRet (ST S) := fun A a s => Ok (a, s).
#[export] Instance ST_bind {S} : MBind (ST S) := fun A B f e s => '(a, s) ← e s; f a s.

Section ops.
Context {S : Type}.

Definition st_gets {A} (f : S -> A) : ST S A := fun s => Ok (f s, s).
Definition st_modify (f : S -> S) : ST S unit := fun s => Ok (tt, f s).
(** A read through a pointer. *)
Definition st_deref {A} (f : S -> option A) : ST S A := fun s => a ← deref (f s); Ok (a, s).
Definition st_panic {A} : ST S A := fun _ => Panic.

Fixpoint st_loop {A R} (fuel : nat) (body : A -> ST S (A + R)) (a : A) : ST S R :=
  match fuel with
  | O => fun _ => Fault
  | Datatypes.S fuel =>
      x ← body a;
      match x with inl a' => st_loop fuel body a' | inr r => mret r end
  end.

Lemma st_step {A B} (e : ST S A) (f : A -> ST S B) s a s' : e s = Ok (a, s') -> (e ≫= f) s = f a s'.
Proof. intros E. unfold mbind, ST_bind. by rewrite E. Qed.

Lemma st_fault {A B} (e : ST S A) (f : A -> ST S B) s : e s = Fault -> (e ≫= f) s = Fault.
Proof. intros E. unfold mbind, ST_bind. by rewrite E. Qed.

Lemma st_modify_step {B} (g : S -> S) (f : unit -> ST S B) s : (st_modify g ≫= f) s = f tt (g s).
Proof. done. Qed.

Lemma st_gets_step {A B} (g : S -> A) (f : A -> ST S B) s : (st_gets g ≫= f) s = f (g s) s.
Proof. done. Qed.

Lemma st_deref_step {A B} (g : S -> option A) (f : A -> ST S B) s a : g s = Some a -> (st_deref g ≫= f) s = f a s.
Proof. intros E. apply st_step. unfold st_deref. by rewrite E. Qed.

Lemma st_ret_step {A B} (a : A) (f : A -> ST S B) s : (mret a ≫= f) s = f a s.
Proof. done. Qed.

Lemma st_bind_Ok {A B} (e : ST S A) (f : A -> ST S B) s b s' :
  (e ≫= f) s = Ok (b, s') -> exists a s1, e s = Ok (a, s1) /\ f a s1 = Ok (b, s').
Proof. unfold mbind, ST_bind. destruct (e s) as [[a s1]| |]; [|done..]. cbn. eauto. Qed.

(** The rule for loops: an invariant, and a measure that every further turn
    lowers. *)
Lemma st_loop_rule {A R} (P : A -> S -> Prop) (Q : R -> S -> Prop) (measure : A -> S -> Z) (body : A -> ST S (A + R)) :
  (forall a s, P a s -> 0 <= measure a s /\ exists x s', body a s = Ok (x, s') /\
     match x with inl a' => P a' s' /\ measure a' s' < measure a s | inr r => Q r s' end) ->
  forall fuel a s, P a s -> measure a s < Z.of_nat fuel ->
  exists r s', st_loop fuel body a s = Ok (r, s') /\ Q r s'.
Proof.
  intros Hstep. induction fuel as [|fuel IH]; intros a s HP Hf; destruct (Hstep a s HP) as [H0 (x & s' & E & Hx)]; [lia|].
  cbn [st_loop]. rewrite (st_step _ _ _ _ _ E). destruct x as [a'|r]; [|by eexists _, _].
  destruct Hx as [HP' Hm]. apply IH; [done|lia].
Qed.

End ops.

(** One statement of the code whose result is known. *)
Ltac st_next := first
  [ rewrite st_modify_step | rewrite st_gets_step | rewrite st_ret_step
  | match goal with E : ?e ?s = Ok (?a, ?s') |- context [(?e ≫= _) ?s] => rewrite (st_step e _ s a s' E) end ].
