(* ===== verification/ListHead.v ===== *)
(** * Intrusive doubly linked lists (kernel/include/list.h)

    The kernel's queues are circular lists of nodes embedded in their objects.
    Here the nodes are a store of pointer pairs; [is_list] says that a head
    represents a sequence, and every operation on pointers refines the
    operation on sequences that the other files use for it.  A pointer that is
    no node is a [Fault]. *)

From S2P Require Import Prelude.

Local Open Scope Z_scope.

(** ** Model *)

(** list.h: struct list_head *)
Record list_head := ListHead { prev : Z; next : Z }.

Abbreviation nodes := (gmap Z list_head).

Definition get_next (p : Z) (m : nodes) : outcome Z := n ← deref (m !! p); Ok (next n).
Definition get_prev (p : Z) (m : nodes) : outcome Z := n ← deref (m !! p); Ok (prev n).
Definition set_next (p v : Z) (m : nodes) : outcome nodes :=
  n ← deref (m !! p); Ok (<[p := ListHead (prev n) v]> m).
Definition set_prev (p v : Z) (m : nodes) : outcome nodes :=
  n ← deref (m !! p); Ok (<[p := ListHead v (next n)]> m).

(** list.h: INIT_LIST_HEAD *)
Definition INIT_LIST_HEAD (head : Z) (m : nodes) : outcome nodes :=
  m ← set_next head head m; set_prev head head m.

(** list.h: list_add *)
Definition list_add (node head : Z) (m : nodes) : outcome nodes :=
  nx ← get_next head m;
  m ← set_prev nx node m;
  m ← set_next node nx m;
  m ← set_prev node head m;
  set_next head node m.

(** list.h: list_add_tail *)
Definition list_add_tail (node head : Z) (m : nodes) : outcome nodes :=
  pv ← get_prev head m;
  m ← set_next pv node m;
  m ← set_next node head m;
  m ← set_prev node pv m;
  set_prev head node m.

(** list.h: list_del; LIST_POISONING is not defined in the kernel *)
Definition list_del (node : Z) (m : nodes) : outcome nodes :=
  nx ← get_next node m;
  pv ← get_prev node m;
  m ← set_prev nx pv m;
  set_next pv nx m.

(** list.h: list_del_init *)
Definition list_del_init (node : Z) (m : nodes) : outcome nodes :=
  m ← list_del node m; INIT_LIST_HEAD node m.

(** list.h: list_empty *)
Definition list_empty (head : Z) (m : nodes) : outcome bool :=
  nx ← get_next head m; Ok (nx =? head).

(** list.h: list_is_singular *)
Definition list_is_singular (head : Z) (m : nodes) : outcome bool :=
  e ← list_empty head m;
  if e : bool then Ok false
  else pv ← get_prev head m; nx ← get_next head m; Ok (pv =? nx).

(** list.h: list_splice *)
Definition list_splice (list head : Z) (m : nodes) : outcome nodes :=
  head_first ← get_next head m;
  list_first ← get_next list m;
  list_last ← get_prev list m;
  e ← list_empty list m;
  if e : bool then Ok m
  else
    m ← set_next head list_first m;
    m ← set_prev list_first head m;
    m ← set_next list_last head_first m;
    set_prev head_first list_last m.

(** list.h: list_splice_tail *)
Definition list_splice_tail (list head : Z) (m : nodes) : outcome nodes :=
  head_last ← get_prev head m;
  list_first ← get_next list m;
  list_last ← get_prev list m;
  e ← list_empty list m;
  if e : bool then Ok m
  else
    m ← set_prev head list_last m;
    m ← set_next list_last head m;
    m ← set_prev list_first head_last m;
    set_next head_last list_first m.

(** list.h: list_splice_init, list_splice_tail_init *)
Definition list_splice_init (list head : Z) (m : nodes) : outcome nodes :=
  m ← list_splice list head m; INIT_LIST_HEAD list m.
Definition list_splice_tail_init (list head : Z) (m : nodes) : outcome nodes :=
  m ← list_splice_tail list head m; INIT_LIST_HEAD list m.

(** list.h: list_move, list_move_tail *)
Definition list_move (node head : Z) (m : nodes) : outcome nodes :=
  m ← list_del node m; list_add node head m.
Definition list_move_tail (node head : Z) (m : nodes) : outcome nodes :=
  m ← list_del node m; list_add_tail node head m.

(** list.h: the nodes that list_for_each visits; [fuel] bounds the loop *)
Fixpoint list_walk (fuel : nat) (node head : Z) (m : nodes) : outcome (list Z) :=
  if node =? head then Ok []
  else
    match fuel with
    | O => Fault
    | S fuel => nx ← get_next node m; l ← list_walk fuel nx head m; Ok (node :: l)
    end.

Definition list_for_each (fuel : nat) (head : Z) (m : nodes) : outcome (list Z) :=
  nx ← get_next head m; list_walk fuel nx head m.

(** ** Representation *)

Definition nxt (m : nodes) (a : Z) : option Z := next <$> m !! a.
Definition prv (m : nodes) (a : Z) : option Z := prev <$> m !! a.

(** [a] points forward to [b] and [b] back to [a]. *)
Definition linked (m : nodes) (a b : Z) : Prop := nxt m a = Some b /\ prv m b = Some a.

(** Neighbours in a sequence are linked. *)
Fixpoint chain (m : nodes) (l : list Z) : Prop :=
  match l with
  | a :: (b :: _) as t => linked m a b /\ chain m t
  | _ => True
  end.

(** Head [h] represents the sequence [l]. *)
Definition is_list (m : nodes) (h : Z) (l : list Z) : Prop :=
  NoDup (h :: l) /\ chain m (h :: l ++ [h]).

(** ** Lemmas *)

Lemma store_next_spec p v m : is_Some (nxt m p) ->
  exists m', set_next p v m = Ok m' /\ (forall x, nxt m' x = if decide (x = p) then Some v else nxt m x) /\
    (forall x, prv m' x = prv m x).
Proof.
  unfold set_next, nxt, prv. destruct (m !! p) as [n|] eqn:E; [|by intros []]. intros _. eexists. split; [done|].
  split; intros x; rewrite lookup_insert; destruct (decide (x = p)) as [->|Hn];
    rewrite ?decide_True, ?decide_False by congruence; rewrite ?E; done.
Qed.

Lemma store_prev_spec p v m : is_Some (nxt m p) ->
  exists m', set_prev p v m = Ok m' /\ (forall x, prv m' x = if decide (x = p) then Some v else prv m x) /\
    (forall x, nxt m' x = nxt m x).
Proof.
  unfold set_prev, nxt, prv. destruct (m !! p) as [n|] eqn:E; [|by intros []]. intros _. eexists. split; [done|].
  split; intros x; rewrite lookup_insert; destruct (decide (x = p)) as [->|Hn];
    rewrite ?decide_True, ?decide_False by congruence; rewrite ?E; done.
Qed.

Lemma get_next_spec p m v : nxt m p = Some v -> get_next p m = Ok v.
Proof. unfold nxt, get_next. destruct (m !! p); [|done]. cbn. by intros [= <-]. Qed.

Lemma get_prev_spec p m v : prv m p = Some v -> get_prev p m = Ok v.
Proof. unfold prv, get_prev. destruct (m !! p); [|done]. cbn. by intros [= <-]. Qed.

Lemma prv_nxt m p : is_Some (prv m p) <-> is_Some (nxt m p).
Proof. unfold prv, nxt. destruct (m !! p); split; intros []; by eauto. Qed.

Lemma chain_app m l1 x l2 : chain m (l1 ++ x :: l2) <-> chain m (l1 ++ [x]) /\ chain m (x :: l2).
Proof.
  induction l1 as [|a l1 IH]; [cbn; tauto|]. destruct l1 as [|b l1]; cbn in *; [tauto|]. rewrite IH. tauto.
Qed.

(** A chain survives a change of the pointers it does not use: the forward
    pointer of its last and the backward pointer of its first node. *)
Lemma chain_frame m m' l :
  chain m l -> (forall a q z, l = q ++ [z] -> a ∈ q -> nxt m' a = nxt m a) ->
  (forall b, b ∈ tail l -> prv m' b = prv m b) -> chain m' l.
Proof.
  induction l as [|a l IH]; [done|]. destruct l as [|b l]; [done|]. intros [[H1 H2] Hc] Hn Hp. split.
  - split; [|rewrite Hp; [done|left]].
    destruct (exists_last (l := b :: l)) as (q & z & E); [done|].
    rewrite (Hn a (a :: q) z); [done|by rewrite E|left].
  - apply IH; [done| |].
    + intros x q z E Hx. apply (Hn x (a :: q) z); [by rewrite E|by right].
    + intros x Hx. apply Hp. cbn in *. by right.
Qed.

(** The head with its last node, and its first node with the way back. *)
Lemma is_list_last m h l : is_list m h l ->
  exists q pv, h :: l = q ++ [pv] /\ chain m (q ++ [pv]) /\ linked m pv h /\ tail (q ++ [pv]) = l.
Proof.
  intros [Hn Hc]. destruct (exists_last (l := h :: l)) as (q & pv & E); [done|]. exists q, pv.
  change (h :: l ++ [h]) with ((h :: l) ++ [h]) in Hc. rewrite E, <- app_assoc in Hc. cbn in Hc.
  apply chain_app in Hc as [H1 [H2 _]]. split_and!; [done..|]. by rewrite <- E.
Qed.

Lemma nxt_chain m l a b : chain m l -> forall q r, l = q ++ a :: b :: r -> linked m a b.
Proof. intros Hc q r ->. apply chain_app in Hc as [_ [H _]]. exact H. Qed.

Lemma is_list_node m h l x : is_list m h l -> x ∈ h :: l -> is_Some (nxt m x) /\ is_Some (prv m x).
Proof.
  intros [_ Hc] Hx. assert (is_Some (nxt m x)) as H; [|by rewrite prv_nxt].
  apply list_elem_of_split in Hx as (q & r & E). change (h :: l ++ [h]) with ((h :: l) ++ [h]) in Hc. rewrite E in Hc.
  destruct r as [|y r].
  - destruct (nxt_chain m _ x h Hc q []) as [-> _]; [by rewrite <- app_assoc|]. by eauto.
  - destruct (nxt_chain m _ x y Hc q (r ++ [h])) as [-> _]; [by rewrite <- app_assoc|]. by eauto.
Qed.

(** Lists whose nodes are untouched stay as they are. *)
Definition same_off (S : list Z) (m m' : nodes) : Prop :=
  forall x, x ∉ S -> nxt m' x = nxt m x /\ prv m' x = prv m x.

Lemma is_list_off S m m' h l : same_off S m m' -> is_list m h l -> (forall x, x ∈ h :: l -> x ∉ S) -> is_list m' h l.
Proof.
  intros Hs [Hn Hc] Hd. split; [done|]. eapply chain_frame; [done| |].
  - intros a q z E Ha. apply Hs, Hd. change (h :: l ++ [h]) with ((h :: l) ++ [h]) in E.
    apply app_inj_tail in E as [<- _]. done.
  - intros b Hb. apply Hs, Hd. cbn in Hb. set_solver.
Qed.

(** Runs the next pointer store of the goal. *)
Ltac set_step :=
  match goal with
  | |- context [set_next ?p ?v ?m] =>
      let m' := fresh "m" in let N := fresh "N" in let P := fresh "P" in
      destruct (store_next_spec p v m) as (m' & -> & N & P)
  | |- context [set_prev ?p ?v ?m] =>
      let m' := fresh "m" in let N := fresh "N" in let P := fresh "P" in
      destruct (store_prev_spec p v m) as (m' & -> & P & N)
  end; [try done|cbn [mbind outcome_bind]].

(** The pointers after each operation. *)
Lemma init_eff h m : is_Some (nxt m h) ->
  exists m', INIT_LIST_HEAD h m = Ok m' /\
    (forall x, nxt m' x = if decide (x = h) then Some h else nxt m x) /\
    (forall x, prv m' x = if decide (x = h) then Some h else prv m x).
Proof.
  intros H. unfold INIT_LIST_HEAD. set_step. set_step; [rewrite N, decide_True by done; by eauto|].
  eexists. split; [done|]. split; intros x; [by rewrite N0, N|by rewrite P0, P].
Qed.

Lemma list_add_tail_eff node h pv m :
  prv m h = Some pv -> is_Some (nxt m pv) -> is_Some (nxt m node) ->
  exists m', list_add_tail node h m = Ok m' /\
    (forall x, nxt m' x = if decide (x = node) then Some h else if decide (x = pv) then Some node else nxt m x) /\
    (forall x, prv m' x = if decide (x = h) then Some node else if decide (x = node) then Some pv else prv m x).
Proof.
  intros H1 H2 H3. unfold list_add_tail. rewrite (get_prev_spec h m pv) by done. cbn [mbind outcome_bind].
  set_step. set_step; [rewrite N; case_decide; by eauto|]. set_step; [rewrite N0, decide_True by done; by eauto|].
  set_step. { rewrite N1, N0, N. repeat case_decide; eauto. apply prv_nxt. by eauto. }
  eexists. split; [done|]. split; intros x; [by rewrite N2, N1, N0, N|by rewrite P2, P1, P0, P].
Qed.

Lemma list_add_eff node h nx m :
  nxt m h = Some nx -> is_Some (nxt m nx) -> is_Some (nxt m node) -> h <> node ->
  exists m', list_add node h m = Ok m' /\
    (forall x, nxt m' x = if decide (x = h) then Some node else if decide (x = node) then Some nx else nxt m x) /\
    (forall x, prv m' x = if decide (x = node) then Some h else if decide (x = nx) then Some node else prv m x).
Proof.
  intros H1 H2 H3 Hne. unfold list_add. rewrite (get_next_spec h m nx) by done. cbn [mbind outcome_bind].
  set_step. set_step; [by rewrite N|]. set_step; [rewrite N0, decide_True by done; by eauto|].
  set_step. { rewrite N1, N0, decide_False, N, H1 by done. by eauto. }
  eexists. split; [done|]. split; intros x; [by rewrite N2, N1, N0, N|by rewrite P2, P1, P0, P].
Qed.

Lemma list_del_eff x pv nx m :
  nxt m x = Some nx -> prv m x = Some pv -> is_Some (nxt m pv) -> is_Some (nxt m nx) ->
  exists m', list_del x m = Ok m' /\
    (forall y, nxt m' y = if decide (y = pv) then Some nx else nxt m y) /\
    (forall y, prv m' y = if decide (y = nx) then Some pv else prv m y).
Proof.
  intros H1 H2 H3 H4. unfold list_del.
  rewrite (get_next_spec x m nx), (get_prev_spec x m pv) by done. cbn [mbind outcome_bind].
  set_step. set_step; [by rewrite N|]. eexists. split; [done|].
  split; intros y; [by rewrite N0, N|by rewrite P0, P].
Qed.

(** ** Refinement of the sequence operations *)

Lemma NoDup_snoc (l : list Z) x : NoDup l -> x ∉ l -> NoDup (l ++ [x]).
Proof.
  intros Hl Hx. apply NoDup_app. split_and!; [done| |apply NoDup_singleton].
  intros y Hy ->%list_elem_of_singleton. done.
Qed.

Lemma list_add_tail_spec m h l node :
  is_list m h l -> node ∉ h :: l -> is_Some (nxt m node) ->
  exists m', list_add_tail node h m = Ok m' /\ is_list m' h (l ++ [node]) /\ same_off (h :: l ++ [node]) m m'.
Proof.
  intros Hl Hn Hs. pose proof Hl as [Hnd Hc]. destruct (is_list_last m h l Hl) as (q & pv & E & Hq & [L1 L2] & Et).
  assert (pv ∈ h :: l) as Hpv by (rewrite E; apply elem_of_app; right; left).
  destruct (list_add_tail_eff node h pv m) as (m' & -> & N & P); [done|by rewrite L1|done|].
  exists m'. split; [done|]. assert (pv <> node) by (intros ->; done).
  apply not_elem_of_cons in Hn as [Hh Hn]. pose proof Hnd as [Hhl _]%NoDup_cons.
  assert (pv ∉ q /\ forall a, a ∈ q -> a ∈ h :: l) as [Q1 Q2].
  { rewrite E in Hnd. apply NoDup_app in Hnd as (_ & Q & _). split.
    - intros Hx. apply (Q pv Hx). left.
    - intros a Ha. rewrite E. apply elem_of_app. by left. }
  split; [|intros x Hx; rewrite N, P; apply not_elem_of_cons in Hx as [Hx1 [Hx2 Hx3]%not_elem_of_app];
    rewrite not_elem_of_cons in Hx3; rewrite !decide_False; [done|naive_solver..|intros ->; by apply elem_of_cons in Hpv as [?|?]|naive_solver]].
  split.
  - change (h :: l ++ [node]) with ((h :: l) ++ [node]). apply NoDup_snoc; [done|]. apply not_elem_of_cons. done.
  - change (h :: (l ++ [node]) ++ [h]) with (((h :: l) ++ [node]) ++ [h]). rewrite E, <- !app_assoc. cbn [app].
    apply chain_app. split.
    + eapply chain_frame; [exact Hq| |].
      * intros a q' z E' Ha. apply app_inj_tail in E' as [<- <-]. rewrite N, !decide_False; [done| |].
        -- by intros ->.
        -- intros ->. apply Q2, elem_of_cons in Ha as [?|?]; done.
      * intros b Hb. rewrite Et in Hb. rewrite P, !decide_False; [done| |]; by intros ->.
    + cbn [chain]. repeat split; rewrite ?N, ?P; repeat case_decide; congruence.
Qed.

(** The neighbours of a node in the middle of a list. *)
Lemma is_list_middle m h l1 x l2 : is_list m h (l1 ++ x :: l2) ->
  exists q pv nx r, h :: l1 = q ++ [pv] /\ l2 ++ [h] = nx :: r /\
    chain m (q ++ [pv]) /\ linked m pv x /\ linked m x nx /\ chain m (nx :: r).
Proof.
  intros [Hn Hc]. destruct (exists_last (l := h :: l1)) as (q & pv & E); [done|].
  destruct (l2 ++ [h]) as [|nx r] eqn:E2; [by apply app_eq_nil in E2 as [_ ?]|]. exists q, pv, nx, r.
  change (h :: (l1 ++ x :: l2) ++ [h]) with (((h :: l1) ++ x :: l2) ++ [h]) in Hc.
  rewrite E, <- !app_assoc in Hc. cbn [app] in Hc. rewrite E2 in Hc. apply chain_app in Hc as [H1 (H2 & H3 & H4)].
  split_and!; done.
Qed.

(** Unlinking a node closes the list behind it. *)
Lemma list_del_node_spec m h l1 x l2 :
  is_list m h (l1 ++ x :: l2) ->
  exists m', list_del x m = Ok m' /\ is_list m' h (l1 ++ l2) /\ same_off (h :: l1 ++ l2) m m'.
Proof.
  intros Hl. destruct (is_list_middle m h l1 x l2 Hl) as (q & pv & nx & r & E1 & E2 & C1 & [L1 L1'] & [L2 L2'] & C2).
  pose proof Hl as [Hnd _]. pose proof Hnd as [Hh Hnd']%NoDup_cons. apply NoDup_app in Hnd' as (N1 & N2 & N3).
  pose proof N3 as [Nx N3']%NoDup_cons.
  assert (forall a, a ∈ h :: l1 -> a ∉ l2) as Hdis.
  { intros a Ha Hb. apply elem_of_cons in Ha as [->|Ha].
    - apply Hh. apply elem_of_app. right. by right.
    - apply (N2 a Ha). by right. }
  assert (pv ∈ h :: l1) as Hpv by (rewrite E1; apply elem_of_app; right; left).
  assert (nx ∈ l2 \/ nx = h) as Hnx.
  { destruct l2; cbn in E2; injection E2 as <- <-; [by right|left; left]. }
  destruct (list_del_eff x pv nx m) as (m' & -> & N & P); [done|done|by rewrite L1|by apply prv_nxt; rewrite L2'|].
  assert (NoDup (h :: l1 ++ l2)) as Hnd2.
  { apply NoDup_cons. split.
    - intros Hx. apply Hh. apply elem_of_app in Hx as [?|?]; apply elem_of_app; [by left|right; by right].
    - apply NoDup_app. split_and!; [done| |done]. intros y Hy Hz. apply (N2 y Hy). by right. }
  exists m'. split; [done|]. split.
  - split; [done|]. change (h :: (l1 ++ l2) ++ [h]) with (((h :: l1) ++ l2) ++ [h]).
    rewrite E1, <- !app_assoc, E2. cbn [app]. apply chain_app. split.
    + eapply chain_frame; [exact C1| |].
      * intros a q' z E Ha. apply app_inj_tail in E as [<- <-]. rewrite N, decide_False; [done|]. intros ->.
        assert (NoDup (h :: l1)) as Hd.
        { apply NoDup_cons. split; [|done]. intros Hx. apply Hh, elem_of_app. by left. }
        rewrite E1 in Hd. apply NoDup_app in Hd as (_ & Hd & _). apply (Hd pv Ha). left.
      * intros b Hb. rewrite P, decide_False; [done|]. rewrite <- E1 in Hb. cbn in Hb. intros ->.
        destruct Hnx as [Hx| ->]; [|apply Hh, elem_of_app; by left]. apply (Hdis nx); [by right|done].
    + split; [split; [by rewrite N, decide_True|by rewrite P, decide_True]|].
      eapply chain_frame; [exact C2| |].
      * intros a q' z E Ha. rewrite <- E2 in E. apply app_inj_tail in E as [<- _].
        rewrite N, decide_False; [done|]. intros ->. by apply (Hdis pv).
      * intros b Hb. rewrite P, decide_False; [done|]. cbn in Hb. intros ->.
        assert (NoDup (nx :: r)) as Hd; [|by apply NoDup_cons in Hd as [? _]].
        rewrite <- E2. apply NoDup_snoc; [done|]. intros Hx. by apply (Hdis h); [left|].
  - intros y Hy. rewrite N, P, !decide_False; [done| |].
    + intros ->. apply Hy. destruct Hnx as [Hx| ->]; [right; apply elem_of_app; by right|left].
    + intros ->. apply Hy. apply elem_of_cons in Hpv as [->|Hx]; [left|right; apply elem_of_app; by left].
Qed.

Lemma list_del_init_spec m h l1 x l2 :
  is_list m h (l1 ++ x :: l2) ->
  exists m', list_del_init x m = Ok m' /\ is_list m' h (l1 ++ l2) /\ is_list m' x [] /\
    same_off (h :: l1 ++ x :: l2) m m'.
Proof.
  intros Hl. unfold list_del_init. destruct (list_del_node_spec m h l1 x l2 Hl) as (m1 & -> & H1 & S1). cbn [mbind outcome_bind].
  pose proof Hl as [Hnd _]. pose proof Hnd as [Hh Hnd']%NoDup_cons. apply NoDup_app in Hnd' as (N1 & N2 & [Nx N3]%NoDup_cons).
  assert (x ∉ h :: l1 ++ l2) as Hx.
  { rewrite not_elem_of_cons, not_elem_of_app. split_and!.
    - intros ->. apply Hh, elem_of_app. right. left.
    - intros Hx. apply (N2 x Hx). left.
    - done. }
  destruct (is_list_node m h (l1 ++ x :: l2) x Hl) as [Hs _]; [right; apply elem_of_app; right; left|].
  destruct (init_eff x m1) as (m' & -> & N & P); [by rewrite (proj1 (S1 x Hx))|].
  assert (same_off [x] m1 m') as S2.
  { intros y [Hy _]%not_elem_of_cons. by rewrite N, P, !decide_False. }
  exists m'. split; [done|]. split_and!.
  - apply (is_list_off [x] m1); [done|done|]. intros y Hy ->%list_elem_of_singleton. done.
  - split; [apply NoDup_singleton|]. split; [|done]. split; [by rewrite N, decide_True|by rewrite P, decide_True].
  - intros y Hy.
    assert (y ∉ [x] /\ y ∉ h :: l1 ++ l2) as [Y1 Y2].
    { apply not_elem_of_cons in Hy as [Y0 [Y1 [Yx Y2]%not_elem_of_cons]%not_elem_of_app]. split.
      - apply not_elem_of_cons. split; [done|apply not_elem_of_nil].
      - apply not_elem_of_cons. split; [done|]. by apply not_elem_of_app. }
    destruct (S2 y Y1) as [-> ->]. by apply S1.
Qed.

Lemma list_add_spec m h l node :
  is_list m h l -> node ∉ h :: l -> is_Some (nxt m node) ->
  exists m', list_add node h m = Ok m' /\ is_list m' h (node :: l) /\ same_off (h :: node :: l) m m'.
Proof.
  intros Hl Hn Hs. pose proof Hl as [Hnd Hc]. pose proof Hnd as [Hh Hnd']%NoDup_cons.
  destruct (l ++ [h]) as [|nx r] eqn:E; [by apply app_eq_nil in E as [_ ?]|]. destruct Hc as [[L1 L2] C].
  assert (nx ∈ h :: l) as Hnx.
  { destruct l; cbn in E; injection E as <- <-; [left|right; left]. }
  apply not_elem_of_cons in Hn as [Hnh Hnl].
  destruct (list_add_eff node h nx m) as (m' & -> & N & P); [done|by apply prv_nxt; rewrite L2|done|done|].
  exists m'. split; [done|]. split.
  - split.
    + apply NoDup_cons. rewrite not_elem_of_cons. split_and!; [done|done|]. by apply NoDup_cons.
    + cbn [app]. rewrite E. split; [split; [by rewrite N, decide_True|by rewrite P, decide_True]|].
      split.
      * split; [by rewrite N, decide_False, decide_True|]. rewrite P, decide_False, decide_True by (done || (intros ->; by apply elem_of_cons in Hnx as [?|?])). done.
      * eapply chain_frame; [exact C| |].
        -- intros a q z E' Ha. rewrite <- E in E'. apply app_inj_tail in E' as [<- _].
           rewrite N, !decide_False; [done|by intros ->|by intros ->].
        -- intros b Hb. cbn in Hb. assert (NoDup (nx :: r)) as Hd by (rewrite <- E; by apply NoDup_snoc).
           apply NoDup_cons in Hd as [Hd _]. rewrite P, !decide_False; [done|by intros ->|].
           intros ->. assert (node ∈ l ++ [h]) as Hx by (rewrite E; by right).
           apply elem_of_app in Hx as [?|Hx%list_elem_of_singleton]; done.
  - intros x Hx. rewrite !not_elem_of_cons in Hx. destruct Hx as (X1 & X2 & X3).
    rewrite N, P, !decide_False; [done| |done..]. intros ->. by apply elem_of_cons in Hnx as [?|?].
Qed.

(** Walking a list visits its nodes in order. *)
Lemma list_for_each_spec m h l fuel :
  is_list m h l -> (length l <= fuel)%nat -> list_for_each fuel h m = Ok l.
Proof.
  intros [Hnd Hc] Hf. unfold list_for_each. apply NoDup_cons in Hnd as [Hh _].
  enough (forall l a fuel, chain m (a :: l ++ [h]) -> h ∉ l -> (length l <= fuel)%nat ->
    (nx ← get_next a m; list_walk fuel nx h m) = Ok l) as Hw by by apply Hw.
  clear. induction l as [|b l IH]; intros a fuel Hc Hh Hf.
  - destruct Hc as [[L _] _]. rewrite (get_next_spec a m h) by done. cbn. destruct fuel; cbn; by rewrite Z.eqb_refl.
  - destruct Hc as [[L _] Hc]. rewrite (get_next_spec a m b) by done. cbn [mbind outcome_bind].
    apply not_elem_of_cons in Hh as [Hb Hh]. destruct fuel as [|fuel]; cbn [length] in Hf; [lia|].
    cbn [list_walk]. rewrite (proj2 (Z.eqb_neq b h)) by done. specialize (IH b fuel Hc Hh ltac:(lia)).
    destruct (get_next b m) as [nx| |]; [|done..]. cbn [mbind outcome_bind] in *. by rewrite IH.
Qed.

(** Two lists without a common node. *)
Definition apart (h1 : Z) (l1 : list Z) (h2 : Z) (l2 : list Z) : Prop :=
  forall x, x ∈ h1 :: l1 -> x ∉ h2 :: l2.

Lemma same_off_weaken S S' m m' : same_off S m m' -> (forall x, x ∈ S -> x ∈ S') -> same_off S' m m'.
Proof. intros Hs Hi x Hx. apply Hs. naive_solver. Qed.

Lemma same_off_trans S m m1 m' : same_off S m m1 -> same_off S m1 m' -> same_off S m m'.
Proof. intros H1 H2 x Hx. destruct (H1 x Hx), (H2 x Hx). split; congruence. Qed.

(** Unlinking a node and inserting it in another list, for both insertions. *)
Lemma move_spec (add : Z -> Z -> nodes -> outcome nodes) (ins : Z -> list Z -> list Z) m h1 l1 x l2 h2 l3 :
  (forall m h l node, is_list m h l -> node ∉ h :: l -> is_Some (nxt m node) ->
     exists m', add node h m = Ok m' /\ is_list m' h (ins node l) /\ same_off (h :: node :: l) m m') ->
  is_list m h1 (l1 ++ x :: l2) -> is_list m h2 l3 -> apart h1 (l1 ++ x :: l2) h2 l3 ->
  exists m', (m ← list_del x m; add x h2 m) = Ok m' /\ is_list m' h1 (l1 ++ l2) /\ is_list m' h2 (ins x l3) /\
    same_off (h1 :: l1 ++ x :: l2 ++ h2 :: l3) m m'.
Proof.
  intros Hadd H1 H2 Ha. destruct (list_del_node_spec m h1 l1 x l2 H1) as (m1 & -> & L1 & S1).
  cbn [mbind outcome_bind].
  assert (forall y, y ∈ h1 :: l1 ++ l2 -> y ∈ h1 :: l1 ++ x :: l2) as Hin.
  { intros y. rewrite !elem_of_cons, !elem_of_app, elem_of_cons. intros [?|[?|?]]; auto. }
  assert (x ∈ h1 :: l1 ++ x :: l2) as Hx by (right; apply elem_of_app; right; left).
  assert (x ∉ h1 :: l1 ++ l2) as Hxn.
  { destruct H1 as [Hnd _]. change (h1 :: l1 ++ x :: l2) with ((h1 :: l1) ++ x :: l2) in Hnd.
    rewrite <- Permutation_middle in Hnd. by apply NoDup_cons in Hnd as [? _]. }
  assert (is_list m1 h2 l3) as L2.
  { eapply is_list_off; [exact S1|done|]. intros y Hy Hy'. by apply (Ha y); [apply Hin|]. }
  destruct (Hadd m1 h2 l3 x L2) as (m' & -> & L3 & S2); [by apply Ha| |].
  { rewrite (proj1 (S1 x Hxn)). by apply (is_list_node m h1 (l1 ++ x :: l2)). }
  exists m'. split_and!; [done| |done|].
  - eapply is_list_off; [exact S2|done|]. intros y Hy. rewrite !elem_of_cons. intros Hy'.
    destruct (decide (y = x)) as [->|]; [done|]. apply (Ha y); [by apply Hin|]. rewrite elem_of_cons. tauto.
  - apply (same_off_trans _ m m1).
    + eapply same_off_weaken; [exact S1|]. set_solver.
    + eapply same_off_weaken; [exact S2|]. set_solver.
Qed.

Lemma list_empty_spec m h l : is_list m h l -> list_empty h m = Ok (bool_decide (l = [])).
Proof.
  intros [Hnd Hc]. unfold list_empty. apply NoDup_cons in Hnd as [Hh _]. destruct l as [|b l]; destruct Hc as [[L _] _].
  - rewrite (get_next_spec h m h) by done. cbn. by rewrite Z.eqb_refl.
  - rewrite (get_next_spec h m b) by done. cbn [mbind outcome_bind]. apply not_elem_of_cons in Hh as [Hb _].
    by rewrite (proj2 (Z.eqb_neq b h)) by done.
Qed.

Lemma list_is_singular_spec m h l : is_list m h l -> list_is_singular h m = Ok (bool_decide (length l = 1%nat)).
Proof.
  intros Hl. unfold list_is_singular. rewrite (list_empty_spec m h l Hl). cbn [mbind outcome_bind].
  destruct l as [|f l]; [done|]. destruct (last_is_Some (f :: l)) as [_ [z Ez]]; [done|].
  pose proof Hl as [[_ Hnd]%NoDup_cons [[Lf _] _]].
  destruct (is_list_last m h (f :: l) Hl) as (q & pv & E & _ & [_ Lp] & _).
  assert (last (h :: f :: l) = Some pv) as Epv by (rewrite E; apply last_snoc).
  rewrite last_cons, Ez in Epv. injection Epv as ->.
  rewrite (get_prev_spec h m pv), (get_next_spec h m f) by done. cbn [mbind outcome_bind].
  rewrite bool_decide_false by done. f_equal. destruct l as [|g l]; cbn in Ez; [injection Ez as ->; by rewrite Z.eqb_refl|].
  rewrite bool_decide_false by (cbn; lia). apply Z.eqb_neq. intros ->. apply NoDup_cons in Hnd as [Hf _].
  apply Hf. by apply last_Some_elem_of.
Qed.

(** The pointers after splicing the non-empty list [a] in front of list [h]. *)
Lemma list_splice_eff a h fst_ lst hf m :
  nxt m h = Some hf -> nxt m a = Some fst_ -> prv m a = Some lst -> fst_ <> a ->
  is_Some (nxt m lst) -> is_Some (nxt m fst_) -> is_Some (nxt m hf) ->
  exists m', list_splice a h m = Ok m' /\
    (forall x, nxt m' x = if decide (x = lst) then Some hf else if decide (x = h) then Some fst_ else nxt m x) /\
    (forall x, prv m' x = if decide (x = hf) then Some lst else if decide (x = fst_) then Some h else prv m x).
Proof.
  intros H1 H2 H3 Hne S1 S2 S3. unfold list_splice, list_empty.
  rewrite (get_next_spec h m hf), (get_next_spec a m fst_), (get_prev_spec a m lst) by done. cbn [mbind outcome_bind].
  rewrite (proj2 (Z.eqb_neq _ _) Hne).
  set_step. set_step; [rewrite N; case_decide; by eauto|].
  set_step; [rewrite N0, N; case_decide; by eauto|].
  set_step; [rewrite N1, N0, N; repeat case_decide; by eauto|].
  eexists. split; [done|]. split; intros x; [by rewrite N2, N1, N0, N|by rewrite P2, P1, P0, P].
Qed.

(** The pointers after splicing the non-empty list [a] behind list [h]. *)
Lemma list_splice_tail_eff a h fst_ lst hl m :
  prv m h = Some hl -> nxt m a = Some fst_ -> prv m a = Some lst -> fst_ <> a ->
  is_Some (nxt m lst) -> is_Some (nxt m fst_) -> is_Some (nxt m hl) ->
  exists m', list_splice_tail a h m = Ok m' /\
    (forall x, nxt m' x = if decide (x = hl) then Some fst_ else if decide (x = lst) then Some h else nxt m x) /\
    (forall x, prv m' x = if decide (x = fst_) then Some hl else if decide (x = h) then Some lst else prv m x).
Proof.
  intros H1 H2 H3 Hne S1 S2 S3. unfold list_splice_tail, list_empty.
  rewrite (get_prev_spec h m hl), (get_next_spec a m fst_), (get_prev_spec a m lst) by done. cbn [mbind outcome_bind].
  rewrite (proj2 (Z.eqb_neq _ _) Hne).
  set_step; [apply prv_nxt; by eauto|]. set_step; [by rewrite N|].
  set_step; [rewrite N0, N; case_decide; by eauto|].
  set_step; [rewrite N1, N0, N; case_decide; by eauto|].
  eexists. split; [done|]. split; intros x; [by rewrite N2, N1, N0, N|by rewrite P2, P1, P0, P].
Qed.

(** [chain_frame] for distinct nodes, by the ends of the chain. *)
Lemma chain_ends m m' l f z : chain m l -> NoDup l -> head l = Some f -> last l = Some z ->
  (forall x, x ∈ l -> x <> z -> nxt m' x = nxt m x) -> (forall x, x ∈ l -> x <> f -> prv m' x = prv m x) -> chain m' l.
Proof.
  intros Hc Hnd Hf Hz Hn Hp. apply (chain_frame m); [done| |].
  - intros a q y -> Ha. rewrite last_snoc in Hz. injection Hz as ->. apply NoDup_app in Hnd as (_ & Hd & _).
    apply Hn; [apply elem_of_app; by left|]. intros ->. apply (Hd z Ha). left.
  - intros b Hb. destruct l as [|c l]; [done|]. cbn in *. injection Hf as ->. apply NoDup_cons in Hnd as [Hc' _].
    apply Hp; [by right|]. by intros ->.
Qed.

Lemma chain_cat m l1 l2 x y : chain m l1 -> last l1 = Some x -> head l2 = Some y -> linked m x y -> chain m l2 ->
  chain m (l1 ++ l2).
Proof.
  intros H1 Hx Hy Hl H2. apply last_Some in Hx as [q ->]. destruct l2 as [|y' l2]; [done|]. injection Hy as ->.
  rewrite <- app_assoc. cbn [app]. apply chain_app. done.
Qed.

(** A list by its ends: the nodes in order, and the way back to the head. *)
Lemma is_list_ends m h l z : last (h :: l) = Some z ->
  is_list m h l <-> NoDup (h :: l) /\ chain m (h :: l) /\ linked m z h.
Proof.
  intros [q E]%last_Some. unfold is_list. change (h :: l ++ [h]) with ((h :: l) ++ [h]). rewrite E, <- app_assoc.
  cbn [app]. rewrite (chain_app m q z [h]). cbn. tauto.
Qed.

Lemma list_splice_empty m a h lh : is_list m a [] -> is_list m h lh ->
  list_splice a h m = Ok m /\ list_splice_tail a h m = Ok m.
Proof.
  intros Ha Hh. unfold list_splice, list_splice_tail. rewrite (list_empty_spec m a []), bool_decide_true by done.
  destruct (is_list_last m h lh Hh) as (q & pv & _ & _ & [_ L] & _). destruct Ha as [_ [[L1 L2] _]].
  destruct (is_list_node m h lh h Hh) as [[nx Hnx] _]; [left|].
  rewrite (get_prev_spec h m pv), (get_next_spec h m nx), (get_next_spec a m a), (get_prev_spec a m a) by done. done.
Qed.

Lemma list_splice_tail_cons m a f la h lh :
  is_list m a (f :: la) -> is_list m h lh -> apart a (f :: la) h lh ->
  exists m', list_splice_tail a h m = Ok m' /\ is_list m' h (lh ++ f :: la) /\ same_off (h :: lh ++ f :: la) m m'.
Proof.
  intros Ha Hh Hd. pose proof Ha as [[Haa Hna]%NoDup_cons [[Lf1 Lf2] _]]. apply not_elem_of_cons in Haa as [Haf _].
  destruct (last_is_Some (f :: la)) as [_ [lst Elst]]; [done|]. destruct (last_is_Some (h :: lh)) as [_ [hl Ehl]]; [done|].
  pose proof (proj1 (is_list_ends m a (f :: la) lst ltac:(by rewrite last_cons, Elst)) Ha) as (_ & [_ Ca] & [La1 La2]).
  pose proof (proj1 (is_list_ends m h lh hl Ehl) Hh) as (Hnh & Ch & [Lh1 Lh2]).
  assert (lst ∈ f :: la) as Hlst by by apply last_Some_elem_of.
  assert (hl ∈ h :: lh) as Hhl by by apply last_Some_elem_of.
  assert (forall x, x ∈ f :: la -> x ∉ h :: lh) as Hfa by (intros x Hx; apply Hd; by right).
  destruct (list_splice_tail_eff a h f lst hl m) as (m' & -> & N & P);
    [done..|by rewrite La1|by apply prv_nxt; rewrite Lf2|by rewrite Lh1|].
  exists m'. split; [done|]. split.
  2:{ intros x Hx. rewrite app_comm_cons, not_elem_of_app in Hx. destruct Hx as [Hx1 Hx2].
      rewrite N, P, !decide_False; [done|..]; intros ->; set_solver. }
  rewrite (is_list_ends m' h (lh ++ f :: la) lst) by (by rewrite app_comm_cons, last_app, Elst). split_and!.
  - rewrite app_comm_cons. apply NoDup_app. split_and!; [done| |done]. intros x Hx Hx'. by apply (Hfa x).
  - rewrite app_comm_cons. apply (chain_cat m' _ _ hl f); [|done|done| |].
    + apply (chain_ends m m' (h :: lh) h hl); [done..| |].
      * intros x Hx Hxl. rewrite N, !decide_False; [done| |done]. intros ->. by apply (Hfa lst).
      * intros x Hx Hxh. rewrite P, !decide_False; [done|done|]. intros ->. apply (Hfa f); [left|done].
    + split; [by rewrite N, decide_True|by rewrite P, decide_True].
    + apply (chain_ends m m' (f :: la) f lst); [done..| |].
      * intros x Hx Hxl. rewrite N, !decide_False; [done|done|]. intros ->. by apply (Hfa hl).
      * intros x Hx Hxf. rewrite P, !decide_False; [done| |done]. intros ->. apply (Hfa h); [done|left].
  - split; [rewrite N, decide_False, decide_True by (done || (intros ->; by apply (Hfa hl))); done|].
    rewrite P, decide_False, decide_True; [done|done|]. intros ->. apply (Hfa f); left.
Qed.

Lemma list_splice_cons m a f la h lh :
  is_list m a (f :: la) -> is_list m h lh -> apart a (f :: la) h lh ->
  exists m', list_splice a h m = Ok m' /\ is_list m' h ((f :: la) ++ lh) /\ same_off (h :: (f :: la) ++ lh) m m'.
Proof.
  intros Ha Hh Hd. pose proof Ha as [[Haa Hna]%NoDup_cons [[Lf1 Lf2] _]]. apply not_elem_of_cons in Haa as [Haf _].
  destruct (last_is_Some (f :: la)) as [_ [lst Elst]]; [done|].
  pose proof (proj1 (is_list_ends m a (f :: la) lst ltac:(by rewrite last_cons, Elst)) Ha) as (_ & [_ Ca] & [La1 La2]).
  assert (lst ∈ f :: la) as Hlst by by apply last_Some_elem_of.
  assert (forall x, x ∈ f :: la -> x ∉ h :: lh) as Hfa by (intros x Hx; apply Hd; by right).
  pose proof Hh as [[Hhl Hnl]%NoDup_cons Ch]. destruct (lh ++ [h]) as [|hf r] eqn:Er; [by apply app_eq_nil in Er as [_ ?]|].
  destruct Ch as [[Lh1 Lh2] Ch].
  assert (hf ∈ h :: lh) as Hhf by (destruct lh; cbn in Er; injection Er as <- <-; set_solver).
  assert (forall x, x ∈ hf :: r -> x ∈ h :: lh) as Hr by (intros x; rewrite <- Er; set_solver).
  assert (last (hf :: r) = Some h) as Elast by (rewrite <- Er; apply last_snoc).
  assert (NoDup (hf :: r)) as Hnr by (rewrite <- Er; by apply NoDup_snoc).
  destruct (list_splice_eff a h f lst hf m) as (m' & -> & N & P);
    [done..|by rewrite La1|by apply prv_nxt; rewrite Lf2|by apply prv_nxt; rewrite Lh2|].
  exists m'. split; [done|]. split.
  2:{ intros x Hx. rewrite not_elem_of_cons, not_elem_of_app in Hx. rewrite N, P, !decide_False; [done|..]; intros ->; set_solver. }
  split.
  - apply NoDup_cons. split; [rewrite not_elem_of_app; split; [intros Hx; by apply (Hfa h Hx); left|done]|].
    apply NoDup_app. split_and!; [done| |done]. intros x Hx Hx'. apply (Hfa x Hx). by right.
  - rewrite <- app_assoc, Er. apply (chain_cat m' [h] _ h f); [done|done|done| |].
    + split; [rewrite N, decide_False, decide_True; [done..|intros <-; apply (Hfa h); [done|left]]|].
      rewrite P, decide_False, decide_True; [done|done|]. intros <-. apply (Hfa f); [left|done].
    + apply (chain_cat m' _ _ lst hf); [|done|done| |].
      * apply (chain_ends m m' (f :: la) f lst); [done..| |].
        -- intros x Hx Hxl. rewrite N, !decide_False; [done| |done]. intros ->. apply (Hfa h); [done|left].
        -- intros x Hx Hxf. rewrite P, !decide_False; [done|done|]. intros ->. by apply (Hfa hf).
      * split; [by rewrite N, decide_True|by rewrite P, decide_True].
      * apply (chain_ends m m' (hf :: r) hf h); [done..| |].
        -- intros x Hx Hxl. rewrite N, !decide_False; [done|done|]. intros ->. apply (Hfa lst); auto.
        -- intros x Hx Hxf. rewrite P, !decide_False; [done| |done]. intros ->. apply (Hfa f); [left|auto].
Qed.

Lemma list_splice_spec m a la h lh : is_list m a la -> is_list m h lh -> apart a la h lh ->
  (exists m', list_splice a h m = Ok m' /\ is_list m' h (la ++ lh) /\ same_off (h :: la ++ lh) m m') /\
  (exists m', list_splice_tail a h m = Ok m' /\ is_list m' h (lh ++ la) /\ same_off (h :: lh ++ la) m m').
Proof.
  intros Ha Hh Hd. destruct la as [|f la]; [|split; [by apply list_splice_cons|by apply list_splice_tail_cons]].
  destruct (list_splice_empty m a h lh Ha Hh) as [-> ->]. rewrite app_nil_r.
  split; exists m; split_and!; try done; by intros x _.
Qed.

(** Initialising the head that a splice left behind. *)
Lemma splice_init_spec m m1 a la h l' : is_list m a la -> is_list m1 h l' -> a ∉ h :: l' -> same_off (h :: l') m m1 ->
  exists m', INIT_LIST_HEAD a m1 = Ok m' /\ is_list m' h l' /\ is_list m' a [] /\ same_off (h :: a :: l') m m'.
Proof.
  intros Ha Hl Hn Hs. destruct (is_list_node m a la a Ha) as [Hsome _]; [left|].
  destruct (init_eff a m1) as (m' & -> & N & P); [by rewrite (proj1 (Hs a Hn))|]. exists m'. split; [done|].
  assert (same_off [a] m1 m') as S1 by (intros y [Hy _]%not_elem_of_cons; by rewrite N, P, !decide_False).
  split_and!.
  - apply (is_list_off [a] m1); [done|done|]. intros y Hy ->%list_elem_of_singleton. done.
  - split; [apply NoDup_singleton|]. repeat split; rewrite ?N, ?P; by rewrite decide_True.
  - apply (same_off_trans _ m m1); eapply same_off_weaken; [exact Hs| |exact S1|]; set_solver.
Qed.

Lemma list_splice_init_spec m a la h lh : is_list m a la -> is_list m h lh -> apart a la h lh ->
  (exists m', list_splice_init a h m = Ok m' /\ is_list m' h (la ++ lh) /\ is_list m' a [] /\
     same_off (h :: a :: la ++ lh) m m') /\
  (exists m', list_splice_tail_init a h m = Ok m' /\ is_list m' h (lh ++ la) /\ is_list m' a [] /\
     same_off (h :: a :: lh ++ la) m m').
Proof.
  intros Ha Hh Hd. unfold list_splice_init, list_splice_tail_init.
  assert (a ∉ h :: lh /\ a ∉ la) as [Hn1 Hn2] by (split; [apply Hd; left|by destruct Ha as [[? _]%NoDup_cons _]]).
  destruct (list_splice_spec m a la h lh Ha Hh Hd) as [(m1 & -> & L1 & S1) (m2 & -> & L2 & S2)].
  cbn [mbind outcome_bind]. split; (eapply splice_init_spec; [done|done|set_solver|done]).
Qed.

(** [f] turns list [h] into [l'] and touches no node but those of [S]; every
    list without a node of [S] is thereby kept. *)
Definition refines (f : nodes -> outcome nodes) (m : nodes) (h : Z) (l' S : list Z) : Prop :=
  exists m', f m = Ok m' /\ is_list m' h l' /\ same_off S m m' /\
    forall h2 l2, is_list m h2 l2 -> (forall x, x ∈ h2 :: l2 -> x ∉ S) -> is_list m' h2 l2.

(** The same for an operation on two lists. *)
Definition refines2 (f : nodes -> outcome nodes) (m : nodes) (h1 : Z) (l1' : list Z) (h2 : Z) (l2' S : list Z) : Prop :=
  exists m', f m = Ok m' /\ is_list m' h1 l1' /\ is_list m' h2 l2' /\ same_off S m m' /\
    forall h l, is_list m h l -> (forall x, x ∈ h :: l -> x ∉ S) -> is_list m' h l.

Lemma refines_intro f m m' h l' S :
  f m = Ok m' -> is_list m' h l' -> same_off S m m' -> refines f m h l' S.
Proof. intros E Hl Hs. exists m'. split_and!; [done..|]. intros h2 l2 H2 Hd. by eapply is_list_off. Qed.

Lemma refines2_intro f m m' h1 l1 h2 l2 S :
  f m = Ok m' -> is_list m' h1 l1 -> is_list m' h2 l2 -> same_off S m m' -> refines2 f m h1 l1 h2 l2 S.
Proof. intros E H1 H2 Hs. exists m'. split_and!; [done..|]. intros h l Hl Hd. by eapply is_list_off. Qed.

(** C7: the pointer operations of list.h are the operations on sequences that
    the kernel uses them for.  On a head that represents [l]: the tests for no
    and for one node, the walk that visits exactly [l] in order, insertion in
    front and behind, removal of any node ([list_del], which leaves the node
    as it was, and [list_del_init]), moving a node to either end of another
    list, and splicing a whole list before or behind another, with and without
    initialising the head it came from.  None of them follows a dangling
    pointer, and each of them changes no node but those of the lists it is
    given. *)
Theorem list_ops_refine m h l :
  is_list m h l ->
  list_empty h m = Ok (bool_decide (l = [])) /\
  list_is_singular h m = Ok (bool_decide (length l = 1%nat)) /\
  (forall fuel, (length l <= fuel)%nat -> list_for_each fuel h m = Ok l) /\
  (forall node, node ∉ h :: l -> is_Some (nxt m node) ->
     refines (list_add node h) m h (node :: l) (h :: node :: l) /\
     refines (list_add_tail node h) m h (l ++ [node]) (h :: l ++ [node])) /\
  (forall l1 x l2, l = l1 ++ x :: l2 ->
     refines (list_del x) m h (l1 ++ l2) (h :: l1 ++ l2) /\
     refines2 (list_del_init x) m h (l1 ++ l2) x [] (h :: l) /\
     forall h2 l3, is_list m h2 l3 -> apart h l h2 l3 ->
       refines2 (list_move x h2) m h (l1 ++ l2) h2 (x :: l3) (h :: l1 ++ x :: l2 ++ h2 :: l3) /\
       refines2 (list_move_tail x h2) m h (l1 ++ l2) h2 (l3 ++ [x]) (h :: l1 ++ x :: l2 ++ h2 :: l3)) /\
  (forall h2 l2, is_list m h2 l2 -> apart h l h2 l2 ->
     refines (list_splice h h2) m h2 (l ++ l2) (h2 :: l ++ l2) /\
     refines (list_splice_tail h h2) m h2 (l2 ++ l) (h2 :: l2 ++ l) /\
     refines2 (list_splice_init h h2) m h2 (l ++ l2) h [] (h2 :: h :: l ++ l2) /\
     refines2 (list_splice_tail_init h h2) m h2 (l2 ++ l) h [] (h2 :: h :: l2 ++ l)).
Proof.
  intros Hl. split_and!; [by apply list_empty_spec|by apply list_is_singular_spec| | | |].
  - intros fuel Hf. by apply list_for_each_spec.
  - intros node Hn Hs. split.
    + destruct (list_add_spec m h l node) as (m' & E & L & S); [done..|]. by eapply refines_intro.
    + destruct (list_add_tail_spec m h l node) as (m' & E & L & S); [done..|]. by eapply refines_intro.
  - intros l1 x l2 ->. split_and!.
    + destruct (list_del_node_spec m h l1 x l2 Hl) as (m' & E & L & S). by eapply refines_intro.
    + destruct (list_del_init_spec m h l1 x l2 Hl) as (m' & E & L & L' & S). by eapply refines2_intro.
    + intros h2 l3 H2 Hd. split.
      * destruct (move_spec list_add (fun x l => x :: l) m h l1 x l2 h2 l3) as (m' & E & L1 & L2 & S);
          [by apply list_add_spec|done..|]. by eapply refines2_intro.
      * destruct (move_spec list_add_tail (fun x l => l ++ [x]) m h l1 x l2 h2 l3) as (m' & E & L1 & L2 & S);
          [|done..|by eapply refines2_intro].
        intros m0 h0 l0 node H0 Hn Hs. destruct (list_add_tail_spec m0 h0 l0 node H0 Hn Hs) as (m' & E & L & S).
        exists m'. split_and!; [done..|]. eapply same_off_weaken; [exact S|]. set_solver.
  - intros h2 l2 H2 Hd. destruct (list_splice_spec m h l h2 l2 Hl H2 Hd) as [(m1 & E1 & L1 & S1) (m2 & E2 & L2 & S2)].
    destruct (list_splice_init_spec m h l h2 l2 Hl H2 Hd) as [(m3 & E3 & L3 & L3' & S3) (m4 & E4 & L4 & L4' & S4)].
    split_and!; [by eapply refines_intro|by eapply refines_intro|by eapply refines2_intro|by eapply refines2_intro].
Qed.

(** Head 1 with nodes 2 and 3, the free node 4, and head 5 with node 6. *)
Definition ex_nodes : nodes :=
  {[1 := ListHead 3 2; 2 := ListHead 1 3; 3 := ListHead 2 1; 4 := ListHead 4 4; 5 := ListHead 6 6; 6 := ListHead 5 5]}.

Lemma ex_nodes_list : is_list ex_nodes 1 [2; 3].
Proof. split; [apply (bool_decide_unpack _); by vm_compute|]. by vm_compute. Qed.

Lemma ex_nodes_other : is_list ex_nodes 5 [6].
Proof. split; [apply (bool_decide_unpack _); by vm_compute|]. by vm_compute. Qed.

Lemma list_ops_refine_witness :
  refines (list_add_tail 4 1) ex_nodes 1 [2; 3; 4] [1; 2; 3; 4] /\
  refines2 (list_del_init 2) ex_nodes 1 [3] 2 [] [1; 2; 3] /\ list_for_each 2 1 ex_nodes = Ok [2; 3] /\
  refines2 (list_move 2 5) ex_nodes 1 [3] 5 [2; 6] [1; 2; 3; 5; 6] /\
  refines2 (list_splice_init 1 5) ex_nodes 5 [2; 3; 6] 1 [] [5; 1; 2; 3; 6].
Proof.
  destruct (list_ops_refine ex_nodes 1 [2; 3] ex_nodes_list) as (_ & _ & H2 & H3 & H4 & H5).
  assert (apart 1 [2; 3] 5 [6]) as Hd.
  { intros x Hx. repeat (apply elem_of_cons in Hx as [->|Hx]); [..|by apply elem_of_nil in Hx];
      apply (bool_decide_unpack _); by vm_compute. }
  destruct (H4 [] 2 [3] eq_refl) as (_ & H4' & H4''). split_and!.
  - apply (H3 4); [apply (bool_decide_unpack _); by vm_compute|by eexists].
  - exact H4'.
  - apply H2. cbn. lia.
  - exact (proj1 (H4'' 5 [6] ex_nodes_other Hd)).
  - exact (proj1 (proj2 (proj2 (H5 5 [6] ex_nodes_other Hd)))).
Defined.

(** Initialising and queueing the node of an element that is still linked, as
    [rr_enqueue] does when a task is queued twice, loses the nodes behind it. *)
Example requeue_linked_node_loses_others :
  (m ← INIT_LIST_HEAD 2 ex_nodes; m ← list_add_tail 2 1 m; list_for_each 100 1 m) = Ok [2].
Proof. by vm_compute. Qed.
