(* ===== verification/SepLogic.v ===== *)
(** * A separation logic for code that works on linked cells

    The pointer structures of the kernel (kernel/lib/rbtree.c here) are a map
    from addresses to cells and functions that read and write it.  This file
    gives such functions a monad [M] and a program logic: assertions about
    parts of the memory, which are an affine BI so that Iris's proof mode works
    on them, and the weakest precondition [wp], whose definition carries the
    frame.  [wp_sound] takes a specification back to a statement about the
    function on a concrete memory. *)

From iris.proofmode Require Import proofmode.
From S2P Require Import Prelude.

Section logic.
Context {V : Type}.

(** ** Assertions: sets of memories, closed under extension *)

Record hProp := HProp {
  holds : gmap Z V -> Prop;
  holds_mono : forall m m' : gmap Z V, m ⊆ m' -> holds m -> holds m'
}.
Implicit Types (P Q R : hProp) (m : gmap Z V).

#[export] Instance hProp_equiv : Equiv hProp := fun P Q => forall m, holds P m <-> holds Q m.
#[export] Instance hProp_equivalence : Equivalence (≡@{hProp}).
Proof. split; [by intros ??| by intros ?? E m; rewrite (E m) | by intros ??? E F m; rewrite (E m)]. Qed.
Canonical Structure hPropO := discreteO hProp.

(** A record, so that an entailment is not mistaken for a function. *)
Record h_entails P Q : Prop := Entails { entails_at : forall m, holds P m -> holds Q m }.

Program Definition h_pure (φ : Prop) : hProp := HProp (fun _ => φ) _.
Next Obligation. done. Qed.

Definition h_emp : hProp := h_pure True.

Program Definition h_and P Q : hProp := HProp (fun m => holds P m /\ holds Q m) _.
Next Obligation. intros P Q m m' Hm [? ?]. split; by eapply holds_mono. Qed.

Program Definition h_or P Q : hProp := HProp (fun m => holds P m \/ holds Q m) _.
Next Obligation. intros P Q m m' Hm [?|?]; [left|right]; by eapply holds_mono. Qed.

Program Definition h_impl P Q : hProp := HProp (fun m => forall n, m ⊆ n -> holds P n -> holds Q n) _.
Next Obligation. intros P Q m m' Hm HPQ n Hn. apply HPQ. by etrans. Qed.

Program Definition h_forall {A} (F : A -> hProp) : hProp := HProp (fun m => forall a, holds (F a) m) _.
Next Obligation. intros A F m m' Hm HF a. by eapply holds_mono. Qed.

Program Definition h_exist {A} (F : A -> hProp) : hProp := HProp (fun m => exists a, holds (F a) m) _.
Next Obligation. intros A F m m' Hm [a ?]. exists a. by eapply holds_mono. Qed.

Program Definition h_sep P Q : hProp :=
  HProp (fun m => exists m1 m2, m1 ##ₘ m2 /\ m1 ∪ m2 ⊆ m /\ holds P m1 /\ holds Q m2) _.
Next Obligation. intros P Q m m' Hm (m1 & m2 & ? & ? & ? & ?). exists m1, m2. split_and!; try done. by etrans. Qed.

Program Definition h_wand P Q : hProp :=
  HProp (fun m => forall n, m ##ₘ n -> holds P n -> holds Q (m ∪ n)) _.
Next Obligation.
  intros P Q m m' Hm HPQ n Hn HP. eapply holds_mono; [by apply map_union_mono_r|].
  apply HPQ; [|done]. by eapply map_disjoint_weaken_l.
Qed.

Definition h_pers P : hProp := h_pure (h_entails h_emp P).

Lemma h_bi_mixin :
  BiMixin h_entails h_emp h_pure h_and h_or h_impl (@h_forall) (@h_exist) h_sep h_wand.
Proof.
  split.
  - split; [by intros P; split|]. intros P Q R [HPQ] [HQR]. split. auto.
  - intros P Q. split; [|by intros [[?] [?]] m; split; auto].
    intros HPQ. split; split; intros m; apply HPQ.
  - intros n φ ψ H m. exact H.
  - intros n P P' HP Q Q' HQ m. cbn. by rewrite (HP m) (HQ m).
  - intros n P P' HP Q Q' HQ m. cbn. by rewrite (HP m) (HQ m).
  - intros n P P' HP Q Q' HQ m. cbn. by setoid_rewrite (HP _); setoid_rewrite (HQ _).
  - intros A n F G HF m. cbn. split; intros H a; apply (HF a m), H.
  - intros A n F G HF m. cbn. split; intros [a H]; exists a; by apply (HF a m).
  - intros n P P' HP Q Q' HQ m. cbn. by setoid_rewrite (HP _); setoid_rewrite (HQ _).
  - intros n P P' HP Q Q' HQ m. cbn. by setoid_rewrite (HP _); setoid_rewrite (HQ _).
  - intros φ P ?. by split.
  - intros φ P H. split. intros m Hφ. by apply (entails_at _ _ (H Hφ)).
  - intros P Q. split. by intros m [? _].
  - intros P Q. split. by intros m [_ ?].
  - intros P Q R [HQ] [HR]. split. intros m ?. split; auto.
  - intros P Q. split. intros m ?. by left.
  - intros P Q. split. intros m ?. by right.
  - intros P Q R [HP] [HQ]. split. intros m [?|?]; auto.
  - intros P Q R [H]. split. intros m HP n Hn HQ. apply H. split; [by eapply holds_mono|done].
  - intros P Q R [H]. split. intros m [HP HQ]. by apply (H m HP m).
  - intros A P F H. split. intros m HP a. by apply (entails_at _ _ (H a)).
  - intros A F a. split. intros m H. apply H.
  - intros A F a. split. intros m H. by exists a.
  - intros A F Q H. split. intros m [a Ha]. by apply (entails_at _ _ (H a)).
  - intros P P' Q Q' [HP] [HQ]. split. intros m (m1 & m2 & ? & ? & ? & ?). exists m1, m2. split_and!; auto.
  - intros P. split. intros m HP. exists ∅, m.
    split_and!; [apply map_disjoint_empty_l|by rewrite left_id_L|done|done].
  - intros P. split. intros m (m1 & m2 & ? & Hm & _ & HP). eapply holds_mono; [|done].
    etrans; [by apply map_union_subseteq_r|done].
  - intros P Q. split. intros m (m1 & m2 & Hd & Hm & ? & ?). exists m2, m1. split_and!; [done| |done..].
    by rewrite map_union_comm.
  - intros P Q R. split. intros m (m12 & m3 & Hd & Hm & (m1 & m2 & Hd' & Hm' & HP & HQ) & HR).
    assert (m1 ##ₘ m3 /\ m2 ##ₘ m3) as [? ?].
    { apply map_disjoint_union_l. by eapply map_disjoint_weaken_l. }
    exists m1, (m2 ∪ m3). split_and!; [by apply map_disjoint_union_r|..].
    + rewrite assoc_L. etrans; [|done]. by apply map_union_mono_r.
    + done.
    + by exists m2, m3.
  - intros P Q R [H]. split. intros m HP n Hd HQ. apply H. by exists m, n.
  - intros P Q R [H]. split. intros m (m1 & m2 & Hd & Hm & HP & HQ).
    eapply holds_mono; [done|]. by apply (H m1 HP m2).
Qed.

Lemma h_pers_mixin :
  BiPersistentlyMixin h_entails h_emp h_and (@h_exist) h_sep h_pers.
Proof.
  eapply bi_persistently_mixin_discrete, h_bi_mixin; [done| |done].
  intros A F [H]. destruct (H ∅ I) as [a Ha]. exists a. split. intros m _.
  eapply holds_mono; [apply map_empty_subseteq|done].
Qed.

Lemma h_later_mixin :
  BiLaterMixin h_entails h_pure h_or h_impl (@h_forall) (@h_exist) h_sep h_pers (fun P => P).
Proof. eapply bi_later_mixin_id, h_bi_mixin. done. Qed.

End logic.
Arguments hProp : clear implicits.
Arguments hPropO : clear implicits.

#[export] Instance hProp_cofe V : Cofe (hPropO V).
Proof. apply _. Qed.

Canonical Structure hPropI (V : Type) : bi :=
  {| bi_ofe_mixin := ofe_mixin_of (hProp V);
     bi_bi_mixin := h_bi_mixin;
     bi_bi_persistently_mixin := h_pers_mixin;
     bi_bi_later_mixin := h_later_mixin |}.

#[export] Instance hProp_affine V : BiAffine (hPropI V).
Proof. intros P. split. intros m _. exact I. Qed.

#[export] Instance hProp_pure_forall V : BiPureForall (hPropI V).
Proof. intros A φ. split. intros m H. exact H. Qed.

Section hProp_facts.
Context {V : Type}.
Implicit Types (P Q : hPropI V) (m : gmap Z V).

Lemma pure_holds φ m : holds (⌜φ⌝ : hPropI V)%I m <-> φ.
Proof. done. Qed.

Lemma entails_holds P Q m : (P ⊢ Q) -> holds P m -> holds Q m.
Proof. intros [H]. apply H. Qed.

(** The cell at [a] holds [v]. *)
Program Definition points_to (a : Z) (v : V) : hPropI V := HProp (fun m => m !! a = Some v) _.
Next Obligation. cbn. intros a v m m' Hm H. by eapply lookup_weaken. Qed.

(** The cells of [n] are there. *)
Program Definition owns (n : gmap Z V) : hPropI V := HProp (fun m => n ⊆ m) _.
Next Obligation. cbn. intros n m m' Hm H. by etrans. Qed.

End hProp_facts.

Notation "a ↦ v" := (points_to a v) (at level 20, format "a  ↦  v") : bi_scope.

(** ** Functions on the memory *)

Definition M (V A : Type) : Type := gmap Z V -> outcome (A * gmap Z V).

#[export] Instance M_ret {V} : MRet (M V) := fun A a m => Ok (a, m).
#[export] Instance M_bind {V} : MBind (M V) := fun A B f e m => '(a, m) ← e m; f a m.

Definition load_cell {V} (a : Z) : M V V := fun m => v ← deref (m !! a); Ok (v, m).
Definition store_cell {V} (a : Z) (v : V) : M V unit := fun m => _ ← deref (m !! a); Ok (tt, <[a := v]> m).
Definition fault {V A} : M V A := fun _ => Fault.

(** A computation that reads other memory and leaves this one alone. *)
Definition lift {V A} (o : outcome A) : M V A := fun m => a ← o; Ok (a, m).

Fixpoint loop {V S R} (fuel : nat) (body : S -> M V (S + R)) (s : S) : M V R :=
  match fuel with
  | O => fault
  | Datatypes.S fuel =>
      x ← body s;
      match x with
      | inl s' => loop fuel body s'
      | inr r => mret r
      end
  end.

(** ** Weakest preconditions

    [wp e Φ] holds of a part [m] of the memory when [e] returns whatever the
    rest [mf] is, leaves [mf] alone and ends in [Φ]. *)

Section wp.
Context {V : Type}.
Implicit Types (m mf : gmap Z V) (P Q : hPropI V).

Program Definition wp {A} (e : M V A) (Φ : A -> hPropI V) : hPropI V :=
  HProp (fun m => forall mf, m ##ₘ mf ->
           exists a m', e (m ∪ mf) = Ok (a, m' ∪ mf) /\ m' ##ₘ mf /\ holds (Φ a) m') _.
Next Obligation.
  intros A e Φ m n Hmn Hwp mf Hd.
  assert (n = m ∪ n ∖ m) as Hn by (symmetry; by apply map_difference_union).
  assert (m ##ₘ n ∖ m) by by apply map_disjoint_difference_r1.
  rewrite Hn in Hd. apply map_disjoint_union_l in Hd as [Hd1 Hd2].
  destruct (Hwp (n ∖ m ∪ mf)) as (a & m' & E & Hd' & HΦ).
  { by apply map_disjoint_union_r. }
  apply map_disjoint_union_r in Hd' as [? ?].
  exists a, (m' ∪ n ∖ m). split_and!.
  - rewrite Hn -!assoc_L -Hn. exact E.
  - by apply map_disjoint_union_l.
  - eapply holds_mono; [by apply map_union_subseteq_l|done].
Qed.

Lemma wp_sound {A} (e : M V A) P Φ m mf :
  (P ⊢ wp e Φ) -> holds P m -> m ##ₘ mf ->
  exists a m', e (m ∪ mf) = Ok (a, m' ∪ mf) /\ m' ##ₘ mf /\ holds (Φ a) m'.
Proof. intros [H] HP Hd. by apply (H m HP). Qed.

Lemma wp_ret {A} (a : A) Φ : Φ a ⊢ wp (mret a) Φ.
Proof. split. intros m H mf Hd. by exists a, m. Qed.

Lemma wp_bind {A B} (e : M V A) (f : A -> M V B) Φ :
  wp e (fun a => wp (f a) Φ) ⊢ wp (e ≫= f) Φ.
Proof.
  split. intros m H mf Hd. destruct (H mf Hd) as (a & m' & E & Hd' & H').
  destruct (H' mf Hd') as (b & m'' & E' & Hd'' & H'').
  exists b, m''. split_and!; [|done|done]. unfold mbind, M_bind. by rewrite E.
Qed.

Lemma wp_wand {A} (e : M V A) Φ Ψ : wp e Φ ⊢ (∀ a, Φ a -∗ Ψ a) -∗ wp e Ψ.
Proof.
  split. intros m H n Hd Hw mf Hd'. apply map_disjoint_union_l in Hd' as [? ?].
  destruct (H (n ∪ mf)) as (a & m' & E & Hd' & HΦ); [by apply map_disjoint_union_r|].
  apply map_disjoint_union_r in Hd' as [? ?].
  exists a, (m' ∪ n). split_and!.
  - by rewrite -!assoc_L.
  - by apply map_disjoint_union_l.
  - rewrite map_union_comm; [|done]. by apply Hw.
Qed.

Lemma wp_load a v Φ : a ↦ v ⊢ (a ↦ v -∗ Φ v) -∗ wp (load_cell a) Φ.
Proof.
  split. intros m Ha n Hd Hw mf Hd'. cbn in Ha.
  assert ((m ∪ n) !! a = Some v) as Hl by by apply lookup_union_Some_l.
  exists v, (m ∪ n). split_and!; [|done|].
  - unfold load_cell. by rewrite (lookup_union_Some_l _ _ _ _ Hl).
  - rewrite map_union_comm; [|done]. by apply Hw.
Qed.

Lemma wp_store a v w Φ : a ↦ v ⊢ (a ↦ w -∗ Φ tt) -∗ wp (store_cell a w) Φ.
Proof.
  split. intros m Ha n Hd Hw mf Hd'. cbn in Ha.
  assert ((m ∪ n) !! a = Some v) as Hl by by apply lookup_union_Some_l.
  assert (n !! a = None) by by eapply map_disjoint_Some_l.
  exists tt, (n ∪ <[a := w]> m). split_and!.
  - unfold store_cell. rewrite (lookup_union_Some_l _ _ _ _ Hl) deref_Some Ok_bind.
    rewrite (map_union_comm n) ?insert_union_l; [done|]. by apply map_disjoint_insert_r.
  - apply map_disjoint_union_l in Hd' as [? ?]. apply map_disjoint_union_l. split; [done|].
    apply map_disjoint_insert_l. split; [|done].
    by eapply map_disjoint_Some_l in Ha.
  - apply Hw; [by apply map_disjoint_insert_r|]. cbn. apply lookup_insert_eq.
Qed.

Lemma wp_lift {A} (o : outcome A) a Φ : o = Ok a -> Φ a ⊢ wp (lift o) Φ.
Proof. intros ->. split. intros m H mf Hd. by exists a, m. Qed.

Lemma points_to_ne a b (v w : V) : a ↦ v ⊢ b ↦ w -∗ ⌜a ≠ b⌝.
Proof.
  split. intros m Ha n Hd Hb. cbn in *. intros ->. by eapply map_disjoint_Some_l in Ha; [|done]; rewrite Ha in Hb.
Qed.

Lemma wp_loop {S R} fuel (body : S -> M V (S + R)) s Φ :
  wp (body s) (fun x => match x with inl s' => wp (loop fuel body s') Φ | inr r => Φ r end)
  ⊢ wp (loop (Datatypes.S fuel) body s) Φ.
Proof.
  iIntros "H". iApply wp_bind. iApply (wp_wand with "H").
  iIntros ([s'|r]) "H"; [done|]. by iApply wp_ret.
Qed.

End wp.

Section holds_rules.
Context {V : Type}.
Implicit Types (m : gmap Z V) (P Q : hPropI V).

Lemma holds_sep P Q m m' : holds P m -> holds Q m' -> m ##ₘ m' -> holds (P ∗ Q)%I (m ∪ m').
Proof. intros HP HQ Hd. by exists m, m'. Qed.

(** What is owned beside a cell does not depend on the cell. *)
Lemma holds_delete a v P m : holds (a ↦ v ∗ P)%I m -> holds P (delete a m).
Proof.
  intros (m1 & m2 & Hd & Hm & Ha & HP). eapply holds_mono; [|exact HP].
  apply map_subseteq_spec. intros b x Hb. apply lookup_delete_Some. split.
  - intros <-. cbn in Ha. by eapply map_disjoint_Some_l in Ha; [|exact Hd]; rewrite Ha in Hb.
  - eapply lookup_weaken; [|exact Hm]. by apply lookup_union_Some_r.
Qed.

Lemma holds_exist {A} (F : A -> hPropI V) a m : holds (F a) m -> holds (∃ a, F a)%I m.
Proof. intros H. by exists a. Qed.

Lemma holds_pure_sep (φ : Prop) P m : φ -> holds P m -> holds (⌜φ⌝ ∗ P)%I m.
Proof.
  intros Hφ HP. rewrite -(left_id_L ∅ (∪) m). apply holds_sep; [done|done|]. apply map_disjoint_empty_l.
Qed.

Lemma holds_pure_sep_inv (φ : Prop) P m : holds (⌜φ⌝ ∗ P)%I m -> φ /\ holds P m.
Proof.
  intros H. split.
  - apply (entails_holds _ (⌜φ⌝ : hPropI V)%I) in H; [exact H|]. by iIntros "[% _]".
  - apply (entails_holds _ P) in H; [exact H|]. by iIntros "[_ H]".
Qed.

Lemma holds_or_inv P Q m : holds (P ∨ Q)%I m -> holds P m \/ holds Q m.
Proof. done. Qed.

Lemma holds_points_to a v : holds (a ↦ v)%I ({[a := v]} : gmap Z V).
Proof. cbn. apply lookup_insert_eq. Qed.

End holds_rules.

Section framed.
Context {V : Type}.
Implicit Types (m : gmap Z V) (P R : hPropI V).

Lemma wp_frame {A} (e : M V A) (Φ : A -> hPropI V) R : wp e Φ ∗ R ⊢ wp e (fun a => Φ a ∗ R).
Proof. iIntros "[H HR]". iApply (wp_wand with "H"). iIntros (a) "H". iFrame. Qed.

(** A specification run on a whole memory, with the assertion [R] about the rest. *)
Lemma wp_run {A} (e : M V A) P (Φ : A -> hPropI V) R m :
  (P ⊢ wp e Φ) -> holds (P ∗ R)%I m -> exists a m', e m = Ok (a, m') /\ holds (Φ a ∗ R)%I m'.
Proof.
  intros He Hm. destruct (wp_sound e (P ∗ R)%I (fun a => Φ a ∗ R)%I m ∅) as (a & m' & E & _ & Hr).
  - rewrite He. apply wp_frame.
  - exact Hm.
  - apply map_disjoint_empty_r.
  - rewrite !map_union_empty in E. by exists a, m'.
Qed.

End framed.

(** ** Changes a function can make to the memory

    [Changes R e]: whenever [e] returns, [R] relates the memory before to the
    memory after.  With equality for [R] the function only reads; with
    [same_dom] it neither adds nor drops cells. *)

Class Changes {V A} (R : relation (gmap Z V)) (e : M V A) : Prop :=
  changes m a m' : e m = Ok (a, m') -> R m m'.

Definition same_dom {V} (m m' : gmap Z V) : Prop := dom m = dom m'.
#[export] Instance same_dom_preorder {V} : PreOrder (@same_dom V).
Proof. split; [done|]. intros m1 m2 m3. unfold same_dom. congruence. Qed.

Section changes.
Context {V : Type} (R : relation (gmap Z V)) `{!PreOrder R}.

Lemma changes_ret {A} (a : A) : Changes R (mret a : M V A).
Proof. intros m b m' [= <- <-]. reflexivity. Qed.

Lemma changes_lift {A} (o : outcome A) : Changes R (lift o : M V A).
Proof. intros m b m' E. unfold lift in E. inv_ok. reflexivity. Qed.

Lemma changes_load a : Changes R (load_cell a : M V V).
Proof. intros m b m' E. unfold load_cell in E. inv_ok. reflexivity. Qed.

Lemma changes_fault {A} : Changes R (fault : M V A).
Proof. by intros m b m' E. Qed.

Lemma changes_bind {A B} (e : M V A) (f : A -> M V B) :
  Changes R e -> (forall a, Changes R (f a)) -> Changes R (e ≫= f).
Proof.
  intros He Hf m b m' E. apply bind_Ok in E as ([a m1] & E1 & E2). etrans; [by eapply He|by eapply Hf].
Qed.

Lemma changes_if {A} (b : bool) (e1 e2 : M V A) :
  Changes R e1 -> Changes R e2 -> Changes R (if b then e1 else e2).
Proof. by destruct b. Qed.

Lemma changes_loop {S T} fuel (body : S -> M V (S + T)) s :
  (forall s, Changes R (body s)) -> Changes R (loop fuel body s).
Proof.
  intros Hb. revert s. induction fuel as [|fuel IH]; intros s; cbn [loop]; [apply changes_fault|].
  apply changes_bind; [done|]. intros [s'|r]; [apply IH|apply changes_ret].
Qed.

End changes.

Lemma changes_store {V} a (v : V) : Changes same_dom (store_cell a v).
Proof.
  intros m b m' E. unfold store_cell in E. inv_ok. unfold same_dom. by rewrite dom_insert_lookup_L; [|eexists].
Qed.

(** Follows the structure of a function; calls are looked up among the
    instances of [Changes]. *)
Ltac solve_changes :=
  lazymatch goal with
  | |- Changes _ (mret _) => apply changes_ret; apply _
  | |- Changes _ (_ ≫= _) => apply changes_bind; [apply _|solve_changes|intros; solve_changes]
  | |- Changes _ (loop _ _ _) => apply changes_loop; [apply _|intros; solve_changes]
  | |- Changes _ (lift _) => apply changes_lift; apply _
  | |- Changes _ (load_cell _) => apply changes_load; apply _
  | |- Changes _ (store_cell _ _) => apply changes_store
  | |- Changes _ fault => apply changes_fault
  | |- Changes _ (if ?b then _ else _) => destruct b; solve_changes
  | |- Changes _ (let '(_, _) := ?x in _) => destruct x; solve_changes
  | |- Changes _ (match ?x with _ => _ end) => destruct x; solve_changes
  | |- _ => first [assumption | solve [eauto with changes typeclass_instances] | progress cbn zeta; solve_changes]
  end.
Create HintDb changes discriminated.
