(* ===== verification/RbTree.v ===== *)
(** * Red-black trees with parent pointers (kernel/lib/rbtree.c, kernel/include/libtree.h)

    The nodes and the tree heads are cells of one memory, addressed by
    pointers; 0 is NULL.  A node's colour is the low bit of its [parent] word.
    The comparison function of a tree reads the objects its nodes are embedded
    in: it is the argument [cmp_fn] of the operations that use it.

    rbtree.c writes the code of each repair twice, once for a left and once
    for a right child, with [left] and [right] exchanged; here such a pair is
    one definition with the side as its argument, and [Left] reads like the
    first of the two. *)

From S2P Require Import Prelude SepLogic.

Local Open Scope Z_scope.

(** libtree.h: enum rb_color *)
Definition RB_BLACK : Z := 0.
Definition RB_RED : Z := 1.

(** libtree.h: struct rbtree_node *)
Record rbtree_node := Node { left : Z; right : Z; parent : Z }.

(** libtree.h: struct rbtree, without its comparison function *)
Record rbtree := Tree { root : Z; first : Z; last : Z }.

Inductive rbcell := CNode (n : rbtree_node) | CTree (t : rbtree).

Inductive side := Left | Right.
#[export] Instance side_eq_dec : EqDecision side.
Proof. solve_decision. Defined.
Definition other (s : side) : side := match s with Left => Right | Right => Left end.
Definition child (s : side) (n : rbtree_node) : Z := match s with Left => left n | Right => right n end.

(** Loops go up or down one path of a tree.  A tree of nodes at distinct even
    addresses below 2^64 that is red-black is less than 127 levels high
    ([RbSpec.height_bound]). *)
Definition RB_FUEL : nat := 128.

(** ** Access to the fields *)

Abbreviation rb := (M rbcell).

Definition node_at (a : Z) : rb rbtree_node :=
  c ← load_cell a; match c with CNode n => mret n | CTree _ => fault end.
Definition tree_at (a : Z) : rb rbtree :=
  c ← load_cell a; match c with CTree t => mret t | CNode _ => fault end.

Definition get_child (s : side) (a : Z) : rb Z := n ← node_at a; mret (child s n).
Definition put_child (s : side) (a v : Z) : rb unit :=
  n ← node_at a;
  store_cell a (CNode (match s with
                       | Left => Node v (right n) (parent n)
                       | Right => Node (left n) v (parent n)
                       end)).
Definition put_parent (a v : Z) : rb unit :=
  n ← node_at a; store_cell a (CNode (Node (left n) (right n) v)).

Definition get_root (tree : Z) : rb Z := t ← tree_at tree; mret (root t).
Definition put_root (tree v : Z) : rb unit :=
  t ← tree_at tree; store_cell tree (CTree (Tree v (first t) (last t))).
Definition put_first (tree v : Z) : rb unit :=
  t ← tree_at tree; store_cell tree (CTree (Tree (root t) v (last t))).
Definition put_last (tree v : Z) : rb unit :=
  t ← tree_at tree; store_cell tree (CTree (Tree (root t) (first t) v)).

(** ** Helpers *)

(** rbtree.c: get_color *)
Definition get_color (node : Z) : rb Z := n ← node_at node; mret (Z.land (parent n) 1).

(** rbtree.c: set_color; [~1UL] is the complement at 64 bits *)
Definition set_color (color node : Z) : rb unit :=
  n ← node_at node; put_parent node (Z.lor (Z.land (parent n) (cnot 64 1)) color).

(** rbtree.c: get_parent *)
Definition get_parent (node : Z) : rb Z := n ← node_at node; mret (Z.land (parent n) (cnot 64 1)).

(** rbtree.c: set_parent *)
Definition set_parent (parent_ node : Z) : rb unit :=
  n ← node_at node; put_parent node (Z.lor parent_ (Z.land (parent n) 1)).

(** rbtree.c: is_root *)
Definition is_root (node : Z) : rb bool := p ← get_parent node; mret (p =? 0).

(** rbtree.c: is_black *)
Definition is_black (node : Z) : rb bool := c ← get_color node; mret (c =? RB_BLACK).

(** rbtree.c: is_red *)
Definition is_red (node : Z) : rb bool := b ← is_black node; mret (negb b).

(** rbtree.c: get_first ([Left]) and get_last ([Right]) *)
Definition get_end (s : side) (node : Z) : rb Z :=
  loop RB_FUEL (fun node =>
    c ← get_child s node;
    if negb (c =? 0) then mret (inl c) else mret (inr node)) node.
Definition get_first : Z -> rb Z := get_end Left.
Definition get_last : Z -> rb Z := get_end Right.

(** rbtree.c: rbtree_first *)
Definition rbtree_first (tree : Z) : rb Z := t ← tree_at tree; mret (first t).

(** rbtree.c: rbtree_last *)
Definition rbtree_last (tree : Z) : rb Z := t ← tree_at tree; mret (last t).

(** rbtree.c: rbtree_next ([Right]) and rbtree_prev ([Left]) *)
Definition rbtree_step (s : side) (node : Z) : rb Z :=
  c ← get_child s node;
  if negb (c =? 0) then get_end (other s) c
  else
    loop RB_FUEL (fun node =>
      parent ← get_parent node;
      if parent =? 0 then mret (inr parent)
      else
        c ← get_child s parent;
        if c =? node then mret (inl parent) else mret (inr parent)) node.
Definition rbtree_next : Z -> rb Z := rbtree_step Right.
Definition rbtree_prev : Z -> rb Z := rbtree_step Left.

(** rbtree.c: rotate_left ([Left]) and rotate_right ([Right]) *)
Definition rotate (s : side) (node tree : Z) : rb unit :=
  let p := node in
  q ← get_child (other s) node;
  parent ← get_parent p;
  is_root_p ← is_root p;
  _ ← (if negb is_root_p then
         c ← get_child Left parent;
         if c =? p then put_child Left parent q else put_child Right parent q
       else put_root tree q);
  _ ← set_parent parent q;
  _ ← set_parent q p;
  x ← get_child s q;
  _ ← put_child (other s) p x;
  x ← get_child (other s) p;
  _ ← (if negb (x =? 0) then set_parent p x else mret tt);
  put_child s q p.
Definition rotate_left : Z -> Z -> rb unit := rotate Left.
Definition rotate_right : Z -> Z -> rb unit := rotate Right.

(** rbtree.c: set_child *)
Definition set_child (child node : Z) (left : bool) : rb unit :=
  if left then put_child Left node child else put_child Right node child.

Section cmp.
Context (cmp_fn : Z -> Z -> outcome Z).

(** rbtree.c: do_lookup; the node (or NULL), [*pparent] and [*is_left] *)
Definition do_lookup (key tree : Z) : rb (Z * Z * bool) :=
  node ← get_root tree;
  loop (S := Z * Z * bool) (R := Z * Z * bool) RB_FUEL (fun '(node, pparent, is_left) =>
    if node =? 0 then mret (inr (0, pparent, is_left))
    else
      res ← lift (cmp_fn node key);
      if res =? 0 then mret (inr (node, pparent, is_left))
      else
        let is_left := 0 <? res in
        next ← (if is_left then get_child Left node else get_child Right node);
        mret (inl (next, node, is_left))) (node, 0, false).

(** rbtree.c: rbtree_lookup *)
Definition rbtree_lookup (key tree : Z) : rb Z :=
  '(node, _, _) ← do_lookup key tree; mret node.

(** rbtree.c: rbtree_insert, one turn of the repair loop when the parent is
    its parent's child on side [s]; the new [node] *)
Definition insert_fixup (s : side) (tree node parent grandpa : Z) : rb Z :=
  uncle ← get_child (other s) grandpa;
  uncle_red ← (if negb (uncle =? 0) then is_red uncle else mret false);
  if (uncle_red : bool) then
    _ ← set_color RB_BLACK parent;
    _ ← set_color RB_BLACK uncle;
    _ ← set_color RB_RED grandpa;
    mret grandpa
  else
    c ← get_child (other s) parent;
    '(node, parent) ← (if node =? c then
                         _ ← rotate s parent tree;
                         p ← get_parent parent;
                         mret (parent, p)
                       else mret (node, parent));
    _ ← set_color RB_BLACK parent;
    _ ← set_color RB_RED grandpa;
    _ ← rotate (other s) grandpa tree;
    mret node.

(** rbtree.c: rbtree_insert, the repair loop and the last statement *)
Definition insert_rebalance (node tree : Z) : rb unit :=
  _ ← loop RB_FUEL (fun node =>
        parent ← get_parent node;
        if parent =? 0 then mret (inr tt)
        else
          red ← is_red parent;
          if negb red then mret (inr tt)
          else
            grandpa ← get_parent parent;
            l ← get_child Left grandpa;
            node ← insert_fixup (if parent =? l then Left else Right) tree node parent grandpa;
            mret (inl node)) node;
  r ← get_root tree;
  set_color RB_BLACK r.

(** rbtree.c: rbtree_insert, linking the new node *)
Definition insert_link (node tree parent : Z) (is_left : bool) : rb unit :=
  _ ← put_child Left node 0;
  _ ← put_child Right node 0;
  _ ← set_color RB_RED node;
  _ ← set_parent parent node;
  if negb (parent =? 0) then
    _ ← (if is_left then
           f ← rbtree_first tree;
           if parent =? f then put_first tree node else mret tt
         else
           l ← rbtree_last tree;
           if parent =? l then put_last tree node else mret tt);
    set_child node parent is_left
  else
    _ ← put_root tree node;
    _ ← put_first tree node;
    put_last tree node.

(** rbtree.c: rbtree_insert; the node with the same key, or NULL *)
Definition rbtree_insert (node tree : Z) : rb Z :=
  '(key, parent, is_left) ← do_lookup node tree;
  if negb (key =? 0) then mret key
  else
    _ ← insert_link node tree parent is_left;
    _ ← insert_rebalance node tree;
    mret 0.

End cmp.

(** rbtree.c: rbtree_remove, one turn of the repair loop, with [node] the child
    of [parent] on side [s], from the test of the nephews on (the sibling is
    black): [inl] the next node and parent, by [continue], or [inr] the node the
    loop is left with, by [break] *)
Definition remove_nephews (s : side) (tree parent sibling : Z) : rb (Z * Z + Z) :=
  near ← get_child s sibling;
  near_black ← (if near =? 0 then mret true else is_black near);
  far ← get_child (other s) sibling;
  far_black ← (if far =? 0 then mret true else is_black far);
  if near_black && far_black then
    _ ← set_color RB_RED sibling;
    p ← get_parent parent;
    mret (inl (parent, p))
  else
    sibling ← (if (far_black : bool) then
                 near ← get_child s sibling;
                 _ ← set_color RB_BLACK near;
                 _ ← set_color RB_RED sibling;
                 _ ← rotate (other s) sibling tree;
                 get_child (other s) parent
               else mret sibling);
    c ← get_color parent;
    _ ← set_color c sibling;
    _ ← set_color RB_BLACK parent;
    far ← get_child (other s) sibling;
    _ ← set_color RB_BLACK far;
    _ ← rotate s parent tree;
    r ← get_root tree;
    mret (inr r).

(** rbtree.c: rbtree_remove, the whole turn *)
Definition remove_fixup (s : side) (tree parent : Z) : rb (Z * Z + Z) :=
  sibling ← get_child (other s) parent;
  red ← is_red sibling;
  sibling ← (if (red : bool) then
               _ ← set_color RB_BLACK sibling;
               _ ← set_color RB_RED parent;
               _ ← rotate s parent tree;
               get_child (other s) parent
             else mret sibling);
  remove_nephews s tree parent sibling.

(** rbtree.c: rbtree_remove, the repair loop and the last statement; after
    [continue] the loop goes on when the node is black *)
Definition remove_rebalance (node parent tree : Z) : rb unit :=
  node ← loop RB_FUEL (fun '(node, parent) =>
           r ← get_root tree;
           if node =? r then mret (inr node)
           else
             l ← get_child Left parent;
             x ← remove_fixup (if node =? l then Left else Right) tree parent;
             match x with
             | inr node => mret (inr node)
             | inl (node, parent) =>
                 black ← is_black node;
                 if (black : bool) then mret (inl (node, parent)) else mret (inr node)
             end) (node, parent);
  if negb (node =? 0) then set_color RB_BLACK node else mret tt.

(** rbtree.c: rbtree_remove, the statement [if (left && right)]: moves the
    successor [next] into the place of [node]; the successor's child, its parent
    and the colour that left the path *)
Definition remove_splice (node next parent left right : Z) : rb (Z * Z * Z) :=
  if negb (left =? 0) && negb (right =? 0) then
    color ← get_color next;
    c ← get_color node;
    _ ← set_color c next;
    _ ← put_child Left next left;
    _ ← set_parent next left;
    if negb (next =? right) then
      parent ← get_parent next;
      p ← get_parent node;
      _ ← set_parent p next;
      node ← get_child Right next;
      _ ← put_child Left parent node;
      _ ← put_child Right next right;
      _ ← set_parent next right;
      mret (node, parent, color)
    else
      _ ← set_parent parent next;
      node ← get_child Right next;
      mret (node, next, color)
  else
    color ← get_color node;
    mret (next, parent, color).

(** rbtree.c: rbtree_remove, up to the comment on the easy cases *)
Definition remove_unlink (node tree : Z) : rb (Z * Z * Z) :=
  parent ← get_parent node;
  left ← get_child Left node;
  right ← get_child Right node;
  f ← rbtree_first tree;
  _ ← (if node =? f then n ← rbtree_next node; put_first tree n else mret tt);
  l ← rbtree_last tree;
  _ ← (if node =? l then n ← rbtree_prev node; put_last tree n else mret tt);
  next ← (if left =? 0 then mret right
          else if right =? 0 then mret left
          else get_first right);
  _ ← (if negb (parent =? 0) then
         l ← get_child Left parent; set_child next parent (l =? node)
       else put_root tree next);
  '(node, parent, color) ← remove_splice node next parent left right;
  _ ← (if negb (node =? 0) then set_parent parent node else mret tt);
  mret (node, parent, color).

(** rbtree.c: rbtree_remove *)
Definition rbtree_remove (node tree : Z) : rb unit :=
  '(node, parent, color) ← remove_unlink node tree;
  if color =? RB_RED then mret tt
  else
    red ← (if negb (node =? 0) then is_red node else mret false);
    if (red : bool) then set_color RB_BLACK node
    else remove_rebalance node parent tree.

(** rbtree.c: rbtree_replace *)
Definition rbtree_replace (old new tree : Z) : rb unit :=
  parent ← get_parent old;
  _ ← (if negb (parent =? 0) then
         l ← get_child Left parent; set_child new parent (l =? old)
       else put_root tree new);
  l ← get_child Left old;
  _ ← (if negb (l =? 0) then set_parent new l else mret tt);
  r ← get_child Right old;
  _ ← (if negb (r =? 0) then set_parent new r else mret tt);
  f ← rbtree_first tree;
  _ ← (if f =? old then put_first tree new else mret tt);
  l ← rbtree_last tree;
  _ ← (if l =? old then put_last tree new else mret tt);
  n ← node_at old;
  _ ← node_at new;
  store_cell new (CNode n).

(** rbtree.c: rbtree_init; the memory of the head is the caller's *)
Definition rbtree_init (tree : Z) (flags : Z) : rb Z :=
  if negb (flags =? 0) then mret (-1)
  else
    _ ← store_cell tree (CTree (Tree 0 0 0));
    mret 0.
