(* ===== verification/RbShape.v ===== *)
(** * Shapes of red-black trees: trees, contexts, colours and heights

    The trees that the memory of rbtree.c stands for.  A position in a tree is
    a context [k] (the path up to the root) and the subtree [t] there;
    [plug k t] is the whole tree.  [rbi n c t] says that [t] is red-black with
    black height [n] and root colour [c], [ctxi n c k] that putting such a
    subtree at the end of the path gives a red-black tree. *)

From stdpp Require Import sorting.
From S2P Require Import Prelude RbTree.

Local Open Scope Z_scope.

Inductive color := Black | Red.
#[export] Instance color_eq_dec : EqDecision color.
Proof. solve_decision. Defined.

Definition cz (c : color) : Z := match c with Black => RB_BLACK | Red => RB_RED end.

Inductive tree := E | T (c : color) (l : tree) (a : Z) (r : tree).

(** A node with the subtrees [x] on side [s] and [y] on the other side. *)
Definition mk (s : side) (c : color) (x : tree) (a : Z) (y : tree) : tree :=
  match s with Left => T c x a y | Right => T c y a x end.

(** One step of a path: the side we came from, the node and its other subtree. *)
Record frame := Frame { f_side : side; f_color : color; f_addr : Z; f_tree : tree }.
Abbreviation ctx := (list frame).

Fixpoint plug (k : ctx) (t : tree) : tree :=
  match k with
  | [] => t
  | Frame s c a x :: k => plug k (mk s c t a x)
  end.

Definition ptr (t : tree) : Z := match t with E => 0 | T _ _ a _ => a end.
Definition top (k : ctx) : Z := match k with [] => 0 | f :: _ => f_addr f end.

Fixpoint elems (t : tree) : list Z :=
  match t with E => [] | T _ l a r => elems l ++ a :: elems r end.

Fixpoint height (t : tree) : nat :=
  match t with E => O | T _ l _ r => S (max (height l) (height r)) end.

(** The elements before and after the hole of a context. *)
Fixpoint before (k : ctx) : list Z :=
  match k with
  | [] => []
  | Frame Left _ _ _ :: k => before k
  | Frame Right _ a x :: k => before k ++ elems x ++ [a]
  end.
Fixpoint after (k : ctx) : list Z :=
  match k with
  | [] => []
  | Frame Left _ a x :: k => a :: elems x ++ after k
  | Frame Right _ _ _ :: k => after k
  end.

Inductive rbi : nat -> color -> tree -> Prop :=
| rbi_E : rbi 0 Black E
| rbi_R n l a r : rbi n Black l -> rbi n Black r -> rbi n Red (T Red l a r)
| rbi_B n c c' l a r : rbi n c l -> rbi n c' r -> rbi (S n) Black (T Black l a r).

Inductive ctxi : nat -> color -> ctx -> Prop :=
| ctxi_nil n : ctxi n Black []
| ctxi_R n s a x k : rbi n Black x -> ctxi n Red k -> ctxi n Black (Frame s Red a x :: k)
| ctxi_B n c c' s a x k : rbi n c' x -> ctxi (S n) Black k -> ctxi n c (Frame s Black a x :: k).

(** A red-black tree: every path has as many black nodes, no red node has a
    red parent, and the root is black. *)
Definition rb_tree (t : tree) : Prop := exists n, rbi n Black t.

Create HintDb rb discriminated.
#[export] Hint Constructors rbi ctxi : rb.

Lemma elems_plug k t : elems (plug k t) = before k ++ elems t ++ after k.
Proof.
  revert t. induction k as [|[[] c a x] k IH]; intros t; cbn.
  - by rewrite app_nil_r.
  - rewrite IH. cbn. by rewrite <- !app_assoc.
  - rewrite IH. cbn. by rewrite <- !app_assoc.
Qed.

Lemma elems_mk s c x a y :
  elems (mk s c x a y) = match s with Left => elems x ++ a :: elems y | Right => elems y ++ a :: elems x end.
Proof. by destruct s. Qed.

Lemma ptr_mk s c x a y : ptr (mk s c x a y) = a.
Proof. by destruct s. Qed.

Lemma other_other s : other (other s) = s.
Proof. by destruct s. Qed.

Lemma mk_other s c x a y : mk (other s) c x a y = mk s c y a x.
Proof. by destruct s. Qed.

Lemma rbi_mk_R s n a x y : rbi n Black x -> rbi n Black y -> rbi n Red (mk s Red x a y).
Proof. destruct s; cbn; auto with rb. Qed.

Lemma rbi_mk_B s n c c' a x y : rbi n c x -> rbi n c' y -> rbi (S n) Black (mk s Black x a y).
Proof. destruct s; cbn; eauto with rb. Qed.
#[export] Hint Resolve rbi_mk_R rbi_mk_B : rb.

Lemma rbi_mk_inv s n c c' a x y : rbi n c (mk s c' x a y) ->
  c = c' /\ match c' with
             | Red => rbi n Black x /\ rbi n Black y
             | Black => exists n' cx cy, n = S n' /\ rbi n' cx x /\ rbi n' cy y
             end.
Proof.
  intros Hr. destruct s; inversion Hr; subst; (split; [done|]); cbn; eauto 10.
Qed.

Lemma rbi_color n c c' l a r : rbi n c (T c' l a r) -> c = c'.
Proof. by inversion 1. Qed.

(** A red subtree is not empty. *)
Lemma rbi_Red_inv s n t : rbi n Red t -> exists x a y, t = mk s Red x a y /\ rbi n Black x /\ rbi n Black y.
Proof. inversion 1; subst. destruct s; eauto 10. Qed.

(** A subtree with a black node on every path is not empty. *)
Lemma rbi_S_inv s n c t : rbi (S n) c t -> exists x a y, t = mk s c x a y.
Proof. inversion 1; subst; destruct s; eauto. Qed.

Lemma rbi_Black_inv s n t : rbi n Black t ->
  (n = O /\ t = E) \/
  exists n' cx cy x a y, n = S n' /\ t = mk s Black x a y /\ rbi n' cx x /\ rbi n' cy y.
Proof. inversion 1; subst; [by left|]. right. destruct s; eauto 10. Qed.

(** Recolouring the root black. *)
Lemma rbi_blacken n l a r : rbi n Red (T Red l a r) -> rbi (S n) Black (T Black l a r).
Proof. inversion 1; subst. eauto with rb. Qed.

Lemma plug_rbi n c k t : rbi n c t -> ctxi n c k -> rb_tree (plug k t).
Proof.
  intros Ht Hk. revert t Ht. induction Hk; intros t Ht; cbn.
  - by exists n.
  - apply IHHk. auto with rb.
  - apply IHHk. eauto with rb.
Qed.

Lemma plug_inv k t : rb_tree (plug k t) -> exists n c, rbi n c t /\ ctxi n c k.
Proof.
  revert t. induction k as [|[s c a x] k IH]; intros t; cbn.
  - intros [n Hn]. eauto with rb.
  - intros Hr. apply IH in Hr as (n & c' & Ht & Hk).
    apply rbi_mk_inv in Ht as [-> Ht]. destruct c; cbn in Ht.
    + destruct Ht as (n' & cx & cy & -> & ? & ?). eauto with rb.
    + destruct Ht. eauto with rb.
Qed.

(** A context that takes a red subtree takes a black one of the same height. *)
Lemma ctxi_Red n k : ctxi n Red k -> exists s a x c k', k = Frame s Black a x :: k' /\ rbi n c x /\ ctxi (S n) Black k'.
Proof. inversion 1; subst. eauto 10. Qed.

Lemma ctxi_any n c k : ctxi n Red k -> ctxi n c k.
Proof. inversion 1; subst. eauto with rb. Qed.

(** ** Height *)

Lemma height_mk s c x a y : height (mk s c x a y) = S (max (height x) (height y)).
Proof. destruct s; cbn; [done|]. by rewrite Nat.max_comm. Qed.

Lemma height_plug k t : (length k + height t <= height (plug k t))%nat.
Proof.
  revert t. induction k as [|[s c a x] k IH]; intros t; cbn; [lia|].
  specialize (IH (mk s c t a x)). rewrite height_mk in IH. lia.
Qed.

(** The longest path has at most twice as many nodes as it has black ones. *)
Lemma rbi_height n c t : rbi n c t -> (height t <= 2 * n + match c with Red => 1 | Black => 0 end)%nat.
Proof.
  induction 1; cbn in *; [lia|lia|].
  destruct c, c'; lia.
Qed.

Lemma rbi_size n c t : rbi n c t -> 2 ^ Z.of_nat n <= Z.of_nat (length (elems t)) + 1.
Proof.
  induction 1; cbn [elems]; rewrite ?length_app; cbn [length]; [done|lia|].
  rewrite Nat2Z.inj_succ, Z.pow_succ_r by lia. lia.
Qed.

(** Addresses of nodes: not NULL, even (the low bit holds the colour), 64 bits. *)
Definition node_addr (a : Z) : Prop := 0 < a < 2 ^ 64 /\ Z.even a = true.

Lemma even_addresses_bound l : NoDup l -> Forall node_addr l -> Z.of_nat (length l) < 2 ^ 63.
Proof.
  intros Hn Hl.
  assert (length l <= length (Z.mul 2 <$> seqZ 1 (2 ^ 63 - 1)))%nat as Hle.
  { apply submseteq_length, NoDup_submseteq; [done|]. intros a Ha.
    apply list_elem_of_fmap. exists (a / 2).
    rewrite Forall_forall in Hl. destruct (Hl a Ha) as [Hr He].
    apply Z.even_spec in He as [b ->].
    assert (2 * b / 2 = b) as -> by (rewrite Z.mul_comm; by apply Z.div_mul).
    split; [done|]. apply elem_of_seqZ. change (2 ^ 64) with (2 * 2 ^ 63) in Hr. lia. }
  rewrite length_fmap, length_seqZ in Hle. lia.
Qed.

Lemma height_bound t : rb_tree t -> NoDup (elems t) -> Forall node_addr (elems t) -> (height t <= 126)%nat.
Proof.
  intros [n Hn] Hd Ha.
  pose proof (rbi_size _ _ _ Hn) as Hs. pose proof (even_addresses_bound _ Hd Ha).
  pose proof (rbi_height _ _ _ Hn) as Hh. cbn in Hh.
  assert (Z.of_nat n < 64).
  { apply (Z.pow_lt_mono_r_iff 2); [lia|lia|]. change (2 ^ 64) with (2 * 2 ^ 63). lia. }
  lia.
Qed.

(** ** Walks *)

(** The outermost element on one side. *)
Fixpoint tend (s : side) (t : tree) : Z :=
  match t with
  | E => 0
  | T _ l a r =>
      match s, l, r with
      | Left, E, _ | Right, _, E => a
      | Left, _, _ => tend s l
      | Right, _, _ => tend s r
      end
  end.

(** The nearest ancestor that has the hole on its other side. *)
Fixpoint climb (s : side) (k : ctx) : Z :=
  match k with
  | [] => 0
  | Frame s' _ a _ :: k => match s, s' with Left, Left | Right, Right => climb s k | _, _ => a end
  end.

Definition is_left (k : ctx) : bool := match k with Frame Left _ _ _ :: _ => true | _ => false end.

(** The first and the last of a list of nodes, NULL when it is empty. *)
Definition hd0 (l : list Z) : Z := match l with [] => 0 | a :: _ => a end.
Definition lst0 (l : list Z) : Z := hd0 (reverse l).

Lemma hd0_app l l' : l <> [] -> hd0 (l ++ l') = hd0 l.
Proof. by destruct l. Qed.

Lemma lst0_snoc l a : lst0 (l ++ [a]) = a.
Proof. unfold lst0. by rewrite reverse_snoc. Qed.

Lemma lst0_app l l' : l' <> [] -> lst0 (l ++ l') = lst0 l'.
Proof.
  intros H. unfold lst0. rewrite reverse_app. apply hd0_app. intros Hr. apply H.
  rewrite <- (reverse_involutive l'). by rewrite Hr.
Qed.

Lemma lst0_cons a l : l <> [] -> lst0 (a :: l) = lst0 l.
Proof. intros. by apply (lst0_app [a]). Qed.

Lemma elems_nil t : elems t = [] <-> t = E.
Proof. destruct t; cbn; [done|]. split; [|done]. by intros [_ ?]%app_eq_nil. Qed.

Lemma tend_Left t : tend Left t = hd0 (elems t).
Proof.
  induction t as [|c l IHl a r _]; [done|]. cbn [elems]. destruct l as [|c' l' b r']; [done|].
  rewrite hd0_app, <- IHl; [done|]. by rewrite elems_nil.
Qed.

Lemma tend_Right t : tend Right t = lst0 (elems t).
Proof.
  induction t as [|c l _ a r IHr]; [done|]. cbn [elems]. rewrite lst0_app by done.
  destruct r as [|c' l' b r']; [by destruct l|].
  rewrite lst0_cons, <- IHr by by rewrite elems_nil. by destruct l.
Qed.

Lemma climb_Right k : climb Right k = hd0 (after k).
Proof. by induction k as [|[[] c a x] k IH]. Qed.

Lemma climb_Left k : climb Left k = lst0 (before k).
Proof.
  induction k as [|[[] c a x] k IH]; [done|done|]. cbn. by rewrite app_assoc, lst0_snoc.
Qed.

(** Going down to a place for the key [K]. *)
Section search.
Context (key : Z -> Z).

Fixpoint search (K : Z) (k : ctx) (t : tree) : ctx * tree :=
  match t with
  | E => (k, E)
  | T c l a r =>
      match key a ?= K with
      | Eq => (k, t)
      | Gt => search K (Frame Left c a r :: k) l
      | Lt => search K (Frame Right c a l :: k) r
      end
  end.

Lemma search_plug K k t : plug (search K k t).1 (search K k t).2 = plug k t.
Proof.
  revert k. induction t as [|c l IHl a r IHr]; intros k; cbn; [done|].
  destruct (key a ?= K); [done|by rewrite IHr|by rewrite IHl].
Qed.

Lemma search_found K k t : (search K k t).2 <> E -> key (ptr (search K k t).2) = K.
Proof.
  revert k. induction t as [|c l IHl a r IHr]; intros k; cbn; [done|].
  destruct (key a ?= K) eqn:Hc; [|auto..]. intros _. by apply Z.compare_eq in Hc.
Qed.

Definition key_sorted (l : list Z) : Prop := StronglySorted (fun a b => key a < key b) l.

Lemma key_sorted_node k c l a r : key_sorted (elems (plug k (T c l a r))) ->
  Forall (fun b => key b < key a) (elems l) /\ Forall (fun b => key a < key b) (elems r).
Proof.
  rewrite elems_plug. cbn. intros Hs.
  apply StronglySorted_app_1_r, StronglySorted_app_1_l in Hs.
  apply StronglySorted_app in Hs as (Hx & _ & Hs). split.
  - apply Forall_forall. intros b Hin. apply Hx; [done|]. by left.
  - by apply StronglySorted_inv in Hs as [_ Hs].
Qed.

Lemma search_sides K k t :
  key_sorted (elems (plug k t)) ->
  Forall (fun a => key a < K) (before k) -> Forall (fun a => K < key a) (after k) ->
  Forall (fun a => key a < K) (before (search K k t).1) /\ Forall (fun a => K < key a) (after (search K k t).1).
Proof.
  revert k. induction t as [|c l IHl a r IHr]; intros k Hs Hb Ha; cbn; [done|].
  destruct (key_sorted_node _ _ _ _ _ Hs) as [Hl Hr].
  rewrite elems_plug in Hs. cbn in Hs.
  destruct (Z.compare_spec (key a) K); [done|..].
  - apply IHr; [by rewrite elems_plug in *; cbn; rewrite <- !app_assoc in *|..]; cbn; [|done].
    rewrite !Forall_app. split_and!; [done| |by constructor].
    eapply Forall_impl; [exact Hl|]. cbn. lia.
  - apply IHl; [by rewrite elems_plug in *; cbn; rewrite <- !app_assoc in *|..]; cbn; [done|].
    constructor; [done|]. rewrite Forall_app. split; [|done].
    eapply Forall_impl; [exact Hr|]. cbn. lia.
Qed.

End search.

(** The next node on side [s] of the node at a position. *)
Definition neighbour (s : side) (k : ctx) (t : tree) : Z :=
  match t with
  | E => 0
  | T _ l _ r =>
      match match s with Left => l | Right => r end with
      | E => climb s k
      | x => tend (other s) x
      end
  end.

Lemma neighbour_Right k c l a r : neighbour Right k (T c l a r) = hd0 (elems r ++ after k).
Proof.
  cbn [neighbour other]. destruct r as [|c' l' b r']; [apply climb_Right|].
  rewrite hd0_app by by rewrite elems_nil. apply tend_Left.
Qed.

Lemma neighbour_Left k c l a r : neighbour Left k (T c l a r) = lst0 (before k ++ elems l).
Proof.
  cbn [neighbour other]. destruct l as [|c' l' b r']; [cbn; rewrite app_nil_r; apply climb_Left|].
  rewrite lst0_app by by rewrite elems_nil. apply tend_Right.
Qed.

Lemma plug_ne k t : t <> E -> plug k t <> E.
Proof.
  revert t. induction k as [|[s c a x] k IH]; intros t Ht; cbn; [done|]. apply IH. by destruct s.
Qed.

(** ** Sorted lists of nodes *)

Section sorted.
Context (key : Z -> Z).

Lemma key_sorted_NoDup l : key_sorted key l -> NoDup l.
Proof.
  induction 1 as [|a l _ IH Hl]; constructor; [|done]. intros Hin.
  rewrite Forall_forall in Hl. specialize (Hl a Hin). lia.
Qed.

Fixpoint ins (a : Z) (l : list Z) : list Z :=
  match l with
  | [] => [a]
  | b :: l => if key b <? key a then b :: ins a l else a :: b :: l
  end.

Lemma ins_split a l1 l2 :
  Forall (fun b => key b < key a) l1 -> Forall (fun b => key a < key b) l2 -> ins a (l1 ++ l2) = l1 ++ a :: l2.
Proof.
  intros H1 H2. induction H1 as [|b l1 Hb _ IH]; cbn.
  - destruct l2 as [|b l2]; [done|]. cbn. inversion H2; subst. by rewrite (proj2 (Z.ltb_ge _ _)) by lia.
  - by rewrite (proj2 (Z.ltb_lt _ _) Hb), IH.
Qed.

Lemma ins_place a l : exists l1 l2, ins a l = l1 ++ a :: l2 /\ l = l1 ++ l2.
Proof.
  induction l as [|b l (l1 & l2 & E & El)]; cbn; [by exists [], []|].
  destruct (key b <? key a); [|by exists [], (b :: l)]. exists (b :: l1), l2. rewrite E, El. done.
Qed.

Lemma ins_elem a l b : b ∈ ins a l <-> b = a \/ b ∈ l.
Proof.
  induction l as [|c l IH]; cbn; [set_solver|]. destruct (key c <? key a); set_solver.
Qed.

Lemma ins_sorted a l : key_sorted key l -> (forall b, b ∈ l -> key b <> key a) -> key_sorted key (ins a l).
Proof.
  induction 1 as [|b l Hs IH Hl]; intros Hne; cbn; [by repeat constructor|].
  destruct (Z.ltb_spec (key b) (key a)) as [Hlt|Hge].
  - constructor; [apply IH; intros c Hc; apply Hne; by right|].
    apply Forall_forall. intros c [->|Hc]%ins_elem; [done|]. rewrite Forall_forall in Hl. by apply Hl.
  - assert (key a < key b) by (specialize (Hne b ltac:(by left)); lia).
    constructor; [by constructor|]. constructor; [done|]. eapply Forall_impl; [exact Hl|]. cbn. lia.
Qed.

Lemma ins_StronglySorted (R : Z -> Z -> Prop) a l :
  key_sorted key l -> StronglySorted R l ->
  (forall b, b ∈ l -> key b < key a -> R b a) -> (forall b, b ∈ l -> key a <= key b -> R a b) ->
  StronglySorted R (ins a l).
Proof.
  intros Hs Hl. revert Hs. induction Hl as [|b l Hl IH Hb]; intros Hs Hlo Hhi; cbn; [by repeat constructor|].
  apply StronglySorted_inv in Hs as [Hs Hsb].
  destruct (Z.ltb_spec (key b) (key a)) as [Hlt|Hge].
  - constructor.
    + apply IH; [done|..]; intros c Hc; [apply Hlo|apply Hhi]; by right.
    + apply Forall_forall. intros c [->|Hc]%ins_elem; [apply Hlo; [by left|done]|]. rewrite Forall_forall in Hb. by apply Hb.
  - constructor; [by constructor|]. apply Forall_forall. intros c Hc. apply Hhi; [done|].
    apply elem_of_cons in Hc as [->|Hc]; [done|]. rewrite Forall_forall in Hsb. specialize (Hsb c Hc). cbn in Hsb. lia.
Qed.

End sorted.

(** The first and last node after a new node is linked left or right of [p]. *)
Lemma hd0_link b p r a : NoDup (b ++ p :: r) ->
  hd0 (b ++ a :: p :: r) = if p =? hd0 (b ++ p :: r) then a else hd0 (b ++ p :: r).
Proof.
  intros Hd. destruct b as [|c b]; cbn; [by rewrite Z.eqb_refl|].
  apply NoDup_cons in Hd as [Hn _]. destruct (Z.eqb_spec p c) as [->|]; [|done].
  exfalso. apply Hn. set_solver.
Qed.

Lemma lst0_link b p r a : NoDup (b ++ p :: r) ->
  lst0 (b ++ p :: a :: r) = if p =? lst0 (b ++ p :: r) then a else lst0 (b ++ p :: r).
Proof.
  intros Hd. destruct (exists_last (l := p :: r)) as (r' & c & E); [done|].
  rewrite (lst0_app b (p :: r)), E, lst0_snoc by done.
  destruct r as [|d r].
  - apply (app_inj_2 [] r' [p] [c]) in E as [<- [= <-]]; [|done]. by rewrite Z.eqb_refl, (lst0_app b), lst0_cons.
  - rewrite lst0_app, !lst0_cons by done.
    assert (lst0 (d :: r) = c) as -> by (rewrite <- (lst0_cons p), E, lst0_snoc by done; done).
    destruct (Z.eqb_spec p c) as [->|]; [|done]. exfalso.
    apply NoDup_app in Hd as (_ & _ & Hd). apply NoDup_cons in Hd as [Hn _]. apply Hn.
    destruct r' as [|p' r']; [by injection E|]. injection E as -> ->. set_solver.
Qed.

Lemma hd0_snoc b p r : hd0 (b ++ p :: r) = hd0 (b ++ [p]).
Proof. by destruct b. Qed.

Lemma lst0_elem l : l <> [] -> lst0 l ∈ l.
Proof.
  intros Hl. destruct (exists_last Hl) as (l' & a & ->). rewrite lst0_snoc. set_solver.
Qed.

(** The first and last node after [a] is taken out. *)
Lemma hd0_unlink b a r : NoDup (b ++ a :: r) ->
  hd0 (b ++ r) = if a =? hd0 (b ++ a :: r) then hd0 r else hd0 (b ++ a :: r).
Proof.
  intros Hd. destruct b as [|c b]; cbn; [by rewrite Z.eqb_refl|].
  apply NoDup_cons in Hd as [Hn _]. destruct (Z.eqb_spec a c) as [->|]; [|done]. exfalso. apply Hn. set_solver.
Qed.

Lemma lst0_unlink b a r : NoDup (b ++ a :: r) ->
  lst0 (b ++ r) = if a =? lst0 (b ++ a :: r) then lst0 b else lst0 (b ++ a :: r).
Proof.
  intros Hd. rewrite (lst0_app b (a :: r)) by done. destruct r as [|c r].
  - rewrite app_nil_r. change (lst0 [a]) with a. by rewrite Z.eqb_refl.
  - rewrite lst0_app, (lst0_cons a) by done. destruct (Z.eqb_spec a (lst0 (c :: r))) as [E|]; [|done].
    exfalso. apply NoDup_app in Hd as (_ & _ & Hd). apply NoDup_cons in Hd as [Hn _]. apply Hn.
    rewrite E. by apply lst0_elem.
Qed.
