(* ===== verification/RbSpec.v ===== *)
(** * Red-black trees in memory

    [trep t p] owns the nodes of the subtree [t] whose root has the parent [p],
    [crep k p] the nodes of the path [k] and of the subtrees beside it, with
    the pointer [p] in its hole.  The rules for the field accesses of RbTree.v
    and the specifications of the rotations and of the walks are proved here;
    insertion and removal are in RbInsert.v and RbRemove.v. *)

From iris.proofmode Require Import environments proofmode.
From S2P Require Import Prelude SepLogic RbTree RbShape.

Local Open Scope Z_scope.

(** ** Colours in the parent word *)

Definition addr0 (p : Z) : Prop := p = 0 \/ node_addr p.
Definition pack (p : Z) (c : color) : Z := Z.lor p (cz c).

Lemma land_mask_even p : addr0 p -> Z.land p (cnot 64 1) = p.
Proof.
  intros [->|[Hr He]]; [done|]. apply Z.bits_inj'. intros i Hi. rewrite Z.land_spec /cnot.
  rewrite wrap_testbit; [|done|done]. rewrite Z.lnot_spec; [|done].
  destruct (Z.ltb_spec i 64).
  - destruct (decide (i = 0)) as [->|]; [|rewrite (Z.bits_above_log2 1) ?andb_true_r //=; lia].
    rewrite Z.bit0_odd -Z.negb_even He. done.
  - rewrite andb_false_l andb_false_r. symmetry. apply (fits_testbit 64); [split; lia|lia].
Qed.

Lemma land_1_even p : addr0 p -> Z.land p 1 = 0.
Proof.
  intros [->|[Hr He]]; [done|]. apply Z.even_spec in He as [b ->].
  rewrite (Z.land_ones _ 1); [|done]. rewrite Z.mul_comm. by apply Z.mod_mul.
Qed.

Lemma pack_color p c : addr0 p -> Z.land (pack p c) 1 = cz c.
Proof. intros Hp. rewrite /pack Z.land_lor_distr_l land_1_even //. by destruct c. Qed.

Lemma pack_parent p c : addr0 p -> Z.land (pack p c) (cnot 64 1) = p.
Proof. intros Hp. rewrite /pack Z.land_lor_distr_l land_mask_even //. destruct c; by rewrite Z.lor_0_r. Qed.

Lemma set_color_word w c : Z.land (Z.lor (Z.land w (cnot 64 1)) (cz c)) 1 = cz c.
Proof. rewrite Z.land_lor_distr_l -Z.land_assoc. rewrite Z.land_0_r. by destruct c. Qed.

(** ** Ownership of nodes *)

Abbreviation rbProp := (hPropI rbcell).

Definition node (a l r p : Z) (c : color) : rbProp :=
  ⌜node_addr a /\ addr0 p⌝ ∗ a ↦ CNode (Node l r (pack p c)).

Definition head (tree r f l : Z) : rbProp := tree ↦ CTree (Tree r f l).

Fixpoint trep (t : tree) (p : Z) : rbProp :=
  match t with
  | E => emp
  | T c l a r => node a (ptr l) (ptr r) p c ∗ trep l a ∗ trep r a
  end.

Fixpoint crep (k : ctx) (p : Z) : rbProp :=
  match k with
  | [] => emp
  | Frame s c a x :: k =>
      match s with
      | Left => node a p (ptr x) (top k) c
      | Right => node a (ptr x) p (top k) c
      end ∗ trep x a ∗ crep k a
  end.

(** The tree whose head is at [tr], seen from the position [k], [t]. *)
Definition zrep (tr : Z) (k : ctx) (t : tree) (f l : Z) : rbProp :=
  trep t (top k) ∗ crep k (ptr t) ∗ head tr (ptr (plug k t)) f l.

Lemma trep_mk s c x a y p :
  trep (mk s c x a y) p ⊣⊢
  match s with Left => node a (ptr x) (ptr y) p c | Right => node a (ptr y) (ptr x) p c end ∗ trep x a ∗ trep y a.
Proof. destruct s; cbn; [done|]. by rewrite (comm _ (trep y a)). Qed.

Lemma trep_plug k t : trep (plug k t) 0 ⊣⊢ trep t (top k) ∗ crep k (ptr t).
Proof.
  revert t. induction k as [|[s c a x] k IH]; intros t; cbn.
  - by rewrite right_id.
  - rewrite IH trep_mk ptr_mk. destruct s; iSplit;
      [iIntros "((? & ? & ?) & ?)"|iIntros "(? & ? & ? & ?)"|iIntros "((? & ? & ?) & ?)"|iIntros "(? & ? & ? & ?)"]; iFrame.
Qed.

Lemma zrep_plug tr k t f l : zrep tr k t f l ⊣⊢ zrep tr [] (plug k t) f l.
Proof. rewrite /zrep /= trep_plug. iSplit; [iIntros "(? & ? & ?)"|iIntros "((? & ?) & _ & ?)"]; iFrame. Qed.

(** ** Pure facts the ownership gives *)

Lemma node_facts a l r p c : node a l r p c ⊢ ⌜node_addr a /\ addr0 p⌝.
Proof. iIntros "[% _]". done. Qed.

Lemma trep_ptr t p : trep t p ⊢ ⌜addr0 (ptr t)⌝.
Proof.
  destruct t as [|c l a r]; cbn; iIntros "H"; [by iPureIntro; left|].
  iDestruct "H" as "[[[% %] _] _]". iPureIntro. by right.
Qed.

Lemma crep_top k p : crep k p ⊢ ⌜addr0 (top k)⌝.
Proof.
  destruct k as [|[[] c a x] k]; cbn; iIntros "H"; [by iPureIntro; left|..];
    iDestruct "H" as "[[[% %] _] _]"; iPureIntro; by right.
Qed.

Lemma node_ne a b l r p c l' r' p' c' : node a l r p c ⊢ node b l' r' p' c' -∗ ⌜a ≠ b⌝.
Proof. iIntros "[_ H1] [_ H2]". iApply (points_to_ne with "H1 H2"). Qed.

Lemma trep_ne t q a l r p c : trep t q ⊢ node a l r p c -∗ ⌜ptr t ≠ a⌝.
Proof.
  destruct t as [|c' l' b r']; cbn.
  - iIntros "_ [[[% _] _] _]". iPureIntro. lia.
  - iIntros "[H1 _] H2". iApply (node_ne with "H1 H2").
Qed.

Lemma node_addr0 a : node_addr a -> addr0 a.
Proof. by right. Qed.
Lemma addr0_0 : addr0 0.
Proof. by left. Qed.
#[export] Hint Resolve node_addr0 addr0_0 : rb.

(** ** Rules for the accesses *)

Section rules.
Context (a l r p : Z) (c : color).
Implicit Type Φ : rbProp.

Lemma wp_node_at Ψ :
  node a l r p c ⊢ (node a l r p c -∗ Ψ (Node l r (pack p c))) -∗ wp (node_at a) Ψ.
Proof.
  iIntros "[% Ha] HΨ". iApply wp_bind. iApply (wp_load with "Ha"). iIntros "Ha".
  iApply wp_ret. iApply "HΨ". by iFrame.
Qed.

Lemma wp_get_child s Ψ :
  node a l r p c ⊢ (node a l r p c -∗ Ψ (match s with Left => l | Right => r end)) -∗ wp (get_child s a) Ψ.
Proof.
  iIntros "Ha HΨ". iApply wp_bind. iApply (wp_node_at with "Ha"). iIntros "Ha".
  iApply wp_ret. destruct s; by iApply "HΨ".
Qed.

Lemma wp_put_child s v Ψ :
  node a l r p c ⊢
  (match s with Left => node a v r p c | Right => node a l v p c end -∗ Ψ tt) -∗ wp (put_child s a v) Ψ.
Proof.
  iIntros "Ha HΨ". iApply wp_bind. iApply (wp_node_at with "Ha"). iIntros "[% Ha]".
  iApply (wp_store with "Ha"). iIntros "Ha". iApply "HΨ". destruct s; by iFrame.
Qed.

Lemma wp_put_parent p' c' Ψ : addr0 p' ->
  node a l r p c ⊢ (node a l r p' c' -∗ Ψ tt) -∗ wp (put_parent a (pack p' c')) Ψ.
Proof.
  iIntros (Hp) "Ha HΨ". iApply wp_bind. iApply (wp_node_at with "Ha"). iIntros "[[% %] Ha]".
  iApply (wp_store with "Ha"). iIntros "Ha". iApply "HΨ". by iFrame.
Qed.

Lemma wp_get_color Ψ : node a l r p c ⊢ (node a l r p c -∗ Ψ (cz c)) -∗ wp (get_color a) Ψ.
Proof.
  iIntros "Ha HΨ". iApply wp_bind. iApply (wp_node_at with "Ha"). iIntros "Ha".
  iDestruct (node_facts with "Ha") as %[_ ?].
  iApply wp_ret. cbn. rewrite pack_color //. by iApply "HΨ".
Qed.

Lemma wp_get_parent Ψ : node a l r p c ⊢ (node a l r p c -∗ Ψ p) -∗ wp (get_parent a) Ψ.
Proof.
  iIntros "Ha HΨ". iApply wp_bind. iApply (wp_node_at with "Ha"). iIntros "Ha".
  iDestruct (node_facts with "Ha") as %[_ ?].
  iApply wp_ret. cbn. rewrite pack_parent //. by iApply "HΨ".
Qed.

Lemma wp_set_color c' Ψ : node a l r p c ⊢ (node a l r p c' -∗ Ψ tt) -∗ wp (set_color (cz c') a) Ψ.
Proof.
  iIntros "Ha HΨ". iApply wp_bind. iApply (wp_node_at with "Ha"). iIntros "Ha".
  iDestruct (node_facts with "Ha") as %[_ ?]. cbn. rewrite pack_parent //.
  by iApply (wp_put_parent with "Ha").
Qed.

Lemma wp_set_parent p' Ψ : addr0 p' ->
  node a l r p c ⊢ (node a l r p' c -∗ Ψ tt) -∗ wp (set_parent p' a) Ψ.
Proof.
  iIntros (?) "Ha HΨ". iApply wp_bind. iApply (wp_node_at with "Ha"). iIntros "Ha".
  iDestruct (node_facts with "Ha") as %[_ ?]. cbn. rewrite pack_color //.
  by iApply (wp_put_parent with "Ha").
Qed.

Lemma wp_is_root Ψ : node a l r p c ⊢ (node a l r p c -∗ Ψ (p =? 0)) -∗ wp (is_root a) Ψ.
Proof.
  iIntros "Ha HΨ". iApply wp_bind. iApply (wp_get_parent with "Ha"). iIntros "Ha".
  iApply wp_ret. by iApply "HΨ".
Qed.

Definition blackb (c : color) : bool := match c with Black => true | Red => false end.

Lemma wp_is_black Ψ : node a l r p c ⊢ (node a l r p c -∗ Ψ (blackb c)) -∗ wp (is_black a) Ψ.
Proof.
  iIntros "Ha HΨ". iApply wp_bind. iApply (wp_get_color with "Ha"). iIntros "Ha".
  iApply wp_ret. destruct c; by iApply "HΨ".
Qed.

Lemma wp_is_red Ψ : node a l r p c ⊢ (node a l r p c -∗ Ψ (negb (blackb c))) -∗ wp (is_red a) Ψ.
Proof.
  iIntros "Ha HΨ". iApply wp_bind. iApply (wp_is_black with "Ha"). iIntros "Ha".
  iApply wp_ret. by iApply "HΨ".
Qed.

End rules.

Section head_rules.
Context (tr r f l : Z).

Lemma wp_tree_at Ψ : head tr r f l ⊢ (head tr r f l -∗ Ψ (Tree r f l)) -∗ wp (tree_at tr) Ψ.
Proof.
  iIntros "Ha HΨ". iApply wp_bind. iApply (wp_load with "Ha"). iIntros "Ha".
  iApply wp_ret. by iApply "HΨ".
Qed.

Lemma wp_head_field (g : rbtree -> Z) Ψ :
  head tr r f l ⊢ (head tr r f l -∗ Ψ (g (Tree r f l))) -∗ wp (t ← tree_at tr; mret (g t)) Ψ.
Proof.
  iIntros "Ha HΨ". iApply wp_bind. iApply (wp_tree_at with "Ha"). iIntros "Ha".
  iApply wp_ret. by iApply "HΨ".
Qed.

Lemma wp_get_root Ψ : head tr r f l ⊢ (head tr r f l -∗ Ψ r) -∗ wp (get_root tr) Ψ.
Proof. apply (wp_head_field root). Qed.
Lemma wp_first Ψ : head tr r f l ⊢ (head tr r f l -∗ Ψ f) -∗ wp (rbtree_first tr) Ψ.
Proof. apply (wp_head_field first). Qed.
Lemma wp_last Ψ : head tr r f l ⊢ (head tr r f l -∗ Ψ l) -∗ wp (rbtree_last tr) Ψ.
Proof. apply (wp_head_field last). Qed.

Lemma wp_head_store (g : rbtree -> rbtree) Ψ :
  head tr r f l ⊢ (tr ↦ CTree (g (Tree r f l)) -∗ Ψ tt) -∗ wp (t ← tree_at tr; store_cell tr (CTree (g t))) Ψ.
Proof.
  iIntros "Ha HΨ". iApply wp_bind. iApply (wp_tree_at with "Ha"). iIntros "Ha".
  by iApply (wp_store with "Ha").
Qed.

Lemma wp_put_root v Ψ : head tr r f l ⊢ (head tr v f l -∗ Ψ tt) -∗ wp (put_root tr v) Ψ.
Proof. apply (wp_head_store (fun t => Tree v (first t) (last t))). Qed.
Lemma wp_put_first v Ψ : head tr r f l ⊢ (head tr r v l -∗ Ψ tt) -∗ wp (put_first tr v) Ψ.
Proof. apply (wp_head_store (fun t => Tree (root t) v (last t))). Qed.
Lemma wp_put_last v Ψ : head tr r f l ⊢ (head tr r f v -∗ Ψ tt) -∗ wp (put_last tr v) Ψ.
Proof. apply (wp_head_store (fun t => Tree (root t) (first t) v)). Qed.

End head_rules.

(** The first statements of an insertion, on a node with any contents. *)
Lemma wp_node_raw a n Ψ : a ↦ CNode n ⊢ (a ↦ CNode n -∗ Ψ n) -∗ wp (node_at a) Ψ.
Proof.
  iIntros "H HΨ". iApply wp_bind. iApply (wp_load with "H"). iIntros "H". iApply wp_ret. by iApply "HΨ".
Qed.

Lemma wp_put_raw (g : rbtree_node -> rbtree_node) a n Ψ :
  a ↦ CNode n ⊢ (a ↦ CNode (g n) -∗ Ψ tt) -∗ wp (n ← node_at a; store_cell a (CNode (g n))) Ψ.
Proof.
  iIntros "H HΨ". iApply wp_bind. iApply (wp_node_raw with "H"). iIntros "H". by iApply (wp_store with "H").
Qed.

Lemma wp_put_parent_raw (g : Z -> Z) a n Ψ :
  a ↦ CNode n ⊢ (a ↦ CNode (Node (left n) (right n) (g (parent n))) -∗ Ψ tt) -∗
  wp (n ← node_at a; put_parent a (g (parent n))) Ψ.
Proof.
  iIntros "H HΨ". iApply wp_bind. iApply (wp_node_raw with "H"). iIntros "H".
  by iApply (wp_put_raw (fun n' => Node (left n') (right n') (g (parent n))) with "H").
Qed.

Lemma wp_init_node {A} a n p (rest : rb A) Ψ : node_addr a -> addr0 p ->
  a ↦ CNode n ⊢ (node a 0 0 p Red -∗ wp rest Ψ) -∗
  wp (_ ← put_child Left a 0; _ ← put_child Right a 0; _ ← set_color RB_RED a; _ ← set_parent p a; rest) Ψ.
Proof.
  intros Ha Hp. iIntros "H HΨ".
  iApply wp_bind. iApply (wp_put_raw (fun n => Node 0 (right n) (parent n)) with "H"). iIntros "H".
  iApply wp_bind. iApply (wp_put_raw (fun n => Node (left n) 0 (parent n)) with "H"). iIntros "H".
  iApply wp_bind. iApply (wp_put_parent_raw (fun w => Z.lor (Z.land w (cnot 64 1)) RB_RED) with "H"). iIntros "H".
  iApply wp_bind. iApply (wp_put_parent_raw (fun w => Z.lor p (Z.land w 1)) with "H"). iIntros "H".
  iApply "HΨ". cbn [left right parent]. rewrite (set_color_word _ Red). by iFrame.
Qed.

Lemma node_cell a l r p c : node a l r p c ⊢ a ↦ CNode (Node l r (pack p c)).
Proof. by iIntros "[_ H]". Qed.

Lemma node_intro a l r p c : node_addr a -> addr0 p -> a ↦ CNode (Node l r (pack p c)) ⊢ node a l r p c.
Proof. iIntros (??) "H". by iFrame. Qed.

Lemma head_intro tr r f l : tr ↦ CTree (Tree r f l) ⊢ head tr r f l.
Proof. done. Qed.

Lemma head_elim tr r f l : head tr r f l ⊢ tr ↦ CTree (Tree r f l).
Proof. done. Qed.

#[global] Opaque node head.

(** One statement of the code: the rule for its first access, with the node it
    needs taken from the context. *)
Ltac wp_access :=
  lazymatch goal with
  | |- envs_entails _ (wp (get_child _ ?a) _) => iApply (wp_get_child a with "[$]"); iIntros "?"
  | |- envs_entails _ (wp (put_child _ ?a _) _) => iApply (wp_put_child a with "[$]"); iIntros "?"
  | |- envs_entails _ (wp (get_parent ?a) _) => iApply (wp_get_parent a with "[$]"); iIntros "?"
  | |- envs_entails _ (wp (set_parent _ ?a) _) => iApply (wp_set_parent a with "[$]"); [eauto with rb|iIntros "?"]
  | |- envs_entails _ (wp (get_color ?a) _) => iApply (wp_get_color a with "[$]"); iIntros "?"
  | |- envs_entails _ (wp (set_color RB_BLACK ?a) _) => iApply (wp_set_color a _ _ _ _ Black with "[$]"); iIntros "?"
  | |- envs_entails _ (wp (set_color RB_RED ?a) _) => iApply (wp_set_color a _ _ _ _ Red with "[$]"); iIntros "?"
  | |- envs_entails _ (wp (set_color (cz ?c) ?a) _) => iApply (wp_set_color a _ _ _ _ c with "[$]"); iIntros "?"
  | |- envs_entails _ (wp (is_root ?a) _) => iApply (wp_is_root a with "[$]"); iIntros "?"
  | |- envs_entails _ (wp (is_black ?a) _) => iApply (wp_is_black a with "[$]"); iIntros "?"
  | |- envs_entails _ (wp (is_red ?a) _) => iApply (wp_is_red a with "[$]"); iIntros "?"
  | |- envs_entails _ (wp (get_root ?a) _) => iApply (wp_get_root a with "[$]"); iIntros "?"
  | |- envs_entails _ (wp (rbtree_first ?a) _) => iApply (wp_first a with "[$]"); iIntros "?"
  | |- envs_entails _ (wp (rbtree_last ?a) _) => iApply (wp_last a with "[$]"); iIntros "?"
  | |- envs_entails _ (wp (put_root ?a _) _) => iApply (wp_put_root a with "[$]"); iIntros "?"
  | |- envs_entails _ (wp (put_first ?a _) _) => iApply (wp_put_first a with "[$]"); iIntros "?"
  | |- envs_entails _ (wp (put_last ?a _) _) => iApply (wp_put_last a with "[$]"); iIntros "?"
  | |- envs_entails _ (wp (mret _) _) => iApply wp_ret
  end.

Ltac wp_step :=
  cbn [negb andb other ptr blackb];
  lazymatch goal with
  | |- envs_entails _ (wp (_ ≫= _) _) => iApply wp_bind; wp_access
  | |- _ => wp_access
  end; cbn [other].

Lemma ptr_plug_indep k t t' : ptr t = ptr t' -> ptr (plug k t) = ptr (plug k t').
Proof.
  revert t t'. induction k as [|[s c a x] k IH]; intros t t' H; [done|]. cbn. apply IH. by rewrite !ptr_mk.
Qed.

Lemma ptr_plug_cons s c a x k t : ptr (plug (Frame s c a x :: k) t) = ptr (plug k (mk s c E a x)).
Proof. cbn. apply ptr_plug_indep. by rewrite !ptr_mk. Qed.

(** The statement that puts [q] in the place of [p] below the parent of [p],
    or at the root. *)
Lemma wp_relink tr k t t' f l l' r' p' c' Ψ :
  node (ptr t) l' r' p' c' ⊢ crep k (ptr t) -∗ head tr (ptr (plug k t)) f l -∗
  (node (ptr t) l' r' p' c' -∗ crep k (ptr t') -∗ head tr (ptr (plug k t')) f l -∗ Ψ tt) -∗
  wp (if negb (top k =? 0) then
        c ← get_child Left (top k);
        if c =? ptr t then put_child Left (top k) (ptr t') else put_child Right (top k) (ptr t')
      else put_root tr (ptr t')) Ψ.
Proof.
  iIntros "Hp Hk Hh HΨ". destruct k as [|[s c a x] k].
  - cbn. wp_step. iApply ("HΨ" with "[$] [$] [$]").
  - rewrite !ptr_plug_cons. cbn [top f_addr crep]. destruct s;
      iDestruct "Hk" as "(Ha & Hx & Hk)"; iDestruct (node_facts with "Ha") as %[[Ha _] _];
      (replace (a =? 0) with false by (symmetry; apply Z.eqb_neq; lia)); cbn [negb]; wp_step.
    + rewrite Z.eqb_refl. wp_step. iApply ("HΨ" with "[$] [$] [$]").
    + iDestruct (trep_ne with "Hx Hp") as %Hne. apply Z.eqb_neq in Hne as ->.
      wp_step. iApply ("HΨ" with "[$] [$] [$]").
Qed.

(** The statement that gives a subtree its new parent, when it is not empty. *)
Lemma wp_reparent t p p' Ψ : addr0 p' ->
  trep t p ⊢ (trep t p' -∗ Ψ tt) -∗
  wp (if negb (ptr t =? 0) then set_parent p' (ptr t) else mret tt) Ψ.
Proof.
  iIntros (Hp) "Ht HΨ". destruct t as [|c l a r]; cbn.
  - wp_step. by iApply "HΨ".
  - iDestruct "Ht" as "(Ha & Hl & Hr)". iDestruct (node_facts with "Ha") as %[[Ha _] _].
    replace (a =? 0) with false by (symmetry; apply Z.eqb_neq; lia). cbn [negb].
    wp_step. iApply "HΨ". iFrame.
Qed.

(** ** Rotations *)

(** rotate_left and rotate_right: the child [q] on the other side takes the
    place of [p]; the colours stay with the nodes and the order is kept. *)
Lemma wp_rotate s tr k c x p c' y q z f l Ψ :
  zrep tr k (mk s c x p (mk s c' y q z)) f l ⊢
  (zrep tr k (mk s c' (mk s c x p y) q z) f l -∗ Ψ tt) -∗ wp (rotate s p tr) Ψ.
Proof.
  unfold rotate, zrep. destruct s; cbn [other mk trep ptr];
    iIntros "(Ht & Hk & Hh) HΨ".
  - iDestruct "Ht" as "(Hp & Hx & Hq & Hy & Hz)".
    iDestruct (node_facts with "Hp") as %[Hp Htop]. iDestruct (node_facts with "Hq") as %[Hq _].
    do 3 wp_step. iApply wp_bind.
    iApply (wp_relink tr k (T c x p (T c' y q z)) (T c' (T c x p y) q z) with "[$] Hk Hh").
    iIntros "Hp Hk Hh". do 5 wp_step.
    iApply wp_bind. iApply (wp_reparent y with "Hy"); [eauto with rb|]. iIntros "Hy". wp_step.
    iApply "HΨ". iFrame.
  - iDestruct "Ht" as "(Hp & (Hq & Hz & Hy) & Hx)".
    iDestruct (node_facts with "Hp") as %[Hp Htop]. iDestruct (node_facts with "Hq") as %[Hq _].
    do 3 wp_step. iApply wp_bind.
    iApply (wp_relink tr k (T c (T c' z q y) p x) (T c' z q (T c y p x)) with "[$] Hk Hh").
    iIntros "Hp Hk Hh". do 5 wp_step.
    iApply wp_bind. iApply (wp_reparent y with "Hy"); [eauto with rb|]. iIntros "Hy". wp_step.
    iApply "HΨ". iFrame.
Qed.

(** ** Walks *)

Lemma node_addr_eqb a : node_addr a -> (a =? 0) = false.
Proof. intros [? _]. apply Z.eqb_neq. lia. Qed.

Lemma wp_get_end s fuel t p Ψ : t <> E -> (height t <= fuel)%nat ->
  trep t p ⊢ (trep t p -∗ Ψ (tend s t)) -∗
  wp (loop fuel (fun node =>
        c ← get_child s node;
        if negb (c =? 0) then mret (inl c) else mret (inr node)) (ptr t)) Ψ.
Proof.
  revert t p. induction fuel as [|fuel IH]; intros [|c l a r] p Hne Hf; [done|cbn in Hf; lia|done|].
  cbn [trep ptr height] in *. iIntros "(Ha & Hl & Hr) HΨ".
  iApply wp_loop. wp_step.
  iDestruct (trep_ptr with "Hl") as %Hpl. iDestruct (trep_ptr with "Hr") as %Hpr.
  destruct s.
  - destruct l as [|c' l' b r'].
    + cbn. wp_step. iApply "HΨ". iFrame.
    + destruct Hpl as [Hb|Hb]; [cbn in Hb|]; cbn [ptr] in *.
      { iDestruct "Hl" as "(Hb & _)". iDestruct (node_facts with "Hb") as %[[??] _]. lia. }
      rewrite (node_addr_eqb _ Hb). wp_step.
      iApply (IH (T c' l' b r') with "Hl"); [done|cbn in *; lia|].
      iIntros "Hl". iApply "HΨ". iFrame.
  - destruct r as [|c' l' b r'].
    + cbn. wp_step. destruct l; iApply "HΨ"; iFrame.
    + destruct Hpr as [Hb|Hb]; [cbn in Hb|]; cbn [ptr] in *.
      { iDestruct "Hr" as "(Hb & _)". iDestruct (node_facts with "Hb") as %[[??] _]. lia. }
      rewrite (node_addr_eqb _ Hb). wp_step.
      iApply (IH (T c' l' b r') with "Hr"); [done|cbn in *; lia|].
      iIntros "Hr". destruct l; iApply "HΨ"; iFrame.
Qed.

(** Going up as long as we come from side [s]. *)
Lemma wp_climb s fuel k t Ψ : t <> E -> (length k < fuel)%nat ->
  trep t (top k) ∗ crep k (ptr t) ⊢ (trep t (top k) ∗ crep k (ptr t) -∗ Ψ (climb s k)) -∗
  wp (loop fuel (fun node =>
        parent ← get_parent node;
        if parent =? 0 then mret (inr parent)
        else
          c ← get_child s parent;
          if c =? node then mret (inl parent) else mret (inr parent)) (ptr t)) Ψ.
Proof.
  revert k t. induction fuel as [|fuel IH]; intros k [|c l a r] Hne Hf; [lia|lia|done|].
  iIntros "[(Ha & Hl & Hr) Hk] HΨ". cbn [ptr]. iApply wp_loop. wp_step.
  destruct k as [|[s' c' b x] k]; cbn [top f_addr crep].
  - cbn. wp_step. iApply "HΨ". iFrame.
  - destruct s'; iDestruct "Hk" as "(Hb & Hx & Hk)"; iDestruct (node_facts with "Hb") as %[Hb _];
      rewrite (node_addr_eqb _ Hb); iApply wp_bind; wp_access; destruct s.
    + rewrite Z.eqb_refl. wp_step.
      iApply (IH k (T c' (T c l a r) b x) with "[$]"); [done|cbn in *; lia|].
      iIntros "[(? & (? & ? & ?) & ?) ?]". iApply "HΨ". iFrame.
    + iDestruct (trep_ne x _ a with "Hx [$]") as %Hx. apply Z.eqb_neq in Hx as ->. wp_step. iApply "HΨ". iFrame.
    + iDestruct (trep_ne x _ a with "Hx [$]") as %Hx. apply Z.eqb_neq in Hx as ->. wp_step. iApply "HΨ". iFrame.
    + rewrite Z.eqb_refl. wp_step.
      iApply (IH k (T c' x b (T c l a r)) with "[$]"); [done|cbn in *; lia|].
      iIntros "[(? & ? & (? & ? & ?)) ?]". iApply "HΨ". iFrame.
Qed.

Lemma wp_rbtree_step s k c l a r Ψ :
  (height (T c l a r) <= RB_FUEL)%nat -> (length k < RB_FUEL)%nat ->
  trep (T c l a r) (top k) ∗ crep k a ⊢
  (trep (T c l a r) (top k) ∗ crep k a -∗ Ψ (neighbour s k (T c l a r))) -∗ wp (rbtree_step s a) Ψ.
Proof.
  intros Hh Hk. iIntros "[(Ha & Hl & Hr) Hk] HΨ". unfold rbtree_step. wp_step.
  cbn [height] in Hh. destruct s; cbn [neighbour other].
  - iDestruct (trep_ptr with "Hl") as %Hl. destruct l as [|c' l' b r']; cbn [ptr] in *.
    + iApply (wp_climb Left RB_FUEL k (T c E a r) with "[$]"); [done|done|].
      iIntros "[(? & ? & ?) ?]". iApply "HΨ". iFrame.
    + destruct (b =? 0) eqn:Hb; cbn [negb].
      { apply Z.eqb_eq in Hb as ->. iDestruct "Hl" as "(Hb & _)". iDestruct (node_facts with "Hb") as %[[??] _]. lia. }
      iApply (wp_get_end Right RB_FUEL (T c' l' b r') with "Hl"); [done|lia|].
      iIntros "?". iApply "HΨ". iFrame.
  - iDestruct (trep_ptr with "Hr") as %Hr. destruct r as [|c' l' b r']; cbn [ptr] in *.
    + iApply (wp_climb Right RB_FUEL k (T c l a E) with "[$]"); [done|done|].
      iIntros "[(? & ? & ?) ?]". iApply "HΨ". iFrame.
    + destruct (b =? 0) eqn:Hb; cbn [negb].
      { apply Z.eqb_eq in Hb as ->. iDestruct "Hr" as "(Hb & _)". iDestruct (node_facts with "Hb") as %[[??] _]. lia. }
      iApply (wp_get_end Left RB_FUEL (T c' l' b r') with "Hr"); [done|lia|].
      iIntros "?". iApply "HΨ". iFrame.
Qed.

(** ** Lookup *)

Section lookup.
Context (cmp_fn : Z -> Z -> outcome Z) (key : Z -> Z).

(** The comparison function orders the nodes of [l] and the node [n] by their keys. *)
Definition cmp_ok (n : Z) (l : list Z) : Prop :=
  forall a, a ∈ l -> exists res, cmp_fn a n = Ok res /\ (res ?= 0) = (key a ?= key n).

Lemma wp_do_lookup_loop n fuel k t Ψ : cmp_ok n (elems t) -> (height t < fuel)%nat ->
  trep t (top k) ∗ crep k (ptr t) ⊢
  (trep (plug k t) 0 -∗
   Ψ (ptr (search key (key n) k t).2, top (search key (key n) k t).1, is_left (search key (key n) k t).1)) -∗
  wp (loop (S := Z * Z * bool) (R := Z * Z * bool) fuel (fun '(node, pparent, is_left) =>
        if node =? 0 then mret (inr (0, pparent, is_left))
        else
          res ← lift (cmp_fn node n);
          if res =? 0 then mret (inr (node, pparent, is_left))
          else
            let is_left := 0 <? res in
            next ← (if is_left then get_child Left node else get_child Right node);
            mret (inl (next, node, is_left))) (ptr t, top k, is_left k)) Ψ.
Proof.
  revert k t. induction fuel as [|fuel IH]; intros k [|c l a r] Hc Hf; [lia|lia|..].
  - iIntros "Hz HΨ". iApply wp_loop. cbn. wp_step. iApply "HΨ". rewrite trep_plug. iFrame.
  - iIntros "[(Ha & Hl & Hr) Hk] HΨ". iApply wp_loop. cbn [ptr search height elems] in *.
    iDestruct (node_facts with "Ha") as %[Ha _]. rewrite (node_addr_eqb _ Ha).
    destruct (Hc a) as (res & Hres & Hsgn); [set_solver|]. rewrite -Hsgn.
    iApply wp_bind. iApply (wp_lift _ _ _ Hres).
    destruct (Z.compare_spec res 0) as [->|Hlt|Hgt].
    + cbn. wp_step. iApply "HΨ". rewrite trep_plug. iFrame.
    + rewrite (proj2 (Z.eqb_neq res 0)); [|lia]. rewrite (proj2 (Z.ltb_ge 0 res)); [|lia]. do 2 wp_step.
      iApply (IH (Frame Right c a l :: k) r with "[$]"); [|lia|].
      { intros b Hb. apply Hc. set_solver. }
      iIntros "?". by iApply "HΨ".
    + rewrite (proj2 (Z.eqb_neq res 0)); [|lia]. rewrite (proj2 (Z.ltb_lt 0 res)); [|lia]. do 2 wp_step.
      iApply (IH (Frame Left c a r :: k) l with "[$]"); [|lia|].
      { intros b Hb. apply Hc. set_solver. }
      iIntros "?". by iApply "HΨ".
Qed.

Lemma wp_do_lookup n tr t f l Ψ : cmp_ok n (elems t) -> (height t < RB_FUEL)%nat ->
  zrep tr [] t f l ⊢
  (zrep tr [] t f l -∗
   Ψ (ptr (search key (key n) [] t).2, top (search key (key n) [] t).1, is_left (search key (key n) [] t).1)) -∗
  wp (do_lookup cmp_fn n tr) Ψ.
Proof.
  intros Hc Hh. iIntros "(Ht & Hk & Hh) HΨ". unfold do_lookup. wp_step.
  iApply (wp_do_lookup_loop n RB_FUEL [] t with "[$]"); [done|done|]. iIntros "?". iApply "HΨ". rewrite /zrep. by iFrame.
Qed.

End lookup.

(** Moving the position one node up or down. *)
Lemma zrep_up tr s c a x k t f l : zrep tr (Frame s c a x :: k) t f l ⊣⊢ zrep tr k (mk s c t a x) f l.
Proof. by rewrite zrep_plug (zrep_plug tr k). Qed.

(** The colour of the root of the subtree at a position is free to change. *)
Lemma zrep_open tr k c l a r f l' :
  zrep tr k (T c l a r) f l' ⊣⊢
  node a (ptr l) (ptr r) (top k) c ∗ trep l a ∗ trep r a ∗ crep k a ∗ head tr (ptr (plug k (T Black E a E))) f l'.
Proof.
  rewrite /zrep (ptr_plug_indep k (T c l a r) (T Black E a E)) //=.
  iSplit; [iIntros "((? & ? & ?) & ? & ?)"|iIntros "(? & ? & ? & ? & ?)"]; iFrame.
Qed.

Lemma wp_set_color_at tr k c c' l a r f l' Ψ :
  zrep tr k (T c l a r) f l' ⊢ (zrep tr k (T c' l a r) f l' -∗ Ψ tt) -∗ wp (set_color (cz c') a) Ψ.
Proof.
  iIntros "H HΨ". rewrite zrep_open. iDestruct "H" as "(Ha & Hr)". wp_step. iApply "HΨ".
  rewrite zrep_open. iFrame.
Qed.

(** Empty subtrees count as black. *)
Definition black (t : tree) : bool := match t with T Red _ _ _ => false | _ => true end.

Lemma rbi_black n c t : rbi n c t -> black t = blackb c.
Proof. by inversion 1. Qed.

Lemma wp_red_test t p Ψ :
  trep t p ⊢ (trep t p -∗ Ψ (negb (black t))) -∗
  wp (if negb (ptr t =? 0) then is_red (ptr t) else mret false) Ψ.
Proof.
  iIntros "Ht HΨ". destruct t as [|c l a r]; cbn [ptr trep].
  - cbn. wp_step. by iApply "HΨ".
  - iDestruct "Ht" as "(Ha & Hl & Hr)". iDestruct (node_facts with "Ha") as %[Ha _].
    rewrite (node_addr_eqb _ Ha). wp_step. destruct c; iApply "HΨ"; iFrame.
Qed.

Lemma wp_black_test t p Ψ :
  trep t p ⊢ (trep t p -∗ Ψ (black t)) -∗
  wp (if ptr t =? 0 then mret true else is_black (ptr t)) Ψ.
Proof.
  iIntros "Ht HΨ". destruct t as [|c l a r]; cbn [ptr trep].
  - cbn. wp_step. by iApply "HΨ".
  - iDestruct "Ht" as "(Ha & Hl & Hr)". iDestruct (node_facts with "Ha") as %[Ha _].
    rewrite (node_addr_eqb _ Ha). wp_step. destruct c; iApply "HΨ"; iFrame.
Qed.

(** Two subtrees have different roots, unless both are empty. *)
Lemma trep_ptr_ne t t' p p' : t <> E -> trep t p ⊢ trep t' p' -∗ ⌜ptr t ≠ ptr t'⌝.
Proof.
  intros Ht. destruct t as [|c l a r]; [done|]. cbn [trep ptr]. iIntros "[Ha _] Ht'".
  iDestruct (trep_ne with "Ht' Ha") as %?. done.
Qed.

(** A node of the tree read or recoloured at its position. *)
Lemma wp_get_child_at s s' tr k c x a y f l Ψ :
  zrep tr k (mk s c x a y) f l ⊢
  (zrep tr k (mk s c x a y) f l -∗
   Ψ (match s, s' with Left, Left | Right, Right => ptr x | _, _ => ptr y end)) -∗
  wp (get_child s' a) Ψ.
Proof.
  iIntros "H HΨ". destruct s; cbn [mk]; rewrite zrep_open; iDestruct "H" as "(Ha & H)";
    wp_step; destruct s'; iApply "HΨ"; iFrame.
Qed.

Lemma wp_get_parent_at s tr k c x a y f l Ψ :
  zrep tr k (mk s c x a y) f l ⊢ (zrep tr k (mk s c x a y) f l -∗ Ψ (top k)) -∗ wp (get_parent a) Ψ.
Proof.
  iIntros "H HΨ". destruct s; cbn [mk]; rewrite zrep_open; iDestruct "H" as "(Ha & H)";
    wp_step; iApply "HΨ"; iFrame.
Qed.

Lemma wp_recolor s tr k c c' x a y f l Ψ :
  zrep tr k (mk s c x a y) f l ⊢ (zrep tr k (mk s c' x a y) f l -∗ Ψ tt) -∗ wp (set_color (cz c') a) Ψ.
Proof. destruct s; apply wp_set_color_at. Qed.

(** The rotation away from side [s] at a node with a child on side [s]. *)
Lemma wp_rotate_other s tr k c c' x p y g u f l Ψ :
  zrep tr k (mk s c (mk s c' x p y) g u) f l ⊢
  (zrep tr k (mk s c' x p (mk s c y g u)) f l -∗ Ψ tt) -∗ wp (rotate (other s) g tr) Ψ.
Proof.
  iIntros "H HΨ". iApply (wp_rotate (other s) tr k c u g c' y p x f l with "[H]").
  - by rewrite !mk_other.
  - iIntros "H". iApply "HΨ". by rewrite !mk_other.
Qed.

Section at_position.
Context (s : side) (tr : Z) (k : ctx) (c : color) (x : tree) (a : Z) (y : tree) (f l : Z).

Lemma wp_get_near Ψ :
  zrep tr k (mk s c x a y) f l ⊢ (zrep tr k (mk s c x a y) f l -∗ Ψ (ptr x)) -∗ wp (get_child s a) Ψ.
Proof. iIntros "H HΨ". iApply (wp_get_child_at with "H"). by destruct s. Qed.

Lemma wp_get_far Ψ :
  zrep tr k (mk s c x a y) f l ⊢ (zrep tr k (mk s c x a y) f l -∗ Ψ (ptr y)) -∗ wp (get_child (other s) a) Ψ.
Proof. iIntros "H HΨ". iApply (wp_get_child_at with "H"). by destruct s. Qed.

(** The subtrees beside a position, to look at. *)
Lemma zrep_subtrees :
  zrep tr k (mk s c x a y) f l ⊢ trep x a ∗ trep y a ∗ (trep x a -∗ trep y a -∗ zrep tr k (mk s c x a y) f l).
Proof.
  iIntros "H". destruct s; cbn [mk]; rewrite zrep_open; iDestruct "H" as "(? & ? & ? & ? & ?)";
    iFrame; iIntros; iFrame.
Qed.

Lemma zrep_node_addr : zrep tr k (mk s c x a y) f l ⊢ ⌜node_addr a⌝.
Proof.
  iIntros "H". destruct s; cbn [mk]; rewrite zrep_open; iDestruct "H" as "(H & _)";
    by iDestruct (node_facts with "H") as %[? _].
Qed.

End at_position.

Lemma wp_is_red_at s tr k c x a y f l Ψ :
  zrep tr k (mk s c x a y) f l ⊢ (zrep tr k (mk s c x a y) f l -∗ Ψ (negb (blackb c))) -∗ wp (is_red a) Ψ.
Proof.
  iIntros "H HΨ". destruct s; cbn [mk]; rewrite zrep_open; iDestruct "H" as "(Ha & H)";
    wp_step; iApply "HΨ"; iFrame.
Qed.

Lemma trep_addrs t p : trep t p ⊢ ⌜Forall node_addr (elems t)⌝.
Proof.
  revert p. induction t as [|c l IHl a r IHr]; intros p; cbn [trep elems]; [iIntros "_"; by iPureIntro|].
  iIntros "(Ha & Hl & Hr)". iDestruct (node_facts with "Ha") as %[Ha _].
  iDestruct (IHl with "Hl") as %Hl. iDestruct (IHr with "Hr") as %Hr.
  iPureIntro. apply Forall_app. split; [done|]. by constructor.
Qed.

(** ** The tree of a head: its nodes in order *)

Definition rbtree_rep (tr : Z) (l : list Z) : rbProp :=
  ∃ t, ⌜rb_tree t /\ elems t = l⌝ ∗ zrep tr [] t (hd0 l) (lst0 l).

Lemma rbtree_rep_elim tr l : NoDup l -> rbtree_rep tr l ⊢
  ∃ t, ⌜rb_tree t /\ elems t = l /\ (height t < RB_FUEL)%nat⌝ ∗ zrep tr [] t (hd0 l) (lst0 l).
Proof.
  intros Hd. iIntros "(%t & (%Ht & %He) & (Ht & H))". iExists t.
  iDestruct (trep_addrs with "Ht") as %Ha. iFrame. iPureIntro. split_and!; [done|done|].
  subst l. pose proof (height_bound t Ht Hd Ha). unfold RB_FUEL. lia.
Qed.

Lemma wp_put_first_if (b : bool) tr r f l v Ψ :
  head tr r f l ⊢ (head tr r (if b then v else f) l -∗ Ψ tt) -∗ wp (if b then put_first tr v else mret tt) Ψ.
Proof. iIntros "H HΨ". destruct b; wp_step; by iApply "HΨ". Qed.

Lemma wp_put_last_if (b : bool) tr r f l v Ψ :
  head tr r f l ⊢ (head tr r f (if b then v else l) -∗ Ψ tt) -∗ wp (if b then put_last tr v else mret tt) Ψ.
Proof. iIntros "H HΨ". destruct b; wp_step; by iApply "HΨ". Qed.

Lemma zrep_far tr s c a x k t f l : zrep tr (Frame (other s) c a x :: k) t f l ⊣⊢ zrep tr k (mk s c x a t) f l.
Proof. by rewrite zrep_up mk_other. Qed.

(** Two trees with the same order of nodes. *)
Ltac elems_eq s :=
  cbn [plug]; rewrite !elems_plug; destruct s; cbn [mk elems other]; repeat progress (rewrite -?app_assoc; cbn [app]); done.

Lemma wp_is_black_at s tr k c x a y f l Ψ :
  zrep tr k (mk s c x a y) f l ⊢ (zrep tr k (mk s c x a y) f l -∗ Ψ (blackb c)) -∗ wp (is_black a) Ψ.
Proof.
  iIntros "H HΨ". destruct s; cbn [mk]; rewrite zrep_open; iDestruct "H" as "(Ha & H)";
    wp_step; iApply "HΨ"; iFrame.
Qed.
