(* ===== verification/RbInsert.v ===== *)
(** * Insertion into a red-black tree *)

From iris.proofmode Require Import environments proofmode.
From stdpp Require Import sorting.
From S2P Require Import Prelude SepLogic RbTree RbShape RbSpec.

Local Open Scope Z_scope.

(** ** The repair loop

    The position is a red node whose parent may be red; everything else is
    red-black. *)
Definition insert_inv (tr : Z) (es : list Z) (f l : Z) (bound : nat) (a : Z) : rbProp :=
  ∃ n k t, ⌜rbi n Red t /\ ptr t = a /\ ctxi n Black k /\ (length k < bound)%nat /\ elems (plug k t) = es⌝
           ∗ zrep tr k t f l.

Lemma insert_inv_intro tr es f l bound a n k t :
  rbi n Red t -> ptr t = a -> ctxi n Black k -> (length k < bound)%nat -> elems (plug k t) = es ->
  zrep tr k t f l ⊢ insert_inv tr es f l bound a.
Proof. iIntros (?????) "H". iExists n, k, t. by iFrame. Qed.

Lemma elems_recolor s s' k t p z g u1 b u2 c c' c'' d d' d'' :
  elems (plug k (mk s c (mk s' c' t p z) g (mk s c'' u1 b u2))) =
  elems (plug k (mk s d (mk s' d' t p z) g (mk s d'' u1 b u2))).
Proof. rewrite !elems_plug. by destruct s, s'. Qed.

Lemma wp_insert_recolor s s' tr n k p z g u t f l Ψ :
  rbi n Red t -> rbi n Black z -> rbi n Red u -> ctxi (S n) Black k ->
  zrep tr (Frame s' Red p z :: Frame s Black g u :: k) t f l ⊢
  (insert_inv tr (elems (plug k (mk s Black (mk s' Red t p z) g u))) f l (S (length k)) g -∗ Ψ g) -∗
  wp (insert_fixup s tr (ptr t) p g) Ψ.
Proof.
  intros Ht Hz Hu Hk. apply (rbi_Red_inv s) in Hu as (u1 & b & u2 & -> & ? & ?).
  rewrite (elems_recolor s s' k t p z g u1 b u2 _ _ _ Red Black Black).
  iIntros "(Ht & Hk & Hh) HΨ". unfold insert_fixup. cbn [plug].
  set (t' := mk s Red (mk s' Black t p z) g (mk s Black u1 b u2)).
  rewrite (ptr_plug_indep k _ t'); [|by rewrite /t' !ptr_mk].
  destruct s, s'; cbn [crep top f_addr mk ptr trep];
    iDestruct "Hk" as "(Hp & Hz & Hg & (Hb & Hu1 & Hu2) & Hk)";
    iDestruct (node_facts with "Hb") as %[Hb _];
    wp_step; rewrite (node_addr_eqb _ Hb); do 5 wp_step; iApply "HΨ";
    (iApply (insert_inv_intro _ _ _ _ _ _ (S n) k t'); [|done|done|lia|done|rewrite /zrep; iFrame]);
    rewrite /t' /=; eauto 10 with rb.
Qed.

(** The uncle is black: the end of a turn, once the node [x] is on the outer side. *)
Lemma wp_insert_tail s tr n k p x a z g u es f l Ψ :
  ptr x = a -> rbi n Red x -> rbi n Black z -> rbi n Black u -> ctxi (S n) Black k ->
  elems (plug k (mk s Black (mk s Red x p z) g u)) = es ->
  zrep tr k (mk s Black (mk s Red x p z) g u) f l ⊢
  (insert_inv tr es f l (S (S (length k))) a -∗ Ψ a) -∗
  wp (_ ← set_color RB_BLACK p; _ ← set_color RB_RED g; _ ← rotate (other s) g tr; mret a) Ψ.
Proof.
  intros Ha Hx Hz Hu Hk <-. iIntros "H HΨ".
  iApply wp_bind. rewrite -zrep_up. iApply (wp_recolor s _ _ _ Black with "H"). iIntros "H".
  iApply wp_bind. rewrite zrep_up. iApply (wp_recolor s _ _ _ Red with "H"). iIntros "H".
  iApply wp_bind. iApply (wp_rotate_other with "H"). iIntros "H". rewrite -zrep_up. wp_step. iApply "HΨ".
  iApply (insert_inv_intro with "H"); [done|done|eauto with rb|cbn; lia|].
  elems_eq s.
Qed.

Lemma wp_insert_rotate s s' tr n k p z g u t f l Ψ :
  rbi n Red t -> rbi n Black z -> rbi n Black u -> ctxi (S n) Black k ->
  zrep tr (Frame s' Red p z :: Frame s Black g u :: k) t f l ⊢
  (∀ a, insert_inv tr (elems (plug k (mk s Black (mk s' Red t p z) g u))) f l (S (S (length k))) a -∗ Ψ a) -∗
  wp (insert_fixup s tr (ptr t) p g) Ψ.
Proof.
  intros Ht Hz Hu Hk. iIntros "H HΨ". unfold insert_fixup. rewrite !zrep_up.
  iApply wp_bind. iApply (wp_get_far with "H"). iIntros "H".
  iDestruct (zrep_subtrees with "H") as "(Hx & Hu & H)".
  iApply wp_bind. iApply (wp_red_test with "Hu"). iIntros "Hu". iDestruct ("H" with "Hx Hu") as "H".
  rewrite (rbi_black _ _ _ Hu). cbn [blackb negb].
  destruct (decide (s' = s)) as [->|Hs].
  - (* the node is on the outer side *)
    iApply wp_bind. rewrite -zrep_up. iApply (wp_get_far with "H"). iIntros "H".
    iDestruct (zrep_subtrees with "H") as "(Ht & Hz & H)".
    iDestruct (trep_ptr_ne with "Ht Hz") as %Hne; [by inversion Ht|].
    iDestruct ("H" with "Ht Hz") as "H". apply Z.eqb_neq in Hne as ->. wp_step.
    rewrite zrep_up. iApply (wp_insert_tail with "H"); [done..|]. iIntros "H". by iApply "HΨ".
  - (* the node is on the inner side *)
    assert (s' = other s) as -> by by destruct s, s'.
    apply (rbi_Red_inv s) in Ht as (ti & a & to & -> & Hti & Hto). rewrite !mk_other ptr_mk.
    iApply wp_bind. rewrite -zrep_up. iApply (wp_get_far with "H"). iIntros "H". rewrite ptr_mk Z.eqb_refl.
    iApply wp_bind. iApply wp_bind. iApply (wp_rotate with "H"). iIntros "H".
    iApply wp_bind. rewrite -zrep_up. iApply (wp_get_parent_at with "H"). iIntros "H". wp_step.
    rewrite !zrep_up.
    iApply (wp_insert_tail _ _ _ _ _ _ _ _ _ _ (elems (plug k (mk s Black (mk s Red z p (mk s Red ti a to)) g u)))
             with "H"); [apply ptr_mk|eauto with rb|done..| |]; [elems_eq s|].
    iIntros "H". by iApply "HΨ".
Qed.

(** One turn: whatever the uncle's colour, the position moves up. *)
Lemma wp_insert_fixup s s' tr n k p z g u t f l Ψ :
  rbi n Red t -> rbi n Black z -> (exists c, rbi n c u) -> ctxi (S n) Black k ->
  zrep tr (Frame s' Red p z :: Frame s Black g u :: k) t f l ⊢
  (∀ a, insert_inv tr (elems (plug k (mk s Black (mk s' Red t p z) g u))) f l (S (S (length k))) a -∗ Ψ a) -∗
  wp (insert_fixup s tr (ptr t) p g) Ψ.
Proof.
  intros Ht Hz [[] Hu] Hk; [by eapply wp_insert_rotate|]. iIntros "H HΨ".
  iApply (wp_insert_recolor with "H"); [done..|].
  iIntros "(%n' & %k' & %t' & (% & % & % & % & %) & H)". iApply "HΨ".
  iApply (insert_inv_intro with "H"); [done..|lia|done].
Qed.

(** A parent's side under its own parent, as the code finds it out. *)
Lemma wp_side s tr k c x a y f l Ψ : x <> E ->
  zrep tr k (mk s c x a y) f l ⊢
  (∀ w, ⌜(if ptr x =? w then Left else Right) = s⌝ -∗ zrep tr k (mk s c x a y) f l -∗ Ψ w) -∗
  wp (get_child Left a) Ψ.
Proof.
  intros Hx. iIntros "H HΨ". destruct s.
  - iApply (wp_get_near with "H"). iApply "HΨ". by rewrite Z.eqb_refl.
  - iDestruct (zrep_subtrees with "H") as "(Hx & Hy & H)".
    iDestruct (trep_ptr_ne with "Hx Hy") as %Hne; [done|]. iDestruct ("H" with "Hx Hy") as "H".
    iApply (wp_get_far Right with "H"). iApply "HΨ". by apply Z.eqb_neq in Hne as ->.
Qed.

Definition insert_body (tr : Z) : Z -> rb (Z + unit) := fun node =>
  parent ← get_parent node;
  if parent =? 0 then mret (inr tt)
  else
    red ← is_red parent;
    if negb red then mret (inr tt)
    else
      grandpa ← get_parent parent;
      l ← get_child Left grandpa;
      node ← insert_fixup (if parent =? l then Left else Right) tr node parent grandpa;
      mret (inl node).

Lemma wp_insert_loop fuel tr es f l bound a Ψ : (bound <= fuel)%nat ->
  insert_inv tr es f l bound a ⊢
  (∀ w n c, ⌜rbi n c w /\ w <> E /\ elems w = es⌝ -∗ zrep tr [] w f l -∗ Ψ tt) -∗
  wp (loop fuel (insert_body tr) a) Ψ.
Proof.
  revert bound a. induction fuel as [|fuel IH]; intros bound a Hf;
    iIntros "(%n & %k & %t & (%Ht & %Ha & %Hk & %Hlt & %He) & H) HΨ"; [lia|].
  iApply wp_loop. subst a es. unfold insert_body at 1.
  pose proof Ht as (x & a' & y & -> & _ & _)%(rbi_Red_inv Left). rewrite ptr_mk.
  iApply wp_bind. iApply (wp_get_parent_at Left with "H"). iIntros "H".
  destruct k as [|[s c p z] k]; cbn [top f_addr].
  { cbn. wp_step. iApply ("HΨ" with "[] H"). iPureIntro. by split; [exact Ht|]. }
  rewrite zrep_up. iDestruct (zrep_node_addr with "H") as %Hp. rewrite (node_addr_eqb _ Hp).
  iApply wp_bind. iApply (wp_is_red_at with "H"). iIntros "H".
  destruct c; cbn [negb blackb].
  - destruct (plug_rbi n Red (Frame s Black p z :: k) _ Ht) as [m Hm]; [inversion Hk; subst; eauto with rb|].
    wp_step. rewrite -zrep_up zrep_plug. iApply ("HΨ" with "[] H"). iPureIntro.
    split_and!; [exact Hm| |done]. by apply plug_ne.
  - assert (rbi n Black z /\ ctxi n Red k) as [Hz Hk'] by by inversion Hk.
    apply ctxi_Red in Hk' as (s' & g & u & cu & k' & -> & Hu & Hk').
    iApply wp_bind. iApply (wp_get_parent_at with "H"). iIntros "H". cbn [top f_addr].
    rewrite zrep_up. iApply wp_bind. iApply (wp_side with "H"); [by destruct s|].
    iIntros (w Hw) "H". rewrite ptr_mk in Hw. rewrite Hw. rewrite -2!zrep_up.
    iApply wp_bind. iApply (wp_insert_fixup s' s _ _ _ _ _ _ _ (T Red x a' y) with "H"); [done|done|by exists cu|done|].
    iIntros (b) "H". wp_step. cbn [length] in Hlt. iApply (IH with "H"); [lia|].
    iIntros (w' n' c' (?&?&?)) "H". iApply ("HΨ" with "[] H"). done.
Qed.

Lemma wp_insert_rebalance tr es f l bound a Ψ : (bound <= RB_FUEL)%nat ->
  insert_inv tr es f l bound a ⊢
  (∀ w, ⌜rb_tree w /\ elems w = es⌝ -∗ zrep tr [] w f l -∗ Ψ tt) -∗
  wp (insert_rebalance a tr) Ψ.
Proof.
  intros Hb. iIntros "H HΨ". iApply wp_bind. iApply (wp_insert_loop with "H"); [done|].
  iIntros (w n c (Hn & Hw & He)) "H". destruct w as [|c' x b y]; [done|].
  rewrite zrep_open. iDestruct "H" as "(? & ? & ? & ? & ?)". wp_step.
  iApply (wp_set_color b _ _ _ _ Black with "[$]"). iIntros "?".
  iApply ("HΨ" $! (T Black x b y)); [|rewrite zrep_open; iFrame].
  iPureIntro. split; [|done]. inversion Hn; subst; eexists; eauto with rb.
Qed.

(** ** Linking the new node *)

Lemma wp_insert_link tr k a n Ψ : NoDup (before k ++ after k) -> node_addr a ->
  zrep tr k E (hd0 (before k ++ after k)) (lst0 (before k ++ after k)) ⊢ a ↦ CNode n -∗
  (zrep tr k (T Red E a E) (hd0 (before k ++ a :: after k)) (lst0 (before k ++ a :: after k)) -∗ Ψ tt) -∗
  wp (insert_link a tr (top k) (is_left k)) Ψ.
Proof.
  intros Hd Ha. iIntros "(_ & Hk & Hh) Ha HΨ". iDestruct (crep_top with "Hk") as %Htop.
  iApply (wp_init_node with "Ha"); [done..|]. iIntros "Ha".
  destruct k as [|[s c p x] k].
  - cbn. do 3 wp_step. iApply "HΨ". rewrite /zrep /=. iFrame.
  - rewrite /zrep !ptr_plug_cons. cbn [top f_addr] in *.
    destruct s; cbn [crep is_left before after trep ptr] in *;
      iDestruct "Hk" as "(Hp & Hx & Hk)"; iDestruct (node_facts with "Hp") as %[Hp _];
      rewrite (node_addr_eqb _ Hp); cbn [negb]; iApply wp_bind; wp_step.
    + iApply (wp_put_first_if with "[$]"). iIntros "?". rewrite -hd0_link //.
      rewrite /set_child. wp_step. iApply "HΨ".
      rewrite !(lst0_app (before k)) // (lst0_cons a) //. iFrame. by iSplit.
    + iApply (wp_put_last_if with "[$]"). iIntros "?".
      assert (forall r, (before k ++ elems x ++ [p]) ++ r = (before k ++ elems x) ++ p :: r) as Hl.
      { intros r. by rewrite -!app_assoc. }
      rewrite !Hl in Hd *. rewrite -lst0_link // !(hd0_snoc _ p). rewrite /set_child. wp_step. iApply "HΨ".
      iFrame. by iSplit.
Qed.

(** ** rbtree_insert *)

Section insert.
Context (cmp_fn : Z -> Z -> outcome Z) (key : Z -> Z).

(** What the search for [a] found. *)
Lemma search_spec a t : key_sorted key (elems t) ->
  let k := (search key (key a) [] t).1 in
  let t' := (search key (key a) [] t).2 in
  plug k t' = t /\ Forall (fun b => key b < key a) (before k) /\ Forall (fun b => key a < key b) (after k) /\
  (t' <> E -> key (ptr t') = key a).
Proof.
  intros Hs. split_and!.
  - apply search_plug.
  - by apply search_sides.
  - by apply search_sides.
  - apply search_found.
Qed.

Lemma ptr_elem t : t <> E -> ptr t ∈ elems t.
Proof. destruct t; [done|]. cbn. set_solver. Qed.

Lemma wp_rbtree_insert tr l a n Ψ : key_sorted key l -> cmp_ok cmp_fn key a l -> node_addr a ->
  rbtree_rep tr l ⊢ a ↦ CNode n -∗
  ((∀ b, ⌜b ∈ l /\ key b = key a⌝ -∗ rbtree_rep tr l -∗ a ↦ CNode n -∗ Ψ b) ∧
   (⌜forall b, b ∈ l -> key b <> key a⌝ -∗ rbtree_rep tr (ins key a l) -∗ Ψ 0)) -∗
  wp (rbtree_insert cmp_fn a tr) Ψ.
Proof.
  intros Hs Hc Ha. iIntros "H Ha HΨ".
  iDestruct (rbtree_rep_elim with "H") as "(%t & (%Ht & %He & %Hh) & H)"; [by eapply key_sorted_NoDup|].
  subst l. iApply wp_bind. iApply (wp_do_lookup with "H"); [done..|]. iIntros "H".
  destruct (search_spec a t Hs) as (Hp & Hb & Hf & Hk).
  destruct (search key (key a) [] t) as [k t'] eqn:Hsr. cbn [fst snd] in *. subst t.
  destruct (decide (ptr t' = 0)) as [Hz|Hz].
  - rewrite -zrep_plug. iDestruct "H" as "(Ht & H)".
    destruct t' as [|c x b y]; [|cbn [ptr] in Hz; subst b; cbn [trep]; iDestruct "Ht" as "(H' & _)";
      iDestruct (node_facts with "H'") as %[[? _] _]; lia].
    cbn. rewrite elems_plug in Hs. cbn in Hs.
    iAssert (zrep tr k E (hd0 (before k ++ after k)) (lst0 (before k ++ after k))) with "[H]" as "H".
    { rewrite elems_plug. by iFrame. }
    iApply wp_bind. iApply (wp_insert_link with "H Ha"); [by eapply key_sorted_NoDup|done|]. iIntros "H".
    destruct (plug_inv _ _ Ht) as (m & c & Hm & Hctx). inversion Hm; subst.
    iApply wp_bind.
    iApply (wp_insert_rebalance _ (elems (plug k (T Red E a E))) _ _ (S (length k)) with "[H]").
    + pose proof (height_plug k E). lia.
    + iApply (insert_inv_intro with "H"); [|done|done|lia|done]. auto with rb.
    + iIntros (w [Hw He]) "H". wp_step. iDestruct "HΨ" as "[_ HΨ]".
      rewrite elems_plug in He. cbn in He. rewrite elems_plug /= ins_split //.
      iApply "HΨ".
      * iPureIntro. intros b [Hin|Hin]%elem_of_app; rewrite ->Forall_forall in Hb, Hf;
          [specialize (Hb b Hin)|specialize (Hf b Hin)]; lia.
      * iExists w. iFrame. done.
  - rewrite (proj2 (Z.eqb_neq _ _) Hz). wp_step. iDestruct "HΨ" as "[HΨ _]".
    iApply ("HΨ" with "[] [H] Ha").
    + assert (t' <> E) as Hne by by intros ->. iPureIntro. split; [|by apply Hk].
      rewrite elems_plug. pose proof (ptr_elem t' Hne). set_solver.
    + iExists (plug k t'). by iFrame.
Qed.

End insert.
