(* ===== verification/RbRemove.v ===== *)
(** * Removal from a red-black tree *)

From iris.proofmode Require Import environments proofmode.
From stdpp Require Import sorting.
From S2P Require Import Prelude SepLogic RbTree RbShape RbSpec.

Local Open Scope Z_scope.

Definition blacken (t : tree) : tree := match t with E => E | T _ l a r => T Black l a r end.

Lemma elems_blacken t : elems (blacken t) = elems t.
Proof. by destruct t. Qed.

Lemma blacken_mk s c x a y : blacken (mk s c x a y) = mk s Black x a y.
Proof. by destruct s. Qed.

Lemma blacken_black t : black t = true -> blacken t = t.
Proof. by destruct t as [|[] ???]. Qed.

(** ** The repair loop

    The position is a subtree that lacks one black node. *)

Definition remove_inv (tr : Z) (es : list Z) (f l : Z) (bound : nat) (st : Z * Z) : rbProp :=
  ∃ n k t, ⌜st = (ptr t, top k) /\ rbi n Black t /\ ctxi (S n) Black k /\
            (length k < bound)%nat /\ elems (plug k t) = es⌝ ∗ zrep tr k t f l.

(** The loop is left at a node that only has to be made black. *)
Definition remove_exit (tr : Z) (es : list Z) (f l : Z) (a : Z) : rbProp :=
  ∃ k t, ⌜a = ptr t /\ rb_tree (plug k (blacken t)) /\ elems (plug k t) = es⌝ ∗ zrep tr k t f l.

Lemma remove_inv_intro tr es f l bound n k t :
  rbi n Black t -> ctxi (S n) Black k -> (length k < bound)%nat -> elems (plug k t) = es ->
  zrep tr k t f l ⊢ remove_inv tr es f l bound (ptr t, top k).
Proof. iIntros (????) "H". iExists n, k, t. by iFrame. Qed.

Lemma remove_exit_intro tr es f l k t :
  rb_tree (plug k (blacken t)) -> elems (plug k t) = es ->
  zrep tr k t f l ⊢ remove_exit tr es f l (ptr t).
Proof. iIntros (??) "H". iExists k, t. by iFrame. Qed.

Lemma wp_get_color_at s tr k c x a y f l Ψ :
  zrep tr k (mk s c x a y) f l ⊢ (zrep tr k (mk s c x a y) f l -∗ Ψ (cz c)) -∗ wp (get_color a) Ψ.
Proof.
  iIntros "H HΨ". destruct s; cbn [mk]; rewrite zrep_open; iDestruct "H" as "(Ha & H)";
    wp_step; iApply "HΨ"; iFrame.
Qed.

Lemma wp_get_root_at tr k t f l Ψ :
  zrep tr k t f l ⊢ (zrep tr k t f l -∗ Ψ (ptr (plug k t))) -∗ wp (get_root tr) Ψ.
Proof. iIntros "(? & ? & ?) HΨ". wp_step. iApply "HΨ". iFrame. Qed.

(** What a parent [p] with colour [cp] leaves above it, when its subtrees have
    black height [n]. *)
Definition above (n : nat) (cp : color) (k : ctx) : Prop :=
  match cp with Red => ctxi n Red k | Black => ctxi (S n) Black k end.

Lemma ctxi_above n c s cp p y k : ctxi n c (Frame s cp p y :: k) ->
  above n cp k /\ exists cy, rbi n cy y /\ (cp = Red -> cy = Black).
Proof. inversion 1; subst; cbn; (split; [done|]); eexists; by split. Qed.

Lemma above_rb n s cp x a y k :
  rbi n Black x -> rbi n Black y -> above n cp k -> rb_tree (plug k (mk s cp x a y)).
Proof. intros Hx Hy Hk. destruct cp; (eapply plug_rbi; [|exact Hk]); eauto with rb. Qed.

(** The end of a turn that finishes the repair: the far nephew is red. *)
Lemma wp_remove_finish s tr n k cp t p x q y f l (Ψ : Z * Z + Z -> rbProp) :
  rbi n Black t -> (exists c, rbi n c x) -> rbi n Red y -> above (S n) cp k ->
  zrep tr k (mk s cp t p (mk s Black x q y)) f l ⊢
  (∀ a, remove_exit tr (elems (plug k (mk s cp t p (mk s Black x q y)))) f l a -∗ Ψ (inr a)) -∗
  wp (c ← get_color p; _ ← set_color c q; _ ← set_color RB_BLACK p;
      far ← get_child (other s) q; _ ← set_color RB_BLACK far;
      _ ← rotate s p tr; r ← get_root tr; mret (inr r)) Ψ.
Proof.
  intros Ht [cx Hx] Hy Hk. apply (rbi_Red_inv s) in Hy as (y1 & b & y2 & -> & ? & ?).
  iIntros "H HΨ". iApply wp_bind. iApply (wp_get_color_at with "H"). iIntros "H".
  rewrite -zrep_far. iApply wp_bind. iApply (wp_recolor s with "H"). iIntros "H".
  rewrite zrep_far. iApply wp_bind. iApply (wp_recolor s _ _ _ Black with "H"). iIntros "H".
  rewrite -zrep_far. iApply wp_bind. iApply (wp_get_far with "H"). iIntros "H". rewrite ptr_mk.
  rewrite -zrep_far. iApply wp_bind. iApply (wp_recolor s _ _ _ Black with "H"). iIntros "H".
  rewrite !zrep_far. iApply wp_bind. iApply (wp_rotate with "H"). iIntros "H".
  iApply wp_bind. iApply (wp_get_root_at with "H"). iIntros "H". wp_step. iApply "HΨ".
  assert (rb_tree (plug k (mk s cp (mk s Black t p x) q (mk s Black y1 b y2)))) as [m Hm].
  { eapply above_rb; eauto with rb. }
  rewrite zrep_plug. iApply (remove_exit_intro with "H"); cbn [plug].
  - exists m. rewrite blacken_black //. by rewrite (rbi_black _ _ _ Hm).
  - elems_eq s.
Qed.

(** The next position of the loop: a node [continue] goes on with, which is
    short of one black node when it is black and ends the loop when it is red. *)
Definition remove_next (tr : Z) (es : list Z) (f l : Z) (bound : nat) (st : Z * Z) : rbProp :=
  ∃ k s c x y, ⌜st.2 = top k /\ elems (plug k (mk s c x st.1 y)) = es /\
              match c with
              | Black => (length k < bound)%nat /\ exists n, rbi n Black (mk s c x st.1 y) /\ ctxi (S n) Black k
              | Red => rb_tree (plug k (mk s Black x st.1 y))
              end⌝ ∗ zrep tr k (mk s c x st.1 y) f l.

Definition remove_step (tr : Z) (es : list Z) (f l : Z) (bound : nat) (x : Z * Z + Z) : rbProp :=
  match x with inl st => remove_next tr es f l bound st | inr a => remove_exit tr es f l a end.

Lemma wp_remove_nephews s tr n k cp t p x q y f l bound (Ψ : Z * Z + Z -> rbProp) :
  rbi n Black t -> (exists c, rbi n c x) -> (exists c, rbi n c y) -> above (S n) cp k ->
  (cp = Black -> (length k < bound)%nat) ->
  zrep tr k (mk s cp t p (mk s Black x q y)) f l ⊢
  (∀ r, remove_step tr (elems (plug k (mk s cp t p (mk s Black x q y)))) f l bound r -∗ Ψ r) -∗
  wp (remove_nephews s tr p q) Ψ.
Proof.
  intros Ht [cx Hx] [cy Hy] Hk Hb. iIntros "H HΨ". unfold remove_nephews. rewrite -zrep_far.
  iApply wp_bind. iApply (wp_get_near with "H"). iIntros "H".
  iDestruct (zrep_subtrees with "H") as "(Hx & Hy & H)".
  iApply wp_bind. iApply (wp_black_test with "Hx"). iIntros "Hx". iDestruct ("H" with "Hx Hy") as "H".
  iApply wp_bind. iApply (wp_get_far with "H"). iIntros "H".
  iDestruct (zrep_subtrees with "H") as "(Hx & Hy & H)".
  iApply wp_bind. iApply (wp_black_test with "Hy"). iIntros "Hy". iDestruct ("H" with "Hx Hy") as "H".
  rewrite (rbi_black _ _ _ Hx) (rbi_black _ _ _ Hy).
  destruct cy; cbn [blackb]; [destruct cx; cbn [blackb andb]|rewrite andb_false_r].
  - (* both black *)
    iApply wp_bind. iApply (wp_recolor s _ _ _ Red with "H"). iIntros "H". rewrite zrep_far.
    iApply wp_bind. iApply (wp_get_parent_at with "H"). iIntros "H". wp_step. iApply "HΨ".
    iExists k, s, cp, t, _. iFrame "H". iPureIntro. split_and!; [done|elems_eq s|].
    destruct cp; cbn [above] in Hk.
    + split; [by apply Hb|]. exists (S n). split; [|done]. eauto with rb.
    + eapply plug_rbi; [|by apply ctxi_any]. eauto with rb.
  - (* the near one red *)
    apply (rbi_Red_inv s) in Hx as (x1 & b & x2 & -> & Hx1 & Hx2).
    iApply wp_bind. iApply wp_bind. iApply (wp_get_near with "H"). iIntros "H". rewrite ptr_mk -zrep_up.
    iApply wp_bind. iApply (wp_recolor s _ _ _ Black with "H"). iIntros "H". rewrite zrep_up.
    iApply wp_bind. iApply (wp_recolor s _ _ _ Red with "H"). iIntros "H".
    iApply wp_bind. iApply (wp_rotate_other with "H"). iIntros "H". rewrite zrep_far.
    iApply (wp_get_far with "H"). iIntros "H". rewrite ptr_mk.
    iApply (wp_remove_finish with "H"); [done|by exists Black|eauto with rb|done|].
    iIntros (a) "H". iApply "HΨ". cbn [remove_step].
    assert (elems (plug k (mk s cp t p (mk s Black x1 b (mk s Red x2 q y)))) =
            elems (plug k (mk s cp t p (mk s Black (mk s Red x1 b x2) q y)))) as -> by elems_eq s. done.
  - (* the far one red *)
    wp_step. rewrite zrep_far. iApply (wp_remove_finish with "H"); [done|by exists cx|done|done|].
    iIntros (a) "H". by iApply "HΨ".
Qed.

Lemma rbi_S_Black_inv s n t : rbi (S n) Black t ->
  exists x a y, t = mk s Black x a y /\ (exists c, rbi n c x) /\ (exists c, rbi n c y).
Proof.
  intros [[? _]|(n' & cx & cy & x & a & y & [= <-] & -> & Hx & Hy)]%(rbi_Black_inv s); [done|]. eauto 10.
Qed.

Lemma wp_remove_fixup s tr n k cp p sib t f l (Ψ : Z * Z + Z -> rbProp) :
  rbi n Black t -> ctxi (S n) Black (Frame s cp p sib :: k) ->
  zrep tr (Frame s cp p sib :: k) t f l ⊢
  (∀ r, remove_step tr (elems (plug (Frame s cp p sib :: k) t)) f l (S (length k)) r -∗ Ψ r) -∗
  wp (remove_fixup s tr p) Ψ.
Proof.
  intros Ht (Hk & cs & Hs & Hcs)%ctxi_above. iIntros "H HΨ". rewrite zrep_up. cbn [plug].
  unfold remove_fixup. iApply wp_bind. iApply (wp_get_far with "H"). iIntros "H".
  destruct cs.
  - apply (rbi_S_Black_inv s) in Hs as (x & q & y & -> & Hx & Hy). rewrite ptr_mk -zrep_far.
    iApply wp_bind. iApply (wp_is_red_at with "H"). iIntros "H". wp_step. rewrite zrep_far.
    iApply (wp_remove_nephews _ _ _ _ _ _ _ _ _ _ _ _ (S (length k)) with "H"); [done..|intros; lia|]. done.
  - assert (cp = Black) as -> by (destruct cp; [done|]; by specialize (Hcs eq_refl)). cbn [above] in Hk.
    apply (rbi_Red_inv s) in Hs as (x & q & y & -> & Hx & Hy). rewrite ptr_mk -zrep_far.
    iApply wp_bind. iApply (wp_is_red_at with "H"). iIntros "H". cbn [negb blackb].
    iApply wp_bind. iApply wp_bind. iApply (wp_recolor s _ _ _ Black with "H"). iIntros "H". rewrite zrep_far.
    iApply wp_bind. iApply (wp_recolor s _ _ _ Red with "H"). iIntros "H".
    iApply wp_bind. iApply (wp_rotate with "H"). iIntros "H". rewrite -zrep_up.
    iApply (wp_get_far with "H"). iIntros "H".
    apply (rbi_S_Black_inv s) in Hx as (x1 & q' & x2 & -> & Hx1 & Hx2). rewrite ptr_mk.
    iApply (wp_remove_nephews _ _ _ _ _ _ _ _ _ _ _ _ (S (length k)) with "H"); [done..|cbn [above]; eauto with rb|done|].
    cbn [plug].
    assert (elems (plug k (mk s Black (mk s Red t p (mk s Black x1 q' x2)) q y)) =
            elems (plug k (mk s Black t p (mk s Red (mk s Black x1 q' x2) q y)))) as -> by elems_eq s.
    done.
Qed.

(** The node of the hole is not the root, unless the path is empty. *)
Lemma crep_root k h t a l r p c : k <> [] -> crep k h ⊢ node a l r p c -∗ ⌜ptr (plug k t) ≠ a⌝.
Proof.
  revert h t. induction k as [|[s c' b x] k IH]; intros h t Hk; [done|]. rewrite ptr_plug_cons.
  iIntros "H Ha". destruct s; cbn [crep]; iDestruct "H" as "(Hb & _ & H)";
    (destruct k as [|f k]; [rewrite ptr_mk; by iApply (node_ne with "Hb Ha")|by iApply (IH with "H Ha")]).
Qed.

Lemma crep_root_0 k h t : k <> [] -> crep k h ⊢ ⌜ptr (plug k t) ≠ 0⌝.
Proof.
  revert h t. induction k as [|[s c' b x] k IH]; intros h t Hk; [done|]. rewrite ptr_plug_cons.
  iIntros "H". destruct s; cbn [crep]; iDestruct "H" as "(Hb & _ & H)"; iDestruct (node_facts with "Hb") as %[[? _] _];
    (destruct k as [|f k]; [rewrite ptr_mk; iPureIntro; lia|by iApply (IH with "H")]).
Qed.

Lemma zrep_not_root tr k t f l : k <> [] -> zrep tr k t f l ⊢ ⌜ptr t ≠ ptr (plug k t)⌝.
Proof.
  intros Hk. iIntros "(Ht & Hk & _)". destruct t as [|c x a y]; cbn [ptr trep].
  - iDestruct (crep_root_0 with "Hk") as %H; [done|]. iPureIntro. by apply not_eq_sym.
  - iDestruct "Ht" as "(Ha & _)". iDestruct (crep_root with "Hk Ha") as %H; [done|].
    iPureIntro. by apply not_eq_sym.
Qed.

(** The side of the hole, as the code finds it out; the sibling is not empty. *)
Lemma wp_hole_side s tr k c x a y f l Ψ : y <> E ->
  zrep tr k (mk s c x a y) f l ⊢
  (∀ w, ⌜(if ptr x =? w then Left else Right) = s⌝ -∗ zrep tr k (mk s c x a y) f l -∗ Ψ w) -∗
  wp (get_child Left a) Ψ.
Proof.
  intros Hy. iIntros "H HΨ". destruct s.
  - iApply (wp_get_near with "H"). iApply "HΨ". by rewrite Z.eqb_refl.
  - iDestruct (zrep_subtrees with "H") as "(Hx & Hy & H)".
    iDestruct (trep_ptr_ne with "Hy Hx") as %Hne; [done|]. iDestruct ("H" with "Hx Hy") as "H".
    iApply (wp_get_far Right with "H"). iApply "HΨ". apply not_eq_sym, Z.eqb_neq in Hne as ->. done.
Qed.

Lemma wp_blacken tr k t f l Ψ :
  zrep tr k t f l ⊢ (zrep tr k (blacken t) f l -∗ Ψ tt) -∗
  wp (if negb (ptr t =? 0) then set_color RB_BLACK (ptr t) else mret tt) Ψ.
Proof.
  iIntros "H HΨ". destruct t as [|c x a y]; cbn [ptr blacken].
  - cbn. wp_step. by iApply "HΨ".
  - iDestruct (zrep_node_addr Left with "H") as %Ha. rewrite (node_addr_eqb _ Ha). cbn [negb].
    by iApply (wp_set_color_at _ _ _ Black with "H").
Qed.

Definition remove_body (tr : Z) : Z * Z -> rb (Z * Z + Z) := fun '(node, parent) =>
  r ← get_root tr;
  if node =? r then mret (inr node)
  else
    l ← get_child Left parent;
    x ← remove_fixup (if node =? l then Left else Right) tr parent;
    match x with
    | inr node => mret (inr node)
    | inl (node, parent) =>
        black ← is_black node;
        if (black : bool) then mret (inl (node, parent)) else mret (inr node)
    end.

Lemma wp_remove_loop fuel tr es f l bound st Ψ : (bound <= fuel)%nat ->
  remove_inv tr es f l bound st ⊢ (∀ a, remove_exit tr es f l a -∗ Ψ a) -∗
  wp (loop fuel (remove_body tr) st) Ψ.
Proof.
  revert bound st. induction fuel as [|fuel IH]; intros bound st Hf;
    iIntros "(%n & %k & %t & (-> & %Ht & %Hk & %Hlt & %He) & H) HΨ"; [lia|].
  iApply wp_loop. subst es. unfold remove_body at 1.
  iApply wp_bind. iApply (wp_get_root_at with "H"). iIntros "H".
  destruct k as [|[s cp p sib] k].
  { cbn [plug]. rewrite Z.eqb_refl. wp_step. iApply "HΨ". iApply (remove_exit_intro with "H"); [|done].
    exists n. cbn. rewrite blacken_black //. by rewrite (rbi_black _ _ _ Ht). }
  iDestruct (zrep_not_root with "H") as %Hr; [done|]. apply Z.eqb_neq in Hr as ->.
  rewrite zrep_up. cbn [top f_addr]. iApply wp_bind. iApply (wp_hole_side with "H").
  { apply ctxi_above in Hk as (_ & cs & Hs & _). by inversion Hs. }
  iIntros (w Hw) "H". rewrite Hw -zrep_up. iApply wp_bind. iApply (wp_remove_fixup with "H"); [done..|].
  iIntros ([st|a]) "H"; cbn [remove_step]; [|wp_step; by iApply "HΨ"].
  iDestruct "H" as "(%k' & %s' & %c & %x & %y & (%Hst & %He & %Hc) & H)". destruct st as [a pa]; cbn [fst snd] in *. subst pa.
  iApply wp_bind. iApply (wp_is_black_at with "H"). iIntros "H". destruct c; wp_step.
  - destruct Hc as (Hlt' & n' & Hn' & Hk'). cbn [length] in Hlt.
    iApply (IH (S (length k)) with "[H]"); [lia| |done].
    iExists n', k', (mk s' Black x a y). iFrame. iPureIntro. by rewrite ptr_mk.
  - iApply "HΨ". iExists k', (mk s' Red x a y). iFrame. iPureIntro. by rewrite ptr_mk blacken_mk.
Qed.

Lemma wp_remove_rebalance tr es f l bound a p Ψ : (bound <= RB_FUEL)%nat ->
  remove_inv tr es f l bound (a, p) ⊢
  (∀ w, ⌜rb_tree w /\ elems w = es⌝ -∗ zrep tr [] w f l -∗ Ψ tt) -∗
  wp (remove_rebalance a p tr) Ψ.
Proof.
  intros Hb. iIntros "H HΨ". iApply wp_bind. iApply (wp_remove_loop with "H"); [done|].
  iIntros (b) "(%k & %t & (-> & %Ht & %He) & H)". subst es. iApply (wp_blacken with "H").
  iIntros "H". rewrite zrep_plug. iApply ("HΨ" with "[] H"). iPureIntro.
  split; [done|]. by rewrite !elems_plug elems_blacken.
Qed.

(** ** Taking the node out

    The successor is at the end of a path [kr] of left children below the right
    child.  [seg q k h] owns such a piece of a path, below the node [q]. *)

Definition tops (q : Z) (k : ctx) : Z := match k with [] => q | f :: _ => f_addr f end.

Fixpoint seg (q : Z) (k : ctx) (h : Z) : rbProp :=
  match k with
  | [] => emp
  | Frame s c a x :: k =>
      match s with
      | Left => node a h (ptr x) (tops q k) c
      | Right => node a (ptr x) h (tops q k) c
      end ∗ trep x a ∗ seg q k a
  end.

Lemma seg_plug q k t : trep (plug k t) q ⊣⊢ trep t (tops q k) ∗ seg q k (ptr t).
Proof.
  revert t. induction k as [|[s c a x] k IH]; intros t; cbn [plug tops seg f_addr].
  - by rewrite right_id.
  - rewrite IH trep_mk ptr_mk. destruct s; iSplit;
      [iIntros "((? & ? & ?) & ?)"|iIntros "(? & ? & ? & ?)"|iIntros "((? & ? & ?) & ?)"|iIntros "(? & ? & ? & ?)"]; iFrame.
Qed.

(** The topmost node of the piece, which hangs below [q]. *)
Fixpoint bot (h : Z) (k : ctx) : Z := match k with [] => h | f :: k => bot (f_addr f) k end.

Lemma ptr_plug_bot k t : ptr (plug k t) = bot (ptr t) k.
Proof.
  revert t. induction k as [|[s c a x] k IH]; intros t; cbn; [done|]. by rewrite IH ptr_mk.
Qed.

Lemma crep_seg k1 k2 h : crep (k1 ++ k2) h ⊣⊢ seg (top k2) k1 h ∗ crep k2 (bot h k1).
Proof.
  revert h. induction k1 as [|[s c a x] k1 IH]; intros h; cbn [crep seg app bot f_addr].
  - by rewrite left_id.
  - assert (top (k1 ++ k2) = tops (top k2) k1) as -> by by destruct k1.
    rewrite IH !assoc. done.
Qed.

Lemma plug_app k1 k2 t : plug (k1 ++ k2) t = plug k2 (plug k1 t).
Proof. revert t. induction k1 as [|[s c a x] k1 IH]; intros t; cbn; [done|apply IH]. Qed.

Lemma wp_seg_reparent q q' k h Ψ : k <> [] -> addr0 q' ->
  seg q k h ⊢ (seg q' k h -∗ Ψ tt) -∗ wp (set_parent q' (bot h k)) Ψ.
Proof.
  intros Hk Hq. revert h. induction k as [|[s c a x] k IH]; intros h; [done|].
  cbn [seg bot f_addr]. destruct k as [|f k].
  - destruct s; cbn [bot tops seg]; iIntros "(Ha & Hx & _) HΨ"; wp_step; iApply "HΨ"; iFrame.
  - iIntros "(Ha & Hx & H) HΨ". iApply (IH with "H"); [done|]. iIntros "H". iApply "HΨ". iFrame.
Qed.

(** The leftmost node of a tree and the path to it. *)
Lemma leftmost t : t <> E -> exists k c x y,
  t = plug k (T c E x y) /\ x = tend Left t /\ before k = [] /\ Forall (fun f => f_side f = Left) k.
Proof.
  induction t as [|c l IHl a r _]; [done|]. intros _. destruct l as [|c' l' b r'].
  - exists [], c, a, r. split_and!; [done|done|done|constructor].
  - destruct IHl as (k & cx & x & y & Hp & Hx & Hb & Hk); [done|].
    exists (k ++ [Frame Left c a r]), cx, x, y. rewrite plug_app -Hp. split_and!; [done|by rewrite Hx|..].
    + clear -Hb Hk. induction Hk as [|[s ? ? ?] k Hs Hk IH]; [done|]. cbn in Hs. subst s. cbn in *. auto.
    + apply Forall_app. split; [done|]. by constructor.
Qed.

Lemma ctxi_addr n c k1 s cf a b x k2 : ctxi n c (k1 ++ Frame s cf a x :: k2) -> ctxi n c (k1 ++ Frame s cf b x :: k2).
Proof.
  revert n c. induction k1 as [|[s1 c1 a1 x1] k1 IH]; intros n c; cbn; inversion 1; subst; eauto with rb.
Qed.

(** rbtree.c: the two statements that move [first] and [last] off the node. *)
Lemma wp_remove_first tr k c l a r f g Ψ :
  let es := before k ++ (elems l ++ a :: elems r) ++ after k in
  let es' := before k ++ elems l ++ elems r ++ after k in
  f = hd0 es -> NoDup es -> (height (T c l a r) <= RB_FUEL)%nat -> (length k < RB_FUEL)%nat ->
  zrep tr k (T c l a r) f g ⊢ (zrep tr k (T c l a r) (hd0 es') g -∗ Ψ tt) -∗
  wp (if a =? f then n ← rbtree_next a; put_first tr n else mret tt) Ψ.
Proof.
  intros es es' -> Hd Hh Hk. iIntros "(Ht & Hk & Hh) HΨ".
  assert (hd0 es' = if a =? hd0 es then hd0 (elems r ++ after k) else hd0 es) as ->.
  { revert Hd. rewrite /es /es' -!app_assoc (app_assoc _ (elems l)) (app_assoc _ (elems l) (elems r ++ _)).
    apply hd0_unlink. }
  destruct (a =? hd0 es).
  - iApply wp_bind. iApply (wp_rbtree_step Right with "[$Ht $Hk]"); [done..|]. iIntros "[Ht Hk]".
    rewrite neighbour_Right. wp_step. iApply "HΨ". iFrame.
  - wp_step. iApply "HΨ". iFrame.
Qed.

Lemma wp_remove_last tr k c l a r f g Ψ :
  let es := before k ++ (elems l ++ a :: elems r) ++ after k in
  let es' := before k ++ elems l ++ elems r ++ after k in
  g = lst0 es -> NoDup es -> (height (T c l a r) <= RB_FUEL)%nat -> (length k < RB_FUEL)%nat ->
  zrep tr k (T c l a r) f g ⊢ (zrep tr k (T c l a r) f (lst0 es') -∗ Ψ tt) -∗
  wp (if a =? g then n ← rbtree_prev a; put_last tr n else mret tt) Ψ.
Proof.
  intros es es' -> Hd Hh Hk. iIntros "(Ht & Hk & Hh) HΨ".
  assert (lst0 es' = if a =? lst0 es then lst0 (before k ++ elems l) else lst0 es) as ->.
  { revert Hd. rewrite /es /es' -!app_assoc (app_assoc _ (elems l)) (app_assoc _ (elems l) (elems r ++ _)).
    apply lst0_unlink. }
  destruct (a =? lst0 es).
  - iApply wp_bind. iApply (wp_rbtree_step Left with "[$Ht $Hk]"); [done..|]. iIntros "[Ht Hk]".
    rewrite neighbour_Left. wp_step. iApply "HΨ". iFrame.
  - wp_step. iApply "HΨ". iFrame.
Qed.

Lemma bot_indep h h' k : k <> [] -> bot h k = bot h' k.
Proof. by destruct k. Qed.

Lemma ptr_addr_ne t p : t <> E -> trep t p ⊢ ⌜(ptr t =? 0) = false⌝.
Proof.
  intros Ht. destruct t as [|c l a r]; [done|]. iIntros "(Ha & _)".
  iDestruct (node_facts with "Ha") as %[Ha _]. iPureIntro. by apply node_addr_eqb.
Qed.

Lemma seg_bot_ne q k h x l r p c : h <> x -> seg q k h ⊢ node x l r p c -∗ ⌜bot h k ≠ x⌝.
Proof.
  revert h. induction k as [|[s c' a t] k IH]; intros h Hh; cbn [seg bot f_addr]; [by iIntros "_ _"|].
  iIntros "(Ha & _ & H) Hx". destruct s; iDestruct (node_ne with "Ha Hx") as %Hne; by iApply (IH with "H Hx").
Qed.

Lemma wp_seg_reparent_Left q q' a h z c k Ψ : addr0 q' ->
  node a h (ptr z) (tops q k) c ⊢ trep z a -∗ seg q k a -∗
  (node a h (ptr z) (tops q' k) c -∗ trep z a -∗ seg q' k a -∗ Ψ tt) -∗ wp (set_parent q' (bot a k)) Ψ.
Proof.
  iIntros (Hq) "Ha Hz H HΨ". iApply (wp_seg_reparent q q' (Frame Left c a z :: k) h with "[$Ha $Hz $H]"); [done..|].
  iIntros "(Ha & Hz & H)". iApply ("HΨ" with "Ha Hz H").
Qed.

(** Both subtrees are there: the successor [x] takes the node's place. *)
Lemma wp_remove_splice2 k c l a kr cx x y Ψ :
  l <> E -> Forall (fun f => f_side f = Left) kr ->
  node a (ptr l) (ptr (plug kr (T cx E x y))) (top k) c ⊢
  trep l a -∗ trep (plug kr (T cx E x y)) a -∗ crep k x -∗
  (∀ n, a ↦ CNode n -∗ trep y x -∗ crep (kr ++ Frame Right c x l :: k) (ptr y) -∗
   Ψ (ptr y, top (kr ++ Frame Right c x l :: k), cz cx)) -∗
  wp (remove_splice a x (top k) (ptr l) (ptr (plug kr (T cx E x y)))) Ψ.
Proof.
  intros Hl Hkr. iIntros "Ha Hl Hr Hk HΨ". unfold remove_splice.
  iDestruct (ptr_addr_ne with "Hl") as %->; [done|].
  iDestruct (ptr_addr_ne with "Hr") as %->; [by apply plug_ne|]. cbn [negb andb].
  iDestruct (node_facts with "Ha") as %[_ Htop].
  rewrite seg_plug ptr_plug_bot. cbn [trep ptr]. iDestruct "Hr" as "[(Hx & _ & Hy) Hseg]".
  iDestruct (node_facts with "Hx") as %[Hx _].
  do 4 wp_step.
  destruct l as [|cl l1 b l2]; [done|]. cbn [trep ptr]. iDestruct "Hl" as "(Hb & Hl1 & Hl2)". wp_step.
  destruct kr as [|[s cf d z] kr]; cbn [bot f_addr seg tops app].
  - rewrite Z.eqb_refl. do 3 wp_step. iDestruct (node_cell a with "[$]") as "Ha". iApply ("HΨ" with "Ha Hy").
    cbn [crep]. iFrame.
  - inversion Hkr as [|? ? Hs Hkr']; subst. cbn in Hs. subst s.
    iDestruct "Hseg" as "(Hd & Hz & Hseg)".
    iDestruct (node_facts with "Hd") as %[Hd _].
    iAssert ⌜(x =? bot d kr) = false⌝%I as %->.
    { iDestruct (node_ne x d with "[$] [$]") as %Hne.
      iDestruct (seg_bot_ne _ _ _ x with "Hseg [$]") as %Hb; [done|]. iPureIntro. by apply not_eq_sym, Z.eqb_neq in Hb. }
    do 6 wp_step. iApply wp_bind.
    iApply (wp_seg_reparent_Left a x d with "[$] Hz Hseg"); [by right|]. iIntros "? ? ?". wp_step.
    iDestruct (node_cell a with "[$]") as "Ha". iApply ("HΨ" with "Ha Hy").
    rewrite (crep_seg (Frame Left cf d z :: kr)). cbn [seg crep bot f_addr ptr]. iFrame.
Qed.

(** What is left at the position where a node with at most one subtree was:
    nothing to repair when the node was red, a black node short otherwise. *)
Definition unlinked (cc : color) (k : ctx) (t : tree) : Prop :=
  match cc with
  | Red => exists n c, rbi n c t /\ ctxi n c k
  | Black => exists n c, rbi n c t /\ ctxi (S n) Black k
  end.

Lemma unlinked_one s c a t k : rb_tree (plug k (mk s c E a t)) -> unlinked c k t.
Proof.
  intros (n & c' & Ht & Hk)%plug_inv. apply rbi_mk_inv in Ht as [-> Ht]. destruct c; cbn.
  - destruct Ht as (n' & cx & cy & -> & ? & ?). eauto.
  - destruct Ht as [_ ?]. exists n, Black. split; [done|]. by apply ctxi_any.
Qed.

Lemma unlinked_addr cc kr s c a b x k t :
  unlinked cc (kr ++ Frame s c a x :: k) t -> unlinked cc (kr ++ Frame s c b x :: k) t.
Proof. destruct cc; cbn; intros (n & c' & ? & ?%(ctxi_addr _ _ _ _ _ a b)); eauto. Qed.

Section unlink.
Context (tr : Z) (k : ctx) (c : color) (l : tree) (a : Z) (r : tree).
Let es := before k ++ (elems l ++ a :: elems r) ++ after k.
Let es' := before k ++ elems l ++ elems r ++ after k.

Definition unlink_post (Ψ : Z * Z * Z -> rbProp) : rbProp :=
  ∀ n k' t cc, ⌜elems (plug k' t) = es' /\ (length k' < RB_FUEL)%nat /\ unlinked cc k' t⌝ -∗
    a ↦ CNode n -∗ zrep tr k' t (hd0 es') (lst0 es') -∗ Ψ (ptr t, top k', cz cc).

(** The rest of remove_unlink, from the choice of the successor on. *)
Definition unlink_rest : rb (Z * Z * Z) :=
  next ← (if ptr l =? 0 then mret (ptr r)
          else if ptr r =? 0 then mret (ptr l)
          else get_first (ptr r));
  _ ← (if negb (top k =? 0) then
         l ← get_child Left (top k); set_child next (top k) (l =? a)
       else put_root tr next);
  '(node, parent, color) ← remove_splice a next (top k) (ptr l) (ptr r);
  _ ← (if negb (node =? 0) then set_parent parent node else mret tt);
  mret (node, parent, color).

(** One of the subtrees is empty and [t] is the other. *)
Lemma wp_unlink_one t f g Ψ :
  (l = E /\ t = r) \/ (r = E /\ l <> E /\ t = l) -> unlinked c k t -> (length k < RB_FUEL)%nat ->
  f = hd0 es' -> g = lst0 es' ->
  zrep tr k (T c l a r) f g ⊢ unlink_post Ψ -∗ wp unlink_rest Ψ.
Proof.
  intros Ht Hu Hlen -> ->. iIntros "(Ht & Hk & Hh) HΨ". cbn [trep ptr].
  iDestruct "Ht" as "(Ha & Hl & Hr)". iDestruct (node_facts with "Ha") as %[_ Htop].
  iAssert (trep t a ∗ ⌜elems (plug k t) = es' /\
             (if ptr l =? 0 then mret (ptr r) else if ptr r =? 0 then mret (ptr l) else get_first (ptr r)) =
               (mret (ptr t) : rb Z) /\
             negb (ptr l =? 0) && negb (ptr r =? 0) = false⌝)%I with "[Hl Hr]" as "[Ht (%He & %Hn & %Hb)]".
  { destruct Ht as [[-> ->]|(-> & Hl & ->)].
    - iFrame. iPureIntro. rewrite elems_plug. done.
    - iDestruct (ptr_addr_ne with "Hl") as %->; [done|]. iFrame. iPureIntro. by rewrite elems_plug /es' /= ?app_nil_r. }
  unfold unlink_rest. rewrite Hn. wp_step. iApply wp_bind.
  iApply (wp_relink tr k (T c l a r) t with "Ha Hk Hh"). iIntros "Ha Hk Hh". cbn [ptr].
  unfold remove_splice. rewrite Hb. iApply wp_bind. do 2 wp_step.
  iApply wp_bind. iApply (wp_reparent with "Ht"); [done|]. iIntros "Ht". wp_step.
  iDestruct (node_cell a with "[$]") as "Ha". iApply ("HΨ" with "[//] Ha"). iFrame.
Qed.

Lemma wp_unlink_two f g Ψ :
  l <> E -> r <> E -> rb_tree (plug k (T c l a r)) -> (height (plug k (T c l a r)) < RB_FUEL)%nat ->
  f = hd0 es' -> g = lst0 es' ->
  zrep tr k (T c l a r) f g ⊢ unlink_post Ψ -∗ wp unlink_rest Ψ.
Proof.
  intros Hl Hr Hrb Hh -> ->. iIntros "(Ht & Hk & Hh) HΨ". cbn [trep ptr].
  iDestruct "Ht" as "(Ha & Hl & Hr)". unfold unlink_rest.
  iDestruct (ptr_addr_ne with "Hl") as %->; [done|]. iDestruct (ptr_addr_ne with "Hr") as %->; [done|].
  pose proof (height_plug k (T c l a r)) as Hhp. cbn [height] in Hhp.
  iApply wp_bind. iApply (wp_get_end Left RB_FUEL r with "Hr"); [done|lia|]. iIntros "Hr".
  destruct (leftmost r Hr) as (kr & cx & x & y & Er & <- & Hb & Hkr).
  iApply wp_bind. iApply (wp_relink tr k (T c l a r) (T Black E x E) with "Ha Hk Hh"). iIntros "Ha Hk Hh". cbn [ptr].
  assert (plug (kr ++ Frame Right c a l :: k) (T cx E x y) = plug k (T c l a r)) as Ep by by rewrite plug_app -Er.
  rewrite Er. iApply wp_bind. iApply (wp_remove_splice2 with "Ha Hl Hr Hk"); [done..|].
  iIntros (n) "Ha Hy Hk". iDestruct (crep_top with "Hk") as %Htop.
  iApply wp_bind. iApply (wp_reparent with "Hy"); [done|]. iIntros "Hy". wp_step.
  iApply ("HΨ" with "[] Ha [Hy Hk Hh]").
  - iPureIntro. split_and!.
    + rewrite plug_app elems_plug. cbn [plug mk]. rewrite elems_plug /es' Er.
      cbn [elems]. rewrite !elems_plug Hb. cbn [elems app]. by rewrite -!app_assoc.
    + rewrite -Ep in Hh. pose proof (height_plug (kr ++ Frame Right c a l :: k) (T cx E x y)) as Hp.
      rewrite length_app in Hp. cbn [length height] in Hp. rewrite length_app. cbn [length]. lia.
    + apply (unlinked_addr _ _ _ _ a). apply (unlinked_one Left _ x). cbn [mk]. by rewrite Ep.
  - rewrite /zrep plug_app. cbn [plug]. rewrite (ptr_plug_indep k (mk Right c _ x l) (T Black E x E)); [iFrame|by rewrite ptr_mk].
Qed.

End unlink.

Lemma wp_remove_unlink tr k c l a r Ψ :
  let es := before k ++ (elems l ++ a :: elems r) ++ after k in
  NoDup es -> rb_tree (plug k (T c l a r)) -> (height (plug k (T c l a r)) < RB_FUEL)%nat ->
  zrep tr k (T c l a r) (hd0 es) (lst0 es) ⊢ unlink_post tr k l a r Ψ -∗ wp (remove_unlink a tr) Ψ.
Proof.
  intros es Hd Hrb Hh. iIntros "H HΨ". unfold remove_unlink.
  pose proof (height_plug k (T c l a r)) as Hhp. cbn [height] in Hhp.
  iApply wp_bind. iApply (wp_get_parent_at Left with "H"). iIntros "H".
  iApply wp_bind. iApply (wp_get_near Left with "H"). iIntros "H".
  iApply wp_bind. iApply (wp_get_far Left with "H"). iIntros "H".
  iDestruct "H" as "(Ht & Hk & Hh)". wp_step. iApply wp_bind.
  iApply (wp_remove_first tr k c l a r with "[$]"); [done|done|cbn [height]; lia|lia|].
  iIntros "(Ht & Hk & Hh)". wp_step. iApply wp_bind.
  iApply (wp_remove_last tr k c l a r with "[$]"); [done|done|cbn [height]; lia|lia|]. iIntros "H".
  destruct l as [|cl l1 b l2].
  - iApply (wp_unlink_one tr k c E a r r with "H HΨ"); [by left|by apply (unlinked_one Left _ a)|lia|done|done].
  - destruct r as [|cr r1 d r2].
    + iApply (wp_unlink_one tr k c _ a E (T cl l1 b l2) with "H HΨ"); [by right|by apply (unlinked_one Right _ a)|lia|done|done].
    + by iApply (wp_unlink_two with "H HΨ").
Qed.

(** ** rbtree_remove *)

Lemma elem_focus a t : a ∈ elems t -> exists k c l r, t = plug k (T c l a r).
Proof.
  induction t as [|c l IHl b r IHr]; cbn; [set_solver|].
  intros [Hin|[->|Hin]%elem_of_cons]%elem_of_app.
  - destruct (IHl Hin) as (k & c' & l' & r' & ->).
    exists (k ++ [Frame Left c b r]), c', l', r'. by rewrite plug_app.
  - by exists [], c, l, r.
  - destruct (IHr Hin) as (k & c' & l' & r' & ->).
    exists (k ++ [Frame Right c b l]), c', l', r'. by rewrite plug_app.
Qed.

Lemma split_unique {A} (a : A) l1 l2 m1 m2 : NoDup (l1 ++ a :: l2) ->
  l1 ++ a :: l2 = m1 ++ a :: m2 -> l1 = m1 /\ l2 = m2.
Proof.
  revert m1. induction l1 as [|b l1 IH]; intros [|c m1] Hd; cbn; intros [= ]; subst; [done|..].
  - exfalso. apply NoDup_cons in Hd as [Hn _]. apply Hn. set_solver.
  - exfalso. apply NoDup_cons in Hd as [Hn _]. apply Hn. set_solver.
  - apply NoDup_cons in Hd as [_ Hd]. destruct (IH m1 Hd) as [-> ->]; done.
Qed.

Lemma wp_rbtree_remove tr l1 a l2 Ψ : NoDup (l1 ++ a :: l2) ->
  rbtree_rep tr (l1 ++ a :: l2) ⊢
  (∀ n, a ↦ CNode n -∗ rbtree_rep tr (l1 ++ l2) -∗ Ψ tt) -∗
  wp (rbtree_remove a tr) Ψ.
Proof.
  intros Hd. iIntros "H HΨ".
  iDestruct (rbtree_rep_elim with "H") as "(%t & (%Ht & %He & %Hh) & H)"; [done|].
  destruct (elem_focus a t) as (k & c & l & r & ->); [rewrite He; set_solver|].
  rewrite elems_plug in He. cbn [elems] in He.
  assert (l1 = before k ++ elems l /\ l2 = elems r ++ after k) as [-> ->].
  { apply (split_unique a); [done|]. rewrite -He -!app_assoc. done. }
  rewrite -He in Hd *. rewrite -zrep_plug.
  iApply wp_bind. iApply (wp_remove_unlink with "H"); [done..|].
  iIntros (n k' t cc (He' & Hk' & Hu)) "Ha H". rewrite -app_assoc.
  set (es := before k ++ elems l ++ elems r ++ after k) in *.
  destruct cc; cbn [cz]; unfold RB_BLACK, RB_RED; cbn [Z.eqb Pos.eqb]; cbn [unlinked] in Hu.
  - destruct Hu as (m & ct & Hm & Hctx). iDestruct "H" as "(Ht & H)".
    iApply wp_bind. iApply (wp_red_test with "Ht"). iIntros "Ht". rewrite (rbi_black _ _ _ Hm).
    destruct ct; cbn [blackb negb].
    + iApply (wp_remove_rebalance _ es _ _ RB_FUEL with "[Ht H]"); [done|by iApply (remove_inv_intro with "[$Ht $H]")|].
      iIntros (w [? ?]) "H". iApply ("HΨ" with "Ha"). iExists w. by iFrame.
    + pose proof Hm as (x & b & y & -> & ? & ?)%(rbi_Red_inv Left). cbn [mk ptr].
      iApply (wp_set_color_at _ _ _ Black with "[$Ht $H]"). iIntros "H". iApply ("HΨ" with "Ha").
      iExists (plug k' (T Black x b y)). rewrite -zrep_plug. iFrame. iPureIntro. split.
      * eapply plug_rbi; [|exact Hctx]. eauto with rb.
      * by rewrite -He' !elems_plug.
  - destruct Hu as (m & ct & Hm & Hctx). wp_step. iApply ("HΨ" with "Ha").
    iExists (plug k' t). rewrite -zrep_plug. iFrame. iPureIntro. split; [|done]. by eapply plug_rbi.
Qed.
