(* ===== verification/RbCorrect.v ===== *)
(** * The red-black trees of rbtree.c as ordered lists of nodes

    The operations on a tree whose nodes are, in order, the list [l]
    ([rbtree_rep tr l], from RbSpec.v), as statements about the functions of
    RbTree.v on a memory: what the client of the library relies on. *)

From iris.proofmode Require Import environments proofmode.
From stdpp Require Import sorting.
From S2P Require Import Prelude SepLogic RbTree RbShape RbSpec RbInsert RbRemove.

Local Open Scope Z_scope.

(** ** Walking and looking up *)

Lemma wp_neighbours s tr l1 a l2 Ψ : NoDup (l1 ++ a :: l2) ->
  rbtree_rep tr (l1 ++ a :: l2) ⊢
  (rbtree_rep tr (l1 ++ a :: l2) -∗ Ψ (match s with Left => lst0 l1 | Right => hd0 l2 end)) -∗
  wp (rbtree_step s a) Ψ.
Proof.
  intros Hd. iIntros "H HΨ".
  iDestruct (rbtree_rep_elim with "H") as "(%t & (%Ht & %He & %Hh) & H)"; [done|].
  destruct (elem_focus a t) as (k & c & l & r & ->); [rewrite He; set_solver|].
  pose proof He as He'. rewrite elems_plug in He'. cbn [elems] in He'.
  assert (l1 = before k ++ elems l /\ l2 = elems r ++ after k) as [-> ->].
  { apply (split_unique a); [done|]. rewrite -He' -!app_assoc. done. }
  pose proof (height_plug k (T c l a r)) as Hp. cbn [height] in Hp.
  rewrite -zrep_plug. iDestruct "H" as "(Ht & Hk & Hh)".
  iApply (wp_rbtree_step s k c l a r with "[$Ht $Hk]"); [cbn [height]; lia|lia|]. iIntros "[Ht Hk]".
  iAssert (rbtree_rep tr ((before k ++ elems l) ++ a :: elems r ++ after k)) with "[Ht Hk Hh]" as "H".
  { iExists (plug k (T c l a r)). rewrite -zrep_plug. by iFrame. }
  destruct s; rewrite ?neighbour_Left ?neighbour_Right; by iApply "HΨ".
Qed.

Lemma wp_rbtree_lookup cmp_fn key tr l a Ψ : key_sorted key l -> cmp_ok cmp_fn key a l ->
  rbtree_rep tr l ⊢
  (∀ b, ⌜(b ∈ l /\ key b = key a) \/ (b = 0 /\ forall b, b ∈ l -> key b <> key a)⌝ -∗ rbtree_rep tr l -∗ Ψ b) -∗
  wp (rbtree_lookup cmp_fn a tr) Ψ.
Proof.
  intros Hs Hc. iIntros "H HΨ".
  iDestruct (rbtree_rep_elim with "H") as "(%t & (%Ht & %He & %Hh) & H)"; [by eapply key_sorted_NoDup|].
  subst l. iApply wp_bind. iApply (wp_do_lookup with "H"); [done..|]. iIntros "H".
  destruct (search_spec key a t Hs) as (Hp & Hb & Hf & Hk).
  destruct (search key (key a) [] t) as [k t']. cbn [fst snd] in *. wp_step. iApply ("HΨ" with "[]").
  - iPureIntro. destruct t' as [|c x b y].
    + right. split; [done|]. rewrite -Hp elems_plug. intros b [Hin|Hin]%elem_of_app;
        rewrite ->Forall_forall in Hb, Hf; [specialize (Hb b Hin)|specialize (Hf b Hin)]; lia.
    + left. split; [|by apply Hk]. rewrite -Hp elems_plug. cbn. set_solver.
  - iExists t. by iFrame.
Qed.

(** ** Replacing a node *)

Lemma hd0_replace b a a' r : NoDup (b ++ a :: r) ->
  hd0 (b ++ a' :: r) = if hd0 (b ++ a :: r) =? a then a' else hd0 (b ++ a :: r).
Proof.
  intros Hd. destruct b as [|c b]; cbn; [by rewrite Z.eqb_refl|].
  apply NoDup_cons in Hd as [Hn _]. destruct (Z.eqb_spec c a) as [->|]; [|done]. exfalso. apply Hn. set_solver.
Qed.

Lemma lst0_replace b a a' r : NoDup (b ++ a :: r) ->
  lst0 (b ++ a' :: r) = if lst0 (b ++ a :: r) =? a then a' else lst0 (b ++ a :: r).
Proof.
  intros Hd. rewrite !(lst0_app b) //. destruct r as [|c r]; [cbn; by rewrite Z.eqb_refl|].
  rewrite !(lst0_cons _ (c :: r)) //. destruct (Z.eqb_spec (lst0 (c :: r)) a) as [E|]; [|done]. exfalso.
  apply NoDup_app in Hd as (_ & _ & Hd). apply NoDup_cons in Hd as [Hn _]. apply Hn. rewrite -E. by apply lst0_elem.
Qed.

Lemma wp_rbtree_replace tr l1 a l2 a' n Ψ : NoDup (l1 ++ a :: l2) -> node_addr a' ->
  rbtree_rep tr (l1 ++ a :: l2) ⊢ a' ↦ CNode n -∗
  (∀ n, a ↦ CNode n -∗ rbtree_rep tr (l1 ++ a' :: l2) -∗ Ψ tt) -∗ wp (rbtree_replace a a' tr) Ψ.
Proof.
  intros Hd Ha'. iIntros "(%t & (%Ht & %He) & H) Hn HΨ".
  destruct (elem_focus a t) as (k & c & l & r & ->); [rewrite He; set_solver|].
  rewrite elems_plug in He. cbn [elems] in He. rewrite -zrep_plug.
  iDestruct "H" as "((Ha & Hl & Hr) & Hk & Hh)". unfold rbtree_replace. cbn [ptr].
  iDestruct (node_facts with "Ha") as %[Ha Htop]. wp_step.
  iApply wp_bind. iApply (wp_relink tr k (T c l a r) (T c l a' r) with "[$] Hk Hh"). iIntros "Ha Hk Hh". cbn [ptr].
  wp_step. iApply wp_bind. iApply (wp_reparent with "Hl"); [by right|]. iIntros "Hl".
  wp_step. iApply wp_bind. iApply (wp_reparent with "Hr"); [by right|]. iIntros "Hr".
  wp_step. iApply wp_bind. iApply (wp_put_first_if with "[$]"). iIntros "Hh".
  wp_step. iApply wp_bind. iApply (wp_put_last_if with "[$]"). iIntros "Hh".
  iApply wp_bind. iApply (wp_node_at a with "[$]"). iIntros "Ha".
  iApply wp_bind. iApply (wp_node_raw with "Hn"). iIntros "Hn". iApply (wp_store with "Hn"). iIntros "Hn".
  iDestruct (node_intro with "Hn") as "Hn"; [done..|]. iDestruct (node_cell with "Ha") as "Ha".
  iApply ("HΨ" with "Ha"). rewrite -hd0_replace // -lst0_replace //.
  iExists (plug k (T c l a' r)). rewrite -zrep_plug. iFrame. iPureIntro. split.
  - apply plug_inv in Ht as (m & cm & Hm & Hk). eapply plug_rbi; [|exact Hk]. inversion Hm; subst; eauto with rb.
  - assert (l1 = before k ++ elems l /\ l2 = elems r ++ after k) as [-> ->].
    { apply (split_unique a); [done|]. rewrite -He -!app_assoc. done. }
    rewrite elems_plug. cbn [elems]. by rewrite -!app_assoc.
Qed.

(** ** The memory of a tree *)

Fixpoint tree_mem (t : tree) (p : Z) : gmap Z rbcell :=
  match t with
  | E => ∅
  | T c l a r => {[a := CNode (Node (ptr l) (ptr r) (pack p c))]} ∪ (tree_mem l a ∪ tree_mem r a)
  end.

Definition rbtree_mem (tr : Z) (t : tree) : gmap Z rbcell :=
  tree_mem t 0 ∪ {[tr := CTree (Tree (ptr t) (hd0 (elems t)) (lst0 (elems t)))]}.

Lemma tree_mem_dom t p : dom (tree_mem t p) = list_to_set (C := gset Z) (elems t).
Proof.
  revert p. induction t as [|c l IHl a r IHr]; intros p; cbn [tree_mem elems]; [by rewrite dom_empty_L|].
  rewrite !dom_union_L dom_singleton_L IHl IHr list_to_set_app_L list_to_set_cons. set_solver.
Qed.

Lemma tree_mem_rep t p : NoDup (elems t) -> Forall node_addr (elems t) -> addr0 p ->
  holds (trep t p) (tree_mem t p).
Proof.
  revert p. induction t as [|c l IHl a r IHr]; intros p Hd Ha Hp; cbn [tree_mem elems trep] in *; [done|].
  apply NoDup_app in Hd as (Hl & Hlr & [Har Hr]%NoDup_cons). apply Forall_app in Ha as (Hal & [Haa Har']%Forall_cons).
  apply holds_sep; [|apply holds_sep|].
  - eapply entails_holds; [by apply node_intro|]. apply holds_points_to.
  - apply IHl; [done|done|by right].
  - apply IHr; [done|done|by right].
  - apply map_disjoint_dom. rewrite !tree_mem_dom. set_solver.
  - apply map_disjoint_dom. rewrite dom_union_L !tree_mem_dom dom_singleton_L. set_solver.
Qed.

Lemma rbtree_mem_rep tr t : rb_tree t -> NoDup (elems t) -> Forall node_addr (elems t) -> tr ∉ elems t ->
  holds (rbtree_rep tr (elems t)) (rbtree_mem tr t).
Proof.
  intros Ht Hd Ha Htr. apply (holds_exist _ t), holds_pure_sep; [done|].
  apply (entails_holds (trep t 0 ∗ tr ↦ CTree (Tree (ptr t) (hd0 (elems t)) (lst0 (elems t))))).
  { iIntros "[H Hh]". iDestruct (head_intro with "Hh") as "Hh". rewrite /zrep. by iFrame. }
  apply holds_sep; [by apply tree_mem_rep; [..|left]|apply holds_points_to|].
  apply map_disjoint_dom. rewrite tree_mem_dom dom_singleton_L. set_solver.
Qed.

(** ** What the library promises *)

(** C5: rbtree_insert on a tree that holds the nodes [l] in the order of their
    keys always returns.  When a node of [l] has the key of the new node, that
    node is returned and nothing changes; otherwise NULL is returned and the
    head stands for the sorted list with the new node in its place: the nodes
    are linked into a search tree with correct parent pointers, it is red-black
    again, and [first] and [last] are its ends.  Memory outside the tree and
    the new node is left alone. *)
Theorem rbtree_insert_correct cmp_fn key m mf tr l a n :
  key_sorted key l -> cmp_ok cmp_fn key a l -> node_addr a ->
  holds (rbtree_rep tr l ∗ a ↦ CNode n)%I m -> m ##ₘ mf ->
  exists r m', rbtree_insert cmp_fn a tr (m ∪ mf) = Ok (r, m' ∪ mf) /\ m' ##ₘ mf /\
    ((r ∈ l /\ key r = key a /\ holds (rbtree_rep tr l ∗ a ↦ CNode n)%I m') \/
     (r = 0 /\ (forall b, b ∈ l -> key b <> key a) /\
      key_sorted key (ins key a l) /\ holds (rbtree_rep tr (ins key a l)) m')).
Proof.
  intros Hs Hc Ha Hm Hd.
  destruct (wp_sound (rbtree_insert cmp_fn a tr) (rbtree_rep tr l ∗ a ↦ CNode n)
    (fun r => (⌜r ∈ l /\ key r = key a⌝ ∗ rbtree_rep tr l ∗ a ↦ CNode n) ∨
              (⌜r = 0 /\ (forall b, b ∈ l -> key b <> key a) /\ key_sorted key (ins key a l)⌝ ∗
               rbtree_rep tr (ins key a l)))%I m mf) as (r & m' & E & Hd' & Hr); [|exact Hm|done|].
  - iIntros "[H Ha]". iApply (wp_rbtree_insert with "H Ha"); [done..|]. iSplit.
    + iIntros (b [? ?]) "H Ha". iLeft. by iFrame.
    + iIntros (Hne) "H". iRight. iFrame. iPureIntro. split_and!; [done|done|by apply ins_sorted].
  - exists r, m'. split_and!; [done|done|].
    apply holds_or_inv in Hr as [[[? ?] ?]%holds_pure_sep_inv|[(? & ? & ?) ?]%holds_pure_sep_inv]; auto 10.
Qed.

(** C4: rbtree_remove of a node of the tree always returns: the head then
    stands for the list without the node, again red-black and with its ends as
    [first] and [last]; the node's cell belongs to the caller, and memory
    outside the tree is left alone. *)
Theorem rbtree_remove_correct m mf tr l1 a l2 :
  NoDup (l1 ++ a :: l2) -> holds (rbtree_rep tr (l1 ++ a :: l2)) m -> m ##ₘ mf ->
  exists n m', rbtree_remove a tr (m ∪ mf) = Ok (tt, m' ∪ mf) /\ m' ##ₘ mf /\
    holds (rbtree_rep tr (l1 ++ l2) ∗ a ↦ CNode n)%I m'.
Proof.
  intros Hn Hm Hd.
  destruct (wp_sound (rbtree_remove a tr) (rbtree_rep tr (l1 ++ a :: l2))
    (fun _ => ∃ n, rbtree_rep tr (l1 ++ l2) ∗ a ↦ CNode n)%I m mf)
    as ([] & m' & E & Hd' & [n Hr]); [|exact Hm|done|by exists n, m'].
  iIntros "H". iApply (wp_rbtree_remove with "H"); [done|]. iIntros (n) "Ha H". iExists n. iFrame.
Qed.

(** C8: rbtree_next and rbtree_prev of a node return its neighbours in the
    order of the keys, NULL at the ends, and rbtree_lookup the node with the
    key of its argument or NULL when there is none; the tree stands for the same
    list as before. *)
Theorem rbtree_walks_correct cmp_fn key m mf tr l1 a l2 b :
  let l := l1 ++ a :: l2 in
  key_sorted key l -> cmp_ok cmp_fn key b l -> holds (rbtree_rep tr l) m -> m ##ₘ mf ->
  (exists m', rbtree_next a (m ∪ mf) = Ok (hd0 l2, m' ∪ mf) /\ holds (rbtree_rep tr l) m') /\
  (exists m', rbtree_prev a (m ∪ mf) = Ok (lst0 l1, m' ∪ mf) /\ holds (rbtree_rep tr l) m') /\
  (exists r m', rbtree_lookup cmp_fn b tr (m ∪ mf) = Ok (r, m' ∪ mf) /\ holds (rbtree_rep tr l) m' /\
     ((r ∈ l /\ key r = key b) \/ (r = 0 /\ forall c, c ∈ l -> key c <> key b))).
Proof.
  intros l Hs Hc Hm Hd. pose proof (key_sorted_NoDup _ _ Hs) as Hn. split_and!.
  - destruct (wp_sound (rbtree_next a) (rbtree_rep tr l) (fun r => ⌜r = hd0 l2⌝ ∗ rbtree_rep tr l)%I m mf)
      as (r & m' & E & Hd' & [-> Hr]%holds_pure_sep_inv); [|exact Hm|done|by exists m'].
    iIntros "H". iApply (wp_neighbours Right with "H"); [done|]. iIntros "H". by iFrame.
  - destruct (wp_sound (rbtree_prev a) (rbtree_rep tr l) (fun r => ⌜r = lst0 l1⌝ ∗ rbtree_rep tr l)%I m mf)
      as (r & m' & E & Hd' & [-> Hr]%holds_pure_sep_inv); [|exact Hm|done|by exists m'].
    iIntros "H". iApply (wp_neighbours Left with "H"); [done|]. iIntros "H". by iFrame.
  - destruct (wp_sound (rbtree_lookup cmp_fn b tr) (rbtree_rep tr l)
      (fun r => ⌜(r ∈ l /\ key r = key b) \/ (r = 0 /\ forall c, c ∈ l -> key c <> key b)⌝ ∗ rbtree_rep tr l)%I m mf)
      as (r & m' & E & Hd' & [? Hr]%holds_pure_sep_inv); [|exact Hm|done|by exists r, m'].
    iIntros "H". iApply (wp_rbtree_lookup with "H"); [done..|]. iIntros (r Hr) "H". by iFrame.
Qed.

(** ** The theorems at a tree of three nodes *)

Definition ex_cmp (a b : Z) : outcome Z := Ok (a - b).
Definition ex_tree : tree := T Black (T Red E 16 E) 32 (T Red E 48 E).

Lemma ex_rb : rb_tree ex_tree.
Proof. exists 1%nat. repeat econstructor. Qed.

Lemma ex_sorted : key_sorted (fun a => a) (elems ex_tree).
Proof. repeat constructor; lia. Qed.

Lemma ex_cmp_ok n l : cmp_ok ex_cmp (fun a => a) n l.
Proof. intros a _. exists (a - n). split; [done|]. rewrite -(Z.compare_sub a n). done. Qed.

Lemma ex_rep : holds (rbtree_rep 8 (elems ex_tree)) (rbtree_mem 8 ex_tree).
Proof.
  apply rbtree_mem_rep; [exact ex_rb|by eapply key_sorted_NoDup, ex_sorted| |cbn; set_solver].
  repeat constructor; cbn; lia.
Qed.

Lemma rbtree_insert_correct_witness :
  exists m', rbtree_insert ex_cmp 64 8 ((rbtree_mem 8 ex_tree ∪ {[64 := CNode (Node 7 7 7)]}) ∪ ∅) = Ok (0, m' ∪ ∅) /\
    holds (rbtree_rep 8 [16; 32; 48; 64]) m'.
Proof.
  destruct (rbtree_insert_correct ex_cmp (fun a => a) (rbtree_mem 8 ex_tree ∪ {[64 := CNode (Node 7 7 7)]}) ∅
              8 (elems ex_tree) 64 (Node 7 7 7)) as (r & m' & E & _ & [(Hr & Hk & _)|(-> & _ & _ & Hr)]).
  - exact ex_sorted.
  - apply ex_cmp_ok.
  - by split; [lia|].
  - apply holds_sep; [exact ex_rep|apply holds_points_to|]. apply map_disjoint_dom.
    unfold rbtree_mem. rewrite dom_union_L tree_mem_dom !dom_singleton_L. cbn. set_solver by lia.
  - apply map_disjoint_empty_r.
  - exfalso. cbn in Hr. rewrite Hk in Hr. set_solver by lia.
  - exists m'. split; [exact E|exact Hr].
Defined.

Lemma rbtree_remove_correct_witness :
  exists n m', rbtree_remove 32 8 (rbtree_mem 8 ex_tree ∪ ∅) = Ok (tt, m' ∪ ∅) /\
    holds (rbtree_rep 8 [16; 48] ∗ 32 ↦ CNode n)%I m'.
Proof.
  destruct (rbtree_remove_correct (rbtree_mem 8 ex_tree) ∅ 8 [16] 32 [48]) as (n & m' & E & _ & Hr).
  - exact (key_sorted_NoDup _ _ ex_sorted).
  - exact ex_rep.
  - apply map_disjoint_empty_r.
  - exists n, m'. split; [exact E|exact Hr].
Defined.

Lemma rbtree_walks_correct_witness :
  exists m', rbtree_next 32 (rbtree_mem 8 ex_tree ∪ ∅) = Ok (48, m' ∪ ∅) /\ holds (rbtree_rep 8 [16; 32; 48]) m'.
Proof.
  destruct (rbtree_walks_correct ex_cmp (fun a => a) (rbtree_mem 8 ex_tree) ∅ 8 [16] 32 [48] 5)
    as ((m' & E & Hr) & _ & _).
  - exact ex_sorted.
  - apply ex_cmp_ok.
  - exact ex_rep.
  - apply map_disjoint_empty_r.
  - exists m'. split; [exact E|exact Hr].
Defined.
