(* ===== verification/Bitmap.v ===== *)
(** * Bitmaps (kernel/include/bitmap.h)

    A bitmap is the byte buffer it lives in: a finite map from byte offsets to
    8-bit values whose domain is the buffer.  An access outside the buffer is
    a [Fault].  The abstract view is the predicate [bit_at]. *)

From S2P Require Import Prelude.

Local Open Scope Z_scope.

Definition BITS_PER_UNIT : Z := 8.
Definition BITMAP_BYTES (bits : Z) : Z := (bits + 7) / 8.

(** A byte buffer: offset to byte. *)
Abbreviation bytes := (gmap Z Z).

Definition load8 (map : bytes) (i : Z) : outcome Z := deref (map !! i).
Definition store8 (map : bytes) (i v : Z) : outcome bytes :=
  _ ← load8 map i; Ok (<[i := v]> map).

(** [memset(map + off, v, n)] *)
Definition memset (map : bytes) (off v n : Z) : outcome bytes :=
  for_up (Z.to_nat n) off (fun i m => store8 m i v) map.

(** [memcpy(dst + doff, src + soff, n)] between distinct buffers *)
Definition memcpy (dst : bytes) (doff : Z) (src : bytes) (soff n : Z) : outcome bytes :=
  for_up (Z.to_nat n) 0
    (fun i d => b ← load8 src (soff + i); store8 d (doff + i) b) dst.

(** bitmap.h: bitmap_set *)
Definition bitmap_set (map : bytes) (bit : Z) : outcome bytes :=
  let bit := u32 bit in
  b ← load8 map (bit / BITS_PER_UNIT);
  store8 map (bit / BITS_PER_UNIT)
    (u8 (Z.lor b (Z.shiftl 1 (bit mod BITS_PER_UNIT)))).

(** bitmap.h: bitmap_clear *)
Definition bitmap_clear (map : bytes) (bit : Z) : outcome bytes :=
  let bit := u32 bit in
  b ← load8 map (bit / BITS_PER_UNIT);
  store8 map (bit / BITS_PER_UNIT)
    (u8 (Z.land b (cnot 32 (Z.shiftl 1 (bit mod BITS_PER_UNIT))))).

(** bitmap.h: bitmap_check *)
Definition bitmap_check (map : bytes) (bit : Z) : outcome bool :=
  let bit := u32 bit in
  b ← load8 map (bit / BITS_PER_UNIT);
  Ok (Z.testbit (Z.shiftr b (bit mod BITS_PER_UNIT)) 0).

(** bitmap.h: bitmap_zero.  [bits + 7] is computed in 32 bits. *)
Definition bitmap_zero (map : bytes) (bits : Z) : outcome bytes :=
  memset map 0 0 (u32 (u32 bits + 7) / 8).

(** bitmap.h: bitmap_fill *)
Definition bitmap_fill (map : bytes) (bits : Z) : outcome bytes :=
  let bits := u32 bits in
  let nbytes := u32 (bits + 7) / 8 in
  map ← memset map 0 255 nbytes;
  let remainder := bits mod BITS_PER_UNIT in
  if remainder =? 0 then Ok map
  else
    b ← load8 map (nbytes - 1);
    store8 map (nbytes - 1) (u8 (Z.land b (Z.shiftl 1 remainder - 1))).

(** bitmap.h: bitmap_copy *)
Definition bitmap_copy (dst src : bytes) (bits : Z) : outcome bytes :=
  memcpy dst 0 src 0 (u32 (u32 bits + 7) / 8).

(** bitmap.h: bitmap_set_range *)
Definition bitmap_set_range (map : bytes) (start count : Z) : outcome bytes :=
  for_up (Z.to_nat (u32 count)) 0 (fun i m => bitmap_set m (u32 start + i)) map.

(** bitmap.h: bitmap_clear_range *)
Definition bitmap_clear_range (map : bytes) (start count : Z) : outcome bytes :=
  for_up (Z.to_nat (u32 count)) 0 (fun i m => bitmap_clear m (u32 start + i)) map.

(** bitmap.h: bitmap_find; the answer is [bits] when no bit is found *)
Definition bitmap_find (map : bytes) (bits start : Z) (find_value : bool) : outcome Z :=
  let bits := u32 bits in
  let start := u32 start in
  if bits <=? start then Ok bits
  else
    r ← for_ret (span start bits) start
          (fun i (_ : unit) =>
             b ← bitmap_check map i;
             Ok (if Bool.eqb b find_value then inr i else inl tt)) tt;
    Ok (match r with inr i => i | inl _ => bits end).

(** ** The abstract view *)

(** Bit [i] of the buffer. *)
Definition bit_at (map : bytes) (i : Z) : bool :=
  Z.testbit (default 0 (map !! (i / 8))) (i mod 8).

(** The buffer holds [n] bytes, each an 8-bit value. *)
Definition bitmap_wf (map : bytes) (n : Z) : Prop :=
  (forall i, is_Some (map !! i) <-> 0 <= i < n) /\
    (forall i b, map !! i = Some b -> fits 8 b).

Section bitmap.
Context (n : Z).
Hypothesis Hn : n < 2 ^ 29.
Implicit Types (map : bytes) (bit : Z).

Lemma wf_byte map bit : bitmap_wf map n -> 0 <= bit < 8 * n ->
  exists b, map !! (bit / 8) = Some b /\ fits 8 b.
Proof.
  intros [Hdom Hfit] Hb. destruct (proj2 (Hdom (bit / 8))) as [b Eb].
  - split; [apply Z.div_pos; lia | apply Z.div_lt_upper_bound; lia].
  - eauto.
Qed.

Lemma bit_u32 bit : 0 <= bit < 8 * n -> u32 bit = bit.
Proof. intros. apply wrap_small. unfold fits. lia. Qed.

Lemma wf_insert map i v : bitmap_wf map n -> 0 <= i < n -> fits 8 v ->
  bitmap_wf (<[i := v]> map) n.
Proof.
  intros [Hd Hf] Hi Hv. split.
  - intros j. rewrite lookup_insert. case_decide; [|apply Hd]. subst. split; [done|eauto].
  - intros j b. rewrite lookup_insert. case_decide; [by intros [= <-]|apply Hf].
Qed.

Lemma div_mod_eqb bit i : bit / 8 = i / 8 -> (bit mod 8 =? i mod 8) = (bit =? i).
Proof. intros. pose proof (Z.div_mod bit 8). pose proof (Z.div_mod i 8). lia. Qed.

(** Storing [f byte] at the byte of [bit] only touches that byte. *)
Lemma bit_at_insert map i j v :
  bit_at (<[i / 8 := v]> map) j =
  if i / 8 =? j / 8 then Z.testbit v (j mod 8) else bit_at map j.
Proof.
  unfold bit_at. rewrite lookup_insert. destruct (Z.eqb_spec (i / 8) (j / 8)); by case_decide.
Qed.

Lemma bitmap_set_spec map bit : bitmap_wf map n -> 0 <= bit < 8 * n ->
  exists map', bitmap_set map bit = Ok map' /\ bitmap_wf map' n /\
    forall j, bit_at map' j = (bit =? j) || bit_at map j.
Proof.
  intros Hwf Hb. destruct (wf_byte map bit Hwf Hb) as (b & Eb & Hfit).
  unfold bitmap_set, store8, load8, BITS_PER_UNIT. rewrite bit_u32, Eb by done. cbn.
  eexists. split; [done|]. split.
  - apply wf_insert; [done| |auto with kernel lia]. destruct Hwf as [Hd _]. apply Hd. eauto.
  - intros j. rewrite bit_at_insert. destruct (Z.eqb_spec (bit / 8) (j / 8)) as [E|E].
    + rewrite wrap_testbit, Z.lor_spec, shiftl_1_testbit, div_mod_eqb by (done || dlia).
      unfold bit_at. rewrite <- E, Eb. cbn. replace (j mod 8 <? 8) with true by dlia.
      by rewrite orb_comm.
    + by replace (bit =? j) with false by (symmetry; apply Z.eqb_neq; congruence).
Qed.

Lemma bitmap_clear_spec map bit : bitmap_wf map n -> 0 <= bit < 8 * n ->
  exists map', bitmap_clear map bit = Ok map' /\ bitmap_wf map' n /\
    forall j, bit_at map' j = negb (bit =? j) && bit_at map j.
Proof.
  intros Hwf Hb. destruct (wf_byte map bit Hwf Hb) as (b & Eb & Hfit).
  unfold bitmap_clear, store8, load8, BITS_PER_UNIT. rewrite bit_u32, Eb by done. cbn.
  eexists. split; [done|]. split.
  - apply wf_insert; [done| |auto with kernel lia]. destruct Hwf as [Hd _]. apply Hd. eauto.
  - intros j. rewrite bit_at_insert. destruct (Z.eqb_spec (bit / 8) (j / 8)) as [E|E].
    + rewrite wrap_testbit, Z.land_spec, cnot_testbit, shiftl_1_testbit, div_mod_eqb by (done || dlia).
      unfold bit_at. rewrite <- E, Eb. cbn. replace (j mod 8 <? 8) with true by dlia.
      replace (j mod 8 <? 32) with true by dlia. by destruct (Z.testbit b _), (bit =? j).
    + by replace (bit =? j) with false by (symmetry; apply Z.eqb_neq; congruence).
Qed.

Lemma bitmap_check_spec map bit : bitmap_wf map n -> 0 <= bit < 8 * n ->
  bitmap_check map bit = Ok (bit_at map bit).
Proof.
  intros Hwf Hb. destruct (wf_byte map bit Hwf Hb) as (b & Eb & Hfit).
  unfold bitmap_check, load8, bit_at, BITS_PER_UNIT. rewrite bit_u32, Eb by done. cbn.
  by rewrite <- Z.bit0_odd, Z.shiftr_spec, Z.add_0_l by dlia.
Qed.

Lemma memset_spec map off v cnt :
  bitmap_wf map n -> 0 <= off -> 0 <= cnt -> off + cnt <= n -> fits 8 v ->
  exists map', memset map off v cnt = Ok map' /\ bitmap_wf map' n /\
    forall i, map' !! i = if (off <=? i) && (i <? off + cnt) then Some v else map !! i.
Proof.
  intros Hwf Ho Hc Hle Hv. unfold memset.
  destruct (for_up_inv (fun k m => bitmap_wf m n /\ forall i, m !! i =
     if (off <=? i) && (i <? k) then Some v else map !! i)
     (Z.to_nat cnt) off (fun i m => store8 m i v) map) as (m' & E & Hwf' & Hm').
  - split; [done|]. intros i. by replace ((off <=? i) && (i <? off)) with false by lia.
  - intros k m Hk [Hw Hm]. unfold store8, load8.
    destruct (proj2 (proj1 Hw k)) as [b Eb]; [lia|]. rewrite Eb. cbn.
    eexists. split; [done|]. split; [apply wf_insert; [done|lia|done]|].
    intros i. rewrite lookup_insert. case_decide; subst.
    + by replace ((off <=? i) && (i <? i + 1)) with true by lia.
    + rewrite Hm. by replace (i <? k + 1) with (i <? k) by lia.
  - exists m'. rewrite Z2Nat.id in Hm' by done. done.
Qed.

Lemma memcpy_spec dst doff src soff cnt :
  bitmap_wf dst n -> 0 <= doff -> 0 <= cnt -> doff + cnt <= n ->
  (forall i, 0 <= i < cnt -> exists b, src !! (soff + i) = Some b /\ fits 8 b) ->
  exists dst', memcpy dst doff src soff cnt = Ok dst' /\ bitmap_wf dst' n /\
    forall i, dst' !! i =
      if (doff <=? i) && (i <? doff + cnt) then src !! (soff + (i - doff)) else dst !! i.
Proof.
  intros Hwf Ho Hc Hle Hsrc. unfold memcpy.
  destruct (for_up_inv (fun k m => bitmap_wf m n /\ forall i, m !! i =
     if (doff <=? i) && (i <? doff + k) then src !! (soff + (i - doff)) else dst !! i)
     (Z.to_nat cnt) 0 (fun i d => b ← load8 src (soff + i); store8 d (doff + i) b) dst)
    as (m' & E & Hwf' & Hm').
  - split; [done|]. intros i. by replace ((doff <=? i) && (i <? doff + 0)) with false by lia.
  - intros k m Hk [Hw Hm]. unfold store8, load8.
    destruct (Hsrc k) as (b & Eb & Hb); [lia|]. rewrite Eb. cbn.
    destruct (proj2 (proj1 Hw (doff + k))) as [c Ec]; [lia|]. rewrite Ec. cbn.
    eexists. split; [done|]. split; [apply wf_insert; [done|lia|done]|].
    intros i. rewrite lookup_insert. case_decide; subst.
    + replace ((doff <=? doff + k) && (doff + k <? doff + (k + 1))) with true by lia.
      by replace (soff + (doff + k - doff)) with (soff + k) by lia.
    + rewrite Hm. by replace (i <? doff + (k + 1)) with (i <? doff + k) by lia.
  - exists m'. replace (0 + Z.of_nat (Z.to_nat cnt)) with cnt in Hm' by lia. done.
Qed.

(** The ranged operations: one step of their loop for every index. *)
Lemma bitmap_set_range_spec map start count :
  bitmap_wf map n -> 0 <= start -> 0 <= count -> start + count <= 8 * n ->
  exists map', bitmap_set_range map start count = Ok map' /\ bitmap_wf map' n /\
    forall j, bit_at map' j = ((start <=? j) && (j <? start + count)) || bit_at map j.
Proof.
  intros Hwf Hs Hc Hle. unfold bitmap_set_range.
  rewrite !wrap_small by (unfold fits; lia).
  destruct (for_up_inv (fun k m => bitmap_wf m n /\ forall j,
     bit_at m j = ((start <=? j) && (j <? start + k)) || bit_at map j)
     (Z.to_nat count) 0 (fun i m => bitmap_set m (start + i)) map) as (m' & E & Hw & Hb).
  - split; [done|]. intros j. by replace ((start <=? j) && (j <? start + 0)) with false by lia.
  - intros k m Hk [Hw Hb].
    destruct (bitmap_set_spec m (start + k)) as (m2 & E2 & Hw2 & Hb2); [done|lia|].
    exists m2. split; [done|]. split; [done|]. intros j. rewrite Hb2, Hb.
    destruct (Z.eqb_spec (start + k) j), (Z.leb_spec start j), (Z.ltb_spec j (start + k)),
      (Z.ltb_spec j (start + (k + 1))); (done || lia).
  - exists m'. replace (0 + Z.of_nat (Z.to_nat count)) with count in Hb by lia. done.
Qed.

Lemma bitmap_clear_range_spec map start count :
  bitmap_wf map n -> 0 <= start -> 0 <= count -> start + count <= 8 * n ->
  exists map', bitmap_clear_range map start count = Ok map' /\ bitmap_wf map' n /\
    forall j, bit_at map' j = negb ((start <=? j) && (j <? start + count)) && bit_at map j.
Proof.
  intros Hwf Hs Hc Hle. unfold bitmap_clear_range.
  rewrite !wrap_small by (unfold fits; lia).
  destruct (for_up_inv (fun k m => bitmap_wf m n /\ forall j,
     bit_at m j = negb ((start <=? j) && (j <? start + k)) && bit_at map j)
     (Z.to_nat count) 0 (fun i m => bitmap_clear m (start + i)) map) as (m' & E & Hw & Hb).
  - split; [done|]. intros j. by replace ((start <=? j) && (j <? start + 0)) with false by lia.
  - intros k m Hk [Hw Hb].
    destruct (bitmap_clear_spec m (start + k)) as (m2 & E2 & Hw2 & Hb2); [done|lia|].
    exists m2. split; [done|]. split; [done|]. intros j. rewrite Hb2, Hb.
    destruct (Z.eqb_spec (start + k) j), (Z.leb_spec start j), (Z.ltb_spec j (start + k)),
      (Z.ltb_spec j (start + (k + 1))); (done || lia).
  - exists m'. replace (0 + Z.of_nat (Z.to_nat count)) with count in Hb by lia. done.
Qed.

(** The scan answers the first index at or after [start] whose bit has the
    value, and [bits] exactly when there is none. *)
Lemma bitmap_find_spec map bits start v :
  bitmap_wf map n -> 0 <= start -> 0 <= bits <= 8 * n -> start < 2 ^ 32 ->
  exists r, bitmap_find map bits start v = Ok r /\
    (forall j, start <= j < r -> j < bits -> bit_at map j = negb v) /\
    ((start <= r < bits /\ bit_at map r = v) \/ r = bits).
Proof.
  intros Hwf Hs Hb Hs32. unfold bitmap_find.
  rewrite !wrap_small by (unfold fits; lia).
  destruct (Z.leb_spec bits start).
  { exists bits. split; [done|]. split; [lia|by right]. }
  destruct (for_ret_inv (fun k _ => forall j, start <= j < k -> bit_at map j = negb v)
    (fun r => start <= r < bits /\ bit_at map r = v /\
       forall j, start <= j < r -> bit_at map j = negb v)
    (span start bits) start
    (fun i (_ : unit) => b ← bitmap_check map i;
       Ok (if Bool.eqb b v then inr i else inl tt)) tt)
    as [([] & E & HP)|(r & E & ? & ? & HP)].
  - lia.
  - intros k _ Hk HP. unfold span in Hk. rewrite bitmap_check_spec by (done || lia). cbn.
    destruct (Bool.eqb (bit_at map k) v) eqn:Ev.
    + right. exists k. apply eqb_prop in Ev. repeat split; (done || lia).
    + left. exists tt. split; [done|]. intros j Hj.
      destruct (decide (j = k)) as [->|]; [|apply HP; lia].
      by destruct (bit_at map k), v.
  - rewrite E. cbn. exists bits. split; [done|]. rewrite span_spec in HP by lia. auto.
  - rewrite E. cbn. exists r. split; [done|]. split; auto.
Qed.

Lemma bitmap_fill_spec map bits :
  bitmap_wf map n -> 0 <= bits <= 8 * n ->
  exists map', bitmap_fill map bits = Ok map' /\ bitmap_wf map' n /\
    forall j, 0 <= j < 8 * BITMAP_BYTES bits -> bit_at map' j = (j <? bits).
Proof.
  intros Hwf Hb. unfold bitmap_fill, BITMAP_BYTES, BITS_PER_UNIT.
  rewrite !wrap_small by (unfold fits; rewrite ?wrap_small by (unfold fits; lia); lia).
  set (nb := (bits + 7) / 8). assert (0 <= nb <= n) by (subst nb; dlia).
  destruct (memset_spec map 0 255 nb) as (m1 & E1 & Hw1 & Hm1);
    [done|lia|lia|lia|by vm_compute|].
  rewrite E1. cbn.
  assert (Hones : forall j, 0 <= j < 8 * nb -> bit_at m1 j = true).
  { intros j Hj. unfold bit_at. rewrite Hm1.
    replace ((0 <=? j / 8) && (j / 8 <? 0 + nb)) with true by dlia. cbn.
    change 255 with (Z.ones 8). rewrite Z.testbit_ones_nonneg by dlia.
    apply Z.ltb_lt. dlia. }
  destruct (Z.eqb_spec (bits mod 8) 0) as [Er|Er].
  - exists m1. split; [done|]. split; [done|]. intros j Hj. rewrite Hones by done.
    symmetry. apply Z.ltb_lt. subst nb. dlia.
  - unfold load8, store8. rewrite Hm1.
    replace ((0 <=? nb - 1) && (nb - 1 <? 0 + nb)) with true by (subst nb; dlia).
    unfold load8. cbn. rewrite Hm1.
    replace ((0 <=? nb - 1) && (nb - 1 <? 0 + nb)) with true by (subst nb; dlia). cbn.
    eexists. split; [done|]. split.
    { apply wf_insert; [done|subst nb; dlia|auto with kernel lia]. }
    intros j Hj. unfold bit_at. rewrite lookup_insert. case_decide as Ej; cbn.
    + replace (Z.shiftl 1 (bits mod 8) - 1) with (Z.ones (bits mod 8))
        by (by rewrite Z.ones_equiv, Z.shiftl_1_l).
      change 255 with (Z.ones 8).
      rewrite wrap_testbit, Z.land_spec, !Z.testbit_ones_nonneg by dlia.
      subst nb. destruct (Z.ltb_spec (j mod 8) 8), (Z.ltb_spec (j mod 8) (bits mod 8)),
        (Z.ltb_spec j bits); (done || dlia).
    + fold (bit_at m1 j). rewrite Hones by done. symmetry. apply Z.ltb_lt. subst nb. dlia.
Qed.
End bitmap.

(** A buffer of [n] bytes [v]. *)
Definition filled (n v : Z) : bytes := list_to_map ((fun i => (i, v)) <$> seqZ 0 n).

Lemma filled_lookup n v i : filled n v !! i = if (0 <=? i) && (i <? n) then Some v else None.
Proof.
  unfold filled. destruct ((0 <=? i) && (i <? n)) eqn:E; zbool.
  - apply elem_of_list_to_map_1.
    + rewrite <- list_fmap_compose, (list_fmap_ext _ id) by done. rewrite list_fmap_id. apply NoDup_seqZ.
    + apply list_elem_of_fmap. exists i. split; [done|]. apply elem_of_seqZ. lia.
  - apply not_elem_of_list_to_map_1. rewrite <- list_fmap_compose, (list_fmap_ext _ id) by done.
    rewrite list_fmap_id, elem_of_seqZ. lia.
Qed.

Lemma filled_wf n v : fits 8 v -> bitmap_wf (filled n v) n.
Proof.
  intros Hv. split.
  - intros i. rewrite filled_lookup. destruct (_ && _) eqn:E; zbool.
    + split; [lia|eauto].
    + split; [by intros []|lia].
  - intros i b. rewrite filled_lookup. by destruct (_ && _); intros [= <-].
Qed.
