(* ===== verification/Crc32.v ===== *)
(** * CRC-32 (kernel/lib/crc32.c)

    The table-driven routine the GPT parser uses, the bit-serial definition of
    the reflected CRC-32 it optimises, and their equivalence. *)

From S2P Require Import Prelude Bitmap.

Local Open Scope Z_scope.

(** crc32.c: crc32_table *)
Definition crc32_table : list Z :=
  [
   0x00000000; 0x77073096; 0xee0e612c; 0x990951ba; 0x076dc419; 0x706af48f;
   0xe963a535; 0x9e6495a3; 0x0edb8832; 0x79dcb8a4; 0xe0d5e91e; 0x97d2d988;
   0x09b64c2b; 0x7eb17cbd; 0xe7b82d07; 0x90bf1d91; 0x1db71064; 0x6ab020f2;
   0xf3b97148; 0x84be41de; 0x1adad47d; 0x6ddde4eb; 0xf4d4b551; 0x83d385c7;
   0x136c9856; 0x646ba8c0; 0xfd62f97a; 0x8a65c9ec; 0x14015c4f; 0x63066cd9;
   0xfa0f3d63; 0x8d080df5; 0x3b6e20c8; 0x4c69105e; 0xd56041e4; 0xa2677172;
   0x3c03e4d1; 0x4b04d447; 0xd20d85fd; 0xa50ab56b; 0x35b5a8fa; 0x42b2986c;
   0xdbbbc9d6; 0xacbcf940; 0x32d86ce3; 0x45df5c75; 0xdcd60dcf; 0xabd13d59;
   0x26d930ac; 0x51de003a; 0xc8d75180; 0xbfd06116; 0x21b4f4b5; 0x56b3c423;
   0xcfba9599; 0xb8bda50f; 0x2802b89e; 0x5f058808; 0xc60cd9b2; 0xb10be924;
   0x2f6f7c87; 0x58684c11; 0xc1611dab; 0xb6662d3d; 0x76dc4190; 0x01db7106;
   0x98d220bc; 0xefd5102a; 0x71b18589; 0x06b6b51f; 0x9fbfe4a5; 0xe8b8d433;
   0x7807c9a2; 0x0f00f934; 0x9609a88e; 0xe10e9818; 0x7f6a0dbb; 0x086d3d2d;
   0x91646c97; 0xe6635c01; 0x6b6b51f4; 0x1c6c6162; 0x856530d8; 0xf262004e;
   0x6c0695ed; 0x1b01a57b; 0x8208f4c1; 0xf50fc457; 0x65b0d9c6; 0x12b7e950;
   0x8bbeb8ea; 0xfcb9887c; 0x62dd1ddf; 0x15da2d49; 0x8cd37cf3; 0xfbd44c65;
   0x4db26158; 0x3ab551ce; 0xa3bc0074; 0xd4bb30e2; 0x4adfa541; 0x3dd895d7;
   0xa4d1c46d; 0xd3d6f4fb; 0x4369e96a; 0x346ed9fc; 0xad678846; 0xda60b8d0;
   0x44042d73; 0x33031de5; 0xaa0a4c5f; 0xdd0d7cc9; 0x5005713c; 0x270241aa;
   0xbe0b1010; 0xc90c2086; 0x5768b525; 0x206f85b3; 0xb966d409; 0xce61e49f;
   0x5edef90e; 0x29d9c998; 0xb0d09822; 0xc7d7a8b4; 0x59b33d17; 0x2eb40d81;
   0xb7bd5c3b; 0xc0ba6cad; 0xedb88320; 0x9abfb3b6; 0x03b6e20c; 0x74b1d29a;
   0xead54739; 0x9dd277af; 0x04db2615; 0x73dc1683; 0xe3630b12; 0x94643b84;
   0x0d6d6a3e; 0x7a6a5aa8; 0xe40ecf0b; 0x9309ff9d; 0x0a00ae27; 0x7d079eb1;
   0xf00f9344; 0x8708a3d2; 0x1e01f268; 0x6906c2fe; 0xf762575d; 0x806567cb;
   0x196c3671; 0x6e6b06e7; 0xfed41b76; 0x89d32be0; 0x10da7a5a; 0x67dd4acc;
   0xf9b9df6f; 0x8ebeeff9; 0x17b7be43; 0x60b08ed5; 0xd6d6a3e8; 0xa1d1937e;
   0x38d8c2c4; 0x4fdff252; 0xd1bb67f1; 0xa6bc5767; 0x3fb506dd; 0x48b2364b;
   0xd80d2bda; 0xaf0a1b4c; 0x36034af6; 0x41047a60; 0xdf60efc3; 0xa867df55;
   0x316e8eef; 0x4669be79; 0xcb61b38c; 0xbc66831a; 0x256fd2a0; 0x5268e236;
   0xcc0c7795; 0xbb0b4703; 0x220216b9; 0x5505262f; 0xc5ba3bbe; 0xb2bd0b28;
   0x2bb45a92; 0x5cb36a04; 0xc2d7ffa7; 0xb5d0cf31; 0x2cd99e8b; 0x5bdeae1d;
   0x9b64c2b0; 0xec63f226; 0x756aa39c; 0x026d930a; 0x9c0906a9; 0xeb0e363f;
   0x72076785; 0x05005713; 0x95bf4a82; 0xe2b87a14; 0x7bb12bae; 0x0cb61b38;
   0x92d28e9b; 0xe5d5be0d; 0x7cdcefb7; 0x0bdbdf21; 0x86d3d2d4; 0xf1d4e242;
   0x68ddb3f8; 0x1fda836e; 0x81be16cd; 0xf6b9265b; 0x6fb077e1; 0x18b74777;
   0x88085ae6; 0xff0f6a70; 0x66063bca; 0x11010b5c; 0x8f659eff; 0xf862ae69;
   0x616bffd3; 0x166ccf45; 0xa00ae278; 0xd70dd2ee; 0x4e048354; 0x3903b3c2;
   0xa7672661; 0xd06016f7; 0x4969474d; 0x3e6e77db; 0xaed16a4a; 0xd9d65adc;
   0x40df0b66; 0x37d83bf0; 0xa9bcae53; 0xdebb9ec5; 0x47b2cf7f; 0x30b5ffe9;
   0xbdbdf21c; 0xcabac28a; 0x53b39330; 0x24b4a3a6; 0xbad03605; 0xcdd70693;
   0x54de5729; 0x23d967bf; 0xb3667a2e; 0xc4614ab8; 0x5d681b02; 0x2a6f2b94;
   0xb40bbe37; 0xc30c8ea1; 0x5a05df1b; 0x2d02ef8d].

(** crc32.c: one iteration of the loop of crc32 *)
Definition crc32_step (crc b : Z) : outcome Z :=
  let index := u8 (Z.land (Z.lxor crc b) 255) in
  t ← deref (crc32_table !! Z.to_nat index);
  Ok (Z.lxor t (Z.shiftr crc 8)).

(** crc32.c: crc32 *)
Definition crc32 (crc : Z) (buf : bytes) (len : Z) : outcome Z :=
  let crc := if crc =? 0 then 0xffffffff else crc in
  crc ← for_up (Z.to_nat len) 0
          (fun i crc => b ← load8 buf i; crc32_step crc b) crc;
  Ok (Z.lxor crc 0xffffffff).

(** ** The bit-serial reference: the reflected polynomial 0xEDB88320 *)

Definition crc_poly : Z := 0xedb88320.

Definition crc_bit (x : Z) : Z :=
  Z.lxor (Z.shiftr x 1) (if Z.odd x then crc_poly else 0).

Definition crc_byte (crc b : Z) : Z := Nat.iter 8 crc_bit (Z.lxor crc b).

(** The CRC of a message, the register starting at all ones and complemented
    at the end. *)
Definition crc32_ref (msg : list Z) : Z :=
  Z.lxor (fold_left crc_byte msg 0xffffffff) 0xffffffff.

Lemma crc_bit_lxor x y : crc_bit (Z.lxor x y) = Z.lxor (crc_bit x) (crc_bit y).
Proof.
  unfold crc_bit. rewrite Z.shiftr_lxor, <- !Z.bit0_odd, Z.lxor_spec.
  set (a := Z.shiftr x 1). set (b := Z.shiftr y 1). set (p := crc_poly).
  apply Z.bits_inj'. intros i _. rewrite !Z.lxor_spec.
  destruct (Z.testbit x 0), (Z.testbit y 0); cbn; rewrite ?Z.testbit_0_l;
    by destruct (Z.testbit a i), (Z.testbit b i), (Z.testbit p i).
Qed.

Lemma crc_iter_lxor k x y :
  Nat.iter k crc_bit (Z.lxor x y) = Z.lxor (Nat.iter k crc_bit x) (Nat.iter k crc_bit y).
Proof. induction k as [|k IH]; [done|]. by rewrite !Nat.iter_succ, IH, crc_bit_lxor. Qed.

(** Clear low bits are shifted out without any feedback. *)
Lemma crc_iter_shift k x :
  (forall i, 0 <= i < Z.of_nat k -> Z.testbit x i = false) ->
  Nat.iter k crc_bit x = Z.shiftr x (Z.of_nat k).
Proof.
  induction k as [|k IH]; intros Hx; [by rewrite Z.shiftr_0_r|].
  rewrite Nat.iter_succ, IH by (intros i Hi; apply Hx; lia).
  unfold crc_bit. rewrite <- Z.bit0_odd, Z.shiftr_spec, Z.add_0_l, Hx by lia.
  rewrite Z.lxor_0_r, Z.shiftr_shiftr by lia. f_equal. lia.
Qed.

Lemma land_255_split x : x = Z.lxor (Z.land x 255) (Z.shiftl (Z.shiftr x 8) 8).
Proof.
  apply Z.bits_inj'. intros i Hi. change 255 with (Z.ones 8).
  rewrite Z.lxor_spec, Z.land_spec, (Z.shiftl_spec _ 8 i), Z.testbit_ones_nonneg by lia.
  destruct (Z.ltb_spec i 8).
  - rewrite (Z.testbit_neg_r _ (i - 8)) by lia. by destruct (Z.testbit x i).
  - rewrite Z.shiftr_spec by lia. replace (i - 8 + 8) with i by lia.
    by destruct (Z.testbit x i).
Qed.

Lemma crc_byte_split crc b :
  crc_byte crc b =
  Z.lxor (Nat.iter 8 crc_bit (Z.land (Z.lxor crc b) 255)) (Z.shiftr (Z.lxor crc b) 8).
Proof.
  unfold crc_byte. rewrite (land_255_split (Z.lxor crc b)) at 1.
  rewrite crc_iter_lxor. f_equal. rewrite crc_iter_shift.
  - change (Z.of_nat 8) with 8. apply Z.bits_inj'. intros i Hi.
    rewrite Z.shiftr_spec, Z.shiftl_spec by lia. f_equal. lia.
  - intros i Hi. rewrite Z.shiftl_spec by lia. apply Z.testbit_neg_r. lia.
Qed.

(** Every entry of the table is eight bit-serial steps of its index. *)
Lemma crc32_table_correct i : 0 <= i < 256 ->
  crc32_table !! Z.to_nat i = Some (Nat.iter 8 crc_bit i).
Proof.
  intros Hi.
  assert (forallb (fun k => bool_decide (crc32_table !! Z.to_nat k = Some (Nat.iter 8 crc_bit k)))
    (Z.of_nat <$> seq 0 256) = true) as Hall by (vm_compute; reflexivity).
  rewrite forallb_forall in Hall. eapply bool_decide_eq_true_1, Hall, list_elem_of_In.
  apply list_elem_of_fmap. exists (Z.to_nat i). rewrite Z2Nat.id by lia.
  split; [done|]. apply elem_of_seq. lia.
Qed.

Lemma land_255_range x : 0 <= Z.land x 255 < 256.
Proof. change 255 with (Z.ones 8). rewrite Z.land_ones by lia. dlia. Qed.

Lemma crc32_step_spec crc b : fits 8 b -> crc32_step crc b = Ok (crc_byte crc b).
Proof.
  intros Hb. unfold crc32_step. pose proof (land_255_range (Z.lxor crc b)).
  rewrite (wrap_small 8), crc32_table_correct by (done || unfold fits; lia). cbn [deref mbind outcome_bind].
  rewrite crc_byte_split, Z.shiftr_lxor. do 2 f_equal.
  rewrite (Z.shiftr_div_pow2 b) by lia.
  rewrite (Z.div_small b) by done. by rewrite Z.lxor_0_r.
Qed.

Lemma fold_left_cons {A B} (f : A -> B -> A) x l a : fold_left f (x :: l) a = fold_left f l (f a x).
Proof. done. Qed.

(** A buffer holding the bytes of [msg] from offset 0. *)
Definition holds (buf : bytes) (msg : list Z) : Prop :=
  forall i b, msg !! i = Some b -> buf !! Z.of_nat i = Some b /\ fits 8 b.

Lemma crc32_loop buf msg off crc :
  (forall i b, msg !! i = Some b -> buf !! (off + Z.of_nat i) = Some b /\ fits 8 b) ->
  for_up (length msg) off (fun i crc => b ← load8 buf i; crc32_step crc b) crc
  = Ok (fold_left crc_byte msg crc).
Proof.
  revert off crc. induction msg as [|b msg IH]; intros off crc Hm; [done|].
  cbn [length]. rewrite for_up_S, fold_left_cons.
  destruct (Hm 0%nat b eq_refl) as [Hb Hf]. rewrite Z.add_0_r in Hb.
  change (load8 buf off) with (deref (buf !! off)). rewrite Hb, deref_Some, Ok_bind, crc32_step_spec, Ok_bind by done. apply IH.
  intros i b' Hi. replace (off + 1 + Z.of_nat i) with (off + Z.of_nat (S i)) by lia. by apply Hm.
Qed.

(** ** Injectivity of the register update *)

Lemma crc_bit_fits x : fits 32 x -> fits 32 (crc_bit x).
Proof.
  intros Hx. unfold crc_bit. apply lxor_fits; [done|apply shiftr_fits; (done || lia)|].
  destruct (Z.odd x); by vm_compute.
Qed.

Lemma crc_bit_top x : fits 32 x -> Z.testbit (crc_bit x) 31 = Z.odd x.
Proof.
  intros Hx. unfold crc_bit. rewrite Z.lxor_spec, Z.shiftr_spec by lia.
  rewrite (fits_testbit 32 x (31 + 1)) by (done || lia). by destruct (Z.odd x).
Qed.

Lemma crc_bit_inj x y : fits 32 x -> fits 32 y -> crc_bit x = crc_bit y -> x = y.
Proof.
  intros Hx Hy E. assert (Ho : Z.odd x = Z.odd y).
  { by rewrite <- (crc_bit_top x), <- (crc_bit_top y), E. }
  unfold crc_bit in E. rewrite Ho in E.
  assert (Z.shiftr x 1 = Z.shiftr y 1) as Es.
  { apply (f_equal (fun z => Z.lxor z (if Z.odd y then crc_poly else 0))) in E.
    by rewrite !Z.lxor_assoc, !Z.lxor_nilpotent, !Z.lxor_0_r in E. }
  rewrite <- !Z.div2_spec in Es. rewrite (Z.div2_odd x), (Z.div2_odd y). congruence.
Qed.

Lemma crc_iter_fits k x : fits 32 x -> fits 32 (Nat.iter k crc_bit x).
Proof. intros. induction k; [done|]. rewrite Nat.iter_succ. by apply crc_bit_fits. Qed.

Lemma crc_iter_inj k x y : fits 32 x -> fits 32 y ->
  Nat.iter k crc_bit x = Nat.iter k crc_bit y -> x = y.
Proof.
  intros Hx Hy. induction k as [|k IH]; [done|]. rewrite !Nat.iter_succ. intros E.
  apply IH, crc_bit_inj; auto using crc_iter_fits.
Qed.

Lemma lxor_cancel_r a b c : Z.lxor a c = Z.lxor b c -> a = b.
Proof.
  intros E. apply (f_equal (fun z => Z.lxor z c)) in E.
  by rewrite !Z.lxor_assoc, !Z.lxor_nilpotent, !Z.lxor_0_r in E.
Qed.

Lemma lxor_byte_fits c b : fits 32 c -> fits 8 b -> fits 32 (Z.lxor c b).
Proof. intros. apply lxor_fits; [done|done|]. by apply (fits_mono 8). Qed.

Lemma crc_byte_fits c b : fits 32 c -> fits 8 b -> fits 32 (crc_byte c b).
Proof. intros. unfold crc_byte. by apply crc_iter_fits, lxor_byte_fits. Qed.

Lemma crc_byte_inj c d b : fits 32 c -> fits 32 d -> fits 8 b ->
  crc_byte c b = crc_byte d b -> c = d.
Proof.
  unfold crc_byte. intros Hc Hd Hb E. apply crc_iter_inj in E; [|by apply lxor_byte_fits..].
  by eapply lxor_cancel_r.
Qed.

Lemma crc_fold_fits msg c : fits 32 c -> Forall (fits 8) msg ->
  fits 32 (fold_left crc_byte msg c).
Proof.
  intros Hc Hm. revert c Hc. induction Hm as [|b msg Hb _ IH]; intros c Hc; [done|]. rewrite fold_left_cons.
  by apply IH, crc_byte_fits.
Qed.

(** For a fixed tail the register before it is determined by the one after. *)
Lemma crc_fold_inj msg c d : fits 32 c -> fits 32 d -> Forall (fits 8) msg ->
  fold_left crc_byte msg c = fold_left crc_byte msg d -> c = d.
Proof.
  intros Hc Hd Hm. revert c d Hc Hd. induction Hm as [|b msg Hb _ IH]; intros c d Hc Hd E; [done|].
  rewrite !fold_left_cons in E. apply IH in E; [|by apply crc_byte_fits..].
  by apply crc_byte_inj in E.
Qed.

Lemma crc_byte_inj_byte c a b : fits 32 c -> fits 8 a -> fits 8 b ->
  crc_byte c a = crc_byte c b -> a = b.
Proof.
  unfold crc_byte. intros Hc Ha Hb E. apply crc_iter_inj in E; [|by apply lxor_byte_fits..].
  rewrite !(Z.lxor_comm c) in E. by eapply lxor_cancel_r.
Qed.

(** The routine over a message in a buffer. *)
Lemma crc32_spec buf msg : holds buf msg -> crc32 0 buf (Z.of_nat (length msg)) = Ok (crc32_ref msg).
Proof.
  intros Hm. unfold crc32. rewrite Nat2Z.id. cbn [Z.eqb].
  rewrite (crc32_loop buf msg 0) by done. done.
Qed.

(** ** Properties *)

(** The table-driven [crc32] computes, for every message of bytes and with
    the register left to its default, exactly the bit-serial reflected CRC-32
    of the message; it never reads outside the message or the table. *)
Theorem crc32_refines_ref (buf : bytes) (msg : list Z) :
  holds buf msg ->
  crc32 0 buf (Z.of_nat (length msg)) = Ok (crc32_ref msg).
Proof. apply crc32_spec. Qed.

(** The standard check value, CRC-32 of the ASCII string 123456789. *)
Lemma crc32_refines_ref_witness :
  let msg := [49; 50; 51; 52; 53; 54; 55; 56; 57] in
  let buf := list_to_map (zip (Z.of_nat <$> seq 0 9) msg) in
  crc32 0 buf 9 = Ok (crc32_ref msg) /\ crc32_ref msg = 0xcbf43926.
Proof.
  split; [|vm_compute; reflexivity].
  apply (crc32_refines_ref _ [49; 50; 51; 52; 53; 54; 55; 56; 57]).
  intros i b Hi. do 9 (destruct i as [|i]; [injection Hi as <-; split; by vm_compute|]). done.
Defined.

(** The checksum detects the corruption of any single byte: two messages
    of bytes that differ in exactly one position have different CRC-32. *)
Theorem crc32_detects_byte_error (buf buf' : bytes) (pre post : list Z) (a b : Z) :
  holds buf (pre ++ a :: post) -> holds buf' (pre ++ b :: post) -> a <> b ->
  crc32 0 buf (Z.of_nat (length (pre ++ a :: post))) <>
  crc32 0 buf' (Z.of_nat (length (pre ++ b :: post))).
Proof.
  intros Ha Hb Hne. unfold crc32. rewrite !Nat2Z.id. cbn [Z.eqb].
  assert (Hfit : forall bf m, holds bf m -> Forall (fits 8) m).
  { intros bf m Hm. apply Forall_lookup. intros i x Hi. by destruct (Hm i x Hi). }
  apply Hfit in Ha as Fa. apply Hfit in Hb as Fb.
  rewrite (crc32_loop buf _ 0 _ Ha), (crc32_loop buf' _ 0 _ Hb), !Ok_bind.
  intros E%Ok_inj. apply lxor_cancel_r in E. rewrite !fold_left_app, !fold_left_cons in E.
  apply Forall_app in Fa as [Fp [Fa' Fpost]%Forall_cons], Fb as [_ [Fb' _]%Forall_cons].
  assert (fits 32 (fold_left crc_byte pre 0xffffffff)) by (by apply crc_fold_fits).
  apply crc_fold_inj in E; [|by apply crc_byte_fits..|done].
  by apply crc_byte_inj_byte in E.
Qed.

Lemma crc32_detects_byte_error_witness :
  crc32 0 (list_to_map [(0, 1); (1, 2)]) 2 <> crc32 0 (list_to_map [(0, 1); (1, 3)]) 2.
Proof.
  apply (crc32_detects_byte_error _ _ [1] [] 2 3); [| |done];
    intros i b Hi; do 2 (destruct i as [|i]; [injection Hi as <-; split; by vm_compute|]); done.
Defined.
