(* ===== verification/Sha256.v ===== *)
(** * SHA-256 (kernel/lib/sha256.c)

    The streaming hash: a context of eight state words, a byte count and a
    64-byte buffer.  Arrays are lists; reading a word of [w] that the code has
    not written yet, or an access outside an array, is a [Fault].  The
    reference is the definition of FIPS 180-4: the message is padded, cut into
    blocks and folded with the compression function. *)

From S2P Require Import Prelude.

Local Open Scope Z_scope.

(** Four 32-bit words written as one number, as the tables below group them. *)
Definition words4 (row : Z) : list Z :=
  (fun k => u32 (Z.shiftr row (32 * (3 - k)))) <$> [0; 1; 2; 3].

(** sha256.c: sha256_k, one number per row of the source *)
Definition sha256_k : list Z := Eval vm_compute in
  [
   0x428a2f9871374491b5c0fbcfe9b5dba5;
   0x3956c25b59f111f1923f82a4ab1c5ed5;
   0xd807aa9812835b01243185be550c7dc3;
   0x72be5d7480deb1fe9bdc06a7c19bf174;
   0xe49b69c1efbe47860fc19dc6240ca1cc;
   0x2de92c6f4a7484aa5cb0a9dc76f988da;
   0x983e5152a831c66db00327c8bf597fc7;
   0xc6e00bf3d5a7914706ca635114292967;
   0x27b70a852e1b21384d2c6dfc53380d13;
   0x650a7354766a0abb81c2c92e92722c85;
   0xa2bfe8a1a81a664bc24b8b70c76c51a3;
   0xd192e819d6990624f40e3585106aa070;
   0x19a4c1161e376c082748774c34b0bcb5;
   0x391c0cb34ed8aa4a5b9cca4f682e6ff3;
   0x748f82ee78a5636f84c878148cc70208;
   0x90befffaa4506cebbef9a3f7c67178f2
  ] ≫= words4.

(** [__builtin_rotateright32(x, n)] *)
Definition rotr32 (x n : Z) : Z := Z.lor (Z.shiftr x n) (u32 (Z.shiftl x (32 - n))).

Definition sha256_ch (x y z : Z) : Z := Z.lxor (Z.land x y) (Z.land (cnot 32 x) z).
Definition sha256_maj (x y z : Z) : Z :=
  Z.lxor (Z.lxor (Z.land x y) (Z.land x z)) (Z.land y z).
Definition sha256_sigma0 (x : Z) : Z := Z.lxor (Z.lxor (rotr32 x 2) (rotr32 x 13)) (rotr32 x 22).
Definition sha256_sigma1 (x : Z) : Z := Z.lxor (Z.lxor (rotr32 x 6) (rotr32 x 11)) (rotr32 x 25).
Definition sha256_gamma0 (x : Z) : Z := Z.lxor (Z.lxor (rotr32 x 7) (rotr32 x 18)) (Z.shiftr x 3).
Definition sha256_gamma1 (x : Z) : Z := Z.lxor (Z.lxor (rotr32 x 17) (rotr32 x 19)) (Z.shiftr x 10).

(** Array accesses. *)
Definition at_ (l : list Z) (i : Z) : outcome Z := deref (l !! Z.to_nat i).

(** [memcpy(dst + doff, src + soff, n)] and [memset(dst + doff, v, n)] on arrays *)
Definition blit (dst : list Z) (doff : nat) (src : list Z) (soff n : nat) : outcome (list Z) :=
  if decide (doff + n <= length dst /\ soff + n <= length src)%nat
  then Ok (take doff dst ++ take n (drop soff src) ++ drop (doff + n) dst) else Fault.
Definition fill (dst : list Z) (doff : nat) (v : Z) (n : nat) : outcome (list Z) :=
  blit dst doff (replicate n v) 0 n.

(** The eight working variables. *)
Definition regs : Type := Z * Z * Z * Z * Z * Z * Z * Z.

(** sha256.c: sha256_transform, the sixteen words of the block.  [w] is the
    part of the array written so far. *)
Definition load_block (block : list Z) : outcome (list Z) :=
  for_up 16 0 (fun i w =>
    b0 ← at_ block (i * 4 + 0);
    b1 ← at_ block (i * 4 + 1);
    b2 ← at_ block (i * 4 + 2);
    b3 ← at_ block (i * 4 + 3);
    Ok (w ++ [Z.lor (Z.lor (Z.lor (Z.shiftl b0 24) (Z.shiftl b1 16)) (Z.shiftl b2 8)) (Z.shiftl b3 0)])) [].

(** sha256.c: sha256_transform, the message schedule *)
Definition extend_words (w : list Z) : outcome (list Z) :=
  for_up 48 16 (fun i w =>
    w2 ← at_ w (i - 2);
    w7 ← at_ w (i - 7);
    w15 ← at_ w (i - 15);
    w16 ← at_ w (i - 16);
    Ok (w ++ [u32 (sha256_gamma1 w2 + w7 + sha256_gamma0 w15 + w16)])) w.

(** sha256.c: sha256_transform, the body of the round loop *)
Definition round (i : Z) (w : list Z) (r : regs) : outcome regs :=
  let '(a, b, c, d, e, f, g, h) := r in
  k ← at_ sha256_k i;
  wi ← at_ w i;
  let t1 := u32 (h + sha256_sigma1 e + sha256_ch e f g + k + wi) in
  let t2 := u32 (sha256_sigma0 a + sha256_maj a b c) in
  Ok (u32 (t1 + t2), a, b, c, u32 (d + t1), e, f, g).

(** sha256.c: sha256_transform *)
Definition sha256_transform (state block : list Z) : outcome (list Z) :=
  w ← load_block block;
  w ← extend_words w;
  match state with
  | [s0; s1; s2; s3; s4; s5; s6; s7] =>
      '(a, b, c, d, e, f, g, h) ←
        for_up 64 0 (fun i r => round i w r) (s0, s1, s2, s3, s4, s5, s6, s7);
      Ok [u32 (s0 + a); u32 (s1 + b); u32 (s2 + c); u32 (s3 + d);
          u32 (s4 + e); u32 (s5 + f); u32 (s6 + g); u32 (s7 + h)]
  | _ => Fault
  end.

(** sha256.c: struct sha256_ctx *)
Record sha256_ctx := Sha256Ctx { state : list Z; count : Z; buf : list Z }.

(** sha256.c: sha256_init, the initial state words *)
Definition sha256_iv : list Z := Eval vm_compute in
  [0x6a09e667bb67ae853c6ef372a54ff53a; 0x510e527f9b05688c1f83d9ab5be0cd19] ≫= words4.

(** sha256.c: sha256_init; the buffer is left as it is *)
Definition sha256_init (ctx : sha256_ctx) : sha256_ctx := Sha256Ctx sha256_iv 0 (buf ctx).

(** sha256.c: sha256_update.  The loop state is the state words, the buffer,
    [buf_pos], the offset of [src] in the data and [len]. *)
Definition update_step (data : list Z) (s : list Z * list Z * Z * Z * Z)
  : outcome (list Z * list Z * Z * Z * Z + list Z * list Z) :=
  let '(st, bf, buf_pos, src, len) := s in
  if len <=? 0 then Ok (inr (st, bf))
  else
    let chunk := 64 - buf_pos in
    let chunk := if len <? chunk then len else chunk in
    bf ← blit bf (Z.to_nat buf_pos) data (Z.to_nat src) (Z.to_nat chunk);
    let buf_pos := buf_pos + chunk in
    if buf_pos =? 64
    then st ← sha256_transform st bf; Ok (inl (st, bf, 0, src + chunk, len - chunk))
    else Ok (inl (st, bf, buf_pos, src + chunk, len - chunk)).

Definition sha256_update (ctx : sha256_ctx) (data : list Z) (len : Z) : outcome sha256_ctx :=
  '(st, bf) ← while_loop (S (Z.to_nat len)) (update_step data)
                (state ctx, buf ctx, count ctx mod 64, 0, len);
  Ok (Sha256Ctx st (u64 (count ctx + len)) bf).

(** sha256.c: sha256_final, the last block: the marker, the zeros and the bit
    count, with one more block when they do not fit *)
Definition final_block (ctx : sha256_ctx) : outcome (list Z * list Z) :=
  let total_bits := u64 (count ctx * 8) in
  let buf_pos := count ctx mod 64 in
  bf ← fill (buf ctx) (Z.to_nat buf_pos) 0x80 1;
  let buf_pos := buf_pos + 1 in
  '(st, bf, buf_pos) ←
    (if 56 <? buf_pos
     then bf ← fill bf (Z.to_nat buf_pos) 0 (Z.to_nat (64 - buf_pos));
          st ← sha256_transform (state ctx) bf; Ok (st, bf, 0)
     else Ok (state ctx, bf, buf_pos));
  bf ← fill bf (Z.to_nat buf_pos) 0 (Z.to_nat (56 - buf_pos));
  bf ← for_up 8 0 (fun i bf => fill bf (Z.to_nat (56 + i)) (u8 (Z.shiftr total_bits (56 - i * 8))) 1) bf;
  Ok (st, bf).

(** sha256.c: sha256_final; the answer is the digest and the context left *)
Definition sha256_final (ctx : sha256_ctx) : outcome (list Z * sha256_ctx) :=
  '(st, bf) ← final_block ctx;
  st ← sha256_transform st bf;
  digest ← for_up 8 0 (fun i dg =>
    s ← at_ st i;
    Ok (dg ++ [u8 (Z.shiftr s 24); u8 (Z.shiftr s 16); u8 (Z.shiftr s 8); u8 (Z.shiftr s 0)])) [];
  Ok (digest, Sha256Ctx st (count ctx) bf).

(** sha256.c: sha256_iter_next.  [fresh] is what [kheap_alloc] answers for a
    context: NULL, or a context of any content. *)
Definition sha256_iter_next (fresh ctx : option sha256_ctx) (data : list Z) (len : Z)
  : outcome (option sha256_ctx) :=
  match ctx with
  | Some c => c ← sha256_update c data len; Ok (Some c)
  | None =>
      match fresh with
      | None => Ok None
      | Some c => c ← sha256_update (sha256_init c) data len; Ok (Some c)
      end
  end.

(** sha256.c: sha256_iter_fin; [None] when the digest is not written *)
Definition sha256_iter_fin (ctx : option sha256_ctx) : outcome (option (list Z)) :=
  match ctx with
  | Some c => '(digest, _) ← sha256_final c; Ok (Some digest)
  | None => Ok None
  end.

(** sha256.c: sha256; [ctx] is the uninitialised local variable *)
Definition sha256 (ctx : sha256_ctx) (data : list Z) (len : Z) : outcome (list Z) :=
  ctx ← sha256_update (sha256_init ctx) data len;
  '(digest, _) ← sha256_final ctx;
  Ok digest.

(** ** The reference: FIPS 180-4

    The constants come from their definition in the standard, the roots of the
    first primes, and the functions are written out again: nothing of the code
    is used. *)

(** The first [n] primes from [p] on, by trial division. *)
Definition is_prime (p : Z) : bool := forallb (fun d => negb (p mod d =? 0)) (seqZ 2 (p - 2)).
Definition primes (n : nat) : list Z := take n (filter (fun p => is_prime p = true) (seqZ 2 310)).

(** The largest [r] below [2 ^ n] with [r ^ e <= x]. *)
Fixpoint root (e : Z) (n : nat) (r x : Z) : Z :=
  match n with
  | O => r
  | S n => let r' := r + 2 ^ Z.of_nat n in root e n (if r' ^ e <=? x then r' else r) x
  end.

(** The first 32 bits of the fractional parts of the [e]-th roots of primes. *)
Definition root_bits (e p : Z) : Z := root e 40 0 (p * 2 ^ (32 * e)) mod 2 ^ 32.
Definition fips_k : list Z := root_bits 3 <$> primes 64.
Definition fips_iv : list Z := root_bits 2 <$> primes 8.

(** Section 2.2.2 and equations 4.2 to 4.7, on words of 32 bits. *)
Definition ROTR (n x : Z) : Z := Z.lor (Z.shiftr x n) ((Z.shiftl x (32 - n)) mod 2 ^ 32).
Definition NOT (x : Z) : Z := (-1 - x) mod 2 ^ 32.
Definition Ch (x y z : Z) : Z := Z.lxor (Z.land x y) (Z.land (NOT x) z).
Definition Maj (x y z : Z) : Z := Z.lxor (Z.lxor (Z.land x y) (Z.land x z)) (Z.land y z).
Definition Sigma0 (x : Z) : Z := Z.lxor (Z.lxor (ROTR 2 x) (ROTR 13 x)) (ROTR 22 x).
Definition Sigma1 (x : Z) : Z := Z.lxor (Z.lxor (ROTR 6 x) (ROTR 11 x)) (ROTR 25 x).
Definition sigma0 (x : Z) : Z := Z.lxor (Z.lxor (ROTR 7 x) (ROTR 18 x)) (Z.shiftr x 3).
Definition sigma1 (x : Z) : Z := Z.lxor (Z.lxor (ROTR 17 x) (ROTR 19 x)) (Z.shiftr x 10).

(** A big-endian word, and word [t] of a block. *)
Definition be_word (b : list Z) : Z := fold_left (fun a x => 256 * a + x) b 0.
Definition M_word (block : list Z) (t : nat) : Z := be_word (take 4 (drop (4 * t) block)).

(** The message schedule: the first [n] of the words W_0, W_1, ... *)
Definition next_word (block ws : list Z) (t : nat) : Z :=
  if decide (t < 16)%nat then M_word block t
  else u32 (sigma1 (nth (t - 2) ws 0) + nth (t - 7) ws 0 +
            sigma0 (nth (t - 15) ws 0) + nth (t - 16) ws 0).
Fixpoint schedule (block : list Z) (n : nat) : list Z :=
  match n with
  | O => []
  | S t => schedule block t ++ [next_word block (schedule block t) t]
  end.

Definition round_ref (w : list Z) (r : regs) (t : nat) : regs :=
  let '(a, b, c, d, e, f, g, h) := r in
  let t1 := u32 (h + Sigma1 e + Ch e f g + nth t fips_k 0 + nth t w 0) in
  let t2 := u32 (Sigma0 a + Maj a b c) in
  (u32 (t1 + t2), a, b, c, u32 (d + t1), e, f, g).

Definition add_state (st : list Z) (r : regs) : list Z :=
  let '(a, b, c, d, e, f, g, h) := r in
  zip_with (fun s x => u32 (s + x)) st [a; b; c; d; e; f; g; h].

Definition regs_of (st : list Z) : regs :=
  (nth 0 st 0, nth 1 st 0, nth 2 st 0, nth 3 st 0, nth 4 st 0, nth 5 st 0, nth 6 st 0, nth 7 st 0).

(** The compression function. *)
Definition compress (st block : list Z) : list Z :=
  add_state st (fold_left (round_ref (schedule block 64)) (seq 0 64) (regs_of st)).

(** Folding the first [n] blocks of a message into a state. *)
Fixpoint hash_blocks (n : nat) (st msg : list Z) : list Z :=
  match n with
  | O => st
  | S n => hash_blocks n (compress st (take 64 msg)) (drop 64 msg)
  end.

(** Big-endian bytes of a word of [n] bytes. *)
Definition be_bytes (n : nat) (x : Z) : list Z :=
  (fun i => (x / 2 ^ (8 * (Z.of_nat n - 1 - i))) mod 256) <$> seqZ 0 (Z.of_nat n).

(** The padding: a one bit, zeros up to 448 mod 512 bits, the length in bits. *)
Definition padding (len : nat) : list Z :=
  [128] ++ replicate (Z.to_nat ((55 - Z.of_nat len) mod 64)) 0 ++ be_bytes 8 (8 * Z.of_nat len).

Definition sha256_ref (msg : list Z) : list Z :=
  let p := msg ++ padding (length msg) in
  hash_blocks (length p / 64) fips_iv p ≫= be_bytes 4.

(** ** The compression function implements the reference *)

(** [root] is the integer root. *)
Lemma root_spec e n r x : 0 < e -> 0 <= r -> r ^ e <= x < (r + 2 ^ Z.of_nat n) ^ e -> root e n r x ^ e <= x < (root e n r x + 1) ^ e.
Proof.
  intros He. revert r. induction n as [|n IH]; intros r Hr Hx; cbn [root]; [exact Hx|].
  assert (2 ^ Z.of_nat (S n) = 2 ^ Z.of_nat n + 2 ^ Z.of_nat n) as E by (rewrite Nat2Z.inj_succ, Z.pow_succ_r by lia; lia). rewrite E in Hx. pose proof (Z.pow_pos_nonneg 2 (Z.of_nat n)).
  destruct (Z.leb_spec ((r + 2 ^ Z.of_nat n) ^ e) x); apply IH; [lia|split; [done|]|done|lia]. rewrite <- Z.add_assoc. lia.
Qed.

Lemma sha256_k_fips : sha256_k = fips_k.
Proof. vm_compute. reflexivity. Qed.
Lemma sha256_iv_fips : sha256_iv = fips_iv.
Proof. vm_compute. reflexivity. Qed.

Lemma ch_fips x y z : sha256_ch x y z = Ch x y z.
Proof. unfold sha256_ch, Ch, cnot, NOT, wrap, Z.lnot. by replace (Z.pred (- x)) with (-1 - x) by lia. Qed.
Lemma at_Ok l i x : l !! Z.to_nat i = Some x -> at_ l i = Ok x.
Proof. intros E. unfold at_. by rewrite E. Qed.

Lemma at_nth l i : (Z.to_nat i < length l)%nat -> at_ l i = Ok (nth (Z.to_nat i) l 0).
Proof.
  intros Hi. apply at_Ok. destruct (lookup_lt_is_Some_2 _ _ Hi) as [x E].
  rewrite E. f_equal. symmetry. by apply nth_lookup_Some.
Qed.

Lemma shiftl_lor_add a b k : 0 <= k -> fits k b -> Z.lor (Z.shiftl a k) b = a * 2 ^ k + b.
Proof.
  intros Hk Hb. pose proof (Z.add_lor_land (Z.shiftl a k) b) as E.
  assert (Z.land (Z.shiftl a k) b = 0) as E0.
  { apply Z.bits_inj'. intros i Hi. rewrite Z.land_spec, Z.bits_0, Z.shiftl_spec by done.
    destruct (Z.ltb_spec i k).
    - by rewrite Z.testbit_neg_r by lia.
    - rewrite (fits_testbit k b) by (done || lia). apply andb_false_r. }
  rewrite E0 in E. rewrite Z.shiftl_mul_pow2 in * by done. lia.
Qed.

Lemma word_lor a b c d : fits 8 a -> fits 8 b -> fits 8 c -> fits 8 d ->
  Z.lor (Z.lor (Z.lor (Z.shiftl a 24) (Z.shiftl b 16)) (Z.shiftl c 8)) (Z.shiftl d 0) = be_word [a; b; c; d].
Proof.
  intros Ha Hb Hc Hd. rewrite Z.shiftl_0_r.
  replace (Z.shiftl a 24) with (Z.shiftl (Z.shiftl (Z.shiftl a 8) 8) 8) by (by rewrite !Z.shiftl_shiftl).
  replace (Z.shiftl b 16) with (Z.shiftl (Z.shiftl b 8) 8) by (by rewrite !Z.shiftl_shiftl).
  rewrite <- !Z.shiftl_lor, !shiftl_lor_add by (done || lia).
  unfold be_word. cbn [fold_left]. lia.
Qed.

Lemma take4 (l : list Z) n : (n + 4 <= length l)%nat ->
  exists a b c d, take 4 (drop n l) = [a; b; c; d] /\
    l !! n = Some a /\ l !! (n + 1)%nat = Some b /\ l !! (n + 2)%nat = Some c /\ l !! (n + 3)%nat = Some d.
Proof.
  intros Hn. rewrite <- (lookup_drop l n 1), <- (lookup_drop l n 2), <- (lookup_drop l n 3).
  replace (l !! n) with (drop n l !! 0%nat) by (rewrite lookup_drop; f_equal; lia).
  assert (4 <= length (drop n l))%nat as Hl by (rewrite length_drop; lia).
  destruct (drop n l) as [|a [|b [|c [|d l']]]]; cbn in Hl; try lia. by exists a, b, c, d.
Qed.

Lemma schedule_length block n : length (schedule block n) = n.
Proof. induction n as [|n IH]; [done|]. cbn [schedule]. rewrite length_app, IH. cbn. lia. Qed.

Lemma load_block_spec block : length block = 64%nat -> Forall (fits 8) block ->
  load_block block = Ok (schedule block 16).
Proof.
  intros Hl Hf. unfold load_block.
  destruct (for_up_inv (fun k w => w = schedule block (Z.to_nat k)) 16 0
    (fun i w =>
      b0 ← at_ block (i * 4 + 0); b1 ← at_ block (i * 4 + 1);
      b2 ← at_ block (i * 4 + 2); b3 ← at_ block (i * 4 + 3);
      Ok (w ++ [Z.lor (Z.lor (Z.lor (Z.shiftl b0 24) (Z.shiftl b1 16)) (Z.shiftl b2 8)) (Z.shiftl b3 0)])) [])
    as (w & E & Hw); [done| |by rewrite E, Hw].
  intros k w Hk ->. destruct (take4 block (4 * Z.to_nat k)) as (a & b & c & d & E & Ea & Eb & Ec & Ed); [lia|].
  rewrite (at_Ok block (k * 4 + 0) a) by (rewrite <- Ea; f_equal; lia).
  rewrite (at_Ok block (k * 4 + 1) b) by (rewrite <- Eb; f_equal; lia).
  rewrite (at_Ok block (k * 4 + 2) c) by (rewrite <- Ec; f_equal; lia).
  rewrite (at_Ok block (k * 4 + 3) d) by (rewrite <- Ed; f_equal; lia).
  cbn [mbind outcome_bind]. eexists. split; [done|].
  rewrite word_lor by (eapply Forall_lookup_1; [exact Hf|eassumption]).
  replace (Z.to_nat (k + 1)) with (S (Z.to_nat k)) by lia. cbn [schedule]. unfold next_word.
  rewrite decide_True by lia. unfold M_word. by rewrite E.
Qed.

Lemma extend_words_spec block : extend_words (schedule block 16) = Ok (schedule block 64).
Proof.
  unfold extend_words.
  destruct (for_up_inv (fun k w => w = schedule block (Z.to_nat k)) 48 16
    (fun i w =>
      w2 ← at_ w (i - 2); w7 ← at_ w (i - 7); w15 ← at_ w (i - 15); w16 ← at_ w (i - 16);
      Ok (w ++ [u32 (sha256_gamma1 w2 + w7 + sha256_gamma0 w15 + w16)])) (schedule block 16))
    as (w & E & Hw); [done| |by rewrite E, Hw].
  intros k w Hk ->. rewrite !at_nth by (rewrite schedule_length; lia).
  cbn [mbind outcome_bind]. eexists. split; [done|].
  replace (Z.to_nat (k + 1)) with (S (Z.to_nat k)) by lia. cbn [schedule]. unfold next_word.
  rewrite decide_False by lia. rewrite !Z2Nat.inj_sub by lia. done.
Qed.

Lemma round_spec k w r : (k < 64)%nat -> length w = 64%nat ->
  round (0 + Z.of_nat k) w r = Ok (round_ref w r k).
Proof.
  intros Hk Hw. destruct r as [[[[[[[a b] c] d] e] f] g] h]. unfold round.
  rewrite !at_nth by (rewrite ?Hw; cbn [length sha256_k]; lia).
  cbn [mbind outcome_bind]. rewrite Z.add_0_l, Nat2Z.id, ch_fips, sha256_k_fips. done.
Qed.

Lemma sha256_transform_spec st block :
  length st = 8%nat -> length block = 64%nat -> Forall (fits 8) block ->
  sha256_transform st block = Ok (compress st block).
Proof.
  intros Hs Hl Hf. unfold sha256_transform. rewrite load_block_spec, Ok_bind by done.
  rewrite extend_words_spec, Ok_bind.
  unfold compress. pose proof (schedule_length block 64) as Hw. revert Hw.
  generalize (schedule block 64) as w. intros w Hw.
  destruct st as [|s0 [|s1 [|s2 [|s3 [|s4 [|s5 [|s6 [|s7 [|]]]]]]]]]; try discriminate Hs.
  rewrite (for_up_fold 64 0 _ (fun k r => round_ref w r k)).
  - rewrite Ok_bind. unfold regs_of. cbn [nth].
    destruct (fold_left _ _ _) as [[[[[[[a b] c] d] e] f] g] h]. reflexivity.
  - intros k r Hk. by apply round_spec.
Qed.

Lemma compress_length st block : length st = 8%nat -> length (compress st block) = 8%nat.
Proof.
  intros Hs. unfold compress. destruct (fold_left _ _ _) as [[[[[[[a b] c] d] e] f] g] h].
  unfold add_state. rewrite length_zip_with, Hs. done.
Qed.

(** ** The buffer and the stream *)

#[local] Opaque compress.

(** The buffer starts with [l]; what follows is of no interest. *)
Definition starts (bf l : list Z) : Prop :=
  length bf = 64%nat /\ Forall (fits 8) bf /\ take (length l) bf = l /\ (length l <= 64)%nat.

Lemma starts_full bf l : starts bf l -> length l = 64%nat -> bf = l.
Proof. intros (H1 & _ & H2 & _) Hl. rewrite <- H2, Hl, take_ge by lia. done. Qed.

Lemma starts_nil bf : length bf = 64%nat -> Forall (fits 8) bf -> starts bf [].
Proof. intros. repeat split; cbn; try done. lia. Qed.

Lemma blit_spec bf l src soff n : starts bf l -> (length l + n <= 64)%nat ->
  (soff + n <= length src)%nat -> Forall (fits 8) src ->
  exists bf', blit bf (length l) src soff n = Ok bf' /\ starts bf' (l ++ take n (drop soff src)).
Proof.
  intros (H1 & H2 & H3 & H4) Hn Hs Hf. unfold blit. rewrite decide_True by lia.
  rewrite H3. eexists. split; [done|].
  assert (length (take n (drop soff src)) = n) as Hc by (rewrite length_take, length_drop; lia).
  split_and!.
  - rewrite !length_app, Hc, length_drop. lia.
  - apply Forall_app_2; [|apply Forall_app_2].
    + rewrite <- H3. by apply Forall_take.
    + by apply Forall_take, Forall_drop.
    + by apply Forall_drop.
  - rewrite app_assoc, length_app, Hc, take_app_le, take_ge; rewrite ?length_app; lia || done.
  - rewrite length_app, Hc. lia.
Qed.

Lemma fill_spec bf l v n : starts bf l -> (length l + n <= 64)%nat -> fits 8 v ->
  exists bf', fill bf (length l) v n = Ok bf' /\ starts bf' (l ++ replicate n v).
Proof.
  intros Hl Hn Hv. unfold fill.
  destruct (blit_spec bf l (replicate n v) 0 n) as (bf' & E & Hs);
    [done|done|rewrite length_replicate; lia|by apply Forall_replicate|].
  exists bf'. split; [done|]. by rewrite drop_0, take_ge in Hs by (rewrite length_replicate; lia).
Qed.

Lemma hash_blocks_S n st m :
  hash_blocks (S n) st m = compress (hash_blocks n st m) (take 64 (drop (64 * n) m)).
Proof.
  revert st m. induction n as [|n IH]; intros st m; [cbn [hash_blocks]; by rewrite Nat.mul_0_r, drop_0|].
  change (hash_blocks (S (S n)) st m) with (hash_blocks (S n) (compress st (take 64 m)) (drop 64 m)).
  rewrite IH. cbn [hash_blocks]. rewrite drop_drop.
  by replace (64 + 64 * n)%nat with (64 * S n)%nat by lia.
Qed.

Lemma hash_blocks_app n st m m' : (64 * n <= length m)%nat ->
  hash_blocks n st (m ++ m') = hash_blocks n st m.
Proof.
  revert st m. induction n as [|n IH]; intros st m Hl; [done|]. cbn [hash_blocks].
  rewrite take_app_le, drop_app_le, IH by (rewrite ?length_drop; lia). done.
Qed.

Lemma hash_blocks_length n st m : length st = 8%nat -> length (hash_blocks n st m) = 8%nat.
Proof. revert st m. induction n as [|n IH]; intros st m Hs; [done|]. by apply IH, compress_length. Qed.

(** The state words and the buffer stand for the message [m]: its whole
    blocks are hashed and the rest is at the start of the buffer. *)
Definition absorbed (st bf m : list Z) : Prop :=
  st = hash_blocks (length m / 64) fips_iv m /\ starts bf (drop (64 * (length m / 64)) m).

Lemma rest_length (m : list Z) : length (drop (64 * (length m / 64)) m) = (length m mod 64)%nat.
Proof. rewrite length_drop. pose proof (Nat.div_mod (length m) 64). lia. Qed.

Lemma absorbed_state st bf m : absorbed st bf m -> length st = 8%nat.
Proof. intros [-> _]. by apply hash_blocks_length. Qed.

(** The next bytes fit in the buffer without filling it. *)
Lemma absorb_part st bf bf' m c : absorbed st bf m -> (length m mod 64 + length c < 64)%nat ->
  starts bf' (drop (64 * (length m / 64)) m ++ c) -> absorbed st bf' (m ++ c).
Proof.
  intros [-> Hb] Hc Hs. pose proof (Nat.div_mod (length m) 64) as D.
  assert (length (m ++ c) / 64 = length m / 64)%nat as E.
  { rewrite length_app. symmetry. apply (Nat.div_unique _ _ _ (length m mod 64 + length c)); lia. }
  split; rewrite E.
  - rewrite hash_blocks_app by lia. done.
  - by rewrite drop_app_le by lia.
Qed.

(** The next bytes complete a block. *)
Lemma absorb_block st bf bf' m c : absorbed st bf m -> (length m mod 64 + length c = 64)%nat ->
  starts bf' (drop (64 * (length m / 64)) m ++ c) ->
  exists st', sha256_transform st bf' = Ok st' /\ absorbed st' bf' (m ++ c) /\
    (length (m ++ c) mod 64 = 0)%nat.
Proof.
  intros Ha Hc Hs. pose proof Ha as [-> Hb]. pose proof (Nat.div_mod (length m) 64) as D.
  pose proof (starts_full _ _ Hs ltac:(rewrite length_app, rest_length; lia)) as Ebf.
  destruct Hs as (H1 & H2 & _ & _).
  assert (length (m ++ c) = 64 * S (length m / 64) + 0)%nat as L by (rewrite length_app; lia).
  assert (length (m ++ c) / 64 = S (length m / 64))%nat as E
    by (symmetry; apply (Nat.div_unique _ _ _ 0); lia).
  eexists. split; [|split].
  - apply sha256_transform_spec; [by eapply absorbed_state|done|done].
  - split; rewrite E.
    + rewrite hash_blocks_S, hash_blocks_app by lia. f_equal.
      rewrite drop_app_le, Ebf, take_ge by (rewrite ?length_app, ?rest_length; lia). done.
    + rewrite drop_ge by lia. by apply starts_nil.
  - symmetry. apply (Nat.mod_unique _ _ (S (length m / 64))); lia.
Qed.

(** ** The operations *)

(** A context that has taken in the message [m]. *)
Definition represents (c : sha256_ctx) (m : list Z) : Prop :=
  absorbed (state c) (buf c) m /\ count c = u64 (Z.of_nat (length m)).

Lemma count_pos c m : represents c m -> count c mod 64 = Z.of_nat (length m mod 64).
Proof.
  intros [_ ->]. unfold wrap. rewrite Nat2Z.inj_mod, <- Znumtheory.Zmod_div_mod; try lia. by exists (2 ^ 58).
Qed.

Lemma sha256_init_represents c : length (buf c) = 64%nat -> Forall (fits 8) (buf c) ->
  represents (sha256_init c) [].
Proof. intros. split; [|done]. split; [done|]. by apply starts_nil. Qed.

(** One iteration of sha256_update. *)
Lemma update_step_spec data m st bf pos src len :
  Forall (fits 8) data -> 0 <= src -> 0 < len -> src + len <= Z.of_nat (length data) ->
  let seen := m ++ take (Z.to_nat src) data in
  absorbed st bf seen -> pos = Z.of_nat (length seen mod 64) ->
  exists st' bf' c, 0 < c <= len /\
    let seen' := m ++ take (Z.to_nat (src + c)) data in
    update_step data (st, bf, pos, src, len)
      = Ok (inl (st', bf', Z.of_nat (length seen' mod 64), src + c, len - c)) /\
    absorbed st' bf' seen'.
Proof.
  intros Hf H0 Hl Hle seen Ha Hp. unfold update_step. replace (len <=? 0) with false by lia.
  pose proof (Nat.mod_upper_bound (length seen) 64 ltac:(lia)) as Hlt.
  set (c := if len <? 64 - pos then len else 64 - pos). assert (0 < c <= len /\ c <= 64 - pos) as [Hc Hc'].
  { subst c. destruct (Z.ltb_spec len (64 - pos)); lia. }
  assert (m ++ take (Z.to_nat (src + c)) data = seen ++ take (Z.to_nat c) (drop (Z.to_nat src) data)) as Es.
  { subst seen. rewrite <- app_assoc. f_equal. rewrite Z2Nat.inj_add by lia. by rewrite take_take_drop. }
  assert (length (take (Z.to_nat c) (drop (Z.to_nat src) data)) = Z.to_nat c) as Lc
    by (rewrite length_take, length_drop; lia).
  pose proof Ha as [_ Hs]. pose proof (rest_length seen) as Lr.
  destruct (blit_spec bf _ data (Z.to_nat src) (Z.to_nat c) Hs) as (bf' & E & Hs'); [lia|lia|done|].
  rewrite Lr in E. replace (length seen mod 64)%nat with (Z.to_nat pos) in E by lia.
  rewrite E, Ok_bind. destruct (Z.eqb_spec (pos + c) 64) as [Hfull|Hpart].
  - destruct (absorb_block st bf bf' seen (take (Z.to_nat c) (drop (Z.to_nat src) data)) Ha)
      as (st' & -> & Ha' & Hm); [lia|done|].
    rewrite Ok_bind. exists st', bf', c. split; [done|]. rewrite Es, Hm. split; [done|]. done.
  - exists st, bf', c. split; [done|]. rewrite Es. split; [|by apply (absorb_part _ bf); [|lia|]].
    assert (length (seen ++ take (Z.to_nat c) (drop (Z.to_nat src) data)) mod 64
            = length seen mod 64 + Z.to_nat c)%nat as ->.
    { rewrite length_app, Lc, Nat.Div0.add_mod. rewrite (Nat.mod_small (Z.to_nat c)) by lia.
      apply Nat.mod_small. lia. }
    do 5 f_equal. lia.
Qed.

Lemma sha256_update_spec c m data : represents c m -> Forall (fits 8) data ->
  exists c', sha256_update c data (Z.of_nat (length data)) = Ok c' /\ represents c' (m ++ data).
Proof.
  intros Hr Hf. pose proof Hr as [Ha Hc]. unfold sha256_update.
  destruct (while_rule
    (fun '(st, bf, pos, src, len) => 0 <= src /\ 0 <= len /\ src + len = Z.of_nat (length data) /\
       absorbed st bf (m ++ take (Z.to_nat src) data) /\
       pos = Z.of_nat (length (m ++ take (Z.to_nat src) data) mod 64))
    (fun '(st, bf) => absorbed st bf (m ++ data))
    (fun '(_, _, _, _, len) => len)
    (S (Z.to_nat (Z.of_nat (length data)))) (update_step data)
    (state c, buf c, count c mod 64, 0, Z.of_nat (length data)))
    as ([st bf] & E & Hab).
  - rewrite take_0, app_nil_r. split_and!; try lia; [done|]. by apply count_pos.
  - lia.
  - intros [[[[st bf] pos] src] len]. lia.
  - intros [[[[st bf] pos] src] len] (H0 & Hl & Hsum & Hab & Hp). destruct (Z.leb_spec len 0) as [Hz|Hz].
    + right. exists (st, bf). unfold update_step. replace (len <=? 0) with true by lia. split; [done|].
      by rewrite take_ge in Hab by lia.
    + left. destruct (update_step_spec data m st bf pos src len) as (st' & bf' & k & Hk & E & Hab'); try done; [lia|].
      eexists. split; [exact E|]. cbn beta iota. split_and!; try lia; done.
  - rewrite E, Ok_bind. eexists. split; [done|]. split; [done|]. cbn [count].
    rewrite Hc, length_app, Nat2Z.inj_add. unfold wrap. by rewrite Z.add_mod_idemp_l.
Qed.

Lemma be_bytes_u8 n x i : 0 <= i < Z.of_nat n -> 0 <= x ->
  be_bytes n x !! Z.to_nat i = Some (u8 (Z.shiftr x (8 * (Z.of_nat n - 1 - i)))).
Proof.
  intros Hi Hx. unfold be_bytes. rewrite list_lookup_fmap, lookup_seqZ_lt by lia. cbn.
  rewrite Z.shiftr_div_pow2 by lia. unfold wrap. by replace (0 + Z.of_nat (Z.to_nat i)) with i by lia.
Qed.

(** The loop that stores the bit count. *)
Lemma store_length bf l x : starts bf l -> length l = 56%nat -> 0 <= x ->
  exists bf', for_up 8 0 (fun i bf => fill bf (Z.to_nat (56 + i)) (u8 (Z.shiftr x (56 - i * 8))) 1) bf = Ok bf' /\
    starts bf' (l ++ be_bytes 8 x).
Proof.
  intros Hs Hl Hx. assert (length (be_bytes 8 x) = 8%nat) as Lb by done.
  destruct (for_up_inv (fun k bf => starts bf (l ++ take (Z.to_nat k) (be_bytes 8 x))) 8 0
    (fun i bf => fill bf (Z.to_nat (56 + i)) (u8 (Z.shiftr x (56 - i * 8))) 1) bf) as (bf' & E & H).
  - by rewrite take_0, app_nil_r.
  - intros k b Hk Hb.
    assert (length (l ++ take (Z.to_nat k) (be_bytes 8 x)) = Z.to_nat (56 + k)) as Ll
      by (rewrite length_app, length_take, Lb; lia).
    destruct (fill_spec b _ (u8 (Z.shiftr x (56 - k * 8))) 1 Hb) as (b' & E & Hb');
      [lia|apply wrap_fits; lia|].
    rewrite Ll in E. exists b'. split; [done|].
    replace (Z.to_nat (k + 1)) with (S (Z.to_nat k)) by lia.
    erewrite take_S_r; [|apply be_bytes_u8; lia]. rewrite app_assoc.
    by replace (8 * (Z.of_nat 8 - 1 - k)) with (56 - k * 8) by lia.
  - exists bf'. split; [done|]. by rewrite take_ge in H by (rewrite Lb; lia).
Qed.

Lemma replicate_split (v : Z) a b : replicate (a + b) v = replicate a v ++ replicate b v.
Proof. induction a as [|a IH]; cbn; congruence. Qed.

(** The last block, and with it the whole padded message, is in the buffer. *)
Lemma final_block_spec c m : represents c m -> Z.of_nat (length m) < 2 ^ 61 ->
  exists st bf bf0 m0 t, final_block c = Ok (st, bf) /\ m ++ padding (length m) = m0 ++ t /\
    absorbed st bf0 m0 /\ (length m0 mod 64 + length t = 64)%nat /\
    starts bf (drop (64 * (length m0 / 64)) m0 ++ t).
Proof.
  intros Hr Hlen. pose proof Hr as [Ha Hc]. pose proof (count_pos c m Hr) as Hp.
  pose proof (Nat.mod_upper_bound (length m) 64 ltac:(lia)) as Hlt. pose proof Ha as [_ Hs].
  pose proof (rest_length m) as Lr. unfold final_block, padding. rewrite Hp, Hc.
  rewrite (wrap_small 64 (Z.of_nat (length m))), (wrap_small 64) by (unfold fits; lia).
  assert (((55 - Z.of_nat (length m)) mod 64 = (55 - Z.of_nat (length m mod 64)) mod 64)) as ->.
  { rewrite Nat2Z.inj_mod. by rewrite Zminus_mod_idemp_r. }
  set (r := (length m mod 64)%nat) in *. set (R := drop (64 * (length m / 64)) m) in *.
  destruct (fill_spec (buf c) R 0x80 1 Hs) as (b1 & E1 & H1); [lia|unfold fits; lia|].
  rewrite Lr in E1. rewrite Nat2Z.id, E1, Ok_bind.
  assert (length (R ++ replicate 1 128) = Z.to_nat (Z.of_nat r + 1)) as L1
    by (rewrite length_app; cbn [length replicate]; lia).
  destruct (Z.ltb_spec 56 (Z.of_nat r + 1)) as [Hbig|Hsmall].
  - (* the marker leaves no room for the length: one more block *)
    destruct (fill_spec b1 _ 0 (Z.to_nat (64 - (Z.of_nat r + 1))) H1) as (b2 & E2 & H2); [lia|unfold fits; lia|].
    rewrite L1 in E2. rewrite E2, Ok_bind. rewrite <- app_assoc in H2.
    set (c1 := replicate 1 128 ++ replicate (Z.to_nat (64 - (Z.of_nat r + 1))) 0) in *.
    assert (length c1 = Z.to_nat (64 - Z.of_nat r)) as Lc1.
    { subst c1. rewrite length_app, !length_replicate. lia. }
    destruct (absorb_block (state c) (buf c) b2 m c1 Ha) as (st & Et & Ha1 & Hm1); [lia|done|].
    rewrite Et, !Ok_bind. pose proof Ha1 as [_ H3].
    pose proof (rest_length (m ++ c1)) as L3. rewrite Hm1 in L3. apply nil_length_inv in L3. rewrite L3 in H3.
    destruct (fill_spec b2 [] 0 56 H3) as (b3 & E3 & H4); [cbn [length]; lia|unfold fits; lia|].
    cbn [length] in E3. change (Z.to_nat (56 - 0)) with 56%nat. change (Z.to_nat 0) with 0%nat. rewrite E3, Ok_bind.
    destruct (store_length b3 ([] ++ replicate 56 0) (Z.of_nat (length m) * 8) H4) as (b4 & E4 & H5); [done|lia|].
    rewrite E4, Ok_bind. exists st, b4, b2, (m ++ c1), (replicate 56 0 ++ be_bytes 8 (8 * Z.of_nat (length m))).
    split; [done|]. split_and!.
    + subst c1. rewrite <- !app_assoc. change [128] with (replicate 1 128). do 2 f_equal. rewrite app_assoc. f_equal.
      rewrite <- replicate_split. f_equal. dlia.
    + done.
    + rewrite Hm1, length_app, length_replicate. done.
    + rewrite L3. by rewrite Z.mul_comm in H5.
  - rewrite Ok_bind.
    destruct (fill_spec b1 _ 0 (Z.to_nat (56 - (Z.of_nat r + 1))) H1) as (b3 & E3 & H3); [lia|unfold fits; lia|].
    rewrite L1 in E3. rewrite E3, Ok_bind.
    destruct (store_length b3 _ (Z.of_nat (length m) * 8) H3) as (b4 & E4 & H5);
      [rewrite length_app, L1, length_replicate; lia|lia|].
    rewrite E4, Ok_bind. rewrite <- !app_assoc in H5.
    eexists (state c), b4, (buf c), m, _. split; [done|]. split; [reflexivity|]. split; [done|].
    replace (Z.to_nat (56 - (Z.of_nat r + 1))) with (Z.to_nat ((55 - Z.of_nat r) mod 64)) in H5 by (f_equal; dlia).
    split; [|by rewrite Z.mul_comm in H5].
    rewrite !length_app, length_replicate. change (length (be_bytes 8 _)) with 8%nat. cbn [length].
    fold r. dlia.
Qed.

(** The digest is the big-endian concatenation of the state words. *)
Lemma digest_spec st : length st = 8%nat ->
  for_up 8 0 (fun i dg =>
    s ← at_ st i;
    Ok (dg ++ [u8 (Z.shiftr s 24); u8 (Z.shiftr s 16); u8 (Z.shiftr s 8); u8 (Z.shiftr s 0)])) []
  = Ok (st ≫= be_bytes 4).
Proof.
  intros Hl.
  destruct (for_up_inv (fun k dg => dg = take (Z.to_nat k) st ≫= be_bytes 4) 8 0
    (fun i dg => s ← at_ st i;
      Ok (dg ++ [u8 (Z.shiftr s 24); u8 (Z.shiftr s 16); u8 (Z.shiftr s 8); u8 (Z.shiftr s 0)])) [])
    as (dg & E & H); [done| |].
  - intros k dg Hk ->. destruct (lookup_lt_is_Some_2 st (Z.to_nat k)) as [s Es]; [lia|].
    rewrite (at_Ok _ _ s Es), Ok_bind. eexists. split; [done|].
    replace (Z.to_nat (k + 1)) with (S (Z.to_nat k)) by lia.
    rewrite (take_S_r _ _ _ Es), bind_app. f_equal. cbn [mbind list_bind]. rewrite app_nil_r.
    rewrite !Z.shiftr_div_pow2 by lia. done.
  - by rewrite E, H, take_ge by lia.
Qed.

Lemma sha256_final_spec c m : represents c m -> Z.of_nat (length m) < 2 ^ 61 ->
  exists c', sha256_final c = Ok (sha256_ref m, c').
Proof.
  intros Hr Hlen. destruct (final_block_spec c m Hr Hlen) as (st & bf & bf0 & m0 & t & E & Em & Ha & Hl & Hs).
  unfold sha256_final. rewrite E, Ok_bind.
  destruct (absorb_block st bf0 bf m0 t Ha Hl Hs) as (st' & -> & Ha' & _). rewrite Ok_bind.
  rewrite digest_spec, Ok_bind by (by eapply absorbed_state).
  eexists. unfold sha256_ref. rewrite Em. destruct Ha' as [-> _]. done.
Qed.

(** Feeding the chunks of a message one after the other and finishing. *)
Definition hash_stream (fresh : sha256_ctx) (chunks : list (list Z)) : outcome (option (list Z)) :=
  c ← for_each chunks (fun d c => sha256_iter_next (Some fresh) c d (Z.of_nat (length d))) None;
  sha256_iter_fin c.

Lemma stream_represents fresh chunks : length (buf fresh) = 64%nat -> Forall (fits 8) (buf fresh) ->
  Forall (Forall (fits 8)) chunks -> chunks <> [] ->
  exists c, for_each chunks (fun d c => sha256_iter_next (Some fresh) c d (Z.of_nat (length d))) None = Ok (Some c) /\
    represents c (concat chunks).
Proof.
  intros Hl Hf Hc Hne.
  destruct (for_each_inv
    (fun seen c => match c with Some c => represents c (concat seen) | None => seen = [] end)
    (fun d c => sha256_iter_next (Some fresh) c d (Z.of_nat (length d))) chunks None) as (c & E & H).
  - done.
  - intros seen d c Hs Hd. pose proof (proj1 (Forall_forall _ _) Hc d Hd) as Hd'.
    assert (exists c0 c1, sha256_iter_next (Some fresh) c d (Z.of_nat (length d)) = Ok (Some c1) /\
      represents c0 (concat seen) /\ sha256_update c0 d (Z.of_nat (length d)) = Ok c1 /\
      represents c1 (concat seen ++ d)) as (c0 & c1 & E1 & _ & _ & H1).
    { destruct c as [c|].
      - destruct (sha256_update_spec c _ d Hs Hd') as (c1 & E1 & H1). exists c, c1. cbn [sha256_iter_next]. by rewrite E1.
      - subst seen. pose proof (sha256_init_represents fresh Hl Hf) as Hi.
        destruct (sha256_update_spec _ _ d Hi Hd') as (c1 & E1 & H1). exists (sha256_init fresh), c1. cbn [sha256_iter_next]. by rewrite E1. }
    rewrite E1. eexists. split; [done|]. rewrite concat_app. cbn [concat]. by rewrite app_nil_r.
  - destruct c as [c|]; [|by subst chunks]. exists c. done.
Qed.

(** C30: SHA-256 is the function of FIPS 180-4, however the message is cut: a
    message below 2^61 bytes fed to sha256_iter_next in any sequence of
    chunks (of any sizes, empty ones included) and finished with
    sha256_iter_fin gives the digest of the reference, whatever the freshly
    allocated context held; the one-shot sha256 gives the same digest. *)
Theorem sha256_correct fresh chunks :
  length (buf fresh) = 64%nat -> Forall (fits 8) (buf fresh) ->
  Forall (Forall (fits 8)) chunks -> chunks <> [] ->
  Z.of_nat (length (concat chunks)) < 2 ^ 61 ->
  hash_stream fresh chunks = Ok (Some (sha256_ref (concat chunks))) /\
  sha256 fresh (concat chunks) (Z.of_nat (length (concat chunks))) = Ok (sha256_ref (concat chunks)).
Proof.
  intros Hl Hf Hc Hne Hlen. split.
  - destruct (stream_represents fresh chunks) as (c & E & Hr); try done. unfold hash_stream. rewrite E, Ok_bind.
    cbn [sha256_iter_fin]. destruct (sha256_final_spec c _ Hr Hlen) as (c' & ->). done.
  - unfold sha256. pose proof (sha256_init_represents fresh Hl Hf) as Hi.
    destruct (sha256_update_spec _ _ (concat chunks) Hi) as (c & -> & Hr).
    { clear -Hc. induction Hc as [|d l Hd _ IH]; cbn; [constructor|]. by apply Forall_app_2. }
    rewrite Ok_bind. destruct (sha256_final_spec c _ Hr Hlen) as (c' & ->). done.
Qed.

(** The context is an object of the heap with leftovers in its buffer. *)
Definition demo_ctx : sha256_ctx := Sha256Ctx [] 77 (replicate 64 165).

Lemma sha256_correct_witness :
  hash_stream demo_ctx [[97; 98]; []; [99]] = Ok (Some (sha256_ref [97; 98; 99])) /\
  sha256 demo_ctx [97; 98; 99] 3 = Ok (sha256_ref [97; 98; 99]).
Proof.
  apply (sha256_correct demo_ctx [[97; 98]; []; [99]]); [done| | |done|done].
  - apply Forall_replicate. unfold fits. lia.
  - repeat constructor; unfold fits; lia.
Defined.

(** The digest of "abc" in FIPS 180-4. *)
Example sha256_abc :
  hash_stream demo_ctx [[97; 98]; []; [99]] =
  Ok (Some [0xba; 0x78; 0x16; 0xbf; 0x8f; 0x01; 0xcf; 0xea; 0x41; 0x41; 0x40; 0xde; 0x5d; 0xae; 0x22; 0x23;
            0xb0; 0x03; 0x61; 0xa3; 0x96; 0x17; 0x7a; 0x9c; 0xb4; 0x10; 0xff; 0x61; 0xf2; 0x00; 0x15; 0xad]).
Proof. vm_compute. reflexivity. Qed.
