(* ===== verification/Buddy.v ===== *)
(** * The physical page allocator (kernel/mm/buddy.c): model

    The state is what buddy.c keeps in its statics: [max_pfn], the three zones
    with their sixteen free lists each, and the [mem_block] array with one
    descriptor per page frame.  The free lists of the code are intrusive
    doubly linked lists whose nodes are the first bytes of the free pages; here
    a list is the sequence of the frame numbers of its nodes, first node
    first (ListHead.v relates pointer lists to such sequences).  Memory
    contents are a word-addressed store, used for the clearing done by
    [pmm_alloc_pages].

    Both locks of the code are held for the whole body of every operation, so
    an operation is one atomic state transformer.  A frame number outside the
    descriptor array is a [Fault]; [PMM_PANIC] is [Panic]. *)

From S2P Require Import Prelude Bitmap.

Local Open Scope Z_scope.

(** mm/pmm.h *)
Definition ZONE_DMA : Z := 0.
Definition ZONE_DMA32 : Z := 1.
Definition ZONE_NORMAL : Z := 2.
Definition MAX_ORDER : Z := 16.
Definition PAGE_SIZE : Z := 4096.
Definition PAGE_SHIFT : Z := 12.

(** arch/x86_64/include/asm/mm_addr.h *)
Definition LINEAR_MAP_START : Z := 0xffff808000000000.
Definition PHYS_TO_LINEAR (pa : Z) : Z := u64 (pa + LINEAR_MAP_START).
Definition LINEAR_TO_PHYS (va : Z) : Z := u64 (va - LINEAR_MAP_START).

(** mm/pmm_types.h: mem_block_t *)
Record mem_block_t := MemBlock {
  is_head : bool;
  is_free : bool;
  flags : Z;
  order : Z;
  zone : Z;
  map_count : Z;
  ref_count : Z;
  on_pte_ptr : Z
}.

(** mm/pmm_types.h: zone_t, without the lock, the padding and the lists *)
Record zone_t := Zone { start_pfn : Z; end_pfn : Z }.

(** The free lists: (zone, order) to the frames of the list. *)
Abbreviation free_areas_t := (gmap (Z * Z) (list Z)).
Abbreviation blocks_t := (gmap Z mem_block_t).

(** The statics of buddy.c once [mem_block] exists. *)
Record pmm := Pmm {
  max_pfn : Z;
  zones : gmap Z zone_t;
  free_areas : free_areas_t;
  blocks : blocks_t;
  words : gmap Z Z
}.

Definition set_free_areas (s : pmm) (fa : free_areas_t) : pmm :=
  Pmm (max_pfn s) (zones s) fa (blocks s) (words s).
Definition set_blocks (s : pmm) (m : blocks_t) : pmm :=
  Pmm (max_pfn s) (zones s) (free_areas s) m (words s).
Definition set_words (s : pmm) (w : gmap Z Z) : pmm :=
  Pmm (max_pfn s) (zones s) (free_areas s) (blocks s) w.

(** Field updates of a descriptor; the bit-fields keep their width. *)
Definition with_head (b : mem_block_t) (v : bool) : mem_block_t :=
  MemBlock v (is_free b) (flags b) (order b) (zone b) (map_count b) (ref_count b) (on_pte_ptr b).
Definition with_free (b : mem_block_t) (v : bool) : mem_block_t :=
  MemBlock (is_head b) v (flags b) (order b) (zone b) (map_count b) (ref_count b) (on_pte_ptr b).
Definition with_order (b : mem_block_t) (v : Z) : mem_block_t :=
  MemBlock (is_head b) (is_free b) (flags b) (wrap 5 v) (zone b) (map_count b) (ref_count b) (on_pte_ptr b).
Definition with_zone (b : mem_block_t) (v : Z) : mem_block_t :=
  MemBlock (is_head b) (is_free b) (flags b) (order b) (wrap 3 v) (map_count b) (ref_count b) (on_pte_ptr b).
Definition with_map_count (b : mem_block_t) (v : Z) : mem_block_t :=
  MemBlock (is_head b) (is_free b) (flags b) (order b) (zone b) (u16 v) (ref_count b) (on_pte_ptr b).
Definition with_ref_count (b : mem_block_t) (v : Z) : mem_block_t :=
  MemBlock (is_head b) (is_free b) (flags b) (order b) (zone b) (map_count b) (u32 v) (on_pte_ptr b).
Definition with_on_pte_ptr (b : mem_block_t) (v : Z) : mem_block_t :=
  MemBlock (is_head b) (is_free b) (flags b) (order b) (zone b) (map_count b) (ref_count b) (u64 v).

(** [mem_block->blocks[pfn]] and its update *)
Definition get_block (m : blocks_t) (pfn : Z) : outcome mem_block_t := deref (m !! pfn).
Definition upd_block (m : blocks_t) (pfn : Z) (f : mem_block_t -> mem_block_t) : outcome blocks_t :=
  b ← get_block m pfn; Ok (<[pfn := f b]> m).

(** [for (i = 0; i < n; i++) blocks[pfn + i] = f(i, blocks[pfn + i])] *)
Definition upd_pages (m : blocks_t) (pfn n : Z) (f : Z -> mem_block_t -> mem_block_t)
  : outcome blocks_t :=
  for_up (Z.to_nat n) 0 (fun i m => upd_block m (pfn + i) (f i)) m.

(** [list_del(node)]: the node leaves the list it is linked in; unlinking a
    node that is in no list writes through stale pointers. *)
Definition linked (pfn : Z) (fa : free_areas_t) : bool :=
  bool_decide (map_Exists (fun _ l => pfn ∈ l) fa).
Definition list_del (pfn : Z) (fa : free_areas_t) : outcome free_areas_t :=
  if linked pfn fa then Ok (filter (fun p => p <> pfn) <$> fa) else Fault.

(** buddy.c: check_pfn_valid *)
Definition check_pfn_valid (pfn : Z) (s : pmm) : outcome unit :=
  assert_or_panic (pfn <=? max_pfn s).

(** buddy.c: add_free_lists *)
Definition add_free_lists (pfn zone_count order_count : Z) (s : pmm) : outcome pmm :=
  l ← deref (free_areas s !! (zone_count, order_count));
  Ok (set_free_areas s (<[(zone_count, order_count) := pfn :: l]> (free_areas s))).

(** buddy.c: remove_free_lists *)
Definition remove_free_lists (pfn : Z) (s : pmm) : outcome pmm :=
  b ← get_block (blocks s) pfn;
  if zone b =? 255 then Ok s
  else fa ← list_del pfn (free_areas s); Ok (set_free_areas s fa).

(** buddy.c: split_buddy_block, what the loop stores in descriptor [i] of a half *)
Definition half_desc (o z i : Z) (b : mem_block_t) : mem_block_t :=
  with_ref_count (with_zone (with_free (with_head (with_order b o) (i =? 0)) true) z) 0.

(** buddy.c: split_buddy_block; the answer is the address of the left half *)
Definition split_buddy_block (pfn : Z) (s : pmm) : outcome (Z * pmm) :=
  b ← get_block (blocks s) pfn;
  let z := zone b in
  let o := order b in
  let buddy_pfn := Z.lxor pfn (Z.shiftl 1 (o - 1)) in
  let block_size := Z.shiftl 1 (o - 1) in
  s ← remove_free_lists pfn s;
  m ← for_up (Z.to_nat block_size) 0
        (fun i m => m ← upd_block m (pfn + i) (half_desc (o - 1) z i);
                    upd_block m (buddy_pfn + i) (half_desc (o - 1) z i)) (blocks s);
  let s := set_blocks s m in
  s ← add_free_lists pfn z (o - 1) s;
  s ← add_free_lists buddy_pfn z (o - 1) s;
  Ok (PHYS_TO_LINEAR (pfn * PAGE_SIZE), s).

(** buddy.c: merge_buddy_block, what the loop stores in descriptor [i] *)
Definition merged_desc (new_order i : Z) (b : mem_block_t) : mem_block_t :=
  with_free (with_order (with_head b (i =? 0)) new_order) true.

(** buddy.c: merge_buddy_block; 0 is NULL *)
Definition merge_buddy_block (pfn1 pfn2 : Z) (s : pmm) : outcome (Z * pmm) :=
  b1 ← get_block (blocks s) pfn1;
  b2 ← get_block (blocks s) pfn2;
  if negb (order b1 =? order b2) || negb (zone b1 =? zone b2) then Ok (0, s)
  else if negb (Z.lxor pfn1 pfn2 =? Z.shiftl 1 (order b1)) then Ok (0, s)
  else
    let merged_pfn := if pfn1 <? pfn2 then pfn1 else pfn2 in
    let new_order := order b1 + 1 in
    let new_block_pages := Z.shiftl 1 new_order in
    s ← remove_free_lists pfn1 s;
    s ← remove_free_lists pfn2 s;
    s ← add_free_lists merged_pfn (zone b1) new_order s;
    m ← upd_pages (blocks s) merged_pfn new_block_pages (merged_desc new_order);
    Ok (PHYS_TO_LINEAR (merged_pfn * PAGE_SIZE), set_blocks s m).

(** buddy.c: pmm_alloc_pages, the scan for a free block.  The frame variable
    of the code keeps the last list head it looked at, also when the checks
    on its descriptor make it go on. *)
Definition find_free_block (ord zn : Z) (s : pmm) : outcome (Z + Z * Z) :=
  for_ret (span ord MAX_ORDER) ord
    (fun current_order pfn =>
       l ← deref (free_areas s !! (zn, current_order));
       match l with
       | [] => Ok (inl pfn)
       | first :: _ =>
           b ← get_block (blocks s) first;
           if negb (is_free b) || negb (order b =? current_order) || negb (zone b =? zn)
           then Ok (inl first)
           else Ok (inr (first, current_order))
       end) 0.

(** buddy.c: pmm_alloc_pages, the splitting loop *)
Definition split_down (pfn find_order ord : Z) (s : pmm) : outcome (Z * pmm) :=
  r ← for_ret (span ord find_order) 0
        (fun _ s =>
           '(split, s) ← split_buddy_block pfn s;
           Ok (if split =? 0 then inr (0, s) else inl s)) s;
  Ok (match r with inl s => (pfn, s) | inr r => r end).

(** buddy.c: pmm_alloc_pages, what the loop stores in descriptor [i] *)
Definition taken_desc (i : Z) (b : mem_block_t) : mem_block_t :=
  with_ref_count (with_free (with_head b (i =? 0)) false) 1.

(** buddy.c: pmm_alloc_pages, taking the block off its list *)
Definition take_block (pfn ord : Z) (s : pmm) : outcome pmm :=
  s ← remove_free_lists pfn s;
  m ← upd_pages (blocks s) pfn (Z.shiftl 1 ord) taken_desc;
  Ok (set_blocks s m).

(** buddy.c: pmm_alloc_pages, the clearing loop, one 8-byte word per step *)
Definition zero_block (pfn ord : Z) (w : gmap Z Z) : gmap Z Z :=
  let ptr := PHYS_TO_LINEAR (pfn * 2 ^ PAGE_SHIFT) in
  for_pure (Z.to_nat (PAGE_SIZE * Z.shiftl 1 ord / 8)) 0
    (fun i w => <[ptr + 8 * i := 0]> w) w.

(** buddy.c: pmm_alloc_pages; the answer 0 is failure *)
Definition pmm_alloc_pages (ord zn : Z) (s : pmm) : outcome (Z * pmm) :=
  if (MAX_ORDER <=? ord) || (ZONE_NORMAL <? zn) then Ok (0, s)
  else
    zdesc ← deref (zones s !! zn);
    if end_pfn zdesc <=? start_pfn zdesc then Ok (0, s)
    else
      found ← find_free_block ord zn s;
      '(pfn, s) ←
        match found with
        | inl pfn => Ok (pfn, s)
        | inr (pfn, find_order) =>
            '(pfn, s) ← split_down pfn find_order ord s;
            if pfn =? 0 then Ok (pfn, s)
            else s ← take_block pfn ord s; Ok (pfn, s)
        end;
      if pfn =? 0 then Ok (0, s)
      else Ok (pfn, set_words s (zero_block pfn ord (words s))).

(** buddy.c: pmm_free_pages, the merging loop *)
Definition merge_up (pfn ord zn : Z) (s : pmm) : outcome pmm :=
  r ← for_ret (span ord (MAX_ORDER - 1)) ord
        (fun current_order '(s, current_pfn) =>
           let buddy_pfn := Z.lxor current_pfn (Z.shiftl 1 current_order) in
           if buddy_pfn <=? max_pfn s then
             b ← get_block (blocks s) buddy_pfn;
             if is_free b && (order b =? current_order) && (zone b =? zn) then
               '(merged, s) ← merge_buddy_block current_pfn buddy_pfn s;
               if merged =? 0 then Ok (inr s)
               else Ok (inl (s, if current_pfn <? buddy_pfn then current_pfn else buddy_pfn))
             else Ok (inr s)
           else Ok (inr s)) (s, pfn);
  Ok (match r with inl (s, _) => s | inr s => s end).

(** buddy.c: pmm_free_pages, dropping one reference of a page *)
Definition drop_ref (b : mem_block_t) : mem_block_t :=
  if 0 <? ref_count b then with_ref_count b (ref_count b - 1) else b.

(** buddy.c: pmm_free_pages, marking the pages free and linking the block *)
Definition release_block (pfn zn ord : Z) (s : pmm) : outcome pmm :=
  m ← upd_pages (blocks s) pfn (Z.shiftl 1 ord) (fun _ b => with_free b true);
  add_free_lists pfn zn ord (set_blocks s m).

(** buddy.c: pmm_free_pages *)
Definition pmm_free_pages (pfn : Z) (s : pmm) : outcome pmm :=
  _ ← check_pfn_valid pfn s;
  b ← get_block (blocks s) pfn;
  let zn := zone b in
  if negb (is_head b) || is_free b then Ok s
  else
    let ord := order b in
    let order_size := u16 (Z.shiftl 1 ord) in
    m ← upd_pages (blocks s) pfn order_size (fun _ => drop_ref);
    let s := set_blocks s m in
    b ← get_block (blocks s) pfn;
    if 0 <? ref_count b then Ok s
    else
      s ← release_block pfn zn ord s;
      merge_up pfn ord zn s.

(** buddy.c: the counters kept per page of a block *)
Definition upd_whole_block (pfn : Z) (f : mem_block_t -> mem_block_t) (s : pmm) : outcome pmm :=
  _ ← check_pfn_valid pfn s;
  b ← get_block (blocks s) pfn;
  m ← upd_pages (blocks s) pfn (Z.shiftl 1 (order b)) (fun _ => f);
  Ok (set_blocks s m).

(** buddy.c: pmm_add_ref_count *)
Definition pmm_add_ref_count (pfn : Z) : pmm -> outcome pmm :=
  upd_whole_block pfn (fun b => with_ref_count b (ref_count b + 1)).

(** buddy.c: pmm_add_map_count *)
Definition pmm_add_map_count (pfn : Z) : pmm -> outcome pmm :=
  upd_whole_block pfn (fun b => with_map_count b (map_count b + 1)).

(** buddy.c: pmm_sub_map_count *)
Definition pmm_sub_map_count (pfn : Z) : pmm -> outcome pmm :=
  upd_whole_block pfn
    (fun b => if 0 <? map_count b then with_map_count b (map_count b - 1) else b).

(** buddy.c: pmm_zero_map_count *)
Definition pmm_zero_map_count (pfn : Z) : pmm -> outcome pmm :=
  upd_whole_block pfn (fun b => with_map_count b 0).

(** buddy.c: pmm_set_on_pte_ptr *)
Definition pmm_set_on_pte_ptr (pfn ptr : Z) : pmm -> outcome pmm :=
  upd_whole_block pfn (fun b => with_on_pte_ptr b ptr).

(** buddy.c: pmm_get_on_pte_ptr *)
Definition pmm_get_on_pte_ptr (pfn : Z) (s : pmm) : outcome Z :=
  _ ← check_pfn_valid pfn s;
  b ← get_block (blocks s) pfn;
  Ok (on_pte_ptr b).

(** buddy.c: pmm_max_page *)
Definition pmm_max_page (s : pmm) : Z := u64 (max_pfn s + 1).

(** buddy.c: calculate_total_free_pages *)
Definition calculate_total_free_pages (fa : free_areas_t) : Z :=
  for_pure 3 ZONE_DMA
    (fun z t => for_pure (Z.to_nat MAX_ORDER) 0
       (fun o t => fold_left (fun t _ => u64 (t + Z.shiftl 1 o)) (default [] (fa !! (z, o))) t) t) 0.
