(* ===== verification/BuddyInv.v ===== *)
(** * The physical page allocator: invariant and block-level lemmas

    The descriptors of a well-formed allocator partition the page frames into
    blocks: naturally aligned runs of 2^order frames whose descriptors agree.
    The free lists hold exactly the heads of the free blocks. *)

From S2P Require Import Prelude Bitmap Buddy.

Local Open Scope Z_scope.

(** Frame [p] starts a block of order [o] in zone [z], free or not. *)
Definition is_block (m : blocks_t) (p o z : Z) (fr : bool) : Prop :=
  0 <= o < MAX_ORDER /\ 0 <= z <= ZONE_NORMAL /\ 0 <= p /\ p mod 2 ^ o = 0 /\
  forall i, 0 <= i < 2 ^ o -> exists b, m !! (p + i) = Some b /\
    is_free b = fr /\ order b = o /\ zone b = z /\ is_head b = (i =? 0).

(** Every frame of the array lies in a block. *)
Definition covered (m : blocks_t) (q : Z) : Prop :=
  exists p o z fr, is_block m p o z fr /\ p <= q < p + 2 ^ o.

Record pmm_inv (s : pmm) : Prop := {
  inv_max : 0 <= max_pfn s < 2 ^ 31;  (* the linear map covers 8 TB *)
  inv_dom : forall p, is_Some (blocks s !! p) <-> 0 <= p <= max_pfn s;
  inv_cover : forall p, 0 <= p <= max_pfn s -> covered (blocks s) p;
  inv_zones : forall z, 0 <= z <= ZONE_NORMAL -> is_Some (zones s !! z);
  inv_heads : forall z o, 0 <= z <= ZONE_NORMAL -> 0 <= o < MAX_ORDER ->
    is_Some (free_areas s !! (z, o));
  inv_lists : forall z o l, free_areas s !! (z, o) = Some l ->
    NoDup l /\ forall p, p ∈ l <-> is_block (blocks s) p o z true
}.

(** ** Arithmetic of aligned blocks *)

Lemma pow2_pos o : 0 <= o -> 0 < 2 ^ o.
Proof. intros. by apply Z.pow_pos_nonneg. Qed.

Lemma aligned_div p n : 0 < n -> p mod n = 0 -> p = n * (p / n).
Proof. intros. pose proof (Z.div_mod p n). lia. Qed.

(** Two multiples of [n] less than [n] apart are equal. *)
Lemma aligned_unique n p q x : 0 < n -> p mod n = 0 -> q mod n = 0 ->
  p <= x < p + n -> q <= x < q + n -> p = q.
Proof.
  intros Hn Hp Hq Hx Hy. rewrite (aligned_div p n), (aligned_div q n) in * by done.
  assert (p / n = q / n) by nia. congruence.
Qed.

Lemma shiftl_1 o : 0 <= o -> Z.shiftl 1 o = 2 ^ o.
Proof. intros. by rewrite Z.shiftl_1_l. Qed.

(** Flipping bit [o] of a multiple of 2^o moves it by 2^o, up or down. *)
Lemma lxor_buddy o p : 0 <= o -> 0 <= p -> p mod 2 ^ o = 0 ->
  Z.lxor p (2 ^ o) = if Z.testbit p o then p - 2 ^ o else p + 2 ^ o.
Proof.
  intros Ho Hp Ha. destruct (Z.testbit p o) eqn:Hb.
  - rewrite <- (Z.lxor_comm (2 ^ o)). symmetry. rewrite Z.lxor_comm.
    assert (Z.land p (2 ^ o) = 2 ^ o) as Hl.
    { apply Z.bits_inj'. intros i Hi. rewrite Z.land_spec, Z.pow2_bits_eqb by done.
      destruct (Z.eqb_spec o i); subst; by rewrite ?Hb, ?andb_false_r. }
    pose proof (Z.sub_nocarry_ldiff p (2 ^ o)) as Hs. rewrite Hs.
    + apply Z.bits_inj'. intros i Hi.
      rewrite Z.lxor_spec, Z.ldiff_spec, Z.pow2_bits_eqb by done.
      destruct (Z.eqb_spec o i); subst; rewrite ?Hb; by destruct (Z.testbit p _).
    + apply Z.bits_inj'. intros i Hi.
      rewrite Z.ldiff_spec, Z.pow2_bits_eqb, Z.testbit_0_l by done.
      destruct (Z.eqb_spec o i); subst; by rewrite ?Hb.
  - rewrite Z.add_nocarry_lxor; [done|].
    apply Z.bits_inj'. intros i Hi. rewrite Z.land_spec, Z.pow2_bits_eqb, Z.testbit_0_l by done.
    destruct (Z.eqb_spec o i); subst; by rewrite ?Hb, ?andb_false_r.
Qed.

(** Bit [o] of a multiple of 2^o tells whether it is a multiple of 2^(o+1). *)
Lemma aligned_succ o p : 0 <= o -> p mod 2 ^ o = 0 ->
  p mod 2 ^ (o + 1) = if Z.testbit p o then 2 ^ o else 0.
Proof.
  intros Ho Ha. pose proof (pow2_pos o Ho). rewrite (aligned_div p (2 ^ o)) by done.
  rewrite Z.pow_add_r, Z.pow_1_r by lia. rewrite Zmult_mod_distr_l.
  replace (2 ^ o * (p / 2 ^ o)) with (p / 2 ^ o * 2 ^ o) by lia.
  rewrite Z.mul_pow2_bits, Z.sub_diag, Z.bit0_odd, Zmod_odd by done.
  destruct (Z.odd _); lia.
Qed.

(** ** Blocks *)

Lemma is_block_lookup m p o z fr q : is_block m p o z fr -> p <= q < p + 2 ^ o ->
  exists b, m !! q = Some b /\ is_free b = fr /\ order b = o /\ zone b = z /\
    is_head b = (q =? p).
Proof.
  intros (_ & _ & _ & _ & Hb) Hq. destruct (Hb (q - p)) as (b & Eb & ? & ? & ? & Hh); [lia|].
  exists b. replace (p + (q - p)) with q in Eb by lia. rewrite Hh.
  repeat split; (done || lia).
Qed.

(** Blocks that share a frame are the same block. *)
Lemma is_block_unique m p o z fr p' o' z' fr' q :
  is_block m p o z fr -> is_block m p' o' z' fr' ->
  p <= q < p + 2 ^ o -> p' <= q < p' + 2 ^ o' ->
  p = p' /\ o = o' /\ z = z' /\ fr = fr'.
Proof.
  intros B B' Hq Hq'.
  destruct (is_block_lookup _ _ _ _ _ q B Hq) as (b & E & ? & ? & ? & _).
  destruct (is_block_lookup _ _ _ _ _ q B' Hq') as (b' & E' & ? & ? & ? & _).
  rewrite E in E'. simplify_eq. repeat split; try done.
  destruct B as (? & ? & ? & ? & _), B' as (? & ? & ? & ? & _).
  eapply (aligned_unique (2 ^ order b')); eauto. apply pow2_pos; lia.
Qed.

(** The head's own descriptor describes its block. *)
Lemma is_block_self m p o z fr : is_block m p o z fr ->
  exists b, m !! p = Some b /\ is_free b = fr /\ order b = o /\ zone b = z /\ is_head b = true.
Proof.
  intros B. pose proof B as (? & _). pose proof (pow2_pos o).
  destruct (is_block_lookup m p o z fr p B) as (b & ? & ? & ? & ? & Hh); [lia|].
  exists b. by rewrite Z.eqb_refl in Hh.
Qed.

(** Outside the frames [p, p + n) the two arrays agree. *)
Definition same_outside (m m' : blocks_t) (p n : Z) : Prop :=
  forall q, q < p \/ p + n <= q -> m' !! q = m !! q.

Lemma is_block_frame m m' p n h o z fr :
  same_outside m m' p n -> h + 2 ^ o <= p \/ p + n <= h ->
  is_block m h o z fr -> is_block m' h o z fr.
Proof.
  intros Hs Hd (Ho & Hz & Hh & Ha & Hb). repeat split; try done; try lia.
  intros i Hi. rewrite Hs by lia. by apply Hb.
Qed.

Lemma same_outside_sym m m' p n : same_outside m m' p n -> same_outside m' m p n.
Proof. intros H q Hq. symmetry. by apply H. Qed.

(** A run of frames tiled by blocks. *)
Definition tiled (m : blocks_t) (p n : Z) : Prop :=
  forall q, p <= q < p + n -> exists h o z fr,
    is_block m h o z fr /\ p <= h <= q /\ q < h + 2 ^ o <= p + n.

(** Re-tiling a run leaves every block outside it, and only those. *)
Lemma is_block_retile m m' p n h o z fr :
  0 < n -> same_outside m m' p n -> tiled m p n -> tiled m' p n ->
  is_block m' h o z fr <->
  (is_block m h o z fr /\ (h + 2 ^ o <= p \/ p + n <= h)) \/
  (is_block m' h o z fr /\ p <= h /\ h + 2 ^ o <= p + n).
Proof.
  intros Hn Hs Ht Ht'. split.
  - intros B. destruct (decide (h + 2 ^ o <= p \/ p + n <= h)) as [Hd|Hd].
    + left. split; [|done]. eapply is_block_frame; [by apply same_outside_sym|done|done].
    + right. split; [done|]. pose proof B as (? & _). pose proof (pow2_pos o).
      destruct (Ht' (Z.max h p)) as (h' & o' & z' & fr' & B' & ? & ?); [lia|].
      destruct (is_block_unique _ _ _ _ _ _ _ _ _ (Z.max h p) B B') as (-> & -> & _); lia.
  - intros [[B Hd]|[B _]]; [|done]. by eapply is_block_frame.
Qed.

Lemma covered_retile m m' p n q :
  0 < n -> same_outside m m' p n -> tiled m p n -> tiled m' p n ->
  covered m q -> covered m' q.
Proof.
  intros Hn Hs Ht Ht' (h & o & z & fr & B & Hq).
  destruct (decide (h + 2 ^ o <= p \/ p + n <= h)) as [Hd|Hd].
  { exists h, o, z, fr. split; [|done]. by eapply is_block_frame. }
  pose proof B as (? & _). pose proof (pow2_pos o).
  destruct (Ht (Z.max h p)) as (h0 & o0 & z0 & fr0 & B0 & ? & ?); [lia|].
  destruct (is_block_unique _ _ _ _ _ _ _ _ _ (Z.max h p) B B0) as (-> & -> & _); [lia|lia|].
  destruct (Ht' q) as (h' & o' & z' & fr' & B' & ? & ?); [lia|].
  exists h', o', z', fr'. split; [done|lia].
Qed.

(** A single block tiles its own frames. *)
Lemma tiled_block m p o z fr : is_block m p o z fr -> tiled m p (2 ^ o).
Proof. intros B q Hq. exists p, o, z, fr. split; [done|]. lia. Qed.

(** Two neighbouring halves tile the run of both. *)
Lemma tiled_halves m p o z fr z' fr' :
  is_block m p o z fr -> is_block m (p + 2 ^ o) o z' fr' -> tiled m p (2 ^ (o + 1)).
Proof.
  intros B B' q Hq. pose proof B as (? & _). rewrite Z.pow_add_r, Z.pow_1_r in * by lia.
  destruct (decide (q < p + 2 ^ o)).
  - exists p, o, z, fr. split; [done|]. lia.
  - exists (p + 2 ^ o), o, z', fr'. split; [done|]. lia.
Qed.

(** ** Loops over descriptors *)

Lemma upd_pages_spec m p n f :
  0 <= n -> (forall q, p <= q < p + n -> is_Some (m !! q)) ->
  exists m', upd_pages m p n f = Ok m' /\
    forall q, m' !! q = if (p <=? q) && (q <? p + n) then f (q - p) <$> m !! q else m !! q.
Proof.
  intros Hn Hd. unfold upd_pages.
  destruct (for_up_inv (fun k mk => forall q, mk !! q =
      if (p <=? q) && (q <? p + k) then f (q - p) <$> m !! q else m !! q)
      (Z.to_nat n) 0 (fun i m => upd_block m (p + i) (f i)) m) as (m' & E & Hm).
  - intros q. by replace ((p <=? q) && (q <? p + 0)) with false by lia.
  - intros k mk Hk Hmk. unfold upd_block, get_block.
    destruct (Hd (p + k)) as [b Eb]; [lia|].
    rewrite Hmk. replace ((p <=? p + k) && (p + k <? p + k)) with false by lia.
    rewrite Eb. cbn. eexists. split; [done|]. intros q. rewrite lookup_insert.
    case_decide; subst.
    + replace ((p <=? p + k) && (p + k <? p + (k + 1))) with true by lia. rewrite Eb. cbn.
      by replace (p + k - p) with k by lia.
    + rewrite Hmk. by replace (q <? p + (k + 1)) with (q <? p + k) by lia.
  - exists m'. split; [done|]. intros q. rewrite Hm.
    by replace (0 + Z.of_nat (Z.to_nat n)) with n by lia.
Qed.

(** The loop of [split_buddy_block]: both halves are written in step. *)
Lemma upd_two_spec m p n (f : Z -> mem_block_t -> mem_block_t) :
  0 < n -> (forall q, p <= q < p + 2 * n -> is_Some (m !! q)) ->
  exists m',
    for_up (Z.to_nat n) 0
      (fun i m => m ← upd_block m (p + i) (f i); upd_block m (p + n + i) (f i)) m = Ok m' /\
    forall q, m' !! q = if (p <=? q) && (q <? p + 2 * n)
                        then f ((q - p) mod n) <$> m !! q else m !! q.
Proof.
  intros Hn Hd.
  destruct (for_up_inv (fun k mk => forall q, mk !! q =
      if ((p <=? q) && (q <? p + k)) || ((p + n <=? q) && (q <? p + n + k))
      then f ((q - p) mod n) <$> m !! q else m !! q)
      (Z.to_nat n) 0
      (fun i m => m ← upd_block m (p + i) (f i); upd_block m (p + n + i) (f i)) m) as (m' & E & Hm).
  - intros q. by replace (_ || _) with false by lia.
  - intros k mk Hk Hmk. unfold upd_block, get_block.
    destruct (Hd (p + k)) as [b Eb]; [lia|]. destruct (Hd (p + n + k)) as [b' Eb']; [lia|].
    rewrite (Hmk (p + k)). replace (_ || _) with false by lia. rewrite Eb. cbn.
    rewrite lookup_insert_ne by lia. rewrite (Hmk (p + n + k)).
    replace (_ || _) with false by lia. rewrite Eb'. cbn.
    eexists. split; [done|]. intros q. rewrite !lookup_insert. repeat case_decide; subst.
    + replace (_ || _) with true by lia. rewrite Eb'. cbn.
      replace (p + n + k - p) with (k + 1 * n) by lia. by rewrite Z.mod_add, Z.mod_small by lia.
    + replace (_ || _) with true by lia. rewrite Eb. cbn.
      replace (p + k - p) with k by lia. by rewrite Z.mod_small by lia.
    + rewrite Hmk.
      by replace (((p <=? q) && (q <? p + k)) || ((p + n <=? q) && (q <? p + n + k))) with
        (((p <=? q) && (q <? p + (k + 1))) || ((p + n <=? q) && (q <? p + n + (k + 1)))) by lia.
  - exists m'. split; [done|]. intros q. rewrite Hm.
    replace (0 + Z.of_nat (Z.to_nat n)) with n by lia.
    destruct (Z.leb_spec p q), (Z.ltb_spec q (p + n)), (Z.leb_spec (p + n) q),
      (Z.ltb_spec q (p + n + n)), (Z.ltb_spec q (p + 2 * n)); (done || lia).
Qed.

(** ** Free lists

    [lists_ex fa m X]: the lists hold the heads of the free blocks except
    those in [X], which are being rebuilt. *)

Definition lists_ex (fa : free_areas_t) (m : blocks_t) (X : Z -> Prop) : Prop :=
  forall z o l, fa !! (z, o) = Some l ->
    NoDup l /\ forall p, p ∈ l <-> is_block m p o z true /\ ~ X p.

(** The lists of all zones and orders exist. *)
Definition heads_ok (fa : free_areas_t) : Prop :=
  forall z o, 0 <= z <= ZONE_NORMAL -> 0 <= o < MAX_ORDER -> is_Some (fa !! (z, o)).

Definition in_run (p n h : Z) : Prop := p <= h < p + n.

Lemma lists_ex_iff fa m X Y :
  (forall h o z, is_block m h o z true -> X h <-> Y h) ->
  lists_ex fa m X -> lists_ex fa m Y.
Proof.
  intros HXY H z o l El. destruct (H z o l El) as [? Hl]. split; [done|]. intros p.
  rewrite Hl. split; intros [B Hn]; (split; [done|]); contradict Hn; by eapply HXY.
Qed.

(** Inside the run of a block the only head is its own. *)
Lemma in_run_block m p o z fr h o' z' fr' :
  is_block m p o z fr -> is_block m h o' z' fr' -> in_run p (2 ^ o) h <-> h = p.
Proof.
  intros B B'. pose proof B as (? & _). pose proof B' as (? & _).
  pose proof (pow2_pos o). pose proof (pow2_pos o'). unfold in_run. split; [|lia].
  intros Hh. destruct (is_block_unique _ _ _ _ _ _ _ _ _ h B B') as (-> & _); lia.
Qed.

Lemma list_del_spec fa m X p o z :
  heads_ok fa -> lists_ex fa m X -> is_block m p o z true -> ~ X p ->
  exists fa', list_del p fa = Ok fa' /\ heads_ok fa' /\
    lists_ex fa' m (fun h => X h \/ h = p).
Proof.
  intros Hh Hl B HX. unfold list_del, linked.
  pose proof B as (Ho & Hz & _). destruct (Hh z o Hz Ho) as [l El].
  rewrite bool_decide_true.
  2:{ exists (z, o), l. split; [done|]. by apply (Hl z o l El). }
  eexists. split; [done|]. split.
  - intros z' o' Hz' Ho'. rewrite lookup_fmap. by apply fmap_is_Some, Hh.
  - intros z' o' l' El'. rewrite lookup_fmap in El'. apply fmap_Some in El' as (l0 & E0 & ->).
    destruct (Hl z' o' l0 E0) as [Hnd Hm]. split; [by apply NoDup_filter|].
    intros q. rewrite list_elem_of_filter, Hm. tauto.
Qed.

Lemma lists_ex_add fa m X p o z l :
  fa !! (z, o) = Some l -> lists_ex fa m X -> is_block m p o z true -> X p ->
  lists_ex (<[(z, o) := p :: l]> fa) m (fun h => X h /\ h <> p).
Proof.
  intros El Hl B HX z' o' l'. rewrite lookup_insert. case_decide as Ek.
  - injection Ek as -> ->. intros [= <-]. destruct (Hl z' o' l El) as [Hnd Hm]. split.
    + apply NoDup_cons. split; [|done]. rewrite Hm. tauto.
    + intros q. rewrite elem_of_cons, Hm. destruct (decide (q = p)) as [->|]; tauto.
  - intros E'. destruct (Hl z' o' l' E') as [Hnd Hm]. split; [done|]. intros q. rewrite Hm.
    split; intros [Bq Hq]; (split; [done|]); [tauto|].
    intros HXq. apply Hq. split; [done|]. intros ->. apply Ek.
    pose proof B as (? & _). pose proof (pow2_pos o). pose proof Bq as (? & _). pose proof (pow2_pos o').
    destruct (is_block_unique _ _ _ _ _ _ _ _ _ p B Bq) as (_ & -> & -> & _); (done || lia).
Qed.

Lemma heads_ok_insert fa z o l : heads_ok fa -> heads_ok (<[(z, o) := l]> fa).
Proof. intros H z' o' Hz Ho. rewrite lookup_insert. case_decide; [by eauto|by apply H]. Qed.

Lemma lists_ex_retile fa m m' p n :
  0 < n -> same_outside m m' p n -> tiled m p n -> tiled m' p n ->
  lists_ex fa m (in_run p n) -> lists_ex fa m' (in_run p n).
Proof.
  intros Hn Hs Ht Ht' Hl z o l El. destruct (Hl z o l El) as [Hnd Hm]. split; [done|].
  intros q. rewrite Hm, (is_block_retile m m' p n) by done.
  unfold in_run. split.
  - intros [B Hq]. split; [|done]. pose proof B as (? & _). pose proof (pow2_pos o).
    rewrite (is_block_retile m' m p n) in B by (done || by apply same_outside_sym).
    destruct B as [[B ?]|[B ?]]; [|lia]. left. split; [|done].
    by eapply is_block_frame; [apply same_outside_sym| |].
  - intros [[[B ?]|[B ?]] Hq]; [done|]. pose proof B as (? & _). pose proof (pow2_pos o). lia.
Qed.

(** ** Free pages on the lists *)

Definition all_areas : list (Z * Z) :=
  z ← [0; 1; 2]; (fun o => (z, Z.of_nat o)) <$> seq 0 16.

Definition area_pages (fa : free_areas_t) (k : Z * Z) : Z :=
  2 ^ k.2 * Z.of_nat (length (default [] (fa !! k))).

Definition free_total (fa : free_areas_t) : Z :=
  foldr (fun k t => area_pages fa k + t) 0 all_areas.

#[global] Arguments free_total : simpl never.

Lemma all_areas_spec z o : 0 <= z <= ZONE_NORMAL -> 0 <= o < MAX_ORDER -> (z, o) ∈ all_areas.
Proof.
  unfold ZONE_NORMAL, MAX_ORDER. intros Hz Ho. unfold all_areas. apply list_elem_of_bind.
  exists z. split.
  - apply list_elem_of_fmap. exists (Z.to_nat o). rewrite Z2Nat.id by lia.
    split; [done|]. apply elem_of_seq. lia.
  - assert (z = 0 \/ z = 1 \/ z = 2) as [->|[->| ->]] by lia; set_solver.
Qed.

Lemma all_areas_NoDup : NoDup all_areas.
Proof. apply (bool_decide_unpack (NoDup all_areas)). vm_compute. exact I. Qed.

(** Changing one list changes the total by the change of that list. *)
Lemma free_total_change fa fa' k d ks :
  NoDup ks -> k ∈ ks ->
  (forall k', k' <> k -> area_pages fa' k' = area_pages fa k') ->
  area_pages fa' k = area_pages fa k + d ->
  foldr (fun k t => area_pages fa' k + t) 0 ks = foldr (fun k t => area_pages fa k + t) 0 ks + d.
Proof.
  intros Hnd Hin Hoth Hk.
  assert (Hsame : forall l, k ∉ l -> foldr (fun k t => area_pages fa' k + t) 0 l =
      foldr (fun k t => area_pages fa k + t) 0 l).
  { intros l. induction l as [|x l IH]; intros Hx; [done|]. cbn.
    apply not_elem_of_cons in Hx as [? ?]. rewrite IH, Hoth by congruence. done. }
  induction Hnd as [|x l Hx Hnd IH]; [by apply not_elem_of_nil in Hin|]. cbn.
  apply elem_of_cons in Hin as [->|Hin].
  - rewrite Hsame, Hk by done. lia.
  - rewrite IH by done. rewrite Hoth by (intros ->; done). lia.
Qed.

Lemma filter_one (l : list Z) p : NoDup l -> p ∈ l ->
  Z.of_nat (length (filter (fun q => q <> p) l)) = Z.of_nat (length l) - 1.
Proof.
  intros Hnd. induction Hnd as [|x l Hx Hnd IH]; [by intros ?%not_elem_of_nil|].
  intros [->|Hp]%elem_of_cons.
  - rewrite filter_cons_False by auto. rewrite filter_notin by done. cbn. lia.
  - rewrite filter_cons_True by (intros ->; done). cbn. rewrite Nat2Z.inj_succ, IH by done. lia.
Qed.

Lemma free_total_del fa fa' m X p o z :
  heads_ok fa -> lists_ex fa m X -> is_block m p o z true -> ~ X p ->
  list_del p fa = Ok fa' -> free_total fa' = free_total fa - 2 ^ o.
Proof.
  intros Hh Hl B HX. unfold list_del. destruct (linked p fa); [|done]. intros <-%Ok_inj.
  pose proof B as (Ho & Hz & _). destruct (Hh z o Hz Ho) as [l El].
  destruct (Hl z o l El) as [Hnd Hm]. unfold free_total.
  rewrite <- Z.add_opp_r. apply (free_total_change _ _ (z, o));
    [apply all_areas_NoDup|by apply all_areas_spec| |].
  - intros [z' o'] Hne. unfold area_pages. rewrite lookup_fmap.
    destruct (fa !! (z', o')) as [l'|] eqn:E'; [|done]. cbn. rewrite filter_notin; [done|].
    rewrite (proj2 (Hl z' o' l' E')). intros [B' _]. apply Hne.
    pose proof (pow2_pos o). pose proof B' as (? & _). pose proof (pow2_pos o').
    destruct (is_block_unique _ _ _ _ _ _ _ _ _ p B B') as (_ & -> & -> & _); (done || lia).
  - unfold area_pages. rewrite lookup_fmap, El. cbn -[Z.mul Z.pow Z.sub].
    rewrite filter_one by (done || by apply Hm). lia.
Qed.

Lemma free_total_add fa p o z l :
  0 <= z <= ZONE_NORMAL -> 0 <= o < MAX_ORDER -> fa !! (z, o) = Some l ->
  free_total (<[(z, o) := p :: l]> fa) = free_total fa + 2 ^ o.
Proof.
  intros Hz Ho El. unfold free_total.
  apply (free_total_change _ _ (z, o)); [apply all_areas_NoDup|by apply all_areas_spec| |].
  - intros k' Hne. unfold area_pages. by rewrite lookup_insert_ne by congruence.
  - unfold area_pages. rewrite lookup_insert_eq, El. cbn -[Z.mul Z.pow Z.of_nat].
    rewrite Nat2Z.inj_succ. lia.
Qed.

(** ** Rebuilding the invariant *)

Lemma inv_lists_ex s : pmm_inv s -> lists_ex (free_areas s) (blocks s) (fun _ => False).
Proof.
  intros Hi z o l El. destruct (inv_lists s Hi z o l El) as [? Hm]. split; [done|].
  intros p. rewrite Hm. tauto.
Qed.

Lemma inv_rebuild s fa' m' p n :
  pmm_inv s -> 0 < n ->
  same_outside (blocks s) m' p n -> tiled (blocks s) p n -> tiled m' p n ->
  (forall q, is_Some (m' !! q) <-> is_Some (blocks s !! q)) ->
  heads_ok fa' -> lists_ex fa' m' (fun _ => False) ->
  pmm_inv (Pmm (max_pfn s) (zones s) fa' m' (words s)).
Proof.
  intros [Hmax Hdom Hcov Hz Hh Hl] Hn Hs Ht Ht' Hd Hh' Hl'. constructor; cbn; try done.
  - intros q. by rewrite Hd, Hdom.
  - intros q Hq. eapply covered_retile; eauto.
  - intros z o l El. destruct (Hl' z o l El) as [? Hm]. split; [done|].
    intros q. rewrite Hm. tauto.
Qed.

Lemma block_in_array s p o z fr : pmm_inv s -> is_block (blocks s) p o z fr ->
  0 <= p /\ p + 2 ^ o <= max_pfn s + 1.
Proof.
  intros Hi B. pose proof B as (? & _ & ? & _). pose proof (pow2_pos o).
  split; [done|].
  destruct (is_block_lookup _ _ _ _ _ (p + 2 ^ o - 1) B) as (b & E & _); [lia|].
  assert (0 <= p + 2 ^ o - 1 <= max_pfn s) by (apply (inv_dom s Hi); eauto). lia.
Qed.

(** A rewritten run keeps the array's domain. *)
Lemma upd_dom (m m' : blocks_t) p n (g : Z -> mem_block_t -> mem_block_t) :
  (forall q, m' !! q = if (p <=? q) && (q <? p + n) then g q <$> m !! q else m !! q) ->
  same_outside m m' p n /\ forall q, is_Some (m' !! q) <-> is_Some (m !! q).
Proof.
  intros Hm. split.
  - intros q Hq. rewrite Hm. by replace ((p <=? q) && (q <? p + n)) with false by lia.
  - intros q. rewrite Hm. destruct (_ && _); [|done]. apply fmap_is_Some.
Qed.
