(* ===== verification/BuddySteps.v ===== *)
(** * The physical page allocator: what each internal step does

    Specifications of [remove_free_lists], [add_free_lists],
    [split_buddy_block], [merge_buddy_block] and of the steps of the two
    public operations, each of them: it does not fail, it re-establishes the
    invariant, and how it changes the blocks and the free total. *)

From S2P Require Import Prelude Bitmap Buddy BuddyInv.

Local Open Scope Z_scope.

Lemma order_bits o : 0 <= o < MAX_ORDER -> wrap 5 o = o.
Proof. intros. apply wrap_small. unfold fits, MAX_ORDER in *. lia. Qed.

Lemma zone_bits z : 0 <= z <= ZONE_NORMAL -> wrap 3 z = z.
Proof. intros. apply wrap_small. unfold fits, ZONE_NORMAL in *. lia. Qed.

(** The two states agree on everything but lists and descriptors. *)
Definition same_frame (s s' : pmm) : Prop :=
  max_pfn s' = max_pfn s /\ zones s' = zones s /\ words s' = words s.

Lemma remove_free_lists_spec s X p o z :
  heads_ok (free_areas s) -> lists_ex (free_areas s) (blocks s) X ->
  is_block (blocks s) p o z true -> ~ X p ->
  exists fa, remove_free_lists p s = Ok (set_free_areas s fa) /\ heads_ok fa /\
    lists_ex fa (blocks s) (fun h => X h \/ h = p) /\
    free_total fa = free_total (free_areas s) - 2 ^ o.
Proof.
  intros Hh Hl B HX. unfold remove_free_lists, get_block.
  destruct (is_block_self _ _ _ _ _ B) as (b & Eb & _ & _ & Hz & _).
  pose proof B as (_ & ? & _). rewrite Eb. cbn.
  replace (zone b =? 255) with false by (unfold ZONE_NORMAL in *; lia).
  destruct (list_del_spec _ _ X p o z Hh Hl B HX) as (fa & E & Hh' & Hl').
  rewrite E. cbn. exists fa. split_and!; try done. by eapply free_total_del.
Qed.

Lemma add_free_lists_spec s X p o z :
  heads_ok (free_areas s) -> lists_ex (free_areas s) (blocks s) X ->
  is_block (blocks s) p o z true -> X p ->
  exists fa, add_free_lists p z o s = Ok (set_free_areas s fa) /\ heads_ok fa /\
    lists_ex fa (blocks s) (fun h => X h /\ h <> p) /\
    free_total fa = free_total (free_areas s) + 2 ^ o.
Proof.
  intros Hh Hl B HX. pose proof B as (Ho & Hz & _). unfold add_free_lists.
  destruct (Hh z o Hz Ho) as [l El]. rewrite El. cbn. eexists. split; [done|].
  split; [by apply heads_ok_insert|]. split; [by apply lists_ex_add|by apply free_total_add].
Qed.

(** Descriptors written by [half] make two free blocks of half the size. *)
Lemma half_blocks m m' p o z (f : Z -> mem_block_t -> mem_block_t) :
  is_block m p (o + 1) z true -> 0 <= o ->
  (forall i b, is_free (f i b) = true /\ order (f i b) = o /\ zone (f i b) = z /\
     is_head (f i b) = (i =? 0)) ->
  (forall q, m' !! q = if (p <=? q) && (q <? p + 2 * 2 ^ o)
     then f ((q - p) mod 2 ^ o) <$> m !! q else m !! q) ->
  is_block m' p o z true /\ is_block m' (p + 2 ^ o) o z true.
Proof.
  intros B Ho Hf Hm. pose proof B as (Ho1 & Hz & Hp & Ha & Hb). pose proof (pow2_pos o Ho).
  assert (E2 : 2 ^ (o + 1) = 2 * 2 ^ o) by (rewrite Z.pow_add_r; lia).
  assert (Ha' : p mod 2 ^ o = 0).
  { rewrite (aligned_div p (2 ^ (o + 1))), E2 by lia.
    replace (2 * 2 ^ o * (p / (2 * 2 ^ o))) with (2 * (p / (2 * 2 ^ o)) * 2 ^ o) by lia.
    apply Z_mod_mult. }
  assert (Hblk : forall d, d = 0 \/ d = 2 ^ o -> is_block m' (p + d) o z true).
  { intros d Hd. repeat split; try done; try lia.
    - rewrite Z.add_mod, Ha', Z.add_0_l by lia. destruct Hd as [->| ->];
        by rewrite ?Z.mod_0_l, ?Z_mod_same_full by lia.
    - intros i Hi. rewrite Hm. replace (_ && _) with true by lia.
      destruct (Hb (d + i)) as (b & Eb & _); [lia|]. rewrite Z.add_assoc in Eb.
      rewrite Eb. cbn. exists (f i b). split; [|apply Hf]. do 2 f_equal.
      replace (p + d + i - p) with (i + d) by lia.
      destruct Hd as [->| ->]; rewrite ?Z.add_0_r; [by apply Z.mod_small|].
      replace (i + 2 ^ o) with (i + 1 * 2 ^ o) by lia. rewrite Z.mod_add by lia. by apply Z.mod_small. }
  split; [|by apply Hblk; right]. rewrite <- (Z.add_0_r p). apply Hblk. by left.
Qed.

Lemma buddy_of_left o p : 0 <= o -> 0 <= p -> p mod 2 ^ (o + 1) = 0 ->
  Z.lxor p (2 ^ o) = p + 2 ^ o.
Proof.
  intros Ho Hp Ha. pose proof (pow2_pos o Ho).
  assert (p mod 2 ^ o = 0) as Ha'.
  { rewrite (aligned_div p (2 ^ (o + 1))), Z.pow_add_r by (try apply pow2_pos; lia).
    replace (2 ^ o * 2 ^ 1 * (p / (2 ^ o * 2 ^ 1))) with (2 * (p / (2 ^ o * 2 ^ 1)) * 2 ^ o) by lia.
    apply Z_mod_mult. }
  rewrite lxor_buddy by done. pose proof (aligned_succ o p Ho Ha') as Hs.
  destruct (Z.testbit p o); [lia|done].
Qed.

(** The frames whose descriptors a step may rewrite, as an exception set. *)
Lemma lists_ex_weaken fa m X Y :
  (forall h, X h <-> Y h) -> lists_ex fa m X -> lists_ex fa m Y.
Proof. intros H. apply lists_ex_iff. auto. Qed.

Lemma split_spec s p o z :
  pmm_inv s -> is_block (blocks s) p (o + 1) z true -> 0 <= o ->
  exists s', split_buddy_block p s = Ok (PHYS_TO_LINEAR (p * PAGE_SIZE), s') /\
    pmm_inv s' /\ same_frame s s' /\
    is_block (blocks s') p o z true /\ is_block (blocks s') (p + 2 ^ o) o z true /\
    same_outside (blocks s) (blocks s') p (2 ^ (o + 1)) /\
    free_total (free_areas s') = free_total (free_areas s).
Proof.
  intros Hi B Ho. pose proof B as (Ho1 & Hz & Hp & Ha & _). pose proof (pow2_pos o Ho).
  assert (E2 : 2 ^ (o + 1) = 2 * 2 ^ o) by (rewrite Z.pow_add_r; lia).
  destruct (is_block_self _ _ _ _ _ B) as (b & Eb & _ & Hob & Hzb & _).
  unfold split_buddy_block, get_block. rewrite Eb. cbn -[Z.pow Z.shiftl Z.lxor for_up].
  rewrite Hob, Hzb, Z.add_simpl_r, shiftl_1, buddy_of_left by done.
  destruct (remove_free_lists_spec s (fun _ => False) p (o + 1) z) as (fa1 & -> & Hh1 & Hl1 & Ht1);
    [exact (inv_heads s Hi)|by apply inv_lists_ex|done|tauto|]. cbn -[Z.pow for_up].
  destruct (upd_two_spec (blocks s) p (2 ^ o) (half_desc o z)) as (m' & -> & Hm); [done| |].
  { intros q Hq. apply (inv_dom s Hi). pose proof (block_in_array s _ _ _ _ Hi B). lia. }
  cbn -[Z.pow].
  destruct (half_blocks (blocks s) m' p o z (half_desc o z) B Ho) as [B1 B2]; [|done|].
  { intros i b0. cbn. rewrite order_bits, zone_bits by lia. done. }
  destruct (upd_dom _ _ p (2 * 2 ^ o) (fun q => half_desc o z ((q - p) mod 2 ^ o)) Hm) as [Hs Hd]. rewrite <- E2 in Hs.
  pose proof (tiled_block _ _ _ _ _ B) as Ht. pose proof (tiled_halves _ _ _ _ _ _ _ B1 B2) as Ht'.
  assert (Hl2 : lists_ex fa1 m' (in_run p (2 ^ (o + 1)))).
  { eapply lists_ex_retile; [lia|done|done|done|]. eapply lists_ex_iff; [|exact Hl1].
    intros h o' z' B'. rewrite (in_run_block _ _ _ _ _ _ _ _ _ B B'). tauto. }
  destruct (add_free_lists_spec (set_blocks (set_free_areas s fa1) m') (in_run p (2 ^ (o + 1))) p o z)
    as (fa2 & -> & Hh2 & Hl3 & Ht2); [done|done|done|unfold in_run; lia|]. cbn -[Z.pow].
  destruct (add_free_lists_spec (set_free_areas (set_blocks (set_free_areas s fa1) m') fa2)
      (fun h => in_run p (2 ^ (o + 1)) h /\ h <> p) (p + 2 ^ o) o z)
    as (fa3 & -> & Hh3 & Hl4 & Ht3); [done|done|done|unfold in_run; lia|]. cbn -[Z.pow].
  eexists. split; [done|]. split_and!; try done.
  - eapply (inv_rebuild s fa3 m' p (2 ^ (o + 1))); try done; [lia|].
    eapply lists_ex_iff; [|exact Hl4]. intros h o' z' B'.
    pose proof B' as (? & _). pose proof (pow2_pos o'). unfold in_run.
    split; [|tauto]. intros [[Hr Hn1] Hn2].
    destruct (decide (h < p + 2 ^ o)) as [Hlt|Hge].
    + destruct (is_block_unique _ _ _ _ _ _ _ _ _ h B1 B') as (? & _); lia.
    + destruct (is_block_unique _ _ _ _ _ _ _ _ _ h B2 B') as (? & _); lia.
  - cbn in *. lia.
Qed.

(** Buddies are the two halves of an aligned run of twice their size. *)
Lemma buddy_pair o p1 p2 : 0 <= o -> 0 <= p1 -> p1 mod 2 ^ o = 0 -> Z.lxor p1 p2 = 2 ^ o ->
  Z.min p1 p2 mod 2 ^ (o + 1) = 0 /\ Z.max p1 p2 = Z.min p1 p2 + 2 ^ o.
Proof.
  intros Ho Hp Ha Hx. pose proof (pow2_pos o Ho).
  assert (p2 = Z.lxor p1 (2 ^ o)) as Hp2.
  { rewrite <- Hx. by rewrite <- Z.lxor_assoc, Z.lxor_nilpotent, Z.lxor_0_l. }
  rewrite lxor_buddy in Hp2 by done. pose proof (aligned_succ o p1 Ho Ha) as Hs.
  destruct (Z.testbit p1 o).
  - rewrite Z.min_r, Z.max_l by lia. split; [|lia]. subst p2.
    rewrite Zminus_mod, Hs, (Z.mod_small (2 ^ o)); [by rewrite Z.sub_diag|].
    split; [lia|]. apply Z.pow_lt_mono_r; lia.
  - rewrite Z.min_l, Z.max_r by lia. split; [done|lia].
Qed.

(** One rewriting loop over the frames of a run, turning it into one block. *)
Lemma one_block (m m' : blocks_t) p o z fr (f : Z -> mem_block_t -> mem_block_t) :
  0 <= o < MAX_ORDER -> 0 <= z <= ZONE_NORMAL -> 0 <= p -> p mod 2 ^ o = 0 ->
  (forall q, m' !! q = if (p <=? q) && (q <? p + 2 ^ o) then f (q - p) <$> m !! q else m !! q) ->
  (forall i, 0 <= i < 2 ^ o -> exists b, m !! (p + i) = Some b /\
     is_free (f i b) = fr /\ order (f i b) = o /\ zone (f i b) = z /\ is_head (f i b) = (i =? 0)) ->
  is_block m' p o z fr.
Proof.
  intros Ho Hz Hp Ha Hm Hb. split_and!; try done; try lia. intros i Hi.
  destruct (Hb i Hi) as (b & Eb & Hf). exists (f i b). split; [|done].
  rewrite Hm. replace (_ && _) with true by lia. replace (p + i - p) with i by lia. by rewrite Eb.
Qed.

Lemma merge_spec s p1 p2 o z :
  pmm_inv s -> is_block (blocks s) p1 o z true -> is_block (blocks s) p2 o z true ->
  Z.lxor p1 p2 = 2 ^ o -> o + 1 < MAX_ORDER ->
  exists s', merge_buddy_block p1 p2 s = Ok (PHYS_TO_LINEAR (Z.min p1 p2 * PAGE_SIZE), s') /\
    pmm_inv s' /\ same_frame s s' /\
    is_block (blocks s') (Z.min p1 p2) (o + 1) z true /\
    same_outside (blocks s) (blocks s') (Z.min p1 p2) (2 ^ (o + 1)) /\
    tiled (blocks s) (Z.min p1 p2) (2 ^ (o + 1)) /\
    free_total (free_areas s') = free_total (free_areas s).
Proof.
  intros Hi B1 B2 Hx Ho1. pose proof B1 as (Ho & Hz & Hp1 & Ha1 & _). pose proof B2 as (_ & _ & Hp2 & _).
  pose proof (pow2_pos o). destruct (buddy_pair o p1 p2) as [Ha Hmax]; [lia|done|done|done|].
  set (p := Z.min p1 p2) in *.
  assert (E2 : 2 ^ (o + 1) = 2 * 2 ^ o) by (rewrite Z.pow_add_r; lia).
  assert (Bl : is_block (blocks s) p o z true /\ is_block (blocks s) (p + 2 ^ o) o z true).
  { rewrite <- Hmax. subst p.
    destruct (Z.min_spec p1 p2) as [[? ->]|[? ->]], (Z.max_spec p1 p2) as [[? ->]|[? ->]];
      split; (done || (by replace p1 with p2 by lia) || lia). }
  destruct Bl as [Bl Br]. pose proof (tiled_halves _ _ _ _ _ _ _ Bl Br) as Ht.
  destruct (is_block_self _ _ _ _ _ B1) as (b1 & Eb1 & _ & Hob1 & Hzb1 & _).
  destruct (is_block_self _ _ _ _ _ B2) as (b2 & Eb2 & _ & Hob2 & Hzb2 & _).
  unfold merge_buddy_block, get_block. rewrite Eb1, Eb2. cbn -[Z.pow Z.shiftl Z.lxor].
  rewrite Hob1, Hob2, Hzb1, Hzb2, !Z.eqb_refl, Hx, !shiftl_1, Z.eqb_refl by lia. cbn -[Z.pow].
  replace (if p1 <? p2 then p1 else p2) with p by (subst p; destruct (Z.ltb_spec p1 p2); lia).
  destruct (remove_free_lists_spec s (fun _ => False) p1 o z) as (fa1 & -> & Hh1 & Hl1 & Ht1);
    [exact (inv_heads s Hi)|by apply inv_lists_ex|done|tauto|]. cbn -[Z.pow].
  destruct (remove_free_lists_spec (set_free_areas s fa1) (fun h => False \/ h = p1) p2 o z)
    as (fa2 & -> & Hh2 & Hl2 & Ht2); [done|done|done|lia|]. cbn -[Z.pow].
  unfold add_free_lists. cbn -[Z.pow]. destruct (Hh2 z (o + 1)) as [l El]; [done|lia|].
  rewrite El. cbn -[Z.pow].
  destruct (upd_pages_spec (blocks s) p (2 ^ (o + 1)) (merged_desc (o + 1))) as (m' & -> & Hm); [lia| |].
  { intros q Hq. apply (inv_dom s Hi). pose proof (block_in_array s _ _ _ _ Hi Bl).
    pose proof (block_in_array s _ _ _ _ Hi Br). lia. }
  cbn -[Z.pow].
  assert (B' : is_block m' p (o + 1) z true).
  { eapply (one_block _ _ _ _ _ _ (merged_desc (o + 1))); [lia|done|lia|done|exact Hm|].
    intros i Hi'. cbn. rewrite order_bits by lia.
    destruct (decide (i < 2 ^ o)).
    - destruct (is_block_lookup _ _ _ _ _ (p + i) Bl) as (b & ? & ? & ? & ? & _); [lia|]. by exists b.
    - destruct (is_block_lookup _ _ _ _ _ (p + i) Br) as (b & ? & ? & ? & ? & _); [lia|]. by exists b. }
  destruct (upd_dom _ _ p (2 ^ (o + 1)) (fun q => merged_desc (o + 1) (q - p)) Hm) as [Hs Hd].
  assert (Hl3 : lists_ex fa2 m' (in_run p (2 ^ (o + 1)))).
  { eapply lists_ex_retile; [lia|done|done|by eapply tiled_block|]. eapply lists_ex_iff; [|exact Hl2].
    intros h o' z' B3. pose proof (in_run_block _ _ _ _ _ _ _ _ _ Bl B3).
    pose proof (in_run_block _ _ _ _ _ _ _ _ _ Br B3). unfold in_run in *. lia. }
  assert (Hft : free_total (<[(z, o + 1) := p :: l]> fa2) = free_total (free_areas s)).
  { rewrite free_total_add by (done || lia). cbn [free_areas set_free_areas] in Ht2. lia. }
  eexists. split; [done|]. split_and!; try done.
  - eapply (inv_rebuild s _ m' p (2 ^ (o + 1))); try done; [lia|by eapply tiled_block|by apply heads_ok_insert|].
    pose proof (lists_ex_add _ _ _ p (o + 1) z l El Hl3 B') as Hl4.
    eapply lists_ex_iff; [|apply Hl4; unfold in_run; lia]. cbn beta. intros h o' z' B3. rewrite (in_run_block _ _ _ _ _ _ _ _ _ B' B3). tauto.
Qed.

(** No free block starts in the run of an allocated one. *)
Lemma lists_ex_allocated fa m p o z :
  is_block m p o z false -> lists_ex fa m (in_run p (2 ^ o)) -> lists_ex fa m (fun _ => False).
Proof.
  intros B. apply lists_ex_iff. intros h o' z' B'. split; [|tauto]. intros Hr.
  pose proof B as (? & _). pose proof B' as (? & _).
  pose proof (pow2_pos o). pose proof (pow2_pos o'). unfold in_run in Hr.
  destruct (is_block_unique _ _ _ _ _ _ _ _ _ h B B') as (_ & _ & _ & ?); (done || lia).
Qed.

Lemma take_spec s p o z :
  pmm_inv s -> is_block (blocks s) p o z true ->
  exists s', take_block p o s = Ok s' /\ pmm_inv s' /\ same_frame s s' /\
    is_block (blocks s') p o z false /\
    same_outside (blocks s) (blocks s') p (2 ^ o) /\
    (forall q, p <= q < p + 2 ^ o -> exists b, blocks s' !! q = Some b /\ ref_count b = 1) /\
    free_total (free_areas s') = free_total (free_areas s) - 2 ^ o.
Proof.
  intros Hi B. pose proof B as (Ho & Hz & Hp & Ha & Hb). pose proof (pow2_pos o).
  unfold take_block.
  destruct (remove_free_lists_spec s (fun _ => False) p o z) as (fa & -> & Hh1 & Hl1 & Ht1);
    [exact (inv_heads s Hi)|by apply inv_lists_ex|done|tauto|]. cbn -[Z.pow Z.shiftl].
  rewrite shiftl_1 by lia.
  destruct (upd_pages_spec (blocks s) p (2 ^ o) taken_desc) as (m' & -> & Hm); [lia| |].
  { intros q Hq. apply (inv_dom s Hi). pose proof (block_in_array s _ _ _ _ Hi B). lia. }
  cbn -[Z.pow].
  assert (B' : is_block m' p o z false).
  { eapply (one_block _ _ _ _ _ _ taken_desc); try done. intros i Hi'.
    destruct (Hb i Hi') as (b & Eb & ? & ? & ? & _). by exists b. }
  destruct (upd_dom _ _ p (2 ^ o) (fun q => taken_desc (q - p)) Hm) as [Hs Hd].
  assert (Hl2 : lists_ex fa m' (fun _ => False)).
  { eapply lists_ex_allocated; [done|].
    eapply (lists_ex_retile _ (blocks s)); [lia|done|by eapply tiled_block|by eapply tiled_block|].
    eapply lists_ex_iff; [|exact Hl1]. intros h o' z' B3.
    rewrite (in_run_block _ _ _ _ _ _ _ _ _ B B3). tauto. }
  eexists. split; [done|]. split_and!; try done.
  - eapply (inv_rebuild s fa m' p (2 ^ o)); try done; [lia|by eapply tiled_block|by eapply tiled_block].
  - intros q Hq. cbn. rewrite Hm. replace (_ && _) with true by lia.
    destruct (is_block_lookup _ _ _ _ _ q B Hq) as (b & -> & _). cbn. by eexists.
Qed.

Lemma release_spec s p o z :
  pmm_inv s -> is_block (blocks s) p o z false ->
  exists s', release_block p z o s = Ok s' /\ pmm_inv s' /\ same_frame s s' /\
    is_block (blocks s') p o z true /\
    same_outside (blocks s) (blocks s') p (2 ^ o) /\
    free_total (free_areas s') = free_total (free_areas s) + 2 ^ o.
Proof.
  intros Hi B. pose proof B as (Ho & Hz & Hp & Ha & Hb). pose proof (pow2_pos o).
  unfold release_block. rewrite shiftl_1 by lia.
  destruct (upd_pages_spec (blocks s) p (2 ^ o) (fun _ b => with_free b true)) as (m' & -> & Hm); [lia| |].
  { intros q Hq. apply (inv_dom s Hi). pose proof (block_in_array s _ _ _ _ Hi B). lia. }
  cbn -[Z.pow].
  assert (B' : is_block m' p o z true).
  { eapply (one_block _ _ _ _ _ _ (fun _ b => with_free b true)); try done. intros i Hi'.
    destruct (Hb i Hi') as (b & Eb & ? & ? & ? & ?). by exists b. }
  destruct (upd_dom _ _ p (2 ^ o) (fun _ b => with_free b true) Hm) as [Hs Hd].
  assert (Hl2 : lists_ex (free_areas s) m' (in_run p (2 ^ o))).
  { eapply (lists_ex_retile _ (blocks s)); [lia|done|by eapply tiled_block|by eapply tiled_block|].
    eapply lists_ex_iff; [|by apply inv_lists_ex]. intros h o' z' B3. split; [tauto|]. intros Hr.
    rewrite (in_run_block _ _ _ _ _ _ _ _ _ B B3) in Hr. subst h. pose proof B3 as (? & _).
    pose proof (pow2_pos o').
    destruct (is_block_unique _ _ _ _ _ _ _ _ _ p B B3) as (_ & _ & _ & ?); (done || lia). }
  destruct (add_free_lists_spec (set_blocks s m') (in_run p (2 ^ o)) p o z)
    as (fa & -> & Hh & Hl & Ht); [exact (inv_heads s Hi)|done|done|unfold in_run; lia|].
  eexists. split; [done|]. split_and!; try done.
  eapply (inv_rebuild s fa m' p (2 ^ o)); try done; [lia|by eapply tiled_block|by eapply tiled_block|].
  eapply lists_ex_iff; [|exact Hl]. cbn beta. intros h o' z' B3.
  rewrite (in_run_block _ _ _ _ _ _ _ _ _ B' B3). tauto.
Qed.

(** ** Updates that keep the shape of every descriptor *)

Definition keeps_shape (f : mem_block_t -> mem_block_t) : Prop :=
  forall b, is_free (f b) = is_free b /\ order (f b) = order b /\ zone (f b) = zone b /\
    is_head (f b) = is_head b.

Definition same_shape (m m' : blocks_t) : Prop :=
  forall q, exists f, keeps_shape f /\ m' !! q = f <$> m !! q.

Lemma same_shape_block m m' p o z fr :
  same_shape m m' -> is_block m p o z fr <-> is_block m' p o z fr.
Proof.
  intros Hs. unfold is_block. split; intros (? & ? & ? & ? & Hb); split_and!; try done; try lia;
    intros i Hi; destruct (Hb i Hi) as (b & Eb & Hf); destruct (Hs (p + i)) as (f & Hk & Em).
  - rewrite Em, Eb. cbn. exists (f b). destruct (Hk b) as (-> & -> & -> & ->). done.
  - rewrite Em in Eb. apply fmap_Some in Eb as (b0 & E0 & ->). exists b0.
    destruct (Hk b0) as (E1 & E2 & E3 & E4). rewrite E1, E2, E3, E4 in Hf. done.
Qed.

Lemma inv_same_shape s m' : pmm_inv s -> same_shape (blocks s) m' -> pmm_inv (set_blocks s m').
Proof.
  intros [Hmax Hdom Hcov Hz Hh Hl] Hs. constructor; cbn; try done.
  - intros p. rewrite <- Hdom. destruct (Hs p) as (f & _ & ->). apply fmap_is_Some.
  - intros p Hp. destruct (Hcov p Hp) as (h & o & z & fr & B & ?).
    exists h, o, z, fr. split; [|done]. by rewrite <- same_shape_block.
  - intros z o l El. destruct (Hl z o l El) as [? Hm]. split; [done|]. intros p.
    rewrite Hm. by apply same_shape_block.
Qed.

Lemma upd_pages_shape m p n f :
  0 <= n -> (forall q, p <= q < p + n -> is_Some (m !! q)) -> keeps_shape f ->
  exists m', upd_pages m p n (fun _ => f) = Ok m' /\ same_shape m m' /\
    forall q, m' !! q = if (p <=? q) && (q <? p + n) then f <$> m !! q else m !! q.
Proof.
  intros Hn Hd Hf. destruct (upd_pages_spec m p n (fun _ => f) Hn Hd) as (m' & E & Hm).
  exists m'. split; [done|]. split; [|done]. intros q. rewrite Hm.
  destruct (_ && _); [by exists f|]. exists id. split; [by intros b|]. by destruct (m !! q).
Qed.
