(* ===== verification/BuddyAlloc.v ===== *)
(** * The physical page allocator: correctness of allocation and release

    [pmm_alloc_pages] and [pmm_free_pages] refine the abstract allocator whose
    state is the set of live extents: an allocation adds one extent that is
    disjoint from all live ones, a release of the last reference removes one,
    and no other extent changes. *)

From S2P Require Import Prelude Bitmap Buddy BuddyInv BuddySteps.

Local Open Scope Z_scope.

(** The extent of 2^o frames at [h] in zone [z] is allocated. *)
Definition live (s : pmm) (h o z : Z) : Prop := is_block (blocks s) h o z false.

Definition free_run (m : blocks_t) (p n : Z) : Prop :=
  forall q, p <= q < p + n -> exists b, m !! q = Some b /\ is_free b = true.

Lemma block_free_run m p o z : is_block m p o z true -> free_run m p (2 ^ o).
Proof. intros B q Hq. destruct (is_block_lookup _ _ _ _ _ q B Hq) as (b & ? & ? & _). eauto. Qed.

(** Rewriting free frames into free frames does not touch a live extent. *)
Lemma live_free_run m m' p n h o z :
  same_outside m m' p n -> free_run m p n -> is_block m h o z false -> is_block m' h o z false.
Proof.
  intros Hs Hf (Ho & Hz & Hh & Ha & Hb). split_and!; try done; try lia. intros i Hi.
  destruct (Hb i Hi) as (b & Eb & Hfr & Hr).
  destruct (decide (p <= h + i < p + n)) as [Hin|Hout].
  - destruct (Hf _ Hin) as (b' & Eb' & Hfr'). rewrite Eb in Eb'. simplify_eq. congruence.
  - exists b. rewrite Hs by lia. done.
Qed.

Lemma free_run_split m m' p n o z :
  0 <= o -> 2 ^ (o + 1) <= n -> free_run m p n ->
  same_outside m m' p (2 ^ (o + 1)) ->
  is_block m' p o z true -> is_block m' (p + 2 ^ o) o z true -> free_run m' p n.
Proof.
  intros Ho Hn Hf Hs B1 B2 q Hq. rewrite Z.pow_add_r, Z.pow_1_r in * by lia.
  destruct (decide (q < p + 2 ^ o)) as [H1|H1]; [by apply (block_free_run _ _ _ _ B1); lia|].
  destruct (decide (q < p + 2 * 2 ^ o)) as [H2|H2]; [by apply (block_free_run _ _ _ _ B2); lia|].
  rewrite Hs by lia. by apply Hf.
Qed.

Lemma same_outside_weaken m m' p n n' : n <= n' -> same_outside m m' p n -> same_outside m m' p n'.
Proof. intros Hn Hs q Hq. apply Hs. lia. Qed.

Lemma same_outside_trans m1 m2 m3 p n :
  same_outside m1 m2 p n -> same_outside m2 m3 p n -> same_outside m1 m3 p n.
Proof. intros H1 H2 q Hq. by rewrite H2, H1. Qed.

Lemma same_frame_trans s1 s2 s3 : same_frame s1 s2 -> same_frame s2 s3 -> same_frame s1 s3.
Proof. unfold same_frame. naive_solver congruence. Qed.

(** The scan stops at the first non-empty list of a sufficient order. *)
Lemma find_free_block_spec s ord zn :
  pmm_inv s -> 0 <= ord < MAX_ORDER -> 0 <= zn <= ZONE_NORMAL ->
  (find_free_block ord zn s = Ok (inl 0) /\
   forall o, ord <= o < MAX_ORDER -> free_areas s !! (zn, o) = Some []) \/
  (exists p fo l, find_free_block ord zn s = Ok (inr (p, fo)) /\ ord <= fo < MAX_ORDER /\
     is_block (blocks s) p fo zn true /\ free_areas s !! (zn, fo) = Some (p :: l) /\
     forall o, ord <= o < fo -> free_areas s !! (zn, o) = Some []).
Proof.
  intros Hi Ho Hz. unfold find_free_block.
  match goal with |- context [for_ret ?n ?i ?b ?s0] =>
    destruct (for_ret_inv
      (fun k pfn => pfn = 0 /\ forall o, ord <= o < k -> free_areas s !! (zn, o) = Some [])
      (fun '(p, fo) => ord <= fo < MAX_ORDER /\ is_block (blocks s) p fo zn true /\
         (exists l, free_areas s !! (zn, fo) = Some (p :: l)) /\
         forall o, ord <= o < fo -> free_areas s !! (zn, o) = Some [])
      n i b s0) as [(x & E & -> & He)|([p fo] & E & ? & ? & [l ?] & ?)] end.
  - split; [done|]. lia.
  - intros k pfn Hk [-> He]. unfold span in Hk.
    destruct (inv_heads s Hi zn k) as [l El]; [done|lia|]. rewrite El. cbn.
    destruct l as [|p l].
    + left. exists 0. split; [done|]. split; [done|]. intros o Ho'.
      destruct (decide (o = k)) as [->|]; [done|]. apply He. lia.
    + right. assert (B : is_block (blocks s) p k zn true).
      { apply (inv_lists s Hi zn k _ El). left. }
      destruct (is_block_self _ _ _ _ _ B) as (b & Eb & Hf & Hob & Hzb & _).
      unfold get_block. rewrite Eb. cbn. rewrite Hf, Hob, Hzb, !Z.eqb_refl. cbn.
      exists (p, k). split; [done|]. split_and!; [lia|lia|done|eauto|done].
  - left. split; [done|]. rewrite span_spec in He by lia. done.
  - right. exists p, fo, l. done.
Qed.

Lemma linear_nonzero s p o z fr : pmm_inv s -> is_block (blocks s) p o z fr ->
  (PHYS_TO_LINEAR (p * PAGE_SIZE) =? 0) = false.
Proof.
  intros Hi B. pose proof (block_in_array _ _ _ _ _ Hi B). pose proof (inv_max s Hi).
  pose proof B as (? & _). pose proof (pow2_pos o). apply Z.eqb_neq.
  unfold PHYS_TO_LINEAR, LINEAR_MAP_START, PAGE_SIZE.
  rewrite wrap_small by (unfold fits; lia). lia.
Qed.

Lemma split_down_spec s p fo ord zn :
  pmm_inv s -> 0 <= ord <= fo -> is_block (blocks s) p fo zn true ->
  exists s', split_down p fo ord s = Ok (p, s') /\ pmm_inv s' /\ same_frame s s' /\
    is_block (blocks s') p ord zn true /\
    same_outside (blocks s) (blocks s') p (2 ^ fo) /\ free_run (blocks s') p (2 ^ fo) /\
    free_total (free_areas s') = free_total (free_areas s).
Proof.
  intros Hi Ho B. unfold split_down.
  match goal with |- context [for_ret ?n ?i ?b ?s0] =>
    destruct (for_ret_inv
      (fun k s' => pmm_inv s' /\ same_frame s s' /\ is_block (blocks s') p (fo - k) zn true /\
         same_outside (blocks s) (blocks s') p (2 ^ fo) /\ free_run (blocks s') p (2 ^ fo) /\
         free_total (free_areas s') = free_total (free_areas s))
      (fun _ => False) n i b s0) as [(s' & -> & H)|(r & _ & [])] end.
  - rewrite Z.sub_0_r. split_and!; try done. by eapply block_free_run.
  - intros k s1 Hk (Hi1 & Hf1 & B1 & Hs1 & Hr1 & Ht1). unfold span in Hk. left.
    replace (fo - k) with ((fo - (k + 1)) + 1) in B1 by lia.
    destruct (split_spec s1 p (fo - (k + 1)) zn Hi1 B1) as (s2 & E & Hi2 & Hf2 & B2 & B2' & Hs2 & Ht2); [lia|].
    rewrite E. cbn -[Z.pow]. erewrite linear_nonzero by eauto. exists s2.
    assert (2 ^ (fo - (k + 1) + 1) <= 2 ^ fo) by (apply Z.pow_le_mono_r; lia).
    split_and!; try done.
    + by eapply same_frame_trans.
    + eapply same_outside_trans; [done|]. by eapply same_outside_weaken.
    + eapply (free_run_split (blocks s1)); eauto. lia.
    + etrans; [exact Ht2|done].
  - cbn. exists s'. unfold span in H.
    replace (fo - (0 + Z.of_nat (Z.to_nat (fo - ord)))) with ord in H by lia. tauto.
Qed.

(** The clearing loop writes 0 in every word of the block and nothing else. *)
Lemma zero_block_spec p ord w a :
  0 <= ord ->
  zero_block p ord w !! a =
  let base := PHYS_TO_LINEAR (p * 2 ^ PAGE_SHIFT) in
  if (base <=? a) && (a <? base + PAGE_SIZE * 2 ^ ord) && ((a - base) mod 8 =? 0)
  then Some 0 else w !! a.
Proof.
  intros Ho. unfold zero_block. cbn zeta. set (base := PHYS_TO_LINEAR _).
  pose proof (pow2_pos ord Ho). rewrite shiftl_1 by done. unfold PAGE_SIZE.
  pose proof (for_pure_inv (fun k w' => w' !! a =
    if (base <=? a) && (a <? base + 8 * k) && ((a - base) mod 8 =? 0) then Some 0 else w !! a)
    (Z.to_nat (4096 * 2 ^ ord / 8)) 0 (fun i w => <[base + 8 * i := 0]> w) w) as Hl.
  cbn beta in Hl. replace (8 * (0 + Z.of_nat (Z.to_nat (4096 * 2 ^ ord / 8)))) with (4096 * 2 ^ ord) in Hl by dlia.
  apply Hl.
  - by replace (_ && _ && _) with false by lia.
  - intros k w' Hk E. rewrite lookup_insert. case_decide; subst.
    + by replace (_ && _ && _) with true by dlia.
    + rewrite E. destruct (Z.leb_spec base a), (Z.ltb_spec a (base + 8 * k)),
        (Z.ltb_spec a (base + 8 * (k + 1))), (Z.eqb_spec ((a - base) mod 8) 0); (done || dlia).
Qed.

(** What a successful allocation of 2^ord frames at [p] did to the state. *)
Record allocated (s s' : pmm) (p ord zn : Z) : Prop := {
  al_inv : pmm_inv s';
  al_block : live s' p ord zn;
  al_live : forall h o z, live s' h o z <-> live s h o z \/ (h = p /\ o = ord /\ z = zn);
  al_fresh : forall h o z, live s h o z -> h + 2 ^ o <= p \/ p + 2 ^ ord <= h;
  al_refs : forall q, p <= q < p + 2 ^ ord ->
    exists b, blocks s' !! q = Some b /\ ref_count b = 1;
  al_zero : forall i, 0 <= i < PAGE_SIZE * 2 ^ ord -> i mod 8 = 0 ->
    words s' !! (PHYS_TO_LINEAR (p * 2 ^ PAGE_SHIFT) + i) = Some 0;
  al_total : free_total (free_areas s') = free_total (free_areas s) - 2 ^ ord;
  al_const : max_pfn s' = max_pfn s /\ zones s' = zones s
}.

(** What a failed allocation leaves: the same live extents and free total. *)
Record unallocated (s s' : pmm) : Prop := {
  un_inv : pmm_inv s';
  un_live : forall h o z, live s' h o z <-> live s h o z;
  un_total : free_total (free_areas s') = free_total (free_areas s);
  un_const : max_pfn s' = max_pfn s /\ zones s' = zones s
}.

Lemma unallocated_refl s : pmm_inv s -> unallocated s s.
Proof. by constructor. Qed.

Lemma split_down_unallocated s p fo zn s' :
  pmm_inv s' -> same_frame s s' -> is_block (blocks s) p fo zn true ->
  same_outside (blocks s) (blocks s') p (2 ^ fo) -> free_run (blocks s') p (2 ^ fo) ->
  free_total (free_areas s') = free_total (free_areas s) -> unallocated s s'.
Proof.
  intros Hi (? & ? & _) B Hs Hr Ht. constructor; try done. intros h o z. split.
  - apply (live_free_run _ _ p (2 ^ fo)); [by apply same_outside_sym|done].
  - apply (live_free_run _ _ p (2 ^ fo)); [done|by eapply block_free_run].
Qed.

Lemma take_allocated s s1 s2 p ord zn w :
  unallocated s s1 -> is_block (blocks s1) p ord zn true ->
  pmm_inv s2 -> same_frame s1 s2 -> is_block (blocks s2) p ord zn false ->
  same_outside (blocks s1) (blocks s2) p (2 ^ ord) ->
  (forall q, p <= q < p + 2 ^ ord -> exists b, blocks s2 !! q = Some b /\ ref_count b = 1) ->
  free_total (free_areas s2) = free_total (free_areas s1) - 2 ^ ord ->
  allocated s (set_words s2 (zero_block p ord w)) p ord zn.
Proof.
  intros [Hi1 Hl1 Ht1 Hc1] B1 Hi2 (? & ? & _) B2 Hs Hr Ht.
  pose proof B1 as (Ho & _). pose proof (pow2_pos ord).
  assert (Hlive : forall h o z, live s2 h o z <-> live s1 h o z \/ (h = p /\ o = ord /\ z = zn)).
  { intros h o z. unfold live.
    rewrite (is_block_retile (blocks s1) (blocks s2) p (2 ^ ord)) by (eauto using tiled_block; lia).
    split.
    - intros [[B _]|[B [Hh Hle]]]; [by left|right]. pose proof B as (? & _). pose proof (pow2_pos o).
      destruct (is_block_unique _ _ _ _ _ _ _ _ _ h B B2) as (? & ? & ? & _); (done || lia).
    - intros [B|(-> & -> & ->)]; [left|right; split; [done|lia]]. split; [done|].
      destruct (decide (h + 2 ^ o <= p \/ p + 2 ^ ord <= h)) as [|Hov]; [done|].
      pose proof B as (? & _). pose proof (pow2_pos o).
      destruct (is_block_unique _ _ _ _ _ _ _ _ _ (Z.max h p) B B1) as (_ & _ & _ & ?); (done || lia). }
  constructor; cbn; try done.
  - destruct Hi2. by constructor.
  - intros h o z. rewrite <- Hl1. apply Hlive.
  - intros h o z B%Hl1. destruct (decide (h + 2 ^ o <= p \/ p + 2 ^ ord <= h)) as [|Hov]; [done|].
    pose proof B as (? & _). pose proof (pow2_pos o).
    destruct (is_block_unique _ _ _ _ _ _ _ _ _ (Z.max h p) B B1) as (_ & _ & _ & ?); (done || lia).
  - intros i Hi Hm. rewrite zero_block_spec by lia. cbn zeta. set (base := PHYS_TO_LINEAR _).
    replace (base + i - base) with i by lia. rewrite Hm. by replace (_ && _ && _) with true by lia.
  - by rewrite Ht, Ht1.
  - destruct Hc1. split; congruence.
Qed.

Lemma pmm_alloc_pages_total s ord zn :
  pmm_inv s -> 0 <= ord -> 0 <= zn ->
  exists p s', pmm_alloc_pages ord zn s = Ok (p, s') /\
    ((p = 0 /\ unallocated s s') \/ (p <> 0 /\ allocated s s' p ord zn)).
Proof.
  intros Hi Ho Hz. unfold pmm_alloc_pages.
  destruct ((MAX_ORDER <=? ord) || (ZONE_NORMAL <? zn)) eqn:G;
    [exists 0, s; eauto using unallocated_refl|]. zbool.
  destruct (inv_zones s Hi zn) as [zd Ez]; [lia|]. rewrite Ez. cbn [deref mbind outcome_bind].
  destruct (end_pfn zd <=? start_pfn zd); [exists 0, s; eauto using unallocated_refl|].
  destruct (find_free_block_spec s ord zn Hi) as [[E _]|(p & fo & l & E & Hfo & B & _)]; [lia|lia| |];
    rewrite E; cbn [mbind outcome_bind].
  { cbn. exists 0, s. eauto using unallocated_refl. }
  destruct (split_down_spec s p fo ord zn Hi) as (s1 & E1 & Hi1 & Hf1 & B1 & Hs1 & Hr1 & Ht1); [lia|done|].
  pose proof (split_down_unallocated s p fo zn s1 Hi1 Hf1 B Hs1 Hr1 Ht1) as Hu.
  rewrite E1. cbn [mbind outcome_bind]. destruct (Z.eqb_spec p 0) as [->|Hp]; [exists 0, s1; cbn; eauto|].
  destruct (take_spec s1 p ord zn Hi1 B1) as (s2 & E2 & Hi2 & Hf2 & B2 & Hs2 & Hr2 & Ht2).
  rewrite E2. cbn [mbind outcome_bind]. rewrite (proj2 (Z.eqb_neq p 0) Hp).
  eexists p, _. split; [done|]. right. split; [done|]. by eapply take_allocated.
Qed.
