(* ===== verification/BuddyFree.v ===== *)
(** * The physical page allocator: release and merging *)

From S2P Require Import Prelude Bitmap Buddy BuddyInv BuddySteps BuddyAlloc.

Local Open Scope Z_scope.

Lemma unallocated_trans s1 s2 s3 : unallocated s1 s2 -> unallocated s2 s3 -> unallocated s1 s3.
Proof.
  intros [? L1 T1 [M1 Z1]] [? L2 T2 [M2 Z2]]. constructor; try done; try congruence.
  - intros. by rewrite L2, L1.
  - split; congruence.
Qed.

(** The descriptor of an aligned frame that says "free, order [k]" is the
    head of a free block of order [k]. *)
Lemma free_desc_block s q b :
  pmm_inv s -> blocks s !! q = Some b -> is_free b = true -> q mod 2 ^ order b = 0 ->
  is_block (blocks s) q (order b) (zone b) true.
Proof.
  intros Hi Eb Hf Ha. assert (Hq : 0 <= q <= max_pfn s) by (apply (inv_dom s Hi); eauto).
  destruct (inv_cover s Hi q Hq) as (h & o & z & fr & B & Hr).
  destruct (is_block_lookup _ _ _ _ _ q B Hr) as (b' & Eb' & ? & ? & ? & _).
  rewrite Eb in Eb'. simplify_eq. pose proof B as (? & _ & _ & ? & _).
  replace q with h; [by rewrite <- Hf|].
  eapply (aligned_unique (2 ^ order b')); eauto; [apply pow2_pos; lia|].
  pose proof (pow2_pos (order b')). lia.
Qed.

(** A head descriptor describes the block that starts at it. *)
Lemma head_desc_block s q b :
  pmm_inv s -> blocks s !! q = Some b -> is_head b = true ->
  is_block (blocks s) q (order b) (zone b) (is_free b).
Proof.
  intros Hi Eb Hh. assert (Hq : 0 <= q <= max_pfn s) by (apply (inv_dom s Hi); eauto).
  destruct (inv_cover s Hi q Hq) as (h & o & z & fr & B & Hr).
  destruct (is_block_lookup _ _ _ _ _ q B Hr) as (b' & Eb' & ? & ? & ? & Hh').
  rewrite Eb in Eb'. simplify_eq. rewrite Hh in Hh'. symmetry in Hh'. apply Z.eqb_eq in Hh'. by subst h.
Qed.

Lemma lxor_aligned k p : 0 <= k -> 0 <= p -> p mod 2 ^ k = 0 -> Z.lxor p (2 ^ k) mod 2 ^ k = 0.
Proof.
  intros Hk Hp Ha. pose proof (pow2_pos k Hk). rewrite lxor_buddy by done.
  destruct (Z.testbit p k).
  - rewrite Zminus_mod, Ha, Z_mod_same_full. done.
  - rewrite Z.add_mod, Ha, Z_mod_same_full by lia. done.
Qed.

(** One merge of two free buddies. *)
Lemma merge_unallocated s p1 p2 k z :
  pmm_inv s -> is_block (blocks s) p1 k z true -> is_block (blocks s) p2 k z true ->
  Z.lxor p1 p2 = 2 ^ k -> k + 1 < MAX_ORDER ->
  exists a s', merge_buddy_block p1 p2 s = Ok (a, s') /\ (a =? 0) = false /\
    unallocated s s' /\ is_block (blocks s') (Z.min p1 p2) (k + 1) z true.
Proof.
  intros Hi B1 B2 Hx Hk.
  destruct (merge_spec s p1 p2 k z Hi B1 B2 Hx Hk) as (s' & E & Hi' & Hf & B & Hs & Ht & Hft).
  eexists _, s'. split; [exact E|]. pose proof Hf as (? & ? & _). split; [|split; [|done]].
  - by eapply linear_nonzero.
  - constructor; try done. intros h o z'. split.
    + apply (live_free_run _ _ (Z.min p1 p2) (2 ^ (k + 1))); [by apply same_outside_sym|].
      by eapply block_free_run.
    + apply (live_free_run _ _ (Z.min p1 p2) (2 ^ (k + 1))); [done|]. intros q Hq.
      pose proof B1 as (? & _ & ? & ? & _). pose proof (pow2_pos k).
      destruct (buddy_pair k p1 p2) as [_ Hmax]; [lia|done|done|done|].
      rewrite Z.pow_add_r, Z.pow_1_r in Hq by lia.
      assert (p1 <= q < p1 + 2 ^ k \/ p2 <= q < p2 + 2 ^ k) as [Hr|Hr] by lia;
        [by apply (block_free_run _ _ _ _ B1)|by apply (block_free_run _ _ _ _ B2)].
Qed.

Lemma merge_up_spec s p ord z :
  pmm_inv s -> is_block (blocks s) p ord z true ->
  exists s', merge_up p ord z s = Ok s' /\ unallocated s s'.
Proof.
  intros Hi B. pose proof B as (Ho & _). unfold merge_up.
  match goal with |- context [for_ret ?n ?i ?b ?s0] =>
    destruct (for_ret_inv
      (fun k '(s', cur) => unallocated s s' /\ is_block (blocks s') cur k z true)
      (unallocated s) n i b s0) as [([s' cur] & -> & H & _)|(s' & -> & H)] end.
  - split; [by apply unallocated_refl|done].
  - intros k [s1 cur] Hk [Hu B1]. unfold span in Hk. unfold MAX_ORDER in *.
    pose proof (un_inv _ _ Hu) as Hi1. pose proof B1 as (_ & Hz & Hc & Ha & _).
    rewrite shiftl_1 by lia. set (buddy := Z.lxor cur (2 ^ k)).
    destruct (Z.leb_spec buddy (max_pfn s1)) as [Hle|]; [|right; exists s1; done].
    assert (0 <= buddy) by (apply Z.lxor_nonneg; pose proof (pow2_pos k); lia).
    destruct (proj2 (inv_dom s1 Hi1 buddy)) as [b Eb]; [lia|].
    unfold get_block. rewrite Eb. cbn [deref mbind outcome_bind].
    destruct (is_free b && (order b =? k) && (zone b =? z)) eqn:G; [|right; exists s1; done]. zbool.
    assert (B2 : is_block (blocks s1) buddy k z true).
    { pose proof (free_desc_block s1 buddy b Hi1 Eb) as F. subst k z. apply F; [done|].
      apply lxor_aligned; (done || lia). }
    destruct (merge_unallocated s1 cur buddy k z Hi1 B1 B2) as (a & s2 & E & Hnz & Hu2 & B3);
      [subst buddy; by rewrite <- Z.lxor_assoc, Z.lxor_nilpotent, Z.lxor_0_l|unfold MAX_ORDER; lia|].
    rewrite E. cbn [mbind outcome_bind]. rewrite Hnz. left. eexists (_, _). split; [done|].
    split; [by eapply unallocated_trans|].
    by replace (if cur <? buddy then cur else buddy) with (Z.min cur buddy)
      by (destruct (Z.ltb_spec cur buddy); lia).
  - cbn. eauto.
  - cbn. eauto.
Qed.

(** What the release of the last reference of the extent at [p] did. *)
Record released (s s' : pmm) (p o z : Z) : Prop := {
  re_inv : pmm_inv s';
  re_live : forall h o' z', live s' h o' z' <-> live s h o' z' /\ h <> p;
  re_total : free_total (free_areas s') = free_total (free_areas s) + 2 ^ o;
  re_const : max_pfn s' = max_pfn s /\ zones s' = zones s
}.

Lemma release_released s s' p o z :
  pmm_inv s -> live s p o z -> pmm_inv s' -> same_frame s s' ->
  is_block (blocks s') p o z true -> same_outside (blocks s) (blocks s') p (2 ^ o) ->
  free_total (free_areas s') = free_total (free_areas s) + 2 ^ o -> released s s' p o z.
Proof.
  intros Hi B Hi' (? & ? & _) B' Hs Ht. pose proof B as (Ho & _). pose proof (pow2_pos o).
  constructor; try done. intros h o' z'. unfold live.
  rewrite (is_block_retile (blocks s) (blocks s') p (2 ^ o)) by (eauto using tiled_block; lia).
  split.
  - intros [[B1 ?]|[B1 ?]]; pose proof B1 as (? & _); pose proof (pow2_pos o'); [split; [done|lia]|].
    destruct (is_block_unique _ _ _ _ _ _ _ _ _ h B1 B') as (_ & _ & _ & ?); (done || lia).
  - intros [B1 Hne]. left. split; [done|]. pose proof B1 as (? & _). pose proof (pow2_pos o').
    destruct (decide (h + 2 ^ o' <= p \/ p + 2 ^ o <= h)) as [|Hov]; [done|].
    destruct (is_block_unique _ _ _ _ _ _ _ _ _ (Z.max h p) B1 B) as (? & _); (done || lia).
Qed.

Lemma released_unallocated s1 s2 s3 p o z :
  released s1 s2 p o z -> unallocated s2 s3 -> released s1 s3 p o z.
Proof.
  intros [? L1 T1 [M1 Z1]] [? L2 T2 [M2 Z2]]. constructor; try done.
  - intros. by rewrite L2.
  - by rewrite T2.
  - split; congruence.
Qed.

Lemma drop_ref_shape : keeps_shape drop_ref.
Proof. intros b. unfold drop_ref. by destruct (0 <? ref_count b). Qed.

Lemma shape_unallocated s m' : pmm_inv s -> same_shape (blocks s) m' -> unallocated s (set_blocks s m').
Proof.
  intros Hi Hs. constructor; try done; [by apply inv_same_shape|].
  intros. symmetry. by apply same_shape_block.
Qed.

(** How [pmm_free_pages] behaves on each of its branches. *)
Inductive free_result (s : pmm) (p : Z) (s' : pmm) : Prop :=
| free_ignored : (forall o z, ~ live s p o z) -> s' = s -> free_result s p s'
| free_shared b o z : live s p o z -> blocks s !! p = Some b -> 1 < ref_count b ->
    unallocated s s' -> (exists b', blocks s' !! p = Some b' /\ ref_count b' = ref_count b - 1) ->
    free_result s p s'
| free_last b o z : live s p o z -> blocks s !! p = Some b -> ref_count b <= 1 ->
    released s s' p o z -> free_result s p s'.

Lemma pmm_free_pages_total s p :
  pmm_inv s -> 0 <= p <= max_pfn s ->
  (forall b, blocks s !! p = Some b -> fits 32 (ref_count b)) ->
  exists s', pmm_free_pages p s = Ok s' /\ free_result s p s'.
Proof.
  intros Hi Hp Hfit. destruct (proj2 (inv_dom s Hi p) Hp) as [b Eb].
  unfold pmm_free_pages, check_pfn_valid, get_block.
  replace (p <=? max_pfn s) with true by lia. rewrite Eb. cbn [assert_or_panic deref mbind outcome_bind].
  destruct (negb (is_head b) || is_free b) eqn:G.
  { exists s. split; [done|]. apply free_ignored; [|done]. intros o z B.
    destruct (is_block_self _ _ _ _ _ B) as (b' & E' & ? & _ & _ & ?). rewrite Eb in E'. simplify_eq.
    destruct (is_head b'), (is_free b'); done. }
  zbool. pose proof (head_desc_block s p b Hi Eb ltac:(done)) as B.
  rewrite (ltac:(done) : is_free b = false) in B. pose proof B as (Ho & _).
  assert (2 ^ order b <= 2 ^ 15) by (apply Z.pow_le_mono_r; unfold MAX_ORDER in *; lia).
  pose proof (pow2_pos (order b)). rewrite shiftl_1, (wrap_small 16) by (unfold fits; lia).
  destruct (upd_pages_shape (blocks s) p (2 ^ order b) drop_ref) as (m' & -> & Hsh & Hm);
    [lia| |exact drop_ref_shape|].
  { intros q Hq. apply (inv_dom s Hi). pose proof (block_in_array s _ _ _ _ Hi B). lia. }
  cbn [mbind outcome_bind blocks set_blocks].
  assert (Em : m' !! p = Some (drop_ref b)).
  { rewrite Hm. replace (_ && _) with true by lia. by rewrite Eb. }
  rewrite Em. cbn [deref mbind outcome_bind].
  pose proof (shape_unallocated s m' Hi Hsh) as Hu.
  assert (B1 : is_block m' p (order b) (zone b) false) by (by rewrite <- same_shape_block).
  assert (Hr : ref_count (drop_ref b) = Z.max 0 (ref_count b - 1)).
  { specialize (Hfit b Eb). unfold drop_ref. destruct (Z.ltb_spec 0 (ref_count b)); cbn.
    - rewrite wrap_small; unfold fits in *; lia.
    - unfold fits in *. lia. }
  destruct (Z.ltb_spec 0 (ref_count (drop_ref b))).
  { eexists. split; [done|]. eapply (free_shared _ _ _ b); try done; [lia|].
    exists (drop_ref b). split; [done|lia]. }
  destruct (release_spec (set_blocks s m') p (order b) (zone b)) as (s2 & E2 & Hi2 & Hf2 & B2 & Hs2 & Ht2);
    [apply Hu|done|].
  rewrite E2. cbn [mbind outcome_bind].
  destruct (merge_up_spec s2 p (order b) (zone b) Hi2 B2) as (s3 & E3 & Hu3).
  rewrite E3. eexists. split; [done|]. eapply (free_last _ _ _ b); try done; [lia|].
  eapply released_unallocated; [|done].
  destruct (release_released (set_blocks s m') s2 p (order b) (zone b)) as [? HL HT HC]; try done; [apply Hu|].
  constructor; try done. intros h o' z'. rewrite HL. by rewrite (un_live _ _ Hu).
Qed.
