(* ===== verification/BuddySpec.v ===== *)
(** * The physical page allocator: the theorems

    The claims about [pmm_alloc_pages], [pmm_free_pages] and their sequences,
    with a four-page machine as the concrete instance. *)

From S2P Require Import Prelude Bitmap Buddy BuddyInv BuddySteps BuddyAlloc BuddyFree.

Local Open Scope Z_scope.

(** ** Reference counts keep their width under every operation *)

Definition refs_ok (m : blocks_t) : Prop :=
  forall q b, m !! q = Some b -> fits 32 (ref_count b).

Definition keeps_refs (f : mem_block_t -> mem_block_t) : Prop :=
  forall b, fits 32 (ref_count b) -> fits 32 (ref_count (f b)).

Lemma upd_block_refs m p f m' :
  keeps_refs f -> refs_ok m -> upd_block m p f = Ok m' -> refs_ok m'.
Proof.
  intros Hf Hm E. unfold upd_block, get_block in E. inv_ok. intros q b.
  rewrite lookup_insert. case_decide; [intros [= <-]; eauto|apply Hm].
Qed.

Lemma for_up_keeps {S} (P : S -> Prop) n i body (s s' : S) :
  (forall k s s', P s -> body k s = Ok s' -> P s') -> P s -> for_up n i body s = Ok s' -> P s'.
Proof.
  intros Hb. revert i s. induction n as [|n IH]; intros i s Hs E; cbn in E; inv_ok; eauto.
Qed.

Lemma for_ret_keeps {S R} (P : S -> Prop) (Q : R -> Prop) n i body (s : S) r :
  (forall k s r, P s -> body k s = Ok r -> match r with inl s' => P s' | inr x => Q x end) ->
  P s -> for_ret n i body s = Ok r -> match r with inl s' => P s' | inr x => Q x end.
Proof.
  intros Hb. revert i s. induction n as [|n IH]; intros i s Hs E; cbn in E; inv_ok; [done|].
  pose proof (Hb i s _ Hs E0) as Hr. destruct r0; cbn in E; [by eapply IH|]. by inv_ok.
Qed.

Lemma upd_pages_refs m p n f m' :
  (forall i, keeps_refs (f i)) -> refs_ok m -> upd_pages m p n f = Ok m' -> refs_ok m'.
Proof.
  intros Hf Hm E. eapply (for_up_keeps refs_ok); [|exact Hm|exact E].
  intros k m1 m2 H1 E1. eapply upd_block_refs; [apply Hf|exact H1|exact E1].
Qed.

Lemma fits_u32 x : fits 32 (u32 x).
Proof. by apply wrap_fits. Qed.

Lemma remove_refs p s s' : refs_ok (blocks s) -> remove_free_lists p s = Ok s' -> refs_ok (blocks s').
Proof.
  intros H E. unfold remove_free_lists in E. inv_ok. destruct (zone r =? 255); inv_ok; done.
Qed.

Lemma add_refs p z o s s' : refs_ok (blocks s) -> add_free_lists p z o s = Ok s' -> refs_ok (blocks s').
Proof. intros H E. unfold add_free_lists in E. inv_ok. done. Qed.

Lemma split_refs p s a s' :
  refs_ok (blocks s) -> split_buddy_block p s = Ok (a, s') -> refs_ok (blocks s').
Proof.
  intros H E. unfold split_buddy_block in E. inv_ok.
  eapply add_refs; [|eassumption]. eapply add_refs; [|eassumption]. cbn.
  eapply (for_up_keeps refs_ok); [|eapply remove_refs; eassumption|eassumption].
  intros k m1 m2 H1 Em. inv_ok.
  eapply upd_block_refs; [|eapply upd_block_refs; [|exact H1|eassumption]|eassumption];
    intros b _; apply fits_u32.
Qed.

Lemma merge_refs p1 p2 s a s' :
  refs_ok (blocks s) -> merge_buddy_block p1 p2 s = Ok (a, s') -> refs_ok (blocks s').
Proof.
  intros H E. unfold merge_buddy_block in E. inv_ok.
  destruct (_ || _); [by inv_ok|]. destruct (negb _); [by inv_ok|]. inv_ok.
  eapply upd_pages_refs; [|eapply add_refs; [|eassumption]|eassumption].
  - by intros i b.
  - eapply remove_refs; [|eassumption]. by eapply remove_refs.
Qed.

Lemma split_down_refs p fo ord s a s' :
  refs_ok (blocks s) -> split_down p fo ord s = Ok (a, s') -> refs_ok (blocks s').
Proof.
  intros H E. unfold split_down in E. inv_ok.
  apply (for_ret_keeps (fun s => refs_ok (blocks s)) (fun x => refs_ok (blocks x.2))) in E0;
    [by destruct r as [|[]]; simplify_eq/=| |done].
  intros k s1 r1 H1 E1. inv_ok. destruct r0. inv_ok.
  destruct (_ =? 0); cbn; by eapply split_refs.
Qed.

Lemma take_refs p ord s s' : refs_ok (blocks s) -> take_block p ord s = Ok s' -> refs_ok (blocks s').
Proof.
  intros H E. unfold take_block in E. inv_ok. cbn.
  eapply upd_pages_refs; [|by eapply remove_refs|eassumption]. intros i b _. by vm_compute.
Qed.

Lemma pmm_alloc_refs ord zn s p s' :
  refs_ok (blocks s) -> pmm_alloc_pages ord zn s = Ok (p, s') -> refs_ok (blocks s').
Proof.
  intros H E. unfold pmm_alloc_pages in E. destruct (_ || _); [by inv_ok|]. inv_ok.
  destruct (_ <=? _); [by inv_ok|]. inv_ok.
  assert (refs_ok (blocks r1.2)) as Hr; [|destruct r1 as [p1 s1]; destruct (p1 =? 0); by inv_ok].
  destruct r0 as [p0|[p0 fo]]; inv_ok; [done|]. destruct r0 as [p2 s2]. cbn in *.
  apply split_down_refs in E3; [|done]. destruct (p2 =? 0); inv_ok; [done|]. by eapply take_refs.
Qed.

Lemma merge_up_refs p ord z s s' :
  refs_ok (blocks s) -> merge_up p ord z s = Ok s' -> refs_ok (blocks s').
Proof.
  intros H E. unfold merge_up in E. inv_ok.
  apply (for_ret_keeps (fun x : pmm * Z => refs_ok (blocks x.1)) (fun s => refs_ok (blocks s))) in E0;
    [by destruct r as [[]|]; simplify_eq/=| |done].
  intros k [s1 cur] r1 H1 E1. cbn in H1, E1. destruct (_ <=? _); inv_ok; [|done].
  destruct (_ && _); inv_ok; [|done]. destruct r2 as [a s2]. apply merge_refs in E2; [|done].
  by destruct (a =? 0); inv_ok.
Qed.

Lemma pmm_free_refs p s s' : refs_ok (blocks s) -> pmm_free_pages p s = Ok s' -> refs_ok (blocks s').
Proof.
  intros H E. unfold pmm_free_pages in E. inv_ok. destruct (_ || _); inv_ok; [done|].
  assert (H1 : refs_ok r1).
  { eapply upd_pages_refs; [|exact H|eassumption]. intros _ b Hb. unfold drop_ref.
    destruct (0 <? ref_count b); [apply fits_u32|done]. }
  destruct (0 <? _); inv_ok; [done|]. eapply merge_up_refs; [|eassumption].
  unfold release_block in E4. inv_ok. eapply add_refs; [|eassumption]. cbn.
  eapply upd_pages_refs; [|exact H1|eassumption]. by intros _ b.
Qed.

(** The sum of the free lists as [calculate_total_free_pages] computes it. *)
Lemma fold_pages (l : list Z) k t :
  0 <= k -> fits 64 (t + 2 ^ k * Z.of_nat (length l)) -> 0 <= t ->
  fold_left (fun t _ => u64 (t + Z.shiftl 1 k)) l t = t + 2 ^ k * Z.of_nat (length l).
Proof.
  intros Hk. rewrite shiftl_1 by done. revert t. induction l as [|x l IH]; intros t Hf Ht; [cbn; lia|].
  cbn [fold_left length] in *. pose proof (pow2_pos k Hk).
  rewrite wrap_small by (unfold fits in *; nia).
  rewrite IH; [lia| |lia]. unfold fits in *. lia.
Qed.

Definition add_area (fa : free_areas_t) (t : Z) (k : Z * Z) : Z :=
  fold_left (fun t _ => u64 (t + Z.shiftl 1 k.2)) (default [] (fa !! k)) t.

Lemma calculate_total_areas fa :
  calculate_total_free_pages fa = fold_left (add_area fa) all_areas 0.
Proof. reflexivity. Qed.

Lemma area_pages_nonneg fa k : 0 <= area_pages fa k.
Proof. unfold area_pages. apply Z.mul_nonneg_nonneg; [by apply Z.pow_nonneg|lia]. Qed.

Lemma fold_areas fa ks t :
  Forall (fun k => 0 <= k.2) ks -> 0 <= t ->
  fits 64 (t + foldr (fun k t => area_pages fa k + t) 0 ks) ->
  fold_left (add_area fa) ks t = t + foldr (fun k t => area_pages fa k + t) 0 ks.
Proof.
  intros Hk. revert t. induction Hk as [|k ks Hk Hks IH]; intros t Ht Hf; cbn [fold_left foldr] in *; [lia|].
  pose proof (area_pages_nonneg fa k).
  assert (0 <= foldr (fun k t => area_pages fa k + t) 0 ks) as Hr.
  { clear. induction ks as [|x ks IH]; cbn; [done|]. pose proof (area_pages_nonneg fa x). lia. }
  assert (add_area fa t k = t + area_pages fa k) as ->.
  { unfold add_area, area_pages in *. apply fold_pages; try done. unfold fits in *. lia. }
  rewrite IH; [lia|lia|]. unfold fits in *. lia.
Qed.

(** ** The abstract allocator and the operations *)

(** The requests the rest of the kernel makes. *)
Inductive pmm_op :=
| OpAlloc (ord zn : Z)
| OpFree (p : Z)
| OpAddRef (p : Z)
| OpMapCount (p : Z)
| OpUnmapCount (p : Z)
| OpZeroMap (p : Z)
| OpSetPte (p ptr : Z).

Definition pmm_exec (op : pmm_op) (s : pmm) : outcome (Z * pmm) :=
  match op with
  | OpAlloc ord zn => pmm_alloc_pages ord zn s
  | OpFree p => s ← pmm_free_pages p s; Ok (0, s)
  | OpAddRef p => s ← pmm_add_ref_count p s; Ok (0, s)
  | OpMapCount p => s ← pmm_add_map_count p s; Ok (0, s)
  | OpUnmapCount p => s ← pmm_sub_map_count p s; Ok (0, s)
  | OpZeroMap p => s ← pmm_zero_map_count p s; Ok (0, s)
  | OpSetPte p ptr => s ← pmm_set_on_pte_ptr p ptr s; Ok (0, s)
  end.

(** A request a caller may make: any allocation, the release of any frame of
    the array, and counter updates on the first frame of a block. *)
Definition op_valid (s : pmm) (op : pmm_op) : Prop :=
  match op with
  | OpAlloc ord zn => fits 8 ord /\ fits 8 zn
  | OpFree p => 0 <= p <= max_pfn s
  | OpAddRef p | OpMapCount p | OpUnmapCount p | OpZeroMap p | OpSetPte p _ =>
      exists o z fr, is_block (blocks s) p o z fr
  end.

Inductive pmm_reach (s0 : pmm) : pmm -> Prop :=
| reach_start : pmm_reach s0 s0
| reach_step s op r s' : pmm_reach s0 s -> op_valid s op -> pmm_exec op s = Ok (r, s') ->
    pmm_reach s0 s'.

Lemma upd_whole_block_spec s p o z fr f :
  pmm_inv s -> refs_ok (blocks s) -> is_block (blocks s) p o z fr -> keeps_shape f -> keeps_refs f ->
  exists s', upd_whole_block p f s = Ok s' /\ unallocated s s' /\ refs_ok (blocks s').
Proof.
  intros Hi Hr B Hf Hg. pose proof B as (Ho & _). pose proof (pow2_pos o).
  pose proof (block_in_array s _ _ _ _ Hi B).
  destruct (is_block_self _ _ _ _ _ B) as (b & Eb & _ & Hob & _).
  unfold upd_whole_block, check_pfn_valid, get_block. replace (p <=? max_pfn s) with true by lia.
  rewrite Eb. cbn [assert_or_panic deref mbind outcome_bind]. rewrite Hob, shiftl_1 by lia.
  destruct (upd_pages_shape (blocks s) p (2 ^ o) f) as (m' & E & Hsh & Hm); [lia| |done|].
  { intros q Hq. apply (inv_dom s Hi). lia. }
  rewrite E. cbn [mbind outcome_bind]. eexists. split; [done|].
  split; [by apply shape_unallocated|]. eapply upd_pages_refs; [|exact Hr|exact E]. intros i. exact Hg.
Qed.

Lemma free_result_inv s p s' : pmm_inv s -> free_result s p s' -> pmm_inv s'.
Proof. intros Hi [? ->|?????? H|?????? H]; [done|apply H|apply H]. Qed.

(** One valid request succeeds and keeps the invariant. *)
Lemma pmm_exec_safe s op :
  pmm_inv s -> refs_ok (blocks s) -> op_valid s op ->
  exists r s', pmm_exec op s = Ok (r, s') /\ pmm_inv s' /\ refs_ok (blocks s').
Proof.
  intros Hi Hr Hv. destruct op as [ord zn|p|p|p|p|p|p ptr]; cbn [pmm_exec op_valid] in *.
  1:{ destruct Hv as [[? _] [? _]].
      destruct (pmm_alloc_pages_total s ord zn Hi) as (r & s' & E & HA); [done..|].
      exists r, s'. split; [done|]. split; [|by eapply pmm_alloc_refs].
      destruct HA as [[_ HA]|[_ HA]]; apply HA. }
  1:{ destruct (pmm_free_pages_total s p Hi Hv) as (s' & E & HF); [by apply Hr|].
      rewrite E. exists 0, s'. split; [done|]. split; [by eapply free_result_inv|by eapply pmm_free_refs]. }
  all: destruct Hv as (o & z & fr & B).
  all: edestruct (upd_whole_block_spec s p o z fr) as (s' & E & Hu & Hr'); [done|done|done| | |
    unfold pmm_add_ref_count, pmm_add_map_count, pmm_sub_map_count, pmm_zero_map_count, pmm_set_on_pte_ptr;
    rewrite E; exists 0, s'; split; [done|]; split; [apply Hu|done]].
  all: intros b; try destruct (0 <? map_count b); try done; try (intros _; apply fits_u32).
Qed.

Lemma pmm_reach_inv s0 s : pmm_inv s0 -> refs_ok (blocks s0) -> pmm_reach s0 s ->
  pmm_inv s /\ refs_ok (blocks s).
Proof.
  intros Hi Hr. induction 1 as [|s op r s' _ [IH1 IH2] Hv E]; [done|].
  destruct (pmm_exec_safe s op IH1 IH2 Hv) as (r' & s'' & E' & ? & ?). rewrite E in E'. by simplify_eq.
Qed.

(** ** A four-page machine: frame 0 in use, frame 1 and frames 2-3 free *)

Definition demo_desc (h f : bool) (o r : Z) : mem_block_t := MemBlock h f 0 o 0 0 r 0.

Definition demo_blocks : blocks_t :=
  list_to_map [(0, demo_desc true false 0 1); (1, demo_desc true true 0 0);
               (2, demo_desc true true 1 0); (3, demo_desc false true 1 0)].

Definition demo_list (k : Z * Z) : list Z :=
  if decide (k = (0, 0)) then [1] else if decide (k = (0, 1)) then [2] else [].

Definition demo : pmm :=
  Pmm 3 (list_to_map [(0, Zone 0 4); (1, Zone 4 4); (2, Zone 0 0)])
    (list_to_map ((fun k => (k, demo_list k)) <$> all_areas)) demo_blocks ∅.

Lemma demo_lookup p b : demo_blocks !! p = Some b ->
  (p = 0 /\ b = demo_desc true false 0 1) \/ (p = 1 /\ b = demo_desc true true 0 0) \/
  (p = 2 /\ b = demo_desc true true 1 0) \/ (p = 3 /\ b = demo_desc false true 1 0).
Proof.
  intros E. apply elem_of_list_to_map_2 in E.
  repeat (apply elem_of_cons in E as [E|E]; [simplify_eq; tauto|]). by apply not_elem_of_nil in E.
Qed.

Lemma demo_block p o f :
  (p = 0 /\ o = 0 /\ f = false) \/ (p = 1 /\ o = 0 /\ f = true) \/ (p = 2 /\ o = 1 /\ f = true) ->
  is_block demo_blocks p o 0 f.
Proof.
  intros [(-> & -> & ->)|[(-> & -> & ->)|(-> & -> & ->)]]; split_and!; try done; intros i Hi.
  - replace i with 0 by lia. by eexists.
  - replace i with 0 by lia. by eexists.
  - assert (i = 0 \/ i = 1) as [->| ->] by lia; by eexists.
Qed.

Lemma demo_inv : pmm_inv demo.
Proof.
  constructor; cbn [max_pfn blocks zones free_areas demo].
  - lia.
  - intros p. split.
    + intros [b E]. apply demo_lookup in E. lia.
    + intros Hp. assert (p = 0 \/ p = 1 \/ p = 2 \/ p = 3) as [->|[->|[->| ->]]] by lia; by eexists.
  - intros p Hp. destruct (decide (p <= 1)).
    + exists p, 0, 0, (p =? 1). split; [|change (2 ^ 0) with 1; lia]. apply demo_block.
      assert (p = 0 \/ p = 1) as [->| ->] by lia; tauto.
    + exists 2, 1, 0, true. split; [apply demo_block; tauto|change (2 ^ 1) with 2; lia].
  - unfold ZONE_NORMAL. intros z Hz. assert (z = 0 \/ z = 1 \/ z = 2) as [->|[->| ->]] by lia; by eexists.
  - intros z o Hz Ho. exists (demo_list (z, o)). apply elem_of_list_to_map_1.
    + apply (bool_decide_unpack (NoDup _)). vm_compute. exact I.
    + apply list_elem_of_fmap. exists (z, o). split; [done|by apply all_areas_spec].
  - intros z o l E. apply elem_of_list_to_map_2, list_elem_of_fmap in E as ([z' o'] & ? & _).
    simplify_eq. unfold demo_list. split.
    + repeat case_decide; (apply NoDup_nil_2 || apply NoDup_singleton).
    + intros p. split.
      * repeat case_decide; simplify_eq; first [intros ->%list_elem_of_singleton|intros ?%not_elem_of_nil];
          try done; apply demo_block; tauto.
      * intros B. destruct (is_block_self _ _ _ _ _ B) as (b & E & Hf & Ho & Hz & Hh).
        apply demo_lookup in E. destruct E as [[-> ->]|[[-> ->]|[[-> ->]|[-> ->]]]]; cbn in *; simplify_eq;
          rewrite ?decide_True by done; rewrite ?decide_False by done; rewrite ?decide_True by done;
          by apply list_elem_of_singleton.
Qed.

Lemma demo_refs : refs_ok demo_blocks.
Proof. intros q b E. apply demo_lookup in E. destruct E as [[_ ->]|[[_ ->]|[[_ ->]|[_ ->]]]]; by vm_compute. Qed.

(** ** Counting free pages *)

Definition page_free (m : blocks_t) (q : Z) : bool :=
  match m !! q with Some b => is_free b | None => false end.

(** The entries of the lists, each with its order, and the pages they span. *)
Definition entries (fa : free_areas_t) : list (Z * Z) :=
  all_areas ≫= fun k => (fun p => (p, k.2)) <$> default [] (fa !! k).

Definition listed_pages (fa : free_areas_t) : list Z :=
  entries fa ≫= fun e => seqZ e.1 (2 ^ e.2).

Lemma elem_of_entries fa p o :
  (p, o) ∈ entries fa <-> exists z l, (z, o) ∈ all_areas /\ fa !! (z, o) = Some l /\ p ∈ l.
Proof.
  unfold entries. rewrite list_elem_of_bind. split.
  - intros ([z o'] & H & Hk). apply list_elem_of_fmap in H as (p' & [= <- <-] & Hp). cbn in *.
    destruct (fa !! (z, o)) as [l|] eqn:E; [|by apply not_elem_of_nil in Hp]. eauto.
  - intros (z & l & Hk & E & Hp). exists (z, o). split; [|done].
    apply list_elem_of_fmap. exists p. rewrite E. done.
Qed.

Lemma entry_block s p o : pmm_inv s -> (p, o) ∈ entries (free_areas s) ->
  exists z, is_block (blocks s) p o z true.
Proof.
  intros Hi (z & l & _ & E & Hp)%elem_of_entries. exists z. by apply (inv_lists s Hi z o l E).
Qed.

Lemma entries_NoDup s : pmm_inv s -> NoDup (entries (free_areas s)).
Proof.
  intros Hi. apply NoDup_bind; [| |apply all_areas_NoDup].
  - intros [z1 o1] [z2 o2] [p o] _ _ H1 H2.
    apply list_elem_of_fmap in H1 as (q1 & [= <- <-] & H1), H2 as (q2 & [= <- <-] & H2). cbn in *.
    destruct (free_areas s !! (z1, o)) as [l1|] eqn:E1; [|by apply not_elem_of_nil in H1].
    destruct (free_areas s !! (z2, o)) as [l2|] eqn:E2; [|by apply not_elem_of_nil in H2].
    apply (inv_lists s Hi) in E1 as [_ L1], E2 as [_ L2]. apply L1 in H1. apply L2 in H2.
    destruct (is_block_self _ _ _ _ _ H1) as (b & Eb & _ & _ & <- & _).
    destruct (is_block_self _ _ _ _ _ H2) as (b' & Eb' & _ & _ & <- & _). congruence.
  - intros [z o] _. apply NoDup_fmap_2; [intros ?? [=]; done|].
    destruct (free_areas s !! (z, o)) as [l|] eqn:E; [|apply NoDup_nil_2].
    by apply (inv_lists s Hi) in E as [? _].
Qed.

Lemma listed_pages_NoDup s : pmm_inv s -> NoDup (listed_pages (free_areas s)).
Proof.
  intros Hi. apply NoDup_bind; [| |by apply entries_NoDup].
  - intros [p o] [p' o'] q H1 H2 Hq Hq'. cbn in *. apply elem_of_seqZ in Hq, Hq'.
    apply (entry_block s _ _ Hi) in H1 as [z B], H2 as [z' B'].
    by destruct (is_block_unique _ _ _ _ _ _ _ _ _ q B B') as (-> & -> & _).
  - intros e _. apply NoDup_seqZ.
Qed.

Lemma elem_of_listed_pages s q : pmm_inv s ->
  q ∈ listed_pages (free_areas s) <-> 0 <= q <= max_pfn s /\ page_free (blocks s) q = true.
Proof.
  intros Hi. unfold listed_pages. rewrite list_elem_of_bind. split.
  - intros ([p o] & Hq & He). cbn in Hq. apply elem_of_seqZ in Hq.
    apply (entry_block s _ _ Hi) in He as [z B].
    destruct (is_block_lookup _ _ _ _ _ q B Hq) as (b & E & Hf & _).
    split; [apply (inv_dom s Hi); eauto|]. unfold page_free. by rewrite E.
  - intros [Hq Hf]. destruct (inv_cover s Hi q Hq) as (p & o & z & fr & B & Hr).
    destruct (is_block_lookup _ _ _ _ _ q B Hr) as (b & E & Hfb & _).
    unfold page_free in Hf. rewrite E in Hf. subst fr. rewrite Hf in B.
    pose proof B as (Ho & Hz & _). exists (p, o). split; [by apply elem_of_seqZ|].
    apply elem_of_entries. destruct (inv_heads s Hi z o Hz Ho) as [l El].
    exists z, l. split; [by apply all_areas_spec|]. split; [done|]. by apply (inv_lists s Hi z o l El).
Qed.

Lemma length_entries_pages fa ks : Forall (fun k : Z * Z => 0 <= k.2) ks ->
  Z.of_nat (length ((ks ≫= fun k => (fun p => (p, k.2)) <$> default [] (fa !! k))
     ≫= fun e : Z * Z => seqZ e.1 (2 ^ e.2))) = foldr (fun k t => area_pages fa k + t) 0 ks.
Proof.
  intros Hk. induction Hk as [|k ks Hk Hks IH]; [done|].
  rewrite bind_cons, bind_app, length_app, Nat2Z.inj_add, IH. cbn [foldr]. f_equal. unfold area_pages. pose proof (pow2_pos _ Hk).
  generalize (default [] (fa !! k)). intros l. induction l as [|p l IHl]; [cbn; lia|].
  rewrite fmap_cons, bind_cons, length_app, Nat2Z.inj_add, IHl, length_seqZ.
  cbn [length fst snd]. lia.
Qed.

(** The lists hold as many pages as descriptors say free. *)
Lemma free_total_pages s : pmm_inv s ->
  free_total (free_areas s) =
  Z.of_nat (length (filter (fun q => page_free (blocks s) q = true) (seqZ 0 (max_pfn s + 1)))).
Proof.
  intros Hi. unfold free_total. rewrite <- length_entries_pages.
  2:{ apply Forall_forall. intros [z o] Hk. apply list_elem_of_bind in Hk as (z' & Hk & _).
      apply list_elem_of_fmap in Hk as (n & [= -> ->] & _). cbn. lia. }
  fold (entries (free_areas s)). fold (listed_pages (free_areas s)). f_equal.
  apply Permutation_length, NoDup_Permutation.
  - by apply listed_pages_NoDup.
  - apply NoDup_filter, NoDup_seqZ.
  - intros q. rewrite elem_of_listed_pages, list_elem_of_filter, elem_of_seqZ by done.
    split; intros [? ?]; split; (done || lia).
Qed.

Lemma free_total_bound s : pmm_inv s -> 0 <= free_total (free_areas s) <= max_pfn s + 1.
Proof.
  intros Hi. rewrite free_total_pages by done.
  pose proof (length_filter (fun q => page_free (blocks s) q = true) (seqZ 0 (max_pfn s + 1))).
  rewrite length_seqZ in *. pose proof (inv_max s Hi). lia.
Qed.

Lemma calculate_total_spec s : pmm_inv s ->
  calculate_total_free_pages (free_areas s) = free_total (free_areas s).
Proof.
  intros Hi. pose proof (free_total_bound s Hi). pose proof (inv_max s Hi).
  rewrite calculate_total_areas, fold_areas; [done| |lia|unfold free_total in *; unfold fits; lia].
  apply Forall_forall. intros [z o] Hk. apply list_elem_of_bind in Hk as (z' & Hk & _).
  apply list_elem_of_fmap in Hk as (n & [= -> ->] & _). cbn. lia.
Qed.

(** ** First fit *)

(** The frame the request is served from: the first node of the lists of the
    zone read in increasing order, starting at the requested order. *)
Definition first_fit (fa : free_areas_t) (ord zn : Z) : Z :=
  default 0 (head (seqZ ord (MAX_ORDER - ord) ≫= fun o => default [] (fa !! (zn, o)))).

Lemma first_fit_none fa ord zn :
  (forall o, ord <= o < MAX_ORDER -> fa !! (zn, o) = Some []) -> first_fit fa ord zn = 0.
Proof.
  intros H. unfold first_fit.
  assert (seqZ ord (MAX_ORDER - ord) ≫= (fun o => default [] (fa !! (zn, o))) = []) as ->; [|done].
  assert (forall o, o ∈ seqZ ord (MAX_ORDER - ord) -> fa !! (zn, o) = Some []) as Hs.
  { intros o Ho%elem_of_seqZ. apply H. lia. }
  induction (seqZ ord (MAX_ORDER - ord)) as [|o l IH]; [done|].
  rewrite bind_cons, (Hs o) by left. apply IH. intros o' Ho. apply Hs. by right.
Qed.

Lemma first_fit_found fa ord zn fo p l :
  ord <= fo < MAX_ORDER -> fa !! (zn, fo) = Some (p :: l) ->
  (forall o, ord <= o < fo -> fa !! (zn, o) = Some []) -> first_fit fa ord zn = p.
Proof.
  intros Ho E H. unfold first_fit.
  replace (MAX_ORDER - ord) with ((fo - ord) + (1 + (MAX_ORDER - fo - 1))) by lia.
  rewrite seqZ_app, seqZ_app, !bind_app by lia. replace (ord + (fo - ord)) with fo by lia.
  change (seqZ fo 1) with [fo]. rewrite bind_singleton, E.
  assert (seqZ ord (fo - ord) ≫= (fun o => default [] (fa !! (zn, o))) = []) as ->; [|done].
  assert (forall o, o ∈ seqZ ord (fo - ord) -> fa !! (zn, o) = Some []) as Hs.
  { intros o Ho'%elem_of_seqZ. apply H. lia. }
  induction (seqZ ord (fo - ord)) as [|o l' IH]; [done|].
  rewrite bind_cons, (Hs o) by left. apply IH. intros o' Ho'. apply Hs. by right.
Qed.

Lemma live_in_array s p o z : pmm_inv s -> live s p o z -> 0 <= p <= max_pfn s.
Proof.
  intros Hi B. pose proof (block_in_array s _ _ _ _ Hi B). pose proof B as (? & _).
  pose proof (pow2_pos o). lia.
Qed.

Lemma pmm_alloc_first s ord zn zd :
  pmm_inv s -> 0 <= ord < MAX_ORDER -> 0 <= zn <= ZONE_NORMAL ->
  zones s !! zn = Some zd -> start_pfn zd < end_pfn zd ->
  exists s', pmm_alloc_pages ord zn s = Ok (first_fit (free_areas s) ord zn, s').
Proof.
  intros Hi Ho Hz Ez Hne. unfold pmm_alloc_pages.
  replace (_ || _) with false by (unfold ZONE_NORMAL in *; lia).
  rewrite Ez. cbn [deref mbind outcome_bind]. replace (_ <=? _) with false by lia.
  destruct (find_free_block_spec s ord zn Hi Ho Hz) as [[E He]|(p & fo & l & E & Hfo & B & El & He)];
    rewrite E; cbn [mbind outcome_bind].
  { rewrite first_fit_none by done. by exists s. }
  rewrite (first_fit_found _ _ _ fo p l) by done.
  destruct (split_down_spec s p fo ord zn Hi) as (s1 & E1 & Hi1 & _ & B1 & _); [lia|done|].
  rewrite E1. cbn [mbind outcome_bind]. destruct (Z.eqb_spec p 0) as [->|Hp]; [by exists s1|].
  destruct (take_spec s1 p ord zn Hi1 B1) as (s2 & E2 & _). rewrite E2. cbn [mbind outcome_bind].
  rewrite (proj2 (Z.eqb_neq p 0) Hp). by eexists.
Qed.

Lemma free_allocated s s1 p ord zn :
  allocated s s1 p ord zn -> exists s2, pmm_free_pages p s1 = Ok s2 /\ unallocated s s2.
Proof.
  intros [AI AB AL AF AR _ AT [M1 Z1]]. pose proof AB as (Ho & _). pose proof (pow2_pos ord).
  destruct (AR p) as (b1 & E1 & H1); [lia|].
  destruct (pmm_free_pages_total s1 p AI) as (s2 & E2 & HF); [by eapply live_in_array| |].
  { intros b E. rewrite E in E1. simplify_eq. by rewrite H1. }
  exists s2. split; [done|].
  destruct HF as [Hn|b o z _ Eb Hb|b o z B Eb _ [Hi2 HL HT [M Z]]].
  - by destruct (Hn ord zn).
  - rewrite Eb in E1. simplify_eq. lia.
  - destruct (is_block_unique _ _ _ _ _ _ _ _ _ p B AB) as (_ & -> & -> & _).
    1-2: pose proof B as (? & _); pose proof (pow2_pos o); lia.
    constructor; [done| |lia|split; congruence]. intros h o' z'. rewrite HL, AL. split.
    + intros [[?|(-> & _)] ?]; done.
    + intros B'. split; [by left|]. intros ->. destruct (AF _ _ _ B');
        pose proof B' as (? & _); pose proof (pow2_pos o'); lia.
Qed.

(** The four-page machine after one page was allocated. *)
Definition demo1 : pmm := match pmm_alloc_pages 0 0 demo with Ok (_, s) => s | _ => demo end.

Lemma demo1_eq : pmm_alloc_pages 0 0 demo = Ok (1, demo1).
Proof.
  destruct (pmm_alloc_first demo 0 0 (Zone 0 4) demo_inv) as [s' E]; [done|done|done|cbn; lia|].
  unfold demo1. rewrite E. f_equal.
Qed.

Lemma demo1_max : max_pfn demo1 = 3.
Proof.
  destruct (pmm_alloc_pages_total demo 0 0 demo_inv) as (p & s & E & H); [lia|lia|].
  rewrite demo1_eq in E. revert E. generalize demo1. intros d [= <- <-]. destruct H as [[? _]|[_ H]]; [lia|]. by destruct (al_const _ _ _ _ _ H).
Qed.

(** ** Claims *)

(** C1: In every state that satisfies the allocator invariant (descriptors
    tile the frames with aligned power-of-two blocks, and list (z, o) holds
    exactly the free blocks of that zone and order) [pmm_alloc_pages] returns,
    without a panic or a wild access.  Either it answers 0 and no live extent
    and no free page count changed, or it answers a frame [p] such that the
    extent of 2^ord frames at [p] is new, disjoint from every live extent,
    zero-filled and referenced once, exactly 2^ord pages left the free lists,
    and the invariant still holds. *)
Theorem pmm_alloc_pages_correct s ord zn :
  pmm_inv s -> 0 <= ord -> 0 <= zn ->
  exists p s', pmm_alloc_pages ord zn s = Ok (p, s') /\
    ((p = 0 /\ unallocated s s') \/ (p <> 0 /\ allocated s s' p ord zn)).
Proof. apply pmm_alloc_pages_total. Qed.

Lemma pmm_alloc_pages_correct_witness :
  exists p s', pmm_alloc_pages 0 0 demo = Ok (p, s') /\
    ((p = 0 /\ unallocated demo s') \/ (p <> 0 /\ allocated demo s' p 0 0)).
Proof. apply (pmm_alloc_pages_correct demo 0 0); [exact demo_inv|lia|lia]. Defined.

(** [pmm_alloc_pages] serves a request of a populated zone from the first
    node of the first non-empty list, in increasing order from the requested
    one; it answers 0 exactly when these lists are all empty or that first
    node is frame 0. *)
Theorem pmm_alloc_pages_first_fit s ord zn zd :
  pmm_inv s -> 0 <= ord < MAX_ORDER -> 0 <= zn <= ZONE_NORMAL ->
  zones s !! zn = Some zd -> start_pfn zd < end_pfn zd ->
  exists s', pmm_alloc_pages ord zn s = Ok (first_fit (free_areas s) ord zn, s').
Proof. apply pmm_alloc_first. Qed.

Lemma pmm_alloc_pages_first_fit_witness :
  first_fit (free_areas demo) 1 0 = 2 /\ exists s', pmm_alloc_pages 1 0 demo = Ok (2, s').
Proof.
  split; [by vm_compute|].
  apply (pmm_alloc_pages_first_fit demo 1 0 (Zone 0 4)); [exact demo_inv|done|done|done|cbn; lia].
Defined.

(** C2: [pmm_free_pages] of any frame of the array returns and keeps the
    invariant: a frame that is not the head of a live extent changes nothing;
    a shared extent only loses one reference; the last reference gives the
    whole extent back, so that the live extents are the old ones without it
    and the free lists hold 2^order more pages. *)
Theorem pmm_free_pages_correct s p :
  pmm_inv s -> 0 <= p <= max_pfn s -> refs_ok (blocks s) ->
  exists s', pmm_free_pages p s = Ok s' /\ pmm_inv s' /\ free_result s p s'.
Proof.
  intros Hi Hp Hr. destruct (pmm_free_pages_total s p Hi Hp) as (s' & E & HF); [by apply Hr|].
  exists s'. eauto using free_result_inv.
Qed.

Lemma pmm_free_pages_correct_witness :
  exists s', pmm_free_pages 0 demo = Ok s' /\ pmm_inv s' /\ free_result demo 0 s'.
Proof. apply (pmm_free_pages_correct demo 0); [exact demo_inv|cbn; lia|exact demo_refs]. Defined.

(** An allocation that succeeds, followed by the release of the frame it
    returned, gives back a state with the same live extents and the same
    number of free pages. *)
Theorem pmm_alloc_free_roundtrip s ord zn p s1 :
  pmm_inv s -> 0 <= ord -> 0 <= zn -> pmm_alloc_pages ord zn s = Ok (p, s1) -> p <> 0 ->
  exists s2, pmm_free_pages p s1 = Ok s2 /\ unallocated s s2.
Proof.
  intros Hi Ho Hz E Hp. destruct (pmm_alloc_pages_total s ord zn Hi Ho Hz) as (p' & s1' & E' & HA).
  rewrite E in E'. simplify_eq. destruct HA as [[? _]|[_ A]]; [done|]. by eapply free_allocated.
Qed.

Lemma pmm_alloc_free_roundtrip_witness :
  exists s2, pmm_free_pages 1 demo1 = Ok s2 /\ unallocated demo s2.
Proof.
  apply (pmm_alloc_free_roundtrip demo 0 0 1 demo1); [exact demo_inv|lia|lia|exact demo1_eq|lia].
Defined.

(** Every frame lies in exactly one block, and the blocks that are free are
    exactly those in the list of their zone and order. *)
Definition tiled (s : pmm) : Prop :=
  (forall q, 0 <= q <= max_pfn s -> exists h o z fr, is_block (blocks s) h o z fr /\ h <= q < h + 2 ^ o /\
     forall h' o' z' fr', is_block (blocks s) h' o' z' fr' -> h' <= q < h' + 2 ^ o' -> (h', o', z', fr') = (h, o, z, fr)) /\
  (forall h o z, is_block (blocks s) h o z true <-> exists l, free_areas s !! (z, o) = Some l /\ h ∈ l).

(** A zone has no block for a request that is refused, unless frame 0, which
    stands for failure, is free. *)
Definition exhausted (s : pmm) (ord zn : Z) : Prop :=
  forall zd o h, zones s !! zn = Some zd -> start_pfn zd < end_pfn zd -> ord <= o < MAX_ORDER ->
    is_block (blocks s) h o zn true -> exists o', ord <= o' < MAX_ORDER /\ is_block (blocks s) 0 o' zn true.

(** What a request did. *)
Definition op_result (s : pmm) (op : pmm_op) (r : Z) (s' : pmm) : Prop :=
  match op with
  | OpAlloc ord zn => (r = 0 /\ unallocated s s' /\ exhausted s ord zn) \/ (r <> 0 /\ allocated s s' r ord zn)
  | OpFree p => free_result s p s'
  | _ => unallocated s s'
  end.

Lemma inv_tiled s : pmm_inv s -> tiled s.
Proof.
  intros Hi. split.
  - intros q Hq. destruct (inv_cover s Hi q Hq) as (h & o & z & fr & B & Hr). exists h, o, z, fr. split; [done|]. split; [done|].
    intros h' o' z' fr' B' Hr'. by destruct (is_block_unique _ _ _ _ _ _ _ _ _ q B' B) as (-> & -> & -> & ->).
  - intros h o z. split.
    + intros B. pose proof B as (Ho & Hz & _). destruct (inv_heads s Hi z o Hz Ho) as [l El]. exists l. split; [done|]. by apply (inv_lists s Hi z o l El).
    + intros (l & El & Hh). by apply (inv_lists s Hi z o l El).
Qed.

Lemma refused_exhausted s ord zn s' : pmm_inv s -> 0 <= ord -> 0 <= zn -> pmm_alloc_pages ord zn s = Ok (0, s') -> exhausted s ord zn.
Proof.
  intros Hi Ho Hz E zd o h Ez Hne Hoo B. pose proof B as (_ & Hz' & _). destruct (pmm_alloc_first s ord zn zd Hi) as (s1 & E1); [lia|lia|done|done|]. rewrite E in E1. injection E1 as E1 _.
  destruct (find_free_block_spec s ord zn Hi) as [[_ He]|(p & fo & l & _ & Hfo & B0 & El & He)]; [lia|lia| |].
  - destruct (proj1 (proj2 (inv_tiled s Hi) h o zn) B) as (l & El & Hh). rewrite He in El by lia. injection El as <-. by apply not_elem_of_nil in Hh.
  - rewrite (first_fit_found _ _ _ fo p l) in E1 by done. subst p. by exists fo.
Qed.

Lemma pmm_exec_exact s op : pmm_inv s -> refs_ok (blocks s) -> op_valid s op -> exists r s', pmm_exec op s = Ok (r, s') /\ op_result s op r s'.
Proof.
  intros Hi Hr Hv. destruct op as [ord zn|p|p|p|p|p|p ptr]; cbn [pmm_exec op_valid op_result] in *.
  1:{ destruct Hv as [[? _] [? _]]. destruct (pmm_alloc_pages_total s ord zn Hi) as (r & s' & E & HA); [done..|]. exists r, s'. split; [done|].
      destruct HA as [[-> HA]|HA]; [left|by right]. split; [done|]. split; [done|]. by eapply refused_exhausted. }
  1:{ destruct (pmm_free_pages_total s p Hi Hv) as (s' & E & HF); [by apply Hr|]. rewrite E. by exists 0, s'. }
  all: destruct Hv as (o & z & fr & B).
  all: edestruct (upd_whole_block_spec s p o z fr) as (s' & E & Hu & _); [done|done|done| | |
    unfold pmm_add_ref_count, pmm_add_map_count, pmm_sub_map_count, pmm_zero_map_count, pmm_set_on_pte_ptr;
    rewrite E; exists 0, s'; split; [done|exact Hu]].
  all: intros b; try destruct (0 <? map_count b); try done; try (intros _; apply fits_u32).
Qed.

(** C28: the allocator as an invariant of all runs.  In every state reached
    from an initialised allocator by any sequence of valid requests
    (allocations, releases, reference and map counter updates) the blocks tile
    the frames, each frame in exactly one block, and the free lists hold
    exactly the free blocks: no frame is lost and none is in use twice.  Every
    further valid request returns: an allocation hands out a fresh extent, or
    is refused without effect, and then its zone has no block large enough or
    frame 0 is free; a release has one of its three outcomes; counter updates
    move no extent. *)
Theorem pmm_reachable_safe s0 s :
  pmm_inv s0 -> refs_ok (blocks s0) -> pmm_reach s0 s ->
  tiled s /\ forall op, op_valid s op -> exists r s', pmm_exec op s = Ok (r, s') /\ op_result s op r s'.
Proof.
  intros Hi Hr H. destruct (pmm_reach_inv s0 s Hi Hr H) as [Hi1 Hr1]. split; [by apply inv_tiled|].
  intros op Hv. by apply pmm_exec_exact.
Qed.

Lemma pmm_reachable_safe_witness : tiled demo1 /\ exists r s', pmm_exec (OpFree 1) demo1 = Ok (r, s') /\ free_result demo1 1 s'.
Proof.
  pose proof demo1_max as Hm.
  destruct (pmm_reachable_safe demo demo1) as [Ht Hop]; [exact demo_inv|exact demo_refs| |split; [exact Ht|apply (Hop (OpFree 1)); cbn [op_valid]; lia]].
  apply (reach_step demo demo (OpAlloc 0 0) 1); [constructor|split; split; lia|exact demo1_eq].
Defined.

(** [calculate_total_free_pages] returns exactly the number of page frames
    whose descriptor says free: the 64-bit sum over the free lists does not
    wrap, counts no page twice and misses none. *)
Theorem calculate_total_free_pages_exact s :
  pmm_inv s ->
  calculate_total_free_pages (free_areas s) =
  Z.of_nat (length (filter (fun q => page_free (blocks s) q = true) (seqZ 0 (max_pfn s + 1)))).
Proof. intros Hi. by rewrite calculate_total_spec, free_total_pages. Qed.

Lemma calculate_total_free_pages_exact_witness :
  calculate_total_free_pages (free_areas demo) = 3.
Proof. rewrite (calculate_total_free_pages_exact demo demo_inv). by vm_compute. Defined.
