(* ===== verification/BootAllot.v ===== *)
(** * The boot-time page allocator (kernel/mm/boot_allot.c)

    A bitmap of the first gigabyte, one bit per page, set when the page is in
    use.  The statics of the file are the record [boot_t]; the memory map the
    loader passes is a list of entries, and the temporary record of
    linear_map.c a list of frames with its capacity. *)

From S2P Require Import Prelude Bitmap Buddy.

Local Open Scope Z_scope.

(** ** Model *)

(** mm/boot_allot.h *)
Definition BOOT_ALLOC_BITMAP_SIZE : Z := 32 * 1024.
Definition BOOT_ALLOC_MAX_PAGES : Z := 1024 * 1024 * 1024 / 4096.
(** arch/x86_64/mm/bootmem.h *)
Definition TEMP_RECORD_MAX : Z := 504.

(** include/bootboot.h: MMapEnt and its accessors *)
Record MMapEnt := mmap_ent { ptr : Z; raw_size : Z }.
Definition MMapEnt_Ptr (e : MMapEnt) : Z := ptr e.
Definition MMapEnt_Size (e : MMapEnt) : Z := Z.land (raw_size e) 0xFFFFFFFFFFFFFFF0.
Definition MMapEnt_Type (e : MMapEnt) : Z := Z.land (raw_size e) 0xF.
Definition MMAP_FREE : Z := 1.

(** The statics of boot_allot.c; [bitmap] is None before the initialisation. *)
Record boot_t := Boot {
  bitmap : option bytes;
  bitmap_phys : Z;
  total_pages : Z;
  free_pages : Z;
  bitmap_pages : Z
}.

Definition with_bitmap (b : boot_t) (m : bytes) : boot_t :=
  Boot (Some m) (bitmap_phys b) (total_pages b) (free_pages b) (bitmap_pages b).
Definition with_free_pages (b : boot_t) (n : Z) : boot_t :=
  Boot (bitmap b) (bitmap_phys b) (total_pages b) (u64 n) (bitmap_pages b).

(** boot_allot.c: BITMAP_SET, BITMAP_CLEAR, BITMAP_TEST; the index has 64 bits *)
Definition BITMAP_SET (m : bytes) (bit : Z) : outcome bytes :=
  b ← load8 m (bit / 8); store8 m (bit / 8) (u8 (Z.lor b (Z.shiftl 1 (bit mod 8)))).
Definition BITMAP_CLEAR (m : bytes) (bit : Z) : outcome bytes :=
  b ← load8 m (bit / 8); store8 m (bit / 8) (u8 (Z.land b (cnot 32 (Z.shiftl 1 (bit mod 8))))).
Definition BITMAP_TEST (m : bytes) (bit : Z) : outcome bool :=
  b ← load8 m (bit / 8); Ok (negb (Z.land b (Z.shiftl 1 (bit mod 8)) =? 0)).

(** boot_allot.c: set_bitmap_region *)
Definition set_bitmap_region (m : bytes) (start_pfn count : Z) (used : bool) : outcome bytes :=
  for_up (Z.to_nat count) 0
    (fun i m => if used then BITMAP_SET m (start_pfn + i) else BITMAP_CLEAR m (start_pfn + i)) m.

(** boot_allot.c: boot_alloc_init, one memory map entry *)
Definition mark_entry (e : MMapEnt) (s : bytes * Z) : outcome (bytes * Z) :=
  let '(m, free) := s in
  let start := MMapEnt_Ptr e in
  if Z.shiftl 1 30 <=? start then Ok s
  else if negb (MMapEnt_Type e =? 1) then Ok s
  else
    let start_pfn := Z.shiftr start 12 in
    let end_pfn := Z.shiftr (u64 (start + MMapEnt_Size e)) 12 in
    let end_pfn := if BOOT_ALLOC_MAX_PAGES <? end_pfn then BOOT_ALLOC_MAX_PAGES else end_pfn in
    if start_pfn <? end_pfn then
      let page_count := end_pfn - start_pfn in
      m ← set_bitmap_region m start_pfn page_count false;
      Ok (m, u64 (free + page_count))
    else Ok s.

(** boot_allot.c: boot_alloc_init, one page of the temporary record *)
Definition mark_record (bitmap_start_pfn pages pfn : Z) (s : bytes * Z) : outcome (bytes * Z) :=
  let '(m, free) := s in
  if (bitmap_start_pfn <=? pfn) && (pfn <? bitmap_start_pfn + pages) then Ok s
  else if pfn <? BOOT_ALLOC_MAX_PAGES then
    used ← BITMAP_TEST m pfn;
    if used : bool then Ok s else m ← BITMAP_SET m pfn; Ok (m, u64 (free - 1))
  else Ok s.

(** boot_allot.c: boot_alloc_init.  [mem] is the memory the bitmap is put in,
    [temp] the recorded frames, oldest first; the answer holds the record
    with the frames of the bitmap added. *)
Definition boot_alloc_init (mem : bytes) (mmap : list MMapEnt) (temp : list Z)
  : outcome (boot_t * list Z) :=
  match last temp with
  | None => Panic
  | Some last_pfn =>
      let pages := (BOOT_ALLOC_BITMAP_SIZE + 4095) / 4096 in
      let phys := u64 (Z.shiftl (u64 (last_pfn + 1)) 12) in
      temp ← for_up (Z.to_nat pages) 0
               (fun i temp =>
                  _ ← assert_or_panic (Z.of_nat (length temp) <? TEMP_RECORD_MAX);
                  Ok (temp ++ [Z.shiftr phys 12 + i])) temp;
      m ← memset mem 0 255 BOOT_ALLOC_BITMAP_SIZE;
      '(m, free) ← for_each mmap mark_entry (m, 0);
      let bitmap_start_pfn := Z.shiftr phys 12 in
      m ← set_bitmap_region m bitmap_start_pfn pages true;
      '(m, free) ← for_each temp (mark_record bitmap_start_pfn pages) (m, u64 (free - pages));
      Ok (Boot (Some m) phys BOOT_ALLOC_MAX_PAGES free pages, temp)
  end.

(** boot_allot.c: boot_alloc, the scan.  The state is [consecutive]; leaving
    the loop answers the start of the run. *)
Definition boot_scan (m : bytes) (pages : Z) : outcome (Z + Z) :=
  for_ret (Z.to_nat BOOT_ALLOC_MAX_PAGES) 0
    (fun i consecutive =>
       used ← BITMAP_TEST m i;
       if used : bool then Ok (inl 0)
       else if consecutive + 1 =? pages then Ok (inr (i - pages + 1))
       else Ok (inl (consecutive + 1))) 0.

(** boot_allot.c: boot_alloc; 0 is NULL *)
Definition boot_alloc (pages : Z) (b : boot_t) : outcome (Z * boot_t) :=
  match bitmap b with
  | None => Ok (0, b)
  | Some m =>
      if pages =? 0 then Ok (0, b)
      else
        r ← boot_scan m pages;
        match r with
        | inl consecutive =>
            if consecutive <? pages then Ok (0, b)
            else
              m ← set_bitmap_region m 0 pages true;
              Ok (LINEAR_MAP_START, with_free_pages (with_bitmap b m) (free_pages b - pages))
        | inr start_pfn =>
            m ← set_bitmap_region m start_pfn pages true;
            Ok (u64 (LINEAR_MAP_START + u64 (Z.shiftl start_pfn 12)),
                with_free_pages (with_bitmap b m) (free_pages b - pages))
        end
  end.

(** boot_allot.c: boot_alloc_get_bitmap; 0 is NULL *)
Definition boot_alloc_get_bitmap (b : boot_t) : Z :=
  if bitmap_phys b =? 0 then 0 else u64 (LINEAR_MAP_START + bitmap_phys b).

(** ** The bitmap operations are those of bitmap.h *)

Definition boot_wf (m : bytes) : Prop := bitmap_wf m BOOT_ALLOC_BITMAP_SIZE.

Lemma boot_size : BOOT_ALLOC_BITMAP_SIZE < 2 ^ 29.
Proof. done. Qed.

Lemma BITMAP_SET_spec m bit : boot_wf m -> 0 <= bit < BOOT_ALLOC_MAX_PAGES ->
  exists m', BITMAP_SET m bit = Ok m' /\ boot_wf m' /\
    forall j, bit_at m' j = (bit =? j) || bit_at m j.
Proof.
  intros Hw Hb. destruct (bitmap_set_spec _ boot_size m bit Hw) as (m' & E & H).
  { unfold BOOT_ALLOC_MAX_PAGES, BOOT_ALLOC_BITMAP_SIZE in *. change (1024 * 1024 * 1024 / 4096) with 262144 in Hb. lia. }
  exists m'. split; [|done]. revert E. unfold bitmap_set, BITS_PER_UNIT. rewrite wrap_small; [done|].
  change BOOT_ALLOC_MAX_PAGES with 262144 in Hb. unfold fits. lia.
Qed.

Lemma BITMAP_CLEAR_spec m bit : boot_wf m -> 0 <= bit < BOOT_ALLOC_MAX_PAGES ->
  exists m', BITMAP_CLEAR m bit = Ok m' /\ boot_wf m' /\
    forall j, bit_at m' j = negb (bit =? j) && bit_at m j.
Proof.
  intros Hw Hb. change BOOT_ALLOC_MAX_PAGES with 262144 in Hb.
  destruct (bitmap_clear_spec _ boot_size m bit Hw) as (m' & E & H).
  { unfold BOOT_ALLOC_BITMAP_SIZE. lia. }
  exists m'. split; [|done]. revert E. unfold bitmap_clear, BITS_PER_UNIT. rewrite wrap_small; [done|].
  unfold fits. lia.
Qed.

Lemma BITMAP_TEST_spec m bit : boot_wf m -> 0 <= bit < BOOT_ALLOC_MAX_PAGES ->
  BITMAP_TEST m bit = Ok (bit_at m bit).
Proof.
  intros Hw Hb. change BOOT_ALLOC_MAX_PAGES with 262144 in Hb.
  destruct (wf_byte BOOT_ALLOC_BITMAP_SIZE m bit Hw) as (b & Eb & _); [unfold BOOT_ALLOC_BITMAP_SIZE; lia|].
  unfold BITMAP_TEST, load8, bit_at. rewrite Eb. cbn. f_equal.
  destruct (Z.testbit b (bit mod 8)) eqn:T.
  - destruct (Z.eqb_spec (Z.land b (Z.shiftl 1 (bit mod 8))) 0) as [E|]; [|done].
    assert (Z.testbit (Z.land b (Z.shiftl 1 (bit mod 8))) (bit mod 8) = false) as F by (by rewrite E, Z.bits_0).
    rewrite Z.land_spec, T, shiftl_1_testbit, Z.eqb_refl in F by dlia. done.
  - replace (_ =? 0) with true; [done|]. symmetry. apply Z.eqb_eq, Z.bits_inj'. intros i Hi.
    rewrite Z.land_spec, shiftl_1_testbit, Z.bits_0 by dlia.
    destruct (Z.eqb_spec (bit mod 8) i) as [<-|]; [by rewrite T|by rewrite andb_false_r].
Qed.

Lemma region_spec m start count used :
  boot_wf m -> 0 <= start -> 0 <= count -> start + count <= BOOT_ALLOC_MAX_PAGES ->
  exists m', set_bitmap_region m start count used = Ok m' /\ boot_wf m' /\
    forall j, bit_at m' j = if (start <=? j) && (j <? start + count) then used else bit_at m j.
Proof.
  intros Hw Hs Hc Hle. unfold set_bitmap_region.
  match goal with |- context [for_up ?n ?i ?b ?s0] =>
    destruct (for_up_inv (fun k m' => boot_wf m' /\ forall j, bit_at m' j =
      if (start <=? j) && (j <? start + k) then used else bit_at m j) n i b s0) as (m' & E & Hw' & Hb') end.
  - split; [done|]. intros j. by replace (_ && _) with false by lia.
  - intros k m1 Hk [Hw1 Hb1]. destruct used.
    + destruct (BITMAP_SET_spec m1 (start + k)) as (m2 & E & Hw2 & Hb2); [done|lia|].
      exists m2. split_and!; try done. intros j. rewrite Hb2, Hb1.
      destruct (Z.eqb_spec (start + k) j), (Z.leb_spec start j), (Z.ltb_spec j (start + k)),
        (Z.ltb_spec j (start + (k + 1))); (done || lia).
    + destruct (BITMAP_CLEAR_spec m1 (start + k)) as (m2 & E & Hw2 & Hb2); [done|lia|].
      exists m2. split_and!; try done. intros j. rewrite Hb2, Hb1.
      destruct (Z.eqb_spec (start + k) j), (Z.leb_spec start j), (Z.ltb_spec j (start + k)),
        (Z.ltb_spec j (start + (k + 1))); (done || lia).
  - exists m'. replace (0 + Z.of_nat (Z.to_nat count)) with count in Hb' by lia. done.
Qed.

(** ** First fit *)

(** Pages [p, p + n) are all free. *)
Definition free_pages_at (m : bytes) (p n : Z) : Prop :=
  forall i, p <= i < p + n -> bit_at m i = false.

Lemma boot_scan_spec m pages : boot_wf m -> 0 < pages ->
  (exists c, boot_scan m pages = Ok (inl c) /\ c < pages /\
     forall p, 0 <= p -> p + pages <= BOOT_ALLOC_MAX_PAGES -> ~ free_pages_at m p pages) \/
  (exists p, boot_scan m pages = Ok (inr p) /\ 0 <= p /\ p + pages <= BOOT_ALLOC_MAX_PAGES /\
     free_pages_at m p pages /\ forall p', 0 <= p' < p -> ~ free_pages_at m p' pages).
Proof.
  intros Hw Hp. unfold boot_scan.
  match goal with |- context [for_ret ?n ?i ?b ?s0] =>
    destruct (for_ret_inv
      (fun k c => 0 <= c < pages /\ c <= k /\ free_pages_at m (k - c) c /\
         (k - c = 0 \/ bit_at m (k - c - 1) = true) /\
         forall p, 0 <= p -> p + pages <= k -> ~ free_pages_at m p pages)
      (fun p => 0 <= p /\ p + pages <= BOOT_ALLOC_MAX_PAGES /\ free_pages_at m p pages /\
         forall p', 0 <= p' < p -> ~ free_pages_at m p' pages) n i b s0)
      as [(c & E & Hc & _ & _ & _ & Hno)|(p & E & H)] end.
  - split_and!; try lia; try (by left). intros i Hi. lia.
  - intros k c Hk (Hc & Hck & Hrun & Hedge & Hno). rewrite Z2Nat.id in Hk by done.
    rewrite BITMAP_TEST_spec by (done || lia). cbn [mbind outcome_bind].
    destruct (bit_at m k) eqn:Ek.
    { left. exists 0. split; [done|]. split_and!; try lia; [intros i Hi; lia| |].
      - right. by replace (k + 1 - 0 - 1) with k by lia.
      - intros p Hp0 Hpk Hr. destruct (Z.le_gt_cases (p + pages) k); [by eapply Hno|].
        rewrite Hr in Ek; (done || lia). }
    assert (Hrun' : free_pages_at m (k - c) (c + 1)).
    { intros i Hi. destruct (Z.eq_dec i k) as [->|]; [done|]. apply Hrun. lia. }
    assert (Hno' : forall p, 0 <= p < k - c -> p + pages <= k + 1 -> ~ free_pages_at m p pages).
    { intros p Hp0 Hpk Hr. destruct (Z.le_gt_cases (p + pages) k); [by eapply (Hno p); [lia|..]|].
      destruct Hedge as [|He]; [lia|]. rewrite Hr in He; (done || lia). }
    destruct (Z.eqb_spec (c + 1) pages) as [Ec|].
    + right. exists (k - pages + 1). split; [done|]. replace (k - pages + 1) with (k - c) by lia.
      rewrite Ec in Hrun'. split_and!; try lia; [done|]. intros p' Hp'. apply Hno'; lia.
    + left. exists (c + 1). split; [done|]. replace (k + 1 - (c + 1)) with (k - c) by lia.
      split_and!; try lia; [done|done|]. intros p Hp0 Hpk. apply Hno'; lia.
  - left. exists c. rewrite E. split; [done|]. split; [lia|]. done.
  - right. exists p. rewrite E. done.
Qed.

(** The number of free pages, and what claiming a free run does to it. *)
Definition clear_count (m : bytes) : Z :=
  Z.of_nat (length (filter (fun i => bit_at m i = false) (seqZ 0 BOOT_ALLOC_MAX_PAGES))).

Lemma clear_count_claim m m' p n :
  0 <= p -> 0 <= n -> p + n <= BOOT_ALLOC_MAX_PAGES -> free_pages_at m p n ->
  (forall j, bit_at m' j = if (p <=? j) && (j <? p + n) then true else bit_at m j) ->
  clear_count m = clear_count m' + n.
Proof.
  intros Hp Hn Hle Hr Hm. unfold clear_count.
  rewrite (Permutation_length (l' := filter (fun i => bit_at m' i = false) (seqZ 0 BOOT_ALLOC_MAX_PAGES) ++ seqZ p n)).
  { rewrite length_app, length_seqZ. lia. }
  apply NoDup_Permutation.
  - apply NoDup_filter, NoDup_seqZ.
  - apply NoDup_app. split; [apply NoDup_filter, NoDup_seqZ|]. split; [|apply NoDup_seqZ].
    intros i [Hi _]%list_elem_of_filter Hs%elem_of_seqZ. rewrite Hm in Hi.
    by replace ((p <=? i) && (i <? p + n)) with true in Hi by lia.
  - intros i. rewrite elem_of_app, !list_elem_of_filter, !elem_of_seqZ, Hm.
    destruct ((p <=? i) && (i <? p + n)) eqn:G; zbool.
    + split; [intros _; right; lia|]. intros _. split; [apply Hr; lia|lia].
    + split; [by left|]. intros [?|?]; [done|]. lia.
Qed.

Lemma boot_alloc_spec b m pages : bitmap b = Some m -> boot_wf m -> 0 < pages ->
  (boot_alloc pages b = Ok (0, b) /\
     forall p, 0 <= p -> p + pages <= BOOT_ALLOC_MAX_PAGES -> ~ free_pages_at m p pages) \/
  (exists p m', boot_alloc pages b = Ok (LINEAR_MAP_START + 4096 * p,
       with_free_pages (with_bitmap b m') (free_pages b - pages)) /\ boot_wf m' /\
     0 <= p /\ p + pages <= BOOT_ALLOC_MAX_PAGES /\ free_pages_at m p pages /\
     (forall p', 0 <= p' < p -> ~ free_pages_at m p' pages) /\
     (forall j, bit_at m' j = if (p <=? j) && (j <? p + pages) then true else bit_at m j) /\
     clear_count m = clear_count m' + pages).
Proof.
  intros Eb Hw Hp. unfold boot_alloc. rewrite Eb. replace (pages =? 0) with false by lia.
  destruct (boot_scan_spec m pages Hw Hp) as [(c & -> & Hc & Hno)|(p & -> & Hp0 & Hle & Hr & Hf)];
    cbn [mbind outcome_bind].
  - left. by replace (c <? pages) with true by lia.
  - right. destruct (region_spec m p pages true) as (m' & -> & Hw' & Hb'); [done|lia|lia|done|].
    cbn [mbind outcome_bind]. exists p, m'. split.
    { change BOOT_ALLOC_MAX_PAGES with 262144 in Hle. rewrite Z.shiftl_mul_pow2 by lia.
      change (2 ^ 12) with 4096. unfold LINEAR_MAP_START.
      rewrite (wrap_small 64 (p * 4096)) by (unfold fits; lia).
      rewrite wrap_small by (unfold fits; lia). do 3 f_equal. lia. }
    split_and!; try done. apply (clear_count_claim m m' p); (done || lia).
Qed.

(** ** Initialisation *)

(** Entry [e] says page [j] is free memory of the first gigabyte. *)
Definition entry_frees (e : MMapEnt) (j : Z) : Prop :=
  ptr e < 2 ^ 30 /\ MMapEnt_Type e = 1 /\
  ptr e / 4096 <= j < (ptr e + MMapEnt_Size e) / 4096.

(** An entry as the loader writes it. *)
Definition entry_ok (e : MMapEnt) : Prop :=
  0 <= ptr e /\ 0 <= raw_size e < 2 ^ 64 /\ ptr e + MMapEnt_Size e < 2 ^ 64.

#[local] Instance entry_frees_dec e j : Decision (entry_frees e j).
Proof. unfold entry_frees. apply _. Defined.

Lemma MMapEnt_Size_nonneg e : 0 <= raw_size e -> 0 <= MMapEnt_Size e.
Proof. intros. unfold MMapEnt_Size. apply Z.land_nonneg. by right. Qed.

Lemma mark_entry_spec e m free :
  boot_wf m -> entry_ok e ->
  exists m' free', mark_entry e (m, free) = Ok (m', free') /\ boot_wf m' /\
    forall j, 0 <= j < BOOT_ALLOC_MAX_PAGES ->
      bit_at m' j = bit_at m j && bool_decide (~ entry_frees e j).
Proof.
  intros Hw (Hp & Hr & Hs). pose proof (MMapEnt_Size_nonneg e ltac:(lia)).
  unfold mark_entry, MMapEnt_Ptr. change (Z.shiftl 1 30) with (2 ^ 30).
  assert (Hskip : (forall j, 0 <= j < BOOT_ALLOC_MAX_PAGES -> ~ entry_frees e j) ->
    exists m' free', Ok (m, free) = Ok (m', free') /\ boot_wf m' /\
    forall j, 0 <= j < BOOT_ALLOC_MAX_PAGES -> bit_at m' j = bit_at m j && bool_decide (~ entry_frees e j)).
  { intros Hno. exists m, free. split_and!; try done. intros j Hj.
    rewrite bool_decide_true by (by apply Hno). by rewrite andb_true_r. }
  destruct (Z.leb_spec (2 ^ 30) (ptr e)); [apply Hskip; intros j _ [? _]; lia|].
  destruct (Z.eqb_spec (MMapEnt_Type e) 1) as [Ht|Ht]; cbn [negb]; [|apply Hskip; by intros j _ (_ & ? & _)].
  rewrite wrap_small by (unfold fits; lia). rewrite !Z.shiftr_div_pow2 by lia. change (2 ^ 12) with 4096.
  set (end_ := if BOOT_ALLOC_MAX_PAGES <? _ then BOOT_ALLOC_MAX_PAGES else _).
  assert (Hend : end_ = Z.min BOOT_ALLOC_MAX_PAGES ((ptr e + MMapEnt_Size e) / 4096)) by (unfold end_; split_ifs; lia).
  assert (0 <= ptr e / 4096) by dlia.
  destruct (Z.ltb_spec (ptr e / 4096) end_).
  - destruct (region_spec m (ptr e / 4096) (end_ - ptr e / 4096) false) as (m' & -> & Hw' & Hb');
      [done|lia|lia|lia|]. cbn [mbind outcome_bind]. eexists m', _. split; [done|]. split; [done|].
    intros j Hj. rewrite Hb'. destruct (decide (entry_frees e j)) as [He|He].
    + rewrite (bool_decide_false (~ entry_frees e j)) by (intros F; by apply F).
      rewrite andb_false_r. destruct He as (_ & _ & He). by replace (_ && _) with true by lia.
    + rewrite (bool_decide_true (~ entry_frees e j)) by done. rewrite andb_true_r.
      replace (_ && _) with false; [done|]. unfold entry_frees in He.
      destruct (Z.leb_spec (ptr e / 4096) j), (Z.ltb_spec j (ptr e / 4096 + (end_ - ptr e / 4096))); try done.
      exfalso. apply He. split_and!; (done || lia).
  - apply Hskip. intros j Hj (_ & _ & ?). lia.
Qed.

Lemma mark_entries_spec mmap m free :
  boot_wf m -> Forall entry_ok mmap ->
  exists m' free', for_each mmap mark_entry (m, free) = Ok (m', free') /\ boot_wf m' /\
    forall j, 0 <= j < BOOT_ALLOC_MAX_PAGES ->
      bit_at m' j = bit_at m j && bool_decide (~ Exists (fun e => entry_frees e j) mmap).
Proof.
  intros Hw He.
  destruct (for_each_inv (fun l s => boot_wf s.1 /\ forall j, 0 <= j < BOOT_ALLOC_MAX_PAGES ->
     bit_at s.1 j = bit_at m j && bool_decide (~ Exists (fun e => entry_frees e j) l))
    mark_entry mmap (m, free)) as ([m' f'] & E & Hw' & Hb'); [| |exists m', f'; done].
  - split; [done|]. intros j Hj. rewrite bool_decide_true by (by intros ?%Exists_nil). by rewrite andb_true_r.
  - intros l e [m1 f1] [Hw1 Hb1] Hin. rewrite Forall_forall in He.
    destruct (mark_entry_spec e m1 f1 Hw1 (He e Hin)) as (m2 & f2 & E & Hw2 & Hb2).
    exists (m2, f2). split; [done|]. split; [done|]. intros j Hj. cbn in *. rewrite Hb2, Hb1 by done.
    rewrite <- andb_assoc. f_equal. rewrite <- bool_decide_and. apply bool_decide_ext.
    rewrite Exists_app, Exists_cons, Exists_nil. tauto.
Qed.

Lemma mark_records_spec temp m free start pages :
  boot_wf m -> (forall q, q ∈ temp -> 0 <= q) ->
  (forall j, start <= j < start + pages -> bit_at m j = true) ->
  exists m' free', for_each temp (mark_record start pages) (m, free) = Ok (m', free') /\ boot_wf m' /\
    forall j, 0 <= j < BOOT_ALLOC_MAX_PAGES -> bit_at m' j = bit_at m j || bool_decide (j ∈ temp).
Proof.
  intros Hw Ht Hb.
  destruct (for_each_inv (fun l s => boot_wf s.1 /\ (forall j, bit_at m j = true -> bit_at s.1 j = true) /\
     forall j, 0 <= j < BOOT_ALLOC_MAX_PAGES -> bit_at s.1 j = bit_at m j || bool_decide (j ∈ l))
    (mark_record start pages) temp (m, free)) as ([m' f'] & E & Hw' & _ & Hb'); [| |exists m', f'; done].
  - split_and!; [done|done|]. intros j Hj. rewrite bool_decide_false by (by intros ?%not_elem_of_nil).
    by rewrite orb_false_r.
  - intros l q [m1 f1] (Hw1 & Hk1 & Hb1) Hin. specialize (Ht q Hin). cbn [fst mark_record] in *.
    assert (Hsame : (0 <= q < BOOT_ALLOC_MAX_PAGES -> bit_at m1 q = true) ->
      forall j, 0 <= j < BOOT_ALLOC_MAX_PAGES -> bit_at m1 j = bit_at m j || bool_decide (j ∈ l ++ [q])).
    { intros Hq j Hj. rewrite Hb1 by done. destruct (Z.eq_dec j q) as [->|Hne].
      - rewrite <- Hb1, Hq by done. rewrite bool_decide_true; [by rewrite orb_true_r|]. set_solver.
      - f_equal. apply bool_decide_ext. set_solver. }
    destruct (_ && _) eqn:G; zbool.
    { exists (m1, f1). split_and!; try done. cbn. apply Hsame. intros _. apply Hk1, Hb. lia. }
    destruct (Z.ltb_spec q BOOT_ALLOC_MAX_PAGES).
    2:{ exists (m1, f1). split_and!; try done. cbn. apply Hsame. lia. }
    rewrite BITMAP_TEST_spec by (done || lia). cbn [mbind outcome_bind].
    destruct (bit_at m1 q) eqn:Eq; [exists (m1, f1); split_and!; try done; cbn; by apply Hsame|].
    destruct (BITMAP_SET_spec m1 q) as (m2 & -> & Hw2 & Hb2); [done|lia|]. cbn [mbind outcome_bind].
    eexists (m2, _). split; [done|]. cbn. split_and!; [done| |].
    + intros j Hj. rewrite Hb2, (Hk1 j Hj). by rewrite orb_true_r.
    + intros j Hj. rewrite Hb2, Hb1 by done. destruct (Z.eqb_spec q j) as [->|Hne].
      * rewrite (bool_decide_true (j ∈ l ++ [j])) by set_solver. by rewrite orb_true_r.
      * cbn. f_equal. apply bool_decide_ext. set_solver.
Qed.

(** The record filled with the frames of the bitmap. *)
Lemma record_frames temp start :
  Z.of_nat (length temp) + 8 <= TEMP_RECORD_MAX ->
  for_up 8 0 (fun i temp =>
    _ ← assert_or_panic (Z.of_nat (length temp) <? TEMP_RECORD_MAX); Ok (temp ++ [start + i])) temp =
  Ok (temp ++ ((fun i => start + i) <$> seqZ 0 8)).
Proof.
  intros Hl.
  destruct (for_up_inv (fun k t => t = temp ++ ((fun i => start + i) <$> seqZ 0 k)) 8 0
    (fun i temp => _ ← assert_or_panic (Z.of_nat (length temp) <? TEMP_RECORD_MAX); Ok (temp ++ [start + i])) temp)
    as (t & -> & ->); [by rewrite app_nil_r| |done].
  intros k t Hk ->. rewrite length_app, length_fmap, length_seqZ.
  rewrite (proj2 (Z.ltb_lt _ _)) by (rewrite Nat2Z.inj_add, Z2Nat.id by lia; lia). cbn [assert_or_panic mbind outcome_bind].
  eexists. split; [done|]. rewrite (seqZ_app _ k 1) by lia. by rewrite fmap_app, app_assoc.
Qed.

(** ** Claims *)

(** [boot_alloc] is first fit: it answers NULL and changes nothing when
    the first gigabyte has no run of [pages] free pages; otherwise it answers
    the linear address of the lowest such run, marks exactly its pages as
    used, and the count of clear bits falls by [pages]. *)
Theorem boot_alloc_first_fit b m pages :
  bitmap b = Some m -> boot_wf m -> 0 < pages ->
  (boot_alloc pages b = Ok (0, b) /\
     forall p, 0 <= p -> p + pages <= BOOT_ALLOC_MAX_PAGES -> ~ free_pages_at m p pages) \/
  (exists p m', boot_alloc pages b = Ok (LINEAR_MAP_START + 4096 * p,
       with_free_pages (with_bitmap b m') (free_pages b - pages)) /\ boot_wf m' /\
     0 <= p /\ p + pages <= BOOT_ALLOC_MAX_PAGES /\ free_pages_at m p pages /\
     (forall p', 0 <= p' < p -> ~ free_pages_at m p' pages) /\
     (forall j, bit_at m' j = if (p <=? j) && (j <? p + pages) then true else bit_at m j) /\
     clear_count m = clear_count m' + pages).
Proof. apply boot_alloc_spec. Qed.

Lemma boot_alloc_first_fit_witness :
  let b := Boot (Some (filled BOOT_ALLOC_BITMAP_SIZE 0)) 65536 BOOT_ALLOC_MAX_PAGES 262144 8 in
  (boot_alloc 3 b = Ok (0, b) /\
     forall p, 0 <= p -> p + 3 <= BOOT_ALLOC_MAX_PAGES ->
       ~ free_pages_at (filled BOOT_ALLOC_BITMAP_SIZE 0) p 3) \/
  (exists p m', boot_alloc 3 b = Ok (LINEAR_MAP_START + 4096 * p,
       with_free_pages (with_bitmap b m') (262144 - 3)) /\ boot_wf m' /\
     0 <= p /\ p + 3 <= BOOT_ALLOC_MAX_PAGES /\ free_pages_at (filled BOOT_ALLOC_BITMAP_SIZE 0) p 3 /\
     (forall p', 0 <= p' < p -> ~ free_pages_at (filled BOOT_ALLOC_BITMAP_SIZE 0) p' 3) /\
     (forall j, bit_at m' j = if (p <=? j) && (j <? p + 3) then true
                              else bit_at (filled BOOT_ALLOC_BITMAP_SIZE 0) j) /\
     clear_count (filled BOOT_ALLOC_BITMAP_SIZE 0) = clear_count m' + 3).
Proof.
  intros b. apply (boot_alloc_first_fit b (filled BOOT_ALLOC_BITMAP_SIZE 0) 3);
    [done|by apply filled_wf|lia].
Defined.

(** [boot_alloc_init] ends without a panic or a wild access when the page
    tables of the linear map leave room in the temporary record and the bitmap
    lies in the first gigabyte, and afterwards a page of the first gigabyte is
    free exactly when some free entry of the memory map contains it and it is
    neither recorded as allocated nor part of the bitmap. *)
Theorem boot_alloc_init_correct mem mmap temp q :
  boot_wf mem -> Forall entry_ok mmap -> last temp = Some q -> (forall t, t ∈ temp -> 0 <= t) ->
  Z.of_nat (length temp) + 8 <= TEMP_RECORD_MAX -> q + 9 <= BOOT_ALLOC_MAX_PAGES ->
  exists b m temp', boot_alloc_init mem mmap temp = Ok (b, temp') /\ bitmap b = Some m /\ boot_wf m /\
    bitmap_phys b = 4096 * (q + 1) /\
    temp' = temp ++ ((fun i => q + 1 + i) <$> seqZ 0 8) /\
    forall j, 0 <= j < BOOT_ALLOC_MAX_PAGES ->
      (bit_at m j = false <->
       Exists (fun e => entry_frees e j) mmap /\ j ∉ temp /\ ~ (q < j <= q + 8)).
Proof.
  intros Hw He Hl Ht Hlen Hq. assert (Hq0 : 0 <= q) by (apply Ht; by apply last_Some_elem_of).
  change BOOT_ALLOC_MAX_PAGES with 262144 in Hq. unfold boot_alloc_init. rewrite Hl. cbv zeta.
  rewrite (wrap_small 64 (q + 1)) by (unfold fits; lia).
  assert (Hphys : u64 (Z.shiftl (q + 1) 12) = 4096 * (q + 1)).
  { rewrite Z.shiftl_mul_pow2 by lia. rewrite wrap_small by (unfold fits; lia). lia. }
  assert (Hstart : Z.shiftr (u64 (Z.shiftl (q + 1) 12)) 12 = q + 1).
  { rewrite Hphys, Z.shiftr_div_pow2 by lia. dlia. }
  rewrite Hstart. change (Z.to_nat ((BOOT_ALLOC_BITMAP_SIZE + 4095) / 4096)) with 8%nat.
  rewrite record_frames by done. rewrite Ok_bind. set (temp' := temp ++ _).
  destruct (memset_spec BOOT_ALLOC_BITMAP_SIZE mem 0 255 BOOT_ALLOC_BITMAP_SIZE) as (m0 & E0 & Hw0 & Hm0);
    [done|done|done|done|by vm_compute|].
  rewrite E0, Ok_bind.
  assert (H0 : forall j, 0 <= j < BOOT_ALLOC_MAX_PAGES -> bit_at m0 j = true).
  { intros j Hj. change BOOT_ALLOC_MAX_PAGES with 262144 in Hj. unfold bit_at. rewrite Hm0.
    replace (_ && _) with true by (unfold BOOT_ALLOC_BITMAP_SIZE; dlia).
    change (default 0 (Some 255)) with (Z.ones 8). apply Z.ones_spec_low. dlia. }
  destruct (mark_entries_spec mmap m0 0 Hw0 He) as (m1 & f1 & -> & Hw1 & Hb1). rewrite Ok_bind.
  change ((BOOT_ALLOC_BITMAP_SIZE + 4095) / 4096) with 8.
  destruct (region_spec m1 (q + 1) 8 true) as (m2 & -> & Hw2 & Hb2);
    [done|lia|lia|change BOOT_ALLOC_MAX_PAGES with 262144; lia|]. rewrite Ok_bind.
  assert (Ht' : forall t, t ∈ temp' <-> t ∈ temp \/ q < t <= q + 8).
  { intros t. unfold temp'. rewrite elem_of_app, list_elem_of_fmap. setoid_rewrite elem_of_seqZ.
    split; (intros [?|H]; [by left|right]); [destruct H as (i & -> & ?); lia|]. exists (t - (q + 1)). lia. }
  destruct (mark_records_spec temp' m2 (u64 (f1 - 8)) (q + 1) 8 Hw2) as (m3 & f3 & -> & Hw3 & Hb3).
  { intros t [?|?]%Ht'; [by apply Ht|lia]. }
  { intros j Hj. rewrite Hb2. by replace (_ && _) with true by lia. }
  rewrite Ok_bind. eexists _, m3, temp'. split_and!; try done. intros j Hj.
  rewrite Hb3, Hb2, Hb1, H0 by done. rewrite orb_false_iff, bool_decide_eq_false, Ht'.
  destruct ((q + 1 <=? j) && (j <? q + 1 + 8)) eqn:G; cbn [andb]; zbool.
  - split; [by intros [? _]|]. intros (_ & _ & []). lia.
  - rewrite bool_decide_eq_false.
    assert (Hd : ~ ~ Exists (fun e => entry_frees e j) mmap <-> Exists (fun e => entry_frees e j) mmap).
    { split; [apply dec_stable|tauto]. }
    rewrite Hd. assert (~ (q < j <= q + 8)) by lia. tauto.
Qed.

Lemma boot_alloc_init_correct_witness :
  exists b m temp', boot_alloc_init (filled BOOT_ALLOC_BITMAP_SIZE 0)
      [mmap_ent 0 (0x9f000 + 1); mmap_ent 0x100000 (0x7f00000 + 1); mmap_ent 0x8000000 (0x1000 + 2)] [256] =
      Ok (b, temp') /\ bitmap b = Some m /\ boot_wf m /\
    bitmap_phys b = 4096 * (256 + 1) /\
    temp' = [256] ++ ((fun i => 256 + 1 + i) <$> seqZ 0 8) /\
    forall j, 0 <= j < BOOT_ALLOC_MAX_PAGES ->
      (bit_at m j = false <->
       Exists (fun e => entry_frees e j)
         [mmap_ent 0 (0x9f000 + 1); mmap_ent 0x100000 (0x7f00000 + 1); mmap_ent 0x8000000 (0x1000 + 2)] /\
       j ∉ [256] /\ ~ (256 < j <= 256 + 8)).
Proof.
  apply (boot_alloc_init_correct (filled BOOT_ALLOC_BITMAP_SIZE 0)
    [mmap_ent 0 (0x9f000 + 1); mmap_ent 0x100000 (0x7f00000 + 1); mmap_ent 0x8000000 (0x1000 + 2)] [256] 256).
  - apply filled_wf. unfold fits. lia.
  - repeat constructor; cbn; lia.
  - reflexivity.
  - intros t ->%list_elem_of_singleton. lia.
  - unfold TEMP_RECORD_MAX. cbn [length]. lia.
  - change BOOT_ALLOC_MAX_PAGES with 262144. lia.
Defined.
