(* ===== verification/BuddyInit.v ===== *)
(** * The physical page allocator: initialisation (kernel/mm/buddy.c)

    [pmm_init] builds the bitmap of used pages from the loader's memory map
    and the boot allocator's bitmap, places the descriptor array, cuts every
    run of free pages of a zone into aligned power-of-two blocks and writes
    the descriptors.  The theorems show that, whatever the bitmap says, the
    result satisfies the invariant the other operations need. *)

From S2P Require Import Prelude Bitmap Buddy BuddyInv BuddySpec BootAllot.

Local Open Scope Z_scope.

(** ** Model *)

(** buddy.c: calculate_max_pfn *)
Definition calculate_max_pfn (mmap : list MMapEnt) : Z :=
  let max_pfn :=
    fold_left (fun max_pfn e =>
      if MMapEnt_Type e =? MMAP_FREE then
        let end_pfn := u64 (MMapEnt_Ptr e + MMapEnt_Size e) / PAGE_SIZE in
        if max_pfn <? end_pfn then end_pfn else max_pfn
      else max_pfn) mmap 0 in
  if 0 <? max_pfn then max_pfn - 1 else max_pfn.

(** The pages of the bitmap of used pages. *)
Definition alloc_bitmap_pages (max_pfn : Z) : Z :=
  (BITMAP_BYTES (max_pfn + 1) + PAGE_SIZE - 1) / PAGE_SIZE.

(** buddy.c: alloc_bitmap_init, clearing the bits of one free entry *)
Definition clear_entry (max_pfn : Z) (e : MMapEnt) (bm : bytes) : outcome bytes :=
  if MMapEnt_Type e =? MMAP_FREE then
    let end_addr := u64 (MMapEnt_Ptr e + MMapEnt_Size e) in
    let start_pfn := MMapEnt_Ptr e / PAGE_SIZE in
    let end_pfn := u64 (end_addr + PAGE_SIZE - 1) / PAGE_SIZE in
    if max_pfn <? start_pfn then Ok bm
    else
      let end_pfn := Z.min end_pfn (max_pfn + 1) in
      for_up (span start_pfn end_pfn) start_pfn (fun pfn bm => bitmap_clear bm pfn) bm
  else Ok bm.

(** buddy.c: alloc_bitmap_init, copying one bit of the boot bitmap *)
Definition copy_bit (boot : bytes) (pfn : Z) (bm : bytes) : outcome bytes :=
  is_allocated ← bitmap_check boot pfn;
  if is_allocated : bool then bitmap_set bm pfn else bitmap_clear bm pfn.

(** buddy.c: alloc_bitmap_init.  [mem] is the memory of the pages that
    [boot_alloc] hands out for the bitmap. *)
Definition alloc_bitmap_init (mmap : list MMapEnt) (max_pfn : Z) (mem : bytes) (b : boot_t)
  : outcome (bytes * boot_t) :=
  '(alloc_bitmap, b) ← boot_alloc (alloc_bitmap_pages max_pfn) b;
  _ ← assert_or_panic (negb (alloc_bitmap =? 0));
  let boot_bitmap := boot_alloc_get_bitmap b in
  bm ← bitmap_fill mem (max_pfn + 1);
  bm ← for_each mmap (clear_entry max_pfn) bm;
  if boot_bitmap =? 0 then Ok (bm, b)
  else
    boot ← deref (bitmap b);
    bm ← for_up (Z.to_nat BOOT_ALLOC_MAX_PAGES) 0 (copy_bit boot) bm;
    let boot_bitmap_phys := LINEAR_TO_PHYS boot_bitmap in
    let start_pfn := boot_bitmap_phys / PAGE_SIZE in
    let end_pfn := u64 (boot_bitmap_phys + BOOT_ALLOC_BITMAP_SIZE + PAGE_SIZE - 1) / PAGE_SIZE in
    bm ← for_up (span start_pfn end_pfn) start_pfn (fun pfn bm => bitmap_clear bm pfn) bm;
    Ok (bm, b).

(** buddy.c: bitmap_alloc; the state of the scan is [consecutive], [start_pfn] *)
Definition bitmap_alloc (max_pfn pages : Z) (bm : bytes) : outcome (Z * bytes) :=
  r ← for_ret (Z.to_nat (max_pfn + 1)) 0
        (fun i '(consecutive, start_pfn) =>
           used ← bitmap_check bm i;
           if used : bool then Ok (inl (0, start_pfn))
           else
             let start_pfn := if consecutive =? 0 then i else start_pfn in
             if consecutive + 1 =? pages then
               bm ← for_up (Z.to_nat pages) start_pfn (fun j bm => bitmap_set bm j) bm;
               Ok (inr (PHYS_TO_LINEAR (start_pfn * PAGE_SIZE), bm))
             else Ok (inl (consecutive + 1, start_pfn))) (0, 0);
  match r with inr r => Ok r | inl _ => Panic end.

(** buddy.c: zone_init, the three zones *)
Definition zone_init_zones (max_pfn : Z) : gmap Z zone_t :=
  if max_pfn <? 1048576 then
    <[ZONE_DMA := Zone 0 4096]> (<[ZONE_DMA32 := Zone 4096 (max_pfn + 1)]>
      (<[ZONE_NORMAL := Zone 0 0]> ∅))
  else
    <[ZONE_DMA := Zone 0 4096]> (<[ZONE_DMA32 := Zone 4096 1048576]>
      (<[ZONE_NORMAL := Zone 1048576 (max_pfn + 1)]> ∅)).

(** buddy.c: zone_init, the empty lists *)
Definition zone_init_lists : free_areas_t :=
  for_pure 3 0 (fun i fa =>
    for_pure (Z.to_nat MAX_ORDER) 0 (fun j fa => <[(i, j) := []]> fa) fa) ∅.

(** buddy.c: alloc_mem_block, the size of the array and its cleared descriptors *)
Definition mem_block_pages (max_pfn : Z) : Z :=
  let total_size := 128 + (max_pfn + 1) * 16 in (total_size + PAGE_SIZE - 1) / PAGE_SIZE.

(** The field [on_pte_ptr] keeps what the memory held. *)
Definition cleared_desc (garbage : Z) : mem_block_t := MemBlock false false 0 0 0 0 0 garbage.

Definition cleared_blocks (max_pfn : Z) (garbage : Z -> Z) : blocks_t :=
  for_pure (Z.to_nat (max_pfn + 1)) 0 (fun i m => <[i := cleared_desc (garbage i)]> m) ∅.

(** buddy.c: alloc_mem_block *)
Definition alloc_mem_block (max_pfn : Z) (garbage : Z -> Z) (bm : bytes) : outcome (blocks_t * bytes) :=
  '(_, bm) ← bitmap_alloc max_pfn (mem_block_pages max_pfn) bm;
  Ok (cleared_blocks max_pfn garbage, bm).

(** buddy.c: page_is_alloc *)
Definition page_is_alloc (bm : bytes) (pfn : Z) : outcome bool := bitmap_check bm pfn.

(** buddy.c: free_lists_init, the two inner scans *)
Definition skip_alloc (bm : bytes) (end_pfn pfn : Z) : outcome Z :=
  while_loop (S (span pfn end_pfn))
    (fun pfn => if pfn <? end_pfn then
                  used ← page_is_alloc bm pfn;
                  Ok (if used : bool then inl (pfn + 1) else inr pfn)
                else Ok (inr pfn)) pfn.

Definition count_free (bm : bytes) (end_pfn pfn : Z) : outcome (Z * Z) :=
  while_loop (S (span pfn end_pfn))
    (fun '(pfn, free_size) =>
       if pfn <? end_pfn then
         used ← page_is_alloc bm pfn;
         Ok (if used : bool then inr (pfn, free_size) else inl (pfn + 1, free_size + 1))
       else Ok (inr (pfn, free_size))) (pfn, 0).

(** buddy.c: free_lists_init, the loop over the orders, from [n - 1] down *)
Fixpoint best_order (n : nat) (current remaining : Z) : Z :=
  match n with
  | O => -1
  | S k =>
      let block_size := Z.shiftl 1 (Z.of_nat k) in
      if (block_size <=? remaining) && (Z.land current (block_size - 1) =? 0) then Z.of_nat k
      else best_order k current remaining
  end.

(** buddy.c: free_lists_init, cutting one run into blocks *)
Definition cut_region (zone_id current remaining : Z) (s : pmm) : outcome pmm :=
  while_loop (S (Z.to_nat remaining))
    (fun '(current, remaining, s) =>
       if 0 <? remaining then
         let best := best_order (Z.to_nat MAX_ORDER) current remaining in
         let best := if best <? 0 then 0 else best in
         let block_size := Z.shiftl 1 best in
         s ← add_free_lists current zone_id best s;
         Ok (inl (current + block_size, remaining - block_size, s))
       else Ok (inr s)) (current, remaining, s).

(** buddy.c: free_lists_init, the scan of one zone *)
Definition scan_zone (bm : bytes) (zone_id : Z) (s : pmm) : outcome pmm :=
  zone ← deref (zones s !! zone_id);
  while_loop (S (span (start_pfn zone) (end_pfn zone)))
    (fun '(pfn, s) =>
       if pfn <? end_pfn zone then
         pfn ← skip_alloc bm (end_pfn zone) pfn;
         if end_pfn zone <=? pfn then Ok (inr s)
         else
           '(next, free_size) ← count_free bm (end_pfn zone) pfn;
           s ← cut_region zone_id pfn free_size s;
           Ok (inl (next, s))
       else Ok (inr s)) (start_pfn zone, s).

(** buddy.c: free_lists_init *)
Definition free_lists_init (bm : bytes) (s : pmm) : outcome pmm :=
  for_up 3 ZONE_DMA (fun zone_id s => scan_zone bm zone_id s) s.

(** buddy.c: mem_block_init, what is stored in the descriptor of a used page *)
Definition used_desc (zone_id : Z) (b : mem_block_t) : mem_block_t :=
  with_zone (with_order (with_free (with_head b true) false) 0) zone_id.

(** buddy.c: mem_block_init, what is stored in descriptor [i] of a free block *)
Definition free_desc (order_id zone_id i : Z) (b : mem_block_t) : mem_block_t :=
  with_zone (with_order (with_free (with_head b (i =? 0)) true) order_id) zone_id.

(** buddy.c: mem_block_init, the used pages of one zone *)
Definition mark_used (bm : bytes) (s : pmm) (zone_id : Z) (m : blocks_t) : outcome blocks_t :=
  zone ← deref (zones s !! zone_id);
  for_up (span (start_pfn zone) (end_pfn zone)) (start_pfn zone)
    (fun pfn m =>
       used ← page_is_alloc bm pfn;
       if used : bool then upd_block m pfn (used_desc zone_id) else Ok m) m.

(** buddy.c: mem_block_init *)
Definition mem_block_init (bm : bytes) (s : pmm) : outcome pmm :=
  m ← for_up 3 ZONE_DMA (mark_used bm s) (blocks s);
  m ← for_up 3 ZONE_DMA
        (fun zone_id m =>
           for_up (Z.to_nat MAX_ORDER) 0
             (fun order_id m =>
                nodes ← deref (free_areas s !! (zone_id, order_id));
                for_each nodes
                  (fun pfn m => upd_pages m pfn (Z.shiftl 1 order_id) (free_desc order_id zone_id)) m) m) m;
  Ok (set_blocks s m).

(** The zones, lists and descriptors from a bitmap and a cleared array. *)
Definition build (max_pfn : Z) (bm : bytes) (m : blocks_t) (w : gmap Z Z) : outcome pmm :=
  s ← free_lists_init bm (Pmm max_pfn (zone_init_zones max_pfn) zone_init_lists m w);
  mem_block_init bm s.

(** buddy.c: pmm_init; the answer also holds the bitmap *)
Definition pmm_init (mmap : list MMapEnt) (mem : bytes) (garbage : Z -> Z) (b : boot_t) (w : gmap Z Z)
  : outcome (pmm * bytes) :=
  let max_pfn := calculate_max_pfn mmap in
  '(bm, b) ← alloc_bitmap_init mmap max_pfn mem b;
  '(m, bm) ← alloc_mem_block max_pfn garbage bm;
  s ← build max_pfn bm m w;
  Ok (s, bm).

(** ** The free lists after the scan *)

Section build.
Context (n mp : Z) (bm : bytes).
Hypothesis Hn : n < 2 ^ 29.
Hypothesis Hbm : bitmap_wf bm n.
Hypothesis Hbits : mp + 1 <= 8 * n.
Hypothesis Hmp : 4095 <= mp < 2 ^ 31.

(** The zones as [zone_init] sets them. *)
Definition zs (z : Z) : Z :=
  if z =? ZONE_DMA then 0 else if z =? ZONE_DMA32 then 4096 else if mp <? 1048576 then 0 else 1048576.
Definition ze (z : Z) : Z :=
  if z =? ZONE_DMA then 4096
  else if z =? ZONE_DMA32 then (if mp <? 1048576 then mp + 1 else 1048576)
  else if mp <? 1048576 then 0 else mp + 1.

Lemma zone_lookup z : 0 <= z <= ZONE_NORMAL -> zone_init_zones mp !! z = Some (Zone (zs z) (ze z)).
Proof.
  unfold ZONE_NORMAL. intros Hz. assert (z = 0 \/ z = 1 \/ z = 2) as [->|[->| ->]] by lia;
    unfold zone_init_zones, zs, ze; by destruct (mp <? 1048576).
Qed.

Lemma zone_range z : 0 <= z <= ZONE_NORMAL -> 0 <= zs z <= ze z /\ ze z <= mp + 1.
Proof.
  unfold ZONE_NORMAL. intros Hz. assert (z = 0 \/ z = 1 \/ z = 2) as [->|[->| ->]] by lia;
    unfold zs, ze; cbn; destruct (Z.ltb_spec mp 1048576); lia.
Qed.

Lemma zone_disjoint z z' q : 0 <= z <= ZONE_NORMAL -> 0 <= z' <= ZONE_NORMAL ->
  zs z <= q < ze z -> zs z' <= q < ze z' -> z = z'.
Proof.
  unfold ZONE_NORMAL. intros Hz Hz'.
  assert (z = 0 \/ z = 1 \/ z = 2) as [->|[->| ->]] by lia;
  assert (z' = 0 \/ z' = 1 \/ z' = 2) as [->|[->| ->]] by lia;
    unfold zs, ze; cbn; destruct (Z.ltb_spec mp 1048576); lia.
Qed.

Lemma zone_cover q : 0 <= q <= mp -> exists z, 0 <= z <= ZONE_NORMAL /\ zs z <= q < ze z.
Proof.
  intros Hq. unfold ZONE_NORMAL. destruct (Z.lt_ge_cases q 4096).
  - exists 0. split; [lia|]. unfold zs, ze. cbn. lia.
  - destruct (Z.ltb_spec mp 1048576).
    + exists 1. split; [lia|]. unfold zs, ze. cbn. destruct (Z.ltb_spec mp 1048576); lia.
    + destruct (Z.lt_ge_cases q 1048576); [exists 1|exists 2]; (split; [lia|]);
        unfold zs, ze; cbn; destruct (Z.ltb_spec mp 1048576); lia.
Qed.

Definition entry (fa : free_areas_t) (z o p : Z) : Prop := exists l, fa !! (z, o) = Some l /\ p ∈ l.

(** The lists describe the free frames of every zone [z] below [bd z]. *)
Record lists_upto (bd : Z -> Z) (fa : free_areas_t) : Prop := {
  lu_heads : heads_ok fa;
  lu_nodup : forall z o l, fa !! (z, o) = Some l -> NoDup l;
  lu_block : forall z o p, entry fa z o p ->
    0 <= z <= ZONE_NORMAL /\ 0 <= o < MAX_ORDER /\ p mod 2 ^ o = 0 /\ zs z <= p /\
    p + 2 ^ o <= bd z /\ forall q, p <= q < p + 2 ^ o -> bit_at bm q = false;
  lu_disj : forall z o p o' p' q, entry fa z o p -> entry fa z o' p' ->
    p <= q < p + 2 ^ o -> p' <= q < p' + 2 ^ o' -> o = o' /\ p = p';
  lu_cover : forall z q, 0 <= z <= ZONE_NORMAL -> zs z <= q < bd z -> bit_at bm q = false ->
    exists o p, entry fa z o p /\ p <= q < p + 2 ^ o
}.

Definition upd_bd (bd : Z -> Z) (z x : Z) : Z -> Z := fun z' => if z' =? z then x else bd z'.

Lemma lists_skip bd fa z x :
  lists_upto bd fa -> bd z <= x -> (forall q, bd z <= q < x -> bit_at bm q = true) ->
  lists_upto (upd_bd bd z x) fa.
Proof.
  intros [Hh Hnd Hb Hd Hc] Hx Hu. constructor; try done.
  - intros z' o p He. destruct (Hb z' o p He) as (? & ? & ? & ? & ? & ?). split_and!; try done; try lia.
    unfold upd_bd. destruct (Z.eqb_spec z' z); subst; lia.
  - intros z' q Hz Hq Hf. unfold upd_bd in Hq. destruct (Z.eqb_spec z' z) as [->|]; [|by apply Hc].
    destruct (Z.lt_ge_cases q (bd z)); [apply Hc; (done || lia)|]. rewrite Hu in Hf; (done || lia).
Qed.

Lemma entry_insert fa z o l z' o' p p' :
  fa !! (z, o) = Some l ->
  entry (<[(z, o) := p :: l]> fa) z' o' p' <-> entry fa z' o' p' \/ (z' = z /\ o' = o /\ p' = p).
Proof.
  intros E. unfold entry. setoid_rewrite lookup_insert. destruct (decide ((z, o) = (z', o'))) as [[= <- <-]|Hne].
  - split.
    + intros (l' & [= <-] & [->|?]%elem_of_cons); [by right|left; eauto].
    + intros [(l' & E' & ?)|(_ & _ & ->)]; eexists; (split; [done|]); [|left]. right. by simplify_eq.
  - split; [by left|]. intros [?|(-> & -> & _)]; [done|]. done.
Qed.

Lemma lists_add bd fa z o l :
  lists_upto bd fa -> 0 <= z <= ZONE_NORMAL -> 0 <= o < MAX_ORDER -> bd z mod 2 ^ o = 0 -> zs z <= bd z ->
  (forall q, bd z <= q < bd z + 2 ^ o -> bit_at bm q = false) -> fa !! (z, o) = Some l ->
  lists_upto (upd_bd bd z (bd z + 2 ^ o)) (<[(z, o) := bd z :: l]> fa).
Proof.
  intros [Hh Hnd Hb Hd Hc] Hz Ho Ha Hs Hf E. pose proof (pow2_pos o). constructor.
  - by apply heads_ok_insert.
  - intros z' o' l'. rewrite lookup_insert. case_decide as Hk; [intros [= <-]|apply Hnd].
    apply NoDup_cons. split; [|by eapply Hnd]. intros Hin.
    destruct (Hb z o (bd z)) as (_ & _ & _ & _ & ? & _); [by exists l|]. lia.
  - intros z' o' p. rewrite entry_insert by done. unfold upd_bd. intros [He|(-> & -> & ->)].
    + destruct (Hb z' o' p He) as (? & ? & ? & ? & ? & ?). split_and!; try done; try lia.
      destruct (Z.eqb_spec z' z); subst; lia.
    + rewrite Z.eqb_refl. split_and!; try done; lia.
  - intros z' o1 p1 o2 p2 q. rewrite !entry_insert by done.
    intros [He1|(-> & -> & ->)] [He2|(? & -> & ->)] Hq1 Hq2; [by eapply Hd| | |done].
    + subst z'. destruct (Hb z o1 p1 He1) as (_ & _ & _ & _ & ? & _). lia.
    + destruct (Hb z o2 p2 He2) as (_ & _ & _ & _ & ? & _). lia.
  - intros z' q Hz' Hq Hfq. unfold upd_bd in Hq.
    assert (Hold : zs z' <= q < bd z' ->
      exists o' p, entry (<[(z, o) := bd z :: l]> fa) z' o' p /\ p <= q < p + 2 ^ o').
    { intros Hq'. destruct (Hc z' q Hz' Hq' Hfq) as (o' & p & He & ?). exists o', p. split; [|done].
      apply (entry_insert _ _ _ _ _ _ _ _ E). by left. }
    destruct (Z.eqb_spec z' z) as [->|]; [|by apply Hold].
    destruct (Z.lt_ge_cases q (bd z)); [apply Hold; lia|].
    exists o, (bd z). split; [|lia]. apply (entry_insert _ _ _ _ _ _ _ _ E). by right.
Qed.

Lemma lists_upto_ext bd bd' fa : (forall z, bd z = bd' z) -> lists_upto bd fa -> lists_upto bd' fa.
Proof.
  intros He [Hh Hnd Hb Hd Hc]. constructor; try done.
  - intros z o p. rewrite <- He. apply Hb.
  - intros z q. rewrite <- He. apply Hc.
Qed.

Lemma page_is_alloc_spec q : 0 <= q <= mp -> page_is_alloc bm q = Ok (bit_at bm q).
Proof. intros. apply (bitmap_check_spec n Hn); [done|lia]. Qed.

Lemma skip_alloc_spec e p : 0 <= p <= e -> e <= mp + 1 ->
  exists x, skip_alloc bm e p = Ok x /\ p <= x <= e /\
    (forall q, p <= q < x -> bit_at bm q = true) /\ (x < e -> bit_at bm x = false).
Proof.
  intros Hp He. unfold skip_alloc.
  match goal with |- context [while_loop ?f ?b ?s0] =>
    apply (while_rule (fun x => p <= x <= e /\ forall q, p <= q < x -> bit_at bm q = true)
      (fun x => p <= x <= e /\ (forall q, p <= q < x -> bit_at bm q = true) /\ (x < e -> bit_at bm x = false))
      (fun x => e - x) f b s0) end.
  - split; [lia|]. intros q Hq. lia.
  - unfold span. lia.
  - lia.
  - intros x [Hx Hu]. destruct (Z.ltb_spec x e).
    + rewrite page_is_alloc_spec by lia. cbn [mbind outcome_bind]. destruct (bit_at bm x) eqn:E.
      * left. exists (x + 1). split; [done|]. split; [|lia]. split; [lia|]. intros q Hq.
        destruct (Z.eq_dec q x) as [->|]; [done|]. apply Hu. lia.
      * right. exists x. done.
    + right. exists x. split; [done|]. split_and!; (done || lia).
Qed.

Lemma count_free_spec e p : 0 <= p < e -> e <= mp + 1 -> bit_at bm p = false ->
  exists sz, count_free bm e p = Ok (p + sz, sz) /\ 0 < sz /\ p + sz <= e /\
    forall q, p <= q < p + sz -> bit_at bm q = false.
Proof.
  intros Hp He Hb. unfold count_free.
  match goal with |- context [while_loop ?f ?b ?s0] =>
    destruct (while_rule (fun x => x.1 = p + x.2 /\ 0 <= x.2 /\ x.1 <= e /\
        forall q, p <= q < x.1 -> bit_at bm q = false)
      (fun x => x.1 = p + x.2 /\ 0 < x.2 /\ x.1 <= e /\ forall q, p <= q < x.1 -> bit_at bm q = false)
      (fun x => e - x.1) f b s0) as ([x sz] & E & Hx & H) end.
  - cbn. split_and!; lia.
  - cbn. unfold span. lia.
  - intros [x sz]. cbn. lia.
  - intros [x sz] (Hx & Hs & Hle & Hu). cbn in Hx, Hs, Hle, Hu. destruct (Z.ltb_spec x e).
    + rewrite page_is_alloc_spec by lia. cbn [mbind outcome_bind]. destruct (bit_at bm x) eqn:E.
      * right. exists (x, sz). split; [done|]. cbn. split_and!; try done.
        destruct (Z.eq_dec sz 0); [|lia]. subst. rewrite Z.add_0_r in *. congruence.
      * left. exists (x + 1, sz + 1). split; [done|]. cbn. split; [|lia]. split_and!; try lia.
        intros q Hq. destruct (Z.eq_dec q x) as [->|]; [done|]. apply Hu. lia.
    + right. exists (x, sz). split; [done|]. cbn. split_and!; (done || lia).
  - cbn in Hx, H. subst x. exists sz. done.
Qed.

Lemma best_order_spec k cur rem : 0 < rem -> (0 < k)%nat ->
  let o := best_order k cur rem in
  0 <= o < Z.of_nat k /\ 2 ^ o <= rem /\ cur mod 2 ^ o = 0.
Proof.
  intros Hr. induction k as [|k IH]; [lia|]. intros _. cbn [best_order]. cbv zeta.
  rewrite shiftl_1 by lia. replace (2 ^ Z.of_nat k - 1) with (Z.ones (Z.of_nat k)) by (rewrite Z.ones_equiv; lia).
  rewrite Z.land_ones by lia. destruct (_ && _) eqn:G; [zbool; split_and!; (lia || done)|].
  destruct k as [|k].
  - change (2 ^ Z.of_nat 0) with 1 in G. rewrite Z.mod_1_r in G.
    replace (1 <=? rem) with true in G by lia. discriminate G.
  - destruct IH as (? & ? & ?); [lia|]. split_and!; (done || lia).
Qed.

Lemma upd_bd_eq bd z x : upd_bd bd z x z = x.
Proof. unfold upd_bd. by rewrite Z.eqb_refl. Qed.

Lemma upd_bd_twice bd z x y z' : upd_bd (upd_bd bd z x) z y z' = upd_bd bd z y z'.
Proof. unfold upd_bd. by destruct (z' =? z). Qed.

Lemma cut_region_spec bd z cur rem s :
  lists_upto bd (free_areas s) -> 0 <= z <= ZONE_NORMAL -> bd z = cur -> zs z <= cur -> 0 <= rem ->
  (forall q, cur <= q < cur + rem -> bit_at bm q = false) ->
  exists fa, cut_region z cur rem s = Ok (set_free_areas s fa) /\
    lists_upto (upd_bd bd z (cur + rem)) fa.
Proof.
  intros Hl Hz <- Hs Hr Hf. unfold cut_region.
  match goal with |- context [while_loop ?f ?b ?s0] =>
    destruct (while_rule (fun '(c, r, s') => bd z <= c /\ 0 <= r /\ c + r = bd z + rem /\
        exists fa, s' = set_free_areas s fa /\ lists_upto (upd_bd bd z c) fa)
      (fun s' => exists fa, s' = set_free_areas s fa /\ lists_upto (upd_bd bd z (bd z + rem)) fa)
      (fun '(c, r, s') => r) f b s0) as (s' & E & fa & -> & H) end.
  - split_and!; try lia. exists (free_areas s). split; [by destruct s|].
    apply lists_skip; [done|lia|]. intros q Hq. lia.
  - lia.
  - intros [[c r] s']. lia.
  - intros [[c r] s'] (Hc & Hr0 & He & fa & -> & Hfa). destruct (Z.ltb_spec 0 r).
    2:{ right. eexists. split; [done|]. exists fa. split; [done|]. by replace (bd z + rem) with c by lia. }
    left. destruct (best_order_spec (Z.to_nat MAX_ORDER) c r) as (Ho & Hle & Ha); [lia|unfold MAX_ORDER; lia|].
    set (o := best_order _ c r) in *. replace (o <? 0) with false by lia.
    rewrite Z2Nat.id in Ho by done. rewrite shiftl_1 by lia. pose proof (pow2_pos o).
    unfold add_free_lists. cbn [free_areas set_free_areas].
    destruct (lu_heads _ _ Hfa z o Hz Ho) as [l El]. rewrite El. cbn [deref mbind outcome_bind].
    eexists. split; [done|]. split; [|lia]. split_and!; try lia.
    exists (<[(z, o) := c :: l]> fa). split; [done|].
    pose proof (lists_add (upd_bd bd z c) fa z o l Hfa Hz Ho) as HA. rewrite upd_bd_eq in HA.
    eapply lists_upto_ext; [|apply HA; try done; [lia|]].
    + intros z'. apply upd_bd_twice.
    + intros q Hq. apply Hf. lia.
  - exists fa. rewrite E. done.
Qed.

Lemma scan_zone_spec bd z s :
  zones s = zone_init_zones mp -> lists_upto bd (free_areas s) -> 0 <= z <= ZONE_NORMAL -> bd z = zs z ->
  exists fa, scan_zone bm z s = Ok (set_free_areas s fa) /\ lists_upto (upd_bd bd z (ze z)) fa.
Proof.
  intros Hzn Hl Hz Hbd. unfold scan_zone. rewrite Hzn, zone_lookup by done.
  cbn [deref mbind outcome_bind start_pfn end_pfn]. destruct (zone_range z Hz) as [Hr Hle].
  match goal with |- context [while_loop ?f ?b ?s0] =>
    destruct (while_rule (fun '(p, s') => zs z <= p <= ze z /\
        exists fa, s' = set_free_areas s fa /\ lists_upto (upd_bd bd z p) fa)
      (fun s' => exists fa, s' = set_free_areas s fa /\ lists_upto (upd_bd bd z (ze z)) fa)
      (fun '(p, s') => ze z - p) f b s0) as (s' & E & fa & -> & H) end.
  - split; [lia|]. exists (free_areas s). split; [by destruct s|].
    apply lists_skip; [done|lia|]. intros q Hq. lia.
  - unfold span. lia.
  - intros [p s']. lia.
  - intros [p s'] (Hp & fa & -> & Hfa). destruct (Z.ltb_spec p (ze z)).
    2:{ right. eexists. split; [done|]. exists fa. split; [done|]. by replace (ze z) with p by lia. }
    destruct (skip_alloc_spec (ze z) p) as (x & -> & Hx & Hu & Hfree); [lia|lia|]. cbn [mbind outcome_bind].
    assert (Hx1 : lists_upto (upd_bd bd z x) fa).
    { eapply lists_upto_ext; [intros z'; apply upd_bd_twice|].
      apply (lists_skip _ _ z x Hfa); rewrite upd_bd_eq; [lia|]. intros q Hq. apply Hu. lia. }
    destruct (Z.leb_spec (ze z) x).
    { right. eexists. split; [done|]. exists fa. split; [done|]. by replace (ze z) with x by lia. }
    destruct (count_free_spec (ze z) x) as (sz & -> & Hsz & Hsze & Hclear); [lia|lia|by apply Hfree|].
    cbn [mbind outcome_bind].
    destruct (cut_region_spec (upd_bd bd z x) z x sz (set_free_areas s fa)) as (fa' & -> & Hfa');
      [done|done|apply upd_bd_eq|lia|lia|done|].
    cbn [mbind outcome_bind]. left. eexists. split; [done|]. split; [|lia]. split; [lia|].
    exists fa'. split; [done|]. eapply lists_upto_ext; [|exact Hfa']. intros z'. apply upd_bd_twice.
  - exists fa. rewrite E. done.
Qed.

Lemma zone_init_lists_lookup z o : 0 <= z <= ZONE_NORMAL -> 0 <= o < MAX_ORDER ->
  zone_init_lists !! (z, o) = Some [].
Proof.
  intros Hz Ho. pose proof (all_areas_spec z o Hz Ho) as Hin.
  assert (forallb (fun k => bool_decide (zone_init_lists !! k = Some [])) all_areas = true) as H by (by vm_compute).
  rewrite forallb_forall in H. eapply bool_decide_eq_true_1, H. by apply list_elem_of_In.
Qed.

Lemma zone_init_lists_nil k l : zone_init_lists !! k = Some l -> l = [].
Proof.
  intros E.
  assert (bool_decide (map_Forall (fun (_ : Z * Z) (l : list Z) => l = []) zone_init_lists) = true)
    as H by (by vm_compute).
  apply bool_decide_eq_true in H. by eapply H.
Qed.

Lemma free_lists_init_spec m w :
  exists fa, free_lists_init bm (Pmm mp (zone_init_zones mp) zone_init_lists m w) =
    Ok (Pmm mp (zone_init_zones mp) fa m w) /\ lists_upto ze fa.
Proof.
  unfold free_lists_init.
  match goal with |- context [for_up ?k ?i ?b ?s0] =>
    destruct (for_up_inv (fun z s => exists fa, s = Pmm mp (zone_init_zones mp) fa m w /\
      lists_upto (fun z' => if z' <? z then ze z' else zs z') fa) k i b s0) as (s & E & fa & -> & H) end.
  - exists zone_init_lists. split; [done|].
    assert (Hno : forall z o p, ~ entry zone_init_lists z o p).
    { intros z o p (l & E & Hp). rewrite (zone_init_lists_nil _ _ E) in Hp. by apply not_elem_of_nil in Hp. }
    constructor.
    + intros z o Hz Ho. rewrite zone_init_lists_lookup by done. eauto.
    + intros z o l E. rewrite (zone_init_lists_nil _ _ E). constructor.
    + intros z o p He. by destruct (Hno z o p).
    + intros z o p o' p' q He. by destruct (Hno z o p).
    + intros z q Hz Hq. destruct (z <? ZONE_DMA) eqn:F; unfold ZONE_DMA in *; zbool; lia.
  - intros z s Hz (fa & -> & Hl). unfold ZONE_DMA in Hz.
    destruct (scan_zone_spec (fun z' => if z' <? z then ze z' else zs z') z (Pmm mp (zone_init_zones mp) fa m w))
      as (fa' & -> & Hfa'); [done|exact Hl|unfold ZONE_NORMAL; lia| |].
    { cbn beta. by rewrite Z.ltb_irrefl. }
    eexists. split; [done|]. exists fa'. split; [done|]. eapply lists_upto_ext; [|exact Hfa'].
    intros z'. unfold upd_bd. cbn beta. destruct (Z.eqb_spec z' z) as [->|].
    + by replace (z <? z + 1) with true by lia.
    + destruct (Z.ltb_spec z' z), (Z.ltb_spec z' (z + 1)); (done || lia).
  - exists fa. rewrite E. split; [done|]. destruct H as [Hh Hnd Hb Hd Hc]. constructor; try done.
    + intros z o p He. destruct (Hb z o p He) as (Hz & ? & ? & ? & Hbd & ?). split_and!; try done; try lia.
      revert Hbd. change (ZONE_DMA + Z.of_nat 3) with 3. unfold ZONE_NORMAL in *. by replace (z <? 3) with true by lia.
    + intros z q Hz Hq. apply Hc; [done|]. change (ZONE_DMA + Z.of_nat 3) with 3. unfold ZONE_NORMAL in *.
      by replace (z <? 3) with true by lia.
Qed.

(** ** The descriptors *)

(** Frame [q] is a used page with its own descriptor. *)
Definition used_block (m : blocks_t) (z q : Z) : Prop := is_block m q 0 z false.

(** The used pages of the zones below [bd] and the blocks of the list entries
    in [D] have their descriptors. *)
Record marked (fa : free_areas_t) (bd : Z -> Z) (D : Z -> Z -> Z -> Prop) (m : blocks_t) : Prop := {
  mk_dom : forall q, is_Some (m !! q) <-> 0 <= q <= mp;
  mk_refs : refs_ok m;
  mk_used : forall z q, 0 <= z <= ZONE_NORMAL -> zs z <= q < bd z -> bit_at bm q = true -> used_block m z q;
  mk_free : forall z o p, entry fa z o p -> D z o p -> is_block m p o z true
}.

Lemma used_desc_block m z q b : 0 <= z <= ZONE_NORMAL -> 0 <= q -> m !! q = Some b ->
  used_block (<[q := used_desc z b]> m) z q.
Proof.
  intros Hz Hq E. split_and!; try done; try lia; [by rewrite Z.mod_1_r|].
  intros i Hi. replace i with 0 by lia. rewrite Z.add_0_r, lookup_insert_eq. eexists. split; [done|].
  cbn. unfold wrap, ZONE_NORMAL in *. split_and!; try done. apply Z.mod_small. lia.
Qed.

Lemma mark_used_step fa bd z m :
  marked fa bd (fun _ _ _ => False) m -> 0 <= z <= ZONE_NORMAL -> zs z <= bd z < ze z ->
  (forall z', 0 <= z' <= ZONE_NORMAL -> bd z' <= ze z') ->
  exists m', (used ← page_is_alloc bm (bd z);
     if used : bool then upd_block m (bd z) (used_desc z) else Ok m) = Ok m' /\
    marked fa (upd_bd bd z (bd z + 1)) (fun _ _ _ => False) m'.
Proof.
  intros [Hd Hr Hu _] Hz Hq Hbd. destruct (zone_range z Hz) as [? ?].
  rewrite page_is_alloc_spec by lia. cbn [mbind outcome_bind]. destruct (bit_at bm (bd z)) eqn:E.
  - unfold upd_block, get_block. destruct (proj2 (Hd (bd z)) ltac:(lia)) as [b Eb]. rewrite Eb.
    cbn [deref mbind outcome_bind]. eexists. split; [done|]. constructor; [| | |done].
    + intros q. rewrite lookup_insert. case_decide; [subst; split; [lia|eauto]|apply Hd].
    + intros q b'. rewrite lookup_insert. case_decide; [intros [= <-]; by apply (Hr _ _ Eb)|apply Hr].
    + intros z' q Hz' Hq' Hb. destruct (decide (q = bd z)) as [->|Hne].
      * assert (z' = z) as ->; [|apply used_desc_block; (done || lia)].
        destruct (Z.eq_dec z' z); [done|]. unfold upd_bd in Hq'. replace (z' =? z) with false in Hq' by lia.
        specialize (Hbd z' Hz'). apply (zone_disjoint z' z (bd z)); (done || lia).
      * apply (is_block_frame m _ (bd z) 1); [| |apply Hu; try done].
        -- intros x Hx. rewrite lookup_insert_ne; [done|lia].
        -- change (2 ^ 0) with 1. lia.
        -- unfold upd_bd in Hq'. destruct (Z.eqb_spec z' z); subst; lia.
  - exists m. split; [done|]. constructor; try done. intros z' q Hz' Hq' Hb.
    unfold upd_bd in Hq'. destruct (Z.eqb_spec z' z) as [->|]; [|by apply Hu].
    destruct (Z.eq_dec q (bd z)); [congruence|]. apply Hu; (done || lia).
Qed.

Lemma marked_ext fa bd bd' D D' m :
  (forall z, 0 <= z <= ZONE_NORMAL -> bd z = bd' z) -> (forall z o p, entry fa z o p -> D' z o p -> D z o p) ->
  marked fa bd D m -> marked fa bd' D' m.
Proof.
  intros Hb HD [Hd Hr Hu Hf]. constructor; try done; [|by eauto].
  intros z q Hz. rewrite <- Hb by done. by apply Hu.
Qed.

Lemma marked_bd fa bd bd' D m :
  (forall z, 0 <= z <= ZONE_NORMAL -> bd z = bd' z) -> marked fa bd D m -> marked fa bd' D m.
Proof. intros Hb. by apply marked_ext. Qed.

Lemma mark_used_spec fa bd z m s :
  zones s = zone_init_zones mp -> marked fa bd (fun _ _ _ => False) m ->
  0 <= z <= ZONE_NORMAL -> bd z = zs z -> (forall z', 0 <= z' <= ZONE_NORMAL -> bd z' <= ze z') ->
  exists m', mark_used bm s z m = Ok m' /\ marked fa (upd_bd bd z (ze z)) (fun _ _ _ => False) m'.
Proof.
  intros Hzn Hm Hz Hb Hbd. unfold mark_used. rewrite Hzn, zone_lookup by done.
  cbn [deref mbind outcome_bind start_pfn end_pfn]. destruct (zone_range z Hz) as [? ?].
  match goal with |- context [for_up ?k ?i ?b ?s0] =>
    destruct (for_up_inv (fun p m' => marked fa (upd_bd bd z p) (fun _ _ _ => False) m') k i b s0)
      as (m' & E & H') end.
  - eapply marked_bd; [|exact Hm]. intros z' _. unfold upd_bd. destruct (Z.eqb_spec z' z); by subst.
  - intros p m1 Hp Hm1. unfold span in Hp.
    destruct (mark_used_step fa (upd_bd bd z p) z m1) as (m2 & E & Hm2); rewrite ?upd_bd_eq in *; try done; [lia| |].
    + intros z' Hz'. unfold upd_bd. destruct (Z.eqb_spec z' z); [subst; lia|by apply Hbd].
    + exists m2. split; [done|]. eapply marked_bd; [|exact Hm2]. intros z' _. apply upd_bd_twice.
  - exists m'. split; [done|]. by rewrite span_spec in H' by lia.
Qed.

Lemma mark_all_used fa m s :
  zones s = zone_init_zones mp -> marked fa zs (fun _ _ _ => False) m ->
  exists m', for_up 3 ZONE_DMA (mark_used bm s) m = Ok m' /\ marked fa ze (fun _ _ _ => False) m'.
Proof.
  intros Hzn Hm.
  destruct (for_up_inv (fun z m' => marked fa (fun z' => if z' <? z then ze z' else zs z') (fun _ _ _ => False) m')
    3 ZONE_DMA (mark_used bm s) m) as (m' & E & H').
  - eapply marked_bd; [|exact Hm]. intros z Hz. by replace (z <? ZONE_DMA) with false by (unfold ZONE_DMA; lia).
  - intros z m1 Hz Hm1. unfold ZONE_DMA in Hz.
    destruct (mark_used_spec fa _ z m1 s Hzn Hm1) as (m2 & E & Hm2); [unfold ZONE_NORMAL; lia| | |].
    + cbn beta. by rewrite Z.ltb_irrefl.
    + intros z' Hz'. cbn beta. destruct (z' <? z); [lia|]. destruct (zone_range z' Hz'). lia.
    + exists m2. split; [done|]. eapply marked_bd; [|exact Hm2]. intros z' _. unfold upd_bd. cbn beta.
      destruct (Z.eqb_spec z' z) as [->|]; [by replace (z <? z + 1) with true by lia|].
      destruct (Z.ltb_spec z' z), (Z.ltb_spec z' (z + 1)); (done || lia).
  - exists m'. split; [done|]. eapply marked_bd; [|exact H']. intros z Hz. change (ZONE_DMA + Z.of_nat 3) with 3. unfold ZONE_NORMAL in *.
    by replace (z <? 3) with true by lia.
Qed.

(** Entries of different zones do not overlap either. *)
Lemma entries_disjoint fa z o p z' o' p' q :
  lists_upto ze fa -> entry fa z o p -> entry fa z' o' p' ->
  p <= q < p + 2 ^ o -> p' <= q < p' + 2 ^ o' -> z = z' /\ o = o' /\ p = p'.
Proof.
  intros [_ _ Hb Hd _] He He' Hq Hq'.
  destruct (Hb _ _ _ He) as (Hz & _ & _ & ? & ? & _). destruct (Hb _ _ _ He') as (Hz' & _ & _ & ? & ? & _).
  assert (z = z') as -> by (apply (zone_disjoint z z' q); (done || lia)).
  split; [done|]. by eapply (Hd z').
Qed.

Lemma mark_entry_free fa D z o p m :
  lists_upto ze fa -> marked fa ze D m -> entry fa z o p ->
  exists m', upd_pages m p (Z.shiftl 1 o) (free_desc o z) = Ok m' /\
    marked fa ze (fun z' o' p' => D z' o' p' \/ (z' = z /\ o' = o /\ p' = p)) m'.
Proof.
  intros Hl [Hd Hr Hu Hf] He. destruct (lu_block _ _ Hl z o p He) as (Hz & Ho & Ha & Hs & Hle & Hclear).
  destruct (zone_range z Hz) as [? ?]. pose proof (pow2_pos o). rewrite shiftl_1 by lia.
  destruct (upd_pages_spec m p (2 ^ o) (free_desc o z)) as (m' & E & Hm'); [lia| |].
  { intros q Hq. apply Hd. lia. }
  assert (Hout : same_outside m m' p (2 ^ o)).
  { intros q Hq. rewrite Hm'. replace (_ && _) with false; [done|].
    destruct (Z.leb_spec p q), (Z.ltb_spec q (p + 2 ^ o)); (done || lia). }
  exists m'. split; [done|]. constructor.
  - intros q. rewrite Hm', <- Hd. destruct (_ && _); [|done]. by rewrite fmap_is_Some.
  - intros q b Eq. rewrite Hm' in Eq. destruct (_ && _); [|by apply (Hr q)].
    destruct (m !! q) as [b0|] eqn:E0; [|done]. simplify_eq/=. by apply (Hr q b0).
  - intros z' q Hz' Hq Hbq. apply (is_block_frame m m' p (2 ^ o)); [done| |by apply Hu].
    change (2 ^ 0) with 1. destruct (decide (p <= q < p + 2 ^ o)) as [Hin|]; [|lia].
    rewrite Hclear in Hbq; done.
  - intros z' o' p' He' HD. destruct (decide (z' = z /\ o' = o /\ p' = p)) as [(-> & -> & ->)|Hne].
    + split_and!; try done; try lia. intros i Hi. destruct (proj2 (Hd (p + i)) ltac:(lia)) as [b Eb].
      exists (free_desc o z i b). rewrite Hm', Eb. replace (_ && _) with true by lia.
      replace (p + i - p) with i by lia. unfold ZONE_NORMAL, MAX_ORDER in *. cbn. split_and!; try done.
      * apply wrap_small. unfold fits. lia.
      * apply wrap_small. unfold fits. lia.
    + apply (is_block_frame m m' p (2 ^ o)); [done| |apply Hf; [done|]; tauto].
      destruct (lu_block _ _ Hl z' o' p' He') as (_ & ? & _). pose proof (pow2_pos o').
      destruct (decide (p' + 2 ^ o' <= p \/ p + 2 ^ o <= p')) as [|Hov]; [done|].
      destruct (entries_disjoint fa z o p z' o' p' (Z.max p p') Hl He He') as (? & ? & ?); (lia || naive_solver).
Qed.

(** The entries the three nested loops have visited. *)
Definition visited (k ko : Z) (nodes : list Z) (z o p : Z) : Prop :=
  z < k \/ (z = k /\ (o < ko \/ (o = ko /\ p ∈ nodes))).

Lemma mark_nodes fa k ko l m :
  lists_upto ze fa -> fa !! (k, ko) = Some l -> marked fa ze (visited k ko []) m ->
  exists m', for_each l (fun pfn m => upd_pages m pfn (Z.shiftl 1 ko) (free_desc ko k)) m = Ok m' /\
    marked fa ze (visited k (ko + 1) []) m'.
Proof.
  intros Hl E Hm.
  destruct (for_each_inv (fun dn m' => marked fa ze (visited k ko dn) m')
    (fun pfn m => upd_pages m pfn (Z.shiftl 1 ko) (free_desc ko k)) l m) as (m' & Ef & Hm').
  - done.
  - intros dn p m1 Hm1 Hp. destruct (mark_entry_free fa _ k ko p m1 Hl Hm1) as (m2 & E2 & Hm2); [by exists l|].
    exists m2. split; [done|]. eapply marked_ext; [done| |exact Hm2]. intros z o q _.
    unfold visited. rewrite elem_of_app, list_elem_of_singleton. naive_solver.
  - exists m'. split; [done|]. eapply marked_ext; [done| |exact Hm']. intros z o p (l' & El & Hp).
    unfold visited. intros [?|[-> [?|[_ ?%not_elem_of_nil]]]]; [by left| |done]. right. split; [done|].
    destruct (decide (o = ko)) as [->|]; [right|left; lia]. by simplify_eq.
Qed.

Lemma mark_all_free fa m s :
  free_areas s = fa -> lists_upto ze fa -> marked fa ze (fun _ _ _ => False) m ->
  exists m', for_up 3 ZONE_DMA
    (fun zone_id m => for_up (Z.to_nat MAX_ORDER) 0
       (fun order_id m =>
          nodes ← deref (free_areas s !! (zone_id, order_id));
          for_each nodes
            (fun pfn m => upd_pages m pfn (Z.shiftl 1 order_id) (free_desc order_id zone_id)) m) m) m = Ok m' /\
    marked fa ze (fun _ _ _ => True) m'.
Proof.
  intros Es Hl Hm.
  match goal with |- context [for_up 3 ?i ?b ?s0] =>
    destruct (for_up_inv (fun k m' => marked fa ze (visited k 0 []) m') 3 i b s0) as (m' & E & Hm') end.
  - eapply marked_ext; [done| |exact Hm]. intros z o p He. destruct (lu_block _ _ Hl _ _ _ He) as (? & ? & _).
    unfold visited, ZONE_DMA. intros [?|[_ [?|[_ ?%not_elem_of_nil]]]]; (done || lia).
  - intros k m1 Hk Hm1. unfold ZONE_DMA in Hk.
    match goal with |- context [for_up ?c ?i ?b ?s0] =>
      destruct (for_up_inv (fun ko m' => marked fa ze (visited k ko []) m') c i b s0) as (m2 & E2 & Hm2) end.
    + done.
    + intros ko m2 Hko Hm2. rewrite Z2Nat.id in Hko by done.
      destruct (lu_heads _ _ Hl k ko) as [l El]; [unfold ZONE_NORMAL; lia|lia|].
      rewrite Es, El. cbn [deref mbind outcome_bind]. by apply mark_nodes.
    + exists m2. split; [done|]. eapply marked_ext; [done| |exact Hm2]. intros z o p He.
      destruct (lu_block _ _ Hl _ _ _ He) as (? & Ho & _). change (0 + Z.of_nat (Z.to_nat MAX_ORDER)) with MAX_ORDER.
      unfold visited. intros [?|[_ [?|[_ ?%not_elem_of_nil]]]]; [|lia|done].
      destruct (decide (z = k)) as [->|]; [right; split; [done|left; lia]|left; lia].
  - exists m'. split; [done|]. eapply marked_ext; [done| |exact Hm']. intros z o p He _.
    destruct (lu_block _ _ Hl _ _ _ He) as (Hz & _). change (ZONE_DMA + Z.of_nat 3) with 3.
    unfold ZONE_NORMAL in Hz. left. lia.
Qed.

(** The descriptors and lists together satisfy the allocator invariant. *)
Lemma marked_inv fa m w :
  lists_upto ze fa -> marked fa ze (fun _ _ _ => True) m ->
  pmm_inv (Pmm mp (zone_init_zones mp) fa m w).
Proof.
  intros Hl [Hd Hr Hu Hf]. constructor; cbn [max_pfn zones free_areas blocks].
  - lia.
  - done.
  - intros q Hq. destruct (zone_cover q Hq) as (z & Hz & Hin). destruct (bit_at bm q) eqn:E.
    + exists q, 0, z, false. split; [by apply Hu|]. change (2 ^ 0) with 1. lia.
    + destruct (lu_cover _ _ Hl z q Hz Hin E) as (o & p & He & ?). exists p, o, z, true. split; [by apply Hf|done].
  - intros z Hz. rewrite zone_lookup by done. eauto.
  - apply Hl.
  - intros z o l E. split; [by eapply (lu_nodup _ _ Hl)|]. intros p. split.
    + intros Hp. apply Hf; [by exists l|done].
    + intros B. pose proof B as (Ho & _ & Hp0 & _). pose proof (pow2_pos o).
      assert (Hp : 0 <= p <= mp) by (destruct (is_block_self _ _ _ _ _ B) as (b & Eb & _); apply Hd; eauto).
      destruct (zone_cover p Hp) as (z' & Hz' & Hin). destruct (bit_at bm p) eqn:Eb.
      * destruct (is_block_unique _ _ _ _ _ _ _ _ _ p B (Hu z' p Hz' Hin Eb)) as (_ & _ & _ & ?);
          (done || (change (2 ^ 0) with 1; lia) || lia).
      * destruct (lu_cover _ _ Hl z' p Hz' Hin Eb) as (o' & p' & He & Hq).
        destruct (is_block_unique _ _ _ _ _ _ _ _ _ p B (Hf z' o' p' He I)) as (-> & -> & -> & _); [lia|lia|].
        destruct He as (l' & El & ?). by simplify_eq.
Qed.

Lemma build_spec m w :
  (forall q, is_Some (m !! q) <-> 0 <= q <= mp) -> refs_ok m ->
  exists s, build mp bm m w = Ok s /\ pmm_inv s /\ refs_ok (blocks s) /\ max_pfn s = mp /\
    forall q, 0 <= q <= mp -> page_free (blocks s) q = negb (bit_at bm q).
Proof.
  intros Hd Hr. unfold build. destruct (free_lists_init_spec m w) as (fa & -> & Hl). rewrite Ok_bind.
  unfold mem_block_init. cbn [blocks].
  destruct (mark_all_used fa m (Pmm mp (zone_init_zones mp) fa m w)) as (m1 & -> & Hm1); [done| |].
  { constructor; try done. lia. }
  rewrite Ok_bind.
  destruct (mark_all_free fa m1 (Pmm mp (zone_init_zones mp) fa m w)) as (m2 & -> & Hm2); [done|done|done|].
  rewrite Ok_bind. eexists. split; [done|]. unfold set_blocks. cbn [max_pfn zones free_areas words blocks].
  split; [by apply marked_inv|]. destruct Hm2 as [Hd2 Hr2 Hu2 Hf2]. split_and!; try done.
  intros q Hq. unfold page_free. destruct (zone_cover q Hq) as (z & Hz & Hin). destruct (bit_at bm q) eqn:E.
  - destruct (is_block_self _ _ _ _ _ (Hu2 z q Hz Hin E)) as (b & -> & ? & _). done.
  - destruct (lu_cover _ _ Hl z q Hz Hin E) as (o & p & He & Hq').
    destruct (is_block_lookup _ _ _ _ _ q (Hf2 z o p He I) Hq') as (b & -> & ? & _). done.
Qed.
End build.

(** ** The bitmap and the array *)

Lemma cleared_blocks_lookup mp garbage q : -1 <= mp ->
  cleared_blocks mp garbage !! q = if (0 <=? q) && (q <=? mp) then Some (cleared_desc (garbage q)) else None.
Proof.
  intros Hmp. unfold cleared_blocks.
  pose proof (for_pure_inv (fun k (m : blocks_t) => m !! q =
    if (0 <=? q) && (q <? k) then Some (cleared_desc (garbage q)) else None)
    (Z.to_nat (mp + 1)) 0 (fun i m => <[i := cleared_desc (garbage i)]> m) ∅) as H.
  cbn beta in H. replace (0 + Z.of_nat (Z.to_nat (mp + 1))) with (mp + 1) in H by lia.
  rewrite H; clear H.
  - by replace (q <? mp + 1) with (q <=? mp) by lia.
  - rewrite lookup_empty. by replace (_ && _) with false by lia.
  - intros k m Hk E. rewrite lookup_insert. case_decide; subst.
    + by replace (_ && _) with true by lia.
    + rewrite E. destruct (Z.leb_spec 0 q), (Z.ltb_spec q k), (Z.ltb_spec q (k + 1)); (done || lia).
Qed.

Lemma cleared_blocks_dom mp garbage : -1 <= mp ->
  forall q, is_Some (cleared_blocks mp garbage !! q) <-> 0 <= q <= mp.
Proof.
  intros Hmp q. rewrite cleared_blocks_lookup by done. destruct (_ && _) eqn:E; zbool.
  - split; [lia|eauto].
  - split; [by intros []|lia].
Qed.

Lemma cleared_blocks_refs mp garbage : -1 <= mp -> refs_ok (cleared_blocks mp garbage).
Proof.
  intros Hmp q b. rewrite cleared_blocks_lookup by done. destruct (_ && _); intros [= <-]. by vm_compute.
Qed.

(** The frames whose bits an entry of the memory map clears. *)
Definition cleared_by (e : MMapEnt) (j : Z) : bool :=
  (MMapEnt_Type e =? MMAP_FREE) && ((ptr e / PAGE_SIZE <=? j) &&
    (j <? u64 (u64 (ptr e + MMapEnt_Size e) + PAGE_SIZE - 1) / PAGE_SIZE)).

Section bitmap_setup.
Context (n : Z).
Hypothesis Hn : n < 2 ^ 29.

(** A counted loop of bit operations over [lo, hi). *)
Lemma clear_loop_spec bm lo hi : bitmap_wf bm n -> 0 <= lo -> hi <= 8 * n ->
  exists bm', for_up (span lo hi) lo (fun pfn bm => bitmap_clear bm pfn) bm = Ok bm' /\ bitmap_wf bm' n /\
    forall j, bit_at bm' j = negb ((lo <=? j) && (j <? hi)) && bit_at bm j.
Proof.
  intros Hw Hlo Hhi. destruct (Z.le_gt_cases lo hi).
  2:{ rewrite span_empty by lia. exists bm. split_and!; try done. intros j.
      by replace ((lo <=? j) && (j <? hi)) with false by lia. }
  destruct (for_up_inv (fun k bm' => bitmap_wf bm' n /\ forall j,
      bit_at bm' j = negb ((lo <=? j) && (j <? k)) && bit_at bm j)
    (span lo hi) lo (fun pfn bm => bitmap_clear bm pfn) bm) as (bm' & E & Hw' & Hb').
  - split; [done|]. intros j. by replace ((lo <=? j) && (j <? lo)) with false by lia.
  - intros k b1 Hk [Hw1 Hb1]. unfold span in Hk.
    destruct (bitmap_clear_spec n Hn b1 k) as (b2 & E2 & Hw2 & Hb2); [done|lia|].
    exists b2. split_and!; try done. intros j. rewrite Hb2, Hb1.
    destruct (Z.eqb_spec k j), (Z.leb_spec lo j), (Z.ltb_spec j k), (Z.ltb_spec j (k + 1)); (done || lia).
  - exists bm'. rewrite span_spec in Hb' by lia. done.
Qed.

Lemma set_loop_spec bm lo cnt : bitmap_wf bm n -> 0 <= lo -> 0 <= cnt -> lo + cnt <= 8 * n ->
  exists bm', for_up (Z.to_nat cnt) lo (fun pfn bm => bitmap_set bm pfn) bm = Ok bm' /\ bitmap_wf bm' n /\
    forall j, bit_at bm' j = ((lo <=? j) && (j <? lo + cnt)) || bit_at bm j.
Proof.
  intros Hw Hlo Hc Hhi.
  destruct (for_up_inv (fun k bm' => bitmap_wf bm' n /\ forall j,
      bit_at bm' j = ((lo <=? j) && (j <? k)) || bit_at bm j)
    (Z.to_nat cnt) lo (fun pfn bm => bitmap_set bm pfn) bm) as (bm' & E & Hw' & Hb').
  - split; [done|]. intros j. by replace ((lo <=? j) && (j <? lo)) with false by lia.
  - intros k b1 Hk [Hw1 Hb1].
    destruct (bitmap_set_spec n Hn b1 k) as (b2 & E2 & Hw2 & Hb2); [done|lia|].
    exists b2. split_and!; try done. intros j. rewrite Hb2, Hb1.
    destruct (Z.eqb_spec k j), (Z.leb_spec lo j), (Z.ltb_spec j k), (Z.ltb_spec j (k + 1)); (done || lia).
  - exists bm'. replace (lo + Z.of_nat (Z.to_nat cnt)) with (lo + cnt) in Hb' by lia. done.
Qed.

Lemma clear_entry_spec mp e bm : bitmap_wf bm n -> mp + 1 <= 8 * n -> 0 <= ptr e ->
  exists bm', clear_entry mp e bm = Ok bm' /\ bitmap_wf bm' n /\
    forall j, j <= mp -> bit_at bm' j = negb (cleared_by e j) && bit_at bm j.
Proof.
  intros Hw Hmp Hp. unfold clear_entry, cleared_by, MMapEnt_Ptr.
  destruct (_ =? _); [|exists bm; by split_and!]. cbn [andb].
  destruct (Z.ltb_spec mp (ptr e / PAGE_SIZE)).
  { exists bm. split_and!; try done. intros j Hj. by replace (ptr e / PAGE_SIZE <=? j) with false by lia. }
  edestruct (clear_loop_spec bm) as (bm' & E & Hw' & Hb'); [done| | |exists bm'; split; [exact E|split; [done|]]].
  - unfold PAGE_SIZE. dlia.
  - lia.
  - intros j Hj. rewrite Hb'. do 3 f_equal. lia.
Qed.

Lemma clear_entries_spec mp mmap bm : bitmap_wf bm n -> mp + 1 <= 8 * n -> Forall (fun e => 0 <= ptr e) mmap ->
  exists bm', for_each mmap (clear_entry mp) bm = Ok bm' /\ bitmap_wf bm' n /\
    forall j, j <= mp -> bit_at bm' j = negb (existsb (fun e => cleared_by e j) mmap) && bit_at bm j.
Proof.
  intros Hw Hmp He. apply (for_each_inv (fun l b => bitmap_wf b n /\
    forall j, j <= mp -> bit_at b j = negb (existsb (fun e => cleared_by e j) l) && bit_at bm j)); [done|].
  intros l e b [Hb Hbits] Hin. rewrite Forall_forall in He.
  destruct (clear_entry_spec mp e b) as (b' & E & Hw' & Hb'); [done|done|by apply He|].
  exists b'. split; [done|]. split; [done|]. intros j Hj. rewrite Hb', Hbits by done.
  rewrite existsb_app. cbn [existsb]. by destruct (cleared_by e j), (existsb _ l).
Qed.

Lemma copy_bit_spec boot bm pfn : boot_wf boot -> bitmap_wf bm n -> 0 <= pfn < BOOT_ALLOC_MAX_PAGES -> pfn < 8 * n ->
  exists bm', copy_bit boot pfn bm = Ok bm' /\ bitmap_wf bm' n /\
    forall j, bit_at bm' j = if pfn =? j then bit_at boot j else bit_at bm j.
Proof.
  intros Hb Hw Hp Hpn. unfold copy_bit. change BOOT_ALLOC_MAX_PAGES with 262144 in Hp.
  rewrite (bitmap_check_spec _ boot_size) by (done || (unfold BOOT_ALLOC_BITMAP_SIZE; lia)).
  cbn [mbind outcome_bind]. destruct (bit_at boot pfn) eqn:E.
  - destruct (bitmap_set_spec n Hn bm pfn) as (bm' & -> & Hw' & Hb'); [done|lia|].
    exists bm'. split_and!; try done. intros j. rewrite Hb'. by destruct (Z.eqb_spec pfn j) as [->|].
  - destruct (bitmap_clear_spec n Hn bm pfn) as (bm' & -> & Hw' & Hb'); [done|lia|].
    exists bm'. split_and!; try done. intros j. rewrite Hb'. by destruct (Z.eqb_spec pfn j) as [->|].
Qed.

(** Copying a bit past the end of the buffer is a wild write. *)
Lemma copy_bit_fault boot bm pfn : boot_wf boot -> bitmap_wf bm n -> 0 <= n -> pfn = 8 * n ->
  8 * n < BOOT_ALLOC_MAX_PAGES -> copy_bit boot pfn bm = Fault.
Proof.
  intros Hb Hw H0 -> Hp. unfold copy_bit. change BOOT_ALLOC_MAX_PAGES with 262144 in Hp.
  rewrite (bitmap_check_spec _ boot_size) by (done || (unfold BOOT_ALLOC_BITMAP_SIZE; lia)).
  cbn [mbind outcome_bind].
  assert (E : bm !! (8 * n / 8) = None).
  { replace (8 * n / 8) with n by dlia. destruct (bm !! n) eqn:F; [|done].
    destruct (proj1 (proj1 Hw n)); [by rewrite F|lia]. }
  unfold bitmap_set, bitmap_clear, load8, BITS_PER_UNIT. rewrite wrap_small by (unfold fits; lia).
  rewrite E. by destruct (bit_at boot (8 * n)).
Qed.

End bitmap_setup.

(** A loop whose body faults at one index, having kept [P] until then. *)
Lemma for_up_fault {S} (P : S -> Prop) k i j body (s : S) :
  i <= j < i + Z.of_nat k -> P s ->
  (forall x s, i <= x < j -> P s -> exists s', body x s = Ok s' /\ P s') ->
  (forall s, P s -> body j s = Fault) -> for_up k i body s = Fault.
Proof.
  revert i s. induction k as [|k IH]; intros i s Hj HP Hs Hf; [lia|]. cbn [for_up].
  destruct (Z.eq_dec i j) as [->|]; [by rewrite Hf|].
  destruct (Hs i s) as (s' & -> & HP'); [lia|done|]. cbn [mbind outcome_bind].
  apply IH; [lia|done| |done]. intros x s1 Hx. apply Hs. lia.
Qed.

(** The scan of [bitmap_alloc] finds the lowest free run, or panics. *)
Lemma bitmap_alloc_spec n mp pages bm :
  n < 2 ^ 29 -> bitmap_wf bm n -> -1 <= mp -> mp + 1 <= 8 * n -> 0 < pages ->
  (bitmap_alloc mp pages bm = Panic /\
     forall p, 0 <= p -> p + pages <= mp + 1 -> ~ free_pages_at bm p pages) \/
  (exists p bm', bitmap_alloc mp pages bm = Ok (PHYS_TO_LINEAR (p * PAGE_SIZE), bm') /\ bitmap_wf bm' n /\
     0 <= p /\ p + pages <= mp + 1 /\ free_pages_at bm p pages /\
     forall j, bit_at bm' j = ((p <=? j) && (j <? p + pages)) || bit_at bm j).
Proof.
  intros Hn Hw Hm1 Hmp Hp. unfold bitmap_alloc.
  match goal with |- context [for_ret ?cnt ?i ?b ?s0] =>
    destruct (for_ret_inv
      (fun k x => 0 <= x.1 < pages /\ x.1 <= k /\ free_pages_at bm (k - x.1) x.1 /\
         (0 < x.1 -> x.2 = k - x.1) /\ (k - x.1 = 0 \/ bit_at bm (k - x.1 - 1) = true) /\
         forall p, 0 <= p -> p + pages <= k -> ~ free_pages_at bm p pages)
      (fun r => exists p bm', r = (PHYS_TO_LINEAR (p * PAGE_SIZE), bm') /\ bitmap_wf bm' n /\
         0 <= p /\ p + pages <= mp + 1 /\ free_pages_at bm p pages /\
         forall j, bit_at bm' j = ((p <=? j) && (j <? p + pages)) || bit_at bm j) cnt i b s0)
      as [([c st] & -> & _ & _ & _ & _ & _ & Hno)|(r & -> & p & bm' & -> & H)] end.
  - cbn. split_and!; try lia; try (by left). intros i Hi. lia.
  - intros k [c st] Hk (Hc & Hck & Hrun & Hst & Hedge & Hno). cbn in Hc, Hck, Hrun, Hst, Hedge.
    rewrite Z2Nat.id in Hk by lia. rewrite (bitmap_check_spec n Hn) by (done || lia). cbn [mbind outcome_bind].
    destruct (bit_at bm k) eqn:Ek.
    { left. exists (0, st). split; [done|]. cbn. split_and!; try lia; [intros i Hi; lia| |].
      - right. by replace (k + 1 - 0 - 1) with k by lia.
      - intros p Hp0 Hpk Hr. destruct (Z.le_gt_cases (p + pages) k); [by eapply Hno|].
        rewrite Hr in Ek; (done || lia). }
    assert (Hs : (if c =? 0 then k else st) = k - c) by (destruct (Z.eqb_spec c 0); lia). rewrite Hs.
    assert (Hrun' : free_pages_at bm (k - c) (c + 1)).
    { intros i Hi. destruct (Z.eq_dec i k) as [->|]; [done|]. apply Hrun. lia. }
    destruct (Z.eqb_spec (c + 1) pages) as [Ec|].
    + right. destruct (set_loop_spec n Hn bm (k - c) pages) as (bm' & -> & Hw' & Hb'); [done|lia|lia|lia|].
      cbn [mbind outcome_bind]. eexists. split; [done|]. exists (k - c), bm'. rewrite Ec in Hrun'.
      split_and!; (done || lia).
    + left. exists (c + 1, k - c). split; [done|]. cbn. replace (k + 1 - (c + 1)) with (k - c) by lia.
      split_and!; try lia; [done|done|].
      intros p Hp0 Hpk Hr. destruct (Z.le_gt_cases (p + pages) k); [by eapply Hno|].
      destruct Hedge as [|He]; [lia|]. rewrite Hr in He; (done || lia).
  - left. cbn. split; [done|]. intros p Hp0 Hpm. apply Hno; lia.
  - right. cbn. exists p, bm'. done.
Qed.

(** ** Setting up the bitmap *)

(** The boot allocator as [boot_alloc_init] leaves it: its bitmap is in frame
    [f] and the seven after it. *)
Definition boot_ready (b : boot_t) (m : bytes) (f : Z) : Prop :=
  bitmap b = Some m /\ boot_wf m /\ bitmap_phys b = 4096 * f /\ 0 < f /\ f + 8 <= BOOT_ALLOC_MAX_PAGES.

Lemma boot_bitmap_addr b m f : boot_ready b m f ->
  (boot_alloc_get_bitmap b =? 0) = false /\ LINEAR_TO_PHYS (boot_alloc_get_bitmap b) = 4096 * f.
Proof.
  intros (_ & _ & Hp & Hf & Hle). change BOOT_ALLOC_MAX_PAGES with 262144 in Hle.
  unfold boot_alloc_get_bitmap. rewrite Hp. replace (4096 * f =? 0) with false by lia.
  unfold LINEAR_TO_PHYS, LINEAR_MAP_START. rewrite (wrap_small 64 (_ + 4096 * f)) by (unfold fits; lia).
  split; [lia|]. rewrite wrap_small by (unfold fits; lia). lia.
Qed.

Lemma boot_alloc_ready b m f pages a b' : boot_ready b m f -> 0 < pages -> a <> 0 ->
  boot_alloc pages b = Ok (a, b') -> exists m', boot_ready b' m' f.
Proof.
  intros (Eb & Hw & Hp & Hf & Hle) Hpg Ha E.
  destruct (boot_alloc_spec b m pages Eb Hw Hpg) as [[E' _]|(p & m' & E' & Hw' & _)]; rewrite E in E'; simplify_eq.
  exists m'. done.
Qed.

Lemma alloc_bitmap_pages_bounds mp : 0 <= mp < 2 ^ 31 ->
  0 < alloc_bitmap_pages mp <= 65536 /\ mp + 1 <= 8 * (alloc_bitmap_pages mp * 4096) /\
  (229376 <= mp -> 8 <= alloc_bitmap_pages mp) /\ (mp < 229376 -> alloc_bitmap_pages mp <= 7).
Proof. intros. unfold alloc_bitmap_pages, BITMAP_BYTES, PAGE_SIZE. dlia. Qed.

(** Everything before the copy of the boot bitmap. *)
Lemma alloc_bitmap_prefix mmap mp mem b m f a b1 :
  0 <= mp < 2 ^ 31 -> boot_ready b m f -> Forall (fun e => 0 <= ptr e) mmap ->
  bitmap_wf mem (alloc_bitmap_pages mp * 4096) ->
  boot_alloc (alloc_bitmap_pages mp) b = Ok (a, b1) -> a <> 0 ->
  exists bm m1, bitmap_wf bm (alloc_bitmap_pages mp * 4096) /\ boot_ready b1 m1 f /\
    (forall j, 0 <= j <= mp -> bit_at bm j = negb (existsb (fun e => cleared_by e j) mmap)) /\
    alloc_bitmap_init mmap mp mem b =
    (bm ← for_up (Z.to_nat BOOT_ALLOC_MAX_PAGES) 0 (copy_bit m1) bm;
     bm ← for_up (span f (f + 8)) f (fun pfn bm => bitmap_clear bm pfn) bm; Ok (bm, b1)).
Proof.
  intros Hmp Hb He Hmem E Ha. destruct (alloc_bitmap_pages_bounds mp Hmp) as ([Hp0 Hp1] & Hbits & _).
  destruct (boot_alloc_ready b m f _ a b1 Hb Hp0 Ha E) as [m1 Hb1].
  unfold alloc_bitmap_init. rewrite E, Ok_bind. replace (a =? 0) with false by lia.
  cbn [negb assert_or_panic]. rewrite Ok_bind.
  destruct (bitmap_fill_spec (alloc_bitmap_pages mp * 4096) ltac:(lia) mem (mp + 1)) as (bm0 & -> & Hw0 & Hb0);
    [done|lia|]. rewrite Ok_bind.
  destruct (clear_entries_spec (alloc_bitmap_pages mp * 4096) ltac:(lia) mp mmap bm0) as (bm1 & -> & Hw1 & Hbm1);
    [done|lia|done|]. rewrite Ok_bind.
  destruct (boot_bitmap_addr b1 m1 f Hb1) as [-> ->]. pose proof Hb1 as (-> & _ & _ & Hf & Hle).
  change BOOT_ALLOC_MAX_PAGES with 262144 in Hle. cbn [deref]. rewrite Ok_bind.
  exists bm1, m1. split; [done|]. split; [done|]. split.
  { intros j Hj. rewrite Hbm1 by lia. rewrite Hb0; [|unfold BITMAP_BYTES; dlia].
    replace (j <? mp + 1) with true by lia. apply andb_true_r. }
  replace (4096 * f / PAGE_SIZE) with f by (unfold PAGE_SIZE; dlia).
  replace (u64 (4096 * f + BOOT_ALLOC_BITMAP_SIZE + PAGE_SIZE - 1) / PAGE_SIZE) with (f + 8); [done|].
  unfold BOOT_ALLOC_BITMAP_SIZE, PAGE_SIZE. rewrite wrap_small by (unfold fits; lia). dlia.
Qed.

Lemma alloc_bitmap_init_spec mmap mp mem b m f a b1 :
  229376 <= mp < 2 ^ 31 -> boot_ready b m f -> Forall (fun e => 0 <= ptr e) mmap ->
  bitmap_wf mem (alloc_bitmap_pages mp * 4096) ->
  boot_alloc (alloc_bitmap_pages mp) b = Ok (a, b1) -> a <> 0 ->
  exists bm m1, alloc_bitmap_init mmap mp mem b = Ok (bm, b1) /\ bitmap b1 = Some m1 /\
    bitmap_wf bm (alloc_bitmap_pages mp * 4096) /\
    (forall j, 0 <= j < BOOT_ALLOC_MAX_PAGES ->
      bit_at bm j = negb ((f <=? j) && (j <? f + 8)) && bit_at m1 j) /\
    forall j, BOOT_ALLOC_MAX_PAGES <= j <= mp -> bit_at bm j = negb (existsb (fun e => cleared_by e j) mmap).
Proof.
  intros Hmp Hb He Hmem E Ha. destruct (alloc_bitmap_pages_bounds mp ltac:(lia)) as (? & ? & Hp & _).
  destruct (alloc_bitmap_prefix mmap mp mem b m f a b1) as (bm0 & m1 & Hw0 & Hb1 & Hfree & ->); try done; [lia|].
  specialize (Hp ltac:(lia)). pose proof Hb1 as (Eb1 & Hwm & _ & Hf & Hle).
  set (n := alloc_bitmap_pages mp * 4096) in *. assert (Hn : n < 2 ^ 29) by lia.
  destruct (for_up_inv (fun k bm' => bitmap_wf bm' n /\ forall j, 0 <= j ->
      bit_at bm' j = if j <? k then bit_at m1 j else bit_at bm0 j)
    (Z.to_nat BOOT_ALLOC_MAX_PAGES) 0 (copy_bit m1) bm0) as (bm2 & E2 & Hw2 & Hb2).
  - split; [done|]. intros j Hj. by replace (j <? 0) with false by lia.
  - intros k bm1 Hk [Hw1 Hbk]. rewrite Z2Nat.id in Hk by done.
    destruct (copy_bit_spec n Hn m1 bm1 k) as (bm' & E' & Hw' & Hb'); [done|done|lia| |].
    { change BOOT_ALLOC_MAX_PAGES with 262144 in *. lia. }
    exists bm'. split_and!; try done. intros j Hj. rewrite Hb', Hbk by done.
    destruct (Z.eqb_spec k j), (Z.ltb_spec j k), (Z.ltb_spec j (k + 1)); (done || lia).
  - rewrite E2, Ok_bind. rewrite Z.add_0_l, Z2Nat.id in Hb2 by done.
    destruct (clear_loop_spec n Hn bm2 f (f + 8)) as (bm3 & -> & Hw3 & Hb3); [done|lia| |].
    { change BOOT_ALLOC_MAX_PAGES with 262144 in *. lia. }
    rewrite Ok_bind. exists bm3, m1. split_and!; try done; intros j Hj; rewrite Hb3, Hb2 by (change BOOT_ALLOC_MAX_PAGES with 262144 in *; lia).
    + by replace (j <? BOOT_ALLOC_MAX_PAGES) with true by lia.
    + replace (j <? BOOT_ALLOC_MAX_PAGES) with false by lia. change BOOT_ALLOC_MAX_PAGES with 262144 in *.
      replace ((f <=? j) && (j <? f + 8)) with false by lia. rewrite andb_true_l. apply Hfree. lia.
Qed.

(** ** What the memory map says *)

(** An entry that ends at least a page below the top of the 64-bit space. *)
Definition ent_ok (e : MMapEnt) : Prop := 0 <= ptr e /\ ptr e + MMapEnt_Size e <= 2 ^ 64 - 4096.

(** The entry [e] is free memory that reaches into frame [j]; a frame that it
    covers only in part counts. *)
Definition reaches (e : MMapEnt) (j : Z) : Prop :=
  MMapEnt_Type e = MMAP_FREE /\ ptr e < (j + 1) * 4096 /\ j * 4096 < ptr e + MMapEnt_Size e.

(** [mp] is the last frame that ends inside free memory. *)
Definition last_frame (mmap : list MMapEnt) (mp : Z) : Prop :=
  (forall e, e ∈ mmap -> MMapEnt_Type e = MMAP_FREE -> ptr e + MMapEnt_Size e < (mp + 2) * 4096) /\
  exists e, e ∈ mmap /\ MMapEnt_Type e = MMAP_FREE /\
    (mp + 1) * 4096 <= ptr e + MMapEnt_Size e < (mp + 2) * 4096.

Lemma ent_size_nonneg e : 0 <= MMapEnt_Size e.
Proof. apply Z.land_nonneg. lia. Qed.

Lemma cleared_by_spec e j : ent_ok e -> cleared_by e j = true <-> reaches e j.
Proof.
  intros [Hp Hs]. pose proof (ent_size_nonneg e). unfold cleared_by, reaches, PAGE_SIZE.
  rewrite (wrap_small 64 (ptr e + _)) by (unfold fits; lia). rewrite wrap_small by (unfold fits; lia).
  rewrite !andb_true_iff, Z.eqb_eq, Z.leb_le, Z.ltb_lt. dlia.
Qed.

Lemma cleared_some mmap j : Forall ent_ok mmap ->
  negb (existsb (fun e => cleared_by e j) mmap) = false <-> exists e, e ∈ mmap /\ reaches e j.
Proof.
  intros He. rewrite Forall_forall in He. rewrite negb_false_iff, existsb_exists.
  setoid_rewrite <- list_elem_of_In.
  split; intros (e & Hin & Hr); exists e; (split; [done|]); by apply (cleared_by_spec e j (He e Hin)).
Qed.

Definition max_step (mx : Z) (e : MMapEnt) : Z :=
  if MMapEnt_Type e =? MMAP_FREE then
    let end_pfn := u64 (MMapEnt_Ptr e + MMapEnt_Size e) / PAGE_SIZE in
    if mx <? end_pfn then end_pfn else mx
  else mx.

Lemma max_step_spec mmap : Forall ent_ok mmap -> forall mx, 0 <= mx ->
  let r := fold_left max_step mmap mx in
  mx <= r /\
  (forall e, e ∈ mmap -> MMapEnt_Type e = MMAP_FREE -> (ptr e + MMapEnt_Size e) / 4096 <= r) /\
  (r = mx \/ exists e, e ∈ mmap /\ MMapEnt_Type e = MMAP_FREE /\ (ptr e + MMapEnt_Size e) / 4096 = r).
Proof.
  induction 1 as [|e l He Hl IH]; intros mx Hmx; cbn [fold_left].
  { split_and!; [lia| |by left]. by intros e ?%elem_of_nil. }
  assert (Hstep : mx <= max_step mx e /\
    (MMapEnt_Type e = MMAP_FREE -> (ptr e + MMapEnt_Size e) / 4096 <= max_step mx e) /\
    (max_step mx e = mx \/
     MMapEnt_Type e = MMAP_FREE /\ (ptr e + MMapEnt_Size e) / 4096 = max_step mx e)).
  { destruct He. pose proof (ent_size_nonneg e). unfold max_step, MMapEnt_Ptr, PAGE_SIZE.
    rewrite wrap_small by (unfold fits; lia).
    destruct (Z.eqb_spec (MMapEnt_Type e) MMAP_FREE), (Z.ltb_spec mx ((ptr e + MMapEnt_Size e) / 4096));
      (split_and!; [lia|(done || lia)|(by right) || (by left)]). }
  destruct Hstep as (H1 & H2 & H3). destruct (IH (max_step mx e)) as (I1 & I2 & I3); [lia|].
  split_and!; [lia| |].
  - intros x [->|Hx]%elem_of_cons Hf; [specialize (H2 Hf); lia|by apply I2].
  - destruct I3 as [->|(x & Hx & ?)].
    + destruct H3 as [->|[? <-]]; [by left|right; exists e]. split; [left|done].
    + right. exists x. split; [by right|done].
Qed.

Lemma calculate_max_pfn_last mmap : Forall ent_ok mmap -> 0 < calculate_max_pfn mmap ->
  last_frame mmap (calculate_max_pfn mmap).
Proof.
  intros He Hpos. destruct (max_step_spec mmap He 0) as (_ & Hall & Hex); [lia|].
  unfold calculate_max_pfn in *. fold max_step in *.
  set (r := fold_left max_step mmap 0) in *. cbv zeta in *.
  destruct (Z.ltb_spec 0 r); [|lia]. split.
  - intros e Hin Hf. specialize (Hall e Hin Hf). dlia.
  - destruct Hex as [?|(e & Hin & Hf & Hr)]; [lia|]. exists e. split_and!; [done|done|dlia|dlia].
Qed.

(** ** A concrete boot allocator: every page free, the bitmap in frame 256 *)

Definition demo_boot : boot_t :=
  Boot (Some (filled BOOT_ALLOC_BITMAP_SIZE 0)) (4096 * 256) BOOT_ALLOC_MAX_PAGES BOOT_ALLOC_MAX_PAGES 8.

Lemma demo_boot_wf : boot_wf (filled BOOT_ALLOC_BITMAP_SIZE 0).
Proof. apply filled_wf. unfold fits. lia. Qed.

Lemma demo_boot_ready : boot_ready demo_boot (filled BOOT_ALLOC_BITMAP_SIZE 0) 256.
Proof.
  split; [reflexivity|]. split; [apply demo_boot_wf|]. split; [reflexivity|]. split; [lia|].
  change BOOT_ALLOC_MAX_PAGES with 262144. lia.
Qed.

Lemma demo_boot_alloc pages : 0 < pages <= 100 ->
  exists a b1, boot_alloc pages demo_boot = Ok (a, b1) /\ a <> 0.
Proof.
  intros Hp. destruct (boot_alloc_spec demo_boot (filled BOOT_ALLOC_BITMAP_SIZE 0) pages)
    as [[_ Hno]|(p & m' & E & _ & ? & _)]; [reflexivity|apply demo_boot_wf|lia| |].
  - exfalso. apply (Hno 0); [lia|change BOOT_ALLOC_MAX_PAGES with 262144; lia|].
    intros i Hi. unfold bit_at. rewrite filled_lookup. destruct (_ && _); apply Z.testbit_0_l.
  - eexists _, _. split; [exact E|]. unfold LINEAR_MAP_START. lia.
Qed.

(** Two gigabytes of memory with 16 megabytes reserved in the middle, and 64
    megabytes. *)
Definition demo_mmap : list MMapEnt :=
  [mmap_ent 0 (0x40000000 + 1); mmap_ent 0x40000000 0x1000000; mmap_ent 0x41000000 (0x3f000000 + 1)].
Definition small_mmap : list MMapEnt := [mmap_ent 0 (0x4000000 + 1)].

(** ** Claims *)

(** Whatever pages the bitmap marks as used, on a machine of 16 MB to 8 TB
    the construction of zones, free lists and descriptors ends without a wild
    access in a state that satisfies the allocator invariant, in which a page
    is free exactly when its bit is clear. *)
Theorem pmm_build_correct n mp bm garbage w :
  n < 2 ^ 29 -> bitmap_wf bm n -> mp + 1 <= 8 * n -> 4095 <= mp < 2 ^ 31 ->
  exists s, build mp bm (cleared_blocks mp garbage) w = Ok s /\ pmm_inv s /\ refs_ok (blocks s) /\
    max_pfn s = mp /\ forall q, 0 <= q <= mp -> page_free (blocks s) q = negb (bit_at bm q).
Proof.
  intros Hn Hw Hb Hmp. apply (build_spec n); try done.
  - apply cleared_blocks_dom. lia.
  - apply cleared_blocks_refs. lia.
Qed.

Lemma pmm_build_correct_witness :
  exists s, build 4999 (filled 625 0x11) (cleared_blocks 4999 (fun _ => 7)) ∅ = Ok s /\ pmm_inv s /\
    refs_ok (blocks s) /\ max_pfn s = 4999 /\
    forall q, 0 <= q <= 4999 -> page_free (blocks s) q = negb (bit_at (filled 625 0x11) q).
Proof.
  apply (pmm_build_correct 625 4999 (filled 625 0x11) (fun _ => 7) ∅); [lia| |lia|lia].
  apply filled_wf. unfold fits. lia.
Defined.

(** C32: [pmm_init] on a machine of 896 MB to 8 TB, whose memory map has no
    entry that ends in the last page of the 64-bit space.  [max_pfn] is the
    last frame that ends inside free memory of the map.  When the boot
    allocator has the pages for the bitmap, the initialisation either panics
    because no run of free pages holds the descriptor array, or it ends in a
    state that satisfies the allocator invariant, with exactly the pages free
    whose bit in the final bitmap is clear.  Below 1 GB those are the pages
    the boot allocator had free plus the pages of its own bitmap; from 1 GB on
    they are the pages that a free entry of the map reaches into, even in
    part; in both cases less the descriptor array. *)
Theorem pmm_init_correct mmap mem garbage b m f a b1 w :
  let mp := calculate_max_pfn mmap in
  229376 <= mp < 2 ^ 31 -> boot_ready b m f -> Forall ent_ok mmap ->
  bitmap_wf mem (alloc_bitmap_pages mp * 4096) ->
  boot_alloc (alloc_bitmap_pages mp) b = Ok (a, b1) -> a <> 0 ->
  last_frame mmap mp /\
  exists bm m1, bitmap b1 = Some m1 /\
    (forall j, 0 <= j < BOOT_ALLOC_MAX_PAGES -> bit_at bm j = negb ((f <=? j) && (j <? f + 8)) && bit_at m1 j) /\
    (forall j, BOOT_ALLOC_MAX_PAGES <= j <= mp -> bit_at bm j = false <-> exists e, e ∈ mmap /\ reaches e j) /\
    ((pmm_init mmap mem garbage b w = Panic /\
        forall p, 0 <= p -> p + mem_block_pages mp <= mp + 1 -> ~ free_pages_at bm p (mem_block_pages mp)) \/
     (exists s bm' p, pmm_init mmap mem garbage b w = Ok (s, bm') /\ pmm_inv s /\ refs_ok (blocks s) /\
        max_pfn s = mp /\ free_pages_at bm p (mem_block_pages mp) /\
        (forall j, bit_at bm' j = ((p <=? j) && (j <? p + mem_block_pages mp)) || bit_at bm j) /\
        forall q, 0 <= q <= mp -> page_free (blocks s) q = negb (bit_at bm' q))).
Proof.
  intros mp Hmp Hb Hok Hmem E Ha. split; [apply calculate_max_pfn_last; [done|fold mp; lia]|].
  assert (He : Forall (fun e => 0 <= ptr e) mmap) by (eapply Forall_impl; [done|by intros ? []]).
  unfold pmm_init. fold mp.
  destruct (alloc_bitmap_init_spec mmap mp mem b m f a b1) as (bm & m1 & -> & Em & Hw & Hbits & Hhi); try done.
  exists bm, m1. split; [done|]. split; [done|]. split.
  { intros j Hj. rewrite Hhi by done. by apply cleared_some. }
  rewrite Ok_bind. unfold alloc_mem_block.
  destruct (alloc_bitmap_pages_bounds mp ltac:(lia)) as (? & ? & _).
  set (n := alloc_bitmap_pages mp * 4096) in *. assert (Hn : n < 2 ^ 29) by lia.
  destruct (bitmap_alloc_spec n mp (mem_block_pages mp) bm) as [[-> Hno]|(p & bm' & -> & Hw' & Hp & Hle & Hr & Hb')];
    [done|done|lia|lia|unfold mem_block_pages, PAGE_SIZE; dlia|by left|right].
  rewrite !Ok_bind. destruct (build_spec n mp bm' Hn Hw' ltac:(lia) ltac:(lia) (cleared_blocks mp garbage) w)
    as (s & -> & Hi & Hrf & Hm & Hpf); [apply cleared_blocks_dom; lia|apply cleared_blocks_refs; lia|].
  rewrite Ok_bind. exists s, bm', p. done.
Qed.

Lemma pmm_init_correct_witness :
  exists bm b1 m1, bitmap b1 = Some m1 /\
    bit_at bm 262144 = true /\ bit_at bm 300000 = false /\
    (forall j, 0 <= j < BOOT_ALLOC_MAX_PAGES -> bit_at bm j = negb ((256 <=? j) && (j <? 256 + 8)) && bit_at m1 j) /\
    ((pmm_init demo_mmap (filled 65536 0) (fun _ => 7) demo_boot ∅ = Panic /\
        forall p, 0 <= p -> p + 2049 <= 524288 -> ~ free_pages_at bm p 2049) \/
     (exists s bm' p, pmm_init demo_mmap (filled 65536 0) (fun _ => 7) demo_boot ∅ = Ok (s, bm') /\
        pmm_inv s /\ refs_ok (blocks s) /\
        max_pfn s = 524287 /\ free_pages_at bm p 2049 /\
        (forall j, bit_at bm' j = ((p <=? j) && (j <? p + 2049)) || bit_at bm j) /\
        forall q, 0 <= q <= 524287 -> page_free (blocks s) q = negb (bit_at bm' q))).
Proof.
  destruct (demo_boot_alloc 16) as (a & b1 & E & Ha); [lia|].
  destruct (pmm_init_correct demo_mmap (filled 65536 0) (fun _ => 7) demo_boot
    (filled BOOT_ALLOC_BITMAP_SIZE 0) 256 a b1 ∅) as (_ & bm & m1 & Em & Hlo & Hhi & H).
  - change (calculate_max_pfn demo_mmap) with 524287. lia.
  - exact demo_boot_ready.
  - repeat constructor; vm_compute; discriminate.
  - change (alloc_bitmap_pages (calculate_max_pfn demo_mmap) * 4096) with 65536.
    apply filled_wf. unfold fits. lia.
  - change (alloc_bitmap_pages (calculate_max_pfn demo_mmap)) with 16. exact E.
  - exact Ha.
  - change (calculate_max_pfn demo_mmap) with 524287 in *. change BOOT_ALLOC_MAX_PAGES with 262144 in *.
    change (mem_block_pages 524287) with 2049 in H. exists bm, b1, m1.
    split; [exact Em|]. split; [|split; [|split; [exact Hlo|exact H]]].
    + destruct (bit_at bm 262144) eqn:Eb; [reflexivity|]. exfalso.
      destruct (proj1 (Hhi 262144 ltac:(lia)) Eb) as (e & Hin & Hr).
      repeat (apply elem_of_cons in Hin as [->|Hin]); [..|by apply elem_of_nil in Hin];
        vm_compute in Hr; destruct Hr as (Hr1 & Hr2 & Hr3); discriminate.
    + apply (Hhi 300000 ltac:(lia)). exists (mmap_ent 0x41000000 (0x3f000000 + 1)).
      split; [right; right; left|vm_compute; auto].
Defined.

(** On a machine with at most 896 MB, [alloc_bitmap_init] writes past the
    bitmap it allocated: the copy of the boot bitmap always writes 262144
    bits, whatever the size of the buffer. *)
Theorem alloc_bitmap_init_overflow mmap mp mem b m f a b1 :
  0 <= mp < 229376 -> boot_ready b m f -> Forall (fun e => 0 <= ptr e) mmap ->
  bitmap_wf mem (alloc_bitmap_pages mp * 4096) ->
  boot_alloc (alloc_bitmap_pages mp) b = Ok (a, b1) -> a <> 0 ->
  alloc_bitmap_init mmap mp mem b = Fault.
Proof.
  intros Hmp Hb He Hmem E Ha. destruct (alloc_bitmap_pages_bounds mp ltac:(lia)) as (? & ? & _ & Hp).
  destruct (alloc_bitmap_prefix mmap mp mem b m f a b1) as (bm0 & m1 & Hw0 & Hb1 & Hfree & ->); try done; [lia|].
  specialize (Hp ltac:(lia)). pose proof Hb1 as (_ & Hwm & _).
  set (n := alloc_bitmap_pages mp * 4096) in *. assert (Hn : n < 2 ^ 29) by lia.
  assert (H8 : 0 <= 8 * n < BOOT_ALLOC_MAX_PAGES) by (change BOOT_ALLOC_MAX_PAGES with 262144; lia).
  rewrite (for_up_fault (fun bm => bitmap_wf bm n) _ _ (8 * n)); [done| |done| |].
  - rewrite Z2Nat.id by done. lia.
  - intros k bm1 Hk Hw1. destruct (copy_bit_spec n Hn m1 bm1 k) as (bm' & ? & ? & _); [done|done|lia|lia|]. eauto.
  - intros bm1 Hw1. apply (copy_bit_fault n); (done || lia).
Qed.

Lemma alloc_bitmap_init_overflow_witness :
  alloc_bitmap_init small_mmap 16383 (filled 4096 0) demo_boot = Fault.
Proof.
  destruct (demo_boot_alloc 1) as (a & b1 & E & Ha); [lia|].
  apply (alloc_bitmap_init_overflow small_mmap 16383 (filled 4096 0) demo_boot
    (filled BOOT_ALLOC_BITMAP_SIZE 0) 256 a b1).
  - lia.
  - exact demo_boot_ready.
  - repeat constructor. cbn. lia.
  - change (alloc_bitmap_pages 16383 * 4096) with 4096. apply filled_wf. unfold fits. lia.
  - exact E.
  - exact Ha.
Defined.
