(* ===== verification/Dynarr.v ===== *)
(** * Dynamic arrays and growing bitmaps (kernel/include/dynarr.h)

    A [dynarr_t] is its record with the buffer [arr] it owns.  A pointer that
    may be NULL is an [option].  The heap is an interface, [Heap]: what
    [kheap_alloc] answers for a size, and the one law the arrays rely on. *)

From S2P Require Import Prelude Bitmap.

Local Open Scope Z_scope.

(** ** What the arrays need of the heap (kernel/mm/heap.c) *)

(** [kheap_alloc n]: NULL or the first [n] bytes of a block, of any content. *)
Class Heap := kheap_alloc : Z -> option bytes.

(** For a request below 2^63 bytes: the request is at most the largest block of
    the page allocator, 2^15 pages, and the buffer has the bytes asked for.
    The block of heap.c is larger, whole pages from its start: the buffer is
    the part of it that the caller asked for and may use, so a theorem that an
    operation answers [Ok] shows that it stays inside its own part, and hence
    inside the block.  Nothing is concluded from leaving that part, which in
    the block need not be an error.  Heap.v proves the law of heap.c. *)
Class HeapLaws `{Heap} := heap_buffer n b : 0 <= n < 2 ^ 63 ->
  kheap_alloc n = Some b -> bitmap_wf b n /\ 0 < n <= 2 ^ 27.

(** A heap that serves every request it may serve. *)
Class HeapTotal `{Heap} := heap_total n : 0 < n <= 2 ^ 27 -> is_Some (kheap_alloc n).

(** A loop that runs out of its fuel counts as a fault. *)
Definition settle {A} (o : option (outcome A)) : outcome A := default Fault o.

(** ** The record and the operations *)

Definition DYNARR_LOAD_NUMERATOR : Z := 9.
Definition DYNARR_LOAD_DENOMINATOR : Z := 10.
Definition DYNARR_MAX_COUNT (capacity : Z) : Z :=
  u64 (capacity * DYNARR_LOAD_NUMERATOR) / DYNARR_LOAD_DENOMINATOR.

(** dynarr.h: struct dynarr_struct *)
Record dynarr_t := Dynarr {
  arr : bytes;
  element_size : Z;
  current_count : Z;
  max_count : Z;
  dynarr_count : Z;
  max_limit : Z
}.

Definition set_count (d : dynarr_t) (n : Z) : dynarr_t :=
  Dynarr (arr d) (element_size d) n (max_count d) (dynarr_count d) (max_limit d).
Definition set_arr (d : dynarr_t) (a : bytes) : dynarr_t :=
  Dynarr a (element_size d) (current_count d) (max_count d) (dynarr_count d) (max_limit d).
(** The new buffer and capacity that every growing operation installs. *)
Definition set_buffer (d : dynarr_t) (a : bytes) (cap : Z) : dynarr_t :=
  Dynarr a (element_size d) (current_count d) (DYNARR_MAX_COUNT cap) cap (max_limit d).

Section dynarr.
Context `{Heap}.

(** dynarr.h: dynarr_create.  The record itself is a small allocation; its
    failure has the same answer as the failure of the buffer. *)
Definition dynarr_create (record_ok : bool) (element_size max_capacity : Z) : option dynarr_t :=
  if element_size =? 0 then None
  else
    let init_capacity := 16 in
    let init_capacity :=
      if negb (max_capacity =? 0) && (max_capacity <? init_capacity)
      then max_capacity else init_capacity in
    if negb record_ok then None
    else
      match kheap_alloc (u64 (init_capacity * element_size)) with
      | None => None
      | Some a => Some (Dynarr a element_size 0 (DYNARR_MAX_COUNT init_capacity) init_capacity max_capacity)
      end.

(** The loop that copies the elements into a new buffer. *)
Definition copy_elements (d : dynarr_t) (new_arr : bytes) : outcome bytes :=
  for_up (Z.to_nat (current_count d)) 0
    (fun i a => memcpy a (i * element_size d) (arr d) (i * element_size d) (element_size d)) new_arr.

(** dynarr.h: dynarr_grow *)
Definition dynarr_grow (d : dynarr_t) : outcome (bool * dynarr_t) :=
  let new_capacity := u64 (dynarr_count d * 2) in
  let over := negb (max_limit d =? 0) && (max_limit d <? new_capacity) in
  let new_capacity := if over then max_limit d else new_capacity in
  if over && (new_capacity <=? dynarr_count d) then Ok (false, d)
  else
    match kheap_alloc (u64 (new_capacity * element_size d)) with
    | None => Ok (false, d)
    | Some new_arr =>
        a ← copy_elements d new_arr;
        Ok (true, set_buffer d a new_capacity)
    end.

(** dynarr.h: dynarr_append *)
Definition dynarr_append (d : option dynarr_t) (element : option bytes)
  : outcome (bool * option dynarr_t) :=
  match d, element with
  | Some d, Some element =>
      '(ok, d) ← (if max_count d <=? current_count d then dynarr_grow d else Ok (true, d));
      if negb ok then Ok (false, Some d)
      else
        a ← memcpy (arr d) (current_count d * element_size d) element 0 (element_size d);
        Ok (true, Some (set_count (set_arr d a) (u64 (current_count d + 1))))
  | _, _ => Ok (false, d)
  end.

(** dynarr.h: dynarr_get; the answer is the offset of the element *)
Definition dynarr_get (d : option dynarr_t) (index : Z) : option Z :=
  match d with
  | Some d => if current_count d <=? index then None else Some (index * element_size d)
  | None => None
  end.

(** dynarr.h: dynarr_pop; [out] says whether the caller wants the element,
    which is read from the buffer byte by byte *)
Definition dynarr_pop (d : option dynarr_t) (out : option bytes)
  : outcome (bool * option bytes * option dynarr_t) :=
  match d with
  | None => Ok (false, out, d)
  | Some r =>
      if current_count r =? 0 then Ok (false, out, d)
      else
        let r := set_count r (current_count r - 1) in
        match out with
        | None => Ok (true, None, Some r)
        | Some o =>
            o ← memcpy o 0 (arr r) (current_count r * element_size r) (element_size r);
            Ok (true, Some o, Some r)
        end
  end.

(** dynarr.h: dynarr_expand_to, the capacity loop.  [inl] is the capacity,
    [inr tt] the early [return false]; [None] when the fuel does not suffice. *)
Fixpoint expand_capacity (fuel : nat) (limit min_capacity cap : Z) : option (Z + unit) :=
  if min_capacity <=? cap then Some (inl cap)
  else
    match fuel with
    | O => None
    | S fuel =>
        let cap := u64 (cap * 2) in
        if negb (limit =? 0) && (limit <? cap) then
          if limit <? min_capacity then Some (inr tt) else Some (inl limit)
        else expand_capacity fuel limit min_capacity cap
    end.

(** dynarr.h: dynarr_expand_to; [None] when the capacity loop does not end *)
Definition dynarr_expand_to (d : dynarr_t) (min_capacity : Z) : option (outcome (bool * dynarr_t)) :=
  if min_capacity <=? dynarr_count d then Some (Ok (true, d))
  else
    c ← expand_capacity 64 (max_limit d) min_capacity (dynarr_count d);
    Some
      match c with
      | inr _ => Ok (false, d)
      | inl new_capacity =>
          match kheap_alloc (u64 (new_capacity * element_size d)) with
          | None => Ok (false, d)
          | Some new_arr =>
              a ← copy_elements d new_arr;
              a ← memset a (current_count d * element_size d) 0
                    (u64 ((new_capacity - current_count d) * element_size d));
              Ok (true, set_buffer d a new_capacity)
          end
      end.

(** dynarr.h: dynarr_set *)
Definition dynarr_set (d : option dynarr_t) (index : Z) (element : option bytes)
  : option (outcome (bool * option dynarr_t)) :=
  match d, element with
  | Some d, Some element =>
      r ← (if current_count d <=? index
           then e ← dynarr_expand_to d (u64 (index + 1));
                Some ('(ok, d) ← e; Ok (ok, if ok : bool then set_count d (u64 (index + 1)) else d))
           else Some (Ok (true, d)));
      Some ('(ok, d) ← r;
            if negb ok then Ok (false, Some d)
            else
              a ← memcpy (arr d) (index * element_size d) element 0 (element_size d);
              Ok (true, Some (set_arr d a)))
  | _, _ => Some (Ok (false, d))
  end.

(** dynarr.h: dynarr_reserve *)
Definition dynarr_reserve (d : option dynarr_t) (new_capacity : Z) : outcome (bool * option dynarr_t) :=
  match d with
  | None => Ok (false, None)
  | Some r =>
      if new_capacity <=? dynarr_count r then Ok (false, d)
      else if negb (max_limit r =? 0) && (max_limit r <? new_capacity) then Ok (false, d)
      else
        match kheap_alloc (u64 (new_capacity * element_size r)) with
        | None => Ok (false, d)
        | Some new_arr =>
            a ← copy_elements r new_arr;
            Ok (true, Some (set_buffer r a new_capacity))
        end
  end.

(** dynarr.h: dynarr_capacity *)
Definition dynarr_capacity (d : option dynarr_t) : Z :=
  match d with Some d => dynarr_count d | None => 0 end.

(** dynarr.h: dynarr_bitmap_create *)
Definition dynarr_bitmap_create (record_ok : bool) (max_bits : Z) : option (outcome (option dynarr_t)) :=
  let init_bytes :=
    if negb (max_bits =? 0) && (max_bits <? 128) then u32 (max_bits + 7) / 8 else 16 in
  let max_capacity := if max_bits =? 0 then 0 else u32 (max_bits + 7) / 8 in
  match dynarr_create record_ok 1 max_capacity with
  | None => Some (Ok None)
  | Some d =>
      if 0 <? init_bytes then
        r ← dynarr_expand_to d init_bytes;
        Some ('(ok, d) ← r; Ok (if ok : bool then Some d else None))
      else Some (Ok (Some d))
  end.

(** dynarr.h: dynarr_bitmap_alloc, looking for a clear bit and setting it;
    the answer is the bit *)
Definition bitmap_take (d : dynarr_t) (hint : Z) : outcome (option Z * dynarr_t) :=
  let total_bits := u32 (dynarr_count d * BITS_PER_UNIT) in
  found ← bitmap_find (arr d) total_bits hint false;
  if found <? total_bits then
    a ← bitmap_set (arr d) found; Ok (Some found, set_arr d a)
  else Ok (None, d).

(** dynarr.h: dynarr_bitmap_alloc *)
Definition dynarr_bitmap_alloc (d : dynarr_t) (hint : Z) : option (outcome (option Z * dynarr_t)) :=
  match bitmap_take d hint with
  | Ok (None, d) =>
      if negb (max_limit d =? 0) && (max_limit d <=? dynarr_count d) then Some (Ok (None, d))
      else
        let new_capacity := u64 (dynarr_count d * 2) in
        let new_capacity := if new_capacity <? 16 then 16 else new_capacity in
        let new_capacity :=
          if negb (max_limit d =? 0) && (max_limit d <? new_capacity) then max_limit d else new_capacity in
        r ← dynarr_expand_to d new_capacity;
        Some ('(ok, d) ← r; if ok : bool then bitmap_take d hint else Ok (None, d))
  | r => Some r
  end.

(** dynarr.h: dynarr_bitmap_free *)
Definition dynarr_bitmap_free (d : dynarr_t) (bit : Z) : outcome dynarr_t :=
  if bit <? u64 (dynarr_count d * BITS_PER_UNIT) then
    a ← bitmap_clear (arr d) bit; Ok (set_arr d a)
  else Ok d.

(** dynarr.h: dynarr_bitmap_test *)
Definition dynarr_bitmap_test (d : dynarr_t) (bit : Z) : outcome bool :=
  let total_bits := u32 (dynarr_count d * BITS_PER_UNIT) in
  if total_bits <=? bit then Ok false else bitmap_check (arr d) bit.

End dynarr.

(** ** Invariant and abstract contents *)

Record dynarr_wf (d : dynarr_t) : Prop := {
  wf_buffer : bitmap_wf (arr d) (dynarr_count d * element_size d);
  wf_size : 0 < element_size d;
  wf_cap : 0 < dynarr_count d;
  wf_bytes : dynarr_count d * element_size d <= 2 ^ 27;
  wf_count : 0 <= current_count d <= dynarr_count d;
  wf_threshold : max_count d = DYNARR_MAX_COUNT (dynarr_count d);
  wf_limit : fits 64 (max_limit d);
  wf_below : max_limit d <> 0 -> dynarr_count d <= max_limit d
}.

(** The [n] bytes of a buffer from offset [off]. *)
Definition read (a : bytes) (off n : Z) : list Z :=
  (fun j => default 0 (a !! (off + j))) <$> seqZ 0 n.

(** Element [i], and the abstract value of the array: its elements. *)
Definition elem (d : dynarr_t) (i : Z) : list Z :=
  read (arr d) (i * element_size d) (element_size d).
Definition contents (d : dynarr_t) : list (list Z) := elem d <$> seqZ 0 (current_count d).

(** The caller's object: [n] bytes at offset 0. *)
Definition holds (e : bytes) (n : Z) : Prop :=
  forall i, 0 <= i < n -> exists b, e !! (0 + i) = Some b /\ fits 8 b.

Lemma read_ext a a' off off' n :
  (forall j, 0 <= j < n -> a !! (off + j) = a' !! (off' + j)) -> read a off n = read a' off' n.
Proof.
  intros H. apply list_fmap_ext. intros i x E. apply list_elem_of_lookup_2, elem_of_seqZ in E.
  rewrite H by lia. done.
Qed.

Lemma max_count_lt cap : 0 < cap <= 2 ^ 27 -> 0 <= DYNARR_MAX_COUNT cap < cap.
Proof.
  intros. unfold DYNARR_MAX_COUNT, DYNARR_LOAD_NUMERATOR, DYNARR_LOAD_DENOMINATOR.
  rewrite wrap_small by (unfold fits; lia). dlia.
Qed.

Lemma cap_bound d : dynarr_wf d -> dynarr_count d <= 2 ^ 27.
Proof. intros []. nia. Qed.

Lemma contents_snoc (f : Z -> list Z) n : 0 <= n -> f <$> seqZ 0 (n + 1) = (f <$> seqZ 0 n) ++ [f n].
Proof. intros. rewrite seqZ_app by lia. rewrite fmap_app. f_equal. Qed.

Lemma contents_ext (d d' : dynarr_t) :
  current_count d' = current_count d -> element_size d' = element_size d ->
  (forall i, 0 <= i < current_count d * element_size d -> arr d' !! i = arr d !! i) ->
  contents d' = contents d.
Proof.
  intros Hc Hs H. unfold contents. rewrite Hc. apply list_fmap_ext.
  intros i x E. apply list_elem_of_lookup_2, elem_of_seqZ in E. unfold elem. rewrite Hs.
  apply read_ext. intros j Hj. apply H. nia.
Qed.

Section operations.
Context `{HeapLaws}.

Lemma copy_elements_spec d b n :
  dynarr_wf d -> bitmap_wf b n -> current_count d * element_size d <= n ->
  exists a, copy_elements d b = Ok a /\ bitmap_wf a n /\
    forall i, a !! i =
      if (0 <=? i) && (i <? current_count d * element_size d) then arr d !! i else b !! i.
Proof.
  intros [Hb Hs Hc _ Hn _ _ _] Hw Hle. unfold copy_elements.
  destruct (for_up_inv (fun k a => bitmap_wf a n /\ forall i, a !! i =
      if (0 <=? i) && (i <? k * element_size d) then arr d !! i else b !! i)
    (Z.to_nat (current_count d)) 0
    (fun i a => memcpy a (i * element_size d) (arr d) (i * element_size d) (element_size d)) b)
    as (a & E & Hwa & Ha).
  - split; [done|]. intros i. by replace ((0 <=? i) && (i <? 0 * element_size d)) with false by lia.
  - intros k a Hk [Hwa Ha].
    destruct (memcpy_spec n a (k * element_size d) (arr d) (k * element_size d) (element_size d))
      as (a' & E & Hwa' & Ha'); [done|nia|lia|nia| |].
    { intros i Hi. destruct (proj2 (proj1 Hb (k * element_size d + i))) as [v Ev]; [nia|].
      exists v. split; [done|]. by eapply (proj2 Hb). }
    exists a'. split; [done|]. split; [done|]. intros i. rewrite Ha', Ha.
    replace (k * element_size d + (i - k * element_size d)) with i by lia.
    destruct (Z.leb_spec (k * element_size d) i), (Z.ltb_spec i (k * element_size d + element_size d)),
      (Z.leb_spec 0 i), (Z.ltb_spec i (k * element_size d)), (Z.ltb_spec i ((k + 1) * element_size d));
      cbn; (done || nia).
  - exists a. replace (0 + Z.of_nat (Z.to_nat (current_count d))) with (current_count d) in Ha by lia. done.
Qed.

(** Installing a larger buffer that holds the old elements. *)
Lemma set_buffer_wf d a cap :
  dynarr_wf d -> bitmap_wf a (cap * element_size d) -> dynarr_count d <= cap ->
  cap * element_size d <= 2 ^ 27 -> (max_limit d <> 0 -> cap <= max_limit d) ->
  (forall i, 0 <= i < current_count d * element_size d -> a !! i = arr d !! i) ->
  dynarr_wf (set_buffer d a cap) /\ contents (set_buffer d a cap) = contents d.
Proof.
  intros [] Ha Hc Hb Hl He. split; [|by apply contents_ext]. constructor; cbn; try done; lia.
Qed.

(** The allocation every growing operation makes, with the elements copied. *)
Lemma grow_buffer d cap b :
  dynarr_wf d -> dynarr_count d < cap -> (max_limit d <> 0 -> cap <= max_limit d) ->
  cap * element_size d < 2 ^ 63 -> kheap_alloc (u64 (cap * element_size d)) = Some b ->
  exists a, copy_elements d b = Ok a /\ bitmap_wf a (cap * element_size d) /\
    cap * element_size d <= 2 ^ 27 /\
    forall i, 0 <= i < current_count d * element_size d -> a !! i = arr d !! i.
Proof.
  intros Hwf Hc Hl Hf E. pose proof Hwf as [? ? ? ? ? ? ? ?].
  assert (0 <= cap * element_size d) by nia.
  rewrite wrap_small in E by (unfold fits; lia). destruct (heap_buffer _ _ (conj ltac:(eassumption) Hf) E) as [Hb Hn].
  destruct (copy_elements_spec d b _ Hwf Hb) as (a & Ea & Ha & Hi); [nia|].
  exists a. split_and!; try done; [lia|]. intros i Hi'. rewrite Hi. by replace (_ && _) with true by lia.
Qed.

Lemma dynarr_grow_spec d : dynarr_wf d ->
  exists ok d', dynarr_grow d = Ok (ok, d') /\ dynarr_wf d' /\ contents d' = contents d /\
    element_size d' = element_size d /\ current_count d' = current_count d /\
    (ok = false -> d' = d) /\ (ok = true -> dynarr_count d < dynarr_count d').
Proof.
  intros Hwf. pose proof Hwf as [? ? ? ? ? ? ? ?]. pose proof (cap_bound d Hwf). unfold dynarr_grow.
  rewrite (wrap_small 64 (dynarr_count d * 2)) by (unfold fits; lia).
  set (over := negb _ && _). set (cap := if over then _ else _). cbn zeta.
  destruct (over && _) eqn:G; [exists false, d; done|].
  assert (Hcap : dynarr_count d < cap /\ cap <= dynarr_count d * 2 /\ (max_limit d <> 0 -> cap <= max_limit d)).
  { subst cap. destruct over eqn:O; cbn in G; unfold over in O; zbool; [lia|].
    split_and!; [lia|lia|]. intros ?. destruct (Z.eqb_spec (max_limit d) 0); [done|].
    cbn in O. zbool. lia. }
  destruct (kheap_alloc _) as [b|] eqn:E; [|exists false, d; done].
  destruct (grow_buffer d cap b) as (a & Ea & Ha & Hn & Hi); [done|lia|tauto|nia|done|].
  rewrite Ea. cbn. exists true, (set_buffer d a cap).
  destruct (set_buffer_wf d a cap) as [? ?]; try tauto; try lia. split_and!; try done. cbn. lia.
Qed.

(** Storing the caller's object in slot [i] of a well-formed array. *)
Lemma store_elem d i e :
  dynarr_wf d -> 0 <= i < dynarr_count d -> holds e (element_size d) ->
  exists a, memcpy (arr d) (i * element_size d) e 0 (element_size d) = Ok a /\
    dynarr_wf (set_arr d a) /\ elem (set_arr d a) i = read e 0 (element_size d) /\
    forall k, k <> i -> 0 <= k -> elem (set_arr d a) k = elem d k.
Proof.
  intros [] Hi He.
  destruct (memcpy_spec (dynarr_count d * element_size d) (arr d) (i * element_size d) e 0 (element_size d))
    as (a & E & Ha & Hl); [done|nia|lia|nia|done|].
  exists a. split; [done|]. split; [by constructor|]. split.
  - apply read_ext. intros j Hj. cbn. rewrite Hl. replace (_ && _) with true by lia. f_equal. lia.
  - intros k Hk Hk0. apply read_ext. intros j Hj. cbn. rewrite Hl.
    replace (_ && _) with false; [done|].
    destruct (Z.leb_spec (i * element_size d) (k * element_size d + j)),
      (Z.ltb_spec (k * element_size d + j) (i * element_size d + element_size d)); (done || nia).
Qed.

Lemma dynarr_append_spec d e : dynarr_wf d -> holds e (element_size d) ->
  exists ok d', dynarr_append (Some d) (Some e) = Ok (ok, Some d') /\ dynarr_wf d' /\
    element_size d' = element_size d /\
    (ok = true -> contents d' = contents d ++ [read e 0 (element_size d)]) /\
    (ok = false -> d' = d).
Proof.
  intros Hwf He. unfold dynarr_append.
  assert (exists ok d1, (if max_count d <=? current_count d then dynarr_grow d else Ok (true, d)) = Ok (ok, d1) /\
    dynarr_wf d1 /\ contents d1 = contents d /\ element_size d1 = element_size d /\
    (ok = false -> d1 = d) /\ (ok = true -> current_count d1 < dynarr_count d1))
    as (ok & d1 & -> & Hwf1 & Hc1 & Hs1 & Hf & Ht).
  { destruct (Z.leb_spec (max_count d) (current_count d)).
    - destruct (dynarr_grow_spec d Hwf) as (ok & d' & E & ? & ? & ? & Ec & ? & ?).
      exists ok, d'. split_and!; try done. intros ->. rewrite Ec. pose proof (wf_count d Hwf). naive_solver lia.
    - exists true, d. split_and!; try done. intros _. pose proof (cap_bound d Hwf).
      pose proof (max_count_lt (dynarr_count d)). destruct Hwf. lia. }
  cbn [mbind outcome_bind]. destruct ok; cbn [negb]; [|exists false, d1; naive_solver].
  specialize (Ht eq_refl). pose proof (wf_count d1 Hwf1). pose proof (cap_bound d1 Hwf1).
  destruct (store_elem d1 (current_count d1) e) as (a & E & Hw & Hi & Ho); [done|lia|by rewrite Hs1|].
  rewrite E. cbn [mbind outcome_bind]. eexists true, _. split; [done|].
  rewrite wrap_small by (unfold fits; lia). split; [|split; [done|split; [|done]]].
  - destruct Hw. constructor; cbn in *; try done. lia.
  - intros _. rewrite <- Hc1. unfold contents. cbn [current_count set_count].
    rewrite contents_snoc by lia. f_equal.
    + apply list_fmap_ext. intros k x Ek. apply list_elem_of_lookup_2, elem_of_seqZ in Ek. apply Ho; lia.
    + f_equal. rewrite <- Hs1. exact Hi.
Qed.

Lemma contents_length d : dynarr_wf d -> Z.of_nat (length (contents d)) = current_count d.
Proof. intros []. unfold contents. rewrite length_fmap, length_seqZ. lia. Qed.

(** An array without a limit that has only grown by appending: at least
    nine twentieths of its capacity are in use. *)
Definition tight (d : dynarr_t) : Prop :=
  max_limit d = 0 /\ (dynarr_count d = 16 \/ 9 * dynarr_count d <= 20 * current_count d).

Lemma dynarr_create_tight ok n d : 0 < n < 2 ^ 32 -> dynarr_create ok n 0 = Some d ->
  dynarr_wf d /\ tight d /\ element_size d = n /\ contents d = [].
Proof.
  intros Hn E. unfold dynarr_create in E. rewrite (proj2 (Z.eqb_neq n 0)) in E by lia. cbn [Z.eqb negb andb] in E.
  destruct ok; [|done]. cbn [negb] in E. rewrite wrap_small in E by (unfold fits; lia).
  destruct (kheap_alloc _) as [b|] eqn:Eb; [|done].
  destruct (heap_buffer (16 * n) b ltac:(lia) Eb) as [Hb Hb']. injection E as <-.
  split; [|split; [split; [done|by left]|done]]. constructor; cbn [arr element_size current_count max_count dynarr_count max_limit]; try done; lia.
Qed.

(** Appending keeps the array tight, and fails only when the heap does. *)
Lemma dynarr_append_tight d e ok d' : dynarr_wf d -> tight d ->
  dynarr_append (Some d) (Some e) = Ok (ok, Some d') ->
  tight d' /\
  (ok = false -> 2 * dynarr_count d * element_size d <= 2 ^ 29 /\
     9 * dynarr_count d <= 10 * current_count d + 10 /\
     kheap_alloc (2 * dynarr_count d * element_size d) = None).
Proof.
  intros Hwf [Hl Ht] E. pose proof Hwf as [? ? ? ? ? Hm ? ?]. pose proof (cap_bound d Hwf).
  pose proof (max_count_lt (dynarr_count d) ltac:(lia)) as Hmax. unfold dynarr_append in E.
  destruct (Z.leb_spec (max_count d) (current_count d)) as [Hfull|Hroom].
  - unfold dynarr_grow in E. rewrite Hl in E. cbn [Z.eqb negb andb] in E.
    rewrite (wrap_small 64 (dynarr_count d * 2)) in E by (unfold fits; lia).
    rewrite (wrap_small 64 (dynarr_count d * 2 * element_size d)) in E by (unfold fits; nia).
    unfold DYNARR_MAX_COUNT, DYNARR_LOAD_NUMERATOR, DYNARR_LOAD_DENOMINATOR in Hm.
    rewrite wrap_small in Hm by (unfold fits; lia).
    assert (9 * dynarr_count d <= 10 * current_count d + 9) by (rewrite Hm in Hfull; dlia).
    destruct (kheap_alloc _) as [b|] eqn:Eb; inv_ok.
    + destruct (copy_elements d b) as [a| |]; inv_ok. cbn in *. inv_ok.
      split; [|done]. split; cbn; [done|]. rewrite wrap_small by (unfold fits; lia). right. lia.
    + split; [by split|]. intros _. replace (2 * dynarr_count d') with (dynarr_count d' * 2) by lia.
      split_and!; [nia|lia|done].
  - cbn [mbind outcome_bind negb] in E. inv_ok. split; [|done]. split; cbn; [done|].
    rewrite wrap_small by (unfold fits; lia). lia.
Qed.

(** Appending to a tight array, with the case in which it cannot fail. *)
Lemma dynarr_append_room d e : dynarr_wf d -> tight d -> holds e (element_size d) ->
  exists ok d', dynarr_append (Some d) (Some e) = Ok (ok, Some d') /\ dynarr_wf d' /\ tight d' /\
    element_size d' = element_size d /\
    (ok = true -> contents d' = contents d ++ [read e 0 (element_size d)]) /\
    (HeapTotal -> element_size d * (current_count d + 1) <= 2 ^ 24 -> ok = true).
Proof.
  intros Hwf Ht He. destruct (dynarr_append_spec d e Hwf He) as (ok & d' & E & Hw & Hs & Hc & _).
  destruct (dynarr_append_tight d e ok d' Hwf Ht E) as [Ht' Hf]. exists ok, d'. split_and!; try done.
  intros Htot Hn. destruct ok; [done|]. destruct (Hf eq_refl) as (_ & Hcap & En). destruct Hwf.
  destruct (Htot (2 * dynarr_count d * element_size d)) as [b Eb]; [|congruence]. nia.
Qed.

Lemma dynarr_pop_spec d o : dynarr_wf d -> 0 < current_count d -> bitmap_wf o (element_size d) ->
  exists o' d', dynarr_pop (Some d) (Some o) = Ok (true, Some o', Some d') /\ dynarr_wf d' /\
    contents d = contents d' ++ [read o' 0 (element_size d)].
Proof.
  intros Hwf Hc Ho. pose proof Hwf as [Hb ? ? ? ? ? ? ?]. unfold dynarr_pop.
  replace (current_count d =? 0) with false by lia. cbn [current_count set_count arr element_size].
  destruct (memcpy_spec (element_size d) o 0 (arr d) ((current_count d - 1) * element_size d) (element_size d))
    as (o' & E & Hw & Hl); [done|lia|lia|lia| |].
  { intros i Hi. destruct (proj2 (proj1 Hb ((current_count d - 1) * element_size d + i))) as [v Ev]; [nia|].
    exists v. split; [done|]. by eapply (proj2 Hb). }
  rewrite E. cbn [mbind outcome_bind]. eexists o', _. split; [done|]. split.
  - constructor; cbn; (done || lia).
  - unfold contents. cbn [current_count set_count].
    replace (current_count d) with ((current_count d - 1) + 1) at 1 by lia.
    rewrite contents_snoc by lia. f_equal. f_equal. apply read_ext. intros j Hj. rewrite Hl.
    replace (_ && _) with true by lia. f_equal. lia.
Qed.

(** The capacity loop ends, within 64 doublings, with a capacity that is
    enough and below the limit, unless the limit forbids it. *)
Lemma expand_capacity_spec fuel limit min cap :
  0 < cap -> 0 <= limit -> min <= 2 ^ 62 -> 2 ^ 62 <= cap * 2 ^ Z.of_nat fuel ->
  (limit <> 0 -> cap <= limit) -> cap < min ->
  exists r, expand_capacity fuel limit min cap = Some r /\
    match r with
    | inl c => min <= c /\ c < 2 * min /\ (limit <> 0 -> c <= limit)
    | inr _ => limit <> 0 /\ limit < min
    end.
Proof.
  revert cap. induction fuel as [|fuel IH]; intros cap Hc Hl Hm Hf Hb Hlt.
  { cbn in Hf. lia. }
  cbn [expand_capacity]. replace (min <=? cap) with false by lia.
  rewrite wrap_small by (unfold fits; lia). rewrite Nat2Z.inj_succ, Z.pow_succ_r in Hf by lia.
  destruct (negb (limit =? 0) && (limit <? cap * 2)) eqn:G; zbool.
  - destruct (Z.ltb_spec limit min); eexists; (split; [done|]); cbn; lia.
  - assert (limit <> 0 -> cap * 2 <= limit).
    { intros ?. destruct (Z.eqb_spec limit 0); [done|]. cbn in G. zbool. lia. }
    destruct (Z.leb_spec min (cap * 2)).
    + destruct fuel; cbn [expand_capacity]; replace (min <=? cap * 2) with true by lia;
        (eexists; split; [done|]; cbn; split_and!; (done || lia)).
    + apply IH; try done; lia.
Qed.

(** Growing to a capacity: elements kept, every byte above them cleared. *)
Lemma dynarr_expand_to_spec d min :
  dynarr_wf d -> dynarr_count d < min -> 2 * min * element_size d < 2 ^ 63 -> min <= 2 ^ 62 ->
  exists ok d', dynarr_expand_to d min = Some (Ok (ok, d')) /\ dynarr_wf d' /\
    contents d' = contents d /\ element_size d' = element_size d /\
    current_count d' = current_count d /\ max_limit d' = max_limit d /\
    (ok = false -> d' = d) /\
    (ok = true -> min <= dynarr_count d' /\
      forall i, current_count d * element_size d <= i < dynarr_count d' * element_size d ->
        arr d' !! i = Some 0).
Proof.
  intros Hwf Hlt Hov Hm. pose proof Hwf as [? ? ? ? ? ? [? ?] ?]. unfold dynarr_expand_to.
  replace (min <=? dynarr_count d) with false by lia.
  destruct (expand_capacity_spec 64 (max_limit d) min (dynarr_count d)) as (r & -> & Hr);
    [lia|lia|lia|cbn; lia|done|lia|].
  cbn [mbind option_bind]. destruct r as [cap|[]]; [|exists false, d; done].
  destruct (kheap_alloc _) as [b|] eqn:E; [|exists false, d; done].
  destruct (grow_buffer d cap b) as (a & Ea & Ha & Hn & Hi); [done|lia|tauto|nia|done|].
  rewrite Ea. cbn [mbind outcome_bind].
  rewrite wrap_small by (unfold fits; nia).
  destruct (memset_spec (cap * element_size d) a (current_count d * element_size d) 0
    ((cap - current_count d) * element_size d)) as (a' & Ea' & Ha' & Hl); [done|nia|nia|nia|by vm_compute|].
  rewrite Ea'. cbn [mbind outcome_bind]. exists true, (set_buffer d a' cap).
  destruct (set_buffer_wf d a' cap) as [? ?]; try tauto; try lia.
  { intros i Hi'. rewrite Hl, <- Hi by lia. by replace (_ && _) with false by lia. }
  split_and!; try done. intros _. cbn. split; [tauto|]. intros i Hi'. rewrite Hl.
  by replace (_ && _) with true by nia.
Qed.
End operations.

(** ** Writing by index *)

Section indexed.
Context `{HeapLaws}.

(** What makes slot [index] exist: nothing, or an expansion. *)
Lemma make_slot d index :
  dynarr_wf d -> 0 <= index -> 2 * (index + 1) * element_size d < 2 ^ 63 -> index < 2 ^ 62 ->
  exists ok d', (if current_count d <=? index
           then e ← dynarr_expand_to d (u64 (index + 1));
                Some ('(ok, d) ← e; Ok (ok, if ok : bool then set_count d (u64 (index + 1)) else d))
           else Some (Ok (true, d))) = Some (Ok (ok, d')) /\ dynarr_wf d' /\
    element_size d' = element_size d /\ (ok = false -> d' = d) /\
    (ok = true -> current_count d' = Z.max (current_count d) (index + 1) /\
       forall k, 0 <= k < current_count d -> elem d' k = elem d k).
Proof.
  intros Hwf Hi Hov Hb. pose proof Hwf as [? ? ? ? ? ? ? ?].
  destruct (Z.leb_spec (current_count d) index); [|exists true, d; split_and!; try done; intros; split; [lia|done]].
  rewrite wrap_small by (unfold fits; lia). destruct (Z.le_gt_cases (index + 1) (dynarr_count d)).
  - unfold dynarr_expand_to. replace (_ <=? _) with true by lia. cbn [mbind option_bind outcome_bind].
    exists true, (set_count d (index + 1)). split_and!; try done.
    + constructor; cbn; (done || lia).
    + cbn. split; [lia|done].
  - destruct (dynarr_expand_to_spec d (index + 1)) as (ok & d' & -> & Hw & Hc & Hs & Hn & Hl & Hf & Ht);
      [done|lia|lia|lia|].
    cbn [mbind option_bind outcome_bind]. eexists ok, _. split; [done|].
    destruct ok; [|rewrite Hf by done; done]. destruct (Ht eq_refl) as [Hcap _]. split_and!; try done.
    + destruct Hw. constructor; cbn; (done || lia).
    + cbn. split; [lia|]. intros k Hk. unfold contents in Hc. rewrite Hn in Hc.
      assert (Hk' : seqZ 0 (current_count d) !! Z.to_nat k = Some k) by (rewrite lookup_seqZ; lia).
      apply (f_equal (fun l => l !! Z.to_nat k)) in Hc. rewrite !list_lookup_fmap, Hk' in Hc. by simplify_eq/=.
Qed.

Lemma dynarr_set_spec d index e :
  dynarr_wf d -> holds e (element_size d) -> 0 <= index < 2 ^ 62 ->
  2 * (index + 1) * element_size d < 2 ^ 63 ->
  exists ok d', dynarr_set (Some d) index (Some e) = Some (Ok (ok, Some d')) /\ dynarr_wf d' /\ element_size d' = element_size d /\
    (ok = false -> d' = d) /\
    (ok = true -> current_count d' = Z.max (current_count d) (index + 1) /\
       elem d' index = read e 0 (element_size d) /\
       forall k, 0 <= k < current_count d -> k <> index -> elem d' k = elem d k).
Proof.
  intros Hwf He Hi Hov. unfold dynarr_set.
  destruct (make_slot d index) as (ok & d1 & -> & Hw & Hs & Hf & Ht); [done|lia|done|lia|].
  cbn [mbind option_bind outcome_bind]. destruct ok; cbn [negb]; [|exists false, d1; naive_solver].
  destruct (Ht eq_refl) as [Hn Hk]. pose proof (wf_count d1 Hw).
  destruct (store_elem d1 index e) as (a & E & Hw2 & Hi2 & Ho2); [done|lia|by rewrite Hs|].
  rewrite E. cbn [mbind outcome_bind]. eexists true, _. split; [done|]. split; [done|]. split; [done|]. split; [done|].
  intros _. rewrite <- Hs. split_and!; [exact Hn|done|]. intros k Hk1 Hk2. rewrite Ho2 by lia. by apply Hk.
Qed.
End indexed.

(** ** Growing bitmaps *)

Section growing_bitmaps.
Context `{HeapLaws}.

(** A bitmap: one byte per element. *)
Definition bitmap_arr (d : dynarr_t) : Prop := dynarr_wf d /\ element_size d = 1.

(** The number of bits the current buffer manages. *)
Definition bits (d : dynarr_t) : Z := 8 * dynarr_count d.

Lemma bitmap_arr_bits d : bitmap_arr d ->
  bitmap_wf (arr d) (dynarr_count d) /\ 0 < dynarr_count d <= 2 ^ 27 /\
  u32 (dynarr_count d * BITS_PER_UNIT) = bits d.
Proof.
  intros [Hw Hs]. pose proof (cap_bound d Hw). destruct Hw as [Hb ? ? ? ? ? ? ?].
  rewrite Hs, Z.mul_1_r in Hb. split; [done|]. split; [lia|].
  unfold BITS_PER_UNIT, bits. rewrite wrap_small; [lia|unfold fits; lia].
Qed.

Lemma set_arr_bitmap d a : bitmap_arr d -> bitmap_wf a (dynarr_count d) -> bitmap_arr (set_arr d a).
Proof.
  intros [[] Hs] Ha. split; [|done]. constructor; cbn; try done. by rewrite Hs, Z.mul_1_r.
Qed.

(** The scan takes the first clear bit from [hint] on, or there is none. *)
Lemma bitmap_take_spec d hint : bitmap_arr d -> 0 <= hint < 2 ^ 32 ->
  (bitmap_take d hint = Ok (None, d) /\ forall j, hint <= j < bits d -> bit_at (arr d) j = true) \/
  exists b d', bitmap_take d hint = Ok (Some b, d') /\ bitmap_arr d' /\
    dynarr_count d' = dynarr_count d /\
    hint <= b < bits d /\ bit_at (arr d) b = false /\
    (forall j, hint <= j < b -> bit_at (arr d) j = true) /\
    (forall j, bit_at (arr d') j = (b =? j) || bit_at (arr d) j).
Proof.
  intros Hb Hh. destruct (bitmap_arr_bits d Hb) as (Hw & Hc & Hbits). unfold bitmap_take. rewrite Hbits.
  destruct (bitmap_find_spec (dynarr_count d) ltac:(lia) (arr d) (bits d) hint false)
    as (r & E & Hbef & Hr); [done|lia|unfold bits; lia|lia|].
  rewrite E. cbn [mbind outcome_bind]. destruct Hr as [[Hr Ev]| ->].
  - replace (r <? bits d) with true by lia. right.
    destruct (bitmap_set_spec (dynarr_count d) ltac:(lia) (arr d) r) as (a & Ea & Ha & Hs);
      [done|unfold bits in Hr; lia|].
    rewrite Ea. cbn [mbind outcome_bind]. exists r, (set_arr d a). split_and!; try done; try lia.
    + by apply set_arr_bitmap.
    + intros j Hj. apply Hbef; lia.
  - rewrite Z.ltb_irrefl. left. split; [done|]. intros j Hj. apply Hbef; lia.
Qed.
End growing_bitmaps.

(** ** A concrete heap, for the instances of the theorems *)

(** Memory that comes filled with 0xA5. *)
Definition demo_heap : Heap := fun n =>
  if (0 <? n) && (n <=? 2 ^ 27) then Some (filled n 0xA5) else None.

Lemma demo_heap_laws : @HeapLaws demo_heap.
Proof.
  intros n b _. unfold kheap_alloc, demo_heap. destruct (_ && _) eqn:E; zbool; intros [= <-].
  split; [by apply filled_wf; vm_compute|lia].
Qed.

(** A fresh array of two-byte elements, and a bitmap of 16 bytes all in use. *)
Definition demo_array : dynarr_t := Dynarr (filled 32 0xA5) 2 0 14 16 0.
Definition demo_full : dynarr_t := Dynarr (filled 16 255) 1 0 14 16 0.
Definition demo_elem : bytes := filled 2 7.

Lemma demo_array_wf : dynarr_wf demo_array.
Proof. constructor; cbn; (done || lia || (by apply filled_wf; vm_compute)). Qed.

Lemma demo_full_arr : bitmap_arr demo_full.
Proof. split; [|done]. constructor; cbn; (done || lia || (by apply filled_wf; vm_compute)). Qed.

Lemma demo_elem_holds : holds demo_elem 2.
Proof.
  intros i Hi. exists 7. split; [|by vm_compute]. unfold demo_elem. rewrite filled_lookup.
  by replace (_ && _) with true by lia.
Qed.

(** ** Claims *)

(** On a well-formed array [dynarr_append] returns without touching
    memory outside the buffer; when it answers true the array holds its old
    elements followed by the new one (also when the buffer was reallocated),
    and a following [dynarr_pop] hands out exactly the appended bytes and
    restores the elements; when it answers false the array is untouched. *)
Theorem dynarr_append_pop `{HeapLaws} d e o :
  dynarr_wf d -> holds e (element_size d) -> bitmap_wf o (element_size d) ->
  exists ok d', dynarr_append (Some d) (Some e) = Ok (ok, Some d') /\ dynarr_wf d' /\
    (ok = false -> d' = d) /\
    (ok = true -> contents d' = contents d ++ [read e 0 (element_size d)] /\
       exists o' d'', dynarr_pop (Some d') (Some o) = Ok (true, Some o', Some d'') /\
         dynarr_wf d'' /\ contents d'' = contents d /\
         read o' 0 (element_size d) = read e 0 (element_size d)).
Proof.
  intros Hwf He Ho. destruct (dynarr_append_spec d e Hwf He) as (ok & d' & E & Hw & Hs & Ht & Hf).
  exists ok, d'. split_and!; try done. intros ->. specialize (Ht eq_refl). split; [done|].
  assert (0 < current_count d').
  { apply (f_equal length) in Ht. unfold contents in Ht.
    rewrite length_app, !length_fmap, !length_seqZ in Ht. cbn in Ht. lia. }
  destruct (dynarr_pop_spec d' o) as (o' & d'' & Ep & Hw'' & Hc); [done|done|by rewrite Hs|].
  rewrite Ht, Hs in Hc. apply app_inj_tail in Hc as [Hc1 Hc2]. exists o', d''. done.
Qed.

Lemma dynarr_append_pop_witness :
  exists ok d', @dynarr_append demo_heap (Some demo_array) (Some demo_elem) = Ok (ok, Some d') /\
    dynarr_wf d' /\ (ok = false -> d' = demo_array) /\
    (ok = true -> contents d' = contents demo_array ++ [read demo_elem 0 2] /\
       exists o' d'', dynarr_pop (Some d') (Some demo_elem) = Ok (true, Some o', Some d'') /\
         dynarr_wf d'' /\ contents d'' = contents demo_array /\ read o' 0 2 = read demo_elem 0 2).
Proof.
  apply (@dynarr_append_pop demo_heap demo_heap_laws demo_array demo_elem demo_elem);
    [exact demo_array_wf|exact demo_elem_holds|by apply filled_wf; vm_compute].
Defined.

(** [dynarr_set] at any index whose byte offset does not overflow returns
    (its doubling loop ends within 64 steps); when it answers true the slot
    holds the given bytes, the count covers the index and every other element
    is unchanged; when it answers false the array is untouched. *)
Theorem dynarr_set_correct `{HeapLaws} d index e :
  dynarr_wf d -> holds e (element_size d) -> 0 <= index < 2 ^ 62 ->
  2 * (index + 1) * element_size d < 2 ^ 63 ->
  exists ok d', dynarr_set (Some d) index (Some e) = Some (Ok (ok, Some d')) /\ dynarr_wf d' /\
    (ok = false -> d' = d) /\
    (ok = true -> current_count d' = Z.max (current_count d) (index + 1) /\
       elem d' index = read e 0 (element_size d) /\
       forall k, 0 <= k < current_count d -> k <> index -> elem d' k = elem d k).
Proof. intros. destruct (dynarr_set_spec d index e) as (ok & d' & ? & ? & _ & ? & ?); eauto 10. Qed.

Lemma dynarr_set_correct_witness :
  exists ok d', @dynarr_set demo_heap (Some demo_array) 40 (Some demo_elem) = Some (Ok (ok, Some d')) /\
    dynarr_wf d' /\ (ok = false -> d' = demo_array) /\
    (ok = true -> current_count d' = 41 /\ elem d' 40 = read demo_elem 0 2 /\
       forall k, 0 <= k < 0 -> k <> 40 -> elem d' k = elem demo_array k).
Proof.
  apply (@dynarr_set_correct demo_heap demo_heap_laws demo_array 40 demo_elem);
    [exact demo_array_wf|exact demo_elem_holds|lia|cbn; lia].
Defined.

(** While a clear bit exists from [hint] on, [dynarr_bitmap_alloc] answers
    the first of them and sets it and no other bit, so that an id handed out
    is never one that is in use. *)
Theorem dynarr_bitmap_alloc_fresh `{Heap} d hint j :
  bitmap_arr d -> 0 <= hint < 2 ^ 32 -> hint <= j < bits d -> bit_at (arr d) j = false ->
  exists b d', dynarr_bitmap_alloc d hint = Some (Ok (Some b, d')) /\ bitmap_arr d' /\
    hint <= b <= j /\ bit_at (arr d) b = false /\
    (forall i, hint <= i < b -> bit_at (arr d) i = true) /\
    (forall i, bit_at (arr d') i = (b =? i) || bit_at (arr d) i).
Proof.
  intros Hb Hh Hj Hf. unfold dynarr_bitmap_alloc.
  destruct (bitmap_take_spec d hint Hb Hh) as [[_ Ha]|(b & d' & -> & ? & _ & ? & ? & Hbef & ?)].
  { rewrite Ha in Hf; (done || lia). }
  exists b, d'. split_and!; try done; try lia. destruct (Z.le_gt_cases b j); [done|].
  rewrite Hbef in Hf; (done || lia).
Qed.

Lemma dynarr_bitmap_alloc_fresh_witness :
  exists b d', @dynarr_bitmap_alloc demo_heap (set_arr demo_full (filled 16 0xF7)) 0 = Some (Ok (Some b, d')) /\
    bitmap_arr d' /\ 0 <= b <= 3 /\ bit_at (filled 16 0xF7) b = false /\
    (forall i, 0 <= i < b -> bit_at (filled 16 0xF7) i = true) /\
    (forall i, bit_at (arr d') i = (b =? i) || bit_at (filled 16 0xF7) i).
Proof.
  apply (@dynarr_bitmap_alloc_fresh demo_heap (set_arr demo_full (filled 16 0xF7)) 0 3); [|lia|by vm_compute|by vm_compute].
  apply set_arr_bitmap; [exact demo_full_arr|by apply filled_wf; vm_compute].
Defined.

(** When every bit from [hint] on is in use and the buffer has to grow,
    [dynarr_bitmap_alloc] answers [hint] itself, an id that is still in use,
    and the new buffer has no other bit set: the growth copies
    [current_count] bytes, which is 0 for a bitmap. *)
Theorem dynarr_bitmap_grow_forgets `{HeapLaws} d hint b :
  bitmap_arr d -> current_count d = 0 -> max_limit d = 0 ->
  0 <= hint < bits d -> 8 <= dynarr_count d -> kheap_alloc (2 * dynarr_count d) = Some b ->
  (forall j, hint <= j < bits d -> bit_at (arr d) j = true) ->
  exists d', dynarr_bitmap_alloc d hint = Some (Ok (Some hint, d')) /\
    bit_at (arr d) hint = true /\ forall j, 0 <= j < bits d' -> bit_at (arr d') j = (hint =? j).
Proof.
  intros Hb Hc Hl Hh Hcap Hmem Hfull. destruct (bitmap_arr_bits d Hb) as (Hw & Hn & _). unfold dynarr_bitmap_alloc.
  destruct (bitmap_take_spec d hint Hb) as [[-> _]|(k & d' & _ & _ & _ & Hk & Ef & _)];
    [unfold bits in *; lia| |rewrite Hfull in Ef; (done || lia)].
  rewrite Hl. cbn [Z.eqb negb andb]. rewrite wrap_small by (unfold fits; lia).
  replace (dynarr_count d * 2 <? 16) with false by lia. pose proof Hb as [Hwf Hs].
  unfold dynarr_expand_to. replace (dynarr_count d * 2 <=? dynarr_count d) with false by lia.
  rewrite Hl. cbn [expand_capacity Z.eqb negb andb].
  replace (dynarr_count d * 2 <=? dynarr_count d) with false by lia.
  rewrite wrap_small by (unfold fits; lia). rewrite Z.leb_refl. cbn [mbind option_bind].
  rewrite Hc, Hs, !Z.mul_1_r, Z.sub_0_r. rewrite wrap_small, (Z.mul_comm _ 2), Hmem by (unfold fits; lia).
  destruct (heap_buffer (2 * dynarr_count d) b ltac:(lia) Hmem) as [Hbw ?]. unfold copy_elements. rewrite Hc. change (Z.to_nat 0) with O.
  cbn [for_up mbind outcome_bind].
  destruct (memset_spec (2 * dynarr_count d) b 0 0 (2 * dynarr_count d)) as (a & -> & Ha & Hla);
    [done|lia|lia|lia|by vm_compute|]. cbn [mbind outcome_bind].
  set (d1 := set_buffer d a (2 * dynarr_count d)).
  assert (Hz : forall j, 0 <= j < bits d1 -> bit_at (arr d1) j = false).
  { intros j Hj. unfold bit_at, d1, bits in *. cbn in *. rewrite Hla.
    replace (_ && _) with true by dlia. apply Z.testbit_0_l. }
  assert (Hb1 : bitmap_arr d1).
  { split; [|done]. apply set_buffer_wf; rewrite ?Hs, ?Hc, ?Z.mul_1_r; try done; lia. }
  assert (Hh1 : 0 <= hint < bits d1) by (unfold bits in *; cbn; lia).
  destruct (bitmap_take_spec d1 hint Hb1) as [[_ Ha1]|(k & d' & -> & _ & Hcd & Hk & Ek & Hbef & Hd')];
    [unfold bits in *; lia| |].
  { pose proof (Ha1 hint ltac:(lia)) as F. rewrite Hz in F by done. done. }
  assert (k = hint) as ->.
  { destruct (Z.eq_dec k hint); [done|]. pose proof (Hbef hint ltac:(lia)) as F. by rewrite Hz in F by done. }
  exists d'. split_and!; [done|apply Hfull; lia|]. intros j Hj. rewrite Hd', Hz, orb_false_r; [done|].
  unfold bits in *. rewrite <- Hcd. done.
Qed.

Lemma dynarr_bitmap_grow_forgets_witness :
  exists d', @dynarr_bitmap_alloc demo_heap demo_full 1 = Some (Ok (Some 1, d')) /\
    bit_at (filled 16 255) 1 = true /\ forall j, 0 <= j < bits d' -> bit_at (arr d') j = (1 =? j).
Proof.
  apply (@dynarr_bitmap_grow_forgets demo_heap demo_heap_laws demo_full 1 (filled 32 0xA5));
    [exact demo_full_arr|done|done|by vm_compute|cbn; lia|reflexivity|].
  intros j Hj. unfold bit_at, demo_full. cbn [arr]. rewrite filled_lookup.
  unfold bits in Hj. cbn in Hj. replace (_ && _) with true by dlia.
  change (default 0 (Some 255)) with (Z.ones 8). rewrite Z.ones_spec_low; [done|dlia].
Defined.
