(* ===== verification/Heap.v ===== *)
(** * The kernel heap (kernel/mm/heap.c)

    [kheap_alloc] rounds a size to a power of two of pages and asks the page
    allocator for it, from the requested zone down to ZONE_DMA; [kheap_free]
    and the counter functions turn the address back into the frame.  The
    section at the end discharges the interface [HeapLaws] that the dynamic
    arrays are proved against. *)

From S2P Require Import Prelude Bitmap Buddy BuddyInv BuddySteps BuddyAlloc BuddyFree BuddySpec Dynarr.

Local Open Scope Z_scope.

(** ** Model *)

(** heap.c: size_to_order, the shifting loop; a 64-bit value is 0 after at
    most 64 shifts *)
Fixpoint shift_count (fuel : nat) (page_count order : Z) : Z :=
  if 0 <? page_count then
    match fuel with
    | O => order
    | S fuel => shift_count fuel (Z.shiftr page_count 1) (u8 (order + 1))
    end
  else order.

(** heap.c: size_to_order *)
Definition size_to_order (size : Z) : Z :=
  let page_count := u64 (u64 (size + PAGE_SIZE) - 1) / PAGE_SIZE in
  if page_count <=? 1 then 0 else shift_count 64 (page_count - 1) 0.

(** heap.c: _kheap_alloc; 0 is NULL *)
Definition _kheap_alloc (size zone : Z) (s : pmm) : outcome (Z * pmm) :=
  if size =? 0 then Ok (0, s)
  else
    let order := size_to_order size in
    if MAX_ORDER <=? order then Ok (0, s)
    else
      r ← for_ret (Z.to_nat (zone - ZONE_DMA + 1)) 0
            (fun i s =>
               '(alloc, s) ← pmm_alloc_pages order (zone - i) s;
               Ok (if negb (alloc =? 0) then inr (alloc, s) else inl s)) s;
      let '(pfn, s) := match r with inl s => (0, s) | inr r => r end in
      if pfn =? 0 then Ok (0, s)
      else Ok (PHYS_TO_LINEAR (u64 (Z.shiftl pfn PAGE_SHIFT)), s).

(** The frame of a linear address, as every function below computes it. *)
Definition addr_pfn (vaddr : Z) : Z := Z.shiftr (LINEAR_TO_PHYS vaddr) PAGE_SHIFT.

(** heap.c: kheap_free *)
Definition kheap_free (vaddr : Z) (s : pmm) : outcome pmm :=
  if vaddr =? 0 then Ok s else pmm_free_pages (addr_pfn vaddr) s.

(** heap.c: kheap_add_ref_count *)
Definition kheap_add_ref_count (vaddr : Z) (s : pmm) : outcome pmm :=
  if vaddr =? 0 then Ok s else pmm_add_ref_count (addr_pfn vaddr) s.

(** heap.c: kheap_add_map_count *)
Definition kheap_add_map_count (vaddr : Z) (s : pmm) : outcome pmm :=
  if vaddr =? 0 then Ok s else pmm_add_map_count (addr_pfn vaddr) s.

(** heap.c: kheap_sub_map_count *)
Definition kheap_sub_map_count (vaddr : Z) (s : pmm) : outcome pmm :=
  if vaddr =? 0 then Ok s else pmm_sub_map_count (addr_pfn vaddr) s.

(** heap.c: kheap_zero_map_count *)
Definition kheap_zero_map_count (vaddr : Z) (s : pmm) : outcome pmm :=
  if vaddr =? 0 then Ok s else pmm_zero_map_count (addr_pfn vaddr) s.

(** heap.c: kheap_set_on_pte_ptr *)
Definition kheap_set_on_pte_ptr (vaddr pte_ptr : Z) (s : pmm) : outcome pmm :=
  if vaddr =? 0 then Ok s else pmm_set_on_pte_ptr (addr_pfn vaddr) pte_ptr s.

(** heap.c: kheap_get_on_pte_ptr *)
Definition kheap_get_on_pte_ptr (vaddr : Z) (s : pmm) : outcome Z :=
  if vaddr =? 0 then Ok 0 else pmm_get_on_pte_ptr (addr_pfn vaddr) s.

(** heap.c: kheap_max_page *)
Definition kheap_max_page (s : pmm) : Z := pmm_max_page s.

(** ** Lemmas *)

(** The loop counts the bits of its argument. *)
Lemma shift_count_spec fuel n o :
  0 < n < 2 ^ Z.of_nat fuel -> 0 <= o -> o + Z.of_nat fuel < 256 ->
  shift_count fuel n o = o + Z.log2 n + 1.
Proof.
  revert n o. induction fuel as [|fuel IH]; intros n o Hn Ho Hf; [cbn in Hn; lia|].
  cbn [shift_count]. replace (0 <? n) with true by lia.
  rewrite wrap_small by (unfold fits; lia). destruct (Z.eq_dec n 1) as [->|].
  - assert (Z.shiftr 1 1 = 0) as -> by done. cbn. destruct fuel; cbn; lia.
  - assert (Hs : Z.shiftr n 1 = n / 2) by (by rewrite Z.shiftr_div_pow2).
    assert (0 < n / 2) by dlia. rewrite Nat2Z.inj_succ, Z.pow_succ_r in Hn by lia.
    assert (Hl : Z.log2 n = Z.log2 (n / 2) + 1).
    { rewrite <- Hs, Z.log2_shiftr by lia. pose proof (Z.log2_le_mono 2 n). cbn in *. lia. }
    rewrite Hs, IH by (try split; dlia). lia.
Qed.

Lemma size_to_order_spec size : 0 < size <= 2 ^ 64 - 4096 ->
  let o := size_to_order size in
  0 <= o /\ size <= PAGE_SIZE * 2 ^ o /\ (o = 0 \/ PAGE_SIZE * 2 ^ (o - 1) < size).
Proof.
  intros Hs. cbn zeta. unfold size_to_order.
  assert (u64 (u64 (size + PAGE_SIZE) - 1) = size + 4095) as ->.
  { unfold PAGE_SIZE, wrap. dlia. }
  unfold PAGE_SIZE. set (pc := (size + 4095) / 4096).
  destruct (Z.leb_spec pc 1); [subst pc; split_and!; [lia|dlia|by left]|].
  assert (pc <= 2 ^ 52) by (subst pc; dlia).
  rewrite shift_count_spec by (cbn; lia). rewrite Z.add_0_l.
  pose proof (Z.log2_spec (pc - 1) ltac:(lia)) as [L1 L2]. pose proof (Z.log2_nonneg (pc - 1)).
  unfold Z.succ in L2. split_and!; [lia| |right].
  - subst pc. dlia.
  - replace (Z.log2 (pc - 1) + 1 - 1) with (Z.log2 (pc - 1)) by lia. subst pc. dlia.
Qed.

Lemma addr_pfn_alloc s p o z fr : pmm_inv s -> is_block (blocks s) p o z fr ->
  addr_pfn (PHYS_TO_LINEAR (u64 (Z.shiftl p PAGE_SHIFT))) = p /\
  PHYS_TO_LINEAR (u64 (Z.shiftl p PAGE_SHIFT)) <> 0.
Proof.
  intros Hi B. pose proof (block_in_array s _ _ _ _ Hi B). pose proof (inv_max s Hi).
  pose proof B as (? & _). pose proof (pow2_pos o).
  unfold addr_pfn, LINEAR_TO_PHYS, PHYS_TO_LINEAR, LINEAR_MAP_START, PAGE_SHIFT.
  rewrite Z.shiftl_mul_pow2, Z.shiftr_div_pow2 by lia. change (2 ^ 12) with 4096.
  rewrite (wrap_small 64 (p * 4096)) by (unfold fits; lia).
  rewrite (wrap_small 64 (p * 4096 + _)) by (unfold fits; lia).
  split; [|lia]. replace (p * 4096 + 0xffff808000000000 - 0xffff808000000000) with (p * 4096) by lia.
  rewrite wrap_small by (unfold fits; lia). dlia.
Qed.

(** The zone loop: some zone serves the request, or none changes the live
    extents. *)
Lemma kheap_alloc_spec s size zone :
  pmm_inv s -> 0 < size -> 0 <= zone ->
  exists a s', _kheap_alloc size zone s = Ok (a, s') /\
    ((a = 0 /\ unallocated s s') \/
     (exists p z, a = PHYS_TO_LINEAR (u64 (Z.shiftl p PAGE_SHIFT)) /\ p <> 0 /\ 0 <= z <= zone /\
        size_to_order size < MAX_ORDER /\
        exists s1, unallocated s s1 /\ allocated s1 s' p (size_to_order size) z)).
Proof.
  intros Hi Hs Hz. unfold _kheap_alloc. replace (size =? 0) with false by lia.
  assert (0 <= size_to_order size) as Ho.
  { unfold size_to_order. destruct (_ <=? 1) eqn:G; [lia|]. zbool.
    assert (forall f n o, 0 <= o -> 0 <= shift_count f n o) as Hc; [|by apply Hc].
    induction f as [|f IH]; intros n o Ho; cbn; destruct (0 <? n); try done.
    apply IH. by apply wrap_fits. }
  destruct (Z.leb_spec MAX_ORDER (size_to_order size)); [exists 0, s; eauto using unallocated_refl|].
  match goal with |- context [for_ret ?n ?i ?b ?s0] =>
    destruct (for_ret_inv (fun k s1 => unallocated s s1)
      (fun r => r.1 <> 0 /\ exists z, 0 <= z <= zone /\ exists s1, unallocated s s1 /\
         allocated s1 r.2 r.1 (size_to_order size) z) n i b s0) as [(s1 & E & Hu)|([p s1] & E & Hp & z & Hz' & s2 & Hu & Ha)] end.
  - by apply unallocated_refl.
  - intros k s1 Hk Hu. unfold ZONE_DMA in Hk.
    destruct (pmm_alloc_pages_total s1 (size_to_order size) (zone - k)) as (p & s2 & E & Hr); [apply Hu|lia|lia|].
    rewrite E. cbn [mbind outcome_bind]. destruct Hr as [[-> Hu2]|[Hp Ha]].
    + left. exists s2. split; [done|]. by eapply unallocated_trans.
    + right. exists (p, s2). replace (p =? 0) with false by lia. split; [done|]. split; [done|].
      exists (zone - k). split; [lia|]. eauto.
  - rewrite E. cbn. exists 0, s1. eauto.
  - rewrite E. cbn [mbind outcome_bind fst snd] in *. replace (p =? 0) with false by lia.
    eexists _, s1. split; [done|]. right. exists p, z. split_and!; try done; try lia. eauto.
Qed.

(** ** The interface of the dynamic arrays *)

(** What a [kheap_alloc] in state [s] hands to a client: NULL, or the first
    [n] bytes of the cleared block. *)
Definition heap_of (s : pmm) : Heap := fun n =>
  match _kheap_alloc n ZONE_NORMAL s with
  | Ok (a, _) => if a =? 0 then None else Some (filled n 0)
  | _ => None
  end.

Lemma order_bytes size : 0 < size <= 2 ^ 64 - 4096 -> size_to_order size < MAX_ORDER -> size <= 2 ^ 27.
Proof.
  intros Hs Ho. destruct (size_to_order_spec size Hs) as (? & Hle & _).
  assert (2 ^ size_to_order size <= 2 ^ 15) by (apply Z.pow_le_mono_r; unfold MAX_ORDER in Ho; lia).
  unfold PAGE_SIZE in *. lia.
Qed.

(** ** Claims *)

(** [size_to_order] answers the least order whose block holds [size]
    bytes, for every size up to 2^64 - 4096. *)
Theorem size_to_order_least size :
  0 < size <= 2 ^ 64 - 4096 ->
  let o := size_to_order size in
  0 <= o /\ size <= PAGE_SIZE * 2 ^ o /\ (o = 0 \/ PAGE_SIZE * 2 ^ (o - 1) < size).
Proof. apply size_to_order_spec. Qed.

Lemma size_to_order_least_witness :
  size_to_order 12289 = 2 /\ 12289 <= PAGE_SIZE * 2 ^ size_to_order 12289.
Proof. split; [by vm_compute|]. apply (size_to_order_least 12289). lia. Defined.

(** [_kheap_alloc] never panics; it answers NULL and leaves the live
    extents as they were, or the address of a fresh, cleared extent of at
    least [size] bytes in the requested zone or a lower one, and [kheap_free]
    of that address gives the extent back: the live extents and the free page
    count are again those of the start. *)
Theorem kheap_alloc_free s size zone :
  pmm_inv s -> 0 < size <= 2 ^ 64 - 4096 -> 0 <= zone ->
  exists a s', _kheap_alloc size zone s = Ok (a, s') /\
    ((a = 0 /\ unallocated s s') \/
     (a <> 0 /\ exists p z s1, addr_pfn a = p /\ 0 <= z <= zone /\ unallocated s s1 /\
        allocated s1 s' p (size_to_order size) z /\ size <= PAGE_SIZE * 2 ^ size_to_order size /\
        exists s2, kheap_free a s' = Ok s2 /\ unallocated s s2)).
Proof.
  intros Hi Hs Hz. destruct (kheap_alloc_spec s size zone Hi) as (a & s' & E & Hr); [lia|done|].
  exists a, s'. split; [done|]. destruct Hr as [?|(p & z & -> & Hp & ? & Ho & s1 & Hu & Ha)]; [by left|right].
  destruct (addr_pfn_alloc s' p _ _ _ (al_inv _ _ _ _ _ Ha) (al_block _ _ _ _ _ Ha)) as [Hpfn Hnz].
  split; [done|]. exists p, z, s1. destruct (free_allocated _ _ _ _ _ Ha) as (s2 & E2 & Hu2).
  split_and!; try done; try lia; [by apply size_to_order_spec|].
  exists s2. unfold kheap_free. replace (_ =? 0) with false by lia. rewrite Hpfn.
  split; [done|]. by eapply unallocated_trans.
Qed.

Lemma kheap_alloc_free_witness :
  exists a s', _kheap_alloc 5000 2 demo = Ok (a, s') /\
    ((a = 0 /\ unallocated demo s') \/
     (a <> 0 /\ exists p z s1, addr_pfn a = p /\ 0 <= z <= 2 /\ unallocated demo s1 /\
        allocated s1 s' p (size_to_order 5000) z /\ 5000 <= PAGE_SIZE * 2 ^ size_to_order 5000 /\
        exists s2, kheap_free a s' = Ok s2 /\ unallocated demo s2)).
Proof. apply (kheap_alloc_free demo 5000 2); [exact demo_inv|lia|lia]. Defined.

(** The rounding of a size of more than 2^64 - 4096 bytes wraps around:
    the request is served with one page. *)
Theorem kheap_alloc_huge s size zone :
  2 ^ 64 - 4096 < size < 2 ^ 64 -> _kheap_alloc size zone s = _kheap_alloc 1 zone s.
Proof.
  intros Hs. unfold _kheap_alloc. replace (size =? 0) with false by lia.
  assert (size_to_order size = size_to_order 1) as ->; [|done].
  assert (size_to_order 1 = 0) as -> by done. unfold size_to_order.
  replace (_ <=? 1) with true; [done|]. unfold PAGE_SIZE, wrap. dlia.
Qed.

Lemma kheap_alloc_huge_witness : _kheap_alloc (2 ^ 64 - 1) 2 demo = _kheap_alloc 1 2 demo.
Proof. apply (kheap_alloc_huge demo (2 ^ 64 - 1) 2). lia. Defined.

(** The heap discharges the interface the dynamic arrays are proved
    against: in every allocator state a buffer it hands out has the size
    asked for and at most 2^27 bytes. *)
Theorem heap_of_laws s : pmm_inv s -> @HeapLaws (heap_of s).
Proof.
  intros Hi n b Hn. unfold kheap_alloc, heap_of. destruct (Z.eq_dec n 0) as [->|]; [done|].
  destruct (kheap_alloc_spec s n ZONE_NORMAL Hi) as (a & s' & -> & Hr); [lia|done|].
  destruct (Z.eqb_spec a 0) as [|Ha]; [done|]. intros [= <-].
  destruct Hr as [[? _]|(p & z & _ & _ & _ & Ho & _)]; [done|].
  split; [by apply filled_wf; vm_compute|]. split; [lia|]. apply order_bytes; [lia|done].
Qed.

Lemma heap_of_laws_witness : @HeapLaws (heap_of demo).
Proof. exact (heap_of_laws demo demo_inv). Defined.
