(* ===== verification/Mmu.v ===== *)
(** * The page tables (kernel/arch/x86_64/mm/vmm_mmu.c, vmm_mmu.h)

    Page tables are 512-entry pages in the linear map.  The walk is the state
    machine of [mmu_walk]; mapping, unmapping and the page directories are
    built on it.  The pages come from the kernel heap, through the interface
    [PageHeap]; the end of the file discharges it for heap.c over buddy.c.
    An access to a page that the heap does not hold in use is a [Fault]. *)

From S2P Require Import Prelude Bitmap Buddy BuddyInv BuddySteps BuddyAlloc BuddyFree BuddySpec Heap.

Local Open Scope Z_scope.

(** ** What the page tables need of the heap (kernel/mm/heap.c) *)

Class PageHeap (H : Type) := {
  ph_alloc : Z -> H -> outcome (Z * H);        (* kheap_alloc; 0 is NULL *)
  ph_free : Z -> H -> outcome H;               (* kheap_free *)
  ph_add_ref : Z -> H -> outcome H;            (* kheap_add_ref_count *)
  ph_set_pte : Z -> Z -> H -> outcome H;       (* kheap_set_on_pte_ptr *)
  ph_get_pte : Z -> H -> outcome Z;            (* kheap_get_on_pte_ptr *)
  ph_used : H -> Z -> bool                     (* the frame of an address is in use *)
}.

(** ** Page table entries (vmm_mmu.h, bootmem.h, vmm_types.h) *)

Definition PTE_PRESENT : Z := 1.
Definition PTE_WRITABLE : Z := 2.
Definition PTE_USER : Z := 4.
Definition PTE_PWT : Z := 8.
Definition PTE_PCD : Z := 16.
Definition PTE_HUGE : Z := 128.
Definition PTE_NX : Z := Z.shiftl 1 63.

Definition VM_WRITE : Z := 2.
Definition VM_EXEC : Z := 4.
Definition VM_USER : Z := 8.
Definition VM_UC : Z := 16.

Definition PTE_PFN (pte : Z) : Z := Z.shiftr (Z.land pte 0x000FFFFFFFFFF000) 12.
Definition PTE_IS_VALID (pte : Z) : bool := negb (Z.land pte PTE_PRESENT =? 0).
Definition PTE_IS_HUGE (pte : Z) : bool := negb (Z.land pte PTE_HUGE =? 0).

Definition PAGE_TABLE_MASK : Z := 0x1FF.
Definition PML4_INDEX (addr : Z) : Z := Z.land (Z.shiftr addr 39) PAGE_TABLE_MASK.
Definition PDPT_INDEX (addr : Z) : Z := Z.land (Z.shiftr addr 30) PAGE_TABLE_MASK.
Definition PD_INDEX (addr : Z) : Z := Z.land (Z.shiftr addr 21) PAGE_TABLE_MASK.
Definition PT_INDEX (addr : Z) : Z := Z.land (Z.shiftr addr 12) PAGE_TABLE_MASK.

(** vmm_mmu.c: enum walk_state *)
Inductive walk_state :=
| WALK_START | WALK_PML4 | WALK_PDPT | WALK_PD | WALK_PT | WALK_DONE | WALK_ERROR | WALK_BREAK | WALK_PANIC.

(** The output array [out_blocks[3]]. *)
Definition blocks3 : Type := Z * Z * Z.
Definition set_block (o : option blocks3) (k v : Z) : option blocks3 :=
  match o with
  | None => None
  | Some (a, b, c) =>
      Some (if k =? 0 then (v, b, c) else if k =? 1 then (a, v, c) else (a, b, v))
  end.

(** vmm_mmu.h: page_table_blocks_struct, the array's address and contents *)
Record page_table_blocks_struct := Ptb { page_table_blocks : Z; blocks_list : list Z }.

Section mmu.
Context {H : Type} `{PageHeap H}.

(** The heap and the entries of the table pages, by address. *)
Record mmu := Mmu { heap : H; tables : gmap Z Z }.

Definition set_heap (s : mmu) (h : H) : mmu := Mmu h (tables s).

Definition load (a : Z) (s : mmu) : outcome Z :=
  if ph_used (heap s) a then deref (tables s !! a) else Fault.
Definition store (a v : Z) (s : mmu) : outcome mmu :=
  if ph_used (heap s) a then Ok (Mmu (heap s) (<[a := v]> (tables s))) else Fault.

(** vmm_mmu.c: the entry [mmu_set_pte] builds *)
Definition pte_value (pfn : Z) (huge : bool) (prot : Z) : Z :=
  let flags := PTE_PRESENT in
  let flags := if negb (Z.land prot VM_WRITE =? 0) then Z.lor flags PTE_WRITABLE else flags in
  let flags := if negb (Z.land prot VM_USER =? 0) then Z.lor flags PTE_USER else flags in
  let flags := if Z.land prot VM_EXEC =? 0 then Z.lor flags PTE_NX else flags in
  let flags := if negb (Z.land prot VM_UC =? 0) then Z.lor flags (Z.lor PTE_PWT PTE_PCD) else flags in
  let flags := if huge then Z.lor flags PTE_HUGE else flags in
  Z.lor (u64 (Z.shiftl pfn 12)) flags.

(** vmm_mmu.c: mmu_set_pte *)
Definition mmu_set_pte (pte pfn : Z) (huge : bool) (prot : Z) (s : mmu) : outcome mmu :=
  store pte (pte_value pfn huge prot) s.

(** vmm_mmu.c: mmu_clear_pte *)
Definition mmu_clear_pte (pte : Z) (s : mmu) : outcome mmu := store pte 0 s.

(** vmm_mmu.c: alloc_page_table_page *)
Definition alloc_page_table_page (s : mmu) : outcome (Z * mmu) :=
  '(page, h) ← ph_alloc PAGE_SIZE (heap s);
  let s := set_heap s h in
  if page =? 0 then Ok (0, s)
  else
    s ← for_up 512 0 (fun i s => mmu_clear_pte (page + 8 * i) s) s;
    Ok (page, s).

(** The variables of [mmu_walk]. *)
Record walker := Walker {
  walk : walk_state;
  current_phys : Z;
  pte_ptr : Z;
  out_blocks : option blocks3;
  mem : mmu
}.

(** vmm_mmu.c: walk_start *)
Definition walk_start (pgd : Z) (create : bool) (w : walker) : walker :=
  let out := if create then match out_blocks w with Some _ => Some (0, 0, 0) | None => None end
             else out_blocks w in
  Walker (if pgd =? 0 then WALK_PANIC else WALK_PML4) (current_phys w) (pte_ptr w) out (mem w).

(** vmm_mmu.c: what walk_pml4, walk_pdpt and walk_pd do with their entry: the
    index of the address, the number of the output block, the next state and
    whether the level may hold a huge page *)
Definition walk_level (index k : Z) (next : walk_state) (may_huge create : bool) (prot : Z) (w : walker)
  : outcome walker :=
  let ptr := PHYS_TO_LINEAR (current_phys w) + 8 * index in
  v ← load ptr (mem w);
  if negb (PTE_IS_VALID v) then
    if negb create then Ok (Walker WALK_ERROR (current_phys w) ptr (out_blocks w) (mem w))
    else
      '(page, s) ← alloc_page_table_page (mem w);
      if page =? 0 then Ok (Walker WALK_ERROR (current_phys w) ptr (out_blocks w) s)
      else
        let phys := LINEAR_TO_PHYS page in
        s ← mmu_set_pte ptr (Z.shiftr phys 12) false prot s;
        h ← ph_set_pte page ptr (heap s);
        Ok (Walker next phys ptr (set_block (out_blocks w) k page) (set_heap s h))
  else if may_huge && PTE_IS_HUGE v then Ok (Walker WALK_DONE (current_phys w) ptr (out_blocks w) (mem w))
  else
    let phys := u64 (Z.shiftl (PTE_PFN v) 12) in
    if create then
      h ← ph_add_ref (PHYS_TO_LINEAR phys) (heap (mem w));
      Ok (Walker next phys ptr (set_block (out_blocks w) k (PHYS_TO_LINEAR phys)) (set_heap (mem w) h))
    else Ok (Walker next phys ptr (out_blocks w) (mem w)).

(** vmm_mmu.c: walk_pml4, walk_pdpt, walk_pd *)
Definition walk_pml4 (addr : Z) : bool -> Z -> walker -> outcome walker :=
  walk_level (PML4_INDEX addr) 0 WALK_PDPT false.
Definition walk_pdpt (addr : Z) : bool -> Z -> walker -> outcome walker :=
  walk_level (PDPT_INDEX addr) 1 WALK_PD true.
Definition walk_pd (addr : Z) : bool -> Z -> walker -> outcome walker :=
  walk_level (PD_INDEX addr) 2 WALK_PT true.

(** vmm_mmu.c: walk_pt *)
Definition walk_pt (addr : Z) (w : walker) : walker :=
  Walker WALK_DONE (current_phys w) (PHYS_TO_LINEAR (current_phys w) + 8 * PT_INDEX addr) (out_blocks w) (mem w).

(** vmm_mmu.c: walk_done *)
Definition walk_done (w : walker) : walker :=
  Walker WALK_BREAK (current_phys w) (pte_ptr w) (out_blocks w) (mem w).

Definition free_block (a : Z) (s : mmu) : outcome mmu :=
  if negb (a =? 0) then h ← ph_free a (heap s); Ok (set_heap s h) else Ok s.

(** vmm_mmu.c: walk_error *)
Definition walk_error (create : bool) (w : walker) : outcome walker :=
  s ← match out_blocks w with
      | Some (b0, b1, b2) =>
          if create then s ← free_block b2 (mem w); s ← free_block b1 s; free_block b0 s
          else Ok (mem w)
      | None => Ok (mem w)
      end;
  Ok (Walker WALK_BREAK (current_phys w) 0 (out_blocks w) s).

(** vmm_mmu.c: mmu_walk, one turn of the loop; [printp] stops the kernel *)
Definition walk_step (pgd addr : Z) (create : bool) (prot : Z) (w : walker) : outcome (walker + walker) :=
  match walk w with
  | WALK_BREAK => Ok (inr w)
  | WALK_START => Ok (inl (walk_start pgd create w))
  | WALK_PML4 => w ← walk_pml4 addr create prot w; Ok (inl w)
  | WALK_PDPT => w ← walk_pdpt addr create prot w; Ok (inl w)
  | WALK_PD => w ← walk_pd addr create prot w; Ok (inl w)
  | WALK_PT => Ok (inl (walk_pt addr w))
  | WALK_DONE => Ok (inl (walk_done w))
  | WALK_ERROR => w ← walk_error create w; Ok (inl w)
  | WALK_PANIC => Panic
  end.

(** vmm_mmu.c: mmu_walk; the pointer (0 is NULL), the output blocks and the
    memory.  Seven turns are the longest run: five levels, done or error, and
    the test that leaves the loop. *)
Definition mmu_walk (pgd addr : Z) (create : bool) (prot : Z) (out : option blocks3) (s : mmu)
  : outcome (Z * option blocks3 * mmu) :=
  let intermediate_prot := Z.lor (Z.land prot (Z.lor VM_WRITE VM_USER)) VM_EXEC in
  w ← while_loop 7 (walk_step pgd addr create intermediate_prot) (Walker WALK_START pgd 0 out s);
  Ok (pte_ptr w, out_blocks w, mem w).

(** vmm_mmu.c: mmu_add_map, recording the table pages of one page *)
Definition record_blocks (max_blocks : Z) (pb : blocks3) (l : list Z) : outcome (list Z) :=
  let '(b0, b1, b2) := pb in
  for_each [b0; b1; b2]
    (fun b l => if negb (b =? 0) then
                  if max_blocks <=? Z.of_nat (length l) then Panic else Ok (l ++ [b])
                else Ok l) l.

(** vmm_mmu.c: the loop of mmu_add_map and mmu_remove_map that clears the
    parent entries and frees the recorded pages *)
Definition release_blocks (l : list Z) (s : mmu) : outcome mmu :=
  for_each l
    (fun b s =>
       if negb (b =? 0) then
         parent ← ph_get_pte b (heap s);
         s ← (if negb (parent =? 0) then mmu_clear_pte parent s else Ok s);
         h ← ph_free b (heap s);
         Ok (set_heap s h)
       else Ok s) s.

(** vmm_mmu.c: mmu_add_map, the body of the loop over the pages *)
Definition map_page (pgd vaddr_start paddr_start prot max_blocks i : Z) (st : list Z * mmu)
  : outcome (list Z * mmu + list Z * mmu) :=
  let '(l, s) := st in
  let vaddr := u64 (vaddr_start + i * PAGE_SIZE) in
  let paddr := u64 (paddr_start + i * PAGE_SIZE) in
  '(pte, pb, s) ← mmu_walk pgd vaddr true prot (Some (0, 0, 0)) s;
  if pte =? 0 then Ok (inr (l, s))
  else
    l ← record_blocks max_blocks (default (0, 0, 0) pb) l;
    v ← load pte s;
    s ← (if negb (PTE_IS_HUGE v) then mmu_set_pte pte (Z.shiftr paddr 12) false prot s else Ok s);
    Ok (inl (l, s)).

(** vmm_mmu.c: mmu_add_map; the error number negated, the blocks on success *)
Definition mmu_add_map (pgd vaddr_start paddr_start page_count prot : Z) (s : mmu)
  : outcome (Z * option page_table_blocks_struct * mmu) :=
  if pgd =? 0 then Ok (- EINVAL, None, s)
  else if page_count =? 0 then Ok (- EINVAL, None, s)
  else if negb (Z.land vaddr_start (PAGE_SIZE - 1) =? 0) || negb (Z.land paddr_start (PAGE_SIZE - 1) =? 0)
  then Ok (- EFAULT, None, s)
  else
    let max_blocks := u64 (page_count * 3) in
    '(arr, h) ← ph_alloc (u64 (max_blocks * 8)) (heap s);
    let s := set_heap s h in
    if arr =? 0 then Ok (- ENOMEM, None, s)
    else
      r ← for_ret (Z.to_nat page_count) 0 (map_page pgd vaddr_start paddr_start prot max_blocks) ([], s);
      match r with
      | inr (l, s) =>
          s ← release_blocks l s;
          h ← ph_free arr (heap s);
          Ok (- ENOMEM, None, set_heap s h)
      | inl (l, s) => Ok (0, Some (Ptb arr l), s)
      end.

(** vmm_mmu.c: mmu_remove_map *)
Definition mmu_remove_map (ptb : option page_table_blocks_struct) (s : mmu) : outcome (Z * mmu) :=
  match ptb with
  | None => Ok (- EINVAL, s)
  | Some p =>
      if page_table_blocks p =? 0 then Ok (- EINVAL, s)
      else
        s ← release_blocks (blocks_list p) s;
        h ← ph_free (page_table_blocks p) (heap s);
        Ok (0, set_heap s h)
  end.

(** vmm_mmu.c: mmu_add_pgd; the error number negated and the new directory *)
Definition mmu_add_pgd (kernel_pgd : Z) (s : mmu) : outcome (Z * Z * mmu) :=
  '(page, h) ← ph_alloc PAGE_SIZE (heap s);
  let s := set_heap s h in
  if page =? 0 then Ok (- ENOMEM, 0, s)
  else
    s ← for_up 512 0 (fun i s => mmu_clear_pte (page + 8 * i) s) s;
    s ← for_up 256 256 (fun i s => v ← load (PHYS_TO_LINEAR kernel_pgd + 8 * i) s; store (page + 8 * i) v s) s;
    Ok (0, LINEAR_TO_PHYS page, s).

(** vmm_mmu.c: mmu_remove_pgd *)
Definition mmu_remove_pgd (pgd : Z) (s : mmu) : outcome (Z * mmu) :=
  if pgd =? 0 then Ok (- EINVAL, s)
  else h ← ph_free (PHYS_TO_LINEAR pgd) (heap s); Ok (0, set_heap s h).

End mmu.
