(* ===== verification/MmuSpec.v ===== *)
(** * The page tables: theorems

    Of the 512 slots of a page directory some are its own and the others are
    shared with the kernel's directory, as [mmu_add_pgd] makes them: what hangs
    under those, huge pages included, belongs to somebody else and is only
    read.  The tables below the own slots form a tree; the ghost map [G] names
    the place of every such table page by the indices that lead to it.
    Against the laws of the page heap: the walk with creation always returns,
    changes no translation and finds the entry of the address; mapping maps
    the pages asked for and no others. *)

From S2P Require Import Prelude Bitmap Buddy BuddyInv BuddySteps BuddyAlloc BuddyFree BuddySpec Heap Mmu.

Local Open Scope Z_scope.

(** ** The interface's laws *)

(** The linear address of a page frame of the linear map. *)
Definition table_addr (a : Z) : Prop :=
  exists pfn, 0 < pfn < 2 ^ 31 /\ a = PHYS_TO_LINEAR (pfn * PAGE_SIZE).

Class PageHeapLaws (H : Type) `{PageHeap H} := {
  ph_inv : H -> Prop;
  ph_own : H -> Z -> Prop;   (* a page handed out for one table *)
  ph_block : H -> Z -> Prop; (* the first page of anything handed out *)
  ph_room : H -> Z;          (* pages the heap can still hand out one by one *)
  ph_own_used h a i : ph_inv h -> ph_own h a -> 0 <= i < PAGE_SIZE -> ph_used h (a + i) = true;
  ph_own_addr h a : ph_inv h -> ph_own h a -> table_addr a;
  ph_alloc_ok h n : ph_inv h -> 0 < n <= 2 ^ 64 - 4096 ->
    exists a h', ph_alloc n h = Ok (a, h') /\ ph_inv h' /\ (forall b, ph_own h b -> ph_own h' b) /\
      (a <> 0 -> n <= PAGE_SIZE -> ~ ph_own h a /\ ph_own h' a) /\
      (n <= PAGE_SIZE -> 0 < ph_room h -> a <> 0 /\ ph_room h - 1 <= ph_room h');
  ph_add_ref_ok h a : ph_inv h -> ph_own h a ->
    exists h', ph_add_ref a h = Ok h' /\ ph_inv h' /\ (forall b, ph_own h b -> ph_own h' b) /\
      ph_room h <= ph_room h';
  ph_set_pte_ok h a p : ph_inv h -> ph_own h a ->
    exists h', ph_set_pte a p h = Ok h' /\ ph_inv h' /\ (forall b, ph_own h b -> ph_own h' b) /\
      ph_room h <= ph_room h';
  ph_free_ok h a : ph_inv h -> ph_block h a ->
    exists h', ph_free a h = Ok h' /\ ph_inv h' /\ (forall b, b <> a -> ph_own h b -> ph_own h' b) /\
      (forall b, b <> a -> ph_block h b -> ph_block h' b);
  ph_own_block h a : ph_own h a -> ph_block h a;
  (** what is in use stays in use, and a new page was not *)
  ph_alloc_used h n a h' : ph_inv h -> 0 < n <= 2 ^ 64 - 4096 -> ph_alloc n h = Ok (a, h') ->
    (forall x, ph_used h x = true -> ph_used h' x = true) /\
    (a <> 0 -> n <= PAGE_SIZE -> forall i, 0 <= i < PAGE_SIZE -> ph_used h (a + i) = false);
  ph_add_ref_used h a h' : ph_inv h -> ph_own h a -> ph_add_ref a h = Ok h' ->
    forall x, ph_used h x = true -> ph_used h' x = true;
  ph_set_pte_used h a q h' : ph_inv h -> ph_own h a -> ph_set_pte a q h = Ok h' ->
    forall x, ph_used h x = true -> ph_used h' x = true
}.

(** ** Entries and addresses *)

Lemma land_pow2 v k : 0 <= k -> negb (Z.land v (2 ^ k) =? 0) = Z.testbit v k.
Proof.
  intros Hk. destruct (Z.testbit v k) eqn:Hb.
  - apply negb_true_iff, Z.eqb_neq. intros E. assert (Z.testbit (Z.land v (2 ^ k)) k = false) as Hf by by rewrite E, Z.bits_0.
    rewrite Z.land_spec, Z.pow2_bits_true, Hb in Hf by done. done.
  - apply negb_false_iff, Z.eqb_eq. apply Z.bits_inj'. intros i Hi.
    rewrite Z.land_spec, Z.pow2_bits_eqb, Z.bits_0 by done.
    destruct (Z.eqb_spec k i) as [<-|]; [by rewrite Hb|by rewrite andb_false_r].
Qed.

Lemma pte_valid_bit v : PTE_IS_VALID v = Z.testbit v 0.
Proof. apply (land_pow2 v 0). lia. Qed.

Lemma pte_huge_bit v : PTE_IS_HUGE v = Z.testbit v 7.
Proof. apply (land_pow2 v 7). lia. Qed.

Definition pte_flags (huge : bool) (prot : Z) : Z := pte_value 0 huge prot.

Lemma pte_value_split pfn huge prot : 0 <= pfn < 2 ^ 40 ->
  pte_value pfn huge prot = Z.lor (Z.shiftl pfn 12) (pte_flags huge prot).
Proof.
  intros Hp. unfold pte_flags, pte_value. cbn zeta.
  rewrite wrap_small; [done|]. unfold fits. rewrite Z.shiftl_mul_pow2 by lia. lia.
Qed.

(** Every conditional flag is one of finitely many constants. *)
Lemma pte_flags_bits huge prot :
  Z.land (pte_flags huge prot) 0x000FFFFFFFFFF000 = 0 /\
  Z.testbit (pte_flags huge prot) 0 = true /\ Z.testbit (pte_flags huge prot) 7 = huge.
Proof.
  unfold pte_flags, pte_value. cbn zeta. destruct (Z.land prot VM_WRITE =? 0), (Z.land prot VM_USER =? 0),
    (Z.land prot VM_EXEC =? 0), (Z.land prot VM_UC =? 0), huge; by vm_compute.
Qed.

Lemma pte_value_spec pfn huge prot : 0 <= pfn < 2 ^ 40 ->
  PTE_PFN (pte_value pfn huge prot) = pfn /\ PTE_IS_VALID (pte_value pfn huge prot) = true /\
  PTE_IS_HUGE (pte_value pfn huge prot) = huge.
Proof.
  intros Hp. destruct (pte_flags_bits huge prot) as (Hm & H0 & H7).
  rewrite pte_valid_bit, pte_huge_bit, pte_value_split by done. split_and!.
  - unfold PTE_PFN. rewrite Z.land_lor_distr_l, Hm, Z.lor_0_r.
    change 0x000FFFFFFFFFF000 with (Z.shiftl (Z.ones 40) 12).
    rewrite <- Z.shiftl_land, Z.land_ones, Z.mod_small by lia.
    rewrite Z.shiftr_shiftl_l by lia. by rewrite Z.shiftl_0_r.
  - by rewrite Z.lor_spec, H0, orb_true_r.
  - rewrite Z.lor_spec, H7, Z.shiftl_spec_low by lia. done.
Qed.

Lemma table_addr_phys a : table_addr a ->
  exists pfn, 0 < pfn < 2 ^ 31 /\ LINEAR_TO_PHYS a = pfn * PAGE_SIZE /\ a = LINEAR_MAP_START + pfn * PAGE_SIZE /\
    PHYS_TO_LINEAR (pfn * PAGE_SIZE) = a /\ Z.shiftr (LINEAR_TO_PHYS a) 12 = pfn.
Proof.
  intros (pfn & Hp & ->). exists pfn.
  assert (PHYS_TO_LINEAR (pfn * PAGE_SIZE) = LINEAR_MAP_START + pfn * PAGE_SIZE) as E.
  { unfold PHYS_TO_LINEAR, LINEAR_MAP_START, PAGE_SIZE. rewrite wrap_small by (unfold fits; lia). lia. }
  assert (LINEAR_TO_PHYS (PHYS_TO_LINEAR (pfn * PAGE_SIZE)) = pfn * PAGE_SIZE) as E'.
  { rewrite E. unfold LINEAR_TO_PHYS, LINEAR_MAP_START, PAGE_SIZE. rewrite wrap_small by (unfold fits; lia). lia. }
  split_and!; [lia|lia|done..|]. rewrite E', Z.shiftr_div_pow2 by lia. unfold PAGE_SIZE. change (2 ^ 12) with 4096. dlia.
Qed.

(** The slots of two table pages are disjoint. *)
Lemma slot_inj a b i j : table_addr a -> table_addr b -> 0 <= i < 512 -> 0 <= j < 512 ->
  a + 8 * i = b + 8 * j -> a = b /\ i = j.
Proof.
  intros (p & ? & _ & -> & _)%table_addr_phys (q & ? & _ & -> & _)%table_addr_phys Hi Hj E.
  unfold PAGE_SIZE in *. assert (p = q) as -> by lia. split; lia.
Qed.

Lemma table_index addr k : 0 <= k -> 0 <= Z.land (Z.shiftr addr k) PAGE_TABLE_MASK < 512.
Proof.
  intros Hk. unfold PAGE_TABLE_MASK. change 0x1FF with (Z.ones 9). rewrite Z.land_ones by lia.
  apply Z.mod_pos_bound. lia.
Qed.

(** ** Translation, as the hardware does it *)

(** The four indices of an address. *)
Definition indices (addr : Z) : list Z := [PML4_INDEX addr; PDPT_INDEX addr; PD_INDEX addr; PT_INDEX addr].

Definition next_table (e : Z) : Z := PHYS_TO_LINEAR (u64 (Z.shiftl (PTE_PFN e) 12)).

(** What the entries on the way allow: writing, user mode, execution.  The
    processor allows what every one of them allows. *)
Definition rights : Type := bool * bool * bool.
Definition all_rights : rights := (true, true, true).
Definition meet (r q : rights) : rights := (r.1.1 && q.1.1, r.1.2 && q.1.2, r.2 && q.2).
Definition entry_rights (e : Z) : rights := (Z.testbit e 1, Z.testbit e 2, negb (Z.testbit e 63)).
Definition prot_rights (prot : Z) : rights :=
  (negb (Z.land prot VM_WRITE =? 0), negb (Z.land prot VM_USER =? 0), negb (Z.land prot VM_EXEC =? 0)).

(** The entry that maps an address, with the indices left when it is a huge
    page and the rights along the way: the processor's walk from a table along
    the indices. *)
Fixpoint hw (tb : gmap Z Z) (table : Z) (idx : list Z) : option (list Z * Z * rights) :=
  match idx with
  | [] => None
  | i :: rest =>
      match tb !! (table + 8 * i) with
      | None => None
      | Some e =>
          if negb (PTE_IS_VALID e) then None
          else
            match rest with
            | [] => Some ([], e, entry_rights e)
            | _ =>
                if PTE_IS_HUGE e then Some (rest, e, entry_rights e)
                else
                  match hw tb (next_table e) rest with
                  | Some (rem, e', r) => Some (rem, e', meet (entry_rights e) r)
                  | None => None
                  end
            end
      end
  end.

(** The rights of the tables that are there on the way. *)
Fixpoint path_rights (tb : gmap Z Z) (table : Z) (idx : list Z) : rights :=
  match idx with
  | [] => all_rights
  | i :: rest =>
      match tb !! (table + 8 * i) with
      | Some e =>
          if PTE_IS_VALID e && negb (PTE_IS_HUGE e) then meet (entry_rights e) (path_rights tb (next_table e) rest)
          else all_rights
      | None => all_rights
      end
  end.

Lemma meet_assoc p q r : meet (meet p q) r = meet p (meet q r).
Proof. unfold meet. cbn. by rewrite !andb_assoc. Qed.
Lemma meet_comm p q : meet p q = meet q p.
Proof. unfold meet. f_equal; [f_equal|]; apply andb_comm. Qed.
Lemma meet_idem p : meet p p = p.
Proof. destruct p as [[[] []] []]; done. Qed.
Lemma meet_all p : meet all_rights p = p.
Proof. by destruct p as [[? ?] ?]. Qed.
Lemma meet_all_r p : meet p all_rights = p.
Proof. by destruct p as [[[] []] []]. Qed.

(** The table page that a list of indices leads to, through valid entries that
    are not huge. *)
Fixpoint reach (tb : gmap Z Z) (table : Z) (idx : list Z) : option Z :=
  match idx with
  | [] => Some table
  | i :: rest =>
      match tb !! (table + 8 * i) with
      | Some e => if PTE_IS_VALID e && negb (PTE_IS_HUGE e) then reach tb (next_table e) rest else None
      | None => None
      end
  end.

Lemma hw_reach tb table pre a idx : reach tb table pre = Some a -> idx <> [] ->
  hw tb table (pre ++ idx) =
    match hw tb a idx with
    | Some (rem, e, r) => Some (rem, e, meet (path_rights tb table pre) r)
    | None => None
    end.
Proof.
  revert table. induction pre as [|i pre IH]; intros table Hr Hn.
  { injection Hr as ->. cbn. destruct (hw tb a idx) as [[[rem e] r]|]; [|done]. by rewrite meet_all. }
  cbn [app hw reach path_rights] in *. destruct (tb !! (table + 8 * i)) as [e|]; [|done].
  destruct (PTE_IS_VALID e), (PTE_IS_HUGE e); try done. cbn [negb andb] in *.
  destruct (pre ++ idx) eqn:E; [by apply app_eq_nil in E as [_ ->]|]. rewrite (IH _ Hr Hn).
  destruct (hw tb a idx) as [[[rem e'] r]|]; [|done]. by rewrite meet_assoc.
Qed.

Lemma reach_snoc tb table pre a i e :
  reach tb table pre = Some a -> tb !! (a + 8 * i) = Some e -> PTE_IS_VALID e = true -> PTE_IS_HUGE e = false ->
  reach tb table (pre ++ [i]) = Some (next_table e).
Proof.
  revert table. induction pre as [|j pre IH]; intros table Hr E Hv Hh; cbn [app reach] in *.
  - injection Hr as <-. by rewrite E, Hv, Hh.
  - destruct (tb !! (table + 8 * j)) as [e'|]; [|done]. destruct (PTE_IS_VALID e' && negb (PTE_IS_HUGE e')); [|done].
    by apply IH.
Qed.

(** ** The tree of table pages *)

(** The slots of a directory that are its own, and the table pages under the
    other ones, with the number of levels from there. *)
Record share := Share { own_slot : Z -> bool; outer : gmap Z nat }.

Section tree.
Context (P : share).

Record tree (tb : gmap Z Z) (root : Z) (G : gmap Z (list Z)) : Prop := {
  tr_root : G !! root = Some [];
  tr_addr : forall a pre, G !! a = Some pre -> table_addr a /\ (length pre <= 3)%nat;
  tr_word : forall a pre i, G !! a = Some pre -> 0 <= i < 512 -> is_Some (tb !! (a + 8 * i));
  tr_next : forall a pre i e, G !! a = Some pre -> 0 <= i < 512 -> (length pre < 3)%nat ->
    (pre = [] -> own_slot P i = true) -> tb !! (a + 8 * i) = Some e -> PTE_IS_VALID e = true ->
    PTE_IS_HUGE e = false /\ G !! next_table e = Some (pre ++ [i]);
  tr_leaf : forall a pre i e, G !! a = Some pre -> 0 <= i < 512 -> length pre = 3%nat ->
    tb !! (a + 8 * i) = Some e -> PTE_IS_HUGE e = false;
  tr_shared : forall a i e, G !! a = Some [] -> 0 <= i < 512 -> own_slot P i = false -> tb !! (a + 8 * i) = Some e ->
    PTE_IS_VALID e = true -> PTE_IS_HUGE e = false /\ outer P !! next_table e = Some 3%nat;
  tr_outer : forall b n, outer P !! b = Some n -> table_addr b /\ G !! b = None;
  tr_down : forall b n i e, outer P !! b = Some (S (S n)) -> 0 <= i < 512 -> tb !! (b + 8 * i) = Some e ->
    PTE_IS_VALID e = true -> PTE_IS_HUGE e = false -> outer P !! next_table e = Some (S n)
}.

Definition idx_ok (idx : list Z) : Prop := Forall (fun i => 0 <= i < 512) idx.

Lemma indices_ok addr : idx_ok (indices addr).
Proof. unfold idx_ok, indices. rewrite !Forall_cons. split_and!; by apply table_index || apply Forall_nil_2. Qed.

(** The shared part is read the same as long as its pages are not written. *)
Lemma outer_hw tb tb' root G b idx : tree tb root G ->
  (forall c n j, outer P !! c = Some n -> 0 <= j < 512 -> tb' !! (c + 8 * j) = tb !! (c + 8 * j)) ->
  outer P !! b = Some (length idx) -> idx_ok idx -> hw tb' b idx = hw tb b idx.
Proof.
  intros Ht Hs. revert b. induction idx as [|j idx IH]; intros b Hb Hx; [done|].
  apply Forall_cons in Hx as [Hj Hx]. cbn [hw]. rewrite (Hs b _ j Hb Hj).
  destruct (tb !! (b + 8 * j)) as [e|] eqn:E; [|done]. destruct (PTE_IS_VALID e) eqn:Hv; [|done]. cbn [negb].
  destruct idx as [|k idx]; [done|]. destruct (PTE_IS_HUGE e) eqn:Hh; [done|].
  rewrite IH; [done| |done]. by eapply tr_down.
Qed.

Lemma outer_path tb tb' root G b idx n : tree tb root G ->
  (forall c n j, outer P !! c = Some n -> 0 <= j < 512 -> tb' !! (c + 8 * j) = tb !! (c + 8 * j)) ->
  outer P !! b = Some (S n) -> (length idx <= n)%nat -> idx_ok idx -> path_rights tb' b idx = path_rights tb b idx.
Proof.
  intros Ht Hs. revert b n. induction idx as [|j idx IH]; intros b n Hb Hl Hx; [done|].
  apply Forall_cons in Hx as [Hj Hx]. cbn [path_rights length] in *. destruct n as [|n]; [lia|].
  rewrite (Hs b _ j Hb Hj). destruct (tb !! (b + 8 * j)) as [e|] eqn:E; [|done].
  destruct (PTE_IS_VALID e) eqn:Hv; [|done]. destruct (PTE_IS_HUGE e) eqn:Hh; [done|]. cbn [negb andb].
  rewrite (IH _ n); [done| |lia|done]. by eapply tr_down.
Qed.

(** A slot of a table of the tree is no slot of the shared part. *)
Lemma outer_slot tb root G a pre i b n j : tree tb root G -> G !! a = Some pre -> 0 <= i < 512 ->
  outer P !! b = Some n -> 0 <= j < 512 -> b + 8 * j <> a + 8 * i.
Proof.
  intros Ht Ha Hi Hb Hj E. destruct (tr_outer _ _ _ Ht b n Hb) as [Hab Hn].
  apply slot_inj in E as [-> _]; [congruence|done|by eapply tr_addr|done|done].
Qed.

(** Writing a leaf entry: its own address is mapped by it, no other changes. *)
Section leaf.
Context (tb : gmap Z Z) (root : Z) (G : gmap Z (list Z)) (a : Z) (pre : list Z) (i e : Z).
Context (Ht : tree tb root G) (Ha : G !! a = Some pre) (Hl : length pre = 3%nat) (Hi : 0 <= i < 512).

Lemma leaf_slot b p j : G !! b = Some p -> 0 <= j < 512 -> p ++ [j] <> pre ++ [i] -> b + 8 * j <> a + 8 * i.
Proof.
  intros Hb Hj Hn E. apply slot_inj in E as [-> ->]; [|by eapply tr_addr..|done|done].
  rewrite Ha in Hb. by injection Hb as <-.
Qed.

(** Every slot above the leaves is as it was. *)
Lemma leaf_above b p j : G !! b = Some p -> 0 <= j < 512 -> (length p < 3)%nat ->
  <[a + 8 * i := e]> tb !! (b + 8 * j) = tb !! (b + 8 * j).
Proof.
  intros Hb Hj Hp. apply lookup_insert_ne. intros E. symmetry in E. revert E. apply leaf_slot with p; [done|done|].
  intros E. apply (f_equal length) in E. rewrite !length_app in E. cbn in E. lia.
Qed.

Lemma leaf_outer c n j : outer P !! c = Some n -> 0 <= j < 512 -> <[a + 8 * i := e]> tb !! (c + 8 * j) = tb !! (c + 8 * j).
Proof. intros Hc Hj. apply lookup_insert_ne. intros E. symmetry in E. revert E. by eapply outer_slot. Qed.

Lemma leaf_tree : PTE_IS_HUGE e = false -> tree (<[a + 8 * i := e]> tb) root G.
Proof.
  intros Hh. split; [by eapply tr_root|by eapply tr_addr| | | | |by eapply tr_outer|].
  - intros b p j Hb Hj. rewrite lookup_insert. case_decide; [by eauto|by eapply tr_word].
  - intros b p j e' Hb Hj Hp. rewrite (leaf_above b p) by done. by eapply tr_next.
  - intros b p j e' Hb Hj Hp. rewrite lookup_insert. case_decide; [by intros [= <-]|by eapply tr_leaf].
  - intros b j e' Hb Hj. rewrite (leaf_above b []) by (done || cbn; lia). by eapply tr_shared.
  - intros b n j e' Hb Hj. rewrite (leaf_outer b (S (S n))) by done. by eapply tr_down.
Qed.

Lemma leaf_hw b p idx : G !! b = Some p -> idx_ok idx -> (length p + length idx = 4)%nat ->
  p ++ idx <> pre ++ [i] -> hw (<[a + 8 * i := e]> tb) b idx = hw tb b idx.
Proof.
  revert b p. induction idx as [|j idx IH]; intros b p Hb Hx Hlen Hn; [done|].
  apply Forall_cons in Hx as [Hj Hx]. cbn [hw length] in *.
  rewrite lookup_insert_ne.
  - destruct (tb !! (b + 8 * j)) as [e'|] eqn:E; [|done]. destruct (PTE_IS_VALID e') eqn:Hv; [|done].
    cbn [negb]. destruct idx as [|k idx]; [done|]. cbn [length] in Hlen.
    destruct (decide (p = [] /\ own_slot P j = false)) as [[-> Hsh]|Hown].
    + destruct (tr_shared _ _ _ Ht b j e') as [-> Hg]; [done..|]. cbn in Hlen.
      rewrite (outer_hw tb _ root G); [done|done|apply leaf_outer|by rewrite Hg; f_equal; cbn; lia|done].
    + destruct (tr_next _ _ _ Ht b p j e' Hb Hj) as [-> Hg]; [lia| |done|done|].
      { intros ->. by destruct (own_slot P j); [|destruct Hown]. }
      rewrite (IH (next_table e') (p ++ [j])); [done|done|done|rewrite length_app; cbn in *; lia|].
      by rewrite <- app_assoc.
  - intros E. symmetry in E. revert E. apply leaf_slot with p; [done|done|].
    destruct idx as [|k idx]; [done|]. intros E. apply (f_equal length) in E. rewrite !length_app in E. cbn in E, Hlen. lia.
Qed.

(** The tables on the way are the same, and so are their rights. *)
Lemma leaf_reach b p idx : G !! b = Some p -> idx_ok idx -> (length p + length idx <= 3)%nat ->
  (p = [] -> match idx with j :: _ => own_slot P j = true | [] => True end) ->
  reach (<[a + 8 * i := e]> tb) b idx = reach tb b idx.
Proof.
  revert b p. induction idx as [|j idx IH]; intros b p Hb Hx Hlen Hown; [done|].
  apply Forall_cons in Hx as [Hj Hx]. cbn [reach length] in *. rewrite (leaf_above b p) by (done || lia).
  destruct (tb !! (b + 8 * j)) as [e'|] eqn:E; [|done]. destruct (PTE_IS_VALID e') eqn:Hv; [|done].
  destruct (tr_next _ _ _ Ht b p j e' Hb Hj) as [-> Hg]; [lia|done|done|done|]. cbn [negb andb].
  apply (IH (next_table e') (p ++ [j])); [done|done|rewrite length_app; cbn; lia|]. by intros [_ ?]%app_nil.
Qed.

Lemma leaf_path b p idx : G !! b = Some p -> idx_ok idx -> (length p + length idx <= 3)%nat ->
  path_rights (<[a + 8 * i := e]> tb) b idx = path_rights tb b idx.
Proof.
  revert b p. induction idx as [|j idx IH]; intros b p Hb Hx Hlen; [done|].
  apply Forall_cons in Hx as [Hj Hx]. cbn [path_rights length] in *. rewrite (leaf_above b p) by (done || lia).
  destruct (tb !! (b + 8 * j)) as [e'|] eqn:E; [|done]. destruct (PTE_IS_VALID e') eqn:Hv; [|done].
  destruct (decide (p = [] /\ own_slot P j = false)) as [[-> Hsh]|Hown].
  - destruct (tr_shared _ _ _ Ht b j e') as [-> Hg]; [done..|]. cbn in Hlen |- *.
    rewrite (outer_path tb _ root G _ _ 2); [done|done|apply leaf_outer|done|lia|done].
  - destruct (tr_next _ _ _ Ht b p j e' Hb Hj) as [-> Hg]; [lia| |done|done|].
    { intros ->. by destruct (own_slot P j); [|destruct Hown]. }
    cbn [negb andb]. rewrite (IH (next_table e') (p ++ [j])); [done|done|done|rewrite length_app; cbn; lia].
Qed.

End leaf.

(** Hanging a fresh, cleared table page under an invalid entry. *)
Section install.
Context (tb tb' : gmap Z Z) (root : Z) (G : gmap Z (list Z)) (a : Z) (pre : list Z) (i page e0 e : Z).
Context (Ht : tree tb root G) (Ha : G !! a = Some pre) (Hl : (length pre < 3)%nat) (Hi : 0 <= i < 512).
Context (Hmine : pre = [] -> own_slot P i = true).
Context (E0 : tb !! (a + 8 * i) = Some e0) (Hinv : PTE_IS_VALID e0 = false).
Context (Hpage : table_addr page) (Hfresh : G !! page = None) (Hfresho : outer P !! page = None).
Context (He : PTE_IS_VALID e = true) (Hh : PTE_IS_HUGE e = false) (Hnext : next_table e = page).
Context (Hzero : forall j, 0 <= j < 512 -> tb' !! (page + 8 * j) = Some 0).
Context (Hslot : tb' !! (a + 8 * i) = Some e).
Context (Hsame : forall b j, table_addr b -> 0 <= j < 512 -> b <> page -> b + 8 * j <> a + 8 * i ->
           tb' !! (b + 8 * j) = tb !! (b + 8 * j)).

Lemma install_look b p j : G !! b = Some p -> 0 <= j < 512 ->
  tb' !! (b + 8 * j) = if decide (b = a /\ j = i) then Some e else tb !! (b + 8 * j).
Proof.
  intros Hb Hj. case_decide as Hd; [by destruct Hd as [-> ->]|].
  apply Hsame; [by eapply tr_addr|done|intros ->; congruence|].
  intros E. apply slot_inj in E; [done|by eapply tr_addr..|done|done].
Qed.

Lemma install_outer c n j : outer P !! c = Some n -> 0 <= j < 512 -> tb' !! (c + 8 * j) = tb !! (c + 8 * j).
Proof.
  intros Hc Hj. apply Hsame; [by eapply tr_outer|done|intros ->; congruence|]. by eapply outer_slot.
Qed.

Lemma install_tree : tree tb' root (<[page := pre ++ [i]]> G).
Proof.
  assert (forall b, b <> page -> <[page := pre ++ [i]]> G !! b = G !! b) as Hne
    by (intros b Hb; by rewrite lookup_insert_ne).
  assert (forall b p, G !! b = Some p -> b <> page) as Hnp by (intros b p Hb ->; congruence).
  split.
  - rewrite Hne; [by eapply tr_root|]. eapply Hnp. by eapply tr_root.
  - intros b p. rewrite lookup_insert. case_decide; [|by eapply tr_addr].
    intros [= <-]. subst b. split; [done|]. rewrite length_app. cbn. lia.
  - intros b p j. rewrite lookup_insert. case_decide as Hd; intros Hb Hj.
    + subst b. rewrite Hzero by done. by eauto.
    + rewrite (install_look b p) by done. case_decide; [by eauto|by eapply tr_word].
  - intros b p j e'. rewrite lookup_insert. case_decide as Hd; intros Hb Hj Hp Hm.
    + subst b. rewrite Hzero by done. intros [= <-]. done.
    + rewrite (install_look b p) by done. case_decide as Hx.
      * destruct Hx as [-> ->]. intros [= <-] _. split; [done|]. rewrite Hnext, lookup_insert_eq.
        rewrite Ha in Hb. by injection Hb as <-.
      * intros Ee Hv. destruct (tr_next _ _ _ Ht b p j e') as [? Hg]; [done..|]. split; [done|].
        rewrite Hne; [done|]. by eapply Hnp.
  - intros b p j e'. rewrite lookup_insert. case_decide as Hd; intros Hb Hj Hp.
    + subst b. rewrite Hzero by done. by intros [= <-].
    + rewrite (install_look b p) by done. case_decide; [by intros [= <-]|by eapply tr_leaf].
  - intros b j e'. rewrite lookup_insert. case_decide as Hd; intros Hb Hj Hsh.
    + by injection Hb as [_ ?]%app_nil.
    + rewrite (install_look b []) by done. case_decide as Hx; [|by eapply tr_shared].
      destruct Hx as [-> ->]. rewrite Ha in Hb. injection Hb as ->. by rewrite Hmine in Hsh.
  - intros b n Hb. destruct (tr_outer _ _ _ Ht b n Hb) as [Hab Hn]. split; [done|].
    rewrite Hne; [done|]. intros ->. congruence.
  - intros b n j e' Hb Hj. rewrite (install_outer b (S (S n))) by done. by eapply tr_down.
Qed.

Lemma install_hw b p idx : G !! b = Some p -> idx_ok idx -> (length p + length idx = 4)%nat ->
  hw tb' b idx = hw tb b idx.
Proof.
  revert b p. induction idx as [|j idx IH]; intros b p Hb Hx Hlen; [done|].
  apply Forall_cons in Hx as [Hj Hx]. cbn [hw length] in *. rewrite (install_look b p) by done.
  case_decide as Hd.
  - destruct Hd as [-> ->]. rewrite E0, Hinv, He. cbn [negb]. rewrite Ha in Hb. injection Hb as <-.
    destruct idx as [|k idx]; [cbn in Hlen; lia|]. rewrite Hh, Hnext. cbn [hw].
    apply Forall_cons in Hx as [Hk _]. by rewrite Hzero by done.
  - destruct (tb !! (b + 8 * j)) as [e'|] eqn:E; [|done]. destruct (PTE_IS_VALID e') eqn:Hv; [|done].
    cbn [negb]. destruct idx as [|k idx]; [done|]. cbn [length] in Hlen.
    destruct (decide (p = [] /\ own_slot P j = false)) as [[-> Hsh]|Hown].
    + destruct (tr_shared _ _ _ Ht b j e') as [-> Hg]; [done..|]. cbn in Hlen.
      rewrite (outer_hw tb _ root G); [done|done|apply install_outer|by rewrite Hg; f_equal; cbn; lia|done].
    + destruct (tr_next _ _ _ Ht b p j e' Hb Hj) as [-> Hg]; [lia| |done|done|].
      { intros ->. by destruct (own_slot P j); [|destruct Hown]. }
      rewrite (IH (next_table e') (p ++ [j])); [done|done|done|rewrite length_app; cbn in *; lia].
Qed.

Lemma install_reach b p idx c : G !! b = Some p -> idx_ok idx -> (length p + length idx <= 3)%nat ->
  (p = [] -> match idx with j :: _ => own_slot P j = true | [] => True end) ->
  reach tb b idx = Some c -> reach tb' b idx = Some c.
Proof.
  revert b p. induction idx as [|j idx IH]; intros b p Hb Hx Hlen Hown; [done|].
  apply Forall_cons in Hx as [Hj Hx]. cbn [reach length] in *. rewrite (install_look b p) by done.
  case_decide as Hd.
  - destruct Hd as [-> ->]. by rewrite E0, Hinv.
  - destruct (tb !! (b + 8 * j)) as [e'|] eqn:E; [|done]. destruct (PTE_IS_VALID e') eqn:Hv; [|done].
    destruct (tr_next _ _ _ Ht b p j e' Hb Hj) as [-> Hg]; [lia|done|done|done|]. cbn [negb andb].
    apply (IH (next_table e') (p ++ [j])); [done|done|rewrite length_app; cbn; lia|]. by intros [_ ?]%app_nil.
Qed.

(** Where the new table is on the way its rights are added, elsewhere nothing
    changes. *)
Lemma install_path b p idx : G !! b = Some p -> idx_ok idx -> (length p + length idx <= 3)%nat ->
  path_rights tb' b idx = path_rights tb b idx \/
  path_rights tb' b idx = meet (path_rights tb b idx) (entry_rights e).
Proof.
  revert b p. induction idx as [|j idx IH]; intros b p Hb Hx Hlen; [by left|].
  apply Forall_cons in Hx as [Hj Hx]. cbn [path_rights length] in *. rewrite (install_look b p) by done.
  case_decide as Hd.
  - destruct Hd as [-> ->]. right. rewrite E0, Hinv, He, Hh, Hnext. cbn [negb andb].
    rewrite meet_all. enough (path_rights tb' page idx = all_rights) as -> by apply meet_all_r.
    destruct idx as [|k idx]; [done|]. apply Forall_cons in Hx as [Hk _]. cbn [path_rights]. by rewrite Hzero by done.
  - destruct (tb !! (b + 8 * j)) as [e'|] eqn:E; [|by left]. destruct (PTE_IS_VALID e') eqn:Hv; [|by left].
    destruct (decide (p = [] /\ own_slot P j = false)) as [[-> Hsh]|Hown].
    + left. destruct (tr_shared _ _ _ Ht b j e') as [-> Hg]; [done..|]. cbn in Hlen |- *.
      rewrite (outer_path tb _ root G _ _ 2); [done|done|apply install_outer|done|lia|done].
    + destruct (tr_next _ _ _ Ht b p j e' Hb Hj) as [-> Hg]; [lia| |done|done|].
      { intros ->. by destruct (own_slot P j); [|destruct Hown]. }
      cbn [negb andb]. destruct (IH (next_table e') (p ++ [j])) as [->| ->];
        [done|done|rewrite length_app; cbn; lia|by left|right; by rewrite meet_assoc].
Qed.

End install.
End tree.

(** ** The walk *)

(** ** Entries that are built *)

Lemma entry_rights_pte pfn huge prot : 0 <= pfn < 2 ^ 40 -> entry_rights (pte_value pfn huge prot) = prot_rights prot.
Proof.
  intros Hp. unfold entry_rights. rewrite pte_value_split, !Z.lor_spec, !Z.shiftl_spec by lia.
  rewrite !(Z.testbit_neg_r pfn (_ - 12)) by lia.
  rewrite (Z.bits_above_log2 pfn (63 - 12)); [|lia|].
  - cbn [orb]. unfold pte_flags, pte_value, prot_rights. cbn zeta.
    destruct (Z.land prot VM_WRITE =? 0), (Z.land prot VM_USER =? 0), (Z.land prot VM_EXEC =? 0),
      (Z.land prot VM_UC =? 0), huge; by vm_compute.
  - destruct (decide (pfn = 0)) as [->|]; [done|]. apply Z.log2_lt_pow2; lia.
Qed.

(** The protection of the tables that [mmu_walk] creates lets through
    whatever the page itself allows. *)
Definition table_prot (prot : Z) : Z := Z.lor (Z.land prot (Z.lor VM_WRITE VM_USER)) VM_EXEC.

Lemma table_prot_rights prot :
  meet (prot_rights (table_prot prot)) (prot_rights prot) = prot_rights prot.
Proof.
  unfold prot_rights, table_prot, meet. cbn [fst snd].
  replace (Z.land (Z.lor (Z.land prot (Z.lor VM_WRITE VM_USER)) VM_EXEC) VM_WRITE) with (Z.land prot VM_WRITE).
  - replace (Z.land (Z.lor (Z.land prot (Z.lor VM_WRITE VM_USER)) VM_EXEC) VM_USER) with (Z.land prot VM_USER).
    + replace (Z.land (Z.lor (Z.land prot (Z.lor VM_WRITE VM_USER)) VM_EXEC) VM_EXEC) with VM_EXEC.
      * rewrite !andb_diag. done.
      * rewrite Z.land_lor_distr_l, <- Z.land_assoc. change (Z.land (Z.lor VM_WRITE VM_USER) VM_EXEC) with 0.
        by rewrite Z.land_0_r.
    + rewrite Z.land_lor_distr_l, <- Z.land_assoc. change (Z.land (Z.lor VM_WRITE VM_USER) VM_USER) with VM_USER.
      change (Z.land VM_EXEC VM_USER) with 0. by rewrite Z.lor_0_r.
  - rewrite Z.land_lor_distr_l, <- Z.land_assoc. change (Z.land (Z.lor VM_WRITE VM_USER) VM_WRITE) with VM_WRITE.
    change (Z.land VM_EXEC VM_WRITE) with 0. by rewrite Z.lor_0_r.
Qed.

Section walk.
Context {H : Type} `{PageHeapLaws H} (P : share).
Implicit Types (s : mmu (H := H)) (w : walker (H := H)).

(** A page directory [root] whose own tables [G] are a tree of pages in use,
    beside shared tables that are in use too. *)
Record mmu_ok (root : Z) (G : gmap Z (list Z)) s : Prop := {
  mo_inv : ph_inv (heap s);
  mo_tree : tree P (tables s) root G;
  mo_used : forall a pre i, G !! a = Some pre -> 0 <= i < PAGE_SIZE -> ph_used (heap s) (a + i) = true;
  mo_own : forall a pre, G !! a = Some pre -> pre <> [] -> ph_own (heap s) a;
  mo_outer : forall b n i, outer P !! b = Some n -> 0 <= i < PAGE_SIZE -> ph_used (heap s) (b + i) = true
}.

(** Two memories that translate every address alike. *)
Definition same_map (root : Z) s s' : Prop :=
  forall x, hw (tables s') root (indices x) = hw (tables s) root (indices x).

(** The three indices that lead to the table of an address. *)
Definition table_path (x : Z) : list Z := [PML4_INDEX x; PDPT_INDEX x; PD_INDEX x].

Lemma table_path_ok x : idx_ok (table_path x).
Proof. unfold idx_ok, table_path. rewrite !Forall_cons. split_and!; by apply table_index || apply Forall_nil_2. Qed.

(** On the way to every address the rights are as before, or cut by those of
    new tables. *)
Definition narrows (root : Z) (r : rights) s s' : Prop :=
  forall x, path_rights (tables s') root (table_path x) = path_rights (tables s) root (table_path x) \/
            path_rights (tables s') root (table_path x) = meet (path_rights (tables s) root (table_path x)) r.

Lemma narrows_refl root r s s' : tables s' = tables s -> narrows root r s s'.
Proof. intros E x. rewrite E. by left. Qed.

Lemma narrows_trans root r s1 s2 s3 : narrows root r s1 s2 -> narrows root r s2 s3 -> narrows root r s1 s3.
Proof.
  intros H1' H2' x. destruct (H1' x) as [E1|E1], (H2' x) as [E2|E2]; rewrite E2, E1; auto.
  right. by rewrite meet_assoc, meet_idem.
Qed.

(** The slots of the directory are as before, or were free and now lead to a
    new table with the rights [r]. *)
Definition tops (root : Z) (r : rights) s s' : Prop :=
  forall i e, 0 <= i < 512 -> tables s !! (root + 8 * i) = Some e ->
    exists e', tables s' !! (root + 8 * i) = Some e' /\
      (e' = e \/ (PTE_IS_VALID e = false /\ PTE_IS_VALID e' = true /\ entry_rights e' = r)).

Lemma tops_refl root r s s' : tables s' = tables s -> tops root r s s'.
Proof. intros E i e _ Ee. exists e. rewrite E. auto. Qed.

Lemma tops_trans root r s1 s2 s3 : tops root r s1 s2 -> tops root r s2 s3 -> tops root r s1 s3.
Proof.
  intros H1' H2' i e Hi Ee. destruct (H1' i e Hi Ee) as (e2 & E2 & [->|(V1 & V2 & R)]); [by apply H2'|].
  destruct (H2' i e2 Hi E2) as (e3 & E3 & [->|(? & _)]); [|congruence]. exists e2. auto.
Qed.

(** Every page that was handed out or in use still is. *)
Definition keeps_own s s' : Prop :=
  (forall b, ph_own (heap s) b -> ph_own (heap s') b) /\
  (forall x, ph_used (heap s) x = true -> ph_used (heap s') x = true).

Lemma keeps_own_trans s1 s2 s3 : keeps_own s1 s2 -> keeps_own s2 s3 -> keeps_own s1 s3.
Proof. intros [? ?] [? ?]. split; auto. Qed.

Lemma mmu_ok_heap root G s h :
  mmu_ok root G s -> ph_inv h -> keeps_own s (set_heap s h) -> mmu_ok root G (set_heap s h).
Proof.
  intros [Hi Ht Hu Ho Hx] Hi' [Hk1 Hk2]. cbn in Hk1, Hk2. split; [done|done|..]; cbn; eauto.
Qed.

Lemma slot_used root G s a pre i : mmu_ok root G s -> G !! a = Some pre -> 0 <= i < 512 ->
  ph_used (heap s) (a + 8 * i) = true.
Proof. intros Hm Ha Hb. eapply mo_used; [done..|]. unfold PAGE_SIZE. lia. Qed.

Lemma load_slot root G s a pre i : mmu_ok root G s -> G !! a = Some pre -> 0 <= i < 512 ->
  exists e, tables s !! (a + 8 * i) = Some e /\ load (a + 8 * i) s = Ok e.
Proof.
  intros Hm Ha Hi. destruct (tr_word _ _ _ _ (mo_tree _ _ _ Hm) a pre i Ha Hi) as [e E].
  exists e. split; [done|]. unfold load. by rewrite (slot_used root G s a pre i), E.
Qed.

Lemma store_slot root G s a pre i v : mmu_ok root G s -> G !! a = Some pre -> 0 <= i < 512 ->
  store (a + 8 * i) v s = Ok (Mmu (heap s) (<[a + 8 * i := v]> (tables s))).
Proof. intros Hm Ha Hi. unfold store. by rewrite (slot_used root G s a pre i). Qed.

(** A new table page is fresh and cleared; nothing else in memory changes. *)
Lemma alloc_page_table_page_spec s :
  ph_inv (heap s) ->
  exists page s', alloc_page_table_page s = Ok (page, s') /\ ph_inv (heap s') /\ keeps_own s s' /\
    ((page = 0 /\ tables s' = tables s /\ ph_room (heap s) <= 0) \/
     (page <> 0 /\ (0 < ph_room (heap s) -> ph_room (heap s) - 1 <= ph_room (heap s')) /\
      (forall i, 0 <= i < PAGE_SIZE -> ph_used (heap s) (page + i) = false) /\ ph_own (heap s') page /\ table_addr page /\
      (forall j, 0 <= j < 512 -> tables s' !! (page + 8 * j) = Some 0) /\
      (forall x, (forall j, 0 <= j < 512 -> x <> page + 8 * j) -> tables s' !! x = tables s !! x))).
Proof.
  intros Hi. unfold alloc_page_table_page.
  destruct (ph_alloc_ok (heap s) PAGE_SIZE Hi) as (page & h & E & Hi' & Hk & Hp & Hro); [unfold PAGE_SIZE; lia|].
  destruct (ph_alloc_used (heap s) PAGE_SIZE page h Hi) as [Hu Hfr]; [unfold PAGE_SIZE; lia|done|].
  rewrite E. cbn [mbind outcome_bind]. destruct (Z.eqb_spec page 0) as [->|Hn].
  - exists 0, (set_heap s h). split_and!; [done..|]. left. split_and!; [done..|].
    apply Z.nlt_ge. intros Hr. by destruct (Hro (Z.le_refl _) Hr).
  - destruct (Hp Hn (Z.le_refl _)) as [_ Ho].
    destruct (for_up_inv (fun k (s' : mmu (H := H)) => heap s' = h /\
        (forall j, 0 <= j < k -> tables s' !! (page + 8 * j) = Some 0) /\
        (forall x, (forall j, 0 <= j < 512 -> x <> page + 8 * j) -> tables s' !! x = tables s !! x))
      512 0 (fun i s => mmu_clear_pte (page + 8 * i) s) (set_heap s h)) as (s' & -> & Eh & Hz & Hs).
    + split_and!; [done|lia|done].
    + intros k s1 Hk1 (Eh & Hz & Hs). change (0 + Z.of_nat 512) with 512 in Hk1.
      unfold mmu_clear_pte, store. rewrite Eh, ph_own_used by (done || unfold PAGE_SIZE; lia).
      eexists. split; [done|]. cbn [heap tables]. split_and!; [done| |].
      * intros j Hj. rewrite lookup_insert. case_decide; [done|]. apply Hz. lia.
      * intros x Hx. rewrite lookup_insert_ne; [by apply Hs|]. intros Ex. by apply (Hx k); [lia|].
    + cbn [mbind outcome_bind]. exists page, s'. split; [done|]. unfold keeps_own. rewrite Eh. split_and!; [done..|]. right.
      split_and!; [done| |by apply Hfr|done|by eapply ph_own_addr|done|done]. intros Hr. by apply Hro.
Qed.

(** A page that was not in use is none of the tables. *)
Lemma fresh_page root G s page : mmu_ok root G s -> (forall i, 0 <= i < PAGE_SIZE -> ph_used (heap s) (page + i) = false) ->
  G !! page = None /\ outer P !! page = None.
Proof.
  intros Hm Hf. specialize (Hf 0 ltac:(unfold PAGE_SIZE; lia)). split.
  - destruct (G !! page) as [p|] eqn:E; [|done]. rewrite (mo_used _ _ _ Hm page p 0 E) in Hf; [done|unfold PAGE_SIZE; lia].
  - destruct (outer P !! page) as [n|] eqn:E; [|done]. rewrite (mo_outer _ _ _ Hm page n 0 E) in Hf; [done|unfold PAGE_SIZE; lia].
Qed.

(** The walk stands at table [cur], the place [pre] of the tree. *)
Record at_level (root : Z) (G : gmap Z (list Z)) (pre : list Z) w : Prop := {
  lv_ok : mmu_ok root G (mem w);
  lv_place : G !! PHYS_TO_LINEAR (current_phys w) = Some pre;
  lv_reach : reach (tables (mem w)) root pre = Some (PHYS_TO_LINEAR (current_phys w))
}.

Lemma next_table_pte page prot : table_addr page ->
  let e := pte_value (Z.shiftr (LINEAR_TO_PHYS page) 12) false prot in
  PTE_IS_VALID e = true /\ PTE_IS_HUGE e = false /\ next_table e = page /\
  PHYS_TO_LINEAR (LINEAR_TO_PHYS page) = page /\ entry_rights e = prot_rights prot.
Proof.
  intros (pfn & Hp & El & Ea & Ep & Es)%table_addr_phys. cbn zeta. rewrite Es.
  destruct (pte_value_spec pfn false prot) as (Hpfn & Hv & Hh); [lia|]. split_and!; [done|done| | |].
  - unfold next_table. rewrite Hpfn, Z.shiftl_mul_pow2 by lia. change (2 ^ 12) with PAGE_SIZE.
    rewrite wrap_small by (unfold fits, PAGE_SIZE; lia). done.
  - by rewrite El.
  - apply entry_rights_pte. lia.
Qed.

(** One level of the walk with creation. *)
Lemma walk_level_spec root G pre index k next huge prot w bl :
  at_level root G pre w -> (length pre < 3)%nat -> idx_ok pre -> 0 <= index < 512 -> out_blocks w = Some bl ->
  match pre ++ [index] with j :: _ => own_slot P j = true | [] => True end ->
  exists w', walk_level index k next huge true prot w = Ok w' /\
    ((walk w' = WALK_ERROR /\ ph_room (heap (mem w)) <= 0 /\ out_blocks w' = Some bl /\ mmu_ok root G (mem w')) \/
     (exists G' page, walk w' = next /\ keeps_own (mem w) (mem w') /\
        (0 < ph_room (heap (mem w)) -> ph_room (heap (mem w)) - 1 <= ph_room (heap (mem w'))) /\ PHYS_TO_LINEAR (current_phys w') = page /\ page <> 0 /\
        out_blocks w' = set_block (Some bl) k page /\
        at_level root G' (pre ++ [index]) w' /\ G ⊆ G' /\ same_map root (mem w) (mem w') /\
        narrows root (prot_rights prot) (mem w) (mem w') /\ tops root (prot_rights prot) (mem w) (mem w'))).
Proof.
  intros [Hm Hp Hr] Hl Hpre Hi Hb Hmine. set (cur := PHYS_TO_LINEAR (current_phys w)) in *.
  assert (pre = [] -> own_slot P index = true) as Hmine0 by (intros ->; done).
  assert (([] : list Z) = [] -> match pre with j :: _ => own_slot P j = true | [] => True end) as Hmine1
    by (intros _; by destruct pre).
  pose proof Hm as [Hinv Htree Hused Hown Hout].
  unfold walk_level. fold cur. destruct (load_slot root G (mem w) cur pre index Hm Hp Hi) as (e & Ee & ->).
  cbn [mbind outcome_bind]. destruct (PTE_IS_VALID e) eqn:Hv; cbn [negb].
  - destruct (tr_next _ _ _ _ Htree cur pre index e) as [Hh Hg]; [done..|]. rewrite Hh, andb_false_r.
    assert (ph_own (heap (mem w)) (next_table e)) as Hno by (eapply Hown; [done|by destruct pre]).
    destruct (ph_add_ref_ok (heap (mem w)) (next_table e)) as (h & Eh & Hi' & Hk & Hro); [done|done|].
    pose proof (ph_add_ref_used _ _ _ Hinv Hno Eh) as Hu.
    unfold next_table in Eh, Hg. rewrite Eh. cbn [mbind outcome_bind]. eexists. split; [done|]. right.
    exists G, (next_table e). cbn [walk current_phys out_blocks mem].
    split_and!; [done|by split|cbn; lia|done| |by rewrite Hb| |done|done|by apply narrows_refl|by apply tops_refl].
    + destruct (tr_addr _ _ _ _ Htree _ _ Hg) as [(pfn & ? & _ & Ea & _)%table_addr_phys _].
      unfold next_table. rewrite Ea. unfold LINEAR_MAP_START, PAGE_SIZE. lia.
    + split; cbn [mem current_phys]; [by apply mmu_ok_heap|done|]. by eapply reach_snoc.
  - destruct (alloc_page_table_page_spec (mem w) Hinv) as (page & s1 & -> & Hi1 & [Hk1 Hu1] & Hc).
    cbn [mbind outcome_bind]. destruct (Z.eqb_spec page 0) as [->|Hn].
    + destruct Hc as [(_ & Et & Href)|[? _]]; [|done]. eexists. split; [done|]. left.
      cbn [walk out_blocks mem]. split_and!; [done..|]. split; [done|by rewrite Et|..]; eauto.
    + destruct Hc as [[? _]|(_ & Hro & Hf & Ho & Hpa & Hz & Hs)]; [done|].
      destruct (fresh_page root G (mem w) page Hm Hf) as [Hfresh Hfresho].
      destruct (next_table_pte page prot Hpa) as (Hev & Heh & Hen & Hpl & Her).
      set (e' := pte_value _ false prot) in *.
      unfold mmu_set_pte, store. fold e'.
      rewrite (Hu1 _ (slot_used root G (mem w) cur pre index Hm Hp Hi)).
      cbn [mbind outcome_bind heap].
      destruct (ph_set_pte_ok (heap s1) page (cur + 8 * index)) as (h & Eset & Hi2 & Hk2 & Hro2); [done..|].
      pose proof (ph_set_pte_used _ _ _ _ Hi1 Ho Eset) as Hu2. rewrite Eset.
      cbn [mbind outcome_bind]. eexists. split; [done|]. right.
      exists (<[page := pre ++ [index]]> G), page. cbn [walk current_phys out_blocks mem set_heap].
      rewrite Hb, Hpl. unfold set_heap. cbn [tables].
      pose proof (tr_addr _ _ _ _ Htree cur pre Hp) as [Hca _].
      assert (forall b j, table_addr b -> 0 <= j < 512 -> b <> page -> b + 8 * j <> cur + 8 * index ->
        <[cur + 8 * index := e']> (tables s1) !! (b + 8 * j) = tables (mem w) !! (b + 8 * j)) as Hsame.
      { intros b j Hba Hj Hbp Hne. rewrite lookup_insert_ne by done. apply Hs. intros j' Hj' E.
        apply slot_inj in E as [? _]; done. }
      assert (forall j, 0 <= j < 512 -> <[cur + 8 * index := e']> (tables s1) !! (page + 8 * j) = Some 0) as Hzero.
      { intros j Hj. rewrite lookup_insert_ne; [by apply Hz|]. intros E. apply slot_inj in E as [E _]; [congruence|done..]. }
      assert (<[cur + 8 * index := e']> (tables s1) !! (cur + 8 * index) = Some e') as Hslot by by rewrite lookup_insert_eq.
      assert (tree P (<[cur + 8 * index := e']> (tables s1)) root (<[page := pre ++ [index]]> G)) as Htree'
        by by eapply (install_tree P (tables (mem w)) _ root G cur pre index page e').
      split_and!; [done|split; cbn; auto|cbn; lia|done|done|done| |by apply insert_subseteq| | |].
      * split; cbn [mem current_phys].
        -- split; [done|done|..]; cbn [heap].
           ++ intros a p i. rewrite lookup_insert. case_decide; [|eauto].
              intros _ Hx. subst a. apply Hu2. by apply ph_own_used.
           ++ intros a p. rewrite lookup_insert. case_decide; [intros _ _; subst a; by apply Hk2|]. eauto.
           ++ eauto.
        -- by rewrite Hpl, lookup_insert_eq.
        -- rewrite Hpl. cbn [tables]. replace (Some page) with (Some (next_table e')) by by rewrite Hen.
           eapply reach_snoc; [|done|done|done].
           eapply (install_reach P (tables (mem w)) _ root G cur pre index page e e'); try done;
             [by eapply tr_root|..]; cbn; try lia; done.
      * intros x. cbn [tables]. eapply (install_hw P (tables (mem w)) _ root G cur pre index page e e'); try done;
          [by eapply tr_root|apply indices_ok|done].
      * intros x. cbn [tables]. rewrite <- Her.
        eapply (install_path P (tables (mem w)) _ root G cur pre index page e e'); try done;
          [by eapply tr_root|apply table_path_ok|cbn; lia].
      * intros i e1 Hx E1. cbn [tables].
        rewrite (install_look P (tables (mem w)) _ root G cur pre index page e') with (p := []); try done; [|by eapply tr_root].
        case_decide as Hd; [|by eauto]. destruct Hd as [<- ->]. exists e'. split; [done|]. right.
        rewrite Ee in E1. injection E1 as <-. done.
Qed.

Lemma same_map_trans root s1 s2 s3 : same_map root s1 s2 -> same_map root s2 s3 -> same_map root s1 s3.
Proof. intros H1' H2 x. by rewrite H2, H1'. Qed.

Lemma walk_turn n pgd addr prot w w1 :
  walk_step pgd addr true prot w = Ok (inl w1) ->
  while_loop (S n) (walk_step pgd addr true prot) w = while_loop n (walk_step pgd addr true prot) w1.
Proof. intros E. cbn [while_loop]. by rewrite E. Qed.

Lemma free_block_spec s b : ph_inv (heap s) -> (b <> 0 -> ph_own (heap s) b) ->
  exists s', free_block b s = Ok s' /\ ph_inv (heap s') /\
    forall c, c <> b -> ph_own (heap s) c -> ph_own (heap s') c.
Proof.
  intros Hi Hb. unfold free_block. destruct (Z.eqb_spec b 0) as [->|Hn]; cbn [negb]; [by exists s|].
  destruct (ph_free_ok (heap s) b) as (h & -> & Hi' & Hk & _); [done|by apply ph_own_block, Hb|]. cbn [mbind outcome_bind].
  by eexists.
Qed.

(** The error branch ends with NULL whatever was recorded so far. *)
Lemma walk_error_spec n pgd addr prot w b0 b1 :
  walk w = WALK_ERROR -> out_blocks w = Some (b0, b1, 0) -> ph_inv (heap (mem w)) ->
  (b0 <> 0 -> ph_own (heap (mem w)) b0) -> (b1 <> 0 -> ph_own (heap (mem w)) b1 /\ b0 <> b1) ->
  exists w', while_loop (S (S n)) (walk_step pgd addr true prot) w = Ok w' /\ pte_ptr w' = 0 /\ ph_inv (heap (mem w')).
Proof.
  intros Hw Ho Hi H0' H1'.
  assert (exists w', walk_error true w = Ok w' /\ walk w' = WALK_BREAK /\ pte_ptr w' = 0 /\ ph_inv (heap (mem w')))
    as (w' & E & Hb & Hp & Hi').
  { unfold walk_error. rewrite Ho.
    destruct (free_block_spec (mem w) 0 Hi) as (s1 & -> & Hi1 & Hk1); [done|]. cbn [mbind outcome_bind].
    destruct (free_block_spec s1 b1 Hi1) as (s2 & -> & Hi2 & Hk2).
    { intros Hn. apply Hk1; [done|by apply H1']. }
    cbn [mbind outcome_bind]. destruct (free_block_spec s2 b0 Hi2) as (s3 & -> & Hi3 & _).
    { intros Hn. destruct (decide (b1 = 0)) as [Hz|Hz].
      - apply Hk2; [congruence|]. apply Hk1; [done|by apply H0'].
      - apply Hk2; [by apply H1'|]. apply Hk1; [done|by apply H0']. }
    cbn [mbind outcome_bind]. by eexists. }
  exists w'. rewrite (walk_turn (S n) pgd addr prot w w'); [|unfold walk_step; rewrite Hw, E; done].
  cbn [while_loop]. unfold walk_step. by rewrite Hb.
Qed.

(** [mmu_walk] with creation: NULL, which takes a heap with fewer than three
    pages left, or the entry of the address in a tree that translates as
    before. *)
Lemma mmu_walk_spec root G pgd addr prot out s :
  mmu_ok root G s -> root = PHYS_TO_LINEAR pgd -> pgd <> 0 -> own_slot P (PML4_INDEX addr) = true ->
  exists ptr out' s', mmu_walk pgd addr true prot (Some out) s = Ok (ptr, out', s') /\
    ((ptr = 0 /\ ph_room (heap s) < 3 /\ ph_inv (heap s')) \/
     (exists G' a b0 b1, keeps_own s s' /\ (3 <= ph_room (heap s) -> ph_room (heap s) - 3 <= ph_room (heap s')) /\ ptr = a + 8 * PT_INDEX addr /\ out' = Some (b0, b1, a) /\
        mmu_ok root G' s' /\ G ⊆ G' /\ G' !! a = Some (table_path addr) /\
        reach (tables s') root (table_path addr) = Some a /\
        same_map root s s' /\ narrows root (prot_rights (table_prot prot)) s s' /\
        tops root (prot_rights (table_prot prot)) s s')).
Proof.
  intros Hm -> Hpgd Hmine. set (root := PHYS_TO_LINEAR pgd) in *. unfold mmu_walk. cbn zeta.
  fold (table_prot prot). set (pr := table_prot prot). set (w0 := Walker WALK_START _ _ _ _).
  set (w1 := Walker WALK_PML4 pgd 0 (Some (0, 0, 0)) s).
  rewrite (walk_turn 6 pgd addr pr w0 w1).
  2:{ unfold walk_step, walk_start. cbn [walk w0 out_blocks current_phys pte_ptr mem]. by rewrite (proj2 (Z.eqb_neq _ _) Hpgd). }
  assert (at_level root G [] w1) as L1.
  { split; [done|by eapply tr_root, mo_tree|done]. }
  destruct (walk_level_spec root G [] (PML4_INDEX addr) 0 WALK_PDPT false pr w1 (0, 0, 0) L1)
    as (w2 & E2 & Hc2); [cbn; lia|by apply Forall_nil_2|by apply table_index|done|done|].
  rewrite (walk_turn 5 pgd addr pr w1 w2); [|unfold walk_step; cbn [walk w1]; unfold walk_pml4; by rewrite E2].
  destruct Hc2 as [(Hw2 & Hr2 & Ho2 & Hm2)|(G2 & b0 & Hw2 & K2 & Hr2 & Eb0 & Hb0 & Ho2 & L2 & HG2 & Hs2 & Hn2 & Ht2)].
  { destruct (walk_error_spec 3 pgd addr pr w2 0 0) as (w' & -> & Hp & Hi); [done|done|by apply Hm2|done|done|].
    cbn [mbind outcome_bind]. eexists _, _, _. split; [done|]. left. cbn [mem w1] in *. split_and!; [done|lia|done]. }
  destruct (walk_level_spec root G2 [PML4_INDEX addr] (PDPT_INDEX addr) 1 WALK_PD true pr w2 (b0, 0, 0) L2)
    as (w3 & E3 & Hc3); [cbn; lia|by apply Forall_singleton, table_index|by apply table_index|done|done|].
  rewrite (walk_turn 4 pgd addr pr w2 w3); [|unfold walk_step; rewrite Hw2; unfold walk_pdpt; by rewrite E3].
  pose proof (lv_place _ _ _ _ L2) as P2. rewrite Eb0 in P2.
  destruct Hc3 as [(Hw3 & Hr3 & Ho3 & Hm3)|(G3 & b1 & Hw3 & K3 & Hr3 & Eb1 & Hb1 & Ho3 & L3 & HG3 & Hs3 & Hn3 & Ht3)].
  { destruct (walk_error_spec 2 pgd addr pr w3 b0 0) as (w' & -> & Hp & Hi); [done|done|by apply Hm3| |done|].
    { intros _. by eapply mo_own. }
    cbn [mbind outcome_bind]. eexists _, _, _. split; [done|]. left. cbn [mem w1] in *. split_and!; [done|lia|done]. }
  destruct (walk_level_spec root G3 [PML4_INDEX addr; PDPT_INDEX addr] (PD_INDEX addr) 2 WALK_PT true pr w3 (b0, b1, 0) L3)
    as (w4 & E4 & Hc4); [cbn; lia|by repeat apply Forall_cons_2; apply table_index || apply Forall_nil_2|by apply table_index|done|done|].
  rewrite (walk_turn 3 pgd addr pr w3 w4); [|unfold walk_step; rewrite Hw3; unfold walk_pd; by rewrite E4].
  pose proof (lv_place _ _ _ _ L3) as P3. rewrite Eb1 in P3.
  destruct Hc4 as [(Hw4 & Hr4 & Ho4 & Hm4)|(G4 & b2 & Hw4 & K4 & Hr4 & Eb2 & Hb2 & Ho4 & L4 & HG4 & Hs4 & Hn4 & Ht4)].
  { destruct (walk_error_spec 1 pgd addr pr w4 b0 b1) as (w' & -> & Hp & Hi); [done|done|by apply Hm4| | |].
    { intros _. eapply mo_own; [done|by eapply lookup_weaken|done]. }
    { intros _. split; [by eapply mo_own|]. intros <-. pose proof (lookup_weaken _ _ _ _ P2 HG3) as Q. rewrite Q in P3. discriminate P3. }
    cbn [mbind outcome_bind]. eexists _, _, _. split; [done|]. left. cbn [mem w1] in *. split_and!; [done|lia|done]. }
  rewrite (walk_turn 2 pgd addr pr w4 (walk_pt addr w4)); [|unfold walk_step; by rewrite Hw4].
  rewrite (walk_turn 1 pgd addr pr (walk_pt addr w4) (walk_done (walk_pt addr w4))); [|done].
  cbn [while_loop walk_step walk walk_done mbind outcome_bind pte_ptr out_blocks mem walk_pt].
  eexists _, _, _. split; [done|]. right. pose proof L4 as [M4 Q4 R4]. rewrite Eb2 in Q4, R4.
  exists G4, b2, b0, b1. rewrite Eb2. split_and!; [by eapply keeps_own_trans, keeps_own_trans; [exact K2|exact K3|exact K4]|cbn [mem w1] in *; lia|done|by rewrite Ho4|done| |done|done| | |].
  - etrans; [exact HG2|]. by etrans; [exact HG3|exact HG4].
  - eapply same_map_trans; [exact Hs2|]. by eapply same_map_trans.
  - eapply narrows_trans; [exact Hn2|]. by eapply narrows_trans.
  - eapply tops_trans; [exact Ht2|]. by eapply tops_trans.
Qed.

(** ** Mapping *)

(** The page number that the four indices see. *)
Definition page_of (x : Z) : Z := (x / PAGE_SIZE) mod 2 ^ 36.

Lemma mod_mul_div a b c : 0 < b -> 0 < c -> (a mod (b * c)) / b = (a / b) mod c.
Proof.
  intros Hb Hc. rewrite Z.rem_mul_r by lia. rewrite Z.add_comm, Z.mul_comm, Z.div_add_l by lia.
  rewrite (Z.div_small (a mod b)) by (by apply Z.mod_pos_bound). lia.
Qed.

Lemma mod_mul_mod a b c : 0 < b -> 0 < c -> (a mod (b * c)) mod b = a mod b.
Proof.
  intros Hb Hc. rewrite Z.rem_mul_r by lia. rewrite Z.add_comm, Z.mul_comm, Z.add_comm, Z.mod_add, Z.mod_mod by lia. done.
Qed.

Lemma digit q k : 0 <= k <= 2 -> (q mod 2 ^ 36) / 512 ^ k mod 512 = q / 512 ^ k mod 512.
Proof.
  intros Hk. assert (0 < 512 ^ k) by (apply Z.pow_pos_nonneg; lia).
  assert (0 < 512 ^ (3 - k)) by (apply Z.pow_pos_nonneg; lia).
  replace (2 ^ 36) with (512 ^ k * (512 * 512 ^ (3 - k))).
  - rewrite mod_mul_div, mod_mul_mod by lia. done.
  - change (2 ^ 36) with (512 ^ 4). replace 4 with (k + (1 + (3 - k))) by lia. rewrite !Z.pow_add_r by lia. lia.
Qed.

Lemma indices_digits x :
  let q := page_of x in
  indices x = [q / 512 ^ 3; q / 512 ^ 2 mod 512; q / 512 ^ 1 mod 512; q / 512 ^ 0 mod 512].
Proof.
  cbn zeta. unfold page_of. rewrite !digit by lia.
  change (2 ^ 36) with (512 ^ 3 * 512). rewrite mod_mul_div by lia.
  unfold indices, PML4_INDEX, PDPT_INDEX, PD_INDEX, PT_INDEX, PAGE_TABLE_MASK, PAGE_SIZE.
  change 0x1FF with (Z.ones 9). rewrite !Z.land_ones, !Z.shiftr_div_pow2, !Z.div_div by lia. done.
Qed.

Lemma indices_page x y : indices x = indices y <-> page_of x = page_of y.
Proof.
  split; [|intros E; by rewrite !indices_digits, E].
  rewrite !indices_digits. intros [= E0 E1 E2 E3].
  assert (0 <= page_of x < 2 ^ 36 /\ 0 <= page_of y < 2 ^ 36) as [Hx Hy]
    by (split; apply Z.mod_pos_bound; lia).
  change (512 ^ 3) with (512 * 512 * 512) in E0. change (512 ^ 2) with (512 * 512) in E1.
  change (512 ^ 1) with 512 in E2. change (512 ^ 0) with 1 in E3. rewrite !Z.div_1_r in E3.
  rewrite <- !Z.div_div in E0, E1 by lia. dlia.
Qed.

Lemma record_blocks_spec max b0 b1 b2 l :
  Z.of_nat (length l) + 3 <= max ->
  exists l', record_blocks max (b0, b1, b2) l = Ok l' /\ (length l' <= length l + 3)%nat.
Proof.
  intros Hl. unfold record_blocks.
  enough (forall bs l, Z.of_nat (length l) + Z.of_nat (length bs) <= max ->
    exists l', for_each bs (fun b l => if negb (b =? 0) then
        if max <=? Z.of_nat (length l) then Panic else Ok (l ++ [b]) else Ok l) l = Ok l' /\
      (length l' <= length l + length bs)%nat) as Hx by (apply Hx; cbn [length]; lia).
  clear. induction bs as [|b bs IH]; intros l Hl; cbn [for_each length] in *; [exists l; split; [done|lia]|].
  destruct (negb (b =? 0)); cbn [mbind outcome_bind].
  - rewrite (proj2 (Z.leb_gt _ _)) by lia. cbn [mbind outcome_bind].
    destruct (IH (l ++ [b])) as (l' & -> & Hl'); rewrite length_app in *; cbn [length] in *; [lia|]. exists l'. split; [done|lia].
  - destruct (IH l) as (l' & -> & Hl'); [lia|]. exists l'. split; [done|lia].
Qed.

(** One page: NULL, which takes a heap with fewer than three pages left, or
    the page is mapped to its frame and no other page changes. *)
Lemma map_page_spec root G pgd va0 pa0 prot max i l s :
  let va := va0 + i * PAGE_SIZE in
  let pa := pa0 + i * PAGE_SIZE in
  mmu_ok root G s -> root = PHYS_TO_LINEAR pgd -> pgd <> 0 ->
  own_slot P (PML4_INDEX va) = true ->
  0 <= va < 2 ^ 64 -> 0 <= pa < 2 ^ 52 -> Z.of_nat (length l) + 3 <= max -> 3 <= ph_room (heap s) ->
  exists G' l' s', map_page pgd va0 pa0 prot max i (l, s) = Ok (inl (l', s')) /\
    mmu_ok root G' s' /\ keeps_own s s' /\ ph_room (heap s) - 3 <= ph_room (heap s') /\ (length l' <= length l + 3)%nat /\
    hw (tables s') root (indices va) = Some ([], pte_value (pa / PAGE_SIZE) false prot,
      meet (path_rights (tables s) root (table_path va)) (prot_rights prot)) /\
    narrows root (prot_rights (table_prot prot)) s s' /\ tops root (prot_rights (table_prot prot)) s s' /\
    forall x, page_of x <> page_of va -> hw (tables s') root (indices x) = hw (tables s) root (indices x).
Proof.
  intros va pa Hm Hroot Hpgd Hmine Hva Hpa Hl Hro. unfold map_page. fold va pa.
  rewrite !wrap_small by (unfold fits; lia). cbn iota zeta beta. change (@Some (Z * Z * Z) (0, 0, 0)) with (@Some blocks3 (0, 0, 0)).
  destruct (mmu_walk_spec root G pgd va prot (0, 0, 0) s Hm Hroot Hpgd Hmine)
    as (ptr & out' & s1 & -> & [(_ & ? & _)|(G' & a & b0 & b1 & Ko & Hro1 & -> & -> & Hm1 & HG & Ha & Hr & Hs & Hnr & Htp)]); [lia|].
  cbn [mbind outcome_bind]. pose proof (tr_addr _ _ _ _ (mo_tree _ _ _ Hm1) a _ Ha) as [Haa _].
  assert (0 <= PT_INDEX va < 512) as Hi by by apply table_index.
  rewrite (proj2 (Z.eqb_neq _ _)).
  2:{ apply table_addr_phys in Haa as (pfn & ? & _ & -> & _). unfold LINEAR_MAP_START, PAGE_SIZE. lia. }
  cbn [from_option id]. unfold id. destruct (record_blocks_spec max b0 b1 a l Hl) as (l' & -> & Hl').
  cbn [mbind outcome_bind]. destruct (load_slot root G' s1 a _ (PT_INDEX va) Hm1 Ha Hi) as (e & Ee & ->).
  cbn [mbind outcome_bind]. rewrite (tr_leaf _ _ _ _ (mo_tree _ _ _ Hm1) a _ (PT_INDEX va) e Ha Hi eq_refl Ee).
  cbn [negb]. unfold mmu_set_pte. rewrite (store_slot root G' s1 a _ (PT_INDEX va) _ Hm1 Ha Hi). cbn [mbind outcome_bind].
  rewrite Z.shiftr_div_pow2 by lia. change (2 ^ 12) with PAGE_SIZE.
  destruct (pte_value_spec (pa / PAGE_SIZE) false prot) as (_ & Hv & Hh); [unfold PAGE_SIZE; dlia|].
  set (pre := table_path va) in *. set (leaf := pte_value (pa / PAGE_SIZE) false prot) in *.
  assert (idx_ok pre) as Hpre by apply table_path_ok. pose proof Hm1 as [I1 T1 U1 O1 X1].
  assert (G' !! root = Some []) as HR by by eapply tr_root.
  set (s2 := Mmu (heap s1) (<[a + 8 * PT_INDEX va := leaf]> (tables s1))).
  assert (narrows root (prot_rights (table_prot prot)) s s2) as Hn2.
  { eapply narrows_trans; [exact Hnr|]. intros x. left. cbn [s2 tables].
    eapply (leaf_path P (tables s1) root G' a pre); [done..|apply table_path_ok|cbn; lia]. }
  assert (tops root (prot_rights (table_prot prot)) s s2) as Ht2.
  { eapply tops_trans; [exact Htp|]. intros i' e1 Hx E1. exists e1. cbn [s2 tables]. split; [|by left].
    rewrite (leaf_above P (tables s1) root G' a pre) with (p := []); try done. cbn. lia. }
  exists G', l', s2. split; [done|]. split_and!; [|exact Ko|cbn; lia|done| |exact Hn2|exact Ht2|].
  - split; [done|by eapply leaf_tree|done..].
  - change (indices va) with (pre ++ [PT_INDEX va]). rewrite (hw_reach _ root pre a); [|cbn [s2 tables]|done].
    + cbn [hw s2 tables]. rewrite lookup_insert_eq, Hv. cbn [negb]. do 2 f_equal.
      assert (entry_rights leaf = prot_rights prot) as -> by (apply entry_rights_pte; unfold PAGE_SIZE; dlia).
      destruct (Hn2 va) as [Hn2'|Hn2']; cbn [s2 tables] in Hn2'; fold pre in Hn2'; rewrite Hn2'; [done|].
      by rewrite meet_assoc, table_prot_rights.
    + erewrite (leaf_reach P (tables s1) root G' a pre); [done|done|done|done|done|exact HR|done|cbn; lia|done].
  - intros x Hx. rewrite <- Hs. eapply (leaf_hw P (tables s1) root G' a pre); [done..|apply indices_ok|done|].
    change (pre ++ [PT_INDEX va]) with (indices va). cbn [app]. rewrite indices_page. done.
Qed.

(** The pages of a mapping request are distinct for the tables. *)
Lemma page_of_distinct va n i j :
  0 <= va -> n <= 2 ^ 36 -> 0 <= i < n -> 0 <= j < n ->
  page_of (va + i * PAGE_SIZE) = page_of (va + j * PAGE_SIZE) -> i = j.
Proof.
  unfold page_of, PAGE_SIZE. intros Hv Hn Hi Hj. rewrite !Z.div_add by lia. intros E. dlia.
Qed.

(** The loop of [mmu_add_map] after [k] pages. *)
Record mapped (root va pa prot k : Z) s0 (l : list Z) s : Prop := {
  mp_ok : exists G, mmu_ok root G s;
  mp_own : keeps_own s0 s;
  mp_room : ph_room (heap s0) - 3 * k <= ph_room (heap s);
  mp_len : Z.of_nat (length l) <= 3 * k;
  mp_in : forall j, 0 <= j < k ->
    hw (tables s) root (indices (va + j * PAGE_SIZE)) = Some ([], pte_value (pa / PAGE_SIZE + j) false prot,
      meet (path_rights (tables s0) root (table_path (va + j * PAGE_SIZE))) (prot_rights prot));
  mp_narrow : narrows root (prot_rights (table_prot prot)) s0 s;
  mp_tops : tops root (prot_rights (table_prot prot)) s0 s;
  mp_out : forall x, (forall j, 0 <= j < k -> page_of x <> page_of (va + j * PAGE_SIZE)) ->
    hw (tables s) root (indices x) = hw (tables s0) root (indices x)
}.

Lemma map_pages_spec root G pgd va pa prot n s :
  mmu_ok root G s -> root = PHYS_TO_LINEAR pgd -> pgd <> 0 ->
  (forall j, 0 <= j < n -> own_slot P (PML4_INDEX (va + j * PAGE_SIZE)) = true) ->
  0 < n <= 2 ^ 36 -> 0 <= va -> va + n * PAGE_SIZE <= 2 ^ 64 -> 0 <= pa -> pa + n * PAGE_SIZE <= 2 ^ 52 ->
  3 * n <= ph_room (heap s) ->
  exists l s', for_ret (Z.to_nat n) 0 (map_page pgd va pa prot (3 * n)) ([], s) = Ok (inl (l, s')) /\
    mapped root va pa prot n s l s'.
Proof.
  intros Hm Hroot Hpgd Hmine Hn Hva Hve Hpa Hpe Hro.
  destruct (for_ret_inv (fun k '(l, s') => mapped root va pa prot k s l s') (fun _ => False)
    (Z.to_nat n) 0 (map_page pgd va pa prot (3 * n)) ([], s)) as [([l s'] & -> & HP)|(? & _ & [])].
  - split; [by eauto|by split|lia|done|lia|by apply narrows_refl|by apply tops_refl|done].
  - intros k [l s1] Hk [[G1 Hm1] K1 Hr1 Hl1 Hin Hnar Htop Hout]. left.
    destruct (map_page_spec root G1 pgd va pa prot (3 * n) k l s1)
      as (G2 & l2 & s2 & -> & Hm2 & K2 & Hr2 & Hl2 & Hk2 & Hn2 & Ht2 & Hx2);
      [done..|apply Hmine; lia|unfold PAGE_SIZE in *; lia|unfold PAGE_SIZE in *; lia|lia|lia|].
    exists (l2, s2). split; [done|]. split; [by eauto|by eapply keeps_own_trans|lia|lia| |by eapply narrows_trans|by eapply tops_trans|].
    + intros j Hj. destruct (decide (j = k)) as [->|Hne].
      * rewrite Hk2. rewrite Z.div_add by done. do 2 f_equal.
        destruct (Hnar (va + k * PAGE_SIZE)) as [->| ->]; [done|]. by rewrite meet_assoc, table_prot_rights.
      * rewrite Hx2; [apply Hin; lia|]. intros E. apply Hne. by apply (page_of_distinct va n j k); try lia.
    + intros x Hx. rewrite Hx2; [apply Hout|].
      * intros j Hj. apply Hx. lia.
      * apply Hx. lia.
  - exists l, s'. split; [done|]. by rewrite Z.add_0_l, Z2Nat.id in HP by lia.
Qed.

(** The walk with creation is total and transparent.  For every address
    and every tree of tables it returns, without touching a page that is not
    in use; with three pages left in the heap it answers the address of the
    entry of the address: the table at the first three indices, at the
    fourth, reached through valid entries.  Creating tables changes no
    translation and keeps the tree.  It answers NULL only when the heap runs
    out. *)
Theorem mmu_walk_correct root G pgd addr prot out s :
  mmu_ok root G s -> root = PHYS_TO_LINEAR pgd -> pgd <> 0 -> own_slot P (PML4_INDEX addr) = true ->
  exists ptr out' s', mmu_walk pgd addr true prot (Some out) s = Ok (ptr, out', s') /\
    (3 <= ph_room (heap s) ->
     exists G' a, ptr = a + 8 * PT_INDEX addr /\ mmu_ok root G' s' /\
       reach (tables s') root (table_path addr) = Some a /\
       same_map root s s' /\ ph_room (heap s) - 3 <= ph_room (heap s')).
Proof.
  intros Hm Hr Hp Hown. destruct (mmu_walk_spec root G pgd addr prot out s Hm Hr Hp Hown) as (ptr & out' & s' & E & Hc).
  exists ptr, out', s'. split; [done|]. intros Hro.
  destruct Hc as [(_ & ? & _)|(G' & a & b0 & b1 & Ko & Hro1 & -> & _ & Hm1 & _ & _ & Hr1 & Hs & _)]; [lia|].
  exists G', a. split_and!; [done..|lia].
Qed.

(** mmu_add_map with aligned arguments: without the array -ENOMEM, with room
    for the tables the whole request is mapped. *)
Lemma mmu_add_map_spec root G pgd va pa n prot s :
  mmu_ok root G s -> root = PHYS_TO_LINEAR pgd -> pgd <> 0 ->
  (forall j, 0 <= j < n -> own_slot P (PML4_INDEX (va + j * PAGE_SIZE)) = true) ->
  0 < n <= 2 ^ 36 -> 0 <= va -> va + n * PAGE_SIZE <= 2 ^ 64 -> 0 <= pa -> pa + n * PAGE_SIZE <= 2 ^ 52 ->
  va mod PAGE_SIZE = 0 -> pa mod PAGE_SIZE = 0 ->
  exists arr h, ph_alloc (24 * n) (heap s) = Ok (arr, h) /\ keeps_own s (set_heap s h) /\
    (arr = 0 -> mmu_add_map pgd va pa n prot s = Ok (- ENOMEM, None, set_heap s h)) /\
    (arr <> 0 -> 3 * n <= ph_room h ->
     exists l s', mmu_add_map pgd va pa n prot s = Ok (0, Some (Ptb arr l), s') /\
       mapped root va pa prot n (set_heap s h) l s').
Proof.
  intros Hm Hroot Hpgd Hmine Hn Hva Hve Hpa Hpe Hav Hap.
  destruct (ph_alloc_ok (heap s) (24 * n)) as (arr & h & Ea & Hi & Hk & _); [apply Hm|lia|].
  destruct (ph_alloc_used (heap s) (24 * n) arr h) as [Hu _]; [apply Hm|lia|done|].
  assert (keeps_own s (set_heap s h)) as Hko by by split.
  exists arr, h. split; [done|]. split; [exact Hko|].
  assert (mmu_add_map pgd va pa n prot s =
    if arr =? 0 then Ok (- ENOMEM, None, set_heap s h)
    else r ← for_ret (Z.to_nat n) 0 (map_page pgd va pa prot (3 * n)) ([], set_heap s h);
      match r with
      | inr (l, s) => s ← release_blocks l s; h ← ph_free arr (heap s); Ok (- ENOMEM, None, set_heap s h)
      | inl (l, s) => Ok (0, Some (Ptb arr l), s)
      end) as E.
  { unfold mmu_add_map. rewrite (proj2 (Z.eqb_neq _ _) Hpgd), (proj2 (Z.eqb_neq _ _)) by lia.
    change (PAGE_SIZE - 1) with (Z.ones 12). rewrite !Z.land_ones by lia. change (2 ^ 12) with PAGE_SIZE.
    rewrite Hav, Hap. cbn [negb orb Z.eqb]. cbn zeta.
    rewrite (wrap_small 64 (n * 3)) by (unfold fits; lia). rewrite wrap_small by (unfold fits; lia).
    replace (n * 3 * 8) with (24 * n) by lia. rewrite Ea. cbn [mbind outcome_bind]. by rewrite (Z.mul_comm n 3). }
  rewrite E. split; [by intros ->|]. intros Hne Hro. rewrite (proj2 (Z.eqb_neq _ _) Hne).
  destruct (map_pages_spec root G pgd va pa prot n (set_heap s h)) as (l & s' & -> & Hmp);
    [by apply mmu_ok_heap|done..|].
  cbn [mbind outcome_bind]. by exists l, s'.
Qed.

(** C3: mapping maps exactly what was asked.  For aligned addresses in the
    directory's own slots, after [mmu_add_map] the processor translates page
    [j] of the request to frame [paddr / 4096 + j] with the entry for the
    requested protection, for every [j] below [page_count], and every other
    page of the whole directory as before, the pages under shared slots and
    their huge entries included; the own tables are again a tree of pages in
    use.  What the processor allows on a new page is what the protection asks
    for and what every table allows that was on the way before: the tables
    that the call makes take nothing away, but those of an earlier call with
    fewer rights do.  It needs the array for the table list and three heap
    pages per page; without the array it answers -ENOMEM and leaves the tables
    alone. *)
Theorem mmu_add_map_correct root G pgd va pa n prot s :
  mmu_ok root G s -> root = PHYS_TO_LINEAR pgd -> pgd <> 0 ->
  (forall j, 0 <= j < n -> own_slot P (PML4_INDEX (va + j * PAGE_SIZE)) = true) ->
  0 < n <= 2 ^ 36 -> 0 <= va -> va + n * PAGE_SIZE <= 2 ^ 64 -> 0 <= pa -> pa + n * PAGE_SIZE <= 2 ^ 52 ->
  va mod PAGE_SIZE = 0 -> pa mod PAGE_SIZE = 0 ->
  exists arr h, ph_alloc (24 * n) (heap s) = Ok (arr, h) /\
    (arr = 0 -> mmu_add_map pgd va pa n prot s = Ok (- ENOMEM, None, set_heap s h)) /\
    (arr <> 0 -> 3 * n <= ph_room h ->
     exists l s', mmu_add_map pgd va pa n prot s = Ok (0, Some (Ptb arr l), s') /\
       (exists G', mmu_ok root G' s') /\
       (forall j, 0 <= j < n -> let x := va + j * PAGE_SIZE in
          hw (tables s') root (indices x) = Some ([], pte_value (pa / PAGE_SIZE + j) false prot,
            meet (path_rights (tables s) root (table_path x)) (prot_rights prot))) /\
       (forall x, (forall j, 0 <= j < n -> page_of x <> page_of (va + j * PAGE_SIZE)) ->
          hw (tables s') root (indices x) = hw (tables s) root (indices x))).
Proof.
  intros Hm Hroot Hpgd Hmine Hn Hva Hve Hpa Hpe Hav Hap.
  destruct (mmu_add_map_spec root G pgd va pa n prot s) as (arr & h & Ea & _ & Hz & Hc); [done..|].
  exists arr, h. split; [done|]. split; [done|]. intros Hne Hro. destruct (Hc Hne Hro) as (l & s' & E & [HG _ _ _ Hin _ _ Hout]).
  exists l, s'. split_and!; done.
Qed.

(** One page, with four heap pages left. *)
Lemma map_one root G pgd va pa prot s :
  mmu_ok root G s -> root = PHYS_TO_LINEAR pgd -> pgd <> 0 -> own_slot P (PML4_INDEX va) = true ->
  0 <= va -> va + PAGE_SIZE <= 2 ^ 64 -> 0 <= pa -> pa + PAGE_SIZE <= 2 ^ 52 ->
  va mod PAGE_SIZE = 0 -> pa mod PAGE_SIZE = 0 -> 4 <= ph_room (heap s) ->
  exists arr l s', mmu_add_map pgd va pa 1 prot s = Ok (0, Some (Ptb arr l), s') /\
    (exists G', mmu_ok root G' s') /\ keeps_own s s' /\ ph_room (heap s) - 4 <= ph_room (heap s') /\
    hw (tables s') root (indices va) = Some ([], pte_value (pa / PAGE_SIZE) false prot,
      meet (path_rights (tables s) root (table_path va)) (prot_rights prot)) /\
    tops root (prot_rights (table_prot prot)) s s' /\
    forall x, page_of x <> page_of va -> hw (tables s') root (indices x) = hw (tables s) root (indices x).
Proof.
  intros Hm Hroot Hpgd Hmine Hva Hve Hpa Hpe Hav Hap Hroom.
  destruct (mmu_add_map_spec root G pgd va pa 1 prot s Hm Hroot Hpgd) as (arr & h & Ea & Hk & _ & Hc); try lia.
  { intros j Hj. replace j with 0 by lia. by rewrite Z.mul_0_l, Z.add_0_r. }
  destruct (ph_alloc_ok (heap s) (24 * 1)) as (arr' & h' & Ea' & _ & _ & _ & Hro); [apply Hm|lia|].
  rewrite Ea in Ea'. injection Ea' as <- <-. destruct Hro as [Harr Hro]; [unfold PAGE_SIZE; lia|lia|].
  destruct (Hc Harr) as (l & s' & E & [HG Ho Hr _ Hin _ Ht Hout]); [lia|].
  exists arr, l, s'. specialize (Hin 0 ltac:(lia)). rewrite Z.mul_0_l, !Z.add_0_r in Hin.
  split_and!; [done|done|by eapply keeps_own_trans|cbn in *; lia|done|done|].
  intros x Hx. apply Hout. intros j Hj. replace j with 0 by lia. by rewrite Z.mul_0_l, Z.add_0_r.
Qed.

(** A read-only mapping takes the right to write away from its
    neighbours.  The tables that [mmu_add_map] makes get the protection of the
    page they are made for, and later calls use them as they are.  When the
    first page mapped in a 512 GB slot of a directory is read-only, a page
    mapped writable in the same slot afterwards has a writable entry, and the
    call answers success, but the processor lets nobody write to it. *)
Theorem read_only_table_sticks root G pgd va vb pa pb prot1 prot2 s e0 :
  mmu_ok root G s -> root = PHYS_TO_LINEAR pgd -> pgd <> 0 -> own_slot P (PML4_INDEX va) = true ->
  tables s !! (root + 8 * PML4_INDEX va) = Some e0 -> PTE_IS_VALID e0 = false ->
  PML4_INDEX vb = PML4_INDEX va ->
  0 <= va -> va + PAGE_SIZE <= 2 ^ 64 -> 0 <= vb -> vb + PAGE_SIZE <= 2 ^ 64 -> va mod PAGE_SIZE = 0 -> vb mod PAGE_SIZE = 0 ->
  0 <= pa -> pa + PAGE_SIZE <= 2 ^ 52 -> 0 <= pb -> pb + PAGE_SIZE <= 2 ^ 52 -> pa mod PAGE_SIZE = 0 -> pb mod PAGE_SIZE = 0 ->
  Z.land prot1 VM_WRITE = 0 -> Z.land prot2 VM_WRITE <> 0 -> 8 <= ph_room (heap s) ->
  exists b1 s1 b2 s2 e r, mmu_add_map pgd va pa 1 prot1 s = Ok (0, b1, s1) /\ mmu_add_map pgd vb pb 1 prot2 s1 = Ok (0, b2, s2) /\
    hw (tables s2) root (indices vb) = Some ([], e, r) /\ e = pte_value (pb / PAGE_SIZE) false prot2 /\
    (entry_rights e).1.1 = true /\ r.1.1 = false.
Proof.
  intros Hm Hroot Hpgd Hmine E0 V0 Eb Ha1 Ha2 Hb1 Hb2 Ha3 Hb3 Pa1 Pa2 Pb1 Pb2 Pa3 Pb3 W1 W2 Hroom.
  destruct (map_one root G pgd va pa prot1 s) as (arr & l & s1 & E1 & [G1 Hm1] & _ & Hr1 & Hw1 & Ht1 & _); try done; [lia|].
  destruct (map_one root G1 pgd vb pb prot2 s1) as (arr2 & l2 & s2 & E2 & _ & _ & _ & Hw2 & _); try done; [by rewrite Eb|lia|].
  eexists _, s1, _, s2, _, _. split; [exact E1|]. split; [exact E2|]. split; [exact Hw2|]. split; [done|].
  assert (0 <= PML4_INDEX va < 512) as Hi by by apply table_index.
  destruct (Ht1 _ _ Hi E0) as (e & Ee & He).
  assert (PTE_IS_VALID e = true) as Hv.
  { unfold indices in Hw1. cbn [hw] in Hw1. rewrite Ee in Hw1. by destruct (PTE_IS_VALID e). }
  destruct He as [->|(_ & _ & Hr)]; [congruence|].
  destruct (tr_next _ _ _ _ (mo_tree _ _ _ Hm1) root [] (PML4_INDEX va) e) as [Hh _];
    [by eapply tr_root, mo_tree|done|cbn; lia|done|done|done|]. split.
  - rewrite entry_rights_pte by (unfold PAGE_SIZE in *; dlia). cbn. by rewrite (proj2 (Z.eqb_neq _ _) W2).
  - unfold table_path. cbn [path_rights]. rewrite Eb, Ee, Hv, Hh. cbn [negb andb]. rewrite Hr.
    unfold meet, prot_rights, table_prot. cbn [fst snd].
    replace (Z.land (Z.lor (Z.land prot1 (Z.lor VM_WRITE VM_USER)) VM_EXEC) VM_WRITE) with 0; [done|].
    rewrite Z.land_lor_distr_l, <- Z.land_assoc. change (Z.land (Z.lor VM_WRITE VM_USER) VM_WRITE) with VM_WRITE.
    by rewrite W1.
Qed.

End walk.
