(* ===== verification/MmuHeap.v ===== *)
(** * The page tables on the kernel heap

    heap.c over buddy.c discharges the interface that the page table theorems
    are proved against: while a page is free a page request succeeds, and the
    table pages stay in use.  The last part shows what unmapping does with
    the pages it frees. *)

From S2P Require Import Prelude Bitmap Buddy BuddyInv BuddySteps BuddyAlloc BuddyFree BuddySpec Heap Mmu MmuSpec.

Local Open Scope Z_scope.

(** The frame of an address is part of an extent in use. *)
Definition frame_used (s : pmm) (a : Z) : bool :=
  match blocks s !! addr_pfn a with Some b => negb (is_free b) | None => false end.

#[export] Instance kernel_heap : PageHeap pmm := {
  ph_alloc n s := _kheap_alloc n ZONE_NORMAL s;
  ph_free := kheap_free;
  ph_add_ref := kheap_add_ref_count;
  ph_set_pte := kheap_set_on_pte_ptr;
  ph_get_pte := kheap_get_on_pte_ptr;
  ph_used := frame_used
}.

Definition heap_inv (s : pmm) : Prop := pmm_inv s /\ refs_ok (blocks s).

Definition page_own (s : pmm) (a : Z) : Prop :=
  exists p z, 0 < p /\ live s p 0 z /\ a = PHYS_TO_LINEAR (p * PAGE_SIZE).

(** Every zone has pages, and frame 0, whose number means failure, is in use. *)
Definition zones_ready (s : pmm) : bool :=
  forallb (fun z => match zones s !! z with Some d => start_pfn d <? end_pfn d | None => false end) [0; 1; 2] &&
  negb (page_free (blocks s) 0).

Definition room (s : pmm) : Z := if zones_ready s then free_total (free_areas s) else 0.

(** ** Lemmas *)

Lemma page_own_pfn s a : pmm_inv s -> page_own s a ->
  exists p z, live s p 0 z /\ 0 < p < 2 ^ 31 /\ a = PHYS_TO_LINEAR (p * PAGE_SIZE) /\
    forall i, 0 <= i < PAGE_SIZE -> addr_pfn (a + i) = p.
Proof.
  intros Hi (p & z & Hp & B & ->). exists p, z. pose proof (live_in_array s p 0 z Hi B). pose proof (inv_max s Hi).
  split_and!; [done|lia|lia|done|]. intros i Hx.
  destruct (table_addr_phys (PHYS_TO_LINEAR (p * PAGE_SIZE))) as (q & Hq & _ & Ea & _); [exists p; split; [lia|done]|].
  assert (PHYS_TO_LINEAR (p * PAGE_SIZE) = LINEAR_MAP_START + p * PAGE_SIZE) as ->.
  { unfold PHYS_TO_LINEAR, LINEAR_MAP_START, PAGE_SIZE. rewrite wrap_small by (unfold fits; lia). lia. }
  unfold addr_pfn, LINEAR_TO_PHYS. replace (LINEAR_MAP_START + p * PAGE_SIZE + i - LINEAR_MAP_START) with (p * PAGE_SIZE + i) by lia.
  unfold PAGE_SIZE, PAGE_SHIFT in *. rewrite wrap_small, Z.shiftr_div_pow2 by (unfold fits; lia).
  change (2 ^ 12) with 4096. dlia.
Qed.

Lemma page_own_base s a : pmm_inv s -> page_own s a ->
  exists p z, live s p 0 z /\ 0 < p < 2 ^ 31 /\ a = PHYS_TO_LINEAR (p * PAGE_SIZE) /\ addr_pfn a = p /\ a <> 0.
Proof.
  intros Hi Ho. destruct (page_own_pfn s a Hi Ho) as (p & z & B & Hp & Ea & Hx).
  exists p, z. split_and!; [done|lia|lia|done| |].
  - rewrite <- (Z.add_0_r a). apply Hx. unfold PAGE_SIZE. lia.
  - rewrite Ea. unfold PHYS_TO_LINEAR, LINEAR_MAP_START, PAGE_SIZE. rewrite wrap_small by (unfold fits; lia). lia.
Qed.

Lemma unallocated_own s s' a : unallocated s s' -> page_own s a -> page_own s' a.
Proof. intros Hu (p & z & Hp & B & ->). exists p, z. split_and!; [done| |done]. by apply (un_live s s' Hu). Qed.

(** Frame 0 stays in use as long as its extent is live. *)
Lemma frame0_live s s' : pmm_inv s -> pmm_inv s' -> (forall h o z, live s h o z -> live s' h o z) ->
  page_free (blocks s) 0 = false -> page_free (blocks s') 0 = false.
Proof.
  intros Hi Hi' Hl Hf. pose proof (inv_max s Hi).
  destruct (inv_cover s Hi 0) as (p & o & z & fr & B & Hr); [lia|]. pose proof B as (? & ? & ? & _).
  assert (p = 0) as -> by lia. destruct (is_block_self _ _ _ _ _ B) as (b & E & Hb & _).
  unfold page_free in Hf |- *. rewrite E, Hb in Hf. subst fr. apply Hl in B.
  destruct (is_block_self _ _ _ _ _ B) as (b' & E' & Hb' & _). by rewrite E', Hb'.
Qed.

Lemma zones_ready_mono s s' : pmm_inv s -> pmm_inv s' -> (forall h o z, live s h o z -> live s' h o z) ->
  zones s' = zones s -> zones_ready s = true -> zones_ready s' = true.
Proof.
  unfold zones_ready. intros Hi Hi' Hl -> [H1 H2]%andb_true_iff. rewrite H1. cbn [andb].
  apply negb_true_iff. apply negb_true_iff in H2. exact (frame0_live s s' Hi Hi' Hl H2).
Qed.

Lemma unallocated_room s s' : pmm_inv s -> unallocated s s' -> room s <= room s'.
Proof.
  intros Hi [Hi' Hl Ht [_ Hz]]. unfold room. pose proof (free_total_bound s' Hi').
  destruct (zones_ready s) eqn:E; [|destruct (zones_ready s'); lia].
  rewrite (zones_ready_mono s s'); [lia|done|done|by intros h o z B; apply Hl|done|done].
Qed.

(** A zone that cannot serve a page has no free page, and the attempt changes
    nothing. *)
Lemma alloc_zone_empty s z s' :
  pmm_inv s -> zones_ready s = true -> 0 <= z <= ZONE_NORMAL -> pmm_alloc_pages 0 z s = Ok (0, s') ->
  s' = s /\ forall o, 0 <= o < MAX_ORDER -> free_areas s !! (z, o) = Some [].
Proof.
  intros Hi Hr Hz E. apply andb_true_iff in Hr as [Hr H0]. apply negb_true_iff in H0.
  assert (exists d, zones s !! z = Some d /\ start_pfn d < end_pfn d) as (d & Ed & Hd).
  { unfold ZONE_NORMAL in Hz. cbn [forallb] in Hr. rewrite andb_true_r in Hr.
    apply andb_true_iff in Hr as [R0 R1]. apply andb_true_iff in R1 as [R1 R2].
    assert (z = 0 \/ z = 1 \/ z = 2) as [->|[->| ->]] by lia;
      [destruct (zones s !! 0)|destruct (zones s !! 1)|destruct (zones s !! 2)]; try done; zbool; by eauto. }
  unfold pmm_alloc_pages in E. replace (_ || _) with false in E by (unfold MAX_ORDER, ZONE_NORMAL in *; lia).
  rewrite Ed in E. cbn [deref mbind outcome_bind] in E. replace (_ <=? _) with false in E by lia.
  destruct (find_free_block_spec s 0 z Hi) as [[F He]|(p & fo & l & F & Hfo & B & _)];
    [unfold MAX_ORDER; lia|done| |]; rewrite F in E; cbn [mbind outcome_bind] in E.
  - injection E as <-. done.
  - destruct (split_down_spec s p fo 0 z Hi) as (s1 & E1 & Hi1 & _ & B1 & _); [lia|done|].
    rewrite E1 in E. cbn [mbind outcome_bind] in E.
    assert (p <> 0) as Hp.
    { intros ->. destruct (is_block_self _ _ _ _ _ B) as (b & Eb & Hb & _). unfold page_free in H0. rewrite Eb, Hb in H0. done. }
    rewrite (proj2 (Z.eqb_neq _ _) Hp) in E.
    destruct (take_spec s1 p 0 z Hi1 B1) as (s2 & E2 & _). rewrite E2 in E. cbn [mbind outcome_bind] in E.
    rewrite (proj2 (Z.eqb_neq _ _) Hp) in E. by injection E as ?.
Qed.

(** No free page on any list. *)
Lemma free_total_empty fa :
  (forall z o, 0 <= z <= ZONE_NORMAL -> 0 <= o < MAX_ORDER -> fa !! (z, o) = Some []) -> free_total fa = 0.
Proof.
  intros He. unfold free_total.
  assert (forall k, k ∈ all_areas -> area_pages fa k = 0) as Hk.
  { intros [z o] Hk. unfold area_pages. cbn [snd].
    assert (0 <= z <= ZONE_NORMAL /\ 0 <= o < MAX_ORDER) as [Hz Ho].
    { unfold all_areas in Hk. apply list_elem_of_bind in Hk as (z' & Hk & Hz'). apply list_elem_of_fmap in Hk as (n & [= -> ->] & Hn).
      apply elem_of_seq in Hn. unfold ZONE_NORMAL, MAX_ORDER. split; [|lia].
      repeat (apply elem_of_cons in Hz' as [->|Hz']; [lia|]). by apply not_elem_of_nil in Hz'. }
    rewrite He by done. cbn. lia. }
  induction all_areas as [|k ks IH]; [done|]. cbn [foldr]. rewrite Hk by left. rewrite IH; [done|].
  intros k' Hk'. apply Hk. by right.
Qed.

Lemma frame_addr_nonzero p : 0 <= p < 2 ^ 31 -> PHYS_TO_LINEAR (u64 (Z.shiftl p PAGE_SHIFT)) <> 0.
Proof.
  intros Hp. unfold PHYS_TO_LINEAR, LINEAR_MAP_START, PAGE_SHIFT. rewrite Z.shiftl_mul_pow2 by lia.
  change (2 ^ 12) with 4096. rewrite !wrap_small by (unfold fits; try rewrite wrap_small; unfold fits; lia). lia.
Qed.

Lemma size_to_order_page n : 0 < n <= PAGE_SIZE -> size_to_order n = 0.
Proof.
  unfold PAGE_SIZE. intros Hn. destruct (size_to_order_spec n) as (Ho & _ & [->|Hlt]); [lia|done|].
  unfold PAGE_SIZE in Hlt. destruct (Z.le_gt_cases (size_to_order n) 0); [lia|].
  pose proof (Z.pow_pos_nonneg 2 (size_to_order n - 1)). lia.
Qed.

(** With a page free, a request of at most a page succeeds. *)
Lemma kheap_page_total s n : pmm_inv s -> 0 < n <= PAGE_SIZE -> 0 < room s ->
  exists a s', _kheap_alloc n ZONE_NORMAL s = Ok (a, s') /\ a <> 0.
Proof.
  intros Hi Hn Hr. unfold room in Hr. destruct (zones_ready s) eqn:Hz; [|lia].
  unfold _kheap_alloc. rewrite (proj2 (Z.eqb_neq _ _)), size_to_order_page by lia.
  change (MAX_ORDER <=? 0) with false. cbn iota. change (Z.to_nat (ZONE_NORMAL - ZONE_DMA + 1)) with 3%nat.
  match goal with |- context [for_ret ?n ?i ?b ?s0] =>
    destruct (for_ret_inv (fun k s1 => s1 = s /\ forall z o, ZONE_NORMAL - k < z <= ZONE_NORMAL -> 0 <= o < MAX_ORDER ->
        free_areas s !! (z, o) = Some [])
      (fun r => 0 < r.1 < 2 ^ 31) n i b s0) as [(s1 & E & -> & He)|([p s1] & E & Hp)] end.
  - split; [done|]. intros z o Hx. lia.
  - intros k s1 Hk [-> He]. unfold ZONE_NORMAL in *.
    destruct (pmm_alloc_pages_total s 0 (2 - k) Hi) as (p & s2 & E & Hc); [lia|lia|].
    rewrite E. cbn [mbind outcome_bind]. destruct Hc as [[-> _]|[Hp Ha]].
    + left. exists s2. split; [done|].
      destruct (alloc_zone_empty s (2 - k) s2 Hi Hz) as [-> He2]; [unfold ZONE_NORMAL; lia|done|].
      split; [done|]. intros z o Hx Ho. destruct (decide (z = 2 - k)) as [->|]; [by apply He2|apply He; lia].
    + right. exists (p, s2). rewrite (proj2 (Z.eqb_neq _ _) Hp). split; [done|]. cbn [fst].
      pose proof (live_in_array s2 p 0 _ (al_inv _ _ _ _ _ Ha) (al_block _ _ _ _ _ Ha)).
      pose proof (inv_max s2 (al_inv _ _ _ _ _ Ha)). lia.
  - exfalso. rewrite (free_total_empty (free_areas s)) in Hr; [lia|]. intros z o Hz' Ho. apply He; [unfold ZONE_NORMAL in *; lia|done].
  - rewrite E. cbn [mbind outcome_bind fst] in *. rewrite (proj2 (Z.eqb_neq _ _)) by lia.
    eexists _, s1. split; [done|]. apply frame_addr_nonzero. lia.
Qed.

Lemma kheap_alloc_refs n zn s a s' : refs_ok (blocks s) -> _kheap_alloc n zn s = Ok (a, s') -> refs_ok (blocks s').
Proof.
  intros Hr E. unfold _kheap_alloc in E. destruct (n =? 0); [by inv_ok|]. destruct (_ <=? _); [by inv_ok|]. inv_ok.
  apply (for_ret_keeps (fun s => refs_ok (blocks s)) (fun x : Z * pmm => refs_ok (blocks x.2))) in E0; [| |done].
  - destruct r as [s1|[p s1]]; cbn in *; [by inv_ok|]. destruct (p =? 0); by inv_ok.
  - intros k s1 r1 H1 E1. inv_ok. destruct r0 as [p s2]. inv_ok. apply pmm_alloc_refs in E2; [|done].
    by destruct (negb (p =? 0)).
Qed.

(** ** The laws *)

Lemma heap_alloc_ok s n : heap_inv s -> 0 < n <= 2 ^ 64 - 4096 ->
  exists a s', _kheap_alloc n ZONE_NORMAL s = Ok (a, s') /\ heap_inv s' /\
    (forall b, page_own s b -> page_own s' b) /\
    (a <> 0 -> n <= PAGE_SIZE -> ~ page_own s a /\ page_own s' a) /\
    (n <= PAGE_SIZE -> 0 < room s -> a <> 0 /\ room s - 1 <= room s').
Proof.
  intros [Hi Hr] Hn. destruct (kheap_alloc_spec s n ZONE_NORMAL Hi) as (a & s' & E & Hc); [lia|unfold ZONE_NORMAL; lia|].
  exists a, s'. split; [done|]. assert (refs_ok (blocks s')) as Hr' by by eapply kheap_alloc_refs.
  destruct Hc as [[-> Hu]|(p & z & Ea & Hp & Hz & Ho & s1 & Hu & Ha)].
  - split_and!; [split; [apply Hu|done]|by intros b; apply unallocated_own|done|].
    intros Hle Hro. destruct (kheap_page_total s n Hi ltac:(lia) Hro) as (a & s2 & E2 & Ha). rewrite E in E2. by injection E2 as <- <-.
  - pose proof Ha as [AI AB AL AF _ _ AT [_ AZ]].
    pose proof (live_in_array s' p _ _ AI AB) as Hrng. pose proof (inv_max s' AI).
    assert (a = PHYS_TO_LINEAR (p * PAGE_SIZE)) as Ea'.
    { rewrite Ea. f_equal. unfold PAGE_SHIFT. rewrite Z.shiftl_mul_pow2 by lia. change (2 ^ 12) with PAGE_SIZE.
      apply wrap_small. unfold fits, PAGE_SIZE. lia. }
    assert (forall b, page_own s b -> page_own s' b) as Hk.
    { intros b Hb. apply (unallocated_own s s1 b Hu) in Hb as (q & z' & Hq & B & ->).
      exists q, z'. split_and!; [done| |done]. apply AL. by left. }
    split_and!; [by split|done| |].
    + intros _ Hle. rewrite (size_to_order_page n) in * by lia. split.
      * intros Hown. apply (unallocated_own s s1 _ Hu) in Hown.
        destruct (page_own_base s1 a (un_inv _ _ Hu) Hown) as (q & z' & B & Hq & Eq & Hpf & _).
        destruct (page_own_base s' a AI) as (p' & z2 & _ & _ & _ & Hpf' & _).
        { exists p, z. split_and!; [lia|done|done]. }
        destruct (page_own_pfn s' a AI) as (p2 & z3 & _ & _ & _ & Hx); [exists p, z; split_and!; [lia|done|done]|].
        assert (q = p) as ->.
        { rewrite Ea' in Eq. unfold PHYS_TO_LINEAR, LINEAR_MAP_START, PAGE_SIZE in Eq.
          rewrite !wrap_small in Eq by (unfold fits; lia). lia. }
        destruct (AF p 0 z' B); change (2 ^ 0) with 1 in *; lia.
      * exists p, z. split_and!; [lia|done|done].
    + intros Hle Hro. rewrite (size_to_order_page n) in * by lia. change (2 ^ 0) with 1 in AT. split.
      * rewrite Ea. apply frame_addr_nonzero. lia.
      * pose proof (unallocated_room s s1 Hi Hu) as H1. pose proof (free_total_bound s' AI).
        unfold room in *. destruct (zones_ready s1) eqn:Ez; [|destruct (zones_ready s); destruct (zones_ready s'); lia].
        rewrite (zones_ready_mono s1 s'); [|apply Hu|done| |done|done].
        -- destruct (zones_ready s); lia.
        -- intros h o' z' B. apply AL. by left.
Qed.

(** A change of counters on an owned page. *)
Lemma heap_upd_ok s a f : heap_inv s -> page_own s a -> keeps_shape f -> keeps_refs f ->
  exists s', upd_whole_block (addr_pfn a) f s = Ok s' /\ heap_inv s' /\ (forall b, page_own s b -> page_own s' b) /\
    room s <= room s' /\ a <> 0.
Proof.
  intros [Hi Hr] Hown Hf Hg. destruct (page_own_base s a Hi Hown) as (p & z & B & _ & _ & -> & Hn).
  destruct (upd_whole_block_spec s p 0 z false f Hi Hr B Hf Hg) as (s' & E & Hu & Hr').
  exists s'. split_and!; [done|split; [apply Hu|done]|by intros b; apply unallocated_own|by apply unallocated_room|done].
Qed.

Lemma heap_add_ref_ok s a : heap_inv s -> page_own s a ->
  exists s', kheap_add_ref_count a s = Ok s' /\ heap_inv s' /\ (forall b, page_own s b -> page_own s' b) /\ room s <= room s'.
Proof.
  intros Hi Hown. destruct (heap_upd_ok s a (fun b => with_ref_count b (ref_count b + 1)) Hi Hown)
    as (s' & E & Hi' & Hk & Hr & Hn); [done|intros b _; apply fits_u32|].
  exists s'. unfold kheap_add_ref_count. rewrite (proj2 (Z.eqb_neq _ _) Hn). done.
Qed.

Lemma heap_set_pte_ok s a q : heap_inv s -> page_own s a ->
  exists s', kheap_set_on_pte_ptr a q s = Ok s' /\ heap_inv s' /\ (forall b, page_own s b -> page_own s' b) /\ room s <= room s'.
Proof.
  intros Hi Hown. destruct (heap_upd_ok s a (fun b => with_on_pte_ptr b q) Hi Hown)
    as (s' & E & Hi' & Hk & Hr & Hn); [done|by intros b ?|].
  exists s'. unfold kheap_set_on_pte_ptr. rewrite (proj2 (Z.eqb_neq _ _) Hn). done.
Qed.

(** The first page of an extent of any size. *)
Definition page_block (s : pmm) (a : Z) : Prop :=
  exists p o z, 0 < p /\ live s p o z /\ a = PHYS_TO_LINEAR (p * PAGE_SIZE).

Lemma page_own_block s a : page_own s a -> page_block s a.
Proof. intros (p & z & Hp & B & ->). by exists p, 0, z. Qed.

Lemma heap_free_ok s a : heap_inv s -> page_block s a ->
  exists s', kheap_free a s = Ok s' /\ heap_inv s' /\ (forall b, b <> a -> page_own s b -> page_own s' b) /\
    (forall b, b <> a -> page_block s b -> page_block s' b).
Proof.
  intros [Hi Hr] (p & o0 & z & Hp & B & Ea). pose proof (live_in_array s p o0 z Hi B) as Hrng. pose proof (inv_max s Hi).
  destruct (table_addr_phys a) as (q & Hq & Eq & Ea2 & _ & Hsh); [exists p; split; [lia|done]|].
  assert (q = p) as ->.
  { rewrite Ea in Ea2. unfold PHYS_TO_LINEAR, LINEAR_MAP_START, PAGE_SIZE in Ea2. rewrite wrap_small in Ea2 by (unfold fits; lia). lia. }
  assert (a <> 0) as Hn by (rewrite Ea2; unfold LINEAR_MAP_START, PAGE_SIZE; lia).
  unfold kheap_free. rewrite (proj2 (Z.eqb_neq _ _) Hn).
  change (addr_pfn a) with (Z.shiftr (LINEAR_TO_PHYS a) 12). rewrite Hsh.
  destruct (pmm_free_pages_total s p Hi Hrng (fun b => Hr p b)) as (s' & E & HF).
  exists s'. split; [done|]. split; [split; [by eapply free_result_inv|by eapply pmm_free_refs]|].
  assert (forall q o' z', PHYS_TO_LINEAR (q * PAGE_SIZE) <> a -> live s q o' z' -> live s' q o' z') as Hkeep.
  { intros q o' z' Hb B'. destruct HF as [_ ->|bb o zz _ _ _ Hu|bb o zz _ _ _ [_ HL _ _]]; [done|by apply (un_live _ _ Hu)|].
    apply HL. split; [done|]. intros ->. congruence. }
  split.
  - intros b Hb (q & z' & Hq' & B' & ->). exists q, z'. split_and!; [done|by apply Hkeep|done].
  - intros b Hb (q & o' & z' & Hq' & B' & ->). exists q, o', z'. split_and!; [done|by apply Hkeep|done].
Qed.

(** An address is in use when its frame is in a live extent. *)
Lemma frame_used_live s x : pmm_inv s ->
  frame_used s x = true <-> exists h o z, live s h o z /\ h <= addr_pfn x < h + 2 ^ o.
Proof.
  intros Hi. unfold frame_used. split.
  - destruct (blocks s !! addr_pfn x) as [b|] eqn:E; [|done]. intros Hf%negb_true_iff.
    assert (0 <= addr_pfn x <= max_pfn s) as Hrng by (apply (inv_dom s Hi); by eexists).
    destruct (inv_cover s Hi (addr_pfn x)) as (h & o & z & fr & B & Hh); [lia|].
    destruct (is_block_lookup _ _ _ _ _ _ B Hh) as (b' & E' & Hf' & _). rewrite E in E'. injection E' as <-.
    rewrite Hf' in Hf. subst fr. by exists h, o, z.
  - intros (h & o & z & B & Hh). destruct (is_block_lookup _ _ _ _ _ _ B Hh) as (b' & -> & -> & _). done.
Qed.

Lemma frame_used_mono s s' x : pmm_inv s -> pmm_inv s' -> (forall h o z, live s h o z -> live s' h o z) ->
  frame_used s x = true -> frame_used s' x = true.
Proof.
  intros Hi Hi' Hl. rewrite !frame_used_live by done. intros (h & o & z & B & Hh). exists h, o, z. auto.
Qed.

Lemma heap_alloc_used s n a s' : heap_inv s -> 0 < n <= 2 ^ 64 - 4096 -> _kheap_alloc n ZONE_NORMAL s = Ok (a, s') ->
  (forall x, frame_used s x = true -> frame_used s' x = true) /\
  (a <> 0 -> n <= PAGE_SIZE -> forall i, 0 <= i < PAGE_SIZE -> frame_used s (a + i) = false).
Proof.
  intros [Hi Hr] Hn E. destruct (kheap_alloc_spec s n ZONE_NORMAL Hi) as (a' & t & E' & Hc); [lia|unfold ZONE_NORMAL; lia|].
  rewrite E in E'. injection E' as <- <-.
  destruct Hc as [[-> Hu]|(p & z & Ea & Hp & Hz & Ho & s1 & Hu & Ha)].
  - split; [|done]. intros x. apply frame_used_mono; [done|apply Hu|]. intros h o z B. by apply (un_live _ _ Hu).
  - pose proof Ha as [AI AB AL AF _ _ _ _]. split.
    + intros x. apply frame_used_mono; [done|done|]. intros h o z' B. apply AL. left. by apply (un_live _ _ Hu).
    + intros _ Hle i Hx. rewrite (size_to_order_page n) in * by lia.
      pose proof (live_in_array s' p _ _ AI AB) as Hrng. pose proof (inv_max s' AI).
      destruct (page_own_pfn s' a AI) as (p' & z' & _ & Hp' & Ea' & Hpf).
      { exists p, z. split_and!; [lia|done|]. rewrite Ea. f_equal. unfold PAGE_SHIFT. rewrite Z.shiftl_mul_pow2 by lia.
        change (2 ^ 12) with PAGE_SIZE. apply wrap_small. unfold fits, PAGE_SIZE. lia. }
      assert (p' = p) as ->.
      { rewrite Ea in Ea'. unfold PAGE_SHIFT in Ea'. rewrite Z.shiftl_mul_pow2 in Ea' by lia.
        unfold PHYS_TO_LINEAR, LINEAR_MAP_START, PAGE_SIZE in Ea'. change (2 ^ 12) with 4096 in Ea'.
        rewrite !wrap_small in Ea' by (unfold fits; try rewrite wrap_small; unfold fits; lia). lia. }
      apply not_true_iff_false. rewrite frame_used_live by done. intros (h & o & z2 & B & Hh). rewrite Hpf in Hh by done.
      destruct (AF h o z2); [by apply (un_live _ _ Hu)|lia|change (2 ^ 0) with 1 in *; lia].
Qed.

(** A change of counters keeps every frame as it is. *)
Lemma heap_upd_used s a f s' : heap_inv s -> page_own s a -> keeps_shape f -> keeps_refs f ->
  upd_whole_block (addr_pfn a) f s = Ok s' -> forall x, frame_used s x = true -> frame_used s' x = true.
Proof.
  intros [Hi Hr] Hown Hf Hg E. destruct (page_own_base s a Hi Hown) as (p & z & B & _ & _ & Hpf & Hn). rewrite Hpf in E.
  destruct (upd_whole_block_spec s p 0 z false f Hi Hr B Hf Hg) as (s2 & E2 & Hu & _). rewrite E in E2. injection E2 as <-.
  intros x. apply frame_used_mono; [done|apply Hu|]. intros h o z' B'. by apply (un_live _ _ Hu).
Qed.

Lemma heap_add_ref_used s a s' : heap_inv s -> page_own s a -> kheap_add_ref_count a s = Ok s' ->
  forall x, frame_used s x = true -> frame_used s' x = true.
Proof.
  intros Hi Hown E. destruct (page_own_base s a (proj1 Hi) Hown) as (_ & _ & _ & _ & _ & _ & Hn).
  unfold kheap_add_ref_count in E. rewrite (proj2 (Z.eqb_neq _ _) Hn) in E.
  eapply (heap_upd_used s a (fun b => with_ref_count b (ref_count b + 1))); [done|done|done|intros b _; apply fits_u32|done].
Qed.

Lemma heap_set_pte_used s a q s' : heap_inv s -> page_own s a -> kheap_set_on_pte_ptr a q s = Ok s' ->
  forall x, frame_used s x = true -> frame_used s' x = true.
Proof.
  intros Hi Hown E. destruct (page_own_base s a (proj1 Hi) Hown) as (_ & _ & _ & _ & _ & _ & Hn).
  unfold kheap_set_on_pte_ptr in E. rewrite (proj2 (Z.eqb_neq _ _) Hn) in E.
  eapply (heap_upd_used s a (fun b => with_on_pte_ptr b q)); [done|done|done|by intros b ?|done].
Qed.

Lemma heap_own_used s a i : heap_inv s -> page_own s a -> 0 <= i < PAGE_SIZE -> frame_used s (a + i) = true.
Proof.
  intros [Hi _] Hown Hx. destruct (page_own_pfn s a Hi Hown) as (p & z & B & _ & _ & Ha).
  unfold frame_used. rewrite Ha by done. destruct (is_block_self _ _ _ _ _ B) as (b & -> & -> & _). done.
Qed.

Lemma heap_own_addr s a : heap_inv s -> page_own s a -> table_addr a.
Proof. intros [Hi _] Hown. destruct (page_own_base s a Hi Hown) as (p & z & _ & Hp & -> & _). by exists p. Qed.

(** The kernel heap discharges the interface. *)
#[export] Instance kernel_heap_laws : PageHeapLaws pmm := {
  ph_inv := heap_inv;
  ph_own := page_own;
  ph_block := page_block;
  ph_room := room;
  ph_own_used := heap_own_used;
  ph_own_addr := heap_own_addr;
  ph_alloc_ok := heap_alloc_ok;
  ph_add_ref_ok := heap_add_ref_ok;
  ph_set_pte_ok := heap_set_pte_ok;
  ph_free_ok := heap_free_ok;
  ph_own_block := page_own_block;
  ph_alloc_used := heap_alloc_used;
  ph_add_ref_used := heap_add_ref_used;
  ph_set_pte_used := heap_set_pte_used
}.

(** ** A new page directory *)

(** The kernel's directory as the others see it: its upper half leads to the
    table pages [X] with their levels, all in use, in which huge pages may
    occur. *)
Section directory.
Context {H : Type} `{PageHeapLaws H}.
Implicit Types s : mmu (H := H).

Record kernel_dir (X : gmap Z nat) (K : Z) s : Prop := {
  kd_inv : ph_inv (heap s);
  kd_addr : table_addr K;
  kd_used i : 0 <= i < PAGE_SIZE -> ph_used (heap s) (K + i) = true;
  kd_word i : 256 <= i < 512 -> is_Some (tables s !! (K + 8 * i));
  kd_next i e : 256 <= i < 512 -> tables s !! (K + 8 * i) = Some e -> PTE_IS_VALID e = true ->
    PTE_IS_HUGE e = false /\ X !! next_table e = Some 3%nat;
  kd_outer b n : X !! b = Some n -> table_addr b /\ forall i, 0 <= i < PAGE_SIZE -> ph_used (heap s) (b + i) = true;
  kd_down b n i e : X !! b = Some (S (S n)) -> 0 <= i < 512 -> tables s !! (b + 8 * i) = Some e ->
    PTE_IS_VALID e = true -> PTE_IS_HUGE e = false -> X !! next_table e = Some (S n)
}.

(** A directory whose lower half is its own. *)
Definition user_share (X : gmap Z nat) : share := Share (fun i => i <? 256) X.

Lemma mmu_add_pgd_unfold k s : mmu_add_pgd k s =
  ('(page, s) ← alloc_page_table_page s;
   if page =? 0 then Ok (- ENOMEM, 0, s)
   else
     s ← for_up 256 256 (fun i s => v ← load (PHYS_TO_LINEAR k + 8 * i) s; store (page + 8 * i) v s) s;
     Ok (0, LINEAR_TO_PHYS page, s)).
Proof.
  unfold mmu_add_pgd, alloc_page_table_page. destruct (ph_alloc PAGE_SIZE (heap s)) as [[page h]| |]; [|done..].
  cbn [mbind outcome_bind]. destruct (page =? 0) eqn:E; [cbn; done|].
  destruct (for_up 512 0 _ _) as [s1| |]; [|done..]. cbn [mbind outcome_bind]. by rewrite E.
Qed.

(** The copy of the upper half of directory [K] to the new page. *)
Lemma copy_half X K page s s1 : kernel_dir X K s -> table_addr page -> K <> page ->
  (forall i, 0 <= i < PAGE_SIZE -> ph_used (heap s1) (page + i) = true) ->
  (forall x, ph_used (heap s) x = true -> ph_used (heap s1) x = true) ->
  (forall x, (forall j, 0 <= j < 512 -> x <> page + 8 * j) -> tables s1 !! x = tables s !! x) ->
  exists s', for_up 256 256 (fun i s => v ← load (K + 8 * i) s; store (page + 8 * i) v s) s1 = Ok s' /\
    heap s' = heap s1 /\
    (forall j, 0 <= j < 512 -> tables s' !! (page + 8 * j) =
       if j <? 256 then tables s1 !! (page + 8 * j) else tables s !! (K + 8 * j)) /\
    (forall x, (forall j, 0 <= j < 512 -> x <> page + 8 * j) -> tables s' !! x = tables s !! x).
Proof.
  intros HK Hp Hne Hup Huk Hs1.
  assert (forall j, 0 <= j < 512 -> forall k, 0 <= k < 512 -> K + 8 * j <> page + 8 * k) as Hdis.
  { intros j Hj k Hk E. apply slot_inj in E as [? _]; [done|apply HK|done..]. }
  destruct (for_up_inv (fun k (s' : mmu (H := H)) => heap s' = heap s1 /\
      (forall j, 0 <= j < 512 -> tables s' !! (page + 8 * j) =
         if (256 <=? j) && (j <? k) then tables s !! (K + 8 * j) else tables s1 !! (page + 8 * j)) /\
      (forall x, (forall j, 0 <= j < 512 -> x <> page + 8 * j) -> tables s' !! x = tables s !! x))
    256 256 (fun i s => v ← load (K + 8 * i) s; store (page + 8 * i) v s) s1) as (s' & E & Eh & Hc & Hs).
  - split_and!; [done| |done]. intros j Hj. by replace ((256 <=? j) && (j <? 256)) with false by lia.
  - intros k s2 Hk (Eh & Hc & Hs). change (256 + Z.of_nat 256) with 512 in Hk.
    destruct (kd_word _ _ _ HK k Hk) as [v Ev].
    unfold load, store. rewrite Eh, (Huk _ (kd_used _ _ _ HK (8 * k) ltac:(unfold PAGE_SIZE; lia))).
    rewrite (Hs (K + 8 * k)) by (intros j Hj; apply Hdis; lia). rewrite Ev. cbn [deref mbind outcome_bind].
    rewrite Hup by (unfold PAGE_SIZE; lia). eexists. split; [done|]. cbn [heap tables]. split_and!; [done| |].
    + intros j Hj. rewrite lookup_insert. case_decide as Hd.
      * assert (j = k) as -> by lia. by replace ((256 <=? k) && (k <? k + 1)) with true by lia.
      * rewrite Hc by done. replace ((256 <=? j) && (j <? k + 1)) with ((256 <=? j) && (j <? k)) by lia. done.
    + intros x Hx. rewrite lookup_insert_ne; [by apply Hs|]. intros <-. by apply (Hx k); [lia|].
  - exists s'. split_and!; [done|done| |done]. intros j Hj. rewrite Hc by done. change (256 + Z.of_nat 256) with 512.
    destruct (Z.ltb_spec j 256); [by replace ((256 <=? j) && (j <? 512)) with false by lia|].
    by replace ((256 <=? j) && (j <? 512)) with true by lia.
Qed.

(** A new directory maps nothing below and what the kernel's maps above. *)
Lemma mmu_add_pgd_spec X k s : kernel_dir X (PHYS_TO_LINEAR k) s -> 0 < ph_room (heap s) ->
  exists p s', mmu_add_pgd k s = Ok (0, p, s') /\ p <> 0 /\
    let root := PHYS_TO_LINEAR p in
    mmu_ok (user_share X) root {[root := []]} s' /\ ph_own (heap s') root /\ keeps_own s s' /\
    (forall i, 0 <= i < PAGE_SIZE -> ph_used (heap s) (root + i) = false) /\
    ph_room (heap s) - 1 <= ph_room (heap s') /\ kernel_dir X (PHYS_TO_LINEAR k) s' /\
    (forall x, hw (tables s') root (indices x) =
       if PML4_INDEX x <? 256 then None else hw (tables s) (PHYS_TO_LINEAR k) (indices x)) /\
    (forall x, PML4_INDEX x < 256 -> path_rights (tables s') root (table_path x) = all_rights).
Proof.
  set (K := PHYS_TO_LINEAR k). intros HK Hr. rewrite mmu_add_pgd_unfold. fold K.
  destruct (alloc_page_table_page_spec s (kd_inv _ _ _ HK)) as (page & s1 & -> & Hi1 & [Hk1 Hu1] & Hc).
  destruct Hc as [(_ & _ & ?)|(Hn & Hro & Hf & Ho & Hp & Hz & Hs1)]; [lia|].
  cbn [mbind outcome_bind]. rewrite (proj2 (Z.eqb_neq _ _) Hn).
  assert (forall b, (forall i, 0 <= i < PAGE_SIZE -> ph_used (heap s) (b + i) = true) -> b <> page) as Hnew.
  { intros b Hb ->. specialize (Hf 0 ltac:(unfold PAGE_SIZE; lia)). rewrite Hb in Hf; [done|unfold PAGE_SIZE; lia]. }
  assert (K <> page) as HKp by (apply Hnew; apply HK).
  assert (forall i, 0 <= i < PAGE_SIZE -> ph_used (heap s1) (page + i) = true) as Hup by (intros i Hi; by apply ph_own_used).
  destruct (copy_half X K page s s1 HK Hp HKp Hup Hu1 Hs1) as (s' & -> & Eh & Hlook & Hs'). cbn [mbind outcome_bind].
  destruct (next_table_pte page 0 Hp) as (_ & _ & _ & Hpl & _).
  assert (forall b j, table_addr b -> 0 <= j < 512 -> b <> page -> tables s' !! (b + 8 * j) = tables s !! (b + 8 * j)) as Hsame.
  { intros b j Hb Hj Hne. apply Hs'. intros j' Hj' E. apply slot_inj in E as [? _]; done. }
  assert (forall b n, X !! b = Some n -> table_addr b /\ b <> page) as HX.
  { intros b n Hb. destruct (kd_outer _ _ _ HK b n Hb) as [? ?]. split; [done|by apply Hnew]. }
  assert (LINEAR_TO_PHYS page <> 0) as Hpz.
  { apply table_addr_phys in Hp as (pfn & ? & -> & _). unfold PAGE_SIZE. lia. }
  exists (LINEAR_TO_PHYS page), s'. split; [done|]. split; [done|]. cbn zeta. rewrite Hpl.
  assert (tree (user_share X) (tables s') page {[page := []]}) as Htree.
  { split.
    - by rewrite lookup_singleton_eq.
    - intros a pre [<- <-]%lookup_singleton_Some. split; [done|cbn; lia].
    - intros a pre i [<- <-]%lookup_singleton_Some Hx. rewrite Hlook by done.
      destruct (Z.ltb_spec i 256); [rewrite Hz by done; by eauto|]. apply (kd_word _ _ _ HK). lia.
    - intros a pre i e [<- <-]%lookup_singleton_Some Hx _ Hown. specialize (Hown eq_refl). cbn in Hown.
      rewrite Hlook, Hown, Hz by done. by intros [= <-].
    - intros a pre i e [<- <-]%lookup_singleton_Some Hx. done.
    - intros a i e [<- _]%lookup_singleton_Some Hx Hown. cbn in Hown. rewrite Hlook, Hown by done.
      apply (kd_next _ _ _ HK). lia.
    - intros b n Hb. cbn in Hb. destruct (HX b n Hb) as [? ?]. split; [done|]. by rewrite lookup_singleton_ne.
    - intros b n i e Hb Hx. cbn in Hb |- *. destruct (HX b _ Hb) as [? ?]. rewrite Hsame by done. by apply (kd_down _ _ _ HK). }
  rewrite Eh. unfold keeps_own. rewrite Eh. split_and!; [|done|done|done|done|by apply Hro|..].
  - split; rewrite ?Eh; [done|done|..].
    + intros a pre i [<- <-]%lookup_singleton_Some. apply Hup.
    + by intros a pre [<- <-]%lookup_singleton_Some.
    + intros b n i Hb Hx. cbn in Hb. apply Hu1. by eapply (kd_outer _ _ _ HK).
  - split; rewrite ?Eh; [done|apply HK|..].
    + intros i Hi. by apply Hu1, HK.
    + intros i Hi. rewrite Hsame by (done || apply HK || lia). by apply (kd_word _ _ _ HK).
    + intros i e Hi. rewrite Hsame by (done || apply HK || lia). by apply (kd_next _ _ _ HK).
    + intros b n Hb. destruct (kd_outer _ _ _ HK b n Hb) as [? Hu]. split; [done|]. intros i Hi. by apply Hu1, Hu.
    + intros b n i e Hb Hx. destruct (HX b _ Hb) as [? ?]. rewrite Hsame by done. by apply (kd_down _ _ _ HK).
  - intros x. assert (0 <= PML4_INDEX x < 512) as Hx by by apply table_index. unfold indices. cbn [hw].
    rewrite Hlook by done. destruct (Z.ltb_spec (PML4_INDEX x) 256); [by rewrite Hz by done|].
    destruct (tables s !! (K + 8 * PML4_INDEX x)) as [e|] eqn:E; [|done]. destruct (PTE_IS_VALID e) eqn:Hv; [|done].
    destruct (kd_next _ _ _ HK (PML4_INDEX x) e) as [-> Hg]; [lia|done|done|]. cbn [negb].
    pose proof (outer_hw (user_share X) (tables s') (tables s) page {[page := []]} (next_table e)
      [PDPT_INDEX x; PD_INDEX x; PT_INDEX x] Htree) as Ho'. cbn [hw] in Ho'. rewrite Ho'; [done| |done|].
    + intros c n j Hc Hj. cbn in Hc. destruct (HX c n Hc) as [? ?]. symmetry. by apply Hsame.
    + unfold idx_ok. rewrite !Forall_cons. split_and!; by apply table_index || apply Forall_nil_2.
  - intros x Hx. assert (0 <= PML4_INDEX x < 512) by by apply table_index. unfold table_path. cbn [path_rights].
    rewrite Hlook, (proj2 (Z.ltb_lt _ _) Hx), Hz by done. done.
Qed.

End directory.

(** ** Unmapping *)

(** Releasing pages never changes a parent pointer. *)
Section parent_pointers.
Context (m0 : blocks_t).

Definition ptrs_as (m : blocks_t) : Prop := forall q, on_pte_ptr <$> m !! q = on_pte_ptr <$> m0 !! q.
Definition keeps_ptr (f : mem_block_t -> mem_block_t) : Prop := forall b, on_pte_ptr (f b) = on_pte_ptr b.

Lemma upd_block_ptr m p f m' : keeps_ptr f -> ptrs_as m -> upd_block m p f = Ok m' -> ptrs_as m'.
Proof.
  intros Hf Hm E. unfold upd_block, get_block in E. inv_ok. intros q.
  rewrite lookup_insert. case_decide; [|apply Hm]. subst q. rewrite <- Hm, E0. cbn. by rewrite Hf.
Qed.

Lemma upd_pages_ptr m p n f m' : (forall i, keeps_ptr (f i)) -> ptrs_as m -> upd_pages m p n f = Ok m' -> ptrs_as m'.
Proof.
  intros Hf Hm E. eapply (for_up_keeps ptrs_as); [|exact Hm|exact E].
  intros k m1 m2 H1 E1. eapply upd_block_ptr; [apply Hf|exact H1|exact E1].
Qed.

Lemma remove_ptr p s s' : ptrs_as (blocks s) -> remove_free_lists p s = Ok s' -> ptrs_as (blocks s').
Proof. intros H E. unfold remove_free_lists in E. inv_ok. destruct (zone r =? 255); inv_ok; done. Qed.

Lemma add_ptr p z o s s' : ptrs_as (blocks s) -> add_free_lists p z o s = Ok s' -> ptrs_as (blocks s').
Proof. intros H E. unfold add_free_lists in E. inv_ok. done. Qed.

Lemma merge_ptr p1 p2 s a s' : ptrs_as (blocks s) -> merge_buddy_block p1 p2 s = Ok (a, s') -> ptrs_as (blocks s').
Proof.
  intros H E. unfold merge_buddy_block in E. inv_ok.
  destruct (_ || _); [by inv_ok|]. destruct (negb _); [by inv_ok|]. inv_ok.
  eapply upd_pages_ptr; [|eapply add_ptr; [|eassumption]|eassumption].
  - by intros i b.
  - eapply remove_ptr; [|eassumption]. by eapply remove_ptr.
Qed.

Lemma merge_up_ptr p ord z s s' : ptrs_as (blocks s) -> merge_up p ord z s = Ok s' -> ptrs_as (blocks s').
Proof.
  intros H E. unfold merge_up in E. inv_ok.
  apply (for_ret_keeps (fun x : pmm * Z => ptrs_as (blocks x.1)) (fun s => ptrs_as (blocks s))) in E0;
    [by destruct r as [[]|]; simplify_eq/=| |done].
  intros k [s1 cur] r1 H1 E1. cbn in H1, E1. destruct (_ <=? _); inv_ok; [|done].
  destruct (_ && _); inv_ok; [|done]. destruct r2 as [a s2]. apply merge_ptr in E2; [|done].
  by destruct (a =? 0); inv_ok.
Qed.

Lemma pmm_free_ptr p s s' : ptrs_as (blocks s) -> pmm_free_pages p s = Ok s' -> ptrs_as (blocks s').
Proof.
  intros H E. unfold pmm_free_pages in E. inv_ok. destruct (_ || _); inv_ok; [done|].
  assert (H1 : ptrs_as r1).
  { eapply upd_pages_ptr; [|exact H|eassumption]. intros _ b. unfold drop_ref. by destruct (0 <? ref_count b). }
  destruct (0 <? _); inv_ok; [done|]. eapply merge_up_ptr; [|eassumption].
  unfold release_block in E4. inv_ok. eapply add_ptr; [|eassumption]. cbn.
  eapply upd_pages_ptr; [|exact H1|eassumption]. by intros _ b.
Qed.

End parent_pointers.

(** After the last reference the page is not in use. *)
Lemma released_unused s s' p z a i : pmm_inv s -> released s s' p 0 z -> live s p 0 z ->
  a = PHYS_TO_LINEAR (p * PAGE_SIZE) -> 0 < p -> 0 <= i < PAGE_SIZE -> frame_used s' (a + i) = false.
Proof.
  intros Hi [Hi' HL _ [HM _]] B -> Hp Hx. pose proof (live_in_array s p 0 z Hi B) as Hr.
  destruct (page_own_pfn s (PHYS_TO_LINEAR (p * PAGE_SIZE)) Hi) as (p' & z' & B' & Hp' & Ea & Ha); [by exists p, z|].
  pose proof (inv_max s Hi). assert (p' = p) as ->.
  { unfold PHYS_TO_LINEAR, LINEAR_MAP_START, PAGE_SIZE in Ea. rewrite !wrap_small in Ea by (unfold fits; lia). lia. }
  unfold frame_used. rewrite Ha by done. destruct (blocks s' !! p) as [b|] eqn:Eb; [|done].
  apply negb_false_iff. destruct (inv_cover s' Hi' p) as (h & o & z2 & fr & B2 & Hh); [lia|].
  destruct (is_block_lookup _ _ _ _ _ p B2 Hh) as (b2 & E2 & Hf & _). rewrite Eb in E2. injection E2 as <-.
  rewrite Hf. destruct fr; [done|]. exfalso. destruct (proj1 (HL h o z2) B2) as [B3 Hne].
  destruct (is_block_unique _ _ _ _ _ _ _ _ _ p B3 B) as (? & _); [done|change (2 ^ 0) with 1; lia|done].
Qed.

(** C36: unmapping writes into a page table that it has just freed.
    [mmu_add_map] records the tables of a page from the top down, each with
    the slot of its parent table that points to it.  [mmu_remove_map] releases
    them in the same order: when the upper table [a0] has no other user, its
    page goes back to the allocator, and the parent slot of the next table
    [a1], which lies in [a0], is cleared afterwards. *)
Theorem mmu_remove_map_use_after_free (s : mmu (H := pmm)) arr a0 a1 b0 q0 i l :
  heap_inv (heap s) -> page_own (heap s) a0 -> page_own (heap s) a1 -> a0 <> a1 -> arr <> 0 ->
  blocks (heap s) !! addr_pfn a0 = Some b0 -> ref_count b0 <= 1 ->
  kheap_get_on_pte_ptr a0 (heap s) = Ok q0 -> q0 = 0 \/ frame_used (heap s) q0 = true ->
  kheap_get_on_pte_ptr a1 (heap s) = Ok (a0 + 8 * i) -> 0 <= i < 512 ->
  mmu_remove_map (Some (Ptb arr (a0 :: a1 :: l))) s = Fault.
Proof.
  intros [Hi Hr] O0 O1 Hne Harr Eb0 Hrc E0 Hq0 E1 Hx.
  destruct (page_own_base _ a0 Hi O0) as (p0 & z0 & B0 & Hp0 & Ea0 & Hpf0 & Hn0).
  destruct (page_own_base _ a1 Hi O1) as (p1 & z1 & B1 & Hp1 & Ea1 & Hpf1 & Hn1).
  unfold mmu_remove_map. cbn [page_table_blocks blocks_list]. rewrite (proj2 (Z.eqb_neq _ _) Harr).
  unfold release_blocks. cbn [for_each]. rewrite (proj2 (Z.eqb_neq _ _) Hn0), (proj2 (Z.eqb_neq _ _) Hn1).
  cbn [negb ph_get_pte kernel_heap]. rewrite E0. cbn [mbind outcome_bind].
  assert (exists t, (if negb (q0 =? 0) then mmu_clear_pte q0 s else Ok s) = Ok (Mmu (heap s) t)) as [t ->].
  { destruct Hq0 as [->|Hu]; [cbn; exists (tables s); by destruct s|].
    destruct (q0 =? 0); cbn [negb]; [exists (tables s); by destruct s|].
    unfold mmu_clear_pte, store. cbn [ph_used kernel_heap]. rewrite Hu. by eauto. }
  cbn [mbind outcome_bind heap ph_free kernel_heap].
  assert (kheap_free a0 (heap s) = pmm_free_pages p0 (heap s)) as ->
    by (unfold kheap_free; by rewrite (proj2 (Z.eqb_neq _ _) Hn0), Hpf0).
  pose proof (live_in_array _ p0 0 z0 Hi B0) as Hrng.
  destruct (pmm_free_pages_total (heap s) p0 Hi Hrng (fun b => Hr p0 b)) as (h & Ef & HF).
  rewrite Ef. cbn [mbind outcome_bind set_heap heap].
  assert (kheap_get_on_pte_ptr a1 h = Ok (a0 + 8 * i)) as ->.
  { pose proof (pmm_free_ptr (blocks (heap s)) p0 (heap s) h (fun q => eq_refl) Ef p1) as Hptr.
    unfold kheap_get_on_pte_ptr, pmm_get_on_pte_ptr, check_pfn_valid, get_block in E1 |- *.
    rewrite (proj2 (Z.eqb_neq _ _) Hn1), Hpf1 in E1 |- *.
    assert (max_pfn h = max_pfn (heap s)) as ->.
    { destruct HF as [_ ->|b o z _ _ _ [_ _ _ [-> _]] _|b o z _ _ _ [_ _ _ [-> _]]]; done. }
    apply bind_Ok in E1 as ([] & Ec & E1). rewrite Ec. cbn [mbind outcome_bind].
    destruct (blocks (heap s) !! p1) as [b|]; [|done]. destruct (blocks h !! p1) as [b'|]; [|done].
    cbn in Hptr |- *. injection Hptr as ->. exact E1. }
  cbn [mbind outcome_bind].
  assert (frame_used h (a0 + 8 * i) = false) as Hunused.
  { destruct HF as [Hn _|b o z _ Eb Hb|b o z B Eb _ Hrel].
    - by destruct (Hn 0 z0).
    - rewrite <- Hpf0 in Eb. rewrite Eb0 in Eb. injection Eb as <-. lia.
    - destruct (is_block_unique _ _ _ _ _ _ _ _ _ p0 B B0) as (_ & -> & -> & _);
        [pose proof B as (? & _); pose proof (pow2_pos o); lia|change (2 ^ 0) with 1; lia|].
      eapply (released_unused (heap s) h p0 z0); [done|done|done|done|lia|unfold PAGE_SIZE; lia]. }
  assert (a0 + 8 * i <> 0) as Hnz.
  { rewrite Ea0. unfold PHYS_TO_LINEAR, LINEAR_MAP_START, PAGE_SIZE. rewrite wrap_small by (unfold fits; lia). lia. }
  rewrite (proj2 (Z.eqb_neq _ _) Hnz). cbn [negb tables].
  assert (mmu_clear_pte (a0 + 8 * i) (set_heap (Mmu (heap s) t) h) = Fault) as ->; [|done].
  unfold mmu_clear_pte, store. cbn [heap set_heap]. change (ph_used h (a0 + 8 * i)) with (frame_used h (a0 + 8 * i)). by rewrite Hunused.
Qed.

(** ** A machine of sixteen frames: frame 0 in use, frame 1, frames 2-3, frames
    4-7 and frames 8-15 free, every zone populated *)

Definition m16_desc (p : Z) : mem_block_t :=
  if p =? 0 then demo_desc true false 0 1
  else if p =? 1 then demo_desc true true 0 0
  else if p <? 4 then demo_desc (p =? 2) true 1 0
  else if p <? 8 then demo_desc (p =? 4) true 2 0
  else demo_desc (p =? 8) true 3 0.

Definition m16_blocks : blocks_t := list_to_map ((fun p => (p, m16_desc p)) <$> seqZ 0 16).

Definition m16_list (k : Z * Z) : list Z :=
  if decide (k = (0, 0)) then [1] else if decide (k = (0, 1)) then [2] else if decide (k = (0, 2)) then [4]
  else if decide (k = (0, 3)) then [8] else [].

Definition m16 : pmm :=
  Pmm 15 (list_to_map [(0, Zone 0 16); (1, Zone 16 17); (2, Zone 17 18)])
    (list_to_map ((fun k => (k, m16_list k)) <$> all_areas)) m16_blocks ∅.

Lemma m16_lookup p b : m16_blocks !! p = Some b <-> 0 <= p < 16 /\ b = m16_desc p.
Proof.
  unfold m16_blocks. rewrite <- elem_of_list_to_map.
  - rewrite list_elem_of_fmap. setoid_rewrite elem_of_seqZ. split.
    + intros (q & [= -> ->] & Hq). split; [lia|done].
    + intros [Hp ->]. exists p. split; [done|lia].
  - rewrite <- list_fmap_compose. apply NoDup_fmap_2; [by intros ?? ?|apply NoDup_seqZ].
Qed.

Lemma m16_block p o f :
  (p = 0 /\ o = 0 /\ f = false) \/ (p = 1 /\ o = 0 /\ f = true) \/ (p = 2 /\ o = 1 /\ f = true) \/
  (p = 4 /\ o = 2 /\ f = true) \/ (p = 8 /\ o = 3 /\ f = true) -> is_block m16_blocks p o 0 f.
Proof.
  assert (forall q, 0 <= q < 16 -> m16_blocks !! q = Some (m16_desc q)) as Hl by (intros q Hq; by apply m16_lookup).
  intros [(-> & -> & ->)|[(-> & -> & ->)|[(-> & -> & ->)|[(-> & -> & ->)|(-> & -> & ->)]]]]; split_and!; try done; intros i Hi.
  - replace i with 0 by lia. by eexists.
  - replace i with 0 by lia. by eexists.
  - assert (i = 0 \/ i = 1) as [->| ->] by lia; by eexists.
  - change (2 ^ 2) with 4 in Hi. assert (i = 0 \/ i = 1 \/ i = 2 \/ i = 3) as [->|[->|[->| ->]]] by lia; by eexists.
  - change (2 ^ 3) with 8 in Hi. assert (i = 0 \/ i = 1 \/ i = 2 \/ i = 3 \/ i = 4 \/ i = 5 \/ i = 6 \/ i = 7) as Hc by lia.
    repeat (destruct Hc as [->|Hc]; [by eexists|]). subst i. by eexists.
Qed.

Lemma m16_head p o z : is_block m16_blocks p o z true -> z = 0 /\ ((p = 1 /\ o = 0) \/ (p = 2 /\ o = 1) \/ (p = 4 /\ o = 2) \/ (p = 8 /\ o = 3)).
Proof.
  intros B. destruct (is_block_self _ _ _ _ _ B) as (b & E & Hf & Ho & Hz & Hh).
  apply m16_lookup in E as [Hp ->].
  assert (p = 0 \/ p = 1 \/ p = 2 \/ p = 3 \/ p = 4 \/ p = 5 \/ p = 6 \/ p = 7 \/
    p = 8 \/ p = 9 \/ p = 10 \/ p = 11 \/ p = 12 \/ p = 13 \/ p = 14 \/ p = 15) as Hc by lia.
  repeat (destruct Hc as [->|Hc]; [cbn in *; simplify_eq; tauto|]). subst p. cbn in *. simplify_eq.
Qed.

Lemma m16_inv : pmm_inv m16.
Proof.
  constructor; cbn [max_pfn blocks zones free_areas m16].
  - lia.
  - intros p. split; [intros [b [? _]%m16_lookup]; lia|]. intros Hp. exists (m16_desc p). apply m16_lookup. split; [lia|done].
  - intros p Hp. assert (p = 0 \/ p = 1 \/ 2 <= p < 4 \/ 4 <= p < 8 \/ 8 <= p < 16) as [->|[->|[H|[H|H]]]] by lia.
    + exists 0, 0, 0, false. split; [apply m16_block; tauto|done].
    + exists 1, 0, 0, true. split; [apply m16_block; tauto|done].
    + exists 2, 1, 0, true. split; [apply m16_block; tauto|change (2 ^ 1) with 2; lia].
    + exists 4, 2, 0, true. split; [apply m16_block; tauto|change (2 ^ 2) with 4; lia].
    + exists 8, 3, 0, true. split; [apply m16_block; tauto|change (2 ^ 3) with 8; lia].
  - unfold ZONE_NORMAL. intros z Hz. assert (z = 0 \/ z = 1 \/ z = 2) as [->|[->| ->]] by lia; by eexists.
  - intros z o Hz Ho. exists (m16_list (z, o)). apply elem_of_list_to_map_1.
    + apply (bool_decide_unpack (NoDup _)). vm_compute. exact I.
    + apply list_elem_of_fmap. exists (z, o). split; [done|by apply all_areas_spec].
  - intros z o l E. apply elem_of_list_to_map_2, list_elem_of_fmap in E as ([z' o'] & ? & _).
    simplify_eq. unfold m16_list. split.
    + repeat case_decide; (apply NoDup_nil_2 || apply NoDup_singleton).
    + intros p. split.
      * repeat case_decide; simplify_eq; first [intros ->%list_elem_of_singleton|intros ?%not_elem_of_nil];
          try done; apply m16_block; tauto.
      * intros [-> Hc]%m16_head. destruct Hc as [[-> ->]|[[-> ->]|[[-> ->]|[-> ->]]]];
          repeat (rewrite decide_False by done); rewrite decide_True by done; by apply list_elem_of_singleton.
Qed.

Lemma m16_heap_inv : heap_inv m16.
Proof.
  split; [exact m16_inv|]. intros q b [Hq ->]%m16_lookup. unfold m16_desc. repeat case_match; by vm_compute.
Qed.

Lemma m16_room : room m16 = 15.
Proof. by vm_compute. Qed.

(** ** Claims on the kernel heap *)

(** Progress of the kernel heap: while a page is free, frame 0 is reserved
    and every zone is populated, a request of at most a page succeeds: the
    page is new, all table pages stay owned, and one page less is free. *)
Theorem kheap_page_progress s n :
  heap_inv s -> 0 < n <= PAGE_SIZE -> 0 < room s ->
  exists a s', _kheap_alloc n ZONE_NORMAL s = Ok (a, s') /\ a <> 0 /\ heap_inv s' /\
    ~ page_own s a /\ page_own s' a /\ (forall b, page_own s b -> page_own s' b) /\ room s - 1 <= room s'.
Proof.
  intros Hi Hn Hr. destruct (heap_alloc_ok s n Hi) as (a & s' & E & Hi' & Hk & Ho & Hro); [unfold PAGE_SIZE in *; lia|].
  destruct Hro as [Ha Hro]; [lia|done|]. destruct (Ho Ha) as [Hf Hown]; [lia|]. exists a, s'. split_and!; done.
Qed.

Lemma kheap_page_progress_witness :
  exists a s', _kheap_alloc 24 ZONE_NORMAL m16 = Ok (a, s') /\ a <> 0 /\ page_own s' a.
Proof.
  destruct (kheap_page_progress m16 24) as (a & s' & E & Ha & _ & _ & Ho & _);
    [exact m16_heap_inv|unfold PAGE_SIZE; lia|rewrite m16_room; lia|].
  exists a, s'. split; [exact E|]. split; [exact Ha|exact Ho].
Defined.

(** The first two pages of the machine. *)
Definition uaf_a0 : Z := PHYS_TO_LINEAR (1 * PAGE_SIZE).
Definition uaf_a1 : Z := PHYS_TO_LINEAR (2 * PAGE_SIZE).
Definition heap_after {A} (s : pmm) (o : outcome (A * pmm)) : pmm := match o with Ok (_, s') => s' | _ => s end.
Definition uaf_h1 : pmm := heap_after m16 (_kheap_alloc PAGE_SIZE ZONE_NORMAL m16).
Definition uaf_h2 : pmm := heap_after uaf_h1 (_kheap_alloc PAGE_SIZE ZONE_NORMAL uaf_h1).

Definition answer (o : outcome (Z * pmm)) : Z := match o with Ok (a, _) => a | _ => 0 end.

Lemma known_answer s a b t (o : outcome (Z * pmm)) :
  o = Ok (a, t) -> answer o = b -> a = b /\ heap_after s o = t.
Proof. by intros -> <-. Qed.

Lemma two_pages : heap_inv uaf_h2 /\ page_own uaf_h2 uaf_a0 /\ page_own uaf_h2 uaf_a1.
Proof.
  destruct (heap_alloc_ok m16 PAGE_SIZE m16_heap_inv) as (a & s1 & E1 & I1 & K1 & O1 & R1); [unfold PAGE_SIZE; lia|].
  destruct (known_answer m16 a uaf_a0 s1 _ E1) as [-> Es1]; [vm_compute; reflexivity|].
  fold uaf_h1 in Es1. subst s1.
  destruct (heap_alloc_ok uaf_h1 PAGE_SIZE I1) as (a & s2 & E2 & I2 & K2 & O2 & R2); [unfold PAGE_SIZE; lia|].
  destruct (known_answer uaf_h1 a uaf_a1 s2 _ E2) as [-> Es2]; [vm_compute; reflexivity|].
  fold uaf_h2 in Es2. subst s2.
  split_and!; [done|apply K2, O1; [by vm_compute|lia]|apply O2; [by vm_compute|lia]].
Qed.

(** A kernel directory on it: the directory in the first page, with the slot
    of the linear map leading to the second, whose first entry is a huge page
    of one gigabyte. *)
Definition kdir_words : list (Z * Z) :=
  ((fun i => (uaf_a0 + 8 * i, if i =? 257 then pte_value 2 false VM_WRITE else 0)) <$> seqZ 0 512) ++
  ((fun i => (uaf_a1 + 8 * i, if i =? 0 then pte_value 0 true VM_WRITE else 0)) <$> seqZ 0 512).
Definition kdir : mmu (H := pmm) := Mmu uaf_h2 (list_to_map kdir_words).

Lemma kdir_lookup i : 0 <= i < 512 ->
  tables kdir !! (uaf_a0 + 8 * i) = Some (if i =? 257 then pte_value 2 false VM_WRITE else 0) /\
  tables kdir !! (uaf_a1 + 8 * i) = Some (if i =? 0 then pte_value 0 true VM_WRITE else 0).
Proof.
  intros Hi. assert (NoDup kdir_words.*1) as Hnd.
  { apply (bool_decide_unpack (NoDup _)). vm_compute. exact I. }
  split; (apply elem_of_list_to_map_1; [done|]); unfold kdir_words; apply elem_of_app; [left|right];
    apply list_elem_of_fmap; exists i; (split; [done|]); apply elem_of_seqZ; lia.
Qed.

Lemma kdir_ok : kernel_dir {[uaf_a1 := 3%nat]} uaf_a0 kdir.
Proof.
  destruct two_pages as (Hi & O0 & O1). split.
  - exact Hi.
  - by eapply heap_own_addr.
  - intros i Hx. by apply heap_own_used.
  - intros i Hx. destruct (kdir_lookup i) as [-> _]; [lia|by eauto].
  - intros i e Hx. destruct (kdir_lookup i) as [-> _]; [lia|]. destruct (i =? 257); intros [= <-]; [|done].
    intros _. split; [by vm_compute|]. by vm_compute.
  - intros b n [<- _]%lookup_singleton_Some. split; [by eapply heap_own_addr|]. intros i Hx. by apply heap_own_used.
  - intros b n i e [<- _]%lookup_singleton_Some Hx. destruct (kdir_lookup i) as [_ ->]; [lia|].
    destruct (i =? 0); intros [= <-]; [by vm_compute|done].
Qed.

(** An empty address space beside that kernel: the linear map is there, with
    its huge page, and nothing below. *)
Lemma m16_directory :
  exists p s, let root := PHYS_TO_LINEAR p in
    mmu_add_pgd 4096 kdir = Ok (0, p, s) /\ p <> 0 /\
    mmu_ok (H := pmm) (user_share {[uaf_a1 := 3%nat]}) root {[root := []]} s /\ 12 <= ph_room (heap s) /\
    ph_own (heap s) root /\
    hw (tables s) root (indices LINEAR_MAP_START) = Some ([0; 0], pte_value 0 true VM_WRITE, (true, false, false)) /\
    (forall x, PML4_INDEX x < 256 -> path_rights (tables s) root (table_path x) = all_rights).
Proof.
  assert (room uaf_h2 = 13) as Hr by by vm_compute.
  destruct (mmu_add_pgd_spec {[uaf_a1 := 3%nat]} 4096 kdir) as (p & s & E & Hp & Hm & Ho & _ & _ & Hro & _ & Hw & Hpr);
    [exact kdir_ok|cbn; lia|]. change (ph_room (heap kdir)) with (room uaf_h2) in Hro. rewrite Hr in Hro.
  exists p, s. cbn zeta. split_and!; [done|done|done|lia|done| |done].
  rewrite Hw. change (PML4_INDEX LINEAR_MAP_START <? 256) with false. cbn iota.
  change (PHYS_TO_LINEAR 4096) with uaf_a0. change (indices LINEAR_MAP_START) with [257; 0; 0; 0]. cbn [hw].
  destruct (kdir_lookup 257) as [-> _]; [lia|]. cbn [Z.eqb Pos.eqb].
  change (PTE_IS_VALID (pte_value 2 false VM_WRITE)) with true. change (PTE_IS_HUGE (pte_value 2 false VM_WRITE)) with false.
  change (next_table (pte_value 2 false VM_WRITE)) with uaf_a1. cbn [negb].
  destruct (kdir_lookup 0) as [_ ->]; [lia|]. cbn [Z.eqb].
  change (PTE_IS_VALID (pte_value 0 true VM_WRITE)) with true. change (PTE_IS_HUGE (pte_value 0 true VM_WRITE)) with true.
  by vm_compute.
Qed.

(** A new page directory.  [mmu_add_pgd] gives a directory whose lower
    half maps nothing and whose upper half translates like the kernel's, huge
    pages included, and which is what [mmu_add_map] needs: its lower half is
    its own, its upper half is shared.  The page was not in use before, and
    the kernel's directory is as it was. *)
Theorem mmu_add_pgd_correct {H : Type} `{PageHeapLaws H} X k (s : mmu (H := H)) :
  kernel_dir X (PHYS_TO_LINEAR k) s -> 0 < ph_room (heap s) ->
  exists p s', mmu_add_pgd k s = Ok (0, p, s') /\ p <> 0 /\
    let root := PHYS_TO_LINEAR p in
    mmu_ok (user_share X) root {[root := []]} s' /\ ph_own (heap s') root /\ keeps_own s s' /\
    (forall i, 0 <= i < PAGE_SIZE -> ph_used (heap s) (root + i) = false) /\ kernel_dir X (PHYS_TO_LINEAR k) s' /\
    (forall x, hw (tables s') root (indices x) =
       if PML4_INDEX x <? 256 then None else hw (tables s) (PHYS_TO_LINEAR k) (indices x)).
Proof.
  intros HK Hr. destruct (mmu_add_pgd_spec X k s HK Hr) as (p & s' & E & Hp & Hm & Ho & Hk & Hf & _ & HK' & Hw & _).
  exists p, s'. split_and!; done.
Qed.

Lemma mmu_add_pgd_correct_witness : exists p s', mmu_add_pgd 4096 kdir = Ok (0, p, s') /\
  hw (tables s') (PHYS_TO_LINEAR p) (indices 0x400000) = None.
Proof.
  assert (0 < ph_room (heap kdir)) as Hr by (change (0 < room uaf_h2); by vm_compute).
  destruct (mmu_add_pgd_correct {[uaf_a1 := 3%nat]} 4096 kdir kdir_ok Hr) as (p & s' & E & _ & _ & _ & _ & _ & _ & Hw).
  exists p, s'. split; [exact E|]. rewrite Hw. reflexivity.
Defined.

Lemma mmu_walk_correct_witness :
  exists pgd s ptr out' s', mmu_walk pgd 0x400000 true 11 (Some (0, 0, 0)) s = Ok (ptr, out', s') /\
    3 <= ph_room (heap s) /\
    exists a, ptr = a + 8 * 0 /\ reach (tables s') (PHYS_TO_LINEAR pgd) [0; 0; 2] = Some a.
Proof.
  destruct m16_directory as (p & s & _ & Hp & Hm & Hr & _).
  destruct (mmu_walk_correct _ _ _ p 0x400000 11 (0, 0, 0) s Hm eq_refl Hp) as (ptr & out' & s' & E & Hc); [done|].
  exists p, s, ptr, out', s'. split; [exact E|]. split; [lia|].
  destruct Hc as (G' & a & Ep & _ & Hre & _); [lia|]. exists a. split; [exact Ep|]. exact Hre.
Defined.

Lemma mmu_add_map_correct_witness :
  exists pgd s l arr s', mmu_add_map pgd 0x400000 0x5000 1 11 s = Ok (0, Some (Ptb arr l), s') /\
    hw (tables s') (PHYS_TO_LINEAR pgd) (indices 0x400000) = Some ([], pte_value 5 false 11, (true, true, false)) /\
    hw (tables s') (PHYS_TO_LINEAR pgd) (indices LINEAR_MAP_START) =
      Some ([0; 0], pte_value 0 true VM_WRITE, (true, false, false)).
Proof.
  destruct m16_directory as (p & s & _ & Hp & Hm & Hr & _ & Hlin & Hpr).
  destruct (mmu_add_map_correct _ _ _ p 0x400000 0x5000 1 11 s Hm eq_refl Hp)
    as (arr & h & Ea & _ & Hc); [|lia|lia|unfold PAGE_SIZE; lia|lia|unfold PAGE_SIZE; lia|reflexivity|reflexivity|].
  { intros j Hj. assert (j = 0) as -> by lia. reflexivity. }
  destruct (ph_alloc_ok (heap s) (24 * 1)) as (arr' & h' & Ea' & _ & _ & _ & Hro); [apply Hm|lia|].
  rewrite Ea in Ea'. injection Ea' as <- <-. destruct Hro as [Harr Hro]; [unfold PAGE_SIZE; lia|lia|].
  destruct (Hc Harr) as (l & s' & E & _ & Hin & Hout); [lia|].
  exists p, s, l, arr, s'. split; [exact E|]. split.
  - specialize (Hin 0 ltac:(lia)). cbn zeta in Hin. rewrite Hpr in Hin by done. exact Hin.
  - rewrite Hout; [exact Hlin|]. intros j Hj. assert (j = 0) as -> by lia. by vm_compute.
Defined.

Lemma read_only_table_sticks_witness :
  exists pgd s b1 s1 b2 s2 e r, mmu_add_map pgd 0x400000 0x5000 1 VM_USER s = Ok (0, b1, s1) /\
    mmu_add_map pgd 0x600000 0x6000 1 (Z.lor VM_USER VM_WRITE) s1 = Ok (0, b2, s2) /\
    hw (tables s2) (PHYS_TO_LINEAR pgd) (indices 0x600000) = Some ([], e, r) /\ r.1.1 = false.
Proof.
  destruct m16_directory as (p & s & _ & Hp & Hm & Hr & _).
  destruct (tr_word _ _ _ _ (mo_tree _ _ _ _ Hm) (PHYS_TO_LINEAR p) [] 0) as [e0 E0]; [by rewrite lookup_singleton_eq|lia|].
  destruct (PTE_IS_VALID e0) eqn:V0.
  { exfalso. destruct (tr_next _ _ _ _ (mo_tree _ _ _ _ Hm) (PHYS_TO_LINEAR p) [] 0 e0) as [_ Hg];
      [by rewrite lookup_singleton_eq|lia|cbn; lia|done|done|done|].
    apply lookup_singleton_Some in Hg as [_ Hg]. discriminate Hg. }
  destruct (read_only_table_sticks _ _ _ p 0x400000 0x600000 0x5000 0x6000 VM_USER (Z.lor VM_USER VM_WRITE) s e0 Hm eq_refl Hp)
    as (b1 & s1 & b2 & s2 & e & r & E1 & E2 & Hw & _ & _ & Hno);
    try reflexivity; try done; try (unfold PAGE_SIZE; lia).
  exists p, s, b1, s1, b2, s2, e, r. split; [exact E1|]. split; [exact E2|]. split; [exact Hw|exact Hno].
Defined.

(** The second page hanging under the first slot of the first. *)
Definition uaf_h3 : pmm := match kheap_set_on_pte_ptr uaf_a1 uaf_a0 uaf_h2 with Ok s => s | _ => uaf_h2 end.

Lemma uaf_state : heap_inv uaf_h3 /\ page_own uaf_h3 uaf_a0 /\ page_own uaf_h3 uaf_a1.
Proof.
  destruct two_pages as (I2 & W0 & W1).
  destruct (heap_set_pte_ok uaf_h2 uaf_a1 uaf_a0 I2 W1) as (s3 & E3 & I3 & K3 & _).
  assert (uaf_h3 = s3) as -> by (unfold uaf_h3; by rewrite E3). split_and!; [done|by apply K3..].
Qed.

Lemma mmu_remove_map_use_after_free_witness :
  mmu_remove_map (Some (Ptb 4096 [uaf_a0; uaf_a1])) (Mmu uaf_h3 ∅) = Fault.
Proof.
  destruct uaf_state as (I3 & W0 & W1).
  eapply (mmu_remove_map_use_after_free (Mmu uaf_h3 ∅) 4096 uaf_a0 uaf_a1 _ 0 0 []);
    [exact I3|exact W0|exact W1|by vm_compute|lia|vm_compute; reflexivity|vm_compute; discriminate|
     vm_compute; reflexivity|left; reflexivity|vm_compute; reflexivity|lia].
Defined.
