(* ===== verification/AddressSpace.v ===== *)
(** * Address spaces (kernel/mm/vmm_as.c, kernel/mm/vmm_as.h)

    An address space holds its regions (VMAs) on a list and in a red-black tree
    ordered by their start addresses.  The regions and the address spaces are
    objects of the kernel heap, kept by their addresses; the tree nodes and
    tree heads embedded in them are the cells of RbTree.v, at the address of
    the object they are embedded in.  The file system is reached through the
    interface [VfsEnv], page tables and heap are those of Mmu.v.  Spin locks
    are left out: the operations run one at a time, and where the code drops
    the lock the model has an explicit argument for what others do meanwhile. *)

From S2P Require Import Prelude Bitmap Buddy Heap Mmu SepLogic RbTree.

Local Open Scope Z_scope.

(** ** What the address spaces need of the file system (kernel/fs/vfs.c) *)

Class VfsEnv (F : Type) := {
  vfs_open : list Z -> Z -> F -> (Z * Z) * F;               (* path, pwd: error number, file *)
  vfs_close : Z -> F -> outcome F;
  vfs_read : Z -> Z -> Z -> F -> outcome ((Z * list Z) * F) (* file, count, pos: result, bytes *)
}.

(** asm/mm_addr.h, vmm_map.h *)
Definition USER_START : Z := 0x400000.
Definition USER_STACK_TOP : Z := 0x7FFFFF000000.
Definition MMIO_MAP : Z := Z.lor 0xFFFF000000000000 (Z.shiftl 384 39).
Definition TLB_FLUSH_THRESHOLD_PAGES : Z := 32.

Definition VM_READ : Z := 1.

(** Sizes of the structures in bytes, each less than a page. *)
Definition SIZEOF_VM_AREA : Z := 112.
Definition SIZEOF_AS : Z := 96.

(** vmm_as.h: struct vm_area; [file] and [anon_vma] are one union, a path of 0
    is NULL and a path [p] the string at [p] *)
Record vm_area := Vma {
  start : Z;
  end_ : Z;
  linear_addr : Z;
  prot : Z;
  flags : Z;
  offset_or_anon : Z;
  file_or_anon : Z;
  file_path : Z;
  ptb : page_table_blocks_struct
}.

(** vmm_as.h: struct vmm_as; the tree is at the address of the structure *)
Record as_t := As { pgd : Z; vma_list : list Z; refcount : Z }.

Definition no_blocks : page_table_blocks_struct := Ptb 0 [].

Section vmm.
Context {H F : Type} `{PageHeap H} `{VfsEnv F}.

(** The state the virtual memory code works on: the page tables and the heap,
    the objects by their addresses, the tree cells, the bytes of memory, the
    TLB flushes done so far ([None] is a full flush), the directory register. *)
Record vmm := Vmm {
  mm : mmu (H := H);
  spaces : gmap Z as_t;
  vmas : gmap Z vm_area;
  anons : gmap Z Z;
  cells : gmap Z rbcell;
  strings : gmap Z (list Z);
  memory : Z -> Z;
  files : F;
  flushes : list (option Z);
  mmio_addr : Z;
  kernel_as : Z;
  kernel_pgd : Z;
  cr3 : Z
}.

Definition with_mm w x := Vmm x (spaces w) (vmas w) (anons w) (cells w) (strings w) (memory w) (files w) (flushes w) (mmio_addr w) (kernel_as w) (kernel_pgd w) (cr3 w).
Definition with_spaces w x := Vmm (mm w) x (vmas w) (anons w) (cells w) (strings w) (memory w) (files w) (flushes w) (mmio_addr w) (kernel_as w) (kernel_pgd w) (cr3 w).
Definition with_vmas w x := Vmm (mm w) (spaces w) x (anons w) (cells w) (strings w) (memory w) (files w) (flushes w) (mmio_addr w) (kernel_as w) (kernel_pgd w) (cr3 w).
Definition with_anons w x := Vmm (mm w) (spaces w) (vmas w) x (cells w) (strings w) (memory w) (files w) (flushes w) (mmio_addr w) (kernel_as w) (kernel_pgd w) (cr3 w).
Definition with_cells w x := Vmm (mm w) (spaces w) (vmas w) (anons w) x (strings w) (memory w) (files w) (flushes w) (mmio_addr w) (kernel_as w) (kernel_pgd w) (cr3 w).
Definition with_strings w x := Vmm (mm w) (spaces w) (vmas w) (anons w) (cells w) x (memory w) (files w) (flushes w) (mmio_addr w) (kernel_as w) (kernel_pgd w) (cr3 w).
Definition with_memory w x := Vmm (mm w) (spaces w) (vmas w) (anons w) (cells w) (strings w) x (files w) (flushes w) (mmio_addr w) (kernel_as w) (kernel_pgd w) (cr3 w).
Definition with_files w x := Vmm (mm w) (spaces w) (vmas w) (anons w) (cells w) (strings w) (memory w) x (flushes w) (mmio_addr w) (kernel_as w) (kernel_pgd w) (cr3 w).
Definition with_flushes w x := Vmm (mm w) (spaces w) (vmas w) (anons w) (cells w) (strings w) (memory w) (files w) x (mmio_addr w) (kernel_as w) (kernel_pgd w) (cr3 w).
Definition with_mmio_addr w x := Vmm (mm w) (spaces w) (vmas w) (anons w) (cells w) (strings w) (memory w) (files w) (flushes w) x (kernel_as w) (kernel_pgd w) (cr3 w).
Definition with_kernel_as w x := Vmm (mm w) (spaces w) (vmas w) (anons w) (cells w) (strings w) (memory w) (files w) (flushes w) (mmio_addr w) x (kernel_pgd w) (cr3 w).
Definition with_cr3 w x := Vmm (mm w) (spaces w) (vmas w) (anons w) (cells w) (strings w) (memory w) (files w) (flushes w) (mmio_addr w) (kernel_as w) (kernel_pgd w) x.

(** ** A state monad with the outcomes of C code *)

Definition vm (A : Type) : Type := vmm -> outcome (A * vmm).
#[export] Instance vm_ret : MRet vm := fun A a w => Ok (a, w).
#[export] Instance vm_bind : MBind vm := fun A B f e w => '(a, w) ← e w; f a w.

Definition gets {A} (f : vmm -> A) : vm A := fun w => Ok (f w, w).
Definition panic {A} : vm A := fun _ => Panic.
Definition modify (f : vmm -> vmm) : vm unit := fun w => Ok (tt, f w).

Fixpoint vm_loop {S R} (fuel : nat) (body : S -> vm (S + R)) (s : S) : vm R :=
  match fuel with
  | O => fun _ => Fault
  | Datatypes.S fuel =>
      x ← body s;
      match x with inl s' => vm_loop fuel body s' | inr r => mret r end
  end.

(** The heap, the page tables and the tree code on their parts of the state. *)
Definition kheap_alloc_ (size : Z) : vm Z := fun w =>
  '(a, h) ← ph_alloc size (heap (mm w)); Ok (a, with_mm w (set_heap (mm w) h)).
Definition kheap_free_ (a : Z) : vm unit := fun w =>
  h ← ph_free a (heap (mm w)); Ok (tt, with_mm w (set_heap (mm w) h)).
Definition on_mmu {A} (e : mmu (H := H) -> outcome (A * mmu (H := H))) : vm A := fun w =>
  '(a, s) ← e (mm w); Ok (a, with_mm w s).
Definition on_tree {A} (e : gmap Z vm_area -> M rbcell A) : vm A := fun w =>
  '(a, m) ← e (vmas w) (cells w); Ok (a, with_cells w m).
Definition on_files {A} (e : F -> outcome (A * F)) : vm A := fun w =>
  '(a, f) ← e (files w); Ok (a, with_files w f).

Definition vma_at (a : Z) : vm vm_area := fun w => v ← deref (vmas w !! a); Ok (v, w).
Definition as_at (a : Z) : vm as_t := fun w => s ← deref (spaces w !! a); Ok (s, w).
Definition put_vma (a : Z) (v : vm_area) : vm unit := fun w =>
  _ ← deref (vmas w !! a); Ok (tt, with_vmas w (<[a := v]> (vmas w))).
Definition put_as (a : Z) (s : as_t) : vm unit := fun w =>
  _ ← deref (spaces w !! a); Ok (tt, with_spaces w (<[a := s]> (spaces w))).

(** klibc.h: memcpy and memset *)
Definition memcpy (dest src n : Z) : vm unit :=
  modify (fun w => with_memory w (fun a =>
    if (dest <=? a) && (a <? dest + n) then memory w (src + (a - dest)) else memory w a)).
Definition memset (dest v n : Z) : vm unit :=
  modify (fun w => with_memory w (fun a => if (dest <=? a) && (a <? dest + n) then v else memory w a)).
Definition put_bytes (dest : Z) (l : list Z) : vm unit :=
  modify (fun w => with_memory w (fun a =>
    if dest <=? a then default (memory w a) (l !! Z.to_nat (a - dest)) else memory w a)).

(** klibc.h: strdup *)
Definition strdup (s : Z) : vm Z :=
  str ← (fun w => str ← deref (strings w !! s); Ok (str, w));
  d ← kheap_alloc_ (Z.of_nat (length str) + 1);
  if d =? 0 then mret 0
  else
    _ ← modify (fun w => with_strings w (<[d := str]> (strings w)));
    mret d.

(** ** The regions (vmm_as.h) *)

(** vmm_as.h: vma_range *)
Definition vma_range (vma : Z) : vm (Z * Z) := v ← vma_at vma; mret (start v, end_ v).

(** vmm_as.h: vma_set_map *)
Definition vma_set_map (vma linear : Z) (p : page_table_blocks_struct) : vm unit :=
  v ← vma_at vma;
  put_vma vma (Vma (start v) (end_ v) linear (prot v) (flags v) (offset_or_anon v) (file_or_anon v) (file_path v) p).

Definition set_union (v : vm_area) (x : Z) : vm_area :=
  Vma (start v) (end_ v) (linear_addr v) (prot v) (flags v) (offset_or_anon v) x (file_path v) (ptb v).
Definition set_offset (v : vm_area) (x : Z) : vm_area :=
  Vma (start v) (end_ v) (linear_addr v) (prot v) (flags v) x (file_or_anon v) (file_path v) (ptb v).
Definition set_path (v : vm_area) (x : Z) : vm_area :=
  Vma (start v) (end_ v) (linear_addr v) (prot v) (flags v) (offset_or_anon v) (file_or_anon v) x (ptb v).

(** vmm_as.h: vma_set_anon; the assignments in their order, [file] and
    [anon_vma] being the same member *)
Definition vma_set_anon (vma anon_vma : Z) : vm unit :=
  v ← vma_at vma;
  let v := set_offset v (-1) in
  let v := set_union v anon_vma in
  let v := set_union v 0 in
  let v := set_path v 0 in
  put_vma vma v.

(** vmm_as.h: vma_set_file *)
Definition vma_set_file (vma file offset path : Z) : vm unit :=
  v ← vma_at vma;
  let v := set_offset v (s64 offset) in
  let v := set_union v file in
  d ← strdup path;
  let v := set_path v d in
  let v := set_union v 0 in
  put_vma vma v.

(** ** vmm_as.c *)

(** vmm_as.c: vma_rb_cmp *)
Definition vma_rb_cmp (vs : gmap Z vm_area) (a b : Z) : outcome Z :=
  va ← deref (vs !! a);
  vb ← deref (vs !! b);
  Ok (if start va <? start vb then -1 else if start vb <? start va then 1 else 0).

(** vmm_as.c: vma_rb_find_ge *)
Definition vma_rb_find_ge (tree addr : Z) (vs : gmap Z vm_area) : rb Z :=
  cur ← get_root tree;
  loop (S := Z * Z) RB_FUEL (fun '(cur, candidate) =>
    if cur =? 0 then mret (inr candidate)
    else
      vma ← lift (deref (vs !! cur));
      if addr <=? start vma then c ← get_child Left cur; mret (inl (c, cur))
      else c ← get_child Right cur; mret (inl (c, candidate))) (cur, 0).

(** vmm_as.c: vma_rb_find_le *)
Definition vma_rb_find_le (tree addr : Z) (vs : gmap Z vm_area) : rb Z :=
  cur ← get_root tree;
  loop (S := Z * Z) RB_FUEL (fun '(cur, candidate) =>
    if cur =? 0 then mret (inr candidate)
    else
      vma ← lift (deref (vs !! cur));
      if start vma <=? addr then c ← get_child Right cur; mret (inl (c, cur))
      else c ← get_child Left cur; mret (inl (c, candidate))) (cur, 0).

(** vmm_as.c: vma_find_end *)
Definition vma_find_end (as_ : Z) : vm Z :=
  if as_ =? 0 then mret 0 else on_tree (fun _ => rbtree_last as_).

(** vmm_as.c: vma_add, the overlap check: true when the range is free *)
Definition vma_range_free (as_ start_ end1 : Z) : vm bool :=
  next ← on_tree (vma_rb_find_ge as_ start_);
  if negb (next =? 0) then
    n ← vma_at next;
    if start n <? end1 then mret false
    else
      prev ← on_tree (fun _ => rbtree_prev next);
      if negb (prev =? 0) then
        p ← vma_at prev;
        mret (negb (start_ <? end_ p))
      else mret true
  else
    last ← on_tree (fun _ => rbtree_last as_);
    if negb (last =? 0) then
      l ← vma_at last;
      mret (negb (start_ <? end_ l))
    else mret true.

(** vmm_as.c: vma_add, the new structure and its insertion *)
Definition vma_insert (as_ start_ end1 prot_ flags_ : Z) : vm Z :=
  new ← kheap_alloc_ SIZEOF_VM_AREA;
  if new =? 0 then mret (- ENOMEM)
  else
    _ ← modify (fun w => with_cells (with_vmas w
          (<[new := Vma start_ end1 0 prot_ flags_ (-1) 0 0 no_blocks]> (vmas w)))
          (<[new := CNode (Node 0 0 0)]> (cells w)));
    exist ← on_tree (fun vs => rbtree_insert (vma_rb_cmp vs) new as_);
    if negb (exist =? 0) then
      _ ← kheap_free_ new;
      _ ← modify (fun w => with_cells (with_vmas w (delete new (vmas w))) (delete new (cells w)));
      mret (- EINVAL)
    else
      s ← as_at as_;
      _ ← put_as as_ (As (pgd s) (vma_list s ++ [new]) (refcount s));
      mret 0.

(** vmm_as.c: vma_add; the error number negated *)
Definition vma_add (as_ start_ end1 prot_ flags_ : Z) : vm Z :=
  if as_ =? 0 then mret (- EINVAL)
  else if end1 <=? start_ then mret (- EINVAL)
  else if negb (Z.land start_ (PAGE_SIZE - 1) =? 0) || negb (Z.land end1 (PAGE_SIZE - 1) =? 0) then mret (- EINVAL)
  else
    free ← vma_range_free as_ start_ end1;
    if negb free then mret (- EINVAL)
    else vma_insert as_ start_ end1 prot_ flags_.

(** vmm_as.c: vma_read_page *)
Definition vma_read_page (vma vaddr dest : Z) : vm Z :=
  if (vma =? 0) || (dest =? 0) then mret (- EINVAL)
  else
    v ← vma_at vma;
    if (vaddr <? start v) || (end_ v <=? vaddr) then mret (- EFAULT)
    else
      let offset := vaddr - start v in
      if offset_or_anon v <? 0 then
        _ ← (if negb (linear_addr v =? 0) then memcpy dest (u64 (linear_addr v + offset)) PAGE_SIZE
             else memset dest 0 PAGE_SIZE);
        mret 0
      else
        let pos := s64 (u64 (offset_or_anon v + offset)) in
        '(ret, bytes) ← on_files (vfs_read (file_or_anon v) PAGE_SIZE pos);
        _ ← put_bytes dest bytes;
        if negb (ret =? PAGE_SIZE) then
          if 0 <? ret then
            _ ← memset (dest + ret) 0 (PAGE_SIZE - ret);
            mret 0
          else mret (if ret <? 0 then ret else - EIO)
        else mret 0.

(** vmm_as.c: vma_find *)
Definition vma_find (as_ addr : Z) : vm Z :=
  if as_ =? 0 then mret 0
  else
    candidate ← on_tree (vma_rb_find_le as_ addr);
    if candidate =? 0 then mret 0
    else
      v ← vma_at candidate;
      mret (if addr <? end_ v then candidate else 0).

(** vmm_as.c: vma_remove *)
Definition vma_remove (as_ vma : Z) : vm Z :=
  if (as_ =? 0) || (vma =? 0) then mret (- EINVAL)
  else
    s ← as_at as_;
    _ ← put_as as_ (As (pgd s) (filter (fun x => x <> vma) (vma_list s)) (refcount s));
    _ ← on_tree (fun _ => rbtree_remove vma as_);
    v ← vma_at vma;
    _ ← (if offset_or_anon v <? 0 then
           let anon := file_or_anon v in
           if negb (anon =? 0) then
             rc ← (fun w => rc ← deref (anons w !! anon); Ok (rc, w));
             if 0 <? rc then
               _ ← modify (fun w => with_anons w (<[anon := rc - 1]> (anons w)));
               if rc - 1 =? 0 then
                 _ ← kheap_free_ anon;
                 modify (fun w => with_anons w (delete anon (anons w)))
               else mret tt
             else mret tt
           else mret tt
         else
           _ ← (if negb (file_or_anon v =? 0) then
                  on_files (fun f => f ← vfs_close (file_or_anon v) f; Ok (tt, f))
                else mret tt);
           if negb (file_path v =? 0) then
             _ ← kheap_free_ (file_path v);
             modify (fun w => with_strings w (delete (file_path v) (strings w)))
           else mret tt);
    _ ← kheap_free_ vma;
    _ ← modify (fun w => with_cells (with_vmas w (delete vma (vmas w))) (delete vma (cells w)));
    mret 0.

(** vmm_as.c: as_get_pgd *)
Definition as_get_pgd (as_ : Z) : vm Z := s ← as_at as_; mret (pgd s).

(** vmm_as.c: as_cleanup, the body of the loop over the list *)
Definition cleanup_step (as_ : Z) (_ : unit) : vm (unit + unit) :=
  s ← as_at as_;
  match vma_list s with
  | [] => mret (inr tt)
  | vma :: _ =>
      v ← vma_at vma;
      _ ← (if negb (linear_addr v =? 0) then kheap_free_ (linear_addr v) else mret tt);
      _ ← vma_remove as_ vma;
      mret (inl tt)
  end.

(** vmm_as.c: as_cleanup; the loop runs once per region of the list *)
Definition as_cleanup (as_ : Z) : vm unit :=
  s ← as_at as_;
  _ ← vm_loop (Datatypes.S (length (vma_list s))) (cleanup_step as_) tt;
  p ← as_get_pgd as_;
  _ ← on_mmu (mmu_remove_pgd p);
  mret tt.

(** vmm_as.c: as_create *)
Definition as_create (pgd_ : Z) : vm Z :=
  vaddr ← kheap_alloc_ SIZEOF_AS;
  if vaddr =? 0 then mret 0
  else
    _ ← modify (fun w => with_cells (with_spaces w (<[vaddr := As pgd_ [] 1]> (spaces w)))
                           (<[vaddr := CTree (Tree 0 0 0)]> (cells w)));
    _ ← on_tree (fun _ => rbtree_init vaddr 0);
    mret vaddr.

(** vmm_as.c: as_add_ref *)
Definition as_add_ref (as_ : Z) : vm unit :=
  s ← as_at as_; put_as as_ (As (pgd s) (vma_list s) (s32 (refcount s + 1))).

(** vmm_as.c: as_sub_ref *)
Definition as_sub_ref (as_ : Z) : vm Z :=
  s ← as_at as_;
  _ ← put_as as_ (As (pgd s) (vma_list s) (s32 (refcount s - 1)));
  mret (s32 (refcount s - 1)).

(** vmm_as.c: as_get_ref *)
Definition as_get_ref (as_ : Z) : vm Z := s ← as_at as_; mret (refcount s).

(** vmm_as.c: as_destroy *)
Definition as_destroy (as_ : Z) : vm unit :=
  if as_ =? 0 then mret tt
  else
    new_ref ← as_sub_ref as_;
    if new_ref =? 0 then
      _ ← as_cleanup as_;
      _ ← kheap_free_ as_;
      modify (fun w => with_cells (with_spaces w (delete as_ (spaces w))) (delete as_ (cells w)))
    else mret tt.

(** vmm_as.c: as_alloc_addr *)
Definition as_alloc_addr (as_ size : Z) : vm Z :=
  if (as_ =? 0) || (size =? 0) then mret 0
  else
    let page_count := u64 (size + PAGE_SIZE - 1) / PAGE_SIZE in
    let total_size := u64 (page_count * PAGE_SIZE) in
    last_vma ← vma_find_end as_;
    start_addr ← (if last_vma =? 0 then mret USER_START
                  else
                    v ← vma_at last_vma;
                    let a := u64 (end_ v + 4096) in
                    mret (Z.land (u64 (a + PAGE_SIZE - 1)) (cnot 64 (PAGE_SIZE - 1))));
    mret (if USER_STACK_TOP <? u64 (start_addr + total_size) then 0 else start_addr).

(** vmm_mmu.c: mmu_invalidate and mmu_invalidate_all, as the flushes they ask for *)
Definition mmu_invalidate (va : Z) : vm unit := modify (fun w => with_flushes w (flushes w ++ [Some va])).
Definition mmu_invalidate_all : vm unit := modify (fun w => with_flushes w (flushes w ++ [None])).

(** vmm_as.c: as_unmap *)
Definition as_unmap (as_ addr : Z) : vm Z :=
  if as_ =? 0 then mret (- EINVAL)
  else
    vma ← vma_find as_ addr;
    if vma =? 0 then mret (- ENOENT)
    else
      '(start_, end1) ← vma_range vma;
      v ← vma_at vma;
      _ ← on_mmu (mmu_remove_map (Some (ptb v)));
      _ ← (if negb (linear_addr v =? 0) then kheap_free_ (linear_addr v) else mret tt);
      let page_count := (end1 - start_) / PAGE_SIZE in
      _ ← (if TLB_FLUSH_THRESHOLD_PAGES <? page_count then mmu_invalidate_all
           else
             vm_loop (Datatypes.S (Z.to_nat TLB_FLUSH_THRESHOLD_PAGES)) (fun va =>
               if va <? end1 then _ ← mmu_invalidate va; mret (inl (va + PAGE_SIZE)) else mret (inr tt)) start_);
      vma_remove as_ vma.

End vmm.
