(* ===== verification/VmmMap.v ===== *)
(** * Mappings and page faults (kernel/mm/vmm_map.c, the vheap part of kernel/mm/heap.c)

    Built on the address spaces of AddressSpace.v.  [kuptr] results are pairs
    of an error number (0 or negative) and a value. *)

From S2P Require Import Prelude Bitmap Buddy Heap Mmu SepLogic RbTree AddressSpace.

Local Open Scope Z_scope.

Section map.
Context {H F : Type} `{PageHeap H} `{VfsEnv F}.

Abbreviation vm := (vm (H := H) (F := F)).
Abbreviation vmm := (vmm (H := H) (F := F)).

(** vmm_map.c: vmm_init, after mmu_init has set the kernel's directory *)
Definition vmm_init : vm unit :=
  p ← gets kernel_pgd;
  a ← as_create p;
  _ ← modify (fun w => with_kernel_as w a);
  if a =? 0 then panic else mret tt.

(** vmm_map.c: vmm_get_kernel_as, vmm_get_kernel_pgd *)
Definition vmm_get_kernel_as : vm Z := gets kernel_as.
Definition vmm_get_kernel_pgd : vm Z := gets kernel_pgd.

(** vmm_map.c: vmm_handle_fault, the part before the lock is dropped: an error
    number, or the region and what was copied of it *)
Definition fault_lookup (as_ fault_addr access_flags : Z) : vm (Z + Z * vm_area) :=
  if as_ =? 0 then mret (inl (- EINVAL))
  else
    vma ← vma_find as_ fault_addr;
    if vma =? 0 then mret (inl (- EFAULT))
    else
      v ← vma_at vma;
      if Z.land (prot v) access_flags =? 0 then mret (inl (- EACCES))
      else mret (inr (vma, v)).

(** vmm_map.c: vmm_handle_fault, from taking the lock again *)
Definition fault_map (as_ fault_addr linear : Z) (v0 : vm_area) : vm Z :=
  let fault_page := Z.land fault_addr (cnot 64 (PAGE_SIZE - 1)) in
  vma ← vma_find as_ fault_addr;
  same ← (if vma =? 0 then mret false
          else v ← vma_at vma; mret ((start v =? start v0) && (end_ v =? end_ v0)));
  if negb same then
    _ ← kheap_free_ linear;
    mret (- EAGAIN)
  else
    p ← as_get_pgd as_;
    '(ret, blocks) ← on_mmu (mmu_add_map p fault_page (LINEAR_TO_PHYS linear) 1 (prot v0));
    if ret <? 0 then
      _ ← kheap_free_ linear;
      mret ret
    else
      _ ← vma_set_map vma linear (default no_blocks blocks);
      _ ← mmu_invalidate fault_page;
      mret 0.

(** vmm_map.c: vmm_handle_fault; [others] and [meanwhile] are what other
    processors do to the state while the lock is dropped, before and after the
    page is filled *)
Definition vmm_handle_fault (others meanwhile : vmm -> vmm) (as_ fault_addr access_flags : Z) : vm Z :=
  r ← fault_lookup as_ fault_addr access_flags;
  match r with
  | inl e => mret e
  | inr (vma, v0) =>
      _ ← modify others;
      linear ← kheap_alloc_ PAGE_SIZE;
      if linear =? 0 then mret (- ENOMEM)
      else
        ret ← vma_read_page vma fault_addr linear;
        if ret <? 0 then
          _ ← kheap_free_ linear;
          mret ret
        else
          _ ← modify meanwhile;
          fault_map as_ fault_addr linear v0
  end.

(** vmm_map.c: vmm_create_as *)
Definition vmm_create_as : vm Z :=
  k ← gets kernel_pgd;
  '(ret, pgd_phys) ← on_mmu (fun s => '(ret, p, s) ← mmu_add_pgd k s; Ok ((ret, p), s));
  if (ret <? 0) || (pgd_phys =? 0) then mret 0
  else
    a ← as_create pgd_phys;
    if a =? 0 then
      _ ← on_mmu (mmu_remove_pgd pgd_phys);
      mret 0
    else mret a.

(** vmm_map.c: vmm_unmap *)
Definition vmm_unmap (as_ addr : Z) : vm Z :=
  if as_ =? 0 then mret (- EINVAL) else as_unmap as_ addr.

(** vmm_mmu.c: mmu_set_pgd, the write to the directory register *)
Definition mmu_set_pgd (p : Z) : vm unit := modify (fun w => with_cr3 w p).

(** vmm_map.c: vmm_switch_as *)
Definition vmm_switch_as (as_ : Z) : vm unit :=
  if as_ =? 0 then mret tt else p ← as_get_pgd as_; mmu_set_pgd p.

(** vmm_map.c: vmm_map_mmio *)
Definition vmm_map_mmio (phy_addr page_count : Z) : vm Z :=
  let mmio_prot := Z.lor (Z.lor VM_READ VM_WRITE) VM_UC in
  current_mmio ← gets mmio_addr;
  p ← kheap_alloc_ PAGE_SIZE;
  if p =? 0 then mret 0
  else
    k ← gets kernel_pgd;
    '(ret, _) ← on_mmu (mmu_add_map k current_mmio phy_addr page_count mmio_prot);
    if ret <? 0 then mret 0
    else
      _ ← modify (fun w => with_mmio_addr w (u64 (mmio_addr w + page_count * PAGE_SIZE)));
      mret current_mmio.

(** vmm_map.c: vmm_as_add_ref *)
Definition vmm_as_add_ref (as_ : Z) : vm unit := as_add_ref as_.

(** vmm_map.c: vmm_destroy_as *)
Definition vmm_destroy_as (as_ : Z) : vm unit :=
  if as_ =? 0 then mret tt else as_destroy as_.

(** vmm_map.c: vmm_copy_as, the body of the loop over the regions: true goes
    on, false is [goto fail] *)
Definition copy_region (new_as vma : Z) : vm bool :=
  '(start_, end1) ← vma_range vma;
  v ← vma_at vma;
  ret ← vma_add new_as start_ end1 (prot v) (flags v);
  if ret <? 0 then mret false
  else
    new_vma ← vma_find new_as start_;
    if new_vma =? 0 then mret false
    else
      ok ← (if offset_or_anon v <? 0 then
              n ← vma_at new_vma;
              let n := set_offset n (-1) in
              let n := set_union n (file_or_anon v) in
              _ ← (if negb (file_or_anon v =? 0) then
                     (fun w => rc ← deref (anons w !! file_or_anon v);
                               Ok (tt, with_anons w (<[file_or_anon v := u32 (rc + 1)]> (anons w))))
                   else mret tt);
              let n := set_union n 0 in
              let n := set_path n 0 in
              _ ← put_vma new_vma n;
              mret true
            else if negb (file_path v =? 0) then
              path ← (fun w => str ← deref (strings w !! file_path v); Ok (str, w));
              '(err, new_file) ← on_files (fun f => let '(r, f) := vfs_open path 0 f in Ok (r, f));
              if negb (err =? 0) then mret false
              else
                n ← vma_at new_vma;
                let n := set_offset n (offset_or_anon v) in
                let n := set_union n new_file in
                d ← strdup (file_path v);
                let n := set_path n d in
                let n := set_union n 0 in
                _ ← put_vma new_vma n;
                mret true
            else mret false);
      if negb ok then mret false
      else
        _ ← vma_set_map new_vma 0 no_blocks;
        mret true.

(** vmm_map.c: vmm_copy_as *)
Definition vmm_copy_as (as_ : Z) : vm Z :=
  if as_ =? 0 then mret 0
  else
    new_as ← vmm_create_as;
    if new_as =? 0 then mret 0
    else
      s ← as_at as_;
      ok ← vm_loop (Datatypes.S (length (vma_list s))) (fun l =>
             match l with
             | [] => mret (inr true)
             | vma :: l => ok ← copy_region new_as vma; mret (if ok : bool then inl l else inr false)
             end) (vma_list s);
      if negb ok then
        _ ← vmm_destroy_as new_as;
        mret 0
      else mret new_as.

(** vmm_map.c: vmm_map_anon, the address the mapping gets *)
Definition anon_address (as_ addr size : Z) : vm (Z * Z) :=
  if addr =? 0 then
    a ← as_alloc_addr as_ size;
    mret (if a =? 0 then (- ENOMEM, 0) else (0, a))
  else if (addr <? USER_START) || (USER_STACK_TOP <? u64 (addr + size)) then mret (- EFAULT, 0)
  else if negb (Z.land addr (PAGE_SIZE - 1) =? 0) then mret (- EINVAL, 0)
  else mret (0, addr).

(** vmm_map.c: vmm_map_anon, the memory of a mapping that is allocated at once *)
Definition anon_populate (as_ vma addr page size prot_ : Z) : vm (Z * Z) :=
  alloc_addr ← kheap_alloc_ size;
  if alloc_addr =? 0 then
    _ ← vma_remove as_ vma;
    mret (- ENOMEM, 0)
  else
    p ← as_get_pgd as_;
    '(ret, blocks) ← on_mmu (mmu_add_map p addr (LINEAR_TO_PHYS alloc_addr) page prot_);
    if ret <? 0 then
      _ ← kheap_free_ alloc_addr;
      _ ← vma_remove as_ vma;
      mret (ret, 0)
    else
      _ ← vma_set_map vma alloc_addr (default no_blocks blocks);
      mret (0, addr).

(** vmm_map.c: vmm_map_anon *)
Definition vmm_map_anon (as_ addr page prot_ flags_ anon_vma : Z) (alloc : bool) : vm (Z * Z) :=
  if (as_ =? 0) || (page =? 0) then mret (- EINVAL, 0)
  else
    let size := u64 (page * PAGE_SIZE) in
    '(err, addr) ← anon_address as_ addr size;
    if err <? 0 then mret (err, 0)
    else
      ret ← vma_add as_ addr (u64 (addr + size)) prot_ flags_;
      if ret <? 0 then mret (ret, 0)
      else
        vma ← vma_find as_ addr;
        if vma =? 0 then mret (- EIO, 0)
        else
          _ ← vma_set_anon vma anon_vma;
          if alloc then anon_populate as_ vma addr page size prot_
          else mret (0, addr).

(** vmm_map.c: vmm_map_file; [path] is the address of the path string *)
Definition vmm_map_file (as_ addr size prot_ flags_ path offset pwd : Z) : vm (Z * Z) :=
  if (as_ =? 0) || (path =? 0) || (size =? 0) then mret (- EINVAL, 0)
  else if negb (Z.land offset (PAGE_SIZE - 1) =? 0) then mret (- EINVAL, 0)
  else if negb (addr =? 0) && negb (Z.land addr (PAGE_SIZE - 1) =? 0) then mret (- EINVAL, 0)
  else if negb (addr =? 0) && ((addr <? USER_START) || (USER_STACK_TOP <? u64 (addr + size))) then mret (- EFAULT, 0)
  else
    str ← (fun w => str ← deref (strings w !! path); Ok (str, w));
    '(err, fp) ← on_files (fun f => let '(r, f) := vfs_open str pwd f in Ok (r, f));
    if negb (err =? 0) then mret (err, 0)
    else
      let close := on_files (fun f => f ← vfs_close fp f; Ok (tt, f)) in
      let aligned_size := Z.land (u64 (size + PAGE_SIZE - 1)) (cnot 64 (PAGE_SIZE - 1)) in
      addr ← (if addr =? 0 then as_alloc_addr as_ aligned_size else mret addr);
      if addr =? 0 then
        _ ← close;
        mret (- ENOMEM, 0)
      else
        ret ← vma_add as_ addr (u64 (addr + aligned_size)) prot_ flags_;
        if ret <? 0 then
          _ ← close;
          mret (ret, 0)
        else
          vma ← vma_find as_ addr;
          if vma =? 0 then
            _ ← close;
            mret (- EIO, 0)
          else
            _ ← vma_set_file vma fp offset path;
            mret (0, addr).

(** ** heap.c: the vheap functions *)

(** heap.c: vheap_handle_fault *)
Definition vheap_handle_fault : (vmm -> vmm) -> (vmm -> vmm) -> Z -> Z -> Z -> vm Z := vmm_handle_fault.

(** heap.c: vheap_alloc; NULL on error *)
Definition vheap_alloc (as_ addr size prot_ flags_ : Z) (alloc : bool) : vm Z :=
  if (as_ =? 0) || (size =? 0) then mret 0
  else
    let aligned_addr := if negb (addr =? 0) then Z.land addr (cnot 64 (PAGE_SIZE - 1)) else addr in
    let aligned_size := Z.land (u64 (size + PAGE_SIZE - 1)) (cnot 64 (PAGE_SIZE - 1)) in
    '(err, val) ← vmm_map_anon as_ aligned_addr (aligned_size / PAGE_SIZE) prot_ flags_ 0 alloc;
    mret (if negb (err =? 0) then 0 else val).

(** heap.c: vheap_file_alloc *)
Definition vheap_file_alloc (as_ addr size prot_ flags_ path offset pwd : Z) : vm Z :=
  if (as_ =? 0) || (path =? 0) || (size =? 0) then mret 0
  else
    let aligned_addr := if negb (addr =? 0) then Z.land addr (cnot 64 (PAGE_SIZE - 1)) else addr in
    let aligned_size := Z.land (u64 (size + PAGE_SIZE - 1)) (cnot 64 (PAGE_SIZE - 1)) in
    '(err, val) ← vmm_map_file as_ aligned_addr aligned_size prot_ flags_ path offset pwd;
    mret (if negb (err =? 0) then 0 else val).

(** heap.c: vheap_free *)
Definition vheap_free (as_ addr : Z) : vm unit :=
  if (as_ =? 0) || (addr =? 0) then mret tt else _ ← vmm_unmap as_ addr; mret tt.

(** heap.c: vheap_free_all *)
Definition vheap_free_all (as_ : Z) : vm unit := if as_ =? 0 then mret tt else vmm_destroy_as as_.

(** heap.c: vheap_map_mmio *)
Definition vheap_map_mmio (phy_addr len : Z) : vm Z :=
  vmm_map_mmio phy_addr (u64 (len + PAGE_SIZE - 1) / PAGE_SIZE).

(** heap.c: vheap_unmap_mmio does nothing yet *)
Definition vheap_unmap_mmio (virt_addr : Z) : vm unit := mret tt.

(** heap.c: vheap_get_kernel_as, vheap_get_kernel_pgd, vheap_get_as_pgd *)
Definition vheap_get_kernel_as : vm Z := vmm_get_kernel_as.
Definition vheap_get_kernel_pgd : vm Z := vmm_get_kernel_pgd.
Definition vheap_get_as_pgd : Z -> vm Z := as_get_pgd.

(** heap.c: vheap_create_as, vheap_destroy_as, vheap_copy_as, vheap_as_add_ref *)
Definition vheap_create_as : vm Z := vmm_create_as.
Definition vheap_destroy_as : Z -> vm unit := vmm_destroy_as.
Definition vheap_copy_as : Z -> vm Z := vmm_copy_as.
Definition vheap_as_add_ref : Z -> vm unit := vmm_as_add_ref.

End map.
