(* ===== verification/AsTree.v ===== *)
(** * The region tree of an address space as a sorted list

    The tree walks of vmm_as.c and the calls to rbtree.c, on a memory that
    holds the tree of the regions [l] and anything else ([R], for instance the
    trees of other address spaces). *)

From iris.proofmode Require Import environments proofmode.
From stdpp Require Import sorting.
From S2P Require Import Prelude SepLogic RbTree RbShape RbSpec RbInsert RbRemove RbCorrect Mmu AddressSpace.

Local Open Scope Z_scope.

(** ** Reading and writing functions of rbtree.c *)

Section reads.
Context (R : relation (gmap Z rbcell)) `{!PreOrder R}.

Lemma node_at_changes a : Changes R (node_at a).
Proof. unfold node_at. solve_changes. Qed.
#[local] Hint Resolve node_at_changes : changes.
Lemma tree_at_changes a : Changes R (tree_at a).
Proof. unfold tree_at. solve_changes. Qed.
#[local] Hint Resolve tree_at_changes : changes.
Lemma get_child_changes s a : Changes R (get_child s a).
Proof. unfold get_child. solve_changes. Qed.
#[local] Hint Resolve get_child_changes : changes.
Lemma get_parent_changes a : Changes R (get_parent a).
Proof. unfold get_parent. solve_changes. Qed.
#[local] Hint Resolve get_parent_changes : changes.
Lemma get_color_changes a : Changes R (get_color a).
Proof. unfold get_color. solve_changes. Qed.
#[local] Hint Resolve get_color_changes : changes.
Lemma is_black_changes a : Changes R (is_black a).
Proof. unfold is_black. solve_changes. Qed.
#[local] Hint Resolve is_black_changes : changes.
Lemma is_red_changes a : Changes R (is_red a).
Proof. unfold is_red. solve_changes. Qed.
#[local] Hint Resolve is_red_changes : changes.
Lemma is_root_changes a : Changes R (is_root a).
Proof. unfold is_root. solve_changes. Qed.
#[local] Hint Resolve is_root_changes : changes.
Lemma get_root_changes a : Changes R (get_root a).
Proof. unfold get_root. solve_changes. Qed.
#[local] Hint Resolve get_root_changes : changes.
Lemma rbtree_first_changes a : Changes R (rbtree_first a).
Proof. unfold rbtree_first. solve_changes. Qed.
#[local] Hint Resolve rbtree_first_changes : changes.
Lemma rbtree_last_changes a : Changes R (rbtree_last a).
Proof. unfold rbtree_last. solve_changes. Qed.
#[local] Hint Resolve rbtree_last_changes : changes.
Lemma get_end_changes s a : Changes R (get_end s a).
Proof. unfold get_end. solve_changes. Qed.
#[local] Hint Resolve get_end_changes : changes.
Lemma rbtree_step_changes s a : Changes R (rbtree_step s a).
Proof. unfold rbtree_step. solve_changes. Qed.
#[local] Hint Resolve rbtree_step_changes : changes.
Lemma do_lookup_changes cmp_fn a tr : Changes R (do_lookup cmp_fn a tr).
Proof. unfold do_lookup. solve_changes. Qed.
#[local] Hint Resolve do_lookup_changes : changes.
Lemma vma_rb_find_ge_changes tr addr vs : Changes R (vma_rb_find_ge tr addr vs).
Proof. unfold vma_rb_find_ge. solve_changes. Qed.
#[local] Hint Resolve vma_rb_find_ge_changes : changes.
Lemma vma_rb_find_le_changes tr addr vs : Changes R (vma_rb_find_le tr addr vs).
Proof. unfold vma_rb_find_le. solve_changes. Qed.
#[local] Hint Resolve vma_rb_find_le_changes : changes.
End reads.
#[export] Hint Resolve node_at_changes tree_at_changes get_child_changes get_parent_changes get_color_changes is_black_changes is_red_changes is_root_changes get_root_changes rbtree_first_changes rbtree_last_changes get_end_changes rbtree_step_changes do_lookup_changes vma_rb_find_ge_changes vma_rb_find_le_changes : changes.

Lemma put_child_changes s a v : Changes same_dom (put_child s a v).
Proof. unfold put_child. solve_changes. Qed.
#[export] Hint Resolve put_child_changes : changes.
Lemma put_parent_changes a v : Changes same_dom (put_parent a v).
Proof. unfold put_parent. solve_changes. Qed.
#[export] Hint Resolve put_parent_changes : changes.
Lemma set_color_changes c a : Changes same_dom (set_color c a).
Proof. unfold set_color. solve_changes. Qed.
#[export] Hint Resolve set_color_changes : changes.
Lemma set_parent_changes c a : Changes same_dom (set_parent c a).
Proof. unfold set_parent. solve_changes. Qed.
#[export] Hint Resolve set_parent_changes : changes.
Lemma put_root_changes a v : Changes same_dom (put_root a v).
Proof. unfold put_root. solve_changes. Qed.
#[export] Hint Resolve put_root_changes : changes.
Lemma put_first_changes a v : Changes same_dom (put_first a v).
Proof. unfold put_first. solve_changes. Qed.
#[export] Hint Resolve put_first_changes : changes.
Lemma put_last_changes a v : Changes same_dom (put_last a v).
Proof. unfold put_last. solve_changes. Qed.
#[export] Hint Resolve put_last_changes : changes.
Lemma set_child_changes c a b : Changes same_dom (set_child c a b).
Proof. unfold set_child. solve_changes. Qed.
#[export] Hint Resolve set_child_changes : changes.
Lemma rotate_changes s a tr : Changes same_dom (rotate s a tr).
Proof. unfold rotate. solve_changes. Qed.
#[export] Hint Resolve rotate_changes : changes.
Lemma insert_fixup_changes s tr a b c : Changes same_dom (insert_fixup s tr a b c).
Proof. unfold insert_fixup. solve_changes. Qed.
#[export] Hint Resolve insert_fixup_changes : changes.
Lemma insert_rebalance_changes a tr : Changes same_dom (insert_rebalance a tr).
Proof. unfold insert_rebalance. solve_changes. Qed.
#[export] Hint Resolve insert_rebalance_changes : changes.
Lemma insert_link_changes a tr p b : Changes same_dom (insert_link a tr p b).
Proof. unfold insert_link. solve_changes. Qed.
#[export] Hint Resolve insert_link_changes : changes.
Lemma rbtree_insert_changes cmp_fn a tr : Changes same_dom (rbtree_insert cmp_fn a tr).
Proof. unfold rbtree_insert. solve_changes. Qed.
#[export] Hint Resolve rbtree_insert_changes : changes.
Lemma remove_nephews_changes s tr a b : Changes same_dom (remove_nephews s tr a b).
Proof. unfold remove_nephews. solve_changes. Qed.
#[export] Hint Resolve remove_nephews_changes : changes.
Lemma remove_fixup_changes s tr a : Changes same_dom (remove_fixup s tr a).
Proof. unfold remove_fixup. solve_changes. Qed.
#[export] Hint Resolve remove_fixup_changes : changes.
Lemma remove_rebalance_changes a b tr : Changes same_dom (remove_rebalance a b tr).
Proof. unfold remove_rebalance. solve_changes. Qed.
#[export] Hint Resolve remove_rebalance_changes : changes.
Lemma remove_splice_changes a b c d e : Changes same_dom (remove_splice a b c d e).
Proof. unfold remove_splice. solve_changes. Qed.
#[export] Hint Resolve remove_splice_changes : changes.
Lemma remove_unlink_changes a tr : Changes same_dom (remove_unlink a tr).
Proof. unfold remove_unlink. solve_changes. Qed.
#[export] Hint Resolve remove_unlink_changes : changes.
Lemma rbtree_remove_changes a tr : Changes same_dom (rbtree_remove a tr).
Proof. unfold rbtree_remove. solve_changes. Qed.
#[export] Hint Resolve rbtree_remove_changes : changes.

(** ** The walks of vmm_as.c *)

Section walks.
Context (vs : gmap Z vm_area) (addr : Z).

Definition vkey (a : Z) : Z := match vs !! a with Some v => start v | None => 0 end.

Definition present (l : list Z) : Prop := forall a, a ∈ l -> exists v, vs !! a = Some v.

(** The first region that starts at or after the address. *)
Lemma wp_find_ge_loop fuel k t Ψ :
  present (elems t) -> key_sorted vkey (elems (plug k t)) -> (height t < fuel)%nat ->
  Forall (fun a => vkey a < addr) (before k) -> Forall (fun a => addr <= vkey a) (after k) ->
  trep t (top k) ∗ crep k (ptr t) ⊢
  (∀ l1 l2, ⌜elems (plug k t) = l1 ++ l2 /\ Forall (fun a => vkey a < addr) l1 /\ Forall (fun a => addr <= vkey a) l2⌝ -∗
            trep (plug k t) 0 -∗ Ψ (hd0 l2)) -∗
  wp (loop (S := Z * Z) fuel (fun '(cur, candidate) =>
        if cur =? 0 then mret (inr candidate)
        else
          vma ← lift (deref (vs !! cur));
          if addr <=? start vma then c ← get_child Left cur; mret (inl (c, cur))
          else c ← get_child Right cur; mret (inl (c, candidate))) (ptr t, hd0 (after k))) Ψ.
Proof.
  revert k t. induction fuel as [|fuel IH]; intros k [|c l a r] Hp Hs Hf Hb Ha; [lia|lia|..].
  - iIntros "Hz HΨ". iApply wp_loop. cbn. wp_step. iApply "HΨ"; [|rewrite trep_plug; iFrame].
    iPureIntro. by rewrite elems_plug.
  - destruct (key_sorted_node _ _ _ _ _ _ Hs) as [Hl Hr].
    iIntros "[(Ha & Hl & Hr) Hk] HΨ". iApply wp_loop. cbn [ptr height elems] in *.
    iDestruct (node_facts with "Ha") as %[Haddr _]. rewrite (node_addr_eqb _ Haddr).
    destruct (Hp a) as [v Hv]; [set_solver|]. assert (vkey a = start v) as Hkey by by rewrite /vkey Hv.
    iApply wp_bind. iApply (wp_lift _ v); [by rewrite Hv|].
    destruct (Z.leb_spec addr (start v)).
    + do 2 wp_step. iApply (IH (Frame Left c a r :: k) l with "[$]"); [|done|lia|done| |done].
      { intros b Hin. apply Hp. set_solver. }
      cbn. constructor; [lia|]. apply Forall_app. split; [|done]. eapply Forall_impl; [exact Hr|]. cbn. lia.
    + do 2 wp_step. iApply (IH (Frame Right c a l :: k) r with "[$]"); [|done|lia| |done|done].
      { intros b Hin. apply Hp. set_solver. }
      cbn. rewrite !Forall_app. split_and!; [done| |constructor; [lia|done]].
      eapply Forall_impl; [exact Hl|]. cbn. lia.
Qed.

(** The last region that starts at or before the address. *)
Lemma wp_find_le_loop fuel k t cand Ψ :
  cand = lst0 (before k) -> present (elems t) -> key_sorted vkey (elems (plug k t)) -> (height t < fuel)%nat ->
  Forall (fun a => vkey a <= addr) (before k) -> Forall (fun a => addr < vkey a) (after k) ->
  trep t (top k) ∗ crep k (ptr t) ⊢
  (∀ l1 l2, ⌜elems (plug k t) = l1 ++ l2 /\ Forall (fun a => vkey a <= addr) l1 /\ Forall (fun a => addr < vkey a) l2⌝ -∗
            trep (plug k t) 0 -∗ Ψ (lst0 l1)) -∗
  wp (loop (S := Z * Z) fuel (fun '(cur, candidate) =>
        if cur =? 0 then mret (inr candidate)
        else
          vma ← lift (deref (vs !! cur));
          if start vma <=? addr then c ← get_child Right cur; mret (inl (c, cur))
          else c ← get_child Left cur; mret (inl (c, candidate))) (ptr t, cand)) Ψ.
Proof.
  revert k t cand. induction fuel as [|fuel IH]; intros k [|c l a r] cand -> Hp Hs Hf Hb Ha; [lia|lia|..].
  - iIntros "Hz HΨ". iApply wp_loop. cbn [ptr]. rewrite Z.eqb_refl. wp_step.
    iApply "HΨ"; [|rewrite trep_plug; iFrame]. iPureIntro. by rewrite elems_plug.
  - destruct (key_sorted_node _ _ _ _ _ _ Hs) as [Hl Hr].
    iIntros "[(Ha & Hl & Hr) Hk] HΨ". iApply wp_loop. cbn [ptr height elems] in *.
    iDestruct (node_facts with "Ha") as %[Haddr _]. rewrite (node_addr_eqb _ Haddr).
    destruct (Hp a) as [v Hv]; [set_solver|]. assert (vkey a = start v) as Hkey by by rewrite /vkey Hv.
    iApply wp_bind. iApply (wp_lift _ v); [by rewrite Hv|].
    destruct (Z.leb_spec (start v) addr).
    + do 2 wp_step.
      iApply (IH (Frame Right c a l :: k) r with "[$]"); [| |done|lia| |done|done].
      { cbn. by rewrite app_assoc lst0_snoc. }
      { intros b Hin. apply Hp. set_solver. }
      cbn. rewrite !Forall_app. split_and!; [done| |constructor; [lia|done]].
      eapply Forall_impl; [exact Hl|]. cbn. lia.
    + do 2 wp_step. iApply (IH (Frame Left c a r :: k) l with "[$]"); [done| |done|lia|done| |done].
      { intros b Hin. apply Hp. set_solver. }
      cbn. constructor; [lia|]. apply Forall_app. split; [|done]. eapply Forall_impl; [exact Hr|]. cbn. lia.
Qed.

Lemma wp_find_ge tr l Ψ : present l -> key_sorted vkey l ->
  rbtree_rep tr l ⊢
  (∀ l1 l2, ⌜l = l1 ++ l2 /\ Forall (fun a => vkey a < addr) l1 /\ Forall (fun a => addr <= vkey a) l2⌝ -∗
            rbtree_rep tr l -∗ Ψ (hd0 l2)) -∗
  wp (vma_rb_find_ge tr addr vs) Ψ.
Proof.
  intros Hp Hs. iIntros "H HΨ".
  iDestruct (rbtree_rep_elim with "H") as "(%t & (%Ht & %He & %Hh) & (Ht & Hk & Hh))"; [by eapply key_sorted_NoDup|].
  subst l. unfold vma_rb_find_ge. wp_step. cbn [plug].
  iApply (wp_find_ge_loop RB_FUEL [] t with "[$]"); [done|done|done|constructor|constructor|].
  iIntros (l1 l2 Hl) "H". iApply ("HΨ" with "[//]"). iExists t. by iFrame.
Qed.

Lemma wp_find_le tr l Ψ : present l -> key_sorted vkey l ->
  rbtree_rep tr l ⊢
  (∀ l1 l2, ⌜l = l1 ++ l2 /\ Forall (fun a => vkey a <= addr) l1 /\ Forall (fun a => addr < vkey a) l2⌝ -∗
            rbtree_rep tr l -∗ Ψ (lst0 l1)) -∗
  wp (vma_rb_find_le tr addr vs) Ψ.
Proof.
  intros Hp Hs. iIntros "H HΨ".
  iDestruct (rbtree_rep_elim with "H") as "(%t & (%Ht & %He & %Hh) & (Ht & Hk & Hh))"; [by eapply key_sorted_NoDup|].
  subst l. unfold vma_rb_find_le. wp_step. cbn [plug].
  iApply (wp_find_le_loop RB_FUEL [] t 0 with "[$]"); [done|done|done|done|constructor|constructor|].
  iIntros (l1 l2 Hl) "H". iApply ("HΨ" with "[//]"). iExists t. by iFrame.
Qed.

End walks.

(** ** The calls, on a memory with the tree and the rest [R] *)

Section calls.
Context (vs : gmap Z vm_area) (tr : Z) (l : list Z) (R : rbProp) (m : gmap Z rbcell).
Hypothesis Htree : holds (rbtree_rep tr l ∗ R)%I m.

(** A specification of a function that only reads. *)
Lemma run_read {A} (e : M rbcell A) (φ : A -> Prop) : Changes eq e ->
  (rbtree_rep tr l ⊢ wp e (fun a => ⌜φ a⌝ ∗ rbtree_rep tr l)) -> exists a, e m = Ok (a, m) /\ φ a.
Proof.
  intros Hc He. destruct (wp_run e _ _ R m He Htree) as (a & m' & E & Hm').
  pose proof (Hc _ _ _ E) as <-. exists a. split; [done|].
  apply (entails_holds _ (⌜φ a⌝ ∗ (rbtree_rep tr l ∗ R))%I) in Hm'; [by apply holds_pure_sep_inv in Hm' as [? _]|].
  iIntros "[[$ $] $]".
Qed.

Lemma find_ge_run addr : present vs l -> key_sorted (vkey vs) l ->
  exists l1 l2, vma_rb_find_ge tr addr vs m = Ok (hd0 l2, m) /\
    l = l1 ++ l2 /\ Forall (fun a => vkey vs a < addr) l1 /\ Forall (fun a => addr <= vkey vs a) l2.
Proof.
  intros Hp Hs. destruct (run_read (vma_rb_find_ge tr addr vs) (fun r => exists l1 l2, r = hd0 l2 /\
    l = l1 ++ l2 /\ Forall (fun a => vkey vs a < addr) l1 /\ Forall (fun a => addr <= vkey vs a) l2))
    as (r & E & l1 & l2 & -> & Hl).
  - apply vma_rb_find_ge_changes, _.
  - iIntros "H". iApply (wp_find_ge with "H"); [done..|]. iIntros (l1 l2 Hl) "H". iFrame. iPureIntro. by exists l1, l2.
  - by exists l1, l2.
Qed.

Lemma find_le_run addr : present vs l -> key_sorted (vkey vs) l ->
  exists l1 l2, vma_rb_find_le tr addr vs m = Ok (lst0 l1, m) /\
    l = l1 ++ l2 /\ Forall (fun a => vkey vs a <= addr) l1 /\ Forall (fun a => addr < vkey vs a) l2.
Proof.
  intros Hp Hs. destruct (run_read (vma_rb_find_le tr addr vs) (fun r => exists l1 l2, r = lst0 l1 /\
    l = l1 ++ l2 /\ Forall (fun a => vkey vs a <= addr) l1 /\ Forall (fun a => addr < vkey vs a) l2))
    as (r & E & l1 & l2 & -> & Hl).
  - apply vma_rb_find_le_changes, _.
  - iIntros "H". iApply (wp_find_le with "H"); [done..|]. iIntros (l1 l2 Hl) "H". iFrame. iPureIntro. by exists l1, l2.
  - by exists l1, l2.
Qed.

Lemma last_run : rbtree_last tr m = Ok (lst0 l, m).
Proof.
  destruct (run_read (rbtree_last tr) (fun r => r = lst0 l)) as (r & E & ->); [apply rbtree_last_changes, _| |done].
  iIntros "(%t & % & (Ht & Hk & Hh))". wp_step. iSplit; [done|]. iExists t. by iFrame.
Qed.

Lemma prev_run l1 a l2 : l = l1 ++ a :: l2 -> NoDup l -> rbtree_prev a m = Ok (lst0 l1, m).
Proof.
  intros El Hn.
  destruct (run_read (rbtree_prev a) (fun r => r = lst0 l1)) as (r & E & ->); [apply rbtree_step_changes, _| |done].
  iIntros "H". rewrite El. iApply (wp_neighbours Left with "H"); [by rewrite -El|]. iIntros "H". by iFrame.
Qed.

(** Insertion of a node that is not in the memory yet. *)
Lemma insert_run cmp_fn key a n : key_sorted key l -> cmp_ok cmp_fn key a l -> node_addr a ->
  m !! a = None -> (forall b, b ∈ l -> key b <> key a) ->
  exists m', rbtree_insert cmp_fn a tr (<[a := CNode n]> m) = Ok (0, m') /\
    dom m' = {[a]} ∪ dom m /\ holds (rbtree_rep tr (ins key a l) ∗ R)%I m'.
Proof.
  intros Hs Hc Ha Hm Hne.
  assert (holds ((rbtree_rep tr l ∗ a ↦ CNode n) ∗ R)%I (<[a := CNode n]> m)) as Hpre.
  { rewrite insert_union_singleton_l map_union_comm; [|by apply map_disjoint_singleton_l].
    apply (entails_holds ((rbtree_rep tr l ∗ R) ∗ a ↦ CNode n)%I); [iIntros "[[$ $] $]"|].
    apply holds_sep; [exact Htree|apply holds_points_to|by apply map_disjoint_singleton_r]. }
  destruct (wp_run (rbtree_insert cmp_fn a tr) (rbtree_rep tr l ∗ a ↦ CNode n)%I (fun r => ⌜r = 0⌝ ∗ rbtree_rep tr (ins key a l))%I R (<[a := CNode n]> m))
    as (r & m' & E & Hm'); [|exact Hpre|].
  - iIntros "[H Ha]". iApply (wp_rbtree_insert with "H Ha"); [done..|]. iSplit.
    + iIntros (b [Hb Hk]). by destruct (Hne b Hb).
    + iIntros (_) "H". by iFrame.
  - pose proof (rbtree_insert_changes cmp_fn a tr _ _ _ E) as Hd. unfold same_dom in Hd. rewrite dom_insert_L in Hd.
    apply (entails_holds _ (⌜r = 0⌝ ∗ (rbtree_rep tr (ins key a l) ∗ R))%I) in Hm'; [|iIntros "[[$ $] $]"].
    apply holds_pure_sep_inv in Hm' as [-> Hm']. by exists m'.
Qed.

(** Removal, after which the node's cell is given back. *)
Lemma remove_run l1 a l2 : l = l1 ++ a :: l2 -> NoDup l ->
  exists m', rbtree_remove a tr m = Ok (tt, m') /\ dom m' = dom m /\
    holds (rbtree_rep tr (l1 ++ l2) ∗ R)%I (delete a m').
Proof.
  intros El Hn.
  destruct (wp_run (rbtree_remove a tr) (rbtree_rep tr l) (fun _ => ∃ n, a ↦ CNode n ∗ rbtree_rep tr (l1 ++ l2))%I R m)
    as ([] & m' & E & Hm'); [|exact Htree|].
  - iIntros "H". rewrite El. iApply (wp_rbtree_remove with "H"); [by rewrite -El|]. iIntros (n) "Ha H". iExists n. iFrame.
  - exists m'. split; [done|]. split; [symmetry; by apply (rbtree_remove_changes a tr _ _ _ E)|].
    apply (entails_holds _ (∃ n, a ↦ CNode n ∗ (rbtree_rep tr (l1 ++ l2) ∗ R))%I) in Hm' as [n Hm'];
      [|iIntros "[(%n & $ & $) $]"].
    by eapply holds_delete.
Qed.

End calls.

(** The memory holds the tree of [l] at [tr], and [R]. *)
Definition tree_beside (tr : Z) (l : list Z) (R : rbProp) (m : gmap Z rbcell) : Prop :=
  holds (rbtree_rep tr l ∗ R)%I m.

Lemma tree_beside_addr tr l R m : tree_beside tr l R m -> Forall node_addr l.
Proof.
  intros Hm. apply (entails_holds _ (⌜Forall node_addr l⌝ : rbProp)%I) in Hm; [exact Hm|].
  iIntros "[(%t & (_ & <-) & (Ht & _)) _]". iApply (trep_addrs with "Ht").
Qed.

(** An empty tree next to whatever the memory holds. *)
Lemma tree_beside_new tr R m : m !! tr = None -> holds R m ->
  tree_beside tr [] R (<[tr := CTree (Tree 0 0 0)]> m).
Proof.
  intros Hm HR. unfold tree_beside. rewrite insert_union_singleton_l. apply holds_sep; [|exact HR|by apply map_disjoint_singleton_l].
  apply (holds_exist _ E), holds_pure_sep; [split; [by exists 0%nat; constructor|done]|].
  apply (entails_holds (tr ↦ CTree (Tree 0 0 0))%I); [|apply holds_points_to].
  iIntros "H". iDestruct (head_intro with "H") as "H". rewrite /zrep. cbn. by iFrame.
Qed.

(** The head of a tree is given back with the structure it is in. *)
Lemma tree_beside_drop tr l R m : tree_beside tr l R m -> holds R (delete tr m).
Proof.
  intros Hm. apply (entails_holds _ (∃ T, tr ↦ CTree T ∗ R)%I) in Hm as [T Hm]; [by eapply holds_delete|].
  iIntros "[(%t & _ & (_ & _ & H)) $]". iDestruct (head_elim with "H") as "H". by iExists _.
Qed.
