(* ===== verification/AsSpec.v ===== *)
(** * Address spaces: theorems

    [as_ok w a l R]: in the state [w] the address space [a] is well formed and
    its regions are, by increasing address, [l].  The tree and the list hold
    the same regions, every region is a non-empty range of pages, the ranges
    are disjoint and in order, and every object is a live page of the heap. *)

From stdpp Require Import sorting.
From S2P Require Import Prelude Bitmap Buddy Heap Mmu MmuSpec SepLogic RbTree RbShape RbSpec AddressSpace AsTree VmmMap.

Local Open Scope Z_scope.

Lemma StronglySorted_weaken {A} (R S : A -> A -> Prop) l :
  StronglySorted R l -> (forall a b, a ∈ l -> b ∈ l -> R a b -> S a b) -> StronglySorted S l.
Proof.
  induction 1 as [|a l Hl IH Ha]; intros HRS; constructor.
  - apply IH. intros b c Hb Hc. apply HRS; by right.
  - rewrite Forall_forall in *. intros b Hb. apply HRS; [by left|by right|by apply Ha].
Qed.

Lemma elem_of_StronglySorted_pair {A} (R : A -> A -> Prop) l a b :
  StronglySorted R l -> a ∈ l -> b ∈ l -> a <> b -> R a b \/ R b a.
Proof.
  induction 1 as [|c l Hl IH Hc]; [set_solver|]. rewrite Forall_forall in Hc.
  intros [->|Ha]%elem_of_cons [->|Hb]%elem_of_cons Hne; [done|left; by apply Hc|right; by apply Hc|by apply IH].
Qed.

(** A non-empty range of whole pages. *)
Definition range_ok (s e : Z) : Prop := 0 <= s < e /\ e < 2 ^ 64 /\ s mod PAGE_SIZE = 0 /\ e mod PAGE_SIZE = 0.

Definition apart (s e : Z) (v : vm_area) : Prop := e <= start v \/ end_ v <= s.

(** The range meets no region of the list. *)
Definition range_free (vs : gmap Z vm_area) (l : list Z) (s e : Z) : Prop :=
  forall a v, a ∈ l -> vs !! a = Some v -> apart s e v.

#[export] Instance range_ok_dec s e : Decision (range_ok s e).
Proof. unfold range_ok. apply _. Defined.
#[export] Instance apart_dec s e v : Decision (apart s e v).
Proof. unfold apart. apply _. Defined.
#[export] Instance range_free_dec vs l s e : Decision (range_free vs l s e).
Proof.
  assert (forall a, Decision (match vs !! a with Some v => apart s e v | None => True end)) as Hd.
  { intros a. destruct (vs !! a); apply _. }
  destruct (decide (Forall (fun a => match vs !! a with Some v => apart s e v | None => True end) l)) as [Hy|Hn]; [left|right].
  - intros a v Ha Ev. rewrite Forall_forall in Hy. specialize (Hy a Ha). by rewrite Ev in Hy.
  - intros Hf. apply Hn, Forall_forall. intros a Ha. destruct (vs !! a) eqn:E; [by apply (Hf a)|done].
Defined.

Definition region_before (vs : gmap Z vm_area) (a b : Z) : Prop :=
  forall va vb, vs !! a = Some va -> vs !! b = Some vb -> end_ va <= start vb.

Section spec.
Context {H F : Type} `{PageHeapLaws H} `{VfsEnv F}.
Abbreviation vmm := (vmm (H := H) (F := F)).
Implicit Types w : vmm.

Record as_ok w (as_ : Z) (l : list Z) (R : hProp rbcell) : Prop := {
  ok_tree : tree_beside as_ l R (cells w);
  ok_space : exists s, spaces w !! as_ = Some s /\ vma_list s ≡ₚ l;
  ok_regions a : a ∈ l -> exists v, vmas w !! a = Some v /\ range_ok (start v) (end_ v);
  ok_order : StronglySorted (region_before (vmas w)) l;
  ok_heap : ph_inv (heap (mm w));
  ok_owned a : a ∈ dom (vmas w) ∪ dom (spaces w) ∪ dom (cells w) -> ph_own (heap (mm w)) a;
  ok_kinds : dom (vmas w) ## dom (spaces w)
}.

Lemma with_cells_id w : with_cells w (cells w) = w.
Proof. by destruct w. Qed.

Lemma as_ok_present w as_ l R : as_ok w as_ l R -> present (vmas w) l.
Proof. intros Hok a Ha. destruct (ok_regions _ _ _ _ Hok a Ha) as (v & ? & _). eauto. Qed.

Lemma vkey_Some vs a v : vs !! a = Some v -> vkey vs a = start v.
Proof. unfold vkey. by intros ->. Qed.

Lemma as_ok_sorted w as_ l R : as_ok w as_ l R -> key_sorted (vkey (vmas w)) l.
Proof.
  intros Hok. eapply StronglySorted_weaken; [exact (ok_order _ _ _ _ Hok)|]. cbn.
  intros a b Ha Hb Hab.
  destruct (ok_regions _ _ _ _ Hok a Ha) as (va & Ea & Hra). destruct (ok_regions _ _ _ _ Hok b Hb) as (vb & Eb & Hrb).
  rewrite (vkey_Some _ _ _ Ea), (vkey_Some _ _ _ Eb). specialize (Hab va vb Ea Eb). destruct Hra. lia.
Qed.

Lemma as_ok_NoDup w as_ l R : as_ok w as_ l R -> NoDup l.
Proof. intros Hok. by eapply key_sorted_NoDup, as_ok_sorted. Qed.

Lemma as_ok_nonzero w as_ l R a : as_ok w as_ l R -> a ∈ l -> (a =? 0) = false.
Proof.
  intros Hok Ha. pose proof (tree_beside_addr _ _ _ _ (ok_tree _ _ _ _ Hok)) as Hf.
  rewrite Forall_forall in Hf. destruct (Hf a Ha). apply Z.eqb_neq. lia.
Qed.

(** Two regions of the list, the first before the second. *)
Lemma as_ok_split w as_ l R l1 l2 a b va vb : as_ok w as_ l R -> l = l1 ++ l2 -> a ∈ l1 -> b ∈ l2 ->
  vmas w !! a = Some va -> vmas w !! b = Some vb -> end_ va <= start vb.
Proof.
  intros Hok -> Ha Hb. pose proof (ok_order _ _ _ _ Hok) as Ho.
  apply StronglySorted_app in Ho as (Ho & _ & _). by apply (Ho a b).
Qed.

(** ** Calls of the tree code *)

Lemma on_tree_read {A} (e : gmap Z vm_area -> M rbcell A) w a :
  e (vmas w) (cells w) = Ok (a, cells w) -> on_tree e w = Ok (a, w).
Proof. intros E. unfold on_tree. rewrite E, Ok_bind. by rewrite with_cells_id. Qed.

Lemma vm_bind_Ok {A B} (e : vm (H := H) (F := F) A) (f : A -> vm (H := H) (F := F) B) w a w' :
  e w = Ok (a, w') -> (e ≫= f) w = f a w'.
Proof. intros E. unfold mbind, vm_bind. by rewrite E. Qed.

Lemma vma_at_Ok w a v : vmas w !! a = Some v -> vma_at a w = Ok (v, w).
Proof. intros E. unfold vma_at. by rewrite E. Qed.

(** ** Finding regions *)

Lemma lst0_cases (l : list Z) : l = [] \/ exists l' a, l = l' ++ [a] /\ lst0 l = a.
Proof.
  destruct l as [|x l] using rev_ind; [by left|]. right. exists l, x. split; [done|]. apply lst0_snoc.
Qed.

(** The regions on both sides of the place where the range would go: [l1]
    starts before it, [l2] does not. *)
Section place.
Context w as_ l R (Hok : as_ok w as_ l R) (s e : Z) (Hse : s < e).
Context l1 l2 (El : l = l1 ++ l2).
Context (Hlo : Forall (fun a => vkey (vmas w) a < s) l1) (Hhi : Forall (fun a => s <= vkey (vmas w) a) l2).

Lemma lo_start a v : a ∈ l1 -> vmas w !! a = Some v -> start v < s.
Proof. intros Ha Ev. rewrite Forall_forall in Hlo. specialize (Hlo a Ha). by rewrite (vkey_Some _ _ _ Ev) in Hlo. Qed.

Lemma hi_start a v : a ∈ l2 -> vmas w !! a = Some v -> s <= start v.
Proof. intros Ha Ev. rewrite Forall_forall in Hhi. specialize (Hhi a Ha). by rewrite (vkey_Some _ _ _ Ev) in Hhi. Qed.

Lemma region_range a v : a ∈ l -> vmas w !! a = Some v -> range_ok (start v) (end_ v).
Proof. intros Ha Ev. destruct (ok_regions _ _ _ _ Hok a Ha) as (v' & E & Hr). by rewrite Ev in E; injection E as <-. Qed.

(** The regions before the range end before it exactly when the last one does. *)
Lemma lo_apart l' p vp a v : l1 = l' ++ [p] -> vmas w !! p = Some vp -> end_ vp <= s ->
  a ∈ l1 -> vmas w !! a = Some v -> apart s e v.
Proof.
  intros Hl1 Ep Hend Ha Ev. right. subst l1. apply elem_of_app in Ha as [Ha|Ha].
  - assert (end_ v <= start vp).
    { eapply (as_ok_split w as_ l R l' ([p] ++ l2)); [exact Hok| |done| |done|done]; [by rewrite app_assoc|set_solver]. }
    destruct (region_range p vp); [set_solver|done|]. lia.
  - apply list_elem_of_singleton in Ha as ->. rewrite Ep in Ev. by injection Ev as <-.
Qed.

Lemma lo_meets p vp : p ∈ l1 -> vmas w !! p = Some vp -> s < end_ vp -> ~ range_free (vmas w) l s e.
Proof.
  intros Hin Ep Hend Hfree. pose proof (lo_start p vp Hin Ep).
  destruct (Hfree p vp ltac:(set_solver) Ep); lia.
Qed.

Lemma hi_apart n l' vn a v : l2 = n :: l' -> vmas w !! n = Some vn -> e <= start vn ->
  a ∈ l2 -> vmas w !! a = Some v -> apart s e v.
Proof.
  intros Hl2 En Hst Ha Ev. left. subst l2. apply elem_of_cons in Ha as [->|Ha].
  - rewrite En in Ev. by injection Ev as <-.
  - assert (end_ vn <= start v).
    { eapply (as_ok_split w as_ l R (l1 ++ [n]) l'); [exact Hok| | |done|done|done]; [by rewrite <- app_assoc|set_solver]. }
    destruct (region_range n vn); [set_solver|done|]. lia.
Qed.

(** The last region before the range decides. *)
Lemma lo_last p (rest : forall a v, a ∈ l2 -> vmas w !! a = Some v -> apart s e v) l' vp :
  l1 = l' ++ [p] -> vmas w !! p = Some vp -> (negb (s <? end_ vp) = true <-> range_free (vmas w) l s e).
Proof.
  intros El1 Ep. destruct (Z.ltb_spec s (end_ vp)); cbn [negb].
  - split; [done|]. intros Hfree. destruct (lo_meets p vp); [rewrite El1; set_solver|done..].
  - split; [|done]. intros _ a v Ha Ev. rewrite El in Ha. apply elem_of_app in Ha as [Ha|Ha]; [|by apply (rest a)].
    by apply (lo_apart l' p vp a).
Qed.

End place.

(** vma_add's overlap check is exact and changes nothing. *)
Lemma vma_range_free_spec w as_ l R s e : as_ok w as_ l R -> s < e ->
  exists b, vma_range_free as_ s e w = Ok (b, w) /\ (b = true <-> range_free (vmas w) l s e).
Proof.
  intros Hok Hse. pose proof (as_ok_NoDup _ _ _ _ Hok) as Hnd. pose proof (ok_tree _ _ _ _ Hok) as Ht.
  destruct (find_ge_run (vmas w) as_ l R (cells w) Ht s (as_ok_present _ _ _ _ Hok) (as_ok_sorted _ _ _ _ Hok))
    as (l1 & l2 & E & El & Hlo & Hhi).
  unfold vma_range_free. rewrite (vm_bind_Ok _ _ _ _ _ (on_tree_read _ _ _ E)).
  destruct l2 as [|n l2]; cbn [hd0].
  - cbn. rewrite (vm_bind_Ok _ _ _ _ _ (on_tree_read _ _ _ (last_run as_ l R (cells w) Ht))).
    destruct (lst0_cases l) as [->|(l' & p & Ep & ->)].
    { exists true. split; [done|]. split; [|done]. intros _ a v Ha. set_solver. }
    assert (p ∈ l) as Hin by (rewrite Ep; set_solver). rewrite (as_ok_nonzero _ _ _ _ _ Hok Hin). cbn [negb].
    destruct (ok_regions _ _ _ _ Hok p Hin) as (vp & Ev & _). rewrite (vm_bind_Ok _ _ _ _ _ (vma_at_Ok _ _ _ Ev)).
    eexists. split; [reflexivity|]. rewrite app_nil_r in El. subst l1.
    eapply (lo_last w as_ l R Hok s e Hse l []); [by rewrite app_nil_r|done|done|set_solver|exact Ep|exact Ev].
  - assert (n ∈ l) as Hin by (rewrite El; set_solver). rewrite (as_ok_nonzero _ _ _ _ _ Hok Hin). cbn [negb].
    destruct (ok_regions _ _ _ _ Hok n Hin) as (vn & En & Hrn). rewrite (vm_bind_Ok _ _ _ _ _ (vma_at_Ok _ _ _ En)).
    pose proof (hi_start w s _ Hhi n vn ltac:(by left) En).
    destruct (Z.ltb_spec (start vn) e) as [Hlt|Hge].
    { exists false. split; [done|]. split; [done|]. intros Hfree. destruct Hrn. destruct (Hfree n vn Hin En); lia. }
    assert (forall a v, a ∈ n :: l2 -> vmas w !! a = Some v -> apart s e v) as Hafter.
    { intros a v. by eapply (hi_apart w as_ l R Hok s e). }
    rewrite (vm_bind_Ok _ _ _ _ _ (on_tree_read _ _ _ (prev_run as_ l R (cells w) Ht l1 n l2 El Hnd))).
    destruct (lst0_cases l1) as [->|(l' & p & El1 & ->)].
    { exists true. split; [done|]. split; [|done]. intros _ a v Ha. apply Hafter. by rewrite El in Ha. }
    assert (p ∈ l) as Hinp by (rewrite El, El1; set_solver). rewrite (as_ok_nonzero _ _ _ _ _ Hok Hinp). cbn [negb].
    destruct (ok_regions _ _ _ _ Hok p Hinp) as (vp & Ep & _). rewrite (vm_bind_Ok _ _ _ _ _ (vma_at_Ok _ _ _ Ep)).
    eexists. split; [reflexivity|].
    eapply (lo_last w as_ l R Hok s e Hse l1 (n :: l2)); [done|done|done|exact Hafter|exact El1|exact Ep].
Qed.

(** vma_find returns the region that contains the address, NULL when none does. *)
Lemma vma_find_spec w as_ l R addr : as_ok w as_ l R -> as_ <> 0 ->
  exists r, vma_find as_ addr w = Ok (r, w) /\
    ((r ∈ l /\ exists v, vmas w !! r = Some v /\ start v <= addr < end_ v) \/
     (r = 0 /\ forall a v, a ∈ l -> vmas w !! a = Some v -> ~ (start v <= addr < end_ v))).
Proof.
  intros Hok Has. unfold vma_find. rewrite (proj2 (Z.eqb_neq _ _) Has).
  destruct (find_le_run (vmas w) as_ l R (cells w) (ok_tree _ _ _ _ Hok) addr (as_ok_present _ _ _ _ Hok) (as_ok_sorted _ _ _ _ Hok))
    as (l1 & l2 & E & El & Hlo & Hhi).
  rewrite (vm_bind_Ok _ _ _ _ _ (on_tree_read _ _ _ E)). rewrite Forall_forall in Hlo, Hhi.
  assert (forall a v, a ∈ l2 -> vmas w !! a = Some v -> ~ (start v <= addr < end_ v)) as Hafter.
  { intros a v Ha Ev. specialize (Hhi a Ha). cbn in Hhi. rewrite (vkey_Some _ _ _ Ev) in Hhi. lia. }
  destruct (lst0_cases l1) as [->|(l' & p & El1 & ->)].
  { exists 0. split; [done|]. right. split; [done|]. intros a v Ha. apply Hafter. by rewrite El in Ha. }
  assert (p ∈ l1) as Hp1 by (rewrite El1; set_solver). assert (p ∈ l) as Hinp by (rewrite El; set_solver).
  rewrite (as_ok_nonzero _ _ _ _ _ Hok Hinp).
  destruct (ok_regions _ _ _ _ Hok p Hinp) as (vp & Ep & _). rewrite (vm_bind_Ok _ _ _ _ _ (vma_at_Ok _ _ _ Ep)).
  specialize (Hlo p Hp1). cbn in Hlo. rewrite (vkey_Some _ _ _ Ep) in Hlo.
  eexists. split; [reflexivity|]. destruct (Z.ltb_spec addr (end_ vp)).
  - left. split; [done|]. exists vp. by split.
  - right. split; [done|]. intros a v Ha Ev. rewrite El in Ha. apply elem_of_app in Ha as [Ha|Ha]; [|by apply (Hafter a)].
    rewrite El1 in Ha. apply elem_of_app in Ha as [Ha|Ha].
    + assert (end_ v <= start vp).
      { apply (as_ok_split w as_ l R l' ([p] ++ l2) a p v vp); [exact Hok|by rewrite app_assoc, <- El1|done|set_solver|done|done]. }
      lia.
    + apply list_elem_of_singleton in Ha as ->. rewrite Ep in Ev. injection Ev as <-. lia.
Qed.
(** ** Adding a region *)

Definition new_region (s e prot_ flags_ : Z) : vm_area := Vma s e 0 prot_ flags_ (-1) 0 0 no_blocks.

Lemma table_addr_node a : table_addr a -> node_addr a.
Proof.
  intros (pfn & Hp & ->). unfold PHYS_TO_LINEAR, PAGE_SIZE, LINEAR_MAP_START. rewrite wrap_small by (unfold fits; lia).
  split; [lia|]. rewrite Z.even_add, Z.even_mul. cbn. by rewrite orb_true_r.
Qed.

(** The state after a region was allocated and linked. *)
Definition linked w h (as_ new : Z) (v : vm_area) (m : gmap Z rbcell) (s : as_t) : vmm :=
  with_spaces (with_cells (with_vmas (with_mm w (set_heap (mm w) h)) (<[new := v]> (vmas w))) m)
    (<[as_ := As (pgd s) (vma_list s ++ [new]) (refcount s)]> (spaces w)).

Section insert.
Context w as_ l R (Hok : as_ok w as_ l R) (s e prot_ flags_ : Z).
Context (Hr : range_ok s e) (Hfree : range_free (vmas w) l s e).
Context (new : Z) (Hnew : ~ ph_own (heap (mm w)) new).
Let v := new_region s e prot_ flags_.
Let vs := <[new := v]> (vmas w).

Lemma new_fresh : new ∉ l /\ vmas w !! new = None /\ cells w !! new = None /\ as_ <> new.
Proof.
  assert (forall b, b ∈ dom (vmas w) ∪ dom (spaces w) ∪ dom (cells w) -> b <> new) as Hne.
  { intros b Hb ->. by apply Hnew, (ok_owned _ _ _ _ Hok). }
  destruct (ok_space _ _ _ _ Hok) as (sp & Es & _). split_and!.
  - intros Hin. destruct (ok_regions _ _ _ _ Hok new Hin) as (u & Eu & _).
    apply (Hne new); [apply elem_of_dom_2 in Eu; set_solver|done].
  - apply not_elem_of_dom. intros Hin. by apply (Hne new); [set_solver|].
  - apply not_elem_of_dom. intros Hin. by apply (Hne new); [set_solver|].
  - apply Hne. apply elem_of_dom_2 in Es. set_solver.
Qed.

Lemma old_region a : a ∈ l -> vs !! a = vmas w !! a.
Proof. intros Ha. unfold vs. apply lookup_insert_ne. intros <-. by destruct new_fresh. Qed.

Lemma old_vkey a : a ∈ l -> vkey vs a = vkey (vmas w) a.
Proof. intros Ha. unfold vkey. by rewrite old_region. Qed.

Lemma new_vkey : vkey vs new = s.
Proof. unfold vkey, vs. by rewrite lookup_insert_eq. Qed.

Lemma new_sorted : key_sorted (vkey vs) l.
Proof.
  eapply StronglySorted_weaken; [exact (as_ok_sorted _ _ _ _ Hok)|]. cbn. intros a b Ha Hb. by rewrite !old_vkey.
Qed.

Lemma new_side a : a ∈ l -> exists u, vmas w !! a = Some u /\ vkey vs a = start u /\
  ((start u < s /\ end_ u <= s) \/ (s < start u /\ e <= start u)).
Proof.
  intros Ha. destruct (ok_regions _ _ _ _ Hok a Ha) as (u & Eu & Hu). exists u. split_and!; [done|..].
  - by rewrite old_vkey, (vkey_Some _ _ _ Eu).
  - destruct Hr, Hu. destruct (Hfree a u Ha Eu); [right|left]; lia.
Qed.

Lemma new_cmp_ok : cmp_ok (vma_rb_cmp vs) (vkey vs) new l.
Proof.
  intros a Ha. destruct (new_side a Ha) as (u & Eu & Hk & _). unfold vma_rb_cmp.
  rewrite (old_region a Ha), Eu. unfold vs at 1. rewrite lookup_insert_eq. cbn.
  rewrite Hk, new_vkey. eexists. split; [reflexivity|].
  destruct (Z.ltb_spec (start u) s); [symmetry; apply Z.compare_lt_iff; lia|].
  destruct (Z.ltb_spec s (start u)); [symmetry; apply Z.compare_gt_iff; lia|].
  replace (start u) with s by lia. symmetry. apply Z.compare_refl.
Qed.

Lemma ins_ordered : StronglySorted (region_before vs) (ins (vkey vs) new l).
Proof.
  apply ins_StronglySorted; [exact new_sorted|..].
  - eapply StronglySorted_weaken; [exact (ok_order _ _ _ _ Hok)|]. cbn. intros a b Ha Hb Hab va vb.
    rewrite !old_region by done. apply Hab.
  - intros a Ha Hlt va vb. destruct (new_side a Ha) as (u & Eu & Hk & Hside). rewrite new_vkey, Hk in Hlt.
    rewrite (old_region a Ha), Eu. unfold vs. rewrite lookup_insert_eq. intros [= <-] [= <-]. cbn. lia.
  - intros a Ha Hle va vb. destruct (new_side a Ha) as (u & Eu & Hk & Hside). rewrite new_vkey, Hk in Hle.
    rewrite (old_region a Ha), Eu. unfold vs. rewrite lookup_insert_eq. intros [= <-] [= <-]. cbn. lia.
Qed.

Lemma linked_ok h m sp : ph_inv h -> ph_own h new -> (forall b, ph_own (heap (mm w)) b -> ph_own h b) ->
  spaces w !! as_ = Some sp -> vma_list sp ≡ₚ l ->
  dom m = {[new]} ∪ dom (cells w) -> tree_beside as_ (ins (vkey vs) new l) R m ->
  as_ok (linked w h as_ new v m sp) as_ (ins (vkey vs) new l) R.
Proof.
  intros Hi Ho Hk Es Hperm Hd Ht. constructor; cbn.
  - exact Ht.
  - eexists. split; [apply lookup_insert_eq|]. cbn. rewrite Hperm.
    clear. induction l as [|b l' IH]; cbn; [done|]. destruct (vkey vs b <? vkey vs new); [by rewrite IH|].
    exact (Permutation_app_comm (b :: l') [new]).
  - intros a [->|Ha]%ins_elem.
    + exists v. split; [apply lookup_insert_eq|exact Hr].
    + fold vs. rewrite (old_region a Ha). by apply (ok_regions _ _ _ _ Hok).
  - exact ins_ordered.
  - exact Hi.
  - intros a Ha. rewrite Hd, dom_insert_L, dom_insert_L in Ha. apply elem_of_dom_2 in Es.
    destruct (decide (a = new)) as [->|Hne]; [done|]. apply Hk, (ok_owned _ _ _ _ Hok). set_solver.
  - pose proof (ok_kinds _ _ _ _ Hok). pose proof (elem_of_dom_2 _ _ _ Es).
    assert (new ∉ dom (spaces w)) by (intros Hin; apply Hnew, (ok_owned _ _ _ _ Hok); set_solver).
    rewrite !dom_insert_L. set_solver.
Qed.

End insert.
Lemma kheap_alloc_Ok w n a h : ph_alloc n (heap (mm w)) = Ok (a, h) ->
  kheap_alloc_ n w = Ok (a, with_mm w (set_heap (mm w) h)).
Proof. intros E. unfold kheap_alloc_. by rewrite E. Qed.

Lemma as_at_Ok w a s : spaces w !! a = Some s -> as_at a w = Ok (s, w).
Proof. intros E. unfold as_at. by rewrite E. Qed.

Lemma put_as_Ok w a s s' : spaces w !! a = Some s -> put_as a s' w = Ok (tt, with_spaces w (<[a := s']> (spaces w))).
Proof. intros E. unfold put_as. by rewrite E. Qed.

Lemma as_ok_heap w as_ l R h : as_ok w as_ l R -> ph_inv h -> (forall b, ph_own (heap (mm w)) b -> ph_own h b) ->
  as_ok (with_mm w (set_heap (mm w) h)) as_ l R.
Proof. intros [] Hi Hk. constructor; cbn; auto. Qed.

(** What vma_add does with a range that is free. *)
Lemma vma_insert_spec w as_ l R s e prot_ flags_ :
  as_ok w as_ l R -> range_ok s e -> range_free (vmas w) l s e ->
  exists new h, ph_alloc SIZEOF_VM_AREA (heap (mm w)) = Ok (new, h) /\
    (0 < ph_room (heap (mm w)) -> new <> 0 /\ ph_room (heap (mm w)) - 1 <= ph_room h) /\
    keeps_own (mm w) (set_heap (mm w) h) /\
    ((new = 0 /\ vma_insert as_ s e prot_ flags_ w = Ok (- ENOMEM, with_mm w (set_heap (mm w) h)) /\
      as_ok (with_mm w (set_heap (mm w) h)) as_ l R) \/
     exists m sp, let w' := linked w h as_ new (new_region s e prot_ flags_) m sp in
       new <> 0 /\ spaces w !! as_ = Some sp /\ new ∉ l /\ vmas w !! new = None /\
       ~ ph_own (heap (mm w)) new /\ dom m = {[new]} ∪ dom (cells w) /\
       vma_insert as_ s e prot_ flags_ w = Ok (0, w') /\
       as_ok w' as_ (ins (vkey (vmas w')) new l) R).
Proof.
  intros Hok Hr Hfree. unfold vma_insert.
  destruct (ph_alloc_ok (heap (mm w)) SIZEOF_VM_AREA) as (new & h & Ea & Hi & Hk & Hown & Hroom);
    [exact (ok_heap _ _ _ _ Hok)|unfold SIZEOF_VM_AREA; lia|].
  exists new, h. split; [done|]. split; [intros Hro; apply Hroom; [unfold SIZEOF_VM_AREA, PAGE_SIZE; lia|done]|].
  split; [split; [exact Hk|eapply ph_alloc_used; [exact (ok_heap _ _ _ _ Hok)| |exact Ea]; unfold SIZEOF_VM_AREA; lia]|].
  rewrite (vm_bind_Ok _ _ _ _ _ (kheap_alloc_Ok _ _ _ _ Ea)).
  destruct (Z.eqb_spec new 0) as [->|Hz]; [left; split_and!; [done|done|by apply as_ok_heap]|right].
  destruct (Hown Hz) as [Hn Ho]; [unfold SIZEOF_VM_AREA, PAGE_SIZE; lia|].
  destruct (new_fresh w as_ l R Hok s e Hr Hfree new Hn) as (Hnl & Hnv & Hnc & Hne).
  destruct (ok_space _ _ _ _ Hok) as (sp & Es & Hperm).
  destruct (insert_run as_ l R (cells w) (ok_tree _ _ _ _ Hok)
              (vma_rb_cmp (<[new := new_region s e prot_ flags_]> (vmas w)))
              (vkey (<[new := new_region s e prot_ flags_]> (vmas w))) new (Node 0 0 0)) as (m & E & Hd & Ht).
  { by eapply new_sorted. }
  { by eapply new_cmp_ok. }
  { by eapply table_addr_node, ph_own_addr. }
  { done. }
  { intros b Hb. destruct (new_side w as_ l R Hok s e prot_ flags_ Hr Hfree new Hn b Hb) as (u & _ & -> & Hs).
    rewrite new_vkey. lia. }
  exists m, sp. cbn zeta. split_and!; [done|done|done|done|done|done| |].
  - rewrite (vm_bind_Ok (modify _) _ _ tt _ eq_refl).
    set (w1 := with_cells (with_vmas (with_mm w (set_heap (mm w) h)) (<[new := new_region s e prot_ flags_]> (vmas w))) m).
    rewrite (vm_bind_Ok _ _ _ 0 w1) by (unfold on_tree; cbn; unfold new_region in E; by rewrite E).
    assert (spaces w1 !! as_ = Some sp) as Es1 by done.
    cbn [Z.eqb negb]. rewrite (vm_bind_Ok _ _ _ _ _ (as_at_Ok _ _ _ Es1)).
    by rewrite (vm_bind_Ok _ _ _ _ _ (put_as_Ok _ _ _ _ Es1)).
  - by apply (linked_ok w as_ l R Hok s e prot_ flags_ Hr Hfree new Hn).
Qed.

(** vma_add's own checks. *)
Lemma land_page_aligned x : (Z.land x (PAGE_SIZE - 1) =? 0) = (x mod PAGE_SIZE =? 0).
Proof. change (PAGE_SIZE - 1) with (Z.ones 12). by rewrite Z.land_ones by lia. Qed.

Definition vma_fits w (l : list Z) (s e : Z) : Prop := range_ok s e /\ range_free (vmas w) l s e.

#[export] Instance vma_fits_dec w l s e : Decision (vma_fits w l s e).
Proof. unfold vma_fits. apply _. Defined.

Lemma vma_add_rejects w as_ l R s e prot_ flags_ : as_ok w as_ l R -> 0 <= s -> e < 2 ^ 64 ->
  ~ vma_fits w l s e -> vma_add as_ s e prot_ flags_ w = Ok (- EINVAL, w).
Proof.
  intros Hok Hs He Hno. unfold vma_add. destruct (as_ =? 0); [done|].
  destruct (Z.leb_spec e s); [done|]. rewrite !land_page_aligned.
  destruct (Z.eqb_spec (s mod PAGE_SIZE) 0); [|done]. destruct (Z.eqb_spec (e mod PAGE_SIZE) 0); [|done]. cbn [negb orb].
  destruct (vma_range_free_spec w as_ l R s e Hok) as (b & E & Hb); [done|].
  rewrite (vm_bind_Ok _ _ _ _ _ E). destruct b; [|done]. destruct Hno. split; [by repeat split|by apply Hb].
Qed.

Lemma vma_add_inserts w as_ l R s e prot_ flags_ : as_ok w as_ l R -> as_ <> 0 -> vma_fits w l s e ->
  vma_add as_ s e prot_ flags_ w = vma_insert as_ s e prot_ flags_ w.
Proof.
  intros Hok Has [Hr Hfree]. pose proof Hr as ((? & ?) & ? & Hsa & Hea).
  unfold vma_add. rewrite (proj2 (Z.eqb_neq _ _) Has). rewrite (proj2 (Z.leb_gt _ _)) by done.
  rewrite !land_page_aligned, Hsa, Hea. cbn [negb orb Z.eqb].
  destruct (vma_range_free_spec w as_ l R s e Hok) as (b & E & Hb); [done|].
  rewrite (vm_bind_Ok _ _ _ _ _ E). apply Hb in Hfree as ->. done.
Qed.

(** ** Choosing an address *)

(** All regions lie in the part of the space that mappings may use. *)
Definition user_ok w (l : list Z) : Prop :=
  forall a v, a ∈ l -> vmas w !! a = Some v -> USER_START <= start v /\ end_ v <= USER_STACK_TOP.

(** Where the next automatic mapping starts. *)
Definition next_addr w (l : list Z) : Z :=
  if lst0 l =? 0 then USER_START
  else match vmas w !! lst0 l with Some v => end_ v + 4096 | None => 0 end.

Lemma align_down x : 0 <= x < 2 ^ 64 -> Z.land x (cnot 64 (PAGE_SIZE - 1)) = x - x mod PAGE_SIZE.
Proof.
  intros Hx. change (cnot 64 (PAGE_SIZE - 1)) with (Z.ldiff (Z.ones 64) (Z.ones 12)).
  assert (Z.land x (Z.ldiff (Z.ones 64) (Z.ones 12)) = Z.ldiff x (Z.ones 12)) as ->.
  { apply Z.bits_inj'. intros i Hi. rewrite Z.land_spec, !Z.ldiff_spec.
    destruct (Z.testbit (Z.ones 12) i); [by rewrite !andb_false_r|]. rewrite !andb_true_r.
    destruct (Z.ltb_spec i 64); [rewrite Z.ones_spec_low by lia; by rewrite andb_true_r|].
    rewrite (fits_testbit 64 x) by (unfold fits; lia). done. }
  rewrite Z.ldiff_ones_r, Z.shiftr_div_pow2, Z.shiftl_mul_pow2 by lia. change (2 ^ 12) with PAGE_SIZE.
  rewrite (Z.div_mod x PAGE_SIZE) at 2 by done. lia.
Qed.

Lemma as_alloc_addr_spec w as_ l R size : as_ok w as_ l R -> user_ok w l -> as_ <> 0 ->
  0 < size <= 2 ^ 47 -> size mod PAGE_SIZE = 0 ->
  let r := if USER_STACK_TOP <? next_addr w l + size then 0 else next_addr w l in
  as_alloc_addr as_ size w = Ok (r, w) /\
  next_addr w l mod PAGE_SIZE = 0 /\ USER_START <= next_addr w l /\
  (forall a v, a ∈ l -> vmas w !! a = Some v -> end_ v <= next_addr w l).
Proof.
  intros Hok Hu Has Hsz Hal. unfold as_alloc_addr, vma_find_end, next_addr.
  rewrite (proj2 (Z.eqb_neq _ _) Has), (proj2 (Z.eqb_neq size 0)) by lia. cbn [orb].
  assert (u64 (u64 (size + PAGE_SIZE - 1) / PAGE_SIZE * PAGE_SIZE) = size) as ->.
  { rewrite (wrap_small 64 (size + PAGE_SIZE - 1)) by (unfold fits, PAGE_SIZE; lia).
    assert ((size + PAGE_SIZE - 1) / PAGE_SIZE * PAGE_SIZE = size) as ->; [|by apply wrap_small; unfold fits; lia].
    unfold PAGE_SIZE in *. dlia. }
  rewrite (vm_bind_Ok _ _ _ _ _ (on_tree_read _ _ _ (last_run as_ l R (cells w) (ok_tree _ _ _ _ Hok)))).
  destruct (lst0_cases l) as [->|(l' & p & El & ->)].
  { change (lst0 []) with 0. rewrite Z.eqb_refl, (vm_bind_Ok _ _ w USER_START w eq_refl).
    rewrite wrap_small by (unfold fits, USER_START; lia). split_and!; [done|done|done|set_solver]. }
  assert (p ∈ l) as Hin by (rewrite El; set_solver). rewrite (as_ok_nonzero _ _ _ _ _ Hok Hin).
  destruct (ok_regions _ _ _ _ Hok p Hin) as (v & Ev & ((? & ?) & ? & _ & He)). destruct (Hu p v Hin Ev) as [Hus Hue].
  rewrite Ev. rewrite (vm_bind_Ok _ _ w (end_ v + 4096) w).
  2:{ rewrite (vm_bind_Ok _ _ _ _ _ (vma_at_Ok _ _ _ Ev)). unfold mret, vm_ret. do 2 f_equal.
      unfold USER_STACK_TOP in Hue. rewrite !wrap_small by (unfold fits, PAGE_SIZE; rewrite ?wrap_small by (unfold fits; lia); lia).
      rewrite align_down by (unfold PAGE_SIZE; lia). unfold PAGE_SIZE in *. dlia. }
  unfold USER_START, USER_STACK_TOP, PAGE_SIZE in *.
  rewrite wrap_small by (unfold fits; lia). split_and!; [done|dlia|lia|].
  intros a u Ha Eu. rewrite El in Ha. apply elem_of_app in Ha as [Ha|Ha].
  - assert (end_ u <= start v).
    { apply (as_ok_split w as_ l R l' [p] a p u v); [exact Hok|done|done|set_solver|done|done]. }
    lia.
  - apply list_elem_of_singleton in Ha as ->. rewrite Ev in Eu. injection Eu as <-. lia.
Qed.

(** ** Lazy anonymous mappings *)

(** A region [new] for the range was added and nothing else changed for the
    other regions. *)
Definition mapped_region w w' (as_ : Z) (l : list Z) R (s e prot_ flags_ new : Z) : Prop :=
  new ∉ l /\ vmas w !! new = None /\ vmas w' = <[new := new_region s e prot_ flags_]> (vmas w) /\
  as_ok w' as_ (ins (vkey (vmas w')) new l) R /\ tables (mm w') = tables (mm w) /\ memory w' = memory w /\
  (exists s, spaces w !! as_ = Some s /\ spaces w' = <[as_ := As (pgd s) (vma_list s ++ [new]) (refcount s)]> (spaces w)) /\
  keeps_own (mm w) (mm w') /\ (0 < ph_room (heap (mm w)) -> ph_room (heap (mm w)) - 1 <= ph_room (heap (mm w'))) /\
  ~ ph_own (heap (mm w)) new /\ dom (cells w') = {[new]} ∪ dom (cells w).

(** The region that holds the address is the one that is found. *)
Lemma find_region w as_ l R a v addr : as_ok w as_ l R -> as_ <> 0 -> a ∈ l -> vmas w !! a = Some v ->
  start v <= addr < end_ v -> vma_find as_ addr w = Ok (a, w).
Proof.
  intros Hok Has Hin En Ha.
  destruct (vma_find_spec w as_ _ R addr Hok Has) as (r & E & [(Hrin & u & Er & Hu)|(-> & Hno)]).
  - destruct (decide (r = a)) as [->|Hne]; [done|]. exfalso.
    pose proof (ok_order _ _ _ _ Hok) as Ho.
    destruct (elem_of_StronglySorted_pair _ _ r a Ho Hrin Hin Hne) as [Hb|Hb];
      [specialize (Hb _ _ Er En)|specialize (Hb _ _ En Er)]; lia.
  - exfalso. apply (Hno a _ Hin En). lia.
Qed.

Lemma find_new w w' as_ l R s e prot_ flags_ new : as_ <> 0 -> range_ok s e ->
  mapped_region w w' as_ l R s e prot_ flags_ new -> vma_find as_ s w' = Ok (new, w').
Proof.
  intros Has Hr (Hn & _ & Ev & Hok & _). pose proof Hr as ((? & ?) & _).
  eapply (find_region _ _ _ _ new); [exact Hok|done|apply ins_elem; by left|rewrite Ev; apply lookup_insert_eq|cbn; lia].
Qed.

(** vmm_map_anon, once the address is known. *)
Definition map_anon_at (as_ addr size prot_ flags_ anon_vma : Z) : vm (H := H) (F := F) (Z * Z) :=
  ret ← vma_add as_ addr (u64 (addr + size)) prot_ flags_;
  if ret <? 0 then mret (ret, 0)
  else
    vma ← vma_find as_ addr;
    if vma =? 0 then mret (- EIO, 0)
    else
      _ ← vma_set_anon vma anon_vma;
      mret (0, addr).

Lemma map_anon_at_spec w as_ l R a size prot_ flags_ anon_vma : as_ok w as_ l R -> as_ <> 0 ->
  0 <= a -> a + size < 2 ^ 64 -> 0 < size ->
  exists r w', map_anon_at as_ a size prot_ flags_ anon_vma w = Ok (r, w') /\
    ((r = (- EINVAL, 0) /\ ~ vma_fits w l a (a + size) /\ w' = w) \/
     (r = (- ENOMEM, 0) /\ ph_room (heap (mm w)) <= 0 /\ as_ok w' as_ l R) \/
     (r = (0, a) /\ vma_fits w l a (a + size) /\
      exists new, mapped_region w w' as_ l R a (a + size) prot_ flags_ new)).
Proof.
  intros Hok Has Ha Hb Hs. unfold map_anon_at. rewrite wrap_small by (unfold fits; lia).
  destruct (decide (vma_fits w l a (a + size))) as [Hfit|Hno].
  - destruct (vma_insert_spec w as_ l R a (a + size) prot_ flags_ Hok) as (new & h & Ea & Hroom & Hk & Hc); [apply Hfit..|].
    destruct Hc as [(-> & E & Hok')|(m & sp & Hz & Es & Hnl & Hnv & Hno' & Hdm & E & Hok')].
    + eexists _, _. rewrite (vm_bind_Ok _ _ _ _ _ (eq_trans (vma_add_inserts _ _ _ _ _ _ _ _ Hok Has Hfit) E)).
      split; [reflexivity|]. right. left. split_and!; [done| |done]. destruct (Z.le_gt_cases (ph_room (heap (mm w))) 0); [done|].
      by destruct Hroom.
    + set (w' := linked w h as_ new (new_region a (a + size) prot_ flags_) m sp) in *.
      assert (mapped_region w w' as_ l R a (a + size) prot_ flags_ new) as Hm by (split_and!; [done|done|done|done|done|done|by exists sp|exact Hk|intros Hro; by apply Hroom|done|done]).
      exists (0, a), w'. rewrite (vm_bind_Ok _ _ _ _ _ (eq_trans (vma_add_inserts _ _ _ _ _ _ _ _ Hok Has Hfit) E)).
      cbn [Z.ltb Z.compare]. rewrite (vm_bind_Ok _ _ _ _ _ (find_new _ _ _ _ _ _ _ _ _ _ Has (proj1 Hfit) Hm)).
      rewrite (proj2 (Z.eqb_neq _ _) Hz).
      assert (vmas w' !! new = Some (new_region a (a + size) prot_ flags_)) as En by apply lookup_insert_eq.
      rewrite (vm_bind_Ok _ _ w' tt w').
      * split; [done|]. right. right. split_and!; [done|done|]. by exists new.
      * unfold vma_set_anon. rewrite (vm_bind_Ok _ _ _ _ _ (vma_at_Ok _ _ _ En)). unfold put_vma. rewrite En, deref_Some, Ok_bind.
        do 2 f_equal. change (set_path _ 0) with (new_region a (a + size) prot_ flags_).
        rewrite insert_id by done. by destruct w'.
  - exists (- EINVAL, 0), w. rewrite (vm_bind_Ok _ _ _ _ _ (vma_add_rejects w as_ l R _ _ _ _ Hok Ha Hb Hno)). auto.
Qed.

(** ** Removing a region *)

Lemma kheap_free_Ok w a h : ph_free a (heap (mm w)) = Ok h -> kheap_free_ a w = Ok (tt, with_mm w (set_heap (mm w) h)).
Proof. intros E. unfold kheap_free_. by rewrite E. Qed.

(** The state after an anonymous region was unlinked and freed. *)
Definition unlinked w h (as_ a : Z) (m : gmap Z rbcell) (s : as_t) : vmm :=
  with_cells (with_vmas (with_mm (with_spaces w (<[as_ := As (pgd s) (filter (fun x => x <> a) (vma_list s)) (refcount s)]> (spaces w)))
    (set_heap (mm w) h)) (delete a (vmas w))) (delete a m).

Lemma filter_keeps {A} (P : A -> Prop) `{!forall x, Decision (P x)} l : Forall P l -> filter P l = l.
Proof. induction 1 as [|x l Hx _ IH]; [done|]. by rewrite filter_cons_True, IH. Qed.

Lemma filter_ne_Permutation (a : Z) l1 l2 k : NoDup (l1 ++ a :: l2) -> k ≡ₚ l1 ++ a :: l2 ->
  filter (fun x => x <> a) k ≡ₚ l1 ++ l2.
Proof.
  intros Hd ->. rewrite filter_app, filter_cons_False by (intros Hn; by apply Hn).
  apply NoDup_app in Hd as (_ & Ha1 & [Ha2 _]%NoDup_cons).
  rewrite !filter_keeps; [done|..]; apply Forall_forall; intros x Hx ->; [done|]. by apply (Ha1 a); [|left].
Qed.

Lemma vma_remove_spec w as_ l1 a l2 R v : as_ok w as_ (l1 ++ a :: l2) R -> as_ <> 0 ->
  vmas w !! a = Some v -> offset_or_anon v < 0 -> file_or_anon v = 0 ->
  exists h m s, let w' := unlinked w h as_ a m s in
    spaces w !! as_ = Some s /\ vma_remove as_ a w = Ok (0, w') /\ dom m = dom (cells w) /\
    ph_free a (heap (mm w)) = Ok h /\ as_ok w' as_ (l1 ++ l2) R.
Proof.
  intros Hok Has Ev Hoff Hfa. pose proof (as_ok_NoDup _ _ _ _ Hok) as Hd.
  assert (a ∈ l1 ++ a :: l2) as Hin by set_solver.
  destruct (ok_space _ _ _ _ Hok) as (s & Es & Hperm).
  destruct (remove_run as_ _ R (cells w) (ok_tree _ _ _ _ Hok) l1 a l2 eq_refl Hd) as (m & E & Hdom & Ht).
  destruct (ph_free_ok (heap (mm w)) a) as (h & Ef & Hi & Hk & _).
  { exact (ok_heap _ _ _ _ Hok). }
  { apply ph_own_block, (ok_owned _ _ _ _ Hok). apply elem_of_dom_2 in Ev. set_solver. }
  exists h, m, s. cbn zeta. split; [done|]. split; [|split; [done|split; [done|]]].
  - unfold vma_remove. rewrite (proj2 (Z.eqb_neq _ _) Has), (as_ok_nonzero _ _ _ _ _ Hok Hin). cbn [orb].
    rewrite (vm_bind_Ok _ _ _ _ _ (as_at_Ok _ _ _ Es)), (vm_bind_Ok _ _ _ _ _ (put_as_Ok _ _ _ _ Es)).
    set (w1 := with_cells (with_spaces w (<[as_ := As (pgd s) (filter (fun x => x <> a) (vma_list s)) (refcount s)]> (spaces w))) m).
    rewrite (vm_bind_Ok _ _ _ tt w1) by (unfold on_tree; cbn; by rewrite E).
    assert (vmas w1 !! a = Some v) as Ev1 by done. rewrite (vm_bind_Ok _ _ _ _ _ (vma_at_Ok _ _ _ Ev1)).
    rewrite (proj2 (Z.ltb_lt _ _) Hoff). cbn zeta. rewrite Hfa, Z.eqb_refl. cbn [negb].
    rewrite (vm_bind_Ok _ _ w1 tt w1 eq_refl).
    assert (ph_free a (heap (mm w1)) = Ok h) as Ef1 by done. rewrite (vm_bind_Ok _ _ _ _ _ (kheap_free_Ok _ _ _ Ef1)).
    by rewrite (vm_bind_Ok (modify _) _ _ tt _ eq_refl).
  - constructor; cbn.
    + exact Ht.
    + eexists. split; [apply lookup_insert_eq|]. cbn. by apply filter_ne_Permutation.
    + intros b Hb. rewrite lookup_delete_ne; [apply (ok_regions _ _ _ _ Hok); set_solver|].
      intros <-. apply NoDup_app in Hd as (_ & Ha1 & [Ha2 _]%NoDup_cons). set_solver.
    + pose proof (ok_order _ _ _ _ Hok) as Ho. apply (StronglySorted_weaken (region_before (vmas w))).
      * apply StronglySorted_app in Ho as (Ho & Ho1 & [Ho2 _]%StronglySorted_inv).
        apply StronglySorted_app. split_and!; [|done|done]. intros x y Hx Hy. apply Ho; [done|by right].
      * intros x y _ _ Hxy vx vy [_ Ex]%lookup_delete_Some [_ Ey]%lookup_delete_Some. by apply Hxy.
    + exact Hi.
    + intros b Hb. pose proof (ok_kinds _ _ _ _ Hok). pose proof (elem_of_dom_2 _ _ _ Es). pose proof (elem_of_dom_2 _ _ _ Ev).
      rewrite dom_insert_L, !dom_delete_L, Hdom in Hb.
      apply Hk; [set_solver|]. apply (ok_owned _ _ _ _ Hok). set_solver.
    + pose proof (ok_kinds _ _ _ _ Hok). pose proof (elem_of_dom_2 _ _ _ Es). rewrite dom_insert_L, dom_delete_L. set_solver.
Qed.

(** ** Unmapping *)

(** A region whose memory has not been touched yet. *)
Definition lazy_region (v : vm_area) : Prop :=
  offset_or_anon v < 0 /\ file_or_anon v = 0 /\ linear_addr v = 0 /\ page_table_blocks (ptb v) = 0.

(** Every translation of the range is dropped from the TLB. *)
Definition flushed w w' (s e : Z) : Prop :=
  exists fs, flushes w' = flushes w ++ fs /\
    (None ∈ fs \/ forall p, s <= p < e -> p mod PAGE_SIZE = 0 -> Some p ∈ fs).

Lemma invalidate_run e n : forall s w fuel, e - s = Z.of_nat n * PAGE_SIZE -> (n < fuel)%nat ->
  vm_loop fuel (fun va => if va <? e then _ ← mmu_invalidate va; mret (inl (va + PAGE_SIZE)) else mret (inr tt)) s w =
  Ok (tt, with_flushes w (flushes w ++ ((fun i => Some (s + Z.of_nat i * PAGE_SIZE)) <$> seq 0 n))).
Proof.
  induction n as [|n IH]; intros s w [|fuel] He Hf; try lia; cbn [vm_loop].
  - rewrite (vm_bind_Ok _ _ w (inr tt) w); [cbn; rewrite app_nil_r; by destruct w|].
    rewrite (proj2 (Z.ltb_ge s e)) by lia. done.
  - rewrite (vm_bind_Ok _ _ w (inl (s + PAGE_SIZE)) (with_flushes w (flushes w ++ [Some s]))).
    + rewrite IH by (unfold PAGE_SIZE in *; lia). cbn. do 3 f_equal. rewrite <- app_assoc. cbn.
      rewrite <- seq_shift, <- list_fmap_compose. f_equal. f_equal; [f_equal; lia|].
      apply list_fmap_ext. intros i x _. cbn. f_equal. lia.
    + rewrite (proj2 (Z.ltb_lt s e)) by (unfold PAGE_SIZE in *; lia). done.
Qed.

Lemma flush_loop_spec s e w : range_ok s e -> (e - s) / PAGE_SIZE <= TLB_FLUSH_THRESHOLD_PAGES ->
  exists w', vm_loop (Datatypes.S (Z.to_nat TLB_FLUSH_THRESHOLD_PAGES))
      (fun va => if va <? e then _ ← mmu_invalidate va; mret (inl (va + PAGE_SIZE)) else mret (inr tt)) s w = Ok (tt, w') /\
    flushed w w' s e /\ w' = with_flushes w (flushes w').
Proof.
  intros Hr Hle. pose proof Hr as ((Hs0 & Hse) & He & Hs & Hem).
  assert (e - s = (e - s) / PAGE_SIZE * PAGE_SIZE) as Hd by (unfold PAGE_SIZE in *; Z.to_euclidean_division_equations; lia).
  pose proof (Z.div_pos (e - s) PAGE_SIZE ltac:(lia) ltac:(done)).
  eexists. split; [apply (invalidate_run e (Z.to_nat ((e - s) / PAGE_SIZE))); [by rewrite Z2Nat.id|unfold TLB_FLUSH_THRESHOLD_PAGES in *; lia]|].
  split; [|done]. eexists. split; [reflexivity|]. right. intros p Hp Hm. apply list_elem_of_fmap.
  exists (Z.to_nat ((p - s) / PAGE_SIZE)). split; [f_equal|apply elem_of_seq]; unfold PAGE_SIZE in *; Z.to_euclidean_division_equations; lia.
Qed.

Lemma as_ok_flushes w as_ l R fs : as_ok w as_ l R -> as_ok (with_flushes w fs) as_ l R.
Proof. intros []. by constructor. Qed.

Lemma as_unmap_spec w as_ l1 a l2 R v addr : as_ok w as_ (l1 ++ a :: l2) R -> as_ <> 0 ->
  vmas w !! a = Some v -> lazy_region v -> start v <= addr < end_ v ->
  exists w', as_unmap as_ addr w = Ok (0, w') /\ as_ok w' as_ (l1 ++ l2) R /\ vmas w' = delete a (vmas w) /\
    flushed w w' (start v) (end_ v) /\ tables (mm w') = tables (mm w) /\ memory w' = memory w.
Proof.
  intros Hok Has Ev (Hoff & Hfa & Hlin & Hptb) Hin.
  assert (a ∈ l1 ++ a :: l2) as Hal by set_solver.
  destruct (ok_regions _ _ _ _ Hok a Hal) as (v' & Ev' & Hr). rewrite Ev in Ev'. injection Ev' as <-.
  unfold as_unmap. rewrite (proj2 (Z.eqb_neq _ _) Has).
  rewrite (vm_bind_Ok _ _ _ _ _ (find_region _ _ _ _ _ _ _ Hok Has Hal Ev Hin)), (as_ok_nonzero _ _ _ _ _ Hok Hal).
  rewrite (vm_bind_Ok _ _ w (start v, end_ v) w) by (unfold vma_range; by rewrite (vm_bind_Ok _ _ _ _ _ (vma_at_Ok _ _ _ Ev))).
  rewrite (vm_bind_Ok _ _ _ _ _ (vma_at_Ok _ _ _ Ev)).
  rewrite (vm_bind_Ok _ _ w (- EINVAL) w); cycle 1.
  { unfold on_mmu, mmu_remove_map. rewrite Hptb. cbn. by destruct w. }
  rewrite Hlin. cbn [Z.eqb negb]. rewrite (vm_bind_Ok _ _ w tt w eq_refl).
  assert (exists w1, (if TLB_FLUSH_THRESHOLD_PAGES <? (end_ v - start v) / PAGE_SIZE then mmu_invalidate_all
           else
             vm_loop (Datatypes.S (Z.to_nat TLB_FLUSH_THRESHOLD_PAGES)) (fun va =>
               if va <? end_ v then _ ← mmu_invalidate va; mret (inl (va + PAGE_SIZE)) else mret (inr tt)) (start v)) w = Ok (tt, w1) /\
    flushed w w1 (start v) (end_ v) /\ w1 = with_flushes w (flushes w1)) as (w1 & E1 & Hfl & Ew1).
  { destruct (Z.ltb_spec TLB_FLUSH_THRESHOLD_PAGES ((end_ v - start v) / PAGE_SIZE)).
    - eexists. split; [reflexivity|]. split; [|done]. eexists. split; [reflexivity|]. left. set_solver.
    - by apply flush_loop_spec. }
  rewrite (vm_bind_Ok _ _ _ _ _ E1).
  assert (as_ok w1 as_ (l1 ++ a :: l2) R) as Hok1 by (rewrite Ew1; by apply as_ok_flushes).
  assert (vmas w1 !! a = Some v) as Ev1 by (rewrite Ew1; done).
  destruct (vma_remove_spec w1 as_ l1 a l2 R v Hok1 Has Ev1 Hoff Hfa) as (h & m & s & Es & E & _ & _ & Hok2).
  eexists. split; [exact E|]. split; [exact Hok2|]. rewrite Ew1. cbn. split_and!; [done| |done|done].
  destruct Hfl as (fs & Ef & Hc). exists fs. split; [exact Ef|exact Hc].
Qed.

End spec.
