(* ===== verification/AsDestroy.v ===== *)
(** * Tearing down address spaces: theorems

    The loop of as_cleanup frees the regions one by one and ends; the last
    reference to an address space gives back the memory of its regions, their
    structures, its page directory and its own structure, each once, and
    leaves every other object alone.  The table pages under the directory and
    the arrays that list them are among what is left: nothing frees them. *)

From S2P Require Import Prelude Bitmap Buddy Heap Mmu MmuSpec SepLogic RbTree RbShape RbSpec AddressSpace AsTree VmmMap AsSpec.

Local Open Scope Z_scope.

Section destroy.
Context {H F : Type} `{PageHeapLaws H} `{VfsEnv F}.
Abbreviation vmm := (vmm (H := H) (F := F)).
Implicit Types w : vmm.

(** Freeing objects one after the other. *)
Fixpoint free_all (l : list Z) (h : H) : outcome H :=
  match l with [] => Ok h | a :: l => h ← ph_free a h; free_all l h end.

Lemma free_all_app l1 l2 h : free_all (l1 ++ l2) h = h1 ← free_all l1 h; free_all l2 h1.
Proof.
  revert h. induction l1 as [|a l1 IH]; intros h; [done|]. cbn. destruct (ph_free a h) as [h1| |]; [|done..]. cbn. apply IH.
Qed.

(** Distinct objects of the heap can all be freed; the other ones stay. *)
Lemma free_all_ok l : forall h, ph_inv h -> NoDup l -> Forall (ph_block h) l ->
  exists h', free_all l h = Ok h' /\ ph_inv h' /\ (forall b, b ∉ l -> ph_own h b -> ph_own h' b) /\
    (forall b, b ∉ l -> ph_block h b -> ph_block h' b).
Proof.
  induction l as [|a l IH]; intros h Hi Hd Hb; [by exists h|].
  apply NoDup_cons in Hd as [Ha Hd]. apply Forall_cons in Hb as [Hba Hb].
  destruct (ph_free_ok h a Hi Hba) as (h1 & E1 & Hi1 & Ho1 & Hb1). cbn [free_all]. rewrite E1, Ok_bind.
  destruct (IH h1 Hi1 Hd) as (h2 & E2 & Hi2 & Ho2 & Hb2).
  { rewrite Forall_forall in *. intros b Hin. apply Hb1; [by intros ->|by apply Hb]. }
  exists h2. split_and!; [done|done|..]; intros b [Hba' Hbl]%not_elem_of_cons Hx; [by apply Ho2, Ho1|by apply Hb2, Hb1].
Qed.

(** What the heap holds for a region: its memory, when it has some, and its
    structure. *)
Definition region_objects (vs : gmap Z vm_area) (a : Z) : list Z :=
  match vs !! a with
  | Some v => (if linear_addr v =? 0 then [] else [linear_addr v]) ++ [a]
  | None => [a]
  end.

Definition regions_objects (vs : gmap Z vm_area) (k : list Z) : list Z := mjoin (region_objects vs <$> k).

(** Everything that goes with an address space: for each region, in the order
    of the list, its memory and its structure; then the page directory, then
    the structure of the space. *)
Definition space_objects w (as_ : Z) (s : as_t) : list Z :=
  regions_objects (vmas w) (vma_list s) ++ [PHYS_TO_LINEAR (pgd s); as_].

(** The memory that the regions record lies in the heap beside the
    structures. *)
Definition anon_regions w (l : list Z) : Prop := forall a v, a ∈ l -> vmas w !! a = Some v ->
  offset_or_anon v < 0 /\ file_or_anon v = 0 /\
  (linear_addr v <> 0 -> ph_block (heap (mm w)) (linear_addr v) /\
     linear_addr v ∉ dom (vmas w) ∪ dom (spaces w) ∪ dom (cells w)).

(** The regions of [k] are gone and were freed; everything else is as it was. *)
Record cleaned w w' (as_ : Z) (k : list Z) : Prop := {
  cl_vmas a : vmas w' !! a = if decide (a ∈ k) then None else vmas w !! a;
  cl_space : exists s s', spaces w !! as_ = Some s /\ spaces w' = <[as_ := s']> (spaces w) /\
    pgd s' = pgd s /\ refcount s' = refcount s;
  cl_free : free_all (regions_objects (vmas w) k) (heap (mm w)) = Ok (heap (mm w'));
  cl_cells : dom (cells w') = dom (cells w) ∖ list_to_set k;
  cl_rest : tables (mm w') = tables (mm w) /\ memory w' = memory w /\ files w' = files w /\ anons w' = anons w
}.

(** Freeing what is none of the structures. *)
Lemma as_ok_freed w as_ l R a h : as_ok w as_ l R -> ph_block (heap (mm w)) a ->
  a ∉ dom (vmas w) ∪ dom (spaces w) ∪ dom (cells w) -> ph_free a (heap (mm w)) = Ok h ->
  as_ok (with_mm w (set_heap (mm w) h)) as_ l R.
Proof.
  intros [Ht Hs Hr Ho Hh Hown Hk] Hb Ha E.
  destruct (ph_free_ok (heap (mm w)) a Hh Hb) as (h' & E' & Hi & Hkeep & _). rewrite E in E'. injection E' as <-.
  constructor; cbn; try done. intros b Hin. apply Hkeep; [by intros ->|by apply Hown].
Qed.

Lemma cleanup_turn w as_ l R s a k : as_ok w as_ l R -> as_ <> 0 -> anon_regions w l ->
  spaces w !! as_ = Some s -> vma_list s = a :: k ->
  exists l' w' s', cleanup_step as_ tt w = Ok (inl tt, w') /\ as_ok w' as_ l' R /\ cleaned w w' as_ [a] /\
    spaces w' !! as_ = Some s' /\ vma_list s' = k /\ (forall b, b ∈ l <-> b = a \/ b ∈ l') /\ a ∉ l'.
Proof.
  intros Hok Has Hanon Es Ek. destruct (ok_space _ _ _ _ Hok) as (s0 & Es0 & Hperm). rewrite Es in Es0. injection Es0 as <-.
  assert (a ∈ l) as Hin by (rewrite <- Hperm, Ek; by left).
  destruct (ok_regions _ _ _ _ Hok a Hin) as (v & Ev & _). destruct (Hanon a v Hin Ev) as (Hoff & Hfa & Hlin).
  pose proof (as_ok_NoDup _ _ _ _ Hok) as Hd.
  assert (NoDup (a :: k)) as [Hak Hdk]%NoDup_cons by (rewrite <- Ek, Hperm; done).
  assert (exists w1, (if negb (linear_addr v =? 0) then kheap_free_ (linear_addr v) else mret tt) w = Ok (tt, w1) /\
    as_ok w1 as_ l R /\ free_all (if linear_addr v =? 0 then [] else [linear_addr v]) (heap (mm w)) = Ok (heap (mm w1)) /\
    w1 = with_mm w (set_heap (mm w) (heap (mm w1)))) as (w1 & E1 & Hok1 & Hf1 & Ew1).
  { destruct (Z.eqb_spec (linear_addr v) 0) as [Hz|Hz]; cbn [negb].
    - exists w. split_and!; [done|done|done|]. by destruct w as [[]].
    - destruct (Hlin Hz) as [Hb Hout].
      destruct (ph_free_ok _ _ (ok_heap _ _ _ _ Hok) Hb) as (h & E & _). exists (with_mm w (set_heap (mm w) h)).
      split_and!; [by apply kheap_free_Ok|by eapply as_ok_freed|cbn; by rewrite E|done]. }
  destruct (list_elem_of_split _ _ Hin) as (l1 & l2 & ->).
  assert (vmas w1 !! a = Some v) as Ev1 by (rewrite Ew1; done).
  destruct (vma_remove_spec w1 as_ l1 a l2 R v Hok1 Has Ev1 Hoff Hfa) as (h & m & s' & Es' & E & Hdom & Ef & Hok').
  assert (spaces w1 = spaces w /\ vmas w1 = vmas w /\ cells w1 = cells w) as (Hs1 & Hv1 & Hc1) by (rewrite Ew1; done).
  rewrite Hs1, Es in Es'. injection Es' as <-.
  eexists (l1 ++ l2), _, _. split; [|split; [exact Hok'|split; [|split; [apply lookup_insert_eq|]]]].
  - unfold cleanup_step. rewrite (vm_bind_Ok _ _ _ _ _ (as_at_Ok _ _ _ Es)), Ek.
    rewrite (vm_bind_Ok _ _ _ _ _ (vma_at_Ok _ _ _ Ev)), (vm_bind_Ok _ _ _ _ _ E1).
    by rewrite (vm_bind_Ok _ _ _ _ _ E).
  - constructor; cbn.
    + rewrite Hv1. intros b. destruct (decide (b ∈ [a])) as [->%list_elem_of_singleton|Hb]; [apply lookup_delete_eq|].
      apply lookup_delete_ne. intros <-. set_solver.
    + exists s. rewrite Hs1. eexists. split_and!; [done|reflexivity|done|done].
    + unfold regions_objects, region_objects. cbn. rewrite Ev, app_nil_r, free_all_app, Hf1, Ok_bind. cbn. by rewrite Ef.
    + rewrite dom_delete_L, Hdom, Hc1. set_solver.
    + rewrite Ew1. done.
  - cbn [vma_list]. rewrite Ek, filter_cons_False by (intros Hn; by apply Hn).
    rewrite filter_keeps by (apply Forall_forall; intros x Hx ->; done).
    apply NoDup_app in Hd as (_ & Ha1 & [Ha2 _]%NoDup_cons). split_and!; [done|set_solver|].
    intros [Hx|Hx]%elem_of_app; [by apply (Ha1 a); [|left]|done].
Qed.

Lemma regions_objects_ext (vs vs' : gmap Z vm_area) k : (forall a, a ∈ k -> vs' !! a = vs !! a) ->
  regions_objects vs' k = regions_objects vs k.
Proof.
  intros He. unfold regions_objects. f_equal. apply list_fmap_ext. intros i a Hi%list_elem_of_lookup_2.
  unfold region_objects. by rewrite He.
Qed.

Lemma cleaned_cons w1 w2 w3 as_ a k : cleaned w1 w2 as_ [a] -> cleaned w2 w3 as_ k -> a ∉ k -> cleaned w1 w3 as_ (a :: k).
Proof.
  intros [Hv1 (s1 & s1' & Es1 & Esp1 & Hp1 & Hr1) Ho1 Hc1 (Ht1 & Hm1 & Hf1 & Ha1)]
         [Hv2 (s2 & s2' & Es2 & Esp2 & Hp2 & Hr2) Ho2 Hc2 (Ht2 & Hm2 & Hf2 & Ha2)] Hak. constructor.
  - intros b. rewrite Hv2, Hv1. repeat case_decide; set_solver.
  - exists s1, s2'. rewrite Esp1, lookup_insert_eq in Es2. injection Es2 as <-.
    rewrite Esp2, Esp1, insert_insert_eq. split_and!; [done|done|congruence|congruence].
  - change (regions_objects (vmas w1) (a :: k)) with (region_objects (vmas w1) a ++ regions_objects (vmas w1) k).
    rewrite free_all_app. unfold regions_objects at 1 in Ho1. cbn in Ho1. rewrite app_nil_r in Ho1. rewrite Ho1, Ok_bind.
    rewrite <- (regions_objects_ext (vmas w1) (vmas w2)); [done|]. intros b Hb. rewrite Hv1, decide_False by set_solver. done.
  - rewrite Hc2, Hc1. set_solver.
  - split_and!; congruence.
Qed.

(** The objects of the regions are blocks of the heap. *)
Lemma regions_blocks w as_ l R k : as_ok w as_ l R -> anon_regions w l -> (forall a, a ∈ k -> a ∈ l) ->
  Forall (ph_block (heap (mm w))) (regions_objects (vmas w) k).
Proof.
  intros Hok Hanon Hk. apply Forall_join, Forall_fmap, Forall_forall. intros a Ha%Hk. cbn.
  destruct (ok_regions _ _ _ _ Hok a Ha) as (v & Ev & _). destruct (Hanon a v Ha Ev) as (_ & _ & Hlin).
  assert (ph_block (heap (mm w)) a) as Hb.
  { apply ph_own_block, (ok_owned _ _ _ _ Hok). apply elem_of_dom_2 in Ev. set_solver. }
  unfold region_objects. rewrite Ev. apply Forall_app. split; [|by constructor].
  destruct (Z.eqb_spec (linear_addr v) 0); constructor; [by apply Hlin|done].
Qed.

Lemma region_objects_in vs a v : vs !! a = Some v -> linear_addr v <> 0 -> linear_addr v ∈ region_objects vs a.
Proof. intros E Hz. unfold region_objects. rewrite E, (proj2 (Z.eqb_neq _ _) Hz). set_solver. Qed.

(** One turn keeps the memory of the other regions. *)
Lemma anon_regions_turn w w' as_ l l' R a k : as_ok w as_ l R -> anon_regions w l -> cleaned w w' as_ [a] ->
  (forall b, b ∈ l <-> b = a \/ b ∈ l') -> a ∉ l' -> (forall b, b ∈ l' <-> b ∈ k) ->
  NoDup (regions_objects (vmas w) (a :: k)) -> anon_regions w' l'.
Proof.
  intros Hok Hanon Hc Hl Hal Hlk Hd b v Hb Ev. rewrite (cl_vmas _ _ _ _ Hc) in Ev. case_decide as Hba; [done|].
  destruct (Hanon b v ltac:(apply Hl; by right) Ev) as (Hoff & Hfa & Hlin). split_and!; [done|done|]. intros Hz.
  destruct (Hlin Hz) as [Hbl Hout]. change (regions_objects (vmas w) (a :: k))
    with (region_objects (vmas w) a ++ regions_objects (vmas w) k) in Hd.
  apply NoDup_app in Hd as (Hda & Hcross & _).
  destruct (free_all_ok (regions_objects (vmas w) [a]) (heap (mm w))) as (h & E & _ & _ & Hkeep).
  { exact (ok_heap _ _ _ _ Hok). } { unfold regions_objects. cbn. by rewrite app_nil_r. }
  { eapply regions_blocks; [done..|]. intros x ->%list_elem_of_singleton. apply Hl. by left. }
  rewrite (cl_free _ _ _ _ Hc) in E. injection E as <-. split.
  - apply Hkeep; [|done]. unfold regions_objects. cbn. rewrite app_nil_r. intros Hin. apply (Hcross _ Hin).
    apply list_elem_of_join. exists (region_objects (vmas w) b). split; [by apply region_objects_in|].
    apply list_elem_of_fmap_2. by apply Hlk.
  - destruct (cl_space _ _ _ _ Hc) as (s & s' & Es & Esp & _). rewrite Esp, dom_insert_L, (cl_cells _ _ _ _ Hc).
    apply elem_of_dom_2 in Es. assert (dom (vmas w') ⊆ dom (vmas w)); [|set_solver].
    intros x [u Eu]%elem_of_dom. rewrite (cl_vmas _ _ _ _ Hc) in Eu. case_decide; [done|]. by apply elem_of_dom_2 in Eu.
Qed.

Lemma cleanup_run R as_ (Has : as_ <> 0) k : forall w l s fuel, as_ok w as_ l R -> anon_regions w l ->
  spaces w !! as_ = Some s -> vma_list s = k -> NoDup (regions_objects (vmas w) k) -> (length k < fuel)%nat ->
  exists w', vm_loop fuel (cleanup_step as_) tt w = Ok (tt, w') /\ as_ok w' as_ [] R /\ cleaned w w' as_ k.
Proof.
  induction k as [|a k IH]; intros w l s [|fuel] Hok Hanon Es Ek Hd Hf; try (cbn in Hf; lia); cbn [vm_loop].
  - destruct (ok_space _ _ _ _ Hok) as (s0 & Es0 & Hperm). rewrite Es in Es0. injection Es0 as <-.
    rewrite Ek in Hperm. apply Permutation_nil_l in Hperm as <-.
    exists w. rewrite (vm_bind_Ok _ _ w (inr tt) w); [split; [done|split; [done|]]|].
    + constructor; [by intros a; rewrite decide_False by set_solver| |done|set_solver|done].
      exists s, s. rewrite insert_id by done. done.
    + unfold cleanup_step. by rewrite (vm_bind_Ok _ _ _ _ _ (as_at_Ok _ _ _ Es)), Ek.
  - destruct (cleanup_turn w as_ l R s a k Hok Has Hanon Es Ek) as (l' & w1 & s' & E & Hok1 & Hc1 & Es' & Ek' & Hl & Hal).
    assert (forall b, b ∈ l' <-> b ∈ k) as Hlk.
    { intros b. destruct (ok_space _ _ _ _ Hok1) as (s1 & Es1 & Hp1). rewrite Es' in Es1. injection Es1 as <-.
      rewrite <- Hp1, Ek'. done. }
    assert (a ∉ k) as Hak by (intros Hx; by apply Hal, Hlk).
    assert (regions_objects (vmas w1) k = regions_objects (vmas w) k) as Eo.
    { apply regions_objects_ext. intros b Hb. rewrite (cl_vmas _ _ _ _ Hc1), decide_False; [done|set_solver]. }
    destruct (IH w1 l' s' fuel Hok1) as (w' & E' & Hok' & Hc'); [exact (anon_regions_turn w w1 as_ l l' R a k Hok Hanon Hc1 Hl Hal Hlk Hd)|done|done| |cbn in Hf; lia|].
    { rewrite Eo. change (regions_objects (vmas w) (a :: k)) with (region_objects (vmas w) a ++ regions_objects (vmas w) k) in Hd.
      by apply NoDup_app in Hd as (_ & _ & ?). }
    exists w'. rewrite (vm_bind_Ok _ _ _ _ _ E). split; [done|split; [done|]]. by eapply cleaned_cons.
Qed.

(** What is needed of the page directory of an address space. *)
Definition owns_directory w (p : Z) : Prop :=
  p <> 0 /\ ph_block (heap (mm w)) (PHYS_TO_LINEAR p) /\
  PHYS_TO_LINEAR p ∉ dom (vmas w) ∪ dom (spaces w) ∪ dom (cells w).

(** The loop and the directory. *)
Lemma as_cleanup_spec w as_ l R s : as_ok w as_ l R -> as_ <> 0 -> anon_regions w l ->
  spaces w !! as_ = Some s -> pgd s <> 0 -> NoDup (space_objects w as_ s) ->
  ph_block (heap (mm w)) (PHYS_TO_LINEAR (pgd s)) ->
  exists w1 h, as_cleanup as_ w = Ok (tt, with_mm w1 (set_heap (mm w1) h)) /\
    as_ok w1 as_ [] R /\ cleaned w w1 as_ (vma_list s) /\
    ph_free (PHYS_TO_LINEAR (pgd s)) (heap (mm w1)) = Ok h.
Proof.
  intros Hok Has Hanon Es Hp Hd Hdir. unfold as_cleanup.
  rewrite (vm_bind_Ok _ _ _ _ _ (as_at_Ok _ _ _ Es)).
  unfold space_objects in Hd. apply NoDup_app in Hd as (Hd & Hcross & _).
  destruct (cleanup_run R as_ Has (vma_list s) w l s (Datatypes.S (length (vma_list s))) Hok Hanon Es eq_refl Hd)
    as (w1 & E & Hok1 & Hc); [lia|].
  rewrite (vm_bind_Ok _ _ _ _ _ E).
  destruct (cl_space _ _ _ _ Hc) as (s1 & s' & Es1 & Esp & Hpgd & _). rewrite Es in Es1. injection Es1 as <-.
  assert (spaces w1 !! as_ = Some s') as Es' by (rewrite Esp; apply lookup_insert_eq).
  rewrite (vm_bind_Ok _ _ w1 (pgd s) w1) by (unfold as_get_pgd; rewrite (vm_bind_Ok _ _ _ _ _ (as_at_Ok _ _ _ Es')), <- Hpgd; done).
  destruct (free_all_ok _ (heap (mm w)) (ok_heap _ _ _ _ Hok) Hd) as (h1 & E1 & _ & _ & Hkeep).
  { eapply regions_blocks; [done..|]. intros a Ha. destruct (ok_space _ _ _ _ Hok) as (s0 & Es0 & Hperm).
    rewrite Es in Es0. injection Es0 as <-. by rewrite <- Hperm. }
  rewrite (cl_free _ _ _ _ Hc) in E1. injection E1 as <-.
  destruct (ph_free_ok (heap (mm w1)) (PHYS_TO_LINEAR (pgd s))) as (h & Ef & Hi & Hk & _).
  { exact (ok_heap _ _ _ _ Hok1). }
  { apply Hkeep; [|done]. intros Hin. apply (Hcross _ Hin). by left. }
  exists w1, h. split; [|by split_and!].
  rewrite (vm_bind_Ok _ _ w1 0 (with_mm w1 (set_heap (mm w1) h))); [done|].
  unfold on_mmu, mmu_remove_pgd. rewrite (proj2 (Z.eqb_neq _ _) Hp), Ef. done.
Qed.

(** A change of the reference count. *)
Lemma as_ok_ref w as_ l R s n : as_ok w as_ l R -> spaces w !! as_ = Some s ->
  as_ok (with_spaces w (<[as_ := As (pgd s) (vma_list s) n]> (spaces w))) as_ l R.
Proof.
  intros Hok Es. pose proof (elem_of_dom_2 _ _ _ Es) as Hin.
  destruct (ok_space _ _ _ _ Hok) as (s0 & Es0 & Hperm). rewrite Es in Es0. injection Es0 as <-.
  destruct Hok as [Ht _ Hr Ho Hh Hown Hk]. constructor; cbn; try done.
  - eexists. split; [apply lookup_insert_eq|done].
  - intros a. rewrite dom_insert_L. intros Ha. apply Hown. set_solver.
  - rewrite dom_insert_L. set_solver.
Qed.

Lemma as_sub_ref_Ok w as_ s : spaces w !! as_ = Some s ->
  as_sub_ref as_ w = Ok (s32 (refcount s - 1),
    with_spaces w (<[as_ := As (pgd s) (vma_list s) (s32 (refcount s - 1))]> (spaces w))).
Proof.
  intros Es. unfold as_sub_ref. rewrite (vm_bind_Ok _ _ _ _ _ (as_at_Ok _ _ _ Es)).
  by rewrite (vm_bind_Ok _ _ _ _ _ (put_as_Ok _ _ _ _ Es)).
Qed.

(** The state after the address space is gone: the heap is what freeing its
    objects, each once and in this order, makes of it. *)
Record destroyed w w' (as_ : Z) (s : as_t) (R : hProp rbcell) : Prop := {
  de_spaces : spaces w' = delete as_ (spaces w);
  de_vmas a : vmas w' !! a = if decide (a ∈ vma_list s) then None else vmas w !! a;
  de_cells : holds R (cells w') /\ dom (cells w') = dom (cells w) ∖ list_to_set (as_ :: vma_list s);
  de_freed : free_all (space_objects w as_ s) (heap (mm w)) = Ok (heap (mm w'));
  de_heap : ph_inv (heap (mm w'));
  de_own b : b ∉ space_objects w as_ s -> ph_own (heap (mm w)) b -> ph_own (heap (mm w')) b;
  de_rest : tables (mm w') = tables (mm w) /\ memory w' = memory w /\ files w' = files w /\ anons w' = anons w
}.

(** The objects of an address space, all in the heap and none twice. *)
Definition owns_objects w (as_ : Z) (s : as_t) (l : list Z) : Prop :=
  anon_regions w l /\ owns_directory w (pgd s) /\ NoDup (space_objects w as_ s).

Lemma as_destroy_last w as_ l R s : as_ok w as_ l R -> as_ <> 0 -> owns_objects w as_ s l ->
  spaces w !! as_ = Some s -> refcount s = 1 ->
  exists w', as_destroy as_ w = Ok (tt, w') /\ destroyed w w' as_ s R.
Proof.
  intros Hok Has (Hanon & (Hp & Hdir & Hdout) & Hd) Es Href. pose proof (elem_of_dom_2 _ _ _ Es) as Hin.
  unfold as_destroy. rewrite (proj2 (Z.eqb_neq _ _) Has), (vm_bind_Ok _ _ _ _ _ (as_sub_ref_Ok _ _ _ Es)), Href.
  change (s32 (1 - 1)) with 0. cbn [Z.eqb].
  set (w0 := with_spaces w (<[as_ := As (pgd s) (vma_list s) 0]> (spaces w))).
  assert (as_ok w0 as_ l R) as Hok0 by by apply as_ok_ref.
  assert (spaces w0 !! as_ = Some (As (pgd s) (vma_list s) 0)) as Es0 by apply lookup_insert_eq.
  assert (anon_regions w0 l) as Hanon0.
  { intros a v Ha Ev. destruct (Hanon a v Ha Ev) as (? & ? & Hl). split_and!; [done|done|]. intros Hz.
    destruct (Hl Hz) as [? Ho]. split; [done|]. cbn. rewrite dom_insert_L. set_solver. }
  destruct (as_cleanup_spec w0 as_ l R _ Hok0 Has Hanon0 Es0 Hp Hd Hdir) as (w1 & h & E & Hok1 & Hc & Ef).
  rewrite (vm_bind_Ok _ _ _ _ _ E). cbn [pgd vma_list] in *.
  destruct (free_all_ok (space_objects w as_ s) (heap (mm w)) (ok_heap _ _ _ _ Hok) Hd) as (h2 & E2 & Hi2 & Ho2 & _).
  { apply Forall_app. split; [|repeat constructor; [done|]].
    - eapply regions_blocks; [done..|]. intros a Ha. destruct (ok_space _ _ _ _ Hok) as (s0 & Es1 & Hperm).
      rewrite Es in Es1. injection Es1 as <-. by rewrite <- Hperm.
    - apply ph_own_block, (ok_owned _ _ _ _ Hok). set_solver. }
  pose proof (cl_free _ _ _ _ Hc) as Hcf. cbn [vmas mm w0 with_spaces] in Hcf.
  assert (ph_free as_ h = Ok h2) as Ef2.
  { unfold space_objects in E2. rewrite free_all_app, Hcf, Ok_bind in E2. cbn [free_all] in E2.
    rewrite Ef, Ok_bind in E2. destruct (ph_free as_ h); [by injection E2 as <-|discriminate E2..]. }
  set (w2 := with_mm w1 (set_heap (mm w1) h)).
  assert (ph_free as_ (heap (mm w2)) = Ok h2) as Ef3 by done.
  rewrite (vm_bind_Ok _ _ _ _ _ (kheap_free_Ok _ _ _ Ef3)). eexists. split; [reflexivity|].
  destruct Hc as [Hv (s1 & s' & Es1 & Esp & _) _ Hcells Hrest]. constructor; cbn.
  - rewrite Esp. cbn. by rewrite insert_insert_eq, delete_insert_eq.
  - exact Hv.
  - split; [eapply tree_beside_drop, (ok_tree _ _ _ _ Hok1)|]. rewrite dom_delete_L, Hcells. set_solver.
  - exact E2.
  - exact Hi2.
  - exact Ho2.
  - exact Hrest.
Qed.

(** While other references remain nothing is freed. *)
Lemma as_destroy_shared w as_ l R s : as_ok w as_ l R -> as_ <> 0 -> spaces w !! as_ = Some s ->
  2 <= refcount s < 2 ^ 31 ->
  as_destroy as_ w = Ok (tt, with_spaces w (<[as_ := As (pgd s) (vma_list s) (refcount s - 1)]> (spaces w))) /\
  as_ok (with_spaces w (<[as_ := As (pgd s) (vma_list s) (refcount s - 1)]> (spaces w))) as_ l R.
Proof.
  intros Hok Has Es Href. split; [|by apply as_ok_ref].
  unfold as_destroy. rewrite (proj2 (Z.eqb_neq _ _) Has), (vm_bind_Ok _ _ _ _ _ (as_sub_ref_Ok _ _ _ Es)).
  assert (s32 (refcount s - 1) = refcount s - 1) as -> by (apply to_signed_small; lia).
  by rewrite (proj2 (Z.eqb_neq _ _)) by lia.
Qed.

End destroy.
