(* ===== verification/AsFault.v ===== *)
(** * Page faults: theorems

    An access to a page of an anonymous region gets a new frame mapped with
    the region's protection, whatever other processors did while the lock was
    dropped, as long as the region is still there.  The first one of a region
    is cleared; a later one is a copy of what lies behind the region's newest
    page. *)

From stdpp Require Import sorting.
From S2P Require Import Prelude Bitmap Buddy Heap Mmu MmuSpec SepLogic RbTree RbShape RbSpec AddressSpace AsTree VmmMap AsSpec.

Local Open Scope Z_scope.

Section fault.
Context {H F : Type} `{PageHeapLaws H} `{VfsEnv F}.
Context (P : share).
Abbreviation vmm := (vmm (H := H) (F := F)).
Implicit Types w : vmm.

(** A change of a region that keeps its range. *)
Lemma as_ok_set_vma w as_ l R a v v' : as_ok w as_ l R -> vmas w !! a = Some v ->
  start v' = start v -> end_ v' = end_ v -> as_ok (with_vmas w (<[a := v']> (vmas w))) as_ l R.
Proof.
  intros [Ht Hs Hr Ho Hh Hown Hk] Ev Es Ee. pose proof (elem_of_dom_2 _ _ _ Ev) as Hin.
  assert (forall b u, <[a := v']> (vmas w) !! b = Some u ->
    exists u0, vmas w !! b = Some u0 /\ start u = start u0 /\ end_ u = end_ u0) as Hold.
  { intros b u [[<- <-]|[_ Eu]]%lookup_insert_Some; eauto. }
  constructor; cbn; try done.
  - intros b Hb. destruct (Hr b Hb) as (u & Eu & Hu). destruct (decide (a = b)) as [<-|Hne].
    + exists v'. rewrite Ev in Eu. injection Eu as <-. rewrite Es, Ee. split; [apply lookup_insert_eq|done].
    + exists u. by rewrite lookup_insert_ne.
  - eapply StronglySorted_weaken; [exact Ho|]. intros b c _ _ Hbc vb vc Eb Ec.
    destruct (Hold b vb Eb) as (ub & Eb0 & _ & ->). destruct (Hold c vc Ec) as (uc & Ec0 & -> & _). by apply Hbc.
  - intros b. rewrite dom_insert_L. intros Hb. apply Hown. set_solver.
  - rewrite dom_insert_L. set_solver.
Qed.

Lemma as_ok_mm w as_ l R s : as_ok w as_ l R -> ph_inv (heap s) -> keeps_own (mm w) s -> as_ok (with_mm w s) as_ l R.
Proof. intros [] Hi [Hk _]. constructor; cbn; auto. Qed.

Lemma as_ok_memory w as_ l R f : as_ok w as_ l R -> as_ok (with_memory w f) as_ l R.
Proof. intros []. by constructor. Qed.

(** The frame behind a page of the heap. *)
Lemma linear_phys a : table_addr a ->
  0 <= LINEAR_TO_PHYS a /\ LINEAR_TO_PHYS a + PAGE_SIZE <= 2 ^ 52 /\ LINEAR_TO_PHYS a mod PAGE_SIZE = 0.
Proof.
  intros (pfn & Hp & -> & _)%table_addr_phys. unfold PAGE_SIZE. split_and!; [lia|lia|]. apply Z.mod_mul. lia.
Qed.

Definition page_start (x : Z) : Z := x - x mod PAGE_SIZE.

Lemma page_start_page x : 0 <= x < 2 ^ 64 ->
  0 <= page_start x /\ page_start x + PAGE_SIZE <= 2 ^ 64 /\ page_start x mod PAGE_SIZE = 0 /\
  page_of (page_start x) = page_of x.
Proof. intros Hx. unfold page_start, page_of, PAGE_SIZE. rewrite !Z.mod_eq by lia. split_and!; dlia. Qed.

(** Of the indices of an address the three that lead to its table. *)
Lemma table_path_page x y : page_of x = page_of y -> table_path x = table_path y.
Proof. intros E%indices_page. unfold indices in E. injection E as E1 E2 E3 _. unfold table_path. by rewrite E1, E2, E3. Qed.

(** A region of anonymous memory, touched or not. *)
Definition anon_region (v : vm_area) : Prop := offset_or_anon v < 0 /\ file_or_anon v = 0.

(** Where the bytes of a new page come from once the region has memory. *)
Definition copy_source (v : vm_area) (addr : Z) : Z := u64 (linear_addr v + (addr - start v)).

(** Byte [i] of the page that a fault fills: zero while the region has no
    memory, else a copy. *)
Definition fill_byte (v : vm_area) (addr : Z) (f : Z -> Z) (i : Z) : Z :=
  if linear_addr v =? 0 then 0 else f (copy_source v addr + i).

(** What is copied does not meet the new page, as memcpy asks. *)
Definition copy_apart (v : vm_area) (addr linear : Z) : Prop :=
  linear_addr v = 0 \/ copy_source v addr + PAGE_SIZE <= linear \/ linear + PAGE_SIZE <= copy_source v addr.

(** What a fault on a page of region [a], an anonymous one, leaves behind. *)
Record faulted_in w w' (as_ a : Z) (v : vm_area) (root addr linear : Z) (l : list Z) (R : hProp rbcell) : Prop := {
  fi_ok : as_ok w' as_ l R;
  fi_mmu : exists G, mmu_ok P root G (mm w');
  fi_page x : page_of x = page_of addr ->
    hw (tables (mm w')) root (indices x) = Some ([], pte_value (LINEAR_TO_PHYS linear / PAGE_SIZE) false (prot v),
      meet (path_rights (tables (mm w)) root (table_path addr)) (prot_rights (prot v)));
  fi_others x : page_of x <> page_of addr -> hw (tables (mm w')) root (indices x) = hw (tables (mm w)) root (indices x);
  fi_fresh : linear <> 0 /\ ~ ph_own (heap (mm w)) linear /\ ph_own (heap (mm w')) linear;
  fi_keeps : keeps_own (mm w) (mm w') /\ ph_room (heap (mm w)) - 5 <= ph_room (heap (mm w'));
  fi_data i : 0 <= i < PAGE_SIZE -> copy_apart v addr linear -> memory w' (linear + i) = fill_byte v addr (memory w) i;
  fi_memory x : ~ linear <= x < linear + PAGE_SIZE -> memory w' x = memory w x;
  fi_vma : exists p, vmas w' = <[a := Vma (start v) (end_ v) linear (prot v) (flags v)
                                      (offset_or_anon v) (file_or_anon v) (file_path v) p]> (vmas w);
  fi_rest : spaces w' = spaces w /\ cells w' = cells w /\ flushes w' = flushes w ++ [Some (page_start addr)]
}.

Lemma vma_read_anon w a v addr dest : vmas w !! a = Some v -> a <> 0 -> dest <> 0 -> start v <= addr < end_ v ->
  offset_or_anon v < 0 ->
  exists f, vma_read_page a addr dest w = Ok (0, with_memory w f) /\
    (forall i, 0 <= i < PAGE_SIZE -> f (dest + i) = fill_byte v addr (memory w) i) /\
    (forall x, ~ dest <= x < dest + PAGE_SIZE -> f x = memory w x).
Proof.
  intros Ev Ha Hd Hin Hoff. unfold vma_read_page. rewrite (proj2 (Z.eqb_neq _ _) Ha), (proj2 (Z.eqb_neq _ _) Hd). cbn [orb].
  rewrite (vm_bind_Ok _ _ _ _ _ (vma_at_Ok _ _ _ Ev)), (proj2 (Z.ltb_ge _ _)), (proj2 (Z.leb_gt _ _)) by lia. cbn [orb].
  cbn zeta. rewrite (proj2 (Z.ltb_lt _ _) Hoff). unfold fill_byte, copy_source. destruct (linear_addr v =? 0); cbn [negb].
  - rewrite (vm_bind_Ok (memset _ _ _) _ _ tt _ eq_refl). eexists. split; [reflexivity|]. cbn beta. split.
    + intros i Hi. by rewrite (proj2 (Z.leb_le _ _)), (proj2 (Z.ltb_lt _ _)) by lia.
    + intros x Hx. destruct (Z.leb_spec dest x), (Z.ltb_spec x (dest + PAGE_SIZE)); [lia|done..].
  - rewrite (vm_bind_Ok (memcpy _ _ _) _ _ tt _ eq_refl). eexists. split; [reflexivity|]. cbn beta. split.
    + intros i Hi. rewrite (proj2 (Z.leb_le _ _)), (proj2 (Z.ltb_lt _ _)) by lia. cbn [andb]. f_equal. lia.
    + intros x Hx. destruct (Z.leb_spec dest x), (Z.ltb_spec x (dest + PAGE_SIZE)); [lia|done..].
Qed.

Section map.
Context w as_ l R (Hok : as_ok w as_ l R) (Has : as_ <> 0) a v (Hal : a ∈ l) (Ev : vmas w !! a = Some v).
Context s (Es : spaces w !! as_ = Some s) (Hpgd : pgd s <> 0) G (Hm : mmu_ok P (PHYS_TO_LINEAR (pgd s)) G (mm w)).
Context (addr linear : Z) (Haddr : 0 <= addr < 2 ^ 64) (Hin : start v <= addr < end_ v).
Context (Hmine : own_slot P (PML4_INDEX addr) = true) (Hlin : table_addr linear) (Hroom : 4 <= ph_room (heap (mm w))).

(** The second half of the handler: the page is mapped. *)
Lemma fault_map_spec : exists w' p,
  fault_map as_ addr linear v w = Ok (0, w') /\ as_ok w' as_ l R /\ (exists G', mmu_ok P (PHYS_TO_LINEAR (pgd s)) G' (mm w')) /\
  (forall x, page_of x = page_of addr -> hw (tables (mm w')) (PHYS_TO_LINEAR (pgd s)) (indices x) =
     Some ([], pte_value (LINEAR_TO_PHYS linear / PAGE_SIZE) false (prot v),
       meet (path_rights (tables (mm w)) (PHYS_TO_LINEAR (pgd s)) (table_path addr)) (prot_rights (prot v)))) /\
  (forall x, page_of x <> page_of addr -> hw (tables (mm w')) (PHYS_TO_LINEAR (pgd s)) (indices x) =
     hw (tables (mm w)) (PHYS_TO_LINEAR (pgd s)) (indices x)) /\
  keeps_own (mm w) (mm w') /\ ph_room (heap (mm w)) - 4 <= ph_room (heap (mm w')) /\ memory w' = memory w /\
  spaces w' = spaces w /\ cells w' = cells w /\ flushes w' = flushes w ++ [Some (page_start addr)] /\
  vmas w' = <[a := Vma (start v) (end_ v) linear (prot v) (flags v) (offset_or_anon v) (file_or_anon v) (file_path v) p]> (vmas w).
Proof.
  unfold fault_map. rewrite align_down by lia. fold (page_start addr).
  rewrite (vm_bind_Ok _ _ _ _ _ (find_region _ _ _ _ _ _ _ Hok Has Hal Ev Hin)), (as_ok_nonzero _ _ _ _ _ Hok Hal).
  rewrite (vm_bind_Ok _ _ w true w); cycle 1.
  { rewrite (vm_bind_Ok _ _ _ _ _ (vma_at_Ok _ _ _ Ev)). by rewrite !Z.eqb_refl. }
  cbn [negb]. rewrite (vm_bind_Ok _ _ w (pgd s) w) by (unfold as_get_pgd; by rewrite (vm_bind_Ok _ _ _ _ _ (as_at_Ok _ _ _ Es))).
  destruct (page_start_page addr Haddr) as (Hp0 & Hp1 & Hp2 & Hp3). destruct (linear_phys _ Hlin) as (Hl0 & Hl1 & Hl2).
  destruct (map_one P _ G (pgd s) (page_start addr) (LINEAR_TO_PHYS linear) (prot v) (mm w) Hm eq_refl Hpgd)
    as (arr & bl & s' & E & [G' HG] & Hkeep & Hro & Hmin & _ & Hmout); [|lia|lia|lia|lia|done|done|lia|].
  { apply table_path_page in Hp3. unfold table_path in Hp3. injection Hp3 as -> _ _. done. }
  set (w1 := with_mm w s').
  rewrite (vm_bind_Ok _ _ w (0, Some (Ptb arr bl)) w1) by (unfold on_mmu; by rewrite E). cbn [Z.ltb Z.compare].
  assert (vmas w1 !! a = Some v) as Ev1 by done.
  set (v' := Vma (start v) (end_ v) linear (prot v) (flags v) (offset_or_anon v) (file_or_anon v) (file_path v) (Ptb arr bl)).
  set (w2 := with_vmas w1 (<[a := v']> (vmas w1))).
  rewrite (vm_bind_Ok _ _ w1 tt w2); cycle 1.
  { unfold vma_set_map. rewrite (vm_bind_Ok _ _ _ _ _ (vma_at_Ok _ _ _ Ev1)). unfold put_vma. by rewrite Ev1. }
  rewrite (vm_bind_Ok (mmu_invalidate _) _ _ tt _ eq_refl). eexists _, (Ptb arr bl). split; [reflexivity|].
  split_and!; [| |..|done|done|done|done|done]; cbn [mm with_flushes with_vmas with_mm w2 w1].
  - apply as_ok_flushes. apply (as_ok_set_vma w1 as_ l R a v v'); [|done..]. apply as_ok_mm; [done|apply HG|done].
  - by exists G'.
  - intros x Hx. assert (indices x = indices (page_start addr)) as -> by (apply indices_page; by rewrite Hx, Hp3).
    by rewrite Hmin, (table_path_page _ _ Hp3).
  - intros x Hx. apply Hmout. by rewrite Hp3.
  - exact Hkeep.
  - done.
Qed.

End map.

Lemma fault_lookup_Ok w as_ l R a v addr access : as_ok w as_ l R -> as_ <> 0 -> a ∈ l -> vmas w !! a = Some v ->
  start v <= addr < end_ v -> Z.land (prot v) access <> 0 ->
  fault_lookup as_ addr access w = Ok (inr (a, v), w).
Proof.
  intros Hok Has Hal Ev Hin Hacc. unfold fault_lookup. rewrite (proj2 (Z.eqb_neq _ _) Has).
  rewrite (vm_bind_Ok _ _ _ _ _ (find_region _ _ _ _ _ _ _ Hok Has Hal Ev Hin)), (as_ok_nonzero _ _ _ _ _ Hok Hal).
  rewrite (vm_bind_Ok _ _ _ _ _ (vma_at_Ok _ _ _ Ev)). by rewrite (proj2 (Z.eqb_neq _ _) Hacc).
Qed.

Lemma handle_fault_spec (others : vmm -> vmm) w as_ l l' R R' a v addr access s G :
  let w1 := others w in let root := PHYS_TO_LINEAR (pgd s) in
  as_ok w as_ l R -> as_ <> 0 -> a ∈ l -> vmas w !! a = Some v ->
  start v <= addr < end_ v -> Z.land (prot v) access <> 0 -> anon_region v -> own_slot P (PML4_INDEX addr) = true ->
  as_ok w1 as_ l' R' -> a ∈ l' -> vmas w1 !! a = Some v ->
  spaces w1 !! as_ = Some s -> pgd s <> 0 -> mmu_ok P root G (mm w1) -> 5 <= ph_room (heap (mm w1)) ->
  exists linear w', vmm_handle_fault others id as_ addr access w = Ok (0, w') /\
    faulted_in w1 w' as_ a v root addr linear l' R'.
Proof.
  intros w1 root Hok Has Hal Ev Hin Hacc (Hoff & Hfa) Hmine Hok1 Hal1 Ev1 Es Hpgd Hm Hroom.
  unfold vmm_handle_fault. rewrite (vm_bind_Ok _ _ _ _ _ (fault_lookup_Ok _ _ _ _ _ _ _ _ Hok Has Hal Ev Hin Hacc)).
  cbn iota. rewrite (vm_bind_Ok (modify others) _ w tt w1 eq_refl).
  destruct (ph_alloc_ok (heap (mm w1)) PAGE_SIZE) as (linear & h & Ea & Hi & Hk & Hown & Hro); [apply Hm|unfold PAGE_SIZE; lia|].
  destruct (ph_alloc_used (heap (mm w1)) PAGE_SIZE linear h) as [Hu _]; [apply Hm|unfold PAGE_SIZE; lia|done|].
  destruct Hro as [Hz Hro]; [lia|lia|]. destruct (Hown Hz ltac:(lia)) as [Hnew Hlown].
  rewrite (vm_bind_Ok _ _ _ _ _ (kheap_alloc_Ok _ _ _ _ Ea)), (proj2 (Z.eqb_neq _ _) Hz).
  set (w2 := with_mm w1 (set_heap (mm w1) h)).
  assert (keeps_own (mm w1) (mm w2)) as Hk2 by by split.
  assert (vmas w2 !! a = Some v) as Ev2 by done. pose proof (as_ok_nonzero _ _ _ _ _ Hok Hal) as Ha%Z.eqb_neq.
  destruct (vma_read_anon w2 a v addr linear Ev2 Ha Hz Hin Hoff) as (f & Er & Hf & Hfo).
  rewrite (vm_bind_Ok _ _ _ _ _ Er). cbn [Z.ltb Z.compare].
  set (w3 := with_memory w2 f). rewrite (vm_bind_Ok (modify id) _ w3 tt w3 eq_refl).
  assert (as_ok w3 as_ l' R') as Hok3 by (by apply as_ok_memory, as_ok_heap).
  destruct (ok_regions _ _ _ _ Hok a Hal) as (v' & Ev' & ((? & ?) & ? & _)). rewrite Ev in Ev'. injection Ev' as <-.
  destruct (fault_map_spec w3 as_ l' R' Hok3 Has a v Hal1 Ev1 s Es Hpgd G) with (addr := addr) (linear := linear)
    as (w' & p & E & Hok' & HG & Hpage & Hoth & Hkeep & Hroom' & Hmem & Hsp & Hce & Hfl & Hv).
  { by apply mmu_ok_heap. } { lia. } { done. } { done. } { by eapply ph_own_addr. } { cbn. lia. }
  exists linear, w'. split; [exact E|]. constructor; [done|done|done|done| | | | |by exists p|done].
  - split_and!; [done|done|by apply Hkeep].
  - split; [by eapply keeps_own_trans|]. cbn in Hroom'. lia.
  - intros i Hi' _. rewrite Hmem. by apply Hf.
  - intros x Hx. rewrite Hmem. by apply Hfo.
Qed.

(** If the region was unmapped while the lock was dropped, its structure is
    used after it was freed. *)
Lemma handle_fault_freed (others meanwhile : vmm -> vmm) w as_ l R a v addr access linear h :
  as_ok w as_ l R -> as_ <> 0 -> a ∈ l -> vmas w !! a = Some v ->
  start v <= addr < end_ v -> Z.land (prot v) access <> 0 ->
  vmas (others w) !! a = None -> ph_alloc PAGE_SIZE (heap (mm (others w))) = Ok (linear, h) -> linear <> 0 ->
  vmm_handle_fault others meanwhile as_ addr access w = Fault.
Proof.
  intros Hok Has Hal Ev Hin Hacc Hgone Ea Hz. unfold vmm_handle_fault.
  rewrite (vm_bind_Ok _ _ _ _ _ (fault_lookup_Ok _ _ _ _ _ _ _ _ Hok Has Hal Ev Hin Hacc)).
  cbn iota. rewrite (vm_bind_Ok (modify others) _ w tt _ eq_refl).
  rewrite (vm_bind_Ok _ _ _ _ _ (kheap_alloc_Ok _ _ _ _ Ea)), (proj2 (Z.eqb_neq _ _) Hz).
  pose proof (as_ok_nonzero _ _ _ _ _ Hok Hal) as Ha%Z.eqb_neq.
  unfold vma_read_page. rewrite (proj2 (Z.eqb_neq _ _) Ha), (proj2 (Z.eqb_neq _ _) Hz). cbn [orb].
  unfold mbind, vm_bind, vma_at. cbn [vmas with_mm]. by rewrite Hgone.
Qed.

Lemma vma_read_fresh w a v addr dest : vmas w !! a = Some v -> a <> 0 -> dest <> 0 -> start v <= addr < end_ v ->
  offset_or_anon v < 0 -> linear_addr v = 0 ->
  vma_read_page a addr dest w =
    Ok (0, with_memory w (fun x => if (dest <=? x) && (x <? dest + PAGE_SIZE) then 0 else memory w x)).
Proof.
  intros Ev Ha Hd Hin Hoff Hlin. unfold vma_read_page. rewrite (proj2 (Z.eqb_neq _ _) Ha), (proj2 (Z.eqb_neq _ _) Hd). cbn [orb].
  rewrite (vm_bind_Ok _ _ _ _ _ (vma_at_Ok _ _ _ Ev)), (proj2 (Z.ltb_ge _ _)), (proj2 (Z.leb_gt _ _)) by lia. cbn [orb].
  cbn zeta. rewrite (proj2 (Z.ltb_lt _ _) Hoff), Hlin. cbn [Z.eqb negb].
  by rewrite (vm_bind_Ok (memset _ _ _) _ _ tt _ eq_refl).
Qed.

(** The state in which the new page has been cleared. *)
Definition filled w h (linear : Z) : vmm :=
  with_memory (with_mm w (set_heap (mm w) h))
    (fun x => if (linear <=? x) && (x <? linear + PAGE_SIZE) then 0 else memory w x).

(** If the region at the address changed while the page was filled, the page
    is given back and the access is to be tried again. *)
Lemma handle_fault_again (meanwhile : vmm -> vmm) w as_ l l' R R' a v addr access linear h :
  as_ok w as_ l R -> as_ <> 0 -> a ∈ l -> vmas w !! a = Some v ->
  start v <= addr < end_ v -> Z.land (prot v) access <> 0 -> lazy_region v ->
  ph_alloc PAGE_SIZE (heap (mm w)) = Ok (linear, h) -> linear <> 0 ->
  let w1 := meanwhile (filled w h linear) in
  as_ok w1 as_ l' R' -> ph_own (heap (mm w1)) linear ->
  (forall b u, b ∈ l' -> vmas w1 !! b = Some u -> start u <= addr < end_ u -> start u <> start v \/ end_ u <> end_ v) ->
  exists h', ph_free linear (heap (mm w1)) = Ok h' /\
    vmm_handle_fault id meanwhile as_ addr access w = Ok (- EAGAIN, with_mm w1 (set_heap (mm w1) h')).
Proof.
  intros Hok Has Hal Ev Hin Hacc (Hoff & _ & Hlin & _) Ea Hz w1 Hok1 Hown Hdiff.
  destruct (ph_free_ok (heap (mm w1)) linear (ok_heap _ _ _ _ Hok1) (ph_own_block _ _ Hown)) as (h' & Ef & _). exists h'. split; [done|].
  unfold vmm_handle_fault. rewrite (vm_bind_Ok _ _ _ _ _ (fault_lookup_Ok _ _ _ _ _ _ _ _ Hok Has Hal Ev Hin Hacc)).
  cbn iota. rewrite (vm_bind_Ok (modify id) _ w tt w eq_refl).
  rewrite (vm_bind_Ok _ _ _ _ _ (kheap_alloc_Ok _ _ _ _ Ea)), (proj2 (Z.eqb_neq _ _) Hz).
  set (w2 := with_mm w (set_heap (mm w) h)) in *. assert (vmas w2 !! a = Some v) as Ev2 by done.
  pose proof (as_ok_nonzero _ _ _ _ _ Hok Hal) as Ha%Z.eqb_neq.
  rewrite (vm_bind_Ok _ _ _ _ _ (vma_read_fresh w2 a v addr linear Ev2 Ha Hz Hin Hoff Hlin)). cbn [Z.ltb Z.compare].
  rewrite (vm_bind_Ok (modify meanwhile) _ _ tt w1 eq_refl). unfold fault_map.
  destruct (vma_find_spec w1 as_ l' R' addr Hok1 Has) as (r & E & Hr). rewrite (vm_bind_Ok _ _ _ _ _ E).
  rewrite (vm_bind_Ok _ _ w1 false w1); cycle 1.
  { destruct Hr as [(Hrl & u & Eu & Hu)|(-> & _)]; [|done].
    rewrite (as_ok_nonzero _ _ _ _ _ Hok1 Hrl), (vm_bind_Ok _ _ _ _ _ (vma_at_Ok _ _ _ Eu)).
    destruct (Hdiff r u Hrl Eu Hu) as [Hd%Z.eqb_neq|Hd%Z.eqb_neq]; rewrite Hd; by rewrite ?andb_false_r. }
  cbn [negb]. by rewrite (vm_bind_Ok _ _ _ _ _ (kheap_free_Ok _ _ _ Ef)).
Qed.

End fault.
