(* ===== verification/AsCorrect.v ===== *)
(** * Address spaces: what the operations guarantee

    The claims on address spaces: regions are added, found and removed as a
    set of disjoint page ranges would be; anonymous mappings and their
    removal; faults on anonymous pages; tearing down. *)

From stdpp Require Import sorting.
From S2P Require Import Prelude Bitmap Buddy BuddyInv BuddySpec Heap Mmu MmuSpec MmuHeap SepLogic RbTree RbShape RbSpec.
From S2P Require Import AddressSpace AsTree VmmMap AsSpec AsDestroy AsFault.

Local Open Scope Z_scope.

Section correct.
Context {H F : Type} `{PageHeapLaws H} `{VfsEnv F}.
Abbreviation vmm := (vmm (H := H) (F := F)).
Implicit Types w : vmm.

(** ** Creation *)

(** A state in which an address space can be created; [R] is what the tree
    cells hold so far. *)
Record world_ok w (R : hProp rbcell) : Prop := {
  wo_cells : holds R (cells w);
  wo_heap : ph_inv (heap (mm w));
  wo_owned a : a ∈ dom (vmas w) ∪ dom (spaces w) ∪ dom (cells w) -> ph_own (heap (mm w)) a;
  wo_kinds : dom (vmas w) ## dom (spaces w)
}.

Lemma as_create_spec w R p : world_ok w R -> 0 < ph_room (heap (mm w)) ->
  exists a h, let w' := with_cells (with_spaces (with_mm w (set_heap (mm w) h)) (<[a := As p [] 1]> (spaces w)))
                          (<[a := CTree (Tree 0 0 0)]> (cells w)) in
    as_create p w = Ok (a, w') /\ a <> 0 /\ as_ok w' a [] R /\
    ph_room (heap (mm w)) - 1 <= ph_room h /\ keeps_own (mm w) (set_heap (mm w) h) /\
    ~ ph_own (heap (mm w)) a.
Proof.
  intros [Hc Hh Ho Hk] Hroom. unfold as_create.
  destruct (ph_alloc_ok (heap (mm w)) SIZEOF_AS) as (a & h & Ea & Hi & Hkeep & Hown & Hro);
    [done|unfold SIZEOF_AS; lia|].
  destruct (ph_alloc_used (heap (mm w)) SIZEOF_AS a h) as [Hu _]; [done|unfold SIZEOF_AS; lia|done|].
  destruct Hro as [Hz Hro]; [unfold SIZEOF_AS, PAGE_SIZE; lia|done|].
  destruct (Hown Hz) as [Hnew Ha]; [unfold SIZEOF_AS, PAGE_SIZE; lia|].
  assert (a ∉ dom (vmas w) ∪ dom (spaces w) ∪ dom (cells w)) as Hfresh by (intros Hin; by apply Hnew, Ho).
  exists a, h. cbn zeta. split; [|split; [done|split; [|split; [done|split; [by split|done]]]]].
  - rewrite (vm_bind_Ok _ _ _ _ _ (kheap_alloc_Ok _ _ _ _ Ea)), (proj2 (Z.eqb_neq _ _) Hz).
    rewrite (vm_bind_Ok (modify _) _ _ tt _ eq_refl).
    set (w1 := with_cells _ _).
    rewrite (vm_bind_Ok _ _ w1 0 w1); [done|]. unfold on_tree, rbtree_init. cbn [Z.eqb negb].
    unfold mbind, M_bind, store_cell. subst w1. cbn. rewrite lookup_insert_eq. cbn. by rewrite insert_insert_eq.
  - constructor; cbn.
    + apply tree_beside_new; [apply not_elem_of_dom; set_solver|done].
    + exists (As p [] 1). split; [apply lookup_insert_eq|done].
    + set_solver.
    + constructor.
    + done.
    + intros b. rewrite !dom_insert_L. intros Hb. destruct (decide (b = a)) as [->|Hne]; [done|]. apply Hkeep, Ho. set_solver.
    + rewrite dom_insert_L. set_solver.
Qed.

(** ** The claims *)

(** C9: adding a region.  In a well-formed address space [vma_add] always
    returns.  It answers 0 exactly when the range is a non-empty range of
    whole pages that meets no region and a structure could be allocated; then
    the new region is in its place among the others, none of which changed.
    A bad or taken range gets -EINVAL and changes nothing; -ENOMEM takes a
    heap with no page left and keeps the regions. *)
Theorem vma_add_correct w as_ l R s e prot_ flags_ : as_ok w as_ l R -> as_ <> 0 -> 0 <= s -> e < 2 ^ 64 ->
  exists r w', vma_add as_ s e prot_ flags_ w = Ok (r, w') /\
    ((r = - EINVAL /\ ~ vma_fits w l s e /\ w' = w) \/
     (r = - ENOMEM /\ vma_fits w l s e /\ ph_room (heap (mm w)) <= 0 /\ as_ok w' as_ l R /\ vmas w' = vmas w) \/
     (r = 0 /\ vma_fits w l s e /\ exists new, mapped_region w w' as_ l R s e prot_ flags_ new)).
Proof.
  intros Hok Has Hs He. destruct (decide (vma_fits w l s e)) as [Hfit|Hno].
  - rewrite (vma_add_inserts _ _ _ _ _ _ _ _ Hok Has Hfit).
    destruct (vma_insert_spec w as_ l R s e prot_ flags_ Hok) as (new & h & Ea & Hroom & Hk & Hc); [apply Hfit..|].
    destruct Hc as [(-> & E & Hok')|(m & sp & Hz & Es & Hnl & Hnv & Hno' & Hdm & E & Hok')].
    + eexists _, _. split; [exact E|]. right. left. split_and!; [done|done| |done|done].
      destruct (Z.le_gt_cases (ph_room (heap (mm w))) 0); [done|]. by destruct Hroom.
    + eexists _, _. split; [exact E|]. right. right. split_and!; [done|apply Hfit..|]. exists new. split_and!; [done|done|done|done|done|done|by exists sp|exact Hk|intros Hro; by apply Hroom|done|done].
  - exists (- EINVAL), w. split; [by apply (vma_add_rejects w as_ l R)|]. by left.
Qed.

(** Finding a region: [vma_find] returns the one region that contains the
    address, and NULL exactly when no region does; the state is unchanged. *)
Theorem vma_find_correct w as_ l R addr : as_ok w as_ l R -> as_ <> 0 ->
  exists r, vma_find as_ addr w = Ok (r, w) /\
    (forall a, a <> 0 -> r = a <-> exists v, a ∈ l /\ vmas w !! a = Some v /\ start v <= addr < end_ v).
Proof.
  intros Hok Has. destruct (vma_find_spec w as_ l R addr Hok Has) as (r & E & Hr).
  exists r. split; [done|]. intros a Hz. split.
  - intros ->. destruct Hr as [(Hin & v & Ev & Hv)|[-> _]]; [|done]. by exists v.
  - intros (v & Hin & Ev & Hv). rewrite (find_region _ _ _ _ _ _ _ Hok Has Hin Ev Hv) in E. congruence.
Qed.

(** ** Anonymous mappings *)

Lemma map_anon_lazy w as_ addr page prot_ flags_ anon_vma w1 err a :
  as_ <> 0 -> 0 < page -> page * PAGE_SIZE <= 2 ^ 47 ->
  anon_address as_ addr (page * PAGE_SIZE) w = Ok ((err, a), w1) ->
  vmm_map_anon as_ addr page prot_ flags_ anon_vma false w =
    if err <? 0 then Ok ((err, 0), w1) else map_anon_at as_ a (page * PAGE_SIZE) prot_ flags_ anon_vma w1.
Proof.
  intros Has Hp Hs E. unfold vmm_map_anon. rewrite (proj2 (Z.eqb_neq _ _) Has), (proj2 (Z.eqb_neq page 0)) by lia. cbn [orb].
  rewrite (wrap_small 64 (page * PAGE_SIZE)) by (unfold fits, PAGE_SIZE in *; lia). cbn zeta.
  rewrite (vm_bind_Ok _ _ _ _ _ E). cbn iota. by destruct (err <? 0).
Qed.

(** The address a request is given: one page of 4 KB above the end of the
    last region, or the start of the user part when there is none; or the one
    asked for if it is a page of the user part.  The sum of address and size
    is taken modulo 2^64, as the code does. *)
Definition chosen_address w (l : list Z) (addr size : Z) : Z * Z :=
  if decide (addr = 0) then
    if USER_STACK_TOP <? next_addr w l + size then (- ENOMEM, 0) else (0, next_addr w l)
  else if decide (addr < USER_START \/ USER_STACK_TOP < (addr + size) mod 2 ^ 64) then (- EFAULT, 0)
  else if decide (addr mod PAGE_SIZE = 0 /\ addr + size < 2 ^ 64) then (0, addr) else (- EINVAL, 0).

Lemma anon_address_spec w as_ l R addr size : as_ok w as_ l R -> user_ok w l -> as_ <> 0 ->
  0 < size <= 2 ^ 47 -> size mod PAGE_SIZE = 0 -> 0 <= addr < 2 ^ 64 ->
  anon_address as_ addr size w = Ok (chosen_address w l addr size, w) \/
  (2 ^ 64 <= addr + size /\ chosen_address w l addr size = (- EINVAL, 0) /\ anon_address as_ addr size w = Ok ((0, addr), w)).
Proof.
  intros Hok Hu Has Hsz Hal Ha. unfold anon_address, chosen_address. case_decide as Hz.
  - left. subst addr. cbn [Z.eqb]. destruct (as_alloc_addr_spec w as_ l R size Hok Hu Has Hsz Hal) as (E & _ & Hlo & _).
    rewrite (vm_bind_Ok _ _ _ _ _ E). destruct (USER_STACK_TOP <? next_addr w l + size); [done|].
    unfold USER_START in Hlo. by rewrite (proj2 (Z.eqb_neq _ _)) by lia.
  - rewrite (proj2 (Z.eqb_neq _ _) Hz), land_page_aligned. change (u64 (addr + size)) with ((addr + size) mod 2 ^ 64).
    destruct (decide (addr < USER_START \/ USER_STACK_TOP < (addr + size) mod 2 ^ 64)) as [Hb|Hb].
    + left. destruct (Z.ltb_spec addr USER_START), (Z.ltb_spec USER_STACK_TOP ((addr + size) mod 2 ^ 64)); cbn [orb]; [done..|lia].
    + rewrite (proj2 (Z.ltb_ge _ _)), (proj2 (Z.ltb_ge _ _)) by lia. cbn [orb].
      destruct (Z.eqb_spec (addr mod PAGE_SIZE) 0) as [Hm|Hm]; case_decide as Hc; cbn [negb]; [by left| |tauto|by left].
      right. split_and!; [|done|done]. apply Z.nlt_ge. tauto.
Qed.

(** A range that wraps around is refused by [vma_add]. *)
Lemma map_anon_wraps w as_ a size prot_ flags_ anon_vma : as_ <> 0 -> 0 <= a < 2 ^ 64 -> 0 < size <= 2 ^ 47 -> 2 ^ 64 <= a + size ->
  map_anon_at as_ a size prot_ flags_ anon_vma w = Ok ((- EINVAL, 0), w).
Proof.
  intros Has Ha Hs Hw. unfold map_anon_at, vma_add. rewrite (proj2 (Z.eqb_neq _ _) Has).
  change (u64 (a + size)) with ((a + size) mod 2 ^ 64).
  assert ((a + size) mod 2 ^ 64 = a + size - 2 ^ 64) as -> by (symmetry; apply Z.mod_unique with 1; lia).
  by rewrite (proj2 (Z.leb_le _ _)) by lia.
Qed.

Lemma chosen_zero w l addr size a : 0 <= addr -> 0 < size -> chosen_address w l addr size = (0, a) ->
  (addr = 0 /\ a = next_addr w l /\ a + size <= USER_STACK_TOP) \/
  (a = addr /\ USER_START <= a /\ a + size <= USER_STACK_TOP /\ a mod PAGE_SIZE = 0).
Proof.
  intros Ha0 Hs0. unfold chosen_address. repeat case_decide; [|done| |done].
  - destruct (Z.ltb_spec USER_STACK_TOP (next_addr w l + size)); [done|]. intros [= <-]. left. done.
  - intros [= <-]. right. assert ((addr + size) mod 2 ^ 64 = addr + size) as Em by (apply Z.mod_small; lia).
    rewrite Em in *. split_and!; [done|lia|lia|tauto].
Qed.

Lemma chosen_sign w l addr size err a : chosen_address w l addr size = (err, a) -> err = 0 \/ (err <? 0) = true.
Proof. unfold chosen_address. repeat case_decide; repeat case_match; intros [= <- <-]; auto. Qed.

Lemma mapped_user_ok w w' as_ l R s e prot_ flags_ new : mapped_region w w' as_ l R s e prot_ flags_ new ->
  user_ok w l -> USER_START <= s -> e <= USER_STACK_TOP -> user_ok w' (ins (vkey (vmas w')) new l).
Proof.
  intros (Hn & _ & Ev & _) Hu Hs He a v [->|Ha]%ins_elem; rewrite Ev.
  - rewrite lookup_insert_eq. intros [= <-]. cbn. lia.
  - rewrite lookup_insert_ne by (intros <-; done). by apply Hu.
Qed.

Lemma map_anon_spec w as_ l R addr page prot_ flags_ anon_vma : as_ok w as_ l R -> user_ok w l -> as_ <> 0 ->
  0 < page -> page * PAGE_SIZE <= 2 ^ 47 -> 0 <= addr < 2 ^ 64 ->
  let size := page * PAGE_SIZE in
  let '(err, a) := chosen_address w l addr size in
  exists r w', vmm_map_anon as_ addr page prot_ flags_ anon_vma false w = Ok (r, w') /\
    ((err <> 0 /\ r = (err, 0) /\ w' = w) \/
     (err = 0 /\ r = (- EINVAL, 0) /\ addr <> 0 /\ ~ range_free (vmas w) l a (a + size) /\ w' = w) \/
     (err = 0 /\ r = (- ENOMEM, 0) /\ ph_room (heap (mm w)) <= 0 /\ as_ok w' as_ l R) \/
     (err = 0 /\ r = (0, a) /\ vma_fits w l a (a + size) /\
      exists new, mapped_region w w' as_ l R a (a + size) prot_ flags_ new /\ user_ok w' (ins (vkey (vmas w')) new l))).
Proof.
  intros Hok Hu Has Hp Hsz Ha size. assert (0 < size <= 2 ^ 47) as Hs by (unfold size, PAGE_SIZE in *; lia).
  assert (size mod PAGE_SIZE = 0) as Hal by (apply Z.mod_mul; done).
  destruct (chosen_address w l addr size) as [err a] eqn:Ec.
  destruct (anon_address_spec w as_ l R addr size Hok Hu Has Hs Hal Ha) as [E|(Hw & E' & E)]; rewrite Ec in *; cycle 1.
  { injection E' as -> ->. rewrite (map_anon_lazy _ _ _ _ _ _ _ _ _ _ Has Hp Hsz E). cbn [Z.ltb Z.compare].
    fold size. rewrite map_anon_wraps by done. eexists _, _. split; [reflexivity|]. by left. }
  rewrite (map_anon_lazy _ _ _ _ _ _ _ _ _ _ Has Hp Hsz E).
  destruct (chosen_sign _ _ _ _ _ _ Ec) as [->|Hneg]; cycle 1.
  { rewrite Hneg. eexists _, _. split; [reflexivity|]. left. split_and!; [|done|done]. intros ->. done. }
  cbn [Z.ltb Z.compare].
  destruct (as_alloc_addr_spec w as_ l R size Hok Hu Has Hs Hal) as (_ & Hnm & Hnlo & Hafter).
  assert (USER_START <= a /\ a + size <= USER_STACK_TOP /\ a mod PAGE_SIZE = 0) as (Hlo & Hhi & Ham).
  { destruct (chosen_zero w l addr size a ltac:(lia) ltac:(lia) Ec) as [(_ & -> & ?)|(-> & ? & ? & ?)]; by split_and!. }
  unfold USER_START, USER_STACK_TOP in Hlo, Hhi.
  destruct (map_anon_at_spec w as_ l R a size prot_ flags_ anon_vma Hok Has) as (r & w' & Em & Hc); [lia|lia|lia|].
  exists r, w'. split; [exact Em|]. right.
  destruct Hc as [(-> & Hno & ->)|[(-> & ? & ?)|(-> & Hfit & new & Hm)]].
  - left. assert (~ range_free (vmas w) l a (a + size)) as Hnf.
    { intros Hf. apply Hno. split; [|done]. unfold range_ok. split_and!; [lia|lia|lia|done|].
      rewrite Z.add_mod, Ham, Hal by done. done. }
    split_and!; [done|done| |done|done]. intros ->. apply Hnf. intros b v Hb Ev. right.
    destruct (chosen_zero w l 0 size a ltac:(lia) ltac:(lia) Ec) as [(_ & -> & _)|(-> & ? & _)]; [by apply (Hafter b)|lia].
  - right. left. done.
  - right. right. split_and!; [done|done|done|]. exists new. split; [done|]. eapply mapped_user_ok; [exact Hm|done|done|done].
Qed.

(** C10: lazy anonymous mappings.  For a request of at most 2^47 bytes and
    any 64-bit address [vmm_map_anon] maps a page-aligned range of the user
    part: when no address is asked for, one page (a gap of 4 KB) above the end
    of the last region, or at the start of the user part when there is no
    region; else at the address asked for; the range must be free.  Success
    adds exactly that region, keeps the space well formed and inside the user
    part, and touches neither page tables nor memory.  Errors name their cause
    and change no region: no room above the last region, an address outside
    the user part, one that is not aligned or whose range wraps around 2^64, a
    taken range (only for an address that was asked for), no memory. *)
Theorem vmm_map_anon_correct w as_ l R addr page prot_ flags_ anon_vma : as_ok w as_ l R -> user_ok w l -> as_ <> 0 ->
  0 < page -> page * PAGE_SIZE <= 2 ^ 47 -> 0 <= addr < 2 ^ 64 ->
  let size := page * PAGE_SIZE in
  let '(err, a) := chosen_address w l addr size in
  exists r w', vmm_map_anon as_ addr page prot_ flags_ anon_vma false w = Ok (r, w') /\
    ((err <> 0 /\ r = (err, 0) /\ w' = w) \/
     (err = 0 /\ r = (- EINVAL, 0) /\ addr <> 0 /\ ~ range_free (vmas w) l a (a + size) /\ w' = w) \/
     (err = 0 /\ r = (- ENOMEM, 0) /\ ph_room (heap (mm w)) <= 0 /\ as_ok w' as_ l R) \/
     (err = 0 /\ r = (0, a) /\ vma_fits w l a (a + size) /\
      exists new, mapped_region w w' as_ l R a (a + size) prot_ flags_ new /\ user_ok w' (ins (vkey (vmas w')) new l))).
Proof. exact (map_anon_spec w as_ l R addr page prot_ flags_ anon_vma). Qed.

(** Mapping and unmapping are inverse.  When a lazy anonymous mapping
    succeeded at [a], [vmm_unmap] at any address of it answers 0 and brings
    back the regions as they were; page tables and memory are untouched, and
    every page of the range has been flushed from the TLB. *)
Theorem map_unmap_roundtrip w w' as_ l R addr page prot_ flags_ anon_vma a x : as_ok w as_ l R -> user_ok w l -> as_ <> 0 ->
  0 < page -> page * PAGE_SIZE <= 2 ^ 47 -> 0 <= addr < 2 ^ 64 ->
  vmm_map_anon as_ addr page prot_ flags_ anon_vma false w = Ok ((0, a), w') -> a <= x < a + page * PAGE_SIZE ->
  exists w'', vmm_unmap as_ x w' = Ok (0, w'') /\ as_ok w'' as_ l R /\ vmas w'' = vmas w /\
    flushed w' w'' a (a + page * PAGE_SIZE) /\ tables (mm w'') = tables (mm w) /\ memory w'' = memory w.
Proof.
  intros Hok Hu Has Hp Hs Ha E Hx. pose proof (map_anon_spec w as_ l R addr page prot_ flags_ anon_vma Hok Hu Has Hp Hs Ha) as Hc.
  cbn zeta in Hc. destruct (chosen_address w l addr (page * PAGE_SIZE)) as [err a0] eqn:Ec.
  destruct Hc as (r & w1 & E1 & Hc). rewrite E in E1. injection E1 as <- <-.
  destruct Hc as [(Hne & [= <- _] & _)|[(_ & [=] & _)|[(_ & [=] & _)|(-> & [= ->] & Hfit & new & Hm & _)]]]; [done|].
  destruct Hm as (_ & Hn & Ev & Hok' & Ht & Hmem & _).
  destruct (ins_place (vkey (vmas w')) new l) as (l1 & l2 & Ei & ->). rewrite Ei in Hok'.
  destruct (as_unmap_spec w' as_ l1 new l2 R (new_region a0 (a0 + page * PAGE_SIZE) prot_ flags_) x Hok' Has)
    as (w'' & E2 & Hok2 & Ev2 & Hfl & Ht2 & Hm2); [rewrite Ev; apply lookup_insert_eq|done|exact Hx|].
  exists w''. unfold vmm_unmap. rewrite (proj2 (Z.eqb_neq _ _) Has).
  split_and!; [exact E2|done| |done|congruence|congruence].
  rewrite Ev2, Ev. by apply delete_insert_id.
Qed.

(** ** Page faults *)


(** Races with a fault.  While the handler has dropped the lock another
    processor may change the address space.  If the region at the address is
    no longer the one that was looked up when the page has been filled, the
    handler gives the page back and answers -EAGAIN.  But the handler reads
    the region's structure with the lock dropped: if the region was unmapped
    before the page is filled, the freed structure is used. *)
Theorem vmm_handle_fault_race w as_ l R a v addr access : as_ok w as_ l R -> as_ <> 0 -> a ∈ l -> vmas w !! a = Some v ->
  start v <= addr < end_ v -> Z.land (prot v) access <> 0 -> lazy_region v -> 0 < ph_room (heap (mm w)) ->
  (exists linear h, ph_alloc PAGE_SIZE (heap (mm w)) = Ok (linear, h) /\
   forall meanwhile l' R', let w1 := meanwhile (filled w h linear) in
     as_ok w1 as_ l' R' -> ph_own (heap (mm w1)) linear ->
     (forall b u, b ∈ l' -> vmas w1 !! b = Some u -> start u <= addr < end_ u -> start u <> start v \/ end_ u <> end_ v) ->
     exists h', ph_free linear (heap (mm w1)) = Ok h' /\
       vmm_handle_fault id meanwhile as_ addr access w = Ok (- EAGAIN, with_mm w1 (set_heap (mm w1) h'))) /\
  (exists w1, vmm_unmap as_ addr w = Ok (0, w1) /\
   (0 < ph_room (heap (mm w1)) -> forall meanwhile, vmm_handle_fault (fun _ => w1) meanwhile as_ addr access w = Fault)).
Proof.
  intros Hok Has Hal Ev Hin Hacc Hlazy Hroom. split.
  - destruct (ph_alloc_ok (heap (mm w)) PAGE_SIZE) as (linear & h & Ea & Hi & Hk & Ho & Hro);
      [exact (ok_heap _ _ _ _ Hok)|unfold PAGE_SIZE; lia|].
    destruct Hro as [Hz _]; [lia|done|]. exists linear, h. split; [done|]. intros meanwhile l' R' w1 Hok1 Hown Hdiff.
    by apply (handle_fault_again meanwhile w as_ l l' R R' a v).
  - destruct (list_elem_of_split _ _ Hal) as (l1 & l2 & ->).
    destruct (as_unmap_spec w as_ l1 a l2 R v addr Hok Has Ev Hlazy Hin) as (w' & E' & Hok' & Ev' & _).
    exists w'. unfold vmm_unmap. rewrite (proj2 (Z.eqb_neq _ _) Has). split; [done|]. intros Hroom1 meanwhile.
    destruct (ph_alloc_ok (heap (mm w')) PAGE_SIZE) as (linear & h & Ea & _ & _ & _ & Hro);
      [exact (ok_heap _ _ _ _ Hok')|unfold PAGE_SIZE; lia|]. destruct Hro as [Hz _]; [lia|done|].
    apply (handle_fault_freed (fun _ => w') meanwhile w as_ (l1 ++ a :: l2) R a v addr access linear h); try done.
    rewrite Ev'. apply lookup_delete_eq.
Qed.

(** ** Tearing down *)

(** C12: dropping references.  [as_destroy] ends.  While other references
    remain it only lowers the count.  The last one leaves the heap that
    freeing the following objects, each once and in this order, makes of the
    old one: for every region of the list the memory it records, if any, and
    its structure; then the page directory; then the structure of the address
    space.  All of them must be in the heap and none twice, and the regions
    anonymous ones; whether they have been touched does not matter.  Every
    other object is still there: those of other address spaces, but also the
    table pages under the directory, which nobody can reach any more.  The
    trees beside this one, the contents of memory and the open files are as
    before. *)
Theorem as_destroy_correct w as_ l R s : as_ok w as_ l R -> as_ <> 0 -> owns_objects w as_ s l ->
  spaces w !! as_ = Some s -> 1 <= refcount s < 2 ^ 31 ->
  exists w', as_destroy as_ w = Ok (tt, w') /\
    (if decide (refcount s = 1) then destroyed w w' as_ s R
     else w' = with_spaces w (<[as_ := As (pgd s) (vma_list s) (refcount s - 1)]> (spaces w)) /\ as_ok w' as_ l R).
Proof.
  intros Hok Has Hown Es Href. case_decide as Hone.
  - by eapply as_destroy_last.
  - destruct (as_destroy_shared w as_ l R s Hok Has Es) as [E Hok']; [lia|]. by eexists.
Qed.

(** ** File mappings *)

(** A file mapping loses its file.  [file] and [anon_vma] are members of
    one union, and [vma_set_file] clears [anon_vma] after it has stored
    [file]: the region that [vmm_map_file] leaves has no file, and paging it
    in reads through a NULL file pointer, which [vfs_read] dereferences. *)
Theorem vma_set_file_loses_file vma file offset path w w1 x dest : 0 <= offset < 2 ^ 63 -> vma <> 0 -> dest <> 0 ->
  vma_set_file vma file offset path w = Ok (tt, w1) ->
  (forall n pos f, vfs_read 0 n pos f = Fault) ->
  exists v, vmas w1 !! vma = Some v /\ file_or_anon v = 0 /\ offset_or_anon v = offset /\
    (start v <= x < end_ v -> vma_read_page vma x dest w1 = Fault).
Proof.
  intros Hoff Hv Hd E Hnull. unfold vma_set_file in E. unfold mbind at 1, vm_bind at 1, vma_at in E.
  destruct (vmas w !! vma) as [u|] eqn:Eu; [|done]. cbn in E.
  unfold mbind at 1, vm_bind at 1 in E. destruct (strdup path w) as [[d w2]| |]; [|done..]. cbn in E.
  unfold put_vma in E. destruct (vmas w2 !! vma) eqn:E2; [|done]. cbn in E. injection E as <-.
  eexists. split; [apply lookup_insert_eq|]. cbn [file_or_anon offset_or_anon set_union set_path set_offset start end_].
  rewrite to_signed_small by lia. split_and!; [done|done|]. intros Hx.
  unfold vma_read_page. rewrite (proj2 (Z.eqb_neq _ _) Hv), (proj2 (Z.eqb_neq _ _) Hd). cbn [orb].
  rewrite (vm_bind_Ok _ _ _ _ _ (vma_at_Ok _ _ _ (lookup_insert_eq _ _ _))). cbn [start end_ offset_or_anon file_or_anon set_union set_path set_offset].
  rewrite (proj2 (Z.ltb_ge _ _)), (proj2 (Z.leb_gt _ _)) by lia. cbn [orb]. cbn zeta.
  rewrite (proj2 (Z.ltb_ge _ _)) by lia. unfold mbind, vm_bind, on_files. by rewrite Hnull.
Qed.

End correct.

(** ** Witnesses: an address space on the sixteen-frame machine *)

(** A file system without files. *)
#[export] Instance no_files : VfsEnv unit := {
  vfs_open _ _ f := ((- ENOENT, 0), f);
  vfs_close file f := if file =? 0 then Fault else Ok f;
  vfs_read file _ _ f := if file =? 0 then Fault else Ok ((0, []), f)
}.

(** What the processes of that machine share. *)
Definition demo_share : share := user_share {[uaf_a1 := 3%nat]}.

(** A new address space with the directory of [m16_directory]. *)
Lemma demo_space : exists (w : vmm (H := pmm) (F := unit)) as_ p G,
  as_ok w as_ [] h_emp /\ as_ <> 0 /\ spaces w !! as_ = Some (As p [] 1) /\ p <> 0 /\ vmas w = ∅ /\
  mmu_ok demo_share (PHYS_TO_LINEAR p) G (mm w) /\ 11 <= ph_room (heap (mm w)) /\
  ph_own (heap (mm w)) (PHYS_TO_LINEAR p) /\ PHYS_TO_LINEAR p <> as_ /\ dom (spaces w) = {[as_]} /\ dom (cells w) = {[as_]} /\
  (forall x, PML4_INDEX x < 256 -> path_rights (tables (mm w)) (PHYS_TO_LINEAR p) (table_path x) = all_rights).
Proof.
  destruct m16_directory as (p & s & _ & Hp & Hm & Hr & Ho & _ & Hpr).
  set (w0 := Vmm s ∅ ∅ ∅ ∅ {[ 8192 := [47] ]} (fun _ => 1) tt [] MMIO_MAP 0 0 0 : vmm (H := pmm) (F := unit)).
  destruct (as_create_spec w0 h_emp p) as (a & h & _ & Ha & Hok & Hro & Hk & Hf).
  { constructor; [done|apply Hm|set_solver|set_solver]. }
  { cbn in *. lia. }
  eexists _, a, p, _. split; [exact Hok|]. split; [exact Ha|]. cbn in *.
  split; [by rewrite lookup_insert_eq|]. split; [done|]. split; [done|]. split_and!.
  - apply mmu_ok_heap; [exact Hm|apply Hok|done].
  - cbn in *. lia.
  - by apply Hk.
  - intros E. apply Hf. by rewrite <- E.
  - rewrite dom_insert_L. set_solver.
  - rewrite dom_insert_L. set_solver.
  - exact Hpr.
Qed.

(** The same with two pages mapped at the start of the user part. *)
Lemma demo_mapped : exists (w : vmm (H := pmm) (F := unit)) as_ p G a,
  let v := new_region 0x400000 0x402000 1 0 in
  as_ok w as_ [a] h_emp /\ as_ <> 0 /\ spaces w !! as_ = Some (As p [a] 1) /\ p <> 0 /\ vmas w = {[a := v]} /\
  mmu_ok demo_share (PHYS_TO_LINEAR p) G (mm w) /\ 10 <= ph_room (heap (mm w)) /\
  ph_own (heap (mm w)) (PHYS_TO_LINEAR p) /\ PHYS_TO_LINEAR p ∉ dom (vmas w) ∪ dom (spaces w) ∪ dom (cells w) /\
  (forall x, PML4_INDEX x < 256 -> path_rights (tables (mm w)) (PHYS_TO_LINEAR p) (table_path x) = all_rights).
Proof.
  destruct demo_space as (w & as_ & p & G & Hok & Has & Es & Hp & Ev & Hm & Hr & Ho & Hne & Hds & Hdc & Hpr).
  destruct (map_anon_at_spec w as_ [] h_emp 0x400000 0x2000 1 0 0 Hok Has) as (r & w' & _ & Hc); [lia..|].
  destruct Hc as [(_ & Hno & _)|[(_ & ? & _)|(_ & _ & a & Hmr)]].
  - destruct Hno. split; [by repeat split|]. intros ? ? []%not_elem_of_nil.
  - lia.
  - destruct Hmr as (_ & _ & Ev' & Hok' & Ht & _ & (s & Es' & Esp) & Hk & Hro & Hfr & Hdc'). rewrite Es in Es'. injection Es' as <-.
    exists w', as_, p, G, a. cbn zeta. split_and!; [done|done| |done| | |lia|by apply Hk| |].
    + rewrite Esp. by rewrite lookup_insert_eq.
    + rewrite Ev', Ev. done.
    + destruct Hm as [Hi Htr Hu Hown Hx]. destruct Hk as [Hk1 Hk2].
      constructor; [apply Hok'|by rewrite Ht|eauto..].
    + rewrite Ev', Esp, Ev, Hdc', Hdc, !dom_insert_L, Hds. assert (PHYS_TO_LINEAR p <> a) by (intros E; apply Hfr; by rewrite <- E). set_solver.
    + by rewrite Ht.
Qed.

Lemma vma_add_correct_witness : exists (w w' : vmm (H := pmm) (F := unit)) as_,
  vma_add as_ 0x500000 0x503000 3 0 w = Ok (0, w') /\ vma_add as_ 0x401000 0x500000 3 0 w = Ok (- EINVAL, w).
Proof.
  destruct demo_mapped as (w & as_ & p & G & a & Hok & Has & _ & _ & Ev & Hm & Hr & _).
  assert (forall s e, s <= e -> range_free (vmas w) [a] s e <-> e <= 0x400000 \/ 0x402000 <= s) as Hf.
  { intros s e Hse. rewrite Ev. split.
    - intros Hf. apply (Hf a (new_region 0x400000 0x402000 1 0)); [set_solver|by rewrite lookup_singleton_eq].
    - intros Hc b v ->%list_elem_of_singleton. rewrite lookup_singleton_eq. intros [= <-]. exact Hc. }
  destruct (vma_add_correct w as_ [a] h_emp 0x500000 0x503000 3 0 Hok Has) as (r & w' & E & Hc); [lia|lia|].
  destruct (vma_add_correct w as_ [a] h_emp 0x401000 0x500000 3 0 Hok Has) as (r2 & w2 & E2 & Hc2); [lia|lia|].
  exists w, w', as_. split.
  - destruct Hc as [(_ & Hno & _)|[(_ & _ & ? & _)|(-> & _)]]; [|lia|exact E].
    destruct Hno. split; [by repeat split|]. apply Hf; lia.
  - destruct Hc2 as [(-> & _ & ->)|[(_ & [_ Hn] & _)|(_ & [_ Hn] & _)]]; [exact E2|..]; apply Hf in Hn; lia.
Defined.

Lemma vma_find_correct_witness : exists (w : vmm (H := pmm) (F := unit)) as_ r,
  vma_find as_ 0x401234 w = Ok (r, w) /\ r <> 0 /\ vma_find as_ 0x402000 w = Ok (0, w).
Proof.
  destruct demo_mapped as (w & as_ & p & G & a & Hok & Has & _ & _ & Ev & Hm & Hr & _).
  pose proof (as_ok_nonzero _ _ _ _ a Hok ltac:(set_solver)) as Ha%Z.eqb_neq.
  destruct (vma_find_correct w as_ [a] h_emp 0x401234 Hok Has) as (r & E & Hc).
  destruct (vma_find_correct w as_ [a] h_emp 0x402000 Hok Has) as (r2 & E2 & Hc2).
  exists w, as_, r. assert (r = a) as ->.
  { apply Hc; [done|]. eexists. rewrite Ev, lookup_singleton_eq. split_and!; [set_solver|reflexivity|cbn; lia|cbn; lia]. }
  split_and!; [exact E|exact Ha|]. rewrite E2. do 2 f_equal.
  destruct (decide (r2 = 0)) as [->|Hn]; [done|]. destruct (proj1 (Hc2 r2 Hn) eq_refl) as (v & ->%list_elem_of_singleton & Hv & Hb).
  rewrite Ev, lookup_singleton_eq in Hv. injection Hv as <-. cbn in Hb. lia.
Defined.

Lemma vmm_map_anon_correct_witness : exists (w w' : vmm (H := pmm) (F := unit)) as_,
  vmm_map_anon as_ 0 3 3 0 0 false w = Ok ((0, USER_START), w').
Proof.
  destruct demo_space as (w & as_ & p & G & Hok & Has & _ & _ & Ev & Hm & Hr & _).
  assert (user_ok w []) as Hu by (intros ? ? []%not_elem_of_nil).
  pose proof (vmm_map_anon_correct w as_ [] h_emp 0 3 3 0 0 Hok Hu Has) as Hc.
  destruct Hc as (r & w' & E & Hc); [lia|unfold PAGE_SIZE; lia|lia|].
  exists w, w', as_. rewrite E.
  destruct Hc as [(Hn & _)|[(_ & _ & Hn & _)|[(_ & _ & ? & _)|(_ & -> & _)]]]; [done|done|lia|done].
Defined.

Lemma map_unmap_roundtrip_witness : exists (w w1 w2 : vmm (H := pmm) (F := unit)) as_,
  vmm_map_anon as_ 0 3 3 0 0 false w = Ok ((0, USER_START), w1) /\ vmm_unmap as_ 0x402fff w1 = Ok (0, w2) /\ vmas w2 = vmas w.
Proof.
  destruct demo_space as (w & as_ & p & G & Hok & Has & _ & _ & Ev & Hm & Hr & _).
  assert (user_ok w []) as Hu by (intros ? ? []%not_elem_of_nil).
  pose proof (map_anon_spec w as_ [] h_emp 0 3 3 0 0 Hok Hu Has) as Hc.
  destruct Hc as (r & w' & E & Hc); [lia|unfold PAGE_SIZE; lia|lia|].
  destruct Hc as [(Hn & _)|[(_ & _ & Hn & _)|[(_ & _ & ? & _)|(_ & -> & _)]]]; [done|done|lia|].
  destruct (map_unmap_roundtrip w w' as_ [] h_emp 0 3 3 0 0 (next_addr w []) 0x402fff Hok Hu Has) as (w2 & E2 & _ & Ev2 & _);
    [lia|unfold PAGE_SIZE; lia|lia|exact E|cbn; unfold PAGE_SIZE, USER_START; lia|].
  exists w, w', w2, as_. split_and!; [exact E|exact E2|exact Ev2].
Defined.


(** The region of [demo_mapped] after a first fault. *)
Definition touched (linear : Z) (p : page_table_blocks_struct) : vm_area := Vma 0x400000 0x402000 linear 1 0 (-1) 0 0 p.


Lemma vmm_handle_fault_race_witness : exists (w w1 : vmm (H := pmm) (F := unit)) as_,
  vmm_unmap as_ 0x401000 w = Ok (0, w1) /\
  (0 < ph_room (heap (mm w1)) -> vmm_handle_fault (fun _ => w1) id as_ 0x401000 1 w = Fault).
Proof.
  destruct demo_mapped as (w & as_ & p & G & a & Hok & Has & Es & Hp & Ev & Hm & Hr & _).
  destruct (vmm_handle_fault_race w as_ [a] h_emp a (new_region 0x400000 0x402000 1 0) 0x401000 1)
    as [_ (w1 & E & Hc)]; [exact Hok|exact Has|by left|by rewrite Ev, lookup_singleton_eq|cbn; lia|done|done|lia|].
  exists w, w1, as_. split; [exact E|]. intros Hr1. exact (Hc Hr1 id).
Defined.

(** The address space of [demo_mapped] after a fault: one region with a page
    of memory. *)
Lemma demo_touched : exists (w : vmm (H := pmm) (F := unit)) as_ p a linear q,
  as_ok w as_ [a] h_emp /\ as_ <> 0 /\ spaces w !! as_ = Some (As p [a] 1) /\ vmas w !! a = Some (touched linear q) /\
  linear <> 0 /\ owns_objects w as_ (As p [a] 1) [a].
Proof.
  destruct demo_mapped as (w & as_ & p & G & a & Hok & Has & Es & Hp & Ev & Hm & Hr & Ho & Hout & _).
  assert (vmas w !! a = Some (new_region 0x400000 0x402000 1 0)) as Ea by by rewrite Ev, lookup_singleton_eq.
  destruct (handle_fault_spec demo_share id w as_ [a] [a] h_emp h_emp a (new_region 0x400000 0x402000 1 0) 0x401000 1 (As p [a] 1) G)
    as (linear & w1 & _ & [Hok1 _ _ _ (Hlz & Hnew & Hown) (Hk & _) _ _ [q Ev1] (Hs1 & Hc1 & _)]);
    [exact Hok|exact Has|by left|exact Ea|cbn; lia|done|done|done|exact Hok|by left|exact Ea|exact Es|exact Hp|exact Hm|unfold id; lia|].
  unfold id in *.
  assert (vmas w1 !! a = Some (touched linear q)) as Ea1 by (rewrite Ev1; apply lookup_insert_eq).
  assert (spaces w1 !! as_ = Some (As p [a] 1)) as Es1 by (rewrite Hs1; exact Es).
  pose proof (elem_of_dom_2 _ _ _ Ea) as Hda. pose proof (elem_of_dom_2 _ _ _ Es) as Hds.
  assert (dom (vmas w1) ∪ dom (spaces w1) ∪ dom (cells w1) = dom (vmas w) ∪ dom (spaces w) ∪ dom (cells w)) as Hdom.
  { rewrite Ev1, Hs1, Hc1, dom_insert_L. set_solver. }
  assert (forall b, b ∈ dom (vmas w) ∪ dom (spaces w) ∪ dom (cells w) -> linear <> b) as Hfresh.
  { intros b Hb ->. by apply Hnew, (ok_owned _ _ _ _ Hok). }
  exists w1, as_, p, a, linear, q. split_and!; [done|done|done|done|done|]. unfold owns_objects, owns_directory. split_and!.
  - intros b v ->%list_elem_of_singleton. rewrite Ea1. intros [= <-]. split_and!; [done|done|]. intros _. cbn [linear_addr touched].
    split; [by apply ph_own_block|]. rewrite Hdom. intros Hin. by apply (Hfresh linear).
  - done.
  - apply ph_own_block, Hk, Ho.
  - by rewrite Hdom.
  - unfold space_objects, regions_objects. cbn [vma_list fmap list_fmap]. unfold region_objects. rewrite Ea1.
    cbn [linear_addr touched]. rewrite (proj2 (Z.eqb_neq _ _) Hlz). cbn [mjoin list_join app pgd].
    assert (linear <> PHYS_TO_LINEAR p) by (intros ->; done). pose proof (ok_kinds _ _ _ _ Hok).
    assert (linear <> a) by (apply Hfresh; set_solver). assert (linear <> as_) by (apply Hfresh; set_solver).
    assert (a <> PHYS_TO_LINEAR p) by (intros ->; set_solver). assert (a <> as_) by (intros ->; set_solver).
    assert (as_ <> PHYS_TO_LINEAR p) by (intros ->; set_solver).
    repeat (apply NoDup_cons; split; [rewrite ?not_elem_of_cons; split_and?; try congruence; by intros ?%not_elem_of_nil|]). constructor.
Qed.

Lemma as_destroy_correct_witness : exists (w w' : vmm (H := pmm) (F := unit)) as_ p a linear,
  as_destroy as_ w = Ok (tt, w') /\ linear <> 0 /\ spaces w' = delete as_ (spaces w) /\ is_Some (spaces w !! as_) /\
  free_all [linear; a; PHYS_TO_LINEAR p; as_] (heap (mm w)) = Ok (heap (mm w')).
Proof.
  destruct demo_touched as (w & as_ & p & a & linear & q & Hok & Has & Es & Ea & Hlz & Hown).
  destruct (as_destroy_correct w as_ [a] h_emp (As p [a] 1) Hok Has Hown Es) as (w' & E & Hc); [cbn; lia|].
  rewrite decide_True in Hc by done. exists w, w', as_, p, a, linear. split_and!; [exact E|exact Hlz|apply Hc|by eexists|].
  pose proof (de_freed _ _ _ _ _ Hc) as Hf. unfold space_objects, regions_objects in Hf. cbn [vma_list fmap list_fmap] in Hf.
  unfold region_objects in Hf. rewrite Ea in Hf. cbn [linear_addr touched] in Hf. rewrite (proj2 (Z.eqb_neq _ _) Hlz) in Hf. exact Hf.
Defined.

(** A region whose file was set, on a machine with one region and one path. *)
Definition file_world : vmm (H := pmm) (F := unit) :=
  Vmm (Mmu m16 ∅) ∅ {[ 4096 := new_region 0x400000 0x402000 1 0 ]} ∅ ∅ {[ 8192 := [47] ]} (fun _ => 1) tt [] MMIO_MAP 0 0 0.

Lemma file_world_strdup : exists d h, strdup 8192 file_world =
  Ok (d, with_strings (with_mm file_world (set_heap (mm file_world) h)) (<[d := [47]]> (strings file_world))).
Proof.
  destruct (heap_alloc_ok m16 2 m16_heap_inv) as (d & h & Ea & _ & _ & _ & Hro); [lia|].
  destruct Hro as [Hz _]; [unfold PAGE_SIZE; lia|rewrite m16_room; lia|].
  change (ph_alloc (PageHeap := kernel_heap) 2 m16 = Ok (d, h)) in Ea.
  assert (kheap_alloc_ (H := pmm) (F := unit) 2 file_world = Ok (d, with_mm file_world (set_heap (mm file_world) h))) as E
    by by apply kheap_alloc_Ok.
  exists d, h. unfold strdup. rewrite (vm_bind_Ok _ _ file_world [47] file_world).
  - cbn [length]. rewrite (vm_bind_Ok _ _ _ _ _ E), (proj2 (Z.eqb_neq _ _) Hz). done.
  - cbn [file_world strings]. by rewrite lookup_singleton_eq.
Qed.

Lemma vma_set_file_loses_file_witness : exists w1,
  vma_set_file 4096 64 0 8192 file_world = Ok (tt, w1) /\ vma_read_page 4096 0x400000 12288 w1 = Fault.
Proof.
  destruct file_world_strdup as (d & h & Ed).
  assert (vmas file_world !! 4096 = Some (new_region 0x400000 0x402000 1 0)) as Ev by apply lookup_singleton_eq.
  assert (exists w1, vma_set_file 4096 64 0 8192 file_world = Ok (tt, w1) /\
    start <$> vmas w1 !! 4096 = Some 0x400000 /\ end_ <$> vmas w1 !! 4096 = Some 0x402000) as (w1 & E & Hs & He).
  { unfold vma_set_file. rewrite (vm_bind_Ok _ _ _ _ _ (vma_at_Ok _ _ _ Ev)), (vm_bind_Ok _ _ _ _ _ Ed).
    unfold put_vma. cbn [vmas with_strings with_mm]. rewrite Ev. cbn [deref mbind outcome_bind].
    eexists. split; [reflexivity|]. cbn [vmas with_vmas]. rewrite lookup_insert_eq. split; reflexivity. }
  exists w1. split; [exact E|].
  destruct (vma_set_file_loses_file (H := pmm) (F := unit) 4096 64 0 8192 file_world w1 0x400000 12288)
    as (v & Ev1 & _ & _ & Hc); [lia|lia|lia|exact E|done|].
  rewrite Ev1 in Hs, He. apply Hc. cbn in Hs, He. injection Hs as ->. injection He as ->. lia.
Defined.
