(* ===== verification/Endian.v ===== *)
(** * Little-endian fields of packed structures

    What the code reads and writes through casts of byte buffers to structures
    (gpt.c, exec/elf): a field of [n] bytes at an offset, stored least
    significant byte first. *)

From S2P Require Import Prelude Bitmap Dynarr.

Local Open Scope Z_scope.

(** The number a sequence of bytes stands for, and its [n] bytes. *)
Fixpoint le_of (l : list Z) : Z :=
  match l with
  | [] => 0
  | b :: l => b + 256 * le_of l
  end.
Fixpoint le_bytes (n : nat) (x : Z) : list Z :=
  match n with
  | O => []
  | S n => x mod 256 :: le_bytes n (x / 256)
  end.

(** Reading [n] bytes, and a field of [n] bytes, at offset [off]. *)
Fixpoint load_bytes (m : bytes) (off : Z) (n : nat) : outcome (list Z) :=
  match n with
  | O => Ok []
  | S n => b ← load8 m off; l ← load_bytes m (off + 1) n; Ok (b :: l)
  end.
Definition load_le (m : bytes) (off : Z) (n : nat) : outcome Z :=
  l ← load_bytes m off n; Ok (le_of l).

(** A buffer with exactly the bytes [l]. *)
Definition mem_of (l : list Z) : bytes := list_to_map (zip (seqZ 0 (Z.of_nat (length l))) l).

Lemma le_bytes_length n x : length (le_bytes n x) = n.
Proof. revert x. induction n as [|n IH]; intros x; cbn; [done|]. by rewrite IH. Qed.

Lemma le_bytes_fits n x : Forall (fits 8) (le_bytes n x).
Proof.
  revert x. induction n as [|n IH]; intros x; cbn [le_bytes]; constructor; [|done].
  apply (Z.mod_pos_bound x 256). lia.
Qed.

(** Encoding and decoding a field are inverse. *)
Lemma le_of_le_bytes n x : fits (8 * Z.of_nat n) x -> le_of (le_bytes n x) = x.
Proof.
  revert x. induction n as [|n IH]; intros x Hx; cbn [le_bytes le_of].
  - unfold fits in Hx. cbn in Hx. lia.
  - rewrite IH; [rewrite (Z.div_mod x 256) at 3 by lia; lia|].
    unfold fits in *. replace (8 * Z.of_nat (S n)) with (8 + 8 * Z.of_nat n) in Hx by lia.
    rewrite Z.pow_add_r in Hx by lia. change (2 ^ 8) with 256 in Hx.
    split; [apply Z.div_pos; lia|]. apply Z.div_lt_upper_bound; lia.
Qed.

Lemma le_of_fits l : Forall (fits 8) l -> fits (8 * Z.of_nat (length l)) (le_of l).
Proof.
  induction 1 as [|b l Hb _ IH]; cbn [le_of length]; [done|].
  unfold fits in *. replace (8 * Z.of_nat (S (length l))) with (8 + 8 * Z.of_nat (length l)) by lia.
  rewrite Z.pow_add_r by lia. change (2 ^ 8) with 256 in *. lia.
Qed.

(** The buffer holds the bytes [l] from offset 0. *)
Definition has (m : bytes) (l : list Z) : Prop :=
  forall i b, l !! i = Some b -> m !! Z.of_nat i = Some b.

(** [n] bytes of a list, and the field they stand for. *)
Definition bytes_at (l : list Z) (off n : nat) : list Z := take n (drop off l).
Definition le_at (l : list Z) (off n : nat) : Z := le_of (bytes_at l off n).

Lemma bytes_at_length l off n : (off + n <= length l)%nat -> length (bytes_at l off n) = n.
Proof. intros. unfold bytes_at. rewrite length_take, length_drop. lia. Qed.

(** The bytes of a buffer that are there can be read. *)
Lemma load_bytes_Ok m off l :
  (forall i b, l !! i = Some b -> m !! (off + Z.of_nat i) = Some b) ->
  load_bytes m off (length l) = Ok l.
Proof.
  revert off. induction l as [|b l IH]; intros off H; cbn [load_bytes length]; [done|].
  unfold load8. pose proof (H O b eq_refl) as E. rewrite Z.add_0_r in E. rewrite E.
  cbn [deref mbind outcome_bind]. rewrite IH; [done|].
  intros i x Ei. rewrite <- (H (S i) x Ei). f_equal. lia.
Qed.

Lemma load_bytes_has m l off n : has m l -> (off + n <= length l)%nat ->
  load_bytes m (Z.of_nat off) n = Ok (bytes_at l off n).
Proof.
  intros Hm Hl. rewrite <- (bytes_at_length l off n Hl) at 1. apply load_bytes_Ok.
  unfold bytes_at. intros i b [E _]%lookup_take_Some. rewrite lookup_drop in E.
  rewrite <- Nat2Z.inj_add. by apply Hm.
Qed.

Lemma load_le_has m l off n : has m l -> (off + n <= length l)%nat ->
  load_le m (Z.of_nat off) n = Ok (le_at l off n).
Proof. intros. unfold load_le. by rewrite (load_bytes_has m l). Qed.

(** The same at a numeric offset. *)
Lemma load_bytes_in m l off n : has m l -> 0 <= off -> off + Z.of_nat n <= Z.of_nat (length l) ->
  load_bytes m off n = Ok (bytes_at l (Z.to_nat off) n).
Proof. intros. rewrite <- (load_bytes_has m l) by (done || lia). by rewrite Z2Nat.id. Qed.
Lemma load_le_in m l off n : has m l -> 0 <= off -> off + Z.of_nat n <= Z.of_nat (length l) ->
  load_le m off n = Ok (le_at l (Z.to_nat off) n).
Proof. intros. rewrite <- (load_le_has m l) by (done || lia). by rewrite Z2Nat.id. Qed.

Lemma has_fits m l n : has m l -> bitmap_wf m n -> Forall (fits 8) l.
Proof. intros Hm [_ Hf]. apply Forall_lookup_2. intros i b E. by eapply Hf, Hm. Qed.

Lemma has_take m l n : has m l -> has m (take n l).
Proof. intros Hm i b. rewrite lookup_take_Some. intros [E _]. by apply Hm. Qed.

Lemma mem_of_lookup l (i : nat) : mem_of l !! Z.of_nat i = l !! i.
Proof.
  unfold mem_of. assert (forall k, (list_to_map (zip (seqZ k (Z.of_nat (length l))) l) : bytes)
    !! (k + Z.of_nat i) = l !! i) as H; [|by rewrite <- (H 0)].
  revert i. induction l as [|b l IH]; intros i k; [done|].
  cbn [length]. rewrite seqZ_cons by lia. cbn [zip zip_with list_to_map].
  destruct i as [|i].
  - rewrite Z.add_0_r. cbn. by rewrite lookup_insert_eq.
  - cbn. rewrite lookup_insert_ne by lia. specialize (IH i (Z.succ k)).
    replace (k + Z.of_nat (S i)) with (Z.succ k + Z.of_nat i) by lia.
    by replace (Z.pred (Z.of_nat (S (length l)))) with (Z.of_nat (length l)) by lia.
Qed.

Lemma mem_of_wf l : Forall (fits 8) l -> bitmap_wf (mem_of l) (Z.of_nat (length l)).
Proof.
  intros Hf.
  assert (forall i, i < 0 -> mem_of l !! i = None) as Hneg.
  { intros i Hi. apply not_elem_of_list_to_map_1. rewrite fst_zip by (rewrite length_seqZ; lia).
    rewrite elem_of_seqZ. lia. }
  split.
  - intros i. destruct (Z.lt_ge_cases i 0) as [Hi|Hi].
    + rewrite Hneg by done. split; [by intros [? ?]|lia].
    + rewrite <- (Z2Nat.id i) by done. rewrite mem_of_lookup, lookup_lt_is_Some. lia.
  - intros i b. destruct (Z.lt_ge_cases i 0) as [Hi|Hi]; [by rewrite Hneg|].
    rewrite <- (Z2Nat.id i) by done. rewrite mem_of_lookup. intros E. by eapply Forall_lookup_1.
Qed.

Lemma mem_of_has l : has (mem_of l) l.
Proof. intros i b E. by rewrite mem_of_lookup. Qed.

(** The bytes of a list in memory, read back. *)
Lemma read_mem_of l : read (mem_of l) 0 (Z.of_nat (length l)) = l.
Proof.
  unfold read. apply list_eq. intros j. rewrite list_lookup_fmap.
  destruct (decide (j < length l)%nat) as [Hj|Hj].
  - rewrite lookup_seqZ_lt by lia. cbn [fmap option_fmap option_map]. rewrite !Z.add_0_l, mem_of_lookup.
    destruct (lookup_lt_is_Some_2 l j Hj) as [b E]. by rewrite E.
  - rewrite lookup_seqZ_ge by lia. cbn. symmetry. apply lookup_ge_None. lia.
Qed.
