(* ===== verification/Drivers.v ===== *)
(** * The driver framework (kernel/drivers/base/drivers.c, kernel/drivers/drivers.h)

    Devices, drivers, buses and the queue of pending probes are objects by
    their addresses; the intrusive lists are the sequences of their nodes, and
    taking a node off a list takes its address out of the sequence.  What the
    framework calls (the bus callbacks, the drivers' probe and remove, the
    heap) is the interface [DriverEnv].  An access to a device that has been
    freed is a [Fault]. *)

From S2P Require Import Prelude StateM.

Local Open Scope Z_scope.

(** klibc.h: EPROBE_DEFER is defined as -517 *)
Definition EPROBE_DEFER : Z := -517.
Definition MAX_RETRY : Z := 10.
Definition SIZEOF_NODE : Z := 40.

(** drivers.h: struct device, the members the framework uses *)
Record device := Device {
  dev_bus : Z;
  dev_driver : Z;
  dev_parent : Z;
  dev_children : list Z;
  dev_refcnt : Z
}.

(** drivers.h: struct driver *)
Record driver := Driver { drv_bus : Z; drv_remove : bool }.

(** drivers.h: struct bus *)
Record bus := Bus { bus_devices : list Z; bus_drivers : list Z; bus_free_device : bool }.

(** drivers.c: struct probe_process_node *)
Record probe_node := ProbeNode { pn_dev : Z; pn_drv : Z; retry_count : Z }.

(** The static data of drivers.c and the objects; [env] is the rest of the
    kernel. *)
Record fw {E : Type} := Fw {
  devs : gmap Z device;
  drvs : gmap Z driver;
  buses : gmap Z bus;
  nodes : gmap Z probe_node;
  curr : list Z;
  wait : list Z;
  curr_locked : bool;
  unmatched : list Z;
  bus_list : list Z;
  env : E
}.
Arguments fw : clear implicits.

Class DriverEnv (E : Type) := {
  dv_alloc : Z -> E -> Z * E;                          (* kheap_alloc; 0 is NULL *)
  dv_free : Z -> E -> E;                               (* kheap_free *)
  dv_match : Z -> Z -> Z -> bool;                      (* bus->match(dev, drv) *)
  dv_free_device : Z -> Z -> E -> E;                   (* bus->free_device(dev) *)
  dv_probe : Z -> Z -> fw E -> outcome (Z * fw E);     (* drv->probe(dev) *)
  dv_remove : Z -> Z -> fw E -> outcome (unit * fw E)  (* drv->remove(dev) *)
}.

Section framework.
Context {E : Type} `{DriverEnv E}.
Implicit Types s : fw E.

Definition with_devs s x := Fw _ x (drvs s) (buses s) (nodes s) (curr s) (wait s) (curr_locked s) (unmatched s) (bus_list s) (env s).
Definition with_buses s x := Fw _ (devs s) (drvs s) x (nodes s) (curr s) (wait s) (curr_locked s) (unmatched s) (bus_list s) (env s).
Definition with_nodes s x := Fw _ (devs s) (drvs s) (buses s) x (curr s) (wait s) (curr_locked s) (unmatched s) (bus_list s) (env s).
Definition with_curr s x := Fw _ (devs s) (drvs s) (buses s) (nodes s) x (wait s) (curr_locked s) (unmatched s) (bus_list s) (env s).
Definition with_wait s x := Fw _ (devs s) (drvs s) (buses s) (nodes s) (curr s) x (curr_locked s) (unmatched s) (bus_list s) (env s).
Definition with_lock s x := Fw _ (devs s) (drvs s) (buses s) (nodes s) (curr s) (wait s) x (unmatched s) (bus_list s) (env s).
Definition with_unmatched s x := Fw _ (devs s) (drvs s) (buses s) (nodes s) (curr s) (wait s) (curr_locked s) x (bus_list s) (env s).
Definition with_bus_list s x := Fw _ (devs s) (drvs s) (buses s) (nodes s) (curr s) (wait s) (curr_locked s) (unmatched s) x (env s).
Definition with_env s (x : E) := Fw _ (devs s) (drvs s) (buses s) (nodes s) (curr s) (wait s) (curr_locked s) (unmatched s) (bus_list s) x.

Abbreviation dm := (ST (fw E)).

Definition dev_at (d : Z) : dm device := st_deref (fun s => devs s !! d).
Definition drv_at (d : Z) : dm driver := st_deref (fun s => drvs s !! d).
Definition bus_at (b : Z) : dm bus := st_deref (fun s => buses s !! b).
Definition node_at (n : Z) : dm probe_node := st_deref (fun s => nodes s !! n).
Definition put_dev (d : Z) (x : device) : dm unit := st_modify (fun s => with_devs s (<[d := x]> (devs s))).
Definition put_bus (b : Z) (x : bus) : dm unit := st_modify (fun s => with_buses s (<[b := x]> (buses s))).
Definition put_node (n : Z) (x : probe_node) : dm unit := st_modify (fun s => with_nodes s (<[n := x]> (nodes s))).

(** The heap. *)
Definition alloc (size : Z) : dm Z := fun s => let '(a, e) := dv_alloc size (env s) in Ok (a, with_env s e).
Definition free (a : Z) : dm unit := st_modify (fun s => with_env s (dv_free a (env s))).

(** Taking an element off a list. *)
Definition off (a : Z) (l : list Z) : list Z := filter (fun x => x <> a) l.

Definition set_refcnt (d : device) (n : Z) : device := Device (dev_bus d) (dev_driver d) (dev_parent d) (dev_children d) n.
Definition set_children (d : device) (l : list Z) : device := Device (dev_bus d) (dev_driver d) (dev_parent d) l (dev_refcnt d).
Definition set_driver (d : device) (x : Z) : device := Device (dev_bus d) x (dev_parent d) (dev_children d) (dev_refcnt d).

(** list_add_tail and list_del_init of a device on the list of its bus, and
    on the list of its parent. *)
Definition bus_add_device (b dev : Z) : dm unit :=
  x ← bus_at b; put_bus b (Bus (bus_devices x ++ [dev]) (bus_drivers x) (bus_free_device x)).
Definition bus_del_device (b dev : Z) : dm unit :=
  x ← bus_at b; put_bus b (Bus (off dev (bus_devices x)) (bus_drivers x) (bus_free_device x)).
Definition add_child (p dev : Z) : dm unit :=
  x ← dev_at p; put_dev p (set_children x (dev_children x ++ [dev])).
Definition del_child (p dev : Z) : dm unit :=
  x ← dev_at p; put_dev p (set_children x (off dev (dev_children x))).

(** drivers.c: device_release *)
Definition device_release (dev : Z) : dm unit :=
  _ ← st_modify (fun s => with_unmatched s (off dev (unmatched s)));
  d ← dev_at dev;
  _ ← (if negb (dev_bus d =? 0) then
         b ← bus_at (dev_bus d);
         if bus_free_device b then st_modify (fun s => with_env s (dv_free_device (dev_bus d) dev (env s)))
         else mret tt
       else mret tt);
  _ ← free dev;
  st_modify (fun s => with_devs s (delete dev (devs s))).

(** drivers.c: device_ref_get *)
Definition device_ref_get (dev : Z) : dm unit :=
  d ← dev_at dev; put_dev dev (set_refcnt d (s32 (dev_refcnt d + 1))).

(** drivers.c: device_ref_put *)
Definition device_ref_put (dev : Z) : dm unit :=
  d ← dev_at dev;
  _ ← put_dev dev (set_refcnt d (s32 (dev_refcnt d - 1)));
  if dev_refcnt d =? 1 then device_release dev else mret tt.

(** drivers.c: drivers_probe_process, one node of the current queue *)
Definition probe_one (_ : unit) : dm (unit + unit) :=
  c ← st_gets curr;
  match c with
  | [] => mret (inr tt)
  | n :: rest =>
      _ ← st_modify (fun s => with_curr s rest);
      nd ← node_at n;
      ret ← dv_probe (pn_drv nd) (pn_dev nd);
      nd' ← node_at n;
      if (ret =? - EPROBE_DEFER) && (retry_count nd' <? MAX_RETRY) then
        _ ← put_node n (ProbeNode (pn_dev nd') (pn_drv nd') (u16 (retry_count nd' + 1)));
        _ ← st_modify (fun s => with_wait s (wait s ++ [n]));
        mret (inl tt)
      else
        _ ← device_ref_put (pn_dev nd);
        _ ← free n;
        _ ← st_modify (fun s => with_nodes s (delete n (nodes s)));
        mret (inl tt)
  end.

(** drivers.c: drivers_probe_process, one turn of the outer loop *)
Definition probe_round (fuel : nat) (_ : unit) : dm (unit + unit) :=
  _ ← st_modify (fun s => with_wait (with_curr s (curr s ++ wait s)) []);
  _ ← st_loop fuel probe_one tt;
  w ← st_gets wait;
  mret (match w with [] => inr tt | _ => inl tt end).

(** drivers.c: drivers_probe_process *)
Definition drivers_probe_process (fuel : nat) : dm unit :=
  locked ← st_gets curr_locked;
  if locked : bool then mret tt
  else
    _ ← st_modify (fun s => with_lock s true);
    _ ← st_loop fuel (probe_round fuel) tt;
    st_modify (fun s => with_lock s false).

(** drivers.c: drivers_data_init, the lists; the numbers are in Devt.v *)
Definition drivers_lists_init : dm unit :=
  _ ← st_modify (fun s => with_bus_list s []);
  _ ← st_modify (fun s => with_unmatched s []);
  _ ← st_modify (fun s => with_curr s []);
  _ ← st_modify (fun s => with_wait s []);
  st_modify (fun s => with_lock s false).

(** drivers.c: drivers_init; [initcall] runs the registered drivers *)
Definition drivers_init (fuel : nat) (initcall : dm unit) : dm bool :=
  _ ← initcall;
  _ ← drivers_probe_process fuel;
  mret true.

(** drivers.c: drivers_add_bus *)
Definition drivers_add_bus (b : Z) : dm bool :=
  if b =? 0 then mret false
  else
    _ ← st_modify (fun s => with_bus_list s (bus_list s ++ [b]));
    mret true.

(** drivers.c: drivers_remove_bus *)
Definition drivers_remove_bus (b : Z) : dm unit :=
  if b =? 0 then mret tt else st_modify (fun s => with_bus_list s (off b (bus_list s))).

(** Queueing a probe, common to drivers_add_device and drivers_add_driver. *)
Definition queue_probe (n dev drv : Z) : dm unit :=
  _ ← put_node n (ProbeNode dev drv 0);
  _ ← device_ref_get dev;
  st_modify (fun s => with_wait s (wait s ++ [n])).

(** drivers.c: drivers_add_device *)
Definition drivers_add_device (dev : Z) : dm bool :=
  if dev =? 0 then mret false
  else
    d ← dev_at dev;
    if dev_bus d =? 0 then mret false
    else
      _ ← (if negb (dev_parent d =? 0) then add_child (dev_parent d) dev else mret tt);
      _ ← bus_add_device (dev_bus d) dev;
      b ← bus_at (dev_bus d);
      match filter (fun drv => dv_match (dev_bus d) dev drv = true) (bus_drivers b) with
      | drv :: _ =>
          n ← alloc SIZEOF_NODE;
          if n =? 0 then
            _ ← bus_del_device (dev_bus d) dev;
            _ ← (if negb (dev_parent d =? 0) then del_child (dev_parent d) dev else mret tt);
            mret false
          else
            _ ← queue_probe n dev drv;
            mret true
      | [] =>
          _ ← st_modify (fun s => with_unmatched s (unmatched s ++ [dev]));
          mret true
      end.

(** drivers.c: drivers_remove_device, the walk to the first leaf *)
Definition descend (dev : Z) : dm (Z + Z) :=
  d ← dev_at dev;
  mret (match dev_children d with c :: _ => inl c | [] => inr dev end).

(** drivers.c: drivers_remove_device, one turn: a leaf is taken off its lists,
    unbound and released *)
Definition remove_turn (fuel : nat) (dev : Z) : dm (Z + unit) :=
  cur ← st_loop fuel descend dev;
  d ← dev_at cur;
  let parent := dev_parent d in
  _ ← (if negb (parent =? 0) then del_child parent cur else mret tt);
  _ ← (if negb (dev_driver d =? 0) then
         drv ← drv_at (dev_driver d);
         _ ← (if drv_remove drv then dv_remove (dev_driver d) cur else mret tt);
         d ← dev_at cur;
         put_dev cur (set_driver d 0)
       else mret tt);
  d ← dev_at cur;
  _ ← (if negb (dev_bus d =? 0) then bus_del_device (dev_bus d) cur else mret tt);
  _ ← device_ref_put cur;
  if parent =? 0 then mret (inr tt)
  else
    p ← dev_at parent;
    mret (inl (match dev_children p with c :: _ => c | [] => parent end)).

(** drivers.c: drivers_remove_device *)
Definition drivers_remove_device (fuel : nat) (dev : Z) : dm bool :=
  if dev =? 0 then mret false
  else
    d ← dev_at dev;
    _ ← (if negb (dev_parent d =? 0) then del_child (dev_parent d) dev else mret tt);
    _ ← (if negb (dev_bus d =? 0) then bus_del_device (dev_bus d) dev else mret tt);
    _ ← st_loop fuel (remove_turn fuel) dev;
    mret true.

(** The node after [a] on a list, 0 at its end. *)
Fixpoint next_on (a : Z) (l : list Z) : Z :=
  match l with
  | [] => 0
  | x :: l => if x =? a then hd 0 l else next_on a l
  end.

(** drivers.c: drivers_add_driver, one turn of list_for_each_entry_safe *)
Definition add_driver_turn (b drv : Z) (pos : Z * Z) : dm (Z * Z + unit) :=
  let '(dev, tmp) := pos in
  if dev =? 0 then mret (inr tt)
  else
    _ ← (if dv_match b dev drv then
           _ ← st_modify (fun s => with_unmatched s (off dev (unmatched s)));
           n ← alloc SIZEOF_NODE;
           if n =? 0 then st_modify (fun s => with_unmatched s (unmatched s ++ [dev]))
           else queue_probe n dev drv
         else mret tt);
    l ← st_gets unmatched;
    mret (inl (tmp, next_on tmp l)).

(** drivers.c: drivers_add_driver *)
Definition drivers_add_driver (fuel : nat) (drv : Z) : dm bool :=
  if drv =? 0 then mret false
  else
    d ← drv_at drv;
    if drv_bus d =? 0 then mret false
    else
      b ← bus_at (drv_bus d);
      _ ← put_bus (drv_bus d) (Bus (bus_devices b) (bus_drivers b ++ [drv]) (bus_free_device b));
      l ← st_gets unmatched;
      _ ← st_loop fuel (add_driver_turn (drv_bus d) drv) (hd 0 l, next_on (hd 0 l) l);
      mret true.

(** drivers.c: drivers_remove_driver, the search for a bound device *)
Fixpoint bound_device (drv : Z) (l : list Z) : dm bool :=
  match l with
  | [] => mret false
  | dev :: l => d ← dev_at dev; if dev_driver d =? drv then mret true else bound_device drv l
  end.

(** drivers.c: drivers_remove_driver *)
Definition drivers_remove_driver (drv : Z) : dm bool :=
  if drv =? 0 then mret false
  else
    d ← drv_at drv;
    b ← bus_at (drv_bus d);
    found ← bound_device drv (bus_devices b);
    if found : bool then mret false
    else
      b ← bus_at (drv_bus d);
      _ ← put_bus (drv_bus d) (Bus (bus_devices b) (off drv (bus_drivers b)) (bus_free_device b));
      mret true.

End framework.
