(* ===== verification/DriversSpec.v ===== *)
(** * The driver framework: theorems

    [fw_ok L held s]: the probe queue and the reference counts of [s] agree.
    Every node of the queue is an object and every node object is queued or in
    [held] (taken off the queue by the running probe); the device of a node
    exists, and the count of a device covers its nodes, with one more
    reference for the devices of [L]. *)

From S2P Require Import Prelude StateM Drivers.

Local Open Scope Z_scope.

(** How many pending probes hold a device. *)
Definition refs (ns : gmap Z probe_node) (d : Z) : Z := Z.of_nat (size (filter (fun p => pn_dev p.2 = d) ns)).

Definition one_if (P : Prop) `{Decision P} : Z := if decide P then 1 else 0.

Lemma refs_insert ns n nd d : ns !! n = None -> refs (<[n := nd]> ns) d = refs ns d + one_if (pn_dev nd = d).
Proof.
  intros Hn. unfold refs, one_if. case_decide as Hd.
  - rewrite map_filter_insert_True by done. rewrite map_size_insert_None; [lia|]. by apply map_lookup_filter_None_2; left.
  - rewrite map_filter_insert_False by done. rewrite delete_id by done. lia.
Qed.

Lemma refs_delete ns n nd d : ns !! n = Some nd -> refs ns d = refs (delete n ns) d + one_if (pn_dev nd = d).
Proof. intros Hn. rewrite <- (insert_delete_id ns n nd Hn) at 1. apply refs_insert, lookup_delete_eq. Qed.

Lemma refs_update ns n nd nd' d : ns !! n = Some nd -> pn_dev nd' = pn_dev nd -> refs (<[n := nd']> ns) d = refs ns d.
Proof.
  intros Hn Hd. rewrite (refs_delete _ _ _ _ Hn), <- (insert_delete_eq ns n nd'), refs_insert by apply lookup_delete_eq.
  by rewrite Hd.
Qed.

Lemma refs_nonneg ns d : 0 <= refs ns d.
Proof. unfold refs. lia. Qed.

Lemma refs_zero ns d n nd : refs ns d <= 0 -> ns !! n = Some nd -> pn_dev nd <> d.
Proof.
  intros Hr Hn <-. pose proof (refs_delete ns n nd (pn_dev nd) Hn) as E. pose proof (refs_nonneg (delete n ns) (pn_dev nd)).
  unfold one_if in E. rewrite decide_True in E by done. lia.
Qed.

Section spec.
Context {E : Type} `{DriverEnv E}.
Implicit Types s : fw E.

Record fw_ok (L : gset Z) (held : list Z) s : Prop := {
  fo_nodup : NoDup (held ++ curr s ++ wait s);
  fo_nodes : dom (nodes s) = list_to_set (held ++ curr s ++ wait s);
  fo_node n nd : nodes s !! n = Some nd -> is_Some (devs s !! pn_dev nd) /\ 0 <= retry_count nd <= MAX_RETRY;
  fo_dev d dv : devs s !! d = Some dv ->
    refs (nodes s) d + one_if (d ∈ L) <= dev_refcnt dv < 2 ^ 31 /\ (dev_bus dv <> 0 -> is_Some (buses s !! dev_bus dv));
  fo_live d : d ∈ L -> is_Some (devs s !! d)
}.

Lemma dev_at_Ok s a d : devs s !! a = Some d -> dev_at a s = Ok (d, s).
Proof. intros Ea. unfold dev_at, st_deref. by rewrite Ea. Qed.
Lemma drv_at_Ok s a d : drvs s !! a = Some d -> drv_at a s = Ok (d, s).
Proof. intros Ea. unfold drv_at, st_deref. by rewrite Ea. Qed.
Lemma bus_at_Ok s a d : buses s !! a = Some d -> bus_at a s = Ok (d, s).
Proof. intros Ea. unfold bus_at, st_deref. by rewrite Ea. Qed.
Lemma node_at_Ok s a d : nodes s !! a = Some d -> node_at a s = Ok (d, s).
Proof. intros Ea. unfold node_at, st_deref. by rewrite Ea. Qed.

(** Changes of the parts that [fw_ok] does not read. *)
Lemma fw_ok_env L held s e : fw_ok L held s -> fw_ok L held (with_env s e).
Proof. intros []. by constructor. Qed.
Lemma fw_ok_unmatched L held s l : fw_ok L held s -> fw_ok L held (with_unmatched s l).
Proof. intros []. by constructor. Qed.
Lemma fw_ok_lock L held s b : fw_ok L held s -> fw_ok L held (with_lock s b).
Proof. intros []. by constructor. Qed.

(** ** Dropping a reference *)

(** What the release of a device does to the rest of the kernel. *)
Definition freed_env s dev (d : device) (e : E) : Prop :=
  e = dv_free dev (env s) \/ e = dv_free dev (dv_free_device (dev_bus d) dev (env s)).

Lemma device_release_spec dev s d : devs s !! dev = Some d -> (dev_bus d <> 0 -> is_Some (buses s !! dev_bus d)) ->
  exists e, freed_env s dev d e /\ device_release dev s =
    Ok (tt, with_devs (with_env (with_unmatched s (off dev (unmatched s))) e) (delete dev (devs s))).
Proof.
  intros Ed Hb. unfold device_release. rewrite st_modify_step. unfold dev_at.
  rewrite (st_deref_step _ _ _ d) by done.
  destruct (Z.eqb_spec (dev_bus d) 0) as [Ez|Hz]; cbn [negb].
  - rewrite st_ret_step. unfold free. rewrite st_modify_step. eexists. split; [by left|reflexivity].
  - destruct (Hb Hz) as [b Eb].
    match goal with |- exists e, _ /\ (?m ≫= _) ?s1 = _ => set (s1' := s1);
      assert (exists e1, (e1 = env s \/ e1 = dv_free_device (dev_bus d) dev (env s)) /\ m s1' = Ok (tt, with_env s1' e1)) as (e1 & He1 & Em) end.
    { unfold bus_at. rewrite (st_deref_step _ _ _ b) by done. destruct (bus_free_device b); [by eexists; split; [right|]|].
      exists (env s1'). split; [by left|]. by destruct s. }
    rewrite (st_step _ _ _ _ _ Em). unfold free. rewrite st_modify_step. eexists. split; [|reflexivity].
    destruct He1 as [-> | ->]; [by left|by right].
Qed.

Definition dropped s dev d e : fw E :=
  if dev_refcnt d =? 1 then with_devs (with_env (with_unmatched s (off dev (unmatched s))) e) (delete dev (devs s))
  else with_devs s (<[dev := set_refcnt d (dev_refcnt d - 1)]> (devs s)).

Lemma device_ref_put_spec dev s d : devs s !! dev = Some d -> 1 <= dev_refcnt d < 2 ^ 31 ->
  (dev_bus d <> 0 -> is_Some (buses s !! dev_bus d)) ->
  exists e, freed_env s dev d e /\ device_ref_put dev s = Ok (tt, dropped s dev d e).
Proof.
  intros Ed Hr Hb. unfold device_ref_put, dev_at. rewrite (st_deref_step _ _ _ d) by done. unfold put_dev. rewrite st_modify_step.
  unfold dropped. rewrite (to_signed_small 32) by lia. destruct (Z.eqb_spec (dev_refcnt d) 1) as [E1|E1]; [|eexists; split; [by left|done]].
  set (s1 := with_devs s _).
  destruct (device_release_spec dev s1 (set_refcnt d (dev_refcnt d - 1))) as (e & He & Ee); [apply lookup_insert_eq|done|].
  exists e. split; [exact He|]. rewrite Ee. cbn. by rewrite delete_insert_eq.
Qed.

(** A finished probe drops the reference of its node, and the node goes. *)
Lemma finish_ok L n nd held s d e : fw_ok L (n :: held) s -> nodes s !! n = Some nd -> devs s !! pn_dev nd = Some d ->
  fw_ok L held (with_nodes (with_env (dropped s (pn_dev nd) d e) (dv_free n (env (dropped s (pn_dev nd) d e))))
    (delete n (nodes s))).
Proof.
  intros [Hnd Hnodes Hnode Hdev Hlive] En Ed. cbn in Hnd. apply NoDup_cons in Hnd as [Hn Hnd].
  assert (forall x, refs (nodes s) x = refs (delete n (nodes s)) x + one_if (pn_dev nd = x)) as Hr
    by (intros x; by apply refs_delete).
  destruct (Hdev _ _ Ed) as [Hd1 Hd2]. pose proof (Hr (pn_dev nd)) as Hrd. unfold one_if in Hrd at 1. rewrite decide_True in Hrd by done.
  pose proof (refs_nonneg (delete n (nodes s)) (pn_dev nd)) as Hge.
  assert (curr (dropped s (pn_dev nd) d e) = curr s /\ wait (dropped s (pn_dev nd) d e) = wait s /\
    buses (dropped s (pn_dev nd) d e) = buses s) as (Ec & Ew & Eb) by (unfold dropped; by case_match).
  constructor; cbn; rewrite ?Ec, ?Ew, ?Eb.
  - done.
  - rewrite dom_delete_L, Hnodes. cbn. rewrite not_elem_of_app in Hn. set_solver.
  - intros m md [Hne Em]%lookup_delete_Some. destruct (Hnode m md Em) as [Hm1 Hm2]. split; [|done].
    unfold dropped. case_match; zbool; cbn; [|by apply lookup_insert_is_Some'; right].
    rewrite lookup_delete_ne; [done|]. intros Heq.
    assert (refs (delete n (nodes s)) (pn_dev nd) <= 0) as Hz by (unfold one_if in Hd1; case_decide; lia).
    apply (refs_zero _ _ m md Hz); [by apply lookup_delete_Some|done].
  - intros x dv Ex. unfold dropped in Ex. case_match; zbool; cbn in Ex.
    + apply lookup_delete_Some in Ex as [Hne Ex]. specialize (Hdev x dv Ex). specialize (Hr x).
      unfold one_if at 1 in Hr. rewrite decide_False in Hr by congruence. rewrite Hr in Hdev. by rewrite Z.add_0_r in Hdev.
    + apply lookup_insert_Some in Ex as [[<- <-]|[Hne Ex]]; cbn.
      * split; [|done]. lia.
      * specialize (Hdev x dv Ex). specialize (Hr x). unfold one_if at 1 in Hr. rewrite decide_False in Hr by congruence.
        rewrite Hr in Hdev. by rewrite Z.add_0_r in Hdev.
  - intros x Hx. unfold dropped. case_match; zbool; cbn; [|apply lookup_insert_is_Some'; right; by apply Hlive].
    rewrite lookup_delete_ne; [by apply Hlive|]. intros <-. unfold one_if in Hd1. rewrite decide_True in Hd1 by done. lia.
Qed.

(** ** The probe queue *)

Definition total (f : Z -> Z) (l : list Z) : Z := foldr (fun n a => f n + a) 0 l.

Lemma total_app f l1 l2 : total f (l1 ++ l2) = total f l1 + total f l2.
Proof. induction l1 as [|n l1 IH]; cbn; [done|]. unfold total in *. lia. Qed.

Lemma total_one f n : total f [n] = f n.
Proof. cbn. lia. Qed.

Lemma total_ext f g l : (forall n, n ∈ l -> f n = g n) -> total f l = total g l.
Proof.
  induction l as [|n l IH]; intros Hfg; [done|]. cbn. rewrite (Hfg n) by by left. f_equal. apply IH. intros m Hm. apply Hfg. by right.
Qed.

Lemma total_nonneg f l : (forall n, n ∈ l -> 0 <= f n) -> 0 <= total f l.
Proof.
  induction l as [|n l IH]; intros Hf; cbn; [done|]. specialize (Hf n) as Hn. apply Z.add_nonneg_nonneg; [apply Hn; by left|].
  apply IH. intros m Hm. apply Hf. by right.
Qed.

(** The probes a node may still be given. *)
Definition tries (ns : gmap Z probe_node) (n : Z) : Z :=
  match ns !! n with Some nd => MAX_RETRY + 1 - retry_count nd | None => 0 end.

Lemma tries_nonneg L held s n : fw_ok L held s -> 0 <= tries (nodes s) n.
Proof. intros Hok. unfold tries. destruct (nodes s !! n) as [nd|] eqn:En; [|done]. destruct (fo_node _ _ _ Hok n nd En). lia. Qed.

(** What is asked of the drivers: a probe keeps the queue and the counts in
    order, adds nodes for new devices at the end, and in all adds no more of
    them than its budget (the hardware there is). *)
Class ProbeLaws := {
  budget : E -> Z;
  budget_nonneg e : 0 <= budget e;
  budget_free a e : budget (dv_free a e) <= budget e;
  budget_free_device b d e : budget (dv_free_device b d e) <= budget e;
  probe_law L held drv dev s : fw_ok L held s ->
    exists r s' new, dv_probe drv dev s = Ok (r, s') /\ fw_ok L held s' /\ curr s' = curr s /\ wait s' = wait s ++ new /\
      (forall n, n ∈ held ++ curr s ++ wait s -> nodes s' !! n = nodes s !! n) /\
      (forall n nd, n ∈ new -> nodes s' !! n = Some nd -> retry_count nd = 0) /\
      budget (env s') + Z.of_nat (length new) <= budget (env s) /\ curr_locked s' = curr_locked s
}.

Context `{!ProbeLaws}.

Definition work s : Z := total (tries (nodes s)) (curr s ++ wait s) + (MAX_RETRY + 1) * budget (env s).

Lemma work_nonneg L held s : fw_ok L held s -> 0 <= work s.
Proof.
  intros Hok. unfold work, MAX_RETRY. pose proof (budget_nonneg (env s)).
  pose proof (total_nonneg (tries (nodes s)) (curr s ++ wait s) (fun n _ => tries_nonneg _ _ _ n Hok)). lia.
Qed.

Lemma fw_ok_take L n rest s : fw_ok L [] s -> curr s = n :: rest -> fw_ok L [n] (with_curr s rest).
Proof. intros [Hnd Hdom Hn Hd Hl] Ec. rewrite Ec in *. by constructor. Qed.

(** A probe that is deferred goes to the end of the waiting list. *)
Lemma defer_ok L n nd s : fw_ok L [n] s -> nodes s !! n = Some nd -> retry_count nd < MAX_RETRY ->
  fw_ok L [] (with_wait (with_nodes s (<[n := ProbeNode (pn_dev nd) (pn_drv nd) (retry_count nd + 1)]> (nodes s))) (wait s ++ [n])).
Proof.
  intros [Hnd Hdom Hn Hd Hl] En Hr. constructor; cbn.
  - rewrite app_assoc, (Permutation_app_comm (curr s ++ wait s) [n]). exact Hnd.
  - rewrite dom_insert_L, Hdom. cbn. rewrite !list_to_set_app_L. cbn. set_solver.
  - intros m md [[<- <-]|[_ Em]]%lookup_insert_Some; [|exact (Hn m md Em)]. destruct (Hn n nd En). cbn. split; [done|lia].
  - intros x dv Ex. rewrite (refs_update (nodes s) n nd) by done. by apply Hd.
  - done.
Qed.

(** ** What serving the queue means

    A call of a probe is logged with its node, as the node was, and with the
    answer.  A step takes the waiting nodes over once the current ones are
    done, or calls the probe of the driver of the first node with the device
    of that node: an answer of 517 puts the node at the end of the waiting
    list, with its count one higher, as long as the count is below 10; any
    other outcome drops the reference of the node and frees it. *)
Definition call : Type := Z * probe_node * Z.

Inductive qstep : fw E -> list call -> fw E -> Prop :=
| q_take s : curr s = [] -> qstep s [] (with_wait (with_curr s (wait s)) [])
| q_defer s n rest nd s2 : curr s = n :: rest -> nodes s !! n = Some nd ->
    dv_probe (pn_drv nd) (pn_dev nd) (with_curr s rest) = Ok (517, s2) -> retry_count nd < 10 ->
    qstep s [(n, nd, 517)]
      (with_wait (with_nodes s2 (<[n := ProbeNode (pn_dev nd) (pn_drv nd) (retry_count nd + 1)]> (nodes s2))) (wait s2 ++ [n]))
| q_finish s n rest nd r s2 d e : curr s = n :: rest -> nodes s !! n = Some nd ->
    dv_probe (pn_drv nd) (pn_dev nd) (with_curr s rest) = Ok (r, s2) -> (r = 517 -> 10 <= retry_count nd) ->
    devs s2 !! pn_dev nd = Some d -> freed_env s2 (pn_dev nd) d e ->
    qstep s [(n, nd, r)]
      (with_nodes (with_env (dropped s2 (pn_dev nd) d e) (dv_free n (env (dropped s2 (pn_dev nd) d e)))) (delete n (nodes s2))).

Inductive qsteps : fw E -> list call -> fw E -> Prop :=
| qs_refl s : qsteps s [] s
| qs_step s l s1 log s' : qstep s l s1 -> qsteps s1 log s' -> qsteps s (l ++ log) s'.

Lemma qsteps_snoc s log s1 l s' : qsteps s log s1 -> qstep s1 l s' -> qsteps s (log ++ l) s'.
Proof.
  induction 1 as [|s l0 s1 log s2 Hs Hq IH]; intros Hl.
  - rewrite <- (app_nil_r l). cbn. by eapply qs_step; [|constructor].
  - rewrite <- app_assoc. eapply qs_step; [done|by apply IH].
Qed.

Lemma qsteps_trans s log s1 log' s' : qsteps s log s1 -> qsteps s1 log' s' -> qsteps s (log ++ log') s'.
Proof.
  induction 1 as [|s l0 s1 log s2 Hs Hq IH]; intros Hl; [done|].
  rewrite <- app_assoc. eapply qs_step; [done|by apply IH].
Qed.

(** The calls made for a node, from the state [nd] on: answers of 517 with the
    count going up, then the last answer.  What follows for the same address
    is for a node that was made after this one was freed. *)
Inductive life (n : Z) : probe_node -> list call -> Prop :=
| life_other nd m md r log : m <> n -> life n nd log -> life n nd ((m, md, r) :: log)
| life_defer nd log : retry_count nd < 10 -> life n (ProbeNode (pn_dev nd) (pn_drv nd) (retry_count nd + 1)) log ->
    life n nd ((n, nd, 517) :: log)
| life_end nd r log : (r = 517 -> 10 <= retry_count nd) -> life n nd ((n, nd, r) :: log).

(** The driver, the device and the answer of the calls for the node [n]. *)
Definition calls_of (n : Z) (log : list call) : list (Z * Z * Z) :=
  map (fun '(_, nd, r) => (pn_drv nd, pn_dev nd, r)) (filter (fun c : call => c.1.1 = n) log).

(** The calls for a node: its driver with its device, deferred until another
    answer, or until the eleventh call. *)
Definition tried (n : Z) (nd : probe_node) (log : list call) : Prop :=
  exists (k : nat) r later,
    calls_of n log = repeat (pn_drv nd, pn_dev nd, 517) k ++ (pn_drv nd, pn_dev nd, r) :: later /\
    retry_count nd + Z.of_nat k <= 10 /\ (r = 517 -> retry_count nd + Z.of_nat k = 10).

Lemma life_tried n nd log : retry_count nd <= 10 -> life n nd log -> tried n nd log.
Proof.
  intros Hr. induction 1 as [nd m md r log Hm _ IH|nd log Hlt _ IH|nd r log Hend]; unfold tried, calls_of in *.
  - rewrite filter_cons_False by done. by apply IH.
  - rewrite filter_cons_True by done. destruct IH as (k & r & later & Ek & H1 & H2); [cbn; lia|]. cbn in *.
    exists (S k), r, later. rewrite Ek. split; [done|]. split; [lia|]. intros Hr'. specialize (H2 Hr'). lia.
  - rewrite filter_cons_True by done. exists O, r, (calls_of n log). split; [done|]. split; [lia|].
    intros Hr'. specialize (Hend Hr'). lia.
Qed.

Lemma fw_ok_splice L s : fw_ok L [] s -> fw_ok L [] (with_wait (with_curr s (curr s ++ wait s)) []).
Proof. intros [Hnd Hdom Hn Hd Hl]. constructor; cbn in *; rewrite ?app_nil_r; done. Qed.

(** What a step leaves: the nodes that it did not probe are queued as they
    were, and the counts stay in order. *)
Lemma probed L s n rest nd r s2 : fw_ok L [] s -> curr s = n :: rest -> nodes s !! n = Some nd ->
  dv_probe (pn_drv nd) (pn_dev nd) (with_curr s rest) = Ok (r, s2) ->
  fw_ok L [n] s2 /\ nodes s2 !! n = Some nd /\ curr s2 = rest /\
  (exists new, wait s2 = wait s ++ new) /\
  forall m, m ∈ rest ++ wait s -> m <> n /\ nodes s2 !! m = nodes s !! m.
Proof.
  intros Hok Ec En Ep. pose proof (fw_ok_take L n rest s Hok Ec) as Hok1.
  destruct (probe_law L [n] (pn_drv nd) (pn_dev nd) _ Hok1) as (r' & s' & new & Ep' & Hok2 & Ec2 & Ew2 & Hold & _).
  rewrite Ep in Ep'. injection Ep' as <- <-. cbn in Ec2, Ew2, Hold.
  split_and!; [done|by rewrite Hold by by left|done|by exists new|].
  intros m Hm. split; [|by apply Hold; right]. intros ->.
  pose proof (fo_nodup _ _ _ Hok1) as Hnd. cbn in Hnd. by apply NoDup_cons in Hnd as [? _].
Qed.

Lemma qstep_ok L s l s' : qstep s l s' -> fw_ok L [] s -> fw_ok L [] s' /\
  forall n nd, n ∈ curr s ++ wait s -> nodes s !! n = Some nd -> (forall c, c ∈ l -> c.1.1 <> n) ->
    n ∈ curr s' ++ wait s' /\ nodes s' !! n = Some nd.
Proof.
  destruct 1 as [s Ec|s n rest nd s2 Ec En Ep Hr|s n rest nd r s2 d e Ec En Ep Hr Ed He]; intros Hok.
  - split; [pose proof (fw_ok_splice L s Hok) as Hs; by rewrite Ec in Hs|]. cbn. intros n nd Hn. rewrite Ec in Hn.
    cbn in Hn. by rewrite app_nil_r.
  - destruct (probed L s n rest nd 517 s2 Hok Ec En Ep) as (Hok2 & En2 & Ec2 & (new & Ew2) & Hold).
    split; [by apply defer_ok|]. intros m md Hm Em Hne. cbn. specialize (Hne _ (list_elem_of_here _ _)). cbn in Hne.
    rewrite Ec in Hm. destruct (Hold m) as [? Hm2]; [set_solver|]. rewrite Ec2, Ew2, lookup_insert_ne, Hm2 by done. set_solver.
  - destruct (probed L s n rest nd r s2 Hok Ec En Ep) as (Hok2 & En2 & Ec2 & (new & Ew2) & Hold).
    split; [by apply finish_ok|]. intros m md Hm Em Hne. cbn. specialize (Hne _ (list_elem_of_here _ _)). cbn in Hne.
    assert (curr (dropped s2 (pn_dev nd) d e) = curr s2 /\ wait (dropped s2 (pn_dev nd) d e) = wait s2) as [-> ->]
      by (unfold dropped; by case_match).
    rewrite Ec in Hm. destruct (Hold m) as [? Hm2]; [set_solver|]. rewrite Ec2, Ew2, lookup_delete_ne, Hm2 by done. set_solver.
Qed.

(** Every queued node has its calls by the time the queues are empty. *)
Lemma qsteps_life L s log s' n : qsteps s log s' -> fw_ok L [] s -> curr s' = [] -> wait s' = [] ->
  forall nd, n ∈ curr s ++ wait s -> nodes s !! n = Some nd -> life n nd log.
Proof.
  induction 1 as [s|s l s1 log s' Hs Hq IH]; intros Hok Hc Hw nd Hn En.
  { rewrite Hc, Hw in Hn. by apply elem_of_nil in Hn. }
  destruct (qstep_ok L _ _ _ Hs Hok) as [Hok1 Hkeep]. specialize (IH Hok1 Hc Hw).
  destruct Hs as [s Ec|s m rest md s2 Ec Em Ep Hr|s m rest md r s2 d e Ec Em Ep Hr Ed He]; cbn [app].
  - destruct (Hkeep n nd Hn En) as [Hn1 En1]; [by intros c ?%elem_of_nil|]. by apply IH.
  - destruct (decide (m = n)) as [->|Hne].
    + simplify_eq. apply life_defer; [done|]. apply IH; cbn; [set_solver|apply lookup_insert_eq].
    + apply life_other; [done|]. destruct (Hkeep n nd Hn En) as [Hn1 En1]; [|by apply IH]. by intros c ->%list_elem_of_singleton.
  - destruct (decide (m = n)) as [->|Hne].
    + simplify_eq. by apply life_end.
    + apply life_other; [done|]. destruct (Hkeep n nd Hn En) as [Hn1 En1]; [|by apply IH]. by intros c ->%list_elem_of_singleton.
Qed.

(** One node is probed: there is less to do. *)
Lemma probe_one_spec L s : fw_ok L [] s -> exists x s', probe_one tt s = Ok (x, s') /\
  match x with
  | inl _ => fw_ok L [] s' /\ work s' < work s /\ curr_locked s' = curr_locked s /\ exists l, qstep s l s'
  | inr _ => curr s = [] /\ s' = s
  end.
Proof.
  intros Hok. unfold probe_one. rewrite st_gets_step. destruct (curr s) as [|n rest] eqn:Ec; [by eexists _, _|].
  pose proof (fw_ok_take L n rest s Hok Ec) as Hok1. set (s1 := with_curr s rest) in *.
  assert (is_Some (nodes s !! n)) as [nd En].
  { apply elem_of_dom. rewrite (fo_nodes _ _ _ Hok), Ec. set_solver. }
  rewrite st_modify_step. fold s1. assert (nodes s1 !! n = Some nd) as En1 by done.
  rewrite (st_step _ _ _ _ _ (node_at_Ok _ _ _ En1)).
  destruct (probe_law L [n] (pn_drv nd) (pn_dev nd) s1 Hok1) as (r & s2 & new & Ep & Hok2 & Ec2 & Ew2 & Hold & Hnew & Hb & Hlock).
  change (curr s1) with rest in Ec2, Hold. change (wait s1) with (wait s) in Ew2, Hold.
  change (env s1) with (env s) in Hb. change (nodes s1) with (nodes s) in Hold.
  rewrite (st_step _ _ _ _ _ Ep).
  assert (nodes s2 !! n = Some nd) as En2 by (rewrite Hold; [done|by left]).
  rewrite (st_step _ _ _ _ _ (node_at_Ok _ _ _ En2)).
  destruct (fo_node _ _ _ Hok2 n nd En2) as [[d Ed] Hretry].
  assert (total (tries (nodes s2)) (curr s2 ++ wait s2) + tries (nodes s2) n + (MAX_RETRY + 1) * budget (env s2) <= work s) as Hw.
  { unfold work. rewrite Ec2, Ew2, Ec. cbn. rewrite app_assoc, (total_app _ (rest ++ wait s)).
    rewrite (total_ext (tries (nodes s2)) (tries (nodes s)) (rest ++ wait s)).
    2:{ intros m Hm. unfold tries. rewrite Hold by (cbn; by right). done. }
    assert (tries (nodes s2) n = tries (nodes s) n) as -> by (unfold tries; by rewrite En, En2).
    assert (total (tries (nodes s2)) new <= (MAX_RETRY + 1) * Z.of_nat (length new)) as Hn.
    { assert (forall m, m ∈ new -> tries (nodes s2) m <= MAX_RETRY + 1) as Hm.
      { intros m Hm. unfold tries. destruct (nodes s2 !! m) eqn:Em; [rewrite (Hnew m _ Hm Em); lia|unfold MAX_RETRY; lia]. }
      clear -Hm. induction new as [|m new IH]; cbn [total foldr length]; [unfold MAX_RETRY; lia|].
      assert (tries (nodes s2) m <= MAX_RETRY + 1) by (apply Hm; by left).
      assert (total (tries (nodes s2)) new <= (MAX_RETRY + 1) * Z.of_nat (length new)) by (apply IH; intros k Hk; apply Hm; by right).
      unfold total in *. lia. }
    unfold total in *. cbn in *. unfold MAX_RETRY in *. lia. }
  assert (tries (nodes s2) n = MAX_RETRY + 1 - retry_count nd) as Ht by (unfold tries; by rewrite En2).
  destruct ((r =? - EPROBE_DEFER) && (retry_count nd <? MAX_RETRY)) eqn:Edef.
  - zbool. unfold put_node. rewrite !st_modify_step. rewrite wrap_small by (unfold fits, MAX_RETRY in *; lia).
    eexists _, _. split; [reflexivity|]. split_and!; [by exact (defer_ok L n nd s2 Hok2 En2 ltac:(lia))| |done|].
    2:{ eexists. assert (r = 517) as -> by (unfold EPROBE_DEFER in *; lia).
        apply (q_defer s n rest nd s2 Ec En Ep). unfold MAX_RETRY in *. lia. }
    unfold work at 1. cbn [curr wait nodes env with_wait with_nodes]. rewrite app_assoc, total_app, total_one.
    rewrite (total_ext _ (tries (nodes s2)) (curr s2 ++ wait s2)).
    2:{ intros m Hm. unfold tries. rewrite lookup_insert_ne; [done|]. intros <-.
        pose proof (fo_nodup _ _ _ Hok2) as Hnd. cbn in Hnd. apply NoDup_cons in Hnd as [Hn _]. done. }
    unfold tries at 2. rewrite lookup_insert_eq. cbn. lia.
  - destruct (fo_dev _ _ _ Hok2 _ _ Ed) as [Hd1 Hd2]. pose proof (refs_delete _ _ _ (pn_dev nd) En2) as Hr.
    pose proof (refs_nonneg (delete n (nodes s2)) (pn_dev nd)). unfold one_if in Hr. rewrite decide_True in Hr by done.
    destruct (device_ref_put_spec (pn_dev nd) s2 d Ed) as (e & He & Eput); [unfold one_if in Hd1; case_decide; lia|done|].
    rewrite (st_step _ _ _ _ _ Eput). unfold free. rewrite !st_modify_step.
    eexists _, _. split; [reflexivity|].
    assert (forall sx, sx = dropped s2 (pn_dev nd) d e -> curr sx = curr s2 /\ wait sx = wait s2 /\ nodes sx = nodes s2 /\
      curr_locked sx = curr_locked s2 /\ budget (env sx) <= budget (env s2)) as Hsx.
    { intros sx ->. unfold dropped. case_match; split_and!; try done. cbn.
      destruct He as [-> | ->]; (etrans; [apply budget_free|]); [done|apply budget_free_device]. }
    destruct (Hsx _ eq_refl) as (Ecx & Ewx & Enx & Elx & Ebx).
    split_and!.
    + pose proof (finish_ok L n nd [] s2 d e Hok2 En2 Ed) as Hf. cbn in Hf |- *. rewrite Enx. exact Hf.
    + unfold work at 1. cbn [curr wait nodes env with_nodes with_env]. rewrite Ecx, Ewx, Enx. pose proof (budget_free n (env (dropped s2 (pn_dev nd) d e))) as Hbf.
      rewrite (total_ext _ (tries (nodes s2)) (curr s2 ++ wait s2)).
      2:{ intros m Hm. unfold tries. rewrite lookup_delete_ne; [done|]. intros <-.
          pose proof (fo_nodup _ _ _ Hok2) as Hnd. cbn in Hnd. apply NoDup_cons in Hnd as [Hn _]. done. }
      unfold MAX_RETRY in *. lia.
    + cbn. by rewrite Elx.
    + eexists. pose proof (q_finish s n rest nd r s2 d e Ec En Ep) as Hq. cbn [nodes with_env]. rewrite Enx. apply Hq; [|done|done].
      intros ->. change (517 =? - EPROBE_DEFER) with true in Edef. unfold MAX_RETRY in *. lia.
Qed.

Lemma probe_queue_spec L fuel s : fw_ok L [] s -> work s < Z.of_nat fuel ->
  exists s', st_loop fuel probe_one tt s = Ok (tt, s') /\ fw_ok L [] s' /\ curr s' = [] /\
    work s' <= work s /\ curr_locked s' = curr_locked s /\ (curr s <> [] -> work s' < work s) /\
    exists log, qsteps s log s'.
Proof.
  intros Hok Hf.
  destruct (st_loop_rule (fun _ s' => fw_ok L [] s' /\ curr_locked s' = curr_locked s /\ work s' <= work s /\
      (curr s <> [] -> s' = s \/ work s' < work s) /\ exists log, qsteps s log s')
    (fun _ s' => fw_ok L [] s' /\ curr s' = [] /\ work s' <= work s /\ curr_locked s' = curr_locked s /\
      (curr s <> [] -> s' = s \/ work s' < work s) /\ exists log, qsteps s log s') (fun _ s' => work s') probe_one)
    with (fuel := fuel) (a := tt) (s := s) as ([] & s' & E' & Hok' & Hc & Hw & Hl & Hp & Hq).
  - intros [] s1 (Hok1 & Hl1 & Hw1 & Hp1 & log & Hq1). split; [by eapply work_nonneg|].
    destruct (probe_one_spec L s1 Hok1) as (x & s2 & Ex & Hx). exists x, s2. split; [done|]. destruct x as [[]|[]].
    + destruct Hx as (Hok2 & Hw2 & Hl2 & l & Hl). split; [|done]. split_and!; [done|congruence|lia|intros _; right; lia|].
      exists (log ++ l). by eapply qsteps_snoc.
    + destruct Hx as [Hc ->]. split_and!; try done. by exists log.
  - split_and!; [done|done|lia|by left|]. exists []. constructor.
  - done.
  - exists s'. split_and!; try done. intros Hne. destruct (Hp Hne) as [->|?]; [done|done].
Qed.

Lemma probe_round_spec L fuel s : fw_ok L [] s -> curr s = [] -> work s < Z.of_nat fuel ->
  exists x s', probe_round fuel tt s = Ok (x, s') /\ fw_ok L [] s' /\ curr s' = [] /\ curr_locked s' = curr_locked s /\
    work s' <= work s /\ (wait s <> [] -> work s' < work s) /\ (exists log, qsteps s log s') /\
    match x with inl _ => wait s' <> [] | inr _ => wait s' = [] end.
Proof.
  intros Hok Hc Hf. unfold probe_round. rewrite st_modify_step.
  set (s1 := with_wait (with_curr s (curr s ++ wait s)) []).
  assert (work s1 = work s) as Ew by (unfold work; cbn; by rewrite app_nil_r).
  destruct (probe_queue_spec L fuel s1 (fw_ok_splice L s Hok)) as (s' & E' & Hok' & Hc' & Hw' & Hl' & Hp' & log & Hq); [lia|].
  rewrite (st_step _ _ _ _ _ E'), st_gets_step. eexists _, _. split; [reflexivity|].
  split_and!; [done|done|done|lia| | |by destruct (wait s')].
  - intros Hne. rewrite <- Ew. apply Hp'. subst s1. cbn. by rewrite Hc.
  - exists ([] ++ log). eapply qs_step; [by apply q_take|]. subst s1. by rewrite Hc in Hq.
Qed.

(** What is left after the queue has been served. *)
Record served (L : gset Z) s' : Prop := {
  sv_ok : fw_ok L [] s';
  sv_empty : curr s' = [] /\ wait s' = [];
  sv_nodes : nodes s' = ∅;
  sv_lock : curr_locked s' = false
}.

Lemma probe_process_spec L fuel s : fw_ok L [] s -> curr s = [] -> curr_locked s = false -> work s + 1 < Z.of_nat fuel ->
  exists s' log, drivers_probe_process fuel s = Ok (tt, s') /\ served L s' /\ qsteps (with_lock s true) log (with_lock s' true).
Proof.
  intros Hok Hc Hlock Hf. unfold drivers_probe_process. rewrite st_gets_step, Hlock, st_modify_step.
  set (s1 := with_lock s true).
  destruct (st_loop_rule (fun _ s' => fw_ok L [] s' /\ curr s' = [] /\ work s' <= work s /\
      curr_locked s' = true /\ exists log, qsteps s1 log s')
    (fun _ s' => fw_ok L [] s' /\ curr s' = [] /\ wait s' = [] /\ curr_locked s' = true /\ exists log, qsteps s1 log s')
    (fun _ s' => work s' + match wait s' with [] => 1 | _ => 0 end) (probe_round fuel)) with (fuel := fuel) (a := tt) (s := s1)
    as ([] & s' & E' & Hok' & Hc' & Hw' & Hl' & log & Hq).
  - intros [] s2 (Hok2 & Hc2 & Hw2 & Hl2 & log & Hq2). split; [pose proof (work_nonneg _ _ _ Hok2); case_match; lia|].
    destruct (probe_round_spec L fuel s2 Hok2 Hc2) as (x & s3 & Ex & Hok3 & Hc3 & Hl3 & Hw3 & Hlt & (log' & Hq3) & Hx); [lia|].
    assert (exists log, qsteps s1 log s3) as Hq by (eexists; by eapply qsteps_trans).
    exists x, s3. split; [done|]. rewrite Hl2 in Hl3. destruct x as [[]|[]]; [|done]. split_and!; [done|done|lia|done|done|].
    destruct (wait s3); [done|]. destruct (wait s2); [lia|]. specialize (Hlt ltac:(done)). lia.
  - split_and!; [by apply fw_ok_lock|done|done|done|]. exists []. constructor.
  - cbn. change (work s1) with (work s). case_match; lia.
  - rewrite (st_step _ _ _ _ _ E'). eexists _, log. split; [reflexivity|]. split; [|by destruct s'; cbn in *; subst].
    constructor; cbn; [by apply fw_ok_lock|done| |done].
    apply dom_empty_inv_L. rewrite (fo_nodes _ _ _ Hok'), Hc', Hw'. done.
Qed.

End spec.
