(* ===== verification/DriversCorrect.v ===== *)
(** * The driver framework: what it guarantees, and what it does not *)

From S2P Require Import Prelude StateM Drivers DriversSpec.

Local Open Scope Z_scope.

Section correct.
Context {E : Type} `{DriverEnv E}.
Implicit Types s : fw E.

(** ** Adding a device *)

Lemma insert_alter_Some {A} (f : A -> A) (m : gmap Z A) i x : m !! i = Some x -> <[i := f x]> m = alter f i m.
Proof. intros Ei. apply map_eq. intros j. destruct (decide (i = j)) as [<-|Hne]; simplify_map_eq; done. Qed.

Lemma off_fresh a l : a ∉ l -> off a l = l.
Proof.
  intros Ha. unfold off. induction l as [|x l IH]; [done|]. rewrite filter_cons_True; [|set_solver]. f_equal. apply IH. set_solver.
Qed.

Lemma off_snoc a l : a ∉ l -> off a (l ++ [a]) = l.
Proof.
  intros Ha. unfold off. rewrite filter_app. rewrite filter_cons_False by (intros Hn; by apply Hn).
  rewrite app_nil_r. by apply off_fresh.
Qed.

(** The device on the lists of its parent and its bus. *)
Definition link_parent (dev : Z) (d : device) (m : gmap Z device) : gmap Z device :=
  if dev_parent d =? 0 then m else alter (fun x => set_children x (dev_children x ++ [dev])) (dev_parent d) m.
Definition link_bus (dev : Z) (bb : bus) : bus := Bus (bus_devices bb ++ [dev]) (bus_drivers bb) (bus_free_device bb).
Definition linked s dev d bb : fw E :=
  with_buses (with_devs s (link_parent dev d (devs s))) (<[dev_bus d := link_bus dev bb]> (buses s)).

(** A device that may be added: it is on no list, its bus and its parent
    exist. *)
Record addable s (dev : Z) (d : device) (bb : bus) : Prop := {
  ad_dev : devs s !! dev = Some d;
  ad_nonzero : dev <> 0 /\ dev_bus d <> 0;
  ad_bus : buses s !! dev_bus d = Some bb /\ dev ∉ bus_devices bb;
  ad_parent : dev_parent d <> 0 -> dev_parent d <> dev /\
    exists p, devs s !! dev_parent d = Some p /\ dev ∉ dev_children p
}.

Lemma link_parent_dev s dev d bb : addable s dev d bb -> link_parent dev d (devs s) !! dev = Some d.
Proof.
  intros [Ed _ _ Hp]. unfold link_parent. destruct (Z.eqb_spec (dev_parent d) 0) as [|Hz]; [done|].
  destruct (Hp Hz) as [Hne _]. by rewrite lookup_alter_ne.
Qed.

Lemma add_child_spec s dev d bb : addable s dev d bb ->
  (if negb (dev_parent d =? 0) then add_child (dev_parent d) dev else mret tt) s =
  Ok (tt, with_devs s (link_parent dev d (devs s))).
Proof.
  intros [Ed _ _ Hp]. unfold link_parent. destruct (Z.eqb_spec (dev_parent d) 0) as [|Hz]; cbn [negb]; [by destruct s|].
  destruct (Hp Hz) as (Hne & p & Ep & _). unfold add_child. rewrite (st_step _ _ _ _ _ (dev_at_Ok _ _ _ Ep)).
  unfold put_dev, st_modify. by rewrite (insert_alter_Some (fun x => set_children x (dev_children x ++ [dev]))).
Qed.

Lemma del_child_spec s s1 dev d bb : addable s dev d bb -> devs s1 = link_parent dev d (devs s) ->
  (if negb (dev_parent d =? 0) then del_child (dev_parent d) dev else mret tt) s1 = Ok (tt, with_devs s1 (devs s)).
Proof.
  intros [Ed _ _ Hp] Es1. unfold link_parent in Es1. destruct (Z.eqb_spec (dev_parent d) 0) as [|Hz]; cbn [negb].
  { rewrite <- Es1. by destruct s1. }
  destruct (Hp Hz) as (Hne & p & Ep & Hc). unfold del_child.
  rewrite (st_step _ _ _ (set_children p (dev_children p ++ [dev])) s1).
  2:{ apply dev_at_Ok. rewrite Es1, lookup_alter_eq, Ep. done. }
  unfold put_dev, st_modify. cbn [dev_children set_children]. rewrite off_snoc, Es1 by done. do 3 f_equal.
  apply map_eq. intros j. destruct (decide (dev_parent d = j)) as [<-|Hj].
  - rewrite lookup_insert_eq, Ep. by destruct p.
  - by rewrite lookup_insert_ne, lookup_alter_ne.
Qed.

(** The driver that gets the device: the first of its bus that matches. *)
Definition first_match (dev : Z) (d : device) (bb : bus) : option Z :=
  head (filter (fun drv => dv_match (dev_bus d) dev drv = true) (bus_drivers bb)).

Definition queued s n dev drv : fw E :=
  with_wait (with_devs (with_nodes s (<[n := ProbeNode dev drv 0]> (nodes s)))
    (alter (fun x => set_refcnt x (s32 (dev_refcnt x + 1))) dev (devs s))) (wait s ++ [n]).

Lemma queue_probe_spec s n dev drv d : devs s !! dev = Some d -> queue_probe n dev drv s = Ok (tt, queued s n dev drv).
Proof.
  intros Ed. unfold queue_probe, put_node. rewrite st_modify_step. set (s1 := with_nodes s _).
  assert (devs s1 !! dev = Some d) as Ed1 by done.
  rewrite (st_step _ _ s1 tt (with_devs s1 (alter (fun x => set_refcnt x (s32 (dev_refcnt x + 1))) dev (devs s)))); [done|].
  unfold device_ref_get. rewrite (st_step _ _ _ _ _ (dev_at_Ok _ _ _ Ed1)). unfold put_dev, st_modify.
  by rewrite (insert_alter_Some (fun x => set_refcnt x (s32 (dev_refcnt x + 1)))).
Qed.

Lemma add_device_spec s dev d bb : addable s dev d bb ->
  drivers_add_device dev s =
    match first_match dev d bb with
    | None => Ok (true, with_unmatched (linked s dev d bb) (unmatched s ++ [dev]))
    | Some drv =>
        let '(n, e) := dv_alloc SIZEOF_NODE (env s) in
        if n =? 0 then Ok (false, with_env s e)
        else Ok (true, queued (with_env (linked s dev d bb) e) n dev drv)
    end.
Proof.
  intros Ha. pose proof Ha as [Ed [Hz Hb] [Eb Hnb] Hp]. unfold drivers_add_device.
  rewrite (proj2 (Z.eqb_neq _ _) Hz), (st_step _ _ _ _ _ (dev_at_Ok _ _ _ Ed)), (proj2 (Z.eqb_neq _ _) Hb).
  rewrite (st_step _ _ _ _ _ (add_child_spec s dev d bb Ha)).
  set (s1 := with_devs s (link_parent dev d (devs s))). assert (buses s1 !! dev_bus d = Some bb) as Eb1 by done.
  rewrite (st_step _ _ s1 tt (linked s dev d bb)).
  2:{ unfold bus_add_device. by rewrite (st_step _ _ _ _ _ (bus_at_Ok _ _ _ Eb1)). }
  assert (buses (linked s dev d bb) !! dev_bus d = Some (link_bus dev bb)) as Eb2 by apply lookup_insert_eq.
  rewrite (st_step _ _ _ _ _ (bus_at_Ok _ _ _ Eb2)). cbn [bus_drivers link_bus]. unfold first_match.
  destruct (filter _ (bus_drivers bb)) as [|drv rest]; cbn [head]; [done|].
  destruct (dv_alloc SIZEOF_NODE (env s)) as [n e] eqn:Ealloc.
  rewrite (st_step _ _ _ n (with_env (linked s dev d bb) e)) by (unfold alloc; cbn; by rewrite Ealloc).
  destruct (Z.eqb_spec n 0) as [->|Hn].
  - set (s2 := with_env (linked s dev d bb) e).
    assert (buses s2 !! dev_bus d = Some (link_bus dev bb)) as Eb3 by apply lookup_insert_eq.
    rewrite (st_step _ _ s2 tt (with_buses s2 (buses s))).
    2:{ unfold bus_del_device. rewrite (st_step _ _ _ _ _ (bus_at_Ok _ _ _ Eb3)). unfold put_bus, st_modify. do 3 f_equal.
        cbn [bus_devices bus_drivers bus_free_device link_bus]. rewrite off_snoc by done.
        change (buses s2) with (<[dev_bus d := link_bus dev bb]> (buses s)).
        rewrite insert_insert_eq. apply insert_id. rewrite Eb. by destruct bb. }
    rewrite (st_step _ _ _ _ _ (del_child_spec s (with_buses s2 (buses s)) dev d bb Ha eq_refl)). subst s2 s1. by destruct s.
  - assert (devs (with_env (linked s dev d bb) e) !! dev = Some d) as Ed2 by by eapply link_parent_dev.
    by rewrite (st_step _ _ _ _ _ (queue_probe_spec _ n dev drv d Ed2)).
Qed.

(** Linking a device and queueing its probe keep the counts in order. *)
Lemma fw_ok_linked L held s dev d bb : addable s dev d bb -> fw_ok L held s -> fw_ok L held (linked s dev d bb).
Proof.
  intros [Ed _ [Eb _] Hp] [Hnd Hdom Hn Hdv Hl].
  assert (forall x dx, link_parent dev d (devs s) !! x = Some dx ->
    exists d0, devs s !! x = Some d0 /\ dev_refcnt dx = dev_refcnt d0 /\ dev_bus dx = dev_bus d0) as Hold.
  { intros x dx. unfold link_parent. destruct (dev_parent d =? 0); [by eauto|].
    intros Ex. destruct (decide (dev_parent d = x)) as [<-|Hne].
    - rewrite lookup_alter_eq in Ex. destruct (devs s !! dev_parent d) as [d0|]; [|done]. injection Ex as <-. by eexists.
    - rewrite lookup_alter_ne in Ex by done. by eauto. }
  assert (forall x, is_Some (devs s !! x) -> is_Some (link_parent dev d (devs s) !! x)) as Hsome.
  { intros x Hx. unfold link_parent. destruct (dev_parent d =? 0); [done|]. by apply lookup_alter_is_Some. }
  constructor; cbn; [done|done|..].
  - intros n nd En. destruct (Hn n nd En). split; [by apply Hsome|done].
  - intros x dx Ex. destruct (Hold x dx Ex) as (d0 & E0 & -> & ->). destruct (Hdv x d0 E0) as [Hr Hbus]. split; [done|].
    intros Hz. apply lookup_insert_is_Some'. right. by apply Hbus.
  - intros x Hx. by apply Hsome, Hl.
Qed.

Lemma fw_ok_queued L held s n dev drv d : fw_ok L held s -> nodes s !! n = None -> devs s !! dev = Some d ->
  dev_refcnt d < 2 ^ 31 - 1 -> fw_ok L held (queued s n dev drv).
Proof.
  intros [Hnd Hdom Hn Hdv Hl] Hfresh Ed Hr. destruct (Hdv dev d Ed) as [Hd1 Hd2]. pose proof (refs_nonneg (nodes s) dev).
  assert (n ∉ held ++ curr s ++ wait s) as Hnew.
  { apply not_elem_of_dom in Hfresh. rewrite Hdom in Hfresh. set_solver. }
  assert (forall x, is_Some (devs s !! x) ->
    is_Some (alter (fun x => set_refcnt x (s32 (dev_refcnt x + 1))) dev (devs s) !! x)) as Hsome
    by (intros x Hx; by apply lookup_alter_is_Some).
  constructor; cbn.
  - rewrite !app_assoc, <- Permutation_cons_append, <- app_assoc. by apply NoDup_cons.
  - rewrite dom_insert_L, Hdom, !list_to_set_app_L. cbn. set_solver.
  - intros m md [[<- <-]|[_ Em]]%lookup_insert_Some; cbn.
    + split; [apply Hsome; by eexists|unfold MAX_RETRY; lia].
    + destruct (Hn m md Em). split; [by apply Hsome|done].
  - intros x dx Ex. rewrite refs_insert by done. cbn. unfold one_if at 1. destruct (decide (dev = x)) as [<-|Hne].
    + rewrite lookup_alter_eq, Ed in Ex. injection Ex as <-. cbn. split; [|done].
      unfold one_if in Hd1 |- *. rewrite to_signed_small by (case_decide; lia). case_decide; lia.
    + rewrite lookup_alter_ne in Ex by done. rewrite Z.add_0_r. by apply Hdv.
  - intros x Hx. by apply Hsome, Hl.
Qed.

(** C14: adding a device.  A device that is on no list yet is put on the lists
    of its parent and its bus.  The first driver of the bus that matches gets
    it: a probe is queued that holds a reference to the device; when no driver
    matches the device waits on the list of unmatched devices.  When no memory
    is left for the queue entry the answer is false and nothing has changed.
    The queue and the reference counts stay in order. *)
Theorem drivers_add_device_correct L s dev d bb : addable s dev d bb -> fw_ok L [] s -> dev_refcnt d < 2 ^ 31 - 1 ->
  (forall n e, dv_alloc SIZEOF_NODE (env s) = (n, e) -> n <> 0 -> nodes s !! n = None) ->
  exists b s', drivers_add_device dev s = Ok (b, s') /\ fw_ok L [] s' /\
    match first_match dev d bb with
    | None => b = true /\ s' = with_unmatched (linked s dev d bb) (unmatched s ++ [dev])
    | Some drv =>
        let '(n, e) := dv_alloc SIZEOF_NODE (env s) in
        if decide (n = 0) then b = false /\ s' = with_env s e
        else b = true /\ s' = queued (with_env (linked s dev d bb) e) n dev drv
    end.
Proof.
  intros Ha Hok Hr Hfresh. rewrite (add_device_spec s dev d bb Ha).
  pose proof (fw_ok_linked L [] s dev d bb Ha Hok) as Hlk.
  destruct (first_match dev d bb) as [drv|].
  - destruct (dv_alloc SIZEOF_NODE (env s)) as [n e] eqn:Ealloc. destruct (Z.eqb_spec n 0) as [->|Hn].
    + eexists _, _. split; [reflexivity|]. split; [by apply fw_ok_env|]. by rewrite decide_True.
    + eexists _, _. split; [reflexivity|]. rewrite decide_False by done. split; [|done].
      apply (fw_ok_queued L [] _ n dev drv d); [by apply fw_ok_env|by apply (Hfresh n e)|by eapply link_parent_dev|done].
  - eexists _, _. split; [reflexivity|]. split; [by apply fw_ok_unmatched|done].
Qed.

(** C13: the probe queue is served.  For drivers that add no more devices than
    there are, [drivers_probe_process] ends, having made exactly the calls of
    a run of the queue ([qsteps]: the probe of each node's own driver with the
    node's own device, an answer of 517 deferring the node, any other answer
    ending it).  Every node that was waiting is tried: its driver is called
    with its device at least once and at most eleven times, every call but
    the last answering 517, and the last one too only when it is the eleventh.
    In the end every node is freed, the queues are empty, the lock is free and
    the reference counts are in order; a device of [L], one that has a
    reference besides those of its nodes, is still there. *)
Theorem drivers_probe_process_correct `{!ProbeLaws} L s fuel : fw_ok L [] s -> curr s = [] -> curr_locked s = false ->
  work s + 1 < Z.of_nat fuel ->
  exists s' log, drivers_probe_process fuel s = Ok (tt, s') /\ qsteps (with_lock s true) log (with_lock s' true) /\
    (forall n nd, n ∈ wait s -> nodes s !! n = Some nd -> tried n nd log) /\
    served L s' /\ forall d, d ∈ L -> is_Some (devs s' !! d).
Proof.
  intros Hok Hc Hl Hf. destruct (probe_process_spec L fuel s Hok Hc Hl Hf) as (s' & log & E' & Hs & Hq).
  exists s', log. split_and!; [done|done| |done|]; [|intros d Hd; by apply (fo_live _ _ _ (sv_ok _ _ Hs))].
  intros n nd Hn En. apply life_tried; [by destruct (fo_node _ _ _ Hok n nd En) as [_ [_ ?]]|]. destruct (sv_empty _ _ Hs).
  eapply (qsteps_life L _ _ _ _ Hq); [by apply fw_ok_lock|done|done| |done]. cbn. set_solver.
Qed.

(** ** A device that nobody holds *)

(** Serving a queue of one node whose probe succeeds at once and changes
    nothing. *)
Lemma serve_one s n nd d fuel : curr s = [] -> wait s = [n] -> curr_locked s = false -> nodes s !! n = Some nd ->
  devs s !! pn_dev nd = Some d -> 1 <= dev_refcnt d < 2 ^ 31 -> (dev_bus d <> 0 -> is_Some (buses s !! dev_bus d)) ->
  (forall t, dv_probe (pn_drv nd) (pn_dev nd) t = Ok (0, t)) -> (2 <= fuel)%nat ->
  exists s' e, drivers_probe_process fuel s = Ok (tt, s') /\ buses s' = buses s /\ drvs s' = drvs s /\
    devs s' = devs (dropped s (pn_dev nd) d e).
Proof.
  intros Hc Hw Hl En Ed Hr Hb Hprobe Hf. destruct fuel as [|[|fuel]]; try lia.
  unfold drivers_probe_process. rewrite st_gets_step, Hl, st_modify_step.
  set (s1 := with_wait (with_curr (with_lock s true) [n]) []). set (s2 := with_curr s1 []).
  destruct (device_ref_put_spec (pn_dev nd) s2 d) as (e & _ & Eput); [done|done|done|].
  assert (nodes s1 !! n = Some nd /\ nodes s2 !! n = Some nd) as [En1 En2] by done.
  set (s3 := with_nodes (with_env (dropped s2 (pn_dev nd) d e) (dv_free n (env (dropped s2 (pn_dev nd) d e))))
    (delete n (nodes (dropped s2 (pn_dev nd) d e)))).
  assert (curr s3 = [] /\ wait s3 = []) as [Hc3 Hw3] by (subst s3; unfold dropped; by case_match).
  assert (probe_one tt s1 = Ok (inl tt, s3)) as E1.
  { unfold probe_one. rewrite st_gets_step. cbn [curr s1 with_wait with_curr]. rewrite st_modify_step. fold s2.
    rewrite (st_step _ _ _ _ _ (node_at_Ok _ _ _ En2)), (st_step _ _ _ _ _ (Hprobe s2)), (st_step _ _ _ _ _ (node_at_Ok _ _ _ En2)).
    change (0 =? - EPROBE_DEFER) with false. cbn [andb]. by rewrite (st_step _ _ _ _ _ Eput). }
  assert (probe_one tt s3 = Ok (inr tt, s3)) as E2 by (unfold probe_one; by rewrite st_gets_step, Hc3).
  assert (probe_round (S (S fuel)) tt (with_lock s true) = Ok (inr tt, s3)) as E3.
  { unfold probe_round. rewrite st_modify_step. cbn [curr wait with_lock]. rewrite Hc, Hw. cbn [app]. fold s1.
    rewrite (st_step _ _ s1 tt s3); [by rewrite st_gets_step, Hw3|].
    cbn [st_loop]. rewrite (st_step _ _ _ _ _ E1). cbn [st_loop]. by rewrite (st_step _ _ _ _ _ E2). }
  eexists (with_lock s3 false), e. split.
  - rewrite (st_step _ _ _ tt s3); [done|]. cbn [st_loop]. by rewrite (st_step _ _ _ _ _ E3).
  - subst s3 s2 s1. unfold dropped. by case_match.
Qed.

Lemma bound_device_freed drv l1 dev l2 s : Forall (fun x => exists d, devs s !! x = Some d /\ dev_driver d <> drv) l1 ->
  devs s !! dev = None -> bound_device drv (l1 ++ dev :: l2) s = Fault.
Proof.
  intros Hl Hd. induction Hl as [|x l1 (d & Ed & Hne) Hl IH]; cbn [bound_device app].
  - apply st_fault. unfold dev_at, st_deref. by rewrite Hd.
  - rewrite (st_step _ _ _ _ _ (dev_at_Ok _ _ _ Ed)). by rewrite (proj2 (Z.eqb_neq _ _) Hne).
Qed.

(** C38: a matched device is freed while it is in use.  The drivers of the
    kernel create their devices with a count of 0.  When such a device is
    added and a driver matches it, the probe that succeeds drops the only
    reference and the device is freed, although it stays on the list of its
    bus; the next walk over that list, such as the removal of a driver of the
    bus, reads the freed memory. *)
Theorem matched_device_dangles s dev d bb n e drv fuel : addable s dev d bb -> dev_refcnt d = 0 ->
  curr s = [] -> wait s = [] -> curr_locked s = false ->
  first_match dev d bb = Some drv -> dv_alloc SIZEOF_NODE (env s) = (n, e) -> n <> 0 ->
  (forall t, dv_probe drv dev t = Ok (0, t)) -> (2 <= fuel)%nat ->
  exists s1 s2, drivers_add_device dev s = Ok (true, s1) /\ drivers_probe_process fuel s1 = Ok (tt, s2) /\
    devs s2 !! dev = None /\ (exists b, buses s2 !! dev_bus d = Some b /\ dev ∈ bus_devices b) /\
    (forall r x, r <> 0 -> drvs s !! r = Some x -> drv_bus x = dev_bus d ->
       Forall (fun y => exists dy, devs s2 !! y = Some dy /\ dev_driver dy <> r) (bus_devices bb) ->
       drivers_remove_driver r s2 = Fault).
Proof.
  intros Ha Hr0 Hc Hw Hl Hm Ealloc Hn Hprobe Hf. pose proof (add_device_spec s dev d bb Ha) as Eadd.
  rewrite Hm, Ealloc, (proj2 (Z.eqb_neq _ _) Hn) in Eadd.
  set (s1 := queued (with_env (linked s dev d bb) e) n dev drv) in Eadd.
  set (d1 := set_refcnt d (s32 (dev_refcnt d + 1))).
  assert (devs s1 !! dev = Some d1) as Ed1.
  { cbn. rewrite lookup_alter_eq, (link_parent_dev s dev d bb Ha). done. }
  assert (dev_refcnt d1 = 1) as Hr1 by (subst d1; cbn; by rewrite Hr0).
  assert (buses s1 !! dev_bus d = Some (link_bus dev bb)) as Eb1 by apply lookup_insert_eq.
  destruct (serve_one s1 n (ProbeNode dev drv 0) d1 fuel) as (s2 & e2 & E2 & Eb & Edr & Ed); try done.
  { cbn. by rewrite Hw. } { apply lookup_insert_eq. } { rewrite Hr1. lia. }
  assert (devs s2 !! dev = None) as Hgone.
  { rewrite Ed. unfold dropped. rewrite Hr1. cbn. apply lookup_delete_eq. }
  exists s1, s2. split_and!; [done|done|done| |].
  - exists (link_bus dev bb). rewrite Eb. split; [done|]. cbn. set_solver.
  - intros r x Hrz Er Ebx Hall. unfold drivers_remove_driver. rewrite (proj2 (Z.eqb_neq _ _) Hrz).
    assert (drvs s2 !! r = Some x) as Er2 by (rewrite Edr; done).
    assert (buses s2 !! drv_bus x = Some (link_bus dev bb)) as Eb2 by (rewrite Eb, Ebx; done).
    rewrite (st_step _ _ _ _ _ (drv_at_Ok _ _ _ Er2)), (st_step _ _ _ _ _ (bus_at_Ok _ _ _ Eb2)).
    apply st_fault. by apply bound_device_freed.
Qed.

(** ** Adding a driver *)

Lemma next_on_mid l1 x l2 : x ∉ l1 -> next_on x (l1 ++ x :: l2) = hd 0 l2.
Proof.
  induction l1 as [|y l1 IH]; intros Hx; cbn; [by rewrite Z.eqb_refl|].
  rewrite (proj2 (Z.eqb_neq y x)) by set_solver. apply IH. set_solver.
Qed.

Lemma off_mid l1 x l2 : NoDup (l1 ++ x :: l2) -> off x (l1 ++ x :: l2) = l1 ++ l2.
Proof.
  intros (_ & Hx & [Hx2 _]%NoDup_cons)%NoDup_app. unfold off. rewrite filter_app, filter_cons_False by (intros Hn; by apply Hn).
  f_equal; apply off_fresh; [|done]. intros Hin. apply (Hx x Hin). by left.
Qed.

Section add_driver.
Context (b drv : Z).

Definition wanted (dev : Z) : Prop := dv_match b dev drv = true.
#[local] Instance wanted_dec dev : Decision (wanted dev).
Proof. unfold wanted. apply _. Defined.

(** The devices of [l] that the driver wants have one more reference. *)
Definition taken (l : list Z) (m m' : gmap Z device) : Prop :=
  forall x, m' !! x = if decide (x ∈ l /\ wanted x) then (fun d => set_refcnt d (s32 (dev_refcnt d + 1))) <$> m !! x else m !! x.

Lemma add_driver_turn_match x tmp s n e d : x <> 0 -> wanted x -> devs s !! x = Some d ->
  dv_alloc SIZEOF_NODE (env s) = (n, e) -> n <> 0 ->
  let s' := queued (with_env (with_unmatched s (off x (unmatched s))) e) n x drv in
  add_driver_turn b drv (x, tmp) s = Ok (inl (tmp, next_on tmp (unmatched s')), s').
Proof.
  intros Hx Hm Ed Ea Hn. cbn zeta. unfold add_driver_turn. rewrite (proj2 (Z.eqb_neq _ _) Hx). unfold wanted in Hm. rewrite Hm.
  set (s1 := with_unmatched s (off x (unmatched s))).
  rewrite (st_step _ _ s tt (queued (with_env s1 e) n x drv)); [done|].
  rewrite st_modify_step. fold s1. rewrite (st_step _ _ _ n (with_env s1 e)) by (unfold alloc; cbn; by rewrite Ea).
  rewrite (proj2 (Z.eqb_neq _ _) Hn). by apply (queue_probe_spec _ n x drv d).
Qed.

Lemma add_driver_turn_skip x tmp s : x <> 0 -> ~ wanted x ->
  add_driver_turn b drv (x, tmp) s = Ok (inl (tmp, next_on tmp (unmatched s)), s).
Proof.
  intros Hx Hm. unfold add_driver_turn. rewrite (proj2 (Z.eqb_neq _ _) Hx). unfold wanted in Hm.
  apply not_true_iff_false in Hm. rewrite Hm. done.
Qed.

Lemma add_driver_run (Hheap : forall e, (dv_alloc SIZEOF_NODE e).1 <> 0) l : forall s k fuel,
  unmatched s = k ++ l -> NoDup (k ++ l) -> Forall (fun x => x <> 0 /\ is_Some (devs s !! x)) l -> (length l < fuel)%nat ->
  exists s' ns, st_loop fuel (add_driver_turn b drv) (hd 0 l, next_on (hd 0 l) (k ++ l)) s = Ok (tt, s') /\
    unmatched s' = k ++ filter (fun x => ~ wanted x) l /\ buses s' = buses s /\
    wait s' = wait s ++ ns /\ length ns = length (filter wanted l) /\ taken l (devs s) (devs s').
Proof.
  induction l as [|x r IH]; intros s k [|fuel] Hu Hnd Hall Hf; try (cbn in Hf; lia); cbn [st_loop hd].
  - exists s, []. rewrite !app_nil_r in *. split; [done|]. split_and!; done.
  - apply Forall_cons in Hall as [[Hx [d Ed]] Hall]. pose proof Hnd as (_ & Hk & [Hxr Hr]%NoDup_cons)%NoDup_app.
    assert (x ∉ k) as Hxk by (intros Hin; apply (Hk x Hin); by left).
    rewrite (next_on_mid k x r) by done. destruct (decide (wanted x)) as [Hm|Hm].
    + destruct (dv_alloc SIZEOF_NODE (env s)) as [n e] eqn:Ea. pose proof (Hheap (env s)) as Hn. rewrite Ea in Hn. cbn in Hn.
      rewrite (st_step _ _ _ _ _ (add_driver_turn_match x (hd 0 r) s n e d Hx Hm Ed Ea Hn)).
      set (s1 := queued _ n x drv). assert (unmatched s1 = k ++ r) as Hu1 by (cbn; rewrite Hu; by apply off_mid).
      destruct (IH s1 k fuel) as (s' & ns & E' & Hu' & Hb' & Hw' & Hl' & Ht'); [done| | |cbn in Hf; lia|].
      { apply NoDup_app in Hnd as (? & ? & ?). apply NoDup_app. split_and!; [done| |done]. intros y Hy Hy'. apply (Hk y Hy). by right. }
      { eapply Forall_impl; [exact Hall|]. intros y [Hy1 Hy2]. split; [done|]. cbn. by apply lookup_alter_is_Some. }
      rewrite Hu1. exists s', (n :: ns). split; [exact E'|]. rewrite filter_cons_False by tauto. rewrite filter_cons_True by done.
      split_and!; [done|done|rewrite Hw'; cbn; by rewrite <- app_assoc|cbn; by rewrite Hl'|].
      intros y. rewrite Ht'. cbn. destruct (decide (x = y)) as [<-|Hy].
      * rewrite decide_False by tauto. rewrite decide_True by (split; [left|]; done). by rewrite lookup_alter_eq.
      * rewrite lookup_alter_ne by done. apply decide_ext. rewrite elem_of_cons. naive_solver.
    + rewrite (st_step _ _ _ _ _ (add_driver_turn_skip x (hd 0 r) s Hx Hm)). rewrite Hu.
      destruct (IH s (k ++ [x]) fuel) as (s' & ns & E' & Hu' & Hb' & Hw' & Hl' & Ht');
        [by rewrite <- app_assoc|by rewrite <- app_assoc|done|cbn in Hf; lia|].
      rewrite <- app_assoc in E', Hu'. exists s', ns. split; [exact E'|]. rewrite filter_cons_True by done. rewrite filter_cons_False by done.
      split_and!; try done. intros y. rewrite Ht'. apply decide_ext. rewrite elem_of_cons. naive_solver.
Qed.

End add_driver.

(** The state in which the driver is on the list of its bus. *)
Definition with_driver s (x : driver) (bb : bus) (drv : Z) : fw E :=
  with_buses s (<[drv_bus x := Bus (bus_devices bb) (bus_drivers bb ++ [drv]) (bus_free_device bb)]> (buses s)).

Lemma add_driver_unfold s drv x bb fuel : drv <> 0 -> drvs s !! drv = Some x -> drv_bus x <> 0 -> buses s !! drv_bus x = Some bb ->
  drivers_add_driver fuel drv s =
  (st_loop fuel (add_driver_turn (drv_bus x) drv) (hd 0 (unmatched s), next_on (hd 0 (unmatched s)) (unmatched s)) ≫=
    (fun _ => mret true)) (with_driver s x bb drv).
Proof.
  intros Hd Ed Hb Eb. unfold drivers_add_driver. rewrite (proj2 (Z.eqb_neq _ _) Hd), (st_step _ _ _ _ _ (drv_at_Ok _ _ _ Ed)).
  by rewrite (proj2 (Z.eqb_neq _ _) Hb), (st_step _ _ _ _ _ (bus_at_Ok _ _ _ Eb)).
Qed.

(** Adding a driver.  While memory is left, [drivers_add_driver] puts the
    driver on its bus and goes over the unmatched devices once: those that the
    driver wants leave the list, in order, each gets a probe queued and one
    more reference; the others stay in their order and nothing else changes. *)
Theorem drivers_add_driver_correct s drv x bb fuel : drv <> 0 -> drvs s !! drv = Some x -> drv_bus x <> 0 ->
  buses s !! drv_bus x = Some bb -> (forall e, (dv_alloc SIZEOF_NODE e).1 <> 0) ->
  NoDup (unmatched s) -> Forall (fun d => d <> 0 /\ is_Some (devs s !! d)) (unmatched s) -> (length (unmatched s) < fuel)%nat ->
  exists s' ns, drivers_add_driver fuel drv s = Ok (true, s') /\
    unmatched s' = filter (fun d => dv_match (drv_bus x) d drv <> true) (unmatched s) /\
    buses s' = <[drv_bus x := Bus (bus_devices bb) (bus_drivers bb ++ [drv]) (bus_free_device bb)]> (buses s) /\
    wait s' = wait s ++ ns /\ length ns = length (filter (fun d => dv_match (drv_bus x) d drv = true) (unmatched s)) /\
    taken (drv_bus x) drv (unmatched s) (devs s) (devs s').
Proof.
  intros Hd Ed Hb Eb Hheap Hnd Hall Hf. rewrite (add_driver_unfold s drv x bb fuel Hd Ed Hb Eb).
  destruct (add_driver_run (drv_bus x) drv Hheap (unmatched s) (with_driver s x bb drv) [] fuel)
    as (s' & ns & E' & Hu & Hbs & Hw & Hl & Ht); [done|done|done|done|].
  rewrite (st_step _ _ _ _ _ E'). exists s', ns. split; [done|]. split_and!; done.
Qed.

Lemma add_driver_rotates b drv : (forall e, dv_alloc SIZEOF_NODE e = (0, e)) ->
  forall fuel x y l s, unmatched s = x :: y :: l -> NoDup (x :: y :: l) ->
  Forall (fun d => d <> 0 /\ dv_match b d drv = true) (x :: y :: l) ->
  st_loop fuel (add_driver_turn b drv) (x, y) s = Fault.
Proof.
  intros Hheap. induction fuel as [|fuel IH]; intros x y l s Hu Hnd Hall; [done|]. cbn [st_loop].
  pose proof Hall as [[Hx Hm] Hall']%Forall_cons.
  assert (off x (unmatched s) = y :: l) as Eoff by (rewrite Hu; by apply (off_mid [] x (y :: l))).
  assert (exists e s1, s1 = with_unmatched (with_env s e) (y :: l ++ [x]) /\
    add_driver_turn b drv (x, y) s = Ok (inl (y, hd 0 (l ++ [x])), s1)) as (e & s1 & Es1 & E1).
  { exists (env s), (with_unmatched (with_env s (env s)) (y :: l ++ [x])). split; [done|].
    unfold add_driver_turn. rewrite (proj2 (Z.eqb_neq _ _) Hx), Hm.
    rewrite (st_step _ _ s tt (with_unmatched (with_env s (env s)) (y :: l ++ [x]))).
    - rewrite st_gets_step. cbn [unmatched with_unmatched]. unfold mret, ST_ret. cbn [next_on]. by rewrite Z.eqb_refl.
    - rewrite st_modify_step, Eoff. rewrite (st_step _ _ _ 0 (with_unmatched s (y :: l))); [by destruct s|].
      unfold alloc. rewrite Hheap. by destruct s. }
  rewrite (st_step _ _ _ _ _ E1).
  assert (y :: l ++ [x] ≡ₚ x :: y :: l) as Hp by (rewrite app_comm_cons; symmetry; apply Permutation_cons_append).
  assert (Forall (fun d => d <> 0 /\ dv_match b d drv = true) (y :: l ++ [x])) as Hall1 by by rewrite Hp.
  destruct l as [|z l]; cbn [hd app] in *.
  - apply (IH y x []); [by rewrite Es1|by rewrite Hp|done].
  - apply (IH y z (l ++ [x])); [by rewrite Es1|by rewrite Hp|done].
Qed.

(** Without memory adding a driver never ends.  When no queue entry can
    be allocated, a device the driver wants is put back at the end of the list
    that is being walked: with two such devices (and no others) the walk goes
    round forever, with the lock of the list held. *)
Theorem drivers_add_driver_spins s drv x bb d1 d2 l : drv <> 0 -> drvs s !! drv = Some x -> drv_bus x <> 0 ->
  buses s !! drv_bus x = Some bb -> (forall e, dv_alloc SIZEOF_NODE e = (0, e)) ->
  unmatched s = d1 :: d2 :: l -> NoDup (unmatched s) ->
  Forall (fun d => d <> 0 /\ dv_match (drv_bus x) d drv = true) (unmatched s) ->
  forall fuel, drivers_add_driver fuel drv s = Fault.
Proof.
  intros Hd Ed Hb Eb Hheap Hu Hnd Hall fuel. rewrite (add_driver_unfold s drv x bb fuel Hd Ed Hb Eb).
  apply st_fault. rewrite Hu in *. cbn [hd next_on]. rewrite Z.eqb_refl. cbn [hd].
  by apply (add_driver_rotates (drv_bus x) drv Hheap fuel d1 d2 l).
Qed.

End correct.

(** ** Witnesses: a bus at 100, a driver at 200, devices from 1000 on, and a
    heap that hands out increasing addresses *)

#[export] Instance bump_env : DriverEnv Z := {
  dv_alloc _ e := (Z.abs e + 1, e + 1);
  dv_free _ e := e;
  dv_match _ dev _ := 2000 <=? dev;
  dv_free_device _ _ e := e;
  dv_probe _ _ s := Ok (0, s);
  dv_remove _ _ s := Ok (tt, s)
}.

Definition plain_device (refcnt : Z) : device := Device 100 0 0 [] refcnt.

(** One device that no driver wants (1000), one that the driver wants (2000). *)
Definition demo_fw : fw Z :=
  Fw _ {[ 1000 := plain_device 0; 2000 := plain_device 0 ]} {[ 200 := Driver 100 false ]}
    {[ 100 := Bus [] [200] false ]} ∅ [] [] false [1000] [] 4999.

Lemma demo_addable : addable demo_fw 2000 (plain_device 0) (Bus [] [200] false).
Proof. constructor; [done|done|split; [done|set_solver]|done]. Qed.

Lemma demo_ok : fw_ok ∅ [] demo_fw.
Proof.
  constructor; cbn; [constructor|done|set_solver| |set_solver].
  intros d dv [[<- <-]|[_ [<- <-]%lookup_singleton_Some]]%lookup_insert_Some; cbn; (split; [by vm_compute|by eexists]).
Qed.

Lemma drivers_add_device_correct_witness : exists s', drivers_add_device 2000 demo_fw = Ok (true, s') /\ fw_ok ∅ [] s' /\ wait s' = [5000].
Proof.
  destruct (drivers_add_device_correct ∅ demo_fw 2000 (plain_device 0) (Bus [] [200] false) demo_addable demo_ok)
    as (b & s' & E' & Hok & Hm); [cbn; lia|done|].
  vm_compute in Hm. destruct Hm as [-> ->]. eexists. split; [exact E'|]. split; [exact Hok|reflexivity].
Defined.

#[export] Instance bump_laws : ProbeLaws (E := Z).
Proof.
  refine {| budget := fun _ => 0 |}; try (intros; lia).
  intros L held drv dev s Hok. exists 0, s, []. split_and!; [done|done|done|by rewrite app_nil_r|done|set_solver|cbn; lia|done].
Defined.

Lemma drivers_probe_process_correct_witness : exists s1 s2,
  drivers_add_device 2000 demo_fw = Ok (true, s1) /\ drivers_probe_process 20 s1 = Ok (tt, s2) /\ nodes s2 = ∅ /\
  exists log, qsteps (with_lock s1 true) log (with_lock s2 true) /\ tried 5000 (ProbeNode 2000 200 0) log.
Proof.
  set (s1 := queued (with_env (linked demo_fw 2000 (plain_device 0) (Bus [] [200] false)) 5000) 5000 2000 200).
  assert (drivers_add_device 2000 demo_fw = Ok (true, s1)) as E1
    by (rewrite (add_device_spec demo_fw 2000 _ _ demo_addable); reflexivity).
  assert (fw_ok ∅ [] s1) as Hok.
  { apply (fw_ok_queued ∅ [] _ 5000 2000 200 (plain_device 0)); [|done|done|cbn; lia].
    apply fw_ok_env, (fw_ok_linked _ _ _ _ _ _ demo_addable demo_ok). }
  assert (curr s1 = [] /\ curr_locked s1 = false /\ work s1 = 11) as (Hc & Hl & Hw) by (split_and!; vm_compute; reflexivity).
  destruct (drivers_probe_process_correct ∅ s1 20 Hok Hc Hl) as (s2 & log & E2 & Hq & Ht & Hs & _); [lia|].
  exists s1, s2. split_and!; [done|done|apply Hs|]. exists log. split; [exact Hq|]. apply Ht; [by left|done].
Defined.

Lemma matched_device_dangles_witness : exists s1 s2,
  drivers_add_device 2000 demo_fw = Ok (true, s1) /\ drivers_probe_process 2 s1 = Ok (tt, s2) /\ devs s2 !! 2000 = None /\
  drivers_remove_driver 200 s2 = Fault.
Proof.
  destruct (matched_device_dangles demo_fw 2000 (plain_device 0) (Bus [] [200] false) 5000 5000 200 2 demo_addable)
    as (s1 & s2 & E1 & E2 & Hg & _ & Hf); try done.
  exists s1, s2. split_and!; [exact E1|exact E2|exact Hg|]. apply (Hf 200 (Driver 100 false)); done.
Defined.

Definition waiting_fw (E : Type) (e : E) : fw E :=
  Fw _ {[ 1000 := plain_device 0; 2000 := plain_device 0; 3000 := plain_device 0 ]} {[ 200 := Driver 100 false ]}
    {[ 100 := Bus [] [] false ]} ∅ [] [] false [2000; 1000; 3000] [] e.

Lemma drivers_add_driver_correct_witness : exists s',
  drivers_add_driver 4 200 (waiting_fw Z 0) = Ok (true, s') /\ unmatched s' = [1000] /\ length (wait s') = 2%nat.
Proof.
  destruct (drivers_add_driver_correct (waiting_fw Z 0) 200 (Driver 100 false) (Bus [] [] false) 4)
    as (s' & ns & E' & Hu & _ & Hw & Hl & _); [done|done|done|done|cbn; lia| | |cbn; lia|].
  - apply (bool_decide_unpack (NoDup _)). vm_compute. exact I.
  - apply (bool_decide_unpack (Forall _ _)). vm_compute. exact I.
  - exists s'. split; [exact E'|]. split; [rewrite Hu; reflexivity|]. rewrite Hw. cbn [wait waiting_fw app]. rewrite Hl. reflexivity.
Defined.

(** A kernel without memory. *)
#[export] Instance full_env : DriverEnv unit := {
  dv_alloc _ e := (0, e);
  dv_free _ e := e;
  dv_match _ _ _ := true;
  dv_free_device _ _ e := e;
  dv_probe _ _ s := Ok (0, s);
  dv_remove _ _ s := Ok (tt, s)
}.

Lemma drivers_add_driver_spins_witness : forall fuel, drivers_add_driver fuel 200 (waiting_fw unit tt) = Fault.
Proof.
  apply (drivers_add_driver_spins (waiting_fw unit tt) 200 (Driver 100 false) (Bus [] [] false) 2000 1000 [3000]);
    [done|done|done|done|done|done|..].
  - apply (bool_decide_unpack (NoDup _)). vm_compute. exact I.
  - apply (bool_decide_unpack (Forall _ _)). vm_compute. exact I.
Defined.

(** ** Removing a device *)

(** A hub (1000) with two ports (2000, 3000), all with one reference. *)
Definition hub_fw : fw Z :=
  Fw _ {[ 1000 := Device 100 0 0 [2000; 3000] 1; 2000 := Device 100 0 1000 [] 1; 3000 := Device 100 0 1000 [] 1 ]} ∅
    {[ 100 := Bus [1000; 2000; 3000] [] false ]} ∅ [] [] false [] [] 0.

(** Removing one device removes the whole tree it is in.  The walk of
    [drivers_remove_device] goes from the device it was called for to its
    siblings and its parent and ends only at a root: asked to remove one port
    of a hub it also frees the other port and the hub. *)
Theorem remove_device_climbs : exists s', drivers_remove_device 10 2000 hub_fw = Ok (true, s') /\
  devs s' = ∅ /\ is_Some (devs hub_fw !! 1000) /\ is_Some (devs hub_fw !! 3000) /\ buses s' = {[ 100 := Bus [] [] false ]}.
Proof.
  eexists. split; [vm_compute; reflexivity|]. split_and!; [reflexivity|by eexists|by eexists|reflexivity].
Qed.
