(* ===== verification/Devt.v ===== *)
(** * Device numbers (kernel/drivers/base/drivers.c)

    Anonymous ids, major numbers and the minor numbers under a major are bits
    of growing bitmaps; the file operations of a driver are found through a
    growing table indexed by the major number. *)

From S2P Require Import Prelude Bitmap Dynarr Endian.

Local Open Scope Z_scope.

Definition DEVT_BIT_WIDTH : Z := 20.
Definition DEVT_MAX_COUNT : Z := Z.shiftl 1 DEVT_BIT_WIDTH - 1.
Definition ANON_DEV : Z := 0.
Definition DEV_MAIN_BIT_WIDTH : Z := 32 - DEVT_BIT_WIDTH.
Definition DEV_MAX_MAJOR : Z := Z.shiftl 1 DEV_MAIN_BIT_WIDTH - 1.

(** drivers.c: MKDEV; a dev_t has 32 bits *)
Definition MKDEV (ma mi : Z) : Z := u32 (Z.lor (u32 (Z.shiftl ma DEVT_BIT_WIDTH)) mi).

(** The union of struct drivers_minor_devt: a bitmap or a counter. *)
Inductive minors := MBitmap (b : option dynarr_t) | MCounter (n : Z).

(** drivers.c: struct drivers_minor_devt *)
Record drivers_minor_devt := Minor { major : Z; dynamic : bool; minor_union : minors }.

(** The static data; a bitmap that could not be created is [None]. *)
Record numbers := Numbers {
  anon_bitmap : option dynarr_t;
  major_bitmap : option dynarr_t;
  fops_table : option dynarr_t
}.

Section devt.
Context `{Heap}.

(** dynarr_bitmap_alloc on a pointer that may be NULL, from bit 1 on. *)
Definition take_id (b : option dynarr_t) : outcome (option Z * option dynarr_t) :=
  match b with
  | None => Ok (None, None)
  | Some d => '(r, d) ← settle (dynarr_bitmap_alloc d 1); Ok (r, Some d)
  end.

(** dynarr_bitmap_free on a pointer that may be NULL. *)
Definition give_id (b : option dynarr_t) (i : Z) : outcome (option dynarr_t) :=
  match b with
  | None => Ok None
  | Some d => d ← dynarr_bitmap_free d i; Ok (Some d)
  end.

(** drivers.c: drivers_anon_init, drivers_major_init; [mem] says whether the
    record of the bitmap could be allocated *)
Definition drivers_anon_init (mem : bool) (s : numbers) : outcome (bool * numbers) :=
  anon ← settle (dynarr_bitmap_create mem DEVT_MAX_COUNT);
  match anon with
  | None => Ok (false, Numbers None (major_bitmap s) (fops_table s))
  | Some _ => '(_, anon) ← take_id anon; Ok (true, Numbers anon (major_bitmap s) (fops_table s))
  end.
Definition drivers_major_init (mem : bool) (s : numbers) : outcome (bool * numbers) :=
  maj ← settle (dynarr_bitmap_create mem (Z.shiftl 1 DEV_MAIN_BIT_WIDTH));
  Ok (match maj with None => false | Some _ => true end, Numbers (anon_bitmap s) maj (fops_table s)).

(** drivers.c: drivers_data_init, the part on numbers; [r1] to [r3] say
    whether the three records could be allocated *)
Definition numbers_init (r1 r2 r3 : bool) : outcome (bool * numbers) :=
  anon ← settle (dynarr_bitmap_create r1 DEVT_MAX_COUNT);
  match anon with
  | None => Ok (false, Numbers None None None)
  | Some _ =>
      '(_, anon) ← take_id anon;
      maj ← settle (dynarr_bitmap_create r2 (Z.shiftl 1 DEV_MAIN_BIT_WIDTH));
      match maj with
      | None => Ok (false, Numbers anon None None)
      | Some _ =>
          match dynarr_create r3 8 (DEV_MAX_MAJOR + 1) with
          | None => Ok (false, Numbers anon maj None)
          | Some f => Ok (true, Numbers anon maj (Some f))
          end
      end
  end.

(** drivers.c: drivers_get_anon_id; the error number and the id *)
Definition drivers_get_anon_id (s : numbers) : outcome ((Z * Z) * numbers) :=
  match anon_bitmap s with
  | None => Ok ((- ENODEV, 0), s)
  | Some _ =>
      '(r, b) ← take_id (anon_bitmap s);
      let s := Numbers b (major_bitmap s) (fops_table s) in
      match r with
      | None => Ok ((- ENOSPC, 0), s)
      | Some idx => Ok ((0, MKDEV ANON_DEV idx), s)
      end
  end.

(** drivers.c: drivers_free_anon_id *)
Definition drivers_free_anon_id (dev : Z) (s : numbers) : outcome numbers :=
  let mi := Z.land dev DEVT_MAX_COUNT in
  if mi =? 0 then Ok s
  else b ← give_id (anon_bitmap s) mi; Ok (Numbers b (major_bitmap s) (fops_table s)).

(** drivers.c: drivers_dev_find; 0 is NULL *)
Definition drivers_dev_find (dev : Z) (s : numbers) : outcome Z :=
  let ma := Z.shiftr dev DEVT_BIT_WIDTH in
  match fops_table s with
  | None => Ok 0
  | Some t =>
      if DEV_MAX_MAJOR <? ma then Ok 0
      else
        match dynarr_get (Some t) ma with
        | Some off => load_le (arr t) off 8
        | None => Ok 0
        end
  end.

(** drivers.c: drivers_major_alloc; [mem] says whether the handle could be
    allocated; its other members are zero, as the heap hands memory out *)
Definition drivers_major_alloc (mem : bool) (s : numbers) : outcome ((Z * option drivers_minor_devt) * numbers) :=
  '(r, b) ← take_id (major_bitmap s);
  let s := Numbers (anon_bitmap s) b (fops_table s) in
  match r with
  | None => Ok ((- ENOSPC, None), s)
  | Some ma =>
      if negb mem then
        b ← give_id (major_bitmap s) ma;
        Ok ((- ENOMEM, None), Numbers (anon_bitmap s) b (fops_table s))
      else Ok ((0, Some (Minor ma false (MBitmap None))), s)
  end.

(** drivers.c: drivers_minor_allocator_init; a NULL handle is [None] *)
Definition drivers_minor_allocator_init (mem is_dynamic : bool) (handle : option drivers_minor_devt) : outcome (option drivers_minor_devt) :=
  match handle with
  | None => Ok None
  | Some h =>
      if is_dynamic then
        b ← settle (dynarr_bitmap_create mem DEVT_MAX_COUNT);
        match b with
        | None => Ok (Some (Minor (major h) false (MBitmap None)))
        | Some _ => '(_, b) ← take_id b; Ok (Some (Minor (major h) true (MBitmap b)))
        end
      else Ok (Some (Minor (major h) false (MCounter 1)))
  end.

(** Reading the union as a counter: a NULL bitmap reads as 0. *)
Definition read_counter (m : minors) : outcome Z :=
  match m with MCounter n => Ok n | MBitmap None => Ok 0 | MBitmap (Some _) => Fault end.
Definition read_bitmap (m : minors) : outcome (option dynarr_t) :=
  match m with MBitmap b => Ok b | MCounter _ => Fault end.

(** drivers.c: drivers_minor_alloc; the error number and the device number.
    [dev] says that the address for the result is not NULL. *)
Definition drivers_minor_alloc (handle : option drivers_minor_devt) (dev : bool) : outcome ((Z * Z) * option drivers_minor_devt) :=
  match handle with
  | None => Ok ((- EINVAL, 0), None)
  | Some h =>
      if negb dev then Ok ((- EINVAL, 0), handle)
      else if dynamic h then
        b ← read_bitmap (minor_union h);
        '(r, b) ← take_id b;
        let h := Minor (major h) true (MBitmap b) in
        match r with
        | None => Ok ((- ENOSPC, 0), Some h)
        | Some mi => Ok ((0, MKDEV (major h) mi), Some h)
        end
      else
        n ← read_counter (minor_union h);
        let mi := u32 n in
        let h := Minor (major h) false (MCounter (u64 (n + 1))) in
        if DEVT_MAX_COUNT <? mi then Ok ((- ENOSPC, 0), Some h)
        else Ok ((0, MKDEV (major h) mi), Some h)
  end.

(** drivers.c: drivers_minor_free *)
Definition drivers_minor_free (handle : option drivers_minor_devt) (dev : Z) : outcome (option drivers_minor_devt) :=
  match handle with
  | None => Ok None
  | Some h =>
      let mi := Z.land dev DEVT_MAX_COUNT in
      if mi =? 0 then Ok handle
      else if dynamic h then
        b ← read_bitmap (minor_union h);
        b ← give_id b mi;
        Ok (Some (Minor (major h) true (MBitmap b)))
      else Ok handle
  end.

(** drivers.c: drivers_major_free; the bitmap of the handle, if it has one,
    and the handle itself are gone afterwards *)
Definition drivers_major_free (handle : option drivers_minor_devt) (s : numbers) : outcome numbers :=
  match handle with
  | None => Ok s
  | Some h =>
      b ← give_id (major_bitmap s) (major h);
      Ok (Numbers (anon_bitmap s) b (fops_table s))
  end.

(** drivers.c: drivers_register_fops, drivers_unregister_fops *)
Definition drivers_register_fops (h : drivers_minor_devt) (fops : Z) (s : numbers) : outcome numbers :=
  '(_, t) ← settle (dynarr_set (fops_table s) (major h) (Some (mem_of (le_bytes 8 fops))));
  Ok (Numbers (anon_bitmap s) (major_bitmap s) t).
Definition drivers_unregister_fops (h : drivers_minor_devt) (s : numbers) : outcome numbers :=
  drivers_register_fops h 0 s.

End devt.

(** ** Packing *)

Lemma mkdev_split ma mi : 0 <= ma <= DEV_MAX_MAJOR -> 0 <= mi <= DEVT_MAX_COUNT ->
  MKDEV ma mi = ma * 2 ^ 20 + mi /\ Z.shiftr (MKDEV ma mi) DEVT_BIT_WIDTH = ma /\ Z.land (MKDEV ma mi) DEVT_MAX_COUNT = mi.
Proof.
  unfold DEV_MAX_MAJOR, DEVT_MAX_COUNT, DEV_MAIN_BIT_WIDTH, DEVT_BIT_WIDTH. rewrite !Z.shiftl_mul_pow2 by lia.
  change (1 * 2 ^ (32 - 20) - 1) with 4095. change (1 * 2 ^ 20 - 1) with (Z.ones 20). intros Hma Hmi.
  change (Z.ones 20) with 1048575 in Hmi.
  assert (MKDEV ma mi = ma * 2 ^ 20 + mi) as E.
  { unfold MKDEV, DEVT_BIT_WIDTH. rewrite Z.shiftl_mul_pow2 by lia. rewrite (wrap_small 32 (ma * 2 ^ 20)) by (unfold fits; lia).
    assert (Z.land (ma * 2 ^ 20) mi = 0) as Hl.
    { apply Z.bits_inj'. intros i Hi. rewrite Z.land_spec, Z.bits_0. destruct (Z.ltb_spec i 20).
      - by rewrite Z.mul_pow2_bits_low by lia.
      - rewrite (fits_testbit 20 mi) by (unfold fits; lia). apply andb_false_r. }
    rewrite <- Z.lxor_lor, <- Z.add_nocarry_lxor by done. apply wrap_small. unfold fits. lia. }
  rewrite E. split; [done|]. rewrite Z.shiftr_div_pow2, Z.land_ones by lia. dlia.
Qed.

Section numbers.
Context `{HeapLaws}.

Lemma bits_bound d : bitmap_arr d -> 0 < bits d <= 2 ^ 30.
Proof. intros Hb. destruct (bitmap_arr_bits d Hb) as (_ & Hc & _). unfold bits. lia. Qed.

Lemma take_id_spec d j : bitmap_arr d -> 1 <= j < bits d -> bit_at (arr d) j = false ->
  exists i d', take_id (Some d) = Ok (Some i, Some d') /\ bitmap_arr d' /\ bits d' = bits d /\ 1 <= i <= j /\
    bit_at (arr d) i = false /\ (forall k, bit_at (arr d') k = (i =? k) || bit_at (arr d) k).
Proof.
  intros Hb Hj Hf. unfold take_id, dynarr_bitmap_alloc.
  destruct (bitmap_take_spec d 1 Hb) as [[_ Ha]|(b & d' & -> & Hb' & Hc & Hr & Ef & Hbef & Hset)]; [lia|rewrite Ha in Hf; [done|lia]|].
  exists b, d'. split; [done|]. split_and!; try done; [unfold bits; lia|lia|].
  destruct (Z.le_gt_cases b j); [done|]. rewrite Hbef in Hf; [done|lia].
Qed.

Lemma give_id_spec d i : bitmap_arr d -> 0 <= i < bits d ->
  exists d', give_id (Some d) i = Ok (Some d') /\ bitmap_arr d' /\ bits d' = bits d /\
    forall k, bit_at (arr d') k = negb (i =? k) && bit_at (arr d) k.
Proof.
  intros Hb Hi. destruct (bitmap_arr_bits d Hb) as (Hw & Hc & _). unfold give_id, dynarr_bitmap_free, BITS_PER_UNIT.
  rewrite wrap_small by (unfold fits; lia). unfold bits in Hi. replace (i <? dynarr_count d * 8) with true by lia.
  destruct (bitmap_clear_spec (dynarr_count d) ltac:(lia) (arr d) i) as (a & -> & Ha & Hs); [done|lia|].
  exists (set_arr d a). split; [done|]. split_and!; [by apply set_arr_bitmap|done|done].
Qed.

(** Minor numbers.  While a number of the current bitmap is free,
    [drivers_minor_alloc] hands out one that is not in use, at least 1, and
    marks exactly that one; the device number it builds splits into the major
    number of the handle and the minor number.  [drivers_minor_free] of it
    gives back exactly that number, so the set of numbers in use is again the
    one from before. *)
Theorem drivers_minor_alloc_correct h d j : dynamic h = true -> minor_union h = MBitmap (Some d) -> bitmap_arr d ->
  0 <= major h <= DEV_MAX_MAJOR -> bits d <= 2 ^ 20 -> 1 <= j < bits d -> bit_at (arr d) j = false ->
  exists mi d' d'', let h' := Some (Minor (major h) true (MBitmap (Some d'))) in
    drivers_minor_alloc (Some h) true = Ok ((0, MKDEV (major h) mi), h') /\ bitmap_arr d' /\
    1 <= mi < bits d /\ bit_at (arr d) mi = false /\ (forall k, bit_at (arr d') k = (mi =? k) || bit_at (arr d) k) /\
    Z.shiftr (MKDEV (major h) mi) DEVT_BIT_WIDTH = major h /\ Z.land (MKDEV (major h) mi) DEVT_MAX_COUNT = mi /\
    drivers_minor_free h' (MKDEV (major h) mi) = Ok (Some (Minor (major h) true (MBitmap (Some d'')))) /\
    bitmap_arr d'' /\ (forall k, bit_at (arr d'') k = bit_at (arr d) k).
Proof.
  intros Hdy Hu Hb Hma Hbits Hj Hf. destruct (take_id_spec d j Hb Hj Hf) as (i & d' & Et & Hb' & Hbi & Hi & Ei & Hset).
  destruct (mkdev_split (major h) i Hma) as (_ & Hs & Hl); [change DEVT_MAX_COUNT with 1048575; lia|].
  destruct (give_id_spec d' i Hb') as (d'' & Eg & Hb'' & _ & Hclr); [lia|].
  exists i, d', d''. cbn zeta. split_and!; try done; try lia.
  - unfold drivers_minor_alloc. cbn [negb]. rewrite Hdy, Hu. cbn [read_bitmap mbind outcome_bind]. by rewrite Et.
  - unfold drivers_minor_free. rewrite Hl. replace (i =? 0) with false by lia.
    cbn [dynamic minor_union read_bitmap mbind outcome_bind major]. by rewrite Eg.
  - intros k. rewrite Hclr, Hset. destruct (Z.eqb_spec i k) as [<-|]; [by rewrite Ei|done].
Qed.

Lemma load_bytes_read a n off : (forall j, 0 <= j < Z.of_nat n -> is_Some (a !! (off + j))) ->
  load_bytes a off n = Ok (read a off (Z.of_nat n)).
Proof.
  intros Ha. assert (length (read a off (Z.of_nat n)) = n) as Hl by (unfold read; rewrite length_fmap, length_seqZ; lia).
  rewrite <- Hl at 1. apply load_bytes_Ok. intros i b Ei. unfold read in Ei. rewrite list_lookup_fmap in Ei.
  destruct (seqZ 0 (Z.of_nat n) !! i) as [k|] eqn:Ek; [|done]. apply lookup_seqZ in Ek as [-> Hi]. rewrite Z.add_0_l in Ei. cbn in Ei.
  destruct (Ha (Z.of_nat i) ltac:(lia)) as [v Ev]. rewrite Ev in Ei. cbn in Ei. rewrite Ev. congruence.
Qed.

(** What is found through a table of pointers. *)
Lemma dev_find_elem t ma mi am mm : dynarr_wf t -> element_size t = 8 -> 0 <= ma <= DEV_MAX_MAJOR -> 0 <= mi <= DEVT_MAX_COUNT ->
  ma < current_count t -> drivers_dev_find (MKDEV ma mi) (Numbers am mm (Some t)) = Ok (le_of (elem t ma)).
Proof.
  intros Hw Hs Hma Hmi Hc. unfold drivers_dev_find. destruct (mkdev_split ma mi Hma Hmi) as (_ & -> & _).
  cbn [fops_table]. rewrite (proj2 (Z.ltb_ge _ _)) by lia. unfold dynarr_get. rewrite (proj2 (Z.leb_gt _ _) Hc).
  unfold load_le, elem. rewrite Hs, load_bytes_read; [done|]. intros j Hj. destruct Hw as [Hb _ _ _ Hn _ _ _].
  apply (proj1 Hb). rewrite Hs. nia.
Qed.

(** The file operations of a major number.  When
    [drivers_register_fops] could store the entry, [drivers_dev_find] of every
    device number with this major answers the registered table, and for
    every other major that has an entry it answers what it did before. *)
Theorem fops_register_find h fops s t mi : fops_table s = Some t -> dynarr_wf t -> element_size t = 8 ->
  0 <= major h <= DEV_MAX_MAJOR -> 0 <= mi <= DEVT_MAX_COUNT -> fits 64 fops ->
  exists ok t', settle (dynarr_set (fops_table s) (major h) (Some (mem_of (le_bytes 8 fops)))) = Ok (ok, Some t') /\
    let s' := Numbers (anon_bitmap s) (major_bitmap s) (Some t') in
    drivers_register_fops h fops s = Ok s' /\ dynarr_wf t' /\
    (ok = true ->
     drivers_dev_find (MKDEV (major h) mi) s' = Ok fops /\
     (forall ma, 0 <= ma <= DEV_MAX_MAJOR -> ma < current_count t -> ma <> major h ->
        drivers_dev_find (MKDEV ma mi) s' = drivers_dev_find (MKDEV ma mi) s)).
Proof.
  intros Et Hw Hs Hma Hmi Hf. pose proof Hma as Hma'. change DEV_MAX_MAJOR with 4095 in Hma'.
  assert (bitmap_wf (mem_of (le_bytes 8 fops)) 8) as He.
  { pose proof (mem_of_wf (le_bytes 8 fops) (le_bytes_fits 8 fops)) as Hx. by rewrite le_bytes_length in Hx. }
  destruct (dynarr_set_spec t (major h) (mem_of (le_bytes 8 fops)) Hw) as (ok & t' & E & Hw' & Hs' & _ & Hok).
  { rewrite Hs. intros i Hi. destruct (proj2 (proj1 He (0 + i))) as [v Ev]; [lia|]. exists v. split; [done|]. by eapply (proj2 He). }
  { lia. } { rewrite Hs. lia. }
  exists ok, t'. rewrite Et, E. split; [done|]. cbn zeta. split; [unfold drivers_register_fops; by rewrite Et, E|]. split; [done|].
  intros ->. destruct (Hok eq_refl) as (Hcnt & Hel & Hold). rewrite Hs in *. split.
  - rewrite dev_find_elem by (done || lia). rewrite Hel. change 8 with (Z.of_nat (length (le_bytes 8 fops))).
    rewrite read_mem_of, le_of_le_bytes; [done|exact Hf].
  - intros ma Hm1 Hm2 Hm3. destruct s as [sa sm st]. cbn [anon_bitmap major_bitmap fops_table] in Et |- *. subst st.
    rewrite !dev_find_elem by (done || lia). rewrite Hold by (done || lia). done.
Qed.
End numbers.

(** ** Witnesses and the ids that repeat *)

(** Memory that comes cleared, as heap.c hands it out. *)
Definition zero_heap : Heap := fun n => if (0 <? n) && (n <=? 2 ^ 27) then Some (filled n 0) else None.

Lemma zero_heap_laws : @HeapLaws zero_heap.
Proof.
  intros n b _. unfold kheap_alloc, zero_heap. destruct (_ && _) eqn:E; zbool; intros [= <-].
  split; [by apply filled_wf; vm_compute|lia].
Qed.

Definition fresh_numbers : numbers :=
  match @numbers_init zero_heap true true true with Ok (_, s) => s | _ => Numbers None None None end.

(** The [n] ids that are handed out one after the other. *)
Fixpoint anon_ids (n : nat) (s : numbers) : list (Z * Z) :=
  match n with
  | O => []
  | S n => match @drivers_get_anon_id zero_heap s with Ok (r, s) => r :: anon_ids n s | _ => [] end
  end.

(** Device ids repeat.  Right after the initialisation 126 anonymous ids
    can be handed out, 2 to 127.  The next request has to grow the bitmap and
    forgets all of them: it answers 1, and the one after it 2 again, an id
    that was handed out first and never freed. *)
Theorem anon_ids_repeat :
  take 126 (anon_ids 128 fresh_numbers) = (fun i => (0, i)) <$> seqZ 2 126 /\
  drop 126 (anon_ids 128 fresh_numbers) = [(0, 1); (0, 2)].
Proof. split; vm_compute; reflexivity. Qed.

Definition empty_minors : dynarr_t := Dynarr (filled 16 0) 1 0 14 16 131072.
Definition empty_fops : dynarr_t := Dynarr (filled 128 0) 8 0 14 16 4096.

Lemma empty_minors_arr : bitmap_arr empty_minors.
Proof. split; [|done]. constructor; try (by vm_compute). by apply filled_wf; vm_compute. Qed.

Lemma empty_fops_wf : dynarr_wf empty_fops.
Proof. constructor; try (by vm_compute). by apply filled_wf; vm_compute. Qed.

Lemma drivers_minor_alloc_correct_witness : exists mi h',
  @drivers_minor_alloc zero_heap (Some (Minor 7 true (MBitmap (Some empty_minors)))) true = Ok ((0, MKDEV 7 mi), h') /\ 1 <= mi.
Proof.
  destruct (@drivers_minor_alloc_correct zero_heap (Minor 7 true (MBitmap (Some empty_minors))) empty_minors 5)
    as (mi & d' & d'' & E & _ & Hmi & _);
    [reflexivity|reflexivity|exact empty_minors_arr|vm_compute; split; discriminate|vm_compute; discriminate|
     split; [lia|reflexivity]|reflexivity|].
  eexists mi, _. split; [exact E|lia].
Defined.

Lemma fops_register_find_witness : exists ok t',
  settle (@dynarr_set zero_heap (Some empty_fops) 20 (Some (mem_of (le_bytes 8 0xFFFF800000012345)))) = Ok (ok, Some t') /\
  ok = true /\ drivers_dev_find (MKDEV 20 3) (Numbers None None (Some t')) = Ok 0xFFFF800000012345.
Proof.
  destruct (@fops_register_find zero_heap zero_heap_laws (Minor 20 false (MCounter 1)) 0xFFFF800000012345
              (Numbers None None (Some empty_fops)) empty_fops 3)
    as (ok & t' & E & _ & _ & Hok);
    [reflexivity|exact empty_fops_wf|reflexivity|vm_compute; split; discriminate|vm_compute; split; discriminate|
     vm_compute; split; [discriminate|reflexivity]|].
  exists ok, t'. assert (ok = true) as Ek by (vm_compute in E; congruence).
  split; [exact E|]. split; [exact Ek|]. apply (Hok Ek).
Defined.
