(* ===== verification/Kio.v ===== *)
(** * Formatted output (kernel/lib/kio.c, kernel/include/kio.h)

    The printk family.  A character is the number of its byte.  The format
    string is the list of its characters and is followed by a NUL; a variable
    argument is the 64-bit slot it is passed in, and [va_arg] takes the next
    slot.  The strings in memory are a partial function from addresses to the
    characters in front of the NUL.  What a conversion n stores is logged. *)

From Stdlib Require Import Ascii.
From S2P Require Import Prelude StateM.

Local Open Scope Z_scope.

Definition ch (a : ascii) : Z := Z.of_N (N_of_ascii a).
Arguments ch _%_char_scope.

Definition TMP_BUF_SIZE : Z := 128.
Definition PRINTK_BUFFER_SIZE : Z := 512.

(** Arrays of characters on the stack and in buffers. *)
Definition rd (buf : list Z) (i : Z) : outcome Z :=
  if i <? 0 then Fault else deref (buf !! Z.to_nat i).
Definition wr (buf : list Z) (i c : Z) : outcome (list Z) :=
  if (0 <=? i) && (i <? Z.of_nat (length buf)) then Ok (<[Z.to_nat i := c]> buf) else Fault.

(** kio.h: PFILE, with the arguments not yet taken and the stores of the
    conversion n as (address, width in bits, value) *)
Record kst := KSt {
  buffer : list Z;
  size : Z;
  pos : Z;
  count : Z;
  args : list Z;
  stores : list (Z * Z * Z)
}.

Abbreviation km := (ST kst).

(** kio.c: PRINT_ADD_CHAR; false is the jump to the label *)
Definition PRINT_ADD_CHAR (c : Z) : km bool := fun s =>
  if u64 (size s - 1) <=? pos s then Ok (false, s)
  else
    b ← wr (buffer s) (pos s) c;
    Ok (true, KSt b (size s) (u64 (pos s + 1)) (u64 (count s + 1)) (args s) (stores s)).

(** Statements that may jump to the label, in sequence. *)
Definition also (a b : km bool) : km bool := x ← a; if x : bool then b else mret false.
Infix "&?" := also (at level 60, right associativity).

(** Loops around PRINT_ADD_CHAR: over the characters of a string, and
    [n] times the same character. *)
Fixpoint put_chars (l : list Z) : km bool :=
  match l with
  | [] => mret true
  | c :: l => PRINT_ADD_CHAR c &? put_chars l
  end.
Definition put_pad (n c : Z) : km bool := put_chars (replicate (Z.to_nat n) c).

Definition va_arg : km Z := fun s =>
  match args s with
  | [] => Fault
  | a :: l => Ok (a, KSt (buffer s) (size s) (pos s) (count s) l (stores s))
  end.

(** ** Numbers *)

(** kio.c: format_dec; the index of the first digit and the buffer *)
Definition format_dec (n end_ : Z) (tmp : list Z) : outcome (Z * list Z) :=
  while_loop 65 (fun '(n, end_, tmp) =>
    let end_ := end_ - 1 in
    tmp ← wr tmp end_ (ch "0" + n mod 10);
    let n := n / 10 in
    Ok (if negb (n =? 0) then inl (n, end_, tmp) else inr (end_, tmp))) (n, end_, tmp).

(** kio.c: format_oct *)
Definition format_oct (n end_ : Z) (tmp : list Z) : outcome (Z * list Z) :=
  while_loop 65 (fun '(n, end_, tmp) =>
    let end_ := end_ - 1 in
    tmp ← wr tmp end_ (ch "0" + Z.land n 7);
    let n := Z.shiftr n 3 in
    Ok (if negb (n =? 0) then inl (n, end_, tmp) else inr (end_, tmp))) (n, end_, tmp).

(** The strings of digits in format_hex. *)
Definition hex_upper : list Z := ch <$> ["0"; "1"; "2"; "3"; "4"; "5"; "6"; "7"; "8"; "9"; "A"; "B"; "C"; "D"; "E"; "F"]%char.
Definition hex_lower : list Z := ch <$> ["0"; "1"; "2"; "3"; "4"; "5"; "6"; "7"; "8"; "9"; "a"; "b"; "c"; "d"; "e"; "f"]%char.

(** kio.c: format_hex *)
Definition format_hex (n end_ : Z) (upper : bool) (tmp : list Z) : outcome (Z * list Z) :=
  let digits := if upper then hex_upper else hex_lower in
  while_loop 65 (fun '(n, end_, tmp) =>
    let end_ := end_ - 1 in
    c ← rd digits (Z.land n 15);
    tmp ← wr tmp end_ c;
    let n := Z.shiftr n 4 in
    Ok (if negb (n =? 0) then inl (n, end_, tmp) else inr (end_, tmp))) (n, end_, tmp).

Definition FLAG_ALT : Z := Z.shiftl 1 0.
Definition FLAG_ZERO : Z := Z.shiftl 1 1.
Definition FLAG_LEFT : Z := Z.shiftl 1 2.
Definition FLAG_POS : Z := Z.shiftl 1 3.
Definition FLAG_SPACE : Z := Z.shiftl 1 4.
Definition has_flag (flags f : Z) : bool := negb (Z.land flags f =? 0).

Inductive len_mod := LEN_NONE | LEN_HH | LEN_H | LEN_L | LEN_LL | LEN_Z | LEN_T | LEN_J.

(** kio.c: struct fmt_spec *)
Record fmt_spec := FmtSpec { flags : Z; width : Z; prec : Z; lenm : len_mod; conv : Z }.

(** ** The format string *)

Section format.
Variable fmt : list Z.

(** The character at a position; the NUL follows the last one. *)
Definition at_ (p : Z) : km Z := fun s => c ← rd (fmt ++ [0]) p; Ok (c, s).

Definition is_digit (c : Z) : bool := (ch "0" <=? c) && (c <=? ch "9").

(** kio.c: parse_int_or_star, one digit *)
Definition digit_turn : Z * Z -> km (Z * Z + Z * Z) := fun '(val, p) =>
  c ← at_ p;
  mret (if is_digit c then inl (s32 (val * 10 + (c - ch "0")), p + 1) else inr (val, p)).

(** kio.c: parse_int_or_star; the value and the position after it *)
Definition parse_int_or_star (p : Z) : km (Z * Z) :=
  c ← at_ p;
  if c =? ch "*" then a ← va_arg; mret (s32 a, p + 1)
  else st_loop (S (S (length fmt))) digit_turn (0, p).

(** kio.c: parse_fmt_spec, the flags *)
Definition flag_of (c : Z) : option Z :=
  if c =? ch "#" then Some FLAG_ALT
  else if c =? ch "0" then Some FLAG_ZERO
  else if c =? ch "-" then Some FLAG_LEFT
  else if c =? ch "+" then Some FLAG_POS
  else if c =? ch " " then Some FLAG_SPACE
  else None.

Definition flag_turn : Z * Z -> km (Z * Z + Z * Z) := fun '(flags, p) =>
  c ← at_ (p + 1);
  mret (match flag_of c with Some f => inl (Z.lor flags f, p + 1) | None => inr (flags, p + 1) end).
Definition parse_flags (p : Z) : km (Z * Z) := st_loop (S (S (length fmt))) flag_turn (0, p).

(** kio.c: parse_fmt_spec, the length modifier *)
Definition parse_len (p : Z) : km (len_mod * Z) :=
  c ← at_ p;
  if c =? ch "h" then
    c ← at_ (p + 1);
    mret (if c =? ch "h" then (LEN_HH, p + 2) else (LEN_H, p + 1))
  else if c =? ch "l" then
    c ← at_ (p + 1);
    mret (if c =? ch "l" then (LEN_LL, p + 2) else (LEN_L, p + 1))
  else if c =? ch "z" then mret (LEN_Z, p + 1)
  else if c =? ch "t" then mret (LEN_T, p + 1)
  else if c =? ch "j" then mret (LEN_J, p + 1)
  else mret (LEN_NONE, p).

(** kio.c: parse_fmt_spec; the specification and the position of the
    conversion character *)
Definition parse_fmt_spec (p : Z) : km (fmt_spec * Z) :=
  '(fl, p) ← parse_flags p;
  '(w, p) ← parse_int_or_star p;
  let '(fl, w) := if w <? 0 then (Z.lor fl FLAG_LEFT, s32 (- w)) else (fl, w) in
  c ← at_ p;
  '(pr, p) ← (if c =? ch "." then
                '(pr, p) ← parse_int_or_star (p + 1);
                mret (if 0 <=? pr then pr else -1, p)
              else mret (-1, p));
  '(lm, p) ← parse_len p;
  c ← at_ p;
  mret (FmtSpec fl w pr lm c, p).

End format.

(** ** Integers *)

(** The characters in front of the NUL of a buffer. *)
Fixpoint cstr (buf : list Z) : outcome (list Z) :=
  match buf with
  | [] => Fault
  | c :: buf => if c =? 0 then Ok [] else l ← cstr buf; Ok (c :: l)
  end.

Definition is_hex (c : Z) : bool := (c =? ch "x") || (c =? ch "X").

(** kio.c: prepare_number; digits_buf with the digits and the prefix, [None]
    when has_prefix is false.  [tmp] and [digits_buf] are the two arrays with
    whatever the stack holds. *)
Definition prepare_number (abs_val conv prec flags : Z) (tmp digits_buf : list Z) : outcome (list Z * option (list Z)) :=
  let zero_val := abs_val =? 0 in
  let upper := conv =? ch "X" in
  let end_ := TMP_BUF_SIZE - 1 in
  tmp ← wr tmp end_ 0;
  '(raw, tmp) ← (if conv =? ch "o" then format_oct abs_val end_ tmp
                 else if is_hex conv then format_hex abs_val end_ upper tmp
                 else format_dec abs_val end_ tmp);
  let min_digits := if 0 <=? prec then prec else 1 in
  digits_buf ←
    (if (prec =? 0) && zero_val then wr digits_buf 0 0
     else
       let raw_len := end_ - raw in
       let zeros := Z.max 0 (min_digits - raw_len) in
       digits_buf ← for_up (Z.to_nat zeros) 0 (fun i b => wr b i (ch "0")) digits_buf;
       digits_buf ← for_up (Z.to_nat raw_len) 0 (fun i b => c ← rd tmp (raw + i); wr b (zeros + i) c) digits_buf;
       wr digits_buf (zeros + raw_len) 0);
  if has_flag flags FLAG_ALT && ((conv =? ch "o") || is_hex conv) then
    if conv =? ch "o" then
      if zero_val && (prec =? 0) then
        digits_buf ← wr digits_buf 0 (ch "0");
        digits_buf ← wr digits_buf 1 0;
        Ok (digits_buf, None)
      else
        c ← rd digits_buf 0;
        Ok (digits_buf, if negb (c =? ch "0") then Some [ch "0"] else None)
    else if negb zero_val then Ok (digits_buf, Some [ch "0"; if upper then ch "X" else ch "x"])
    else Ok (digits_buf, None)
  else Ok (digits_buf, None).

(** kio.c: output_int *)
Definition output_int (sign_char : Z) (prefix : option (list Z)) (digits_buf : list Z) (width flags prec : Z) : km unit := fun s =>
  digits ← cstr digits_buf;
  let prefix_chars := default [] prefix in
  let sign := if negb (sign_char =? 0) then PRINT_ADD_CHAR sign_char else mret true in
  let sign_len := if negb (sign_char =? 0) then 1 else 0 in
  let content_len := sign_len + Z.of_nat (length prefix_chars) + Z.of_nat (length digits) in
  let pad := Z.max 0 (width - content_len) in
  let zero_pad := has_flag flags FLAG_ZERO && (prec <? 0) in
  (_ ← (if width <=? content_len then sign &? put_chars prefix_chars &? put_chars digits
        else if has_flag flags FLAG_LEFT then sign &? put_chars prefix_chars &? put_chars digits &? put_pad pad (ch " ")
        else if zero_pad then sign &? put_chars prefix_chars &? put_pad pad (ch "0") &? put_chars digits
        else put_pad pad (ch " ") &? sign &? put_chars prefix_chars &? put_chars digits);
   mret tt) s.

(** ** Conversions *)

(** kio.c: vfprintk, the value of a signed conversion *)
Definition get_signed (m : len_mod) : km Z :=
  a ← va_arg;
  mret (match m with
        | LEN_HH => to_signed 8 (s32 a)
        | LEN_H => s16 (s32 a)
        | LEN_NONE => s32 a
        | LEN_L | LEN_LL | LEN_Z | LEN_T | LEN_J => s64 a
        end).

(** kio.c: vfprintk, the value of an unsigned conversion *)
Definition get_unsigned (m : len_mod) : km Z :=
  a ← va_arg;
  mret (match m with
        | LEN_HH => u8 (u32 a)
        | LEN_H => u16 (u32 a)
        | LEN_NONE => u32 a
        | LEN_L | LEN_LL | LEN_Z | LEN_J => u64 a
        | LEN_T => u64 (s64 a)
        end).

(** The width in bits of what the conversion n stores. *)
Definition len_bits (m : len_mod) : Z :=
  match m with LEN_HH => 8 | LEN_H => 16 | LEN_NONE => 32 | _ => 64 end.

Section printing.
Context (str_at : Z -> option (list Z)) (tmp digits_buf : list Z).

Definition is_int_conv (c : Z) : bool :=
  (c =? ch "d") || (c =? ch "i") || (c =? ch "u") || (c =? ch "o") || (c =? ch "x") || (c =? ch "X").

(** kio.c: vfprintk, an integer conversion *)
Definition print_int (spec : fmt_spec) : km bool :=
  let is_signed := (conv spec =? ch "d") || (conv spec =? ch "i") in
  '(abs_val, is_negative) ←
    (if is_signed then
       val ← get_signed (lenm spec);
       mret (if val <? 0 then (u64 (- val), true) else (u64 val, false))
     else val ← get_unsigned (lenm spec); mret (val, false));
  let sign_char :=
    if is_signed then
      if is_negative : bool then ch "-"
      else if has_flag (flags spec) FLAG_POS then ch "+"
      else if has_flag (flags spec) FLAG_SPACE then ch " "
      else 0
    else 0 in
  '(digits, prefix) ← (fun s => x ← prepare_number abs_val (conv spec) (prec spec) (flags spec) tmp digits_buf; Ok (x, s));
  _ ← output_int sign_char prefix digits (width spec) (flags spec) (prec spec);
  mret true.

Definition null_text : list Z := ch <$> ["("; "n"; "u"; "l"; "l"; ")"]%char.

(** A conversion with spaces on its left or right: s and c *)
Definition put_field (spec : fmt_spec) (text : list Z) : km bool :=
  let len := Z.of_nat (length text) in
  let padded := len <? width spec in
  let left := has_flag (flags spec) FLAG_LEFT in
  (if padded && negb left then put_pad (width spec - len) (ch " ") else mret true) &?
  put_chars text &?
  (if padded && left then put_pad (width spec - len) (ch " ") else mret true).

(** kio.c: vfprintk, a string *)
Definition print_str (spec : fmt_spec) : km bool :=
  a ← va_arg;
  t ← (if a =? 0 then mret null_text else fun s => t ← deref (str_at a); Ok (t, s));
  let len := if 0 <=? prec spec then Z.min (prec spec) (Z.of_nat (length t)) else Z.of_nat (length t) in
  put_field spec (take (Z.to_nat len) t).

(** kio.c: vfprintk, a pointer *)
Definition print_ptr : km bool :=
  val ← va_arg;
  PRINT_ADD_CHAR (ch "0") &? PRINT_ADD_CHAR (ch "x") &?
  (let end_ := TMP_BUF_SIZE - 1 in
   '(pad, digits) ← (fun s =>
     tmp ← wr tmp end_ 0;
     '(pstart, tmp) ← format_hex val end_ false tmp;
     digits ← cstr (drop (Z.to_nat pstart) tmp);
     Ok ((Z.max 0 (2 * 8 - (end_ - pstart)), digits), s));
   put_pad pad (ch "0") &? put_chars digits).

(** kio.c: vfprintk, the conversion n *)
Definition print_n (spec : fmt_spec) : km bool :=
  a ← va_arg;
  _ ← st_modify (fun s => KSt (buffer s) (size s) (pos s) (count s) (args s)
        (stores s ++ [(a, len_bits (lenm spec), to_signed (len_bits (lenm spec)) (s32 (count s)))]));
  mret true.

(** kio.c: vfprintk, one conversion; false ends the output *)
Definition print_conv (spec : fmt_spec) : km bool :=
  let c := conv spec in
  if c =? ch "%" then PRINT_ADD_CHAR (ch "%")
  else if is_int_conv c then print_int spec
  else if c =? ch "s" then print_str spec
  else if c =? ch "c" then a ← va_arg; put_field spec [u8 a]
  else if c =? ch "p" then print_ptr
  else if c =? ch "n" then print_n spec
  else PRINT_ADD_CHAR (ch "%") &? PRINT_ADD_CHAR c.

(** kio.c: vfprintk, the scan of the format string *)
Definition fmt_turn (fmt : list Z) (p : Z) : km (Z + unit) :=
  c ← at_ fmt p;
  if c =? 0 then mret (inr tt)
  else if negb (c =? ch "%") then
    ok ← PRINT_ADD_CHAR c;
    mret (if ok : bool then inl (p + 1) else inr tt)
  else
    '(spec, p) ← parse_fmt_spec fmt p;
    ok ← print_conv spec;
    mret (if ok : bool then inl (p + 1) else inr tt).

(** kio.c: vfprintk *)
Definition vfprintk (fmt : list Z) : km Z :=
  full ← st_gets (fun s => u64 (size s - 1) <=? pos s);
  if full : bool then st_gets (fun s => s32 (count s))
  else
    _ ← st_loop (S (length fmt)) (fmt_turn fmt) 0;
    st_gets (fun s => s32 (count s)).

(** kio.c: vsnprintk; the result, the buffer and the stores *)
Definition vsnprintk (buf : list Z) (size : Z) (fmt args : list Z) : outcome (Z * list Z * list (Z * Z * Z)) :=
  if size =? 0 then Ok (0, buf, [])
  else
    '(_, s) ← vfprintk fmt (KSt buf size 0 0 args []);
    b ← wr (buffer s) (pos s) 0;
    Ok (s32 (count s), b, stores s).

(** The static state: the two backends, 0 is NULL. *)
Record print_backend := PrintBackend { backend : Z; panic_backend : Z }.

(** kio.c: kio_register_backend *)
Definition kio_register_backend (b p : Z) (_ : print_backend) : print_backend := PrintBackend b p.

(** kio.c: vprintk; what is handed to the backend.  [buf] is the array on the
    stack *)
Definition vprintk (buf fmt args : list Z) (pb : print_backend) : outcome (option (Z * kst)) :=
  '(_, s) ← vfprintk fmt (KSt buf PRINTK_BUFFER_SIZE 0 0 args []);
  Ok (if negb (backend pb =? 0) then Some (backend pb, s) else None).

(** kio.c: vprintp; what is handed to the panic backend before the processor
    halts *)
Definition vprintp (buf fmt args : list Z) (pb : print_backend) : outcome (option (Z * kst)) :=
  '(_, s) ← vfprintk fmt (KSt buf PRINTK_BUFFER_SIZE 0 0 args []);
  Ok (if negb (panic_backend pb =? 0) then Some (panic_backend pb, s) else None).

End printing.
