(* ===== verification/KioSpec.v ===== *)
(** * What formatted output shows

    A format string is the text of a list of directives; every directive has
    the arguments it takes and the characters it stands for, given by plain
    functions on lists: digits of a number in a base, sign, prefix and padding.
    The printk functions of Kio.v are proved to show those characters, cut to
    the size of the buffer. *)

From Stdlib Require Import Ascii.
From S2P Require Import Prelude StateM Kio.

Local Open Scope Z_scope.

(** ** Digits *)

(** The digits of a number in a base, the most significant first. *)
Fixpoint digs (fuel : nat) (b n : Z) : list Z :=
  match fuel with
  | O => []
  | S fuel => if n / b =? 0 then [n mod b] else digs fuel b (n / b) ++ [n mod b]
  end.
Definition digits (b n : Z) : list Z := digs 65 b n.

(** The number that digits denote. *)
Definition value (b : Z) (l : list Z) : Z := foldl (fun a d => a * b + d) 0 l.

Lemma value_snoc b l d : value b (l ++ [d]) = value b l * b + d.
Proof. unfold value. by rewrite foldl_app. Qed.

Lemma digs_length fuel b n : (length (digs fuel b n) <= fuel)%nat.
Proof.
  revert n. induction fuel as [|fuel IH]; intros n; cbn [digs]; [done|].
  destruct (n / b =? 0); cbn [length]; [lia|]. rewrite length_app. cbn. specialize (IH (n / b)). lia.
Qed.

Lemma digs_value fuel b n : 2 <= b -> 0 <= n < b ^ Z.of_nat fuel ->
  value b (digs fuel b n) = n /\ Forall (fun d => 0 <= d < b) (digs fuel b n) /\
  (n <> 0 -> exists d l, digs fuel b n = d :: l /\ d <> 0).
Proof.
  intros Hb. revert n. induction fuel as [|fuel IH]; intros n Hn; cbn [digs].
  { change (b ^ Z.of_nat 0) with 1 in Hn. split_and!; [cbn; lia|done|lia]. }
  assert (0 <= n mod b < b) as Hm by (apply Z.mod_pos_bound; lia).
  pose proof (Z.div_mod n b ltac:(lia)) as Hd.
  destruct (Z.eqb_spec (n / b) 0) as [E|E].
  - rewrite E in Hd. split_and!; [cbn; lia|by constructor|]. intros Hne. exists (n mod b), []. split; [done|lia].
  - destruct (IH (n / b)) as (Hv & Hf & Hh).
    { split; [apply Z.div_pos; lia|]. apply Z.div_lt_upper_bound; [lia|].
      rewrite Nat2Z.inj_succ, Z.pow_succ_r in Hn by lia. lia. }
    split_and!; [rewrite value_snoc, Hv; lia|apply Forall_app; split; [done|by constructor]|].
    intros _. destruct (Hh E) as (d & l & -> & Hne). by exists d, (l ++ [n mod b]).
Qed.

Lemma digits_length b n : (length (digits b n) <= 65)%nat.
Proof. apply digs_length. Qed.

Lemma fits_digits b n : 2 <= b -> fits 64 n -> 0 <= n < b ^ Z.of_nat 65.
Proof.
  unfold fits. intros Hb Hn. assert (2 ^ Z.of_nat 65 <= b ^ Z.of_nat 65) by (apply Z.pow_le_mono_l; lia).
  change (2 ^ Z.of_nat 65) with (2 * 2 ^ 64) in *. lia.
Qed.

Lemma digits_nonempty b n : digits b n <> [].
Proof. unfold digits. generalize 64%nat as k. intros k. cbn [digs]. destruct (_ =? 0); [done|]. by destruct (digs k b (n / b)). Qed.

(** ** Arrays *)

Lemma wr_Ok buf i c : (i < length buf)%nat -> wr buf (Z.of_nat i) c = Ok (<[i := c]> buf).
Proof.
  intros Hi. unfold wr. rewrite (proj2 (Z.leb_le 0 _)), (proj2 (Z.ltb_lt _ _)) by lia. cbn [andb]. by rewrite Nat2Z.id.
Qed.

Lemma rd_Ok buf i c : buf !! i = Some c -> rd buf (Z.of_nat i) = Ok c.
Proof. intros E. unfold rd. rewrite (proj2 (Z.ltb_ge _ _)) by lia. by rewrite Nat2Z.id, E. Qed.

(** Writing a run of characters one after the other. *)
Lemma fill_run (body : Z -> list Z -> outcome (list Z)) (o : nat) l : forall (i : nat) buf,
  (o + i + length l <= length buf)%nat ->
  (forall j c b, l !! j = Some c -> body (Z.of_nat (i + j)) b = wr b (Z.of_nat (o + (i + j))) c) ->
  for_up (length l) (Z.of_nat i) body buf = Ok (take (o + i) buf ++ l ++ drop (o + i + length l) buf).
Proof.
  induction l as [|c l IH]; intros i buf Hl Hb; cbn [length for_up].
  { by rewrite Nat.add_0_r, app_nil_l, take_drop. }
  cbn [length] in Hl. pose proof (Hb 0%nat c buf eq_refl) as E0. rewrite Nat.add_0_r in E0.
  rewrite E0, wr_Ok, Ok_bind by lia.
  replace (Z.of_nat i + 1) with (Z.of_nat (S i)) by lia. rewrite IH.
  - f_equal. rewrite drop_insert_lt by lia. replace (o + S i)%nat with (S (o + i)) by lia.
    rewrite (take_S_r _ _ c) by (apply list_lookup_insert_eq; lia).
    rewrite take_insert_ge by lia. rewrite <- app_assoc. cbn [app]. do 4 f_equal. lia.
  - rewrite length_insert. lia.
  - intros j d b E. replace (S i + j)%nat with (i + S j)%nat by lia. by apply Hb.
Qed.

(** The digits a formatting loop leaves in front of [e]. *)
Lemma format_run (body : Z * Z * list Z -> outcome (Z * Z * list Z + Z * list Z)) b (dg : Z -> Z) : 2 <= b ->
  (forall n e tmp, 0 <= n -> body (n, e, tmp) =
     (tmp ← wr tmp (e - 1) (dg (n mod b)); Ok (if negb (n / b =? 0) then inl (n / b, e - 1, tmp) else inr (e - 1, tmp)))) ->
  forall fuel n (e : nat) tmp, 0 <= n < b ^ Z.of_nat fuel -> (0 < fuel)%nat -> (fuel <= e <= length tmp)%nat ->
  while_loop fuel body (n, Z.of_nat e, tmp) =
    Ok (Z.of_nat (e - length (digs fuel b n)),
        take (e - length (digs fuel b n)) tmp ++ (dg <$> digs fuel b n) ++ drop e tmp).
Proof.
  intros Hb Hbody. induction fuel as [|fuel IH]; intros n e tmp Hn H0 He; [lia|].
  cbn [while_loop digs]. rewrite Hbody by lia.
  replace (Z.of_nat e - 1) with (Z.of_nat (e - 1)) by lia. rewrite wr_Ok, Ok_bind by lia.
  assert (<[(e - 1)%nat := dg (n mod b)]> tmp = take (e - 1) tmp ++ [dg (n mod b)] ++ drop e tmp) as Ei.
  { rewrite insert_take_drop by lia. do 3 f_equal. lia. }
  destruct (Z.eqb_spec (n / b) 0) as [E|E]; cbn [negb]; rewrite Ok_bind.
  - by rewrite Ei.
  - assert (0 <= n / b < b ^ Z.of_nat fuel) as Hd.
    { split; [apply Z.div_pos; lia|]. apply Z.div_lt_upper_bound; [lia|].
      rewrite Nat2Z.inj_succ, Z.pow_succ_r in Hn by lia. lia. }
    assert (fuel <> 0)%nat as Hf by (intros ->; change (b ^ Z.of_nat 0) with 1 in Hd; lia).
    pose proof (digs_length fuel b (n / b)) as Hl.
    rewrite IH by (rewrite ?length_insert; lia). rewrite length_app. cbn [length].
    replace (e - 1 - length (digs fuel b (n / b)))%nat with (e - (length (digs fuel b (n / b)) + 1))%nat by lia.
    f_equal. f_equal. rewrite take_insert_ge by lia. f_equal. rewrite fmap_app, <- app_assoc. f_equal.
    rewrite Ei, drop_app_ge by (rewrite length_take; lia). rewrite length_take.
    replace (e - 1 - _)%nat with 0%nat by lia. done.
Qed.

(** The characters of digits. *)
Definition dec_char (d : Z) : Z := ch "0" + d.
Definition hex_char (upper : bool) (d : Z) : Z :=
  if d <? 10 then ch "0" + d else (if upper then ch "A" else ch "a") + (d - 10).

Lemma hex_table (upper : bool) d : 0 <= d < 16 -> rd (if upper then hex_upper else hex_lower) d = Ok (hex_char upper d).
Proof.
  intros Hd. set (P := fun d => rd (if upper then hex_upper else hex_lower) d = Ok (hex_char upper d)).
  assert (Forall P (seqZ 0 16)) as HF by (unfold P; destruct upper; repeat constructor).
  rewrite Forall_forall in HF. apply (HF d), elem_of_seqZ. lia.
Qed.

Section formats.
Context (n : Z) (e : nat) (tmp : list Z) (Hn : fits 64 n) (He : (65 <= e <= length tmp)%nat).

Lemma format_dec_spec : format_dec n (Z.of_nat e) tmp =
  Ok (Z.of_nat (e - length (digits 10 n)), take (e - length (digits 10 n)) tmp ++ (dec_char <$> digits 10 n) ++ drop e tmp).
Proof. apply (format_run _ 10 dec_char); [lia|done|by apply fits_digits|lia|done]. Qed.

Lemma format_oct_spec : format_oct n (Z.of_nat e) tmp =
  Ok (Z.of_nat (e - length (digits 8 n)), take (e - length (digits 8 n)) tmp ++ (dec_char <$> digits 8 n) ++ drop e tmp).
Proof.
  apply (format_run _ 8 dec_char); [lia| |by apply fits_digits|lia|done].
  intros m f t Hm. change 7 with (Z.ones 3). by rewrite Z.shiftr_div_pow2, Z.land_ones by lia.
Qed.

Lemma format_hex_spec upper : format_hex n (Z.of_nat e) upper tmp =
  Ok (Z.of_nat (e - length (digits 16 n)), take (e - length (digits 16 n)) tmp ++ (hex_char upper <$> digits 16 n) ++ drop e tmp).
Proof.
  apply (format_run _ 16 (hex_char upper)); [lia| |by apply fits_digits|lia|done].
  intros m f t Hm. change 15 with (Z.ones 4). rewrite Z.shiftr_div_pow2, Z.land_ones by lia. change (2 ^ 4) with 16.
  rewrite hex_table by (apply Z.mod_pos_bound; lia). done.
Qed.
End formats.

(** ** Numbers as text *)

Definition base_of (c : Z) : Z := if c =? ch "o" then 8 else if is_hex c then 16 else 10.
Definition digit_char (c d : Z) : Z := if is_hex c then hex_char (c =? ch "X") d else dec_char d.
Definition plain_digits (c v : Z) : list Z := digit_char c <$> digits (base_of c) v.

(** The digits for a conversion [c] with at least [P] of them (one when no
    precision is given); a zero with precision 0 has no digits, except that
    the alternative form of octal numbers always shows one. *)
Definition number_text (c : Z) (alt : bool) (P : option Z) (v : Z) : list Z :=
  if (v =? 0) && bool_decide (P = Some 0) then if alt && (c =? ch "o") then [ch "0"] else []
  else replicate (Z.to_nat (default 1 P - Z.of_nat (length (plain_digits c v)))) (ch "0") ++ plain_digits c v.

(** The prefix of the alternative form. *)
Definition number_prefix (c : Z) (alt : bool) (P : option Z) (v : Z) : list Z :=
  if negb alt then []
  else if c =? ch "o" then if bool_decide (head (number_text c alt P v) = Some (ch "0")) then [] else [ch "0"]
  else if is_hex c then if v =? 0 then [] else [ch "0"; if c =? ch "X" then ch "X" else ch "x"]
  else [].

Definition prec_ok (P : option Z) : Prop := match P with Some p => 0 <= p < TMP_BUF_SIZE | None => True end.

Lemma is_hex_o c : c = ch "o" -> is_hex c = false.
Proof. by intros ->. Qed.

Lemma plain_digits_bound c v : (length (plain_digits c v) <= 65)%nat.
Proof. unfold plain_digits. rewrite length_fmap. apply digits_length. Qed.

Lemma digit_char_nonzero c v : fits 64 v -> Forall (fun x => x <> 0) (plain_digits c v).
Proof.
  intros Hv. apply Forall_fmap. assert (2 <= base_of c) as Hb by (unfold base_of; split_ifs; lia).
  eapply Forall_impl; [apply (digs_value 65 (base_of c) v Hb), fits_digits; done|].
  intros d Hd. cbn beta in Hd. cbn [compose]. clear Hb. unfold digit_char, hex_char, dec_char, compose. change (ch "0") with 48. change (ch "A") with 65. change (ch "a") with 97.
  split_ifs; zbool; lia.
Qed.

(** The formatting step leaves the digits in front of the last cell. *)
Lemma format_conv c v tmp : fits 64 v -> length tmp = 128%nat ->
  exists tmp', (if c =? ch "o" then format_oct v 127 tmp
                else if is_hex c then format_hex v 127 (c =? ch "X") tmp else format_dec v 127 tmp)
             = Ok (Z.of_nat (127 - length (plain_digits c v)), tmp') /\
    drop (127 - length (plain_digits c v)) tmp' = plain_digits c v ++ drop 127 tmp.
Proof.
  intros Hv Ht. pose proof (plain_digits_bound c v) as Hl.
  assert (forall T, (length T <= 65)%nat -> drop (127 - length T) (take (127 - length T) tmp ++ T ++ drop 127 tmp) = T ++ drop 127 tmp) as Hdrop.
  { intros T HT. rewrite drop_app_length'; [done|]. rewrite length_take. lia. }
  unfold plain_digits, digit_char, base_of. change 127 with (Z.of_nat 127).
  destruct (Z.eqb_spec c (ch "o")) as [->|Ho]; [|destruct (is_hex c)];
    rewrite ?format_oct_spec, ?format_hex_spec, ?format_dec_spec by (done || lia);
    eexists; (split; [by rewrite length_fmap|]); rewrite length_fmap;
    [pose proof (Hdrop (dec_char <$> digits 8 v)) as E|pose proof (Hdrop (hex_char (c =? ch "X") <$> digits 16 v)) as E|
     pose proof (Hdrop (dec_char <$> digits 10 v)) as E]; rewrite length_fmap in E; apply E, digits_length.
Qed.

Lemma cstr_text t rest : Forall (fun x => x <> 0) t -> cstr (t ++ 0 :: rest) = Ok t.
Proof.
  induction 1 as [|c t Hc _ IH]; cbn [cstr app]; [done|]. rewrite (proj2 (Z.eqb_neq c 0) Hc), IH. done.
Qed.

(** Zeros, digits and the NUL in digits_buf. *)
Lemma fill_digits z (T : list Z) raw tmp db : (z + length T < length db)%nat ->
  (forall j c, T !! j = Some c -> rd tmp (raw + Z.of_nat j) = Ok c) ->
  (b ← for_up z 0 (fun i b => wr b i (ch "0")) db;
   b ← for_up (length T) 0 (fun i b => c ← rd tmp (raw + i); wr b (Z.of_nat z + i) c) b;
   wr b (Z.of_nat z + Z.of_nat (length T)) 0) = Ok (replicate z (ch "0") ++ T ++ 0 :: drop (S (z + length T)) db).
Proof.
  intros Hl Hr. pose proof (fill_run (fun i b => wr b i (ch "0")) 0 (replicate z (ch "0")) 0 db) as E1.
  rewrite length_replicate in E1. change (Z.of_nat 0) with 0 in E1. rewrite E1; [|lia|].
  2: { intros j c b [-> _]%lookup_replicate. done. }
  rewrite Ok_bind. cbn [Nat.add]. rewrite take_0, app_nil_l.
  pose proof (fill_run (fun i b => c ← rd tmp (raw + i); wr b (Z.of_nat z + i) c) z T 0 (replicate z (ch "0") ++ drop z db)) as E2.
  change (Z.of_nat 0) with 0 in E2. rewrite Nat.add_0_r in E2. rewrite E2.
  - rewrite Ok_bind, take_app_length' by (by rewrite length_replicate).
    rewrite drop_app_ge by (rewrite length_replicate; lia). rewrite length_replicate, drop_drop.
    rewrite <- Nat2Z.inj_add, wr_Ok by (rewrite !length_app, length_replicate, length_drop; lia). f_equal.
    rewrite insert_app_r_alt by (rewrite length_replicate; lia). rewrite length_replicate.
    rewrite insert_app_r_alt by lia. do 2 f_equal.
    replace (z + (z + length T - z))%nat with (z + length T)%nat by lia.
    replace (z + length T - z - length T)%nat with 0%nat by lia.
    destruct (lookup_lt_is_Some_2 db (z + length T)) as [x Ex]; [lia|]. by rewrite (drop_S _ _ _ Ex).
  - rewrite length_app, length_replicate, length_drop. lia.
  - intros j c b E. rewrite Nat.add_0_l. rewrite (Hr j c E), Ok_bind. by rewrite Nat2Z.inj_add.
Qed.

(** A run of writes that leaves the array. *)
Lemma fill_fault (body : Z -> list Z -> outcome (list Z)) (o : nat) n : forall (i : nat) buf,
  (o + i <= length buf < o + i + n)%nat ->
  (forall j b, (j < n)%nat -> exists c, body (Z.of_nat (i + j)) b = wr b (Z.of_nat (o + (i + j))) c) ->
  for_up n (Z.of_nat i) body buf = Fault.
Proof.
  induction n as [|n IH]; intros i buf Hl Hb; [lia|]. cbn [for_up].
  destruct (Hb 0%nat buf) as [c E]; [lia|]. rewrite Nat.add_0_r in E. rewrite E.
  destruct (Nat.eq_dec (o + i) (length buf)) as [He|Hne].
  - unfold wr. rewrite (proj2 (Z.ltb_ge _ _)) by lia. by rewrite andb_false_r.
  - rewrite wr_Ok, Ok_bind by lia. replace (Z.of_nat i + 1) with (Z.of_nat (S i)) by lia. apply IH.
    + rewrite length_insert. lia.
    + intros j b Hj. replace (S i + j)%nat with (i + S j)%nat by lia. apply Hb. lia.
Qed.

Lemma fill_digits_overrun z (T : list Z) raw tmp db : (length db <= z + length T)%nat ->
  (forall j c, T !! j = Some c -> rd tmp (raw + Z.of_nat j) = Ok c) ->
  (b ← for_up z 0 (fun i b => wr b i (ch "0")) db;
   b ← for_up (length T) 0 (fun i b => c ← rd tmp (raw + i); wr b (Z.of_nat z + i) c) b;
   wr b (Z.of_nat z + Z.of_nat (length T)) 0) = Fault.
Proof.
  intros Hl Hr. destruct (Nat.le_gt_cases z (length db)) as [Hz|Hz].
  2: { pose proof (fill_fault (fun i b => wr b i (ch "0")) 0 z 0 db) as E. change (Z.of_nat 0) with 0 in E.
       rewrite E; [done|lia|]. intros j b _. by exists (ch "0"). }
  pose proof (fill_run (fun i b => wr b i (ch "0")) 0 (replicate z (ch "0")) 0 db) as E1.
  rewrite length_replicate in E1. change (Z.of_nat 0) with 0 in E1. rewrite E1; [|lia|].
  2: { intros j c b [-> _]%lookup_replicate. done. }
  rewrite Ok_bind. cbn [Nat.add]. rewrite take_0, app_nil_l. set (b1 := replicate z (ch "0") ++ drop z db).
  assert (length b1 = length db) as Hb1 by (unfold b1; rewrite length_app, length_replicate, length_drop; lia).
  set (body := fun i b => c ← rd tmp (raw + i); wr b (Z.of_nat z + i) c).
  assert (forall j c b, T !! j = Some c -> body (Z.of_nat (0 + j)) b = wr b (Z.of_nat (z + (0 + j))) c) as Hbody.
  { intros j c b E. unfold body. rewrite Nat.add_0_l, (Hr j c E), Ok_bind. by rewrite Nat2Z.inj_add. }
  destruct (Nat.eq_dec (length db) (z + length T)) as [He|Hne].
  - pose proof (fill_run body z T 0 b1) as E2. change (Z.of_nat 0) with 0 in E2. rewrite E2; [|lia|done].
    rewrite Ok_bind. unfold wr. rewrite (proj2 (Z.ltb_ge _ _)); [by rewrite andb_false_r|].
    rewrite !length_app, length_take, length_drop. lia.
  - pose proof (fill_fault body z (length T) 0 b1) as E2. change (Z.of_nat 0) with 0 in E2. rewrite E2; [done|lia|].
    intros j b Hj. destruct (lookup_lt_is_Some_2 T j Hj) as [c Ec]. exists c. by apply Hbody.
Qed.

Lemma prepare_number_spec v c alt P fl tmp db : fits 64 v -> prec_ok P -> length tmp = 128%nat -> length db = 128%nat ->
  has_flag fl FLAG_ALT = alt ->
  exists db' pre, prepare_number v c (default (-1) P) fl tmp db = Ok (db', pre) /\
    default [] pre = number_prefix c alt P v /\ cstr db' = Ok (number_text c alt P v).
Proof.
  intros Hv HP Ht Hd Hfl. unfold prepare_number. rewrite Hfl. change (TMP_BUF_SIZE - 1) with (Z.of_nat 127).
  rewrite wr_Ok, Ok_bind by lia. change (Z.of_nat 127) with 127.
  destruct (format_conv c v (<[127%nat := 0]> tmp) Hv) as (tmp' & -> & Hraw); [by rewrite length_insert|].
  rewrite Ok_bind. pose proof (plain_digits_bound c v) as Hl. set (T := plain_digits c v) in *.
  assert ((default (-1) P =? 0) = bool_decide (P = Some 0)) as Ep.
  { destruct P as [p|]; cbn; [|done]. destruct (Z.eqb_spec p 0) as [->|]; [done|]. rewrite bool_decide_false; [done|congruence]. }
  assert ((if 0 <=? default (-1) P then default (-1) P else 1) = default 1 P) as Em.
  { destruct P as [p|]; cbn in HP |- *; [|done]. by rewrite (proj2 (Z.leb_le 0 p)) by lia. }
  rewrite Ep, Em, (andb_comm (bool_decide _) (v =? 0)). unfold number_prefix, number_text. fold T.
  destruct ((v =? 0) && bool_decide (P = Some 0)) eqn:Ez.
  - apply andb_true_iff in Ez as [Ev Eb]. rewrite Ev.
    destruct db as [|x [|y db]]; [done|done|].
    rewrite (wr_Ok _ 0), Ok_bind by (cbn; lia). cbn [insert list_insert].
    destruct alt; [|by eexists _, _]. cbn [andb negb].
    destruct (c =? ch "o") eqn:Eo; [|destruct (is_hex c); by eexists _, _].
    cbn [orb]. rewrite (wr_Ok _ 0), Ok_bind by (cbn; lia).
    rewrite (wr_Ok _ 1), Ok_bind by (cbn; lia). by eexists _, _.
  - set (z := Z.to_nat (default 1 P - Z.of_nat (length T))).
    assert (z + length T < 128)%nat as Hzl by (unfold z; destruct P as [p|]; cbn [default from_option id prec_ok] in HP |- *; unfold TMP_BUF_SIZE in *; lia).
    replace (127 - Z.of_nat (127 - length T)) with (Z.of_nat (length T)) by lia. rewrite Nat2Z.id.
    replace (Z.max 0 (default 1 P - Z.of_nat (length T))) with (Z.of_nat z) by lia. rewrite Nat2Z.id.
    pose proof (fill_digits z T (Z.of_nat (127 - length T)) tmp' db) as E. rewrite E, Ok_bind; [|lia|].
    2: { intros j d Ej. rewrite <- Nat2Z.inj_add. apply rd_Ok. rewrite <- lookup_drop, Hraw. by apply lookup_app_l_Some. }
    assert (cstr (replicate z (ch "0") ++ T ++ 0 :: drop (S (z + length T)) db) = Ok (replicate z (ch "0") ++ T)) as Hc.
    { rewrite app_assoc. apply cstr_text, Forall_app. split; [by apply Forall_replicate|by apply digit_char_nonzero]. }
    destruct alt; [|by eexists _, _]. cbn [andb negb].
    destruct (c =? ch "o") eqn:Eo; cbn [orb].
    + assert (exists d l, replicate z (ch "0") ++ T = d :: l) as (d & l & Edl).
      { destruct (replicate z (ch "0") ++ T) as [|d l] eqn:EE; [|eauto]. apply app_nil in EE as [_ EE].
        apply fmap_nil_inv in EE. by apply digits_nonempty in EE. }
      rewrite app_assoc, Edl in *. cbn [head app].
      rewrite (rd_Ok _ 0 d), Ok_bind by done.
      eexists _, _. split; [done|]. split; [|done].
      destruct (Z.eqb_spec d (ch "0")) as [->|Hne]; cbn [negb default]; [by rewrite bool_decide_true|].
      rewrite bool_decide_false; [done|congruence].
    + destruct (is_hex c); [|by eexists _, _]. destruct (v =? 0); cbn [negb]; by eexists _, _.
Qed.

(** ** The buffer *)

Section buffer_text.
Context (buf : list Z) (sz : Z) (Hsz : 1 <= sz <= Z.of_nat (length buf)) (Hsmall : sz < 2 ^ 31).

(** At most one character less than the size is shown. *)
Definition room : nat := Z.to_nat (sz - 1).

(** The state after [out] has been sent to the stream: as much of it as there
    is room for is in the buffer, and the rest of the buffer is untouched. *)
Record shown (out : list Z) (s : kst) : Prop := {
  sh_size : size s = sz;
  sh_buffer : buffer s = take room out ++ drop (length (take room out)) buf;
  sh_pos : pos s = Z.of_nat (length (take room out));
  sh_count : count s = Z.of_nat (length (take room out))
}.

(** A statement that sends [l] and takes no argument; it may give up only
    when the buffer is full. *)
Definition emits (m : km bool) (l : list Z) : Prop := forall out s, shown out s ->
  exists b s', m s = Ok (b, s') /\ shown (out ++ l) s' /\ args s' = args s /\ stores s' = stores s /\
    (b = false -> (room < length (out ++ l))%nat).

Lemma take_full (out l : list Z) : (room < length out)%nat -> take room (out ++ l) = take room out.
Proof. intros Hl. apply take_app_le. lia. Qed.

Lemma shown_more out l s : (room < length out)%nat -> shown out s -> shown (out ++ l) s.
Proof. intros Hl [? ? ? ?]. split; by rewrite ?take_full. Qed.

Lemma emits_char c : emits (PRINT_ADD_CHAR c) [c].
Proof.
  intros out s [Hs Hb Hp Hc]. unfold PRINT_ADD_CHAR. rewrite Hs, wrap_small by (unfold fits; lia).
  rewrite Hp, length_take. destruct (Nat.lt_ge_cases (length out) room) as [Hl|Hl].
  - rewrite (proj2 (Z.leb_gt _ _)) by (unfold room in *; lia). rewrite Nat.min_r by lia.
    assert (take room (out ++ [c]) = out ++ [c]) as E1 by (apply take_ge; rewrite length_app; cbn; lia).
    rewrite take_ge in Hb, Hc by lia.
    rewrite wr_Ok, Ok_bind by (rewrite Hb, length_app, length_drop; unfold room in *; lia).
    eexists true, _. split; [done|]. split_and!; try done. split; cbn [size buffer pos count]; rewrite ?E1, ?length_app; cbn [length].
    + done.
    + rewrite Hb. rewrite insert_app_r_alt by lia. rewrite Nat.sub_diag, <- app_assoc. f_equal.
      destruct (lookup_lt_is_Some_2 buf (length out)) as [x Ex]; [unfold room in *; lia|].
      rewrite (drop_S _ _ _ Ex). cbn. do 2 f_equal. lia.
    + rewrite wrap_small by (unfold fits, room in *; lia). lia.
    + rewrite Hc, wrap_small by (unfold fits, room in *; lia). lia.
  - rewrite (proj2 (Z.leb_le _ _)) by (unfold room in *; lia).
    eexists false, _. split; [done|]. rewrite length_app. cbn [length].
    assert (take room (out ++ [c]) = take room out) as E1 by (by apply take_app_le).
    split_and!; try done; [|lia]. split; rewrite ?E1; done || by rewrite Hp.
Qed.

Lemma emits_also a l1 b l2 : emits a l1 -> emits b l2 -> emits (a &? b) (l1 ++ l2).
Proof.
  intros Ha Hb out s Hs. destruct (Ha out s Hs) as (x & s1 & E1 & H1 & A1 & S1 & F1).
  unfold also. rewrite (st_step _ _ _ _ _ E1). rewrite app_assoc. destruct x.
  - destruct (Hb _ s1 H1) as (y & s2 & E2 & H2 & A2 & S2 & F2).
    exists y, s2. split_and!; [done|done|congruence|congruence|done].
  - eexists false, s1. split; [done|]. split_and!; [by apply shown_more; [apply F1|]|done|done|].
    intros _. rewrite length_app. pose proof (F1 eq_refl). lia.
Qed.

Lemma emits_ret : emits (mret true) [].
Proof. intros out s Hs. exists true, s. rewrite app_nil_r. done. Qed.

Lemma emits_chars l : emits (put_chars l) l.
Proof.
  induction l as [|c l IH]; cbn [put_chars]; [apply emits_ret|].
  change (c :: l) with ([c] ++ l). apply emits_also; [apply emits_char|done].
Qed.

Lemma emits_pad n c : emits (put_pad n c) (replicate (Z.to_nat n) c).
Proof. apply emits_chars. Qed.

Lemma emits_if (b : bool) m1 l1 m2 l2 : emits m1 l1 -> emits m2 l2 -> emits (if b then m1 else m2) (if b then l1 else l2).
Proof. by destruct b. Qed.

(** A field of a given width: spaces or zeros around the parts. *)
Definition layout (left zero : bool) (w : Z) (sign prefix text : list Z) : list Z :=
  let pad := Z.to_nat (w - Z.of_nat (length (sign ++ prefix ++ text))) in
  if left then sign ++ prefix ++ text ++ replicate pad (ch " ")
  else if zero then sign ++ prefix ++ replicate pad (ch "0") ++ text
  else replicate pad (ch " ") ++ sign ++ prefix ++ text.

Definition sign_text (c : Z) : list Z := if c =? 0 then [] else [c].

Lemma emits_sign c : emits (if negb (c =? 0) then PRINT_ADD_CHAR c else mret true) (sign_text c).
Proof. unfold sign_text. destruct (c =? 0); [apply emits_ret|apply emits_char]. Qed.

Lemma output_int_spec sc pre db t w fl pr : cstr db = Ok t ->
  forall out s, shown out s -> exists s', output_int sc pre db w fl pr s = Ok (tt, s') /\
    shown (out ++ layout (has_flag fl FLAG_LEFT) (has_flag fl FLAG_ZERO && (pr <? 0)) w (sign_text sc) (default [] pre) t) s' /\
    args s' = args s /\ stores s' = stores s.
Proof.
  intros Ht out s Hs. unfold output_int. rewrite Ht, Ok_bind.
  set (p := default [] pre). set (zp := has_flag fl FLAG_ZERO && (pr <? 0)). cbv zeta.
  assert ((if negb (sc =? 0) then 1 else 0) + Z.of_nat (length p) + Z.of_nat (length t) =
          Z.of_nat (length (sign_text sc ++ p ++ t))) as ->.
  { unfold sign_text. destruct (sc =? 0); cbn [negb]; rewrite ?length_app; cbn; lia. }
  set (n := length (sign_text sc ++ p ++ t)). replace (Z.max 0 (w - Z.of_nat n)) with (Z.of_nat (Z.to_nat (w - Z.of_nat n))) by lia.
  set (pad := Z.to_nat (w - Z.of_nat n)).
  assert (forall c, emits (put_pad (Z.of_nat pad) c) (replicate pad c)) as Hpad.
  { intros c. rewrite <- (Nat2Z.id pad) at 2. apply emits_pad. }
  pose proof (emits_sign sc) as Hsg. pose proof (emits_chars p) as Hp. pose proof (emits_chars t) as Htx.
  match goal with |- context [(?m ≫= _) s] => assert (emits m (layout (has_flag fl FLAG_LEFT) zp w (sign_text sc) p t)) as Hm end.
  { unfold layout. fold n. fold pad. destruct (Z.leb_spec w (Z.of_nat n)) as [Hw|Hw].
    - assert (pad = 0%nat) as -> by (unfold pad; lia). cbn [replicate app]. rewrite app_nil_r.
      destruct (has_flag fl FLAG_LEFT), zp; by repeat apply emits_also.
    - destruct (has_flag fl FLAG_LEFT); [by repeat apply emits_also|]. destruct zp; by repeat apply emits_also. }
  destruct (Hm out s Hs) as (b & s' & E & ? & ? & ? & _). rewrite (st_step _ _ _ _ _ E). by exists s'.
Qed.

Lemma put_field_spec spec t : emits (put_field spec t) (layout (has_flag (flags spec) FLAG_LEFT) false (width spec) [] [] t).
Proof.
  unfold put_field, layout. cbn [app]. set (n := Z.of_nat (length t)). set (left := has_flag (flags spec) FLAG_LEFT).
  assert (forall b : bool, emits (if (n <? width spec) && b then put_pad (width spec - n) (ch " ") else mret true)
            (if b then replicate (Z.to_nat (width spec - n)) (ch " ") else [])) as Hp.
  { intros b. destruct (Z.ltb_spec n (width spec)); cbn [andb]; destruct b; try apply emits_ret; [apply emits_pad|].
    replace (Z.to_nat (width spec - n)) with 0%nat by lia. apply emits_ret. }
  pose proof (emits_also _ _ _ _ (Hp (negb left)) (emits_also _ _ _ _ (emits_chars t) (Hp left))) as H.
  destruct left; cbn [negb app] in *; [done|]. by rewrite app_nil_r in H.
Qed.

End buffer_text.
