(* ===== verification/KioParse.v ===== *)
(** * Reading format strings

    The directives of a format string, their text and their arguments, and
    the proof that the parser of Kio.v reads the text back. *)

From Stdlib Require Import Ascii.
From S2P Require Import Prelude StateM Kio KioSpec.

Local Open Scope Z_scope.

(** A width or precision: not given, written out, or taken from an argument. *)
Inductive num := NoNum | Num (n : Z) | Star (slot : Z).

Definition num_value (n : num) : Z := match n with NoNum => 0 | Num n => n | Star a => s32 a end.
Definition num_text (n : num) : list Z := match n with NoNum => [] | Num n => dec_char <$> digits 10 n | Star _ => [ch "*"] end.
Definition num_args (n : num) : list Z := match n with Star a => [a] | _ => [] end.
Definition num_ok (n : num) : Prop := match n with Num n => 0 <= n < 2 ^ 31 | _ => True end.

Definition len_text (m : len_mod) : list Z :=
  match m with
  | LEN_NONE => [] | LEN_HH => [ch "h"; ch "h"] | LEN_H => [ch "h"] | LEN_L => [ch "l"] | LEN_LL => [ch "l"; ch "l"]
  | LEN_Z => [ch "z"] | LEN_T => [ch "t"] | LEN_J => [ch "j"]
  end.

Definition prec_text (p : option num) : list Z := match p with None => [] | Some n => ch "." :: num_text n end.
Definition prec_args (p : option num) : list Z := match p with None => [] | Some n => num_args n end.

(** The precision in force: a negative one counts as not given. *)
Definition prec_value (p : option num) : option Z :=
  match p with Some n => if 0 <=? num_value n then Some (num_value n) else None | None => None end.

Definition conv_chars : list Z := ch <$> ["%"; "d"; "i"; "u"; "o"; "x"; "X"; "s"; "c"; "p"]%char.

(** The text of one specification after the percent sign. *)
Definition spec_text (fl : list Z) (w : num) (pr : option num) (m : len_mod) (c : Z) : list Z :=
  fl ++ num_text w ++ prec_text pr ++ len_text m ++ [c].

(** The flags as a set of bits, as the parser collects them. *)
Definition flag_bits (fl : list Z) : Z := foldl (fun a c => Z.lor a (default 0 (flag_of c))) 0 fl.

(** What the parser makes of a specification. *)
Definition parsed (fl : list Z) (w : num) (pr : option num) (m : len_mod) (c : Z) : fmt_spec :=
  FmtSpec (if num_value w <? 0 then Z.lor (flag_bits fl) FLAG_LEFT else flag_bits fl) (Z.abs (num_value w))
    (default (-1) (prec_value pr)) m c.

Definition set_args (s : kst) (a : list Z) : kst := KSt (buffer s) (size s) (pos s) (count s) a (stores s).

(** A character after which a number or the flags end. *)
Definition stops (c : Z) : Prop := flag_of c = None /\ is_digit c = false /\ c <> ch "*".

(** A character that is no part of a specification but its end. *)
Definition ends_spec (c : Z) : Prop :=
  stops c /\ c <> ch "." /\ c <> ch "h" /\ c <> ch "l" /\ c <> ch "z" /\ c <> ch "t" /\ c <> ch "j".

Lemma conv_chars_end c : c ∈ conv_chars -> ends_spec c.
Proof.
  intros Hc. assert (Forall ends_spec conv_chars) as HF by (unfold ends_spec, stops; repeat constructor; done).
  rewrite Forall_forall in HF. by apply HF.
Qed.

(** Comparisons of known characters. *)
Ltac known_chars :=
  repeat match goal with |- context [ch ?a =? ch ?b] => let v := eval vm_compute in (ch a =? ch b) in change (ch a =? ch b) with v end;
  cbv iota.

(** A width that can be written after the flags, and whose negative can be
    taken. *)
Definition width_ok (w : num) : Prop := num_ok w /\ match w with Num n => n <> 0 | Star a => s32 a <> - 2 ^ 31 | NoNum => True end.

Section parsing.
Context (fmt : list Z).

(** The characters from position [p] on begin with [l]. *)
Definition text_at (p : Z) (l : list Z) : Prop :=
  exists pre post, fmt ++ [0] = pre ++ l ++ post /\ p = Z.of_nat (length pre).

Lemma at_text p c l s : text_at p (c :: l) -> at_ fmt p s = Ok (c, s).
Proof.
  intros (pre & post & E & ->). unfold at_. rewrite (rd_Ok _ _ c); [done|].
  rewrite E, lookup_app_r, Nat.sub_diag by lia. done.
Qed.

Lemma text_at_app p l1 l2 : text_at p (l1 ++ l2) -> text_at (p + Z.of_nat (length l1)) l2.
Proof.
  intros (pre & post & E & ->). exists (pre ++ l1), post. rewrite length_app. split; [|lia]. by rewrite E, <- !app_assoc.
Qed.

Lemma text_at_length p l : text_at p l -> (length l <= S (length fmt))%nat.
Proof.
  intros (pre & post & E & _). apply (f_equal length) in E. rewrite !length_app in E. cbn in E. lia.
Qed.

Lemma text_at_tail p c l : text_at p (c :: l) -> text_at (p + 1) l.
Proof. intros Ht. by apply (text_at_app p [c] l). Qed.

Lemma dec_char_digit d : 0 <= d < 10 -> is_digit (dec_char d) = true /\ dec_char d - ch "0" = d.
Proof.
  intros Hd. unfold is_digit, dec_char. change (ch "9") with (ch "0" + 9).
  rewrite !(proj2 (Z.leb_le _ _)) by lia. split; [done|lia].
Qed.

Lemma foldl_ge ds : forall acc, 0 <= acc -> Forall (fun d => 0 <= d < 10) ds -> acc <= foldl (fun a d => a * 10 + d) acc ds.
Proof.
  induction ds as [|d ds IH]; intros acc Ha Hf; cbn; [done|]. apply Forall_cons in Hf as [Hd Hf].
  etransitivity; [|apply IH; [lia|done]]. lia.
Qed.

Lemma digits_loop ds c l s : is_digit c = false -> Forall (fun d => 0 <= d < 10) ds ->
  forall fuel acc p, text_at p ((dec_char <$> ds) ++ c :: l) -> 0 <= acc ->
  foldl (fun a d => a * 10 + d) acc ds < 2 ^ 31 -> (length ds < fuel)%nat ->
  st_loop fuel (digit_turn fmt) (acc, p) s = Ok ((foldl (fun a d => a * 10 + d) acc ds, p + Z.of_nat (length ds)), s).
Proof.
  intros Hc Hf. induction ds as [|d ds IH]; intros fuel acc p Ht Ha Hlt Hfu; destruct fuel as [|fuel]; cbn [length] in Hfu; try lia;
    cbn [st_loop digit_turn fmap list_fmap app foldl length] in *.
  - rewrite (st_step (x ← at_ fmt p; mret _) _ s (inr (acc, p)) s).
    + cbn. by rewrite Z.add_0_r.
    + rewrite (st_step _ _ _ _ _ (at_text _ _ _ s Ht)). by rewrite Hc.
  - apply Forall_cons in Hf as [Hd Hf]. destruct (dec_char_digit d Hd) as [E1 E2].
    pose proof (foldl_ge ds (acc * 10 + d) ltac:(lia) Hf) as Hge.
    rewrite (st_step (x ← at_ fmt p; mret _) _ s (inl (acc * 10 + d, p + 1)) s).
    + rewrite (IH Hf); [|by apply text_at_tail in Ht|lia|lia|lia]. do 3 f_equal. lia.
    + rewrite (st_step _ _ _ _ _ (at_text _ _ _ s Ht)). rewrite E1, E2, to_signed_small by lia. done.
Qed.

Lemma parse_num n c l rest s p : num_ok n -> stops c -> text_at p (num_text n ++ c :: l) -> args s = num_args n ++ rest ->
  parse_int_or_star fmt p s = Ok ((num_value n, p + Z.of_nat (length (num_text n))), set_args s rest).
Proof.
  intros Hn (_ & Hd & Hs) Ht Ha. pose proof (text_at_length _ _ Ht) as Hlen. rewrite length_app in Hlen. cbn [length] in Hlen.
  unfold parse_int_or_star. destruct n as [|n|a]; cbn [num_text num_value num_args app length num_ok] in *.
  - rewrite (st_step _ _ _ _ _ (at_text _ _ _ s Ht)). rewrite (proj2 (Z.eqb_neq _ _) Hs).
    rewrite (digits_loop [] c l s Hd); [|done|done|done|cbn; lia|cbn; lia]. cbn. rewrite <- Ha. by destruct s.
  - destruct (digs_value 65 10 n) as (Hv & Hf & _); [lia|apply fits_digits; unfold fits; lia|]. fold (digits 10 n) in *.
    rewrite length_fmap in *.
    assert (exists d ds, digits 10 n = d :: ds) as (d & ds & Ed).
    { destruct (digits 10 n) eqn:E; [by apply digits_nonempty in E|eauto]. }
    assert (forall k, (forall x s', at_ fmt p s' = Ok (x, s') -> x <> ch "*" -> k x s' = st_loop (S (S (length fmt))) (digit_turn fmt) (0, p) s') ->
      (at_ fmt p ≫= k) s = st_loop (S (S (length fmt))) (digit_turn fmt) (0, p) s) as Hk.
    { intros k Hk. rewrite Ed in Ht, Hf. cbn [fmap list_fmap app] in Ht. pose proof (at_text _ _ _ s Ht) as E.
      rewrite (st_step _ _ _ _ _ E). apply Hk; [done|]. apply Forall_cons in Hf as [Hd0 _]. unfold dec_char.
      change (ch "0") with 48. change (ch "*") with 42. lia. }
    rewrite Hk by (intros x s' _ Hx; by rewrite (proj2 (Z.eqb_neq _ _) Hx)).
    rewrite (digits_loop (digits 10 n) c l s Hd Hf); [|done|lia| |lia].
    + unfold value in Hv. rewrite Hv, <- Ha. by destruct s.
    + unfold value in Hv. rewrite Hv. lia.
  - rewrite (st_step _ _ _ _ _ (at_text _ _ _ s Ht)). cbn [Z.eqb]. rewrite Z.eqb_refl.
    assert (va_arg s = Ok (a, set_args s rest)) as E by (unfold va_arg; by rewrite Ha).
    rewrite (st_step _ _ _ _ _ E). done.
Qed.

Lemma flags_loop fl c l s : flag_of c = None -> Forall (fun f => is_Some (flag_of f)) fl ->
  forall fuel acc p, text_at (p + 1) (fl ++ c :: l) -> (length fl < fuel)%nat ->
  st_loop fuel (flag_turn fmt) (acc, p) s =
    Ok ((foldl (fun a c => Z.lor a (default 0 (flag_of c))) acc fl, p + 1 + Z.of_nat (length fl)), s).
Proof.
  intros Hc Hf. induction fl as [|f fl IH]; intros fuel acc p Ht Hfu; destruct fuel as [|fuel]; cbn [length] in Hfu; try lia;
    cbn [st_loop flag_turn app foldl length] in *.
  - rewrite (st_step (x ← at_ fmt (p + 1); mret _) _ s (inr (acc, p + 1)) s).
    + cbn. by rewrite Z.add_0_r.
    + rewrite (st_step _ _ _ _ _ (at_text _ _ _ s Ht)). by rewrite Hc.
  - apply Forall_cons in Hf as [[x Ef] Hf]. rewrite Ef. cbn [default from_option id].
    rewrite (st_step (x ← at_ fmt (p + 1); mret _) _ s (inl (Z.lor acc x, p + 1)) s).
    + rewrite (IH Hf); [|by apply text_at_tail in Ht|lia]. do 3 f_equal. lia.
    + rewrite (st_step _ _ _ _ _ (at_text _ _ _ s Ht)). by rewrite Ef.
Qed.

Lemma parse_flags_spec fl c l s p : flag_of c = None -> Forall (fun f => is_Some (flag_of f)) fl -> text_at (p + 1) (fl ++ c :: l) ->
  parse_flags fmt p s = Ok ((flag_bits fl, p + 1 + Z.of_nat (length fl)), s).
Proof.
  intros Hc Hf Ht. pose proof (text_at_length _ _ Ht) as Hl. rewrite length_app in Hl. cbn [length] in Hl.
  unfold parse_flags. apply (flags_loop fl c l); [done|done|done|lia].
Qed.

Lemma parse_len_spec m c l s p : ends_spec c -> text_at p (len_text m ++ c :: l) ->
  parse_len fmt p s = Ok ((m, p + Z.of_nat (length (len_text m))), s).
Proof.
  intros Hc Ht. destruct Hc as (_ & _ & Hh & Hl & Hz & Htt & Hj). unfold parse_len.
  destruct m; cbn [len_text app length] in *; rewrite (st_step _ _ _ _ _ (at_text _ _ _ s Ht));
    rewrite ?(proj2 (Z.eqb_neq c _)) by done; known_chars;
    try (rewrite Z.add_0_r; done); try done;
    rewrite (st_step _ _ _ _ _ (at_text _ _ _ s (text_at_tail _ _ _ Ht))); try done;
    by rewrite (proj2 (Z.eqb_neq c _)).
Qed.

Lemma prec_head pr m c l : ends_spec c ->
  exists d l', prec_text pr ++ len_text m ++ c :: l = d :: l' /\ stops d.
Proof.
  intros Hc. destruct Hc as [Hs _]. destruct pr as [n|]; [by eexists _, _|].
  destruct m; cbn [prec_text len_text app]; eexists _, _; (split; [reflexivity|]); done.
Qed.

Lemma len_head m c l : ends_spec c -> exists d l', len_text m ++ c :: l = d :: l' /\ stops d /\ d <> ch ".".
Proof.
  intros Hc. destruct Hc as (Hs & Hp & _).
  destruct m; cbn [len_text app]; eexists _, _; (split; [reflexivity|]); done.
Qed.

Lemma width_head w d l : width_ok w -> flag_of d = None -> exists d' l', num_text w ++ d :: l = d' :: l' /\ flag_of d' = None.
Proof.
  intros [Hn Hw] Hd. destruct w as [|n|a]; cbn [num_text app num_ok] in *; [by eexists _, _| |by eexists _, _].
  destruct (digs_value 65 10 n) as (_ & Hf & Hh); [lia|apply fits_digits; unfold fits; lia|]. fold (digits 10 n) in *.
  destruct (Hh Hw) as (x & ds & E & Hx). rewrite E in *. cbn [fmap list_fmap app]. eexists _, _. split; [reflexivity|].
  apply Forall_cons in Hf as [Hx' _]. unfold dec_char, flag_of. change (ch "0") with 48. change (ch "#") with 35.
  change (ch "-") with 45. change (ch "+") with 43. change (ch " ") with 32. by rewrite !(proj2 (Z.eqb_neq _ _)) by lia.
Qed.

Lemma s32_range a : - 2 ^ 31 <= s32 a < 2 ^ 31.
Proof. unfold to_signed, wrap. pose proof (Z.mod_pos_bound a (2 ^ 32) ltac:(lia)). change (2 ^ (32 - 1)) with (2 ^ 31). destruct (Z.ltb_spec (a mod 2 ^ 32) (2 ^ 31)); lia. Qed.

Lemma num_range w : num_ok w -> - 2 ^ 31 <= num_value w < 2 ^ 31.
Proof. destruct w as [|n|a]; cbn; [lia|lia|]. intros _. apply s32_range. Qed.

Lemma parse_spec fl w pr m c l s p rest : Forall (fun f => is_Some (flag_of f)) fl -> width_ok w ->
  match pr with Some n => num_ok n | None => True end -> ends_spec c ->
  text_at p (ch "%" :: spec_text fl w pr m c ++ l) -> args s = num_args w ++ prec_args pr ++ rest ->
  parse_fmt_spec fmt p s = Ok ((parsed fl w pr m c, p + Z.of_nat (length (spec_text fl w pr m c))), set_args s rest).
Proof.
  intros Hfl Hw Hpr Hc Ht Ha. unfold spec_text in *. rewrite <- !app_assoc in Ht. apply text_at_tail in Ht. cbn [app] in Ht.
  destruct (len_head m c l Hc) as (d1 & l1 & E1 & Hd1 & Hdot).
  destruct (prec_head pr m c l Hc) as (d2 & l2 & E2 & Hd2).
  destruct (width_head w d2 l2 Hw (proj1 Hd2)) as (d3 & l3 & E3 & Hd3).
  unfold parse_fmt_spec. pose proof Ht as Ht0. rewrite E2, E3 in Ht0.
  rewrite (st_step _ _ _ _ _ (parse_flags_spec fl d3 l3 s p Hd3 Hfl Ht0)).
  apply text_at_app in Ht. pose proof Ht as Ht1. rewrite E2 in Ht1.
  rewrite (st_step _ _ _ _ _ (parse_num w d2 l2 _ s _ (proj1 Hw) Hd2 Ht1 Ha)).
  apply text_at_app in Ht. set (s1 := set_args s (prec_args pr ++ rest)).
  set (p1 := p + 1 + Z.of_nat (length fl) + Z.of_nat (length (num_text w))) in *.
  pose proof (num_range w (proj1 Hw)) as Hr.
  assert ((if num_value w <? 0 then (Z.lor (flag_bits fl) FLAG_LEFT, s32 (- num_value w)) else (flag_bits fl, num_value w)) =
     (if num_value w <? 0 then Z.lor (flag_bits fl) FLAG_LEFT else flag_bits fl, Z.abs (num_value w))) as ->.
  { destruct (Z.ltb_spec (num_value w) 0); f_equal; [|lia]. rewrite to_signed_small; [lia|lia|].
    destruct Hw as [Hn Hw]. destruct w; cbn [num_value num_ok] in *; lia. }
  pose proof Ht as Ht2. rewrite E2 in Ht2. rewrite (st_step _ _ _ _ _ (at_text _ _ _ s1 Ht2)).
  assert ((if d2 =? ch "." then '(pr, p) ← parse_int_or_star fmt (p1 + 1); mret (if 0 <=? pr then pr else -1, p) else mret (-1, p1)) s1
    = Ok ((default (-1) (prec_value pr), p1 + Z.of_nat (length (prec_text pr))), set_args s rest)) as Ep.
  { destruct pr as [n|]; cbn [prec_text app] in E2.
    - injection E2 as <- _. rewrite Z.eqb_refl. cbn [prec_text app] in Ht. rewrite E1 in Ht. apply text_at_tail in Ht.
      rewrite (st_step _ _ _ _ _ (parse_num n d1 l1 rest s1 _ Hpr Hd1 Ht eq_refl)). cbn [prec_value prec_text length].
      unfold mret, ST_ret. do 3 f_equal; [by destruct (0 <=? num_value n)|lia].
    - rewrite E1 in E2. injection E2 as <- _. rewrite (proj2 (Z.eqb_neq _ _) Hdot). cbn. by rewrite Z.add_0_r. }
  rewrite (st_step _ _ _ _ _ Ep). apply text_at_app in Ht.
  rewrite (st_step _ _ _ _ _ (parse_len_spec m c l _ _ Hc Ht)). apply text_at_app in Ht.
  rewrite (st_step _ _ _ _ _ (at_text _ _ _ _ Ht)). unfold mret, ST_ret, parsed. do 3 f_equal.
  unfold p1. rewrite !length_app. cbn [length]. lia.
Qed.

End parsing.
