(* ===== verification/KioCorrect.v ===== *)
(** * Formatted output: results

    vsnprintk shows what its format and arguments stand for, cut to the
    buffer; vprintk hands the same text to its backend.  A precision of 128 or
    more and a percent sign at the end of the format leave the bounds of the
    arrays. *)

From Stdlib Require Import Ascii.
From S2P Require Import Prelude StateM Kio KioSpec KioParse.

Local Open Scope Z_scope.

(** ** Directives and what they show *)

Inductive body := BPct | BInt (c slot : Z) | BStr (slot : Z) | BChr (slot : Z) | BPtr (slot : Z).
Inductive item := Lit (c : Z) | Conv (fl : list Z) (w : num) (pr : option num) (m : len_mod) (b : body).

Definition body_conv (b : body) : Z :=
  match b with BPct => ch "%" | BInt c _ => c | BStr _ => ch "s" | BChr _ => ch "c" | BPtr _ => ch "p" end.
Definition body_args (b : body) : list Z :=
  match b with BPct => [] | BInt _ a | BStr a | BChr a | BPtr a => [a] end.

Definition item_text (i : item) : list Z :=
  match i with Lit c => [c] | Conv fl w pr m b => ch "%" :: spec_text fl w pr m (body_conv b) end.
Definition item_args (i : item) : list Z :=
  match i with Lit _ => [] | Conv _ w pr _ b => num_args w ++ prec_args pr ++ body_args b end.

Definition is_signed (c : Z) : bool := (c =? ch "d") || (c =? ch "i").

(** The number an integer conversion shows: the slot read at its width. *)
Definition int_value (c : Z) (m : len_mod) (slot : Z) : Z :=
  if is_signed c then to_signed (len_bits m) slot else wrap (len_bits m) slot.

Definition sign_of (fl : list Z) (c v : Z) : list Z :=
  if negb (is_signed c) then []
  else if v <? 0 then [ch "-"]
  else if bool_decide (ch "+" ∈ fl) then [ch "+"]
  else if bool_decide (ch " " ∈ fl) then [ch " "] else [].

Section rendering.
Context (str_at : Z -> option (list Z)).

Definition string_of (slot : Z) : list Z := if slot =? 0 then null_text else default [] (str_at slot).

Definition render_body (fl : list Z) (w : num) (pr : option num) (m : len_mod) (b : body) : list Z :=
  let left := bool_decide (ch "-" ∈ fl) || (num_value w <? 0) in
  let alt := bool_decide (ch "#" ∈ fl) in
  let P := prec_value pr in
  let field := layout left in
  match b with
  | BPct => [ch "%"]
  | BInt c slot =>
      let v := int_value c m slot in
      field (bool_decide (ch "0" ∈ fl) && bool_decide (P = None)) (Z.abs (num_value w)) (sign_of fl c v)
        (number_prefix c alt P (Z.abs v)) (number_text c alt P (Z.abs v))
  | BStr slot =>
      let t := string_of slot in
      field false (Z.abs (num_value w)) [] [] (match P with Some p => take (Z.to_nat p) t | None => t end)
  | BChr slot => field false (Z.abs (num_value w)) [] [] [u8 slot]
  | BPtr slot => [ch "0"; ch "x"] ++ number_text (ch "x") false (Some 16) slot
  end.

Definition render (i : item) : list Z :=
  match i with Lit c => [c] | Conv fl w pr m b => render_body fl w pr m b end.

Definition body_ok (pr : option num) (b : body) : Prop :=
  match b with
  | BPct => True
  | BInt c _ => is_int_conv c = true /\ prec_ok (prec_value pr)
  | BStr a => a = 0 \/ is_Some (str_at a)
  | BChr _ => True
  | BPtr a => fits 64 a
  end.

(** Directives within the limits of the arrays. *)
Definition item_ok (i : item) : Prop :=
  match i with
  | Lit c => c <> 0 /\ c <> ch "%"
  | Conv fl w pr m b =>
      Forall (fun f => is_Some (flag_of f)) fl /\ width_ok w /\ match pr with Some n => num_ok n | None => True end /\ body_ok pr b
  end.

End rendering.

(** ** Flags *)

Lemma has_flag_bit x k : 0 <= k -> has_flag x (Z.shiftl 1 k) = Z.testbit x k.
Proof.
  intros Hk. unfold has_flag. rewrite Z.shiftl_1_l. destruct (Z.testbit x k) eqn:E.
  - apply negb_true_iff, Z.eqb_neq. intros H0. apply (f_equal (fun z => Z.testbit z k)) in H0.
    rewrite Z.land_spec, E, Z.pow2_bits_true, Z.bits_0 in H0 by done. done.
  - apply negb_false_iff, Z.eqb_eq. apply Z.bits_inj'. intros i Hi. rewrite Z.land_spec, Z.bits_0.
    destruct (Z.eq_dec i k) as [->|Hne]; [by rewrite E|]. rewrite Z.pow2_bits_false by done. apply andb_false_r.
Qed.

Lemma flag_bits_test fl k : forall acc, Z.testbit (foldl (fun a c => Z.lor a (default 0 (flag_of c))) acc fl) k =
  Z.testbit acc k || existsb (fun c => Z.testbit (default 0 (flag_of c)) k) fl.
Proof.
  induction fl as [|f fl IH]; intros acc; cbn [foldl existsb]; [by rewrite orb_false_r|]. by rewrite IH, Z.lor_spec, orb_assoc.
Qed.

Lemma flag_bits_has fl c k : 0 <= k -> (forall f, Z.testbit (default 0 (flag_of f)) k = (f =? c)) ->
  has_flag (flag_bits fl) (Z.shiftl 1 k) = bool_decide (c ∈ fl).
Proof.
  intros Hk Hc. rewrite has_flag_bit by done. unfold flag_bits. rewrite flag_bits_test, Z.bits_0, orb_false_l.
  apply eq_true_iff_eq. rewrite existsb_exists, bool_decide_eq_true. setoid_rewrite Hc. setoid_rewrite Z.eqb_eq.
  setoid_rewrite list_elem_of_In. naive_solver.
Qed.

(** A character is one of the five flags or none. *)
Ltac flag_cases f := unfold flag_of; repeat match goal with |- context [f =? ?c] => destruct (Z.eqb_spec f c) as [->|]; [vm_compute; reflexivity|] end; reflexivity.

Lemma flag_left fl : has_flag (flag_bits fl) FLAG_LEFT = bool_decide (ch "-" ∈ fl).
Proof. apply (flag_bits_has fl (ch "-") 2); [done|intros f; flag_cases f]. Qed.
Lemma flag_alt fl : has_flag (flag_bits fl) FLAG_ALT = bool_decide (ch "#" ∈ fl).
Proof. apply (flag_bits_has fl (ch "#") 0); [done|intros f; flag_cases f]. Qed.
Lemma flag_zero fl : has_flag (flag_bits fl) FLAG_ZERO = bool_decide (ch "0" ∈ fl).
Proof. apply (flag_bits_has fl (ch "0") 1); [done|intros f; flag_cases f]. Qed.
Lemma flag_pos fl : has_flag (flag_bits fl) FLAG_POS = bool_decide (ch "+" ∈ fl).
Proof. apply (flag_bits_has fl (ch "+") 3); [done|intros f; flag_cases f]. Qed.
Lemma flag_space fl : has_flag (flag_bits fl) FLAG_SPACE = bool_decide (ch " " ∈ fl).
Proof. apply (flag_bits_has fl (ch " ") 4); [done|intros f; flag_cases f]. Qed.

(** ** Values *)

Lemma wrap_wrap w w' x : 0 <= w <= w' -> wrap w (wrap w' x) = wrap w x.
Proof. intros Hw. unfold wrap. symmetry. apply Znumtheory.Zmod_div_mod; [lia|lia|]. exists (2 ^ (w' - w)). rewrite <- Z.pow_add_r by lia. f_equal. lia. Qed.

Lemma wrap_signed w w' x : 0 <= w <= w' -> wrap w (to_signed w' x) = wrap w x.
Proof.
  intros Hw. unfold to_signed. destruct (_ <? _); [by apply wrap_wrap|]. unfold wrap.
  replace (x mod 2 ^ w' - 2 ^ w') with (x mod 2 ^ w' + (- 2 ^ (w' - w)) * 2 ^ w).
  - rewrite Z.mod_add by lia. apply (wrap_wrap w w' x Hw).
  - assert (2 ^ w' = 2 ^ (w' - w) * 2 ^ w) as E by (rewrite <- Z.pow_add_r by lia; f_equal; lia).
    set (X := x mod 2 ^ w'). clearbody X. rewrite E. ring.
Qed.

Lemma signed_signed w w' x : 0 <= w <= w' -> to_signed w (to_signed w' x) = to_signed w x.
Proof. intros Hw. unfold to_signed at 1 3. by rewrite wrap_signed. Qed.

Lemma to_signed_range w x : 0 < w -> - 2 ^ (w - 1) <= to_signed w x < 2 ^ (w - 1).
Proof.
  intros Hw. unfold to_signed, wrap. pose proof (Z.mod_pos_bound x (2 ^ w) ltac:(lia)).
  assert (2 ^ w = 2 * 2 ^ (w - 1)) by (rewrite <- Z.pow_succ_r by lia; f_equal; lia). destruct (Z.ltb_spec (x mod 2 ^ w) (2 ^ (w - 1))); lia.
Qed.

Lemma get_signed_spec m s a rest : args s = a :: rest -> get_signed m s = Ok (to_signed (len_bits m) a, set_args s rest).
Proof.
  intros Ha. unfold get_signed. assert (va_arg s = Ok (a, set_args s rest)) as E by (unfold va_arg; by rewrite Ha).
  rewrite (st_step _ _ _ _ _ E). unfold mret, ST_ret. do 2 f_equal. destruct m; cbn [len_bits]; try done; by rewrite signed_signed.
Qed.

Lemma get_unsigned_spec m s a rest : args s = a :: rest -> get_unsigned m s = Ok (wrap (len_bits m) a, set_args s rest).
Proof.
  intros Ha. unfold get_unsigned. assert (va_arg s = Ok (a, set_args s rest)) as E by (unfold va_arg; by rewrite Ha).
  rewrite (st_step _ _ _ _ _ E). unfold mret, ST_ret. do 2 f_equal.
  destruct m; cbn [len_bits]; try done; by rewrite ?wrap_wrap, ?wrap_signed.
Qed.

Lemma len_bits_bound m : 8 <= len_bits m <= 64.
Proof. destruct m; cbn; lia. Qed.

(** ** Pieces of a conversion *)

Lemma parsed_flag fl w pr m c k : 0 <= k -> k <> 2 ->
  has_flag (flags (parsed fl w pr m c)) (Z.shiftl 1 k) = has_flag (flag_bits fl) (Z.shiftl 1 k).
Proof.
  intros Hk Hne. cbn [flags parsed]. destruct (num_value w <? 0); [|done]. rewrite !has_flag_bit, Z.lor_spec by lia.
  change FLAG_LEFT with (2 ^ 2). rewrite Z.pow2_bits_false by lia. apply orb_false_r.
Qed.

Lemma parsed_left fl w pr m c :
  has_flag (flags (parsed fl w pr m c)) FLAG_LEFT = bool_decide (ch "-" ∈ fl) || (num_value w <? 0).
Proof.
  cbn [flags parsed]. destruct (num_value w <? 0); [|by rewrite flag_left, orb_false_r].
  unfold FLAG_LEFT. rewrite has_flag_bit, Z.lor_spec by lia. by rewrite !orb_true_r.
Qed.

Lemma int_value_fits c m slot : fits 64 (Z.abs (int_value c m slot)).
Proof.
  pose proof (len_bits_bound m). unfold int_value, fits. destruct (is_signed c).
  - pose proof (to_signed_range (len_bits m) slot ltac:(lia)). assert (2 ^ (len_bits m - 1) <= 2 ^ 63) by (apply Z.pow_le_mono_r; lia). lia.
  - pose proof (wrap_fits (len_bits m) slot ltac:(lia)) as Hf. unfold fits in Hf.
    assert (2 ^ len_bits m <= 2 ^ 64) by (apply Z.pow_le_mono_r; lia). lia.
Qed.

(** The absolute value and the sign of the argument. *)
Lemma fetch_int c m slot rest s : args s = slot :: rest ->
  (if (c =? ch "d") || (c =? ch "i")
   then val ← get_signed m; mret (if val <? 0 then (u64 (- val), true) else (u64 val, false))
   else val ← get_unsigned m; mret (val, false)) s = Ok ((Z.abs (int_value c m slot), int_value c m slot <? 0), set_args s rest).
Proof.
  intros Ha. change ((c =? ch "d") || (c =? ch "i")) with (is_signed c). pose proof (int_value_fits c m slot) as Hv.
  unfold int_value in *. destruct (is_signed c).
  - rewrite (st_step _ _ _ _ _ (get_signed_spec m s slot rest Ha)). unfold mret, ST_ret. do 2 f_equal.
    destruct (Z.ltb_spec (to_signed (len_bits m) slot) 0); rewrite wrap_small by (unfold fits in *; lia); f_equal; lia.
  - rewrite (st_step _ _ _ _ _ (get_unsigned_spec m s slot rest Ha)). unfold mret, ST_ret. do 2 f_equal.
    pose proof (len_bits_bound m). pose proof (wrap_fits (len_bits m) slot ltac:(lia)) as [? _].
    rewrite (proj2 (Z.ltb_ge _ _)) by lia. f_equal. lia.
Qed.

(** ** Conversions *)

Lemma int_conv_chars c : is_int_conv c = true -> c ∈ conv_chars.
Proof.
  unfold is_int_conv. intros H. repeat (apply orb_true_iff in H as [H|H]); apply Z.eqb_eq in H as ->;
    by apply (bool_decide_unpack _); vm_compute.
Qed.

Lemma body_conv_chars str_at pr b : body_ok str_at pr b -> body_conv b ∈ conv_chars.
Proof. destruct b; cbn [body_ok body_conv]; [|intros [H _]; by apply int_conv_chars|..]; intros _; by apply (bool_decide_unpack _); vm_compute. Qed.

Section conversions.
Context (str_at : Z -> option (list Z)) (tmp db : list Z) (Htmp : length tmp = 128%nat) (Hdb : length db = 128%nat).
Context (buf : list Z) (sz : Z) (Hsz : 1 <= sz <= Z.of_nat (length buf)) (Hsmall : sz < 2 ^ 31).
Abbreviation shown := (shown buf sz).
Abbreviation room := (room sz).

(** What a conversion does with its arguments: it sends [l] and takes [a]. *)
Definition converts (m : km bool) (a l : list Z) : Prop := forall out s rest, shown out s -> args s = a ++ rest ->
  exists b s', m s = Ok (b, s') /\ shown (out ++ l) s' /\ stores s' = stores s /\
    (b = true -> args s' = rest) /\ (b = false -> (room < length (out ++ l))%nat).

Lemma shown_set_args out s a : shown out s -> shown out (set_args s a).
Proof. intros [? ? ? ?]. by split. Qed.

Lemma emits_converts m l : emits buf sz m l -> converts m [] l.
Proof. intros Hm out s rest Hs Ha. destruct (Hm out s Hs) as (b & s' & ? & ? & ? & ? & ?). exists b, s'. cbn [app] in Ha. split_and!; try done. intros _. by rewrite <- Ha. Qed.

(** An argument is taken and then characters are sent. *)
Lemma arg_converts a (k : Z -> km bool) l : emits buf sz (k a) l -> converts (x ← va_arg; k x) [a] l.
Proof.
  intros Hk out s rest Hs Ha. cbn [app] in Ha. assert (va_arg s = Ok (a, set_args s rest)) as E by (unfold va_arg; by rewrite Ha).
  destruct (Hk out (set_args s rest) (shown_set_args _ _ _ Hs)) as (b & s' & Ek & ? & ? & ? & ?).
  exists b, s'. rewrite (st_step _ _ _ _ _ E). by split_and!.
Qed.

Lemma print_int_spec fl w pr m c slot : is_int_conv c = true -> prec_ok (prec_value pr) ->
  converts (print_int tmp db (parsed fl w pr m c)) [slot] (render_body str_at fl w pr m (BInt c slot)).
Proof.
  intros Hc HP out s rest Hs Ha. cbn [app] in Ha. unfold print_int. set (sp := parsed fl w pr m c).
  change (conv sp) with c. change (lenm sp) with m. change (prec sp) with (default (-1) (prec_value pr)). change (width sp) with (Z.abs (num_value w)).
  set (v := int_value c m slot). pose proof (int_value_fits c m slot) as Hv. fold v in Hv.
  rewrite (st_step _ _ _ _ _ (fetch_int c m slot rest s Ha)). fold v. change ((c =? ch "d") || (c =? ch "i")) with (is_signed c).
  unfold FLAG_POS, FLAG_SPACE, sp. rewrite !parsed_flag by lia. fold FLAG_POS FLAG_SPACE sp. rewrite flag_pos, flag_space.
  set (sc := if is_signed c then if v <? 0 then ch "-" else if bool_decide (ch "+" ∈ fl) then ch "+"
             else if bool_decide (ch " " ∈ fl) then ch " " else 0 else 0).
  assert (sign_text sc = sign_of fl c v) as Esc.
  { unfold sc, sign_of. destruct (is_signed c); cbn [negb]; [|done]. by repeat case_match. }
  destruct (prepare_number_spec (Z.abs v) c (bool_decide (ch "#" ∈ fl)) (prec_value pr) (flags sp) tmp db Hv HP Htmp Hdb) as (db' & pre & Ep & Epre & Ec).
  { unfold FLAG_ALT, sp. rewrite parsed_flag by lia. apply flag_alt. }
  rewrite (st_step (fun s => x ← _; Ok (x, s)) _ _ (db', pre) (set_args s rest)) by (by rewrite Ep).
  destruct (output_int_spec buf sz Hsz Hsmall sc pre db' _ (Z.abs (num_value w)) (flags sp) (default (-1) (prec_value pr)) Ec out (set_args s rest))
    as (s' & Eo & Hsh & Hargs & Hst); [by apply shown_set_args|].
  rewrite (st_step _ _ _ _ _ Eo). exists true, s'. split; [done|]. split; [|by split_and!].
  unfold sp, FLAG_ZERO in Hsh. rewrite parsed_left, parsed_flag in Hsh by lia. fold FLAG_ZERO in Hsh. rewrite flag_zero, Esc, Epre in Hsh.
  cbn [render_body]. fold v. replace (default (-1) (prec_value pr) <? 0) with (bool_decide (prec_value pr = None)) in Hsh; [done|].
  destruct (prec_value pr) as [p|]; [|done]. cbn in HP |- *. rewrite (proj2 (Z.ltb_ge _ _)) by lia. done.
Qed.

Lemma print_str_spec fl w pr m slot : slot = 0 \/ is_Some (str_at slot) ->
  converts (print_str str_at (parsed fl w pr m (ch "s"))) [slot] (render_body str_at fl w pr m (BStr slot)).
Proof.
  intros Hslot. apply arg_converts. set (sp := parsed fl w pr m (ch "s")). intros out s Hs.
  rewrite (st_step _ _ s (string_of str_at slot) s).
  2: { unfold string_of. destruct (Z.eqb_spec slot 0) as [->|]; [done|]. destruct Hslot as [|[t Et]]; [done|]. by rewrite Et. }
  cbn [render_body]. set (t := string_of str_at slot).
  assert (take (Z.to_nat (if 0 <=? prec sp then Z.min (prec sp) (Z.of_nat (length t)) else Z.of_nat (length t))) t =
          match prec_value pr with Some p => take (Z.to_nat p) t | None => t end) as ->.
  { unfold sp. cbn [prec parsed]. destruct (prec_value pr) as [p|] eqn:E; cbn [default from_option id].
    - assert (0 <= p) as Hp. { unfold prec_value in E. destruct pr as [n|]; [|done]. destruct (Z.leb_spec 0 (num_value n)); simplify_eq; lia. }
      rewrite (proj2 (Z.leb_le _ _) Hp). destruct (Z.le_gt_cases p (Z.of_nat (length t))); [by rewrite Z.min_l|].
      rewrite Z.min_r, !take_ge by lia. done.
    - change (0 <=? -1) with false. cbv iota. by rewrite Nat2Z.id, firstn_all. }
  pose proof (put_field_spec buf sz Hsz Hsmall sp (match prec_value pr with Some p => take (Z.to_nat p) t | None => t end)) as Hf.
  unfold sp in Hf. rewrite parsed_left in Hf. by apply Hf.
Qed.

Lemma print_ptr_spec fl w pr m slot : fits 64 slot -> converts (print_ptr tmp) [slot] (render_body str_at fl w pr m (BPtr slot)).
Proof.
  intros Hf. apply arg_converts. cbn [render_body].
  change ([ch "0"; ch "x"] ++ number_text (ch "x") false (Some 16) slot) with ([ch "0"] ++ [ch "x"] ++ number_text (ch "x") false (Some 16) slot).
  apply emits_also; [by apply emits_char|]. apply emits_also; [by apply emits_char|].
  intros out s Hs. change (TMP_BUF_SIZE - 1) with (Z.of_nat 127).
  destruct (format_conv (ch "x") slot (<[127%nat := 0]> tmp) Hf) as (tmp' & Ef & Hd); [by rewrite length_insert|].
  change (ch "x" =? ch "o") with false in Ef. change (ch "x" =? ch "X") with false in Ef. change (is_hex (ch "x")) with true in Ef. cbv iota in Ef.
  pose proof (plain_digits_bound (ch "x") slot) as Hl. set (T := plain_digits (ch "x") slot) in *.
  assert (drop 127 (<[127%nat := 0]> tmp) = [0]) as E0.
  { rewrite drop_insert_ge, Nat.sub_diag by lia. assert (length (drop 127 tmp) = 1%nat) as E1 by (rewrite length_drop; lia).
    destruct (drop 127 tmp) as [|x [|y l]]; [done|done|cbn in E1; lia]. }
  rewrite (st_step _ _ s (Z.max 0 (2 * 8 - Z.of_nat (length T)), T) s).
  2: { rewrite wr_Ok, Ok_bind by lia. change (Z.of_nat 127) with 127. rewrite Ef, Ok_bind, Nat2Z.id, Hd, E0.
       rewrite cstr_text by (by apply digit_char_nonzero). rewrite Ok_bind. do 3 f_equal. lia. }
  unfold number_text. rewrite (bool_decide_false (Some 16 = Some 0)) by done. rewrite andb_false_r. fold T. cbn [default from_option id].
  replace (Z.to_nat (16 - Z.of_nat (length T))) with (Z.to_nat (Z.max 0 (2 * 8 - Z.of_nat (length T)))) by lia.
  by apply emits_also; [apply emits_pad|apply emits_chars|].
Qed.

Lemma print_conv_spec fl w pr m b : body_ok str_at pr b ->
  converts (print_conv str_at tmp db (parsed fl w pr m (body_conv b))) (body_args b) (render_body str_at fl w pr m b).
Proof.
  intros Hb. unfold print_conv. cbn [conv parsed]. destruct b as [|c a|a|a|a]; cbn [body_conv body_ok body_args] in *.
  - apply emits_converts. by apply emits_char.
  - destruct Hb as [Hc HP]. assert (c =? ch "%" = false) as ->. { apply Z.eqb_neq. by intros ->. }
    rewrite Hc. by apply print_int_spec.
  - by apply print_str_spec.
  - cbn [render_body]. apply (arg_converts a (fun a => put_field (parsed fl w pr m (ch "c")) [u8 a])).
    pose proof (put_field_spec buf sz Hsz Hsmall (parsed fl w pr m (ch "c")) [u8 a]) as Hf. by rewrite parsed_left in Hf.
  - by apply print_ptr_spec.
Qed.

End conversions.

(** ** The scan *)

Section scan.
Context (str_at : Z -> option (list Z)) (tmp db : list Z) (Htmp : length tmp = 128%nat) (Hdb : length db = 128%nat).
Context (buf : list Z) (sz : Z) (Hsz : 1 <= sz <= Z.of_nat (length buf)) (Hsmall : sz < 2 ^ 31).
Context (fmt : list Z).

Lemma fmt_turn_spec i p l out s rest : item_ok str_at i -> text_at fmt p (item_text i ++ l) ->
  shown buf sz out s -> args s = item_args i ++ rest ->
  exists x s', fmt_turn str_at tmp db fmt p s = Ok (x, s') /\ shown buf sz (out ++ render str_at i) s' /\ stores s' = stores s /\
    match x with
    | inl p' => p' = p + Z.of_nat (length (item_text i)) /\ args s' = rest
    | inr _ => (room sz < length (out ++ render str_at i))%nat
    end.
Proof.
  intros Hi Ht Hs Ha. unfold fmt_turn. destruct i as [c|fl w pr m b]; cbn [item_text item_args item_ok render app] in *.
  - rewrite (st_step _ _ _ _ _ (at_text _ _ _ _ s Ht)). destruct Hi as [H0 Hp].
    rewrite (proj2 (Z.eqb_neq _ _) H0), (proj2 (Z.eqb_neq _ _) Hp). cbn [negb].
    destruct (emits_char buf sz Hsz Hsmall c out s Hs) as (b & s' & E & Hs' & Ha' & Hst & Hf).
    rewrite (st_step _ _ _ _ _ E). destruct b; eexists _, s'; (split; [done|]); split_and!; try done; [congruence|auto].
  - rewrite (st_step _ _ _ _ _ (at_text _ _ _ _ s Ht)). change (ch "%" =? 0) with false. rewrite Z.eqb_refl. cbn [negb].
    destruct Hi as (Hfl & Hw & Hpr & Hb). rewrite <- !app_assoc in Ha.
    rewrite (st_step _ _ _ _ _ (parse_spec fmt fl w pr m (body_conv b) l s p _ Hfl Hw Hpr (conv_chars_end _ (body_conv_chars _ _ _ Hb)) Ht Ha)).
    destruct (print_conv_spec str_at tmp db Htmp Hdb buf sz Hsz Hsmall fl w pr m b Hb out (set_args s (body_args b ++ rest)) rest)
      as (x & s' & E & Hs' & Hst & Ht' & Hf'); [by apply shown_set_args|done|].
    rewrite (st_step _ _ _ _ _ E). cbn [length]. destruct x; eexists _, s'; (split; [done|]); split_and!; try done; [lia|auto|auto].
Qed.

Lemma fmt_loop_spec items : Forall (item_ok str_at) items -> forall fuel p out s rest,
  text_at fmt p (concat (item_text <$> items) ++ [0]) -> shown buf sz out s ->
  args s = concat (item_args <$> items) ++ rest -> (length items < fuel)%nat ->
  exists s', st_loop fuel (fmt_turn str_at tmp db fmt) p s = Ok (tt, s') /\
    shown buf sz (out ++ concat (render str_at <$> items)) s' /\ stores s' = stores s.
Proof.
  induction 1 as [|i items Hi Hitems IH]; intros fuel p out s rest Ht Hs Ha Hf; cbn [fmap list_fmap concat length app] in *;
    (destruct fuel as [|fuel]; [lia|]); cbn [st_loop].
  - rewrite (st_step _ _ s (inr tt) s); [rewrite app_nil_r; by exists s|].
    unfold fmt_turn. by rewrite (st_step _ _ _ _ _ (at_text _ _ _ _ s Ht)).
  - rewrite <- app_assoc in Ht, Ha.
    destruct (fmt_turn_spec i p _ out s _ Hi Ht Hs Ha) as (x & s' & E & Hs' & Hst & Hx).
    rewrite (st_step _ _ _ _ _ E). rewrite app_assoc. destruct x as [p'|[]].
    + destruct Hx as [-> Ha']. destruct (IH fuel (p + Z.of_nat (length (item_text i))) (out ++ render str_at i) s' rest)
        as (s2 & E2 & Hs2 & Hst2); [by apply text_at_app in Ht|done|done|lia|]. exists s2. split_and!; [done|done|congruence].
    + exists s'. split_and!; [done|by apply shown_more|done].
Qed.

(** Directives for which there is room leave the scan running. *)
Lemma fmt_loop_run items : Forall (item_ok str_at) items -> forall fuel p l out s rest,
  text_at fmt p (concat (item_text <$> items) ++ l) -> shown buf sz out s ->
  args s = concat (item_args <$> items) ++ rest -> (length (out ++ concat (render str_at <$> items)) <= room sz)%nat ->
  exists s', st_loop (length items + fuel) (fmt_turn str_at tmp db fmt) p s =
      st_loop fuel (fmt_turn str_at tmp db fmt) (p + Z.of_nat (length (concat (item_text <$> items)))) s' /\
    shown buf sz (out ++ concat (render str_at <$> items)) s' /\ args s' = rest.
Proof.
  induction 1 as [|i items Hi Hitems IH]; intros fuel p l out s rest Ht Hs Ha Hr; cbn [fmap list_fmap concat length app Nat.add st_loop] in *.
  - exists s. by rewrite Z.add_0_r, app_nil_r.
  - rewrite <- app_assoc in Ht, Ha. rewrite app_assoc in Hr.
    destruct (fmt_turn_spec i p _ out s _ Hi Ht Hs Ha) as (x & s' & E & Hs' & _ & Hx).
    rewrite (st_step _ _ _ _ _ E). destruct x as [p'|[]]; [|rewrite length_app in Hr; lia]. destruct Hx as [-> Ha'].
    destruct (IH fuel (p + Z.of_nat (length (item_text i))) l (out ++ render str_at i) s' rest) as (s2 & E2 & Hs2 & Ha2);
      [by apply text_at_app in Ht|done|done|done|].
    exists s2. rewrite app_assoc. split; [|done]. rewrite E2, length_app. f_equal. lia.
Qed.

(** A percent sign in front of the NUL. *)
Lemma percent_nul p out s : text_at fmt p [ch "%"; 0] -> p + 2 = Z.of_nat (S (length fmt)) -> shown buf sz out s ->
  (length out + 2 <= room sz)%nat -> forall fuel, st_loop (S (S fuel)) (fmt_turn str_at tmp db fmt) p s = Fault.
Proof.
  intros Ht Hp Hs Hr fuel. cbn [st_loop].
  assert (exists s', fmt_turn str_at tmp db fmt p s = Ok (inl (p + 2), s')) as (s' & E).
  { unfold fmt_turn. rewrite (st_step _ _ _ _ _ (at_text _ _ _ _ s Ht)). change (ch "%" =? 0) with false. rewrite Z.eqb_refl. cbn [negb].
    rewrite (st_step _ _ _ _ _ (parse_spec fmt [] NoNum None LEN_NONE 0 [] s p (args s) ltac:(done) ltac:(done) I ltac:(done) Ht eq_refl)).
    destruct (emits_also buf sz _ _ _ _ (emits_char buf sz Hsz Hsmall (ch "%")) (emits_char buf sz Hsz Hsmall 0) out (set_args s (args s)))
      as (b & s1 & E & _ & _ & _ & Hb); [by apply shown_set_args|].
    exists s1. rewrite (st_step (print_conv _ _ _ _) _ _ b s1) by exact E.
    destruct b; [|pose proof (Hb eq_refl) as Hb'; rewrite length_app in Hb'; cbn in Hb'; lia].
    unfold mret, ST_ret. do 3 f_equal. cbn. lia. }
  rewrite (st_step _ _ _ _ _ E). apply st_fault. unfold fmt_turn. apply st_fault. unfold at_, rd.
  rewrite (proj2 (Z.ltb_ge _ _)) by lia. rewrite lookup_ge_None_2; [done|]. rewrite length_app. cbn [length]. lia.
Qed.

End scan.

Lemma items_length items : (length items <= length (concat (item_text <$> items)))%nat.
Proof.
  induction items as [|i items IH]; cbn; [done|]. rewrite length_app. destruct i; cbn [item_text length] in *; lia.
Qed.

(** The format string, the arguments and the text of a list of directives. *)
Definition format_of (items : list item) : list Z := concat (item_text <$> items).
Definition args_of (items : list item) : list Z := concat (item_args <$> items).
Definition render_all (str_at : Z -> option (list Z)) (items : list item) : list Z := concat (render str_at <$> items).

Lemma vfprintk_spec str_at tmp db buf sz items rest : Forall (item_ok str_at) items -> length tmp = 128%nat -> length db = 128%nat ->
  1 <= sz <= Z.of_nat (length buf) -> sz < 2 ^ 31 ->
  exists s', vfprintk str_at tmp db (format_of items) (KSt buf sz 0 0 (args_of items ++ rest) []) = Ok (count s', s') /\
    shown buf sz (render_all str_at items) s' /\ stores s' = [].
Proof.
  intros Hi Ht Hd Hsz Hsm. unfold vfprintk. set (s0 := KSt buf sz 0 0 _ []).
  assert (shown buf sz [] s0) as H0. { split; cbn [size buffer pos count s0]; rewrite ?take_nil; done. }
  assert (forall s out, shown buf sz out s -> s32 (count s) = count s) as Hc.
  { intros s out [_ _ _ E]. rewrite E, to_signed_small; [done|lia|]. rewrite length_take. unfold room. lia. }
  rewrite (st_step (st_gets _) _ s0 _ s0 eq_refl). cbn [size pos s0]. rewrite wrap_small by (unfold fits; lia).
  destruct (Z.leb_spec (sz - 1) 0) as [Hle|Hlt].
  - exists s0. unfold st_gets. rewrite (Hc s0 [] H0). split; [done|]. split; [|done].
    assert (room sz = 0%nat) as Hr by (unfold room; lia). destruct H0 as [? ? ? ?]. split; by rewrite Hr, take_0 in *.
  - destruct (fmt_loop_spec str_at tmp db Ht Hd buf sz Hsz Hsm (format_of items) items Hi (S (length (format_of items))) 0 [] s0 rest)
      as (s' & E & Hs' & Hst); [exists [], []; by rewrite app_nil_r|done|done|pose proof (items_length items); unfold format_of; lia|].
    rewrite (st_step _ _ _ _ _ E). exists s'. unfold st_gets. by rewrite (Hc s' _ Hs').
Qed.

(** ** Claims *)

(** C15: vsnprintk prints what its directives stand for.  For every list of
    directives (text, signed and unsigned integers of every length, strings,
    characters, pointers, with flags, widths and precisions, given in the
    format or taken from arguments) [vsnprintk] parses the format, takes
    exactly the arguments, and writes the characters of the directives, cut to
    one less than the size of the buffer, and a NUL; the rest of the buffer is
    untouched and the answer is the number of characters written. *)
Theorem vsnprintk_correct str_at tmp db buf sz items rest : Forall (item_ok str_at) items ->
  length tmp = 128%nat -> length db = 128%nat -> 1 <= sz <= Z.of_nat (length buf) -> sz < 2 ^ 31 ->
  let out := take (Z.to_nat (sz - 1)) (render_all str_at items) in
  vsnprintk str_at tmp db buf sz (format_of items) (args_of items ++ rest) =
    Ok (Z.of_nat (length out), out ++ 0 :: drop (S (length out)) buf, []).
Proof.
  intros Hi Ht Hd Hsz Hsm out. unfold vsnprintk. rewrite (proj2 (Z.eqb_neq _ _)) by lia.
  destruct (vfprintk_spec str_at tmp db buf sz items rest Hi Ht Hd Hsz Hsm) as (s' & -> & [Hsize Hbuf Hpos Hcnt] & Hst).
  rewrite Ok_bind. fold (room sz) in out. fold out in Hbuf, Hpos, Hcnt. rewrite Hpos, Hcnt, Hbuf, Hst.
  assert (length out <= room sz)%nat as Hl by (unfold out; rewrite length_take; lia).
  rewrite wr_Ok, Ok_bind by (rewrite length_app, length_drop; unfold room in *; lia).
  rewrite to_signed_small by (unfold room in *; lia). do 3 f_equal.
  rewrite insert_app_r_alt, Nat.sub_diag by lia. f_equal.
  destruct (lookup_lt_is_Some_2 buf (length out)) as [x Ex]; [unfold room in *; lia|]. by rewrite (drop_S _ _ _ Ex).
Qed.

(** vprintk hands the text, cut to 511 characters, to its backend. *)
Lemma vprintk_spec str_at tmp db buf items rest pb : Forall (item_ok str_at) items ->
  length tmp = 128%nat -> length db = 128%nat -> length buf = 512%nat -> backend pb <> 0 ->
  exists s, vprintk str_at tmp db buf (format_of items) (args_of items ++ rest) pb = Ok (Some (backend pb, s)) /\
    pos s = Z.of_nat (length (take 511 (render_all str_at items))) /\
    take (Z.to_nat (pos s)) (buffer s) = take 511 (render_all str_at items).
Proof.
  intros Hi Ht Hd Hb Hpb. unfold vprintk.
  destruct (vfprintk_spec str_at tmp db buf PRINTK_BUFFER_SIZE items rest Hi Ht Hd) as (s & -> & [_ Hbuf Hpos _] & _);
    [change PRINTK_BUFFER_SIZE with 512; lia|done|].
  exists s. rewrite Ok_bind, (proj2 (Z.eqb_neq _ _) Hpb). split; [done|]. change (room PRINTK_BUFFER_SIZE) with 511%nat in *.
  split; [done|]. by rewrite Hpos, Nat2Z.id, Hbuf, take_app_length.
Qed.

(** Numbers can be read back.  The decimal digits an integer conversion
    shows are a number without leading zeros whose value is the argument. *)
Theorem format_dec_value n tmp : fits 64 n -> length tmp = 128%nat ->
  exists i tmp', format_dec n 127 tmp = Ok (Z.of_nat i, tmp') /\ (i < 127)%nat /\
    let ds := (fun c => c - ch "0") <$> take (127 - i) (drop i tmp') in
    value 10 ds = n /\ Forall (fun d => 0 <= d < 10) ds /\ (n <> 0 -> head ds <> Some 0) /\
    drop 127 tmp' = drop 127 tmp.
Proof.
  intros Hn Ht. change 127 with (Z.of_nat 127). rewrite format_dec_spec by (done || lia).
  destruct (digs_value 65 10 n) as (Hv & Hf & Hh); [lia|by apply fits_digits|]. fold (digits 10 n) in *.
  pose proof (digits_length 10 n) as Hl. pose proof (digits_nonempty 10 n) as Hne.
  assert (0 < length (digits 10 n))%nat by (destruct (digits 10 n); [done|cbn; lia]).
  eexists _, _. split; [reflexivity|]. split; [lia|].
  set (ds := digits 10 n) in *. set (A := take (127 - length ds) tmp). assert (length A = 127 - length ds)%nat as HA by (unfold A; rewrite length_take; lia).
  rewrite drop_app_length' by done. replace (127 - (127 - length ds))%nat with (length (dec_char <$> ds)) by (rewrite length_fmap; lia).
  rewrite take_app_length. rewrite <- list_fmap_compose.
  assert ((fun c => c - ch "0") ∘ dec_char <$> ds = ds) as Eid.
  { rewrite <- (list_fmap_id ds) at 2. apply list_fmap_ext. intros i d _. unfold compose, dec_char, id. lia. }
  cbn zeta. rewrite Eid. split_and!; [done|done| |].
  - intros Hz. destruct (Hh Hz) as (d & l & -> & Hd). cbn. congruence.
  - rewrite app_assoc, drop_app_length'; [done|]. rewrite length_app, length_fmap. lia.
Qed.

(** A precision of 128 or more overruns the buffer of the digits.  The
    array digits_buf of vfprintk has 128 bytes and the precision is not
    checked: preparing a number with such a precision writes behind its
    end. *)
Theorem prepare_number_overrun v c p fl tmp db : fits 64 v -> length tmp = 128%nat -> length db = 128%nat -> 128 <= p ->
  prepare_number v c p fl tmp db = Fault.
Proof.
  intros Hv Ht Hd Hp. unfold prepare_number. change (TMP_BUF_SIZE - 1) with (Z.of_nat 127).
  rewrite wr_Ok, Ok_bind by lia. change (Z.of_nat 127) with 127.
  destruct (format_conv c v (<[127%nat := 0]> tmp) Hv) as (tmp' & -> & Hraw); [by rewrite length_insert|].
  rewrite Ok_bind. pose proof (plain_digits_bound c v) as Hl. set (T := plain_digits c v) in *.
  rewrite (proj2 (Z.eqb_neq p 0)), (proj2 (Z.leb_le 0 p)) by lia. cbn [andb].
  replace (127 - Z.of_nat (127 - length T)) with (Z.of_nat (length T)) by lia. rewrite Nat2Z.id.
  set (z := Z.to_nat (p - Z.of_nat (length T))).
  replace (Z.max 0 (p - Z.of_nat (length T))) with (Z.of_nat z) by lia. rewrite Nat2Z.id.
  pose proof (fill_digits_overrun z T (Z.of_nat (127 - length T)) tmp' db) as E. rewrite E; [done|lia|].
  intros j d Ej. rewrite <- Nat2Z.inj_add. apply rd_Ok. rewrite <- lookup_drop, Hraw. by apply lookup_app_l_Some.
Qed.

(** A format that ends in a percent sign is read past its end.  The NUL
    is taken for a conversion character and printed, and the scan goes on
    behind it. *)
Theorem vsnprintk_open_percent str_at tmp db buf sz items rest : Forall (item_ok str_at) items ->
  length tmp = 128%nat -> length db = 128%nat -> 1 <= sz <= Z.of_nat (length buf) -> sz < 2 ^ 31 ->
  Z.of_nat (length (render_all str_at items)) + 2 < sz ->
  vsnprintk str_at tmp db buf sz (format_of items ++ [ch "%"]) (args_of items ++ rest) = Fault.
Proof.
  intros Hi Ht Hd Hsz Hsm Hroom. unfold vsnprintk. rewrite (proj2 (Z.eqb_neq _ _)) by lia.
  unfold vfprintk. set (s0 := KSt buf sz 0 0 _ []). set (fmt := format_of items ++ [ch "%"]).
  assert (shown buf sz [] s0) as H0. { split; cbn [size buffer pos count s0]; rewrite ?take_nil; done. }
  rewrite (st_step (st_gets _) _ s0 _ s0 eq_refl). cbn [size pos s0]. rewrite wrap_small by (unfold fits; lia).
  rewrite (proj2 (Z.leb_gt _ _)) by lia. pose proof (items_length items) as Hl.
  assert (text_at fmt 0 (format_of items ++ [ch "%"; 0])) as Htx.
  { exists [], []. rewrite app_nil_r. unfold fmt. by rewrite <- app_assoc. }
  destruct (fmt_loop_run str_at tmp db Ht Hd buf sz Hsz Hsm fmt items Hi (S (length fmt) - length items) 0 _ [] s0 rest Htx H0 eq_refl)
    as (s' & E & Hs' & _); [unfold room; cbn [app]; unfold render_all in Hroom; lia|].
  fold (format_of items) in E, Hl. assert (length fmt = length (format_of items) + 1)%nat as Hf by (unfold fmt; by rewrite length_app).
  replace (length items + (S (length fmt) - length items))%nat with (S (length fmt)) in E by lia.
  rewrite st_fault; [done|]. rewrite E. replace (S (length fmt) - length items)%nat with (S (S (length fmt - 1 - length items))) by lia.
  apply (percent_nul str_at tmp db Ht Hd buf sz Hsz Hsm fmt _ (render_all str_at items)); [|lia|done|unfold room; lia].
  by apply (text_at_app fmt 0 (format_of items) [ch "%"; 0]).
Qed.

(** ** Witnesses *)

(** The format of three directives and some text: a zero-padded signed number,
    a hexadecimal number of 16 bits with its prefix, and a string of at most
    three characters in a field of six whose width is an argument. *)
Definition demo_items : list item :=
  [Lit (ch "n"); Lit (ch "="); Conv [ch "0"] (Num 6) None LEN_NONE (BInt (ch "d") (-42)); Lit (ch " ");
   Conv [ch "#"] NoNum None LEN_H (BInt (ch "x") 0x123beef); Lit (ch " "); Conv [] (Star (-6)) (Some (Num 3)) LEN_NONE (BStr 5000)].
Definition demo_strings (a : Z) : option (list Z) := if a =? 5000 then Some (ch <$> ["k"; "e"; "r"; "n"; "e"; "l"]%char) else None.

Lemma demo_items_ok : Forall (item_ok demo_strings) demo_items.
Proof.
  repeat apply Forall_cons_2; [by split..| |by split| |by split| |done]; cbn [item_ok body_ok prec_value].
  - split_and!; [by repeat constructor|by vm_compute|done|done|done].
  - split_and!; [by repeat constructor|done|done|done|done].
  - split_and!; [done|by vm_compute|by vm_compute|right; by eexists].
Qed.

Lemma vsnprintk_correct_witness :
  vsnprintk demo_strings (replicate 128 7) (replicate 128 9) (replicate 30 1) 30 (format_of demo_items) (args_of demo_items ++ [77]) =
    Ok (22, (ch <$> ["n"; "="; "-"; "0"; "0"; "0"; "4"; "2"; " "; "0"; "x"; "b"; "e"; "e"; "f"; " "; "k"; "e"; "r"; " "; " "; " "]%char) ++ 0 :: replicate 7 1, []).
Proof.
  pose proof (vsnprintk_correct demo_strings (replicate 128 7) (replicate 128 9) (replicate 30 1) 30 demo_items [77] demo_items_ok eq_refl eq_refl) as H.
  assert (render_all demo_strings demo_items = ch <$> ["n"; "="; "-"; "0"; "0"; "0"; "4"; "2"; " "; "0"; "x"; "b"; "e"; "e"; "f"; " "; "k"; "e"; "r"; " "; " "; " "]%char) as E
    by (vm_compute; reflexivity).
  rewrite E in H. apply H; [cbn; lia|lia].
Defined.

Lemma format_dec_value_witness : exists i tmp', format_dec 18446744073709551615 127 (replicate 128 7) = Ok (Z.of_nat i, tmp') /\ (i < 127)%nat /\
  value 10 ((fun c => c - ch "0") <$> take (127 - i) (drop i tmp')) = 18446744073709551615.
Proof.
  destruct (format_dec_value 18446744073709551615 (replicate 128 7)) as (i & tmp' & E & Hi & Hv & _); [by unfold fits|reflexivity|].
  exists i, tmp'. split; [exact E|]. split; [exact Hi|exact Hv].
Defined.

Lemma prepare_number_overrun_witness : prepare_number 5 (ch "d") 128 0 (replicate 128 7) (replicate 128 9) = Fault.
Proof. apply (prepare_number_overrun 5 (ch "d") 128 0 (replicate 128 7) (replicate 128 9)); [by unfold fits|reflexivity|reflexivity|lia]. Defined.

Lemma vsnprintk_open_percent_witness :
  vsnprintk demo_strings (replicate 128 7) (replicate 128 9) (replicate 30 1) 30 (format_of demo_items ++ [ch "%"]) (args_of demo_items ++ []) = Fault.
Proof.
  apply (vsnprintk_open_percent demo_strings (replicate 128 7) (replicate 128 9) (replicate 30 1) 30 demo_items [] demo_items_ok);
    [reflexivity|reflexivity|cbn; lia|lia|vm_compute; reflexivity].
Defined.
