(* ===== verification/Files.v ===== *)
(** * Tables of file descriptors (kernel/task/files.c)

    A table is a dynamic array of 8-byte elements meant to be pointers to open
    files.  [dynarr_get] answers the address of an element, and the code takes
    that address for the file: a pointer to a file is therefore the file object
    itself or the place of an element in a table.  What happens to files is
    logged as the calls of vfs_file_get and vfs_close; the first eight bytes of
    a file object are a parameter. *)

From S2P Require Import Prelude Bitmap Dynarr Endian.

Local Open Scope Z_scope.

Definition MAX_FD : Z := 1024.

(** files.c: struct files_descriptor *)
Record files_descriptor := Fdt { fd_table : dynarr_t; refcount : Z }.

Inductive file_ptr := Obj (a : Z) | Slot (off : Z).

(** What the tables ask of the file system. *)
Inductive vcall := vfs_file_get (f : file_ptr) | vfs_close (f : file_ptr).

Section files.
Context `{Heap} (file_head : Z -> bytes).

(** files.c: task_files_alloc; [mem] and [record] say whether the two records
    could be allocated *)
Definition task_files_alloc (mem record : bool) : option files_descriptor :=
  if negb mem then None
  else match dynarr_create record 8 MAX_FD with
       | None => None
       | Some t => Some (Fdt t 1)
       end.

(** files.c: task_files_get *)
Definition task_files_get (fdt : option files_descriptor) : option files_descriptor :=
  match fdt with None => None | Some f => Some (Fdt (fd_table f) (s32 (refcount f + 1))) end.

(** The address dynarr_get answers, taken for a file. *)
Definition get_file (t : dynarr_t) (i : Z) : option file_ptr := Slot <$> dynarr_get (Some t) i.

(** files.c: task_files_put, the loop that closes what is still open *)
Definition close_all (t : dynarr_t) : list vcall :=
  omap (fun i => vfs_close <$> get_file t i) (seqZ 0 (current_count t)).

(** files.c: task_files_put; [None] when the table is gone *)
Definition task_files_put (fdt : option files_descriptor) : option files_descriptor * list vcall :=
  match fdt with
  | None => (None, [])
  | Some f =>
      let new_ref := s32 (refcount f - 1) in
      if new_ref =? 0 then (None, close_all (fd_table f))
      else (Some (Fdt (fd_table f) new_ref), [])
  end.

(** files.c: task_files_alloc_fd, the search for a free element *)
Definition find_free (t : dynarr_t) : outcome (unit + Z) :=
  for_ret (Z.to_nat (current_count t)) 0 (fun i _ =>
    Ok (match get_file t i with None => inr i | Some _ => inl tt end)) tt.

(** files.c: task_files_alloc_fd; the error number and the descriptor.  [out]
    says that the address for the result is not NULL *)
Definition task_files_alloc_fd (fdt : option files_descriptor) (out : bool) : outcome ((Z * Z) * option files_descriptor) :=
  match fdt with
  | None => Ok ((- EINVAL, 0), None)
  | Some f =>
      if negb out then Ok ((- EINVAL, 0), fdt)
      else
        let count := current_count (fd_table f) in
        x ← find_free (fd_table f);
        match x with
        | inr i => Ok ((0, u32 i), fdt)
        | inl _ =>
            if MAX_FD <=? count then Ok ((- EMFILE, 0), fdt)
            else
              '(ok, t) ← dynarr_append (Some (fd_table f)) None;
              let f := Fdt (default (fd_table f) t) (refcount f) in
              if negb ok then Ok ((- EMFILE, 0), Some f) else Ok ((0, u32 count), Some f)
        end
  end.

(** The bytes that dynarr_set copies from where a file pointer points. *)
Definition pointee (t : dynarr_t) (f : file_ptr) : bytes :=
  match f with Obj a => file_head a | Slot off => mem_of (read (arr t) off 8) end.

(** dynarr_set on the table, and the table afterwards. *)
Definition set_fd (f : files_descriptor) (fd : Z) (e : option bytes) : outcome (bool * files_descriptor) :=
  '(ok, t) ← settle (dynarr_set (Some (fd_table f)) fd e);
  Ok (ok, Fdt (default (fd_table f) t) (refcount f)).

Definition bad_fd (fd : Z) : bool := (fd <? 0) || (MAX_FD <=? fd).

(** files.c: task_files_install; the file is an object or NULL *)
Definition task_files_install (fdt : option files_descriptor) (fd : Z) (file : option Z)
  : outcome (Z * option files_descriptor * list vcall) :=
  match fdt, file with
  | Some f, Some a =>
      if bad_fd fd then Ok (- EINVAL, fdt, [])
      else match get_file (fd_table f) fd with
           | Some _ => Ok (- EBUSY, fdt, [])
           | None =>
               '(ok, f) ← set_fd f fd (Some (pointee (fd_table f) (Obj a)));
               if negb ok then Ok (- ENOMEM, Some f, [vfs_file_get (Obj a); vfs_close (Obj a)])
               else Ok (0, Some f, [vfs_file_get (Obj a)])
           end
  | _, _ => Ok (- EINVAL, fdt, [])
  end.

(** files.c: task_files_open *)
Definition task_files_open (fdt : option files_descriptor) (fd : Z) : option file_ptr * list vcall :=
  match fdt with
  | None => (None, [])
  | Some f =>
      if bad_fd fd then (None, [])
      else if current_count (fd_table f) <=? fd then (None, [])
      else match get_file (fd_table f) fd with
           | Some p => (Some p, [vfs_file_get p])
           | None => (None, [])
           end
  end.

(** files.c: task_files_close *)
Definition task_files_close (fdt : option files_descriptor) (fd : Z) : outcome (Z * option files_descriptor * list vcall) :=
  match fdt with
  | None => Ok (- EINVAL, None, [])
  | Some f =>
      if bad_fd fd then Ok (- EINVAL, fdt, [])
      else if current_count (fd_table f) <=? fd then Ok (- EBADF, fdt, [])
      else match get_file (fd_table f) fd with
           | None => Ok (- EBADF, fdt, [])
           | Some p => '(_, f) ← set_fd f fd None; Ok (0, Some f, [vfs_close p])
           end
  end.

(** files.c: task_files_copy_list, one descriptor; the error number is 0 when
    it was copied *)
Definition copy_fd (src : files_descriptor) (fd : Z) (dst : files_descriptor) (log : list vcall)
  : outcome (Z * files_descriptor * list vcall) :=
  if bad_fd fd then Ok (- EINVAL, dst, log)
  else if current_count (fd_table src) <=? fd then Ok (- EBADF, dst, log)
  else match get_file (fd_table src) fd with
       | None => Ok (- EBADF, dst, log)
       | Some p =>
           match get_file (fd_table dst) fd with
           | Some _ => Ok (- EBUSY, dst, log)
           | None =>
               '(ok, dst) ← set_fd dst fd (Some (pointee (fd_table src) p));
               if negb ok then Ok (- ENOMEM, dst, log ++ [vfs_file_get p; vfs_close p])
               else Ok (0, dst, log ++ [vfs_file_get p])
           end
       end.

(** files.c: task_files_copy_list, the first loop: the error, the number of
    copied descriptors, the table and the calls *)
Fixpoint copy_fds (src : files_descriptor) (fds : list Z) (copied : nat) (dst : files_descriptor) (log : list vcall)
  : outcome (Z * nat * files_descriptor * list vcall) :=
  match fds with
  | [] => Ok (0, copied, dst, log)
  | fd :: fds =>
      '(err, dst, log) ← copy_fd src fd dst log;
      if negb (err =? 0) then Ok (err, copied, dst, log) else copy_fds src fds (S copied) dst log
  end.

(** files.c: task_files_copy_list, the roll back over the copied descriptors,
    the last one first *)
Fixpoint roll_back (src : files_descriptor) (fds : list Z) (dst : files_descriptor) (log : list vcall)
  : outcome (files_descriptor * list vcall) :=
  match fds with
  | [] => Ok (dst, log)
  | fd :: fds =>
      dst ← (if fd <? current_count (fd_table dst) then '(_, d) ← set_fd dst fd None; Ok d else Ok dst);
      let file := if fd <? current_count (fd_table src) then get_file (fd_table src) fd else None in
      roll_back src fds dst (log ++ match file with Some p => [vfs_close p] | None => [] end)
  end.

(** files.c: task_files_copy_list; [fd_list] may be NULL *)
Definition task_files_copy_list (dst src : option files_descriptor) (fd_list : option (list Z)) (fd_count : Z)
  : outcome (Z * option files_descriptor * list vcall) :=
  match dst, src with
  | Some d, Some s =>
      match fd_list with
      | None => Ok (if 0 <? fd_count then - EINVAL else 0, dst, [])
      | Some l =>
          if fd_count =? 0 then Ok (0, dst, [])
          else
            let fds := take (Z.to_nat fd_count) l in
            '(err, copied, d, log) ← copy_fds s fds 0 d [];
            if negb (err =? 0) then
              '(d, log) ← roll_back s (rev (take copied fds)) d log;
              Ok (err, Some d, log)
            else Ok (0, Some d, log)
      end
  | _, _ => Ok (- EINVAL, dst, [])
  end.

End files.

(** ** What the tables do *)

Lemma get_file_below t i : i < current_count t -> get_file t i = Some (Slot (i * element_size t)).
Proof. intros Hi. unfold get_file, dynarr_get. by rewrite (proj2 (Z.leb_gt _ _) Hi). Qed.

Lemma find_free_none t : find_free t = Ok (inl tt).
Proof.
  unfold find_free. destruct (Z.le_gt_cases (current_count t) 0) as [Hle|Hlt]; [by rewrite Z2Nat.nonpos|].
  assert (forall n i, 0 <= i -> i + Z.of_nat n <= current_count t ->
    for_ret n i (fun i _ => Ok (match get_file t i with None => inr i | Some _ => inl tt end)) tt = Ok (inl tt)) as H.
  { induction n as [|n IH]; intros i H0 Hi; cbn [for_ret]; [done|]. rewrite get_file_below by lia. cbn. apply IH; lia. }
  apply H; lia.
Qed.

Section claims.
Context `{Heap} (file_head : Z -> bytes).

(** No descriptor is ever handed out.  Whatever the table holds,
    [task_files_alloc_fd] answers -EMFILE: the elements of the table are never
    taken for free, and appending NULL is refused by the array. *)
Theorem task_files_alloc_fd_fails f : task_files_alloc_fd (Some f) true = Ok ((- EMFILE, 0), Some f).
Proof.
  unfold task_files_alloc_fd. cbn [negb]. rewrite find_free_none, Ok_bind.
  destruct (MAX_FD <=? _); [done|]. cbn. by destruct f.
Qed.

Lemma set_fd_null f fd : set_fd f fd None = Ok (false, f).
Proof. unfold set_fd. cbn. by destruct f. Qed.

End claims.

(** An installed file is never found again.  When [task_files_install]
    stores a file, [task_files_open] of the descriptor answers the address of
    the element and not the file, whose pointer is not stored anywhere: the
    element holds the first bytes of the file object.  [task_files_close]
    answers success, closes the address of the element and keeps the entry, so
    it can be closed again and again, and the descriptor stays busy. *)
Theorem installed_file_lost `{HeapLaws} (file_head : Z -> bytes) f fd a f' log :
  dynarr_wf (fd_table f) -> element_size (fd_table f) = 8 -> holds (file_head a) 8 ->
  task_files_install file_head (Some f) fd (Some a) = Ok (0, Some f', log) ->
  log = [vfs_file_get (Obj a)] /\ elem (fd_table f') fd = read (file_head a) 0 8 /\
  task_files_open (Some f') fd = (Some (Slot (fd * 8)), [vfs_file_get (Slot (fd * 8))]) /\
  task_files_close (Some f') fd = Ok (0, Some f', [vfs_close (Slot (fd * 8))]) /\
  (forall b, task_files_install file_head (Some f') fd (Some b) = Ok (- EBUSY, Some f', [])).
Proof.
  intros Hw Hs Hh. unfold task_files_install. destruct (bad_fd fd) eqn:Eb; [done|].
  apply orb_false_iff in Eb as [Hlo Hm]. zbool. unfold MAX_FD in *.
  destruct (get_file (fd_table f) fd) eqn:Eg; [done|]. unfold set_fd. cbn [pointee].
  destruct (dynarr_set_spec (fd_table f) fd (file_head a) Hw) as (ok & t & -> & _ & Hs' & _ & Hok); [by rewrite Hs|lia|lia|].
  cbn [settle default from_option id]. rewrite !Ok_bind. destruct ok; [|done]. cbn [negb]. intros [= <- <-].
  destruct (Hok eq_refl) as (Hc & He & _). rewrite Hs in *.
  assert (get_file t fd = Some (Slot (fd * 8))) as Eg' by (rewrite get_file_below, Hs' by lia; done).
  unfold task_files_open, task_files_close, bad_fd, MAX_FD. cbn [fd_table].
  rewrite (proj2 (Z.ltb_ge fd 0)), (proj2 (Z.leb_gt 1024 fd)), (proj2 (Z.leb_gt (current_count t) fd)), Eg' by lia. cbn [orb].
  rewrite set_fd_null. by split_and!.
Qed.

(** ** Witness *)

Definition demo_fdt : files_descriptor := Fdt (Dynarr (filled 128 0) 8 0 14 16 1024) 1.

Lemma installed_file_lost_witness : exists f',
  @task_files_install demo_heap (fun _ => filled 8 0xAB) (Some demo_fdt) 3 (Some 0x5000) = Ok (0, Some f', [vfs_file_get (Obj 0x5000)]) /\
  task_files_open (Some f') 3 = (Some (Slot 24), [vfs_file_get (Slot 24)]).
Proof.
  destruct (@task_files_install demo_heap (fun _ => filled 8 0xAB) (Some demo_fdt) 3 (Some 0x5000)) as [[[r f] l]| |] eqn:E;
    [|vm_compute in E; discriminate..].
  assert (r = 0) as -> by (vm_compute in E; congruence).
  destruct f as [f'|]; [|vm_compute in E; discriminate].
  destruct (@installed_file_lost demo_heap demo_heap_laws (fun _ => filled 8 0xAB) demo_fdt 3 0x5000 f' l) as (-> & _ & Ho & _).
  - constructor; try (by vm_compute). by apply filled_wf; vm_compute.
  - reflexivity.
  - intros i Hi. exists 0xAB. rewrite filled_lookup. split; [|by unfold fits]. by rewrite (proj2 (Z.leb_le _ _)), (proj2 (Z.ltb_lt _ _)) by lia.
  - exact E.
  - exists f'. split; [reflexivity|exact Ho].
Defined.
