(* ===== verification/Elf.v ===== *)
(** * The ELF loader (kernel/exec/elf/core.c, kernel/exec/elf/core.h)

    Parsing an executable from a file that is not trusted.  The file is an
    interface: what vfs_read answers and which bytes it puts into the buffer.
    The heap is the set of live blocks with the number of bytes each one has; a
    read that puts more bytes into a buffer than it has, a field outside the
    bytes read and freeing a block twice are a [Fault]. *)

From S2P Require Import Prelude StateM Bitmap Dynarr Endian.

Local Open Scope Z_scope.

(** core.h: the numbers of the format *)
Definition ELFMAG : list Z := [0x7f; 0x45; 0x4c; 0x46].
Definition ELFCLASS64 : Z := 2.
Definition ELFDATA2LSB : Z := 1.
Definition ET_EXEC : Z := 2.
Definition ET_DYN : Z := 3.
Definition EM_X86_64 : Z := 62.
Definition EM_AARCH64 : Z := 183.
Definition EM_RISCV : Z := 243.
Definition PT_LOAD : Z := 1.
Definition PT_INTERP : Z := 3.
Definition PT_NOTE : Z := 4.
Definition PT_PHDR : Z := 6.
Definition PF_X : Z := 1.
Definition PF_W : Z := 2.
Definition PF_R : Z := 4.
Definition VM_READ : Z := 1.
Definition VM_WRITE : Z := 2.
Definition VM_EXEC : Z := 4.

(** config.h *)
Definition ARCH_UNKNOWN : Z := 0.
Definition ARCH_X86_64 : Z := 1.
Definition ARCH_ARM : Z := 2.
Definition ARCH_RISCV : Z := 3.
Definition ARCH : Z := ARCH_X86_64.

Definition NOTE_SHIZIOS_NAME : list Z := [83; 104; 105; 122; 105; 79; 83; 0].
Definition NOTE_SHIZIOS_TYPE : Z := 1.
Definition SIZEOF_EHDR : Z := 64.
Definition SIZEOF_PHDR : Z := 56.
Definition SIZEOF_NOTE : Z := 20.
Definition SIZEOF_SEGMENT : Z := 40.
Definition SIZEOF_INFO : Z := 48.

(** core.h: struct elf_ehdr, the members the loader uses *)
Record elf_ehdr := Ehdr {
  magic : list Z;
  ei_class : Z;
  ei_data : Z;
  e_type : Z;
  e_machine : Z;
  e_entry : Z;
  e_phoff : Z;
  e_phentsize : Z;
  e_phnum : Z
}.

(** core.h: struct elf_phdr *)
Record elf_phdr := Phdr {
  p_type : Z;
  p_flags : Z;
  p_offset : Z;
  p_vaddr : Z;
  p_filesz : Z;
  p_memsz : Z
}.

(** exec/core.h: struct exec_segment *)
Record exec_segment := Segment { vaddr : Z; memsz : Z; filesz : Z; offset : Z; prot : Z }.

(** exec/core.h: struct exec_loader_info; [block] is its address, the
    interpreter path is its block and its bytes *)
Record exec_loader_info := Info {
  block : Z;
  entry : Z;
  interp_base : Z;
  interp_path : option (Z * list Z);
  phdr : Z;
  phnum : Z;
  phent : Z;
  is_elf : Z;
  segments : list exec_segment
}.
Definition info_count (i : exec_loader_info) : Z := Z.of_nat (length (segments i)).

(** The live blocks of the heap and the next address. *)
Record eheap := Eheap { live : list Z; next_block : Z }.

(** What the loader needs of the file system and the heap. *)
Class ElfEnv := {
  vfs_read : option Z -> Z -> Z * list Z;   (* at a position or, for NULL, the one of the file *)
  heap_cap : Z -> option Z                  (* the bytes of the block for a request *)
}.

Section elf.
Context `{ElfEnv}.

Abbreviation em := (ST eheap).

Definition kheap_alloc (n : Z) : em (option (Z * Z)) := fun s =>
  match heap_cap n with
  | None => Ok (None, s)
  | Some c => Ok (Some (next_block s, c), Eheap (next_block s :: live s) (next_block s + 1))
  end.
Definition kheap_free (a : Z) : em unit := fun s =>
  if bool_decide (a ∈ live s) then Ok (tt, Eheap (filter (fun b => b <> a) (live s)) (next_block s)) else Fault.

(** vfs_read into a buffer of [cap] bytes: the answer and the bytes. *)
Definition read_into (cap : Z) (pos : option Z) (n : Z) : em (Z * list Z) := fun s =>
  let '(r, d) := vfs_read pos n in
  if Z.of_nat (length d) <=? cap then Ok ((r, d), s) else Fault.

(** A field of the bytes that were read. *)
Definition fld (l : list Z) (off : Z) (n : nat) : em Z := fun s =>
  if (0 <=? off) && (off + Z.of_nat n <=? Z.of_nat (length l)) then Ok (le_at l (Z.to_nat off) n, s) else Fault.

Definition load_ehdr (l : list Z) : em elf_ehdr :=
  m0 ← fld l 0 1; m1 ← fld l 1 1; m2 ← fld l 2 1; m3 ← fld l 3 1;
  cl ← fld l 4 1; da ← fld l 5 1;
  ty ← fld l 16 2; ma ← fld l 18 2; en ← fld l 24 8; po ← fld l 32 8;
  ps ← fld l 54 2; pn ← fld l 56 2;
  mret (Ehdr [m0; m1; m2; m3] cl da ty ma en po ps pn).

Definition load_phdr (l : list Z) (o : Z) : em elf_phdr :=
  ty ← fld l o 4; fl ← fld l (o + 4) 4; off ← fld l (o + 8) 8; va ← fld l (o + 16) 8;
  fs ← fld l (o + 32) 8; ms ← fld l (o + 40) 8;
  mret (Phdr ty fl off va fs ms).

(** core.c: elf_free *)
Definition elf_free (info : option exec_loader_info) : em unit :=
  match info with
  | None => mret tt
  | Some i =>
      _ ← (match interp_path i with Some (a, _) => kheap_free a | None => mret tt end);
      kheap_free (block i)
  end.

(** core.c: elf_arch_to_shizios *)
Definition elf_arch_to_shizios (m : Z) : Z :=
  if m =? EM_X86_64 then ARCH_X86_64
  else if m =? EM_AARCH64 then ARCH_ARM
  else if m =? EM_RISCV then ARCH_RISCV
  else ARCH_UNKNOWN.

(** core.c: elf_check_note, one entry *)
Definition note_turn (buf : list Z) (filesz pos : Z) : em (Z + bool) :=
  if u64 (pos + SIZEOF_NOTE) <=? filesz then
    namesz ← fld buf pos 4;
    descsz ← fld buf (pos + 4) 4;
    type ← fld buf (pos + 8) 4;
    _ ← fld buf (pos + 12) 8;
    if (namesz =? Z.of_nat (length NOTE_SHIZIOS_NAME)) && (type =? NOTE_SHIZIOS_TYPE)
       && bool_decide (bytes_at buf (Z.to_nat (pos + 12)) 8 = NOTE_SHIZIOS_NAME)
    then mret (inr true)
    else
      let entry_size := u64 (4 * 3 + namesz + descsz) in
      mret (inl (u64 (pos + Z.land (u64 (entry_size + 4 - 1)) (cnot 64 (4 - 1)))))
  else mret (inr false).

(** core.c: elf_check_note *)
Definition elf_check_note (ph : elf_phdr) : em bool :=
  b ← kheap_alloc (p_filesz ph);
  match b with
  | None => mret false
  | Some (buf, cap) =>
      '(ret, data) ← read_into cap (Some (p_offset ph)) (p_filesz ph);
      if negb (u64 ret =? p_filesz ph) then _ ← kheap_free buf; mret false
      else
        found ← st_loop (S (length data)) (note_turn data (p_filesz ph)) 0;
        _ ← kheap_free buf;
        mret found
  end.

(** core.c: elf_load, the search for the note *)
Fixpoint find_note (l : list elf_phdr) : em bool :=
  match l with
  | [] => mret false
  | ph :: l =>
      if p_type ph =? PT_NOTE then
        ok ← elf_check_note ph;
        if ok : bool then mret true else find_note l
      else find_note l
  end.

(** core.c: elf_load, a loadable segment *)
Definition segment_of (ph : elf_phdr) : exec_segment :=
  Segment (p_vaddr ph) (p_memsz ph) (p_filesz ph) (p_offset ph)
    (Z.lor (Z.lor (if negb (Z.land (p_flags ph) PF_R =? 0) then VM_READ else 0)
                  (if negb (Z.land (p_flags ph) PF_W =? 0) then VM_WRITE else 0))
           (if negb (Z.land (p_flags ph) PF_X =? 0) then VM_EXEC else 0)).

Definition set_segments (i : exec_loader_info) (l : list exec_segment) : exec_loader_info :=
  Info (block i) (entry i) (interp_base i) (interp_path i) (phdr i) (phnum i) (phent i) (is_elf i) l.
Definition set_interp (i : exec_loader_info) (p : option (Z * list Z)) : exec_loader_info :=
  Info (block i) (entry i) (interp_base i) p (phdr i) (phnum i) (phent i) (is_elf i) (segments i).
Definition set_phdr (i : exec_loader_info) (a : Z) : exec_loader_info :=
  Info (block i) (entry i) (interp_base i) (interp_path i) a (phnum i) (phent i) (is_elf i) (segments i).

(** core.c: elf_load, reading the interpreter path; [None] when it is refused *)
Definition load_interp (ph : elf_phdr) : em (option (Z * list Z)) :=
  b ← kheap_alloc (p_filesz ph);
  match b with
  | None => mret None
  | Some (interp, cap) =>
      '(ret, data) ← read_into cap (Some (p_offset ph)) (p_filesz ph);
      if negb (u64 ret =? p_filesz ph) then _ ← kheap_free interp; mret None
      else
        last ← fld data (p_filesz ph - 1) 1;
        if negb (last =? 0) then _ ← kheap_free interp; mret None
        else mret (Some (interp, data))
  end.

(** core.c: elf_load, the walk over the program headers: the information, and
    the first loadable segment; [None] when the file is refused, with the
    information freed *)
Fixpoint scan_phdrs (seg_count : nat) (l : list elf_phdr) (i : exec_loader_info) (has_phdr : bool) (first_load : option elf_phdr)
  : em (option (exec_loader_info * bool * option elf_phdr)) :=
  match l with
  | [] => mret (Some (i, has_phdr, first_load))
  | ph :: l =>
      if p_type ph =? PT_LOAD then
        if (seg_count <=? length (segments i))%nat then fun _ => Fault
        else scan_phdrs seg_count l (set_segments i (segments i ++ [segment_of ph])) has_phdr
               (match first_load with None => Some ph | Some _ => first_load end)
      else if p_type ph =? PT_INTERP then
        p ← load_interp ph;
        match p with
        | None => _ ← elf_free (Some i); mret None
        | Some p => scan_phdrs seg_count l (set_interp i (Some p)) has_phdr first_load
        end
      else if p_type ph =? PT_PHDR then scan_phdrs seg_count l (set_phdr i (p_vaddr ph)) true first_load
      else scan_phdrs seg_count l i has_phdr first_load
  end.

(** core.c: elf_load, the address of the program headers; [None] when it
    cannot be derived *)
Definition derive_phdr (i : exec_loader_info) (has_phdr : bool) (first_load : option elf_phdr) (phoff : Z) : option exec_loader_info :=
  if has_phdr then Some i
  else match first_load with
       | None => Some i
       | Some f =>
           if p_offset f =? 0 then
             let a := u64 (p_vaddr f + phoff) in
             if (a <? p_vaddr f) || (u64 (p_vaddr f + p_memsz f) <=? a) then None else Some (set_phdr i a)
           else None
       end.

(** core.c: elf_load, the checks on the header *)
Definition ehdr_ok (e : elf_ehdr) : bool :=
  bool_decide (magic e = ELFMAG) && (ei_class e =? ELFCLASS64) && (ei_data e =? ELFDATA2LSB)
  && ((e_type e =? ET_EXEC) || (e_type e =? ET_DYN))
  && negb ((elf_arch_to_shizios (e_machine e) =? ARCH_UNKNOWN) || negb (elf_arch_to_shizios (e_machine e) =? ARCH))
  && negb (e_phnum e =? 0)
  && negb (u64 (e_phoff e + s32 (e_phnum e * e_phentsize e)) <? e_phoff e).

Fixpoint load_phdrs (l : list Z) (n : nat) (o : Z) : em (list elf_phdr) :=
  match n with
  | O => mret []
  | S n => ph ← load_phdr l o; rest ← load_phdrs l n (o + SIZEOF_PHDR); mret (ph :: rest)
  end.

Definition is_load (ph : elf_phdr) : bool := p_type ph =? PT_LOAD.

(** core.c: elf_load *)
Definition elf_load : em (option exec_loader_info) :=
  '(ret, data) ← read_into SIZEOF_EHDR None SIZEOF_EHDR;
  if negb (u64 ret =? SIZEOF_EHDR) then mret None
  else
    e ← load_ehdr data;
    if negb (ehdr_ok e) then mret None
    else
      b ← kheap_alloc (e_phnum e * SIZEOF_PHDR);
      match b with
      | None => mret None
      | Some (phdrs, cap) =>
          '(ret, data) ← read_into cap (Some (e_phoff e)) (e_phnum e * SIZEOF_PHDR);
          if negb (u64 ret =? e_phnum e * SIZEOF_PHDR) then _ ← kheap_free phdrs; mret None
          else
            l ← load_phdrs data (Z.to_nat (e_phnum e)) 0;
            note_found ← find_note l;
            if negb note_found then _ ← kheap_free phdrs; mret None
            else
              let seg_count := length (filter (fun ph => is_load ph = true) l) in
              b ← kheap_alloc (SIZEOF_INFO + Z.of_nat seg_count * SIZEOF_SEGMENT);
              match b with
              | None => _ ← kheap_free phdrs; mret None
              | Some (a, _) =>
                  let info := Info a (e_entry e) 0 None 0 (e_phnum e) SIZEOF_PHDR 0 [] in
                  r ← scan_phdrs seg_count l info false None;
                  match r with
                  | None => _ ← kheap_free phdrs; mret None
                  | Some (info, has_phdr, first_load) =>
                      match derive_phdr info has_phdr first_load (e_phoff e) with
                      | None => _ ← elf_free (Some info); _ ← kheap_free phdrs; mret None
                      | Some info => _ ← kheap_free phdrs; mret (Some info)
                      end
                  end
              end
      end.

(** core.c: elf_destroy *)
Definition elf_destroy (info : option exec_loader_info) : em unit := elf_free info.

End elf.
