(* ===== verification/ElfSpec.v ===== *)
(** * The ELF loader: correctness

    For every file whose note and interpreter headers ask for sizes that the
    heap can round to pages, the loader stays inside its buffers, ends, and
    either refuses the file and gives all memory back or answers the segments,
    the entry and the program header address the file describes.  Two
    weaknesses: a second interpreter header leaks the first path, and a size
    above 2^64 - 4096 makes the heap answer a block that is too small. *)

From S2P Require Import Prelude StateM Bitmap Dynarr Endian Buddy Heap Elf.

Local Open Scope Z_scope.

(** The file system answers the number of bytes it put into the buffer, at
    most as many as asked for, or a negative error; for requests up to
    2^64 - 4096 bytes the heap answers blocks that are large enough, and none
    for an empty request (heap.c rounds larger requests to one page). *)
Class ElfLaws `{ElfEnv} := {
  read_law pos n r d : 0 <= n < 2 ^ 64 -> vfs_read pos n = (r, d) ->
    Z.of_nat (length d) <= n /\ - 2 ^ 63 <= r < 2 ^ 63 /\ (0 <= r -> r = Z.of_nat (length d)) /\ Forall (fits 8) d;
  cap_law n c : 0 <= n <= 2 ^ 64 - 4096 -> heap_cap n = Some c -> 0 < n <= c /\ c < 2 ^ 63
}.

(** ** What a file describes *)

Definition ehdr_of (l : list Z) : elf_ehdr :=
  Ehdr [le_at l 0 1; le_at l 1 1; le_at l 2 1; le_at l 3 1] (le_at l 4 1) (le_at l 5 1) (le_at l 16 2) (le_at l 18 2)
    (le_at l 24 8) (le_at l 32 8) (le_at l 54 2) (le_at l 56 2).
Definition phdr_of (l : list Z) : elf_phdr :=
  Phdr (le_at l 0 4) (le_at l 4 4) (le_at l 8 8) (le_at l 16 8) (le_at l 32 8) (le_at l 40 8).
Definition phdrs_of (l : list Z) (n : nat) : list elf_phdr := (fun i => phdr_of (drop (56 * i) l)) <$> seq 0 n.

(** The identification of the system at [pos] of a note segment. *)
Definition note_matches (buf : list Z) (pos : nat) : Prop :=
  (pos + 20 <= length buf)%nat /\ le_at buf pos 4 = 8 /\ le_at buf (pos + 8) 4 = NOTE_SHIZIOS_TYPE /\
  bytes_at buf (pos + 12) 8 = NOTE_SHIZIOS_NAME.

Definition loads (l : list elf_phdr) : list elf_phdr := filter (fun ph => is_load ph = true) l.
Definition interps (l : list elf_phdr) : list elf_phdr := filter (fun ph => p_type ph = PT_INTERP) l.
Definition own_phdrs (l : list elf_phdr) : list elf_phdr := filter (fun ph => p_type ph = PT_PHDR) l.

(** A header whose bytes are read into a block of their size: the size is one
    that the heap honours. *)
Definition size_ok (ph : elf_phdr) : Prop :=
  p_type ph = PT_NOTE \/ p_type ph = PT_INTERP -> p_filesz ph <= 2 ^ 64 - 4096.

Section reading.
Context `{ElfLaws}.

Definition has_note (ph : elf_phdr) : Prop := exists buf pos,
  vfs_read (Some (p_offset ph)) (p_filesz ph) = (p_filesz ph, buf) /\ note_matches buf pos.

(** ** Fields *)

Lemma fld_Ok l off n s : (off + n <= length l)%nat -> fld l (Z.of_nat off) n s = Ok (le_at l off n, s).
Proof.
  intros Hl. unfold fld. rewrite (proj2 (Z.leb_le _ _)), (proj2 (Z.leb_le _ _)) by lia. by rewrite Nat2Z.id.
Qed.

Lemma load_ehdr_Ok l s : length l = 64%nat -> load_ehdr l s = Ok (ehdr_of l, s).
Proof.
  intros Hl. unfold load_ehdr.
  rewrite (st_step _ _ _ _ _ (fld_Ok l 0 1 s ltac:(lia))), (st_step _ _ _ _ _ (fld_Ok l 1 1 s ltac:(lia))),
    (st_step _ _ _ _ _ (fld_Ok l 2 1 s ltac:(lia))), (st_step _ _ _ _ _ (fld_Ok l 3 1 s ltac:(lia))),
    (st_step _ _ _ _ _ (fld_Ok l 4 1 s ltac:(lia))), (st_step _ _ _ _ _ (fld_Ok l 5 1 s ltac:(lia))),
    (st_step _ _ _ _ _ (fld_Ok l 16 2 s ltac:(lia))), (st_step _ _ _ _ _ (fld_Ok l 18 2 s ltac:(lia))),
    (st_step _ _ _ _ _ (fld_Ok l 24 8 s ltac:(lia))), (st_step _ _ _ _ _ (fld_Ok l 32 8 s ltac:(lia))),
    (st_step _ _ _ _ _ (fld_Ok l 54 2 s ltac:(lia))), (st_step _ _ _ _ _ (fld_Ok l 56 2 s ltac:(lia))).
  done.
Qed.

Lemma le_at_drop (l : list Z) o k n : le_at (drop o l) k n = le_at l (o + k) n.
Proof. unfold le_at, bytes_at. by rewrite drop_drop. Qed.

Lemma load_phdr_Ok l o s : (o + 56 <= length l)%nat -> load_phdr l (Z.of_nat o) s = Ok (phdr_of (drop o l), s).
Proof.
  intros Hl. unfold load_phdr, phdr_of. rewrite !le_at_drop, Nat.add_0_r.
  assert (forall k, Z.of_nat o + Z.of_nat k = Z.of_nat (o + k)) as E by lia.
  rewrite (E 4%nat : Z.of_nat o + 4 = _), (E 8%nat : Z.of_nat o + 8 = _), (E 16%nat : Z.of_nat o + 16 = _),
    (E 32%nat : Z.of_nat o + 32 = _), (E 40%nat : Z.of_nat o + 40 = _).
  rewrite (st_step _ _ _ _ _ (fld_Ok l o 4 s ltac:(lia))), (st_step _ _ _ _ _ (fld_Ok l (o + 4) 4 s ltac:(lia))),
    (st_step _ _ _ _ _ (fld_Ok l (o + 8) 8 s ltac:(lia))), (st_step _ _ _ _ _ (fld_Ok l (o + 16) 8 s ltac:(lia))),
    (st_step _ _ _ _ _ (fld_Ok l (o + 32) 8 s ltac:(lia))), (st_step _ _ _ _ _ (fld_Ok l (o + 40) 8 s ltac:(lia))).
  done.
Qed.

Lemma load_phdrs_from l s n : forall o, (o + 56 * n <= length l)%nat ->
  load_phdrs l n (Z.of_nat o) s = Ok ((fun i => phdr_of (drop (o + 56 * i) l)) <$> seq 0 n, s).
Proof.
  induction n as [|n IH]; intros o Ho; cbn [load_phdrs]; [done|].
  rewrite (st_step _ _ _ _ _ (load_phdr_Ok l o s ltac:(lia))).
  replace (Z.of_nat o + SIZEOF_PHDR) with (Z.of_nat (o + 56)) by (unfold SIZEOF_PHDR; lia).
  rewrite (st_step _ _ _ _ _ (IH (o + 56)%nat ltac:(lia))). unfold mret, ST_ret. do 2 f_equal.
  rewrite <- cons_seq, <- fmap_S_seq. cbn [fmap list_fmap]. rewrite Nat.mul_0_r, Nat.add_0_r. f_equal.
  rewrite <- list_fmap_compose. apply list_fmap_ext. intros i x _. unfold compose. do 2 f_equal. lia.
Qed.

Lemma load_phdrs_Ok l s n : length l = (56 * n)%nat -> load_phdrs l n 0 s = Ok (phdrs_of l n, s).
Proof. intros Hl. apply (load_phdrs_from l s n 0). lia. Qed.

(** ** The heap *)

Record hwf (s : eheap) : Prop := {
  h_nodup : NoDup (live s);
  h_below : Forall (fun a => a < next_block s) (live s)
}.

Lemma alloc_spec n s : hwf s ->
  (exists c, heap_cap n = Some c /\ let s' := Eheap (next_block s :: live s) (next_block s + 1) in
     kheap_alloc n s = Ok (Some (next_block s, c), s') /\ hwf s') \/
  (heap_cap n = None /\ kheap_alloc n s = Ok (None, s)).
Proof.
  intros [Hn Hb]. unfold kheap_alloc. destruct (heap_cap n) as [c|]; [left|by right].
  exists c. split_and!; [done|done|]. split; cbn [live next_block].
  - constructor; [|done]. intros Hin. rewrite Forall_forall in Hb. specialize (Hb _ Hin). cbn in Hb. lia.
  - constructor; [lia|]. eapply Forall_impl; [done|]. cbn. lia.
Qed.

Lemma free_spec s a l1 l2 : hwf s -> live s = l1 ++ a :: l2 ->
  kheap_free a s = Ok (tt, Eheap (l1 ++ l2) (next_block s)) /\ hwf (Eheap (l1 ++ l2) (next_block s)).
Proof.
  intros [Hn Hb] E. rewrite E in *. apply NoDup_app in Hn as (H1 & Hd & H2). apply NoDup_cons in H2 as [Ha H2].
  assert (a ∉ l1) as Ha1 by (intros Hin; apply (Hd a Hin); by left). split.
  - unfold kheap_free. rewrite bool_decide_true by (rewrite E; set_solver). do 3 f_equal. rewrite E.
    rewrite filter_app, filter_cons_False by tauto. by rewrite !filter_notin.
  - split; cbn [live next_block].
    + apply NoDup_app. split_and!; [done| |done]. intros x Hx Hx2. apply (Hd x Hx). by right.
    + apply Forall_app in Hb as [? Hb]. apply Forall_cons in Hb as [_ ?]. by apply Forall_app.
Qed.

Lemma read_into_Ok cap pos n s r d : 0 <= n < 2 ^ 64 -> n <= cap -> vfs_read pos n = (r, d) -> read_into cap pos n s = Ok ((r, d), s).
Proof.
  intros Hn Hc E. unfold read_into. rewrite E. destruct (read_law pos n r d Hn E) as (Hl & _).
  by rewrite (proj2 (Z.leb_le _ _)) by lia.
Qed.

(** A read that answered the number of bytes asked for. *)
Lemma full_read pos n r d : 0 <= n < 2 ^ 63 -> vfs_read pos n = (r, d) -> u64 r = n -> r = n /\ Z.of_nat (length d) = n /\ Forall (fits 8) d.
Proof.
  intros Hn E Er. destruct (read_law pos n r d ltac:(lia) E) as (Hl & Hr & Hp & Hf).
  destruct (Z.le_gt_cases 0 r) as [Hr0|Hr0].
  - rewrite wrap_small in Er by (unfold fits; lia). specialize (Hp Hr0). split_and!; [done|lia|done].
  - exfalso. unfold wrap in Er. rewrite <- (Z.mod_add r 1 (2 ^ 64)), Z.mod_small in Er by lia. lia.
Qed.

(** ** Notes *)

Lemma note_step_pos pos x : 0 <= pos < 2 ^ 63 -> 12 <= x < 2 ^ 40 -> 
  pos < u64 (pos + Z.land (u64 (x + 4 - 1)) (cnot 64 (4 - 1))) < 2 ^ 63 + 2 ^ 41.
Proof.
  intros Hp Hx. rewrite (wrap_small 64 (x + 4 - 1)) by (unfold fits; lia).
  assert (Z.land (x + 4 - 1) (cnot 64 (4 - 1)) = (x + 3) - (x + 3) mod 4) as ->.
  { replace (x + 4 - 1) with (x + 3) by lia. change (4 - 1) with (Z.ones 2).
    transitivity (Z.ldiff (x + 3) (Z.ones 2)).
    - apply Z.bits_inj'. intros i Hi. rewrite Z.land_spec, Z.ldiff_spec, cnot_testbit by lia.
      destruct (Z.ltb_spec i 64); cbn [andb]; [done|].
      rewrite (fits_testbit 64 (x + 3)) by (unfold fits; lia). done.
    - rewrite Z.ldiff_ones_r by lia. rewrite Z.shiftr_div_pow2, Z.shiftl_mul_pow2 by lia. change (2 ^ 2) with 4. dlia. }
  rewrite wrap_small by (unfold fits; dlia). dlia.
Qed.

Lemma note_loop data s : Forall (fits 8) data -> Z.of_nat (length data) < 2 ^ 63 ->
  exists b, st_loop (S (length data)) (note_turn data (Z.of_nat (length data))) 0 s = Ok (b, s) /\
    (b = true -> exists pos, note_matches data pos).
Proof.
  intros Hf Hl. set (N := Z.of_nat (length data)) in *.
  destruct (st_loop_rule (fun pos s' => s' = s /\ 0 <= pos < 2 ^ 63 + 2 ^ 41) (fun b s' => s' = s /\ (b = true -> exists pos, note_matches data pos))
    (fun pos _ => Z.max 0 (N - pos)) (note_turn data N)) with (fuel := S (length data)) (a := 0) (s := s)
    as (b & s' & E & -> & Hb); [|done|unfold N; lia|by exists b].
  intros pos s0 [-> Hpos]. split; [lia|]. unfold note_turn, SIZEOF_NOTE. rewrite wrap_small by (unfold fits; lia).
  destruct (Z.leb_spec (pos + 20) N) as [Hle|Hgt]; [|by eexists _, _].
  rewrite <- (Z2Nat.id pos) by lia. set (p := Z.to_nat pos). assert (p + 20 <= length data)%nat as Hp by (unfold p, N in *; lia).
  rewrite (st_step _ _ _ _ _ (fld_Ok data p 4 s ltac:(lia))).
  rewrite (Nat2Z.inj_add p 4 : Z.of_nat p + 4 = _) || replace (Z.of_nat p + 4) with (Z.of_nat (p + 4)) by lia.
  rewrite (st_step _ _ _ _ _ (fld_Ok data (p + 4) 4 s ltac:(lia))).
  replace (Z.of_nat p + 8) with (Z.of_nat (p + 8)) by lia.
  rewrite (st_step _ _ _ _ _ (fld_Ok data (p + 8) 4 s ltac:(lia))).
  replace (Z.of_nat p + 12) with (Z.of_nat (p + 12)) by lia.
  rewrite (st_step _ _ _ _ _ (fld_Ok data (p + 12) 8 s ltac:(lia))). rewrite Nat2Z.id.
  destruct (_ && _) eqn:Ec.
  - apply andb_true_iff in Ec as [Ec E3]. apply andb_true_iff in Ec as [E1 E2]. zbool. apply bool_decide_eq_true in E3.
    eexists _, s. split; [done|]. split; [done|]. intros _. by exists p.
  - eexists _, s. split; [done|]. assert (forall o, fits 32 (le_at data o 4)) as Hfit.
    { intros o. unfold le_at. assert (Forall (fits 8) (bytes_at data o 4)) as Hb8 by (unfold bytes_at; by apply Forall_take, Forall_drop).
      pose proof (le_of_fits _ Hb8) as Hx. assert (length (bytes_at data o 4) <= 4)%nat as Hl4 by (unfold bytes_at; rewrite length_take; lia).
      eapply fits_mono; [|exact Hx]. lia. }
    pose proof (Hfit p) as H1. pose proof (Hfit (p + 4)%nat) as H2. unfold fits in H1, H2.
    rewrite (wrap_small 64 (4 * 3 + _ + _)) by (unfold fits; lia).
    destruct (note_step_pos (Z.of_nat p) (4 * 3 + le_at data p 4 + le_at data (p + 4) 4)) as [Hlt Hub]; [unfold p, N in *; lia|lia|].
    split; [split; [done|lia]|]. unfold p, N in *. lia.
Qed.

Lemma elf_check_note_spec ph s : hwf s -> fits 64 (p_filesz ph) -> p_filesz ph <= 2 ^ 64 - 4096 ->
  exists b s', elf_check_note ph s = Ok (b, s') /\ hwf s' /\ live s' = live s /\ (b = true -> has_note ph).
Proof.
  intros Hs Hf Hle. unfold elf_check_note. destruct (alloc_spec (p_filesz ph) s Hs) as [(c & Ec & E & Hs1)|[Ec E]];
    rewrite (st_step _ _ _ _ _ E); [|by exists false, s].
  destruct (cap_law _ _ ltac:(split; [apply Hf|exact Hle]) Ec) as [Hn Hc]. set (s1 := Eheap _ _) in *.
  destruct (vfs_read (Some (p_offset ph)) (p_filesz ph)) as [r d] eqn:Er.
  rewrite (st_step _ _ _ _ _ (read_into_Ok c _ _ s1 r d Hf ltac:(lia) Er)).
  destruct (free_spec s1 (next_block s) [] (live s) Hs1 eq_refl) as [Ef Hs2].
  destruct (Z.eqb_spec (u64 r) (p_filesz ph)) as [Eu|Eu]; cbn [negb].
  - destruct (full_read (Some (p_offset ph)) (p_filesz ph) r d ltac:(lia) Er Eu) as (-> & Hl & H8). rewrite <- Hl.
    destruct (note_loop d s1 H8 ltac:(lia)) as (b & Eb & Hb). rewrite (st_step _ _ _ _ _ Eb), (st_step _ _ _ _ _ Ef).
    eexists b, _. split; [done|]. split_and!; [done|done|]. intros ->. destruct (Hb eq_refl) as [pos Hpos]. by exists d, pos.
  - rewrite (st_step _ _ _ _ _ Ef). by eexists false, _.
Qed.

Lemma find_note_spec l s : hwf s -> Forall (fun ph => fits 64 (p_filesz ph)) l -> Forall size_ok l ->
  exists b s', find_note l s = Ok (b, s') /\ hwf s' /\ live s' = live s /\ (b = true -> exists ph, ph ∈ l /\ p_type ph = PT_NOTE /\ has_note ph).
Proof.
  intros Hs Hl Hok. revert s Hs. induction Hl as [|ph l Hph Hl IH]; intros s Hs; cbn [find_note]; [by exists false, s|].
  apply Forall_cons in Hok as [Hsz Hok]. specialize (IH Hok).
  destruct (Z.eqb_spec (p_type ph) PT_NOTE) as [Et|_].
  - destruct (elf_check_note_spec ph s Hs Hph ltac:(apply Hsz; by left)) as (b & s1 & E & Hs1 & L1 & Hb). rewrite (st_step _ _ _ _ _ E). destruct b.
    + exists true, s1. split_and!; try done. intros _. exists ph. split; [by left|]. split; [done|]. by apply Hb.
    + destruct (IH s1 Hs1) as (b & s2 & E2 & Hs2 & L2 & Hb2). exists b, s2. split_and!; try done; [congruence|].
      intros Hbt. destruct (Hb2 Hbt) as (q & Hq & Hq2). exists q. split; [by right|done].
  - destruct (IH s Hs) as (b & s2 & E2 & Hs2 & L2 & Hb2). exists b, s2. split_and!; try done.
    intros Hbt. destruct (Hb2 Hbt) as (q & Hq & Hq2). exists q. split; [by right|done].
Qed.

(** ** The program headers *)

(** The path of an interpreter header as the file has it, with its NUL. *)
Definition path_of (ph : elf_phdr) (path : list Z) : Prop :=
  vfs_read (Some (p_offset ph)) (p_filesz ph) = (p_filesz ph, path) /\ Z.of_nat (length path) = p_filesz ph /\ last path = Some 0.

Lemma load_interp_spec ph s : hwf s -> fits 64 (p_filesz ph) -> p_filesz ph <= 2 ^ 64 - 4096 ->
  exists r s', load_interp ph s = Ok (r, s') /\ hwf s' /\
    match r with None => live s' = live s | Some (a, path) => live s' = a :: live s /\ path_of ph path end.
Proof.
  intros Hs Hf Hle. unfold load_interp. destruct (alloc_spec (p_filesz ph) s Hs) as [(c & Ec & E & Hs1)|[Ec E]];
    rewrite (st_step _ _ _ _ _ E); [|by exists None, s].
  destruct (cap_law _ _ ltac:(split; [apply Hf|exact Hle]) Ec) as [Hn Hc]. set (s1 := Eheap _ _) in *.
  destruct (vfs_read (Some (p_offset ph)) (p_filesz ph)) as [r d] eqn:Er.
  rewrite (st_step _ _ _ _ _ (read_into_Ok c _ _ s1 r d Hf ltac:(lia) Er)).
  destruct (free_spec s1 (next_block s) [] (live s) Hs1 eq_refl) as [Ef Hs2].
  destruct (Z.eqb_spec (u64 r) (p_filesz ph)) as [Eu|Eu]; cbn [negb].
  2: { rewrite (st_step _ _ _ _ _ Ef). by eexists None, _. }
  destruct (full_read (Some (p_offset ph)) (p_filesz ph) r d ltac:(lia) Er Eu) as (-> & Hl & H8).
  replace (p_filesz ph - 1) with (Z.of_nat (length d - 1)) by lia.
  rewrite (st_step _ _ _ _ _ (fld_Ok d (length d - 1) 1 s1 ltac:(lia))).
  assert (exists b, d !! (length d - 1)%nat = Some b /\ le_at d (length d - 1) 1 = b) as (b & Eb & ->).
  { destruct (lookup_lt_is_Some_2 d (length d - 1)) as [b Eb]; [lia|]. exists b. split; [done|].
    unfold le_at, bytes_at. rewrite (drop_S _ _ _ Eb). cbn [firstn le_of]. rewrite take_0. cbn [le_of]. lia. }
  destruct (Z.eqb_spec b 0) as [->|Hb]; cbn [negb].
  - eexists (Some (next_block s, d)), s1. split; [done|]. split; [done|]. split; [done|]. split_and!; [done|done|].
    rewrite last_lookup. by rewrite <- Nat.sub_1_r.
  - rewrite (st_step _ _ _ _ _ Ef). by eexists None, _.
Qed.

(** What a walk over the headers [l] adds to the information. *)
Record scanned (l : list elf_phdr) (i : exec_loader_info) (hp : bool) (fl : option elf_phdr)
    (i' : exec_loader_info) (hp' : bool) (fl' : option elf_phdr) : Prop := {
  sc_block : block i' = block i;
  sc_entry : entry i' = entry i;
  sc_phnum : phnum i' = phnum i;
  sc_segments : segments i' = segments i ++ (segment_of <$> loads l);
  sc_first : fl' = match fl with Some _ => fl | None => head (loads l) end;
  sc_phdr : match last (own_phdrs l) with Some ph => phdr i' = p_vaddr ph /\ hp' = true | None => phdr i' = phdr i /\ hp' = hp end;
  sc_interp : match last (interps l) with
              | Some ph => exists a path, interp_path i' = Some (a, path) /\ path_of ph path
              | None => interp_path i' = interp_path i
              end
}.

(** The walk, one header at a time. *)
Section headers.
Context (ph : elf_phdr) (l : list elf_phdr) (i i' : exec_loader_info) (hp hp' : bool) (fl fl' : option elf_phdr).

Lemma scanned_load : p_type ph = PT_LOAD ->
  scanned l (set_segments i (segments i ++ [segment_of ph])) hp (match fl with None => Some ph | Some _ => fl end) i' hp' fl' ->
  scanned (ph :: l) i hp fl i' hp' fl'.
Proof.
  intros Et [S1 S2 S3 S4 S5 S6 S7]. assert (is_load ph = true) as El by (by apply Z.eqb_eq).
  split; try done; unfold loads, interps, own_phdrs.
  - rewrite filter_cons_True by done. rewrite S4. cbn [segments set_segments fmap list_fmap]. by rewrite <- app_assoc.
  - rewrite filter_cons_True by done. rewrite S5. by destruct fl.
  - rewrite filter_cons_False by (rewrite Et; done). done.
  - rewrite filter_cons_False by (rewrite Et; done). done.
Qed.

Lemma scanned_interp a path : p_type ph = PT_INTERP -> path_of ph path ->
  scanned l (set_interp i (Some (a, path))) hp fl i' hp' fl' -> scanned (ph :: l) i hp fl i' hp' fl'.
Proof.
  intros Et Hp [S1 S2 S3 S4 S5 S6 S7]. assert (is_load ph <> true) as El by (unfold is_load; by rewrite Et).
  split; try done; unfold loads, own_phdrs; rewrite ?(filter_cons_False (fun ph => is_load ph = true)) by done; try done.
  - rewrite filter_cons_False by (rewrite Et; done). done.
  - assert (interps (ph :: l) = ph :: interps l) as -> by (unfold interps; by rewrite filter_cons_True).
    rewrite last_cons. destruct (last (interps l)) as [q|]; [done|]. exists a, path. by rewrite S7.
Qed.

Lemma scanned_own : p_type ph = PT_PHDR -> scanned l (set_phdr i (p_vaddr ph)) true fl i' hp' fl' -> scanned (ph :: l) i hp fl i' hp' fl'.
Proof.
  intros Et [S1 S2 S3 S4 S5 S6 S7]. assert (is_load ph <> true) as El by (unfold is_load; by rewrite Et).
  split; try done; unfold loads, interps; rewrite ?(filter_cons_False (fun ph => is_load ph = true)) by done; try done.
  - assert (own_phdrs (ph :: l) = ph :: own_phdrs l) as -> by (unfold own_phdrs; by rewrite filter_cons_True).
    rewrite last_cons. by destruct (last (own_phdrs l)).
  - rewrite filter_cons_False by (rewrite Et; done). done.
Qed.

Lemma scanned_other : p_type ph <> PT_LOAD -> p_type ph <> PT_INTERP -> p_type ph <> PT_PHDR ->
  scanned l i hp fl i' hp' fl' -> scanned (ph :: l) i hp fl i' hp' fl'.
Proof.
  intros H1 H2 H3 [S1 S2 S3 S4 S5 S6 S7]. assert (is_load ph <> true) as El by (unfold is_load; by rewrite Z.eqb_eq).
  split; try done; unfold loads, interps, own_phdrs; by rewrite filter_cons_False.
Qed.
End headers.

Lemma elf_free_spec i s ints rest : hwf s -> live s = ints ++ block i :: rest -> fst <$> interp_path i = head ints ->
  exists s', elf_free (Some i) s = Ok (tt, s') /\ hwf s' /\ live s' = tail ints ++ rest.
Proof.
  intros Hs E Hi. unfold elf_free. destruct ints as [|a ints]; destruct (interp_path i) as [[b p]|]; cbn in Hi; simplify_eq.
  - rewrite st_ret_step. destruct (free_spec s (block i) [] rest Hs E) as [-> Hs2]. by eexists.
  - destruct (free_spec s a [] (ints ++ block i :: rest) Hs E) as [E1 Hs1]. rewrite (st_step _ _ _ _ _ E1).
    destruct (free_spec _ (block i) ints rest Hs1 eq_refl) as [-> Hs2]. by eexists.
Qed.

(** The state after a walk that started with the paths [ints]: refused, with
    all but one of the paths left behind, or the information with the blocks. *)
Definition scan_post (l : list elf_phdr) (i : exec_loader_info) (hp : bool) (fl : option elf_phdr) (ints rest : list Z)
    (r : option (exec_loader_info * bool * option elf_phdr)) (s' : eheap) : Prop :=
  match r with
  | None => exists leaked, live s' = leaked ++ rest /\ (length leaked < length ints + length (interps l))%nat
  | Some (i', hp', fl') => exists ints', live s' = ints' ++ block i' :: rest /\ fst <$> interp_path i' = head ints' /\
      length ints' = (length ints + length (interps l))%nat /\ scanned l i hp fl i' hp' fl'
  end.

(** A header that is no interpreter's adds nothing to the blocks. *)
Lemma scan_post_cons ph l i i1 hp hp1 fl fl1 ints rest r s' : p_type ph <> PT_INTERP ->
  (forall i' hp' fl', scanned l i1 hp1 fl1 i' hp' fl' -> scanned (ph :: l) i hp fl i' hp' fl') ->
  scan_post l i1 hp1 fl1 ints rest r s' -> scan_post (ph :: l) i hp fl ints rest r s'.
Proof.
  intros Ht Hsc. unfold scan_post, interps. rewrite filter_cons_False by done. destruct r as [[[i' hp'] fl']|]; [|done].
  intros (ints' & ? & ? & ? & ?). exists ints'. split_and!; try done. by apply Hsc.
Qed.

Lemma scan_spec n l : forall i hp fl s ints rest, hwf s -> Forall (fun ph => fits 64 (p_filesz ph)) l -> Forall size_ok l ->
  live s = ints ++ block i :: rest -> fst <$> interp_path i = head ints -> (length (segments i) + length (loads l) <= n)%nat ->
  exists r s', scan_phdrs n l i hp fl s = Ok (r, s') /\ hwf s' /\ scan_post l i hp fl ints rest r s'.
Proof.
  induction l as [|ph l IH]; intros i hp fl s ints rest Hs Hf Hok Hlive Hint Hn; cbn [scan_phdrs].
  { eexists (Some (i, hp, fl)), s. split; [done|]. split; [done|]. exists ints. rewrite Nat.add_0_r.
    split_and!; try done. split; try done; [by rewrite app_nil_r|by destruct fl]. }
  apply Forall_cons in Hf as [Hph Hf]. apply Forall_cons in Hok as [Hsz Hok]. unfold loads in Hn.
  destruct (Z.eqb_spec (p_type ph) PT_LOAD) as [Et|Hload].
  { rewrite filter_cons_True in Hn by (by apply Z.eqb_eq). cbn [length] in Hn. rewrite (proj2 (Nat.leb_gt _ _)) by lia.
    destruct (IH (set_segments i (segments i ++ [segment_of ph])) hp (match fl with None => Some ph | Some _ => fl end) s ints rest)
      as (r & s' & E & Hs' & Hr); [done|done|done|done|done|cbn [segments set_segments]; rewrite length_app; unfold loads; cbn [length]; lia|].
    exists r, s'. split_and!; [done|done|]. eapply scan_post_cons; [by rewrite Et| |exact Hr]. intros ? ? ?. by apply scanned_load. }
  rewrite filter_cons_False in Hn by (unfold is_load; by rewrite Z.eqb_eq).
  destruct (Z.eqb_spec (p_type ph) PT_INTERP) as [Et|Hintp]; [|destruct (Z.eqb_spec (p_type ph) PT_PHDR) as [Et|Hphdr]].
  - destruct (load_interp_spec ph s Hs Hph ltac:(apply Hsz; by right)) as (p & s1 & E1 & Hs1 & Hp). rewrite (st_step _ _ _ _ _ E1).
    assert (length (interps (ph :: l)) = S (length (interps l))) as Hil by (unfold interps; by rewrite filter_cons_True).
    unfold scan_post. rewrite Hil. destruct p as [[a path]|].
    + destruct Hp as [L1 Hpath].
      destruct (IH (set_interp i (Some (a, path))) hp fl s1 (a :: ints) rest) as (r & s' & E & Hs' & Hr);
        [done|done|done|by rewrite L1, Hlive|done|done|].
      exists r, s'. split_and!; [done|done|]. unfold scan_post in Hr. cbn [length] in Hr. destruct r as [[[i' hp'] fl']|].
      * destruct Hr as (ints' & L' & Hi' & Hl' & Hsc). exists ints'. split_and!; try done; [lia|]. by eapply scanned_interp.
      * destruct Hr as (lk & ? & ?). exists lk. split; [done|lia].
    + destruct (elf_free_spec i s1 ints rest Hs1 ltac:(by rewrite Hp) Hint) as (s2 & E2 & Hs2 & L2).
      rewrite (st_step _ _ _ _ _ E2). eexists None, s2. split_and!; [done|done|]. exists (tail ints). split; [done|].
      destruct ints; cbn; lia.
  - destruct (IH (set_phdr i (p_vaddr ph)) true fl s ints rest) as (r & s' & E & Hs' & Hr); [done|done|done|done|done|done|].
    exists r, s'. split_and!; [done|done|]. eapply scan_post_cons; [done| |exact Hr]. intros ? ? ?. by apply scanned_own.
  - destruct (IH i hp fl s ints rest) as (r & s' & E & Hs' & Hr); [done|done|done|done|done|done|].
    exists r, s'. split_and!; [done|done|]. eapply scan_post_cons; [done| |exact Hr]. intros ? ? ?. by apply scanned_other.
Qed.

(** ** Loading *)

(** The header and the program headers of the file. *)
Definition file_headers (e : elf_ehdr) (l : list elf_phdr) : Prop := exists hd pd,
  vfs_read None SIZEOF_EHDR = (SIZEOF_EHDR, hd) /\ e = ehdr_of hd /\ ehdr_ok e = true /\
  vfs_read (Some (e_phoff e)) (e_phnum e * SIZEOF_PHDR) = (e_phnum e * SIZEOF_PHDR, pd) /\ l = phdrs_of pd (Z.to_nat (e_phnum e)).

(** The information is what the headers describe. *)
Record described (e : elf_ehdr) (l : list elf_phdr) (i : exec_loader_info) : Prop := {
  d_note : exists ph, ph ∈ l /\ p_type ph = PT_NOTE /\ has_note ph;
  d_entry : entry i = e_entry e;
  d_phnum : phnum i = e_phnum e;
  d_segments : segments i = segment_of <$> loads l;
  d_phdr : match last (own_phdrs l), head (loads l) with
           | Some ph, _ => phdr i = p_vaddr ph
           | None, Some f => p_offset f = 0 /\ phdr i = p_vaddr f + e_phoff e /\ phdr i < u64 (p_vaddr f + p_memsz f)
           | None, None => phdr i = 0
           end;
  d_interp : match last (interps l) with
             | Some ph => exists a path, interp_path i = Some (a, path) /\ path_of ph path
             | None => interp_path i = None
             end
}.

Lemma le_at_fits_n (l : list Z) o n : Forall (fits 8) l -> fits (8 * Z.of_nat n) (le_at l o n).
Proof.
  intros Hf. unfold le_at. assert (Forall (fits 8) (bytes_at l o n)) as Hb by (unfold bytes_at; by apply Forall_take, Forall_drop).
  eapply fits_mono; [|by apply le_of_fits]. unfold bytes_at. rewrite length_take. lia.
Qed.

Lemma phdrs_fit l n : Forall (fits 8) l -> Forall (fun ph => fits 64 (p_filesz ph)) (phdrs_of l n).
Proof.
  intros Hf. unfold phdrs_of. apply Forall_fmap, Forall_forall. intros i _. unfold compose. cbn [p_filesz phdr_of].
  apply (le_at_fits_n _ _ 8). by apply Forall_drop.
Qed.

Lemma derive_spec e l i hp fl : fits 64 (e_phoff e) -> Forall (fun ph => fits 64 (p_vaddr ph)) l ->
  scanned l (Info (block i) (e_entry e) 0 None 0 (e_phnum e) SIZEOF_PHDR 0 []) false None i hp fl ->
  (exists ph, ph ∈ l /\ p_type ph = PT_NOTE /\ has_note ph) ->
  match derive_phdr i hp fl (e_phoff e) with
  | None => True
  | Some i' => described e l i' /\ block i' = block i /\ interp_path i' = interp_path i
  end.
Proof.
  intros Hoff Hva [S1 S2 S3 S4 S5 S6 S7] Hnote. unfold derive_phdr. cbn [entry phnum segments phdr interp_path app] in *. subst fl.
  destruct (last (own_phdrs l)) as [ph|] eqn:Eo; destruct S6 as [S6 ->].
  { split_and!; try done. split; try done. by rewrite Eo. }
  destruct (head (loads l)) as [f|] eqn:Eh; [|by split_and!; try done; split; try done; rewrite Eo, Eh].
  destruct (Z.eqb_spec (p_offset f) 0) as [E0|]; [|done]. destruct (_ || _) eqn:Ec; [done|]. zbool.
  split_and!; try done. split; try done. rewrite Eo, Eh. cbn [phdr set_phdr]. split_and!; [done| |done].
  assert (fits 64 (p_vaddr f)) as Hf.
  { rewrite Forall_forall in Hva. apply Hva. destruct (loads l) as [|x t] eqn:El; [done|]. cbn in Eh. simplify_eq.
    assert (f ∈ loads l) as Hin by (rewrite El; by left). unfold loads in Hin. by apply list_elem_of_filter in Hin as [_ ?]. }
  unfold fits in *. unfold wrap in *. destruct (Z.lt_ge_cases (p_vaddr f + e_phoff e) (2 ^ 64)); [by apply Z.mod_small; lia|].
  rewrite <- (Z.mod_add _ (-1)), Z.mod_small in H1 by lia. lia.
Qed.
Lemma phdrs_vaddr_fit l n : Forall (fits 8) l -> Forall (fun ph => fits 64 (p_vaddr ph)) (phdrs_of l n).
Proof.
  intros Hf. unfold phdrs_of. apply Forall_fmap, Forall_forall. intros i _. unfold compose. cbn [p_vaddr phdr_of].
  apply (le_at_fits_n _ _ 8). by apply Forall_drop.
Qed.

Lemma ehdr_fits hd : Forall (fits 8) hd -> fits 16 (e_phnum (ehdr_of hd)) /\ fits 64 (e_phoff (ehdr_of hd)).
Proof. intros Hf. split; [apply (le_at_fits_n hd 56 2)|apply (le_at_fits_n hd 32 8)]; done. Qed.

(** After the headers were read and a note was found: the second half of
    [elf_load], as a step of its own. *)
Definition load_rest (e : elf_ehdr) (l : list elf_phdr) (phdrs : Z) : ST eheap (option exec_loader_info) :=
  let seg_count := length (filter (fun ph => is_load ph = true) l) in
  b ← kheap_alloc (SIZEOF_INFO + Z.of_nat seg_count * SIZEOF_SEGMENT);
  match b with
  | None => _ ← kheap_free phdrs; mret None
  | Some (a, _) =>
      let info := Info a (e_entry e) 0 None 0 (e_phnum e) SIZEOF_PHDR 0 [] in
      r ← scan_phdrs seg_count l info false None;
      match r with
      | None => _ ← kheap_free phdrs; mret None
      | Some (info, has_phdr, first_load) =>
          match derive_phdr info has_phdr first_load (e_phoff e) with
          | None => _ ← elf_free (Some info); _ ← kheap_free phdrs; mret None
          | Some info => _ ← kheap_free phdrs; mret (Some info)
          end
      end
  end.

(** What a load leaves behind: the blocks of the answer on top of the live
    blocks [rest] of the start; when the file is refused, all but one of the
    paths that were read. *)
Definition load_post (e : elf_ehdr) (l : list elf_phdr) (rest : list Z) (r : option exec_loader_info) (s' : eheap) : Prop :=
  match r with
  | None => exists leaked, live s' = leaked ++ rest /\ (length leaked <= length (interps l) - 1)%nat
  | Some i => described e l i /\ exists ints, live s' = ints ++ block i :: rest /\
      fst <$> interp_path i = head ints /\ length ints = length (interps l)
  end.

Lemma load_rest_spec e l p s rest : hwf s -> live s = p :: rest -> fits 64 (e_phoff e) ->
  Forall (fun ph => fits 64 (p_filesz ph)) l -> Forall size_ok l -> Forall (fun ph => fits 64 (p_vaddr ph)) l ->
  (exists ph, ph ∈ l /\ p_type ph = PT_NOTE /\ has_note ph) ->
  exists r s', load_rest e l p s = Ok (r, s') /\ hwf s' /\ load_post e l rest r s'.
Proof.
  intros Hs Hl Hoff Hfs Hok Hva Hnote. unfold load_rest. set (n := length (filter _ l)).
  destruct (alloc_spec (SIZEOF_INFO + Z.of_nat n * SIZEOF_SEGMENT) s Hs) as [(c & _ & E & Hs1)|[_ E]]; rewrite (st_step _ _ _ _ _ E).
  2: { destruct (free_spec s p [] rest Hs Hl) as [Ef Hs2]. rewrite (st_step _ _ _ _ _ Ef). eexists None, _. split_and!; [done|done|].
       exists []. split; [done|]. cbn. lia. }
  set (a := next_block s) in *. set (i0 := Info a (e_entry e) 0 None 0 (e_phnum e) SIZEOF_PHDR 0 []).
  destruct (scan_spec n l i0 false None _ [] (p :: rest) Hs1 Hfs Hok) as (r & s2 & E2 & Hs2 & Hr); [by rewrite Hl|done|cbn; unfold n, loads; lia|].
  rewrite (st_step _ _ _ _ _ E2). destruct r as [[[i hp] fl]|]; cbn [scan_post length Nat.add] in Hr.
  2: { destruct Hr as (lk & L2 & Hlk). destruct (free_spec s2 p lk rest Hs2 L2) as [Ef Hs3]. rewrite (st_step _ _ _ _ _ Ef).
       eexists None, _. split_and!; [done|done|]. exists lk. split; [done|lia]. }
  destruct Hr as (ints & L2 & Hi & Hn & Hsc). pose proof (sc_block _ _ _ _ _ _ _ Hsc) as Hb. cbn [block i0] in Hb.
  pose proof (derive_spec e l i hp fl Hoff Hva) as Hd. rewrite Hb in Hd. specialize (Hd Hsc Hnote).
  destruct (derive_phdr i hp fl (e_phoff e)) as [i'|].
  - destruct Hd as (Hd & Hb' & Hi'). assert (live s2 = (ints ++ [block i]) ++ p :: rest) as L3 by (by rewrite L2, <- app_assoc).
    destruct (free_spec s2 p _ rest Hs2 L3) as [Ef Hs3]. rewrite (st_step _ _ _ _ _ Ef). eexists (Some i'), _. split_and!; [done|done|].
    split; [done|]. exists ints. rewrite Hb', Hi', Hb. split_and!; [|done|done]. cbn [live]. by rewrite <- app_assoc.
  - destruct (elf_free_spec i s2 ints (p :: rest) Hs2 L2 Hi) as (s3 & E3 & Hs3 & L3). rewrite (st_step _ _ _ _ _ E3).
    destruct (free_spec s3 p _ rest Hs3 L3) as [Ef Hs4]. rewrite (st_step _ _ _ _ _ Ef). eexists None, _. split_and!; [done|done|].
    exists (tail ints). split; [done|]. rewrite <- Hn. destruct ints; cbn; lia.
Qed.

(** What is known when a load was refused before the headers were read. *)
Definition load_result (rest : list Z) (r : option exec_loader_info) (s' : eheap) : Prop :=
  (r = None /\ live s' = rest) \/ exists e l, file_headers e l /\ load_post e l rest r s'.

(** The sizes of the file are ones that the heap honours. *)
Definition sizes_ok : Prop := forall e l, file_headers e l -> Forall size_ok l.

Lemma elf_load_spec s : hwf s -> sizes_ok -> exists r s', elf_load s = Ok (r, s') /\ hwf s' /\ load_result (live s) r s'.
Proof.
  intros Hs Hsz. unfold elf_load. destruct (vfs_read None SIZEOF_EHDR) as [ret hd] eqn:Er.
  rewrite (st_step _ _ _ _ _ (read_into_Ok SIZEOF_EHDR None SIZEOF_EHDR s ret hd ltac:(by unfold SIZEOF_EHDR) ltac:(done) Er)).
  destruct (Z.eqb_spec (u64 ret) SIZEOF_EHDR) as [Eu|]; cbn [negb]; [|exists None, s; split_and!; [done|done|by left]].
  destruct (full_read None SIZEOF_EHDR ret hd ltac:(by unfold SIZEOF_EHDR) Er Eu) as (-> & Hl & H8).
  rewrite (st_step _ _ _ _ _ (load_ehdr_Ok hd s ltac:(unfold SIZEOF_EHDR in *; lia))). destruct (ehdr_fits hd H8) as [Hpn Hpo].
  set (e := ehdr_of hd) in *. destruct (ehdr_ok e) eqn:Eok; cbn [negb]; [|exists None, s; split_and!; [done|done|by left]].
  unfold fits in Hpn. set (n := e_phnum e * SIZEOF_PHDR). assert (0 <= n < 2 ^ 63) as Hn by (unfold n, SIZEOF_PHDR; lia).
  destruct (alloc_spec n s Hs) as [(c & Ec & E & Hs1)|[_ E]]; rewrite (st_step _ _ _ _ _ E); [|exists None, s; split_and!; [done|done|by left]].
  destruct (cap_law n c ltac:(lia) Ec) as [[_ Hc] _]. set (p := next_block s) in *. set (s1 := Eheap _ _) in *.
  destruct (vfs_read (Some (e_phoff e)) n) as [ret pd] eqn:Erp.
  rewrite (st_step _ _ _ _ _ (read_into_Ok c (Some (e_phoff e)) n s1 ret pd ltac:(lia) Hc Erp)).
  destruct (free_spec s1 p [] (live s) Hs1 eq_refl) as [Ef Hsf].
  destruct (Z.eqb_spec (u64 ret) n) as [Eun|]; cbn [negb].
  2: { rewrite (st_step _ _ _ _ _ Ef). eexists None, _. split_and!; [done|done|by left]. }
  destruct (full_read (Some (e_phoff e)) n ret pd Hn Erp Eun) as (-> & Hpl & Hp8).
  rewrite (st_step _ _ _ _ _ (load_phdrs_Ok pd s1 (Z.to_nat (e_phnum e)) ltac:(unfold n, SIZEOF_PHDR in *; lia))).
  set (l := phdrs_of pd (Z.to_nat (e_phnum e))). assert (file_headers e l) as Hfh by by exists hd, pd. specialize (Hsz e l Hfh).
  destruct (find_note_spec l s1 Hs1 (phdrs_fit _ _ Hp8) Hsz) as (b & s2 & En & Hs2 & L2 & Hb). rewrite (st_step _ _ _ _ _ En).
  destruct b; cbn [negb].
  - destruct (load_rest_spec e l p s2 (live s) Hs2 L2 Hpo (phdrs_fit _ _ Hp8) Hsz (phdrs_vaddr_fit _ _ Hp8) (Hb eq_refl)) as (r & s3 & E3 & Hs3 & Hpost).
    exists r, s3. split_and!; [exact E3|done|]. right. by exists e, l.
  - destruct (free_spec s2 p [] (live s) Hs2 L2) as [Ef2 Hsf2]. rewrite (st_step _ _ _ _ _ Ef2). eexists None, _. split_and!; [done|done|by left].
Qed.
End reading.
