(* ===== verification/ElfCorrect.v ===== *)
(** * The ELF loader: results

    Loading a file whose sizes the heap honours is safe and gives its memory
    back; two weaknesses of the loader are shown on concrete files. *)

From S2P Require Import Prelude StateM Bitmap Dynarr Endian Buddy Heap Elf ElfSpec.

Local Open Scope Z_scope.

(** C16: loading an executable.  If no note or interpreter header of the file
    asks for more than 2^64 - 4096 bytes (larger sizes make the heap answer a
    single page, which [elf_note_overrun] overruns), then whatever else the
    file contains [elf_load] ends without leaving its buffers.  A file it
    refuses costs no memory, unless it has several interpreter headers.  For a
    file it accepts, the headers are valid, a note segment identifies the
    system, and the answer has exactly the loadable segments in order, the
    entry, the interpreter path and the address of the program headers that
    the file describes; [elf_destroy] then gives all memory back, again unless
    there are several interpreters. *)
Theorem elf_load_correct `{ElfLaws} s : hwf s -> sizes_ok ->
  exists r s', elf_load s = Ok (r, s') /\
    match r with
    | None => live s' = live s \/ exists e l, file_headers e l /\ (2 <= length (interps l))%nat
    | Some i => exists e l s'', file_headers e l /\ described e l i /\
        elf_destroy (Some i) s' = Ok (tt, s'') /\ ((length (interps l) <= 1)%nat -> live s'' = live s)
    end.
Proof.
  intros Hs Hsz. destruct (elf_load_spec s Hs Hsz) as (r & s' & E & Hs' & [[-> HL]|(e & l & Hf & Hp)]).
  { exists None, s'. split; [done|]. by left. }
  exists r, s'. split; [done|]. destruct r as [i|].
  - destruct Hp as (Hd & ints & HL & Hi & Hn). destruct (elf_free_spec i s' ints (live s) Hs' HL Hi) as (s'' & E'' & _ & L'').
    exists e, l, s''. split_and!; try done. intros H1. rewrite L''. destruct ints as [|a [|b ints]]; [done|done|cbn in Hn; lia].
  - destruct Hp as (lk & HL & Hk). destruct lk as [|a lk]; [by left|]. right. exists e, l. split; [done|]. cbn in Hk. lia.
Qed.

(** ** Files as images *)

(** A regular file with the bytes [img], read from its start. *)
Definition image_read (img : list Z) (pos : option Z) (n : Z) : Z * list Z :=
  let d := take (Z.to_nat n) (drop (Z.to_nat (default 0 pos)) img) in (Z.of_nat (length d), d).

(** The bytes of the block the kernel heap answers while it has memory. *)
Definition kheap_cap (n : Z) : option Z :=
  if n =? 0 then None else if MAX_ORDER <=? size_to_order n then None else Some (PAGE_SIZE * 2 ^ size_to_order n).

Definition image_env (img : list Z) (cap : Z -> option Z) : ElfEnv := {| vfs_read := image_read img; heap_cap := cap |}.

Lemma huge_cap n : 2 ^ 64 - 4096 < n < 2 ^ 64 -> kheap_cap n = Some 4096.
Proof.
  intros Hn. unfold kheap_cap. rewrite (proj2 (Z.eqb_neq _ _)) by lia.
  assert (size_to_order n = 0) as ->; [|done]. unfold size_to_order.
  replace (_ <=? 1) with true; [done|]. unfold PAGE_SIZE, wrap. dlia.
Qed.

(** A segment size close to 2^64 overruns the heap.  The size of a note
    segment comes from the file; the heap rounds sizes above 2^64 - 4096 up to
    zero pages and answers one page, into which the whole rest of the file is
    then read before the length of the read is compared with the size. *)
Theorem elf_note_overrun img ph s : 2 ^ 64 - 4096 < p_filesz ph < 2 ^ 64 -> 0 <= p_offset ph ->
  4096 < Z.of_nat (length img) - p_offset ph < 2 ^ 63 ->
  @elf_check_note (image_env img kheap_cap) ph s = Fault.
Proof.
  intros Hf Ho Hl. unfold elf_check_note.
  assert (@kheap_alloc (image_env img kheap_cap) (p_filesz ph) s = Ok (Some (next_block s, 4096), Eheap (next_block s :: live s) (next_block s + 1))) as E
    by (unfold kheap_alloc; cbn [heap_cap image_env]; by rewrite huge_cap).
  rewrite (st_step _ _ _ _ _ E). apply st_fault. unfold read_into. cbn [vfs_read image_env image_read default from_option id].
  unfold image_read. cbn [default from_option id]. rewrite length_take, length_drop, (proj2 (Z.leb_gt _ _)) by lia. done.
Qed.

(** ** Concrete files *)

Definition phdr_bytes (ty fl off va fs ms : Z) : list Z :=
  le_bytes 4 ty ++ le_bytes 4 fl ++ le_bytes 8 off ++ le_bytes 8 va ++ le_bytes 8 va ++ le_bytes 8 fs ++ le_bytes 8 ms ++ le_bytes 8 4096.

(** An executable at [base] with [k] interpreter headers, which name the file
    "/l" with the character [c] behind it, two segments and the note. *)
Definition demo_image_at (base : Z) (k : nat) (c : Z) : list Z :=
  [0x7f; 0x45; 0x4c; 0x46; 2; 1; 1; 0] ++ replicate 8 0 ++
  le_bytes 2 ET_EXEC ++ le_bytes 2 EM_X86_64 ++ le_bytes 4 1 ++ le_bytes 8 (base + 0x1000) ++ le_bytes 8 64 ++ le_bytes 8 0 ++ le_bytes 4 0 ++
  le_bytes 2 64 ++ le_bytes 2 56 ++ le_bytes 2 (3 + Z.of_nat k) ++ replicate 6 0 ++
  phdr_bytes PT_NOTE PF_R (64 + 56 * (3 + Z.of_nat k)) 0 20 20 ++
  phdr_bytes PT_LOAD (Z.lor PF_R PF_X) 0 base 0x1800 0x2000 ++
  phdr_bytes PT_LOAD (Z.lor PF_R PF_W) 0x2000 (base + 0x2000) 0x100 0x900 ++
  concat (replicate k (phdr_bytes PT_INTERP PF_R (64 + 56 * (3 + Z.of_nat k) + 20) 0 4 4)) ++
  le_bytes 4 8 ++ le_bytes 4 0 ++ le_bytes 4 NOTE_SHIZIOS_TYPE ++ NOTE_SHIZIOS_NAME ++ [47; 108; c; 0].

Definition demo_image (k : nat) : list Z := demo_image_at 0x400000 k 100.

Definition demo_heap0 : eheap := Eheap [7] 8.

Lemma image_laws img : Forall (fits 8) img -> Z.of_nat (length img) < 2 ^ 63 -> @ElfLaws (image_env img kheap_cap).
Proof.
  intros Hf Hl. constructor.
  - intros pos n r d Hn. cbn [vfs_read image_env]. unfold image_read. intros [= <- <-].
    assert (length (take (Z.to_nat n) (drop (Z.to_nat (default 0%Z pos)) img)) <= length img)%nat
      by (rewrite length_take, length_drop; lia).
    split_and!; try lia; [rewrite length_take; lia|by apply Forall_take, Forall_drop].
  - intros n c Hn. cbn [heap_cap image_env]. unfold kheap_cap. destruct (Z.eqb_spec n 0); [done|].
    destruct (Z.leb_spec MAX_ORDER (size_to_order n)) as [|Ho]; [done|]. intros [= <-].
    destruct (size_to_order_spec n) as (H0 & Hle & _); [lia|].
    assert (2 ^ size_to_order n <= 2 ^ 15) by (apply Z.pow_le_mono_r; unfold MAX_ORDER in Ho; lia).
    unfold PAGE_SIZE in *. lia.
Qed.

Lemma demo_image_laws k : (k <= 2)%nat -> @ElfLaws (image_env (demo_image k) kheap_cap).
Proof.
  intros Hk. apply image_laws.
  - destruct k as [|[|[|k]]]; [..|lia]; apply (bool_decide_unpack _); vm_compute; exact I.
  - destruct k as [|[|[|k]]]; [..|lia]; vm_compute; reflexivity.
Qed.

Lemma demo_image_sizes k : (k <= 2)%nat -> @sizes_ok (image_env (demo_image k) kheap_cap).
Proof.
  intros Hk e l (hd & pd & Eh & -> & _ & Ep & ->). apply (f_equal snd) in Eh. unfold size_ok.
  destruct k as [|[|[|k]]]; [..|lia]; vm_compute in Eh; subst hd; apply (f_equal snd) in Ep; vm_compute in Ep; subst pd;
    repeat (apply Forall_cons; split; [intros _; vm_compute; discriminate|]); apply Forall_nil_2.
Qed.

(** A second interpreter header leaks the path of the first.  A file
    with two of them is loaded, but after [elf_destroy] a block is left that
    no one can free. *)
Theorem elf_interp_leak :
  (exists i s s', @elf_load (image_env (demo_image 1) kheap_cap) demo_heap0 = Ok (Some i, s) /\
     elf_destroy (Some i) s = Ok (tt, s') /\ live s' = live demo_heap0) /\
  (exists i s s', @elf_load (image_env (demo_image 2) kheap_cap) demo_heap0 = Ok (Some i, s) /\
     elf_destroy (Some i) s = Ok (tt, s') /\ (length (live demo_heap0) < length (live s'))%nat).
Proof.
  split.
  - eexists _, _, _. split; [vm_compute; reflexivity|]. split; [vm_compute; reflexivity|reflexivity].
  - eexists _, _, _. split; [vm_compute; reflexivity|]. split; [vm_compute; reflexivity|cbn; lia].
Qed.

Lemma elf_load_correct_witness : exists i s',
  @elf_load (image_env (demo_image 1) kheap_cap) demo_heap0 = Ok (Some i, s') /\ entry i = 0x401000 /\ phdr i = 0x400040 /\
  exists e l, @file_headers (image_env (demo_image 1) kheap_cap) e l /\ segments i = segment_of <$> loads l.
Proof.
  destruct (@elf_load_correct _ (demo_image_laws 1 ltac:(lia)) demo_heap0) as (r & s' & E & Hr).
  - split; cbn [live demo_heap0 next_block]; [apply NoDup_singleton|by repeat constructor].
  - apply (demo_image_sizes 1). lia.
  - destruct r as [i|]; [|vm_compute in E; discriminate E]. exists i, s'. split; [exact E|].
    assert (entry i = 0x401000 /\ phdr i = 0x400040) as [-> ->] by (vm_compute in E; injection E as <- _; split; reflexivity).
    split; [reflexivity|]. split; [reflexivity|]. destruct Hr as (e & l & s'' & Hf & Hd & _). exists e, l. split; [exact Hf|apply Hd].
Defined.

Lemma elf_note_overrun_witness :
  @elf_check_note (image_env (replicate 5000 1) kheap_cap) (Phdr PT_NOTE PF_R 64 0 (2 ^ 64 - 1) 0) demo_heap0 = Fault.
Proof.
  apply (elf_note_overrun (replicate 5000 1) (Phdr PT_NOTE PF_R 64 0 (2 ^ 64 - 1) 0) demo_heap0); cbn [p_filesz p_offset]; [lia|lia|].
  rewrite length_replicate. lia.
Defined.
