(* ===== verification/UserStack.v ===== *)
(** * The first user stack (kernel/exec/core.c, exec_setup_user_stack)

    The arguments, the environment and the auxiliary vector of a new program
    are laid out below the top of its stack.  The stack is a range of bytes;
    a write outside of it is a [Fault].  An entry of argv or envp is the
    address and the characters of a string. *)

From S2P Require Import Prelude Bitmap Dynarr Endian.

Local Open Scope Z_scope.

(** core.h: auxv_type_t *)
Definition AT_NULL : Z := 0.
Definition AT_PHDR : Z := 3.
Definition AT_PHENT : Z := 4.
Definition AT_PHNUM : Z := 5.
Definition AT_PAGESZ : Z := 6.
Definition AT_BASE : Z := 7.
Definition AT_FLAGS : Z := 8.
Definition AT_ENTRY : Z := 9.
Definition AT_NOTELF : Z := 10.
Definition AT_PLATFORM : Z := 15.
Definition STACK_PAGE_SIZE : Z := 4096.

(** asm/processor.h: PLATFORM_STRING, with its NUL *)
Definition PLATFORM_STRING : list Z := [120; 56; 54; 95; 54; 52; 0].

(** core.h: auxv_entry_t *)
Definition auxv_entry (type value : Z) : list Z := le_bytes 8 type ++ le_bytes 8 value.

(** memcpy from a list of bytes. *)
Fixpoint put (m : bytes) (a : Z) (l : list Z) : outcome bytes :=
  match l with
  | [] => Ok m
  | b :: l => m ← store8 m a b; put m (a + 1) l
  end.

(** What the program is told about itself. *)
Record exec_args := ExecArgs { xentry : Z; xphdr : Z; xphnum : Z; xphent : Z; xis_elf : Z; xinterp_base : Z }.

(** The length of a string with its NUL, and of all of them. *)
Definition str_size (s : Z * list Z) : Z := Z.of_nat (length (snd s)) + 1.
Definition str_total (l : list (Z * list Z)) : Z := foldr (fun s n => str_size s + n) 0 l.

Section setup.
Context `{Heap}.

(** An append whose answer is ignored. *)
Definition aux_append (auxv : dynarr_t) (type value : Z) : outcome dynarr_t :=
  '(_, d) ← dynarr_append (Some auxv) (Some (mem_of (auxv_entry type value)));
  deref d.

(** core.c: exec_setup_user_stack, the auxiliary vector: the array and the
    index of the platform entry *)
Definition collect_auxv (x : exec_args) (auxv : dynarr_t) : outcome (Z * dynarr_t) :=
  auxv ← aux_append auxv AT_PHDR (xphdr x);
  auxv ← (if negb (xphent x =? 0) then aux_append auxv AT_PHENT (xphent x) else Ok auxv);
  auxv ← aux_append auxv AT_PHNUM (xphnum x);
  auxv ← aux_append auxv AT_ENTRY (xentry x);
  auxv ← aux_append auxv AT_BASE (xinterp_base x);
  auxv ← aux_append auxv AT_PAGESZ STACK_PAGE_SIZE;
  auxv ← aux_append auxv AT_FLAGS 0;
  auxv ← aux_append auxv AT_PLATFORM 0;
  let platform_index := current_count auxv - 1 in
  auxv ← aux_append auxv AT_NOTELF (xis_elf x);
  auxv ← aux_append auxv AT_NULL 0;
  Ok (platform_index, auxv).

(** core.c: exec_setup_user_stack, the loops that copy the strings and put
    their addresses into the array at [ptrs] *)
Fixpoint copy_strings (ptrs : Z) (l : list (Z * list Z)) (str_pos : Z) (m : bytes) : outcome (Z * bytes) :=
  match l with
  | [] => Ok (str_pos, m)
  | s :: l =>
      m ← put m ptrs (le_bytes 8 str_pos);
      m ← put m str_pos (snd s ++ [0]);
      copy_strings (ptrs + 8) l (u64 (str_pos + str_size s)) m
  end.

(** An array of pointers with its NULL, as the caller has it. *)
Definition ptr_array (l : list (Z * list Z)) : list Z := concat ((fun s => le_bytes 8 (fst s)) <$> l) ++ le_bytes 8 0.

(** core.c: exec_setup_user_stack; the error number, the new top of the stack
    and the memory.  [mem] says whether the record of the vector could be
    allocated *)
Definition exec_setup_user_stack (mem : bool) (stack_top : Z) (argv envp : list (Z * list Z)) (x : exec_args) (m : bytes)
  : outcome (Z * Z * bytes) :=
  let argc := Z.of_nat (length argv) in
  let envc := Z.of_nat (length envp) in
  let strings := str_total argv + str_total envp + Z.of_nat (length PLATFORM_STRING) in
  match dynarr_create mem 16 0 with
  | None => Ok (- ENOMEM, 0, m)
  | Some auxv =>
      '(platform_index, auxv) ← collect_auxv x auxv;
      let auxv_size := u64 (current_count auxv * 16) in
      let envp_size := (envc + 1) * 8 in
      let argv_size := (argc + 1) * 8 in
      let total_size := u64 (auxv_size + envp_size + argv_size + 8 + strings) in
      let pos := Z.land (u64 (stack_top - total_size)) (cnot 64 15) in
      let argv_base := u64 (pos + 8) in
      let envp_base := u64 (argv_base + argv_size) in
      let auxv_base := u64 (envp_base + envp_size) in
      let str_base := u64 (auxv_base + auxv_size) in
      off ← deref (dynarr_get (Some auxv) platform_index);
      a ← put (arr auxv) (off + 8) (le_bytes 8 str_base);
      vec ← load_bytes a 0 (Z.to_nat auxv_size);
      m ← put m auxv_base vec;
      m ← put m str_base PLATFORM_STRING;
      let str_base := u64 (str_base + Z.of_nat (length PLATFORM_STRING)) in
      m ← put m argv_base (ptr_array argv);
      m ← put m envp_base (ptr_array envp);
      '(str_pos, m) ← copy_strings argv_base argv str_base m;
      '(_, m) ← copy_strings envp_base envp str_pos m;
      m ← put m pos (le_bytes 8 argc);
      Ok (0, pos, m)
  end.

End setup.

(** ** The image *)

(** The addresses of the strings that lie one after the other from [p] on,
    and their bytes. *)
Fixpoint addresses (l : list (Z * list Z)) (p : Z) : list Z :=
  match l with
  | [] => []
  | s :: l => p :: addresses l (p + str_size s)
  end.
Definition string_bytes (l : list (Z * list Z)) : list Z := concat ((fun s => snd s ++ [0]) <$> l).

(** An array of pointers to the strings from [p] on. *)
Definition pointers (l : list (Z * list Z)) (p : Z) : list Z := concat (le_bytes 8 <$> addresses l p) ++ le_bytes 8 0.

Definition aux_pairs (x : exec_args) (platform : Z) : list (Z * Z) :=
  [(AT_PHDR, xphdr x)] ++ (if xphent x =? 0 then [] else [(AT_PHENT, xphent x)]) ++
  [(AT_PHNUM, xphnum x); (AT_ENTRY, xentry x); (AT_BASE, xinterp_base x); (AT_PAGESZ, STACK_PAGE_SIZE); (AT_FLAGS, 0);
   (AT_PLATFORM, platform); (AT_NOTELF, xis_elf x); (AT_NULL, 0)].
Definition aux_bytes (x : exec_args) (platform : Z) : list Z := concat ((fun p => auxv_entry (fst p) (snd p)) <$> aux_pairs x platform).

(** Everything the program finds from its stack pointer [sp] on. *)
Definition stack_image (argv envp : list (Z * list Z)) (x : exec_args) (sp : Z) : list Z :=
  let platform := sp + 8 + 8 * (Z.of_nat (length argv) + 1) + 8 * (Z.of_nat (length envp) + 1) + 16 * Z.of_nat (length (aux_pairs x 0)) in
  let strs := platform + Z.of_nat (length PLATFORM_STRING) in
  le_bytes 8 (Z.of_nat (length argv)) ++ pointers argv strs ++ pointers envp (strs + str_total argv) ++
  aux_bytes x platform ++ PLATFORM_STRING ++ string_bytes argv ++ string_bytes envp.
