(* ===== verification/UserStackSpec.v ===== *)
(** * The first user stack: correctness

    The memory from the new stack pointer on is the image [stack_image] of
    UserStack.v, the stack pointer is aligned, and nothing else changes. *)

From S2P Require Import Prelude Bitmap Dynarr Endian UserStack.

Local Open Scope Z_scope.

(** ** Ranges of memory *)

Definition at_mem (m : bytes) (a : Z) (l : list Z) : Prop := forall i b, l !! i = Some b -> m !! (a + Z.of_nat i) = Some b.
Definition writable (m : bytes) (a n : Z) : Prop := forall x, a <= x < a + n -> is_Some (m !! x).
Definition same_cells (m m' : bytes) : Prop := forall x, is_Some (m' !! x) <-> is_Some (m !! x).
Definition kept (m m' : bytes) (a n : Z) : Prop := forall x, x < a \/ a + n <= x -> m' !! x = m !! x.

Lemma same_cells_trans m1 m2 m3 : same_cells m1 m2 -> same_cells m2 m3 -> same_cells m1 m3.
Proof. intros H1 H2 x. by rewrite (H2 x). Qed.

Lemma writable_same m m' a n : same_cells m m' -> writable m a n -> writable m' a n.
Proof. intros Hs Hw x Hx. apply Hs. by apply Hw. Qed.

Lemma writable_sub m a n b k : writable m a n -> a <= b -> b + k <= a + n -> writable m b k.
Proof. intros Hw Ha Hb x Hx. apply Hw. lia. Qed.

Lemma put_spec l : forall m a, writable m a (Z.of_nat (length l)) ->
  exists m', put m a l = Ok m' /\ at_mem m' a l /\ kept m m' a (Z.of_nat (length l)) /\ same_cells m m'.
Proof.
  induction l as [|b l IH]; intros m a Hw; cbn [put length] in *; [by exists m|].
  destruct (Hw a) as [v Ev]; [lia|]. unfold store8, load8. rewrite Ev. cbn [deref]. rewrite !Ok_bind.
  assert (same_cells m (<[a := b]> m)) as Hs.
  { intros x. destruct (Z.eq_dec a x) as [<-|Hne]; [by rewrite lookup_insert_eq, Ev|]. by rewrite lookup_insert_ne. }
  destruct (IH (<[a := b]> m) (a + 1)) as (m' & E & Ha & Hk & Hs').
  { apply (writable_same m); [done|]. eapply writable_sub; [done|lia|lia]. }
  exists m'. split; [done|]. split_and!.
  - intros [|i] c Ei; cbn in Ei.
    + simplify_eq. rewrite Z.add_0_r, Hk by lia. by rewrite lookup_insert_eq.
    + rewrite <- (Ha i c Ei). f_equal. lia.
  - intros x Hx. rewrite Hk by lia. by rewrite lookup_insert_ne by lia.
  - by eapply same_cells_trans.
Qed.

Lemma at_mem_app m a l1 l2 : at_mem m a (l1 ++ l2) <-> at_mem m a l1 /\ at_mem m (a + Z.of_nat (length l1)) l2.
Proof.
  split.
  - intros Hm. split; intros i b Ei.
    + apply Hm. by apply lookup_app_l_Some.
    + replace (a + Z.of_nat (length l1) + Z.of_nat i) with (a + Z.of_nat (length l1 + i)) by lia. apply Hm.
      rewrite lookup_app_r by lia. by replace (length l1 + i - length l1)%nat with i by lia.
  - intros [H1 H2] i b Ei. apply lookup_app_Some in Ei as [Ei|[Hi Ei]]; [by apply H1|].
    rewrite <- (H2 _ _ Ei). f_equal. lia.
Qed.

Lemma at_mem_kept m m' a n b l : kept m m' a n -> at_mem m b l -> b + Z.of_nat (length l) <= a \/ a + n <= b -> at_mem m' b l.
Proof. intros Hk Hm Hd i c Ei. rewrite Hk; [by apply Hm|]. apply lookup_lt_Some in Ei. lia. Qed.

Lemma str_total_cons s l : str_total (s :: l) = str_size s + str_total l.
Proof. done. Qed.

Lemma str_total_nonneg l : 0 <= str_total l.
Proof. induction l as [|s l IH]; [done|]. rewrite str_total_cons. unfold str_size. lia. Qed.

Lemma string_bytes_length l : Z.of_nat (length (string_bytes l)) = str_total l.
Proof.
  induction l as [|s l IH]; [done|]. unfold string_bytes in *. cbn [fmap list_fmap concat]. rewrite str_total_cons, length_app, <- IH.
  unfold str_size. rewrite length_app. cbn [length]. lia.
Qed.

Lemma le8_concat_length (l : list Z) : length (concat (le_bytes 8 <$> l)) = (8 * length l)%nat.
Proof. induction l as [|x l IH]; cbn [fmap list_fmap concat]; [done|]. rewrite length_app, le_bytes_length, IH. cbn. lia. Qed.

Lemma addresses_length l p : length (addresses l p) = length l.
Proof. revert p. induction l as [|s l IH]; intros p; cbn; [done|]. by rewrite IH. Qed.

(** What the copying loops do, for an array of pointers below the strings. *)
Lemma copy_strings_spec l : forall ptrs p m, writable m ptrs (8 * Z.of_nat (length l)) -> writable m p (str_total l) ->
  ptrs + 8 * Z.of_nat (length l) <= p -> 0 <= p -> p + str_total l < 2 ^ 64 ->
  exists m', copy_strings ptrs l p m = Ok (p + str_total l, m') /\
    at_mem m' ptrs (concat (le_bytes 8 <$> addresses l p)) /\ at_mem m' p (string_bytes l) /\
    (forall x, (x < ptrs \/ ptrs + 8 * Z.of_nat (length l) <= x) -> (x < p \/ p + str_total l <= x) -> m' !! x = m !! x) /\ same_cells m m'.
Proof.
  induction l as [|s l IH]; intros ptrs p m Hw1 Hw2 Hd Hp Hlt; cbn [copy_strings addresses string_bytes length].
  { exists m. cbn [str_total foldr]. rewrite Z.add_0_r. done. }
  rewrite str_total_cons in *. cbn [length] in *. pose proof (str_total_nonneg l) as Hn.
  assert (0 < str_size s) as Hss by (unfold str_size; lia).
  destruct (put_spec (le_bytes 8 p) m ptrs) as (m1 & E1 & A1 & K1 & S1); [rewrite le_bytes_length; eapply writable_sub; [exact Hw1|lia|lia]|].
  rewrite le_bytes_length in K1. rewrite E1, Ok_bind.
  assert (Z.of_nat (length (snd s ++ [0])) = str_size s) as El by (unfold str_size; rewrite length_app; cbn; lia).
  destruct (put_spec (snd s ++ [0]) m1 p) as (m2 & E2 & A2 & K2 & S2).
  { rewrite El. eapply writable_same; [exact S1|]. eapply writable_sub; [exact Hw2|lia|lia]. }
  rewrite El in K2. rewrite E2, Ok_bind, wrap_small by (unfold fits; lia).
  assert (same_cells m m2) as S12 by (by eapply same_cells_trans).
  destruct (IH (ptrs + 8) (p + str_size s) m2) as (m3 & E3 & A3 & A3' & K3 & S3).
  { eapply writable_same; [exact S12|]. eapply writable_sub; [exact Hw1|lia|lia]. }
  { eapply writable_same; [exact S12|]. eapply writable_sub; [exact Hw2|lia|lia]. }
  { lia. } { lia. } { lia. }
  exists m3. rewrite E3. split; [do 2 f_equal; lia|]. cbn [fmap list_fmap concat]. split_and!.
  - apply at_mem_app. rewrite le_bytes_length. split; [|done].
    intros i b Ei. pose proof (lookup_lt_Some _ _ _ Ei) as Hi. rewrite le_bytes_length in Hi.
    rewrite K3, K2 by lia. by apply A1.
  - apply at_mem_app. rewrite El. split; [|done].
    intros i b Ei. pose proof (lookup_lt_Some _ _ _ Ei) as Hi. rewrite K3 by lia. by apply A2.
  - intros x Hx1 Hx2. rewrite K3, K2, K1 by lia. done.
  - by eapply same_cells_trans.
Qed.

(** ** The auxiliary vector *)

Section auxv.
Context `{HeapLaws}.

(** An array of entries with room for four more than it needs. *)
Record aux_arr (d : dynarr_t) (ps : list (Z * Z)) : Prop := {
  aa_wf : dynarr_wf d;
  aa_size : element_size d = 16;
  aa_room : max_count d = 14;
  aa_contents : contents d = (fun p => auxv_entry (fst p) (snd p)) <$> ps
}.

Lemma auxv_entry_length t v : length (auxv_entry t v) = 16%nat.
Proof. unfold auxv_entry. by rewrite length_app, !le_bytes_length. Qed.

Lemma aux_append_spec d ps t v : aux_arr d ps -> (length ps < 14)%nat ->
  exists d', aux_append d t v = Ok d' /\ aux_arr d' (ps ++ [(t, v)]) /\ current_count d' = Z.of_nat (length ps) + 1.
Proof.
  intros [Hw Hs Hr Hc] Hlt. unfold aux_append.
  assert (current_count d = Z.of_nat (length ps)) as Hcc by (rewrite <- (contents_length d Hw), Hc, length_fmap; done).
  pose proof (auxv_entry_length t v) as Hl.
  assert (Forall (fits 8) (auxv_entry t v)) as Hf by (unfold auxv_entry; apply Forall_app; split; apply le_bytes_fits).
  assert (holds (mem_of (auxv_entry t v)) (element_size d)) as Hh.
  { rewrite Hs. intros i Hi. destruct (lookup_lt_is_Some_2 (auxv_entry t v) (Z.to_nat i)) as [b Eb]; [lia|].
    exists b. rewrite Z.add_0_l, <- (Z2Nat.id i) by lia. rewrite mem_of_lookup. split; [done|]. by eapply Forall_lookup_1. }
  destruct (dynarr_append_spec d (mem_of (auxv_entry t v)) Hw Hh) as (ok & d' & E & Hw' & Hs' & Hok & Hno).
  rewrite E, Ok_bind. cbn [deref]. exists d'. split; [done|].
  assert (ok = true /\ max_count d' = 14 /\ current_count d' = current_count d + 1) as (-> & Hm & Hcc').
  { unfold dynarr_append in E. rewrite (proj2 (Z.leb_gt _ _)), Ok_bind in E by lia. cbn [negb] in E.
    destruct (memcpy _ _ _ _ _) as [a| |]; [|done|done]. rewrite Ok_bind in E. injection E as <- <-. cbn [max_count set_count set_arr current_count]. split_and!; [done|done|].
    by rewrite wrap_small by (unfold fits; lia). }
  split; [|lia]. split; [done|congruence|done|]. rewrite (Hok eq_refl), Hc, fmap_app, Hs. cbn [fmap list_fmap fst snd].
  assert (read (mem_of (auxv_entry t v)) 0 16 = auxv_entry t v) as ->; [|done]. change 16 with (Z.of_nat 16). rewrite <- Hl. apply read_mem_of.
Qed.

Lemma create_aux d : dynarr_create true 16 0 = Some d -> aux_arr d [].
Proof.
  intros E. destruct (dynarr_create_tight true 16 d ltac:(lia) E) as (Hw & _ & Hs & Hc). split; [done|done| |done].
  rewrite (wf_threshold d Hw). unfold dynarr_create in E. cbn [Z.eqb negb andb] in E. destruct (kheap_alloc _); [|done]. by injection E as <-.
Qed.

Lemma collect_auxv_spec x d : aux_arr d [] ->
  exists d' k, collect_auxv x d = Ok (Z.of_nat k, d') /\ aux_arr d' (aux_pairs x 0) /\
    current_count d' = Z.of_nat (length (aux_pairs x 0)) /\
    exists A B, aux_pairs x 0 = A ++ (AT_PLATFORM, 0) :: B /\ (forall v, aux_pairs x v = A ++ (AT_PLATFORM, v) :: B) /\ length A = k.
Proof.
  intros Hd0. unfold collect_auxv.
  destruct (aux_append_spec d [] AT_PHDR (xphdr x) Hd0) as (d1 & -> & H1 & _); [cbn; lia|]. rewrite Ok_bind.
  set (opt := if xphent x =? 0 then [] else [(AT_PHENT, xphent x)]).
  assert (exists d2, (if negb (xphent x =? 0) then aux_append d1 AT_PHENT (xphent x) else Ok d1) = Ok d2 /\
    aux_arr d2 ([(AT_PHDR, xphdr x)] ++ opt) /\ (length opt <= 1)%nat) as (d2 & -> & H2 & Ho).
  { unfold opt. destruct (xphent x =? 0); cbn [negb]; [exists d1; split_and!; [done|done|cbn; lia]|].
    destruct (aux_append_spec d1 _ AT_PHENT (xphent x) H1) as (d2 & E & H2 & _); [cbn; lia|]. exists d2. split_and!; [done|done|cbn; lia]. }
  rewrite Ok_bind.
  destruct (aux_append_spec d2 _ AT_PHNUM (xphnum x) H2) as (d3 & -> & H3 & _); [cbn; lia|]. rewrite Ok_bind.
  destruct (aux_append_spec d3 _ AT_ENTRY (xentry x) H3) as (d4 & -> & H4 & _); [rewrite !length_app; cbn; lia|]. rewrite Ok_bind.
  destruct (aux_append_spec d4 _ AT_BASE (xinterp_base x) H4) as (d5 & -> & H5 & _); [rewrite !length_app; cbn; lia|]. rewrite Ok_bind.
  destruct (aux_append_spec d5 _ AT_PAGESZ STACK_PAGE_SIZE H5) as (d6 & -> & H6 & _); [rewrite !length_app; cbn; lia|]. rewrite Ok_bind.
  destruct (aux_append_spec d6 _ AT_FLAGS 0 H6) as (d7 & -> & H7 & _); [rewrite !length_app; cbn; lia|]. rewrite Ok_bind.
  destruct (aux_append_spec d7 _ AT_PLATFORM 0 H7) as (d8 & -> & H8 & C8); [rewrite !length_app; cbn; lia|]. rewrite Ok_bind.
  destruct (aux_append_spec d8 _ AT_NOTELF (xis_elf x) H8) as (d9 & -> & H9 & _); [rewrite !length_app; cbn; lia|]. rewrite Ok_bind.
  destruct (aux_append_spec d9 _ AT_NULL 0 H9) as (d10 & -> & H10 & C10); [rewrite !length_app; cbn; lia|]. rewrite Ok_bind.
  repeat rewrite <- app_assoc in H10. cbn [app] in H10. exists d10, (6 + length opt)%nat.
  split; [|split; [exact H10|split]].
  - rewrite C8, !length_app. cbn [length]. do 2 f_equal. lia.
  - rewrite C10, !length_app. unfold aux_pairs. fold opt. rewrite !length_app. cbn [length]. lia.
  - exists ([(AT_PHDR, xphdr x)] ++ opt ++ [(AT_PHNUM, xphnum x); (AT_ENTRY, xentry x); (AT_BASE, xinterp_base x); (AT_PAGESZ, STACK_PAGE_SIZE); (AT_FLAGS, 0)]),
      [(AT_NOTELF, xis_elf x); (AT_NULL, 0)].
    unfold aux_pairs. fold opt. split_and!; [by rewrite <- !app_assoc|intros v; by rewrite <- !app_assoc|].
    rewrite !length_app. cbn [length]. lia.
Qed.
Lemma read_at_mem a off n : writable a off n -> at_mem a off (read a off n).
Proof.
  intros Hw i b Ei. unfold read in Ei. rewrite list_lookup_fmap in Ei.
  destruct (seqZ 0 n !! i) as [k|] eqn:Ek; [|done]. apply lookup_seqZ in Ek as [-> Hi]. cbn in Ei.
  destruct (Hw (off + Z.of_nat i) ltac:(lia)) as [v Ev]. rewrite Z.add_0_l in *. rewrite Ev in Ei. cbn in Ei. rewrite Ev. congruence.
Qed.

Lemma read_app a off n k : 0 <= n -> 0 <= k -> read a off (n + k) = read a off n ++ read a (off + n) k.
Proof.
  intros Hn Hk. unfold read. rewrite seqZ_app, fmap_app by done. f_equal. rewrite Z.add_0_l.
  replace (seqZ n k) with (Z.add n <$> seqZ 0 k) by (rewrite fmap_add_seqZ; f_equal; lia). rewrite <- list_fmap_compose. apply list_fmap_ext. intros i x _. unfold compose.
  do 2 f_equal. lia.
Qed.

Lemma read_elems d (n : nat) : 0 < element_size d ->
  read (arr d) 0 (Z.of_nat n * element_size d) = concat (elem d <$> seqZ 0 (Z.of_nat n)).
Proof.
  intros He. induction n as [|n IH]; [done|]. rewrite Nat2Z.inj_succ. unfold Z.succ.
  rewrite seqZ_app, fmap_app, concat_app, <- IH by lia. rewrite Z.mul_add_distr_r, Z.mul_1_l, read_app by lia. f_equal.
  rewrite !Z.add_0_l, (seqZ_cons (Z.of_nat n)) by lia. cbn [Z.pred seqZ fmap list_fmap]. unfold elem.
  change (seqZ (Z.succ (Z.of_nat n)) (Z.pred 1)) with (@nil Z). cbn [fmap list_fmap concat]. by rewrite app_nil_r.
Qed.

Lemma aux_at_mem d ps : aux_arr d ps ->
  at_mem (arr d) 0 (concat ((fun p => auxv_entry (fst p) (snd p)) <$> ps)) /\ writable (arr d) 0 (16 * Z.of_nat (length ps)).
Proof.
  intros [Hw Hs Hr Hc]. assert (current_count d = Z.of_nat (length ps)) as Hcc by (rewrite <- (contents_length d Hw), Hc, length_fmap; done).
  assert (writable (arr d) 0 (16 * Z.of_nat (length ps))) as Hwr.
  { intros y Hy. apply (proj1 (wf_buffer d Hw)). pose proof (wf_count d Hw). rewrite Hs. lia. }
  split; [|done]. rewrite <- Hc. unfold contents. rewrite Hcc. rewrite <- read_elems by lia. apply read_at_mem. rewrite Hs, Z.mul_comm. done.
Qed.
End auxv.

(** ** The whole layout *)

Lemma aux_entries_length ps : length (concat ((fun p => auxv_entry (fst p) (snd p)) <$> ps)) = (16 * length ps)%nat.
Proof. induction ps as [|p ps IH]; cbn [fmap list_fmap concat length]; [done|]. rewrite length_app, auxv_entry_length, IH. lia. Qed.

Lemma aux_pairs_length x v : length (aux_pairs x v) = length (aux_pairs x 0) /\ (9 <= length (aux_pairs x 0) <= 10)%nat.
Proof. unfold aux_pairs. destruct (xphent x =? 0); cbn; lia. Qed.

Lemma pointers_length l p : Z.of_nat (length (pointers l p)) = 8 * (Z.of_nat (length l) + 1).
Proof. unfold pointers. rewrite length_app, le8_concat_length, addresses_length, le_bytes_length. lia. Qed.

Lemma caller_pointers_length (l : list (Z * list Z)) : length (concat ((fun s => le_bytes 8 (fst s)) <$> l)) = (8 * length l)%nat.
Proof. induction l as [|s l IH]; cbn [fmap list_fmap concat length]; [done|]. rewrite length_app, le_bytes_length, IH. lia. Qed.

Lemma ptr_array_length l : Z.of_nat (length (ptr_array l)) = 8 * (Z.of_nat (length l) + 1).
Proof. unfold ptr_array. rewrite length_app, le_bytes_length, caller_pointers_length. lia. Qed.

(** The bytes the layout takes. *)
Definition stack_size (argv envp : list (Z * list Z)) (x : exec_args) : Z :=
  16 * Z.of_nat (length (aux_pairs x 0)) + 8 * (Z.of_nat (length envp) + 1) + 8 * (Z.of_nat (length argv) + 1) + 8 +
  (str_total argv + str_total envp + Z.of_nat (length PLATFORM_STRING)).

Lemma stack_image_length argv envp x sp : Z.of_nat (length (stack_image argv envp x sp)) = stack_size argv envp x.
Proof.
  unfold stack_image, stack_size, aux_bytes. rewrite !length_app, !Nat2Z.inj_add, !pointers_length, !string_bytes_length, aux_entries_length, le_bytes_length.
  rewrite (proj1 (aux_pairs_length x _)). lia.
Qed.

Lemma patch_auxv `{HeapLaws} x d k v : aux_arr d (aux_pairs x 0) ->
  (exists A B, aux_pairs x 0 = A ++ (AT_PLATFORM, 0) :: B /\ (forall v, aux_pairs x v = A ++ (AT_PLATFORM, v) :: B) /\ length A = k) ->
  exists a, put (arr d) (Z.of_nat k * 16 + 8) (le_bytes 8 v) = Ok a /\
    load_bytes a 0 (16 * length (aux_pairs x 0)) = Ok (aux_bytes x v).
Proof.
  intros Ha (A & B & E0 & Ev & Hk). destruct (aux_at_mem d _ Ha) as [Hm Hw].
  assert (length (aux_pairs x 0) = k + 1 + length B)%nat as Hlen by (rewrite E0, length_app; cbn; lia).
  destruct (put_spec (le_bytes 8 v) (arr d) (Z.of_nat k * 16 + 8)) as (a & E & Hat & Hkp & _).
  { rewrite le_bytes_length. eapply writable_sub; [exact Hw|lia|lia]. }
  rewrite le_bytes_length in Hkp. exists a. split; [done|].
  assert (length (aux_bytes x v) = 16 * length (aux_pairs x 0))%nat as Hl by (unfold aux_bytes; rewrite aux_entries_length; f_equal; apply aux_pairs_length).
  rewrite <- Hl. apply load_bytes_Ok. unfold aux_bytes. rewrite Ev. rewrite E0 in Hm. rewrite !fmap_app, !concat_app in *.
  cbn [fmap list_fmap concat fst snd] in *. unfold auxv_entry at 2. unfold auxv_entry at 2 in Hm. rewrite <- !app_assoc in *.
  apply at_mem_app in Hm as [HA Hm]. rewrite aux_entries_length, Hk in Hm. apply at_mem_app in Hm as [HT Hm]. apply at_mem_app in Hm as [_ HB].
  rewrite !le_bytes_length in *. apply at_mem_app. rewrite aux_entries_length, Hk. split; [eapply at_mem_kept; [exact Hkp|exact HA|rewrite aux_entries_length; lia]|].
  apply at_mem_app. rewrite le_bytes_length. split; [eapply at_mem_kept; [exact Hkp|exact HT|rewrite le_bytes_length; lia]|].
  apply at_mem_app. rewrite le_bytes_length. split; [|eapply at_mem_kept; [exact Hkp|exact HB|lia]].
  replace (0 + Z.of_nat (16 * k) + Z.of_nat 8) with (Z.of_nat k * 16 + 8) by lia. done.
Qed.

Lemma align16 x : 0 <= x < 2 ^ 64 -> Z.land x (cnot 64 15) = x - x mod 16.
Proof.
  intros Hx. change 15 with (Z.ones 4). transitivity (Z.ldiff x (Z.ones 4)).
  - apply Z.bits_inj'. intros i Hi. rewrite Z.land_spec, Z.ldiff_spec, cnot_testbit by lia.
    destruct (Z.ltb_spec i 64); cbn [andb]; [done|]. by rewrite (fits_testbit 64 x) by (unfold fits; lia).
  - rewrite Z.ldiff_ones_r by lia. rewrite Z.shiftr_div_pow2, Z.shiftl_mul_pow2 by lia. change (2 ^ 4) with 16. dlia.
Qed.

(** The writes of exec_setup_user_stack, once the addresses are known. *)
Lemma write_stack argv envp x sp m : 0 <= sp -> sp + stack_size argv envp x < 2 ^ 64 -> writable m sp (stack_size argv envp x) ->
  let ab := sp + 8 in
  let eb := ab + 8 * (Z.of_nat (length argv) + 1) in
  let xb := eb + 8 * (Z.of_nat (length envp) + 1) in
  let pb := xb + 16 * Z.of_nat (length (aux_pairs x 0)) in
  let sb := pb + Z.of_nat (length PLATFORM_STRING) in
  exists m', (m ← put m xb (aux_bytes x pb); m ← put m pb PLATFORM_STRING; m ← put m ab (ptr_array argv); m ← put m eb (ptr_array envp);
      '(p, m) ← copy_strings ab argv sb m; '(_, m) ← copy_strings eb envp p m; m ← put m sp (le_bytes 8 (Z.of_nat (length argv))); Ok (0, sp, m))
    = Ok (0, sp, m') /\ at_mem m' sp (stack_image argv envp x sp) /\ kept m m' sp (stack_size argv envp x).
Proof.
  intros H0 Hlt Hw ab eb xb pb sb. unfold stack_size in *. set (na := Z.of_nat (length argv)) in *. set (ne := Z.of_nat (length envp)) in *.
  set (nx := Z.of_nat (length (aux_pairs x 0))) in *. pose proof (str_total_nonneg argv) as Ha. pose proof (str_total_nonneg envp) as He.
  change (Z.of_nat (length PLATFORM_STRING)) with 7 in *.
  assert (0 <= na /\ 0 <= ne /\ 0 <= nx) as (Hna & Hne & Hnx) by (unfold na, ne, nx; lia).
  assert (Z.of_nat (length (aux_bytes x pb)) = 16 * nx) as Lx.
  { unfold aux_bytes. rewrite aux_entries_length, (proj1 (aux_pairs_length x pb)). unfold nx. lia. }
  destruct (put_spec (aux_bytes x pb) m xb) as (m1 & -> & A1 & K1 & S1); [rewrite Lx; eapply writable_sub; [exact Hw|lia|lia]|]. rewrite Lx in K1.
  rewrite Ok_bind. destruct (put_spec PLATFORM_STRING m1 pb) as (m2 & -> & A2 & K2 & S2).
  { eapply writable_same; [exact S1|]. eapply writable_sub; [exact Hw|lia|cbn; lia]. } change (Z.of_nat (length PLATFORM_STRING)) with 7 in K2.
  pose proof (same_cells_trans _ _ _ S1 S2) as T2. rewrite Ok_bind.
  destruct (put_spec (ptr_array argv) m2 ab) as (m3 & -> & A3 & K3 & S3).
  { rewrite ptr_array_length. eapply writable_same; [exact T2|]. eapply writable_sub; [exact Hw|lia|lia]. } rewrite ptr_array_length in K3. fold na in K3.
  pose proof (same_cells_trans _ _ _ T2 S3) as T3. rewrite Ok_bind.
  destruct (put_spec (ptr_array envp) m3 eb) as (m4 & -> & A4 & K4 & S4).
  { rewrite ptr_array_length. eapply writable_same; [exact T3|]. eapply writable_sub; [exact Hw|lia|lia]. } rewrite ptr_array_length in K4. fold ne in K4.
  pose proof (same_cells_trans _ _ _ T3 S4) as T4. rewrite Ok_bind.
  destruct (copy_strings_spec argv ab sb m4) as (m5 & -> & A5 & B5 & K5 & S5); fold na; try lia.
  { eapply writable_same; [exact T4|]. eapply writable_sub; [exact Hw|lia|lia]. }
  { eapply writable_same; [exact T4|]. eapply writable_sub; [exact Hw|lia|lia]. }
  fold na in K5. pose proof (same_cells_trans _ _ _ T4 S5) as T5. rewrite Ok_bind.
  destruct (copy_strings_spec envp eb (sb + str_total argv) m5) as (m6 & -> & A6 & B6 & K6 & S6); fold ne; try lia.
  { eapply writable_same; [exact T5|]. eapply writable_sub; [exact Hw|lia|lia]. }
  { eapply writable_same; [exact T5|]. eapply writable_sub; [exact Hw|lia|lia]. }
  fold ne in K6. pose proof (same_cells_trans _ _ _ T5 S6) as T6. rewrite Ok_bind.
  destruct (put_spec (le_bytes 8 na) m6 sp) as (m7 & -> & A7 & K7 & S7).
  { rewrite le_bytes_length. eapply writable_same; [exact T6|]. eapply writable_sub; [exact Hw|lia|lia]. } rewrite le_bytes_length in K7.
  rewrite Ok_bind. exists m7. split; [done|]. split.
  - assert (forall b l, at_mem m4 b l -> (ab + 8 * na <= b /\ b + Z.of_nat (length l) <= eb) \/ (eb + 8 * ne <= b /\ b + Z.of_nat (length l) <= sb) -> at_mem m7 b l) as F4.
    { intros b l Hb Hr i c Ei. pose proof (lookup_lt_Some _ _ _ Ei). rewrite K7, K6, K5 by lia. by apply Hb. }
    unfold stack_image. fold na ne nx. change (Z.of_nat (length PLATFORM_STRING)) with 7. fold ab. fold eb. fold xb. fold pb. change (pb + 7) with sb.
    apply at_mem_app. split; [done|]. rewrite le_bytes_length. change (sp + Z.of_nat 8) with ab.
    assert (forall l, length (concat (le_bytes 8 <$> addresses argv l)) = (8 * length argv)%nat) as La by (intros; by rewrite le8_concat_length, addresses_length).
    assert (forall l, length (concat (le_bytes 8 <$> addresses envp l)) = (8 * length envp)%nat) as Le by (intros; by rewrite le8_concat_length, addresses_length).
    apply at_mem_app. rewrite pointers_length. fold na eb. split; [apply at_mem_app; rewrite La; split|].
    + intros i c Ei. pose proof (lookup_lt_Some _ _ _ Ei) as Hi. rewrite La in Hi. rewrite K7, K6 by (unfold na in *; lia). by apply A5.
    + apply F4; [|rewrite le_bytes_length; unfold na in *; lia]. unfold ptr_array in A3. apply at_mem_app in A3 as [_ A3]. rewrite caller_pointers_length in A3.
      eapply at_mem_kept; [exact K4|exact A3|rewrite le_bytes_length; unfold na in *; lia].
    + apply at_mem_app. rewrite pointers_length. fold ne xb. split; [apply at_mem_app; rewrite Le; split|].
      * intros i c Ei. pose proof (lookup_lt_Some _ _ _ Ei) as Hi. rewrite Le in Hi. rewrite K7 by (unfold ne in *; lia). by apply A6.
      * apply F4; [|rewrite le_bytes_length; unfold ne in *; lia]. unfold ptr_array in A4. apply at_mem_app in A4 as [_ A4]. by rewrite caller_pointers_length in A4.
      * apply at_mem_app. rewrite Lx. fold pb. split.
        { apply F4; [|rewrite Lx; lia]. eapply at_mem_kept; [exact K4| |rewrite Lx; lia]. eapply at_mem_kept; [exact K3| |rewrite Lx; lia].
          eapply at_mem_kept; [exact K2|exact A1|rewrite Lx; lia]. }
        apply at_mem_app. change (Z.of_nat (length PLATFORM_STRING)) with 7. change (pb + 7) with sb. split.
        { apply F4; [|change (Z.of_nat (length PLATFORM_STRING)) with 7; lia].
          eapply at_mem_kept; [exact K4| |change (Z.of_nat (length PLATFORM_STRING)) with 7; lia].
          eapply at_mem_kept; [exact K3|exact A2|change (Z.of_nat (length PLATFORM_STRING)) with 7; lia]. }
        apply at_mem_app. rewrite string_bytes_length. split.
        { intros i c Ei. pose proof (lookup_lt_Some _ _ _ Ei) as Hi. pose proof (string_bytes_length argv). rewrite K7, K6 by lia. by apply B5. }
        { intros i c Ei. rewrite K7 by lia. by apply B6. }
  - intros y Hy. rewrite K7, K6, K5, K4, K3, K2, K1 by lia. done.
Qed.

(** The whole function; [mem] is true when the vector could be created. *)
Lemma setup_user_stack_spec `{HeapLaws} mem argv envp x stack_top m lo d : dynarr_create mem 16 0 = Some d ->
  0 <= lo -> stack_top < 2 ^ 63 -> writable m lo (stack_top - lo) -> lo + stack_size argv envp x + 15 <= stack_top ->
  exists sp m', exec_setup_user_stack mem stack_top argv envp x m = Ok (0, sp, m') /\
    sp mod 16 = 0 /\ stack_top - 16 < sp + stack_size argv envp x <= stack_top /\
    at_mem m' sp (stack_image argv envp x sp) /\ kept m m' sp (stack_size argv envp x).
Proof.
  destruct mem; [|done]. intros Ed Hlo Htop Hw Hfit. unfold exec_setup_user_stack. rewrite Ed.
  destruct (collect_auxv_spec x d (create_aux d Ed)) as (d' & k & -> & Ha & Hcc & HAB). rewrite Ok_bind, Hcc.
  pose proof (aux_pairs_length x 0) as [_ Hn]. set (nx := length (aux_pairs x 0)) in *. pose proof (str_total_nonneg argv) as Hsa. pose proof (str_total_nonneg envp) as Hse.
  assert (stack_size argv envp x = 16 * Z.of_nat nx + 8 * (Z.of_nat (length envp) + 1) + 8 * (Z.of_nat (length argv) + 1) + 8 + (str_total argv + str_total envp + 7)) as Hsize by done.
  set (size := stack_size argv envp x) in *. change (Z.of_nat (length PLATFORM_STRING)) with 7.
  rewrite (wrap_small 64 (Z.of_nat nx * 16)) by (unfold fits; lia).
  rewrite (wrap_small 64 (Z.of_nat nx * 16 + _ + _ + 8 + _)) by (unfold fits; lia).
  replace (Z.of_nat nx * 16 + (Z.of_nat (length envp) + 1) * 8 + (Z.of_nat (length argv) + 1) * 8 + 8 + (str_total argv + str_total envp + 7)) with size by lia.
  rewrite (wrap_small 64 (stack_top - size)), align16 by (unfold fits; lia).
  pose proof (Z.mod_pos_bound (stack_top - size) 16 ltac:(lia)) as Hmod.
  set (sp := stack_top - size - (stack_top - size) mod 16). assert (sp mod 16 = 0) as Hal by (unfold sp; dlia).
  rewrite (wrap_small 64 (sp + 8)), (wrap_small 64 (sp + 8 + _)), (wrap_small 64 (sp + 8 + _ + _)), (wrap_small 64 (sp + 8 + _ + _ + _)) by (unfold fits, sp; lia).
  rewrite (wrap_small 64 (sp + 8 + _ + _ + _ + 7)) by (unfold fits, sp; lia).
  assert (dynarr_get (Some d') (Z.of_nat k) = Some (Z.of_nat k * 16)) as ->.
  { unfold dynarr_get. rewrite (aa_size _ _ Ha). destruct HAB as (A & B & E & _ & Hk). rewrite (proj2 (Z.leb_gt _ _)); [done|].
    rewrite Hcc. unfold nx. rewrite E, length_app. cbn. lia. }
  cbn [deref]. rewrite Ok_bind.
  replace ((Z.of_nat (length argv) + 1) * 8) with (8 * (Z.of_nat (length argv) + 1)) by lia.
  replace ((Z.of_nat (length envp) + 1) * 8) with (8 * (Z.of_nat (length envp) + 1)) by lia.
  replace (Z.of_nat nx * 16) with (16 * Z.of_nat nx) by lia. set (pb := sp + 8 + _ + _ + _).
  destruct (patch_auxv x d' k pb Ha HAB) as (a & Ep & El). rewrite Ep, Ok_bind. fold nx in El.
  replace (Z.to_nat (16 * Z.of_nat nx)) with (16 * nx)%nat by lia. rewrite El, Ok_bind.
  destruct (write_stack argv envp x sp m) as (m' & Ew & Hat & Hk); [unfold sp; lia|fold size; unfold sp; lia| |].
  { fold size. eapply writable_sub; [exact Hw|unfold sp; lia|unfold sp; lia]. }
  exists sp, m'. fold nx in Ew. fold pb in Ew. change (Z.of_nat (length PLATFORM_STRING)) with 7 in Ew.
  split; [exact Ew|]. split_and!; [done|unfold sp; lia|unfold sp; lia|done|done].
Qed.

(** C18: the stack of a new program.  Provided it fits,
    [exec_setup_user_stack] puts the number of arguments, the NULL-terminated
    arrays of pointers to the arguments and to the environment, the auxiliary
    vector and the strings below the top of the stack, in this order and
    without gaps: from the new stack pointer on the memory is the image
    [stack_image], in which every pointer is the address of its string.  The
    stack pointer is aligned to 16 bytes, at most 15 bytes below the top are
    not used, and no other byte changes. *)
Theorem exec_setup_user_stack_correct `{HeapLaws} argv envp x stack_top m lo d : dynarr_create true 16 0 = Some d ->
  0 <= lo -> stack_top < 2 ^ 63 -> writable m lo (stack_top - lo) -> lo + stack_size argv envp x + 15 <= stack_top ->
  exists sp m', exec_setup_user_stack true stack_top argv envp x m = Ok (0, sp, m') /\
    sp mod 16 = 0 /\ stack_top - 16 < sp + stack_size argv envp x <= stack_top /\
    Z.of_nat (length (stack_image argv envp x sp)) = stack_size argv envp x /\
    at_mem m' sp (stack_image argv envp x sp) /\ kept m m' sp (stack_size argv envp x).
Proof.
  intros Ed Hlo Htop Hw Hfit. destruct (setup_user_stack_spec true argv envp x stack_top m lo d Ed Hlo Htop Hw Hfit) as (sp & m' & E & Hal & Hsp & Hat & Hk).
  exists sp, m'. split_and!; try done; [lia|lia|]. apply stack_image_length.
Qed.

(** ** Witness *)

Definition demo_argv : list (Z * list Z) := [(5000, [108; 115]); (6000, [45; 108])].
Definition demo_envp : list (Z * list Z) := [(7000, [65; 61; 49])].
Definition demo_args : exec_args := ExecArgs 0x401000 0x400040 3 56 0 0.

Lemma exec_setup_user_stack_correct_witness : exists sp m',
  @exec_setup_user_stack demo_heap true 4096 demo_argv demo_envp demo_args (filled 4096 0xCC) = Ok (0, sp, m') /\
  sp mod 16 = 0 /\ at_mem m' sp (stack_image demo_argv demo_envp demo_args sp).
Proof.
  assert (exists d, @dynarr_create demo_heap true 16 0 = Some d) as [d Ed] by (eexists; reflexivity).
  destruct (@exec_setup_user_stack_correct demo_heap demo_heap_laws demo_argv demo_envp demo_args 4096 (filled 4096 0xCC) 0 d Ed)
    as (sp & m' & E & Hal & _ & _ & Hat & _); [lia|lia| |vm_compute; discriminate|].
  - intros y Hy. rewrite filled_lookup, (proj2 (Z.leb_le _ _)), (proj2 (Z.ltb_lt _ _)) by lia. by eexists.
  - exists sp, m'. split; [exact E|]. split; [exact Hal|exact Hat].
Defined.
