(* ===== verification/Exec.v ===== *)
(** * Loading a program (kernel/exec/core.c)

    [exec_load] opens a file, offers it to the registered formats, maps its
    segments and goes on with its interpreter, up to four files deep; then it
    builds the user stack.  Every file has a frame in an array of the function;
    an access behind the array is a [Fault], as are closing a file that is not
    open and freeing a block that is not live.  The formats, the file system
    and the address space are the class [ExecEnv]. *)

From S2P Require Import Prelude StateM Bitmap Dynarr UserStack Elf.

Local Open Scope Z_scope.

(** include/libc/errno.h *)
Definition ENOEXEC : Z := 8.
Definition ELOOP : Z := 40.

(** core.h: EXEC_MAX_DEPTH *)
Definition EXEC_MAX_DEPTH : nat := 4.

(** What the framework needs: the file behind a path or the error of
    vfs_open, the callbacks of a format (its [destroy] may be NULL), mapping a
    segment of a file, and removing the mapping at an address. *)
Class ExecEnv (M : Type) := {
  vfs_lookup : list Z -> Z + Z;
  has_load : Z -> bool;
  fmt_load : Z -> Z -> ST eheap (option exec_loader_info);
  fmt_destroy : Z -> option (exec_loader_info -> ST eheap unit);
  vheap_file_alloc : M -> exec_segment -> list Z -> option M;
  vheap_free : M -> Z -> M;
  path_cap : Z -> option Z;
  auxv_mem : bool;
  exec_heap :: Heap
}.

(** The heap, the open files with the next free name, the registered formats
    and the ones that were taken off the list, the address space and the bytes
    of the user stack. *)
Record xst (M : Type) := Xst {
  xheap : eheap;
  opened : list Z;
  next_file : Z;
  binfmts : list Z;
  unlinked : list Z;
  aspace : M;
  ustack : bytes
}.
Arguments Xst {M}. Arguments xheap {M}. Arguments opened {M}. Arguments next_file {M}. Arguments binfmts {M}.
Arguments unlinked {M}. Arguments aspace {M}. Arguments ustack {M}.

(** core.c: struct exec_load_frame; the path is its block and its characters *)
Record exec_load_frame := Frame {
  fmt : option Z;
  info : option exec_loader_info;
  path : option (Z * list Z);
  file : option Z;
  mapped_count : nat;
  base : Z
}.
Definition frame0 : exec_load_frame := Frame None None None None 0 0.
Definition set_fmt (f : exec_load_frame) x := Frame x (info f) (path f) (file f) (mapped_count f) (base f).
Definition set_info (f : exec_load_frame) x := Frame (fmt f) x (path f) (file f) (mapped_count f) (base f).
Definition set_path (f : exec_load_frame) x := Frame (fmt f) (info f) x (file f) (mapped_count f) (base f).
Definition set_file (f : exec_load_frame) x := Frame (fmt f) (info f) (path f) x (mapped_count f) (base f).
Definition set_mapped (f : exec_load_frame) x := Frame (fmt f) (info f) (path f) (file f) x (base f).
Definition set_base (f : exec_load_frame) x := Frame (fmt f) (info f) (path f) (file f) (mapped_count f) x.

(** The characters of a string up to its NUL. *)
Fixpoint cstr (l : list Z) : list Z :=
  match l with
  | [] => []
  | c :: l => if c =? 0 then [] else c :: cstr l
  end.

(** The labels of the error paths. *)
Inductive label := err_depth | err_map | err_parse | err_open.

(** The local variables of exec_load. *)
Record lvars := Lvars {
  stack : list exec_load_frame;
  depth : nat;
  final_entry : Z;
  main_phdr : Z;
  main_phnum : Z;
  main_phent : Z;
  main_is_elf : Z
}.
Definition set_stack (v : lvars) st := Lvars st (depth v) (final_entry v) (main_phdr v) (main_phnum v) (main_phent v) (main_is_elf v).

Section exec.
Context {M : Type} `{ExecEnv M}.

Abbreviation xm := (ST (xst M)).

Definition on_heap {A} (e : ST eheap A) : xm A := fun s =>
  '(a, h) ← e (xheap s);
  Ok (a, Xst h (opened s) (next_file s) (binfmts s) (unlinked s) (aspace s) (ustack s)).

Definition set_aspace (s : xst M) (m : M) : xst M :=
  Xst (xheap s) (opened s) (next_file s) (binfmts s) (unlinked s) m (ustack s).
Definition set_opened (s : xst M) (l : list Z) (n : Z) : xst M :=
  Xst (xheap s) l n (binfmts s) (unlinked s) (aspace s) (ustack s).
Definition set_formats (s : xst M) (l u : list Z) : xst M :=
  Xst (xheap s) (opened s) (next_file s) l u (aspace s) (ustack s).

(** A copy of a string on the heap. *)
Definition strdup (l : list Z) : xm (option (Z * list Z)) := fun s =>
  match path_cap (Z.of_nat (length l) + 1) with
  | None => Ok (None, s)
  | Some _ =>
      let h := xheap s in
      on_heap (fun _ => Ok (Some (next_block h, l), Eheap (next_block h :: live h) (next_block h + 1))) s
  end.
Definition path_free (p : Z * list Z) : xm unit := on_heap (fun h =>
  if bool_decide (fst p ∈ live h) then Ok (tt, Eheap (filter (fun b => b <> fst p) (live h)) (next_block h)) else Fault).

(** vfs_open: an error, or a new open file and what it names. *)
Definition vfs_open (p : list Z) : xm (Z + (Z * Z)) := fun s =>
  match vfs_lookup p with
  | inl e => Ok (inl e, s)
  | inr ino => Ok (inr (next_file s, ino), set_opened s (next_file s :: opened s) (next_file s + 1))
  end.
Definition vfs_close (f : Z) : xm unit := fun s =>
  if bool_decide (f ∈ opened s) then Ok (tt, set_opened s (filter (fun g => g <> f) (opened s)) (next_file s)) else Fault.

(** core.c: exec_register_binfmt; a format that is registered twice breaks
    the list, which counts as a fault *)
Definition exec_register_binfmt (f : option Z) : xm unit := fun s =>
  match f with
  | None => Ok (tt, s)
  | Some n =>
      if negb (has_load n) then Ok (tt, s)
      else if bool_decide (n ∈ binfmts s) then Fault
      else Ok (tt, set_formats s (binfmts s ++ [n]) (filter (fun g => g <> n) (unlinked s)))
  end.

(** core.c: exec_unregister_binfmt; a format that was taken off before points
    to itself, one that was never registered has NULL pointers *)
Definition exec_unregister_binfmt (f : option Z) : xm unit := fun s =>
  match f with
  | None => Ok (tt, s)
  | Some n =>
      if bool_decide (n ∈ binfmts s) then Ok (tt, set_formats s (filter (fun g => g <> n) (binfmts s)) (n :: unlinked s))
      else if bool_decide (n ∈ unlinked s) then Ok (tt, s) else Fault
  end.

(** core.c: exec_init, before the formats register themselves *)
Definition exec_init : xm unit := st_modify (fun s => set_formats s [] (unlinked s)).

(** core.c: exec_load, the formats that are tried in turn *)
Fixpoint try_formats (l : list Z) (ino : Z) : xm (option (Z * exec_loader_info)) :=
  match l with
  | [] => mret None
  | n :: l =>
      i ← on_heap (fmt_load n ino);
      match i with
      | Some i => mret (Some (n, i))
      | None => try_formats l ino
      end
  end.

(** core.c: exec_load, the segments are mapped: whether all are, and how many *)
Fixpoint map_segments (l : list exec_segment) (p : list Z) (i : nat) : xm (bool * nat) :=
  match l with
  | [] => mret (true, i)
  | seg :: l =>
      m ← st_gets aspace;
      match vheap_file_alloc m seg p with
      | None => mret (false, i)
      | Some m => _ ← st_modify (fun s => set_aspace s m); map_segments l p (S i)
      end
  end.

(** core.c: exec_load, the first [j] segments are unmapped, the last first *)
Fixpoint unmap_segments (l : list exec_segment) (j : nat) : xm unit :=
  match j with
  | O => mret tt
  | S j =>
      seg ← st_deref (fun _ => l !! j);
      _ ← st_modify (fun s => set_aspace s (vheap_free (aspace s) (vaddr seg)));
      unmap_segments l j
  end.

(** core.c: exec_load, what frees a frame: its mappings, its file, its
    information, its path *)
Definition unmap_frame (f : exec_load_frame) : xm unit :=
  match info f with
  | Some i => unmap_segments (segments i) (mapped_count f)
  | None => mret tt
  end.
Definition close_frame (f : exec_load_frame) : xm unit :=
  match file f with Some x => vfs_close x | None => mret tt end.
Definition destroy_info (f : exec_load_frame) : xm unit :=
  match info f, fmt f with
  | Some i, Some n => match fmt_destroy n with Some d => on_heap (d i) | None => mret tt end
  | _, _ => mret tt
  end.
Definition free_path (f : exec_load_frame) : xm unit :=
  match path f with Some p => path_free p | None => mret tt end.

(** core.c: exec_load, the loop over all frames at err_depth *)
Fixpoint unwind (st : list exec_load_frame) (n : nat) : xm (list exec_load_frame) :=
  match n with
  | O => mret st
  | S n =>
      f ← st_deref (fun _ => st !! n);
      _ ← unmap_frame f;
      _ ← close_frame f;
      _ ← destroy_info f;
      _ ← free_path f;
      unwind (<[n := set_path (set_info (set_file f None) None) None]> st) n
  end.

(** core.c: exec_load, the frames are released after success *)
Fixpoint release (st : list exec_load_frame) (i n : nat) : xm unit :=
  match n with
  | O => mret tt
  | S n =>
      f ← st_deref (fun _ => st !! i);
      _ ← destroy_info f;
      _ ← free_path f;
      release st (S i) n
  end.

(** core.c: exec_load, the error paths: the code falls through from one label
    to the next; [frame] is the index of the current frame *)
Definition fail_from (l : label) (v : lvars) (frame : nat) : xm unit :=
  st ← (match l with err_depth => unwind (stack v) (S (depth v)) | _ => mret (stack v) end);
  f ← st_deref (fun _ => st !! frame);
  _ ← (match l with err_depth | err_map => unmap_frame f | _ => mret tt end);
  _ ← (match l with
       | err_depth | err_map | err_parse => _ ← close_frame f; destroy_info f
       | err_open => mret tt
       end);
  free_path f.

(** core.c: exec_load, a turn of the loop from where the file is parsed: on
    to the interpreter, or out of the loop with the error and its label *)
Definition load_parsed (v : lvars) (frame : exec_load_frame) (p : list Z) (fp : Z) (i : exec_loader_info)
  : xm (lvars + (lvars * option (label * Z))) :=
  _ ← vfs_close fp;
  let frame := set_file frame None in
  '(ok, k) ← map_segments (segments i) p 0;
  let frame := match segments i, k with
               | seg :: _, S _ => set_base frame (vaddr seg)
               | _, _ => frame
               end in
  let frame := set_mapped frame k in
  let v := set_stack v (<[depth v := frame]> (stack v)) in
  if negb ok then mret (inr (v, Some (err_map, - ENOMEM)))
  else
    let v := if (depth v =? 0)%nat
             then Lvars (stack v) (depth v) (final_entry v) (phdr i) (phnum i) (phent i) (is_elf i)
             else v in
    let v := Lvars (stack v) (depth v) (entry i) (main_phdr v) (main_phnum v) (main_phent v) (main_is_elf v) in
    match interp_path i with
    | None => mret (inr (v, None))
    | Some (_, ip) =>
        let v := Lvars (stack v) (S (depth v)) (final_entry v) (main_phdr v) (main_phnum v) (main_phent v) (main_is_elf v) in
        if (EXEC_MAX_DEPTH <=? depth v)%nat then mret (inr (v, Some (err_depth, - ELOOP)))
        else
          q ← strdup (cstr ip);
          f ← st_deref (fun _ => stack v !! depth v);
          let v := set_stack v (<[depth v := set_path f q]> (stack v)) in
          match q with
          | None => mret (inr (v, Some (err_depth, - ENOMEM)))
          | Some _ => mret (inl v)
          end
    end.

(** core.c: exec_load, one turn of the loop *)
Definition load_turn (v : lvars) : xm (lvars + (lvars * option (label * Z))) :=
  frame ← st_deref (fun _ => stack v !! depth v);
  p ← st_deref (fun _ => path frame);
  file_res ← vfs_open (snd p);
  match file_res with
  | inl e => mret (inr (v, Some (err_open, e)))
  | inr (fp, ino) =>
      let frame := set_file frame (Some fp) in
      l ← st_gets binfmts;
      r ← try_formats l ino;
      match r with
      | None => mret (inr (set_stack v (<[depth v := frame]> (stack v)), Some (err_parse, - ENOEXEC)))
      | Some (n, i) => load_parsed v (set_fmt (set_info frame (Some i)) (Some n)) (snd p) fp i
      end
  end.

(** core.c: exec_load, the base of the interpreter *)
Definition interp_base_of (v : lvars) : xm Z :=
  if (0 <? depth v)%nat then
    f ← st_deref (fun _ => stack v !! depth v);
    if base f =? 0 then
      i ← st_deref (fun _ => info f);
      mret (entry i)
    else mret (base f)
  else mret 0.

(** The stack is built in the bytes of the state. *)
Definition setup_stack (stack_top : Z) (argv envp : list (Z * list Z)) (x : exec_args) : xm (Z * Z) := fun s =>
  '(ret, sp, m) ← exec_setup_user_stack auxv_mem stack_top argv envp x (ustack s);
  Ok ((ret, sp), Xst (xheap s) (opened s) (next_file s) (binfmts s) (unlinked s) (aspace s) m).

(** core.c: exec_load, after the loop: the error path of the turn that
    failed, or the stack and the release of all frames; the error number or 0,
    the entry and the new top of the stack *)
Definition exec_finish (argv envp : list (Z * list Z)) (stack_top : Z) (v : lvars) (r : option (label * Z)) : xm (Z * Z * Z) :=
  match r with
  | Some (l, ret) =>
      (* frame is the one of the turn that failed *)
      let frame := match l with err_depth => pred (depth v) | _ => depth v end in
      _ ← fail_from l v frame;
      mret (ret, 0, 0)
  | None =>
      interp_base ← interp_base_of v;
      '(ret, sp) ← setup_stack stack_top argv envp
        (ExecArgs (final_entry v) (main_phdr v) (main_phnum v) (main_phent v) (main_is_elf v) interp_base);
      if ret <? 0 then
        _ ← fail_from err_depth v (depth v);
        mret (ret, 0, 0)
      else
        _ ← release (stack v) 0 (S (depth v));
        mret (0, final_entry v, sp)
  end.

(** core.c: exec_load *)
Definition exec_load (p : list Z) (argv envp : list (Z * list Z)) (stack_top : Z) : xm (Z * Z * Z) :=
  p0 ← strdup p;
  match p0 with
  | None => mret (- ENOMEM, 0, 0)
  | Some p0 =>
      let v := Lvars (set_path frame0 (Some p0) :: replicate (EXEC_MAX_DEPTH - 1) frame0) 0 0 0 0 0 0 in
      '(v, r) ← st_loop (S EXEC_MAX_DEPTH) load_turn v;
      exec_finish argv envp stack_top v r
  end.

End exec.
