(* ===== verification/ExecSpec.v ===== *)
(** * Loading a program: the steps

    What the formats and the address space promise ([ExecLaws]), the chain of
    files from a program to its last interpreter, and what every part of
    [exec_load] does to the mappings, the heap and the open files. *)

From S2P Require Import Prelude StateM Bitmap Dynarr UserStack UserStackSpec Elf ElfSpec Exec.

Local Open Scope Z_scope.

(** A segment that [vheap_file_alloc] puts where the file says: heap.c rounds
    the address down to a page and takes address 0 as "anywhere". *)
Definition placed (seg : exec_segment) : Prop := 4096 <= vaddr seg.

(** For a file that it can handle ([good]) a format answers the information
    and owns some blocks with it, which its [destroy] gives back; a refused
    file costs nothing.  Removing the mapping at the address of the newest
    segment undoes it: the mapping has at least one page from the page of that
    address on.  A segment below the first page is mapped somewhere else, and
    [vheap_free] ignores address 0, so such files are not good ones. *)
Class ExecLaws (M : Type) `{ExecEnv M} := {
  desc : Z -> exec_loader_info -> Prop;
  owned : exec_loader_info -> list Z;
  good : Z -> Prop;
  load_law n ino h : good ino -> hwf h -> exists r h', fmt_load n ino h = Ok (r, h') /\ hwf h' /\
    match r with
    | None => live h' = live h
    | Some i => desc ino i /\ Forall placed (segments i) /\ live h' ≡ₚ owned i ++ live h /\
        exists d, fmt_destroy n = Some d /\
          forall h L, hwf h -> live h ≡ₚ owned i ++ L -> exists h', d i h = Ok (tt, h') /\ hwf h' /\ live h' ≡ₚ L
    end;
  unmap_law m seg p m' : placed seg -> vheap_file_alloc m seg p = Some m' -> vheap_free m' (vaddr seg) = m;
  open_law p e : vfs_lookup p = inl e -> e < 0;
  exec_heap_laws :: HeapLaws
}.

(** One file of the chain. *)
Record layer := Layer { l_path : list Z; l_ino : Z; l_info : exec_loader_info }.

(** A format refuses a file: it is not of its kind, or there is no memory. *)
Definition refuses {M} `{ExecEnv M} (ino n : Z) : Prop := exists h h', fmt_load n ino h = Ok (None, h').

(** Why a file or the stack could not be loaded, with the error number. *)
Inductive failure {M} `{ExecEnv M} (fmts : list Z) (q : list Z) (e : Z) : Prop :=
| no_file : vfs_lookup q = inl e -> failure fmts q e
| no_format ino : vfs_lookup q = inr ino -> Forall (refuses ino) fmts -> e = - ENOEXEC -> failure fmts q e
| no_mapping m seg : vheap_file_alloc m seg q = None -> e = - ENOMEM -> failure fmts q e
| no_path_memory : path_cap (Z.of_nat (length q) + 1) = None -> e = - ENOMEM -> failure fmts q e
| no_vector_memory : dynarr_create auxv_mem 16 0 = None -> e = - ENOMEM -> failure fmts q e.

Section spec.
Context {M : Type} `{ExecLaws M}.

(** The files from [p] on, each the interpreter of the one before; [next] is
    the path of the next one, if any. *)
Fixpoint chain (p : list Z) (l : list layer) (next : option (list Z)) : Prop :=
  match l with
  | [] => next = Some p
  | x :: l =>
      l_path x = p /\ vfs_lookup p = inr (l_ino x) /\ desc (l_ino x) (l_info x) /\
      match interp_path (l_info x) with
      | None => l = [] /\ next = None
      | Some (_, b) => chain (cstr b) l next
      end
  end.

Lemma chain_snoc l : forall p q ino i, chain p l (Some q) -> vfs_lookup q = inr ino -> desc ino i ->
  chain p (l ++ [Layer q ino i]) (cstr ∘ snd <$> interp_path i).
Proof.
  induction l as [|x l IH]; intros p q ino i Hc Hl Hd; cbn in *.
  - simplify_eq. split_and!; try done. by destruct (interp_path i) as [[a b]|].
  - destruct Hc as (-> & Hx & Hdx & Hc). split_and!; try done. destruct (interp_path (l_info x)) as [[a b]|]; [by eapply IH|]. by destruct Hc.
Qed.

(** The address space with the segments of a file, and of all files of the
    chain, mapped in order. *)
Fixpoint map_all (m : M) (l : list exec_segment) (p : list Z) : option M :=
  match l with
  | [] => Some m
  | seg :: l => m' ← vheap_file_alloc m seg p; map_all m' l p
  end.
Fixpoint map_layers (m : M) (l : list layer) : option M :=
  match l with
  | [] => Some m
  | x :: l => m' ← map_all m (segments (l_info x)) (l_path x); map_layers m' l
  end.

Lemma map_all_app l1 : forall m l2 p, map_all m (l1 ++ l2) p = (m' ← map_all m l1 p; map_all m' l2 p).
Proof. induction l1 as [|seg l1 IH]; intros m l2 p; cbn; [done|]. destruct (vheap_file_alloc m seg p); cbn; [apply IH|done]. Qed.

Lemma map_layers_app l1 : forall m l2, map_layers m (l1 ++ l2) = (m' ← map_layers m l1; map_layers m' l2).
Proof. induction l1 as [|x l1 IH]; intros m l2; cbn; [done|]. destruct (map_all m _ _); cbn; [apply IH|done]. Qed.

(** ** The parts of the state *)

(** Who has what: the blocks of the heap in any order, the open files, the
    mappings. *)
Record owns (s : xst M) (bs os : list Z) (m : M) : Prop := {
  ow_heap : hwf (xheap s);
  ow_live : live (xheap s) ≡ₚ bs;
  ow_open : opened s = os;
  ow_names : Forall (fun f => f < next_file s) os;
  ow_aspace : aspace s = m
}.

(** The rest of the state. *)
Definition rest (s s' : xst M) : Prop := binfmts s' = binfmts s /\ unlinked s' = unlinked s /\ ustack s' = ustack s.

Lemma rest_refl s : rest s s.
Proof. done. Qed.
Lemma rest_trans s1 s2 s3 : rest s1 s2 -> rest s2 s3 -> rest s1 s3.
Proof. intros (? & ? & ?) (? & ? & ?). unfold rest. by split_and!; etrans. Qed.

Lemma owns_perm s bs bs' os m : owns s bs os m -> bs ≡ₚ bs' -> owns s bs' os m.
Proof. intros [? Hb ? ? ?] Hp. split; try done. by rewrite Hb. Qed.

Lemma free_block h a L : hwf h -> live h ≡ₚ a :: L ->
  a ∈ live h /\ filter (fun b => b <> a) (live h) ≡ₚ L /\ hwf (Eheap (filter (fun b => b <> a) (live h)) (next_block h)).
Proof.
  intros [Hnd Hlt] Hp. assert (a ∈ live h) as Hin by (rewrite Hp; by left).
  assert (filter (fun b => b <> a) (live h) ≡ₚ L) as Hf.
  { rewrite Hp. rewrite filter_cons_False by (intros Hx; by apply Hx). rewrite filter_notin; [done|]. rewrite Hp in Hnd. by apply NoDup_cons in Hnd as [? _]. }
  split_and!; [done|done|]. split; cbn; [by apply NoDup_filter|]. apply Forall_forall. intros x Hx. apply list_elem_of_filter in Hx as [_ Hx].
  rewrite Forall_forall in Hlt. by apply Hlt.
Qed.

Lemma path_free_spec s p bs os m : owns s (fst p :: bs) os m -> exists s', path_free p s = Ok (tt, s') /\ owns s' bs os m /\ rest s s'.
Proof.
  intros [Hh Hl Ho Hn Ha]. destruct (free_block _ _ _ Hh Hl) as (Hin & Hp & Hw).
  unfold path_free, on_heap. rewrite bool_decide_eq_true_2 by done. eexists. split; [reflexivity|]. by split.
Qed.

Lemma strdup_spec s q bs os m : owns s bs os m -> exists r s', strdup q s = Ok (r, s') /\ rest s s' /\
  match r with None => path_cap (Z.of_nat (length q) + 1) = None /\ owns s' bs os m | Some p => snd p = q /\ owns s' (fst p :: bs) os m end.
Proof.
  intros [Hh Hl Ho Hn Ha]. unfold strdup. destruct (path_cap _) as [c|] eqn:Ec; [|by exists None, s].
  unfold on_heap. eexists _, _. split; [reflexivity|]. split; [done|]. split; [done|].
  split; cbn; try done; [|by rewrite Hl]. destruct Hh as [Hnd Hlt]. split; cbn.
  - apply NoDup_cons. split; [|done]. intros Hin. rewrite Forall_forall in Hlt. specialize (Hlt _ Hin). lia.
  - constructor; [lia|]. eapply Forall_impl; [exact Hlt|]. cbn. lia.
Qed.

Lemma vfs_close_spec s f bs os m : owns s bs (f :: os) m -> f ∉ os -> exists s', vfs_close f s = Ok (tt, s') /\ owns s' bs os m /\ rest s s'.
Proof.
  intros [Hh Hl Ho Hn Ha] Hf. unfold vfs_close. rewrite Ho, bool_decide_eq_true_2 by set_solver.
  eexists. split; [reflexivity|]. split; [|done]. apply Forall_cons in Hn as [_ Hn]. split; try done.
  cbn [opened set_opened]. rewrite filter_cons_False by (intros Hx; by apply Hx). by apply filter_notin.
Qed.

Lemma vfs_open_spec s p bs os m : owns s bs os m -> exists r s', vfs_open p s = Ok (r, s') /\ rest s s' /\
  match r with
  | inl e => vfs_lookup p = inl e /\ owns s' bs os m
  | inr (fp, ino) => vfs_lookup p = inr ino /\ fp ∉ os /\ owns s' bs (fp :: os) m
  end.
Proof.
  intros [Hh Hl Ho Hn Ha]. unfold vfs_open. destruct (vfs_lookup p) as [e|ino] eqn:E; [by exists (inl e), s|].
  eexists (inr (next_file s, ino)), _. split; [reflexivity|]. split; [done|]. split_and!; [done| |].
  - intros Hin. rewrite Forall_forall in Hn. specialize (Hn _ Hin). lia.
  - split; cbn; try done; [by rewrite Ho|]. constructor; [lia|]. eapply Forall_impl; [exact Hn|]. cbn. lia.
Qed.

(** What a format answered can be taken back: unmapped and destroyed. *)
Definition destroyable (n : Z) (i : exec_loader_info) : Prop := Forall placed (segments i) /\ exists d, fmt_destroy n = Some d /\
  forall h L, hwf h -> live h ≡ₚ owned i ++ L -> exists h', d i h = Ok (tt, h') /\ hwf h' /\ live h' ≡ₚ L.

Lemma try_formats_spec l : forall s ino bs os m, good ino -> owns s bs os m -> exists r s', try_formats l ino s = Ok (r, s') /\ rest s s' /\
  match r with
  | None => Forall (refuses ino) l /\ owns s' bs os m
  | Some (n, i) => desc ino i /\ destroyable n i /\ owns s' (owned i ++ bs) os m
  end.
Proof.
  induction l as [|n l IH]; intros s ino bs os m Hg Ho; cbn [try_formats]; [exists None, s; by split_and!|].
  destruct Ho as [Hh Hl Ho Hn Ha]. destruct (load_law n ino (xheap s) Hg Hh) as (r & h' & E & Hh' & Hr).
  set (s1 := Xst h' (opened s) (next_file s) (binfmts s) (unlinked s) (aspace s) (ustack s)).
  assert (on_heap (fmt_load n ino) s = Ok (r, s1)) as E1 by (unfold on_heap; by rewrite E). rewrite (st_step _ _ _ _ _ E1).
  destruct r as [i|].
  - destruct Hr as (Hd & Hpl & Hp & Hx). eexists _, s1. split; [reflexivity|]. split; [done|]. split_and!; [done|done|].
    split; try done. cbn. by rewrite Hp, Hl.
  - destruct (IH s1 ino bs os m Hg) as (r & s' & E' & Hs & Hr'); [split; try done; cbn; by rewrite Hr|]. exists r, s'.
    split; [exact E'|]. split; [exact Hs|]. destruct r as [[n' i]|]; [done|]. destruct Hr' as [Hf Ho']. split; [|done]. constructor; [|done]. by exists (xheap s), h'.
Qed.

(** ** Mapping and unmapping *)

Lemma map_segments_spec l : forall s p i bs os m, owns s bs os m -> exists ok k s', map_segments l p i s = Ok ((ok, k), s') /\ rest s s' /\
  (i <= k)%nat /\ (k - i <= length l)%nat /\ (ok = true -> k = (i + length l)%nat) /\ (ok = false -> exists m seg, vheap_file_alloc m seg p = None) /\
  exists m', map_all m (take (k - i) l) p = Some m' /\ owns s' bs os m'.
Proof.
  induction l as [|seg l IH]; intros s p i bs os m Ho; cbn [map_segments].
  { exists true, i, s. split_and!; cbn; try done; try lia. exists m. by rewrite take_nil. }
  rewrite st_gets_step, (ow_aspace _ _ _ _ Ho). destruct (vheap_file_alloc m seg p) as [m1|] eqn:Em.
  - rewrite st_modify_step. destruct (IH (set_aspace s m1) p (S i) bs os m1) as (ok & k & s' & E & Hr & Hk1 & Hk2 & Hk3 & Hk4 & m' & Hm & Ho').
    { by destruct Ho; split. }
    exists ok, k, s'. split_and!; cbn; try done; try lia; [intros Hok; specialize (Hk3 Hok); lia|].
    exists m'. split; [|done]. replace (k - i)%nat with (S (k - S i)) by lia. cbn. by rewrite Em.
  - exists false, i, s. split_and!; try done; try lia; [by eauto|]. exists m. by rewrite Nat.sub_diag.
Qed.

Lemma unmap_segments_spec l p k : forall s bs os m m', map_all m (take k l) p = Some m' -> Forall placed l -> (k <= length l)%nat -> owns s bs os m' ->
  exists s', unmap_segments l k s = Ok (tt, s') /\ owns s' bs os m /\ rest s s'.
Proof.
  induction k as [|k IH]; intros s bs os m m' Hm Hpl Hk Ho; cbn [unmap_segments].
  { rewrite take_0 in Hm. cbn in Hm. simplify_eq. by exists s. }
  destruct (lookup_lt_is_Some_2 l k) as [seg Eseg]; [lia|]. rewrite (st_deref_step (fun _ => l !! k) _ s seg Eseg), st_modify_step.
  rewrite (take_S_r _ _ _ Eseg), map_all_app in Hm. destruct (map_all m (take k l) p) as [m1|] eqn:E1; cbn in Hm; [|done].
  destruct (vheap_file_alloc m1 seg p) as [m2|] eqn:E2; cbn in Hm; simplify_eq.
  destruct (IH (set_aspace s (vheap_free (aspace s) (vaddr seg))) bs os m m1 E1 Hpl) as (s' & E & Ho' & Hr); [lia| |].
  { destruct Ho as [? ? ? ? Ha]. split; try done. cbn. rewrite Ha. eapply unmap_law; [|done]. by eapply Forall_lookup_1. }
  by exists s'.
Qed.

(** ** Frames *)

(** A frame that is not busy with a file: its mappings can be undone and its
    information destroyed. *)
Definition frame_ok (f : exec_load_frame) : Prop := file f = None /\
  match info f with
  | None => True
  | Some i => (mapped_count f <= length (segments i))%nat /\ exists n, fmt f = Some n /\ destroyable n i
  end.
Definition info_blocks (f : exec_load_frame) : list Z := match info f with Some i => owned i | None => [] end.
Definition path_blocks (f : exec_load_frame) : list Z := match path f with Some p => [fst p] | None => [] end.
Definition frame_blocks (f : exec_load_frame) : list Z := info_blocks f ++ path_blocks f.
Definition frame_path (f : exec_load_frame) : list Z := match path f with Some p => snd p | None => [] end.
Definition map_frame (m : M) (f : exec_load_frame) : option M :=
  match info f with
  | None => Some m
  | Some i => map_all m (take (mapped_count f) (segments i)) (frame_path f)
  end.
Fixpoint map_frames (m : M) (l : list exec_load_frame) : option M :=
  match l with
  | [] => Some m
  | f :: l => m' ← map_frame m f; map_frames m' l
  end.

Lemma map_frames_app l1 : forall m l2, map_frames m (l1 ++ l2) = (m' ← map_frames m l1; map_frames m' l2).
Proof. induction l1 as [|f l1 IH]; intros m l2; cbn; [done|]. destruct (map_frame m f); cbn; [apply IH|done]. Qed.

Lemma unmap_frame_spec f s bs os m m' : frame_ok f -> map_frame m f = Some m' -> owns s bs os m' ->
  exists s', unmap_frame f s = Ok (tt, s') /\ owns s' bs os m /\ rest s s'.
Proof.
  intros [_ Hf] Hm Ho. unfold unmap_frame, map_frame in *. destruct (info f) as [i|]; [|simplify_eq; by exists s].
  destruct Hf as (Hk & n & _ & Hpl & _). by eapply unmap_segments_spec.
Qed.

Lemma close_frame_none f (s : xst M) : file f = None -> close_frame f s = Ok (tt, s).
Proof. intros E. unfold close_frame. by rewrite E. Qed.

Lemma destroy_info_spec f s bs os m : frame_ok f -> owns s (info_blocks f ++ bs) os m ->
  exists s', destroy_info f s = Ok (tt, s') /\ owns s' bs os m /\ rest s s'.
Proof.
  intros [_ Hf] Ho. unfold destroy_info, info_blocks in *. destruct (info f) as [i|]; [|by exists s].
  destruct Hf as (_ & n & -> & _ & d & -> & Hd). destruct Ho as [Hh Hl Ho Hn Ha].
  destruct (Hd (xheap s) bs Hh Hl) as (h' & E & Hh' & Hl'). unfold on_heap. rewrite E. cbn. eexists. split; [reflexivity|]. by split.
Qed.

Lemma free_path_spec f s bs os m : owns s (path_blocks f ++ bs) os m -> exists s', free_path f s = Ok (tt, s') /\ owns s' bs os m /\ rest s s'.
Proof. intros Ho. unfold free_path, path_blocks in *. destruct (path f) as [p|]; [by apply path_free_spec|by exists s]. Qed.

(** What is left in a frame after it was cleared. *)
Definition cleared (f : exec_load_frame) : Prop := info f = None /\ path f = None /\ file f = None.

Lemma unwind_spec n : forall st s bs os m m', (n <= length st)%nat -> Forall frame_ok (take n st) ->
  map_frames m (take n st) = Some m' -> owns s (concat (frame_blocks <$> take n st) ++ bs) os m' ->
  exists st' s', unwind st n s = Ok (st', s') /\ owns s' bs os m /\ rest s s' /\ length st' = length st /\
    (forall i, (n <= i)%nat -> st' !! i = st !! i) /\ (forall i f, st' !! i = Some f -> (i < n)%nat -> cleared f).
Proof.
  induction n as [|n IH]; intros st s bs os m m' Hn Hf Hm Ho; cbn [unwind].
  { rewrite take_0 in *. cbn in Hm, Ho. simplify_eq. exists st, s. split; [done|]. split; [exact Ho|]. split; [apply rest_refl|]. split; [done|]. split; [done|]. intros; lia. }
  destruct (lookup_lt_is_Some_2 st n) as [f Ef]; [lia|]. rewrite (st_deref_step (fun _ => st !! n) _ s f Ef).
  rewrite (take_S_r _ _ _ Ef) in *. apply Forall_app in Hf as [Hf [Hff _]%Forall_cons].
  rewrite map_frames_app in Hm. destruct (map_frames m (take n st)) as [m1|] eqn:E1; cbn in Hm; [|done].
  destruct (map_frame m1 f) as [m2|] eqn:E2; cbn in Hm; simplify_eq.
  rewrite fmap_app, concat_app in Ho. cbn [fmap list_fmap concat] in Ho. rewrite app_nil_r in Ho. set (B := concat (frame_blocks <$> take n st)) in *.
  destruct (unmap_frame_spec f s _ os m1 m' Hff E2 Ho) as (s1 & Es1 & O1 & R1). rewrite (st_step _ _ _ _ _ Es1).
  rewrite (st_step _ _ _ _ _ (close_frame_none f s1 (proj1 Hff))).
  destruct (destroy_info_spec f s1 (path_blocks f ++ B ++ bs) os m1 Hff) as (s2 & Es2 & O2 & R2).
  { eapply owns_perm; [exact O1|]. unfold frame_blocks. solve_Permutation. }
  rewrite (st_step _ _ _ _ _ Es2). destruct (free_path_spec f s2 (B ++ bs) os m1 O2) as (s3 & Es3 & O3 & R3). rewrite (st_step _ _ _ _ _ Es3).
  set (f' := set_path _ None). assert (take n (<[n := f']> st) = take n st) as Et by (by rewrite take_insert_ge by lia).
  destruct (IH (<[n := f']> st) s3 bs os m m1) as (st' & s' & E & O' & R' & Hlen & Hup & Hcl); rewrite ?Et, ?length_insert; try done; [lia|].
  exists st', s'. split_and!; try done; [by eapply rest_trans; [|eapply rest_trans; [|eapply rest_trans]]|by rewrite length_insert in Hlen| |].
  - intros i Hi. rewrite Hup by lia. apply list_lookup_insert_ne. lia.
  - intros i g Eg Hi. destruct (decide (i = n)) as [->|]; [|apply (Hcl i); [done|lia]].
    rewrite Hup, list_lookup_insert_eq in Eg by lia. by simplify_eq.
Qed.

(** ** Loaded frames *)

Definition base_of (i : exec_loader_info) : Z := match segments i with [] => 0 | seg :: _ => vaddr seg end.

Record loaded (f : exec_load_frame) (x : layer) : Prop := {
  ld_ok : frame_ok f;
  ld_info : info f = Some (l_info x);
  ld_path : snd <$> path f = Some (l_path x);
  ld_mapped : mapped_count f = length (segments (l_info x));
  ld_base : base f = base_of (l_info x)
}.

Lemma loaded_map f x m : loaded f x -> map_frame m f = map_all m (segments (l_info x)) (l_path x).
Proof.
  intros [_ Hi Hp Hm _]. unfold map_frame, frame_path. rewrite Hi, Hm, firstn_all. destruct (path f); cbn in Hp; [|done]. by injection Hp as ->.
Qed.

Lemma loaded_frames fs l m : Forall2 loaded fs l -> map_frames m fs = map_layers m l /\ Forall frame_ok fs /\ (length l <= length (concat (frame_blocks <$> fs)))%nat.
Proof.
  intros Hl. revert m. induction Hl as [|f x fs l Hf Hl IH]; intros m; [done|]. cbn [map_frames map_layers fmap list_fmap concat length]. rewrite (loaded_map f x m Hf).
  split_and!.
  - destruct (map_all _ _ _) as [m'|]; cbn; [apply IH|done].
  - constructor; [apply Hf|apply (IH m)].
  - destruct (IH m) as (_ & _ & Hn). rewrite length_app. pose proof (ld_path _ _ Hf) as Hp.
    assert (1 <= length (frame_blocks f))%nat; [|lia]. unfold frame_blocks, path_blocks. rewrite length_app. destruct (path f); [cbn; lia|done].
Qed.

(** What exec_load remembers of the files so far. *)
Definition noted (v : lvars) (l : list layer) : Prop :=
  (forall x, head l = Some x -> main_phdr v = phdr (l_info x) /\ main_phnum v = phnum (l_info x) /\ main_phent v = phent (l_info x) /\ main_is_elf v = is_elf (l_info x)) /\
  (forall x, last l = Some x -> final_entry v = entry (l_info x)).

(** Releasing the frames after success. *)
Lemma release_frames_spec fs : forall pre post s bs os m, Forall frame_ok fs -> owns s (concat (frame_blocks <$> fs) ++ bs) os m ->
  exists s', release (pre ++ fs ++ post) (length pre) (length fs) s = Ok (tt, s') /\ owns s' bs os m /\ rest s s'.
Proof.
  induction fs as [|f fs IH]; intros pre post s bs os m Hf Ho; [by exists s|]. cbn [length release]. apply Forall_cons in Hf as [Hf Hfs].
  assert ((pre ++ (f :: fs) ++ post) !! length pre = Some f) as E by (by rewrite lookup_app_r, Nat.sub_diag by lia).
  rewrite (st_deref_step (fun _ => (pre ++ (f :: fs) ++ post) !! length pre) _ s f E).
  cbn [fmap list_fmap concat] in Ho. set (B := concat (frame_blocks <$> fs)) in *.
  destruct (destroy_info_spec f s (path_blocks f ++ B ++ bs) os m Hf) as (s1 & E1 & O1 & R1).
  { eapply owns_perm; [exact Ho|]. unfold frame_blocks. by rewrite <- !app_assoc. }
  rewrite (st_step _ _ _ _ _ E1). destruct (free_path_spec f s1 (B ++ bs) os m O1) as (s2 & E2 & O2 & R2). rewrite (st_step _ _ _ _ _ E2).
  destruct (IH (pre ++ [f]) post s2 bs os m Hfs O2) as (s3 & E3 & O3 & R3).
  rewrite length_app, Nat.add_comm, <- app_assoc in E3. exists s3. split; [exact E3|]. split; [done|]. by eapply rest_trans; [|eapply rest_trans].
Qed.

(** ** The error paths *)

Definition with_frames (v : lvars) (fs : list exec_load_frame) (f : exec_load_frame) : Prop :=
  depth v = length fs /\ stack v = fs ++ f :: replicate (3 - length fs) frame0.

Lemma with_frames_lookup v fs f : with_frames v fs f -> stack v !! depth v = Some f.
Proof. intros [-> ->]. by rewrite lookup_app_r, Nat.sub_diag by lia. Qed.

Lemma fail_open v fs f s bs os m : with_frames v fs f -> owns s (path_blocks f ++ bs) os m ->
  exists s', fail_from err_open v (depth v) s = Ok (tt, s') /\ owns s' bs os m /\ rest s s'.
Proof.
  intros Hv Ho. unfold fail_from. rewrite st_ret_step, (st_deref_step (fun _ => stack v !! depth v) _ s f (with_frames_lookup v fs f Hv)), !st_ret_step.
  by apply free_path_spec.
Qed.

Lemma fail_parse v fs f fp s bs os m : with_frames v fs f -> file f = Some fp -> info f = None -> fp ∉ os ->
  owns s (path_blocks f ++ bs) (fp :: os) m ->
  exists s', fail_from err_parse v (depth v) s = Ok (tt, s') /\ owns s' bs os m /\ rest s s'.
Proof.
  intros Hv Ef Ei Hfp Ho. unfold fail_from. rewrite st_ret_step, (st_deref_step (fun _ => stack v !! depth v) _ s f (with_frames_lookup v fs f Hv)), st_ret_step.
  destruct (vfs_close_spec s fp _ os m Ho Hfp) as (s1 & E1 & O1 & R1).
  assert ((_ ← close_frame f; destroy_info f) s = Ok (tt, s1)) as E2.
  { unfold close_frame, destroy_info. rewrite Ef, Ei. by rewrite (st_step _ _ _ _ _ E1). }
  rewrite (st_step _ _ _ _ _ E2). destruct (free_path_spec f s1 bs os m O1) as (s2 & E3 & O3 & R3). exists s2. split_and!; [done|done|]. by eapply rest_trans.
Qed.

Lemma fail_map v fs f s bs os m m' : with_frames v fs f -> frame_ok f -> map_frame m f = Some m' ->
  owns s (frame_blocks f ++ bs) os m' ->
  exists s', fail_from err_map v (depth v) s = Ok (tt, s') /\ owns s' bs os m /\ rest s s'.
Proof.
  intros Hv Hf Hm Ho. unfold fail_from. rewrite st_ret_step, (st_deref_step (fun _ => stack v !! depth v) _ s f (with_frames_lookup v fs f Hv)).
  destruct (unmap_frame_spec f s _ os m m' Hf Hm Ho) as (s1 & E1 & O1 & R1). rewrite (st_step _ _ _ _ _ E1).
  destruct (destroy_info_spec f s1 (path_blocks f ++ bs) os m Hf) as (s2 & E2 & O2 & R2).
  { eapply owns_perm; [exact O1|]. unfold frame_blocks. by rewrite <- app_assoc. }
  assert ((_ ← close_frame f; destroy_info f) s1 = Ok (tt, s2)) as E3 by (by rewrite (st_step _ _ _ _ _ (close_frame_none f s1 (proj1 Hf)))).
  rewrite (st_step _ _ _ _ _ E3). destruct (free_path_spec f s2 bs os m O2) as (s3 & E4 & O4 & R4).
  exists s3. split_and!; [done|done|]. by eapply rest_trans; [|eapply rest_trans].
Qed.

Lemma fail_cleared f s : cleared f ->
  (_ ← unmap_frame f; _ ← (_ ← close_frame f; destroy_info f); free_path f) s = Ok (tt, s).
Proof. intros (Ei & Ep & Ef). unfold unmap_frame, close_frame, destroy_info, free_path. by rewrite Ei, Ef, Ep. Qed.

(** From err_depth all frames go; an access behind the array is a fault. *)
Lemma fail_depth v k s bs os m m' : (depth v < length (stack v))%nat -> (k <= depth v)%nat -> Forall frame_ok (take (S (depth v)) (stack v)) ->
  map_frames m (take (S (depth v)) (stack v)) = Some m' -> owns s (concat (frame_blocks <$> take (S (depth v)) (stack v)) ++ bs) os m' ->
  exists s', fail_from err_depth v k s = Ok (tt, s') /\ owns s' bs os m /\ rest s s'.
Proof.
  intros Hd Hk Hf Hm Ho. unfold fail_from.
  destruct (unwind_spec (S (depth v)) (stack v) s bs os m m' Hd Hf Hm Ho) as (st' & s' & E & O' & R' & Hlen & _ & Hcl).
  rewrite (st_step _ _ _ _ _ E). destruct (lookup_lt_is_Some_2 st' k) as [f Ef]; [lia|].
  rewrite (st_deref_step (fun _ => st' !! k) _ s' f Ef). exists s'. split; [|done]. apply fail_cleared. apply (Hcl k f Ef). lia.
Qed.

Lemma fail_depth_fault v k s : depth v = length (stack v) -> fail_from err_depth v k s = Fault.
Proof.
  intros Hd. unfold fail_from. apply st_fault. cbn [unwind]. apply st_fault. unfold st_deref. rewrite lookup_ge_None_2 by lia. done.
Qed.
End spec.
