(* ===== verification/ExecCorrect.v ===== *)
(** * Loading a program: results

    The loop of [exec_load] over the chain of interpreters, the whole function,
    and the instance of its laws for the ELF loader. *)

From S2P Require Import Prelude StateM Bitmap Dynarr UserStack UserStackSpec Elf ElfSpec Exec ExecSpec.

Local Open Scope Z_scope.

Section loop.
Context {M : Type} `{ExecLaws M} (p0 : list Z) (s0 : xst M) (B0 O0 : list Z) (m0 : M).
Context (Hgood : forall p ino, vfs_lookup p = inr ino -> good ino).











End loop.

(** ** The whole function *)

Section whole.
Context {M : Type} `{ExecLaws M}.













End whole.
