(* ===== verification/Hash.v ===== *)
(** * Hash tables (kernel/include/hash.h)

    A table is the sequence of its buckets, a bucket the sequence of its
    nodes.  Hash function and comparison are given by the user of the table;
    a lookup reads the key of a node through the memory of the node, so a node
    that is gone is a [Fault]. *)

From S2P Require Import Prelude.

Local Open Scope Z_scope.

(** hash.h: struct hash_table *)
Record hash_table := Ht { buckets : list (list Z) }.
Definition bucket_count (ht : hash_table) : Z := Z.of_nat (length (buckets ht)).

(** hash.h: hash_init, for [n] buckets *)
Definition hash_init (n : nat) : hash_table := Ht (replicate n []).

Section hash.
Context {K : Type} (hash : K -> Z) (eq : K -> K -> bool).

(** hash.h: hash_bucket_index *)
Definition hash_bucket_index (ht : hash_table) (key : K) : Z := Z.land (hash key) (u64 (bucket_count ht - 1)).

(** hash.h: hash_add *)
Definition hash_add (ht : hash_table) (node : Z) (key : K) : outcome hash_table :=
  let idx := Z.to_nat (hash_bucket_index ht key) in
  b ← deref (buckets ht !! idx);
  Ok (Ht (<[idx := node :: b]> (buckets ht))).

(** hash.h: hash_lookup, the walk over a bucket *)
Fixpoint bucket_find (get_key : Z -> outcome K) (key : K) (b : list Z) : outcome (option Z) :=
  match b with
  | [] => Ok None
  | pos :: b =>
      node_key ← get_key pos;
      if eq key node_key then Ok (Some pos) else bucket_find get_key key b
  end.

(** hash.h: hash_lookup *)
Definition hash_lookup (ht : hash_table) (key : K) (get_key : Z -> outcome K) : outcome (option Z) :=
  b ← deref (buckets ht !! Z.to_nat (hash_bucket_index ht key));
  bucket_find get_key key b.

(** hash.h: hash_del *)
Definition hash_del (ht : hash_table) (node : Z) : hash_table := Ht (filter (fun n => n <> node) <$> buckets ht).

(** hash.h: hash_for_each, the nodes in the order of the loop *)
Definition hash_nodes (ht : hash_table) : list Z := concat (buckets ht).

(** ** What a table stands for *)

(** Hashes are 32 bits wide and equal keys have equal hashes. *)
Class HashLaws := {
  hash_fits k : fits 32 (hash k);
  eq_hash k k' : eq k k' = true -> hash k = hash k'
}.

(** A power of two of buckets, every node in the bucket of its key. *)
Record hash_wf (ht : hash_table) (key_of : Z -> option K) : Prop := {
  hw_pow : exists n, 0 <= n <= 32 /\ bucket_count ht = 2 ^ n;
  hw_keys i b x : buckets ht !! i = Some b -> x ∈ b -> exists k, key_of x = Some k /\ Z.to_nat (hash_bucket_index ht k) = i
}.

Context `{HashLaws}.

Lemma bucket_index_lt ht key_of k : hash_wf ht key_of -> is_Some (buckets ht !! Z.to_nat (hash_bucket_index ht k)).
Proof.
  intros [(n & Hn & Hc) _]. apply lookup_lt_is_Some. unfold hash_bucket_index, bucket_count in *. rewrite Hc.
  assert (2 ^ n <= 2 ^ 32) by (apply Z.pow_le_mono_r; lia). pose proof (Z.pow_pos_nonneg 2 n).
  rewrite wrap_small by (unfold fits; lia). replace (2 ^ n - 1) with (Z.ones n) by (rewrite Z.ones_equiv; lia). rewrite Z.land_ones by lia.
  pose proof (Z.mod_pos_bound (hash k) (2 ^ n)). lia.
Qed.

Lemma bucket_find_spec (key_of : Z -> option K) k b : (forall x, x ∈ b -> is_Some (key_of x)) ->
  exists r, bucket_find (fun x => deref (key_of x)) k b = Ok r /\
    match r with
    | Some x => x ∈ b /\ exists k', key_of x = Some k' /\ eq k k' = true
    | None => forall x k', x ∈ b -> key_of x = Some k' -> eq k k' = false
    end.
Proof.
  induction b as [|x b IH]; intros Hb; cbn [bucket_find]; [exists None; split; [done|]; intros x k' Hx; by apply elem_of_nil in Hx|].
  destruct (Hb x) as [kx Ek]; [by left|]. rewrite Ek. cbn. destruct (eq k kx) eqn:E.
  - exists (Some x). split; [done|]. split; [by left|]. by exists kx.
  - destruct IH as (r & Er & Hr); [intros y Hy; apply Hb; by right|]. exists r. split; [done|]. destruct r as [y|].
    + destruct Hr as [Hy Hk]. split; [by right|done].
    + intros y k' [->|Hy]%elem_of_cons Ek'; [congruence|by eapply Hr].
Qed.

Lemma hash_nodes_elem ht x : x ∈ hash_nodes ht <-> exists i b, buckets ht !! i = Some b /\ x ∈ b.
Proof.
  unfold hash_nodes. rewrite list_elem_of_In, in_concat. split.
  - intros (b & Hb & Hx). apply list_elem_of_In, list_elem_of_lookup in Hb as [i Hi]. exists i, b. by rewrite list_elem_of_In.
  - intros (i & b & Hi & Hx). exists b. rewrite <- !list_elem_of_In. split; [by eapply list_elem_of_lookup_2|done].
Qed.

(** A lookup answers a node of the table with the key, and NULL only if there
    is none. *)
Lemma hash_lookup_spec ht key_of k : hash_wf ht key_of ->
  exists r, hash_lookup ht k (fun x => deref (key_of x)) = Ok r /\
    match r with
    | Some x => x ∈ hash_nodes ht /\ exists k', key_of x = Some k' /\ eq k k' = true
    | None => forall x k', x ∈ hash_nodes ht -> key_of x = Some k' -> eq k k' = false
    end.
Proof.
  intros Hw. destruct (bucket_index_lt ht key_of k Hw) as [b Eb]. unfold hash_lookup. rewrite Eb. cbn.
  destruct (bucket_find_spec key_of k b) as (r & Er & Hr).
  { intros x Hx. destruct (hw_keys _ _ Hw _ _ _ Eb Hx) as (k' & -> & _). done. }
  exists r. split; [done|]. destruct r as [x|].
  - destruct Hr as [Hx Hk]. split; [|done]. apply hash_nodes_elem. by eexists _, _.
  - intros x k' Hx Ek. destruct (eq k k') eqn:E; [|done]. apply hash_nodes_elem in Hx as (i & b' & Ei & Hx).
    destruct (hw_keys _ _ Hw _ _ _ Ei Hx) as (k2 & Ek2 & Hi). rewrite Ek in Ek2. simplify_eq.
    unfold hash_bucket_index in Eb. rewrite (eq_hash _ _ E) in Eb. fold (hash_bucket_index ht k2) in Eb. rewrite Eb in Ei. simplify_eq. by rewrite (Hr x k2) in E.
Qed.

Lemma hash_add_spec ht key_of x k : hash_wf ht key_of -> key_of x = Some k ->
  exists ht', hash_add ht x k = Ok ht' /\ hash_wf ht' key_of /\ hash_nodes ht' ≡ₚ x :: hash_nodes ht.
Proof.
  intros Hw Ek. destruct (bucket_index_lt ht key_of k Hw) as [b Eb]. unfold hash_add. rewrite Eb. cbn. eexists. split; [reflexivity|].
  set (i := Z.to_nat (hash_bucket_index ht k)) in *.
  assert (forall k', hash_bucket_index (Ht (<[i := x :: b]> (buckets ht))) k' = hash_bucket_index ht k') as Hidx
    by (intros k'; unfold hash_bucket_index, bucket_count; cbn; by rewrite length_insert).
  split.
  - destruct Hw as [Hp Hk]. split; [unfold bucket_count in *; cbn; by rewrite length_insert|]. cbn. intros j c y Ej Hy. rewrite list_lookup_insert_Some in Ej.
    destruct Ej as [(<- & <- & _)|[Hne Ej]].
    + apply elem_of_cons in Hy as [->|Hy]; [exists k; by rewrite Hidx|]. destruct (Hk i b y Eb Hy) as (k' & ? & ?). exists k'. by rewrite Hidx.
    + destruct (Hk j c y Ej Hy) as (k' & ? & ?). exists k'. by rewrite Hidx.
  - unfold hash_nodes. cbn. rewrite <- (take_drop_middle _ _ _ Eb) at 2. rewrite insert_take_drop by (by eapply lookup_lt_Some).
    rewrite !concat_app. cbn. by rewrite <- Permutation_middle.
Qed.

Lemma hash_del_spec ht key_of x : hash_wf ht key_of -> hash_wf (hash_del ht x) key_of /\ hash_nodes (hash_del ht x) = filter (fun n => n <> x) (hash_nodes ht).
Proof.
  intros [Hp Hk]. split.
  - split; [unfold bucket_count in *; cbn; by rewrite length_fmap|]. cbn. intros i b y Eb Hy. rewrite list_lookup_fmap in Eb.
    destruct (buckets ht !! i) as [c|] eqn:Ec; cbn in Eb; [|done]. simplify_eq. apply list_elem_of_filter in Hy as [_ Hy].
    destruct (Hk i c y Ec Hy) as (k & ? & <-). exists k. split; [done|]. unfold hash_bucket_index, bucket_count. cbn. by rewrite length_fmap.
  - clear Hk Hp. unfold hash_nodes. cbn [buckets hash_del]. induction (buckets ht) as [|b l IH]; [done|]. cbn [fmap list_fmap concat]. rewrite filter_app. f_equal. exact IH.
Qed.

Lemma hash_init_wf n key_of : 0 <= n <= 32 -> hash_wf (hash_init (Z.to_nat (2 ^ n))) key_of /\ hash_nodes (hash_init (Z.to_nat (2 ^ n))) = [].
Proof.
  intros Hn. pose proof (Z.pow_pos_nonneg 2 n). split; [split|].
  - exists n. split; [done|]. unfold bucket_count, hash_init. cbn. rewrite length_replicate. lia.
  - intros i b x Eb Hx. cbn in Eb. apply lookup_replicate in Eb as [-> _]. by apply elem_of_nil in Hx.
  - unfold hash_nodes, hash_init. cbn. induction (Z.to_nat (2 ^ n)); cbn; done.
Qed.


(** What a table finds under a key, reading keys through the nodes. *)
Definition finds (ht : hash_table) (key_of : Z -> option K) (k : K) (r : option Z) : Prop :=
  hash_lookup ht k (fun x => deref (key_of x)) = Ok r.
Definition distinct_keys (ht : hash_table) (key_of : Z -> option K) : Prop :=
  forall x y k, x ∈ hash_nodes ht -> y ∈ hash_nodes ht -> key_of x = Some k -> key_of y = Some k -> x = y.

Context (eq_spec : forall k k', eq k k' = true <-> k = k').

Lemma finds_iff ht key_of k r : hash_wf ht key_of -> distinct_keys ht key_of ->
  finds ht key_of k r <-> match r with Some x => x ∈ hash_nodes ht /\ key_of x = Some k | None => forall x, x ∈ hash_nodes ht -> key_of x <> Some k end.
Proof.
  intros Hw Hd. destruct (hash_lookup_spec ht key_of k Hw) as (r0 & E & Hr). unfold finds. rewrite E.
  assert (match r0 with Some x => x ∈ hash_nodes ht /\ key_of x = Some k | None => forall x, x ∈ hash_nodes ht -> key_of x <> Some k end) as Hr0.
  { destruct r0 as [y|].
    - destruct Hr as (Hy & k' & Ek & Eq). apply eq_spec in Eq as ->. done.
    - intros x Hx Ek. specialize (Hr x k Hx Ek). by rewrite (proj2 (eq_spec k k) eq_refl) in Hr. }
  split; [by intros [= <-]|]. intros Hr1. do 2 f_equal. destruct r as [x|], r0 as [y|]; [|by destruct Hr1; edestruct Hr0|by destruct Hr0; edestruct Hr1|done].
  f_equal. destruct Hr0, Hr1. by apply (Hd y x k).
Qed.

(** C26: a hash table is a finite map from keys to nodes.  In a table with
    distinct keys, after [hash_add] of a node with a new key the lookup of
    this key answers the node and every other lookup answers what it did;
    after [hash_del] of the node all lookups answer what they did before it was
    added. *)
Theorem hash_table_refines ht key_of x k : hash_wf ht key_of -> distinct_keys ht key_of -> x ∉ hash_nodes ht -> key_of x = Some k -> finds ht key_of k None ->
  exists ht', hash_add ht x k = Ok ht' /\ hash_wf ht' key_of /\ distinct_keys ht' key_of /\ finds ht' key_of k (Some x) /\
    (forall k' r, k' <> k -> finds ht' key_of k' r <-> finds ht key_of k' r) /\
    (forall k' r, finds (hash_del ht' x) key_of k' r <-> finds ht key_of k' r).
Proof.
  intros Hw Hd Hx Ek Hnone. pose proof (proj1 (finds_iff ht key_of k None Hw Hd) Hnone) as Hnew. cbn beta iota in Hnew. destruct (hash_add_spec ht key_of x k Hw Ek) as (ht' & E & Hw' & Hp).
  assert (distinct_keys ht' key_of) as Hd'.
  { intros y z j. rewrite Hp, !elem_of_cons. intros [->|Hy] [->|Hz] Ey Ez; [done|by destruct (Hnew z Hz); congruence|by destruct (Hnew y Hy); congruence|by apply (Hd y z j)]. }
  destruct (hash_del_spec ht' key_of x Hw') as [Hw2 Hn2].
  assert (forall y, y ∈ hash_nodes (hash_del ht' x) <-> y ∈ hash_nodes ht) as Hmem.
  { intros y. rewrite Hn2, list_elem_of_filter, Hp, elem_of_cons. split; [by intros [? [->|?]]|]. intros Hy. split; [by intros ->|by right]. }
  exists ht'. split; [done|]. split; [done|]. split; [done|]. split; [|split].
  - apply finds_iff; [done|done|]. split; [rewrite Hp; by left|done].
  - intros k' r Hne. rewrite !finds_iff by done. destruct r as [y|].
    + rewrite Hp, elem_of_cons. split; [intros [[->|Hy] Ey]; [congruence|done]|intros [Hy Ey]; by split; [right|]].
    + setoid_rewrite Hp. setoid_rewrite elem_of_cons. split; [by eauto|]. intros Hall y [->|Hy]; [congruence|by apply Hall].
  - intros k' r. rewrite !finds_iff; [|done|done|done|intros y z j Hy Hz; apply Hd; by apply Hmem]. destruct r; by setoid_rewrite Hmem.
Qed.
End hash.

(** ** A small instance *)

Definition demo_keys (x : Z) : option Z := if x =? 20 then Some 5 else if x =? 30 then Some 6 else None.

Lemma hash_table_refines_witness : exists ht', hash_add (fun k => Z.land k 255) (Ht [[30]; []]) 20 5 = Ok ht' /\ finds (fun k => Z.land k 255) Z.eqb ht' demo_keys 5 (Some 20).
Proof.
  assert (@HashLaws Z (fun k => Z.land k 255) Z.eqb) as Hl.
  { split; [|by intros k k' ->%Z.eqb_eq]. intros k. change 255 with (Z.ones 8). rewrite Z.land_ones by lia. pose proof (Z.mod_pos_bound k (2 ^ 8)). unfold fits. lia. }
  destruct (@hash_table_refines Z (fun k => Z.land k 255) Z.eqb Hl Z.eqb_eq (Ht [[30]; []]) demo_keys 20 5) as (ht' & E & _ & _ & Hf & _); [..|by exists ht'].
  - split; [exists 1; split; [lia|done]|]. intros i b x Eb Hx. destruct i as [|[|i]]; cbn in Eb; simplify_eq; [|by apply elem_of_nil in Hx].
    apply list_elem_of_singleton in Hx as ->. by exists 6.
  - intros x y k Hx Hy _ _. change (x ∈ [30]) in Hx. change (y ∈ [30]) in Hy. rewrite list_elem_of_singleton in Hx, Hy. congruence.
  - change (20 ∉ [30]). rewrite list_elem_of_singleton. lia.
  - done.
  - done.
Defined.
