(* ===== verification/Tmpfs.v ===== *)
(** * tmpfs: names and inodes (kernel/fs/tmpfs/tmpfs.c)

    The state is the inodes by address, each with its private data, the
    directory entries in the lists of their directories, the names the virtual
    file system handed over (dentries), the mounted instances with their private data, and
    the inode cache of fs/vfs.c.  Every allocation asks [mem] whether there is
    memory; an access to an inode that was freed is a [Fault]. *)

From S2P Require Import Prelude StateM Bitmap Dynarr Devt Hash.

Local Open Scope Z_scope.

(** include/libc/errno.h *)
Definition EEXIST : Z := 17.
Definition EISDIR : Z := 21.
Definition ENAMETOOLONG : Z := 36.
Definition ENOTEMPTY : Z := 39.

(** include/vfs.h: mode_t; fs/vfs.h: PATH_MAX, dentry_flags_t *)
Definition S_IFMT : Z := 0xF000.
Definition S_IFLNK : Z := 0xA000.
Definition S_IFREG : Z := 0x8000.
Definition S_IFDIR : Z := 0x4000.
Definition S_ISDIR (mode : Z) : bool := Z.land mode S_IFMT =? S_IFDIR.
Definition PATH_MAX : Z := 4096.
Definition DCACHE_NONE : Z := 0.
Definition DCACHE_NEGATIVE : Z := 2.
Definition TMPFS_MAGIC : Z := 0xad661a3b.
Definition TMPFS_PAGE_SIZE : Z := 4096.

(** The operation tables an inode may have. *)
Inductive fops := no_fops | tmpfs_file_operations | dev_fops.

(** tmpfs.c: struct tmpfs_dir_entry; [de_id] is its address *)
Record tmpfs_dir_entry := De { de_id : Z; de_name : list Z; de_ino : Z }.

(** fs/vfs.h: struct inode, followed by the private data, tmpfs.c: struct
    tmpfs_inode *)
Record inode := Inode {
  ino : Z; rdev : Z; mode : Z; uid : Z; gid : Z; size : Z;
  atime : Z; mtime : Z; ctime : Z; blocks : Z; nlink : Z;
  ops_set : bool; fop : fops; sb : Z; count : Z;
  pages : option dynarr_t; symlink_target : option (list Z); data_size : Z; dir_list : list tmpfs_dir_entry
}.

(** fs/vfs.h: struct dentry; 0 is NULL *)
Record dentry := Dentry { d_name : list Z; d_inode : Z; d_flags : Z; d_parent : Z }.

(** fs/vfs.h: struct super_block with tmpfs.c: struct tmpfs_sb_info *)
Record super_block := Super {
  dev : Z; block_size : Z; magic : Z; root : Z; sb_inodes : list Z;
  inode_bitmap : dynarr_t; max_inodes : Z; inode_count : Z; max_pages : Z; used_pages : Z
}.

Record tst := Tst {
  inodes : gmap Z inode;
  dentries : gmap Z dentry;
  supers : gmap Z super_block;
  icache : hash_table;
  inode_lru : option (list Z);
  anon : numbers;
  next_addr : Z;
  mem : nat -> bool;
  tick : nat;
  now : Z;
  current_ugid : Z * Z
}.

Definition with_inodes (s : tst) x := Tst x (dentries s) (supers s) (icache s) (inode_lru s) (anon s) (next_addr s) (mem s) (tick s) (now s) (current_ugid s).
Definition with_dentries (s : tst) x := Tst (inodes s) x (supers s) (icache s) (inode_lru s) (anon s) (next_addr s) (mem s) (tick s) (now s) (current_ugid s).
Definition with_supers (s : tst) x := Tst (inodes s) (dentries s) x (icache s) (inode_lru s) (anon s) (next_addr s) (mem s) (tick s) (now s) (current_ugid s).
Definition with_icache (s : tst) x := Tst (inodes s) (dentries s) (supers s) x (inode_lru s) (anon s) (next_addr s) (mem s) (tick s) (now s) (current_ugid s).
Definition with_lru (s : tst) x := Tst (inodes s) (dentries s) (supers s) (icache s) x (anon s) (next_addr s) (mem s) (tick s) (now s) (current_ugid s).
Definition with_anon (s : tst) x := Tst (inodes s) (dentries s) (supers s) (icache s) (inode_lru s) x (next_addr s) (mem s) (tick s) (now s) (current_ugid s).
Definition with_alloc (s : tst) a t := Tst (inodes s) (dentries s) (supers s) (icache s) (inode_lru s) (anon s) a (mem s) t (now s) (current_ugid s).

Definition set_nlink (i : inode) x := Inode (ino i) (rdev i) (mode i) (uid i) (gid i) (size i) (atime i) (mtime i) (ctime i) (blocks i) x (ops_set i) (fop i) (sb i) (count i) (pages i) (symlink_target i) (data_size i) (dir_list i).
Definition set_dir (i : inode) x := Inode (ino i) (rdev i) (mode i) (uid i) (gid i) (size i) (atime i) (mtime i) (ctime i) (blocks i) (nlink i) (ops_set i) (fop i) (sb i) (count i) (pages i) (symlink_target i) (data_size i) x.
Definition set_refs (i : inode) x := Inode (ino i) (rdev i) (mode i) (uid i) (gid i) (size i) (atime i) (mtime i) (ctime i) (blocks i) (nlink i) (ops_set i) (fop i) (sb i) x (pages i) (symlink_target i) (data_size i) (dir_list i).
Definition set_tables (i : inode) o f := Inode (ino i) (rdev i) (mode i) (uid i) (gid i) (size i) (atime i) (mtime i) (ctime i) (blocks i) (nlink i) o f (sb i) (count i) (pages i) (symlink_target i) (data_size i) (dir_list i).
Definition set_rdev (i : inode) x := Inode (ino i) x (mode i) (uid i) (gid i) (size i) (atime i) (mtime i) (ctime i) (blocks i) (nlink i) (ops_set i) (fop i) (sb i) (count i) (pages i) (symlink_target i) (data_size i) (dir_list i).
(** The target of a symbolic link with the fields that follow its length. *)
Definition set_target (i : inode) (t : list Z) :=
  let n := Z.of_nat (length t) in
  Inode (ino i) (rdev i) (mode i) (uid i) (gid i) n (atime i) (mtime i) (ctime i) (Z.shiftr (n + 511) 9) (nlink i) (ops_set i) (fop i) (sb i) (count i) (pages i) (Some t) n (dir_list i).
Definition set_pages (i : inode) x := Inode (ino i) (rdev i) (mode i) (uid i) (gid i) (size i) (atime i) (mtime i) (ctime i) (blocks i) (nlink i) (ops_set i) (fop i) (sb i) (count i) x (symlink_target i) (data_size i) (dir_list i).

Section tmpfs.
Context `{Heap}.

Abbreviation tm := (ST tst).

(** One allocation: an address, or 0. *)
Definition kalloc : tm Z := fun s =>
  if mem s (tick s) then Ok (next_addr s, with_alloc s (next_addr s + 1) (S (tick s))) else Ok (0, with_alloc s (next_addr s) (S (tick s))).

Definition get_inode (x : Z) : tm inode := st_deref (fun s => inodes s !! x).
Definition upd_inode (x : Z) (f : inode -> inode) : tm unit := i ← get_inode x; st_modify (fun s => with_inodes s (<[x := f i]> (inodes s))).
Definition get_dentry (d : Z) : tm dentry := st_deref (fun s => dentries s !! d).
Definition upd_dentry (d : Z) (f : dentry -> dentry) : tm unit := e ← get_dentry d; st_modify (fun s => with_dentries s (<[d := f e]> (dentries s))).
Definition get_super (b : Z) : tm super_block := st_deref (fun s => supers s !! b).
Definition upd_super (b : Z) (f : super_block -> super_block) : tm unit := x ← get_super b; st_modify (fun s => with_supers s (<[b := f x]> (supers s))).

Definition sb_set_inodes (b : super_block) x := Super (dev b) (block_size b) (magic b) (root b) x (inode_bitmap b) (max_inodes b) (inode_count b) (max_pages b) (used_pages b).
Definition sb_set_bitmap (b : super_block) x n := Super (dev b) (block_size b) (magic b) (root b) (sb_inodes b) x (max_inodes b) n (max_pages b) (used_pages b).
Definition sb_set_used (b : super_block) x := Super (dev b) (block_size b) (magic b) (root b) (sb_inodes b) (inode_bitmap b) (max_inodes b) (inode_count b) (max_pages b) x.
Definition sb_set_root (b : super_block) x := Super (dev b) (block_size b) (magic b) x (sb_inodes b) (inode_bitmap b) (max_inodes b) (inode_count b) (max_pages b) (used_pages b).

(** ** The inode cache (kernel/fs/vfs.c) *)

(** vfs.c: vfs_inode_hash_fn, vfs_inode_eq_fn, on device and number *)
Definition vfs_inode_hash_fn (k : Z * Z) : Z := u32 (u32 (u32 (fst k) + u32 (snd k)) * 0x9e370001).
Definition vfs_inode_eq_fn (k1 k2 : Z * Z) : bool := (fst k1 =? fst k2) && (snd k1 =? snd k2).

(** vfs.c: vfs_inode_get_key, read through the inode *)
Definition vfs_inode_get_key (s : tst) (x : Z) : outcome (Z * Z) :=
  i ← deref (inodes s !! x); b ← deref (supers s !! sb i); Ok (dev b, ino i).

(** vfs.c: vfs_icache_add *)
Definition vfs_icache_add (x : Z) : tm unit := fun s =>
  k ← vfs_inode_get_key s x;
  h ← hash_add vfs_inode_hash_fn (icache s) x k;
  Ok (tt, with_icache s h).

(** vfs.c: vfs_iget, vfs_iput with vfs_ilru_del, vfs_ilru_add.  The head of the
    list starts as zeros ([None]) and nothing initialises it: adding to it then
    follows a NULL pointer *)
Definition vfs_iget (x : Z) : tm unit :=
  if x =? 0 then mret tt
  else
    i ← get_inode x;
    _ ← upd_inode x (fun i => set_refs i (u32 (count i + 1)));
    if count i =? 0 then st_modify (fun s => with_lru s (filter (fun y => y <> x) <$> inode_lru s)) else mret tt.
Definition vfs_iput (x : Z) : tm unit :=
  if x =? 0 then mret tt
  else
    i ← get_inode x;
    _ ← upd_inode x (fun i => set_refs i (u32 (count i - 1)));
    if negb (count i =? 1) then mret tt
    else l ← st_deref inode_lru; st_modify (fun s => with_lru s (Some (if bool_decide (x ∈ l) then l else l ++ [x]))).

(** vfs.c: vfs_icache_find; 0 when there is none *)
Definition vfs_icache_find (b n : Z) : tm Z :=
  sup ← get_super b;
  r ← (fun s => r ← hash_lookup vfs_inode_hash_fn vfs_inode_eq_fn (icache s) (dev sup, n) (vfs_inode_get_key s); Ok (r, s));
  match r with
  | None => mret 0
  | Some x => _ ← vfs_iget x; mret x
  end.

(** ** Quotas and inode numbers *)

(** tmpfs.c: tmpfs_alloc_pages *)
Definition tmpfs_alloc_pages (b n : Z) : tm bool :=
  sbi ← get_super b;
  if max_pages sbi =? 0 then mret true
  else if max_pages sbi <? u64 (used_pages sbi + n) then mret false
  else _ ← upd_super b (fun sbi => sb_set_used sbi (u64 (used_pages sbi + n))); mret true.

(** tmpfs.c: tmpfs_free_pages *)
Definition tmpfs_free_pages (b n : Z) : tm unit :=
  if negb (n =? 0) then upd_super b (fun sbi => sb_set_used sbi (u64 (used_pages sbi - n))) else mret tt.

(** tmpfs.c: tmpfs_alloc_ino *)
Definition tmpfs_alloc_ino (b : Z) : tm (option Z) :=
  sbi ← get_super b;
  '(found, d) ← (fun s => r ← settle (dynarr_bitmap_alloc (inode_bitmap sbi) 1); Ok (r, s));
  match found with
  | None => _ ← upd_super b (fun sbi => sb_set_bitmap sbi d (inode_count sbi)); mret None
  | Some n => _ ← upd_super b (fun sbi => sb_set_bitmap sbi d (u32 (inode_count sbi + 1))); mret (Some n)
  end.

(** tmpfs.c: tmpfs_free_ino *)
Definition tmpfs_free_ino (b n : Z) : tm unit :=
  if n =? 0 then mret tt
  else
    sbi ← get_super b;
    d ← (fun s => d ← dynarr_bitmap_free (inode_bitmap sbi) (u32 n); Ok (d, s));
    upd_super b (fun sbi => sb_set_bitmap sbi d (u32 (inode_count sbi - 1))).

(** ** Inodes *)

(** tmpfs.c: tmpfs_alloc_inode; 0 without memory.  The fields of the inode
    are set by [tmpfs_inode_init] *)
Definition tmpfs_alloc_inode (b : Z) : tm Z :=
  x ← kalloc;
  if x =? 0 then mret 0
  else
    ti ← kalloc;
    if ti =? 0 then mret 0
    else
      _ ← st_modify (fun s => with_inodes s (<[x := Inode 0 0 0 0 0 0 0 0 0 0 0 false no_fops b 0 None None 0 []]> (inodes s)));
      mret x.

(** tmpfs.c: tmpfs_inode_init *)
Definition tmpfs_inode_init (x b mo : Z) : tm Z :=
  '(u, g) ← st_gets current_ugid;
  n ← tmpfs_alloc_ino b;
  match n with
  | None => mret (- ENOSPC)
  | Some n =>
      t ← st_gets now;
      _ ← upd_inode x (fun i => Inode n 0 mo u g 0 t t t 0 0 false no_fops b 0 (pages i) (symlink_target i) (data_size i) (dir_list i));
      _ ← vfs_icache_add x;
      mret 0
  end.

(** tmpfs.c: tmpfs_destroy_inode *)
Definition tmpfs_destroy_inode (x : Z) : tm unit :=
  _ ← get_inode x;
  st_modify (fun s => with_inodes s (delete x (inodes s))).

(** tmpfs.c: tmpfs_evict_inode.  The address of the first page is taken from
    dynarr_get, which answers the address of the element: the code frees the
    buffer of the array, and dynarr_destroy frees it again *)
Definition tmpfs_evict_inode (x : Z) : tm unit :=
  i ← get_inode x;
  _ ← (match pages i with
       | Some d => if 0 <? current_count d then (fun _ => Fault) else upd_inode x (fun i => set_pages i None)
       | None => mret tt
       end);
  _ ← (if S_ISDIR (mode i) then upd_inode x (fun i => set_dir i []) else mret tt);
  _ ← tmpfs_free_pages (sb i) 0;
  tmpfs_free_ino (sb i) (ino i).

(** The inode is taken off the list of its super block, evicted and freed. *)
Definition drop_inode (x b : Z) : tm unit :=
  _ ← upd_super b (fun p => sb_set_inodes p (filter (fun y => y <> x) (sb_inodes p)));
  _ ← tmpfs_evict_inode x;
  tmpfs_destroy_inode x.

(** ** Directories *)

Definition find_entry (l : list tmpfs_dir_entry) (name : list Z) : option tmpfs_dir_entry :=
  List.find (fun de => bool_decide (de_name de = name)) l.

(** tmpfs.c: tmpfs_dir_lookup *)
Definition tmpfs_dir_lookup (dir : Z) (name : list Z) : tm (option tmpfs_dir_entry) :=
  i ← get_inode dir; mret (find_entry (dir_list i) name).

(** tmpfs.c: tmpfs_dir_add *)
Definition tmpfs_dir_add (dir : Z) (name : list Z) (n : Z) : tm Z :=
  de ← kalloc;
  if de =? 0 then mret (- ENOMEM)
  else
    nm ← kalloc;
    if nm =? 0 then mret (- ENOMEM)
    else _ ← upd_inode dir (fun i => set_dir i (dir_list i ++ [De de name n])); mret 0.

(** tmpfs.c: tmpfs_dir_remove *)
Definition tmpfs_dir_remove (dir : Z) (de : tmpfs_dir_entry) : tm unit :=
  upd_inode dir (fun i => set_dir i (filter (fun e => de_id e <> de_id de) (dir_list i))).

Definition dot : list Z := [46].
Definition dotdot : list Z := [46; 46].

(** The test whether a directory is empty, without "." and "..". *)
Definition is_empty_dir (l : list tmpfs_dir_entry) : bool :=
  forallb (fun de => bool_decide (de_name de = dot) || bool_decide (de_name de = dotdot)) l.

Definition bind_dentry (d x : Z) : tm unit :=
  upd_dentry d (fun e => Dentry (d_name e) x (Z.land (d_flags e) (cnot 32 DCACHE_NEGATIVE)) (d_parent e)).
Definition unbind_dentry (d : Z) : tm unit := upd_dentry d (fun e => Dentry (d_name e) 0 (d_flags e) (d_parent e)).

(** ** Operations on names *)

(** tmpfs.c: tmpfs_lookup *)
Definition tmpfs_lookup (dir d : Z) : tm Z :=
  i ← get_inode dir;
  e ← get_dentry d;
  de ← tmpfs_dir_lookup dir (d_name e);
  x ← (match de with Some de => vfs_icache_find (sb i) (de_ino de) | None => mret 0 end);
  _ ← (if negb (x =? 0) then upd_dentry d (fun e => Dentry (d_name e) x (d_flags e) (d_parent e)) else mret tt);
  mret d.

(** tmpfs.c: tmpfs_create, tmpfs_symlink and tmpfs_mkdir, the entry in the
    parent: an error, or 0 *)
Definition enter_name (dir d x : Z) : tm Z :=
  e ← get_dentry d;
  de ← tmpfs_dir_lookup dir (d_name e);
  match de with
  | Some _ => mret (- EEXIST)
  | None => i ← get_inode x; tmpfs_dir_add dir (d_name e) (ino i)
  end.

Definition sb_link (x b : Z) : tm unit := upd_super b (fun p => sb_set_inodes p (sb_inodes p ++ [x])).

(** tmpfs.c: tmpfs_create and tmpfs_symlink, once the inode has its fields: it
    joins the list of its super block, its name is entered, and the dentry
    leads to it; if the name cannot be entered it is dropped *)
Definition link_node (dir d x b : Z) : tm Z :=
  _ ← sb_link x b;
  err ← enter_name dir d x;
  if negb (err =? 0) then _ ← drop_inode x b; mret err
  else _ ← bind_dentry d x; mret 0.

(** tmpfs.c: tmpfs_create *)
Definition tmpfs_create (dir d mo : Z) : tm Z :=
  i ← get_inode dir;
  let b := sb i in
  x ← tmpfs_alloc_inode b;
  if x =? 0 then mret (- ENOMEM)
  else
    err ← tmpfs_inode_init x b (Z.lor (Z.land mo (cnot 32 S_IFMT)) S_IFREG);
    if negb (err =? 0) then _ ← tmpfs_destroy_inode x; mret err
    else
      _ ← upd_inode x (fun i => set_tables (set_nlink i 1) true tmpfs_file_operations);
      link_node dir d x b.

(** tmpfs.c: tmpfs_symlink *)
Definition tmpfs_symlink (dir d : Z) (target : list Z) : tm Z :=
  i ← get_inode dir;
  let b := sb i in
  x ← tmpfs_alloc_inode b;
  if x =? 0 then mret (- ENOMEM)
  else
    err ← tmpfs_inode_init x b (Z.lor S_IFLNK 0x1FF);
    if negb (err =? 0) then _ ← tmpfs_destroy_inode x; mret err
    else
      _ ← upd_inode x (fun i => set_tables (set_nlink i 1) true (fop i));
      if PATH_MAX <=? Z.of_nat (length target) then _ ← tmpfs_destroy_inode x; mret (- ENAMETOOLONG)
      else
        buf ← kalloc;
        if buf =? 0 then _ ← tmpfs_destroy_inode x; mret (- ENOMEM)
        else
          _ ← upd_inode x (fun i => set_target i target);
          link_node dir d x b.

(** tmpfs.c: tmpfs_link *)
Definition tmpfs_link (old_dentry dir new_dentry : Z) : tm Z :=
  o ← get_dentry old_dentry;
  i ← get_inode (d_inode o);
  n ← get_dentry new_dentry;
  err ← tmpfs_dir_add dir (d_name n) (ino i);
  if negb (err =? 0) then mret err
  else
    _ ← upd_inode (d_inode o) (fun i => set_nlink i (u64 (nlink i + 1)));
    _ ← bind_dentry new_dentry (d_inode o);
    _ ← vfs_iget (d_inode o);
    mret 0.

(** tmpfs.c: tmpfs_unlink *)
Definition tmpfs_unlink (dir d : Z) : tm Z :=
  e ← get_dentry d;
  de ← tmpfs_dir_lookup dir (d_name e);
  match de with
  | None => mret (- ENOENT)
  | Some de =>
      _ ← tmpfs_dir_remove dir de;
      _ ← upd_inode (d_inode e) (fun i => set_nlink i (u64 (nlink i - 1)));
      _ ← unbind_dentry d;
      mret 0
  end.

(** tmpfs.c: tmpfs_mkdir, the entries "." and "..": an error, or 0 *)
Definition enter_dots (x dir : Z) : tm Z :=
  i ← get_inode x;
  err ← tmpfs_dir_add x dot (ino i);
  if negb (err =? 0) then mret err
  else
    p ← get_inode dir;
    err ← tmpfs_dir_add x dotdot (ino p);
    if negb (err =? 0) then
      de ← tmpfs_dir_lookup x dot;
      _ ← (match de with Some de => tmpfs_dir_remove x de | None => mret tt end);
      mret err
    else mret 0.

(** tmpfs.c: tmpfs_mkdir *)
Definition tmpfs_mkdir (dir d mo : Z) : tm Z :=
  i ← get_inode dir;
  let b := sb i in
  x ← tmpfs_alloc_inode b;
  if x =? 0 then mret (- ENOMEM)
  else
    err ← tmpfs_inode_init x b (Z.lor (Z.land mo (cnot 32 S_IFMT)) S_IFDIR);
    if negb (err =? 0) then _ ← tmpfs_destroy_inode x; mret err
    else
      _ ← upd_inode x (fun i => set_tables (set_nlink i 2) true (fop i));
      _ ← sb_link x b;
      err ← enter_name dir d x;
      if negb (err =? 0) then _ ← drop_inode x b; mret err
      else
        err ← enter_dots x dir;
        if negb (err =? 0) then
          e ← get_dentry d;
          de ← tmpfs_dir_lookup dir (d_name e);
          _ ← (match de with Some de => tmpfs_dir_remove dir de | None => mret tt end);
          _ ← drop_inode x b;
          mret err
        else
          _ ← upd_inode dir (fun i => set_nlink i (u64 (nlink i + 1)));
          _ ← bind_dentry d x;
          mret 0.

(** tmpfs.c: tmpfs_rmdir *)
Definition tmpfs_rmdir (dir d : Z) : tm Z :=
  e ← get_dentry d;
  child ← get_inode (d_inode e);
  if negb (is_empty_dir (dir_list child)) then mret (- ENOTEMPTY)
  else
    de ← tmpfs_dir_lookup dir (d_name e);
    match de with
    | None => mret (- ENOENT)
    | Some de =>
        _ ← tmpfs_dir_remove dir de;
        _ ← upd_inode (d_inode e) (fun i => set_nlink i (u64 (nlink i - 1)));
        _ ← upd_inode dir (fun i => set_nlink i (u64 (nlink i - 1)));
        _ ← unbind_dentry d;
        mret 0
    end.

(** tmpfs.c: tmpfs_rename, the walk from the parent of the new name up: true
    when it meets the inode *)
Definition above_turn (x p : Z) : tm (Z + bool) :=
  if p =? 0 then mret (inr false)
  else
    e ← get_dentry p;
    if d_inode e =? x then mret (inr true) else mret (inl (d_parent e)).

(** tmpfs.c: tmpfs_rename, the checks: an error, or 0.  A new name may have no
    inode *)
Definition rename_check (old_dir new_dir : Z) (o n : dentry) : tm Z :=
  if d_inode o =? 0 then mret (- ENOENT)
  else
    oi ← get_inode (d_inode o);
    err ← (if d_inode n =? 0 then mret 0
           else
             ni ← get_inode (d_inode n);
             if S_ISDIR (mode ni) && negb (S_ISDIR (mode oi)) then mret (- EISDIR)
             else if S_ISDIR (mode ni) && negb (d_inode n =? d_inode o) && negb (is_empty_dir (dir_list ni)) then mret (- ENOTEMPTY)
             else mret 0);
    if negb (err =? 0) then mret err
    else if S_ISDIR (mode oi) && negb (old_dir =? new_dir) then
      k ← st_gets (fun s => S (S (base.size (dentries s))));
      up ← st_loop k (above_turn (d_inode o)) (d_parent n);
      if up : bool then mret (- EINVAL) else mret 0
    else mret 0.

(** tmpfs.c: tmpfs_rename, the entry of the target is removed: true when it is
    the entry of the source *)
Definition rename_target (old_dir new_dir : Z) (n : dentry) (old_de : tmpfs_dir_entry) : tm bool :=
  if d_inode n =? 0 then mret false
  else
    new_de ← tmpfs_dir_lookup new_dir (d_name n);
    match new_de with
    | None => mret false
    | Some new_de =>
        if (old_dir =? new_dir) && (de_id old_de =? de_id new_de) then mret true
        else
          _ ← tmpfs_dir_remove new_dir new_de;
          _ ← upd_inode (d_inode n) (fun i => set_nlink i (u64 (nlink i - 1)));
          mret false
    end.

(** tmpfs.c: tmpfs_rename, the entry ".." of a directory that was moved, and
    the link counts *)
Definition rename_dots (old_dir new_dir x : Z) : tm Z :=
  dd ← tmpfs_dir_lookup x dotdot;
  p ← get_inode new_dir;
  _ ← (match dd with
       | Some dd => upd_inode x (fun i => set_dir i ((fun e => if de_id e =? de_id dd then De (de_id e) (de_name e) (ino p) else e) <$> dir_list i))
       | None => mret tt
       end);
  _ ← upd_inode old_dir (fun i => set_nlink i (u64 (nlink i - 1)));
  _ ← upd_inode new_dir (fun i => set_nlink i (u64 (nlink i + 1)));
  mret 0.

(** tmpfs.c: tmpfs_rename, the move: an error, or 0 *)
Definition rename_move (old_dir new_dir : Z) (o n : dentry) (old_de : tmpfs_dir_entry) : tm Z :=
  if old_dir =? new_dir then
    nm ← kalloc;
    if nm =? 0 then mret (- ENOMEM)
    else
      _ ← upd_inode old_dir (fun i => set_dir i ((fun e => if de_id e =? de_id old_de then De (de_id e) (d_name n) (de_ino e) else e) <$> dir_list i));
      mret 0
  else
    oi ← get_inode (d_inode o);
    err ← tmpfs_dir_add new_dir (d_name n) (ino oi);
    if negb (err =? 0) then mret err
    else
      _ ← tmpfs_dir_remove old_dir old_de;
      if S_ISDIR (mode oi) then rename_dots old_dir new_dir (d_inode o) else mret 0.

(** tmpfs.c: tmpfs_rename *)
Definition tmpfs_rename (old_dir old_dentry new_dir new_dentry : Z) : tm Z :=
  o ← get_dentry old_dentry;
  n ← get_dentry new_dentry;
  err ← rename_check old_dir new_dir o n;
  if negb (err =? 0) then mret err
  else
    de ← tmpfs_dir_lookup old_dir (d_name o);
    match de with
    | None => mret (- ENOENT)
    | Some old_de =>
        same ← rename_target old_dir new_dir n old_de;
        if same : bool then mret 0
        else
          err ← rename_move old_dir new_dir o n old_de;
          if negb (err =? 0) then mret err
          else
            _ ← unbind_dentry old_dentry;
            _ ← bind_dentry new_dentry (d_inode o);
            mret 0
    end.

(** tmpfs.c: tmpfs_readlink; the answer and the bytes *)
Definition tmpfs_readlink (x bufsiz : Z) : tm (Z * list Z) :=
  i ← get_inode x;
  match symlink_target i with
  | None => mret (- EINVAL, [])
  | Some t =>
      let copy_len := Z.min (data_size i) bufsiz in
      mret (copy_len, take (Z.to_nat copy_len) (t ++ [0]))
  end.

(** tmpfs.c: tmpfs_mknod *)
Definition tmpfs_mknod (dir d mo device : Z) : tm Z :=
  i ← get_inode dir;
  let b := sb i in
  x ← tmpfs_alloc_inode b;
  if x =? 0 then mret (- ENOMEM)
  else
    err ← tmpfs_inode_init x b mo;
    if negb (err =? 0) then _ ← tmpfs_destroy_inode x; mret err
    else
      _ ← upd_inode x (fun i => set_tables (set_rdev i device) (ops_set i) dev_fops);
      _ ← sb_link x b;
      e ← get_dentry d;
      j ← get_inode x;
      err ← tmpfs_dir_add dir (d_name e) (ino j);
      if negb (err =? 0) then _ ← drop_inode x b; mret err
      else _ ← bind_dentry d x; mret 0.

End tmpfs.
