(* ===== verification/TmpfsSpec.v ===== *)
(** * tmpfs: what the operations on names do

    The steps of the operations on a well-formed file system: every inode has
    a super block, addresses are fresh, the names in a directory differ, and
    the inode cache leads to the live inodes. *)

From S2P Require Import Prelude StateM Bitmap Dynarr Devt Hash Tmpfs.

Local Open Scope Z_scope.

(** ** Running the accesses *)

Lemma get_inode_run s x i : inodes s !! x = Some i -> get_inode x s = Ok (i, s).
Proof. intros E. unfold get_inode, st_deref. by rewrite E. Qed.

Lemma upd_inode_run s x i f : inodes s !! x = Some i -> upd_inode x f s = Ok (tt, with_inodes s (<[x := f i]> (inodes s))).
Proof. intros E. unfold upd_inode. by rewrite (st_step _ _ _ _ _ (get_inode_run s x i E)). Qed.

Lemma get_dentry_run s d e : dentries s !! d = Some e -> get_dentry d s = Ok (e, s).
Proof. intros E. unfold get_dentry, st_deref. by rewrite E. Qed.

Lemma upd_dentry_run s d e f : dentries s !! d = Some e -> upd_dentry d f s = Ok (tt, with_dentries s (<[d := f e]> (dentries s))).
Proof. intros E. unfold upd_dentry. by rewrite (st_step _ _ _ _ _ (get_dentry_run s d e E)). Qed.

Lemma get_super_run s b p : supers s !! b = Some p -> get_super b s = Ok (p, s).
Proof. intros E. unfold get_super, st_deref. by rewrite E. Qed.

Lemma upd_super_run s b p f : supers s !! b = Some p -> upd_super b f s = Ok (tt, with_supers s (<[b := f p]> (supers s))).
Proof. intros E. unfold upd_super. by rewrite (st_step _ _ _ _ _ (get_super_run s b p E)). Qed.

Lemma dir_lookup_run s dir i name : inodes s !! dir = Some i -> tmpfs_dir_lookup dir name s = Ok (find_entry (dir_list i) name, s).
Proof. intros E. unfold tmpfs_dir_lookup. by rewrite (st_step _ _ _ _ _ (get_inode_run s dir i E)). Qed.

(** ** Directories as finite maps *)

Definition dir_map (i : inode) : gmap (list Z) Z := list_to_map ((fun e => (de_name e, de_ino e)) <$> dir_list i).

(** Names and addresses of the entries differ. *)
Record entries_ok (l : list tmpfs_dir_entry) : Prop := {
  eo_names : NoDup (de_name <$> l);
  eo_ids : NoDup (de_id <$> l)
}.

Lemma entry_pairs_fst l : ((fun e => (de_name e, de_ino e)) <$> l).*1 = de_name <$> l.
Proof. rewrite <- list_fmap_compose. done. Qed.

Lemma find_entry_Some l name e : find_entry l name = Some e -> e ∈ l /\ de_name e = name.
Proof.
  unfold find_entry. intros Hf. apply find_some in Hf as [Hin Hb]. rewrite list_elem_of_In. split; [done|]. by apply bool_decide_eq_true in Hb.
Qed.

Lemma find_entry_None l name : find_entry l name = None <-> name ∉ de_name <$> l.
Proof.
  unfold find_entry. induction l as [|e l IH]; cbn; [split; [intros _; apply not_elem_of_nil|done]|]. rewrite not_elem_of_cons.
  case_bool_decide as Hn; [naive_solver|]. rewrite IH. naive_solver.
Qed.

(** Looking a name up in the list is a lookup in the map. *)
Lemma dir_map_lookup i name : entries_ok (dir_list i) -> dir_map i !! name = de_ino <$> find_entry (dir_list i) name.
Proof.
  intros [Hn _]. unfold dir_map. destruct (find_entry (dir_list i) name) as [e|] eqn:E; cbn.
  - apply find_entry_Some in E as [Hin <-]. apply elem_of_list_to_map_1; [by rewrite entry_pairs_fst|]. apply list_elem_of_fmap. by exists e.
  - apply not_elem_of_list_to_map_1. rewrite entry_pairs_fst. by apply find_entry_None.
Qed.

Lemma dir_map_add i de name n : name ∉ de_name <$> dir_list i -> dir_map (set_dir i (dir_list i ++ [De de name n])) = <[name := n]> (dir_map i).
Proof.
  intros Hn. unfold dir_map. cbn [dir_list set_dir]. rewrite fmap_app. cbn [fmap list_fmap]. rewrite list_to_map_snoc; [done|]. by rewrite entry_pairs_fst.
Qed.

Lemma filter_ext_in {A} (P Q : A -> Prop) `{forall x, Decision (P x)} `{forall x, Decision (Q x)} (l : list A) :
  (forall x, x ∈ l -> P x <-> Q x) -> filter P l = filter Q l.
Proof.
  induction l as [|x l IH]; intros Hx; [done|]. specialize (IH (fun y Hy => Hx y (list_elem_of_further _ _ _ Hy))).
  destruct (decide (P x)) as [Hp|Hp].
  - rewrite !filter_cons_True; [by f_equal|by apply Hx; [left|]|done].
  - rewrite !filter_cons_False; [done|intros Hq; apply Hp; apply Hx; [left|done]|done].
Qed.

Lemma filter_all {A} (P : A -> Prop) `{forall x, Decision (P x)} (l : list A) : (forall x, x ∈ l -> P x) -> filter P l = l.
Proof.
  induction l as [|x l IH]; intros Hx; [done|]. rewrite filter_cons_True by (apply Hx; left). f_equal. apply IH. intros y Hy. apply Hx. by right.
Qed.

Lemma fmap_inj_in {A B} (f : A -> B) (l : list A) x y : NoDup (f <$> l) -> x ∈ l -> y ∈ l -> f x = f y -> x = y.
Proof.
  intros Hn Hx Hy E. apply list_elem_of_lookup in Hx as [a Ha]. apply list_elem_of_lookup in Hy as [b Hb].
  assert (a = b) as ->; [|congruence]. apply (NoDup_lookup _ _ _ (f x) Hn); rewrite list_lookup_fmap; [by rewrite Ha|rewrite Hb; cbn; by rewrite E].
Qed.

Lemma filter_id_names l e : entries_ok l -> e ∈ l ->
  filter (fun x => de_id x <> de_id e) l = filter (fun x => de_name x <> de_name e) l.
Proof.
  intros [Hn Hi] He. apply filter_ext_in. intros x Hx. split; intros Hne Heq; apply Hne; f_equal.
  - by apply (fmap_inj_in de_name l).
  - by apply (fmap_inj_in de_id l).
Qed.

Lemma list_to_map_filter_name l name :
  list_to_map ((fun e => (de_name e, de_ino e)) <$> filter (fun x => de_name x <> name) l) =
  delete name (list_to_map ((fun e => (de_name e, de_ino e)) <$> l) : gmap (list Z) Z).
Proof.
  induction l as [|e l IH]; [cbn; by rewrite delete_empty|]. cbn [fmap list_fmap list_to_map fst snd]. destruct (decide (de_name e = name)) as [<-|Hne].
  - rewrite filter_cons_False by (intros Hx; by apply Hx). rewrite IH. cbn. by rewrite delete_insert_eq.
  - rewrite filter_cons_True by done. cbn. rewrite IH. by rewrite delete_insert_ne.
Qed.

Lemma dir_map_remove i e : entries_ok (dir_list i) -> e ∈ dir_list i ->
  dir_map (set_dir i (filter (fun x => de_id x <> de_id e) (dir_list i))) = delete (de_name e) (dir_map i).
Proof. intros Ho He. unfold dir_map. cbn [dir_list set_dir]. rewrite filter_id_names by done. apply list_to_map_filter_name. Qed.

Lemma entries_split l e : NoDup (de_id <$> l) -> e ∈ l -> exists l1 l2, l = l1 ++ e :: l2 /\
  filter (fun x => de_id x <> de_id e) l = l1 ++ l2 /\ (forall x, x ∈ l1 ++ l2 -> de_id x <> de_id e).
Proof.
  intros Hi He. apply list_elem_of_split in He as (l1 & l2 & ->). exists l1, l2. split; [done|].
  assert (forall x, x ∈ l1 ++ l2 -> de_id x <> de_id e) as Hne.
  { intros x Hx Heq. rewrite fmap_app in Hi. cbn in Hi. rewrite <- Permutation_middle in Hi. apply NoDup_cons in Hi as [Hn _]. apply Hn.
    rewrite <- fmap_app, <- Heq. by apply list_elem_of_fmap_2. }
  split; [|done]. rewrite filter_app, filter_cons_False by (intros Hx; by apply Hx). rewrite <- filter_app.
  by apply filter_all.
Qed.

Lemma entries_ok_perm l l' : l ≡ₚ l' -> entries_ok l -> entries_ok l'.
Proof. intros Hp [Hn Hi]. split; by rewrite <- Hp. Qed.

Lemma entries_ok_add l id name n : entries_ok l -> name ∉ de_name <$> l -> id ∉ de_id <$> l -> entries_ok (l ++ [De id name n]).
Proof.
  intros [Hn Hi] Hname Hid. apply (entries_ok_perm (De id name n :: l)); [by rewrite Permutation_app_comm|]. split; cbn; by constructor.
Qed.

Lemma entries_ok_remove l e : entries_ok l -> entries_ok (filter (fun x => de_id x <> de_id e) l).
Proof.
  intros [Hn Hi]. split.
  - eapply sublist_NoDup; [exact Hn|]. apply fmap_sublist, sublist_filter.
  - eapply sublist_NoDup; [exact Hi|]. apply fmap_sublist, sublist_filter.
Qed.

(** An entry gets another name in place. *)
Definition rename_entry (id : Z) (nm : list Z) (e : tmpfs_dir_entry) : tmpfs_dir_entry :=
  if de_id e =? id then De (de_id e) nm (de_ino e) else e.

Lemma rename_entry_map l e nm : entries_ok l -> e ∈ l -> nm ∉ de_name <$> l ->
  let l' := rename_entry (de_id e) nm <$> l in
  entries_ok l' /\ list_to_map ((fun e => (de_name e, de_ino e)) <$> l') =
    <[nm := de_ino e]> (delete (de_name e) (list_to_map ((fun e => (de_name e, de_ino e)) <$> l) : gmap (list Z) Z)).
Proof.
  intros Ho He Hnm l'. destruct (entries_split l e (eo_ids _ Ho) He) as (l1 & l2 & -> & Hf & Hne).
  assert (forall k : list tmpfs_dir_entry, (forall x, x ∈ k -> de_id x <> de_id e) -> rename_entry (de_id e) nm <$> k = k) as Hid.
  { induction k as [|x k IH]; intros Hk; [done|]. cbn. unfold rename_entry at 1. rewrite (proj2 (Z.eqb_neq _ _)) by (apply Hk; left). f_equal. apply IH. intros y Hy. apply Hk. by right. }
  set (e' := De (de_id e) nm (de_ino e)).
  assert (l' = l1 ++ e' :: l2) as ->.
  { unfold l'. rewrite fmap_app, fmap_cons. rewrite !Hid by (intros x Hx; apply Hne; set_solver). unfold rename_entry. by rewrite Z.eqb_refl. }
  destruct Ho as [Hn Hi]. rewrite fmap_app, fmap_cons, <- Permutation_middle in Hn. rewrite fmap_app, fmap_cons, <- Permutation_middle in Hi. apply NoDup_cons in Hn as [Hn0 Hn]. apply NoDup_cons in Hi as [Hi0 Hi].
  rewrite fmap_app, fmap_cons in Hnm. assert (nm ∉ (de_name <$> l1) ++ (de_name <$> l2)) as Hnm' by set_solver.
  assert (entries_ok (l1 ++ e' :: l2)) as Ho' by (split; rewrite fmap_app, fmap_cons, <- Permutation_middle; by constructor).
  split; [done|]. rewrite <- list_to_map_filter_name.
  assert (filter (fun x => de_name x <> de_name e) (l1 ++ e :: l2) = l1 ++ l2) as ->.
  { rewrite <- Hf. symmetry. apply filter_id_names; [|set_solver]. split; rewrite fmap_app, fmap_cons, <- Permutation_middle; by constructor. }
  rewrite !fmap_app, fmap_cons. cbn [de_name de_ino e'].
  rewrite (list_to_map_proper _ ((nm, de_ino e) :: ((fun e => (de_name e, de_ino e)) <$> l1) ++ ((fun e => (de_name e, de_ino e)) <$> l2))); [done| |by rewrite <- Permutation_middle].
  destruct Ho' as [Hn' _]. rewrite fmap_app, fmap_cons in Hn'. rewrite fmap_app, fmap_cons, !entry_pairs_fst. done.
Qed.

(** ** Allocation and adding an entry *)

Lemma kalloc_run s : 0 < next_addr s ->
  (exists s', kalloc s = Ok (0, s') /\ s' = with_alloc s (next_addr s) (S (tick s))) \/
  (kalloc s = Ok (next_addr s, with_alloc s (next_addr s + 1) (S (tick s))) /\ next_addr s =? 0 = false).
Proof. intros Hn. unfold kalloc. destruct (mem s (tick s)); [right|left; by eexists]. split; [done|lia]. Qed.

(** Adding an entry needs two allocations; without memory nothing else changes. *)
Lemma dir_add_run s dir i name n : 0 < next_addr s -> inodes s !! dir = Some i ->
  (exists a t, tmpfs_dir_add dir name n s = Ok (- ENOMEM, with_alloc s a t) /\ next_addr s <= a) \/
  (exists a t, tmpfs_dir_add dir name n s = Ok (0, with_inodes (with_alloc s a t) (<[dir := set_dir i (dir_list i ++ [De (next_addr s) name n])]> (inodes s))) /\ next_addr s < a).
Proof.
  intros Hn Hi. unfold tmpfs_dir_add. destruct (kalloc_run s Hn) as [(s1 & E & ->)|[E H0]]; rewrite (st_step _ _ _ _ _ E).
  { left. eexists _, _. split; [reflexivity|]. lia. }
  rewrite H0. set (s1 := with_alloc s (next_addr s + 1) (S (tick s))). assert (0 < next_addr s1) as Hn1 by (cbn; lia).
  destruct (kalloc_run s1 Hn1) as [(s2 & E2 & ->)|[E2 H2]]; rewrite (st_step _ _ _ _ _ E2).
  { left. eexists _, _. split; [reflexivity|]. cbn. lia. }
  rewrite H2. right. exists (next_addr s1 + 1), (S (tick s1)). split; [|cbn; lia].
  rewrite (st_step _ _ _ _ _ (upd_inode_run (with_alloc s1 (next_addr s1 + 1) (S (tick s1))) dir i _ Hi)). done.
Qed.

(** An entry gets another number in place. *)
Definition retarget_entry (id n : Z) (e : tmpfs_dir_entry) : tmpfs_dir_entry :=
  if de_id e =? id then De (de_id e) (de_name e) n else e.

Lemma map_middle l1 e l2 : NoDup (de_name <$> l1 ++ e :: l2) ->
  (list_to_map ((fun e => (de_name e, de_ino e)) <$> l1 ++ e :: l2) : gmap (list Z) Z) =
  <[de_name e := de_ino e]> (list_to_map ((fun e => (de_name e, de_ino e)) <$> l1 ++ l2)).
Proof.
  intros Hn. rewrite (list_to_map_proper _ ((fun e => (de_name e, de_ino e)) <$> e :: l1 ++ l2)); [done|by rewrite entry_pairs_fst|by rewrite <- Permutation_middle].
Qed.

Lemma retarget_map i e n : entries_ok (dir_list i) -> e ∈ dir_list i ->
  dir_map (set_dir i (retarget_entry (de_id e) n <$> dir_list i)) = <[de_name e := n]> (dir_map i).
Proof.
  intros Ho He. unfold dir_map. cbn [dir_list set_dir]. destruct (entries_split _ e (eo_ids _ Ho) He) as (l1 & l2 & El & _ & Hne). rewrite El in *.
  assert (forall k : list tmpfs_dir_entry, (forall x, x ∈ k -> de_id x <> de_id e) -> retarget_entry (de_id e) n <$> k = k) as Hid.
  { induction k as [|x k IH]; intros Hk; [done|]. cbn. unfold retarget_entry at 1. rewrite (proj2 (Z.eqb_neq _ _)) by (apply Hk; left). f_equal. apply IH. intros y Hy. apply Hk. by right. }
  rewrite (fmap_app (retarget_entry _ _)), fmap_cons, !Hid by (intros x Hx; apply Hne; set_solver). unfold retarget_entry. rewrite Z.eqb_refl.
  pose proof (eo_names _ Ho) as Hn. rewrite (map_middle l1 e l2 Hn), insert_insert_eq. rewrite map_middle; [done|]. rewrite fmap_app, fmap_cons in *. done.
Qed.

Lemma is_empty_dir_spec l : if is_empty_dir l then Forall (fun x => de_name x = dot \/ de_name x = dotdot) l else exists x, x ∈ l /\ de_name x <> dot /\ de_name x <> dotdot.
Proof.
  unfold is_empty_dir. induction l as [|a l IH]; cbn [forallb]; [done|]. destruct (bool_decide_reflect (de_name a = dot)) as [Hd|Hd], (bool_decide_reflect (de_name a = dotdot)) as [Hdd|Hdd]; cbn [orb andb].
  4: exists a; split; [by left|done].
  all: destruct (forallb _ l); [constructor; [by auto|done]|destruct IH as (x & Hx & Hn); exists x; split; [by right|done]].
Qed.
