(* ===== verification/TmpfsRename.v ===== *)
(** * tmpfs: renaming

    [tmpfs_rename] on a coherent pair of names moves an entry from one finite
    map to another; without memory it may lose the target. *)

From S2P Require Import Prelude StateM Bitmap Dynarr Devt Hash Tmpfs TmpfsSpec.

Local Open Scope Z_scope.

(** The parents of a name end after at most [k] steps. *)
Fixpoint up_ends (s : tst) (k : nat) (p : Z) : Prop :=
  p = 0 \/ match k with O => False | S k => exists e, dentries s !! p = Some e /\ up_ends s k (d_parent e) end.

Lemma above_turn_run s x p e : p <> 0 -> dentries s !! p = Some e ->
  above_turn x p s = Ok (if d_inode e =? x then inr true else inl (d_parent e), s).
Proof.
  intros Hp Ee. unfold above_turn. rewrite (proj2 (Z.eqb_neq _ _) Hp), (st_step _ _ _ _ _ (get_dentry_run s p e Ee)). by destruct (d_inode e =? x).
Qed.

(** The inode [x] is met on the way from the name [p] up. *)
Inductive above (s : tst) (x : Z) : Z -> Prop :=
| above_here p e : p <> 0 -> dentries s !! p = Some e -> d_inode e = x -> above s x p
| above_up p e : p <> 0 -> dentries s !! p = Some e -> above s x (d_parent e) -> above s x p.

Lemma above_run s x : forall k p fuel, up_ends s k p -> (k < fuel)%nat ->
  exists b, st_loop fuel (above_turn x) p s = Ok (b, s) /\ (b = true <-> above s x p).
Proof.
  induction k as [|k IH]; intros p fuel Hu Hf; (destruct fuel as [|fuel]; [lia|]); cbn [st_loop];
    (destruct (Z.eq_dec p 0) as [->|Hp]; [exists false; split; [done|]; split; [done|]; intros Ha; inversion Ha; congruence|]).
  - by destruct Hu.
  - destruct Hu as [?|(e & Ee & Hu)]; [done|]. rewrite (st_step _ _ _ _ _ (above_turn_run s x p e Hp Ee)).
    destruct (Z.eqb_spec (d_inode e) x) as [Hx|Hx].
    + exists true. split; [done|]. split; [|done]. intros _. by eapply above_here.
    + destruct (IH (d_parent e) fuel Hu) as (b & E & Hb); [lia|]. exists b. split; [exact E|]. rewrite Hb. split; [by eapply above_up|].
      intros Ha. inversion Ha; simplify_eq; done.
Qed.

(** The two names of a rename, as the virtual file system hands them over: the
    old one is an entry of its directory, the new one has an inode exactly if
    its directory has the name, and neither inode is one of the directories. *)
Record rename_ready (s : tst) (old_dir od new_dir nd : Z) (o n : dentry) (oi m1 m2 : inode) (e : tmpfs_dir_entry) : Prop := {
  rr_o : dentries s !! od = Some o;
  rr_n : dentries s !! nd = Some n;
  rr_od : od <> nd;
  rr_o0 : d_inode o <> 0;
  rr_oi : inodes s !! d_inode o = Some oi;
  rr_m1 : inodes s !! old_dir = Some m1;
  rr_m2 : inodes s !! new_dir = Some m2;
  rr_ok1 : entries_ok (dir_list m1);
  rr_ok2 : entries_ok (dir_list m2);
  rr_e : find_entry (dir_list m1) (d_name o) = Some e;
  rr_ino : de_ino e = ino oi;
  rr_new : d_inode n = 0 <-> find_entry (dir_list m2) (d_name n) = None;
  rr_ni : d_inode n <> 0 -> is_Some (inodes s !! d_inode n);
  rr_odirs : d_inode o <> old_dir /\ d_inode o <> new_dir;
  rr_ndirs : d_inode n <> old_dir /\ d_inode n <> new_dir;
  rr_up : up_ends s (base.size (dentries s)) (d_parent n);
  rr_fresh : 0 < next_addr s /\ Forall (fun x => de_id x < next_addr s) (dir_list m2)
}.

(** ** When a rename is refused *)

(** A file would take the place of a directory. *)
Definition overwrites_dir (s : tst) (n : dentry) (oi : inode) : Prop := exists ni,
  d_inode n <> 0 /\ inodes s !! d_inode n = Some ni /\ S_ISDIR (mode ni) = true /\ S_ISDIR (mode oi) = false.

(** A directory that is not empty would be replaced by another inode. *)
Definition replaces_full_dir (s : tst) (o n : dentry) : Prop := exists ni x,
  d_inode n <> 0 /\ d_inode n <> d_inode o /\ inodes s !! d_inode n = Some ni /\ S_ISDIR (mode ni) = true /\
  x ∈ dir_list ni /\ de_name x <> dot /\ de_name x <> dotdot.

(** A directory would be moved below itself. *)
Definition below_itself (s : tst) (old_dir new_dir : Z) (o n : dentry) (oi : inode) : Prop :=
  S_ISDIR (mode oi) = true /\ old_dir <> new_dir /\ above s (d_inode o) (d_parent n).

(** The error a rename is refused with, 0 when it is not. *)
Definition refused (s : tst) (old_dir new_dir : Z) (o n : dentry) (oi : inode) (err : Z) : Prop :=
  (err = - EISDIR /\ overwrites_dir s n oi) \/
  (err = - ENOTEMPTY /\ ~ overwrites_dir s n oi /\ replaces_full_dir s o n) \/
  (err = - EINVAL /\ ~ overwrites_dir s n oi /\ ~ replaces_full_dir s o n /\ below_itself s old_dir new_dir o n oi) \/
  (err = 0 /\ ~ overwrites_dir s n oi /\ ~ replaces_full_dir s o n /\ ~ below_itself s old_dir new_dir o n oi).

(** The check of the target. *)
Lemma target_check_run s o n oi (c : ST tst Z) : (d_inode n <> 0 -> is_Some (inodes s !! d_inode n)) ->
  c = (if d_inode n =? 0 then mret 0
       else
         ni ← get_inode (d_inode n);
         if S_ISDIR (mode ni) && negb (S_ISDIR (mode oi)) then mret (- EISDIR)
         else if S_ISDIR (mode ni) && negb (d_inode n =? d_inode o) && negb (is_empty_dir (dir_list ni)) then mret (- ENOTEMPTY)
         else mret 0) ->
  exists err, c s = Ok (err, s) /\
    ((err = - EISDIR /\ overwrites_dir s n oi) \/
     (err = - ENOTEMPTY /\ ~ overwrites_dir s n oi /\ replaces_full_dir s o n) \/
     (err = 0 /\ ~ overwrites_dir s n oi /\ ~ replaces_full_dir s o n)).
Proof.
  intros Hni ->. destruct (Z.eqb_spec (d_inode n) 0) as [H0|H0].
  { exists 0. split; [done|]. right; right. split; [done|]. split; [by intros (? & ? & _)|by intros (? & ? & ? & _)]. }
  destruct (Hni H0) as [ni Eni]. rewrite (st_step _ _ _ _ _ (get_inode_run s _ _ Eni)).
  destruct (S_ISDIR (mode ni) && negb (S_ISDIR (mode oi))) eqn:E1.
  { apply andb_true_iff in E1 as [E1 E2%negb_true_iff]. eexists. split; [reflexivity|]. left. split; [done|]. by exists ni. }
  assert (~ overwrites_dir s n oi) as Hno.
  { intros (ni' & _ & Eni' & Hd & Hf). simplify_eq. by rewrite Hd, Hf in E1. }
  pose proof (is_empty_dir_spec (dir_list ni)) as Hem.
  destruct (S_ISDIR (mode ni)) eqn:Ed; cbn [andb]; [destruct (Z.eqb_spec (d_inode n) (d_inode o)) as [Hs|Hs]; cbn [andb negb]; [|destruct (is_empty_dir (dir_list ni)); cbn [negb]]|].
  - eexists. split; [reflexivity|]. right; right. split; [done|]. split; [done|]. by intros (? & ? & _ & ? & _).
  - eexists. split; [reflexivity|]. right; right. split; [done|]. split; [done|]. intros (ni' & x & _ & _ & Eni' & _ & Hx & Hx1 & Hx2). simplify_eq.
    rewrite Forall_forall in Hem. destruct (Hem x Hx); done.
  - destruct Hem as (x & Hx). eexists. split; [reflexivity|]. right; left. split; [done|]. split; [done|]. by exists ni, x.
  - eexists. split; [reflexivity|]. right; right. split; [done|]. split; [done|]. intros (ni' & x & _ & _ & Eni' & Hd & _). simplify_eq. congruence.
Qed.

Lemma rename_check_run s old_dir od new_dir nd o n oi m1 m2 e : rename_ready s old_dir od new_dir nd o n oi m1 m2 e ->
  exists err, rename_check old_dir new_dir o n s = Ok (err, s) /\ refused s old_dir new_dir o n oi err.
Proof.
  intros [Ho Hn Hod Ho0 Hoi Hm1 Hm2 Hok1 Hok2 He Hino Hnew Hni Hodirs Hndirs Hup Hfresh].
  unfold rename_check. rewrite (proj2 (Z.eqb_neq _ _) Ho0), (st_step _ _ _ _ _ (get_inode_run s _ _ Hoi)).
  destruct (target_check_run s o n oi _ Hni eq_refl) as (err & E & Hc). rewrite (st_step _ _ _ _ _ E). unfold refused.
  destruct Hc as [(-> & ?)|[(-> & ?)|(-> & Hno & Hnf)]]; cbn [Z.eqb Z.opp negb EISDIR ENOTEMPTY]; [exists (- EISDIR); auto|exists (- ENOTEMPTY); auto|].
  destruct (S_ISDIR (mode oi)) eqn:Ed; cbn [andb]; [destruct (Z.eqb_spec old_dir new_dir) as [Hd|Hd]; cbn [negb]|].
  - exists 0. split; [done|]. do 3 right. split_and!; try done. by intros (_ & ? & _).
  - rewrite st_gets_step.
    destruct (above_run s (d_inode o) (base.size (dentries s)) (d_parent n) (S (S (base.size (dentries s)))) Hup) as (b & Eb & Hb); [lia|].
    rewrite (st_step _ _ _ _ _ Eb). destruct b; eexists; (split; [reflexivity|]).
    + right; right; left. split_and!; try done. split_and!; try done. by apply Hb.
    + do 3 right. split_and!; try done. intros (_ & _ & Ha). by apply Hb in Ha.
  - exists 0. split; [done|]. do 3 right. split_and!; try done. intros (Hx & _). congruence.
Qed.

(** ** Link counts *)

Definition links (I : gmap Z inode) (x : Z) : option Z := nlink <$> I !! x.

(** One link of the target is gone, when there is one. *)
Definition unlinked (I : gmap Z inode) (n : dentry) (x : Z) : option Z :=
  if decide (d_inode n <> 0 /\ x = d_inode n) then (fun k => u64 (k - 1)) <$> links I x else links I x.

(** A directory that moves takes the link of its ".." with it. *)
Definition moved_links (I : gmap Z inode) (old_dir new_dir : Z) (n : dentry) (oi : inode) (x : Z) : option Z :=
  if S_ISDIR (mode oi) && negb (old_dir =? new_dir) then
    if decide (x = old_dir) then (fun k => u64 (k - 1)) <$> links I x
    else if decide (x = new_dir) then (fun k => u64 (k + 1)) <$> links I x
    else unlinked I n x
  else unlinked I n x.

Lemma links_insert I a i x : links (<[a := i]> I) x = if decide (x = a) then Some (nlink i) else links I x.
Proof. unfold links. case_decide as E; [subst; by rewrite lookup_insert_eq|by rewrite lookup_insert_ne by congruence]. Qed.

Lemma links_same I a i j x : I !! a = Some i -> nlink j = nlink i -> links (<[a := j]> I) x = links I x.
Proof. intros E En. rewrite links_insert. case_decide; [|done]. subst. unfold links. rewrite E. cbn. by rewrite En. Qed.

(** The inodes when the entry of the target is gone. *)
Definition target_gone (s : tst) (new_dir : Z) (n : dentry) (m2 : inode) : gmap Z inode :=
  match find_entry (dir_list m2) (d_name n), inodes s !! d_inode n with
  | Some t, Some ni => <[d_inode n := set_nlink ni (u64 (nlink ni - 1))]> (<[new_dir := set_dir m2 (filter (fun x => de_id x <> de_id t) (dir_list m2))]> (inodes s))
  | _, _ => inodes s
  end.

Lemma rename_target_run s old_dir od new_dir nd o n oi m1 m2 e : rename_ready s old_dir od new_dir nd o n oi m1 m2 e ->
  exists b, rename_target old_dir new_dir n e s = Ok (b, if b : bool then s else with_inodes s (target_gone s new_dir n m2)) /\
    (b = true <-> old_dir = new_dir /\ d_name o = d_name n).
Proof.
  intros [Ho Hn Hod Ho0 Hoi Hm1 Hm2 Hok1 Hok2 He Hino Hnew Hni Hodirs Hndirs Hup Hfresh].
  unfold rename_target, target_gone. destruct (find_entry_Some _ _ _ He) as [Hein Hename].
  destruct (find_entry (dir_list m2) (d_name n)) as [t|] eqn:Et.
  - assert (d_inode n <> 0) as H0 by (intros H0; pose proof (proj1 Hnew H0) as Hx; congruence). rewrite (proj2 (Z.eqb_neq _ _) H0).
    rewrite (st_step _ _ _ _ _ (dir_lookup_run s new_dir m2 _ Hm2)), Et. destruct (Hni H0) as [ni Eni]. rewrite Eni.
    destruct (find_entry_Some _ _ _ Et) as [Htin Htname].
    assert ((_ ← tmpfs_dir_remove new_dir t; _ ← upd_inode (d_inode n) (fun i => set_nlink i (u64 (nlink i - 1))); mret false) s =
      Ok (false, with_inodes s (<[d_inode n := set_nlink ni (u64 (nlink ni - 1))]> (<[new_dir := set_dir m2 (filter (fun x => de_id x <> de_id t) (dir_list m2))]> (inodes s))))) as Erun.
    { unfold tmpfs_dir_remove. rewrite (st_step _ _ _ _ _ (upd_inode_run s new_dir m2 _ Hm2)).
      set (I1 := <[new_dir := _]> (inodes s)). assert (I1 !! d_inode n = Some ni) as E1 by (unfold I1; rewrite lookup_insert_ne by (apply not_eq_sym, Hndirs); exact Eni).
      by rewrite (st_step _ _ _ _ _ (upd_inode_run (with_inodes s I1) (d_inode n) ni _ E1)). }
    destruct (Z.eqb_spec old_dir new_dir) as [->|Hd]; cbn [andb]; [|exists false; split; [exact Erun|]; split; [done|]; intros [? _]; done].
    assert (m1 = m2) as -> by congruence. destruct (Z.eqb_spec (de_id e) (de_id t)) as [Hid|Hid].
    + exists true. split; [done|]. split; [|done]. intros _. split; [done|].
      assert (e = t) as -> by (by apply (fmap_inj_in de_id (dir_list m2)); [apply Hok2|..]). congruence.
    + exists false. split; [exact Erun|]. split; [done|]. intros [_ Hnm]. exfalso. apply Hid. f_equal.
      apply (fmap_inj_in de_name (dir_list m2)); [apply Hok2|done|done|congruence].
  - rewrite (proj2 Hnew eq_refl). cbn. exists false. split; [by destruct s|]. split; [done|]. intros [-> Hnm]. assert (m1 = m2) as -> by congruence.
    rewrite Hnm in He. congruence.
Qed.

(** What is left when the target is gone. *)
Record gone_facts (s : tst) (new_dir : Z) (o n : dentry) (oi m2 : inode) (G : gmap Z inode) (m2' oi' : inode) : Prop := {
  gf_new : G !! new_dir = Some m2';
  gf_ok : entries_ok (dir_list m2');
  gf_name : d_name n ∉ de_name <$> dir_list m2';
  gf_map : dir_map m2' = delete (d_name n) (dir_map m2);
  gf_sub x : x ∈ dir_list m2' <-> x ∈ dir_list m2 /\ de_name x <> d_name n;
  gf_m2 : nlink m2' = nlink m2 /\ ino m2' = ino m2;
  gf_oi : G !! d_inode o = Some oi' /\ dir_list oi' = dir_list oi /\ ino oi' = ino oi /\ mode oi' = mode oi;
  gf_rest x : x <> new_dir -> x <> d_inode n -> G !! x = inodes s !! x;
  gf_links x : links G x = unlinked (inodes s) n x
}.

Lemma target_gone_facts s old_dir od new_dir nd o n oi m1 m2 e : rename_ready s old_dir od new_dir nd o n oi m1 m2 e ->
  exists m2' oi', gone_facts s new_dir o n oi m2 (target_gone s new_dir n m2) m2' oi'.
Proof.
  intros [Ho Hn Hod Ho0 Hoi Hm1 Hm2 Hok1 Hok2 He Hino Hnew Hni Hodirs Hndirs Hup Hfresh]. unfold target_gone.
  destruct (find_entry (dir_list m2) (d_name n)) as [t|] eqn:Et.
  - assert (d_inode n <> 0) as H0 by (intros H0; pose proof (proj1 Hnew H0); congruence). destruct (Hni H0) as [ni Eni]. rewrite Eni.
    destruct (find_entry_Some _ _ _ Et) as [Htin Htname].
    set (m2' := set_dir m2 (filter (fun x => de_id x <> de_id t) (dir_list m2))).
    assert (forall x, x ∈ dir_list m2' <-> x ∈ dir_list m2 /\ de_name x <> d_name n) as Hsub.
    { intros x. cbn. rewrite filter_id_names, list_elem_of_filter by done. rewrite Htname. tauto. }
    exists m2', (if decide (d_inode n = d_inode o) then set_nlink oi (u64 (nlink ni - 1)) else oi). split.
    + rewrite lookup_insert_ne by apply Hndirs. by rewrite lookup_insert_eq.
    + by apply entries_ok_remove.
    + intros (x & Hx & Hin)%list_elem_of_fmap. apply Hsub in Hin as [_ Hin]. congruence.
    + unfold m2'. rewrite dir_map_remove by done. by rewrite Htname.
    + exact Hsub.
    + done.
    + destruct (decide (d_inode n = d_inode o)) as [E|E].
      * rewrite E, lookup_insert_eq. assert (ni = oi) as -> by congruence. done.
      * rewrite lookup_insert_ne by done. rewrite lookup_insert_ne by (apply not_eq_sym, Hodirs). done.
    + intros x Hx1 Hx2. by rewrite !lookup_insert_ne.
    + intros x. rewrite links_insert, (links_same _ new_dir m2) by done. unfold unlinked. case_decide as Hx.
      * subst. rewrite decide_True by done. unfold links. by rewrite Eni.
      * by rewrite decide_False by tauto.
  - apply find_entry_None in Et as Hnm. exists m2, oi. split; try done.
    + symmetry. apply delete_id. rewrite dir_map_lookup by done. by rewrite Et.
    + intros x. split; [|by intros [? _]]. intros Hx. split; [done|]. intros Hx2. apply Hnm. rewrite <- Hx2. by apply list_elem_of_fmap_2.
    + intros x. unfold unlinked. rewrite decide_False; [done|]. intros [Hz _]. by apply Hz, Hnew.
Qed.

(** The names of a directory. *)
Definition names (s : tst) (x : Z) : option (gmap (list Z) Z) := dir_map <$> inodes s !! x.

(** The directories after a failed and after a successful move. *)
Definition lost (old_dir new_dir : Z) (n : dentry) (m1 m2 : inode) (s' : tst) : Prop :=
  names s' new_dir = Some (delete (d_name n) (dir_map m2)) /\
  (old_dir <> new_dir -> names s' old_dir = Some (dir_map m1)).
Definition moved (old_dir new_dir : Z) (o n : dentry) (oi m1 m2 : inode) (s' : tst) : Prop :=
  if decide (old_dir = new_dir) then names s' new_dir = Some (<[d_name n := ino oi]> (delete (d_name o) (dir_map m2)))
  else names s' old_dir = Some (delete (d_name o) (dir_map m1)) /\ names s' new_dir = Some (<[d_name n := ino oi]> (dir_map m2)) /\
    (S_ISDIR (mode oi) = true -> entries_ok (dir_list oi) -> dotdot ∈ de_name <$> dir_list oi ->
     names s' (d_inode o) = Some (<[dotdot := ino m2]> (dir_map oi))).

Lemma move_same s dir o n oi m1 G m2' oi' e : gone_facts s dir o n oi m1 G m2' oi' -> 0 < next_addr s ->
  e ∈ dir_list m2' -> de_name e = d_name o -> de_ino e = ino oi -> exists err s', rename_move dir dir o n e (with_inodes s G) = Ok (err, s') /\ dentries s' = dentries s /\
    (forall x, x <> dir -> inodes s' !! x = G !! x) /\ (forall x, links (inodes s') x = links G x) /\
    ((err = 0 /\ names s' dir = Some (<[d_name n := ino oi]> (delete (d_name o) (dir_map m1)))) \/
     (err = - ENOMEM /\ names s' dir = Some (delete (d_name n) (dir_map m1)))).
Proof.
  intros [Hnew Hok Hnm Hmap Hsub Hm2 Hoi Hrest _] H0 He Hen Hei. unfold rename_move. rewrite Z.eqb_refl.
  destruct (kalloc_run (with_inodes s G) H0) as [(s1 & E & ->)|[E Ez]]; rewrite (st_step _ _ _ _ _ E).
  { eexists _, _. split; [reflexivity|]. split; [done|]. split; [done|]. split; [done|]. right. split; [done|]. unfold names. cbn. by rewrite Hnew, <- Hmap. }
  rewrite Ez. set (s1 := with_alloc _ _ _). rewrite (st_step _ _ _ _ _ (upd_inode_run s1 dir m2' _ Hnew)).
  eexists _, _. split; [reflexivity|]. split; [done|]. split; [intros x Hx; cbn; by rewrite lookup_insert_ne|].
  split; [intros x; cbn [inodes with_inodes]; by apply (links_same _ dir m2')|]. left. split; [done|].
  unfold names. cbn [inodes with_inodes]. rewrite lookup_insert_eq. cbn [fmap option_fmap option_map]. f_equal.
  destruct (rename_entry_map (dir_list m2') e (d_name n) Hok He Hnm) as [_ Hm]. unfold dir_map at 1. cbn [dir_list set_dir].
  change (fun e0 => if de_id e0 =? de_id e then De (de_id e0) (d_name n) (de_ino e0) else e0) with (rename_entry (de_id e) (d_name n)). rewrite Hm.
  fold (dir_map m2'). rewrite Hmap, Hen, Hei, delete_delete. by rewrite insert_delete_eq.
Qed.

Lemma move_dots s old_dir new_dir x m1 m2 i : inodes s !! old_dir = Some m1 -> inodes s !! new_dir = Some m2 -> inodes s !! x = Some i ->
  x <> old_dir -> x <> new_dir -> old_dir <> new_dir ->
  exists s', rename_dots old_dir new_dir x s = Ok (0, s') /\ dentries s' = dentries s /\
    names s' old_dir = Some (dir_map m1) /\ names s' new_dir = Some (dir_map m2) /\
    (entries_ok (dir_list i) -> dotdot ∈ de_name <$> dir_list i -> names s' x = Some (<[dotdot := ino m2]> (dir_map i))) /\
    (forall y, y <> old_dir -> y <> new_dir -> y <> x -> inodes s' !! y = inodes s !! y) /\
    (forall y, links (inodes s') y = if decide (y = old_dir) then (fun k => u64 (k - 1)) <$> links (inodes s) y
                                     else if decide (y = new_dir) then (fun k => u64 (k + 1)) <$> links (inodes s) y else links (inodes s) y).
Proof.
  intros E1 E2 E3 Hx1 Hx2 Hne. unfold rename_dots. rewrite (st_step _ _ _ _ _ (dir_lookup_run s x i dotdot E3)), (st_step _ _ _ _ _ (get_inode_run s _ _ E2)).
  set (fix_dots := match find_entry (dir_list i) dotdot with Some _ => _ | None => _ end).
  assert (exists I1, fix_dots s = Ok (tt, with_inodes s I1) /\ (forall y, y <> x -> I1 !! y = inodes s !! y) /\
    (entries_ok (dir_list i) -> dotdot ∈ de_name <$> dir_list i -> dir_map <$> I1 !! x = Some (<[dotdot := ino m2]> (dir_map i))) /\
    (forall y, links I1 y = links (inodes s) y)) as (I1 & Ef & Hy & Hd & Hln).
  { unfold fix_dots. destruct (find_entry (dir_list i) dotdot) as [dd|] eqn:Ed.
    - destruct (find_entry_Some _ _ _ Ed) as [Hin Hnm]. eexists. split; [exact (upd_inode_run s x i _ E3)|]. split; [intros y Hy; by rewrite lookup_insert_ne|].
      split; [|intros y; by apply (links_same _ x i)]. intros Ho _. rewrite lookup_insert_eq. cbn [fmap option_fmap option_map]. f_equal.
      change (fun e => if de_id e =? de_id dd then De (de_id e) (de_name e) (ino m2) else e) with (retarget_entry (de_id dd) (ino m2)).
      by rewrite retarget_map, Hnm.
    - exists (inodes s). split; [by destruct s|]. split; [done|]. split; [|done]. intros _ Hin. by apply find_entry_None in Ed. }
  rewrite (st_step _ _ _ _ _ Ef). set (s1 := with_inodes s I1).
  assert (inodes s1 !! old_dir = Some m1) as F1 by (cbn; by rewrite Hy).
  rewrite (st_step _ _ _ _ _ (upd_inode_run s1 old_dir m1 _ F1)). set (s2 := with_inodes s1 _).
  assert (inodes s2 !! new_dir = Some m2) as F2 by (cbn; rewrite lookup_insert_ne by done; by rewrite Hy).
  rewrite (st_step _ _ _ _ _ (upd_inode_run s2 new_dir m2 _ F2)). eexists. split; [reflexivity|]. split; [done|]. unfold names. cbn.
  rewrite lookup_insert_ne, !lookup_insert_eq by done. split; [done|]. split; [done|]. split; [|split].
  - intros Ho Hdd. rewrite !lookup_insert_ne by done. by apply Hd.
  - intros y Hy1 Hy2 Hy3. rewrite !lookup_insert_ne by done. by apply Hy.
  - intros y. rewrite !links_insert, Hln. destruct (decide (y = new_dir)) as [->|].
    + rewrite decide_False by done. unfold links. by rewrite E2.
    + destruct (decide (y = old_dir)) as [->|]; [|done]. unfold links. by rewrite E1.
Qed.

Lemma move_cross s old_dir new_dir o n oi m1 m2 G m2' oi' e : gone_facts s new_dir o n oi m2 G m2' oi' -> 0 < next_addr s ->
  old_dir <> new_dir -> G !! old_dir = Some m1 -> entries_ok (dir_list m1) -> e ∈ dir_list m1 -> de_name e = d_name o ->
  d_inode o <> old_dir -> d_inode o <> new_dir -> d_inode n <> old_dir -> d_inode n <> new_dir ->
  exists err s', rename_move old_dir new_dir o n e (with_inodes s G) = Ok (err, s') /\ dentries s' = dentries s /\
    (forall x, x <> old_dir -> x <> new_dir -> x <> d_inode o -> inodes s' !! x = G !! x) /\
    ((err = 0 /\ moved old_dir new_dir o n oi m1 m2 s' /\ forall x, links (inodes s') x = moved_links (inodes s) old_dir new_dir n oi x) \/
     (err = - ENOMEM /\ lost old_dir new_dir n m1 m2 s' /\ forall x, links (inodes s') x = links G x)).
Proof.
  intros [Hnew Hok Hnm Hmap Hsub [Hnl Hin2] (Hoi & Hdl & Hino & Hmode) Hrest Hlk] H0 Hne Hold Hok1 He Hen Hod1 Hod2 Hnd1 Hnd2. unfold rename_move.
  rewrite (proj2 (Z.eqb_neq _ _) Hne), (st_step _ _ _ _ _ (get_inode_run (with_inodes s G) _ _ Hoi)).
  destruct (dir_add_run (with_inodes s G) new_dir m2' (d_name n) (ino oi') H0 Hnew) as [(a & t & E & _)|(a & t & E & _)]; rewrite (st_step _ _ _ _ _ E); cbn [negb Z.eqb Z.opp].
  { eexists _, _. split; [reflexivity|]. split; [done|]. split; [done|]. right. split; [done|]. split; [|done]. unfold lost, names. cbn. rewrite Hnew, Hold, <- Hmap. done. }
  set (m2a := set_dir m2' _). set (G1 := <[new_dir := m2a]> G). set (s1 := with_inodes _ _).
  assert (inodes s1 = G1) as Es1 by done. unfold tmpfs_dir_remove.
  assert (inodes s1 !! old_dir = Some m1) as Hold1 by (rewrite Es1; unfold G1; by rewrite lookup_insert_ne).
  rewrite (st_step _ _ _ _ _ (upd_inode_run s1 old_dir m1 _ Hold1)). set (m1a := set_dir m1 _). set (s2 := with_inodes s1 _).
  assert (dir_map m1a = delete (d_name o) (dir_map m1)) as Hm1a by (unfold m1a; rewrite dir_map_remove by done; by rewrite Hen).
  assert (dir_map m2a = <[d_name n := ino oi]> (dir_map m2)) as Hm2a by (unfold m2a; rewrite dir_map_add by done; by rewrite Hmap, Hino, insert_delete_eq).
  assert (inodes s2 !! old_dir = Some m1a) as L1 by (cbn [inodes s2 with_inodes]; by rewrite lookup_insert_eq).
  assert (inodes s2 !! new_dir = Some m2a) as L2 by (cbn [inodes s2 with_inodes]; rewrite lookup_insert_ne by done; rewrite Es1; apply lookup_insert_eq).
  assert (forall x, x <> old_dir -> x <> new_dir -> inodes s2 !! x = G !! x) as L3.
  { intros x Hx1 Hx2. cbn [inodes s2 with_inodes]. rewrite lookup_insert_ne by done. rewrite Es1. by apply lookup_insert_ne. }
  assert (forall x, links (inodes s2) x = unlinked (inodes s) n x) as L4.
  { intros x. cbn [inodes s2 with_inodes]. rewrite (links_same _ old_dir m1), Es1 by done. unfold G1. by rewrite (links_same _ new_dir m2'). }
  assert (forall x, x = old_dir \/ x = new_dir -> unlinked (inodes s) n x = links (inodes s) x) as L5.
  { intros x Hx. unfold unlinked. rewrite decide_False; [done|]. intros [_ ->]. by destruct Hx. }
  assert (dentries s2 = dentries s) as Ld by done. assert (ino m2a = ino m2) as Hi2 by done.
  rewrite Hmode. destruct (S_ISDIR (mode oi)) eqn:Edir.
  - destruct (move_dots s2 old_dir new_dir (d_inode o) m1a m2a oi' L1 L2) as (s' & E' & Ed' & N1 & N2 & N3 & N4 & N5); [by rewrite L3|done|done|done|].
    exists 0, s'. split; [exact E'|]. split; [congruence|]. split; [intros x Hx1 Hx2 Hx3; rewrite N4 by done; by apply L3|]. left. split; [done|]. split; cycle 1.
    { intros x. rewrite N5. unfold moved_links. rewrite Edir, (proj2 (Z.eqb_neq _ _) Hne). cbn [negb andb].
      repeat case_decide; rewrite L4; [by rewrite L5 by auto|by rewrite L5 by auto|done]. }
    unfold moved. rewrite decide_False by done. split; [by rewrite N1, Hm1a|]. split; [by rewrite N2, Hm2a|]. intros _ Hoo Hdd. rewrite N3; unfold dir_map; rewrite ?Hdl; [by rewrite Hi2|done|done].
  - eexists _, _. split; [reflexivity|]. split; [done|]. split; [intros x Hx1 Hx2 Hx3; by apply L3|]. left. split; [done|]. split; cycle 1.
    { intros x. rewrite L4. unfold moved_links. by rewrite Edir. }
    unfold moved. rewrite decide_False by done. unfold names. rewrite L1, L2. cbn [fmap option_fmap option_map]. rewrite Hm1a, Hm2a, Edir. done.
Qed.

(** C19: renaming.  On a coherent pair of names [tmpfs_rename] ends.  It is
    refused, and changes nothing, exactly when a file would take the place of a
    directory (-EISDIR), a directory with an entry besides "." and ".." would
    be replaced by another inode (-ENOTEMPTY), or a directory would be moved to
    a directory below itself (-EINVAL), checked in this order.  Otherwise it
    moves the entry: the old name is gone, the new name leads to the inode,
    whatever it led to before, the entry ".." of a directory that changed its
    parent leads to the new one, and the dentries follow; an inode that lost
    the new name has one link less, and when a directory changed its parent
    the old parent has one link less and the new one one more; all other link
    counts are as before.  Renaming an entry to itself changes nothing.
    Without memory the source keeps its name, but an existing target has
    already lost its name and one link.  No other inode changes. *)
Theorem tmpfs_rename_correct s old_dir od new_dir nd o n oi m1 m2 e : rename_ready s old_dir od new_dir nd o n oi m1 m2 e ->
  exists err s', tmpfs_rename old_dir od new_dir nd s = Ok (err, s') /\
    (forall x, x ∉ [old_dir; new_dir; d_inode o; d_inode n] -> inodes s' !! x = inodes s !! x) /\
    ((err <> 0 /\ refused s old_dir new_dir o n oi err /\ s' = s) \/
     (refused s old_dir new_dir o n oi 0 /\
      ((err = 0 /\ old_dir = new_dir /\ d_name o = d_name n /\ s' = s) \/
       (err = 0 /\ moved old_dir new_dir o n oi m1 m2 s' /\
          (forall x, links (inodes s') x = moved_links (inodes s) old_dir new_dir n oi x) /\
          dentries s' = <[nd := Dentry (d_name n) (d_inode o) (Z.land (d_flags n) (cnot 32 DCACHE_NEGATIVE)) (d_parent n)]>
                          (<[od := Dentry (d_name o) 0 (d_flags o) (d_parent o)]> (dentries s))) \/
       (err = - ENOMEM /\ lost old_dir new_dir n m1 m2 s' /\
          (forall x, links (inodes s') x = unlinked (inodes s) n x) /\ dentries s' = dentries s)))).
Proof.
  intros R. pose proof R as [Ho Hn Hod Ho0 Hoi Hm1 Hm2 Hok1 Hok2 He Hino Hnew Hni [Hod1 Hod2] [Hnd1 Hnd2] Hup [Hf0 Hf]].
  unfold tmpfs_rename. rewrite (st_step _ _ _ _ _ (get_dentry_run s od o Ho)), (st_step _ _ _ _ _ (get_dentry_run s nd n Hn)).
  destruct (rename_check_run _ _ _ _ _ _ _ _ _ _ _ R) as (err & E & Herr). rewrite (st_step _ _ _ _ _ E).
  destruct (Z.eqb_spec err 0) as [->|Hne]; cbn [negb].
  2: { exists err, s. split; [done|]. split; [done|]. by left. }
  rewrite (st_step _ _ _ _ _ (dir_lookup_run s old_dir m1 (d_name o) Hm1)), He. destruct (find_entry_Some _ _ _ He) as [Hein Hen].
  destruct (rename_target_run _ _ _ _ _ _ _ _ _ _ _ R) as (b & Eb & Hb). rewrite (st_step _ _ _ _ _ Eb). destruct b.
  { destruct (proj1 Hb eq_refl) as [-> Hnm]. exists 0, s. split; [done|]. split; [done|]. right. split; [done|]. by left. }
  destruct (target_gone_facts _ _ _ _ _ _ _ _ _ _ _ R) as (m2' & oi' & GF). set (G := target_gone s new_dir n m2) in *.
  assert (exists err s', rename_move old_dir new_dir o n e (with_inodes s G) = Ok (err, s') /\ dentries s' = dentries s /\
    (forall x, x <> old_dir -> x <> new_dir -> x <> d_inode o -> inodes s' !! x = G !! x) /\
    ((err = 0 /\ moved old_dir new_dir o n oi m1 m2 s' /\ forall x, links (inodes s') x = moved_links (inodes s) old_dir new_dir n oi x) \/
     (err = - ENOMEM /\ lost old_dir new_dir n m1 m2 s' /\ forall x, links (inodes s') x = links G x))) as (err & s' & Em & Ed & Hx & Hr).
  { destruct (decide (old_dir = new_dir)) as [Heq|Hneq].
    - subst new_dir. assert (m1 = m2) as -> by congruence.
      destruct (move_same s old_dir o n oi m2 G m2' oi' e GF Hf0) as (err & s' & Em & Ed & Hx & Hl & Hr); [apply (gf_sub _ _ _ _ _ _ _ _ _ GF); split; [done|]; intros Hnm; enough (false = true) by done; apply Hb; split; congruence|done|done|].
      exists err, s'. split; [done|]. split; [done|]. split; [intros x ? _ _; by apply Hx|]. unfold moved, lost, moved_links. rewrite decide_True, Z.eqb_refl, andb_false_r by done.
      destruct Hr as [[? ?]|[? ?]]; [left|right]; split_and!; try done. intros x. rewrite Hl. by apply (gf_links _ _ _ _ _ _ _ _ _ GF).
    - assert (G !! old_dir = Some m1) as HG by (rewrite (gf_rest _ _ _ _ _ _ _ _ _ GF); done).
      by apply (move_cross s old_dir new_dir o n oi m1 m2 G m2' oi' e GF). }
  rewrite (st_step _ _ _ _ _ Em).
  assert (forall x, x ∉ [old_dir; new_dir; d_inode o; d_inode n] -> inodes s' !! x = inodes s !! x) as Hrest.
  { intros x Hnx. rewrite !not_elem_of_cons in Hnx. destruct Hnx as (? & ? & ? & ? & _). rewrite Hx by done. by apply (gf_rest _ _ _ _ _ _ _ _ _ GF). }
  destruct Hr as [(-> & Hmv & Hl)|(-> & Hl & Hlk)]; cbn [negb Z.eqb Z.opp].
  - assert (dentries s' !! od = Some o) as Ho' by (by rewrite Ed). unfold unbind_dentry, bind_dentry. rewrite (st_step _ _ _ _ _ (upd_dentry_run s' od o _ Ho')).
    set (s2 := with_dentries s' _). assert (dentries s2 !! nd = Some n) as Hn' by (cbn; rewrite lookup_insert_ne by done; by rewrite Ed).
    rewrite (st_step _ _ _ _ _ (upd_dentry_run s2 nd n _ Hn')). eexists 0, _. split; [reflexivity|]. split; [exact Hrest|]. right. split; [done|]. right; left.
    split; [done|]. split; [exact Hmv|]. split; [exact Hl|]. cbn. by rewrite Ed.
  - eexists _, s'. split; [reflexivity|]. split; [exact Hrest|]. right. split; [done|]. right; right. split; [done|]. split; [done|]. split; [|done].
    intros x. rewrite Hlk. apply (gf_links _ _ _ _ _ _ _ _ _ GF).
Qed.

(** ** A small instance *)

Definition demo_dir (n : Z) (l : list tmpfs_dir_entry) : inode := Inode n 0 S_IFDIR 0 0 0 0 0 0 0 2 true no_fops 1 1 None None 0 l.
Definition demo_file (n : Z) : inode := Inode n 0 S_IFREG 0 0 0 0 0 0 0 1 true tmpfs_file_operations 1 1 None None 0 [].
Definition demo_rename : tst :=
  Tst {[10 := demo_dir 1 [De 30 [97] 2]; 12 := demo_dir 3 [De 31 [98] 4]; 11 := demo_file 2; 13 := demo_file 4]}
    {[20 := Dentry [97] 11 0 0; 21 := Dentry [98] 13 0 22; 22 := Dentry [99] 12 0 0]} ∅ (Ht [[]]) None (Numbers None None None) 100 (fun _ => true) 0 5 (0, 0).

Lemma demo_rename_ready : rename_ready demo_rename 10 20 12 21 (Dentry [97] 11 0 0) (Dentry [98] 13 0 22) (demo_file 2) (demo_dir 1 [De 30 [97] 2]) (demo_dir 3 [De 31 [98] 4]) (De 30 [97] 2).
Proof.
  split; try done; try (by split).
  - by split; cbn; repeat constructor; intros ?%elem_of_nil.
  - by split; cbn; repeat constructor; intros ?%elem_of_nil.
  - right. exists (Dentry [99] 12 0 0). split; [done|]. by left.
  - split; [done|]. by repeat constructor.
Qed.

Lemma tmpfs_rename_correct_witness : exists err s', tmpfs_rename 10 20 12 21 demo_rename = Ok (err, s') /\
  names s' 12 = Some {[ [98] := 2 ]} /\ names s' 10 = Some ∅.
Proof.
  destruct (tmpfs_rename_correct demo_rename 10 20 12 21 _ _ _ _ _ _ demo_rename_ready) as (err & s' & E & _ & _).
  exists err, s'. split; [exact E|]. vm_compute in E. injection E as <- <-. by vm_compute.
Defined.
