(* ===== verification/TmpfsCreate.v ===== *)
(** * tmpfs: creating files

    The invariant of the inode cache and the inode numbers, and what
    [tmpfs_create] does: a new file that lookups find, or nothing, or an inode
    that was freed and is still in the cache. *)

From S2P Require Import Prelude StateM Bitmap Dynarr Devt Hash Tmpfs TmpfsSpec.

Local Open Scope Z_scope.

#[export] Instance inode_hash_laws : HashLaws vfs_inode_hash_fn vfs_inode_eq_fn.
Proof.
  split.
  - intros k. apply wrap_fits. lia.
  - intros [a b] [c d]. unfold vfs_inode_eq_fn. cbn. intros E. zbool. by subst.
Qed.

Lemma inode_eq_iff k k' : vfs_inode_eq_fn k k' = true <-> k = k'.
Proof. destruct k as [a b], k' as [c d]. unfold vfs_inode_eq_fn. cbn. split; [intros E; zbool; by subst|intros [= -> ->]; by rewrite !Z.eqb_refl]. Qed.

(** The key the cache reads through an inode. *)
Definition key_of (s : tst) (x : Z) : option (Z * Z) :=
  i ← inodes s !! x; p ← supers s !! sb i; Some (dev p, ino i).

Lemma get_key_eq s x : vfs_inode_get_key s x = deref (key_of s x).
Proof. unfold vfs_inode_get_key, key_of. destruct (inodes s !! x) as [i|]; [|done]. cbn. by destruct (supers s !! sb i). Qed.

Lemma bucket_find_ext (f g : Z -> outcome (Z * Z)) k b : (forall x, f x = g x) -> bucket_find vfs_inode_eq_fn f k b = bucket_find vfs_inode_eq_fn g k b.
Proof. intros E. induction b as [|x b IH]; cbn; [done|]. rewrite E, IH. done. Qed.

(** Every cached inode is live and in its bucket, keys differ, numbers in use
    are marked, addresses below [next_addr] are taken, names in a directory
    differ. *)
Record fs_ok (s : tst) : Prop := {
  fo_cache : hash_wf vfs_inode_hash_fn (icache s) (key_of s);
  fo_nodup : NoDup (hash_nodes (icache s));
  fo_keys x y k : x ∈ hash_nodes (icache s) -> y ∈ hash_nodes (icache s) -> key_of s x = Some k -> key_of s y = Some k -> x = y;
  fo_bits x i p : x ∈ hash_nodes (icache s) -> inodes s !! x = Some i -> supers s !! sb i = Some p ->
    1 <= ino i < bits (inode_bitmap p) /\ bit_at (arr (inode_bitmap p)) (ino i) = true;
  fo_live x i : inodes s !! x = Some i -> x ∈ hash_nodes (icache s) /\ is_Some (supers s !! sb i);
  fo_bitmap b p : supers s !! b = Some p -> bitmap_arr (inode_bitmap p);
  fo_devs b b' p p' : supers s !! b = Some p -> supers s !! b' = Some p' -> dev p = dev p' -> b = b';
  fo_next : 0 < next_addr s;
  fo_addr x i : inodes s !! x = Some i -> 0 < x < next_addr s;
  fo_ids x i e : inodes s !! x = Some i -> e ∈ dir_list i -> de_id e < next_addr s;
  fo_names x i : inodes s !! x = Some i -> entries_ok (dir_list i)
}.

(** A number that can be handed out without growing the bitmap. *)
Definition free_number (p : super_block) : Prop := exists j, 1 <= j < bits (inode_bitmap p) /\ bit_at (arr (inode_bitmap p)) j = false.

Section create.
Context `{Heap}.

Lemma icache_find_run s b p n : fs_ok s -> supers s !! b = Some p ->
  exists r, (fun s => r ← hash_lookup vfs_inode_hash_fn vfs_inode_eq_fn (icache s) (dev p, n) (vfs_inode_get_key s); Ok (r, s)) s = Ok (r, s) /\
    match r with
    | Some x => x ∈ hash_nodes (icache s) /\ key_of s x = Some (dev p, n)
    | None => forall x, x ∈ hash_nodes (icache s) -> key_of s x <> Some (dev p, n)
    end.
Proof.
  intros Hf Hp. destruct (hash_lookup_spec vfs_inode_hash_fn vfs_inode_eq_fn (icache s) (key_of s) (dev p, n) (fo_cache s Hf)) as (r & E & Hr).
  exists r. split.
  - unfold hash_lookup in *. destruct (deref _) as [b'| |]; [|done|done]. rewrite Ok_bind in *. rewrite (bucket_find_ext _ (fun x => deref (key_of s x))) by (intros; apply get_key_eq). by rewrite E.
  - destruct r as [x|].
    + destruct Hr as (Hx & k' & Ek & Eq). split; [done|]. apply inode_eq_iff in Eq. by subst.
    + intros x Hx Ek. specialize (Hr x _ Hx Ek). by rewrite (proj2 (inode_eq_iff _ _) eq_refl) in Hr.
Qed.

(** ** The steps *)

Lemma alloc_inode_run s b : 0 < next_addr s ->
  (exists t a, tmpfs_alloc_inode b s = Ok (0, with_alloc s a t) /\ next_addr s <= a) \/
  (exists t a, next_addr s < a /\ next_addr s =? 0 = false /\
    tmpfs_alloc_inode b s = Ok (next_addr s, with_inodes (with_alloc s a t) (<[next_addr s := Inode 0 0 0 0 0 0 0 0 0 0 0 false no_fops b 0 None None 0 []]> (inodes s)))).
Proof.
  intros Hn. unfold tmpfs_alloc_inode. destruct (kalloc_run s Hn) as [(s1 & E & ->)|[E H0]]; rewrite (st_step _ _ _ _ _ E).
  { left. eexists _, _. split; [reflexivity|lia]. }
  rewrite H0. set (s1 := with_alloc s (next_addr s + 1) (S (tick s))). assert (0 < next_addr s1) as Hn1 by (cbn; lia).
  destruct (kalloc_run s1 Hn1) as [(s2 & E2 & ->)|[E2 H2]]; rewrite (st_step _ _ _ _ _ E2).
  { left. eexists _, _. split; [reflexivity|]. cbn. lia. }
  rewrite H2. right. exists (S (tick s1)), (next_addr s1 + 1). split; [cbn; lia|]. split; [done|]. done.
Qed.

Lemma alloc_ino_run s b p : supers s !! b = Some p -> bitmap_arr (inode_bitmap p) -> free_number p ->
  exists n d, tmpfs_alloc_ino b s = Ok (Some n, with_supers s (<[b := sb_set_bitmap p d (u32 (inode_count p + 1))]> (supers s))) /\
    bitmap_arr d /\ bits d = bits (inode_bitmap p) /\ 1 <= n < bits d /\ bit_at (arr (inode_bitmap p)) n = false /\
    (forall k, bit_at (arr d) k = (n =? k) || bit_at (arr (inode_bitmap p)) k).
Proof.
  intros Hp Hb (j & Hj & Hf). destruct (take_id_spec (inode_bitmap p) j Hb Hj Hf) as (n & d & E & Hd & Hbits & Hn & Hfree & Hset).
  exists n, d. unfold tmpfs_alloc_ino. rewrite (st_step _ _ _ _ _ (get_super_run s b p Hp)).
  unfold take_id in E. destruct (settle _) as [[r d']| |] eqn:Es; [|done|done]. rewrite Ok_bind in E. simplify_eq.
  assert ((fun s : tst => r ← Ok (Some n, d); Ok (r, s)) s = Ok ((Some n, d), s)) as E1 by done.
  rewrite (st_step _ _ _ _ _ E1), (st_step _ _ _ _ _ (upd_super_run s b p _ Hp)). split_and!; try done; lia.
Qed.

Lemma free_ino_run s b p n : supers s !! b = Some p -> bitmap_arr (inode_bitmap p) -> 1 <= n < bits (inode_bitmap p) ->
  exists d, tmpfs_free_ino b n s = Ok (tt, with_supers s (<[b := sb_set_bitmap p d (u32 (inode_count p - 1))]> (supers s))) /\
    bitmap_arr d /\ bits d = bits (inode_bitmap p) /\ (forall k, bit_at (arr d) k = negb (n =? k) && bit_at (arr (inode_bitmap p)) k).
Proof.
  intros Hp Hb Hn. destruct (bitmap_arr_bits _ Hb) as (_ & Hc & Hbits). assert (fits 32 n) as Hfit by (unfold fits, bits in *; lia).
  destruct (give_id_spec (inode_bitmap p) n Hb) as (d & E & Hd & Hbd & Hclr); [lia|]. exists d. unfold tmpfs_free_ino.
  rewrite (proj2 (Z.eqb_neq _ _)), (st_step _ _ _ _ _ (get_super_run s b p Hp)) by lia. rewrite wrap_small by done.
  unfold give_id in E. destruct (dynarr_bitmap_free _ _) as [d'| |] eqn:Ef; [|done|done]. rewrite Ok_bind in E. simplify_eq.
  assert ((fun s : tst => d ← Ok d; Ok (d, s)) s = Ok (d, s)) as E1 by done.
  rewrite (st_step _ _ _ _ _ E1). by rewrite (upd_super_run s b p _ Hp).
Qed.

(** A fresh inode in the state [s1], whose super block marked its number. *)
Definition fresh_inode (s : tst) (n mo b : Z) : inode :=
  Inode n 0 mo (fst (current_ugid s)) (snd (current_ugid s)) 0 (now s) (now s) (now s) 0 0 false no_fops b 0 None None 0 [].

(** What allocation and initialisation of an inode leave behind: the inode
    [ix] at [x], whose number is marked, is in the cache. *)
Record inode_made (s s' : tst) (x : Z) (ix : inode) (b : Z) (p : super_block) (d : dynarr_t) : Prop := {
  im_x : x = next_addr s;
  im_inodes : inodes s' = <[x := ix]> (inodes s);
  im_dentries : dentries s' = dentries s;
  im_supers : supers s' = <[b := sb_set_bitmap p d (u32 (inode_count p + 1))]> (supers s);
  im_nodes : hash_nodes (icache s') ≡ₚ x :: hash_nodes (icache s);
  im_cache : hash_wf vfs_inode_hash_fn (icache s') (key_of s');
  im_next : x < next_addr s';
  im_ix : sb ix = b /\ pages ix = None /\ dir_list ix = [];
  im_bitmap : bitmap_arr d /\ bits d = bits (inode_bitmap p);
  im_ino : 1 <= ino ix < bits d /\ bit_at (arr (inode_bitmap p)) (ino ix) = false;
  im_bits k : bit_at (arr d) k = (ino ix =? k) || bit_at (arr (inode_bitmap p)) k;
  im_anon : anon s' = anon s
}.

Lemma hash_wf_ext ht (f g : Z -> option (Z * Z)) : (forall x, x ∈ hash_nodes ht -> g x = f x) -> hash_wf vfs_inode_hash_fn ht f -> hash_wf vfs_inode_hash_fn ht g.
Proof.
  intros Hfg [Hp Hk]. split; [done|]. intros i b x Eb Hx. rewrite Hfg by (apply hash_nodes_elem; by eexists _, _). by eapply Hk.
Qed.

Lemma make_inode_run s b p mo : fs_ok s -> supers s !! b = Some p -> free_number p ->
  (exists a t, tmpfs_alloc_inode b s = Ok (0, with_alloc s a t) /\ next_addr s <= a) \/
  (exists x n d s0 s', tmpfs_alloc_inode b s = Ok (x, s0) /\ x =? 0 = false /\ tmpfs_inode_init x b mo s0 = Ok (0, s') /\ inode_made s s' x (fresh_inode s n mo b) b p d).
Proof.
  intros Hf Hp Hfree. destruct (alloc_inode_run s b (fo_next s Hf)) as [(t & a & E & Ha)|(t & a & Ha & H0 & E)]; [left; by eexists _, _|right].
  set (x := next_addr s) in *. set (s0 := with_inodes _ _) in E. assert (supers s0 !! b = Some p) as Hp0 by done.
  destruct (alloc_ino_run s0 b p Hp0 (fo_bitmap s Hf b p Hp) Hfree) as (n & d & En & Hd & Hbits & Hn & Hbit & Hset).
  set (s1 := with_supers _ _) in En. set (i0 := Inode 0 0 0 0 0 0 0 0 0 0 0 false no_fops b 0 None None 0 []) in *.
  assert (inodes s1 !! x = Some i0) as Ex by (cbn; by rewrite lookup_insert_eq).
  set (s2 := with_inodes s1 (<[x := fresh_inode s n mo b]> (inodes s1))).
  assert (inodes s2 = <[x := fresh_inode s n mo b]> (inodes s)) as Ei2 by (cbn; by rewrite insert_insert_eq).
  assert (forall y, inodes s !! y <> None -> key_of s2 y = key_of s y) as Hkeys.
  { intros y Hy. destruct (inodes s !! y) as [iy|] eqn:Ey; [|done]. assert (y <> x) as Hyx by (pose proof (fo_addr s Hf y iy Ey); unfold x; lia).
    unfold key_of. rewrite Ei2, lookup_insert_ne, Ey by done. cbn. destruct (decide (sb iy = b)) as [->|Hb].
    - by rewrite lookup_insert_eq, Hp.
    - by rewrite lookup_insert_ne. }
  assert (key_of s2 x = Some (dev p, n)) as Hkx by (unfold key_of; rewrite Ei2, lookup_insert_eq; cbn; by rewrite lookup_insert_eq).
  assert (hash_wf vfs_inode_hash_fn (icache s) (key_of s2)) as Hw2.
  { eapply hash_wf_ext; [|exact (fo_cache s Hf)]. intros y Hy. apply Hkeys. apply hash_nodes_elem in Hy as (j & bk & Ej & Hy).
    destruct (hw_keys _ _ _ (fo_cache s Hf) j bk y Ej Hy) as (k & Ek & _). unfold key_of in Ek. by destruct (inodes s !! y). }
  destruct (hash_add_spec vfs_inode_hash_fn (icache s) (key_of s2) x (dev p, n) Hw2 Hkx) as (ht & Eadd & Hwt & Hperm).
  exists x, n, d, s0, (with_icache s2 ht). split; [done|]. split; [done|]. split.
  - unfold tmpfs_inode_init. rewrite st_gets_step. change (current_ugid s0) with (current_ugid s). destruct (current_ugid s) as [u g] eqn:Eug.
    rewrite (st_step _ _ _ _ _ En), st_gets_step, (st_step _ _ _ _ _ (upd_inode_run s1 x i0 _ Ex)).
    assert (vfs_icache_add x s2 = Ok (tt, with_icache s2 ht)) as Eic.
    { unfold vfs_icache_add. rewrite get_key_eq, Hkx. cbn [deref]. rewrite Ok_bind. change (icache s2) with (icache s). by rewrite Eadd. }
    replace (with_inodes s1 _) with s2; [by rewrite (st_step _ _ _ _ _ Eic)|]. unfold s2, fresh_inode. rewrite Eug. done.
  - split; try done; cbn; lia.
Qed.

Lemma drop_inode_run s x b i p : inodes s !! x = Some i -> pages i = None -> sb i = b -> supers s !! b = Some p ->
  bitmap_arr (inode_bitmap p) -> 1 <= ino i < bits (inode_bitmap p) ->
  exists s' d, drop_inode x b s = Ok (tt, s') /\ inodes s' = delete x (inodes s) /\ dentries s' = dentries s /\ icache s' = icache s /\ anon s' = anon s /\
    supers s' = <[b := sb_set_bitmap (sb_set_inodes p (filter (fun y => y <> x) (sb_inodes p))) d (u32 (inode_count p - 1))]> (supers s) /\
    (forall k, bit_at (arr d) k = negb (ino i =? k) && bit_at (arr (inode_bitmap p)) k) /\ next_addr s' = next_addr s.
Proof.
  intros Hx Hpg Hsb Hp Hb Hn. unfold drop_inode. rewrite (st_step _ _ _ _ _ (upd_super_run s b p _ Hp)).
  set (p1 := sb_set_inodes p _). set (s1 := with_supers s _). assert (inodes s1 !! x = Some i) as Hx1 by done.
  assert (exists i', (if S_ISDIR (mode i) then upd_inode x (fun i => set_dir i []) else mret tt) s1 = Ok (tt, with_inodes s1 (<[x := i']> (inodes s1)))) as [i' Ei].
  { destruct (S_ISDIR (mode i)); [exists (set_dir i []); by rewrite (upd_inode_run s1 x i _ Hx1)|exists i; cbn; rewrite insert_id by done; by destruct s]. }
  set (s2 := with_inodes s1 _) in Ei. assert (supers s2 !! b = Some p1) as Hp2 by (cbn; apply lookup_insert_eq).
  destruct (free_ino_run s2 b p1 (ino i) Hp2 Hb Hn) as (d & Ef & _ & _ & Hclr). set (s3 := with_supers s2 _) in Ef.
  assert (tmpfs_evict_inode x s1 = Ok (tt, s3)) as Eev.
  { unfold tmpfs_evict_inode. rewrite (st_step _ _ _ _ _ (get_inode_run s1 x i Hx1)), Hpg, st_ret_step, (st_step _ _ _ _ _ Ei). unfold tmpfs_free_pages. cbn [Z.eqb negb].
    rewrite st_ret_step, Hsb. exact Ef. }
  rewrite (st_step _ _ _ _ _ Eev). unfold tmpfs_destroy_inode.
  assert (inodes s3 !! x = Some i') as Hx3 by (cbn; apply lookup_insert_eq). rewrite (st_step _ _ _ _ _ (get_inode_run s3 x i' Hx3)).
  eexists _, d. split; [reflexivity|]. cbn. split; [by rewrite delete_insert_eq|]. split; [done|]. split; [done|]. split; [done|]. split; [by rewrite insert_insert_eq|]. done.
Qed.

(** The new name in its directory, or why not. *)
Lemma enter_name_run s dir d x i ix e : 0 < next_addr s -> inodes s !! dir = Some i -> inodes s !! x = Some ix -> dentries s !! d = Some e ->
  exists err s', enter_name dir d x s = Ok (err, s') /\
    ((err = 0 /\ find_entry (dir_list i) (d_name e) = None /\ exists a t, next_addr s < a /\
        s' = with_inodes (with_alloc s a t) (<[dir := set_dir i (dir_list i ++ [De (next_addr s) (d_name e) (ino ix)])]> (inodes s))) \/
     ((err = - EEXIST /\ is_Some (find_entry (dir_list i) (d_name e)) \/ err = - ENOMEM /\ find_entry (dir_list i) (d_name e) = None) /\
        exists a t, next_addr s <= a /\ s' = with_alloc s a t)).
Proof.
  intros Hn Hi Hx He. unfold enter_name. rewrite (st_step _ _ _ _ _ (get_dentry_run s d e He)), (st_step _ _ _ _ _ (dir_lookup_run s dir i _ Hi)).
  destruct (find_entry (dir_list i) (d_name e)) as [t|] eqn:Ef.
  - exists (- EEXIST), s. split; [done|]. right. split; [left; by split|]. exists (next_addr s), (tick s). split; [lia|by destruct s].
  - rewrite (st_step _ _ _ _ _ (get_inode_run s x ix Hx)).
    destruct (dir_add_run s dir i (d_name e) (ino ix) Hn Hi) as [(a & t & E & Ha)|(a & t & E & Ha)]; rewrite E.
    + eexists _, _. split; [reflexivity|]. right. split; [by right|]. by exists a, t.
    + eexists _, _. split; [reflexivity|]. left. split; [done|]. split; [done|]. by exists a, t.
Qed.

(** The fields of the new inode are set, and memory is asked for. *)
Lemma inode_made_upd s s1 x ix b p d f : inode_made s s1 x ix b p d -> sb (f ix) = sb ix -> pages (f ix) = pages ix -> dir_list (f ix) = dir_list ix -> ino (f ix) = ino ix ->
  exists s2, upd_inode x f s1 = Ok (tt, s2) /\ inode_made s s2 x (f ix) b p d.
Proof.
  intros [Hx Hi Hd Hs Hn Hc Hnx (Hsb & Hpg & Hdl) Hb Hino Hbits] E1 E2 E3 E4.
  assert (inodes s1 !! x = Some ix) as Ex by (rewrite Hi; apply lookup_insert_eq). eexists. split; [exact (upd_inode_run s1 x ix f Ex)|].
  split; try done; cbn [inodes with_inodes]; rewrite ?E1, ?E2, ?E3, ?E4; try done; [by rewrite Hi, insert_insert_eq|].
  eapply hash_wf_ext; [|exact Hc]. intros y _. unfold key_of. cbn [inodes supers with_inodes]. destruct (decide (y = x)) as [->|Hy].
  - rewrite lookup_insert_eq, Ex. cbn. by rewrite E1, E4.
  - by rewrite lookup_insert_ne.
Qed.

Lemma inode_made_alloc s s1 x ix b p d a t : inode_made s s1 x ix b p d -> next_addr s1 <= a -> inode_made s (with_alloc s1 a t) x ix b p d.
Proof. intros [Hx Hi Hd Hs Hn Hc Hnx Hix Hb Hino Hbits] Ha. split; try done. cbn. lia. Qed.

(** The outcomes of making a node with the name of [e] in [dir]: it is there
    and the invariant holds; or all is as it was, but the cache leads to the
    inode that was freed. *)
Definition node_made (s s' : tst) (dir dd : Z) (i : inode) (e : dentry) (p : super_block) (x : Z) (ix : inode) : Prop :=
  fs_ok s' /\ inodes s !! x = None /\ inodes s' !! x = Some ix /\ find_entry (dir_list i) (d_name e) = None /\
  (exists id, inodes s' !! dir = Some (set_dir i (dir_list i ++ [De id (d_name e) (ino ix)]))) /\
  (forall y, y <> dir -> y <> x -> inodes s' !! y = inodes s !! y) /\
  dentries s' = <[dd := Dentry (d_name e) x (Z.land (d_flags e) (cnot 32 DCACHE_NEGATIVE)) (d_parent e)]> (dentries s) /\
  (exists p', supers s' !! sb i = Some p' /\ sb_inodes p' = sb_inodes p ++ [x] /\ dev p' = dev p).
Definition node_undone (s s' : tst) (b : Z) (p : super_block) (x : Z) : Prop :=
  inodes s' = inodes s /\ dentries s' = dentries s /\ inodes s !! x = None /\ hash_nodes (icache s') ≡ₚ x :: hash_nodes (icache s) /\
  exists p', supers s' = <[b := p']> (supers s) /\ sb_inodes p' = filter (fun y => y <> x) (sb_inodes p) /\
    (forall k, bit_at (arr (inode_bitmap p')) k = bit_at (arr (inode_bitmap p)) k).

(** Inodes and super blocks change in what the invariant does not speak of. *)
Definition same_inode (lim : Z) (i j : inode) : Prop :=
  ino j = ino i /\ sb j = sb i /\ entries_ok (dir_list j) /\ Forall (fun e => de_id e < lim) (dir_list j).
Definition same_super (p q : super_block) : Prop := dev q = dev p /\ inode_bitmap q = inode_bitmap p.

Lemma fs_ok_alter s s' : fs_ok s -> icache s' = icache s -> next_addr s <= next_addr s' ->
  (forall x, option_Forall2 (same_inode (next_addr s')) (inodes s !! x) (inodes s' !! x)) ->
  (forall b, option_Forall2 same_super (supers s !! b) (supers s' !! b)) -> fs_ok s'.
Proof.
  intros Hf Hc Hn HI HS.
  assert (forall x j, inodes s' !! x = Some j -> exists i, inodes s !! x = Some i /\ same_inode (next_addr s') i j) as Hi.
  { intros x j Ej. specialize (HI x). rewrite Ej in HI. inversion HI; subst. by eexists. }
  assert (forall b q, supers s' !! b = Some q -> exists p, supers s !! b = Some p /\ same_super p q) as Hs.
  { intros b q Eq. specialize (HS b). rewrite Eq in HS. inversion HS; subst. by eexists. }
  assert (forall x, key_of s' x = key_of s x) as Hk.
  { intros x. unfold key_of. specialize (HI x). inversion HI as [i j (Ei & Es & _) E1 E2|E1 E2]; [|done]. cbn. rewrite Es. specialize (HS (sb i)).
    inversion HS as [p q [Ed _] F1 F2|F1 F2]; [|done]. cbn. by rewrite Ed, Ei. }
  split; rewrite ?Hc.
  - eapply hash_wf_ext; [|exact (fo_cache s Hf)]. intros x _. apply Hk.
  - apply (fo_nodup s Hf).
  - intros x y k. rewrite !Hk. apply (fo_keys s Hf).
  - intros x j q Hx Ej Eq. destruct (Hi x j Ej) as (i & Ei & Eo & Es & _). rewrite Es in Eq. destruct (Hs _ q Eq) as (p & Ep & _ & Eb). rewrite Eb, Eo. by apply (fo_bits s Hf x i p).
  - intros x j Ej. destruct (Hi x j Ej) as (i & Ei & _ & Es & _). destruct (fo_live s Hf x i Ei) as [Hin [p Hp]]. split; [done|]. rewrite Es. specialize (HS (sb i)).
    rewrite Hp in HS. inversion HS; subst. by eexists.
  - intros b q Eq. destruct (Hs b q Eq) as (p & Ep & _ & ->). by apply (fo_bitmap s Hf b).
  - intros b b' q q' Eq Eq' Ed. destruct (Hs b q Eq) as (p & Ep & Dp & _). destruct (Hs b' q' Eq') as (p' & Ep' & Dp' & _). apply (fo_devs s Hf b b' p p' Ep Ep'). congruence.
  - pose proof (fo_next s Hf). lia.
  - intros x j Ej. destruct (Hi x j Ej) as (i & Ei & _). pose proof (fo_addr s Hf x i Ei). lia.
  - intros x j e Ej He. destruct (Hi x j Ej) as (i & _ & _ & _ & _ & Hfa). rewrite Forall_forall in Hfa. by apply Hfa.
  - intros x j Ej. by destruct (Hi x j Ej) as (i & _ & _ & _ & ? & _).
Qed.

Lemma same_inode_refl s s' x : fs_ok s -> next_addr s <= next_addr s' -> option_Forall2 (same_inode (next_addr s')) (inodes s !! x) (inodes s !! x).
Proof.
  intros Hf Hn. destruct (inodes s !! x) as [i|] eqn:Ei; constructor. split; [done|]. split; [done|]. split; [by apply (fo_names s Hf x)|].
  apply Forall_forall. intros e He. pose proof (fo_ids s Hf x i e Ei He). lia.
Qed.

Lemma cached_live s x : fs_ok s -> x ∈ hash_nodes (icache s) -> exists i p, inodes s !! x = Some i /\ supers s !! sb i = Some p /\ key_of s x = Some (dev p, ino i).
Proof.
  intros Hf Hx. apply hash_nodes_elem in Hx as (k & bk & Ek & Hx). destruct (hw_keys _ _ _ (fo_cache s Hf) k bk x Ek Hx) as (kk & Ekk & _).
  unfold key_of in *. destruct (inodes s !! x) as [i|]; [|done]. cbn in *. destruct (supers s !! sb i) as [p|] eqn:Ep; [|done]. by exists i, p.
Qed.

(** A new inode keeps the invariant. *)
Lemma fs_ok_made s s1 x ix b p d : fs_ok s -> supers s !! b = Some p -> inode_made s s1 x ix b p d -> fs_ok s1.
Proof.
  intros Hf Hp [Hx Him Hd Hs Hn Hc Hnx (Hsb & Hpg & Hdl) [Hb Hbb] [Hino Hbit] Hbits].
  assert (inodes s !! x = None) as Hxn. { destruct (inodes s !! x) as [j|] eqn:E; [|done]. pose proof (fo_addr s Hf x j E). lia. }
  assert (forall y j, inodes s1 !! y = Some j -> (y = x /\ j = ix) \/ (y <> x /\ inodes s !! y = Some j)) as Hcases.
  { intros y j. rewrite Him. destruct (decide (y = x)) as [->|Hy]; [rewrite lookup_insert_eq; intros [= <-]; by left|]. rewrite lookup_insert_ne by done. by right. }
  assert (forall b0 q, supers s1 !! b0 = Some q -> exists q0, supers s !! b0 = Some q0 /\ dev q = dev q0 /\ bitmap_arr (inode_bitmap q) /\ bits (inode_bitmap q) = bits (inode_bitmap q0) /\
    (forall k, bit_at (arr (inode_bitmap q0)) k = true -> bit_at (arr (inode_bitmap q)) k = true)) as Hsup.
  { intros b0 q. rewrite Hs. destruct (decide (b0 = b)) as [->|Hb0].
    - rewrite lookup_insert_eq. intros [= <-]. exists p. split_and!; try done. intros k Hk. cbn. rewrite Hbits, Hk. by destruct (_ =? _).
    - rewrite lookup_insert_ne by done. intros Eq. exists q. split_and!; try done. by apply (fo_bitmap s Hf b0). }
  assert (forall y j, inodes s !! y = Some j -> key_of s1 y = key_of s y) as Hk0.
  { intros y j Ej. assert (y <> x) by (intros ->; congruence). unfold key_of. rewrite Him, lookup_insert_ne, Ej, Hs by done. cbn. destruct (decide (sb j = b)) as [->|Hne]; [by rewrite lookup_insert_eq, Hp|by rewrite lookup_insert_ne]. }
  assert (key_of s1 x = Some (dev p, ino ix)) as Hkx by (unfold key_of; rewrite Him, lookup_insert_eq, Hs; cbn; by rewrite Hsb, lookup_insert_eq).
  assert (forall y, y ∈ hash_nodes (icache s) -> key_of s1 y <> Some (dev p, ino ix)) as Hnew.
  { intros y Hy Ek. destruct (cached_live s y Hf Hy) as (j & q & Ej & Eq & Ekey). rewrite (Hk0 y j Ej), Ekey in Ek. injection Ek as Edev Eino.
    assert (sb j = b) as Esb by (by apply (fo_devs s Hf _ _ q p)). rewrite Esb in Eq. assert (q = p) as -> by congruence.
    destruct (fo_bits s Hf y j p Hy Ej) as [_ Hset]; [by rewrite Esb|]. rewrite Eino in Hset. congruence. }
  split.
  - exact Hc.
  - rewrite Hn. apply NoDup_cons. split; [|apply (fo_nodup s Hf)]. intros Hin. destruct (cached_live s x Hf Hin) as (j & _ & Ej & _). congruence.
  - intros y z k. rewrite Hn, !elem_of_cons. intros [->|Hy] [->|Hz] Ey Ez; [done|exfalso; apply (Hnew z Hz); congruence|exfalso; apply (Hnew y Hy); congruence|].
    destruct (cached_live s y Hf Hy) as (jy & _ & Ejy & _). destruct (cached_live s z Hf Hz) as (jz & _ & Ejz & _). rewrite (Hk0 y jy Ejy) in Ey. rewrite (Hk0 z jz Ejz) in Ez. by apply (fo_keys s Hf y z k).
  - intros y j q Hy Ej Eq. destruct (Hcases y j Ej) as [[-> ->]|[Hyx Ej0]].
    + rewrite Hs, Hsb, lookup_insert_eq in Eq. injection Eq as <-. cbn. split; [lia|]. by rewrite Hbits, Z.eqb_refl.
    + rewrite Hn, elem_of_cons in Hy. destruct Hy as [->|Hy]; [done|]. destruct (Hsup _ q Eq) as (q0 & Eq0 & _ & _ & Hbq & Hmono).
      destruct (fo_bits s Hf y j q0 Hy Ej0 Eq0) as [Hr Hset]. rewrite Hbq. split; [done|by apply Hmono].
  - intros y j Ej. rewrite Hn, elem_of_cons, Hs. destruct (Hcases y j Ej) as [[-> ->]|[_ Ej0]]; [split; [by left|]; by rewrite Hsb, lookup_insert_eq|].
    destruct (fo_live s Hf y j Ej0) as [Hin Hq]. split; [by right|]. destruct (decide (sb j = b)) as [->|Hne]; [by rewrite lookup_insert_eq|by rewrite lookup_insert_ne].
  - intros b0 q Eq. by destruct (Hsup b0 q Eq) as (_ & _ & _ & ? & _).
  - intros b0 b1 q q' Eq Eq' Edev. destruct (Hsup b0 q Eq) as (q0 & E0 & D0 & _). destruct (Hsup b1 q' Eq') as (q1 & E1 & D1 & _). apply (fo_devs s Hf b0 b1 q0 q1 E0 E1). congruence.
  - pose proof (fo_next s Hf). lia.
  - intros y j Ej. pose proof (fo_next s Hf). destruct (Hcases y j Ej) as [[-> ->]|[_ Ej0]]; [lia|]. pose proof (fo_addr s Hf y j Ej0). lia.
  - intros y j e0 Ej He0. destruct (Hcases y j Ej) as [[-> ->]|[_ Ej0]]; [rewrite Hdl in He0; by apply elem_of_nil in He0|]. pose proof (fo_ids s Hf y j e0 Ej0 He0). lia.
  - intros y j Ej. destruct (Hcases y j Ej) as [[-> ->]|[_ Ej0]]; [rewrite Hdl; by repeat constructor|by apply (fo_names s Hf y)].
Qed.

(** A new name keeps the invariant. *)
Lemma fs_ok_enter s s' dir i id name n : fs_ok s -> inodes s !! dir = Some i -> find_entry (dir_list i) name = None -> next_addr s <= id < next_addr s' ->
  icache s' = icache s -> inodes s' = <[dir := set_dir i (dir_list i ++ [De id name n])]> (inodes s) ->
  (forall b, option_Forall2 same_super (supers s !! b) (supers s' !! b)) -> fs_ok s'.
Proof.
  intros Hf Hi Hnone Hid Hc HI HS. apply (fs_ok_alter s); [done|done|lia| |done]. intros y. rewrite HI. destruct (decide (y = dir)) as [->|Hy].
  - rewrite lookup_insert_eq, Hi. constructor. split; [done|]. split; [done|]. cbn. split.
    + apply entries_ok_add; [by apply (fo_names s Hf dir)|by apply find_entry_None|]. intros (e0 & Eid & He0)%list_elem_of_fmap. pose proof (fo_ids s Hf dir i e0 Hi He0). lia.
    + apply Forall_app. split; [|constructor; [cbn; lia|done]]. apply Forall_forall. intros e He. pose proof (fo_ids s Hf dir i e Hi He). lia.
  - rewrite lookup_insert_ne by done. apply same_inode_refl; [done|lia].
Qed.

Lemma same_super_refl o : option_Forall2 same_super o o.
Proof. destruct o; by constructor. Qed.

Lemma same_super_insert (m : gmap Z super_block) b p q : m !! b = Some p -> same_super p q -> forall b', option_Forall2 same_super (m !! b') (<[b := q]> m !! b').
Proof.
  intros Hp Hq b'. destruct (decide (b' = b)) as [->|Hb]; [rewrite lookup_insert_eq, Hp; by constructor|]. rewrite lookup_insert_ne by done. apply same_super_refl.
Qed.

Lemma made_ok s s1 dir i e p x ix d id a t f : fs_ok s -> inodes s !! dir = Some i -> supers s !! sb i = Some p ->
  inode_made s s1 x ix (sb i) p d -> find_entry (dir_list i) (d_name e) = None -> next_addr s1 <= id < a ->
  fs_ok (with_dentries (with_inodes (with_alloc (with_supers s1 (<[sb i := sb_set_inodes (sb_set_bitmap p d (u32 (inode_count p + 1))) (sb_inodes p ++ [x])]> (supers s1))) a t)
    (<[dir := set_dir i (dir_list i ++ [De id (d_name e) (ino ix)])]> (inodes s1))) f).
Proof.
  intros Hf Hi Hp IM Hnone Hid. assert (dir <> x) as Hdx. { intros ->. pose proof (fo_addr s Hf x i Hi). pose proof (im_x _ _ _ _ _ _ _ IM). lia. }
  eapply (fs_ok_enter s1 _ dir i id (d_name e) (ino ix)); [by apply (fs_ok_made s s1 x ix (sb i) p d)| |done|exact Hid|done|done|].
  - rewrite (im_inodes _ _ _ _ _ _ _ IM), lookup_insert_ne by done. exact Hi.
  - eapply same_super_insert; [rewrite (im_supers _ _ _ _ _ _ _ IM); apply lookup_insert_eq|done].
Qed.

Lemma link_node_run s s1 dir dd i e p x ix d : fs_ok s -> inodes s !! dir = Some i -> dentries s !! dd = Some e -> supers s !! sb i = Some p ->
  inode_made s s1 x ix (sb i) p d ->
  exists err s', link_node dir dd x (sb i) s1 = Ok (err, s') /\
    ((err = 0 /\ node_made s s' dir dd i e p x ix) \/
     ((err = - EEXIST /\ is_Some (find_entry (dir_list i) (d_name e)) \/ err = - ENOMEM /\ find_entry (dir_list i) (d_name e) = None) /\ node_undone s s' (sb i) p x)).
Proof.
  intros Hf Hi He Hp IM. pose proof IM as [Hx Him Hd Hs Hn Hc Hnx (Hsb & Hpg & Hdl) [Hb Hbb] [Hino Hbit] Hbits].
  assert (inodes s !! x = None) as Hxn. { destruct (inodes s !! x) as [j|] eqn:E; [|done]. pose proof (fo_addr s Hf x j E). lia. }
  assert (dir <> x) as Hdx by (intros ->; congruence).
  unfold link_node, sb_link. set (p1 := sb_set_bitmap p d (u32 (inode_count p + 1))) in *.
  assert (supers s1 !! sb i = Some p1) as Hp1 by (rewrite Hs; apply lookup_insert_eq).
  rewrite (st_step _ _ _ _ _ (upd_super_run s1 (sb i) p1 _ Hp1)). set (s2 := with_supers s1 _).
  assert (inodes s2 !! dir = Some i) as Hi2 by (cbn; rewrite Him; by rewrite lookup_insert_ne).
  assert (inodes s2 !! x = Some ix) as Hx2 by (cbn; rewrite Him; apply lookup_insert_eq).
  assert (dentries s2 !! dd = Some e) as He2 by (cbn; by rewrite Hd).
  assert (0 < next_addr s2) as Hn2 by (cbn; pose proof (fo_next s Hf); lia).
  destruct (enter_name_run s2 dir dd x i ix e Hn2 Hi2 Hx2 He2) as (err & s3 & E3 & [(-> & Hnone & a & t & Ha & ->)|(Herr & a & t & Ha & ->)]); rewrite (st_step _ _ _ _ _ E3).
  - cbn [negb Z.eqb]. set (s3 := with_inodes _ _). assert (dentries s3 !! dd = Some e) as He3 by done. unfold bind_dentry.
    rewrite (st_step _ _ _ _ _ (upd_dentry_run s3 dd e _ He3)). eexists 0, _. split; [reflexivity|]. left. split; [done|].
    split; [apply (made_ok s s1 dir i e p x ix d); try done; cbn in Ha |- *; lia|]. split; [done|].
    split; [cbn; by rewrite lookup_insert_ne, Him, lookup_insert_eq by done|]. split; [done|]. split; [eexists; cbn; by rewrite lookup_insert_eq|].
    split; [intros y Hy1 Hy2; cbn; rewrite lookup_insert_ne, Him by done; by rewrite lookup_insert_ne|]. split; [cbn; by rewrite Hd|].
    eexists. split; [cbn; apply lookup_insert_eq|]. done.
  - assert (err =? 0 = false) as -> by (by destruct Herr as [[-> _]|[-> _]]). cbn [negb]. set (s3 := with_alloc s2 a t).
    assert (supers s3 !! sb i = Some (sb_set_inodes p1 (sb_inodes p1 ++ [x]))) as Hp3 by (cbn; apply lookup_insert_eq).
    destruct (drop_inode_run s3 x (sb i) ix _ Hx2 Hpg Hsb Hp3 Hb Hino) as (s4 & d4 & E4 & I4 & D4 & C4 & _ & S4 & B4 & _). rewrite (st_step _ _ _ _ _ E4).
    exists err, s4. split; [done|]. right. split; [done|]. split; [rewrite I4; cbn; rewrite Him; by rewrite delete_insert_id|]. split; [by rewrite D4|]. split; [done|]. split; [by rewrite C4|].
    eexists. split; [rewrite S4; cbn; by rewrite Hs, !insert_insert_eq|]. cbn. split.
    + rewrite filter_app, filter_cons_False by (intros Hq; by apply Hq). by rewrite app_nil_r.
    + intros k. rewrite B4. cbn. rewrite Hbits. destruct (Z.eqb_spec (ino ix) k) as [<-|]; cbn; [by rewrite Hbit|done].
Qed.

(** What the functions that make a node may do: the node [mk n], for some free
    number [n], is entered; there was no memory and nothing changed; or the
    name could not be entered. *)
Definition make_outcome (s s' : tst) (dir dd : Z) (i : inode) (e : dentry) (p : super_block) (mk : Z -> inode) (err : Z) : Prop :=
  (err = 0 /\ exists x n, node_made s s' dir dd i e p x (mk n)) \/
  (err = - ENOMEM /\ exists a t, s' = with_alloc s a t) \/
  ((err = - EEXIST /\ is_Some (find_entry (dir_list i) (d_name e)) \/ err = - ENOMEM /\ find_entry (dir_list i) (d_name e) = None) /\
     exists x, node_undone s s' (sb i) p x).

(** The file [tmpfs_create] makes, and the link [tmpfs_symlink] makes. *)
Definition new_file (s : tst) (b mo n : Z) : inode :=
  set_tables (set_nlink (fresh_inode s n (Z.lor (Z.land mo (cnot 32 S_IFMT)) S_IFREG) b) 1) true tmpfs_file_operations.
Definition new_link (s : tst) (b : Z) (target : list Z) (n : Z) : inode :=
  set_target (set_tables (set_nlink (fresh_inode s n (Z.lor S_IFLNK 0x1FF) b) 1) true no_fops) target.

Lemma link_node_outcome s s1 dir dd i e p x d n mk : fs_ok s -> inodes s !! dir = Some i -> dentries s !! dd = Some e -> supers s !! sb i = Some p ->
  inode_made s s1 x (mk n) (sb i) p d -> exists err s', link_node dir dd x (sb i) s1 = Ok (err, s') /\ make_outcome s s' dir dd i e p mk err.
Proof.
  intros Hf Hi He Hp IM. destruct (link_node_run _ _ _ _ _ _ _ _ _ _ Hf Hi He Hp IM) as (err & s' & E & [[-> Hm]|[Herr Hu]]); exists err || exists 0; exists s'; (split; [done|]).
  - left. split; [done|]. by exists x, n.
  - right; right. split; [done|]. by exists x.
Qed.

Lemma create_run s dir dd mo i e p : fs_ok s -> inodes s !! dir = Some i -> dentries s !! dd = Some e -> supers s !! sb i = Some p -> free_number p ->
  exists err s', tmpfs_create dir dd mo s = Ok (err, s') /\ make_outcome s s' dir dd i e p (new_file s (sb i) mo) err.
Proof.
  intros Hf Hi He Hp Hfree. unfold tmpfs_create. rewrite (st_step _ _ _ _ _ (get_inode_run s dir i Hi)).
  destruct (make_inode_run s (sb i) p (Z.lor (Z.land mo (cnot 32 S_IFMT)) S_IFREG) Hf Hp Hfree) as [(a & t & E & _)|(x & n & d & s0 & s1 & E & H0 & E1 & IM)]; rewrite (st_step _ _ _ _ _ E).
  { eexists _, _. split; [reflexivity|]. right; left. split; [done|]. by exists a, t. }
  rewrite H0, (st_step _ _ _ _ _ E1). cbn [negb Z.eqb].
  destruct (inode_made_upd _ _ _ _ _ _ _ (fun i => set_tables (set_nlink i 1) true tmpfs_file_operations) IM eq_refl eq_refl eq_refl eq_refl) as (s2 & E2 & IM2).
  rewrite (st_step _ _ _ _ _ E2). by apply (link_node_outcome s s2 dir dd i e p x d n).
Qed.

(** C21: creating a file.  In a coherent file system with a free inode number
    [tmpfs_create] ends.  It makes a regular file with one link and a fresh
    number, enters its name, which was free, and the file system is coherent
    again; or there is no memory and nothing changes; or the name exists or
    there is no memory for it, and then everything is as before except that
    the inode cache still holds the inode that was freed. *)
Theorem tmpfs_create_correct s dir dd mo i e p : fs_ok s -> inodes s !! dir = Some i -> dentries s !! dd = Some e -> supers s !! sb i = Some p -> free_number p ->
  exists err s', tmpfs_create dir dd mo s = Ok (err, s') /\ make_outcome s s' dir dd i e p (new_file s (sb i) mo) err.
Proof. apply create_run. Qed.

Lemma destroy_run s x i : inodes s !! x = Some i -> tmpfs_destroy_inode x s = Ok (tt, with_inodes s (delete x (inodes s))).
Proof. intros Hx. unfold tmpfs_destroy_inode. by rewrite (st_step _ _ _ _ _ (get_inode_run s x i Hx)). Qed.

Lemma symlink_run s dir dd target i e p : fs_ok s -> inodes s !! dir = Some i -> dentries s !! dd = Some e -> supers s !! sb i = Some p -> free_number p ->
  Z.of_nat (length target) < PATH_MAX ->
  exists err s', tmpfs_symlink dir dd target s = Ok (err, s') /\
    (make_outcome s s' dir dd i e p (new_link s (sb i) target) err \/ err = - ENOMEM /\ dentries s' = dentries s).
Proof.
  intros Hf Hi He Hp Hfree Hlen. unfold tmpfs_symlink. rewrite (st_step _ _ _ _ _ (get_inode_run s dir i Hi)).
  destruct (make_inode_run s (sb i) p (Z.lor S_IFLNK 0x1FF) Hf Hp Hfree) as [(a & t & E & _)|(x & n & d & s0 & s1 & E & H0 & E1 & IM)]; rewrite (st_step _ _ _ _ _ E).
  { eexists _, _. split; [reflexivity|]. left; right; left. split; [done|]. by exists a, t. }
  rewrite H0, (st_step _ _ _ _ _ E1). cbn [negb Z.eqb].
  destruct (inode_made_upd _ _ _ _ _ _ _ (fun i => set_tables (set_nlink i 1) true (fop i)) IM eq_refl eq_refl eq_refl eq_refl) as (s2 & E2 & IM2).
  rewrite (st_step _ _ _ _ _ E2). rewrite (proj2 (Z.leb_gt _ _) Hlen).
  assert (0 < next_addr s2) as Hn2 by (pose proof (im_next _ _ _ _ _ _ _ IM2); pose proof (im_x _ _ _ _ _ _ _ IM2); pose proof (fo_next s Hf); lia).
  destruct (kalloc_run s2 Hn2) as [(s3 & E3 & ->)|[E3 Hk]]; rewrite (st_step _ _ _ _ _ E3).
  { cbn [Z.eqb]. pose proof (im_inodes _ _ _ _ _ _ _ IM2) as Hin.
    assert (inodes (with_alloc s2 (next_addr s2) (S (tick s2))) !! x = Some (set_tables (set_nlink (fresh_inode s n (Z.lor S_IFLNK 511) (sb i)) 1) true no_fops)) as Hx by (cbn; rewrite Hin; apply lookup_insert_eq).
    rewrite (st_step _ _ _ _ _ (destroy_run _ _ _ Hx)). eexists _, _. split; [reflexivity|]. right. split; [done|]. apply (im_dentries _ _ _ _ _ _ _ IM2). }
  rewrite Hk. assert (next_addr s2 <= next_addr s2 + 1) as Hle by lia. pose proof (inode_made_alloc _ _ _ _ _ _ _ _ (S (tick s2)) IM2 Hle) as IM3.
  destruct (inode_made_upd _ _ _ _ _ _ _ (fun i => set_target i target) IM3 eq_refl eq_refl eq_refl eq_refl) as (s4 & E4 & IM4).
  rewrite (st_step _ _ _ _ _ E4). destruct (link_node_outcome s s4 dir dd i e p x d n (new_link s (sb i) target) Hf Hi He Hp IM4) as (err & s' & El & Ho). exists err, s'. by split; [|left].
Qed.

(** ** Reading what was made *)

Lemma iget_run s x i : x <> 0 -> inodes s !! x = Some i -> exists l,
  vfs_iget x s = Ok (tt, with_lru (with_inodes s (<[x := set_refs i (u32 (count i + 1))]> (inodes s))) l).
Proof.
  intros H0 Hx. unfold vfs_iget. rewrite (proj2 (Z.eqb_neq _ _) H0), (st_step _ _ _ _ _ (get_inode_run s x i Hx)), (st_step _ _ _ _ _ (upd_inode_run s x i _ Hx)).
  destruct (count i =? 0); eexists; [reflexivity|]. by destruct s.
Qed.

(** In a coherent file system a name leads to the inode of its number. *)
Lemma lookup_run s dir d i e p de x ix : fs_ok s -> inodes s !! dir = Some i -> dentries s !! d = Some e -> supers s !! sb i = Some p ->
  find_entry (dir_list i) (d_name e) = Some de -> inodes s !! x = Some ix -> sb ix = sb i -> ino ix = de_ino de ->
  exists s', tmpfs_lookup dir d s = Ok (d, s') /\ dentries s' = <[d := Dentry (d_name e) x (d_flags e) (d_parent e)]> (dentries s) /\
    inodes s' = <[x := set_refs ix (u32 (count ix + 1))]> (inodes s).
Proof.
  intros Hf Hi He Hp Hfe Hx Hsb Hino. assert (x <> 0) as H0 by (pose proof (fo_addr s Hf x ix Hx); lia). unfold tmpfs_lookup.
  rewrite (st_step _ _ _ _ _ (get_inode_run s dir i Hi)), (st_step _ _ _ _ _ (get_dentry_run s d e He)), (st_step _ _ _ _ _ (dir_lookup_run s dir i _ Hi)), Hfe.
  destruct (iget_run s x ix H0 Hx) as (l & Eg). destruct (icache_find_run s (sb i) p (de_ino de) Hf Hp) as (r & Er & Hr).
  assert (key_of s x = Some (dev p, de_ino de)) as Hk by (unfold key_of; rewrite Hx; cbn; by rewrite Hsb, Hp, Hino).
  destruct (fo_live s Hf x ix Hx) as [Hin _]. destruct r as [y|]; [|by destruct (Hr x Hin)]. destruct Hr as [Hy Hky].
  assert (y = x) as -> by (by apply (fo_keys s Hf y x (dev p, de_ino de))).
  assert (vfs_icache_find (sb i) (de_ino de) s = Ok (x, with_lru (with_inodes s (<[x := set_refs ix (u32 (count ix + 1))]> (inodes s))) l)) as Ef.
  { unfold vfs_icache_find. rewrite (st_step _ _ _ _ _ (get_super_run s _ p Hp)), (st_step _ _ _ _ _ Er). by rewrite (st_step _ _ _ _ _ Eg). }
  rewrite (st_step _ _ _ _ _ Ef), (proj2 (Z.eqb_neq _ _) H0). cbn [negb]. set (s1 := with_lru _ _). assert (dentries s1 !! d = Some e) as He1 by done.
  rewrite (st_step _ _ _ _ _ (upd_dentry_run s1 d e _ He1)). eexists. split; [reflexivity|]. done.
Qed.

Lemma find_entry_snoc l de : find_entry l (de_name de) = None -> find_entry (l ++ [de]) (de_name de) = Some de.
Proof.
  unfold find_entry. induction l as [|a l IH]; cbn; [by rewrite bool_decide_true|]. destruct (bool_decide (de_name a = de_name de)); [done|exact IH].
Qed.

(** Looking up the name of a node that was just made. *)
Lemma made_lookup s s' dir dd i e p x ix d2 e2 : inodes s !! dir = Some i -> node_made s s' dir dd i e p x ix -> sb ix = sb i -> dentries s !! d2 = Some e2 -> d2 <> dd -> d_name e2 = d_name e ->
  exists s'', tmpfs_lookup dir d2 s' = Ok (d2, s'') /\ d_inode <$> dentries s' !! dd = Some x /\ d_inode <$> dentries s'' !! d2 = Some x /\
    inodes s'' = <[x := set_refs ix (u32 (count ix + 1))]> (inodes s').
Proof.
  intros Hi (Hf & Hxn & Hx & Hnone & (id & Hdir) & Hrest & Hd & p' & Hp & _) Hsb He2 Hne Hnm.
  assert (dentries s' !! d2 = Some e2) as Hd2 by (by rewrite Hd, lookup_insert_ne).
  set (de := De id (d_name e) (ino ix)).
  assert (find_entry (dir_list i ++ [de]) (d_name e2) = Some de) as Hfe.
  { rewrite Hnm. by apply (find_entry_snoc (dir_list i) de). }
  destruct (lookup_run s' dir d2 _ e2 p' de x ix Hf Hdir Hd2 Hp Hfe Hx Hsb eq_refl) as (s'' & E & Ed & Ei).
  exists s''. split; [done|]. split; [by rewrite Hd, lookup_insert_eq|]. split; [by rewrite Ed, lookup_insert_eq|done].
Qed.

(** A file that was created is found.  After a successful [tmpfs_create]
    the lookup of its name through any other dentry answers the inode the
    creating dentry holds, and takes a reference to it. *)
Theorem create_lookup_roundtrip s dir dd mo i e p s' d2 e2 : fs_ok s -> inodes s !! dir = Some i -> dentries s !! dd = Some e -> supers s !! sb i = Some p -> free_number p ->
  tmpfs_create dir dd mo s = Ok (0, s') -> dentries s !! d2 = Some e2 -> d2 <> dd -> d_name e2 = d_name e ->
  exists x n s'', tmpfs_lookup dir d2 s' = Ok (d2, s'') /\ d_inode <$> dentries s' !! dd = Some x /\ d_inode <$> dentries s'' !! d2 = Some x /\
    inodes s' !! x = Some (new_file s (sb i) mo n) /\ inodes s'' !! x = Some (set_refs (new_file s (sb i) mo n) 1).
Proof.
  intros Hf Hi He Hp Hfree Ec He2 Hne Hnm. destruct (create_run s dir dd mo i e p Hf Hi He Hp Hfree) as (err & s1 & E & Ho).
  assert (err = 0 /\ s1 = s') as [-> ->] by (rewrite E in Ec; by simplify_eq).
  destruct Ho as [(_ & x & n & Hm)|[[? _]|[[[? _]|[? _]] _]]]; [|done..].
  destruct (made_lookup _ _ _ _ _ _ _ _ _ _ _ Hi Hm eq_refl He2 Hne Hnm) as (s'' & E'' & D1 & D2 & Ei). exists x, n, s''. split; [done|]. split; [done|]. split; [done|].
  split; [by destruct Hm as (_ & _ & Hx & _)|]. rewrite Ei, lookup_insert_eq. done.
Qed.

(** C25: the target of a symbolic link.  When [tmpfs_symlink] succeeds, the
    dentry holds a link from which [tmpfs_readlink] reads the target, cut off
    at the size of the buffer. *)
Theorem symlink_readlink_roundtrip s dir dd target i e p s' bufsiz : fs_ok s -> inodes s !! dir = Some i -> dentries s !! dd = Some e -> supers s !! sb i = Some p -> free_number p ->
  Z.of_nat (length target) < PATH_MAX -> tmpfs_symlink dir dd target s = Ok (0, s') -> 0 <= bufsiz ->
  exists x, d_inode <$> dentries s' !! dd = Some x /\
    tmpfs_readlink x bufsiz s' = Ok ((Z.min (Z.of_nat (length target)) bufsiz, take (Z.to_nat bufsiz) target), s').
Proof.
  intros Hf Hi He Hp Hfree Hlen Es Hb. destruct (symlink_run s dir dd target i e p Hf Hi He Hp Hfree Hlen) as (err & s1 & E & Ho).
  assert (err = 0 /\ s1 = s') as [-> ->] by (rewrite E in Es; by simplify_eq).
  destruct Ho as [[(_ & x & n & Hm)|[[? _]|[[[? _]|[? _]] _]]]|[? _]]; [|done..]. destruct Hm as (_ & _ & Hx & _ & _ & _ & Hd & _).
  exists x. split; [by rewrite Hd, lookup_insert_eq|]. unfold tmpfs_readlink. rewrite (st_step _ _ _ _ _ (get_inode_run s' x _ Hx)). cbn [symlink_target new_link set_target data_size].
  unfold mret, ST_ret. do 3 f_equal. destruct (Z.le_ge_cases (Z.of_nat (length target)) bufsiz) as [Hle|Hle].
  - rewrite Z.min_l, Nat2Z.id, take_app_length by done. rewrite take_ge; [done|lia].
  - rewrite Z.min_r by lia. rewrite take_app_le by lia. done.
Qed.

(** A target that is too long.  [tmpfs_symlink] refuses it, and no name
    and no live inode changes; but the inode it made and freed stays in the
    inode cache, and its number stays marked as used. *)
Theorem symlink_too_long_leaks s dir dd target i p : fs_ok s -> inodes s !! dir = Some i -> supers s !! sb i = Some p -> free_number p ->
  PATH_MAX <= Z.of_nat (length target) ->
  exists err s', tmpfs_symlink dir dd target s = Ok (err, s') /\ dentries s' = dentries s /\ inodes s' = inodes s /\
    ((err = - ENOMEM /\ exists a t, s' = with_alloc s a t) \/
     (err = - ENAMETOOLONG /\ exists x n p', inodes s !! x = None /\ hash_nodes (icache s') ≡ₚ x :: hash_nodes (icache s) /\
        supers s' = <[sb i := p']> (supers s) /\ bit_at (arr (inode_bitmap p)) n = false /\ bit_at (arr (inode_bitmap p')) n = true)).
Proof.
  intros Hf Hi Hp Hfree Hlen. unfold tmpfs_symlink. rewrite (st_step _ _ _ _ _ (get_inode_run s dir i Hi)).
  destruct (make_inode_run s (sb i) p (Z.lor S_IFLNK 0x1FF) Hf Hp Hfree) as [(a & t & E & _)|(x & n & d & s0 & s1 & E & H0 & E1 & IM)]; rewrite (st_step _ _ _ _ _ E).
  { eexists _, _. split; [reflexivity|]. split; [done|]. split; [done|]. left. split; [done|]. by exists a, t. }
  rewrite H0, (st_step _ _ _ _ _ E1). cbn [negb Z.eqb].
  destruct (inode_made_upd _ _ _ _ _ _ _ (fun i => set_tables (set_nlink i 1) true (fop i)) IM eq_refl eq_refl eq_refl eq_refl) as (s2 & E2 & IM2).
  rewrite (st_step _ _ _ _ _ E2). rewrite (proj2 (Z.leb_le _ _) Hlen).
  destruct IM2 as [Hx Him Hd Hs Hn _ _ _ _ [_ Hbit] Hbits]. rewrite (st_step _ _ _ _ _ (destroy_run s2 x _ ltac:(rewrite Him; apply lookup_insert_eq))).
  assert (inodes s !! x = None) as Hxn. { destruct (inodes s !! x) as [j|] eqn:Ej; [|done]. pose proof (fo_addr s Hf x j Ej). lia. }
  eexists _, _. split; [reflexivity|]. split; [exact Hd|]. split; [cbn; by rewrite Him, delete_insert_id|]. right. split; [done|].
  exists x, n. eexists. split; [done|]. split; [exact Hn|]. split; [exact Hs|]. split; [exact Hbit|]. cbn. by rewrite Hbits, Z.eqb_refl.
Qed.
End create.

(** ** A small instance *)

(** A mounted instance with its root directory, which is empty, and two
    dentries for the same name in it. *)
Definition demo_root : inode := Inode 1 0 S_IFDIR 0 0 0 0 0 0 0 2 true no_fops 1 1 None None 0 [].
Definition demo_super : super_block := Super 7 4096 TMPFS_MAGIC 10 [10] (set_arr demo_full (filled 16 0xF7)) 0 1 0 0.
Definition demo_entry (n : list Z) : dentry := Dentry n 0 DCACHE_NEGATIVE 0.
Definition demo_fs : tst :=
  Tst {[10 := demo_root]} {[20 := demo_entry [97]; 21 := demo_entry [97]]} {[1 := demo_super]} (Ht [[10]]) None
    (Numbers None None None) 100 (fun _ => true) 0 5 (0, 0).

Lemma demo_fs_key x k : key_of demo_fs x = Some k -> x = 10 /\ k = (7, 1).
Proof.
  unfold key_of. cbn [inodes demo_fs]. destruct (decide (x = 10)) as [->|Hx]; [rewrite lookup_singleton_eq; intros E; vm_compute in E; by simplify_eq|].
  by rewrite lookup_singleton_ne.
Qed.

Lemma demo_fs_ok : fs_ok demo_fs.
Proof.
  assert (bitmap_arr (inode_bitmap demo_super)) as Hb by (apply set_arr_bitmap; [exact demo_full_arr|by apply filled_wf; vm_compute]).
  assert (forall x, x ∈ hash_nodes (icache demo_fs) <-> x = 10) as Hn by (intros x; cbn; by rewrite list_elem_of_singleton).
  split; cbn [inodes supers next_addr demo_fs].
  - split; [exists 0; split; [lia|done]|]. intros j l x Ej Hx. cbn in Ej. destruct j as [|j]; [|done]. injection Ej as <-. apply list_elem_of_singleton in Hx as ->.
    exists (7, 1). split; [done|]. by vm_compute.
  - apply NoDup_singleton.
  - intros x y k Hx Hy _ _. rewrite Hn in Hx, Hy. congruence.
  - intros x i p _ [<- <-]%lookup_singleton_Some [_ <-]%lookup_singleton_Some. split; [vm_compute; by split|by vm_compute].
  - intros x i [<- <-]%lookup_singleton_Some. split; [by apply Hn|]. cbn [sb demo_root]. rewrite lookup_singleton_eq. done.
  - intros b p [_ <-]%lookup_singleton_Some. exact Hb.
  - intros b b' p p' [<- _]%lookup_singleton_Some [<- _]%lookup_singleton_Some _. done.
  - lia.
  - intros x i [<- _]%lookup_singleton_Some. lia.
  - intros x i e [_ <-]%lookup_singleton_Some He. cbn in He. by apply elem_of_nil in He.
  - intros x i [_ <-]%lookup_singleton_Some. by repeat constructor.
Qed.

Lemma demo_free : free_number demo_super.
Proof. exists 3. split; [vm_compute; by split|by vm_compute]. Qed.

Lemma tmpfs_create_correct_witness : exists err s', @tmpfs_create demo_heap 10 20 0 demo_fs = Ok (err, s') /\
  make_outcome demo_fs s' 10 20 demo_root (demo_entry [97]) demo_super (new_file demo_fs 1 0) err.
Proof. apply (@tmpfs_create_correct demo_heap demo_fs 10 20 0 demo_root); [exact demo_fs_ok|done|done|done|exact demo_free]. Defined.

(** The state when the call succeeds. *)
Definition after_ok {A} (s : tst) (o : outcome (A * tst)) : tst := match o with Ok (_, s') => s' | _ => s end.

Lemma create_lookup_roundtrip_witness : let s' := after_ok demo_fs (@tmpfs_create demo_heap 10 20 0 demo_fs) in
  exists x n s'', tmpfs_lookup 10 21 s' = Ok (21, s'') /\ d_inode <$> dentries s' !! 20 = Some x /\ d_inode <$> dentries s'' !! 21 = Some x /\
    inodes s' !! x = Some (new_file demo_fs 1 0 n) /\ inodes s'' !! x = Some (set_refs (new_file demo_fs 1 0 n) 1).
Proof.
  apply (@create_lookup_roundtrip demo_heap demo_fs 10 20 0 demo_root (demo_entry [97]) demo_super _ 21 (demo_entry [97]));
    [exact demo_fs_ok|done|done|done|exact demo_free|by vm_compute|done|done|done].
Defined.

Lemma symlink_readlink_roundtrip_witness : let s' := after_ok demo_fs (@tmpfs_symlink demo_heap 10 20 [47; 97; 98] demo_fs) in
  exists x, d_inode <$> dentries s' !! 20 = Some x /\ tmpfs_readlink x 2 s' = Ok ((2, [47; 97]), s').
Proof.
  apply (@symlink_readlink_roundtrip demo_heap demo_fs 10 20 [47; 97; 98] demo_root (demo_entry [97]) demo_super _ 2);
    [exact demo_fs_ok|done|done|done|exact demo_free|by vm_compute|by vm_compute|lia].
Defined.

Lemma symlink_too_long_leaks_witness : exists err s', @tmpfs_symlink demo_heap 10 20 (replicate 4096 97) demo_fs = Ok (err, s') /\ inodes s' = inodes demo_fs.
Proof.
  destruct (@symlink_too_long_leaks demo_heap demo_fs 10 20 (replicate 4096 97) demo_root demo_super) as (err & s' & E & _ & Ei & _);
    [exact demo_fs_ok|done|done|exact demo_free|by rewrite length_replicate|]. by exists err, s'.
Defined.
