(* ===== verification/TmpfsRemove.v ===== *)
(** * tmpfs: removing names

    [tmpfs_unlink] and [tmpfs_rmdir] take a name out of the finite map of its
    directory and keep the invariant of the file system. *)

From S2P Require Import Prelude StateM Bitmap Dynarr Devt Hash Tmpfs TmpfsSpec TmpfsCreate.

Local Open Scope Z_scope.

Section remove.
Context `{Heap}.

(** The invariant holds when an entry is gone, a link count has changed, or
    dentries have. *)
Lemma entry_gone s dir i e : fs_ok s -> inodes s !! dir = Some i -> e ∈ dir_list i ->
  fs_ok (with_inodes s (<[dir := set_dir i (filter (fun x => de_id x <> de_id e) (dir_list i))]> (inodes s))).
Proof.
  intros Hf Hi He. apply (fs_ok_alter s); [done|done|cbn; lia| |intros b; apply same_super_refl]. intros y. cbn [inodes with_inodes]. destruct (decide (y = dir)) as [->|Hy].
  - rewrite lookup_insert_eq, Hi. constructor. split; [done|]. split; [done|]. cbn. split; [apply entries_ok_remove; by apply (fo_names s Hf dir)|].
    apply Forall_forall. intros x [_ Hx]%list_elem_of_filter. by apply (fo_ids s Hf dir i).
  - rewrite lookup_insert_ne by done. apply (same_inode_refl s _ y Hf). cbn. lia.
Qed.

Lemma nlink_changed s x i n : fs_ok s -> inodes s !! x = Some i -> fs_ok (with_inodes s (<[x := set_nlink i n]> (inodes s))).
Proof.
  intros Hf Hi. apply (fs_ok_alter s); [done|done|cbn; lia| |intros b; apply same_super_refl]. intros y. cbn [inodes with_inodes]. pose proof (same_inode_refl s s y Hf ltac:(lia)) as Hr.
  destruct (decide (y = x)) as [->|Hy]; [rewrite Hi in Hr |- *; rewrite lookup_insert_eq; inversion Hr; subst; by constructor|]. by rewrite lookup_insert_ne.
Qed.

Lemma fs_ok_dentries s f : fs_ok s -> fs_ok (with_dentries s f).
Proof. intros Hf. apply (fs_ok_alter s); [done|done|cbn; lia|intros y; apply (same_inode_refl s _ y Hf); cbn; lia|intros b; apply same_super_refl]. Qed.

(** The name of [e] is gone from [dir], its inode has one link less, and the
    dentry [d] leads nowhere. *)
Definition unlinked (s s' : tst) (dir d : Z) (i j : inode) (e : dentry) : Prop :=
  (exists i', inodes s' !! dir = Some i' /\ dir_map i' = delete (d_name e) (dir_map i)) /\
  (exists j', inodes s' !! d_inode e = Some j' /\ nlink j' = u64 (nlink j - 1) /\ dir_list j' = dir_list j) /\
  dentries s' = <[d := Dentry (d_name e) 0 (d_flags e) (d_parent e)]> (dentries s) /\
  (forall y, y <> dir -> y <> d_inode e -> inodes s' !! y = inodes s !! y).

(** C23: removing a file.  [tmpfs_unlink] ends and keeps the file system
    coherent.  A name that is not in the directory is refused and nothing
    changes; otherwise exactly this name is gone, the inode has one link less,
    and the dentry leads nowhere. *)
Theorem tmpfs_unlink_correct s dir d i j e : fs_ok s -> inodes s !! dir = Some i -> dentries s !! d = Some e -> inodes s !! d_inode e = Some j -> d_inode e <> dir ->
  exists err s', tmpfs_unlink dir d s = Ok (err, s') /\ fs_ok s' /\
    ((err = - ENOENT /\ dir_map i !! d_name e = None /\ s' = s) \/ (err = 0 /\ is_Some (dir_map i !! d_name e) /\ unlinked s s' dir d i j e)).
Proof.
  intros Hf Hi He Hj Hne. pose proof (fo_names s Hf dir i Hi) as Hok. unfold tmpfs_unlink.
  rewrite (st_step _ _ _ _ _ (get_dentry_run s d e He)), (st_step _ _ _ _ _ (dir_lookup_run s dir i _ Hi)), (dir_map_lookup i (d_name e) Hok).
  destruct (find_entry (dir_list i) (d_name e)) as [de|] eqn:Ef; [|exists (- ENOENT), s; split; [done|]; split; [done|by left]].
  destruct (find_entry_Some _ _ _ Ef) as [Hin Hnm]. unfold tmpfs_dir_remove, unbind_dentry. rewrite (st_step _ _ _ _ _ (upd_inode_run s dir i _ Hi)).
  pose proof (entry_gone s dir i de Hf Hi Hin) as Hf1. set (i1 := set_dir i _) in *. set (s1 := with_inodes s _) in *.
  assert (inodes s1 !! d_inode e = Some j) as Hj1 by (cbn; by rewrite lookup_insert_ne). rewrite (st_step _ _ _ _ _ (upd_inode_run s1 _ j _ Hj1)).
  pose proof (nlink_changed s1 _ j (u64 (nlink j - 1)) Hf1 Hj1) as Hf2. set (s2 := with_inodes s1 _) in *. assert (dentries s2 !! d = Some e) as He2 by done.
  rewrite (st_step _ _ _ _ _ (upd_dentry_run s2 d e _ He2)). eexists 0, _. split; [reflexivity|]. split; [by apply fs_ok_dentries|]. right. split; [done|]. split; [done|].
  split; [|split; [|split; [done|]]].
  - exists i1. split; [cbn; by rewrite lookup_insert_ne, lookup_insert_eq|]. unfold i1. rewrite dir_map_remove by done. by rewrite Hnm.
  - eexists. split; [cbn; apply lookup_insert_eq|done].
  - intros y Hy1 Hy2. cbn. by rewrite !lookup_insert_ne.
Qed.

(** C24: removing a directory.  [tmpfs_rmdir] ends and keeps the file system
    coherent.  A directory with an entry besides "." and ".." is refused, and so
    is a name that is not there; otherwise the name is gone and both the
    directory and its parent have one link less. *)
Theorem tmpfs_rmdir_correct s dir d i j e : fs_ok s -> inodes s !! dir = Some i -> dentries s !! d = Some e -> inodes s !! d_inode e = Some j -> d_inode e <> dir ->
  exists err s', tmpfs_rmdir dir d s = Ok (err, s') /\ fs_ok s' /\
    ((err = - ENOTEMPTY /\ (exists x, x ∈ dir_list j /\ de_name x <> dot /\ de_name x <> dotdot) /\ s' = s) \/
     (Forall (fun x => de_name x = dot \/ de_name x = dotdot) (dir_list j) /\
       ((err = - ENOENT /\ dir_map i !! d_name e = None /\ s' = s) \/
        (err = 0 /\ is_Some (dir_map i !! d_name e) /\ unlinked s s' dir d i j e /\ nlink <$> inodes s' !! dir = Some (u64 (nlink i - 1)))))).
Proof.
  intros Hf Hi He Hj Hne. pose proof (fo_names s Hf dir i Hi) as Hok. unfold tmpfs_rmdir.
  rewrite (st_step _ _ _ _ _ (get_dentry_run s d e He)), (st_step _ _ _ _ _ (get_inode_run s _ j Hj)). pose proof (is_empty_dir_spec (dir_list j)) as Hem.
  destruct (is_empty_dir (dir_list j)); cbn [negb]; [|exists (- ENOTEMPTY), s; split; [done|]; split; [done|]; by left].
  rewrite (st_step _ _ _ _ _ (dir_lookup_run s dir i _ Hi)), (dir_map_lookup i (d_name e) Hok).
  destruct (find_entry (dir_list i) (d_name e)) as [de|] eqn:Ef; [|exists (- ENOENT), s; split; [done|]; split; [done|]; right; split; [done|by left]].
  destruct (find_entry_Some _ _ _ Ef) as [Hin Hnm]. unfold tmpfs_dir_remove, unbind_dentry. rewrite (st_step _ _ _ _ _ (upd_inode_run s dir i _ Hi)).
  pose proof (entry_gone s dir i de Hf Hi Hin) as Hf1. set (i1 := set_dir i _) in *. set (s1 := with_inodes s _) in *.
  assert (inodes s1 !! d_inode e = Some j) as Hj1 by (cbn; by rewrite lookup_insert_ne). rewrite (st_step _ _ _ _ _ (upd_inode_run s1 _ j _ Hj1)).
  pose proof (nlink_changed s1 _ j (u64 (nlink j - 1)) Hf1 Hj1) as Hf2. set (s2 := with_inodes s1 _) in *.
  assert (inodes s2 !! dir = Some i1) as Hi2 by (cbn; by rewrite lookup_insert_ne, lookup_insert_eq). rewrite (st_step _ _ _ _ _ (upd_inode_run s2 dir i1 _ Hi2)).
  pose proof (nlink_changed s2 _ i1 (u64 (nlink i1 - 1)) Hf2 Hi2) as Hf3. set (s3 := with_inodes s2 _) in *. assert (dentries s3 !! d = Some e) as He3 by done.
  rewrite (st_step _ _ _ _ _ (upd_dentry_run s3 d e _ He3)). eexists 0, _. split; [reflexivity|]. split; [by apply fs_ok_dentries|]. right. split; [done|]. right. split; [done|]. split; [done|].
  split; [split; [|split; [|split; [done|]]]|].
  - eexists. split; [cbn; apply lookup_insert_eq|]. transitivity (dir_map i1); [done|]. unfold i1. rewrite dir_map_remove by done. by rewrite Hnm.
  - eexists. split; [cbn; rewrite lookup_insert_ne by done; apply lookup_insert_eq|done].
  - intros y Hy1 Hy2. cbn. by rewrite !lookup_insert_ne.
  - cbn. by rewrite lookup_insert_eq.
Qed.
End remove.

(** ** A small instance *)

(** The file system of TmpfsCreate.v with an empty directory in its root. *)
Definition demo_sub : inode := Inode 2 0 S_IFDIR 0 0 0 0 0 0 0 2 true no_fops 1 1 None None 0 [].
Definition demo_tree : tst :=
  Tst {[10 := set_dir demo_root [De 30 [97] 2]; 11 := demo_sub]} {[20 := Dentry [97] 11 0 0]} {[1 := demo_super]} (Ht [[10; 11]]) None
    (Numbers None None None) 100 (fun _ => true) 0 5 (0, 0).

Lemma demo_tree_ok : fs_ok demo_tree.
Proof.
  assert (bitmap_arr (inode_bitmap demo_super)) as Hb by (apply set_arr_bitmap; [exact demo_full_arr|by apply filled_wf; vm_compute]).
  assert (forall x i, inodes demo_tree !! x = Some i -> (x = 10 /\ i = set_dir demo_root [De 30 [97] 2]) \/ (x = 11 /\ i = demo_sub)) as HI.
  { intros x i Ei. cbn in Ei. apply lookup_insert_Some in Ei as [[<- <-]|[_ [<- <-]%lookup_singleton_Some]]; auto. }
  assert (forall x, x ∈ hash_nodes (icache demo_tree) -> x = 10 \/ x = 11) as Hn.
  { intros x Hx. change (x ∈ [10; 11]) in Hx. rewrite elem_of_cons, list_elem_of_singleton in Hx. done. }
  assert (forall b p, supers demo_tree !! b = Some p -> b = 1 /\ p = demo_super) as HS by (intros b p Ep; cbn [supers demo_tree] in Ep; by apply lookup_singleton_Some in Ep as [<- <-]).
  split.
  - split; [exists 0; split; [lia|done]|]. intros j l x Ej Hx. cbn in Ej. destruct j as [|j]; [|done]. injection Ej as <-.
    destruct (Hn x Hx) as [->| ->]; eexists; (split; [reflexivity|by vm_compute]).
  - change (NoDup [10; 11]). repeat constructor; rewrite ?list_elem_of_singleton; [lia|by intros ?%elem_of_nil].
  - intros x y k Hx Hy. destruct (Hn x Hx) as [->| ->], (Hn y Hy) as [->| ->]; intros Ex Ey; vm_compute in Ex, Ey; congruence.
  - intros x i p _ Ei Ep. destruct (HS _ _ Ep) as [_ ->]. destruct (HI x i Ei) as [[_ ->]|[_ ->]]; (split; [vm_compute; by split|by vm_compute]).
  - intros x i Ei. destruct (HI x i Ei) as [[-> ->]|[-> ->]]; (split; [change (hash_nodes (icache demo_tree)) with [10; 11]; rewrite elem_of_cons, list_elem_of_singleton; auto|by eexists]).
  - intros b p Ep. by destruct (HS b p Ep) as [_ ->].
  - intros b b' p p' Ep Ep' _. destruct (HS b p Ep) as [-> _], (HS b' p' Ep') as [-> _]. done.
  - cbn. lia.
  - intros x i Ei. cbn. destruct (HI x i Ei) as [[-> _]|[-> _]]; lia.
  - intros x i e Ei He. destruct (HI x i Ei) as [[_ ->]|[_ ->]]; cbn in He |- *; [apply list_elem_of_singleton in He as ->; cbn; lia|by apply elem_of_nil in He].
  - intros x i Ei. destruct (HI x i Ei) as [[_ ->]|[_ ->]]; split; cbn; repeat constructor; by intros ?%elem_of_nil.
Qed.

Lemma tmpfs_unlink_correct_witness : exists err s', tmpfs_unlink 10 20 demo_tree = Ok (err, s') /\ fs_ok s'.
Proof.
  destruct (tmpfs_unlink_correct demo_tree 10 20 (set_dir demo_root [De 30 [97] 2]) demo_sub (Dentry [97] 11 0 0) demo_tree_ok) as (err & s' & E & Hf & _); [done..|]. by exists err, s'.
Defined.

Lemma tmpfs_rmdir_correct_witness : exists err s', tmpfs_rmdir 10 20 demo_tree = Ok (err, s') /\ fs_ok s'.
Proof.
  destruct (tmpfs_rmdir_correct demo_tree 10 20 (set_dir demo_root [De 30 [97] 2]) demo_sub (Dentry [97] 11 0 0) demo_tree_ok) as (err & s' & E & Hf & _); [done..|]. by exists err, s'.
Defined.
