(* ===== verification/TmpfsMount.v ===== *)
(** * tmpfs: mounting (kernel/fs/tmpfs/tmpfs.c)

    A mounted instance starts as a coherent file system with an empty root
    directory; the mount option "size=" becomes a number of pages. *)

From S2P Require Import Prelude StateM Bitmap Dynarr Devt Hash Tmpfs TmpfsSpec TmpfsCreate.

Local Open Scope Z_scope.

(** ** Mount options *)

Definition digit_of (c : Z) : option Z := if (48 <=? c) && (c <=? 57) then Some (c - 48) else None.

(** tmpfs.c: tmpfs_parse_size, the digits: their value and what follows *)
Fixpoint parse_digits (l : list Z) (acc : Z) : Z * list Z :=
  match l with
  | [] => (acc, [])
  | c :: r => match digit_of c with Some d => parse_digits r (u64 (acc * 10 + d)) | None => (acc, l) end
  end.

Definition size_key : list Z := [115; 105; 122; 101; 61].

(** strstr: the text from the first "size=" on *)
Fixpoint find_key (l : list Z) : option (list Z) :=
  if bool_decide (take 5 l = size_key) then Some l
  else match l with [] => None | _ :: r => find_key r end.

(** tmpfs.c: tmpfs_parse_size, the factor of the suffix *)
Definition suffix_shift (c : Z) : Z :=
  if (c =? 71) || (c =? 103) then 30 else if (c =? 77) || (c =? 109) then 20 else if (c =? 75) || (c =? 107) then 10 else 0.

(** tmpfs.c: tmpfs_parse_size; the text without its final NUL *)
Definition tmpfs_parse_size (data : option (list Z)) : Z :=
  match data ≫= find_key with
  | None => 0
  | Some p =>
      let '(size_bytes, rest) := parse_digits (drop 5 p) 0 in
      let size_bytes := u64 (size_bytes * 2 ^ suffix_shift (default 0 (head rest))) in
      if size_bytes =? 0 then 0 else u64 (size_bytes + TMPFS_PAGE_SIZE - 1) / TMPFS_PAGE_SIZE
  end.

(** ** Mounting *)

Section mount.
Context `{Heap}.

Abbreviation tm := (ST tst).

(** An operation on values, which leaves the state alone. *)
Definition on_value {A} (e : outcome A) : tm A := fun s => a ← e; Ok (a, s).

(** tmpfs.c: tmpfs_ino_bitmap_init; memory comes cleared, so max_inodes is 0 *)
Definition tmpfs_ino_bitmap_init : tm (option dynarr_t) :=
  r ← kalloc;
  bm ← on_value (settle (dynarr_bitmap_create (negb (r =? 0)) 0));
  match bm with
  | None => mret None
  | Some d =>
      '(found, d) ← on_value (settle (dynarr_bitmap_alloc d 1));
      mret (match found with Some _ => Some d | None => None end)
  end.

(** tmpfs.c: tmpfs_mount, the root inode: an error, or its address *)
Definition mount_inode (b : Z) : tm (Z + Z) :=
  x ← tmpfs_alloc_inode b;
  if x =? 0 then mret (inl (- ENOMEM))
  else
    err ← tmpfs_inode_init x b (Z.lor S_IFDIR 0x1ED);
    if negb (err =? 0) then _ ← tmpfs_destroy_inode x; mret (inl err)
    else
      _ ← upd_inode x (fun i => set_tables (set_nlink i 2) true (fop i));
      _ ← sb_link x b;
      err ← enter_dots x x;
      if negb (err =? 0) then _ ← drop_inode x b; mret (inl err)
      else mret (inr x).

(** tmpfs.c: tmpfs_mount, the root inode and its dentry: an error, or the
    address of the dentry *)
Definition mount_root (b : Z) : tm (Z + Z) :=
  r ← mount_inode b;
  match r with
  | inl err => mret (inl err)
  | inr x =>
      d ← kalloc;
      if d =? 0 then _ ← drop_inode x b; mret (inl (- ENOMEM))
      else
        nm ← kalloc;
        if nm =? 0 then _ ← drop_inode x b; mret (inl (- ENOMEM))
        else
          _ ← st_modify (fun s => with_dentries s (<[d := Dentry [47] x DCACHE_NONE 0]> (dentries s)));
          _ ← upd_super b (fun p => sb_set_root p d);
          mret (inr d)
  end.

Definition anon_op {A} (f : numbers -> outcome (A * numbers)) : tm A := fun s => '(a, n) ← f (anon s); Ok (a, with_anon s n).

(** tmpfs.c: tmpfs_put_super *)
Definition tmpfs_put_super (b : Z) : tm unit :=
  p ← get_super b;
  _ ← anon_op (fun n => n ← drivers_free_anon_id (dev p) n; Ok (tt, n));
  st_modify (fun s => with_supers s (delete b (supers s))).

(** tmpfs.c: tmpfs_mount: an error, or the root dentry *)
Definition tmpfs_mount (data : option (list Z)) : tm (Z + Z) :=
  sbi ← kalloc;
  if sbi =? 0 then mret (inl (- ENOMEM))
  else
    bm ← tmpfs_ino_bitmap_init;
    match bm with
    | None => mret (inl (- ENOMEM))
    | Some bm =>
        b ← kalloc;
        if b =? 0 then mret (inl (- ENOMEM))
        else
          '(err, device) ← anon_op drivers_get_anon_id;
          if negb (err =? 0) then mret (inl (- ENOSPC))
          else
            _ ← st_modify (fun s => with_supers s (<[b := Super device TMPFS_PAGE_SIZE TMPFS_MAGIC 0 [] bm 0 0 (tmpfs_parse_size data) 0]> (supers s)));
            r ← mount_root b;
            match r with
            | inr d => mret (inr d)
            | inl err => _ ← tmpfs_put_super b; mret (inl err)
            end
    end.

(** tmpfs.c: tmpfs_kill_sb, one turn of the loop over the inodes *)
Definition kill_turn (b : Z) (_ : unit) : tm (unit + unit) :=
  p ← get_super b;
  match sb_inodes p with
  | [] => mret (inr tt)
  | x :: l =>
      _ ← upd_super b (fun p => sb_set_inodes p l);
      _ ← vfs_iget x;
      _ ← tmpfs_evict_inode x;
      _ ← tmpfs_destroy_inode x;
      mret (inl tt)
  end.

(** tmpfs.c: tmpfs_kill_sb *)
Definition tmpfs_kill_sb (b : Z) : tm unit :=
  p ← get_super b;
  _ ← st_loop (S (length (sb_inodes p))) (kill_turn b) tt;
  tmpfs_put_super b.

(** tmpfs.c: tmpfs_statfs: f_bsize, f_blocks, f_bfree, f_bavail, f_files,
    f_ffree, f_namemax *)
Definition tmpfs_statfs (d : Z) : tm (list Z) :=
  e ← get_dentry d;
  i ← get_inode (d_inode e);
  p ← get_super (sb i);
  let f_bfree := u64 (max_pages p - used_pages p) in
  mret [TMPFS_PAGE_SIZE; max_pages p; f_bfree; f_bfree; 0; 0; 255].

(** tmpfs.c: tmpfs_getattr, the fields of struct kstat in their order *)
Definition tmpfs_getattr (d : Z) : tm (list Z) :=
  e ← get_dentry d;
  i ← get_inode (d_inode e);
  p ← get_super (sb i);
  mret [dev p; ino i; mode i; nlink i; uid i; gid i; rdev i; size i; atime i; mtime i; ctime i; block_size p; blocks i].

End mount.

(** ** What the size option means *)

(** The value of a text of digits. *)
Definition value (l : list Z) : Z := fold_left (fun v c => v * 10 + (c - 48)) l 0.
Definition digit (c : Z) : Prop := 48 <= c <= 57.

Lemma fold_digits_mono l v : Forall digit l -> 0 <= v -> v <= fold_left (fun v c => v * 10 + (c - 48)) l v.
Proof.
  intros Hl. revert v. induction Hl as [|c l Hc Hl IH]; intros v Hv; cbn [fold_left]; [lia|]. unfold digit in Hc. specialize (IH (v * 10 + (c - 48))). lia.
Qed.

Lemma parse_digits_spec l rest v : Forall digit l -> (forall c, head rest = Some c -> digit_of c = None) -> 0 <= v ->
  fold_left (fun v c => v * 10 + (c - 48)) l v < 2 ^ 64 ->
  parse_digits (l ++ rest) v = (fold_left (fun v c => v * 10 + (c - 48)) l v, rest).
Proof.
  intros Hl Hr. revert v. induction Hl as [|c l Hc Hl IH]; intros v Hv Hlt; cbn [app fold_left] in *.
  - destruct rest as [|c r]; [done|]. cbn [parse_digits]. by rewrite (Hr c eq_refl).
  - pose proof (fold_digits_mono l (v * 10 + (c - 48)) Hl) as Hm. unfold digit in Hc. cbn [parse_digits]. unfold digit_of. rewrite (proj2 (Z.leb_le _ _)), (proj2 (Z.leb_le _ _)) by lia. cbn [andb].
    rewrite wrap_small by (unfold fits; lia). apply IH; [lia|done].
Qed.

(** C27: the option "size=".  A number with the suffix K, M or G, or none,
    means that many bytes in units of 2^10, 2^20, 2^30 or 1, rounded up to
    pages, as long as it is below 2^64 - 4096 bytes; text after it does not
    matter. *)
Theorem parse_size_correct digits rest : Forall digit digits -> (forall c, head rest = Some c -> digit_of c = None) ->
  value digits * 2 ^ suffix_shift (default 0 (head rest)) < 2 ^ 64 - TMPFS_PAGE_SIZE ->
  let bytes := value digits * 2 ^ suffix_shift (default 0 (head rest)) in
  tmpfs_parse_size (Some (size_key ++ digits ++ rest)) * TMPFS_PAGE_SIZE - TMPFS_PAGE_SIZE < bytes <= tmpfs_parse_size (Some (size_key ++ digits ++ rest)) * TMPFS_PAGE_SIZE.
Proof.
  intros Hd Hr Hlt bytes. pose proof (fold_digits_mono digits 0 Hd ltac:(lia)) as H0. fold (value digits) in H0.
  assert (1 <= 2 ^ suffix_shift (default 0 (head rest))) as Hs by (unfold suffix_shift; repeat case_match; lia).
  unfold tmpfs_parse_size. cbn [mbind option_bind]. assert (find_key (size_key ++ digits ++ rest) = Some (size_key ++ digits ++ rest)) as -> by (cbn; by rewrite bool_decide_true).
  change (drop 5 (size_key ++ digits ++ rest)) with (digits ++ rest). rewrite (parse_digits_spec digits rest 0 Hd Hr) by (unfold TMPFS_PAGE_SIZE, value in *; nia || lia). fold (value digits). fold bytes in Hlt |- *.
  assert (0 <= bytes) by (unfold bytes; nia). unfold TMPFS_PAGE_SIZE in *. rewrite (wrap_small 64 bytes) by (unfold fits; lia). destruct (Z.eqb_spec bytes 0) as [->|Hne]; [lia|].
  rewrite wrap_small by (unfold fits; lia). dlia.
Qed.

Lemma parse_size_correct_witness : let n := tmpfs_parse_size (Some (size_key ++ [49; 54] ++ [77; 44])) in n * TMPFS_PAGE_SIZE - TMPFS_PAGE_SIZE < 16 * 2 ^ 20 <= n * TMPFS_PAGE_SIZE.
Proof. apply (parse_size_correct [49; 54] [77; 44]); [by repeat constructor|by intros c [= <-]|by vm_compute]. Defined.

(** ** What mounting does *)

(** Memory comes cleared. *)
Definition heap_cleared `{Heap} : Prop := forall n a, kheap_alloc n = Some a -> a = filled n 0.

Section mounting.
Context `{Heap}.

Lemma kalloc_any s : 0 < next_addr s -> exists r a t, kalloc s = Ok (r, with_alloc s a t) /\ next_addr s <= a /\ (r = 0 \/ r = next_addr s /\ r =? 0 = false /\ r < a).
Proof.
  intros Hn. destruct (kalloc_run s Hn) as [(s1 & E & ->)|[E Hz]]; (eexists _, _, _; split; [exact E|]); (split; [lia|]); [by left|right]. split; [done|]. split; [done|lia].
Qed.

Lemma bitmap_init_run s : heap_cleared -> 0 < next_addr s ->
  exists r a t, tmpfs_ino_bitmap_init s = Ok (r, with_alloc s a t) /\ next_addr s <= a /\
    (forall d, r = Some d -> bitmap_arr d /\ bits d = 128 /\ forall k, bit_at (arr d) k = (1 =? k)).
Proof.
  intros Hc Hn. destruct (kalloc_any s Hn) as (r & a & t & E & Ha & _). unfold tmpfs_ino_bitmap_init. rewrite (st_step _ _ _ _ _ E). set (s1 := with_alloc s a t).
  destruct (dynarr_create (negb (r =? 0)) 1 0) as [d|] eqn:Ed.
  - assert (d = Dynarr (filled 16 0) 1 0 14 16 0) as ->.
    { unfold dynarr_create in Ed. cbn [Z.eqb negb andb] in Ed. destruct (negb (r =? 0)); [|done]. cbn [negb] in Ed. destruct (kheap_alloc _) as [m|] eqn:Em; [|done]. apply Hc in Em as ->. by simplify_eq. }
    assert (on_value (settle (dynarr_bitmap_create (negb (r =? 0)) 0)) s1 = Ok (Some (Dynarr (filled 16 0) 1 0 14 16 0), s1)) as E1 by (unfold on_value, dynarr_bitmap_create; cbn [Z.eqb negb andb Z.ltb]; by rewrite Ed).
    rewrite (st_step _ _ _ _ _ E1). set (d0 := Dynarr (filled 16 0) 1 0 14 16 0).
    assert (bitmap_arr d0) as Hd0 by (split; [|done]; constructor; cbn; (done || lia || (by apply filled_wf; vm_compute))).
    destruct (take_id_spec d0 1 Hd0) as (i & d' & Et & Hd' & Hb' & Hi & _ & Hset); [cbv; done|by vm_compute|].
    assert (i = 1) as -> by lia. unfold take_id in Et. destruct (settle (dynarr_bitmap_alloc d0 1)) as [[f d2]| |] eqn:Es; [|done|done]. rewrite Ok_bind in Et. simplify_eq.
    eexists (Some d'), a, t. split; [unfold on_value; rewrite (st_step _ _ s1 (Some 1, d') s1); [done|by cbn]|]. split; [done|]. intros d [= <-]. split; [done|]. split; [by rewrite Hb'|].
    intros k. rewrite Hset. change (arr d0) with (filled 16 0). unfold bit_at. rewrite filled_lookup. destruct (_ && _); cbn; by rewrite Z.testbit_0_l, orb_false_r.
  - exists None, a, t. unfold on_value, dynarr_bitmap_create. cbn [Z.eqb negb andb]. rewrite Ed. done.
Qed.

(** A new instance keeps the invariant. *)
Lemma fs_ok_super s b p : fs_ok s -> supers s !! b = None -> bitmap_arr (inode_bitmap p) -> (forall b' q, supers s !! b' = Some q -> dev q <> dev p) ->
  fs_ok (with_supers s (<[b := p]> (supers s))).
Proof.
  intros Hf Hb Hbm Hdev. set (s' := with_supers s _).
  assert (forall x i, inodes s !! x = Some i -> supers s' !! sb i = supers s !! sb i) as Hsup.
  { intros x i Ei. destruct (fo_live s Hf x i Ei) as [_ [q Eq]]. cbn. apply lookup_insert_ne. intros ->. congruence. }
  assert (forall x, key_of s' x = key_of s x) as Hk.
  { intros x. unfold key_of. change (inodes s') with (inodes s). destruct (inodes s !! x) as [i|] eqn:Ei; [|done]. cbn [mbind option_bind]. by rewrite (Hsup x i Ei). }
  split; change (icache s') with (icache s); change (inodes s') with (inodes s); change (next_addr s') with (next_addr s).
  - eapply hash_wf_ext; [|exact (fo_cache s Hf)]. intros x _. apply Hk.
  - apply (fo_nodup s Hf).
  - intros x y k. rewrite !Hk. apply (fo_keys s Hf).
  - intros x i q Hx Ei. rewrite (Hsup x i Ei). by apply (fo_bits s Hf x).
  - intros x i Ei. rewrite (Hsup x i Ei). by apply (fo_live s Hf x).
  - intros b' q Eq. cbn in Eq. apply lookup_insert_Some in Eq as [[_ <-]|[_ Eq]]; [done|by apply (fo_bitmap s Hf b')].
  - intros b1 b2 q1 q2 E1 E2 Ed. cbn in E1, E2. apply lookup_insert_Some in E1 as [[<- <-]|[_ E1]]; apply lookup_insert_Some in E2 as [[<- <-]|[_ E2]]; [done| | |by apply (fo_devs s Hf b1 b2 q1 q2)].
    + by destruct (Hdev _ _ E2).
    + by destruct (Hdev _ _ E1).
  - apply (fo_next s Hf).
  - apply (fo_addr s Hf).
  - apply (fo_ids s Hf).
  - apply (fo_names s Hf).
Qed.

(** The entries "." and ".." of an empty directory. *)
Lemma enter_dots_run s x i : 0 < next_addr s -> inodes s !! x = Some i -> dir_list i = [] ->
  exists err a t l, enter_dots x x s = Ok (err, with_inodes (with_alloc s a t) (<[x := set_dir i l]> (inodes s))) /\ next_addr s <= a /\
    ((err = 0 /\ exists id1 id2, l = [De id1 dot (ino i); De id2 dotdot (ino i)] /\ next_addr s <= id1 < id2 /\ id2 < a) \/ err = - ENOMEM).
Proof.
  intros Hn Hx Hl. unfold enter_dots. rewrite (st_step _ _ _ _ _ (get_inode_run s x i Hx)).
  destruct (dir_add_run s x i dot (ino i) Hn Hx) as [(a & t & E & Ha)|(a & t & E & Ha)]; [rewrite (st_step _ _ _ _ _ E)|rewrite Hl in E; cbn [app] in E; rewrite (st_step _ _ _ _ _ E)]; cbn [negb Z.eqb Z.opp].
  { exists (- ENOMEM), a, t, []. split; [|split; [done|by right]]. rewrite <- Hl at 1. assert (set_dir i (dir_list i) = i) as -> by (by destruct i). rewrite insert_id by done. by destruct s. }
  set (i1 := set_dir i [De (next_addr s) dot (ino i)]) in E |- *. set (s1 := with_inodes (with_alloc s a t) _) in E |- *.
  assert (inodes s1 !! x = Some i1) as Hx1 by (cbn; apply lookup_insert_eq). rewrite (st_step _ _ _ _ _ (get_inode_run s1 x i1 Hx1)).
  assert (0 < next_addr s1) as Hn1 by (cbn; lia). destruct (dir_add_run s1 x i1 dotdot (ino i1) Hn1 Hx1) as [(a' & t' & E' & Ha')|(a' & t' & E' & Ha')]; rewrite (st_step _ _ _ _ _ E'); cbn [negb Z.eqb Z.opp].
  - change (negb (- ENOMEM =? 0)) with true. cbn match. set (s2 := with_alloc s1 a' t'). assert (inodes s2 !! x = Some i1) as Hx2 by done. rewrite (st_step _ _ _ _ _ (dir_lookup_run s2 x i1 dot Hx2)). cbn [find_entry dir_list i1 set_dir List.find de_name].
    rewrite bool_decide_true by done. unfold tmpfs_dir_remove. rewrite (st_step _ _ _ _ _ (upd_inode_run s2 x i1 _ Hx2)).
    eexists (- ENOMEM), a', t', _. split; [|split; [cbn in Ha'; lia|by right]]. unfold mret, ST_ret. do 2 f_equal. unfold with_inodes. cbn. rewrite insert_insert_eq. reflexivity.
  - eexists 0, a', t', _. split; [|split; [cbn in Ha'; lia|left; split; [done|]]].
    + unfold mret, ST_ret. do 2 f_equal. unfold with_inodes. cbn. rewrite insert_insert_eq. reflexivity.
    + exists (next_addr s), (next_addr s1). split; [done|]. cbn in Ha' |- *. lia.
Qed.

(** The root inode of an instance whose list is empty. *)
Definition root_inode (s : tst) (b n : Z) (l : list tmpfs_dir_entry) : inode :=
  set_dir (set_tables (set_nlink (fresh_inode s n (Z.lor S_IFDIR 0x1ED) b) 2) true no_fops) l.

(** The cache of inodes after something was undone: as before, or with an inode
    in it that was freed. *)
Definition cache_after (s s' : tst) : Prop :=
  icache s' = icache s \/ exists x, inodes s !! x = None /\ hash_nodes (icache s') ≡ₚ x :: hash_nodes (icache s).

(** The state when the root inode could not be made, or was dropped. *)
Definition rolled_back (s s' : tst) (b : Z) (p : super_block) : Prop :=
  cache_after s s' /\ next_addr s <= next_addr s' /\ inodes s' = inodes s /\ dentries s' = dentries s /\ anon s' = anon s /\ exists p', supers s' = <[b := p']> (supers s) /\ dev p' = dev p.

Lemma mount_inode_run s b p : fs_ok s -> supers s !! b = Some p -> free_number p ->
  exists r s', mount_inode b s = Ok (r, s') /\
    match r with
    | inl err => err = - ENOMEM /\ rolled_back s s' b p
    | inr x => fs_ok s' /\ inodes s !! x = None /\ hash_nodes (icache s') ≡ₚ x :: hash_nodes (icache s) /\ dentries s' = dentries s /\ anon s' = anon s /\ next_addr s <= next_addr s' /\
        exists n id1 id2 p', inodes s' = <[x := root_inode s b n [De id1 dot n; De id2 dotdot n]]> (inodes s) /\
          supers s' = <[b := p']> (supers s) /\ dev p' = dev p /\ sb_inodes p' = sb_inodes p ++ [x] /\ max_pages p' = max_pages p
    end.
Proof.
  intros Hf Hp Hfree. unfold mount_inode.
  destruct (make_inode_run s b p (Z.lor S_IFDIR 0x1ED) Hf Hp Hfree) as [(a & t & E & Hat)|(x & n & d & s0 & s1 & E & H0 & E1 & IM)]; rewrite (st_step _ _ _ _ _ E).
  { eexists _, _. split; [reflexivity|]. split; [done|]. split; [by left|]. split; [done|]. split; [done|]. split; [done|]. split; [done|]. exists p. split; [|done]. cbn. by rewrite insert_id. }
  rewrite H0, (st_step _ _ _ _ _ E1). cbn [negb Z.eqb].
  destruct (inode_made_upd _ _ _ _ _ _ _ (fun i => set_tables (set_nlink i 2) true (fop i)) IM eq_refl eq_refl eq_refl eq_refl) as (s2 & E2 & IM2).
  rewrite (st_step _ _ _ _ _ E2). set (ix := set_tables _ _ _) in IM2. clear IM E E1 E2 s0 s1. pose proof (fs_ok_made _ _ _ _ _ _ _ Hf Hp IM2) as Hf2.
  destruct IM2 as [Hx Him Hd Hs Hn _ Hnx _ [Hbm _] [Hino _] _ Han]. change (hash_nodes (icache s2) ≡ₚ x :: hash_nodes (icache s)) in Hn. set (p1 := sb_set_bitmap p d (u32 (inode_count p + 1))) in *.
  assert (inodes s !! x = None) as Hxn. { destruct (inodes s !! x) as [j|] eqn:Ej; [|done]. pose proof (fo_addr s Hf x j Ej). lia. }
  assert (supers s2 !! b = Some p1) as Hp2 by (rewrite Hs; apply lookup_insert_eq). unfold sb_link. rewrite (st_step _ _ _ _ _ (upd_super_run s2 b p1 _ Hp2)).
  set (p2 := sb_set_inodes p1 _). set (s3 := with_supers s2 _). assert (inodes s3 !! x = Some ix) as Hx3 by (cbn; rewrite Him; apply lookup_insert_eq).
  assert (supers s3 = <[b := p2]> (supers s)) as Hs3 by (cbn; by rewrite Hs, insert_insert_eq).
  assert (0 < next_addr s3) as Hn3 by (cbn; pose proof (fo_next s Hf); lia).
  destruct (enter_dots_run s3 x ix Hn3 Hx3 eq_refl) as (err & a & t & l & E3 & Ha & Hr). rewrite (st_step _ _ _ _ _ E3). set (s4 := with_inodes _ _) in *.
  assert (inodes s4 = <[x := set_dir ix l]> (inodes s)) as Hi4 by (cbn; by rewrite Him, insert_insert_eq).
  destruct Hr as [(-> & id1 & id2 & -> & Hid1 & Hid2)| ->].
  - exists (inr x), s4. split; [done|]. cbn [next_addr s3 with_supers] in Ha, Hid1. split; [|split; [done|split; [exact Hn|split; [done|split; [done|split; [cbn; lia|]]]]]].
    + eapply (fs_ok_alter s2 s4 Hf2); [done|exact Ha| |by eapply same_super_insert]. intros y. cbn [inodes s4 with_inodes]. destruct (decide (y = x)) as [->|Hy].
      * rewrite lookup_insert_eq, Him, lookup_insert_eq. constructor. split; [done|]. split; [done|]. cbn. split.
        -- split; cbn; repeat constructor; rewrite ?list_elem_of_singleton; first [by intros ?%elem_of_nil|lia|by intros [=]].
        -- repeat constructor; cbn; lia.
      * rewrite lookup_insert_ne by done. apply (same_inode_refl s2 s4 y Hf2). exact Ha.
    + exists n, id1, id2, p2. split; [exact Hi4|]. split; [exact Hs3|done].
  - change (negb (- ENOMEM =? 0)) with true. cbn match.
    assert (supers s4 !! b = Some p2) as Hp4 by (cbn; apply lookup_insert_eq). assert (inodes s4 !! x = Some (set_dir ix l)) as Hx4 by (rewrite Hi4; apply lookup_insert_eq).
    destruct (drop_inode_run s4 x b (set_dir ix l) p2 Hx4 eq_refl eq_refl Hp4 Hbm Hino) as (s5 & d5 & E5 & I5 & D5 & C5 & A5 & S5 & _ & N5). rewrite (st_step _ _ _ _ _ E5).
    eexists _, s5. split; [reflexivity|]. split; [done|]. split; [right; exists x; split; [done|]; by rewrite C5|]. split; [rewrite N5; cbn [next_addr s4 with_inodes with_alloc]; cbn [next_addr s3 with_supers] in Ha; lia|]. split; [rewrite I5, Hi4; by rewrite delete_insert_id|]. split; [by rewrite D5|]. split; [by rewrite A5|].
    eexists. split; [rewrite S5; change (supers s4) with (supers s3); by rewrite Hs3, insert_insert_eq|done].
Qed.

(** A mounted root: the directory [x] with its two entries, behind [d]. *)
Definition root_made (s s' : tst) (b d : Z) (p : super_block) : Prop :=
  fs_ok s' /\ exists x n id1 id2 p', inodes s !! x = None /\ inodes s' = <[x := root_inode s b n [De id1 dot n; De id2 dotdot n]]> (inodes s) /\
    dentries s' = <[d := Dentry [47] x DCACHE_NONE 0]> (dentries s) /\
    supers s' = <[b := p']> (supers s) /\ root p' = d /\ dev p' = dev p /\ sb_inodes p' = sb_inodes p ++ [x] /\ max_pages p' = max_pages p.

Lemma mount_root_run s b p : fs_ok s -> supers s !! b = Some p -> free_number p ->
  exists r s', mount_root b s = Ok (r, s') /\ match r with inl err => err = - ENOMEM /\ rolled_back s s' b p | inr d => anon s' = anon s /\ root_made s s' b d p end.
Proof.
  intros Hf Hp Hfree. unfold mount_root. destruct (mount_inode_run s b p Hf Hp Hfree) as (r & s1 & E1 & Hr). rewrite (st_step _ _ _ _ _ E1). destruct r as [err|x]; [by exists (inl err), s1|].
  destruct Hr as (Hf1 & Hxn & Hcx & Hd & Han & Hn1 & n & id1 & id2 & p1 & Hi & Hs & Hdev & Hsi & Hmax). set (rt := root_inode _ _ _ _) in Hi.
  assert (inodes s1 !! x = Some rt) as Hx1 by (rewrite Hi; apply lookup_insert_eq). assert (supers s1 !! b = Some p1) as Hp1 by (rewrite Hs; apply lookup_insert_eq).
  destruct (fo_live s1 Hf1 x rt Hx1) as [Hin _]. destruct (fo_bits s1 Hf1 x rt p1 Hin Hx1 Hp1) as [Hino _]. pose proof (fo_bitmap s1 Hf1 b p1 Hp1) as Hbm.
  assert (forall a t, next_addr s1 <= a -> exists s', (_ ← drop_inode x b; mret (inl (- ENOMEM)) : ST tst (Z + Z)) (with_alloc s1 a t) = Ok (inl (- ENOMEM), s') /\ rolled_back s s' b p) as Hdrop.
  { intros a t Hat. destruct (drop_inode_run (with_alloc s1 a t) x b rt p1 Hx1 eq_refl eq_refl Hp1 Hbm Hino) as (s2 & d2 & E2 & I2 & D2 & C2 & A2 & S2 & _ & N2).
    rewrite (st_step _ _ _ _ _ E2). exists s2. split; [done|]. split; [right; exists x; split; [done|]; by rewrite C2|]. split; [rewrite N2; cbn; lia|]. split; [rewrite I2; cbn; rewrite Hi; by rewrite delete_insert_id|]. split; [by rewrite D2|]. split; [by rewrite A2|].
    eexists. split; [rewrite S2; cbn; by rewrite Hs, insert_insert_eq|done]. }
  destruct (kalloc_any s1 (fo_next s1 Hf1)) as (d & a & t & E2 & Ha & Hd'). rewrite (st_step _ _ _ _ _ E2). destruct Hd' as [->|(_ & Hdz & _)].
  { cbn [Z.eqb]. destruct (Hdrop a t Ha) as (s' & E' & Hrb). exists (inl (- ENOMEM)), s'. done. }
  rewrite Hdz. assert (0 < next_addr (with_alloc s1 a t)) as Hn2 by (pose proof (fo_next s1 Hf1); cbn; lia).
  destruct (kalloc_any _ Hn2) as (nm & a' & t' & E3 & Ha' & Hnm). cbn [next_addr with_alloc] in Ha'. rewrite (st_step _ _ _ _ _ E3). destruct Hnm as [->|(_ & Hnz & _)].
  { cbn [Z.eqb]. destruct (Hdrop a' t' ltac:(lia)) as (s' & E' & Hrb). exists (inl (- ENOMEM)), s'. done. }
  rewrite Hnz, st_modify_step. set (s3 := with_dentries _ _). assert (supers s3 !! b = Some p1) as Hp3 by done. rewrite (st_step _ _ _ _ _ (upd_super_run s3 b p1 _ Hp3)).
  eexists (inr d), _. split; [reflexivity|]. split; [done|]. split.
  - eapply (fs_ok_alter s1); [done|done|cbn; lia| |by eapply same_super_insert]. intros y. apply (same_inode_refl s1 _ y Hf1). cbn. lia.
  - exists x, n, id1, id2. eexists. split; [done|]. split; [exact Hi|]. split; [cbn; by rewrite Hd|]. split; [cbn; by rewrite Hs, insert_insert_eq|]. done.
Qed.

(** The numbers of devices: every instance has a number that is marked, and a
    number is free. *)
Record devices_ok (s : tst) (m : dynarr_t) : Prop := {
  do_bitmap : anon_bitmap (anon s) = Some m;
  do_arr : bitmap_arr m;
  do_bits : bits m <= DEVT_MAX_COUNT + 1;
  do_marked b q : supers s !! b = Some q -> exists k, dev q = MKDEV ANON_DEV k /\ 0 <= k < bits m /\ bit_at (arr m) k = true;
  do_free : exists j, 1 <= j < bits m /\ bit_at (arr m) j = false;
  do_addr b q : supers s !! b = Some q -> b < next_addr s
}.

Lemma mkdev_anon_inj k k' : 0 <= k <= DEVT_MAX_COUNT -> 0 <= k' <= DEVT_MAX_COUNT -> MKDEV ANON_DEV k = MKDEV ANON_DEV k' -> k = k'.
Proof.
  intros Hk Hk' E. assert (0 <= ANON_DEV <= DEV_MAX_MAJOR) as Ha by (by vm_compute). destruct (mkdev_split ANON_DEV k Ha Hk) as (_ & _ & H1). destruct (mkdev_split ANON_DEV k' Ha Hk') as (_ & _ & H2). congruence.
Qed.

Lemma anon_get_run s m : devices_ok s m -> exists k m', anon_op drivers_get_anon_id s = Ok ((0, MKDEV ANON_DEV k), with_anon s (Numbers (Some m') (major_bitmap (anon s)) (fops_table (anon s)))) /\
  bitmap_arr m' /\ bits m' = bits m /\ 1 <= k < bits m /\ bit_at (arr m) k = false /\ (forall j, bit_at (arr m') j = (k =? j) || bit_at (arr m) j).
Proof.
  intros [Hm Ha Hb _ (j & Hj & Hf) _]. destruct (take_id_spec m j Ha Hj Hf) as (k & m' & Et & Ha' & Hb' & Hk & Hkf & Hset).
  exists k, m'. split; [|split; [done|]; split; [done|]; split; [lia|]; done]. unfold anon_op, drivers_get_anon_id. rewrite Hm, Et. done.
Qed.

Lemma put_super_run s b p m k nb nf : supers s !! b = Some p -> anon s = Numbers (Some m) nb nf -> bitmap_arr m -> dev p = MKDEV ANON_DEV k -> 1 <= k < bits m -> bits m <= DEVT_MAX_COUNT + 1 ->
  exists m', tmpfs_put_super b s = Ok (tt, with_supers (with_anon s (Numbers (Some m') nb nf)) (delete b (supers s))) /\
    forall j, bit_at (arr m') j = negb (k =? j) && bit_at (arr m) j.
Proof.
  intros Hp Hm Ha Hd Hk Hb. destruct (give_id_spec m k Ha) as (m' & Eg & _ & _ & Hclr); [lia|]. exists m'. split; [|exact Hclr].
  unfold tmpfs_put_super. rewrite (st_step _ _ _ _ _ (get_super_run s b p Hp)).
  destruct (mkdev_split ANON_DEV k) as (_ & _ & Hl); [by vm_compute|lia|].
  assert (anon_op (fun n => n ← drivers_free_anon_id (dev p) n; Ok (tt, n)) s = Ok (tt, with_anon s (Numbers (Some m') nb nf))) as E.
  { unfold anon_op, drivers_free_anon_id. rewrite Hm, Hd, Hl, (proj2 (Z.eqb_neq k 0)) by lia. cbn [anon_bitmap major_bitmap fops_table]. by rewrite Eg. }
  by rewrite (st_step _ _ _ _ _ E).
Qed.

(** The outcomes of a mount.  When it failed, all inodes, dentries, instances
    and device numbers are as before; the cache of inodes is too, or it holds
    an inode that has been freed. *)
Definition mount_failed (s s' : tst) (m : dynarr_t) : Prop :=
  inodes s' = inodes s /\ dentries s' = dentries s /\ supers s' = supers s /\
  (exists m', anon_bitmap (anon s') = Some m' /\ forall j, bit_at (arr m') j = bit_at (arr m) j) /\
  ((icache s' = icache s /\ fs_ok s') \/
   exists x, inodes s' !! x = None /\ hash_nodes (icache s') ≡ₚ x :: hash_nodes (icache s)).
Definition mounted (s s' : tst) (data : option (list Z)) (m : dynarr_t) (d : Z) : Prop :=
  fs_ok s' /\ exists b x n id1 id2 p k, supers s !! b = None /\ inodes s !! x = None /\ supers s' = <[b := p]> (supers s) /\
    root p = d /\ sb_inodes p = [x] /\ max_pages p = tmpfs_parse_size data /\ dev p = MKDEV ANON_DEV k /\ bit_at (arr m) k = false /\
    dentries s' = <[d := Dentry [47] x DCACHE_NONE 0]> (dentries s) /\
    exists r, inodes s' = <[x := r]> (inodes s) /\ dir_list r = [De id1 dot n; De id2 dotdot n] /\ ino r = n /\ sb r = b /\ S_ISDIR (mode r) = true /\ nlink r = 2.

Lemma failed_ok s s' : fs_ok s -> icache s' = icache s -> next_addr s <= next_addr s' -> inodes s' = inodes s -> supers s' = supers s -> fs_ok s'.
Proof.
  intros Hf Hc Hn Hi Hs. apply (fs_ok_alter s); [done|done|done|intros y; rewrite Hi; apply (same_inode_refl s s' y Hf Hn)|intros y; rewrite Hs; apply same_super_refl].
Qed.

Lemma failed_alloc s m a t r : fs_ok s -> next_addr s <= a -> devices_ok s m ->
  exists r' s', (mret r : ST tst (Z + Z)) (with_alloc s a t) = Ok (r', s') /\ r' = r /\ mount_failed s s' m.
Proof.
  intros Hf Ha [Hm _ _ _ _ _]. eexists _, _. split; [reflexivity|]. split; [done|]. split; [done|]. split; [done|]. split; [done|]. split; [by exists m|].
  left. split; [done|]. by apply (failed_ok s).
Qed.

(** C22: mounting.  On a coherent file system, with a free device number below
    the length of the bitmap of numbers (so that it need not grow) and a heap
    that answers cleared pages, [tmpfs_mount] ends.  Either it adds one
    instance, with a device number that was free, whose root is a directory
    with the entries "." and ".." that lead to itself, and the file system is
    coherent again; or there is no memory and every inode, dentry, instance
    and device number is as before, and so is the cache of inodes, unless the
    root inode had been made already: then the cache keeps the freed inode. *)
Theorem tmpfs_mount_correct s data m : heap_cleared -> fs_ok s -> devices_ok s m ->
  exists r s', tmpfs_mount data s = Ok (r, s') /\ match r with inl err => err = - ENOMEM /\ mount_failed s s' m | inr d => mounted s s' data m d end.
Proof.
  intros Hc Hf Hdo. unfold tmpfs_mount.
  destruct (kalloc_any s (fo_next s Hf)) as (sbi & a1 & t1 & E1 & Ha1 & Hz1). rewrite (st_step _ _ _ _ _ E1).
  assert (forall a t, next_addr s <= a -> exists r s', (mret (inl (- ENOMEM)) : ST tst (Z + Z)) (with_alloc s a t) = Ok (r, s') /\ match r with inl err => err = - ENOMEM /\ mount_failed s s' m | inr d => mounted s s' data m d end) as Hfail.
  { intros a t Hat. destruct (failed_alloc s m a t (inl (- ENOMEM)) Hf Hat Hdo) as (r & s' & E & -> & Hx). by exists (inl (- ENOMEM)), s'. }
  destruct Hz1 as [->|(_ & Hz1 & _)]; [apply Hfail; lia|]. rewrite Hz1. set (s1 := with_alloc s a1 t1) in *. assert (0 < next_addr s1) as Hn1 by (cbn; pose proof (fo_next s Hf); lia).
  destruct (bitmap_init_run s1 Hc Hn1) as (bm & a2 & t2 & E2 & Ha2 & Hbm). rewrite (st_step _ _ _ _ _ E2). destruct bm as [bm|]; [|apply Hfail; cbn in Ha2; lia]. destruct (Hbm bm eq_refl) as (Hba & Hbits & Hset).
  change (with_alloc s1 a2 t2) with (with_alloc s a2 t2). set (s2 := with_alloc s a2 t2). change (next_addr s1) with a1 in Ha2. assert (0 < next_addr s2) as Hn2 by (cbn; pose proof (fo_next s Hf); lia).
  destruct (kalloc_any s2 Hn2) as (b & a3 & t3 & E3 & Ha3 & Hz3). rewrite (st_step _ _ _ _ _ E3). destruct Hz3 as [->|(Eb & Hz3 & Hb3)]; [apply Hfail; cbn in Ha3; lia|]. rewrite Hz3.
  change (with_alloc s2 a3 t3) with (with_alloc s a3 t3). set (s3 := with_alloc s a3 t3). change (next_addr s2) with a2 in Ha3, Eb.
  assert (devices_ok s3 m) as Hdo3 by (destruct Hdo; split; try done; intros b' q Hq; cbn; specialize (do_addr0 b' q Hq); clear - do_addr0 Ha1 Ha2 Ha3; lia).
  destruct (anon_get_run s3 m Hdo3) as (k & m' & E4 & Ham & Hbm' & Hk & Hkf & Hmset). rewrite (st_step _ _ _ _ _ E4). cbn [Z.eqb negb]. rewrite st_modify_step.
  set (s4 := with_anon _ _). set (p := Super _ _ _ _ _ _ _ _ _ _). set (s5 := with_supers s4 _).
  assert (supers s !! b = None) as Hbn. { destruct (supers s !! b) as [q|] eqn:Eq; [|done]. pose proof (do_addr s m Hdo b q Eq). lia. }
  assert (fs_ok s4) as Hf4 by (apply (fs_ok_alter s); [done|done|cbn; lia|intros y; apply (same_inode_refl s s4 y Hf); cbn; lia|intros y; apply same_super_refl]).
  assert (fs_ok s5) as Hf5.
  { apply fs_ok_super; [done|done|done|]. intros b' q Eq Ed. destruct (do_marked s m Hdo b' q Eq) as (k' & Ek' & Hk' & Hbit). pose proof (do_bits s m Hdo). rewrite Ek' in Ed. apply mkdev_anon_inj in Ed; [congruence|lia|lia]. }
  assert (supers s5 !! b = Some p) as Hp5 by (cbn; apply lookup_insert_eq).
  assert (free_number p) as Hfree by (exists 2; cbn [p inode_bitmap]; rewrite Hset; split; [lia|done]).
  destruct (mount_root_run s5 b p Hf5 Hp5 Hfree) as (r & s6 & E6 & Hr). rewrite (st_step _ _ _ _ _ E6). destruct r as [err|d].
  - destruct Hr as (-> & Hca & Hna & Hi & Hd & Han & p' & Hs & Hdev). assert (supers s6 !! b = Some p') as Hp6 by (rewrite Hs; apply lookup_insert_eq).
    destruct (put_super_run s6 b p' m' k (major_bitmap (anon s)) (fops_table (anon s)) Hp6) as (m2 & E7 & Hclr); [by rewrite Han|done|by rewrite Hdev|lia|rewrite Hbm'; apply (do_bits s m Hdo)|].
    rewrite (st_step _ _ _ _ _ E7). eexists _, _. split; [reflexivity|]. split; [done|]. split; [by cbn; rewrite Hi|]. split; [by cbn; rewrite Hd|]. split.
    + cbn. rewrite Hs. cbn. rewrite insert_insert_eq. by rewrite delete_insert_id.
    + split; [exists m2; split; [done|]; intros j; rewrite Hclr, Hmset; destruct (Z.eqb_spec k j) as [<-|]; [by rewrite Hkf|done]|].
      destruct Hca as [Hca|(x & Hx & Hca)]; [left|right].
      * split; [done|]. apply (failed_ok s); [done|done|cbn in *; lia|by cbn; rewrite Hi|]. cbn. rewrite Hs. cbn. rewrite insert_insert_eq. by rewrite delete_insert_id.
      * exists x. split; [cbn; by rewrite Hi|done].
  - destruct Hr as (_ & Hf6 & x & n & id1 & id2 & p' & Hxn & Hi & Hd & Hs & Hrt & Hdev & Hsi & Hmax). exists (inr d), s6. split; [done|]. split; [done|].
    exists b, x, n, id1, id2, p', k. split; [done|]. split; [done|]. split; [rewrite Hs; cbn; by rewrite insert_insert_eq|]. split; [done|]. split; [by rewrite Hsi|]. split; [by rewrite Hmax|].
    split; [by rewrite Hdev|]. split; [done|]. split; [done|]. eexists. split; [exact Hi|]. done.
Qed.
End mounting.

(** ** A small instance *)

Definition no_fs : tst :=
  Tst ∅ ∅ ∅ (Ht [[]]) None (Numbers (Some empty_minors) None None) 100 (fun _ => true) 0 5 (0, 0).

Lemma no_fs_ok : fs_ok no_fs.
Proof.
  split; cbn [inodes supers next_addr no_fs]; try (intros *; rewrite ?lookup_empty; done); try lia.
  - split; [exists 0; split; [lia|done]|]. intros j l x Ej Hx. cbn in Ej. destruct j as [|j]; [|done]. injection Ej as <-. by apply elem_of_nil in Hx.
  - apply NoDup_nil_2.
Qed.

Lemma no_fs_devices : devices_ok no_fs empty_minors.
Proof.
  split; [done|exact empty_minors_arr|by vm_compute|done| |done]. exists 1. split; by vm_compute.
Qed.

Lemma zero_heap_cleared : @heap_cleared zero_heap.
Proof. intros n a. unfold kheap_alloc, zero_heap. destruct (_ && _); by intros [= <-]. Qed.

Lemma tmpfs_mount_correct_witness : exists r s', @tmpfs_mount zero_heap None no_fs = Ok (r, s') /\
  match r with inl err => err = - ENOMEM /\ mount_failed no_fs s' empty_minors | inr d => mounted no_fs s' None empty_minors d end.
Proof. apply (@tmpfs_mount_correct zero_heap no_fs None empty_minors zero_heap_cleared no_fs_ok no_fs_devices). Defined.

(** Unmounting frees the inodes of the instance, but the cache keeps them: a
    lookup that comes to such an inode reads freed memory. *)
Example kill_sb_leaves_stale : exists s', tmpfs_kill_sb 1 demo_fs = Ok (tt, s') /\ inodes s' = ∅ /\ hash_nodes (icache s') = [10] /\
  hash_lookup vfs_inode_hash_fn vfs_inode_eq_fn (icache s') (8, 1) (vfs_inode_get_key s') = Fault.
Proof. eexists. split; [vm_compute; reflexivity|]. split; [|split]; by vm_compute. Qed.
