(* ===== verification/TmpfsFile.v ===== *)
(** * tmpfs: file data (kernel/fs/tmpfs/tmpfs.c)

    A file keeps an array of pointers to its pages.  [dynarr_get] answers the
    address of an element of the array, and the code takes it for the address
    of the page: what is written to the file goes to the buffer of the array
    itself, and a byte beyond the end of that buffer is a [Fault]. *)

From S2P Require Import Prelude StateM Bitmap Endian Dynarr Devt Hash Tmpfs TmpfsSpec.

Local Open Scope Z_scope.

(** include/vfs.h: seek_whence_t; fs/vfs.h: the bits of ia_valid *)
Inductive seek_whence := SEEK_SET | SEEK_CUR | SEEK_END.
Definition ATTR_MODE : Z := 1.
Definition ATTR_UID : Z := 2.
Definition ATTR_GID : Z := 4.
Definition ATTR_SIZE : Z := 8.
Definition ATTR_ATIME : Z := 16.
Definition ATTR_MTIME : Z := 32.

(** include/vfs.h: struct iattr *)
Record iattr := Iattr { ia_valid : Z; ia_mode : Z; ia_uid : Z; ia_gid : Z; ia_size : Z; ia_atime : Z; ia_mtime : Z }.

(** A 64-bit number read as an off_t. *)
Definition off_t (x : Z) : Z := to_signed 64 x.

Definition set_size (i : inode) n := Inode (ino i) (rdev i) (mode i) (uid i) (gid i) n (atime i) (mtime i) (ctime i) (Z.shiftr (u64 (n + 511)) 9) (nlink i) (ops_set i) (fop i) (sb i) (count i) (pages i) (symlink_target i) n (dir_list i).
Definition set_times (i : inode) a m c := Inode (ino i) (rdev i) (mode i) (uid i) (gid i) (size i) a m c (blocks i) (nlink i) (ops_set i) (fop i) (sb i) (count i) (pages i) (symlink_target i) (data_size i) (dir_list i).
Definition set_perm (i : inode) m u g := Inode (ino i) (rdev i) m u g (size i) (atime i) (mtime i) (ctime i) (blocks i) (nlink i) (ops_set i) (fop i) (sb i) (count i) (pages i) (symlink_target i) (data_size i) (dir_list i).

Section file.
Context `{Heap}.

Abbreviation tm := (ST tst).

(** The number of pages of [n] bytes. *)
Definition page_count (n : Z) : Z := u64 (n + TMPFS_PAGE_SIZE - 1) / TMPFS_PAGE_SIZE.

(** ** Reading *)

(** tmpfs.c: tmpfs_read, one turn of the loop over pages: the position, what
    is left to read, and the bytes read so far *)
Definition read_turn (p : option dynarr_t) (v : Z * Z * list Z) : tm (Z * Z * list Z + Z * list Z) :=
  let '(offset, remaining, buf) := v in
  if remaining <=? 0 then mret (inr (offset, buf))
  else
    let page_idx := u64 (Z.quot offset TMPFS_PAGE_SIZE) in
    let page_off := u64 (Z.rem offset TMPFS_PAGE_SIZE) in
    let chunk := Z.min (u64 (TMPFS_PAGE_SIZE - page_off)) remaining in
    l ← (match dynarr_get p page_idx, p with
         | Some page, Some d => fun s => l ← load_bytes (arr d) (page + page_off) (Z.to_nat chunk); Ok (l, s)
         | _, _ => mret (replicate (Z.to_nat chunk) 0)
         end : tm (list Z));
    mret (inl (offset + chunk, remaining - chunk, buf ++ l)).

(** The turns that [n] bytes can take. *)
Definition turns (n : Z) : nat := S (S (S (Z.to_nat (n / TMPFS_PAGE_SIZE)))).

(** tmpfs.c: tmpfs_read at a position; the answer, the bytes, and the new
    position *)
Definition tmpfs_read (x cnt offset : Z) : tm (Z * list Z * Z) :=
  i ← get_inode x;
  if off_t (data_size i) <=? offset then mret (0, [], offset)
  else
    let cnt := if off_t (data_size i) <? off_t (offset + cnt) then u64 (data_size i - offset) else cnt in
    '(off, buf) ← st_loop (turns cnt) (read_turn (pages i)) (offset, cnt, []);
    t ← st_gets now;
    _ ← upd_inode x (fun i => set_times i t (mtime i) (ctime i));
    mret (Z.of_nat (length buf), buf, off).

(** ** Writing *)

(** tmpfs.c: tmpfs_write and tmpfs_setattr, the array of pages, which is made
    if there is none *)
Definition pages_of (x : Z) : tm (option dynarr_t) :=
  i ← get_inode x;
  match pages i with
  | Some d => mret (Some d)
  | None =>
      r ← kalloc;
      let p := dynarr_create (negb (r =? 0)) 8 0 in
      _ ← upd_inode x (fun i => set_pages i p);
      mret p
  end.

(** tmpfs.c: tmpfs_write and tmpfs_setattr, one page that is added: false
    without memory *)
Definition add_page (x : Z) : tm bool :=
  page ← kalloc;
  if page =? 0 then mret false
  else
    i ← get_inode x;
    '(ok, d) ← (fun s => r ← dynarr_append (pages i) (Some (mem_of (le_bytes 8 page))); Ok (r, s));
    _ ← upd_inode x (fun i => set_pages i d);
    mret (ok : bool).

(** tmpfs.c: tmpfs_write, the loop that adds [n] pages *)
Fixpoint add_pages (x : Z) (n : nat) : tm bool :=
  match n with
  | O => mret true
  | S n => ok ← add_page x; if ok : bool then add_pages x n else mret false
  end.

(** tmpfs.c: tmpfs_write, one turn of the loop that copies: the position and
    what is left of the buffer *)
Definition write_turn (x : Z) (v : Z * list Z) : tm (Z * list Z + Z) :=
  let '(offset, buf) := v in
  if bool_decide (buf = []) then mret (inr offset)
  else
    let page_idx := u64 (Z.quot offset TMPFS_PAGE_SIZE) in
    let page_off := u64 (Z.rem offset TMPFS_PAGE_SIZE) in
    let chunk := Z.min (u64 (TMPFS_PAGE_SIZE - page_off)) (Z.of_nat (length buf)) in
    i ← get_inode x;
    match dynarr_get (pages i) page_idx, pages i with
    | Some page, Some d =>
        a ← (fun s => a ← memcpy (arr d) (page + page_off) (mem_of (take (Z.to_nat chunk) buf)) 0 chunk; Ok (a, s));
        _ ← upd_inode x (fun i => set_pages i (Some (set_arr d a)));
        mret (inl (offset + chunk, drop (Z.to_nat chunk) buf))
    | _, _ => fun _ => Fault
    end.

(** tmpfs.c: tmpfs_write, the pages added by a call that fails are taken off
    again *)
Fixpoint pop_pages (fuel : nat) (old : Z) (d : dynarr_t) : outcome dynarr_t :=
  if current_count d <=? old then Ok d
  else
    match fuel with
    | O => Fault
    | S fuel =>
        '(_, _, d) ← dynarr_pop (Some d) (Some (mem_of (le_bytes 8 0)));
        d ← deref d;
        pop_pages fuel old d
    end.

(** tmpfs.c: tmpfs_write, the label [out] after an error.  [old] is the number
    of elements at the beginning; when the array could not be made it is not
    yet set and does not matter *)
Definition undo_write (x old n : Z) : tm unit :=
  i ← get_inode x;
  _ ← (match pages i with
       | None => mret tt
       | Some d =>
           d ← (fun s => d ← pop_pages (Z.to_nat (current_count d)) old d; Ok (d, s));
           upd_inode x (fun i => set_pages i (if old =? 0 then None else Some d))
       end);
  if 0 <? n then tmpfs_free_pages (sb i) n else mret tt.

(** tmpfs.c: tmpfs_write at a position; the answer and the new position *)
Definition tmpfs_write (x : Z) (buf : list Z) (offset : Z) : tm (Z * Z) :=
  i ← get_inode x;
  let cnt := Z.of_nat (length buf) in
  let last := u64 (offset + cnt) in
  let n := page_count last - page_count (data_size i) in
  room ← (if 0 <? n then tmpfs_alloc_pages (sb i) n else mret true);
  if negb room then mret (- ENOSPC, offset)
  else
    p ← pages_of x;
    match p with
    | None => _ ← undo_write x 0 n; mret (- ENOMEM, offset)
    | Some d =>
        ok ← add_pages x (Z.to_nat n);
        if negb ok then _ ← undo_write x (current_count d) n; mret (- ENOMEM, offset)
        else
          off ← st_loop (turns cnt) (write_turn x) (offset, buf);
          _ ← upd_inode x (fun i => if data_size i <? last then set_size i last else i);
          t ← st_gets now;
          _ ← upd_inode x (fun i => set_times i (atime i) t (ctime i));
          mret (cnt, off)
    end.

(** tmpfs.c: tmpfs_llseek *)
Definition tmpfs_llseek (x offset : Z) (whence : seek_whence) : tm Z :=
  i ← get_inode x;
  let new_pos := match whence with SEEK_SET => Some offset | SEEK_END => Some (off_t (size i + offset)) | SEEK_CUR => None end in
  match new_pos with
  | None => mret (- EINVAL)
  | Some p => if p <? 0 then mret (- EINVAL) else mret p
  end.

(** tmpfs.c: tmpfs_release; opening does nothing *)
Definition tmpfs_release (x : Z) : tm Z := _ ← vfs_iput x; mret 0.

(** ** Attributes *)

(** tmpfs.c: tmpfs_setattr, a smaller size.  The addresses that are freed are
    those of the elements of the array: the buffer of the array, or an address
    inside it *)
Definition shrink (x new_size : Z) : tm unit :=
  i ← get_inode x;
  _ ← (match pages i with
       | Some d => if page_count new_size <? current_count d then (fun _ => Fault) else mret tt
       | None => mret tt
       end);
  tmpfs_free_pages (sb i) (u64 (page_count (size i) - page_count new_size)).

(** tmpfs.c: tmpfs_setattr, the loop that adds [n] pages after [k] were added
    to [old]; without memory the elements of the pages added so far are freed,
    if the array has them, and the array goes *)
Fixpoint extend_pages (x old k : Z) (n : nat) : tm bool :=
  match n with
  | O => mret true
  | S n =>
      ok ← add_page x;
      if ok : bool then extend_pages x old (k + 1) n
      else
        i ← get_inode x;
        if (0 <? k) && (match pages i with Some d => old <? current_count d | None => false end) then (fun _ => Fault) : tm bool
        else _ ← upd_inode x (fun i => set_pages i None); mret false
  end.

(** tmpfs.c: tmpfs_setattr, a larger size: an error, or 0 *)
Definition extend (x new_size : Z) : tm Z :=
  i ← get_inode x;
  let n := page_count new_size - page_count (size i) in
  room ← tmpfs_alloc_pages (sb i) n;
  if negb room then mret (- ENOSPC)
  else
    p ← pages_of x;
    match p with
    | None => _ ← tmpfs_free_pages (sb i) n; mret (- ENOMEM)
    | Some _ =>
        ok ← extend_pages x (page_count (size i)) 0 (Z.to_nat n);
        if negb ok then _ ← tmpfs_free_pages (sb i) n; mret (- ENOMEM) else mret 0
    end.

(** tmpfs.c: tmpfs_setattr *)
Definition tmpfs_setattr (d : Z) (attr : iattr) : tm Z :=
  e ← get_dentry d;
  let x := d_inode e in
  let has b := negb (Z.land (ia_valid attr) b =? 0) in
  err ← (if has ATTR_SIZE then
           i ← get_inode x;
           let new_size := u64 (ia_size attr) in
           err ← (if new_size <? size i then _ ← shrink x new_size; mret 0
                  else if (size i <? new_size) && (page_count (size i) <? page_count new_size) then extend x new_size
                  else mret 0);
           if negb (err =? 0) then mret err
           else _ ← upd_inode x (fun i => set_size i new_size); mret 0
         else mret 0);
  if negb (err =? 0) then mret err
  else
    t ← st_gets now;
    _ ← upd_inode x (fun i =>
          set_times
            (set_perm i (if has ATTR_MODE then Z.lor (Z.land (mode i) S_IFMT) (Z.land (ia_mode attr) (cnot 32 S_IFMT)) else mode i)
               (if has ATTR_UID then ia_uid attr else uid i) (if has ATTR_GID then ia_gid attr else gid i))
            (if has ATTR_ATIME then ia_atime attr else atime i) (if has ATTR_MTIME then ia_mtime attr else mtime i) t);
    mret 0.

End file.
