(* ===== verification/TmpfsData.v ===== *)
(** * tmpfs: what reading and writing do

    [dynarr_get] answers the address of an array element, so [tmpfs_write] puts
    the data of a file over the array of its page pointers and not into the
    pages.  For up to 128 bytes, the part of the buffer the array asked for, a
    new file gives back what was written, and its page is lost.  Longer writes
    are not stated: the heap gives whole pages (heap.c), and what is behind the
    128 bytes is not part of the model. *)

From S2P Require Import Prelude StateM Bitmap Endian Dynarr Devt Hash Tmpfs TmpfsSpec TmpfsFile.

Local Open Scope Z_scope.





Section data.
Context `{HeapLaws}.










End data.

(** ** A small instance *)


