(* ===== verification/Block.v ===== *)
(** * The block layer (kernel/block/core.c)

    The list [block_devt_to_info] of the registered disks and partitions, the
    sector and file operations over it, and the registration and removal of
    entries.  An entry is a heap object: the list holds addresses, the entries
    live in a store, and freeing an entry takes it out of the store, so a
    later access through a pointer kept elsewhere is a [Fault].

    The services the layer calls -- the driver callbacks of [struct block_hdr],
    the device numbers of drivers.c, the heap and the device nodes of vfs.c --
    are the interface [BlockEnv]; what the layer relies on is [BlockEnvLaws]. *)

From stdpp Require Import strings pretty.
From S2P Require Import Prelude Bitmap.

Local Open Scope Z_scope.

(** ** The services *)

(** [K] is the state of everything below the block layer. *)
Class BlockEnv (K : Type) := {
  (** hdr->read(priv, dev, sector, buf, count): the answer, the buffer, the state *)
  hdr_read : Z -> Z -> Z -> Z -> bytes -> K -> Z * bytes * K;
  hdr_write : Z -> Z -> Z -> Z -> bytes -> K -> Z * K;
  hdr_flush : Z -> Z -> K -> Z * K;
  (** kheap_alloc(size), 0 when it fails, and kheap_free *)
  heap_alloc : Z -> K -> Z * K;
  heap_free : Z -> K -> K;
  (** drivers_major_alloc: the error or the handle *)
  major_alloc : K -> (Z + Z) * K;
  register_fops : Z -> K -> K;
  (** drivers_minor_alloc(handle, &devt): the answer and the device number *)
  minor_alloc : Z -> K -> Z * Z * K;
  minor_free : Z -> Z -> K -> K;
  (** vfs_mknod(path, mode, devt, root) and vfs_unlink(path, root) *)
  vfs_mknod : string -> Z -> Z -> K -> Z * K;
  vfs_unlink : string -> K -> K
}.

(** ** Data *)

(** core.c: struct block_type *)
Record block_type := BlockType { name : string; counter : Z; major_handle : Z }.

(** core.c: block_dev_info; [type] is the address of the block type *)
Record block_dev_info := BlockDevInfo {
  priv : Z;
  dev : Z;
  sector_count : Z;
  start_sector : Z;
  devt : Z;
  type : Z;
  path : string
}.

Definition BLOCK_DEVICE_PATH_MAX : nat := 32.
Definition sizeof_block_type : Z := 24.
Definition sizeof_block_dev_info : Z := 96.
Definition BLOCK_MODE : Z := Z.lor 0x6000 0x1b0.

(** The list of addresses [block_devt_to_info], the entries and the types in
    memory, and the state below. *)
Record block_st (K : Type) := BlockSt {
  block_devt_to_info : list Z;
  infos : gmap Z block_dev_info;
  types : gmap Z block_type;
  world : K
}.
Arguments BlockSt {K} _ _ _ _.
Arguments block_devt_to_info {K} _.
Arguments infos {K} _.
Arguments types {K} _.
Arguments world {K} _.

Definition SEEK_SET : Z := 0.
Definition SEEK_END : Z := 2.

Section operations.
Context {K : Type} `{BlockEnv K}.
Implicit Types (s : block_st K).

Definition set_world s (k : K) : block_st K :=
  BlockSt (block_devt_to_info s) (infos s) (types s) k.

(** [list_for_each] over the entries, stopping at the first with the device
    number; the answer is its address *)
Fixpoint find_devt (l : list Z) (d : Z) (m : gmap Z block_dev_info) : outcome (option Z) :=
  match l with
  | [] => Ok None
  | p :: l =>
      i ← deref (m !! p);
      if devt i =? d then Ok (Some p) else find_devt l d m
  end.

(** core.c: block_init *)
Definition block_init s : block_st K := BlockSt [] (infos s) (types s) (world s).

(** core.c: block_read_sectors *)
Definition block_read_sectors (d sector : Z) (buf : bytes) (count : Z) s
  : outcome (Z * bytes * block_st K) :=
  p ← find_devt (block_devt_to_info s) d (infos s);
  match p with
  | None => Ok (- ENODEV, buf, s)
  | Some p =>
      i ← deref (infos s !! p);
      let '(ret, buf, k) := hdr_read (priv i) (dev i) (u64 (sector + start_sector i)) count buf (world s) in
      Ok (ret, buf, set_world s k)
  end.

(** core.c: block_write_sectors *)
Definition block_write_sectors (d sector : Z) (buf : bytes) (count : Z) s
  : outcome (Z * block_st K) :=
  p ← find_devt (block_devt_to_info s) d (infos s);
  match p with
  | None => Ok (- ENODEV, s)
  | Some p =>
      i ← deref (infos s !! p);
      let '(ret, k) := hdr_write (priv i) (dev i) (u64 (sector + start_sector i)) count buf (world s) in
      Ok (ret, set_world s k)
  end.

(** core.c: block_flush *)
Definition block_flush (d : Z) s : outcome (Z * block_st K) :=
  p ← find_devt (block_devt_to_info s) d (infos s);
  match p with
  | None => Ok (- ENODEV, s)
  | Some p =>
      i ← deref (infos s !! p);
      let '(ret, k) := hdr_flush (priv i) (dev i) (world s) in Ok (ret, set_world s k)
  end.

(** core.c: block_open; the answer and the private pointer of the file *)
Definition block_open (rdev : Z) s : outcome (Z * option Z) :=
  p ← find_devt (block_devt_to_info s) rdev (infos s);
  Ok (match p with None => (- ENODEV, None) | Some p => (0, Some p) end).

(** core.c: block_read; [file] is the private pointer of the file.  The answer
    is the number of bytes or the error, the buffer and the new position. *)
Definition block_read (file : Z) (buf : bytes) (count pos : Z) s
  : outcome (Z * bytes * Z * block_st K) :=
  i ← deref (infos s !! file);
  if negb (Z.land pos 511 =? 0) || negb (Z.land count 511 =? 0) then Ok (- EINVAL, buf, pos, s)
  else
    let sector := u64 (Z.shiftr pos 9) in
    let n := Z.shiftr count 9 in
    let '(ret, buf, k) := hdr_read (priv i) (dev i) (u64 (sector + start_sector i)) n buf (world s) in
    Ok (if ret =? 0 then (s64 count, buf, s64 (pos + count), set_world s k)
        else (ret, buf, pos, set_world s k)).

(** core.c: block_write *)
Definition block_write (file : Z) (buf : bytes) (count pos : Z) s
  : outcome (Z * Z * block_st K) :=
  i ← deref (infos s !! file);
  if negb (Z.land pos 511 =? 0) || negb (Z.land count 511 =? 0) then Ok (- EINVAL, pos, s)
  else
    let sector := u64 (Z.shiftr pos 9) in
    let n := Z.shiftr count 9 in
    let '(ret, k) := hdr_write (priv i) (dev i) (u64 (sector + start_sector i)) n buf (world s) in
    Ok (if ret =? 0 then (s64 count, s64 (pos + count), set_world s k)
        else (ret, pos, set_world s k)).

(** core.c: block_llseek *)
Definition block_llseek (file offset whence : Z) s : outcome Z :=
  i ← deref (infos s !! file);
  let size := s64 (sector_count i * 512) in
  let check new_pos := if (new_pos <? 0) || (size <? new_pos) then - EINVAL else new_pos in
  Ok (if whence =? SEEK_SET then check offset
      else if whence =? SEEK_END then check (s64 (size + offset))
      else - EINVAL).

(** core.c: block_fsync *)
Definition block_fsync (file : Z) s : outcome (Z * block_st K) :=
  i ← deref (infos s !! file);
  let '(ret, k) := hdr_flush (priv i) (dev i) (world s) in Ok (ret, set_world s k).

(** core.c: block_register_type; 0 is NULL *)
Definition block_register_type (nm : string) s : Z * block_st K :=
  let '(p, k) := heap_alloc sizeof_block_type (world s) in
  if p =? 0 then (0, set_world s k)
  else
    match major_alloc k with
    | (inl _, k) => (0, set_world s (heap_free p k))
    | (inr h, k) =>
        (p, BlockSt (block_devt_to_info s) (infos s) (<[p := BlockType nm 0 h]> (types s)) (register_fops h k))
    end.

(** [list_add_tail(&info->node, &block_devt_to_info)] of a filled entry *)
Definition link_info (p : Z) (i : block_dev_info) s : block_st K :=
  BlockSt (block_devt_to_info s ++ [p]) (<[p := i]> (infos s)) (types s) (world s).

(** [list_del(&info->node); kheap_free(info)] *)
Definition unlink_info (p : Z) s : block_st K :=
  BlockSt (filter (fun q => q <> p) (block_devt_to_info s)) (delete p (infos s)) (types s)
    (heap_free p (world s)).

(** The node names: [snprintk] into the array [path] cuts the string. *)
Definition node_path (str : string) : string := String.substring 0 (BLOCK_DEVICE_PATH_MAX - 1) str.
Definition disk_path (nm : string) (disk : Z) : string :=
  node_path ("/dev/" +:+ nm +:+ pretty disk).
Definition part_path (nm : string) (disk i : Z) : string :=
  node_path ("/dev/" +:+ nm +:+ pretty disk +:+ "p" +:+ pretty (u32 (i + 1))).

(** core.c: block_add_device, the steps for one disk or partition: the device
    number, the entry, the list and the node, undone in reverse when a step
    fails.  The answer is negative exactly on failure. *)
Definition add_entry (ty : Z) (t : block_type) (dv pv count start : Z) (pth : string) s
  : Z * Z * block_st K :=
  let '(ret, d, k) := minor_alloc (major_handle t) (world s) in
  if ret <? 0 then (ret, 0, set_world s k)
  else
    let '(p, k) := heap_alloc sizeof_block_dev_info k in
    if p =? 0 then (- ENOMEM, 0, set_world s (minor_free (major_handle t) d k))
    else
      let s := link_info p (BlockDevInfo pv dv count start d ty pth) (set_world s k) in
      let '(ret, k) := vfs_mknod pth BLOCK_MODE d (world s) in
      let s := set_world s k in
      if ret <? 0 then
        let s := unlink_info p s in
        (ret, 0, set_world s (minor_free (major_handle t) d (world s)))
      else (0, d, s).

(** core.c: block_remove_device, the loop over the entries *)
Fixpoint remove_loop (l : list Z) (dv ret : Z) s : outcome (Z * block_st K) :=
  match l with
  | [] => Ok (ret, s)
  | p :: l =>
      i ← deref (infos s !! p);
      if dev i =? dv then
        t ← deref (types s !! type i);
        let s := BlockSt (filter (fun q => q <> p) (block_devt_to_info s)) (infos s) (types s) (world s) in
        let k := minor_free (major_handle t) (devt i) (vfs_unlink (path i) (world s)) in
        let s := BlockSt (block_devt_to_info s) (delete p (infos s)) (types s) (heap_free p k) in
        remove_loop l dv 0 s
      else remove_loop l dv ret s
  end.

(** core.c: block_remove_device *)
Definition block_remove_device (dv : Z) s : outcome (Z * block_st K) :=
  remove_loop (block_devt_to_info s) dv (- ENODEV) s.

End operations.

(** ** What the layer relies on *)

Class BlockEnvLaws (K : Type) `{BlockEnv K} := {
  (** the disk content a driver object gives access to: byte of a sector *)
  disk : K -> Z -> Z -> Z -> Z -> Z;
  (** the heap objects and the device numbers in use *)
  live : K -> gset Z;
  numbers : K -> gset Z;
  (** a call that leaves all three as they are *)
  same k k' := (forall pv dv sec j, disk k' pv dv sec j = disk k pv dv sec j) /\
    live k' = live k /\ numbers k' = numbers k;
  (** a read keeps the size of the buffer and, when it succeeds, fills it *)
  read_law pv dv sector count buf k ret buf' k' :
    hdr_read pv dv sector count buf k = (ret, buf', k') -> bitmap_wf buf (512 * count) ->
    bitmap_wf buf' (512 * count) /\ same k k' /\
    (0 <= ret -> forall i, 0 <= i < 512 * count ->
       buf' !! i = Some (disk k pv dv (sector + i / 512) (i mod 512)));
  alloc_law n k p k' : heap_alloc n k = (p, k') ->
    (forall pv dv sec j, disk k' pv dv sec j = disk k pv dv sec j) /\ numbers k' = numbers k /\
    (p = 0 -> live k' = live k) /\ (p <> 0 -> p ∉ live k /\ live k' = {[p]} ∪ live k);
  free_law p k : let k' := heap_free p k in
    (forall pv dv sec j, disk k' pv dv sec j = disk k pv dv sec j) /\ numbers k' = numbers k /\
    live k' = live k ∖ {[p]};
  minor_law h k ret d k' : minor_alloc h k = (ret, d, k') ->
    (forall pv dv sec j, disk k' pv dv sec j = disk k pv dv sec j) /\ live k' = live k /\
    (ret < 0 -> numbers k' = numbers k) /\ (0 <= ret -> d ∉ numbers k /\ numbers k' = {[d]} ∪ numbers k);
  (** a number given back may or may not become available again *)
  minor_free_law h d k : let k' := minor_free h d k in
    (forall pv dv sec j, disk k' pv dv sec j = disk k pv dv sec j) /\ live k' = live k /\
    numbers k ∖ {[d]} ⊆ numbers k' /\ numbers k' ⊆ numbers k;
  mknod_law pth md d k ret k' : vfs_mknod pth md d k = (ret, k') -> same k k';
  unlink_law pth k : same k (vfs_unlink pth k)
}.

(** ** The invariant of the list *)

(** The entries in list order. *)
Definition registered {K} (s : block_st K) : list block_dev_info :=
  omap (fun p => infos s !! p) (block_devt_to_info s).

(** The list has no address twice, the store has exactly its entries, which
    are live heap objects with distinct device numbers in use, of known types. *)
Record block_wf {K} `{BlockEnvLaws K} (s : block_st K) : Prop := {
  wf_nodup : NoDup (block_devt_to_info s);
  wf_dom p : is_Some (infos s !! p) <-> p ∈ block_devt_to_info s;
  wf_live p : p ∈ block_devt_to_info s -> p ∈ live (world s);
  wf_devt_inj p q i j : infos s !! p = Some i -> infos s !! q = Some j -> devt i = devt j -> p = q;
  wf_devt p i : infos s !! p = Some i -> devt i ∈ numbers (world s);
  wf_type p i : infos s !! p = Some i -> is_Some (types s !! type i)
}.

Section wellformed.
Context {K : Type} `{BlockEnvLaws K}.
Implicit Types (s : block_st K).

(** Looking a device number up: no dangling entry is met, and the entry found
    is the one with that number. *)
Lemma find_devt_spec s l d :
  (forall p, p ∈ l -> is_Some (infos s !! p)) ->
  match find_devt l d (infos s) with
  | Ok (Some p) => p ∈ l /\ exists i, infos s !! p = Some i /\ devt i = d
  | Ok None => forall p i, p ∈ l -> infos s !! p = Some i -> devt i <> d
  | _ => False
  end.
Proof.
  induction l as [|q l IH]; intros Hl; cbn [find_devt]; [by intros ? ? ?%elem_of_nil|].
  destruct (Hl q) as [i Ei]; [left|]. rewrite Ei. cbn [deref mbind outcome_bind].
  destruct (Z.eqb_spec (devt i) d) as [<-|Hne]; [split; [left|by exists i]|].
  specialize (IH (fun p Hp => Hl p (list_elem_of_further _ _ _ Hp))). destruct (find_devt _ _ _) as [[p|]| |]; try done.
  - destruct IH as [Hp ?]. split; [by right|done].
  - intros p j [->|Hp]%elem_of_cons Ej; [by simplify_eq|eauto].
Qed.

Lemma find_devt_registered s p i : block_wf s -> infos s !! p = Some i ->
  find_devt (block_devt_to_info s) (devt i) (infos s) = Ok (Some p).
Proof.
  intros Hwf Ei. pose proof (find_devt_spec s (block_devt_to_info s) (devt i)) as Hf.
  destruct (find_devt _ _ _) as [[q|]| |].
  - destruct Hf as (Hq & j & Ej & Ed); [by intros q' ?; apply (wf_dom s Hwf)|].
    by rewrite (wf_devt_inj s Hwf q p j i Ej Ei Ed).
  - exfalso. apply (Hf ltac:(by intros q' ?; apply (wf_dom s Hwf)) p i); try done.
    apply (wf_dom s Hwf). by eexists.
  - destruct Hf. by intros q' ?; apply (wf_dom s Hwf).
  - destruct Hf. by intros q' ?; apply (wf_dom s Hwf).
Qed.

(** Only the state below changes, and nothing the invariant is about. *)
Lemma set_world_wf s k : block_wf s -> same (world s) k -> block_wf (set_world s k).
Proof. intros [] (_ & Hl & Hn). constructor; cbn; rewrite ?Hl, ?Hn; eauto. Qed.

Lemma set_world_id s : set_world s (world s) = s.
Proof. by destruct s. Qed.

Lemma same_refl k : same k k.
Proof. done. Qed.
Lemma same_trans k1 k2 k3 : same k1 k2 -> same k2 k3 -> same k1 k3.
Proof. intros (A & B & C) (A' & B' & C'). repeat split; congruence. Qed.

(** Reading sectors of a registered entry reaches the disk of its driver,
    shifted by the start of the entry. *)
Lemma block_read_sectors_spec s p i sector buf count : block_wf s -> infos s !! p = Some i ->
  bitmap_wf buf (512 * count) ->
  exists ret buf' k, block_read_sectors (devt i) sector buf count s = Ok (ret, buf', set_world s k) /\
    same (world s) k /\ bitmap_wf buf' (512 * count) /\
    hdr_read (priv i) (dev i) (u64 (sector + start_sector i)) count buf (world s) = (ret, buf', k) /\
    (0 <= ret -> forall j, 0 <= j < 512 * count ->
       buf' !! j = Some (disk (world s) (priv i) (dev i) (u64 (sector + start_sector i) + j / 512) (j mod 512))).
Proof.
  intros Hwf Ei Hb. unfold block_read_sectors. rewrite (find_devt_registered s p i) by done.
  cbn [mbind outcome_bind]. rewrite Ei. cbn [deref mbind outcome_bind].
  destruct (hdr_read _ _ _ _ _ _) as [[ret buf'] k] eqn:E.
  destruct (read_law _ _ _ _ _ _ _ _ _ E Hb) as (H1 & H2 & H3).
  exists ret, buf', k. done.
Qed.

End wellformed.
