(* ===== verification/RamDisk.v ===== *)
(** * A RAM disk below the block layer

    A concrete instance of the services of Block.v, with the proof that it
    obeys their laws: the disk is a function from sectors to bytes, heap
    objects and device numbers are any unused ones, device nodes are a list of
    paths.  It instantiates the theorems about the block layer. *)

From stdpp Require Import strings.
From S2P Require Import Prelude Bitmap Endian Block.

Local Open Scope Z_scope.

Record ram := Ram {
  content : Z -> Z -> Z;
  objects : gset Z;
  minors : gset Z;
  device_nodes : list string
}.

Definition ram_byte (k : ram) (sector j : Z) : Z := u8 (content k sector j).

(** The bytes of [count] sectors. *)
Definition ram_sectors (k : ram) (sector count : Z) : list Z :=
  (fun i => ram_byte k (sector + i / 512) (i mod 512)) <$> seqZ 0 (512 * count).

Definition ram_write (k : ram) (sector count : Z) (buf : bytes) : ram :=
  Ram (fun n j => if (sector <=? n) && (n <? sector + count)
                  then default 0 (buf !! (512 * (n - sector) + j)) else content k n j)
    (objects k) (minors k) (device_nodes k).

#[export] Instance ram_env : BlockEnv ram := {
  hdr_read _ _ sector count _ k := (0, mem_of (ram_sectors k sector count), k);
  hdr_write _ _ sector count buf k := (0, ram_write k sector count buf);
  hdr_flush _ _ k := (0, k);
  heap_alloc _ k := let p := fresh ({[0]} ∪ objects k) in
    (p, Ram (content k) ({[p]} ∪ objects k) (minors k) (device_nodes k));
  heap_free p k := Ram (content k) (objects k ∖ {[p]}) (minors k) (device_nodes k);
  major_alloc k := (inr 1, k);
  register_fops _ k := k;
  minor_alloc _ k := let d := fresh (minors k) in
    (0, d, Ram (content k) (objects k) ({[d]} ∪ minors k) (device_nodes k));
  minor_free _ d k := Ram (content k) (objects k) (minors k ∖ {[d]}) (device_nodes k);
  vfs_mknod pth _ _ k :=
    if decide (pth ∈ device_nodes k) then (-17, k)
    else (0, Ram (content k) (objects k) (minors k) (pth :: device_nodes k));
  vfs_unlink pth k := Ram (content k) (objects k) (minors k) (filter (fun q => q <> pth) (device_nodes k))
}.

Lemma ram_sectors_length k sector count : 0 <= count ->
  Z.of_nat (length (ram_sectors k sector count)) = 512 * count.
Proof. intros. unfold ram_sectors. rewrite length_fmap, length_seqZ. lia. Qed.

Lemma ram_sectors_fits k sector count : Forall (fits 8) (ram_sectors k sector count).
Proof. unfold ram_sectors. apply Forall_fmap, Forall_true. intros i. apply (wrap_fits 8). lia. Qed.

#[export] Instance ram_laws : BlockEnvLaws ram.
Proof.
  refine {| disk k _ _ sec j := ram_byte k sec j; live := objects; numbers := minors |}.
  - intros pv dv sector count buf k ret buf' k' [= <- <- <-] Hb. split; [|split; [done|]].
    + destruct (Z.le_gt_cases 0 count) as [Hc|Hc].
      * rewrite <- (ram_sectors_length k sector count Hc). apply mem_of_wf, ram_sectors_fits.
      * unfold ram_sectors. rewrite seqZ_nil by lia. split; [|done].
        intros i. change (is_Some ((∅ : bytes) !! i) <-> 0 <= i < 512 * count). rewrite lookup_empty.
        split; [by intros []|lia].
    + intros _ i Hi. rewrite <- (Z2Nat.id i) at 1 by lia. rewrite mem_of_lookup. unfold ram_sectors.
      rewrite list_lookup_fmap, lookup_seqZ_lt by lia. cbn [fmap option_fmap option_map].
      by replace (0 + Z.of_nat (Z.to_nat i)) with i by lia.
  - intros n k p k' [= <- <-]. cbn. pose proof (is_fresh ({[0]} ∪ objects k)) as Hf.
    apply not_elem_of_union in Hf as [H0 Hf]. rewrite elem_of_singleton in H0. done.
  - done.
  - intros h k ret d k' [= <- <- <-]. cbn. pose proof (is_fresh (minors k)). split_and!; (done || lia).
  - intros h d k. cbn. split_and!; try done. apply subseteq_difference_l. done.
  - intros pth md d k ret k' E. cbn in E. by case_decide; simplify_eq/=.
  - done.
Defined.

(** No read of a RAM disk fails. *)
Lemma ram_reads pv dv sector count buf (k : ram) : hdr_read pv dv sector count buf k =
  (0, mem_of (ram_sectors k sector count), k).
Proof. done. Qed.
