(* ===== verification/Gpt.v ===== *)
(** * GUID partition tables (kernel/block/gpt.c)

    Parsing the partition table of a registered disk: the header and its
    checks, the table read sector by sector into a dynamic array of bytes, and
    the extraction of the partitions.  The disk is read through the block
    layer of Block.v, the arrays are those of Dynarr.v, the checksum is the
    routine of Crc32.v. *)

From S2P Require Import Prelude Bitmap Crc32 Dynarr Endian Block.

Local Open Scope Z_scope.

(** gpt.c: gpt_header_t *)
Record gpt_header_t := GptHeader {
  signature : list Z;
  revision : Z;
  header_size : Z;
  header_crc32 : Z;
  reserved : Z;
  current_lba : Z;
  backup_lba : Z;
  first_usable_lba : Z;
  last_usable_lba : Z;
  disk_guid : list Z;
  partition_entry_lba : Z;
  partition_entry_count : Z;
  partition_entry_size : Z;
  partition_table_crc32 : Z
}.

(** gpt.c: gpt_entry_t *)
Record gpt_entry_t := GptEntry {
  partition_type_guid : list Z;
  unique_guid : list Z;
  starting_lba : Z;
  ending_lba : Z;
  attributes : Z;
  partition_name : list Z
}.

(** core.h: struct block_partition_info *)
Record block_partition_info := PartInfo {
  start_lba : Z;
  end_lba : Z;
  size : Z;
  type_guid : list Z;
  part_guid : list Z;
  pattributes : Z;
  pname : list Z
}.

Definition sizeof_gpt_header : Z := 92.
Definition sizeof_gpt_entry : Z := 128.
Definition sizeof_part_info : Z := 136.

(** The ASCII bytes of "EFI PART". *)
Definition EFI_PART : list Z := [69; 70; 73; 32; 80; 65; 82; 84].

(** The structures as the code sees them through a pointer into a buffer. *)
Definition load_header (m : bytes) : outcome gpt_header_t :=
  signature ← load_bytes m 0 8;
  revision ← load_le m 8 4;
  header_size ← load_le m 12 4;
  header_crc32 ← load_le m 16 4;
  reserved ← load_le m 20 4;
  current_lba ← load_le m 24 8;
  backup_lba ← load_le m 32 8;
  first_usable_lba ← load_le m 40 8;
  last_usable_lba ← load_le m 48 8;
  disk_guid ← load_bytes m 56 16;
  partition_entry_lba ← load_le m 72 8;
  partition_entry_count ← load_le m 80 4;
  partition_entry_size ← load_le m 84 4;
  partition_table_crc32 ← load_le m 88 4;
  Ok (GptHeader signature revision header_size header_crc32 reserved current_lba backup_lba
        first_usable_lba last_usable_lba disk_guid partition_entry_lba partition_entry_count
        partition_entry_size partition_table_crc32).

Definition load_entry (m : bytes) (off : Z) : outcome gpt_entry_t :=
  type_guid ← load_bytes m off 16;
  unique ← load_bytes m (off + 16) 16;
  start ← load_le m (off + 32) 8;
  end_ ← load_le m (off + 40) 8;
  attr ← load_le m (off + 48) 8;
  nm ← load_bytes m (off + 56) 72;
  Ok (GptEntry type_guid unique start end_ attr nm).

(** The bytes of a [struct block_partition_info]. *)
Definition info_bytes (p : block_partition_info) : list Z :=
  le_bytes 8 (start_lba p) ++ le_bytes 8 (end_lba p) ++ le_bytes 8 (size p) ++
  type_guid p ++ part_guid p ++ le_bytes 8 (pattributes p) ++ pname p.

Section gpt.
Context {K : Type} `{BlockEnv K} `{Heap}.
Implicit Types (s : block_st K) (stk : bytes).

(** gpt.c: gpt_check_protective_mbr.  [stk] is the uninitialised local buffer. *)
Definition gpt_check_protective_mbr (d : Z) stk s : outcome (bool * block_st K) :=
  '(ret, mbr, s) ← block_read_sectors d 0 stk 1 s;
  if ret <? 0 then Ok (false, s)
  else
    signature ← load_le mbr 0x1FE 2;
    if negb (signature =? 0xAA55) then Ok (false, s)
    else
      t ← load8 mbr (0x1BE + 4);
      Ok (if t =? 0xEE then true else false, s).

(** gpt.c: gpt_check_header, the tests on the fields *)
Definition header_fields_ok (h : gpt_header_t) : bool :=
  if negb (bool_decide (signature h = EFI_PART)) then false
  else if negb (revision h =? 0x00010000) then false
  else if (header_size h <? sizeof_gpt_header) || (512 <? header_size h) then false
  else if negb (current_lba h =? 1) then false
  else if partition_entry_lba h <=? 1 then false
  else if partition_entry_count h =? 0 then false
  else if partition_entry_size h <? sizeof_gpt_entry then false
  else true.

(** gpt.c: gpt_check_header; [None] when it answers false *)
Definition gpt_check_header (d : Z) stk s : outcome (option gpt_header_t * block_st K) :=
  '(ret, buf, s) ← block_read_sectors d 1 stk 1 s;
  if ret <? 0 then Ok (None, s)
  else
    h ← load_header buf;
    if negb (header_fields_ok h) then Ok (None, s)
    else
      let stored_crc := header_crc32 h in
      buf ← memset buf 16 0 4;
      crc_calc ← crc32 0 buf (header_size h);
      Ok (if negb (crc_calc =? stored_crc) then None else Some h, s).

(** gpt.c: gpt_check_partition_table, appending the bytes of a sector; [inr]
    when an append fails *)
Definition append_sector (sector_buf : bytes) (raw : dynarr_t) : outcome (dynarr_t + dynarr_t) :=
  for_ret 512 0 (fun j raw =>
    b ← load8 sector_buf j;
    '(ok, r) ← dynarr_append (Some raw) (Some {[0 := b]});
    raw ← deref r;
    Ok (if ok : bool then inl raw else inr raw)) raw.

(** gpt.c: gpt_check_partition_table *)
Definition gpt_check_partition_table (d : Z) (h : gpt_header_t) (raw : dynarr_t) stk s
  : outcome (bool * dynarr_t * block_st K) :=
  let total_size := u64 (partition_entry_count h * partition_entry_size h) in
  if total_size =? 0 then Ok (false, raw, s)
  else
    let sectors := u64 (total_size + 511) / 512 in
    r ← for_ret (Z.to_nat sectors) 0 (fun i '(raw, sector_buf, s) =>
          '(ret, sector_buf, s) ← block_read_sectors d (u64 (partition_entry_lba h + i)) sector_buf 1 s;
          if ret <? 0 then Ok (inr (raw, s))
          else
            x ← append_sector sector_buf raw;
            Ok (match x with
                | inl raw => inl (raw, sector_buf, s)
                | inr raw => inr (raw, s)
                end)) (raw, stk, s);
    match r with
    | inr (raw, s) => Ok (false, raw, s)
    | inl (raw, _, s) =>
        crc_calc ← crc32 0 (arr raw) total_size;
        Ok (crc_calc =? partition_table_crc32 h, raw, s)
    end.

(** gpt.c: gpt_extract_partitions, what is recorded for an entry *)
Definition partition_of (e : gpt_entry_t) : option block_partition_info :=
  if starting_lba e =? 0 then None
  else if ending_lba e <? starting_lba e then None
  else Some (PartInfo (starting_lba e) (ending_lba e) (u64 (ending_lba e - starting_lba e + 1))
               (partition_type_guid e) (unique_guid e) (attributes e) (partition_name e)).

(** gpt.c: gpt_extract_partitions *)
Definition gpt_extract_partitions (h : gpt_header_t) (raw partitions : dynarr_t)
  : outcome (bool * dynarr_t) :=
  let count := partition_entry_count h in
  let entry_size := partition_entry_size h in
  r ← for_ret (Z.to_nat count) 0 (fun i partitions =>
        let offset := u64 (i * entry_size) in
        e ← load_entry (arr raw) offset;
        match partition_of e with
        | None => Ok (inl partitions)
        | Some info =>
            '(ok, p) ← dynarr_append (Some partitions) (Some (mem_of (info_bytes info)));
            partitions ← deref p;
            Ok (if ok : bool then inl partitions else inr partitions)
        end) partitions;
  Ok (match r with inl p => (true, p) | inr p => (false, p) end).

(** gpt.c: gpt_parse.  The three local buffers are [stk]; [record_ok] says
    whether the record of the byte array could be allocated. *)
Definition gpt_parse (record_ok : bool) (d : Z) (partitions : dynarr_t) stk s
  : outcome (bool * dynarr_t * block_st K) :=
  '(_, s) ← gpt_check_protective_mbr d stk s;
  '(h, s) ← gpt_check_header d stk s;
  match h with
  | None => Ok (false, partitions, s)
  | Some h =>
      match dynarr_create record_ok 1 0 with
      | None => Ok (false, partitions, s)
      | Some raw =>
          '(ok, raw, s) ← gpt_check_partition_table d h raw stk s;
          if negb ok then Ok (false, partitions, s)
          else
            '(ok, partitions) ← gpt_extract_partitions h raw partitions;
            Ok (ok, partitions, s)
      end
  end.

End gpt.
