(* ===== verification/GptSpec.v ===== *)
(** * The partition table parser decides validity (kernel/block/gpt.c)

    What a valid partition table is, stated over the bytes of the disk, and
    the proof that gpt_parse of Gpt.v accepts exactly the valid ones, records
    exactly their partitions and never reads outside a buffer, whatever the
    disk holds and whichever reads or allocations fail. *)

From S2P Require Import Prelude Bitmap Crc32 Dynarr Endian Block Gpt.

Local Open Scope Z_scope.

(** ** Valid tables *)

(** The structures in a list of bytes. *)
Definition header_at (l : list Z) : gpt_header_t :=
  GptHeader (bytes_at l 0 8) (le_at l 8 4) (le_at l 12 4) (le_at l 16 4) (le_at l 20 4)
    (le_at l 24 8) (le_at l 32 8) (le_at l 40 8) (le_at l 48 8) (bytes_at l 56 16)
    (le_at l 72 8) (le_at l 80 4) (le_at l 84 4) (le_at l 88 4).
Definition entry_at (l : list Z) (off : nat) : gpt_entry_t :=
  GptEntry (bytes_at l off 16) (bytes_at l (off + 16) 16) (le_at l (off + 32) 8)
    (le_at l (off + 40) 8) (le_at l (off + 48) 8) (bytes_at l (off + 56) 72).

(** The requirements on the fields of a header. *)
Record header_wanted (h : gpt_header_t) : Prop := {
  hw_signature : signature h = EFI_PART;
  hw_revision : revision h = 0x10000;
  hw_size : 92 <= header_size h <= 512;
  hw_lba : current_lba h = 1;
  hw_table : 1 < partition_entry_lba h;
  hw_count : partition_entry_count h <> 0;
  hw_entry : 128 <= partition_entry_size h
}.

(** An entry with a start and an end behind it describes a partition of
    [end - start + 1] sectors. *)
Definition described (e : gpt_entry_t) : option block_partition_info :=
  if decide (starting_lba e <> 0 /\ starting_lba e <= ending_lba e)
  then Some (PartInfo (starting_lba e) (ending_lba e) (ending_lba e - starting_lba e + 1)
               (partition_type_guid e) (unique_guid e) (attributes e) (partition_name e))
  else None.

Section valid.
(** Byte [j] of sector [n] of the device. *)
Context (D : Z -> Z -> Z).

Definition sector_list (n : Z) : list Z := D n <$> seqZ 0 512.

(** The sector of the header with the checksum field cleared. *)
Definition cleared (l : list Z) : list Z := take 16 l ++ [0; 0; 0; 0] ++ drop 20 l.

Definition disk_header : gpt_header_t := header_at (sector_list 1).

Definition header_valid : Prop :=
  header_wanted disk_header /\
  crc32_ref (take (Z.to_nat (header_size disk_header)) (cleared (sector_list 1))) = header_crc32 disk_header.

(** The table: its size in bytes and in sectors, and the bytes of its sectors. *)
Definition table_size : Z := partition_entry_count disk_header * partition_entry_size disk_header.
Definition table_sectors : Z := (table_size + 511) / 512.
Definition table : list Z :=
  concat ((fun i => sector_list (u64 (partition_entry_lba disk_header + i))) <$> seqZ 0 table_sectors).

(** What gpt.c accepts: the header fields of [header_wanted] and both
    checksums.  The field [reserved] may hold anything. *)
Definition gpt_valid : Prop :=
  header_valid /\ crc32_ref (take (Z.to_nat table_size) table) = partition_table_crc32 disk_header.

(** The partitions, in table order. *)
Definition disk_entry (i : Z) : gpt_entry_t :=
  entry_at table (Z.to_nat (i * partition_entry_size disk_header)).
Definition gpt_partitions : list block_partition_info :=
  omap (fun i => described (disk_entry i)) (seqZ 0 (partition_entry_count disk_header)).

End valid.

(** The device a registered entry gives access to, in a state of the layer. *)
Definition device {K} `{BlockEnvLaws K} (k : K) (i : block_dev_info) (n j : Z) : Z :=
  disk k (priv i) (dev i) (u64 (n + start_sector i)) j.

(** No read of the driver fails. *)
Definition reads_ok {K} `{BlockEnvLaws K} (k : K) (i : block_dev_info) : Prop :=
  forall k' sector buf ret buf' k'', same k k' ->
    hdr_read (priv i) (dev i) sector 1 buf k' = (ret, buf', k'') -> 0 <= ret.

(** ** Loading structures *)

Lemma sector_length D n : length (sector_list D n) = 512%nat.
Proof. unfold sector_list. by rewrite length_fmap, length_seqZ. Qed.

(** Validity and the partitions depend on the bytes of the sectors only. *)
Lemma gpt_ext D D' : (forall n, 0 <= n < 2 ^ 64 -> sector_list D n = sector_list D' n) ->
  (gpt_valid D <-> gpt_valid D') /\ gpt_partitions D = gpt_partitions D' /\ disk_header D = disk_header D' /\
  table_sectors D = table_sectors D'.
Proof.
  intros E. assert (disk_header D = disk_header D') as Eh by (unfold disk_header; by rewrite E by lia).
  assert (table_size D = table_size D') as Es by (unfold table_size; by rewrite Eh).
  assert (table D = table D') as Et.
  { unfold table, table_sectors. rewrite Es, Eh. f_equal. apply list_fmap_ext. intros i x _. apply E, wrap_fits. lia. }
  split_and!.
  - unfold gpt_valid, header_valid. by rewrite Et, Es, Eh, (E 1) by lia.
  - unfold gpt_partitions. rewrite Eh. unfold disk_entry. by rewrite Et, Eh.
  - done.
  - unfold table_sectors. by rewrite Es.
Qed.

Lemma load_header_spec m l : has m l -> (92 <= length l)%nat -> load_header m = Ok (header_at l).
Proof.
  intros Hm Hl. unfold load_header. rewrite !(load_bytes_in m l), !Ok_bind by (done || lia).
  rewrite !(load_le_in m l), !Ok_bind by (done || lia). done.
Qed.

Lemma load_entry_spec m l off : has m l -> 0 <= off -> off + 128 <= Z.of_nat (length l) ->
  load_entry m off = Ok (entry_at l (Z.to_nat off)).
Proof.
  intros Hm Ho Hl. unfold load_entry.
  rewrite !(load_bytes_in m l), !Ok_bind by (done || lia).
  rewrite !(load_le_in m l), !Ok_bind by (done || lia).
  unfold entry_at. by rewrite !Z2Nat.inj_add by lia.
Qed.

(** ** Bounds of decoded fields *)

Lemma le_at_fits l off n : Forall (fits 8) l -> (off + n <= length l)%nat ->
  fits (8 * Z.of_nat n) (le_at l off n).
Proof.
  intros Hf Hl. unfold le_at. rewrite <- (bytes_at_length l off n Hl) at 1.
  apply le_of_fits. unfold bytes_at. by apply Forall_take, Forall_drop.
Qed.

Lemma header_bounds l : Forall (fits 8) l -> (92 <= length l)%nat ->
  fits 32 (header_size (header_at l)) /\ fits 64 (partition_entry_lba (header_at l)) /\
  fits 32 (partition_entry_count (header_at l)) /\ fits 32 (partition_entry_size (header_at l)).
Proof.
  intros Hf Hl. cbn [header_at header_size partition_entry_lba partition_entry_count partition_entry_size].
  split_and!; apply (le_at_fits l _ 4) || apply (le_at_fits l _ 8); (done || lia).
Qed.

(** The tests of the code decide the requirements. *)
Lemma header_fields_ok_iff h : header_fields_ok h = true <-> header_wanted h.
Proof.
  unfold header_fields_ok, sizeof_gpt_header, sizeof_gpt_entry. split.
  - intros E. repeat match type of E with
    | (if ?b then _ else _) = true => destruct b eqn:?; [discriminate E|]
    end. zbool. constructor; try done; try lia.
    match goal with H : bool_decide _ = true |- _ => by apply bool_decide_eq_true in H end.
  - intros []. rewrite bool_decide_eq_true_2 by done. cbn [negb].
    repeat match goal with |- (if ?b then _ else _) = true => replace b with false by lia end. done.
Qed.

Lemma partition_of_described e : fits 64 (starting_lba e) -> fits 64 (ending_lba e) ->
  partition_of e = described e.
Proof.
  unfold fits. intros [? ?] [? ?]. unfold partition_of, described.
  destruct (Z.eqb_spec (starting_lba e) 0); [by rewrite decide_False by tauto|].
  destruct (Z.ltb_spec (ending_lba e) (starting_lba e)); [by rewrite decide_False by lia|].
  rewrite decide_True, wrap_small by (unfold fits; lia). done.
Qed.

(** ** Messages in buffers *)

Lemma crc_has buf l n : has buf l -> Forall (fits 8) l -> 0 <= n <= Z.of_nat (length l) ->
  crc32 0 buf n = Ok (crc32_ref (take (Z.to_nat n) l)).
Proof.
  intros Hb Hf Hn. rewrite <- (crc32_spec buf (take (Z.to_nat n) l)).
  - f_equal. rewrite length_take. lia.
  - intros i b E. rewrite lookup_take_Some in E. destruct E as [E _]. split; [by apply Hb|by eapply Forall_lookup_1].
Qed.

(** Clearing the checksum field of the header sector. *)
Lemma clear_crc buf l : has buf l -> length l = 512%nat -> bitmap_wf buf 512 ->
  exists buf', memset buf 16 0 4 = Ok buf' /\ has buf' (cleared l) /\ bitmap_wf buf' 512.
Proof.
  intros Hb Hl Hw. destruct (memset_spec 512 buf 16 0 4) as (buf' & E & Hw' & Hi); try done.
  exists buf'. split; [done|]. split; [|done]. intros i b Ei. rewrite Hi. unfold cleared in Ei.
  assert (length (take 16 l) = 16%nat) as Lt by (rewrite length_take; lia).
  destruct (decide (i < 16)%nat) as [H1|H1].
  - rewrite lookup_app_l, lookup_take in Ei by lia. rewrite decide_True in Ei by lia.
    replace (_ && _) with false by lia. by apply Hb.
  - rewrite lookup_app_r, Lt in Ei by lia. destruct (decide (i < 20)%nat) as [H2|H2].
    + replace (_ && _) with true by lia. rewrite lookup_app_l in Ei by (cbn [length]; lia).
      rewrite <- Ei. assert (exists j, i - 16 = j /\ j < 4)%nat as (j & -> & Hj) by (exists (i - 16)%nat; lia).
      do 4 (destruct j as [|j]; [done|]). lia.
    + replace (_ && _) with false by lia. rewrite lookup_app_r in Ei by (cbn [length]; lia).
      rewrite lookup_drop in Ei. apply Hb. rewrite <- Ei. f_equal. cbn [length]. lia.
Qed.

(** ** Reading through the block layer *)

Section parse.
Context {K : Type} `{BlockEnvLaws K} `{HeapLaws}.
Context (s : block_st K) (p : Z) (i : block_dev_info).
Hypothesis Hwf : block_wf s.
Hypothesis Hi : infos s !! p = Some i.
Implicit Types (stk : bytes) (k : K).

Local Notation D := (device (world s) i).

(** One sector, in any state that [s] has become by reading. *)
Lemma read_sector n stk k : same (world s) k -> bitmap_wf stk 512 ->
  exists ret buf k', block_read_sectors (devt i) n stk 1 (set_world s k) = Ok (ret, buf, set_world s k') /\
    same (world s) k' /\ bitmap_wf buf 512 /\ (0 <= ret -> has buf (sector_list D n)) /\
    (reads_ok (world s) i -> 0 <= ret).
Proof.
  intros Hs Hb. pose proof (set_world_wf s k Hwf Hs) as Hwf'.
  destruct (block_read_sectors_spec (set_world s k) p i n stk 1 Hwf' Hi Hb)
    as (ret & buf & k' & E & Hs' & Hb' & Er & Hd).
  exists ret, buf, k'. split; [done|]. split; [by eapply same_trans|]. split; [done|]. split.
  - intros Hret j b Ej. unfold sector_list in Ej. apply list_lookup_fmap_Some in Ej as (x & -> & Ex).
    apply lookup_seqZ in Ex as [-> Hj]. rewrite (Hd Hret (Z.of_nat j)) by lia. cbn [world set_world].
    rewrite Z.div_small, Z.add_0_r, Z.mod_small by lia. unfold device. f_equal. apply Hs.
  - intros Hr. by eapply Hr.
Qed.

Lemma check_mbr stk k : same (world s) k -> bitmap_wf stk 512 ->
  exists b k', gpt_check_protective_mbr (devt i) stk (set_world s k) = Ok (b, set_world s k') /\ same (world s) k'.
Proof.
  intros Hs Hb. unfold gpt_check_protective_mbr.
  destruct (read_sector 0 stk k Hs Hb) as (ret & buf & k' & -> & Hs' & Hb' & Hd & _). rewrite Ok_bind.
  destruct (Z.ltb_spec ret 0) as [Hneg|Hpos]; [by eexists _, _|].
  specialize (Hd Hpos). pose proof (sector_length D 0) as L.
  rewrite (load_le_in buf (sector_list D 0)), Ok_bind by (done || lia).
  destruct (negb _); [by eexists _, _|].
  destruct (lookup_lt_is_Some_2 (sector_list D 0) (Z.to_nat (0x1BE + 4))) as [t Et]; [rewrite L; lia|].
  apply Hd in Et. unfold load8. rewrite Z2Nat.id in Et by lia. rewrite Et. by eexists _, _.
Qed.

(** The header check accepts exactly the valid headers. *)
Lemma check_header stk k : same (world s) k -> bitmap_wf stk 512 ->
  exists oh k', gpt_check_header (devt i) stk (set_world s k) = Ok (oh, set_world s k') /\ same (world s) k' /\
    match oh with
    | Some h => h = disk_header D /\ header_valid D /\ Forall (fits 8) (sector_list D 1)
    | None => reads_ok (world s) i -> ~ header_valid D
    end.
Proof.
  intros Hs Hb. unfold gpt_check_header.
  destruct (read_sector 1 stk k Hs Hb) as (ret & buf & k' & -> & Hs' & Hb' & Hd & Hr). rewrite Ok_bind.
  destruct (Z.ltb_spec ret 0) as [Hneg|Hpos].
  { eexists None, k'. split; [done|]. split; [done|]. intros Ho. specialize (Hr Ho). lia. }
  specialize (Hd Hpos). pose proof (sector_length D 1) as L.
  rewrite (load_header_spec buf (sector_list D 1)), Ok_bind by (done || lia). fold (disk_header D).
  destruct (header_fields_ok (disk_header D)) eqn:Ef; cbn [negb].
  2: { eexists None, k'. split; [done|]. split; [done|]. intros _ [Hv%header_fields_ok_iff _]. congruence. }
  destruct (clear_crc buf _ Hd L Hb') as (buf' & -> & Hc & Hw). rewrite Ok_bind.
  assert (length (cleared (sector_list D 1)) = 512%nat) as Lc.
  { unfold cleared. rewrite !length_app, length_take, length_drop, L. done. }
  apply header_fields_ok_iff in Ef. pose proof (hw_size _ Ef) as Hsz.
  rewrite (crc_has buf' (cleared (sector_list D 1))), Ok_bind by (done || lia || by eapply has_fits).
  destruct (Z.eqb_spec (crc32_ref (take (Z.to_nat (header_size (disk_header D))) (cleared (sector_list D 1))))
    (header_crc32 (disk_header D))) as [Ec|Ec]; cbn [negb]; eexists _, k'; (split; [done|]); (split; [done|]).
  - split; [done|]. split; [done|]. by eapply has_fits.
  - intros _ [_ Hv]. done.
Qed.

(** ** The table *)

(** A byte array with the contents [l]. *)
Definition byte_array (raw : dynarr_t) (l : list Z) : Prop :=
  dynarr_wf raw /\ tight raw /\ element_size raw = 1 /\ contents raw = (fun b => [b]) <$> l.

Lemma byte_array_count raw l : byte_array raw l -> current_count raw = Z.of_nat (length l).
Proof. intros (Hw & _ & _ & Hc). rewrite <- contents_length by done. rewrite Hc. by rewrite length_fmap. Qed.

Lemma byte_array_has raw l : byte_array raw l -> has (arr raw) l.
Proof.
  intros Hb j b Ej. pose proof (byte_array_count raw l Hb) as Hn. destruct Hb as (Hw & _ & He & Hc).
  pose proof (lookup_lt_Some _ _ _ Ej) as Hj.
  assert (contents raw !! j = Some [b]) as Ec by (rewrite Hc, list_lookup_fmap, Ej; done).
  unfold contents in Ec. rewrite list_lookup_fmap, lookup_seqZ_lt in Ec by lia.
  cbn [fmap option_fmap option_map] in Ec. apply (inj Some) in Ec.
  unfold elem, read in Ec. rewrite He, Z.mul_1_r in Ec. change (seqZ 0 1) with [0] in Ec.
  cbn [fmap list_fmap] in Ec. injection Ec as Ec.
  destruct Hw as [[Hd _] ? ? ? ? ? ? ?]. rewrite He in *.
  destruct (proj2 (Hd (Z.of_nat j))) as [v Ev]; [lia|].
  replace (0 + Z.of_nat j + 0) with (Z.of_nat j) in Ec by lia. rewrite Ev in Ec |- *. cbn in Ec. congruence.
Qed.

Lemma append_sector_spec raw l buf sec : byte_array raw l -> has buf sec -> Forall (fits 8) sec ->
  length sec = 512%nat ->
  (exists raw', append_sector buf raw = Ok (inl raw') /\ byte_array raw' (l ++ sec)) \/
  (exists raw', append_sector buf raw = Ok (inr raw') /\
     ~ (HeapTotal /\ Z.of_nat (length l) + 512 <= 2 ^ 24)).
Proof.
  intros Hb Hs Hf Hl. unfold append_sector.
  destruct (for_ret_inv (fun j raw => byte_array raw (l ++ take (Z.to_nat j) sec))
    (fun _ => ~ (HeapTotal /\ Z.of_nat (length l) + 512 <= 2 ^ 24)) 512 0
    (fun j raw => b ← load8 buf j; '(ok, r) ← dynarr_append (Some raw) (Some {[0 := b]});
       raw ← deref r; Ok (if ok : bool then inl raw else inr raw)) raw) as [(raw' & E & HP)|(raw' & E & HQ)].
  - by rewrite take_0, app_nil_r.
  - intros j r Hj Hr. destruct (lookup_lt_is_Some_2 sec (Z.to_nat j)) as [b Eb]; [lia|].
    pose proof (Hs _ _ Eb) as Em. rewrite Z2Nat.id in Em by lia. unfold load8. rewrite Em, deref_Some, Ok_bind.
    pose proof (byte_array_count _ _ Hr) as Hn. rewrite length_app, length_take in Hn.
    destruct Hr as (Hw & Ht & He & Hc).
    destruct (dynarr_append_room r {[0 := b]} Hw Ht) as (ok & r' & E & Hw' & Ht' & He' & Hc' & Hroom).
    { rewrite He. intros x Hx. exists b. assert (x = 0) as -> by lia.
      split; [apply lookup_singleton_eq|by eapply Forall_lookup_1]. }
    rewrite E, Ok_bind, deref_Some, Ok_bind. destruct ok; [left|right]; eexists; (split; [done|]).
    + split_and!; [done|done|congruence|]. rewrite Hc' by done. rewrite Hc, He.
      replace (Z.to_nat (j + 1)) with (S (Z.to_nat j)) by lia. 
      by rewrite (take_S_r _ _ _ Eb), !fmap_app, <- app_assoc.
    + intros [Htot Hle]. rewrite He in Hroom. specialize (Hroom Htot ltac:(lia)). done.
  - left. exists raw'. split; [done|]. by rewrite take_ge in HP by lia.
  - right. by exists raw'.
Qed.

(** What makes reading the table succeed. *)
Definition table_room : Prop :=
  reads_ok (world s) i /\ HeapTotal /\ 512 * table_sectors D <= 2 ^ 24.

Local Notation h := (disk_header D).
Local Notation sec n := (sector_list D (u64 (partition_entry_lba h + n))).

Lemma sectors_snoc n : 0 <= n ->
  concat ((fun i => sec i) <$> seqZ 0 (n + 1)) = concat ((fun i => sec i) <$> seqZ 0 n) ++ sec n.
Proof.
  intros Hn. rewrite seqZ_app by lia. rewrite fmap_app, concat_app.
  change (seqZ (0 + n) 1) with [n]. cbn [fmap list_fmap concat]. by rewrite app_nil_r.
Qed.

Lemma sectors_length n : 0 <= n -> Z.of_nat (length (concat ((fun i => sec i) <$> seqZ 0 n))) = 512 * n.
Proof.
  revert n. apply natlike_ind; [done|]. intros n Hn IH.
  rewrite <- Z.add_1_r, sectors_snoc, length_app, sector_length by done. lia.
Qed.

Lemma table_bounds : header_valid D -> Forall (fits 8) (sector_list D 1) ->
  0 < table_size D < 2 ^ 64 - 511 /\ u64 (partition_entry_count h * partition_entry_size h) = table_size D /\
  u64 (table_size D + 511) / 512 = table_sectors D /\ 0 <= table_sectors D /\
  0 < partition_entry_count h /\ 128 <= partition_entry_size h /\
  table_size D <= 512 * table_sectors D.
Proof.
  intros [Hf _] Hb. pose proof (hw_count _ Hf) as Hc. pose proof (hw_entry _ Hf) as Hs.
  destruct (header_bounds (sector_list D 1) Hb) as (_ & _ & Hc' & Hs'); [by rewrite sector_length; lia|].
  fold h in Hc', Hs'. unfold fits in Hc', Hs'. unfold table_sectors, table_size in *.
  assert (0 < partition_entry_count h * partition_entry_size h <= (2 ^ 32 - 1) * (2 ^ 32 - 1)) by nia.
  rewrite !wrap_small by (unfold fits; lia). split_and!; try lia; dlia.
Qed.

(** The table is read completely and checked, or a read or an allocation fails. *)
Lemma check_table raw stk k : same (world s) k -> bitmap_wf stk 512 -> byte_array raw [] ->
  header_valid D -> Forall (fits 8) (sector_list D 1) ->
  exists ok raw' k', gpt_check_partition_table (devt i) h raw stk (set_world s k) = Ok (ok, raw', set_world s k') /\
    same (world s) k' /\ (ok = true -> byte_array raw' (table D) /\ gpt_valid D) /\
    (gpt_valid D -> table_room -> ok = true).
Proof.
  intros Hs Hb Hraw Hv Hfit. destruct (table_bounds Hv Hfit) as (Hsz & Esz & Esec & Hsec & Hcnt & Hent & Hle).
  unfold gpt_check_partition_table. rewrite Esz. rewrite (proj2 (Z.eqb_neq (table_size D) 0)) by lia. rewrite Esec.
  set (body := fun n '(raw, sector_buf, s) => _).
  destruct (for_ret_inv
    (fun n '(raw, buf, s') => byte_array raw (concat ((fun i => sec i) <$> seqZ 0 n)) /\ bitmap_wf buf 512 /\
       exists k', s' = set_world s k' /\ same (world s) k')
    (fun '(raw, s') => (exists k', s' = set_world s k' /\ same (world s) k') /\ ~ table_room)
    (Z.to_nat (table_sectors D)) 0 body (raw, stk, set_world s k))
    as [([[raw' buf'] s'] & E & Hr & _ & k' & -> & Hs')|([raw' s'] & E & (k' & -> & Hs') & Hno)].
  - split; [done|]. split; [done|]. by exists k.
  - intros n [[r buf] s'] Hn (Hr & Hbuf & k' & -> & Hs'). unfold body.
    destruct (read_sector (u64 (partition_entry_lba h + n)) buf k' Hs' Hbuf)
      as (ret & buf' & k'' & -> & Hs'' & Hb' & Hd & Hok). rewrite Ok_bind.
    destruct (Z.ltb_spec ret 0) as [Hneg|Hpos].
    { right. eexists. split; [done|]. split; [by exists k''|]. intros (Ho & _). specialize (Hok Ho). lia. }
    specialize (Hd Hpos). pose proof (has_fits _ _ _ Hd Hb') as Hf.
    destruct (append_sector_spec r _ buf' _ Hr Hd Hf (sector_length _ _)) as [(r' & -> & Hr')|(r' & -> & Hno)];
      rewrite Ok_bind; [left|right]; (eexists; split; [done|]).
    + split_and!; [|done|by exists k'']. by rewrite sectors_snoc by lia.
    + split; [by exists k''|]. intros (_ & Ht & Hroom). apply Hno. split; [done|].
      rewrite sectors_length by lia. lia.
  - rewrite E, Ok_bind. replace (0 + Z.of_nat (Z.to_nat (table_sectors D))) with (table_sectors D) in Hr by lia.
    fold (table D) in Hr. pose proof (byte_array_has _ _ Hr) as Hh.
    assert (Z.of_nat (length (table D)) = 512 * table_sectors D) as Lt by (by apply sectors_length).
    rewrite (crc_has (arr raw') (table D)), Ok_bind;
      [|done|destruct Hr as ([Hw _ _ _ _ _ _ _] & _); by eapply has_fits|lia].
    eexists _, raw', k'. split; [done|]. split; [done|]. split.
    + intros Ec%Z.eqb_eq. split; [done|]. by split.
    + intros [_ Ec] _. by apply Z.eqb_eq.
  - rewrite E, Ok_bind. eexists false, raw', k'. split; [done|]. split; [done|]. by split.
Qed.

(** ** The partitions *)

(** An array of partition records. *)
Definition part_array (parts : dynarr_t) (l : list (list Z)) : Prop :=
  dynarr_wf parts /\ tight parts /\ element_size parts = sizeof_part_info /\ contents parts = l.

Lemma info_bytes_ok l off e q : Forall (fits 8) l -> (off + 128 <= length l)%nat ->
  e = entry_at l off -> described e = Some q ->
  length (info_bytes q) = 136%nat /\ Forall (fits 8) (info_bytes q).
Proof.
  intros Hf Hl -> E. unfold described in E. case_decide; [|done]. injection E as <-. unfold info_bytes.
  cbn [start_lba end_lba size type_guid part_guid pattributes pname entry_at starting_lba ending_lba
    partition_type_guid unique_guid attributes partition_name].
  split.
  - rewrite !length_app, !le_bytes_length, !bytes_at_length by lia. done.
  - repeat apply Forall_app_2; try apply le_bytes_fits; unfold bytes_at; by apply Forall_take, Forall_drop.
Qed.

Lemma mem_of_holds l : Forall (fits 8) l -> Dynarr.holds (mem_of l) (Z.of_nat (length l)).
Proof.
  intros Hf j Hj. rewrite Z.add_0_l. destruct (lookup_lt_is_Some_2 l (Z.to_nat j)) as [b E]; [lia|].
  exists b. split; [|by eapply Forall_lookup_1]. rewrite <- E, <- mem_of_lookup. f_equal. lia.
Qed.

Definition extract_room (parts : list (list Z)) : Prop :=
  HeapTotal /\ sizeof_part_info * (Z.of_nat (length parts) + partition_entry_count h) <= 2 ^ 24.

Lemma omap_length {A B} (f : A -> option B) (l : list A) : (length (omap f l) <= length l)%nat.
Proof. induction l as [|x l IH]; cbn; [lia|]. destruct (f x); cbn; lia. Qed.

Lemma partitions_snoc n : 0 <= n ->
  omap (fun i => described (disk_entry D i)) (seqZ 0 (n + 1)) =
  omap (fun i => described (disk_entry D i)) (seqZ 0 n) ++ option_list (described (disk_entry D n)).
Proof.
  intros Hn. rewrite seqZ_app by lia. rewrite omap_app. f_equal.
Qed.

(** The numbers in the entries of the table are 64-bit ones. *)
Lemma entry_fits n : header_valid D -> Forall (fits 8) (sector_list D 1) -> Forall (fits 8) (table D) ->
  0 <= n < partition_entry_count h ->
  fits 64 (starting_lba (disk_entry D n)) /\ fits 64 (ending_lba (disk_entry D n)).
Proof.
  intros Hv Hfit Hft Hn. destruct (table_bounds Hv Hfit) as (_ & _ & _ & Hsec & _ & Hent & Hle).
  assert (Z.of_nat (length (table D)) = 512 * table_sectors D) as Lt by (by apply sectors_length).
  unfold table_size in Hle. set (sz := partition_entry_size h) in *.
  assert (n * sz + sz <= partition_entry_count h * sz) by nia. assert (0 <= n * sz) by nia.
  unfold disk_entry. fold sz. split; apply (le_at_fits (table D) _ 8); (done || lia).
Qed.

Lemma extract raw parts l : byte_array raw (table D) -> part_array parts l ->
  header_valid D -> Forall (fits 8) (sector_list D 1) ->
  exists ok parts' l', gpt_extract_partitions h raw parts = Ok (ok, parts') /\ part_array parts' l' /\
    (ok = true -> l' = l ++ (info_bytes <$> gpt_partitions D)) /\ (extract_room l -> ok = true).
Proof.
  intros Hraw Hp Hv Hfit. destruct (table_bounds Hv Hfit) as (Hsz & Esz & Esec & Hsec & Hcnt & Hent & Hle).
  pose proof (byte_array_has _ _ Hraw) as Hh.
  assert (Forall (fits 8) (table D)) as Hft by (destruct Hraw as ([Hw _ _ _ _ _ _ _] & _); by eapply has_fits).
  assert (Z.of_nat (length (table D)) = 512 * table_sectors D) as Lt by (by apply sectors_length).
  unfold gpt_extract_partitions. set (body := fun n partitions => _).
  destruct (for_ret_inv
    (fun n parts => part_array parts (l ++ (info_bytes <$>
       omap (fun i => described (disk_entry D i)) (seqZ 0 n))))
    (fun parts => (exists l', part_array parts l') /\ ~ extract_room l)
    (Z.to_nat (partition_entry_count h)) 0 body parts)
    as [(parts' & E & HP)|(parts' & E & (l' & HP) & HQ)].
  - by rewrite app_nil_r.
  - intros n q Hn Hq. unfold body. unfold table_size in *.
    rewrite wrap_small by (unfold fits; nia).
    rewrite (load_entry_spec (arr raw) (table D)), Ok_bind by (done || nia). fold (disk_entry D n).
    rewrite partitions_snoc, fmap_app, app_assoc by lia.
    destruct (entry_fits n Hv Hfit Hft ltac:(lia)) as [Hf1 Hf2]. rewrite (partition_of_described _ Hf1 Hf2).
    destruct (described (disk_entry D n)) as [info|] eqn:Ei.
    2: { left. eexists. split; [done|]. cbn. by rewrite app_nil_r. }
    destruct (info_bytes_ok (table D) (Z.to_nat (n * partition_entry_size h)) _ info Hft ltac:(nia) eq_refl Ei) as [L Hb].
    destruct Hq as (Hw & Ht & He & Hc).
    pose proof (mem_of_holds _ Hb) as Hh'. rewrite L in Hh'. change (Z.of_nat 136) with sizeof_part_info in Hh'.
    destruct (dynarr_append_room q (mem_of (info_bytes info)) Hw Ht ltac:(by rewrite He))
      as (ok & q' & E & Hw' & Ht' & He' & Hc' & Hroom).
    rewrite E, Ok_bind, deref_Some, Ok_bind. rewrite He in He', Hc', Hroom.
    destruct ok; [left|right]; (eexists; split; [done|]).
    + split_and!; try done. rewrite Hc', Hc by done. f_equal. cbn. f_equal.
      change sizeof_part_info with (Z.of_nat 136). rewrite <- L. apply read_mem_of.
    + split; [by exists (contents q'); split_and!|]. intros [Htot Hr]. specialize (Hroom Htot).
      rewrite <- (contents_length q Hw), Hc, length_app, length_fmap in Hroom.
      pose proof (omap_length (fun i => described (disk_entry D i)) (seqZ 0 n)) as Lo.
      rewrite length_seqZ in Lo. unfold sizeof_part_info in *. assert (false = true); [apply Hroom; nia|done].
  - rewrite E, Ok_bind. eexists true, parts', _. split; [done|]. split; [exact HP|]. split; [|done].
    intros _. unfold gpt_partitions. by replace (0 + Z.of_nat (Z.to_nat (partition_entry_count h))) with (partition_entry_count h) by lia.
  - rewrite E, Ok_bind. eexists false, parts', l'. split; [done|]. split; [done|]. by split.
Qed.

(** The numbers of the partitions found are 64-bit ones. *)
Definition part_fits (q : block_partition_info) : Prop := fits 64 (start_lba q) /\ fits 64 (size q).

Lemma partitions_fit raw : byte_array raw (table D) -> header_valid D -> Forall (fits 8) (sector_list D 1) ->
  Forall part_fits (gpt_partitions D).
Proof.
  intros Hraw Hv Hfit. pose proof (byte_array_has _ _ Hraw) as Hh.
  assert (Forall (fits 8) (table D)) as Hft by (destruct Hraw as ([Hw _ _ _ _ _ _ _] & _); by eapply has_fits).
  apply Forall_forall. intros q Hq. apply list_elem_of_omap in Hq as (n & Hn & Eq).
  apply elem_of_seqZ in Hn. destruct (entry_fits n Hv Hfit Hft ltac:(lia)) as [Hs He].
  revert Hs He Eq. generalize (disk_entry D n) as e. intros e Hs He Eq.
  unfold described in Eq. case_decide as Hd; [|done]. injection Eq as <-.
  unfold part_fits, fits in *. cbn [start_lba size]. lia.
Qed.

Lemma gpt_parse_spec record_ok parts l stk : bitmap_wf stk 512 -> part_array parts l ->
  exists ok parts' l' k, gpt_parse record_ok (devt i) parts stk s = Ok (ok, parts', set_world s k) /\
    same (world s) k /\ part_array parts' l' /\
    (ok = true -> gpt_valid D /\ l' = l ++ (info_bytes <$> gpt_partitions D) /\
       Forall part_fits (gpt_partitions D)) /\
    (gpt_valid D -> record_ok = true -> table_room -> extract_room l -> ok = true).
Proof.
  intros Hb Hp. unfold gpt_parse. 
  assert (gpt_check_protective_mbr (devt i) stk s =
    gpt_check_protective_mbr (devt i) stk (set_world s (world s))) as -> by (by rewrite set_world_id).
  destruct (check_mbr stk (world s)) as (b & k1 & -> & Hs1); [done|done|]. rewrite Ok_bind.
  destruct (check_header stk k1 Hs1 Hb) as (oh & k2 & -> & Hs2 & Hh). rewrite Ok_bind.
  destruct oh as [h'|].
  2: { eexists false, parts, l, k2. split_and!; try done. intros [Hv _] _ (Hr & _) _. by destruct (Hh Hr). }
  destruct Hh as (-> & Hv & Hfit).
  destruct (dynarr_create record_ok 1 0) as [raw|] eqn:Ec.
  2: { eexists false, parts, l, k2. split_and!; try done. intros _ -> (_ & Htot & _) _.
       destruct (Htot 16) as [bb Eb]; [lia|]. unfold dynarr_create in Ec.
       change (match kheap_alloc 16 with
               | None => None
               | Some a => Some (Dynarr a 1 0 (DYNARR_MAX_COUNT 16) 16 0)
               end = None) in Ec. by rewrite Eb in Ec. }
  destruct (dynarr_create_tight record_ok 1 raw ltac:(lia) Ec) as (Hw & Ht & He & Hc).
  destruct (check_table raw stk k2) as (ok & raw' & k3 & -> & Hs3 & Hok & Hdone); try done. rewrite Ok_bind.
  destruct ok; cbn [negb].
  2: { eexists false, parts, l, k3. split_and!; try done. intros Hg _ Hr _. by apply Hdone. }
  destruct (Hok eq_refl) as [Hraw' Hg].
  destruct (extract raw' parts l) as (ok & parts' & l' & -> & Hp' & Ho & Hr); try done. rewrite Ok_bind.
  eexists ok, parts', l', k3. split; [done|]. split; [done|]. split; [done|]. split.
  - intros Hok'. split; [done|]. split; [by apply Ho|]. by eapply partitions_fit.
  - intros _ _ _. exact Hr.
Qed.

End parse.
