(* ===== verification/GptFormat.v ===== *)
(** * Formatting and parsing a partition table (kernel/block/gpt.c)

    A partitioning tool, as a function from partition entries to the sectors
    it writes, and the round trip: gpt_parse recovers exactly the entries that
    were written.  A concrete RAM disk gives the instances of the theorems. *)

From stdpp Require Import strings.
From S2P Require Import Prelude Bitmap Crc32 Dynarr Endian Block Gpt GptSpec RamDisk.

Local Open Scope Z_scope.

(** ** The image *)

Record entry_wf (e : gpt_entry_t) : Prop := {
  ewf_type : length (partition_type_guid e) = 16%nat /\ Forall (fits 8) (partition_type_guid e);
  ewf_unique : length (unique_guid e) = 16%nat /\ Forall (fits 8) (unique_guid e);
  ewf_start : fits 64 (starting_lba e);
  ewf_end : fits 64 (ending_lba e);
  ewf_attr : fits 64 (attributes e);
  ewf_name : length (partition_name e) = 72%nat /\ Forall (fits 8) (partition_name e)
}.

Definition entry_fields (e : gpt_entry_t) : list (list Z) :=
  [partition_type_guid e; unique_guid e; le_bytes 8 (starting_lba e); le_bytes 8 (ending_lba e);
   le_bytes 8 (attributes e); partition_name e].
Definition entry_bytes (e : gpt_entry_t) : list Z := concat (entry_fields e).

(** The table, filled up to whole sectors. *)
Definition image_sectors (es : list gpt_entry_t) : Z := (Z.of_nat (length es) * 128 + 511) / 512.
Definition table_image (es : list gpt_entry_t) : list Z :=
  let l := concat (entry_bytes <$> es) in
  l ++ replicate (Z.to_nat (512 * image_sectors es) - length l) 0.

Definition header_fields (es : list gpt_entry_t) (guid : list Z) (backup first last crc : Z) : list (list Z) :=
  [EFI_PART; le_bytes 4 0x10000; le_bytes 4 92; le_bytes 4 crc; le_bytes 4 0; le_bytes 8 1;
   le_bytes 8 backup; le_bytes 8 first; le_bytes 8 last; guid; le_bytes 8 2;
   le_bytes 4 (Z.of_nat (length es)); le_bytes 4 128;
   le_bytes 4 (crc32_ref (concat (entry_bytes <$> es)))].

(** The first 92 bytes of the header sector: the checksum is that of the
    header with its own field zero. *)
Definition header_image (es : list gpt_entry_t) (guid : list Z) (backup first last : Z) : list Z :=
  let crc := crc32_ref (concat (header_fields es guid backup first last 0)) in
  concat (header_fields es guid backup first last crc) ++ replicate 420 0.

(** The disk: the header in sector 1, the table from sector 2 on. *)
Definition formatted (es : list gpt_entry_t) (guid : list Z) (backup first last : Z) (n j : Z) : Z :=
  if n =? 1 then nth (Z.to_nat j) (header_image es guid backup first last) 0
  else if 2 <=? n then nth (Z.to_nat (512 * (n - 2) + j)) (table_image es) 0
  else 0.

(** ** Fields of concatenations *)

Lemma bytes_at_app a b c : bytes_at (a ++ b ++ c) (length a) (length b) = b.
Proof. unfold bytes_at. rewrite drop_app_length, take_app_length. done. Qed.

Lemma field_at (fs : list (list Z)) rest k f off n :
  fs !! k = Some f -> off = length (concat (take k fs)) -> n = length f ->
  bytes_at (concat fs ++ rest) off n = f.
Proof.
  intros E -> ->. rewrite <- (take_drop_middle fs k f E) at 1. rewrite concat_app. cbn [concat].
  rewrite <- !app_assoc. apply bytes_at_app.
Qed.

Lemma concat_const_length (ls : list (list Z)) c :
  Forall (fun l => length l = c) ls -> length (concat ls) = (length ls * c)%nat.
Proof. induction 1 as [|l ls Hl _ IH]; cbn; [done|]. rewrite length_app, Hl, IH. lia. Qed.

Lemma bytes_at_concat (ls : list (list Z)) rest c k l o n :
  Forall (fun l => length l = c) ls -> ls !! k = Some l -> (o + n <= c)%nat ->
  bytes_at (concat ls ++ rest) (k * c + o) n = bytes_at l o n.
Proof.
  intros Hc E Hn. pose proof (Forall_lookup_1 _ _ _ _ Hc E) as Hl. cbn in Hl.
  rewrite <- (take_drop_middle ls k l E) at 1. rewrite concat_app. cbn [concat]. rewrite <- !app_assoc.
  assert (length (concat (take k ls)) = (k * c)%nat) as L.
  { rewrite (concat_const_length _ c) by (by apply Forall_take). rewrite length_take_le; [done|].
    apply lookup_lt_Some in E. lia. }
  unfold bytes_at. rewrite drop_app_ge by lia. rewrite L.
  replace (k * c + o - k * c)%nat with o by lia. rewrite drop_app_le by lia.
  rewrite take_app_le by (rewrite length_drop; lia). done.
Qed.

Lemma crc32_ref_fits msg : Forall (fits 8) msg -> fits 32 (crc32_ref msg).
Proof.
  intros Hf. unfold crc32_ref. apply lxor_fits; [lia| |unfold fits; lia].
  apply crc_fold_fits; [unfold fits; lia|done].
Qed.

Lemma le_at_le_bytes l off n x : bytes_at l off n = le_bytes n x -> fits (8 * Z.of_nat n) x -> le_at l off n = x.
Proof. intros E Hx. unfold le_at. rewrite E. by apply le_of_le_bytes. Qed.

(** ** The image is a valid table *)

Section format.
Context (es : list gpt_entry_t) (guid : list Z) (backup first last : Z).
Hypothesis Hes : Forall entry_wf es.
Hypothesis Hne : es <> [].
Hypothesis Hlen : Z.of_nat (length es) * 136 <= 2 ^ 24.
Hypothesis Hguid : length guid = 16%nat /\ Forall (fits 8) guid.
Hypothesis Hbackup : fits 64 backup.
Hypothesis Hfirst : fits 64 first.
Hypothesis Hlast : fits 64 last.

Local Notation D := (formatted es guid backup first last).
Local Notation himg := (header_image es guid backup first last).
Local Notation timg := (table_image es).
Local Notation crc0 := (crc32_ref (concat (header_fields es guid backup first last 0))).

Lemma entry_bytes_length e : entry_wf e -> length (entry_bytes e) = 128%nat.
Proof.
  intros [[] [] ? ? ? []]. unfold entry_bytes, entry_fields. cbn [concat].
  rewrite !length_app, !le_bytes_length. cbn [length]. lia.
Qed.

Lemma entries_length : Forall (fun l => length l = 128%nat) (entry_bytes <$> es).
Proof. apply Forall_fmap. eapply Forall_impl; [exact Hes|]. apply entry_bytes_length. Qed.

Lemma entries_total : length (concat (entry_bytes <$> es)) = (length es * 128)%nat.
Proof. rewrite (concat_const_length _ 128 entries_length). by rewrite length_fmap. Qed.

Lemma entries_fits : Forall (fits 8) (concat (entry_bytes <$> es)).
Proof.
  apply Forall_concat, Forall_fmap. eapply Forall_impl; [exact Hes|].
  intros e [[] [] ? ? ? []]. unfold compose, entry_bytes. apply Forall_concat. unfold entry_fields.
  do 6 (apply Forall_cons_2; [done || apply le_bytes_fits|]). constructor.
Qed.

Lemma header_fields_length crc : length (concat (header_fields es guid backup first last crc)) = 92%nat.
Proof.
  unfold header_fields. cbn [concat]. rewrite !length_app, !le_bytes_length. rewrite (proj1 Hguid). done.
Qed.

Lemma header_fields_fits crc : Forall (fits 8) (concat (header_fields es guid backup first last crc)).
Proof.
  apply Forall_concat. unfold header_fields.
  apply Forall_cons_2; [unfold EFI_PART; repeat constructor; unfold fits; lia|].
  do 13 (apply Forall_cons_2; [apply le_bytes_fits || apply Hguid|]). constructor.
Qed.

Lemma list_nth_map (l : list Z) n : length l = n -> (fun j => nth (Z.to_nat j) l 0) <$> seqZ 0 (Z.of_nat n) = l.
Proof.
  intros <-. apply list_eq. intros j. rewrite list_lookup_fmap. destruct (decide (j < length l)%nat) as [Hj|Hj].
  - rewrite lookup_seqZ_lt by lia. cbn [fmap option_fmap option_map]. rewrite Z.add_0_l, Nat2Z.id.
    destruct (lookup_lt_is_Some_2 l j Hj) as [x E]. rewrite E. f_equal. by apply nth_lookup_Some.
  - rewrite lookup_seqZ_ge by lia. symmetry. apply lookup_ge_None. lia.
Qed.

Lemma header_image_length : length himg = 512%nat.
Proof. unfold header_image. rewrite length_app, header_fields_length. done. Qed.

Lemma header_sector : sector_list D 1 = himg.
Proof. unfold sector_list, formatted. cbn [Z.eqb]. apply (list_nth_map himg 512), header_image_length. Qed.

Lemma es_count_pos : 0 < Z.of_nat (length es) < 2 ^ 18.
Proof. destruct es; [done|]. cbn [length] in *. lia. Qed.

(** The header read back. *)
Lemma header_back : disk_header D =
  GptHeader EFI_PART 0x10000 92 crc0 0 1 backup first last guid 2 (Z.of_nat (length es)) 128
    (crc32_ref (concat (entry_bytes <$> es))).
Proof.
  unfold disk_header. rewrite header_sector. unfold header_image, header_at.
  pose proof es_count_pos as Hc. destruct Hguid as [Lg Hg].
  assert (fits 32 crc0) as Hcrc by apply crc32_ref_fits, header_fields_fits.
  assert (fits 32 (crc32_ref (concat (entry_bytes <$> es)))) as Htcrc by apply crc32_ref_fits, entries_fits.
  set (fs := header_fields _ _ _ _ _ crc0).
  f_equal; try (eapply le_at_le_bytes; [|unfold fits in *; cbn; lia || done]).
  all: lazymatch goal with
  | |- bytes_at _ 0 8 = _ => apply (field_at fs _ 0)
  | |- bytes_at _ 8 4 = _ => apply (field_at fs _ 1)
  | |- bytes_at _ 12 4 = _ => apply (field_at fs _ 2)
  | |- bytes_at _ 16 4 = _ => apply (field_at fs _ 3)
  | |- bytes_at _ 20 4 = _ => apply (field_at fs _ 4)
  | |- bytes_at _ 24 8 = _ => apply (field_at fs _ 5)
  | |- bytes_at _ 32 8 = _ => apply (field_at fs _ 6)
  | |- bytes_at _ 40 8 = _ => apply (field_at fs _ 7)
  | |- bytes_at _ 48 8 = _ => apply (field_at fs _ 8)
  | |- bytes_at _ 56 16 = _ => apply (field_at fs _ 9)
  | |- bytes_at _ 72 8 = _ => apply (field_at fs _ 10)
  | |- bytes_at _ 80 4 = _ => apply (field_at fs _ 11)
  | |- bytes_at _ 84 4 = _ => apply (field_at fs _ 12)
  | |- bytes_at _ 88 4 = _ => apply (field_at fs _ 13)
  end; unfold fs, header_fields; cbn [take concat]; rewrite ?length_app, ?le_bytes_length, ?Lg; done.
Qed.

Lemma header_crc : take 92 (cleared himg) = concat (header_fields es guid backup first last 0).
Proof.
  unfold header_image.
  set (pre := EFI_PART ++ le_bytes 4 0x10000 ++ le_bytes 4 92).
  set (post := concat (drop 4 (header_fields es guid backup first last 0))).
  assert (forall crc, concat (header_fields es guid backup first last crc) = pre ++ le_bytes 4 crc ++ post) as E.
  { intros crc. unfold header_fields, pre, post. cbn [concat drop]. by rewrite <- !app_assoc. }
  pose proof (header_fields_length 0) as L. rewrite !E in *. unfold cleared.
  assert (length pre = 16%nat) as Lp by done.
  rewrite <- !app_assoc. rewrite (take_app_length' pre _ 16) by (by rewrite Lp).
  rewrite drop_app_ge, Lp by lia. change (20 - 16)%nat with 4%nat.
  rewrite (drop_app_length' (le_bytes 4 _)) by (by rewrite le_bytes_length).
  change [0; 0; 0; 0] with (le_bytes 4 0). rewrite !app_assoc. apply take_app_length'.
  by rewrite <- !app_assoc.
Qed.

Lemma header_ok : header_valid D.
Proof.
  pose proof es_count_pos. unfold header_valid. rewrite header_back, header_sector. split.
  - constructor; cbn [signature revision header_size current_lba partition_entry_lba
      partition_entry_count partition_entry_size]; done || lia.
  - cbn [header_size header_crc32]. change (Z.to_nat 92) with 92%nat. by rewrite header_crc.
Qed.

Lemma image_bounds : length (table_image es) = Z.to_nat (512 * image_sectors es) /\
  Z.of_nat (length es) * 128 <= 512 * image_sectors es <= Z.of_nat (length es) * 128 + 511.
Proof.
  pose proof es_count_pos. unfold table_image, image_sectors.
  rewrite length_app, length_replicate, entries_total. split; dlia.
Qed.

Lemma table_back : table D = timg /\ table_sectors D = image_sectors es /\ table_size D = Z.of_nat (length es) * 128.
Proof.
  assert (table_size D = Z.of_nat (length es) * 128) as Es
    by (unfold table_size; rewrite header_back; done).
  assert (table_sectors D = image_sectors es) as En by (unfold table_sectors; rewrite Es; done).
  split; [|done]. unfold table. rewrite En, header_back. cbn [partition_entry_lba].
  destruct image_bounds as [L Hb]. pose proof es_count_pos as Hc.
  assert (forall n, 0 <= n -> n <= image_sectors es ->
    concat ((fun i => sector_list D (u64 (2 + i))) <$> seqZ 0 n) = take (Z.to_nat (512 * n)) timg) as H.
  2: { rewrite H by lia. apply take_ge. lia. }
  apply (natlike_ind (fun n => n <= image_sectors es ->
    concat ((fun i => sector_list D (u64 (2 + i))) <$> seqZ 0 n) = take (Z.to_nat (512 * n)) timg)); [done|].
  intros n Hn IH Hle. rewrite <- Z.add_1_r, seqZ_app, fmap_app, concat_app, IH by lia.
  change (seqZ (0 + n) 1) with [n]. cbn [fmap list_fmap concat]. rewrite app_nil_r.
  rewrite wrap_small by (unfold fits; lia).
  replace (Z.to_nat (512 * (n + 1))) with (Z.to_nat (512 * n) + 512)%nat by lia.
  rewrite <- (take_take_drop timg (Z.to_nat (512 * n)) 512). f_equal.
  set (l := take 512 (drop (Z.to_nat (512 * n)) timg)).
  assert (length l = 512%nat) as Ll by (subst l; rewrite length_take, length_drop; lia).
  rewrite <- (list_nth_map l 512 Ll). unfold sector_list, formatted. apply list_fmap_ext.
  intros j x Ej. apply lookup_seqZ in Ej as [-> Hj].
  rewrite (proj2 (Z.eqb_neq (2 + n) 1)), (proj2 (Z.leb_le 2 (2 + n))) by lia.
  replace (Z.to_nat (512 * (2 + n - 2) + (0 + Z.of_nat j))) with (Z.to_nat (512 * n) + j)%nat by lia.
  rewrite Z.add_0_l, Nat2Z.id. subst l. rewrite !nth_lookup.
  rewrite lookup_take, decide_True, lookup_drop by lia. done.
Qed.

Lemma format_valid : gpt_valid D.
Proof.
  split; [apply header_ok|]. destruct table_back as (-> & _ & ->). rewrite header_back. cbn [partition_table_crc32].
  f_equal. unfold table_image. apply take_app_length'. rewrite entries_total. lia.
Qed.

Lemma entry_back e i : es !! i = Some e -> disk_entry D (Z.of_nat i) = e.
Proof.
  intros E. unfold disk_entry. destruct table_back as (-> & _ & _). rewrite header_back. cbn [partition_entry_size].
  replace (Z.to_nat (Z.of_nat i * 128)) with (i * 128)%nat by lia.
  assert ((entry_bytes <$> es) !! i = Some (entry_bytes e)) as E' by (by rewrite list_lookup_fmap, E).
  pose proof (Forall_lookup_1 _ _ _ _ Hes E) as [[L1 _] [L2 _] F1 F2 F3 [L3 _]].
  assert (forall o n, (o + n <= 128)%nat ->
    bytes_at timg (i * 128 + o) n = bytes_at (concat (entry_fields e) ++ []) o n) as Hf.
  { intros o n Hn. rewrite app_nil_r. unfold table_image. 
    apply (bytes_at_concat _ _ 128 i); [apply entries_length|done|done]. }
  unfold entry_at, le_at. rewrite <- (Nat.add_0_r (i * 128)) at 1. rewrite !Hf by lia.
  rewrite (field_at (entry_fields e) [] 0 (partition_type_guid e) 0 16),
    (field_at (entry_fields e) [] 1 (unique_guid e) 16 16),
    (field_at (entry_fields e) [] 2 (le_bytes 8 (starting_lba e)) 32 8),
    (field_at (entry_fields e) [] 3 (le_bytes 8 (ending_lba e)) 40 8),
    (field_at (entry_fields e) [] 4 (le_bytes 8 (attributes e)) 48 8),
    (field_at (entry_fields e) [] 5 (partition_name e) 56 72);
    try (unfold entry_fields; cbn [take concat]; rewrite ?length_app, ?le_bytes_length, ?L1, ?L2, ?L3; done).
  rewrite !le_of_le_bytes by done. by destruct e.
Qed.

Lemma partitions_back : gpt_partitions D = omap described es.
Proof.
  unfold gpt_partitions. rewrite header_back. cbn [partition_entry_count].
  unfold seqZ. rewrite Nat2Z.id.
  assert ((fun i => disk_entry D (Z.of_nat i + 0)) <$> seq 0 (length es) = es) as E.
  { apply list_eq. intros i. rewrite list_lookup_fmap. destruct (decide (i < length es)%nat) as [Hi|Hi].
    - rewrite lookup_seq_lt by done. cbn [fmap option_fmap option_map]. rewrite Z.add_0_r.
      destruct (lookup_lt_is_Some_2 es i Hi) as [e Ee]. rewrite Ee. f_equal. by apply entry_back.
    - rewrite lookup_seq_ge by lia. symmetry. apply lookup_ge_None. lia. }
  rewrite <- E at 2. rewrite !omap_fmap. done.
Qed.

End format.

(** ** Claims *)

(** C6: parsing a partition table of a registered disk always returns (no
    access outside a buffer, whatever the disk holds), reads only, and
    answers true exactly on the tables that gpt.c means to accept: true
    implies [gpt_valid] (the header fields gpt_check_header looks at and the
    two checksums, computed bit by bit), and then exactly the used,
    well-ordered entries were appended, in table order; conversely such a
    table of at most 16 MiB is accepted when no read and no allocation fails.
    The protective MBR, the range of usable sectors and the field [reserved],
    which the declaration of the header says must be 0, are not among the
    checks. *)
Theorem gpt_parse_correct {K} `{BlockEnvLaws K} `{HeapLaws} (s : block_st K) p i record_ok parts stk :
  block_wf s -> infos s !! p = Some i -> bitmap_wf stk 512 ->
  dynarr_wf parts -> tight parts -> element_size parts = sizeof_part_info ->
  let D := device (world s) i in
  exists ok parts' k,
    gpt_parse record_ok (devt i) parts stk s = Ok (ok, parts', set_world s k) /\
    same (world s) k /\ dynarr_wf parts' /\
    (ok = true -> gpt_valid D /\ contents parts' = contents parts ++ (info_bytes <$> gpt_partitions D)) /\
    (gpt_valid D -> record_ok = true -> reads_ok (world s) i -> HeapTotal ->
     512 * table_sectors D <= 2 ^ 24 ->
     sizeof_part_info * (Z.of_nat (length (contents parts)) + partition_entry_count (disk_header D)) <= 2 ^ 24 ->
     ok = true).
Proof.
  intros Hwf Hi Hb Hw Ht He D.
  destruct (gpt_parse_spec s p i Hwf Hi record_ok parts (contents parts) stk Hb)
    as (ok & parts' & l' & k & E & Hs & (Hw' & _ & _ & <-) & Ho & Hr); [done|].
  exists ok, parts', k. split_and!; try done; [|intros; by apply Hr].
  intros Hok. destruct (Ho Hok) as (? & ? & _). done.
Qed.

(** C33: formatting and parsing are inverse: a disk on which the header and the
    table of any list of well-formed entries (up to 16 MiB of records) were
    written parses to exactly those entries that describe a partition, in
    their order. *)
Theorem gpt_format_parse {K} `{BlockEnvLaws K} `{HeapLaws, !HeapTotal} (s : block_st K) p i parts stk
    es guid backup first last :
  block_wf s -> infos s !! p = Some i -> bitmap_wf stk 512 -> reads_ok (world s) i ->
  dynarr_wf parts -> tight parts -> element_size parts = sizeof_part_info -> contents parts = [] ->
  Forall entry_wf es -> es <> [] -> Z.of_nat (length es) * 136 <= 2 ^ 24 - 512 ->
  length guid = 16%nat -> Forall (fits 8) guid -> fits 64 backup -> fits 64 first -> fits 64 last ->
  (forall n j, 0 <= n < 2 ^ 64 -> 0 <= j < 512 -> device (world s) i n j = formatted es guid backup first last n j) ->
  exists parts' k,
    gpt_parse true (devt i) parts stk s = Ok (true, parts', set_world s k) /\
    same (world s) k /\ contents parts' = info_bytes <$> omap described es.
Proof.
  intros Hwf Hi Hb Hr Hw Ht He Hc Hes Hne Hlen Lg Hg F1 F2 F3 HD.
  destruct (gpt_parse_spec s p i Hwf Hi true parts (contents parts) stk Hb)
    as (ok & parts' & l' & k & E & Hs & (_ & _ & _ & <-) & Ho & Hroom); [done|].
  destruct (gpt_ext (device (world s) i) (formatted es guid backup first last)) as (Ev & Ep & Eh & Es).
  { intros n Hn. unfold sector_list. apply list_fmap_ext. intros j x Ej. apply lookup_seqZ in Ej as [-> Hj].
    apply HD; lia. }
  assert (Z.of_nat (length es) * 136 <= 2 ^ 24) as Hlen' by lia.
  rewrite Ev, Ep in *.
  pose proof (table_back es guid backup first last Hes Hne Hlen' (conj Lg Hg) F1 F2 F3) as (_ & En & _).
  pose proof (image_bounds es guid Hes Hne Hlen' (conj Lg Hg)) as [_ Him].
  assert (ok = true) as ->.
  { apply Hroom; [by apply format_valid|done| |].
    - unfold table_room. rewrite Es, En. split_and!; [done|done|lia].
    - unfold extract_room. rewrite Eh, header_back, Hc by done. unfold sizeof_part_info. cbn [length partition_entry_count].
      split; [done|lia]. }
  destruct (Ho eq_refl) as (_ & Ec & _). exists parts', k. split_and!; try done.
  rewrite Ec, Hc, (partitions_back es guid backup first last) by done. done.
Qed.

(** ** A formatted RAM disk *)

(** A data partition, an unused entry, and a second data partition. *)
Definition demo_entries : list gpt_entry_t :=
  [GptEntry (replicate 16 0xAF) (replicate 16 1) 34 2047 0 (replicate 72 65);
   GptEntry (replicate 16 0) (replicate 16 0) 0 0 0 (replicate 72 0);
   GptEntry (replicate 16 0x22) (replicate 16 2) 2048 4095 (2 ^ 16) (replicate 72 66)].

Definition demo_info : block_dev_info := BlockDevInfo 7 8 8192 0 5 3 "/dev/virtio0".
Definition demo_disk : Z -> Z -> Z := formatted demo_entries (replicate 16 9) 8191 34 8158.
Definition demo_block : block_st ram :=
  BlockSt [100] {[100 := demo_info]} {[3 := BlockType "virtio" 1 1]} (Ram demo_disk {[100]} {[5]} []).
Definition demo_parts : dynarr_t := Dynarr (filled (16 * 136) 0xA5) 136 0 14 16 0.

Lemma demo_block_wf : block_wf demo_block.
Proof.
  constructor; cbn [block_devt_to_info infos types world demo_block].
  - apply NoDup_singleton.
  - intros q. rewrite lookup_singleton_is_Some, list_elem_of_singleton. done.
  - intros q ->%list_elem_of_singleton. change (100 ∈ ({[100]} : gset Z)). by apply elem_of_singleton.
  - intros q r a b [<- _]%lookup_singleton_Some [<- _]%lookup_singleton_Some _. done.
  - intros q a [_ <-]%lookup_singleton_Some. change (5 ∈ ({[5]} : gset Z)). by apply elem_of_singleton.
  - intros q a [_ <-]%lookup_singleton_Some. by eexists.
Qed.

Lemma demo_parts_wf : dynarr_wf demo_parts /\ tight demo_parts.
Proof.
  split; [|split; [reflexivity|by left]].
  constructor; cbn [demo_parts arr element_size current_count max_count dynarr_count max_limit]; try lia.
  - apply filled_wf. unfold fits. lia.
  - reflexivity.
  - unfold fits. lia.
Qed.

Lemma demo_heap_total : @HeapTotal demo_heap.
Proof. intros n Hn. unfold kheap_alloc, demo_heap. replace (_ && _) with true by lia. by eexists. Qed.

Lemma demo_entries_wf : Forall entry_wf demo_entries.
Proof.
  repeat constructor; cbn [partition_type_guid unique_guid starting_lba ending_lba attributes partition_name];
    try done; try (apply Forall_replicate); unfold fits; lia.
Qed.

Lemma demo_disk_bytes n j : 0 <= n < 2 ^ 64 -> 0 <= j < 512 -> device (world demo_block) demo_info n j = demo_disk n j.
Proof.
  intros Hn Hj. unfold device, disk. cbn [ram_laws priv dev start_sector demo_info world demo_block].
  rewrite Z.add_0_r, (wrap_small 64) by done. unfold ram_byte. cbn [content]. apply wrap_small.
  unfold demo_disk, formatted.
  assert (forall l k, Forall (fits 8) l -> fits 8 (nth k l 0)) as Hnth.
  { intros l k Hl. destruct (nth_in_or_default k l 0) as [Hin| ->]; [|unfold fits; lia].
    apply (proj1 (List.Forall_forall _ _) Hl). done. }
  destruct (n =? 1); [|destruct (2 <=? n); [|unfold fits; lia]]; apply Hnth.
  - apply Forall_app_2; [apply header_fields_fits|apply Forall_replicate; unfold fits; lia].
    split; [done|apply Forall_replicate; unfold fits; lia].
  - apply Forall_app_2; [apply entries_fits, demo_entries_wf|apply Forall_replicate; unfold fits; lia].
Qed.

Lemma gpt_format_parse_witness :
  exists parts' k,
    @gpt_parse ram ram_env demo_heap true 5 demo_parts (filled 512 0) demo_block = Ok (true, parts', set_world demo_block k) /\
    same (world demo_block) k /\ contents parts' = info_bytes <$> omap described demo_entries.
Proof.
  apply (@gpt_format_parse ram ram_env ram_laws demo_heap demo_heap_laws demo_heap_total demo_block 100 demo_info demo_parts (filled 512 0) demo_entries (replicate 16 9) 8191 34 8158).
  - apply demo_block_wf.
  - done.
  - apply filled_wf. unfold fits. lia.
  - intros k' sector buf ret buf' k'' _ E. rewrite ram_reads in E. injection E as <- _ _. lia.
  - apply demo_parts_wf.
  - apply demo_parts_wf.
  - done.
  - done.
  - apply demo_entries_wf.
  - done.
  - vm_compute. discriminate.
  - done.
  - apply Forall_replicate. unfold fits. lia.
  - unfold fits. lia.
  - unfold fits. lia.
  - unfold fits. lia.
  - apply demo_disk_bytes.
Defined.

Lemma gpt_parse_correct_witness :
  let D := device (world demo_block) demo_info in
  exists ok parts' k,
    @gpt_parse ram ram_env demo_heap true 5 demo_parts (filled 512 0) demo_block = Ok (ok, parts', set_world demo_block k) /\
    same (world demo_block) k /\ dynarr_wf parts' /\
    (ok = true -> gpt_valid D /\ contents parts' = contents demo_parts ++ (info_bytes <$> gpt_partitions D)).
Proof.
  destruct (@gpt_parse_correct ram ram_env ram_laws demo_heap demo_heap_laws demo_block 100 demo_info true demo_parts (filled 512 0))
    as (ok & parts' & k & E & Hs & Hw & Ho & _).
  - apply demo_block_wf.
  - reflexivity.
  - apply filled_wf. unfold fits. lia.
  - apply demo_parts_wf.
  - apply demo_parts_wf.
  - reflexivity.
  - exists ok, parts', k. exact (conj E (conj Hs (conj Hw Ho))).
Defined.

(** The two partitions the code finds, run on the RAM disk. *)
Example demo_parse :
  (r ← @gpt_parse ram ram_env demo_heap true 5 demo_parts (filled 512 0) demo_block;
   let '(ok, parts, _) := r in
   Ok (ok, (fun e => (le_at e 0 8, le_at e 16 8)) <$> contents parts))
  = Ok (true, [(34, 2014); (2048, 2048)]).
Proof. vm_compute. reflexivity. Qed.
