(* ===== verification/BlockDevices.v ===== *)
(** * Registering and removing disks (kernel/block/core.c)

    block_add_device composes the block layer of Block.v with the parser of
    Gpt.v: the disk gets an entry, then every partition of its table gets one.
    The theorems say what the list of entries holds afterwards, on every
    failure of the services below, and what removal leaves. *)

From stdpp Require Import strings.
From S2P Require Import Prelude Bitmap Dynarr Endian Block Gpt GptSpec RamDisk GptFormat.

Local Open Scope Z_scope.

Section add.
Context {K : Type} `{BlockEnv K} `{Heap}.
Implicit Types (s : block_st K).

(** core.c: block_add_device, the body of the loop over the partitions *)
Definition add_partition (ty : Z) (t : block_type) (dv pv : Z) (partitions : dynarr_t) (i : Z) s
  : outcome (block_st K) :=
  match dynarr_get (Some partitions) i with
  | None => Ok s
  | Some pinfo =>
      start_lba ← load_le (arr partitions) pinfo 8;
      size ← load_le (arr partitions) (pinfo + 16) 8;
      let '(_, _, s) :=
        add_entry ty t dv pv size start_lba (part_path (name t) (counter t) i) s in
      Ok s
  end.

(** core.c: block_add_device.  [parts_ok] and [raw_ok] say whether the records
    of the two arrays could be allocated, [stk] is what the stack holds. *)
Definition block_add_device (parts_ok raw_ok : bool) (ty dv pv sector_count : Z) (stk : bytes) s
  : outcome (Z * block_st K) :=
  t ← deref (types s !! ty);
  let '(ret, d, s) := add_entry ty t dv pv sector_count 0 (disk_path (name t) (counter t)) s in
  if ret <? 0 then Ok (ret, s)
  else
    let s := BlockSt (block_devt_to_info s) (infos s)
               (<[ty := BlockType (name t) (u32 (counter t + 1)) (major_handle t)]> (types s)) (world s) in
    match dynarr_create parts_ok sizeof_part_info 0 with
    | None => Ok (0, s)
    | Some partitions =>
        '(ok, partitions, s) ← gpt_parse raw_ok d partitions stk s;
        s ← (if ok : bool
             then for_up (Z.to_nat (current_count partitions)) 0
                    (add_partition ty t dv pv partitions) s
             else Ok s);
        Ok (0, s)
    end.

End add.

(** ** One entry *)

(** The disk contents do not change. *)
Definition same_disk {K} `{BlockEnvLaws K} (k k' : K) : Prop :=
  forall pv dv sec j, disk k' pv dv sec j = disk k pv dv sec j.

Section entries.
Context {K : Type} `{BlockEnvLaws K}.
Implicit Types (s : block_st K).

Lemma registered_app s p i : block_wf s -> infos s !! p = None ->
  registered (link_info p i s) = registered s ++ [i].
Proof.
  intros Hwf Hp. unfold registered. cbn [link_info block_devt_to_info infos]. rewrite omap_app. f_equal.
  - apply omap_insert_notin. intros [? ?]%(wf_dom s Hwf). congruence.
  - csimpl. by rewrite lookup_insert_eq.
Qed.

(** What becomes of one registration, by the answers of the services: a device
    number, an object and a node, in this order; whatever was taken is given
    back when a later one is refused. *)
Definition entry_fate (h : Z) (pth : string) (k : K) : option Z * K :=
  let '(ret, d, k) := minor_alloc h k in
  if ret <? 0 then (None, k)
  else
    let '(p, k) := heap_alloc sizeof_block_dev_info k in
    if p =? 0 then (None, minor_free h d k)
    else
      let '(ret, k) := vfs_mknod pth BLOCK_MODE d k in
      if ret <? 0 then (None, minor_free h d (heap_free p k)) else (Some d, k).

(** A fresh object with an unused device number joins the list. *)
Lemma link_info_wf s p i k : block_wf s -> infos s !! p = None ->
  devt i ∉ numbers (world s) -> is_Some (types s !! type i) ->
  live k = {[p]} ∪ live (world s) -> numbers k = {[devt i]} ∪ numbers (world s) ->
  block_wf (link_info p i (set_world s k)).
Proof.
  intros Hwf Hp Hd Ht Hl Hn. pose proof Hwf as [W1 W2 W3 W4 W5 W6].
  assert (p ∉ block_devt_to_info s) as Hnin by (intros [? ?]%W2; congruence).
  constructor; cbn [link_info set_world block_devt_to_info infos types world].
  - apply NoDup_app. split; [done|]. split; [|apply NoDup_singleton].
    intros x Hx ->%list_elem_of_singleton. done.
  - intros q. rewrite lookup_insert_is_Some', elem_of_app, list_elem_of_singleton, W2. naive_solver.
  - intros q. rewrite elem_of_app, list_elem_of_singleton, Hl. intros [Hq%W3| ->]; set_solver.
  - intros q r a b. rewrite !lookup_insert_Some. intros [[<- <-]|[_ Ea]] [[<- <-]|[_ Eb]] E; try done.
    + exfalso. apply Hd. rewrite E. by apply (W5 r).
    + exfalso. apply Hd. rewrite <- E. by apply (W5 q).
    + by apply (W4 q r a b).
  - intros q a. rewrite lookup_insert_Some, Hn. intros [[<- <-]|[_ Ea%W5]]; set_solver.
  - intros q a. rewrite lookup_insert_Some. intros [[<- <-]|[_ Ea%W6]]; done.
Qed.

(** The invariant only needs the objects and numbers of the entries. *)
Lemma world_wf s k : block_wf s ->
  (forall p, p ∈ block_devt_to_info s -> p ∈ live k) ->
  (forall p i, infos s !! p = Some i -> devt i ∈ numbers k) -> block_wf (set_world s k).
Proof. intros [] Hl Hn. constructor; cbn; eauto. Qed.

(** Taking the entry just linked out again. *)
Lemma unlink_link s p i k k' : block_wf s -> infos s !! p = None ->
  unlink_info p (set_world (link_info p i (set_world s k)) k') = set_world s (heap_free p k').
Proof.
  intros Hwf Hp. unfold unlink_info, set_world, link_info. cbn [block_devt_to_info infos types world].
  rewrite delete_insert_id by done. f_equal.
  rewrite filter_app, (filter_notin (block_devt_to_info s)) by (intros [? ?]%(wf_dom s Hwf); congruence).
  rewrite filter_cons_False by (intros Hx; by apply Hx). apply app_nil_r.
Qed.

(** What add_entry does on success and on each failure. *)
Lemma add_entry_spec s ty t dv pv count start pth : block_wf s -> types s !! ty = Some t ->
  exists ret d s', add_entry ty t dv pv count start pth s = (ret, d, s') /\
    block_wf s' /\ types s' = types s /\ same_disk (world s) (world s') /\
    entry_fate (major_handle t) pth (world s) = (if ret <? 0 then None else Some d, world s') /\
    (ret < 0 -> block_devt_to_info s' = block_devt_to_info s /\ infos s' = infos s) /\
    (0 <= ret -> ret = 0 /\ exists p, infos s' !! p = Some (BlockDevInfo pv dv count start d ty pth) /\
       registered s' = registered s ++ [BlockDevInfo pv dv count start d ty pth]).
Proof.
  intros Hwf Ht. pose proof Hwf as [W1 W2 W3 W4 W5 W6]. unfold add_entry, entry_fate.
  destruct (minor_alloc (major_handle t) (world s)) as [[ret d] k1] eqn:E1.
  destruct (minor_law _ _ _ _ _ E1) as (D1 & L1 & N1 & N1').
  destruct (Z.ltb_spec ret 0) as [Hr|Hr].
  { exists ret, 0, (set_world s k1). split; [done|]. rewrite (proj2 (Z.ltb_lt ret 0)) by done.
    split_and!; try done; [|lia].
    apply set_world_wf; [done|]. split_and!; auto. }
  destruct (N1' Hr) as [Hfd Hn1]. clear N1 N1'.
  destruct (heap_alloc sizeof_block_dev_info k1) as [p k2] eqn:E2.
  destruct (alloc_law _ _ _ _ E2) as (D2 & N2 & L2 & L2').
  assert (same_disk (world s) k2) as Dk2 by (intros ????; by rewrite D2, D1).
  destruct (Z.eqb_spec p 0) as [Hp|Hp].
  { destruct (minor_free_law (major_handle t) d k2) as (D3 & L3 & N3 & N3').
    eexists _, 0, _. split; [done|]. split_and!; try done.
    - apply world_wf; [done| |].
      + intros q Hq. rewrite L3, L2, L1 by done. by apply W3.
      + intros q i Ei. apply N3. rewrite N2, Hn1. pose proof (W5 q i Ei). set_solver.
    - cbn. intros ????. by rewrite D3, D2, D1. }
  destruct (L2' Hp) as [Hlp Hl2]. clear L2 L2'. rewrite L1 in Hlp, Hl2. rewrite Hn1 in N2.
  assert (infos s !! p = None) as Hnp.
  { apply eq_None_not_Some. intros Hs%W2%W3. done. }
  set (i := BlockDevInfo pv dv count start d ty pth).
  pose proof (link_info_wf s p i k2 Hwf Hnp Hfd (ltac:(by eexists)) Hl2 N2) as Hlink.
  cbn [world link_info set_world].
  destruct (vfs_mknod pth BLOCK_MODE d k2) as [r3 k3] eqn:E3. pose proof (mknod_law _ _ _ _ _ _ E3) as S3.
  destruct (Z.ltb_spec r3 0) as [Hr3|Hr3].
  - rewrite (unlink_link s p i k2 k3) by done. cbn [world set_world].
    destruct (free_law p k3) as (D4 & N4 & L4).
    destruct (minor_free_law (major_handle t) d (heap_free p k3)) as (D5 & L5 & N5 & N5').
    destruct S3 as (D3 & L3 & N3).
    eexists r3, 0, (set_world s _). split; [done|]. rewrite (proj2 (Z.ltb_lt r3 0)) by done.
    split_and!; try done; [| |lia].
    + apply world_wf; [done| |].
      * intros q Hq. rewrite L5, L4, L3, Hl2. pose proof (W3 q Hq).
        assert (q <> p) by (intros ->; apply W2 in Hq as [? ?]; congruence). set_solver.
      * intros q a Ea. apply N5. rewrite N4, N3, N2. pose proof (W5 q a Ea).
        assert (devt a <> d) by congruence. set_solver.
    + cbn. intros ????. rewrite D5, D4, D3. apply Dk2.
  - exists 0, d, (set_world (link_info p i (set_world s k2)) k3). split; [done|]. split_and!; try done.
    + by apply set_world_wf.
    + cbn. intros ????. destruct S3 as (-> & _). apply Dk2.
    + intros _. split; [done|]. exists p. cbn [infos set_world link_info]. rewrite lookup_insert_eq. split; [done|].
      change (registered (set_world (link_info p i (set_world s k2)) k3)) with (registered (link_info p i s)).
      by apply registered_app.
Qed.
End entries.

(** ** The partitions of a disk *)

(** Loading a field of an element of an array. *)
Lemma elem_load (d : dynarr_t) (k : nat) l o n : dynarr_wf d -> contents d !! k = Some l ->
  0 <= o -> o + Z.of_nat n <= element_size d ->
  load_le (arr d) (Z.of_nat k * element_size d + o) n = Ok (le_at l (Z.to_nat o) n).
Proof.
  intros Hw E Ho Hn. pose proof (contents_length d Hw) as L. pose proof (lookup_lt_Some _ _ _ E) as Hk.
  unfold contents in E. rewrite list_lookup_fmap, lookup_seqZ_lt in E by lia.
  cbn [fmap option_fmap option_map] in E. apply (inj Some) in E. rewrite Z.add_0_l in E.
  destruct Hw as [[Hd _] ? ? ? ? ? ? ?].
  assert (length l = Z.to_nat (element_size d)) as Ll
    by (rewrite <- E; unfold elem, read; rewrite length_fmap, length_seqZ; done).
  unfold load_le, le_at. assert (n = length (bytes_at l (Z.to_nat o) n)) as En
    by (symmetry; apply bytes_at_length; lia).
  set (b := bytes_at l (Z.to_nat o) n) in *. rewrite En.
  enough (load_bytes (arr d) (Z.of_nat k * element_size d + o) (length b) = Ok b) as -> by done.
  apply load_bytes_Ok. intros j x Ej. subst b. unfold bytes_at in Ej.
  apply lookup_take_Some in Ej as [Ej Hj]. rewrite lookup_drop in Ej. rewrite <- E in Ej.
  unfold elem, read in Ej. apply list_lookup_fmap_Some in Ej as (z & -> & Ez). apply lookup_seqZ in Ez as [-> Hz].
  destruct (proj2 (Hd (Z.of_nat k * element_size d + o + Z.of_nat j))) as [v Ev]; [nia|].
  rewrite Ev. replace (Z.of_nat k * element_size d + (0 + Z.of_nat (Z.to_nat o + j)))
    with (Z.of_nat k * element_size d + o + Z.of_nat j) by lia. by rewrite Ev.
Qed.

(** The range of sectors of an entry and of a partition of the table. *)
Definition entry_range (e : block_dev_info) : Z * Z := (start_sector e, sector_count e).
Definition part_range (q : block_partition_info) : Z * Z := (start_lba q, size q).

Lemma info_range q rest : part_fits q -> le_at (info_bytes q ++ rest) 0 8 = start_lba q /\
  le_at (info_bytes q ++ rest) 16 8 = size q.
Proof.
  intros [H1 H2]. unfold info_bytes. rewrite <- !app_assoc. unfold le_at. split.
  - pose proof (bytes_at_app [] (le_bytes 8 (start_lba q))) as E. cbn [app length] in E.
    rewrite le_bytes_length in E. rewrite E. by apply le_of_le_bytes.
  - rewrite (app_assoc (le_bytes 8 (start_lba q))).
    pose proof (bytes_at_app (le_bytes 8 (start_lba q) ++ le_bytes 8 (end_lba q)) (le_bytes 8 (size q))) as E.
    rewrite length_app, !le_bytes_length in E. rewrite E. by apply le_of_le_bytes.
Qed.

Section add_device.
Context {K : Type} `{BlockEnvLaws K} `{HeapLaws}.
Implicit Types (s : block_st K).

(** The entries that the partitions [qs] get, one after the other. *)
Definition part_step (ty : Z) (t : block_type) (dv pv : Z) (r : list block_dev_info * K) (x : nat * block_partition_info)
  : list block_dev_info * K :=
  let pth := part_path (name t) (counter t) (Z.of_nat x.1) in
  let '(o, k) := entry_fate (major_handle t) pth r.2 in
  (r.1 ++ match o with
          | Some d => [BlockDevInfo pv dv (size x.2) (start_lba x.2) d ty pth]
          | None => []
          end, k).

Definition part_entries (ty : Z) (t : block_type) (dv pv : Z) (qs : list block_partition_info) (k : K)
  : list block_dev_info * K :=
  fold_left (part_step ty t dv pv) (imap pair qs) ([], k).

Lemma part_entries_snoc ty t dv pv qs q k :
  part_entries ty t dv pv (qs ++ [q]) k = part_step ty t dv pv (part_entries ty t dv pv qs k) (length qs, q).
Proof. unfold part_entries. rewrite imap_app, fold_left_app. cbn. by rewrite Nat.add_0_r. Qed.

(** When no service refuses, every partition gets its entry. *)
Lemma part_entries_all ty t dv pv qs k : (forall pth k, is_Some (entry_fate (major_handle t) pth k).1) ->
  entry_range <$> (part_entries ty t dv pv qs k).1 = part_range <$> qs.
Proof.
  intros Hok. induction qs as [|q qs IH] using rev_ind; [done|]. rewrite part_entries_snoc, fmap_app, <- IH.
  unfold part_step. destruct (part_entries ty t dv pv qs k) as [ps k1]. cbn [fst snd].
  destruct (Hok (part_path (name t) (counter t) (Z.of_nat (length qs))) k1) as [d Ed].
  destruct (entry_fate _ _ k1) as [o k']. cbn in *. subst o. by rewrite fmap_app.
Qed.

(** The loop over the partitions: those for which every step succeeds get an
    entry, in table order. *)
Lemma add_partitions_spec s ty t t' dv pv parts (qs : list block_partition_info) :
  block_wf s -> types s !! ty = Some t' -> major_handle t' = major_handle t ->
  dynarr_wf parts -> element_size parts = sizeof_part_info ->
  contents parts = info_bytes <$> qs -> Forall part_fits qs ->
  exists s' ps, for_up (Z.to_nat (current_count parts)) 0 (add_partition ty t dv pv parts) s = Ok s' /\
    block_wf s' /\ types s' = types s /\ same_disk (world s) (world s') /\
    registered s' = registered s ++ ps /\ part_entries ty t dv pv qs (world s) = (ps, world s').
Proof.
  intros Hwf Ht Hh Hw He Hc Hq. pose proof (contents_length parts Hw) as L. rewrite Hc, length_fmap in L.
  destruct (for_up_inv (fun n s' => block_wf s' /\ types s' = types s /\ same_disk (world s) (world s') /\
      exists ps, registered s' = registered s ++ ps /\
        part_entries ty t dv pv (take (Z.to_nat n) qs) (world s) = (ps, world s'))
    (Z.to_nat (current_count parts)) 0 (add_partition ty t dv pv parts) s)
    as (s' & E & Hwf' & Ht' & Hd & ps & Hr & Hsub).
  - split_and!; try done. exists []. rewrite app_nil_r. split_and!; try done.
  - intros n s1 Hn (Hwf1 & Ht1 & Hd1 & ps & Hr1 & Hsub1).
    destruct (lookup_lt_is_Some_2 qs (Z.to_nat n)) as [q Eq]; [lia|].
    assert (contents parts !! Z.to_nat n = Some (info_bytes q)) as Ec by (rewrite Hc, list_lookup_fmap, Eq; done).
    unfold add_partition, dynarr_get. rewrite (proj2 (Z.leb_gt (current_count parts) n)) by lia.
    pose proof (elem_load parts (Z.to_nat n) _ 0 8 Hw Ec ltac:(lia) ltac:(rewrite He; done)) as E0.
    pose proof (elem_load parts (Z.to_nat n) _ 16 8 Hw Ec ltac:(lia) ltac:(rewrite He; done)) as E1.
    rewrite Z2Nat.id in E0, E1 by lia. rewrite Z.add_0_r in E0. rewrite E0, Ok_bind, E1, Ok_bind.
    destruct (info_range q [] ltac:(by eapply Forall_lookup_1)) as [R0 R1]. rewrite app_nil_r in R0, R1.
    change (Z.to_nat 0) with 0%nat. change (Z.to_nat 16) with 16%nat. rewrite R0, R1.
    assert (add_entry ty t dv pv (size q) (start_lba q) (part_path (name t) (counter t) n) s1 =
      add_entry ty t' dv pv (size q) (start_lba q) (part_path (name t) (counter t) n) s1) as ->
      by (unfold add_entry; by rewrite Hh).
    destruct (add_entry_spec s1 ty t' dv pv (size q) (start_lba q) (part_path (name t) (counter t) n) Hwf1)
      as (ret & d & s2 & -> & Hwf2 & Ht2 & Hd2 & Hfate & Hneg & Hpos); [congruence|].
    eexists. split; [done|]. split_and!; [done|congruence|intros ????; by rewrite Hd2, Hd1|].
    replace (Z.to_nat (n + 1)) with (S (Z.to_nat n)) by lia.
    rewrite (take_S_r _ _ _ Eq), part_entries_snoc, Hsub1. unfold part_step. cbn [fst snd].
    rewrite length_take_le, Z2Nat.id by lia. rewrite Hh in Hfate. rewrite Hfate.
    destruct (Z.ltb_spec ret 0) as [Hlt|Hge].
    + destruct (Hneg Hlt) as [El Ei]. exists ps. rewrite app_nil_r. split; [|done]. unfold registered. by rewrite El, Ei.
    + destruct (Hpos Hge) as (_ & p & _ & Er). eexists (ps ++ [_]). rewrite Er, Hr1, <- app_assoc. done.
  - exists s', ps. replace (Z.to_nat (0 + _)) with (length qs) in Hsub by lia.
    rewrite take_ge in Hsub by done. done.
Qed.

End add_device.

(** ** Removing *)

Section remove.
Context {K : Type} `{BlockEnvLaws K}.
Implicit Types (s : block_st K).

Lemma remove_step s pre p l i t : block_wf s -> block_devt_to_info s = pre ++ p :: l ->
  infos s !! p = Some i -> types s !! type i = Some t ->
  let k := minor_free (major_handle t) (devt i) (vfs_unlink (path i) (world s)) in
  let s1 := BlockSt (filter (fun q => q <> p) (block_devt_to_info s)) (delete p (infos s)) (types s) (heap_free p k) in
  block_wf s1 /\ block_devt_to_info s1 = pre ++ l /\ same_disk (world s) (world s1).
Proof.
  intros Hwf El Ei Et k s1. pose proof Hwf as [W1 W2 W3 W4 W5 W6].
  rewrite El in W1. apply NoDup_app in W1 as (Hpre & Hdis & [Hpl Hl]%NoDup_cons).
  assert (p ∉ pre) as Hpp by (intros Hin; apply (Hdis p Hin); left).
  assert (block_devt_to_info s1 = pre ++ l) as El1.
  { cbn. rewrite El, filter_app, filter_cons_False by (intros Hx; by apply Hx). by rewrite !filter_notin. }
  destruct (unlink_law (path i) (world s)) as (D1 & L1 & N1).
  destruct (minor_free_law (major_handle t) (devt i) (vfs_unlink (path i) (world s))) as (D2 & L2 & N2 & _). fold k in D2, L2, N2.
  destruct (free_law p k) as (D3 & N3 & L3).
  split; [|split; [done|cbn; intros ????; by rewrite D3, D2, D1]].
  constructor; rewrite ?El1; cbn [s1 infos types world].
  - apply NoDup_app. split_and!; try done. intros x Hx Hxl. apply (Hdis x Hx). by right.
  - intros q. rewrite lookup_delete_is_Some, W2, El, !elem_of_app, elem_of_cons.
    split; [naive_solver|]. intros Hq. split; [intros ->; tauto|]. tauto.
  - intros q Hq. rewrite L3, L2, L1. assert (q <> p) by (intros ->; apply elem_of_app in Hq; tauto).
    assert (q ∈ live (world s)); [|set_solver]. apply W3. rewrite El. apply elem_of_app in Hq. apply elem_of_app.
    rewrite elem_of_cons. tauto.
  - intros q r a b [_ Ea]%lookup_delete_Some [_ Eb]%lookup_delete_Some. by apply W4.
  - intros q a [Hq Ea]%lookup_delete_Some. rewrite N3. apply N2. rewrite N1. apply elem_of_difference.
    split; [by apply (W5 q)|]. intros E%elem_of_singleton. apply Hq. symmetry. by eapply W4.
  - intros q a [_ Ea]%lookup_delete_Some. by eapply W6.
Qed.

Lemma remove_loop_spec dv l : forall pre ret s, block_wf s -> block_devt_to_info s = pre ++ l ->
  exists s', remove_loop l dv ret s =
      Ok (if bool_decide (Exists (fun e => dev e = dv) (omap (fun q => infos s !! q) l)) then 0 else ret, s') /\
    block_wf s' /\ types s' = types s /\ same_disk (world s) (world s') /\
    registered s' = omap (fun q => infos s !! q) pre ++
      filter (fun e => dev e <> dv) (omap (fun q => infos s !! q) l) /\
    (forall q j, infos s' !! q = Some j -> infos s !! q = Some j /\ (q ∈ l -> dev j <> dv)).
Proof.
  induction l as [|p l IH]; intros pre ret s Hwf El.
  - exists s. cbn [remove_loop]. rewrite bool_decide_eq_false_2 by (by intros ?%Exists_nil). split_and!; try done.
    + unfold registered. by rewrite El, omap_app.
    + intros q j Ej. split; [done|]. by intros ?%elem_of_nil.
  - assert (p ∈ block_devt_to_info s) as Hin by (rewrite El; apply elem_of_app; right; left).
    apply (wf_dom s Hwf) in Hin as [i Ei]. destruct (wf_type s Hwf p i Ei) as [t Et].
    pose proof (wf_nodup s Hwf) as Hnd. rewrite El in Hnd. apply NoDup_app in Hnd as (_ & Hdis & [Hpl _]%NoDup_cons).
    assert (p ∉ pre) as Hpp by (intros Hin; apply (Hdis p Hin); left).
    cbn [remove_loop]. rewrite Ei, deref_Some, Ok_bind. csimpl. rewrite Ei.
    destruct (Z.eqb_spec (dev i) dv) as [Hd|Hd].
    + rewrite Et, deref_Some, Ok_bind. cbn [block_devt_to_info infos types world].
      destruct (remove_step s pre p l i t Hwf El Ei Et) as (Hwf1 & El1 & Hd1).
      destruct (IH pre 0 _ Hwf1 El1) as (s' & E & Hwf' & Ht' & Hd' & Hr' & Hi').
      cbn [infos] in E, Hr', Hi'. rewrite !omap_delete_notin in Hr' by done. rewrite omap_delete_notin in E by done.
      exists s'. rewrite E. rewrite (bool_decide_eq_true_2 (Exists _ (i :: _))) by (by left).
      rewrite filter_cons_False by (intros Hx; by apply Hx). split_and!; try done.
      * by destruct (bool_decide _).
      * intros ????. by rewrite Hd', Hd1.
      * intros q j Ej. apply Hi' in Ej as [[Hq Ej]%lookup_delete_Some Hl]. split; [done|].
        intros [->|Hin]%elem_of_cons; [done|by apply Hl].
    + destruct (IH (pre ++ [p]) ret s Hwf) as (s' & E & Hwf' & Ht' & Hd' & Hr' & Hi'); [by rewrite <- app_assoc|].
      exists s'. rewrite E. split_and!; try done.
      * do 2 f_equal. erewrite bool_decide_ext; [done|]. rewrite Exists_cons. tauto.
      * rewrite Hr', omap_app, filter_cons_True, <- app_assoc by done. csimpl. by rewrite Ei.
      * intros q j Ej. apply Hi' in Ej as [Ej Hl]. split; [done|].
        intros [->|Hin]%elem_of_cons; [congruence|by apply Hl].
Qed.

End remove.

(** ** Claims *)

(** C29: block_add_device always returns and keeps the list of entries
    consistent (live objects, distinct device numbers).  When the device
    number, the object or the node of the disk is refused, nothing is
    registered and only the services have changed.  Otherwise the list ends
    with the whole disk and then the entries of the partitions, and the number
    of disks of the type has gone up by one.  A partition entry is made only
    for a disk whose table passes the checks; then the partitions of the table
    are registered one after the other, each with its start, its length, its
    path and the device number it was given, leaving out only those for which
    a service refuses.  That happens for every such disk when no read fails,
    memory is left for the two arrays and the table has at most 16 MiB. *)
Theorem block_add_device_correct {K} `{BlockEnvLaws K} `{HeapLaws} (s : block_st K)
    parts_ok raw_ok ty t dv pv count stk :
  block_wf s -> types s !! ty = Some t -> bitmap_wf stk 512 ->
  exists ret s', block_add_device parts_ok raw_ok ty dv pv count stk s = Ok (ret, s') /\ block_wf s' /\
    match entry_fate (major_handle t) (disk_path (name t) (counter t)) (world s) with
    | (None, k) => ret < 0 /\ s' = set_world s k
    | (Some d, k) =>
        let D n j := disk (world s) pv dv (u64 n) j in
        let whole := BlockDevInfo pv dv count 0 d ty (disk_path (name t) (counter t)) in
        ret = 0 /\ types s' = <[ty := BlockType (name t) (u32 (counter t + 1)) (major_handle t)]> (types s) /\
        exists k' ps, same k k' /\ registered s' = registered s ++ whole :: ps /\
          let all := gpt_valid D /\ part_entries ty t dv pv (gpt_partitions D) k' = (ps, world s') in
          (all \/ ps = [] /\ world s' = k') /\
          (gpt_valid D -> parts_ok = true -> raw_ok = true -> reads_ok k whole -> HeapTotal ->
           512 * table_sectors D <= 2 ^ 24 -> sizeof_part_info * partition_entry_count (disk_header D) <= 2 ^ 24 -> all)
    end.
Proof.
  intros Hwf Ht Hb. unfold block_add_device. rewrite Ht, deref_Some, Ok_bind.
  destruct (add_entry_spec s ty t dv pv count 0 (disk_path (name t) (counter t)) Hwf Ht)
    as (ret & d & s1 & -> & Hwf1 & Ht1 & Hd1 & -> & Hneg & Hpos).
  destruct (Z.ltb_spec ret 0) as [Hlt|Hge].
  { exists ret, s1. split_and!; try done. destruct (Hneg Hlt) as [El Ei]. destruct s1; cbn in *. by subst. }
  destruct (Hpos Hge) as (-> & p & Ep & Er). clear Hneg Hpos Hge.
  set (whole := BlockDevInfo pv dv count 0 d ty (disk_path (name t) (counter t))) in *.
  set (t2 := BlockType (name t) (u32 (counter t + 1)) (major_handle t)).
  set (s2 := BlockSt (block_devt_to_info s1) (infos s1) (<[ty := t2]> (types s1)) (world s1)).
  assert (block_wf s2) as Hwf2.
  { destruct Hwf1. constructor; cbn; try done. intros q a Ea. rewrite lookup_insert_is_Some'. right. eauto. }
  set (D := fun n j => disk (world s) pv dv (u64 n) j).
  destruct (gpt_ext (device (world s2) whole) D) as (Ev & Epq & Eh & Es).
  { intros n Hn. unfold sector_list. apply list_fmap_ext. intros j x _. unfold device, D. cbn.
    rewrite Z.add_0_r. apply Hd1. }
  destruct (dynarr_create parts_ok sizeof_part_info 0) as [parts|] eqn:Ec.
  2:{ exists 0, s2. split_and!; try done; [by cbn; rewrite Ht1|]. exists (world s1), []. split; [done|]. split; [exact Er|].
      split; [by right|]. intros _ -> _ _ Htot _ _. exfalso.
      destruct (Htot (16 * sizeof_part_info)) as [bb Eb]; [by vm_compute|]. unfold dynarr_create in Ec.
      change (u64 (_ * sizeof_part_info)) with (16 * sizeof_part_info) in Ec. by rewrite Eb in Ec. }
  destruct (dynarr_create_tight parts_ok sizeof_part_info parts ltac:(unfold sizeof_part_info; lia) Ec) as (Hw & Htt & He & Hc).
  change (gpt_parse raw_ok d parts stk) with (gpt_parse raw_ok (devt whole) parts stk).
  destruct (gpt_parse_spec s2 p whole Hwf2 Ep raw_ok parts [] stk Hb) as
    (ok & parts' & l' & k & -> & Hs & (Hw' & _ & He' & <-) & Ho & Hroom); [done|]. rewrite Ok_bind.
  change (world s2) with (world s1) in Hs.
  destruct ok.
  2:{ rewrite Ok_bind. exists 0, (set_world s2 k). split_and!; [done|by apply set_world_wf|done|by cbn; rewrite Ht1|].
      exists k, []. split; [done|]. split; [exact Er|]. split; [by right|]. intros Hv _ -> Hr Htot Hts Hps.
      assert (false = true); [|done]. apply Hroom; [by apply Ev|done| |].
      - split; [done|]. split; [done|]. by rewrite Es.
      - split; [done|]. cbn [length]. by rewrite Z.add_0_l, Eh. }
  destruct (Ho eq_refl) as (Hv & Hc' & Hfit).
  destruct (add_partitions_spec (set_world s2 k) ty t t2 dv pv parts' (gpt_partitions (device (world s2) whole)))
    as (s' & ps & -> & Hwf' & Ht' & _ & Hr' & Hps); try done; [by apply set_world_wf|by cbn; rewrite lookup_insert_eq|].
  rewrite Ok_bind. exists 0, s'. split_and!; [done|done|done|by rewrite Ht'; cbn; rewrite Ht1|]. exists k, ps.
  assert (gpt_valid D /\ part_entries ty t dv pv (gpt_partitions D) k = (ps, world s')) as Hall
    by (split; [by apply Ev|by rewrite <- Epq]).
  split; [done|]. split; [|split; [by left|done]]. rewrite Hr'. change (registered (set_world s2 k)) with (registered s1).
  by rewrite Er, <- app_assoc.
Qed.

(** A machine with one formatted disk that is not registered yet. *)
Definition demo_fresh : block_st ram :=
  BlockSt [] ∅ {[3 := BlockType "virtio" 0 1]} (Ram demo_disk ∅ ∅ []).

Lemma demo_fresh_wf : block_wf demo_fresh.
Proof.
  constructor; cbn [block_devt_to_info infos types world demo_fresh].
  - constructor.
  - intros q. rewrite lookup_empty. split; [by intros []|by intros ?%elem_of_nil].
  - by intros q ?%elem_of_nil.
  - done.
  - done.
  - done.
Qed.

(** Run on the RAM disk: the disk and its two partitions, with their nodes. *)
Definition demo_added : outcome (Z * block_st ram) :=
  @block_add_device ram ram_env demo_heap true true 3 8 7 8192 (filled 512 0) demo_fresh.

Example demo_add :
  ('(ret, s) ← demo_added; Ok (ret, (fun e => (entry_range e, path e)) <$> registered s)) =
  Ok (0, [((0, 8192), "/dev/virtio0"%string); ((34, 2014), "/dev/virtio0p1"%string); ((2048, 2048), "/dev/virtio0p2"%string)]).
Proof. vm_compute. reflexivity. Qed.

Lemma block_add_device_correct_witness :
  exists s' k k' ps, demo_added = Ok (0, s') /\ block_wf s' /\
    entry_range <$> registered s' = [(0, 8192); (34, 2014); (2048, 2048)] /\
    let D n j := disk (world demo_fresh) 7 8 (u64 n) j in
    gpt_valid D /\ same k k' /\ length ps = 2%nat /\
    part_entries 3 (BlockType "virtio" 0 1) 8 7 (gpt_partitions D) k' = (ps, world s').
Proof.
  destruct (@block_add_device_correct ram ram_env ram_laws demo_heap demo_heap_laws demo_fresh true true 3
    (BlockType "virtio" 0 1) 8 7 8192 (filled 512 0)) as (ret & s' & E & Hwf & Hm).
  - apply demo_fresh_wf.
  - reflexivity.
  - apply filled_wf. unfold fits. lia.
  - pose proof demo_add as Hrun. unfold demo_added in Hrun. rewrite E in Hrun. cbn [mbind outcome_bind] in Hrun.
    injection Hrun as Hret Hreg. subst ret.
    assert (entry_range <$> registered s' = [(0, 8192); (34, 2014); (2048, 2048)]) as Hrange.
    { apply (f_equal (fmap fst)) in Hreg. rewrite <- list_fmap_compose in Hreg. exact Hreg. }
    destruct (entry_fate _ _ _) as [[d|] k] eqn:Ef; [|destruct Hm; lia].
    destruct Hm as (_ & _ & k' & ps & Hs & Hr & Hall & _).
    assert (length ps = 2%nat) as Hlen.
    { apply (f_equal length) in Hr. apply (f_equal length) in Hrange. rewrite length_fmap, Hr in Hrange. cbn in Hrange. lia. }
    destruct Hall as [[Hv Hps]|[Hnil _]]; [|rewrite Hnil in Hlen; discriminate].
    exists s', k, k', ps. exact (conj E (conj Hwf (conj Hrange (conj Hv (conj Hs (conj Hlen Hps)))))).
Defined.

(** Block_remove_device always returns, keeps the list consistent, answers
    0 exactly when an entry of the device is registered (ENODEV otherwise) and
    leaves exactly the entries of the other devices, in their order. *)
Theorem block_remove_device_correct {K} `{BlockEnvLaws K} (s : block_st K) dv :
  block_wf s ->
  exists s', block_remove_device dv s =
      Ok (if bool_decide (Exists (fun e => dev e = dv) (registered s)) then 0 else - ENODEV, s') /\
    block_wf s' /\ registered s' = filter (fun e => dev e <> dv) (registered s).
Proof.
  intros Hwf. destruct (remove_loop_spec dv (block_devt_to_info s) [] (- ENODEV) s Hwf eq_refl)
    as (s' & E & Hwf' & _ & _ & Hr & _). by exists s'.
Qed.

Lemma block_remove_device_correct_witness :
  exists s', block_remove_device 8 demo_block = Ok (0, s') /\ block_wf s' /\ registered s' = [].
Proof.
  destruct (block_remove_device_correct demo_block 8 demo_block_wf) as (s' & E & Hwf & Hr).
  exists s'. rewrite E. split; [reflexivity|]. split; [exact Hwf|]. rewrite Hr. reflexivity.
Defined.

(** The sector operations do not check the length of a partition: reading
    or writing at the first sector behind a partition reaches the first sector
    of the partition that follows it on the disk. *)
Theorem partition_overrun {K} `{BlockEnvLaws K} (s : block_st K) p q a b buf n :
  block_wf s -> infos s !! p = Some a -> infos s !! q = Some b ->
  priv a = priv b -> dev a = dev b -> start_sector b = start_sector a + sector_count a ->
  block_write_sectors (devt a) (sector_count a) buf n s = block_write_sectors (devt b) 0 buf n s /\
  block_read_sectors (devt a) (sector_count a) buf n s = block_read_sectors (devt b) 0 buf n s.
Proof.
  intros Hwf Ea Eb Hp Hd Hs. unfold block_write_sectors, block_read_sectors.
  rewrite (find_devt_registered s p a), (find_devt_registered s q b) by done. rewrite !Ok_bind, Ea, Eb, !deref_Some, !Ok_bind.
  rewrite Hp, Hd, Hs. by replace (sector_count a + start_sector a) with (0 + (start_sector a + sector_count a)) by lia.
Qed.

Definition part_a : block_dev_info := BlockDevInfo 7 8 2014 34 5 3 "/dev/virtio0p1".
Definition part_b : block_dev_info := BlockDevInfo 7 8 2048 2048 6 3 "/dev/virtio0p2".
Definition demo_two : block_st ram :=
  BlockSt [100; 200] (<[100 := part_a]> {[200 := part_b]}) {[3 := BlockType "virtio" 1 1]}
    (Ram demo_disk {[100; 200]} {[5; 6]} []).

Lemma demo_two_lookup p i : infos demo_two !! p = Some i -> (p = 100 /\ i = part_a) \/ (p = 200 /\ i = part_b).
Proof. cbn. rewrite lookup_insert_Some, lookup_singleton_Some. naive_solver. Qed.

Lemma demo_two_wf : block_wf demo_two.
Proof.
  constructor.
  - apply (bool_decide_unpack (NoDup [100; 200])). by vm_compute.
  - intros q. cbn [demo_two infos block_devt_to_info]. rewrite lookup_insert_is_Some', lookup_singleton_is_Some, !elem_of_cons, elem_of_nil.
    naive_solver.
  - intros q Hq. change (q ∈ ({[100; 200]} : gset Z)). cbn in Hq. rewrite !elem_of_cons in Hq. set_solver.
  - intros q r i j [[-> ->]|[-> ->]]%demo_two_lookup [[-> ->]|[-> ->]]%demo_two_lookup; done.
  - intros q i Hi. change (devt i ∈ ({[5; 6]} : gset Z)). apply demo_two_lookup in Hi as [[-> ->]|[-> ->]]; cbn; set_solver.
  - intros q i [[-> ->]|[-> ->]]%demo_two_lookup; by eexists.
Qed.

Lemma partition_overrun_witness :
  block_write_sectors 5 2014 (filled 512 1) 1 demo_two = block_write_sectors 6 0 (filled 512 1) 1 demo_two /\
  block_read_sectors 5 2014 (filled 512 1) 1 demo_two = block_read_sectors 6 0 (filled 512 1) 1 demo_two.
Proof.
  apply (partition_overrun demo_two 100 200 part_a part_b (filled 512 1) 1 demo_two_wf); reflexivity.
Defined.

Lemma block_remove_device_demo : exists s', block_remove_device 8 demo_block = Ok (0, s').
Proof. eexists. reflexivity. Qed.

(** Removing a device frees its entry while files opened on it keep
    pointing to it: the next read through such a file dereferences a freed
    object. *)
Theorem block_file_use_after_free {K} `{BlockEnvLaws K} (s s' : block_st K) d p i r buf count pos :
  block_wf s -> block_open d s = Ok (0, Some p) -> infos s !! p = Some i ->
  block_remove_device (dev i) s = Ok (r, s') -> block_read p buf count pos s' = Fault.
Proof.
  intros Hwf _ Ei E. destruct (remove_loop_spec (dev i) (block_devt_to_info s) [] (- ENODEV) s Hwf eq_refl)
    as (s1 & E1 & _ & _ & _ & _ & Hi). unfold block_remove_device in E. rewrite E1 in E. injection E as _ <-.
  unfold block_read. destruct (infos s1 !! p) as [j|] eqn:Ej; [exfalso|done].
  destruct (Hi p j Ej) as [Ej' Hd]. apply Hd; [|congruence]. apply (wf_dom s Hwf). by eexists.
Qed.

Lemma block_file_use_after_free_witness :
  exists s', block_remove_device 8 demo_block = Ok (0, s') /\ block_read 100 (filled 512 0) 512 0 s' = Fault.
Proof.
  destruct (block_remove_device_demo) as (s' & E). exists s'. split; [exact E|].
  apply (block_file_use_after_free demo_block s' 5 100 demo_info 0 (filled 512 0) 512 0 demo_block_wf); [reflexivity|reflexivity|exact E].
Defined.
