(* ===== verification/Timecycle.v ===== *)
(** * 128-bit division and cycle/time conversion

    kernel/arch/x86_64/div128.c (the compiler's division helpers, on top of
    the [divq] instruction) and kernel/time/timecycle.c with
    kernel/include/timecycle.h (the multiply-and-shift parameters that turn
    counter cycles into nanoseconds and back).  A trap is a [Fault]. *)

From S2P Require Import Prelude.

Local Open Scope Z_scope.

(** ** div128.c *)

Definition HI (x : Z) : Z := Z.shiftr x 64.
Definition LO (x : Z) : Z := u64 x.

(** The instruction [divq d] on rdx:rax = [hi]:[lo]: quotient and remainder, a
    divide error when [d] is 0 or the quotient needs more than 64 bits. *)
Definition divq (hi lo d : Z) : outcome (Z * Z) :=
  if (d =? 0) || (d <=? hi) then Fault
  else let a := hi * 2 ^ 64 + lo in Ok (a / d, a mod d).

(** div128.c: __udivti3 *)
Definition __udivti3 (a b : Z) : outcome Z :=
  if negb (HI b =? 0) then Fault
  else if LO b =? 0 then Fault
  else '(q, _) ← divq (HI a) (LO a) (LO b); Ok q.

(** div128.c: __umodti3 *)
Definition __umodti3 (a b : Z) : outcome Z :=
  if negb (HI b =? 0) then Fault
  else if LO b =? 0 then Fault
  else '(_, r) ← divq (HI a) (LO a) (LO b); Ok r.

(** div128.c: __divti3; the arguments and the answer are signed *)
Definition __divti3 (a b : Z) : outcome Z :=
  let ua := if a <? 0 then u128 (- u128 a) else u128 a in
  let ub := if b <? 0 then u128 (- u128 b) else u128 b in
  let sign := (if a <? 0 then -1 else 1) * (if b <? 0 then -1 else 1) in
  uq ← __udivti3 ua ub;
  let q := to_signed 128 uq in
  Ok (if sign <? 0 then to_signed 128 (- q) else q).

(** div128.c: __modti3 *)
Definition __modti3 (a b : Z) : outcome Z :=
  let ua := if a <? 0 then u128 (- u128 a) else u128 a in
  let ub := if b <? 0 then u128 (- u128 b) else u128 b in
  let sign := if a <? 0 then -1 else 1 in
  ur ← __umodti3 ua ub;
  let r := to_signed 128 ur in
  Ok (if sign <? 0 then to_signed 128 (- r) else r).

(** ** timecycle.c and timecycle.h *)

Definition NSEC_PER_SEC : Z := 1000000000.
Definition MAX_SHIFT : Z := 32.
Definition UINT32_MAX : Z := 2 ^ 32 - 1.
Definition UINT64_MAX : Z := 2 ^ 64 - 1.

(** timecycle.c: calc_optimal_shift *)
Definition calc_optimal_shift (hz max_seconds : Z) : outcome Z :=
  r ← for_ret (Z.to_nat (MAX_SHIFT + 1)) 0
        (fun shift (_ : unit) =>
           let numerator := u128 (Z.shiftl NSEC_PER_SEC shift) in
           q ← __udivti3 numerator hz;
           let mult := u64 q in
           if mult =? 0 then Ok (inl tt)
           else if UINT32_MAX <? mult then Ok (inr (if 0 <? shift then shift - 1 else 0))
           else
             let max_cycles := u128 (hz * max_seconds) in
             let max_ns := u128 (max_cycles * mult) in
             if UINT64_MAX <? Z.shiftr max_ns shift then Ok (inl tt) else Ok (inr shift)) tt;
  Ok (match r with inr shift => shift | inl _ => MAX_SHIFT end).

(** timecycle.c: calc_forward_params; mult and shift *)
Definition calc_forward_params (hz shift : Z) : outcome (Z * Z) :=
  q ← __udivti3 (u128 (Z.shiftl NSEC_PER_SEC shift)) hz;
  Ok (u32 q, shift).

(** timecycle.c: calc_inverse_params; mult_inv and shift_inv *)
Definition calc_inverse_params (mult shift : Z) : outcome (Z * Z) :=
  r ← for_ret 32 0
        (fun i (_ : unit) =>
           let extra_shift := 32 - i in
           let one := u128 (Z.shiftl 1 (u32 (shift + extra_shift))) in
           q ← __udivti3 one mult;
           let inv := u64 q in
           if inv <=? UINT32_MAX then Ok (inr (u32 inv, u32 (shift + extra_shift)))
           else Ok (inl tt)) tt;
  match r with inr p => Ok p | inl _ => Panic end.

(** timecycle.c: timecycle_init_params, the search for a shift whose
    multiplier is not 0 *)
Definition retry_forward (hz optimal_shift : Z) (mult shift : Z) : outcome (Z * Z) :=
  if mult =? 0 then
    r ← for_ret (span (optimal_shift + 1) (MAX_SHIFT + 1)) (optimal_shift + 1)
          (fun s '(mult, shift) =>
             '(mult, shift) ← calc_forward_params hz s;
             if negb (mult =? 0) then Ok (inr (mult, shift)) else Ok (inl (mult, shift))) (mult, shift);
    Ok (match r with inl p => p | inr p => p end)
  else Ok (mult, shift).

(** timecycle.c: timecycle_init_params; mult, shift, mult_inv, shift_inv *)
Definition timecycle_init_params (hz max_seconds : Z) : outcome (Z * Z * Z * Z) :=
  _ ← assert_or_panic (negb (hz =? 0));
  _ ← assert_or_panic (negb (max_seconds =? 0));
  optimal_shift ← calc_optimal_shift hz max_seconds;
  '(mult, shift) ← calc_forward_params hz optimal_shift;
  '(mult, shift) ← retry_forward hz optimal_shift mult shift;
  '(mult_inv, shift_inv) ← calc_inverse_params mult shift;
  _ ← assert_or_panic (negb (mult =? 0) && negb (mult_inv =? 0));
  Ok (mult, shift, mult_inv, shift_inv).

(** timecycle.h: timecycle_cycles_to_ns *)
Definition timecycle_cycles_to_ns (cycles mult shift : Z) : Z :=
  u64 (Z.shiftr (u128 (cycles * mult)) shift).

(** timecycle.h: timecycle_ns_to_cycles *)
Definition timecycle_ns_to_cycles (ns mult_inv shift_inv : Z) : Z :=
  u64 (Z.shiftr (u128 (ns * mult_inv)) shift_inv).

(** ** Division *)

Lemma hi_lo a : fits 128 a -> HI a * 2 ^ 64 + LO a = a /\ fits 64 (HI a) /\ fits 64 (LO a).
Proof.
  intros Ha. unfold HI, LO, wrap, fits in *. rewrite Z.shiftr_div_pow2 by lia. dlia.
Qed.

Lemma udivti3_spec a b : fits 128 a -> fits 128 b ->
  __udivti3 a b = (if (0 <? b) && (b <? 2 ^ 64) && (a / b <? 2 ^ 64) then Ok (a / b) else Fault) /\
  __umodti3 a b = (if (0 <? b) && (b <? 2 ^ 64) && (a / b <? 2 ^ 64) then Ok (a mod b) else Fault).
Proof.
  intros Ha Hb. destruct (hi_lo a Ha) as (Ea & [? ?] & [? ?]). destruct (hi_lo b Hb) as (Eb & [? ?] & [? ?]).
  unfold __udivti3, __umodti3, divq. rewrite Ea.
  destruct (Z.eqb_spec (HI b) 0) as [Hh|Hh]; cbn [negb].
  2:{ replace (b <? 2 ^ 64) with false by lia. by rewrite andb_false_r. }
  assert (LO b = b) as -> by lia. replace (b <? 2 ^ 64) with true by lia.
  destruct (Z.eqb_spec b 0) as [->|Hb0]; [done|]. replace (0 <? b) with true by (unfold fits in *; lia).
  cbn [orb andb]. assert (0 < b) by (unfold fits in *; lia).
  destruct (Z.leb_spec b (HI a)) as [Hle|Hlt].
  - replace (a / b <? 2 ^ 64) with false; [done|]. symmetry. apply Z.ltb_ge, Z.div_le_lower_bound; nia.
  - replace (a / b <? 2 ^ 64) with true; [done|]. symmetry. apply Z.ltb_lt, Z.div_lt_upper_bound; nia.
Qed.

Lemma udivti3_ok a b : 0 <= a < 2 ^ 64 * b -> 0 < b < 2 ^ 64 -> __udivti3 a b = Ok (a / b).
Proof.
  intros Ha Hb. destruct (udivti3_spec a b) as [-> _]; [unfold fits; nia|unfold fits; lia|].
  assert (a / b < 2 ^ 64) by (apply Z.div_lt_upper_bound; lia).
  replace (_ && _) with true by lia. done.
Qed.

(** The absolute value the signed helpers compute. *)
Lemma uabs a : - 2 ^ 127 < a < 2 ^ 127 ->
  (if a <? 0 then u128 (- u128 a) else u128 a) = Z.abs a.
Proof.
  intros Ha. unfold wrap. destruct (Z.ltb_spec a 0); [|rewrite Z.mod_small; lia].
  assert (a mod 2 ^ 128 = a + 2 ^ 128) as -> by dlia. dlia.
Qed.

(** ** The conversion parameters *)

(** The numerator at a shift, and its quotient by the frequency. *)
Definition scaled (shift : Z) : Z := NSEC_PER_SEC * 2 ^ shift.

Lemma numerator_spec hz shift : 0 < hz < 2 ^ 64 -> 0 <= shift <= MAX_SHIFT ->
  __udivti3 (u128 (Z.shiftl NSEC_PER_SEC shift)) hz = Ok (scaled shift / hz) /\ 0 <= scaled shift < 2 ^ 62.
Proof.
  intros Hz Hs. unfold MAX_SHIFT in Hs. rewrite Z.shiftl_mul_pow2 by lia. fold (scaled shift).
  assert (0 < 2 ^ shift <= 2 ^ 32) by (split; [apply Z.pow_pos_nonneg; lia|apply Z.pow_le_mono_r; lia]).
  assert (0 <= scaled shift < 2 ^ 62) by (unfold scaled, NSEC_PER_SEC; lia).
  rewrite wrap_small by (unfold fits; lia). split; [|done]. apply udivti3_ok; [split; [lia|nia]|lia].
Qed.

(** The least shift at which one second has at least as many units as cycles. *)
Definition least_shift (hz s : Z) : Prop :=
  0 <= s /\ hz <= scaled s /\ (s = 0 \/ scaled (s - 1) < hz).

Lemma least_shift_mult hz s : 0 < hz -> least_shift hz s ->
  0 < scaled s / hz <= NSEC_PER_SEC /\ (0 < s -> scaled s / hz = 1).
Proof.
  intros Hz (Hs & Hle & Hlow).
  assert (0 < scaled s / hz) by (apply Z.div_str_pos; lia).
  assert (0 < s -> scaled s / hz = 1).
  { intros H0. destruct Hlow as [|Hlow]; [lia|].
    assert (scaled s = 2 * scaled (s - 1)).
    { unfold scaled. replace s with (s - 1 + 1) at 1 by lia. rewrite Z.pow_add_r by lia. lia. }
    assert (scaled s / hz < 2) by (apply Z.div_lt_upper_bound; lia). lia. }
  split; [|done]. split; [done|]. destruct (Z.eq_dec s 0) as [->|]; [|unfold NSEC_PER_SEC; lia].
  unfold scaled. rewrite Z.pow_0_r, Z.mul_1_r. apply Z.div_le_upper_bound; unfold NSEC_PER_SEC; lia.
Qed.

Lemma calc_optimal_shift_spec hz secs :
  0 < hz <= scaled 30 -> 0 < secs <= 10 ^ 10 ->
  exists s, calc_optimal_shift hz secs = Ok s /\ s <= 30 /\ least_shift hz s.
Proof.
  intros Hz Hsec. assert (Hz64 : 0 < hz < 2 ^ 64) by (unfold scaled, NSEC_PER_SEC in Hz; lia).
  unfold calc_optimal_shift.
  match goal with |- context [for_ret ?c ?i ?b ?s0] =>
    destruct (for_ret_inv (fun k _ => k <= 31 /\ (k = 0 \/ scaled (k - 1) < hz))
      (fun s => s <= 30 /\ least_shift hz s) c i b s0) as [([] & -> & ? & _)|(s & -> & Hs & Hl)] end.
  - lia.
  - intros k [] Hk [Hk31 Hlow]. rewrite Z2Nat.id in Hk by done.
    destruct (numerator_spec hz k Hz64) as [-> Hsc]; [lia|]. cbn [mbind outcome_bind].
    assert (Hk30 : k <= 30).
    { destruct (Z.eq_dec k 31) as [->|]; [|lia]. destruct Hlow as [|Hlow]; [lia|]. change (31 - 1) with 30 in Hlow. lia. }
    assert (0 <= scaled k / hz < 2 ^ 62) by (split; [apply Z.div_pos|apply Z.div_lt_upper_bound]; nia).
    rewrite wrap_small by (unfold fits; lia).
    destruct (Z.eqb_spec (scaled k / hz) 0) as [E0|E0].
    + left. exists tt. split; [done|]. split; [lia|]. right. replace (k + 1 - 1) with k by lia.
      apply Z.div_small_iff in E0; lia.
    + right. exists k. assert (Hl : least_shift hz k).
      { split_and!; [lia| |done]. destruct (Z.le_gt_cases hz (scaled k)); [done|].
        rewrite Z.div_small in E0; (done || lia). }
      destruct (least_shift_mult hz k) as [Hm _]; [lia|done|].
      replace (UINT32_MAX <? scaled k / hz) with false by (unfold UINT32_MAX, NSEC_PER_SEC in *; lia).
      assert (Hmul : hz * (scaled k / hz) <= scaled k) by (apply Z.mul_div_le; lia).
      rewrite (wrap_small 128 (hz * secs)) by (unfold fits; nia).
      assert (Hns : 0 <= hz * secs * (scaled k / hz) <= secs * scaled k) by nia.
      rewrite wrap_small by (unfold fits; nia). rewrite Z.shiftr_div_pow2 by lia.
      replace (UINT64_MAX <? _) with false; [done|]. symmetry. apply Z.ltb_ge. unfold UINT64_MAX.
      assert (0 < 2 ^ k) by (apply Z.pow_pos_nonneg; lia).
      etrans; [apply Z.div_le_mono; [done|apply Hns]|].
      unfold scaled. rewrite Z.mul_assoc, Z.div_mul by lia. unfold NSEC_PER_SEC. lia.
  - change (0 + Z.of_nat (Z.to_nat (MAX_SHIFT + 1))) with 33 in *. lia.
  - exists s. done.
Qed.

Lemma calc_inverse_params_spec mult shift :
  0 < mult < 2 ^ 32 -> 0 <= shift <= 30 ->
  exists e, calc_inverse_params mult shift = Ok (2 ^ (shift + e) / mult, shift + e) /\ 1 <= e <= 32 /\
    2 ^ (shift + e) / mult < 2 ^ 32 /\ (e < 32 -> 2 ^ 32 <= 2 ^ (shift + e + 1) / mult).
Proof.
  intros Hm Hs. unfold calc_inverse_params.
  match goal with |- context [for_ret ?c ?i ?b ?s0] =>
    destruct (for_ret_inv (fun k _ => k = 0 \/ 2 ^ 32 <= 2 ^ (shift + 32 - k + 1) / mult)
      (fun p => exists e, p = (2 ^ (shift + e) / mult, shift + e) /\ 1 <= e <= 32 /\
        2 ^ (shift + e) / mult < 2 ^ 32 /\ (e < 32 -> 2 ^ 32 <= 2 ^ (shift + e + 1) / mult)) c i b s0)
      as [([] & -> & Hno)|(p & -> & e & -> & H)] end.
  - by left.
  - intros k [] Hk Hlow. change (Z.of_nat 32) with 32 in Hk.
    rewrite (wrap_small 32 (shift + (32 - k))) by (unfold fits; lia).
    rewrite Z.shiftl_1_l. set (x := shift + (32 - k)).
    assert (0 < 2 ^ x <= 2 ^ 62) by (subst x; split; [apply Z.pow_pos_nonneg; lia|apply Z.pow_le_mono_r; lia]).
    rewrite (wrap_small 128) by (unfold fits; lia). rewrite udivti3_ok by (split; lia || nia).
    cbn [mbind outcome_bind].
    assert (0 <= 2 ^ x / mult <= 2 ^ x) by (split; [apply Z.div_pos; lia|apply Z.div_le_upper_bound; nia]).
    rewrite (wrap_small 64) by (unfold fits; lia). unfold UINT32_MAX.
    destruct (Z.leb_spec (2 ^ x / mult) (2 ^ 32 - 1)).
    + right. eexists. split; [done|]. exists (32 - k). fold x. rewrite wrap_small by (unfold fits; lia).
      split_and!; try lia; [done|]. intros He. destruct Hlow as [|Hlow]; [lia|]. subst x.
      by replace (shift + (32 - k) + 1) with (shift + 32 - k + 1) by lia.
    + left. exists tt. split; [done|]. right. subst x.
      replace (shift + 32 - (k + 1) + 1) with (shift + (32 - k)) by lia. lia.
  - exfalso. change (0 + Z.of_nat 32) with 32 in Hno. destruct Hno as [|Hno]; [lia|].
    replace (shift + 32 - 32 + 1) with (shift + 1) in Hno by lia.
    assert (2 ^ (shift + 1) <= 2 ^ 31) by (apply Z.pow_le_mono_r; lia).
    assert (2 ^ (shift + 1) / mult <= 2 ^ (shift + 1)) by (apply Z.div_le_upper_bound; nia). lia.
  - exists e. done.
Qed.

Lemma timecycle_init_spec hz secs :
  0 < hz <= scaled 30 -> 0 < secs <= 10 ^ 10 ->
  exists s e, least_shift hz s /\ s <= 30 /\ 1 <= e <= 32 /\
    let mult := scaled s / hz in
    timecycle_init_params hz secs = Ok (mult, s, 2 ^ (s + e) / mult, s + e) /\
    0 < mult <= NSEC_PER_SEC /\ (0 < s -> mult = 1) /\
    2 ^ (s + e) / mult < 2 ^ 32 /\ (e < 32 -> 2 ^ 32 <= 2 ^ (s + e + 1) / mult).
Proof.
  intros Hz Hsec. destruct (calc_optimal_shift_spec hz secs Hz Hsec) as (s & Es & Hs30 & Hl).
  pose proof Hl as (Hs0 & _). destruct (least_shift_mult hz s) as [Hm H1]; [lia|done|].
  destruct (calc_inverse_params_spec (scaled s / hz) s) as (e & Ee & He & Hlt & Hmax);
    [unfold NSEC_PER_SEC in Hm; lia|lia|].
  exists s, e. split_and!; try done; try lia. cbn zeta. split_and!; try done; try lia.
  unfold timecycle_init_params. replace (hz =? 0) with false by lia. replace (secs =? 0) with false by lia.
  cbn [negb assert_or_panic mbind outcome_bind]. rewrite Es. cbn [mbind outcome_bind].
  unfold calc_forward_params. destruct (numerator_spec hz s) as [-> _].
  { unfold scaled, NSEC_PER_SEC in Hz. lia. }
  { unfold MAX_SHIFT. lia. }
  cbn [mbind outcome_bind]. rewrite wrap_small by (unfold fits, NSEC_PER_SEC in *; lia).
  unfold retry_forward. replace (scaled s / hz =? 0) with false by lia. cbn [mbind outcome_bind].
  rewrite Ee. cbn [mbind outcome_bind]. replace (scaled s / hz =? 0) with false by lia.
  replace (2 ^ (s + e) / (scaled s / hz) =? 0) with false; [done|]. symmetry. apply Z.eqb_neq.
  assert (0 < 2 ^ (s + e) / (scaled s / hz)); [|lia]. apply Z.div_str_pos. split; [lia|].
  destruct (Z.eq_dec e 32) as [->|].
  - assert (2 ^ 32 <= 2 ^ (s + 32)) by (apply Z.pow_le_mono_r; lia). unfold NSEC_PER_SEC in *. lia.
  - specialize (Hmax ltac:(lia)). rewrite Z.pow_add_r, Z.pow_1_r in Hmax by lia.
    set (m := scaled s / hz) in *. pose proof (Z.mul_div_le (2 ^ (s + e) * 2) m ltac:(lia)). nia.
Qed.

Lemma cycles_to_ns_spec c mult s : fits 64 c -> 0 <= mult < 2 ^ 32 -> 0 <= s ->
  c * mult / 2 ^ s < 2 ^ 64 -> timecycle_cycles_to_ns c mult s = c * mult / 2 ^ s.
Proof.
  intros [? ?] Hm Hs Hlt. unfold timecycle_cycles_to_ns. assert (0 < 2 ^ s) by (by apply Z.pow_pos_nonneg).
  rewrite (wrap_small 128) by (unfold fits; nia). rewrite Z.shiftr_div_pow2 by done.
  apply wrap_small. split; [apply Z.div_pos; nia|done].
Qed.

Lemma scaled_0 : scaled 0 = NSEC_PER_SEC.
Proof. done. Qed.

Lemma least_shift_small hz s : hz <= NSEC_PER_SEC -> least_shift hz s -> s = 0.
Proof.
  intros Hz (Hs & _ & [|Hlow]); [done|]. destruct (Z.eq_dec s 0); [done|].
  assert (1 <= 2 ^ (s - 1)) by (pose proof (Z.pow_pos_nonneg 2 (s - 1)); lia).
  unfold scaled, NSEC_PER_SEC in *. lia.
Qed.

(** ** Claims *)

(** The 128-bit unsigned helpers answer the exact quotient and remainder
    precisely when the divisor is a non-zero 64-bit number and the quotient
    fits 64 bits; in every other case they trap. *)
Theorem udivti3_umodti3_exact a b :
  fits 128 a -> fits 128 b ->
  __udivti3 a b = (if (0 <? b) && (b <? 2 ^ 64) && (a / b <? 2 ^ 64) then Ok (a / b) else Fault) /\
  __umodti3 a b = (if (0 <? b) && (b <? 2 ^ 64) && (a / b <? 2 ^ 64) then Ok (a mod b) else Fault).
Proof. apply udivti3_spec. Qed.

Lemma udivti3_umodti3_exact_witness :
  __udivti3 (2 ^ 70 + 5) 1000 = Ok ((2 ^ 70 + 5) / 1000) /\ __udivti3 (2 ^ 70) 3 = Fault.
Proof.
  split.
  - destruct (udivti3_umodti3_exact (2 ^ 70 + 5) 1000) as [-> _]; [unfold fits; lia|unfold fits; lia|reflexivity].
  - destruct (udivti3_umodti3_exact (2 ^ 70) 3) as [-> _]; [unfold fits; lia|unfold fits; lia|reflexivity].
Defined.

(** The signed helpers round towards zero and give the remainder the sign
    of the dividend, for every dividend and divisor whose magnitudes the
    unsigned helper accepts. *)
Theorem divti3_modti3_truncate a b :
  - 2 ^ 127 < a < 2 ^ 127 -> 0 < Z.abs b < 2 ^ 64 -> Z.abs a / Z.abs b < 2 ^ 64 ->
  __divti3 a b = Ok (Z.quot a b) /\ __modti3 a b = Ok (Z.rem a b).
Proof.
  intros Ha Hb Hq. unfold __divti3, __modti3. rewrite !uabs by lia.
  destruct (udivti3_spec (Z.abs a) (Z.abs b)) as [-> ->]; [unfold fits; lia|unfold fits; lia|].
  replace (_ && _) with true by lia. cbn [mbind outcome_bind].
  assert (0 <= Z.abs a / Z.abs b) by (apply Z.div_pos; lia).
  assert (0 <= Z.abs a mod Z.abs b < Z.abs b) by (apply Z.mod_pos_bound; lia).
  rewrite !(to_signed_small 128 (Z.abs a / Z.abs b)), !(to_signed_small 128 (Z.abs a mod Z.abs b)) by lia.
  assert (a = 0 -> Z.abs a / Z.abs b = 0) by (intros ->; apply Z.div_0_l; lia).
  assert (a = 0 -> Z.abs a mod Z.abs b = 0) by (intros ->; apply Z.mod_0_l; lia).
  destruct (Z.ltb_spec a 0), (Z.ltb_spec b 0);
    repeat match goal with |- context [?x <? 0] => let v := eval cbv in (x <? 0) in change (x <? 0) with v end;
    rewrite ?to_signed_small by lia; rewrite Z.quot_div, Z.rem_mod by lia;
    destruct (Z.sgn_spec a) as [[Ha0 ->]|[[Ha0 ->]|[Ha0 ->]]], (Z.sgn_spec b) as [[Hb0 ->]|[[Hb0 ->]|[Hb0 ->]]];
    try lia; split; f_equal; lia.
Qed.

Lemma divti3_modti3_truncate_witness : __divti3 (-7) 2 = Ok (-3) /\ __modti3 (-7) 2 = Ok (-1).
Proof. apply (divti3_modti3_truncate (-7) 2); [lia|lia|reflexivity]. Defined.

(** For every frequency up to 2^30 GHz and time span up to 10^10 seconds
    [timecycle_init_params] returns, and for every cycle count of the span
    the conversion is computed without truncation and never runs ahead of
    real time: it is at most [cycles * 10^9 / hz]; below 1 GHz it falls behind
    by less than [cycles] nanoseconds, and it is exact when the frequency
    divides 10^9. *)
Theorem timecycle_forward hz secs :
  0 < hz <= scaled 30 -> 0 < secs <= 10 ^ 10 ->
  exists mult shift mult_inv shift_inv,
    timecycle_init_params hz secs = Ok (mult, shift, mult_inv, shift_inv) /\
    forall c, 0 <= c <= hz * secs -> c < 2 ^ 64 ->
      timecycle_cycles_to_ns c mult shift = c * mult / 2 ^ shift /\
      timecycle_cycles_to_ns c mult shift <= c * NSEC_PER_SEC / hz /\
      (hz <= NSEC_PER_SEC -> c * NSEC_PER_SEC / hz - timecycle_cycles_to_ns c mult shift <= c) /\
      (NSEC_PER_SEC mod hz = 0 -> timecycle_cycles_to_ns c mult shift = c * NSEC_PER_SEC / hz).
Proof.
  intros Hz Hsec. destruct (timecycle_init_spec hz secs Hz Hsec) as (s & e & Hl & Hs & He & E & Hm & H1 & _).
  eexists _, s, _, _. split; [exact E|]. intros c Hc Hc64. pose proof Hl as (Hs0 & Hle & _).
  set (mult := scaled s / hz) in *.
  assert (H2 : 0 < 2 ^ s) by (by apply Z.pow_pos_nonneg).
  assert (Hmul : hz * mult <= scaled s) by (apply Z.mul_div_le; lia).
  assert (Hup : c * mult / 2 ^ s <= c * NSEC_PER_SEC / hz).
  { apply Z.div_le_lower_bound; [lia|]. pose proof (Z.mul_div_le (c * mult) (2 ^ s) H2).
    apply (Z.mul_le_mono_pos_l _ _ (2 ^ s)); [done|]. unfold scaled in Hmul. nia. }
  assert (Htop : c * NSEC_PER_SEC / hz <= secs * NSEC_PER_SEC).
  { apply Z.div_le_upper_bound; [lia|]. unfold NSEC_PER_SEC. nia. }
  assert (Hv : timecycle_cycles_to_ns c mult s = c * mult / 2 ^ s).
  { apply cycles_to_ns_spec; unfold fits, NSEC_PER_SEC in *; lia. }
  rewrite Hv. split_and!; [done|done| |].
  - intros Hsmall. assert (s = 0) as -> by (by eapply least_shift_small).
    rewrite Z.div_1_r. assert (c * NSEC_PER_SEC / hz <= c * mult + c); [|lia].
    apply Z.div_le_upper_bound; [lia|].
    assert (NSEC_PER_SEC < hz * (mult + 1)); [|nia].
    subst mult. rewrite scaled_0. pose proof (Z.mul_succ_div_gt NSEC_PER_SEC hz). lia.
  - intros Hdiv. assert (Hsmall : hz <= NSEC_PER_SEC).
    { destruct (Z.le_gt_cases hz NSEC_PER_SEC); [done|].
      rewrite Z.mod_small in Hdiv; [done|unfold NSEC_PER_SEC in *; lia]. }
    assert (s = 0) as -> by (by eapply least_shift_small). rewrite Z.div_1_r. subst mult. rewrite scaled_0.
    apply Z.mod_divide in Hdiv as [k Hk]; [|lia]. rewrite Hk.
    rewrite Z.div_mul, Z.mul_assoc, Z.div_mul by lia. done.
Qed.

Lemma timecycle_forward_witness :
  exists mult shift mult_inv shift_inv,
    timecycle_init_params 62500000 3600 = Ok (mult, shift, mult_inv, shift_inv) /\
    forall c, 0 <= c <= 62500000 * 3600 -> c < 2 ^ 64 ->
      timecycle_cycles_to_ns c mult shift = c * mult / 2 ^ shift /\
      timecycle_cycles_to_ns c mult shift <= c * NSEC_PER_SEC / 62500000 /\
      (62500000 <= NSEC_PER_SEC -> c * NSEC_PER_SEC / 62500000 - timecycle_cycles_to_ns c mult shift <= c) /\
      (NSEC_PER_SEC mod 62500000 = 0 -> timecycle_cycles_to_ns c mult shift = c * NSEC_PER_SEC / 62500000).
Proof. apply (timecycle_forward 62500000 3600); [split; [lia|by vm_compute]|lia]. Defined.

(** For a counter faster than 1 GHz the parameters are a multiplier of 1
    and the least shift that reaches the frequency, so the converted time is
    [cycles / 2^shift] although the counter runs at up to 2^shift GHz or as
    little as half of it, and the inverse parameters are the identity: the
    inverse conversion leaves out the shift, so [ns] nanoseconds become [ns]
    cycles. *)
Theorem timecycle_fast_clock hz secs :
  NSEC_PER_SEC < hz <= scaled 30 -> 0 < secs <= 10 ^ 10 ->
  exists shift, timecycle_init_params hz secs = Ok (1, shift, 2 ^ 31, 31) /\
    scaled (shift - 1) < hz <= scaled shift /\
    (forall c, fits 64 c -> timecycle_cycles_to_ns c 1 shift = c / 2 ^ shift) /\
    (forall ns, fits 64 ns -> timecycle_ns_to_cycles ns (2 ^ 31) 31 = ns).
Proof.
  intros Hz Hsec. assert (0 < hz <= scaled 30) as Hz' by (unfold NSEC_PER_SEC in *; lia).
  destruct (timecycle_init_spec hz secs Hz' Hsec) as (s & e & Hl & Hs & He & E & Hm & H1 & Hlt & Hmax).
  pose proof Hl as (Hs0 & Hle & Hlow).
  assert (0 < s) as Hpos by (destruct (Z.eq_dec s 0) as [->|]; [rewrite scaled_0 in Hle; lia|lia]).
  rewrite (H1 Hpos), Z.div_1_r in *. destruct Hlow as [|Hlow]; [lia|].
  assert (Hse : s + e = 31).
  { apply Z.pow_lt_mono_r_iff in Hlt; [|lia|lia]. destruct (Z.eq_dec e 32); [lia|].
    specialize (Hmax ltac:(lia)). rewrite ?Z.div_1_r in Hmax. apply Z.pow_le_mono_r_iff in Hmax; lia. }
  rewrite Hse in E. exists s. split_and!; try done.
  - intros c Hc. pose proof Hc as [? ?]. assert (0 < 2 ^ s) by (by apply Z.pow_pos_nonneg).
    rewrite cycles_to_ns_spec, Z.mul_1_r; [done|done|lia|done|]. rewrite Z.mul_1_r.
    apply Z.div_lt_upper_bound; nia.
  - intros ns [? ?]. unfold timecycle_ns_to_cycles. rewrite (wrap_small 128) by (unfold fits; lia).
    rewrite Z.shiftr_div_pow2, Z.div_mul by lia. by apply wrap_small.
Qed.

(** A 2.4 GHz counter: one second of cycles reads as 0.6 seconds. *)
Lemma timecycle_fast_clock_witness :
  exists shift, timecycle_init_params 2400000000 3600 = Ok (1, shift, 2 ^ 31, 31) /\
    scaled (shift - 1) < 2400000000 <= scaled shift /\
    (forall c, fits 64 c -> timecycle_cycles_to_ns c 1 shift = c / 2 ^ shift) /\
    (forall ns, fits 64 ns -> timecycle_ns_to_cycles ns (2 ^ 31) 31 = ns).
Proof. apply (timecycle_fast_clock 2400000000 3600); [split; [unfold NSEC_PER_SEC; lia|by vm_compute]|lia]. Defined.

Example fast_clock_second :
  timecycle_init_params 2400000000 3600 = Ok (1, 2, 2 ^ 31, 31) /\
  timecycle_cycles_to_ns 2400000000 1 2 = 600000000.
Proof. by vm_compute. Qed.

