(* ===== verification/Clock.v ===== *)
(** * Clock sources, clock event devices and software timers

    kernel/time/clocksource.c and kernel/time/clockevent.c.  The per-CPU
    lists are sequences, first node first; a handle of a clock event device
    or timer is its identity in a table.  The functions take the logical CPU
    number ([get_logical_id]) and the readings of the default clock source
    they make as arguments.  What the device drivers are asked to do is a log
    of [hw_action]s; what a timer callback does to the framework's state is
    the parameter [run_callback]. *)

From Stdlib Require String.
From Stdlib Require Import Sorting.Sorted.
From S2P Require Import Prelude Timecycle.

Local Open Scope Z_scope.

(** One year: the time span both registration functions ask for. *)
Definition ONE_YEAR : Z := 3600 * 24 * 365.

(** ** Clock sources *)
Module Clocksource.

(** clocksource.c: clocksource_struct; [read] is the driver's function *)
Record clocksource_struct := ClockSource {
  name : String.string;
  read : option Z;
  hz : Z;
  mult : Z;
  shift : Z;
  mult_inv : Z;
  shift_inv : Z
}.

(** clocksource.c: clocksource_list_head, one list per CPU *)
Abbreviation heads := (gmap Z (list clocksource_struct)).

(** clocksource.c: clocksource_init *)
Definition clocksource_init (alloc_ok : bool) (cpu_count : Z) : outcome heads :=
  _ ← assert_or_panic alloc_ok;
  Ok (for_pure (Z.to_nat cpu_count) 0 (fun i h => <[i := []]> h) ∅).

(** clocksource.c: clocksource_get, the two searches *)
Definition find_name (n : String.string) (l : list clocksource_struct) : option clocksource_struct :=
  list_find (fun d => name d = n) l ≫= fun p => Some p.2.

Definition find_best (l : list clocksource_struct) : option clocksource_struct :=
  fst (fold_left (fun '(best, best_hz) d =>
    if best_hz <? hz d then (Some d, hz d) else (best, best_hz)) l (None, 0)).

(** clocksource.c: clocksource_get *)
Definition clocksource_get (cpu : Z) (n : option String.string) (h : heads)
  : outcome (option clocksource_struct) :=
  l ← deref (h !! cpu);
  Ok (match n with Some n => find_name n l | None => find_best l end).

Section reading.
(** The counter value a driver's read function answers. *)
Context (hw_read : Z -> Z).

(** clocksource.c: clocksource_read *)
Definition clocksource_read (handle : option clocksource_struct) : Z :=
  match handle with
  | Some dev =>
      match read dev with
      | Some f => timecycle_cycles_to_ns (hw_read f) (mult dev) (shift dev)
      | None => 0
      end
  | None => 0
  end.

(** clocksource.c: clocksource_default_read *)
Definition clocksource_default_read (cpu : Z) (h : heads) : outcome Z :=
  handle ← clocksource_get cpu None h;
  Ok (match handle with None => 0 | Some _ => clocksource_read handle end).
End reading.

(** clocksource.c: clocksource_get_hz *)
Definition clocksource_get_hz (handle : option clocksource_struct) : Z :=
  match handle with Some dev => hz dev | None => 0 end.

(** clocksource.c: clocksource_register, the insertion by falling frequency *)
Fixpoint insert_by_hz (d : clocksource_struct) (l : list clocksource_struct) : list clocksource_struct :=
  match l with
  | [] => [d]
  | pos :: l' => if hz pos <? hz d then d :: l else pos :: insert_by_hz d l'
  end.

(** clocksource.c: clocksource_register *)
Definition clocksource_register (alloc_ok : bool) (cpu : Z) (n : String.string) (rd : option Z) (f : Z) (h : heads)
  : outcome heads :=
  if negb alloc_ok then Ok h
  else
    '(mult, shift, mult_inv, shift_inv) ← timecycle_init_params f ONE_YEAR;
    l ← deref (h !! cpu);
    Ok (<[cpu := insert_by_hz (ClockSource n rd f mult shift mult_inv shift_inv) l]> h).

(** ** Lists by falling frequency *)

Definition by_hz : list clocksource_struct -> Prop := StronglySorted (fun a b => hz b <= hz a).

Lemma insert_by_hz_elem d l x : x ∈ insert_by_hz d l <-> x = d \/ x ∈ l.
Proof.
  induction l as [|y l IH]; cbn [insert_by_hz]; [set_solver|].
  destruct (hz y <? hz d); [set_solver|]. rewrite elem_of_cons, IH. set_solver.
Qed.

Lemma insert_by_hz_sorted d l : by_hz l -> by_hz (insert_by_hz d l).
Proof.
  induction 1 as [|y l Hl IH Hy]; cbn [insert_by_hz]; [repeat constructor|].
  destruct (Z.ltb_spec (hz y) (hz d)).
  - constructor; [by constructor|]. constructor; [lia|]. rewrite Forall_forall in *. intros x Hx.
    specialize (Hy x Hx). cbn in Hy. lia.
  - constructor; [done|]. rewrite Forall_forall in *. intros x [->|Hx]%insert_by_hz_elem; [done|by apply Hy].
Qed.

Lemma insert_by_hz_perm d l : insert_by_hz d l ≡ₚ d :: l.
Proof.
  induction l as [|y l IH]; cbn [insert_by_hz]; [done|].
  destruct (hz y <? hz d); [done|]. rewrite IH. apply Permutation_swap.
Qed.

(** The scan answers a device of the largest frequency. *)
Lemma find_best_from l b bh :
  let r := fold_left (fun '(best, best_hz) d =>
    if best_hz <? hz d then (Some d, hz d) else (best, best_hz)) l (b, bh) in
  bh <= r.2 /\ (forall d, d ∈ l -> hz d <= r.2) /\
  (r = (b, bh) \/ exists d, d ∈ l /\ r = (Some d, hz d)).
Proof.
  revert b bh. induction l as [|d l IH]; intros b bh; cbn [fold_left].
  { split_and!; [done| |by left]. intros d Hd. by apply not_elem_of_nil in Hd. }
  destruct (Z.ltb_spec bh (hz d)).
  - destruct (IH (Some d) (hz d)) as (H1 & H2 & H3). split_and!; [lia| |].
    + intros x [->|Hx]%elem_of_cons; [done|by apply H2].
    + right. destruct H3 as [->|(x & Hx & ->)]; [exists d|exists x]; set_solver.
  - destruct (IH b bh) as (H1 & H2 & H3). split_and!; [done| |].
    + intros x [->|Hx]%elem_of_cons; [lia|by apply H2].
    + destruct H3 as [->|(x & Hx & ->)]; [by left|right; exists x; set_solver].
Qed.

(** The state: every CPU has a list, sorted, of devices with positive
    frequency. *)
Definition heads_wf (cpus : Z) (h : heads) : Prop :=
  (forall c, is_Some (h !! c) <-> 0 <= c < cpus) /\
  (forall c l, h !! c = Some l -> by_hz l /\ Forall (fun d => 0 < hz d) l).

Lemma clocksource_init_wf cpus : 0 <= cpus -> exists h, clocksource_init true cpus = Ok h /\ heads_wf cpus h.
Proof.
  intros Hc. unfold clocksource_init. cbn [assert_or_panic mbind outcome_bind]. eexists. split; [done|].
  pose proof (for_pure_inv (fun k (h : heads) => forall c, h !! c = if (0 <=? c) && (c <? k) then Some [] else None)
    (Z.to_nat cpus) 0 (fun i h => <[i := []]> h) ∅) as H. cbn beta in H.
  set (h := for_pure _ _ _ _) in *. replace (0 + Z.of_nat (Z.to_nat cpus)) with cpus in H by lia.
  assert (Hh : forall c, h !! c = if (0 <=? c) && (c <? cpus) then Some [] else None).
  { apply H.
    - intros c. rewrite lookup_empty. by replace (_ && _) with false by lia.
    - intros k h' Hk E c. rewrite lookup_insert. case_decide; subst.
      + by replace (_ && _) with true by lia.
      + rewrite E. destruct (Z.leb_spec 0 c), (Z.ltb_spec c k), (Z.ltb_spec c (k + 1)); (done || lia). }
  split.
  - intros c. rewrite Hh. destruct (_ && _) eqn:G; zbool; [split; [lia|eauto]|split; [by intros []|lia]].
  - intros c l E. rewrite Hh in E. destruct (_ && _); simplify_eq. repeat constructor.
Qed.

Lemma clocksource_register_spec cpus h cpu n rd f :
  heads_wf cpus h -> 0 <= cpu < cpus -> 0 < f <= scaled 30 ->
  exists h' d, clocksource_register true cpu n rd f h = Ok h' /\ heads_wf cpus h' /\
    name d = n /\ hz d = f /\ read d = rd /\
    exists l l', h !! cpu = Some l /\ h' !! cpu = Some l' /\ l' ≡ₚ d :: l.
Proof.
  intros [Hd Hl] Hc Hf. unfold clocksource_register. cbn [negb].
  destruct (timecycle_init_spec f ONE_YEAR Hf) as (s & e & _ & _ & _ & -> & _); [done|].
  cbn [mbind outcome_bind]. destruct (proj2 (Hd cpu) Hc) as [l El]. rewrite El. cbn [deref mbind outcome_bind].
  set (d := ClockSource _ _ _ _ _ _ _). exists (<[cpu := insert_by_hz d l]> h), d. split; [done|].
  destruct (Hl cpu l El) as [Hs Hp]. split; [split|split_and!; try done].
  - intros c. rewrite lookup_insert. case_decide; [subst; split; [done|eauto]|apply Hd].
  - intros c l'. rewrite lookup_insert. case_decide; [intros [= <-]|apply Hl].
    split; [by apply insert_by_hz_sorted|]. rewrite insert_by_hz_perm. constructor; [cbn; lia|done].
  - exists l, (insert_by_hz d l). rewrite lookup_insert_eq. split_and!; try done. apply insert_by_hz_perm.
Qed.

Lemma find_best_spec l : Forall (fun d => 0 < hz d) l ->
  match find_best l with
  | Some d => d ∈ l /\ forall d', d' ∈ l -> hz d' <= hz d
  | None => l = []
  end.
Proof.
  intros Hp. unfold find_best. destruct (find_best_from l None 0) as (H1 & H2 & H3).
  destruct H3 as [E|(d & Hd & E)]; rewrite E in *; cbn [fst snd] in *; [|done].
  destruct l as [|d l]; [done|]. rewrite Forall_cons in Hp. specialize (H2 d ltac:(left)). lia.
Qed.

(** Registering a clock source on a CPU keeps every per-CPU list sorted
    by falling frequency and adds exactly the new device, and afterwards the
    default source of that CPU is one whose frequency is at least that of the
    new device and of every device that was there. *)
Theorem clocksource_register_default cpus h cpu n rd f l :
  heads_wf cpus h -> 0 <= cpu < cpus -> 0 < f <= scaled 30 -> h !! cpu = Some l ->
  exists h' d best, clocksource_register true cpu n rd f h = Ok h' /\ heads_wf cpus h' /\
    name d = n /\ hz d = f /\ read d = rd /\
    clocksource_get cpu None h' = Ok (Some best) /\ (best = d \/ best ∈ l) /\
    hz d <= hz best /\ forall d', d' ∈ l -> hz d' <= hz best.
Proof.
  intros Hw Hc Hf El.
  destruct (clocksource_register_spec cpus h cpu n rd f Hw Hc Hf) as (h' & d & E & Hw' & Hn & Hz & Hr & l0 & l' & El0 & El' & Hp).
  simplify_eq. exists h', d. unfold clocksource_get. rewrite El'. cbn [deref mbind outcome_bind].
  pose proof (find_best_spec l' (proj2 (proj2 Hw' cpu l' El'))) as Hb. destruct (find_best l') as [b|].
  2:{ subst. by apply Permutation_nil in Hp. }
  destruct Hb as [Hb Hmax]. rewrite Hp in Hb. setoid_rewrite Hp in Hmax.
  exists b. split_and!; try done; [set_solver|apply Hmax; set_solver|]. intros d' Hd'. apply Hmax. set_solver.
Qed.

Lemma clocksource_register_default_witness :
  exists h' d best, clocksource_register true 0 String.EmptyString (Some 1) 1000000 {[0 := []]} = Ok h' /\
    heads_wf 1 h' /\ name d = String.EmptyString /\ hz d = 1000000 /\ read d = Some 1 /\
    clocksource_get 0 None h' = Ok (Some best) /\ (best = d \/ best ∈ []) /\
    hz d <= hz best /\ forall d', d' ∈ [] -> hz d' <= hz best.
Proof.
  apply (clocksource_register_default 1 {[0 := []]} 0 String.EmptyString (Some 1) 1000000 []).
  - split.
    + intros c. rewrite lookup_singleton. case_decide; [subst; split; [lia|eauto]|split; [by intros []|lia]].
    + intros c l. rewrite lookup_singleton. case_decide; intros [= <-]. repeat constructor.
  - lia.
  - split; [lia|by vm_compute].
  - done.
Defined.
End Clocksource.

(** ** Clock event devices and timers *)
Module Clockevent.

(** clockevent.c: struct clockevent_timer; NULL callbacks are None *)
Record clockevent_timer := Timer {
  expire_time : Z;
  callback : option Z;
  data : Z
}.

(** clockevent.c: clockevent_struct.  The driver functions are identified by
    the device; whether each is present is a flag. *)
Record clockevent_struct := Device {
  name : String.string;
  has_shutdown : bool;
  has_oneshot : bool;
  has_periodic : bool;
  has_set_value : bool;
  hz : Z;
  mult : Z;
  shift : Z;
  mult_inv : Z;
  shift_inv : Z;
  event_handler : option Z;
  occupied : bool
}.

Definition set_event_handler (d : clockevent_struct) (h : option Z) (o : bool) : clockevent_struct :=
  Device (name d) (has_shutdown d) (has_oneshot d) (has_periodic d) (has_set_value d) (hz d)
    (mult d) (shift d) (mult_inv d) (shift_inv d) h o.

(** clockevent.c: clockevent_per_cpu *)
Record clockevent_per_cpu := PerCpu {
  dev_list : list Z;
  timer_list : list Z;
  oneshot : option Z
}.

(** What a driver is asked to do. *)
Inductive hw_action :=
| HwShutdown (dev : Z)
| HwOneshot (dev : Z)
| HwPeriodic (dev : Z)
| HwValue (dev cycles : Z).

(** The framework's state: the CPUs, the devices, the timers, the list of
    timers the handler has taken out, the requests made to the drivers and
    the callbacks made, oldest first. *)
Record ce := Ce {
  cpus : gmap Z clockevent_per_cpu;
  devs : gmap Z clockevent_struct;
  timers : gmap Z clockevent_timer;
  expired : list Z;
  hw : list hw_action;
  calls : list (Z * Z)
}.

Definition set_cpus (s : ce) (c : gmap Z clockevent_per_cpu) : ce :=
  Ce c (devs s) (timers s) (expired s) (hw s) (calls s).
Definition set_devs (s : ce) (d : gmap Z clockevent_struct) : ce :=
  Ce (cpus s) d (timers s) (expired s) (hw s) (calls s).
Definition set_timers (s : ce) (t : gmap Z clockevent_timer) : ce :=
  Ce (cpus s) (devs s) t (expired s) (hw s) (calls s).
Definition set_expired (s : ce) (e : list Z) : ce :=
  Ce (cpus s) (devs s) (timers s) e (hw s) (calls s).
Definition add_hw (s : ce) (a : hw_action) : ce :=
  Ce (cpus s) (devs s) (timers s) (expired s) (hw s ++ [a]) (calls s).
Definition add_call (s : ce) (c : Z * Z) : ce :=
  Ce (cpus s) (devs s) (timers s) (expired s) (hw s) (calls s ++ [c]).
Definition with_timer_list (p : clockevent_per_cpu) (l : list Z) : clockevent_per_cpu :=
  PerCpu (dev_list p) l (oneshot p).
Definition with_dev_list (p : clockevent_per_cpu) (l : list Z) : clockevent_per_cpu :=
  PerCpu l (timer_list p) (oneshot p).
Definition with_oneshot (p : clockevent_per_cpu) (o : option Z) : clockevent_per_cpu :=
  PerCpu (dev_list p) (timer_list p) o.

(** [list_del_init(&timer->node)], whichever list the node is in; a node that
    is in none is its own neighbour and stays so *)
Definition unlink (t : Z) (s : ce) : ce :=
  set_expired (set_cpus s ((fun p => with_timer_list p (filter (fun x => x <> t) (timer_list p))) <$> cpus s))
    (filter (fun x => x <> t) (expired s)).

(** clockevent.c: clockevent_init *)
Definition clockevent_init (alloc_ok : bool) (cpu_count : Z) : outcome ce :=
  _ ← assert_or_panic alloc_ok;
  Ok (Ce (for_pure (Z.to_nat cpu_count) 0 (fun i c => <[i := PerCpu [] [] None]> c) ∅) ∅ ∅ [] [] []).

(** clockevent.c: clockevent_get, the search for the fastest free device *)
Definition best_device (devs : gmap Z clockevent_struct) (l : list Z) : outcome (option Z) :=
  r ← for_each l (fun pos '(best, best_hz) =>
        d ← deref (devs !! pos);
        Ok (if negb (occupied d) && (best_hz <? hz d) then (Some pos, hz d) else (best, best_hz))) (None, 0);
  Ok (fst r).

(** clockevent.c: clockevent_get, the search by name *)
Fixpoint named_device (devs : gmap Z clockevent_struct) (n : String.string) (l : list Z) : outcome (option Z) :=
  match l with
  | [] => Ok None
  | pos :: l =>
      d ← deref (devs !! pos);
      if String.eqb (name d) n then Ok (Some pos) else named_device devs n l
  end.

(** clockevent.c: clockevent_get *)
Definition clockevent_get (cpu : Z) (n : option String.string) (s : ce) : outcome (option Z) :=
  p ← deref (cpus s !! cpu);
  match n with
  | Some n => named_device (devs s) n (dev_list p)
  | None => best_device (devs s) (dev_list p)
  end.

(** clockevent.c: clockevent_set_handler *)
Definition clockevent_set_handler (handle handler : option Z) (s : ce) : outcome (bool * ce) :=
  match handle with
  | None => Ok (false, s)
  | Some h =>
      d ← deref (devs s !! h);
      Ok (true, set_devs s (<[h := set_event_handler d handler
        (match handler with Some _ => true | None => occupied d end)]> (devs s)))
  end.

(** clockevent.c: clockevent_set_next *)
Definition clockevent_set_next (handle : option Z) (ns : Z) (s : ce) : outcome (bool * ce) :=
  match handle with
  | None => Ok (false, s)
  | Some h =>
      d ← deref (devs s !! h);
      if negb (has_set_value d) then Ok (false, s)
      else Ok (true, add_hw s (HwValue h (timecycle_ns_to_cycles ns (mult_inv d) (shift_inv d))))
  end.

(** include/time.h: clockevent_mode_t *)
Inductive clockevent_mode_t := MODE_SHUTDOWN | MODE_ONESHOT | MODE_PERIODIC.

(** clockevent.c: clockevent_set_mode *)
Definition clockevent_set_mode (handle : option Z) (mode : clockevent_mode_t) (s : ce) : outcome (bool * ce) :=
  match handle with
  | None => Ok (false, s)
  | Some h =>
      d ← deref (devs s !! h);
      let '(present, action) :=
        match mode with
        | MODE_SHUTDOWN => (has_shutdown d, HwShutdown h)
        | MODE_ONESHOT => (has_oneshot d, HwOneshot h)
        | MODE_PERIODIC => (has_periodic d, HwPeriodic h)
        end in
      Ok (if present : bool then (true, add_hw s action) else (false, s))
  end.

(** clockevent.c: clockevent_release *)
Definition clockevent_release (handle : option Z) (s : ce) : outcome ce :=
  match handle with
  | None => Ok s
  | Some h =>
      d ← deref (devs s !! h);
      if occupied d then
        let s := if has_shutdown d then add_hw s (HwShutdown h) else s in
        Ok (set_devs s (<[h := set_event_handler d None false]> (devs s)))
      else Ok s
  end.

(** The handler of the timer queue, as a function pointer. *)
Definition TIMER_SOFTIRQ : Z := 1.

(** clockevent.c: clockevent_timer_init *)
Definition clockevent_timer_init (cpu : Z) (s : ce) : outcome (bool * ce) :=
  p ← deref (cpus s !! cpu);
  match oneshot p with
  | Some _ => Ok (true, s)
  | None =>
      dev ← clockevent_get cpu None s;
      let s := set_cpus s (<[cpu := with_oneshot p dev]> (cpus s)) in
      match dev with
      | None => Panic
      | Some _ =>
          '(ok, s) ← clockevent_set_mode dev MODE_ONESHOT s;
          _ ← assert_or_panic ok;
          '(ok, s) ← clockevent_set_handler dev (Some TIMER_SOFTIRQ) s;
          _ ← assert_or_panic ok;
          Ok (true, s)
      end
  end.

(** clockevent.c: clockevent_timer_alloc; [fresh] is the address kheap_alloc
    answered, if any *)
Definition clockevent_timer_alloc (fresh : option Z) (s : ce) : option Z * ce :=
  match fresh with
  | None => (None, s)
  | Some t => (Some t, set_timers s (<[t := Timer 0 None 0]> (timers s)))
  end.

(** clockevent.c: clockevent_timer_init_callback *)
Definition clockevent_timer_init_callback (timer : option Z) (cb : option Z) (arg : Z) (s : ce) : outcome ce :=
  match timer with
  | None => Ok s
  | Some t =>
      r ← deref (timers s !! t);
      Ok (set_timers s (<[t := Timer (expire_time r) cb arg]> (timers s)))
  end.

(** clockevent.c: clockevent_timer_free *)
Definition clockevent_timer_free (timer : option Z) (s : ce) : outcome ce :=
  match timer with
  | None => Ok s
  | Some t =>
      _ ← deref (timers s !! t);
      let s := unlink t s in
      Ok (set_timers s (delete t (timers s)))
  end.

(** clockevent.c: clockevent_timer_add, the place in the queue: before the
    first timer that expires later *)
Fixpoint insert_timer (tm : gmap Z clockevent_timer) (t expire : Z) (l : list Z) : outcome (list Z) :=
  match l with
  | [] => Ok [t]
  | pos :: l' =>
      r ← deref (tm !! pos);
      if expire <? expire_time r then Ok (t :: l)
      else l' ← insert_timer tm t expire l'; Ok (pos :: l')
  end.

(** The relative time programmed for a deadline, at least 1. *)
Definition delta_ns (expire now : Z) : Z :=
  let delta := if now <? expire then expire - now else 0 in
  if delta =? 0 then 1 else delta.

(** clockevent.c: clockevent_timer_add *)
Definition clockevent_timer_add (timer : option Z) (ns cpu now : Z) (s : ce) : outcome ce :=
  match timer with
  | None => Ok s
  | Some t =>
      r ← deref (timers s !! t);
      match callback r with
      | None => Ok s
      | Some _ =>
          if ns =? 0 then Ok s
          else
            p ← deref (cpus s !! cpu);
            match oneshot p with
            | None => Ok s
            | Some _ =>
                let expire := u64 (now + ns) in
                let s := set_timers s (<[t := Timer expire (callback r) (data r)]> (timers s)) in
                let s := unlink t s in
                p ← deref (cpus s !! cpu);
                l ← insert_timer (timers s) t expire (timer_list p);
                let s := set_cpus s (<[cpu := with_timer_list p l]> (cpus s)) in
                if bool_decide (head l = Some t) then
                  '(_, s) ← clockevent_set_next (oneshot p) (delta_ns expire now) s; Ok s
                else Ok s
            end
      end
  end.

(** clockevent.c: timer_softirq_handler, taking the due timers off the queue *)
Fixpoint collect_expired (tm : gmap Z clockevent_timer) (now : Z) (l : list Z) : outcome (list Z * list Z) :=
  match l with
  | [] => Ok ([], [])
  | t :: l' =>
      r ← deref (tm !! t);
      if expire_time r <=? now then
        '(e, l') ← collect_expired tm now l'; Ok (t :: e, l')
      else Ok ([], l)
  end.

(** The node after [t] in a list. *)
Fixpoint next_of (t : Z) (l : list Z) : option Z :=
  match l with
  | [] => None
  | x :: l => if x =? t then head l else next_of t l
  end.

(** clockevent.c: clockevent_register, the insertion by falling frequency *)
Fixpoint insert_device (devs : gmap Z clockevent_struct) (d f : Z) (l : list Z) : outcome (list Z) :=
  match l with
  | [] => Ok [d]
  | pos :: l' =>
      r ← deref (devs !! pos);
      if hz r <? f then Ok (d :: l) else l' ← insert_device devs d f l'; Ok (pos :: l')
  end.

(** clockevent.c: clockevent_register; [fresh] is the address kheap_alloc
    answered, if any, and the booleans say which driver functions exist *)
Definition clockevent_register (fresh : option Z) (cpu : Z) (n : String.string)
    (shutdown oneshot periodic set_value : bool) (f : Z) (s : ce) : outcome ce :=
  match fresh with
  | None => Ok s
  | Some d =>
      '(mult, shift, mult_inv, shift_inv) ← timecycle_init_params f ONE_YEAR;
      let dev := Device n shutdown oneshot periodic set_value f mult shift mult_inv shift_inv None false in
      let s := set_devs s (<[d := dev]> (devs s)) in
      p ← deref (cpus s !! cpu);
      l ← insert_device (devs s) d f (dev_list p);
      Ok (set_cpus s (<[cpu := with_dev_list p l]> (cpus s)))
  end.

Section handler.
(** What a timer callback does to the framework's state: it may add, free and
    allocate timers. *)
Context (run_callback : Z -> Z -> ce -> ce).

(** clockevent.c: timer_softirq_handler, running the callbacks.  The walk
    holds the current node and its successor; a current node that is no
    longer in the list makes the walk leave it. *)
Definition run_expired (s : ce) : outcome ce :=
  while_loop (S (length (expired s)))
    (fun '(cur, s) =>
       match cur with
       | None => Ok (inr s)
       | Some t =>
           if bool_decide (t ∈ expired s) then
             let tmp := next_of t (expired s) in
             r ← deref (timers s !! t);
             let s := unlink t s in
             let s := match callback r with
                      | Some cb => run_callback cb (data r) (add_call s (cb, data r))
                      | None => s
                      end in
             Ok (inl (tmp, s))
           else Fault
       end) (head (expired s), s).

(** clockevent.c: timer_softirq_handler; [now] and [now2] are its two
    readings of the clock *)
Definition timer_softirq_handler (cpu now now2 : Z) (s : ce) : outcome ce :=
  p ← deref (cpus s !! cpu);
  '(due, rest) ← collect_expired (timers s) now (timer_list p);
  let s := set_expired (set_cpus s (<[cpu := with_timer_list p rest]> (cpus s))) due in
  s ← run_expired s;
  p ← deref (cpus s !! cpu);
  match timer_list p with
  | first :: _ =>
      r ← deref (timers s !! first);
      '(_, s) ← clockevent_set_next (oneshot p) (delta_ns (expire_time r) now2) s; Ok s
  | [] =>
      match oneshot p with
      | Some _ => '(_, s) ← clockevent_set_mode (oneshot p) MODE_SHUTDOWN s; Ok s
      | None => Ok s
      end
  end.
End handler.

(** clockevent.c: clockevent_handle_irq; the handler that is called *)
Definition clockevent_handle_irq (handle : option Z) (s : ce) : outcome (option Z) :=
  match handle with
  | None => Ok None
  | Some h => d ← deref (devs s !! h); Ok (event_handler d)
  end.

(** ** Invariant *)

Definition expiry (tm : gmap Z clockevent_timer) (t : Z) : Z :=
  match tm !! t with Some r => expire_time r | None => 0 end.

(** Timer queue: existing timers, each once, in order of expiry. *)
Record queue_ok (tm : gmap Z clockevent_timer) (l : list Z) : Prop := {
  qo_sorted : StronglySorted (fun a b => expiry tm a <= expiry tm b) l;
  qo_nodup : NoDup l;
  qo_exist : forall t, t ∈ l -> is_Some (tm !! t)
}.

Definition queued (s : ce) (c t : Z) : Prop := exists p, cpus s !! c = Some p /\ t ∈ timer_list p.

Record ce_wf (s : ce) : Prop := {
  wf_queue : forall c p, cpus s !! c = Some p -> queue_ok (timers s) (timer_list p);
  wf_one_cpu : forall c c' t, queued s c t -> queued s c' t -> c = c';
  wf_expired : NoDup (expired s) /\ forall t, t ∈ expired s -> is_Some (timers s !! t) /\ forall c, ~ queued s c t;
  wf_oneshot : forall c p d, cpus s !! c = Some p -> oneshot p = Some d -> is_Some (devs s !! d)
}.

Lemma sorted_filter {A} (R : A -> A -> Prop) (P : A -> Prop) `{!forall x, Decision (P x)} l :
  StronglySorted R l -> StronglySorted R (filter P l).
Proof.
  induction 1 as [|x l Hl IH Hx]; [constructor|]. rewrite filter_cons. destruct (decide (P x)); [|done].
  constructor; [done|]. rewrite Forall_forall in *. intros y [_ Hy]%list_elem_of_filter. by apply Hx.
Qed.

Lemma sorted_mono {A} (R R' : A -> A -> Prop) l :
  (forall a b, a ∈ l -> b ∈ l -> R a b -> R' a b) -> StronglySorted R l -> StronglySorted R' l.
Proof.
  intros HR. induction 1 as [|x l Hl IH Hx]; constructor.
  - apply IH. intros a b Ha Hb. apply HR; by right.
  - rewrite Forall_forall in *. intros y Hy. apply HR; [left|by right|by apply Hx].
Qed.

Lemma queue_ok_filter tm l t : queue_ok tm l -> queue_ok tm (filter (fun x => x <> t) l).
Proof.
  intros [Hs Hn He]. constructor; [by apply sorted_filter|by apply NoDup_filter|].
  intros x [_ Hx]%list_elem_of_filter. by apply He.
Qed.

(** Changing timers outside the queue. *)
Lemma queue_ok_ext tm tm' l : (forall t, t ∈ l -> tm' !! t = tm !! t) -> queue_ok tm l -> queue_ok tm' l.
Proof.
  intros Heq [Hs Hn He]. constructor; [|done|].
  - eapply sorted_mono; [|exact Hs]. intros a b Ha Hb. unfold expiry. by rewrite !Heq.
  - intros t Ht. rewrite Heq by done. by apply He.
Qed.

Lemma unlink_lookup t s c :
  cpus (unlink t s) !! c = (fun p => with_timer_list p (filter (fun x => x <> t) (timer_list p))) <$> cpus s !! c.
Proof. apply lookup_fmap. Qed.

Lemma queued_unlink t s c x : queued (unlink t s) c x <-> queued s c x /\ x <> t.
Proof.
  unfold queued. rewrite unlink_lookup. split.
  - intros (p & E & Hx). destruct (cpus s !! c) as [p0|]; [|done]. simplify_eq/=.
    apply list_elem_of_filter in Hx as [? ?]. eauto.
  - intros [(p & E & Hx) Hne]. rewrite E. eexists. split; [done|]. cbn. by apply list_elem_of_filter.
Qed.

Lemma unlink_wf t s : ce_wf s -> ce_wf (unlink t s).
Proof.
  intros [Hq Hc [Hn He] Ho]. constructor.
  - intros c p E. rewrite unlink_lookup in E. destruct (cpus s !! c) as [p0|] eqn:E0; [|done]. simplify_eq/=.
    apply queue_ok_filter. by eapply Hq.
  - intros c c' x [H1 _]%queued_unlink [H2 _]%queued_unlink. by eapply Hc.
  - cbn. split; [by apply NoDup_filter|]. intros x [Hx Hin]%list_elem_of_filter. destruct (He x Hin) as [? Hno].
    split; [done|]. intros c [HH _]%queued_unlink. by eapply Hno.
  - intros c p d E. rewrite unlink_lookup in E. destruct (cpus s !! c) as [p0|] eqn:E0; [|done]. simplify_eq/=.
    by eapply Ho.
Qed.

(** The record of an unlinked timer may change. *)
Lemma set_timer_wf t r s : ce_wf s -> (forall c, ~ queued s c t) -> t ∉ expired s ->
  ce_wf (set_timers s (<[t := r]> (timers s))).
Proof.
  intros [Hq Hc [Hn He] Ho] Hnq Hne. constructor; try done.
  - intros c p E. apply (queue_ok_ext (timers s)); [|by eapply Hq]. intros x Hx. cbn.
    apply lookup_insert_ne. intros <-. apply (Hnq c). by exists p.
  - cbn. split; [done|]. intros x Hx. destruct (He x Hx) as [? ?]. split; [|done].
    rewrite lookup_insert_ne; [done|]. by intros <-.
Qed.

Lemma delete_timer_wf t s : ce_wf s -> (forall c, ~ queued s c t) -> t ∉ expired s ->
  ce_wf (set_timers s (delete t (timers s))).
Proof.
  intros [Hq Hc [Hn He] Ho] Hnq Hne. constructor; try done.
  - intros c p E. apply (queue_ok_ext (timers s)); [|by eapply Hq]. intros x Hx. cbn.
    apply lookup_delete_ne. intros <-. apply (Hnq c). by exists p.
  - cbn. split; [done|]. intros x Hx. destruct (He x Hx) as [? ?]. split; [|done].
    rewrite lookup_delete_ne; [done|]. by intros <-.
Qed.

Lemma insert_timer_spec tm t e l :
  queue_ok tm l -> t ∉ l -> is_Some (tm !! t) -> expiry tm t = e ->
  exists l', insert_timer tm t e l = Ok l' /\ l' ≡ₚ t :: l /\ queue_ok tm l'.
Proof.
  intros Hq Ht Hex He. assert (exists l', insert_timer tm t e l = Ok l' /\ l' ≡ₚ t :: l /\
    StronglySorted (fun a b => expiry tm a <= expiry tm b) l') as (l' & E & Hp & Hs).
  { destruct Hq as [Hs Hn Hx]. clear Ht Hn. induction Hs as [|y l Hl IH Hy]; cbn [insert_timer].
    { exists [t]. repeat constructor. }
    destruct (Hx y ltac:(left)) as [ry Ey]. rewrite Ey. cbn [deref mbind outcome_bind].
    assert (Hey : expiry tm y = expire_time ry) by (unfold expiry; by rewrite Ey).
    destruct (Z.ltb_spec e (expire_time ry)).
    - exists (t :: y :: l). split_and!; [done|done|]. constructor; [by constructor|].
      constructor; [lia|]. rewrite Forall_forall in *. intros z Hz. specialize (Hy z Hz). cbn in Hy. lia.
    - destruct IH as (l' & -> & Hp & Hs'); [intros z Hz; apply Hx; by right|]. cbn [mbind outcome_bind].
      exists (y :: l'). split_and!; [done|rewrite Hp; apply Permutation_swap|]. constructor; [done|].
      rewrite Hp, Forall_cons. split; [lia|done]. }
  exists l'. split_and!; try done. constructor; [done| |].
  - rewrite Hp. apply NoDup_cons. split; [done|apply Hq].
  - intros x. rewrite Hp, elem_of_cons. intros [->|?]; [done|by apply Hq].
Qed.

(** Replacing one queue by a rearrangement of it with an unlinked timer. *)
Lemma set_queue_wf s c p l t :
  ce_wf s -> cpus s !! c = Some p -> queue_ok (timers s) l ->
  (forall x, x ∈ l -> x = t \/ x ∈ timer_list p) ->
  (forall c', ~ queued s c' t) -> t ∉ expired s ->
  ce_wf (set_cpus s (<[c := with_timer_list p l]> (cpus s))).
Proof.
  intros [Hq Hc [Hn He] Ho] E Hl Hsub Hnq Hne.
  assert (Hold : forall c' x, queued (set_cpus s (<[c := with_timer_list p l]> (cpus s))) c' x ->
    (x = t /\ c' = c) \/ queued s c' x).
  { intros c' x (p' & E' & Hx). cbn in E'. rewrite lookup_insert in E'. case_decide as Hcc; simplify_eq.
    - cbn in Hx. destruct (Hsub x Hx) as [->|?]; [by left|right; by exists p].
    - right. by exists p'. }
  constructor; cbn.
  - intros c' p'. rewrite lookup_insert. case_decide; [by intros [= <-]|apply Hq].
  - intros c1 c2 x H1%Hold H2%Hold. destruct H1 as [[-> ->]|H1], H2 as [[? ->]|H2]; simplify_eq; try done.
    + by destruct (Hnq c2).
    + by destruct (Hnq c1).
    + by eapply Hc.
  - split; [done|]. intros x Hx. destruct (He x Hx) as [? Hno]. split; [done|].
    intros c' [[-> _]|HH]%Hold; [done|]. by eapply Hno.
  - intros c' p' d. rewrite lookup_insert. case_decide; [intros [= <-]; cbn; by eapply Ho|apply Ho].
Qed.

Lemma add_hw_wf s a : ce_wf s -> ce_wf (add_hw s a).
Proof. intros []. by constructor. Qed.

Lemma add_call_wf s c : ce_wf s -> ce_wf (add_call s c).
Proof. intros []. by constructor. Qed.

Lemma set_next_spec s c p ns : ce_wf s -> cpus s !! c = Some p ->
  exists b s', clockevent_set_next (oneshot p) ns s = Ok (b, s') /\ (s' = s \/ exists d cy, s' = add_hw s (HwValue d cy)).
Proof.
  intros Hw E. unfold clockevent_set_next. destruct (oneshot p) as [d|] eqn:Eo; [|by eauto].
  destruct (wf_oneshot s Hw c p d E Eo) as [dv ->]. cbn [deref mbind outcome_bind].
  destruct (has_set_value dv); cbn [negb]; eauto 10.
Qed.

(** The interrupt a queue needs: its first deadline, or none. *)
Definition next_action (s : ce) (p : clockevent_per_cpu) (now : Z) (d : Z) (dv : clockevent_struct) : hw_action :=
  match timer_list p with
  | first :: _ => HwValue d (timecycle_ns_to_cycles (delta_ns (expiry (timers s) first) now) (mult_inv dv) (shift_inv dv))
  | [] => HwShutdown d
  end.

Lemma timer_add_spec s t r cb ns cpu now p d dv :
  ce_wf s -> timers s !! t = Some r -> callback r = Some cb -> ns <> 0 ->
  cpus s !! cpu = Some p -> oneshot p = Some d -> devs s !! d = Some dv -> has_set_value dv = true ->
  exists s' p', clockevent_timer_add (Some t) ns cpu now s = Ok s' /\ ce_wf s' /\
    timers s' = <[t := Timer (u64 (now + ns)) (Some cb) (data r)]> (timers s) /\
    (forall c x, queued s' c x <-> (x = t /\ c = cpu) \/ (x <> t /\ queued s c x)) /\
    cpus s' !! cpu = Some p' /\
    hw s' = hw s ++ (if bool_decide (head (timer_list p') = Some t) then [next_action s' p' now d dv] else []) /\
    expired s' = filter (fun x => x <> t) (expired s) /\ calls s' = calls s.
Proof.
  intros Hw Et Ecb Hns Ep Eo Ed Hsv. unfold clockevent_timer_add. rewrite Et. cbn [deref mbind outcome_bind].
  rewrite Ecb. replace (ns =? 0) with false by lia. rewrite Ep. cbn [deref mbind outcome_bind]. rewrite Eo.
  set (e := u64 (now + ns)). set (tm := <[t := Timer e (Some cb) (data r)]> (timers s)).
  change (unlink t (set_timers s tm)) with (set_timers (unlink t s) tm). set (s1 := set_timers (unlink t s) tm).
  assert (Hnq : forall c, ~ queued (unlink t s) c t) by (intros c [_ []]%queued_unlink; done).
  assert (Hne : t ∉ expired (unlink t s)) by (intros [[] _]%list_elem_of_filter; done).
  assert (Hw1 : ce_wf s1) by (apply (set_timer_wf t _ (unlink t s)); [by apply unlink_wf|done|done]).
  set (p1 := with_timer_list p (filter (fun x => x <> t) (timer_list p))).
  assert (Ep1 : cpus s1 !! cpu = Some p1) by (unfold s1; cbn [cpus set_timers]; by rewrite unlink_lookup, Ep).
  rewrite Ep1. cbn [deref mbind outcome_bind].
  destruct (insert_timer_spec (timers s1) t e (timer_list p1)) as (l & -> & Hp & Hl).
  - by eapply (wf_queue s1 Hw1).
  - intros [[] _]%list_elem_of_filter; done.
  - cbn. unfold tm. rewrite lookup_insert_eq. eauto.
  - unfold expiry. cbn. unfold tm. by rewrite lookup_insert_eq.
  - cbn [mbind outcome_bind]. set (s2 := set_cpus s1 _).
    assert (Hw2 : ce_wf s2).
    { apply (set_queue_wf s1 cpu p1 l t); try done. intros x. rewrite Hp, elem_of_cons. tauto. }
    assert (Hq2 : forall c x, queued s2 c x <-> (x = t /\ c = cpu) \/ (x <> t /\ queued s c x)).
    { intros c x. assert (Hq1 : queued s1 c x <-> queued s c x /\ x <> t) by apply queued_unlink.
      unfold queued at 1. cbn [cpus s2 set_cpus]. rewrite lookup_insert. case_decide as Hcc; subst.
      - split.
        + intros (p' & [= <-] & Hx). cbn in Hx. rewrite Hp, elem_of_cons in Hx.
          destruct Hx as [->|Hx]; [by left|right]. assert (queued s1 c x) as [? ?]%Hq1 by (by exists p1). done.
        + intros Hx. eexists. split; [done|]. cbn. rewrite Hp, elem_of_cons.
          destruct Hx as [[-> _]|[Hx Hqx]]; [by left|right]. destruct (proj2 Hq1 (conj Hqx Hx)) as (p' & E' & ?).
          rewrite Ep1 in E'. by simplify_eq.
      - split.
        + intros Hx. right. assert (queued s1 c x) as [? ?]%Hq1 by exact Hx. done.
        + intros [[-> ->]|[Hx Hqx]]; [done|]. apply (proj2 Hq1). done. }
    assert (Ep2 : cpus s2 !! cpu = Some (with_timer_list p1 l)) by apply lookup_insert_eq.
    case_bool_decide as Hh.
    + unfold clockevent_set_next. replace (oneshot p1) with (Some d) by done.
      assert (devs s2 !! d = Some dv) as -> by done. cbn [deref mbind outcome_bind]. rewrite Hsv. cbn [negb].
      eexists _, (with_timer_list p1 l). split; [done|]. split; [by apply add_hw_wf|].
      split_and!; try done. cbn [timer_list with_timer_list]. rewrite bool_decide_true by done.
      unfold next_action. cbn [timer_list with_timer_list]. destruct l as [|x l]; [done|]. simplify_eq/=.
      unfold expiry, tm. by rewrite lookup_insert_eq.
    + exists s2, (with_timer_list p1 l). split_and!; try done. cbn [timer_list with_timer_list].
      rewrite bool_decide_false by done. by rewrite app_nil_r.
Qed.

Lemma timer_free_spec s t r : ce_wf s -> timers s !! t = Some r ->
  exists s', clockevent_timer_free (Some t) s = Ok s' /\ ce_wf s' /\ timers s' = delete t (timers s) /\
    forall c x, queued s' c x <-> x <> t /\ queued s c x.
Proof.
  intros Hw Et. unfold clockevent_timer_free. rewrite Et. cbn [deref mbind outcome_bind].
  eexists. split; [done|]. split_and!; try done.
  - apply (delete_timer_wf t (unlink t s)); [by apply unlink_wf| |].
    + intros c [_ []]%queued_unlink. done.
    + intros [[] _]%list_elem_of_filter. done.
  - intros c x. change (queued (unlink t s) c x <-> x <> t /\ queued s c x). rewrite queued_unlink. tauto.
Qed.

(** ** The interrupt handler *)

Lemma collect_expired_spec tm now l : queue_ok tm l ->
  exists due rest, collect_expired tm now l = Ok (due, rest) /\ l = due ++ rest /\
    (forall t, t ∈ due -> expiry tm t <= now) /\ (forall t, t ∈ rest -> now < expiry tm t).
Proof.
  intros [Hs _ Hx]. induction Hs as [|y l Hl IH Hy]; cbn [collect_expired].
  { exists [], []. split_and!; try done; intros t Ht; by apply not_elem_of_nil in Ht. }
  destruct (Hx y ltac:(left)) as [r E]. rewrite E. cbn [deref mbind outcome_bind].
  assert (Hey : expiry tm y = expire_time r) by (unfold expiry; by rewrite E).
  destruct (Z.leb_spec (expire_time r) now).
  - destruct IH as (due & rest & -> & -> & Hd & Hr); [intros z Hz; apply Hx; by right|].
    cbn [mbind outcome_bind]. exists (y :: due), rest. split_and!; try done.
    intros t [->|Ht]%elem_of_cons; [lia|by apply Hd].
  - exists [], (y :: l). split_and!; try done.
    + intros t Ht. by apply not_elem_of_nil in Ht.
    + intros t [->|Ht]%elem_of_cons; [lia|]. rewrite Forall_forall in Hy. specialize (Hy t Ht). cbn in Hy. lia.
Qed.

Lemma sorted_app_inv {A} (R : A -> A -> Prop) l1 l2 : StronglySorted R (l1 ++ l2) -> StronglySorted R l2.
Proof. induction l1 as [|x l1 IH]; [done|]. cbn. intros H. apply IH. by apply StronglySorted_inv in H as [? _]. Qed.

(** The callbacks of a list of timers. *)
Definition callbacks (tm : gmap Z clockevent_timer) (l : list Z) : list (Z * Z) :=
  l ≫= fun t => match tm !! t with
                | Some r => match callback r with Some cb => [(cb, data r)] | None => [] end
                | None => []
                end.

Lemma callbacks_ext tm tm' l : (forall t, t ∈ l -> tm' !! t = tm !! t) -> callbacks tm' l = callbacks tm l.
Proof.
  intros H. unfold callbacks. induction l as [|t l IH]; [done|]. rewrite !bind_cons, H by left.
  f_equal. apply IH. intros x Hx. apply H. by right.
Qed.

(** What the handler expects of callbacks: they keep the framework's
    invariant and do not touch timers that are waiting for their own
    callback. *)
Class Polite (run_callback : Z -> Z -> ce -> ce) : Prop := {
  polite_wf f d s : ce_wf s -> ce_wf (run_callback f d s);
  polite_expired f d s : expired (run_callback f d s) = expired s;
  polite_calls f d s : calls (run_callback f d s) = calls s;
  polite_timers f d s t : t ∈ expired s -> timers (run_callback f d s) !! t = timers s !! t;
  polite_cpus f d s c : is_Some (cpus (run_callback f d s) !! c) <-> is_Some (cpus s !! c)
}.

(** One timer is due: it leaves its list and its callback runs. *)
Definition fire (run_callback : Z -> Z -> ce -> ce) (s : ce) (t : Z) : ce :=
  match timers s !! t with
  | Some r => match callback r with
              | Some cb => run_callback cb (data r) (add_call (unlink t s) (cb, data r))
              | None => unlink t s
              end
  | None => s
  end.

(** The state the callbacks start from. *)
Definition collected (s : ce) (cpu : Z) (p : clockevent_per_cpu) (due rest : list Z) : ce :=
  set_expired (set_cpus s (<[cpu := with_timer_list p rest]> (cpus s))) due.

Lemma fire_quiet run_callback cpu q l s : (forall cb a x, cpus (run_callback cb a x) = cpus x) -> (forall t, t ∈ l -> t ∉ timer_list q) ->
  cpus s !! cpu = Some q -> cpus (fold_left (fire run_callback) l s) !! cpu = Some q.
Proof.
  intros Hq. revert s. induction l as [|t l IH]; intros s Hl E; [done|]. cbn [fold_left]. apply IH; [intros x Hx; apply Hl; by right|].
  assert (cpus (unlink t s) !! cpu = Some q) as Hu.
  { cbn. rewrite lookup_fmap, E. cbn. f_equal. rewrite filter_notin by (apply Hl; left). by destruct q. }
  unfold fire. destruct (timers s !! t) as [r0|]; [|done]. destruct (callback r0); [|done]. by rewrite Hq.
Qed.

Section handler_spec.
Context (run_callback : Z -> Z -> ce -> ce) `{!Polite run_callback}.

Lemma run_expired_spec s : ce_wf s ->
  exists s', run_expired run_callback s = Ok s' /\ ce_wf s' /\ expired s' = [] /\
    calls s' = calls s ++ callbacks (timers s) (expired s) /\
    (forall c, is_Some (cpus s' !! c) <-> is_Some (cpus s !! c)) /\ s' = fold_left (fire run_callback) (expired s) s.
Proof.
  intros Hw. unfold run_expired.
  match goal with |- context [while_loop ?f ?b ?s0] =>
    destruct (while_rule (fun '(cur, s1) => cur = head (expired s1) /\ ce_wf s1 /\
        calls s1 ++ callbacks (timers s1) (expired s1) = calls s ++ callbacks (timers s) (expired s) /\
        (forall c, is_Some (cpus s1 !! c) <-> is_Some (cpus s !! c)) /\
        fold_left (fire run_callback) (expired s1) s1 = fold_left (fire run_callback) (expired s) s)
      (fun s1 => ce_wf s1 /\ expired s1 = [] /\ calls s1 = calls s ++ callbacks (timers s) (expired s) /\
        (forall c, is_Some (cpus s1 !! c) <-> is_Some (cpus s !! c)) /\ s1 = fold_left (fire run_callback) (expired s) s)
      (fun '(cur, s1) => Z.of_nat (length (expired s1))) f b s0) as (s' & -> & H) end.
  - done.
  - cbn. lia.
  - intros [cur s1]. lia.
  - intros [cur s1] (-> & Hw1 & Hcalls & Hcpu & Hfold). destruct (expired s1) as [|t rest] eqn:Ex; cbn [head].
    { right. exists s1. split_and!; try done. by rewrite app_nil_r in Hcalls. }
    rewrite bool_decide_true by left. cbn [next_of]. rewrite Z.eqb_refl.
    destruct (wf_expired s1 Hw1) as [Hnd Hex]. rewrite Ex in Hnd. apply NoDup_cons in Hnd as [Hnt Hnd].
    destruct (proj1 (Hex t ltac:(rewrite Ex; left))) as [r Er]. rewrite Er. cbn [deref mbind outcome_bind].
    assert (Hux : expired (unlink t s1) = rest).
    { cbn. rewrite Ex, filter_cons_False by naive_solver. by apply filter_notin. }
    assert (Huc : forall c, is_Some (cpus (unlink t s1) !! c) <-> is_Some (cpus s1 !! c)).
    { intros c. rewrite unlink_lookup. by rewrite fmap_is_Some. }
    assert (Hcb : callbacks (timers s1) (t :: rest) =
      match callback r with Some cb => [(cb, data r)] | None => [] end ++ callbacks (timers s1) rest).
    { unfold callbacks. by rewrite bind_cons, Er. }
    left. eexists. split; [done|]. rewrite Hcb in Hcalls. clear Hcb. cbn [fold_left] in Hfold. unfold fire at 2 in Hfold. rewrite Er in Hfold. destruct (callback r) as [cb|].
    + set (s2 := add_call (unlink t s1) (cb, data r)).
      assert (Hw2 : ce_wf s2) by (by apply add_call_wf, unlink_wf).
      assert (Hx2 : expired s2 = rest) by exact Hux.
      rewrite polite_expired, Hx2. split; [|cbn; lia]. split_and!; [done|by apply polite_wf| | |exact Hfold].
      * rewrite polite_calls. rewrite (callbacks_ext (timers s1)).
        -- cbn [calls s2 add_call unlink set_expired set_cpus]. rewrite <- Hcalls. by rewrite <- !app_assoc.
        -- intros x Hx. rewrite polite_timers by (by rewrite Hx2). done.
      * intros c. rewrite polite_cpus, <- Hcpu. apply Huc.
    + rewrite Hux. split; [|cbn; lia]. split_and!; [done|by apply unlink_wf|exact Hcalls| |exact Hfold].
      intros c. by rewrite Huc.
  - exists s'. done.
Qed.

(** Taking the due timers off the queue. *)
Lemma collect_wf s cpu p due rest :
  ce_wf s -> expired s = [] -> cpus s !! cpu = Some p -> timer_list p = due ++ rest ->
  ce_wf (set_expired (set_cpus s (<[cpu := with_timer_list p rest]> (cpus s))) due).
Proof.
  intros [Hq Hc _ Ho] Hx E Hl. destruct (Hq cpu p E) as [Hs Hn He]. rewrite Hl in Hs, Hn, He.
  apply NoDup_app in Hn as (Hnd & Hdisj & Hnr).
  assert (Hold : forall c x, queued (set_expired (set_cpus s (<[cpu := with_timer_list p rest]> (cpus s))) due) c x ->
    (c = cpu /\ x ∈ rest) \/ (c <> cpu /\ queued s c x)).
  { intros c x (p' & E' & Hin). cbn in E'. rewrite lookup_insert in E'. case_decide; simplify_eq; [by left|].
    right. split; [done|]. by exists p'. }
  assert (Hin : forall x, x ∈ due ++ rest -> queued s cpu x) by (intros x Hin; exists p; by rewrite Hl).
  constructor; cbn.
  - intros c p'. rewrite lookup_insert. case_decide; [intros [= <-]|apply Hq]. cbn.
    constructor; [by eapply sorted_app_inv|done|]. intros t Ht. apply He, elem_of_app. by right.
  - intros c1 c2 x H1%Hold H2%Hold. destruct H1 as [[-> H1]|[? H1]], H2 as [[-> H2]|[? H2]]; try done.
    + eapply Hc; [apply Hin, elem_of_app; by right|done].
    + eapply Hc; [done|apply Hin, elem_of_app; by right].
    + by eapply Hc.
  - split; [done|]. intros t Ht. split; [apply He, elem_of_app; by left|].
    intros c Hqd%Hold. destruct Hqd as [[-> Hr]|[Hne Hqd]]; [by apply (Hdisj t)|].
    apply Hne. eapply Hc; [done|]. apply Hin, elem_of_app. by left.
  - intros c p' d. rewrite lookup_insert. case_decide; [intros [= <-]; cbn; by eapply Ho|apply Ho].
Qed.

Lemma handler_spec s cpu p now now2 : ce_wf s -> expired s = [] -> cpus s !! cpu = Some p ->
  exists due rest s' p', timer_softirq_handler run_callback cpu now now2 s = Ok s' /\ ce_wf s' /\
    timer_list p = due ++ rest /\ (forall t, t ∈ due -> expiry (timers s) t <= now) /\
    (forall t, t ∈ rest -> now < expiry (timers s) t) /\
    calls s' = calls s ++ callbacks (timers s) due /\ expired s' = [] /\ cpus s' !! cpu = Some p' /\
    (let sm := fold_left (fire run_callback) due (collected s cpu p due rest) in cpus s' = cpus sm /\ timers s' = timers sm /\ devs s' = devs sm) /\
    ((forall cb a x, cpus (run_callback cb a x) = cpus x) -> p' = with_timer_list p rest) /\
    forall d dv, oneshot p' = Some d -> devs s' !! d = Some dv -> has_set_value dv = true ->
      has_shutdown dv = true -> last (hw s') = Some (next_action s' p' now2 d dv).
Proof.
  intros Hw Hx E. unfold timer_softirq_handler. rewrite E. cbn [deref mbind outcome_bind].
  destruct (collect_expired_spec (timers s) now (timer_list p)) as (due & rest & -> & Hl & Hdue & Hrest);
    [by eapply wf_queue|]. cbn [mbind outcome_bind].
  pose proof (collect_wf s cpu p due rest Hw Hx E Hl) as Hw1. fold (collected s cpu p due rest) in *. set (s1 := collected s cpu p due rest) in *.
  destruct (run_expired_spec s1 Hw1) as (s2 & -> & Hw2 & Hx2 & Hc2 & Hd2 & Hfold). change (expired s1) with due in Hfold. cbn [mbind outcome_bind].
  destruct (proj2 (Hd2 cpu)) as [p2 E2].
  { cbn. rewrite lookup_insert_eq. eauto. }
  rewrite E2. cbn [deref mbind outcome_bind]. change (callbacks (timers s1) (expired s1)) with (callbacks (timers s) due) in Hc2.
  change (calls s1) with (calls s) in Hc2. exists due, rest.
  assert ((forall cb a x, cpus (run_callback cb a x) = cpus x) -> p2 = with_timer_list p rest) as Hkeep.
  { intros Hq. assert (cpus s2 !! cpu = Some (with_timer_list p rest)) as E3; [|congruence]. rewrite Hfold. apply fire_quiet; [done| |cbn; apply lookup_insert_eq].
    intros t Ht. cbn. pose proof (qo_nodup _ _ (wf_queue s Hw cpu p E)) as Hnd. rewrite Hl in Hnd. apply NoDup_app in Hnd as (_ & Hdj & _). by apply Hdj. }
  cbv zeta. change (collected s cpu p due rest) with s1. rewrite <- Hfold.
  destruct (timer_list p2) as [|first l2] eqn:Eq.
  - destruct (oneshot p2) as [d2|] eqn:Eo.
    2:{ exists s2, p2. split_and!; try done. by intros d dv ?; simplify_eq. }
    unfold clockevent_set_mode. destruct (wf_oneshot s2 Hw2 cpu p2 d2 E2 Eo) as [dv2 Edv]. rewrite Edv.
    cbn [deref mbind outcome_bind].
    destruct (has_shutdown dv2) eqn:Es.
    + eexists _, p2. split; [done|]. split; [by apply add_hw_wf|]. split_and!; try done.
      intros d dv Hd Hdv _ _. cbn in Hdv. simplify_eq. cbn [hw add_hw]. rewrite last_snoc.
      unfold next_action. by rewrite Eq.
    + exists s2, p2. split_and!; try done. intros d dv Hd Hdv _ Hs. simplify_eq. congruence.
  - destruct (qo_exist _ _ (wf_queue s2 Hw2 cpu p2 E2) first) as [r Er]; [rewrite Eq; left|].
    rewrite Er. cbn [deref mbind outcome_bind]. unfold clockevent_set_next.
    destruct (oneshot p2) as [d2|] eqn:Eo.
    2:{ cbn [mbind outcome_bind]. exists s2, p2. split_and!; try done. by intros d dv ?; simplify_eq. }
    destruct (wf_oneshot s2 Hw2 cpu p2 d2 E2 Eo) as [dv2 Edv]. rewrite Edv. cbn [deref mbind outcome_bind].
    destruct (has_set_value dv2) eqn:Es; cbn [negb mbind outcome_bind].
    + eexists _, p2. split; [done|]. split; [by apply add_hw_wf|]. split_and!; try done.
      intros d dv Hd Hdv _ _. cbn in Hdv. simplify_eq. cbn [hw add_hw]. rewrite last_snoc.
      unfold next_action. rewrite Eq. cbn [timers add_hw]. unfold expiry. by rewrite Er.
    + exists s2, p2. split_and!; try done. intros d dv Hd Hdv Hsv _. simplify_eq. congruence.
Qed.
End handler_spec.

(** ** Choosing a device *)

(** The devices of a list exist, with positive frequency. *)
Definition devices_ok (devs : gmap Z clockevent_struct) (l : list Z) : Prop :=
  forall x, x ∈ l -> exists d, devs !! x = Some d /\ 0 < hz d.

Lemma best_device_spec devs l : devices_ok devs l ->
  exists r, best_device devs l = Ok r /\
    match r with
    | Some b => b ∈ l /\ exists db, devs !! b = Some db /\ occupied db = false /\
        forall x d, x ∈ l -> devs !! x = Some d -> occupied d = false -> hz d <= hz db
    | None => forall x d, x ∈ l -> devs !! x = Some d -> occupied d = true
    end.
Proof.
  intros Hok. unfold best_device.
  match goal with |- context [for_each ?l0 ?bd ?s0] =>
    destruct (for_each_inv (fun dn (r : option Z * Z) => (forall x, x ∈ dn -> x ∈ l) -> 0 <= r.2 /\
        (forall x d, x ∈ dn -> devs !! x = Some d -> occupied d = false -> hz d <= r.2) /\
        match r.1 with
        | Some b => b ∈ dn /\ exists db, devs !! b = Some db /\ occupied db = false /\ hz db = r.2
        | None => r.2 = 0
        end) bd l0 s0) as ([best bh] & -> & H) end.
  - intros _. cbn. split_and!; try done. intros x d Hx. by apply not_elem_of_nil in Hx.
  - intros dn x [best bh] IH Hx. destruct (Hok x Hx) as (d & Ed & Hz). rewrite Ed. cbn [deref mbind outcome_bind].
    eexists. split; [done|]. intros Hdn.
    destruct IH as (H0 & Hmax & Hb); [intros y Hy; apply Hdn; set_solver|]. cbn [fst snd] in *.
    destruct (negb (occupied d) && (bh <? hz d)) eqn:G; cbn [fst snd].
    + zbool. split; [lia|]. split.
      * intros y dy [Hy|Hy]%elem_of_app Edy Ho; [specialize (Hmax y dy Hy Edy Ho); lia|].
        apply list_elem_of_singleton in Hy as ->. by simplify_eq.
      * split; [set_solver|]. exists d. done.
    + split; [done|]. split.
      * intros y dy [Hy|Hy]%elem_of_app Edy Ho; [by apply (Hmax y dy)|].
        apply list_elem_of_singleton in Hy as ->. simplify_eq. rewrite Ho in G. cbn in G. zbool. lia.
      * destruct best as [b|]; [|done]. destruct Hb as [? ?]. split; [set_solver|done].
  - cbn [mbind outcome_bind fst]. exists best. split; [done|].
    destruct H as (_ & Hmax & Hb); [done|]. cbn [fst snd] in *. destruct best as [b|].
    + destruct Hb as (Hb & db & E & Ho & <-). split; [done|]. exists db. done.
    + intros x d Hx Ed. destruct (occupied d) eqn:Ho; [done|]. specialize (Hmax x d Hx Ed Ho).
      destruct (Hok x Hx) as (d' & Ed' & ?). simplify_eq. lia.
Qed.

(** ** One CPU, one device, timers 1 and 2 queued and timer 3 idle *)

Definition demo_dev : clockevent_struct :=
  Device String.EmptyString true true true true 1000000 1000 0 4294967 32 (Some TIMER_SOFTIRQ) true.

Definition demo_cpu : clockevent_per_cpu := PerCpu [10] [1; 2] (Some 10).

Definition demo_ce : ce :=
  Ce {[0 := demo_cpu]} {[10 := demo_dev]}
    (<[1 := Timer 100 (Some 7) 71]> (<[2 := Timer 200 (Some 7) 72]> {[3 := Timer 0 (Some 8) 83]})) [] [] [].

Lemma demo_queue : queue_ok (timers demo_ce) [1; 2].
Proof.
  constructor.
  - repeat constructor; by vm_compute.
  - apply (bool_decide_unpack (NoDup [1; 2])). vm_compute. exact I.
  - intros t [->|[->|[]%not_elem_of_nil]%elem_of_cons]%elem_of_cons; by eexists.
Qed.

Lemma demo_cpus c p : cpus demo_ce !! c = Some p -> c = 0 /\ p = demo_cpu.
Proof. cbn. rewrite lookup_singleton_Some. naive_solver. Qed.

Lemma demo_ce_wf : ce_wf demo_ce.
Proof.
  constructor.
  - intros c p [-> ->]%demo_cpus. exact demo_queue.
  - intros c c' t (p & [-> _]%demo_cpus & _) (p' & [-> _]%demo_cpus & _). done.
  - split; [constructor|]. intros t Ht. by apply not_elem_of_nil in Ht.
  - intros c p d [-> ->]%demo_cpus [= <-]. by eexists.
Qed.

(** Callbacks that leave the timer framework alone. *)
Definition quiet (f d : Z) (s : ce) : ce := s.
#[local] Instance quiet_polite : Polite quiet.
Proof. by constructor. Qed.

(** ** Claims *)

(** [clockevent_timer_add] of a timer with a callback on a CPU with a
    one-shot device succeeds: the timer moves from whatever queue it was in to
    this CPU's queue with the deadline now + ns, no other timer moves, every
    queue stays ordered by deadline and free of duplicates, and the hardware
    is programmed (with the new deadline) exactly when the timer became the
    first of the queue. *)
Theorem clockevent_timer_add_correct s t r cb ns cpu now p d dv :
  ce_wf s -> timers s !! t = Some r -> callback r = Some cb -> ns <> 0 ->
  cpus s !! cpu = Some p -> oneshot p = Some d -> devs s !! d = Some dv -> has_set_value dv = true ->
  exists s' p', clockevent_timer_add (Some t) ns cpu now s = Ok s' /\ ce_wf s' /\
    timers s' = <[t := Timer (u64 (now + ns)) (Some cb) (data r)]> (timers s) /\
    (forall c x, queued s' c x <-> (x = t /\ c = cpu) \/ (x <> t /\ queued s c x)) /\
    cpus s' !! cpu = Some p' /\
    hw s' = hw s ++ (if bool_decide (head (timer_list p') = Some t) then [next_action s' p' now d dv] else []) /\
    expired s' = filter (fun x => x <> t) (expired s) /\ calls s' = calls s.
Proof. apply timer_add_spec. Qed.

Lemma clockevent_timer_add_correct_witness :
  exists s' p', clockevent_timer_add (Some 3) 60 0 90 demo_ce = Ok s' /\ ce_wf s' /\
    timers s' = <[3 := Timer (u64 (90 + 60)) (Some 8) 83]> (timers demo_ce) /\
    (forall c x, queued s' c x <-> (x = 3 /\ c = 0) \/ (x <> 3 /\ queued demo_ce c x)) /\
    cpus s' !! 0 = Some p' /\
    hw s' = [] ++ (if bool_decide (head (timer_list p') = Some 3) then [next_action s' p' 90 10 demo_dev] else []) /\
    expired s' = filter (fun x => x <> 3) [] /\ calls s' = [].
Proof.
  apply (clockevent_timer_add_correct demo_ce 3 (Timer 0 (Some 8) 83) 8 60 0 90 demo_cpu 10 demo_dev);
    [exact demo_ce_wf|reflexivity|reflexivity|lia|reflexivity|reflexivity|reflexivity|reflexivity].
Defined.

(** C35: The timer interrupt handler returns, calls back exactly the timers
    whose deadline has passed, each once and in order of deadline, and asks the
    one-shot device for the first deadline that remains, or shuts it down when
    the queue is empty.  The queues and timers afterwards are those the
    callbacks, run one after the other, make of the state in which exactly the
    later timers are queued; in particular the later timers stay queued in
    order when no callback touches the queues.  This holds
    for every callback behaviour that keeps the invariant and leaves the
    timers alone that are waiting for their own callback. *)
Theorem timer_softirq_handler_correct run_callback `{!Polite run_callback} s cpu p now now2 :
  ce_wf s -> expired s = [] -> cpus s !! cpu = Some p ->
  exists due rest s' p', timer_softirq_handler run_callback cpu now now2 s = Ok s' /\ ce_wf s' /\
    timer_list p = due ++ rest /\ (forall t, t ∈ due -> expiry (timers s) t <= now) /\
    (forall t, t ∈ rest -> now < expiry (timers s) t) /\
    calls s' = calls s ++ callbacks (timers s) due /\ expired s' = [] /\ cpus s' !! cpu = Some p' /\
    (let sm := fold_left (fire run_callback) due (collected s cpu p due rest) in cpus s' = cpus sm /\ timers s' = timers sm /\ devs s' = devs sm) /\
    ((forall cb a x, cpus (run_callback cb a x) = cpus x) -> p' = with_timer_list p rest) /\
    forall d dv, oneshot p' = Some d -> devs s' !! d = Some dv -> has_set_value dv = true ->
      has_shutdown dv = true -> last (hw s') = Some (next_action s' p' now2 d dv).
Proof. by apply handler_spec. Qed.

Lemma timer_softirq_handler_correct_witness :
  exists due rest s' p', timer_softirq_handler quiet 0 150 160 demo_ce = Ok s' /\ ce_wf s' /\
    [1; 2] = due ++ rest /\ (forall t, t ∈ due -> expiry (timers demo_ce) t <= 150) /\
    (forall t, t ∈ rest -> 150 < expiry (timers demo_ce) t) /\
    calls s' = [] ++ callbacks (timers demo_ce) due /\ expired s' = [] /\ cpus s' !! 0 = Some p' /\
    (let sm := fold_left (fire quiet) due (collected demo_ce 0 demo_cpu due rest) in cpus s' = cpus sm /\ timers s' = timers sm /\ devs s' = devs sm) /\
    ((forall cb a x, cpus (quiet cb a x) = cpus x) -> p' = with_timer_list demo_cpu rest) /\
    forall d dv, oneshot p' = Some d -> devs s' !! d = Some dv -> has_set_value dv = true ->
      has_shutdown dv = true -> last (hw s') = Some (next_action s' p' 160 d dv).
Proof.
  apply (timer_softirq_handler_correct quiet demo_ce 0 demo_cpu 150 160);
    [exact demo_ce_wf|reflexivity|reflexivity].
Defined.

(** [clockevent_get] without a name answers a device of the CPU's list
    that is not occupied and has the highest frequency of those, and NULL
    exactly when every device is occupied. *)
Theorem clockevent_get_best s cpu p :
  cpus s !! cpu = Some p -> devices_ok (devs s) (dev_list p) ->
  exists r, clockevent_get cpu None s = Ok r /\
    match r with
    | Some b => b ∈ dev_list p /\ exists db, devs s !! b = Some db /\ occupied db = false /\
        forall x d, x ∈ dev_list p -> devs s !! x = Some d -> occupied d = false -> hz d <= hz db
    | None => forall x d, x ∈ dev_list p -> devs s !! x = Some d -> occupied d = true
    end.
Proof.
  intros E Hok. unfold clockevent_get. rewrite E. cbn [deref mbind outcome_bind]. by apply best_device_spec.
Qed.

Lemma clockevent_get_best_witness :
  exists r, clockevent_get 0 None demo_ce = Ok r /\
    match r with
    | Some b => b ∈ [10] /\ exists db, devs demo_ce !! b = Some db /\ occupied db = false /\
        forall x d, x ∈ [10] -> devs demo_ce !! x = Some d -> occupied d = false -> hz d <= hz db
    | None => forall x d, x ∈ [10] -> devs demo_ce !! x = Some d -> occupied d = true
    end.
Proof.
  apply (clockevent_get_best demo_ce 0 demo_cpu); [reflexivity|].
  intros x ->%list_elem_of_singleton. exists demo_dev. split; [reflexivity|]. cbn. lia.
Defined.

(** The mode a device was last put in. *)
Definition mode_of (d : Z) (l : list hw_action) : option clockevent_mode_t :=
  fold_left (fun m a => match a with
    | HwShutdown x => if x =? d then Some MODE_SHUTDOWN else m
    | HwOneshot x => if x =? d then Some MODE_ONESHOT else m
    | HwPeriodic x => if x =? d then Some MODE_PERIODIC else m
    | HwValue _ _ => m
    end) l None.

Lemma mode_of_app d l a : mode_of d (l ++ [a]) =
  match a with
  | HwShutdown x => if x =? d then Some MODE_SHUTDOWN else mode_of d l
  | HwOneshot x => if x =? d then Some MODE_ONESHOT else mode_of d l
  | HwPeriodic x => if x =? d then Some MODE_PERIODIC else mode_of d l
  | HwValue _ _ => mode_of d l
  end.
Proof. unfold mode_of. by rewrite fold_left_app. Qed.

(** Once the handler has emptied a CPU's queue the one-shot device is shut
    down, and a timer added afterwards programs a count into the device
    without leaving that mode: the device stays masked. *)
Theorem timer_added_to_masked_device run_callback `{!Polite run_callback} s cpu p now now2 s1 p1 d dv t r cb ns now3 :
  ce_wf s -> expired s = [] -> cpus s !! cpu = Some p ->
  timer_softirq_handler run_callback cpu now now2 s = Ok s1 ->
  cpus s1 !! cpu = Some p1 -> timer_list p1 = [] -> oneshot p1 = Some d -> devs s1 !! d = Some dv ->
  has_set_value dv = true -> has_shutdown dv = true ->
  timers s1 !! t = Some r -> callback r = Some cb -> ns <> 0 ->
  exists s2 cycles, clockevent_timer_add (Some t) ns cpu now3 s1 = Ok s2 /\ queued s2 cpu t /\
    hw s2 = hw s1 ++ [HwValue d cycles] /\ mode_of d (hw s2) = Some MODE_SHUTDOWN.
Proof.
  intros Hw Hx E Eh E1 Eq Eo Ed Hsv Hsd Et Ecb Hns.
  destruct (handler_spec run_callback s cpu p now now2 Hw Hx E)
    as (due & rest & s' & p' & Eh' & Hw1 & _ & _ & _ & _ & _ & E1' & _ & _ & Hlast).
  rewrite Eh in Eh'. injection Eh' as <-. rewrite E1 in E1'. injection E1' as <-.
  specialize (Hlast d dv Eo Ed Hsv Hsd). unfold next_action in Hlast. rewrite Eq in Hlast.
  destruct (timer_add_spec s1 t r cb ns cpu now3 p1 d dv) as (s2 & p2 & E2 & Hw2 & _ & Hq & Ep2 & Hhw & _); try done.
  assert (Hl2 : forall x, x ∈ timer_list p2 -> x = t).
  { intros x Hin. assert (queued s2 cpu x) as [[-> _]|[_ (p0 & Ep0 & Hp0)]]%Hq by (by exists p2); [done|].
    rewrite E1 in Ep0. simplify_eq. rewrite Eq in Hp0. by apply not_elem_of_nil in Hp0. }
  assert (Hin : queued s2 cpu t) by (apply Hq; by left).
  destruct Hin as (p0 & Ep0 & Hp0). rewrite Ep2 in Ep0. injection Ep0 as <-.
  destruct (timer_list p2) as [|x l2] eqn:El2; [by apply not_elem_of_nil in Hp0|].
  assert (x = t) as -> by (apply Hl2; left). cbn [head] in Hhw. rewrite bool_decide_true in Hhw by done.
  unfold next_action in Hhw. rewrite El2 in Hhw. exists s2. eexists. split; [done|].
  split; [exists p2; by rewrite El2|]. split; [exact Hhw|].
  rewrite Hhw, mode_of_app. apply last_Some in Hlast as [l0 ->]. by rewrite mode_of_app, Z.eqb_refl.
Qed.

Lemma timer_added_to_masked_device_witness :
  exists s1 s2 cycles, timer_softirq_handler quiet 0 300 310 demo_ce = Ok s1 /\
    clockevent_timer_add (Some 3) 60 0 400 s1 = Ok s2 /\ queued s2 0 3 /\
    hw s2 = hw s1 ++ [HwValue 10 cycles] /\ mode_of 10 (hw s2) = Some MODE_SHUTDOWN.
Proof.
  eexists. destruct (timer_added_to_masked_device quiet demo_ce 0 demo_cpu 300 310
    (match timer_softirq_handler quiet 0 300 310 demo_ce with Ok s => s | _ => demo_ce end)
    (PerCpu [10] [] (Some 10)) 10 demo_dev 3 (Timer 0 (Some 8) 83) 8 60 400) as (s2 & cy & H);
    [exact demo_ce_wf|reflexivity|reflexivity|vm_compute; reflexivity|vm_compute; reflexivity|reflexivity|
     reflexivity|vm_compute; reflexivity|reflexivity|reflexivity|vm_compute; reflexivity|reflexivity|lia|].
  exists s2, cy. split; [vm_compute; reflexivity|]. exact H.
Defined.
End Clockevent.
