(* ===== verification/Sched.v ===== *)
(** * The round-robin scheduler (kernel/task/scheduler/rr.c) and the
    scheduling core of kernel/task/core.c

    Every CPU has a run queue with a counter, a current and an idle task and
    a migration list.  A queue is the sequence of its task identities, first
    node first.  Interrupts are off in every operation, so an operation is
    one step; the migration handshake is modelled with the remote CPU's
    interrupt handler running while the local CPU waits.  Queueing a node that
    is linked already is a [Fault]: ListHead.v shows that it loses the nodes
    behind it. *)

From S2P Require Import Prelude.

Local Open Scope Z_scope.

(** ** Model *)

(** task/types.h: task_state *)
Inductive task_state := TASK_RUNNING | TASK_INTERRUPTIBLE | TASK_UNINTERRUPTIBLE | TASK_STOPPED | TASK_ZOMBIE.

#[export] Instance task_state_eq_dec : EqDecision task_state.
Proof. solve_decision. Defined.

(** task/types.h: sched_data without the list node *)
Record sched_data := SchedData {
  time_slice_ns : Z;
  exec_start_ns : Z;
  exec_ns : Z;
  prio : Z
}.

(** task/types.h: the fields of task_struct the scheduler uses *)
Record task_struct := Task { sched : sched_data; state : task_state }.

(** asm/smp.h: the fields of per_cpu the scheduler uses, with the run queue of
    rr.c's per_cpu_sched *)
Record per_cpu := PerCpu {
  run_queue : list Z;
  nr_running : Z;
  need_sched : bool;
  current : option Z;
  idle : Z;
  migration : list Z
}.

(** The system: CPUs, tasks, the migration words, the global sleep queue and
    the timer requests made, oldest first, as (cpu, ns). *)
Record sys := Sys {
  cpus : gmap Z per_cpu;
  tasks : gmap Z task_struct;
  infos : gmap Z Z;
  sleep_queue : list Z;
  timer_reqs : list (Z * Z)
}.

Definition set_cpu (s : sys) (c : Z) (p : per_cpu) : sys :=
  Sys (<[c := p]> (cpus s)) (tasks s) (infos s) (sleep_queue s) (timer_reqs s).
Definition set_task (s : sys) (t : Z) (r : task_struct) : sys :=
  Sys (cpus s) (<[t := r]> (tasks s)) (infos s) (sleep_queue s) (timer_reqs s).
Definition set_info (s : sys) (c v : Z) : sys :=
  Sys (cpus s) (tasks s) (<[c := v]> (infos s)) (sleep_queue s) (timer_reqs s).
Definition set_sleep (s : sys) (l : list Z) : sys :=
  Sys (cpus s) (tasks s) (infos s) l (timer_reqs s).
Definition set_queue (p : per_cpu) (q : list Z) (n : Z) : per_cpu :=
  PerCpu q (u64 n) (need_sched p) (current p) (idle p) (migration p).
Definition set_current (p : per_cpu) (t : option Z) : per_cpu :=
  PerCpu (run_queue p) (nr_running p) (need_sched p) t (idle p) (migration p).
Definition set_migration (p : per_cpu) (l : list Z) : per_cpu :=
  PerCpu (run_queue p) (nr_running p) (need_sched p) (current p) (idle p) l.
Definition set_need_sched (p : per_cpu) : per_cpu :=
  PerCpu (run_queue p) (nr_running p) true (current p) (idle p) (migration p).
Definition set_sched (r : task_struct) (d : sched_data) : task_struct := Task d (state r).
Definition set_state (r : task_struct) (st : task_state) : task_struct := Task (sched r) st.

Definition TIME_SLICE_MS : Z := 10.
Definition NSEC_PER_MSEC : Z := 1000000.
Definition SLICE : Z := u64 (TIME_SLICE_MS * NSEC_PER_MSEC).

(** The task's list node is in some queue. *)
Definition linked (t : Z) (s : sys) : bool :=
  bool_decide (map_Exists (fun _ p => t ∈ run_queue p \/ t ∈ migration p) (cpus s)).

(** [list_del_init(&task->sched.list)]; an unlinked node stays as it is *)
Definition unlink (t : Z) (s : sys) : sys :=
  Sys ((fun p => PerCpu (filter (fun x => x <> t) (run_queue p)) (nr_running p) (need_sched p) (current p)
                   (idle p) (filter (fun x => x <> t) (migration p))) <$> cpus s)
      (tasks s) (infos s) (sleep_queue s) (timer_reqs s).

(** rr.c: rr_enqueue.  Initialising the node of a task that is still linked
    leaves its neighbours pointing at it: a [Fault]. *)
Definition rr_enqueue (cpu t : Z) (s : sys) : outcome sys :=
  p ← deref (cpus s !! cpu);
  if linked t s then Fault
  else
    r ← deref (tasks s !! t);
    let s := set_task s t (set_sched r (SchedData SLICE 0 0 (prio (sched r)))) in
    Ok (set_cpu s cpu (set_queue p (run_queue p ++ [t]) (nr_running p + 1))).

(** rr.c: rr_dequeue *)
Definition rr_dequeue (cpu t : Z) (s : sys) : outcome sys :=
  let s := unlink t s in
  p ← deref (cpus s !! cpu);
  Ok (set_cpu s cpu (set_queue p (run_queue p) (nr_running p - 1))).

(** rr.c: rr_pick_next *)
Definition rr_pick_next (cpu : Z) (s : sys) : outcome (Z * sys) :=
  p ← deref (cpus s !! cpu);
  match run_queue p with
  | [] => Ok (idle p, s)
  | next :: q =>
      r ← deref (tasks s !! next);
      let s := set_cpu s cpu (set_queue p q (nr_running p - 1)) in
      let d := sched r in
      Ok (next, set_task s next (set_sched r (SchedData (time_slice_ns d) 0 0 (prio d))))
  end.

(** rr.c: rr_dequeue_tail; None is NULL *)
Definition rr_dequeue_tail (cpu : Z) (s : sys) : outcome (option Z * sys) :=
  p ← deref (cpus s !! cpu);
  match last (run_queue p) with
  | None => Ok (None, s)
  | Some t =>
      Ok (Some t, set_cpu s cpu (set_queue p (take (length (run_queue p) - 1) (run_queue p)) (nr_running p - 1)))
  end.

(** rr.c: rr_set_prio *)
Definition rr_set_prio (t pr : Z) (s : sys) : outcome sys :=
  r ← deref (tasks s !! t);
  let d := sched r in
  Ok (set_task s t (set_sched r (SchedData (time_slice_ns d) (exec_start_ns d) (exec_ns d) pr))).

(** rr.c: rr_update_tick *)
Definition rr_update_tick (cpu t ns : Z) (s : sys) : outcome sys :=
  r ← deref (tasks s !! t);
  let d := sched r in
  let e := u64 (exec_ns d + ns) in
  if time_slice_ns d <=? e then
    p ← deref (cpus s !! cpu);
    let s := set_task s t (set_sched r (SchedData (time_slice_ns d) (exec_start_ns d) 0 (prio d))) in
    Ok (set_cpu s cpu (set_need_sched p))
  else Ok (set_task s t (set_sched r (SchedData (time_slice_ns d) (exec_start_ns d) e (prio d)))).

(** rr.c: rr_sched_init *)
Definition rr_sched_init (t : Z) (s : sys) : outcome sys :=
  if linked t s then Fault
  else
    r ← deref (tasks s !! t);
    Ok (set_task s t (set_sched r (SchedData SLICE 0 0 0))).

(** rr.c: rr_set_next_timer; the request to the timer framework is logged *)
Definition rr_set_next_timer (cpu t : Z) (s : sys) : outcome sys :=
  r ← deref (tasks s !! t);
  if exec_ns (sched r) =? 0 then
    Ok (Sys (cpus s) (tasks s) (infos s) (sleep_queue s) (timer_reqs s ++ [(cpu, time_slice_ns (sched r))]))
  else Ok s.

(** rr.c: rr_init on one CPU *)
Definition rr_init (cpu : Z) (s : sys) : outcome sys :=
  p ← deref (cpus s !! cpu);
  s ← rr_sched_init (idle p) s;
  Ok (set_cpu s cpu (PerCpu [] (nr_running p) (need_sched p) (current p) (idle p) (migration p))).

(** core.c: MIG_STATE_PACK, MIG_STATE_SENDER, MIG_STATE_ACTIVE *)
Definition MIG_STATE_PACK (sender : Z) (active : bool) : Z :=
  Z.lor (u64 (Z.shiftl sender 1)) (if active then 1 else 0).
Definition MIG_STATE_SENDER (st : Z) : Z := Z.shiftr (u32 st) 1.
Definition MIG_STATE_ACTIVE (st : Z) : bool := Z.testbit st 0.
Definition MIG_FREE : Z := MIG_STATE_PACK 0xFFFFFFFF false.

(** [atomic_compare_exchange_strong] on a migration word *)
Definition cas_info (s : sys) (c expected desired : Z) : bool * sys :=
  if decide (infos s !! c = Some expected) then (true, set_info s c desired) else (false, s).

(** core.c: task_do_migration, taking tasks off the tail; a NULL task is
    dereferenced by the message *)
Definition take_tail (cpu : Z) (n : nat) (s : sys) : outcome (list Z * sys) :=
  for_up n 0
    (fun _ '(l, s) =>
       '(t, s) ← rr_dequeue_tail cpu s;
       t ← deref t;
       Ok (l ++ [t], s)) ([], s).

(** core.c: task_do_migration on CPU [local] *)
Definition task_do_migration (local : Z) (s : sys) : outcome sys :=
  old ← deref (infos s !! local);
  if negb (MIG_STATE_ACTIVE old) then Ok s
  else
    let sender := MIG_STATE_SENDER old in
    p ← deref (cpus s !! local);
    let nr := u32 (nr_running p) in
    if nr <=? 2 then Ok (cas_info s local old MIG_FREE).2
    else
      let take := Z.shiftr nr 1 in
      '(l, s) ← take_tail local (Z.to_nat take) s;
      q ← deref (cpus s !! sender);
      let s := set_cpu s sender (set_migration q (migration q ++ l)) in
      Ok (cas_info s local old MIG_FREE).2.

(** core.c: task_try_migration, the two CPUs with the most tasks; the CPU
    0xFFFFFFFF stands for none *)
Definition NO_CPU : Z := 0xFFFFFFFF.

Definition consider (local i count : Z) (acc : Z * Z * Z * Z) : Z * Z * Z * Z :=
  let '(best, best_count, second, second_count) := acc in
  if i =? local then acc
  else if u32 count <=? 2 then acc
  else if best_count <? u32 count then (i, u32 count, best, best_count)
  else if second_count <? u32 count then (best, best_count, i, u32 count)
  else acc.

Definition busiest (local max_cpu : Z) (s : sys) : outcome (Z * Z) :=
  r ← for_up (Z.to_nat max_cpu) 0
        (fun i acc => p ← deref (cpus s !! i); Ok (consider local i (nr_running p) acc))
        (NO_CPU, 0, NO_CPU, 0);
  let '(best, _, second, _) := r in Ok (best, second).

(** core.c: task_try_migration, draining the migration list of this CPU *)
Definition drain (local : Z) (s : sys) : outcome sys :=
  p ← deref (cpus s !! local);
  for_each (migration p) (fun t s => rr_enqueue local t (unlink t s)) s.

(** core.c: task_try_migration, one attempt; the answer says whether the
    target could be claimed *)
Definition migrate_from (local target : Z) (s : sys) : outcome (bool * sys) :=
  if target =? NO_CPU then Ok (false, s)
  else
    _ ← deref (infos s !! target);
    let '(claimed, s) := cas_info s target MIG_FREE (MIG_STATE_PACK local true) in
    if claimed : bool then
      s ← task_do_migration target s;
      s ← drain local s;
      Ok (true, s)
    else Ok (false, s).

(** core.c: task_try_migration *)
Definition task_try_migration (local max_cpu : Z) (s : sys) : outcome sys :=
  '(best, second) ← busiest local max_cpu s;
  '(done, s) ← migrate_from local best s;
  if done : bool then Ok s
  else '(_, s) ← migrate_from local second s; Ok s.

(** core.c: task_set_next_timer *)
Definition task_set_next_timer (cpu : Z) (s : sys) : outcome sys :=
  p ← deref (cpus s !! cpu);
  t ← deref (current p);
  rr_set_next_timer cpu t s.

(** core.c: task_sched, without the switch of the register state *)
Definition task_sched (cpu max_cpu : Z) (s : sys) : outcome sys :=
  p ← deref (cpus s !! cpu);
  match current p with
  | None => Ok s
  | Some prev =>
      r ← deref (tasks s !! prev);
      s ← (if bool_decide (state r = TASK_RUNNING) && negb (prev =? idle p)
           then rr_enqueue cpu prev s else Ok s);
      '(next, s) ← rr_pick_next cpu s;
      s ← (if next =? idle p then task_try_migration cpu max_cpu s else Ok s);
      if prev =? next then
        r ← deref (tasks s !! prev);
        let d := sched r in
        task_set_next_timer cpu
          (set_task s prev (set_sched r (SchedData (time_slice_ns d) (exec_start_ns d) 0 (prio d))))
      else
        p ← deref (cpus s !! cpu);
        task_set_next_timer cpu (set_cpu s cpu (set_current p (Some next)))
  end.

(** core.c: task_exit, the removal from the run queue and the new state *)
Definition task_exit_leave (cpu : Z) (s : sys) : outcome sys :=
  p ← deref (cpus s !! cpu);
  match current p with
  | None => Panic
  | Some t =>
      s ← rr_dequeue cpu t s;
      r ← deref (tasks s !! t);
      Ok (set_task s t (set_state r TASK_ZOMBIE))
  end.

(** core.c: task_sleep.  Adding a node that is already in the sleep queue
    breaks the list. *)
Definition task_sleep (cpu : Z) (interruptible : bool) (s : sys) : outcome (option Z * sys) :=
  p ← deref (cpus s !! cpu);
  match current p with
  | None => Ok (None, s)
  | Some t =>
      r ← deref (tasks s !! t);
      let s := set_task s t (set_state r (if interruptible then TASK_INTERRUPTIBLE else TASK_UNINTERRUPTIBLE)) in
      if decide (t ∈ sleep_queue s) then Fault
      else
        let s := set_sleep s (sleep_queue s ++ [t]) in
        Ok (Some t, set_cpu s cpu (set_need_sched p))
  end.

(** core.c: task_wakeup, on CPU [cpu] *)
Definition task_wakeup (cpu t : Z) (s : sys) : outcome sys :=
  r ← deref (tasks s !! t);
  if bool_decide (state r <> TASK_INTERRUPTIBLE) && bool_decide (state r <> TASK_UNINTERRUPTIBLE) then Ok s
  else
    let s := set_sleep s (filter (fun x => x <> t) (sleep_queue s)) in
    rr_enqueue cpu t (set_task s t (set_state r TASK_RUNNING)).

(** core.c: task_clock_event_handle *)
Definition task_clock_event_handle (cpu : Z) (s : sys) : outcome sys :=
  p ← deref (cpus s !! cpu);
  Ok (set_cpu s cpu (set_need_sched p)).

(** core.c: task_add_current_tick *)
Definition task_add_current_tick (cpu tick : Z) (s : sys) : outcome sys :=
  p ← deref (cpus s !! cpu);
  match current p with
  | None => Ok s
  | Some t => rr_update_tick cpu t tick s
  end.

(** core.c: task_migration_init, with the heap block given *)
Definition task_migration_init (max_cpu : Z) (s : sys) : sys :=
  for_pure (Z.to_nat max_cpu) 0 (fun i s => set_info s i MIG_FREE) s.

(** ** Invariant *)

(** Task [t] is in the run queue or the migration list of CPU [c]. *)
Definition on_cpu (s : sys) (c t : Z) : Prop :=
  exists p, cpus s !! c = Some p /\ (t ∈ run_queue p \/ t ∈ migration p).

(** The run queues and migration lists hold distinct tasks that exist, no task
    is on two CPUs, no idle task is queued.  The counter of CPU [c] is
    [extra c] above the length of its queue: [task_init] creates the idle
    thread with [task_create_kernel_thread], which counts it, before [rr_init]
    empties the queue, and nothing takes it back, so a CPU starts with
    [extra c = 1] ([boot_counts_idle] below). *)
Record sched_wf (extra : Z -> Z) (s : sys) : Prop := {
  sw_nodup : forall c p, cpus s !! c = Some p -> NoDup (run_queue p ++ migration p);
  sw_count : forall c p, cpus s !! c = Some p -> nr_running p = Z.of_nat (length (run_queue p)) + extra c;
  sw_extra : forall c, 0 <= extra c <= 1;
  sw_one : forall c c' t, on_cpu s c t -> on_cpu s c' t -> c = c';
  sw_task : forall c t, on_cpu s c t -> is_Some (tasks s !! t);
  sw_idle : forall c p c', cpus s !! c = Some p -> ~ on_cpu s c' (idle p);
  sw_size : Z.of_nat (size (tasks s)) < 2 ^ 31
}.
Arguments sw_nodup {extra} s _ _ _ _.
Arguments sw_count {extra} s _ _ _ _.
Arguments sw_extra {extra} s _ _.
Arguments sw_one {extra} s _ _ _ _ _ _.
Arguments sw_task {extra} s _ _ _ _.
Arguments sw_idle {extra} s _ _ _ _ _ _.
Arguments sw_size {extra} s _.

(** The counters are the lengths of the queues. *)
Definition exact (c : Z) : Z := 0.

Lemma linked_false t s : linked t s = false <-> forall c, ~ on_cpu s c t.
Proof.
  unfold linked. rewrite bool_decide_eq_false. split.
  - intros Hn c (p & E & Hp). apply Hn. exists c, p. done.
  - intros Hn (c & p & E & Hp). apply (Hn c). by exists p.
Qed.

Lemma linked_true t s c : on_cpu s c t -> linked t s = true.
Proof. intros (p & E & Hp). apply bool_decide_eq_true. exists c, p. done. Qed.

(** A list of distinct existing tasks is not longer than the task table. *)
Lemma tasks_bound (tk : gmap Z task_struct) (l : list Z) :
  NoDup l -> (forall t, t ∈ l -> is_Some (tk !! t)) -> (length l <= size tk)%nat.
Proof.
  intros Hn He. rewrite <- (size_list_to_set (C := gset Z) l Hn), <- (size_dom (D := gset Z) tk).
  apply subseteq_size. intros t Ht. apply elem_of_list_to_set in Ht. apply elem_of_dom. by apply He.
Qed.

(** The invariant as a check. *)
Definition queued (p : per_cpu) : list Z := run_queue p ++ migration p.

Definition sched_wfb (extra : Z -> Z) (s : sys) : bool :=
  bool_decide (map_Forall (fun c p => NoDup (queued p) /\ nr_running p = Z.of_nat (length (run_queue p)) + extra c /\
                                      Forall (fun t => is_Some (tasks s !! t)) (queued p)) (cpus s)) &&
  bool_decide (map_Forall (fun c p => map_Forall (fun c' q => idle p ∉ queued q /\
                                      (c = c' \/ Forall (fun t => t ∉ queued q) (queued p))) (cpus s)) (cpus s)) &&
  (Z.of_nat (size (tasks s)) <? 2 ^ 31).

Lemma sched_wfb_ok extra s : (forall c, 0 <= extra c <= 1) -> sched_wfb extra s = true -> sched_wf extra s.
Proof.
  intros He. unfold sched_wfb. rewrite !andb_true_iff, !bool_decide_eq_true. intros [[H1 H2] H3].
  assert (forall c t, on_cpu s c t <-> exists p, cpus s !! c = Some p /\ t ∈ queued p) as Hon.
  { intros c t. unfold on_cpu, queued. by setoid_rewrite elem_of_app. }
  split.
  - intros c p E. by destruct (H1 c p E).
  - intros c p E. by destruct (H1 c p E) as (_ & ? & _).
  - done.
  - intros c c' t (p & E & Hp)%Hon (p' & E' & Hp')%Hon.
    destruct (H2 c p E c' p' E') as [_ [?|Hf]]; [done|]. rewrite Forall_forall in Hf. by destruct (Hf t Hp).
  - intros c t (p & E & Hp)%Hon. destruct (H1 c p E) as (_ & _ & Hf). rewrite Forall_forall in Hf. by apply Hf.
  - intros c p c' E (q & Eq & Hq)%Hon. by destruct (H2 c p E c' q Eq) as [? _].
  - by apply Z.ltb_lt.
Qed.

Lemma dom_insert_same {A} (m : gmap Z A) k a : is_Some (m !! k) -> dom (<[k := a]> m) = dom m.
Proof. intros H%elem_of_dom. rewrite dom_insert_L. set_solver. Qed.

Lemma u64_small x : 0 <= x < 2 ^ 64 -> u64 x = x.
Proof. intros. by apply wrap_small. Qed.

Section counted.
Context {extra : Z -> Z}.

Lemma queue_bound s c p : sched_wf extra s -> cpus s !! c = Some p ->
  0 <= extra c <= 1 /\ Z.of_nat (length (run_queue p)) < 2 ^ 31 /\ nr_running p = Z.of_nat (length (run_queue p)) + extra c.
Proof.
  intros Hw E. split; [by apply (sw_extra s Hw)|]. split; [|exact (sw_count s Hw c p E)].
  pose proof (sw_nodup s Hw c p E) as Hn. apply NoDup_app in Hn as [Hn _].
  pose proof (tasks_bound (tasks s) (run_queue p) Hn) as Hb.
  assert (forall t, t ∈ run_queue p -> is_Some (tasks s !! t)) as He.
  { intros t Ht. apply (sw_task s Hw c). exists p. auto. }
  specialize (Hb He). pose proof (sw_size s Hw) as Hs. lia.
Qed.

(** A task outside every queue that may be put on one. *)
Definition free_task (s : sys) (t : Z) : Prop :=
  (forall c, ~ on_cpu s c t) /\ is_Some (tasks s !! t) /\
  forall c p, cpus s !! c = Some p -> idle p <> t.

(** Replacing one CPU's record keeps the invariant when its queues hold tasks
    it had before or free ones. *)
Lemma sched_wf_update s s' c p p' :
  sched_wf extra s -> cpus s !! c = Some p -> cpus s' = <[c := p']> (cpus s) ->
  dom (tasks s') = dom (tasks s) -> idle p' = idle p ->
  NoDup (run_queue p' ++ migration p') ->
  nr_running p' = Z.of_nat (length (run_queue p')) + extra c ->
  (forall t, t ∈ run_queue p' \/ t ∈ migration p' -> on_cpu s c t \/ free_task s t) ->
  sched_wf extra s'.
Proof.
  intros Hw E Ec Ed Ei Hn Hc Ht.
  assert (forall t, is_Some (tasks s !! t) -> is_Some (tasks s' !! t)) as Hs.
  { intros t. by rewrite <- !elem_of_dom, Ed. }
  assert (forall c' t, on_cpu s' c' t -> on_cpu s c' t \/ (c' = c /\ free_task s t)) as Hon.
  { intros c' t (q & Eq & Hq). rewrite Ec, lookup_insert in Eq. case_decide as Hd.
    - subst c'. injection Eq as <-. destruct (Ht t Hq); auto.
    - left. by exists q. }
  assert (forall c' q, cpus s' !! c' = Some q -> exists q0, cpus s !! c' = Some q0 /\ idle q = idle q0) as Hq.
  { intros c' q Eq. rewrite Ec, lookup_insert in Eq. case_decide; [|by eauto]. subst. injection Eq as <-. by eauto. }
  split.
  - intros c' q Eq. rewrite Ec, lookup_insert in Eq. case_decide; [by injection Eq as <-|by eapply sw_nodup].
  - intros c' q Eq. rewrite Ec, lookup_insert in Eq. case_decide; [subst c'; by injection Eq as <-|by eapply sw_count].
  - exact (sw_extra s Hw).
  - intros c1 c2 t H1 H2. apply Hon in H1 as [H1|[-> (F1 & _)]]; apply Hon in H2 as [H2|[-> (F2 & _)]];
      [by eapply sw_one|exfalso; by eapply F2|exfalso; by eapply F1|done].
  - intros c' t H. apply Hs. apply Hon in H as [H|[_ (_ & H & _)]]; [by eapply sw_task|done].
  - intros c' q c2 Eq H. destruct (Hq c' q Eq) as (q0 & E0 & Hi). rewrite Hi in H.
    apply Hon in H as [H|[_ (_ & _ & H)]]; [by eapply sw_idle|by eapply H].
  - pose proof (sw_size s Hw) as Hz. rewrite <- (size_dom (D := gset Z)) in Hz |- *. by rewrite Ed.
Qed.

(** Changing a task's record keeps the invariant. *)
Lemma sched_wf_tasks s s' :
  sched_wf extra s -> cpus s' = cpus s -> dom (tasks s') = dom (tasks s) -> sched_wf extra s'.
Proof.
  intros Hw Ec Ed.
  assert (forall c t, on_cpu s' c t <-> on_cpu s c t) as Hon by (intros; unfold on_cpu; by rewrite Ec).
  split.
  - intros c p E. rewrite Ec in E. by eapply sw_nodup.
  - intros c p E. rewrite Ec in E. by eapply sw_count.
  - exact (sw_extra s Hw).
  - intros c c' t H1 H2. apply Hon in H1, H2. by eapply sw_one.
  - intros c t H. apply elem_of_dom. rewrite Ed. apply elem_of_dom. apply Hon in H. by eapply sw_task.
  - intros c p c' E H. rewrite Ec in E. apply Hon in H. by eapply sw_idle.
  - pose proof (sw_size s Hw) as Hz. rewrite <- (size_dom (D := gset Z)) in Hz |- *. by rewrite Ed.
Qed.

(** ** The run queue *)

Definition sched_reset (r : task_struct) : task_struct :=
  set_sched r (SchedData SLICE 0 0 (prio (sched r))).

(** What [rr_enqueue] does to a free task. *)
Lemma rr_enqueue_spec s cpu t p r :
  sched_wf extra s -> cpus s !! cpu = Some p -> tasks s !! t = Some r -> free_task s t ->
  exists s', rr_enqueue cpu t s = Ok s' /\ sched_wf extra s' /\
    cpus s' = <[cpu := PerCpu (run_queue p ++ [t]) (nr_running p + 1) (need_sched p) (current p) (idle p)
                 (migration p)]> (cpus s) /\
    tasks s' = <[t := sched_reset r]> (tasks s) /\
    infos s' = infos s /\ timer_reqs s' = timer_reqs s.
Proof.
  intros Hw E Er (Hf & Hs & Hi). unfold rr_enqueue. rewrite E. cbn [deref mbind outcome_bind].
  rewrite (proj2 (linked_false t s) Hf), Er. cbn [deref mbind outcome_bind].
  destruct (queue_bound s cpu p Hw E) as (Hb & Hz & Hl).
  eexists. split; [done|]. unfold set_cpu, set_task, set_queue. cbn [cpus tasks infos sleep_queue timer_reqs].
  rewrite u64_small by lia. split; [|done].
  eapply (sched_wf_update s _ cpu p); [done|done|done| | | | |]; cbn [cpus tasks run_queue migration nr_running idle].
  - by apply dom_insert_same.
  - done.
  - pose proof (sw_nodup s Hw cpu p E) as Hn.
    assert (t ∉ run_queue p /\ t ∉ migration p) as [H1 H2]
      by (split; intros Hx; apply (Hf cpu); exists p; auto).
    apply NoDup_app in Hn as (N1 & N2 & N3). rewrite !NoDup_app.
    split_and!; [done|set_solver|apply NoDup_singleton|set_solver|done].
  - rewrite length_app. cbn [length]. lia.
  - intros x. rewrite elem_of_app, list_elem_of_singleton. intros [[Hx| ->]|Hx];
      [left; exists p; auto|by right|left; exists p; auto].
Qed.

(** What [rr_pick_next] does with a task waiting. *)
Lemma rr_pick_next_spec s cpu p next q :
  sched_wf extra s -> cpus s !! cpu = Some p -> run_queue p = next :: q ->
  exists r s', tasks s !! next = Some r /\ rr_pick_next cpu s = Ok (next, s') /\ sched_wf extra s' /\
    cpus s' = <[cpu := PerCpu q (nr_running p - 1) (need_sched p) (current p) (idle p) (migration p)]> (cpus s) /\
    tasks s' = <[next := set_sched r (SchedData (time_slice_ns (sched r)) 0 0 (prio (sched r)))]> (tasks s) /\
    infos s' = infos s /\ timer_reqs s' = timer_reqs s.
Proof.
  intros Hw E Eq. destruct (queue_bound s cpu p Hw E) as (Hb & Hz & Hl).
  assert (on_cpu s cpu next) as Hon by (exists p; rewrite Eq; set_solver).
  destruct (sw_task s Hw cpu next Hon) as [r Er]. exists r.
  unfold rr_pick_next. rewrite E. cbn [deref mbind outcome_bind]. rewrite Eq, Er. cbn [deref mbind outcome_bind].
  eexists. do 2 (split; [done|]). unfold set_cpu, set_task, set_queue. cbn [cpus tasks infos sleep_queue timer_reqs].
  rewrite Eq in Hl, Hz. cbn [length] in Hl, Hz. rewrite u64_small by lia. split; [|done].
  eapply (sched_wf_update s _ cpu p); [done|done|done| | | | |]; cbn [cpus tasks run_queue migration nr_running idle].
  - by apply dom_insert_same.
  - done.
  - pose proof (sw_nodup s Hw cpu p E) as Hn. rewrite Eq in Hn. by apply NoDup_cons in Hn as [_ Hn].
  - lia.
  - intros x Hx. left. exists p. rewrite Eq. set_solver.
Qed.

Lemma rr_pick_next_idle s cpu p :
  cpus s !! cpu = Some p -> run_queue p = [] -> rr_pick_next cpu s = Ok (idle p, s).
Proof using. intros E Eq. unfold rr_pick_next. rewrite E. cbn [deref mbind outcome_bind]. by rewrite Eq. Qed.

(** After a pick the task is free. *)
Lemma picked_free s cpu p next q s' :
  sched_wf extra s -> cpus s !! cpu = Some p -> run_queue p = next :: q ->
  rr_pick_next cpu s = Ok (next, s') -> free_task s' next.
Proof.
  intros Hw E Eq Hp. destruct (rr_pick_next_spec s cpu p next q Hw E Eq) as (r & s1 & Er & Hp' & Hw' & Ec & Et & _).
  rewrite Hp in Hp'. injection Hp' as <-.
  assert (on_cpu s cpu next) as Hon by (exists p; rewrite Eq; set_solver).
  pose proof (sw_nodup s Hw cpu p E) as Hn. rewrite Eq in Hn. apply NoDup_cons in Hn as [Hn _].
  split_and!.
  - intros c (p' & E' & Hx). rewrite Ec, lookup_insert in E'. case_decide as Hd.
    + injection E' as <-. cbn in Hx. set_solver.
    + apply Hd. apply (sw_one s Hw cpu c next Hon). by exists p'.
  - rewrite Et, lookup_insert_eq. by eauto.
  - intros c p' E' Hi. rewrite Ec, lookup_insert in E'.
    case_decide; [injection E' as <-|]; cbn in Hi; subst next; by eapply (sw_idle s Hw).
Qed.

(** ** Round-robin order *)

(** Runs of the scheduler's queue operations on all CPUs, with the log of the
    picks, as (cpu, task). *)
Inductive rr_run : sys -> list (Z * Z) -> sys -> Prop :=
| rr_run_start s : rr_run s [] s
| rr_run_enqueue s log s1 s2 c t :
    rr_run s log s1 -> free_task s1 t -> rr_enqueue c t s1 = Ok s2 -> rr_run s log s2
| rr_run_pick s log s1 s2 c t :
    rr_run s log s1 -> rr_pick_next c s1 = Ok (t, s2) -> rr_run s (log ++ [(c, t)]) s2.

(** The tasks CPU [c] picked. *)
Definition picks (c : Z) (log : list (Z * Z)) : list Z :=
  snd <$> filter (fun e => e.1 = c) log.

Lemma picks_snoc c log c' t :
  picks c (log ++ [(c', t)]) = picks c log ++ (if decide (c' = c) then [t] else []).
Proof using.
  unfold picks. rewrite filter_app, fmap_app. f_equal. case_decide.
  - by rewrite filter_cons_True, filter_nil.
  - by rewrite filter_cons_False, filter_nil.
Qed.

(** The invariant of a run: as long as CPU [c] has not picked more often than
    its first queue was long, the picks and the queue are that queue and new
    tasks behind it. *)
Lemma rr_run_inv s log s' c p :
  sched_wf extra s -> cpus s !! c = Some p -> rr_run s log s' ->
  sched_wf extra s' /\ exists p', cpus s' !! c = Some p' /\
    ((exists new, picks c log ++ run_queue p' = run_queue p ++ new) \/
     (exists new, picks c log = run_queue p ++ new)).
Proof.
  intros Hw E Hr. induction Hr as [s|s log s1 s2 c' t Hr IH Hf He|s log s1 s2 c' t Hr IH He].
  - split; [done|]. exists p. split; [done|]. left. exists []. by rewrite app_nil_r.
  - destruct (IH Hw E) as (Hw1 & p1 & E1 & Hq). clear IH. destruct Hf as (Hf & [r Er] & Hi).
    assert (exists q, cpus s1 !! c' = Some q) as [q Eq].
    { unfold rr_enqueue in He. destruct (cpus s1 !! c'); [by eauto|done]. }
    destruct (rr_enqueue_spec s1 c' t q r) as (s3 & He' & Hw' & Ec & _); [done|done|done|by split_and!|].
    rewrite He in He'. injection He' as <-. split; [done|]. rewrite Ec, lookup_insert. case_decide.
    + subst c'. rewrite E1 in Eq. injection Eq as <-. eexists. split; [done|]. cbn [run_queue].
      destruct Hq as [[new Hn]|[new Hn]]; [left|right; by eauto].
      exists (new ++ [t]). by rewrite app_assoc, Hn, <- app_assoc.
    + by eauto.
  - destruct (IH Hw E) as (Hw1 & p1 & E1 & Hq). clear IH.
    assert (exists q, cpus s1 !! c' = Some q) as [q Eq].
    { unfold rr_pick_next in He. destruct (cpus s1 !! c'); [by eauto|done]. }
    rewrite picks_snoc. destruct (run_queue q) as [|n qs] eqn:Erq.
    + rewrite (rr_pick_next_idle s1 c' q) in He by done. injection He as <- <-. split; [done|].
      exists p1. split; [done|]. case_decide; [|by rewrite app_nil_r].
      subst c'. rewrite E1 in Eq. injection Eq as <-. rewrite Erq, app_nil_r in Hq. right.
      destruct Hq as [[new Hn]|[new Hn]]; rewrite Hn, <- app_assoc; by eauto.
    + destruct (rr_pick_next_spec s1 c' q n qs) as (r & s3 & _ & He' & Hw' & Ec & _); [done..|].
      rewrite He in He'. injection He' as -> <-. split; [done|]. rewrite Ec, lookup_insert. case_decide.
      * subst c'. rewrite E1 in Eq. injection Eq as <-. eexists. split; [done|]. cbn [run_queue].
        destruct Hq as [[new Hn]|[new Hn]]; [left|right].
        -- exists new. by rewrite <- app_assoc, <- Hn, Erq.
        -- rewrite Hn, <- app_assoc. by eauto.
      * rewrite app_nil_r. by eauto.
Qed.

(** C34: The round-robin queue is served in order and nobody starves: in every
    run of enqueues and picks on any CPUs, in any interleaving, the first picks
    of a CPU are the tasks that were in its queue, in queue order; the task at
    position i is picked by the (i+1)-th pick.  Picking never fails, and it
    answers the idle task only when the queue is empty. *)
Theorem rr_fifo s log s' c p :
  sched_wf extra s -> cpus s !! c = Some p -> rr_run s log s' ->
  take (length (run_queue p)) (picks c log) = take (length (picks c log)) (run_queue p) /\
  sched_wf extra s' /\
  exists p' t s'', cpus s' !! c = Some p' /\ rr_pick_next c s' = Ok (t, s'') /\
    (t = idle p' <-> run_queue p' = []).
Proof.
  intros Hw E Hr. destruct (rr_run_inv s log s' c p Hw E Hr) as (Hw' & p' & E' & Hq).
  split; [|split; [done|]].
  - destruct Hq as [[new Hn]|[new Hn]].
    + assert (take (length (run_queue p)) (take (length (picks c log)) (picks c log ++ run_queue p')) =
              take (length (run_queue p)) (take (length (picks c log)) (run_queue p ++ new))) as H by by rewrite Hn.
      rewrite (take_app_length (picks c log)), take_take, Nat.min_comm, <- take_take, take_app_length in H.
      exact H.
    + rewrite Hn, take_app_length, take_ge by (rewrite length_app; lia). done.
  - exists p'. destruct (run_queue p') as [|n q] eqn:Eq.
    + exists (idle p'), s'. split_and!; [done|by apply rr_pick_next_idle|done].
    + destruct (rr_pick_next_spec s' c p' n q) as (r & s3 & _ & He & _); [done..|].
      exists n, s3. split_and!; [done|done|]. split; [|done]. intros ->. exfalso.
      apply (sw_idle s' Hw' c p' c E'). exists p'. rewrite Eq. set_solver.
Qed.

(** ** The scheduler's step *)

Lemma task_set_next_timer_spec s cpu p t r :
  cpus s !! cpu = Some p -> current p = Some t -> tasks s !! t = Some r -> exec_ns (sched r) = 0 ->
  task_set_next_timer cpu s =
    Ok (Sys (cpus s) (tasks s) (infos s) (sleep_queue s) (timer_reqs s ++ [(cpu, time_slice_ns (sched r))])).
Proof using.
  intros E Ec Er Ex. unfold task_set_next_timer, rr_set_next_timer.
  rewrite E. cbn [deref mbind outcome_bind]. rewrite Ec. cbn [deref mbind outcome_bind].
  rewrite Er. cbn [deref mbind outcome_bind]. by rewrite Ex.
Qed.

(** Changing only the current task or the reschedule flag of a CPU. *)
Definition same_queues (p p' : per_cpu) : Prop :=
  run_queue p' = run_queue p /\ migration p' = migration p /\ nr_running p' = nr_running p /\ idle p' = idle p.

Lemma same_queues_wf s s' cpu p p' :
  sched_wf extra s -> cpus s !! cpu = Some p -> cpus s' = <[cpu := p']> (cpus s) -> same_queues p p' ->
  dom (tasks s') = dom (tasks s) -> sched_wf extra s'.
Proof.
  intros Hw E Ec (H1 & H2 & H3 & H4) Ed. eapply (sched_wf_update s s' cpu p); [done..| | |]; rewrite ?H1, ?H2, ?H3.
  - exact (sw_nodup s Hw cpu p E).
  - exact (sw_count s Hw cpu p E).
  - intros x Hx. left. by exists p.
Qed.

Lemma same_queues_free s s' cpu p p' x :
  free_task s x -> cpus s !! cpu = Some p -> cpus s' = <[cpu := p']> (cpus s) -> same_queues p p' ->
  dom (tasks s') = dom (tasks s) -> free_task s' x.
Proof using.
  intros (F1 & F2 & F3) E Ec (H1 & H2 & H3 & H4) Ed. split_and!.
  - intros c (q & Eq & Hq). apply (F1 c). rewrite Ec, lookup_insert in Eq. case_decide.
    + subst c. injection Eq as <-. exists p. by rewrite <- H1, <- H2.
    + by exists q.
  - apply elem_of_dom. rewrite Ed. by apply elem_of_dom.
  - intros c q Eq. rewrite Ec, lookup_insert in Eq. case_decide; [|by eauto].
    subst c. injection Eq as <-. rewrite H4. exact (F3 cpu p E).
Qed.

(** The first half of [task_sched]: the current task joins the queue and the
    first of the queue leaves it. *)
Lemma rotate_spec s cpu p t r next q :
  sched_wf extra s -> cpus s !! cpu = Some p -> tasks s !! t = Some r -> free_task s t ->
  run_queue p ++ [t] = next :: q ->
  exists s1 s2 rn, rr_enqueue cpu t s = Ok s1 /\ rr_pick_next cpu s1 = Ok (next, s2) /\
    sched_wf extra s2 /\ free_task s2 next /\
    cpus s2 = <[cpu := PerCpu q (nr_running p) (need_sched p) (current p) (idle p) (migration p)]> (cpus s) /\
    dom (tasks s2) = dom (tasks s) /\ tasks s2 !! next = Some rn /\
    exec_ns (sched rn) = 0 /\ timer_reqs s2 = timer_reqs s /\
    time_slice_ns (sched rn) = (if decide (next = t) then SLICE else from_option (fun r => time_slice_ns (sched r)) 0 (tasks s !! next)).
Proof.
  intros Hw E Er Hfr Hq.
  destruct (rr_enqueue_spec s cpu t p r) as (s1 & He & Hw1 & Ec1 & Et1 & Ei1 & Eq1); [done..|].
  assert (cpus s1 !! cpu = Some (PerCpu (run_queue p ++ [t]) (nr_running p + 1) (need_sched p) (current p) (idle p)
                 (migration p))) as E1 by by rewrite Ec1, lookup_insert_eq.
  destruct (rr_pick_next_spec s1 cpu _ next q Hw1 E1 Hq) as (rn1 & s2 & Ern1 & Hp2 & Hw2 & Ec2 & Et2 & Ei2 & Eq2).
  pose proof (picked_free s1 cpu _ next q s2 Hw1 E1 Hq Hp2) as Hfr2.
  cbn [nr_running need_sched current idle migration] in Ec2.
  replace (nr_running p + 1 - 1) with (nr_running p) in Ec2 by lia.
  rewrite Ec1, insert_insert_eq in Ec2.
  exists s1, s2, (set_sched rn1 (SchedData (time_slice_ns (sched rn1)) 0 0 (prio (sched rn1)))).
  do 5 (split; [done|]). rewrite Et2, Eq2, Eq1. cbn [sched set_sched exec_ns time_slice_ns].
  rewrite dom_insert_same, Et1, dom_insert_same, lookup_insert_eq by eauto. split_and!; [done..|].
  rewrite Et1, lookup_insert in Ern1. case_decide as Hd.
  - injection Ern1 as <-. by rewrite decide_True by done.
  - by rewrite decide_False, Ern1 by congruence.
Qed.

(** C31: a running task that is rescheduled goes behind the other waiting tasks
    and the first of the queue takes the CPU: with [run_queue ++ [current]] =
    [next :: q], [task_sched] makes [next] current, leaves [q] as the queue with
    the same length, asks for a timer interrupt after the slice of [next] and
    preserves the invariant.  A task alone on its CPU goes on with a full
    slice. *)
Theorem task_sched_rotates s cpu max_cpu p t r next q :
  sched_wf extra s -> cpus s !! cpu = Some p -> current p = Some t -> tasks s !! t = Some r ->
  state r = TASK_RUNNING -> free_task s t -> run_queue p ++ [t] = next :: q ->
  exists s' rn, task_sched cpu max_cpu s = Ok s' /\ sched_wf extra s' /\ free_task s' next /\
    cpus s' = <[cpu := PerCpu q (nr_running p) (need_sched p) (Some next) (idle p) (migration p)]> (cpus s) /\
    tasks s !! next = Some rn /\
    timer_reqs s' = timer_reqs s ++ [(cpu, if decide (next = t) then SLICE else time_slice_ns (sched rn))].
Proof.
  intros Hw E Hcur Er Hst Hfr Hq. unfold task_sched. rewrite E. cbn [deref mbind outcome_bind].
  rewrite Hcur, Er. cbn [deref mbind outcome_bind].
  assert (t =? idle p = false) as ->. { apply Z.eqb_neq. intros Ht. destruct Hfr as (_ & _ & Hi). by apply (Hi cpu p E). }
  rewrite Hst, bool_decide_true by done. cbn [negb andb].
  destruct (rotate_spec s cpu p t r next q) as (s1 & s2 & rn & -> & Hp2 & Hw2 & Hfr2 & Ec2 & Ed2 & En2 & Ex & Eq2 & Es);
    [done..|].
  cbn [mbind outcome_bind]. rewrite Hp2. cbn [mbind outcome_bind].
  assert (next =? idle p = false) as ->.
  { apply Z.eqb_neq. intros ->. destruct Hfr2 as (_ & _ & Hi). eapply (Hi cpu); [by rewrite Ec2, lookup_insert_eq|done]. }
  assert (cpus s2 !! cpu = Some (PerCpu q (nr_running p) (need_sched p) (current p) (idle p) (migration p))) as E2
    by by rewrite Ec2, lookup_insert_eq.
  assert (is_Some (tasks s !! next)) as [rn0 En0] by (apply elem_of_dom; rewrite <- Ed2; apply elem_of_dom; eauto).
  rewrite En0 in Es. cbn [from_option] in Es. cbn [mbind outcome_bind].
  destruct (Z.eqb_spec t next) as [->|Hne].
  - rewrite En2. cbn [deref mbind outcome_bind].
    erewrite task_set_next_timer_spec; [|done|done|by cbn; rewrite lookup_insert_eq|done].
    eexists _, rn0. split; [done|]. cbn [cpus tasks timer_reqs set_task set_sched sched time_slice_ns].
    rewrite Es, Eq2, Ec2, Hcur. rewrite Hcur in E2, Ec2.
    assert (cpus s2 = <[cpu := set_current (PerCpu q (nr_running p) (need_sched p) (Some next) (idle p) (migration p)) (Some next)]>
              (cpus s2)) as Ecc by by rewrite Ec2, insert_insert_eq.
    split_and!; [| |done..].
    + eapply (same_queues_wf s2); [done|done|by rewrite <- Ec2| |apply dom_insert_same; by eauto]. done.
    + eapply (same_queues_free s2); [done|done|by rewrite <- Ec2| |apply dom_insert_same; by eauto]. done.
  - rewrite E2. cbn [deref mbind outcome_bind].
    erewrite task_set_next_timer_spec; [|by cbn; rewrite lookup_insert_eq|done|done|done].
    eexists _, rn0. split; [done|]. cbn [cpus tasks timer_reqs set_cpu]. rewrite Es, Eq2.
    split_and!.
    + by eapply (same_queues_wf s2 _ cpu).
    + by eapply (same_queues_free s2 _ cpu).
    + by rewrite Ec2, insert_insert_eq.
    + done.
    + by rewrite decide_False by done.
Qed.

End counted.

(** ** Task migration *)

Lemma exact_bound s c p : sched_wf exact s -> cpus s !! c = Some p ->
  0 <= nr_running p < 2 ^ 31 /\ Z.of_nat (length (run_queue p)) = nr_running p.
Proof. intros Hw E. destruct (queue_bound s c p Hw E) as (_ & Hb & Hl). unfold exact in Hl. lia. Qed.

Lemma rr_dequeue_tail_spec s cpu p q t :
  cpus s !! cpu = Some p -> run_queue p = q ++ [t] ->
  rr_dequeue_tail cpu s = Ok (Some t, set_cpu s cpu (set_queue p q (nr_running p - 1))).
Proof.
  intros E Eq. unfold rr_dequeue_tail. rewrite E. cbn [deref mbind outcome_bind]. rewrite Eq, last_snoc.
  rewrite length_app. cbn [length]. replace (length q + 1 - 1)%nat with (length q) by lia.
  by rewrite take_app_length.
Qed.

(** Taking [length m] tasks off a queue [q ++ m] gives [m] from its end. *)
Lemma take_tail_spec s cpu p q m :
  cpus s !! cpu = Some p -> run_queue p = q ++ m -> nr_running p = Z.of_nat (length (q ++ m)) ->
  nr_running p < 2 ^ 64 ->
  take_tail cpu (length m) s =
    Ok (reverse m, set_cpu s cpu (PerCpu q (Z.of_nat (length q)) (need_sched p) (current p) (idle p) (migration p))).
Proof.
  intros E Eq Hn Hb. unfold take_tail.
  enough (forall m q i l s p, cpus s !! cpu = Some p -> run_queue p = q ++ m ->
    nr_running p = Z.of_nat (length (q ++ m)) -> nr_running p < 2 ^ 64 ->
    for_up (length m) i (fun _ '(l, s) => '(t, s) ← rr_dequeue_tail cpu s; t ← deref t; Ok (l ++ [t], s)) (l, s) =
    Ok (l ++ reverse m,
        set_cpu s cpu (PerCpu q (Z.of_nat (length q)) (need_sched p) (current p) (idle p) (migration p)))) as H.
  { by rewrite (H m q 0 [] s p). }
  clear. induction m as [|t m IH] using rev_ind; intros q i l s p E Eq Hn Hb.
  - cbn [length for_up reverse]. rewrite app_nil_r in *. unfold set_cpu. rewrite <- Hn, <- Eq.
    destruct p as [pq pn pnd pcur pid pm], s as [cs ts inf sl tr]. cbn in *. by rewrite insert_id.
  - rewrite length_app, Nat.add_comm. cbn [length Nat.add]. rewrite for_up_S.
    rewrite (rr_dequeue_tail_spec s cpu p (q ++ m) t) by (rewrite Eq; [done|by rewrite app_assoc] || done || by rewrite Eq, app_assoc).
    cbn [mbind outcome_bind deref].
    rewrite !length_app in Hn. cbn [length] in Hn.
    rewrite (IH q (i + 1) (l ++ [t]) _ (set_queue p (q ++ m) (nr_running p - 1))).
    + rewrite reverse_snoc, <- app_assoc. cbn [app]. unfold set_cpu, set_queue. cbn [cpus tasks infos sleep_queue timer_reqs].
      by rewrite insert_insert_eq.
    + by cbn; rewrite lookup_insert_eq.
    + done.
    + unfold set_queue. cbn [nr_running]. rewrite u64_small, length_app by lia. lia.
    + unfold set_queue. cbn [nr_running]. rewrite u64_small by lia. lia.
Qed.

Lemma mig_pack_sender c : 0 <= c < 2 ^ 31 ->
  MIG_STATE_SENDER (MIG_STATE_PACK c true) = c /\ MIG_STATE_ACTIVE (MIG_STATE_PACK c true) = true.
Proof.
  intros Hc. unfold MIG_STATE_SENDER, MIG_STATE_ACTIVE, MIG_STATE_PACK.
  rewrite Z.shiftl_mul_pow2, u64_small by lia. change (2 ^ 1) with 2.
  assert (Z.land (c * 2) 1 = 0) as Hl.
  { change 1 with (Z.ones 1) at 1. rewrite Z.land_ones by lia. change (2 ^ 1) with 2. dlia. }
  rewrite <- (Z.lxor_lor _ _ Hl), <- (Z.add_nocarry_lxor _ _ Hl). unfold wrap. rewrite Z.mod_small by lia.
  split.
  - rewrite Z.shiftr_div_pow2 by lia. change (2 ^ 1) with 2. dlia.
  - rewrite Z.bit0_odd. replace (c * 2 + 1) with (2 * c + 1) by lia. apply Z.odd_odd.
Qed.

Lemma cas_info_hit s c old new : infos s !! c = Some old -> cas_info s c old new = (true, set_info s c new).
Proof. intros E. unfold cas_info. by rewrite decide_True by done. Qed.

(** What the target's interrupt handler does with a long queue: the last half
    of it, [m], moves to the sender's migration list, last task first. *)
Lemma task_do_migration_spec s local sender p ps q m :
  sched_wf exact s -> 0 <= sender < 2 ^ 31 -> sender <> local ->
  cpus s !! local = Some p -> cpus s !! sender = Some ps ->
  infos s !! local = Some (MIG_STATE_PACK sender true) ->
  run_queue p = q ++ m -> 2 < nr_running p -> Z.of_nat (length m) = nr_running p / 2 ->
  exists s', task_do_migration local s = Ok s' /\ sched_wf exact s' /\
    cpus s' = <[sender := set_migration ps (migration ps ++ reverse m)]>
                (<[local := PerCpu q (Z.of_nat (length q)) (need_sched p) (current p) (idle p) (migration p)]> (cpus s)) /\
    tasks s' = tasks s /\ infos s' = <[local := MIG_FREE]> (infos s) /\
    sleep_queue s' = sleep_queue s /\ timer_reqs s' = timer_reqs s.
Proof.
  intros Hw Hs Hne E Es Ei Eq Hnr Hm. destruct (mig_pack_sender sender Hs) as [Hsd Hact].
  destruct (exact_bound s local p Hw E) as [Hb Hl].
  unfold task_do_migration. rewrite Ei. cbn [deref mbind outcome_bind]. rewrite Hact, E. cbn [negb deref mbind outcome_bind].
  rewrite Hsd. unfold wrap at 1 2. rewrite !Z.mod_small by lia. rewrite (proj2 (Z.leb_gt _ _)) by lia.
  rewrite Z.shiftr_div_pow2 by lia. change (2 ^ 1) with 2. rewrite <- Hm, Nat2Z.id.
  rewrite (take_tail_spec s local p q m) by (done || (rewrite <- Eq; lia) || lia).
  cbn [mbind outcome_bind]. set (p1 := PerCpu q _ _ _ _ _).
  cbn [cpus set_cpu]. rewrite lookup_insert_ne by done. rewrite Es. cbn [deref mbind outcome_bind].
  rewrite cas_info_hit by done. cbn [snd]. eexists. split; [done|].
  cbn [cpus tasks infos sleep_queue timer_reqs set_cpu set_info]. split; [|done].
  pose proof (sw_nodup s Hw local p E) as Hnd. rewrite Eq, <- app_assoc in Hnd.
  apply NoDup_app in Hnd as (N1 & N2 & N3). apply NoDup_app in N3 as (N4 & N5 & N6).
  assert (forall t, t ∈ m -> on_cpu s local t) as Hon by (intros t Ht; exists p; rewrite Eq; set_solver).
  assert (sched_wf exact (set_cpu s local p1)) as Hw1.
  { eapply (sched_wf_update s _ local p); [done..| | |]; cbn [p1 run_queue migration nr_running].
    - rewrite NoDup_app. split_and!; [done|set_solver|done].
    - unfold exact. lia.
    - intros t Ht. left. exists p. rewrite Eq. set_solver. }
  eapply (sched_wf_update (set_cpu s local p1) _ sender ps); [done| |done..| | |]; cbn [set_migration run_queue migration nr_running].
  - cbn. by rewrite lookup_insert_ne by done.
  - pose proof (sw_nodup s Hw sender ps Es) as Hnd. apply NoDup_app in Hnd as (M1 & M2 & M3).
    assert (forall t, t ∈ run_queue ps \/ t ∈ migration ps -> t ∉ m) as Hx.
    { intros t Ht Htm. apply Hne. apply (sw_one s Hw sender local t); [by exists ps|by apply Hon]. }
    rewrite !NoDup_app. split_and!; [done| |done| |by rewrite (reverse_Permutation m)].
    + intros t Ht. rewrite elem_of_app, elem_of_reverse. intros [?|?]; [by eapply M2|eapply Hx; by eauto].
    + intros t Ht. rewrite elem_of_reverse. by apply Hx; right.
  - by apply (sw_count s Hw sender).
  - intros t. rewrite elem_of_app, elem_of_reverse. intros [Ht|[Ht|Ht]].
    + left. exists ps. split; [by cbn; rewrite lookup_insert_ne|auto].
    + left. exists ps. split; [by cbn; rewrite lookup_insert_ne|auto].
    + right. specialize (Hon t Ht). split_and!.
      * intros c (pc & Ec & Hc). cbn in Ec. rewrite lookup_insert in Ec. case_decide as Hd.
        -- injection Ec as <-. cbn in Hc. set_solver.
        -- apply Hd. apply (sw_one s Hw local c t Hon). by exists pc.
      * by apply (sw_task s Hw local).
      * intros c pc Ec <-. cbn in Ec. rewrite lookup_insert in Ec.
        case_decide; [injection Ec as <-; exact (sw_idle s Hw local p local E Hon)|].
        exact (sw_idle s Hw c pc local Ec Hon).
Qed.

(** Removing the first task of a migration list touches nothing else, and the
    task is free then. *)
Lemma unlink_spec s local p t l :
  sched_wf exact s -> cpus s !! local = Some p -> migration p = t :: l ->
  cpus (unlink t s) = <[local := set_migration p l]> (cpus s) /\ sched_wf exact (unlink t s) /\ free_task (unlink t s) t.
Proof.
  intros Hw E El. assert (on_cpu s local t) as Hon by (exists p; rewrite El; set_solver).
  pose proof (sw_nodup s Hw local p E) as Hnd. rewrite El in Hnd.
  apply NoDup_app in Hnd as (N1 & N2 & N3). pose proof N3 as [N4 N5]%NoDup_cons.
  assert (cpus (unlink t s) = <[local := set_migration p l]> (cpus s)) as Eu.
  { cbn [unlink cpus]. apply map_eq. intros c. rewrite lookup_fmap, lookup_insert. case_decide as Hd.
    - subst c. rewrite E. cbn [fmap option_fmap option_map]. unfold set_migration. rewrite El, filter_notin by set_solver.
      rewrite filter_cons_False by naive_solver. by rewrite filter_notin.
    - destruct (cpus s !! c) as [pc|] eqn:Ec; [|done]. cbn [fmap option_fmap option_map].
      assert (t ∉ run_queue pc /\ t ∉ migration pc) as [H1 H2].
      { split; intros Hx; apply Hd, (sw_one s Hw local c t Hon); exists pc; auto. }
      rewrite !filter_notin by done. by destruct pc. }
  split; [done|]. split.
  - eapply (sched_wf_update s _ local p); [done..| | |]; cbn [set_migration run_queue migration nr_running].
    + rewrite NoDup_app. split_and!; [done|set_solver|done].
    + exact (sw_count s Hw local p E).
    + intros x Hx. left. exists p. rewrite El. set_solver.
  - split_and!.
    + intros c (pc & Ec & Hc). rewrite Eu, lookup_insert in Ec. case_decide as Hd.
      * injection Ec as <-. cbn in Hc. set_solver.
      * apply Hd, (sw_one s Hw local c t Hon). by exists pc.
    + exact (sw_task s Hw local t Hon).
    + intros c pc Ec <-. rewrite Eu, lookup_insert in Ec.
      case_decide; [injection Ec as <-; exact (sw_idle s Hw local p local E Hon)|].
      exact (sw_idle s Hw c pc local Ec Hon).
Qed.

(** Draining the migration list of a CPU puts its tasks behind the queue. *)
Lemma drain_spec s local p :
  sched_wf exact s -> cpus s !! local = Some p ->
  exists s', drain local s = Ok s' /\ sched_wf exact s' /\
    cpus s' = <[local := PerCpu (run_queue p ++ migration p) (nr_running p + Z.of_nat (length (migration p)))
                           (need_sched p) (current p) (idle p) []]> (cpus s) /\
    dom (tasks s') = dom (tasks s) /\ infos s' = infos s /\ timer_reqs s' = timer_reqs s.
Proof.
  intros Hw E. unfold drain. rewrite E. cbn [deref mbind outcome_bind].
  enough (forall l s p, sched_wf exact s -> cpus s !! local = Some p -> migration p = l ->
    exists s', for_each l (fun t s => rr_enqueue local t (unlink t s)) s = Ok s' /\ sched_wf exact s' /\
      cpus s' = <[local := PerCpu (run_queue p ++ l) (nr_running p + Z.of_nat (length l))
                             (need_sched p) (current p) (idle p) []]> (cpus s) /\
      dom (tasks s') = dom (tasks s) /\ infos s' = infos s /\ timer_reqs s' = timer_reqs s) as H by by apply H.
  clear. intros l. induction l as [|t l IH]; intros s p Hw E El; cbn [for_each].
  - exists s. split; [done|]. split; [done|]. split; [|done]. rewrite app_nil_r, Z.add_0_r, <- El.
    destruct p. cbn. by rewrite insert_id.
  - destruct (unlink_spec s local p t l Hw E El) as (Eu & Hwu & Hfu). pose proof Hfu as (_ & [r Er] & _).
    destruct (rr_enqueue_spec (extra := exact) (unlink t s) local t (set_migration p l) r) as (s1 & -> & Hw1 & Ec1 & Et1 & Ei1 & Eq1);
      [done|by rewrite Eu, lookup_insert_eq|done|done|].
    cbn [mbind outcome_bind]. cbn [set_migration run_queue nr_running need_sched current idle migration] in Ec1.
    rewrite Eu, insert_insert_eq in Ec1.
    destruct (IH s1 _ Hw1 ltac:(by rewrite Ec1, lookup_insert_eq) eq_refl) as (s2 & -> & Hw2 & Ec2 & Ed2 & Ei2 & Eq2).
    exists s2. split; [done|]. split; [done|]. rewrite Ec2, Ei2, Eq2, Ed2, Et1, Ei1, Eq1.
    cbn [run_queue nr_running need_sched current idle migration length].
    rewrite Ec1, insert_insert_eq, <- app_assoc. split_and!; [|by apply dom_insert_same|done..].
    cbn [app]. do 2 f_equal. lia.
Qed.

(** The whole exchange between an idle CPU and a free busy one. *)
Lemma migrate_from_spec s local target pl p q m :
  sched_wf exact s -> 0 <= local < 2 ^ 31 -> target <> NO_CPU -> local <> target ->
  cpus s !! local = Some pl -> cpus s !! target = Some p -> migration pl = [] ->
  infos s !! target = Some MIG_FREE -> run_queue p = q ++ m -> 2 < nr_running p ->
  Z.of_nat (length m) = nr_running p / 2 ->
  exists s', migrate_from local target s = Ok (true, s') /\ sched_wf exact s' /\
    cpus s' = <[local := PerCpu (run_queue pl ++ reverse m) (nr_running pl + Z.of_nat (length m)) (need_sched pl)
                           (current pl) (idle pl) []]>
                (<[target := PerCpu q (Z.of_nat (length q)) (need_sched p) (current p) (idle p) (migration p)]> (cpus s)) /\
    infos s' = infos s /\ timer_reqs s' = timer_reqs s.
Proof.
  intros Hw Hl Hnc Hne El Et Em Ei Eq Hnr Hm. unfold migrate_from.
  rewrite (proj2 (Z.eqb_neq _ _) Hnc), Ei. cbn [deref mbind outcome_bind]. rewrite cas_info_hit by done.
  destruct (task_do_migration_spec (set_info s target (MIG_STATE_PACK local true)) target local p pl q m)
    as (s1 & -> & Hw1 & Ec1 & Et1 & Ei1 & Es1 & Eq1); [|done..|by cbn; rewrite lookup_insert_eq|done|done|done|].
  { by eapply (sched_wf_tasks s). }
  cbn [mbind outcome_bind]. cbn [set_info cpus infos timer_reqs] in Ec1, Ei1, Eq1.
  destruct (drain_spec s1 local (set_migration pl (migration pl ++ reverse m))) as (s2 & -> & Hw2 & Ec2 & _ & Ei2 & Eq2);
    [done|by rewrite Ec1, lookup_insert_eq|].
  exists s2. split; [done|]. split; [done|]. rewrite Ec2, Ei2, Eq2, Ei1, Eq1, Ec1, insert_insert_eq, Em.
  rewrite insert_insert_eq. cbn [set_migration run_queue nr_running need_sched current idle migration app].
  rewrite length_reverse. by rewrite (insert_id (infos s)).
Qed.

(** [b], with [n] tasks, is the busiest of the CPUs below [k] other than
    [local]; it is [NO_CPU], and so is the second choice, when none of them has
    more than two tasks. *)
Definition busiest_below (s : sys) (local k b n second : Z) : Prop :=
  (b = NO_CPU /\ n = 0 /\ second = NO_CPU /\ forall i p, 0 <= i < k -> i <> local -> cpus s !! i = Some p -> nr_running p <= 2) \/
  (0 <= b < k /\ b <> local /\ 2 < n /\ (exists pb, cpus s !! b = Some pb /\ nr_running pb = n) /\
     forall i p, 0 <= i < k -> i <> local -> cpus s !! i = Some p -> nr_running p <= n).

Lemma consider_spec s local k p best bc sec sc :
  sched_wf exact s -> 0 <= k -> cpus s !! k = Some p -> busiest_below s local k best bc sec ->
  exists best' bc' sec' sc', consider local k (nr_running p) (best, bc, sec, sc) = (best', bc', sec', sc') /\
    busiest_below s local (k + 1) best' bc' sec'.
Proof.
  intros Hw Hk E Hb. destruct (exact_bound s k p Hw E) as [Hn _].
  unfold consider, wrap. rewrite Z.mod_small by lia.
  assert (forall n, (forall i q, 0 <= i < k -> i <> local -> cpus s !! i = Some q -> nr_running q <= n) ->
    (k <> local -> nr_running p <= n) ->
    forall i q, 0 <= i < k + 1 -> i <> local -> cpus s !! i = Some q -> nr_running q <= n) as Hstep.
  { intros n H1 H2 i q Hi Hl Eq. destruct (decide (i = k)) as [->|]; [|apply (H1 i); [lia|done..]].
    rewrite E in Eq. injection Eq as <-. by apply H2. }
  assert (forall sec', (k <> local -> nr_running p <= Z.max 2 bc) -> (bc = 0 -> sec' = sec) ->
    busiest_below s local (k + 1) best bc sec') as Hkeep.
  { intros sec' H Hs. destruct Hb as [(-> & -> & -> & Hb)|(H1 & H2 & H3 & H4 & Hb)]; [left|right].
    - split_and!; [done..|by apply Hs|]. apply Hstep; [done|]. intros Hl. specialize (H Hl). lia.
    - split_and!; [lia|lia|done|lia|done|]. apply Hstep; [done|]. intros Hl. specialize (H Hl). lia. }
  destruct (Z.eqb_spec k local) as [->|Hl]; [eexists _, _, _, _; split; [done|]; apply Hkeep; lia|].
  destruct (Z.leb_spec (nr_running p) 2); [eexists _, _, _, _; split; [done|]; apply Hkeep; lia|].
  destruct (Z.ltb_spec bc (nr_running p)).
  - eexists _, _, _, _. split; [done|]. right. split_and!; [lia|lia|done|lia|by eauto|].
    apply Hstep; [|lia]. intros i q Hi Hil Eq.
    destruct Hb as [(_ & _ & _ & Hb)|(_ & _ & _ & _ & Hb)]; specialize (Hb i q Hi Hil Eq); lia.
  - destruct (sc <? nr_running p); eexists _, _, _, _; (split; [done|]); apply Hkeep; lia.
Qed.

Lemma busiest_spec s local max_cpu :
  sched_wf exact s -> 0 <= max_cpu -> (forall i, 0 <= i < max_cpu -> is_Some (cpus s !! i)) ->
  exists best second n, busiest local max_cpu s = Ok (best, second) /\ busiest_below s local max_cpu best n second.
Proof.
  intros Hw Hm Hex. unfold busiest.
  destruct (for_up_inv (fun k '(best, bc, sec, _) => busiest_below s local k best bc sec)
    (Z.to_nat max_cpu) 0
    (fun i acc => p ← deref (cpus s !! i); Ok (consider local i (nr_running p) acc))
    (NO_CPU, 0, NO_CPU, 0)) as ([[[best bc] sec] sc] & -> & Hb).
  - left. split_and!; [done..|]. lia.
  - intros k [[[best bc] sec] sc] Hk Hb. destruct (Hex k) as [p E]; [lia|]. rewrite E. cbn [deref mbind outcome_bind].
    destruct (consider_spec s local k p best bc sec sc) as (b' & bc' & sec' & sc' & -> & Hb'); [done|lia|done|done|].
    by eauto.
  - exists best, sec, bc. split; [done|]. by rewrite Z.add_0_l, Z2Nat.id in Hb.
Qed.

(** Load balancing moves exactly the last half of the busiest queue: when
    an idle CPU asks for work and no migration is under way, either every other
    CPU has at most two waiting tasks and nothing changes, or a CPU with the
    most waiting tasks keeps the first part [q] of its queue and the last
    floor(n/2) tasks [m] join the asking CPU's queue, last task first.  No task
    is lost, duplicated or dereferenced as NULL, all migration words are free
    again and the invariant holds. *)
Theorem task_try_migration_balances s local max_cpu pl :
  sched_wf exact s -> 0 <= local < max_cpu -> max_cpu <= 2 ^ 31 ->
  (forall i, 0 <= i < max_cpu -> is_Some (cpus s !! i)) ->
  (forall i, 0 <= i < max_cpu -> infos s !! i = Some MIG_FREE) ->
  cpus s !! local = Some pl -> migration pl = [] ->
  exists s', task_try_migration local max_cpu s = Ok s' /\ sched_wf exact s' /\ infos s' = infos s /\
    ((s' = s /\ forall i p, 0 <= i < max_cpu -> i <> local -> cpus s !! i = Some p -> nr_running p <= 2) \/
     (exists b p q m, 0 <= b < max_cpu /\ b <> local /\ cpus s !! b = Some p /\ 2 < nr_running p /\
        (forall i p', 0 <= i < max_cpu -> i <> local -> cpus s !! i = Some p' -> nr_running p' <= nr_running p) /\
        run_queue p = q ++ m /\ Z.of_nat (length m) = nr_running p / 2 /\
        cpus s' =
          <[local := PerCpu (run_queue pl ++ reverse m) (nr_running pl + Z.of_nat (length m)) (need_sched pl)
                       (current pl) (idle pl) []]>
            (<[b := PerCpu q (Z.of_nat (length q)) (need_sched p) (current p) (idle p) (migration p)]> (cpus s)))).
Proof.
  intros Hw Hl Hmax Hex Hfree El Em.
  destruct (busiest_spec s local max_cpu) as (best & sec & n & Hbu & Hb); [done|lia|done|].
  unfold task_try_migration. rewrite Hbu. cbn [mbind outcome_bind].
  destruct Hb as [(-> & -> & -> & Hb)|(H1 & H2 & H3 & (p & Ep & <-) & Hb)].
  - exists s. split_and!; [done..|]. by left.
  - destruct (exact_bound s best p Hw Ep) as [Hn Hlen].
    set (k := Z.to_nat (nr_running p - nr_running p / 2)).
    destruct (migrate_from_spec s local best pl p (take k (run_queue p)) (drop k (run_queue p)))
      as (s' & -> & Hw' & Ec & Ei & _); [done|lia|unfold NO_CPU; lia|done..|by apply Hfree|by rewrite take_drop|done| |].
    { rewrite length_drop. subst k. dlia. }
    exists s'. split; [done|]. do 2 (split; [done|]). right. exists best, p, (take k (run_queue p)), (drop k (run_queue p)).
    split_and!; [lia|lia|done..|by rewrite take_drop| |done]. rewrite length_drop. subst k. dlia.
Qed.

(** ** Where the counters and the queues go wrong *)

Lemma unlink_free s t : (forall c, ~ on_cpu s c t) -> unlink t s = s.
Proof.
  intros Hf. destruct s as [cs ts inf sl tr]. unfold unlink. cbn. f_equal.
  apply map_eq. intros c. rewrite lookup_fmap. destruct (cs !! c) as [p|] eqn:E; [|done].
  cbn [fmap option_fmap option_map].
  assert (t ∉ run_queue p /\ t ∉ migration p) as [H1 H2] by (split; intros Hx; apply (Hf c); exists p; auto).
  rewrite !filter_notin by done. by destruct p.
Qed.

(** A migration request to a CPU whose counter is above the length of its empty
    queue. *)
Lemma task_do_migration_empty s local sender p :
  cpus s !! local = Some p -> run_queue p = [] -> 2 < u32 (nr_running p) -> 0 <= sender < 2 ^ 31 ->
  infos s !! local = Some (MIG_STATE_PACK sender true) -> task_do_migration local s = Fault.
Proof.
  intros E Eq Hn Hs Ei. destruct (mig_pack_sender sender Hs) as [_ Hact].
  unfold task_do_migration. rewrite Ei. cbn [deref mbind outcome_bind]. rewrite Hact, E. cbn [negb deref mbind outcome_bind].
  rewrite (proj2 (Z.leb_gt _ _) Hn).
  destruct (Z.to_nat (Z.shiftr (u32 (nr_running p)) 1)) as [|n] eqn:En.
  { exfalso. rewrite Z.shiftr_div_pow2 in En by lia. change (2 ^ 1) with 2 in En. dlia. }
  unfold take_tail. rewrite for_up_S.
  assert (rr_dequeue_tail local s = Ok (None, s)) as ->; [|done].
  unfold rr_dequeue_tail. rewrite E. cbn [deref mbind outcome_bind]. by rewrite Eq.
Qed.

(** [task_exit] takes the running task out of the run queue, but the
    running task is not in it: the counter drops below the length of the queue.
    With nothing else waiting it wraps to 2^64 - 1; the CPU then looks like the
    busiest one, and the next migration request makes its interrupt handler
    dereference the NULL that [rr_dequeue_tail] answers. *)
Theorem task_exit_miscounts s cpu p t r sender :
  sched_wf exact s -> cpus s !! cpu = Some p -> current p = Some t -> tasks s !! t = Some r -> free_task s t ->
  0 <= sender < 2 ^ 31 ->
  exists s' p', task_exit_leave cpu s = Ok s' /\ cpus s' !! cpu = Some p' /\ run_queue p' = run_queue p /\
    nr_running p' = u64 (Z.of_nat (length (run_queue p')) - 1) /\
    (run_queue p = [] ->
       nr_running p' = 2 ^ 64 - 1 /\
       task_do_migration cpu (set_info s' cpu (MIG_STATE_PACK sender true)) = Fault).
Proof.
  intros Hw E Ec Er (Hf & _ & _) Hs. destruct (exact_bound s cpu p Hw E) as [_ Hl].
  unfold task_exit_leave, rr_dequeue. rewrite E. cbn [deref mbind outcome_bind]. rewrite Ec, unlink_free, E by done.
  cbn [deref mbind outcome_bind set_cpu tasks]. rewrite Er. cbn [deref mbind outcome_bind].
  eexists _, (set_queue p (run_queue p) (nr_running p - 1)). split; [done|].
  split; [by cbn; rewrite lookup_insert_eq|].
  cbn [set_queue run_queue nr_running]. rewrite Hl. split_and!; [done..|]. intros Eq.
  rewrite <- Hl, Eq. split; [done|].
  eapply (task_do_migration_empty _ cpu sender (set_queue p (run_queue p) (nr_running p - 1))).
  - by cbn; rewrite lookup_insert_eq, <- Hl, Eq.
  - done.
  - cbn [set_queue nr_running]. by rewrite <- Hl, Eq.
  - done.
  - by cbn; rewrite lookup_insert_eq.
Qed.

(** C37: a wake-up that arrives between [task_sleep] and the switch breaks the
    run queue: [task_wakeup], on any CPU, marks the task running and queues it
    while it still runs, and the [task_sched] of its own CPU queues it a second
    time, re-initialising a list node that is linked. *)
Theorem sleep_wakeup_race extra s cpu cpu2 max_cpu p p2 t r interruptible :
  sched_wf extra s -> cpus s !! cpu = Some p -> cpus s !! cpu2 = Some p2 -> current p = Some t ->
  tasks s !! t = Some r -> free_task s t -> t ∉ sleep_queue s ->
  exists s1 s2, task_sleep cpu interruptible s = Ok (Some t, s1) /\ task_wakeup cpu2 t s1 = Ok s2 /\
    task_sched cpu max_cpu s2 = Fault.
Proof.
  intros Hw E E2 Ec Er Hfr Hsl. unfold task_sleep. rewrite E. cbn [deref mbind outcome_bind]. rewrite Ec, Er.
  cbn [deref mbind outcome_bind]. rewrite decide_False by done.
  set (st := if interruptible then _ else _). set (s1 := set_cpu _ _ _). exists s1.
  assert (tasks s1 !! t = Some (set_state r st)) as Et1 by by cbn; rewrite lookup_insert_eq.
  unfold task_wakeup. rewrite Et1. cbn [deref mbind outcome_bind set_state state].
  replace (bool_decide (st <> TASK_INTERRUPTIBLE) && bool_decide (st <> TASK_UNINTERRUPTIBLE)) with false
    by (subst st; by destruct interruptible).
  set (s1' := set_task _ _ _).
  assert (cpus s1' = <[cpu := set_need_sched p]> (cpus s)) as Ec1 by done.
  assert (dom (tasks s1') = dom (tasks s)) as Ed1.
  { cbn. rewrite insert_insert_eq. apply dom_insert_same. by eauto. }
  assert (exists q, cpus s1' !! cpu2 = Some q) as [q Eq] by (rewrite Ec1, lookup_insert; case_decide; by eauto).
  destruct (rr_enqueue_spec (extra := extra) s1' cpu2 t q (set_state (set_state r st) TASK_RUNNING)) as (s2 & Hq & Hw2 & Ec2 & Et2 & _).
  - by eapply (same_queues_wf s _ cpu p _ Hw E Ec1).
  - done.
  - by cbn; rewrite lookup_insert_eq.
  - by eapply (same_queues_free s _ cpu p _ t Hfr E Ec1).
  - exists s2. split_and!; [done|exact Hq|].
    assert (exists p', cpus s2 !! cpu = Some p' /\ current p' = Some t /\ idle p' = idle p) as (p' & Ep' & Hcur & Hid).
    { rewrite Ec2, lookup_insert. case_decide as Hd; cycle 1.
      - rewrite Ec1, lookup_insert_eq. by eauto.
      - subst cpu2. rewrite Ec1, lookup_insert_eq in Eq. injection Eq as <-. by eauto. }
    unfold task_sched. rewrite Ep'. cbn [deref mbind outcome_bind]. rewrite Hcur, Et2, lookup_insert_eq.
    cbn [deref mbind outcome_bind]. rewrite Hid.
    assert (t =? idle p = false) as ->. { apply Z.eqb_neq. intros Ht. destruct Hfr as (_ & _ & Hi). by apply (Hi cpu p E). }
    cbn [sched_reset set_sched set_state state]. rewrite bool_decide_true by done. cbn [negb andb].
    unfold rr_enqueue. rewrite Ep'. cbn [deref mbind outcome_bind].
    rewrite (linked_true t s2 cpu2); [done|]. eexists. split; [by rewrite Ec2, lookup_insert_eq|]. cbn. set_solver.
Qed.

(** ** Witnesses *)

(** [rr_init] on a CPU whose idle thread has been created: that raised the
    counter, while the queue it was linked into is the one at address 0, since
    the CPU has no queue yet.  The new queue is empty and the counter stays. *)
Definition boot_sys : sys :=
  Sys {[0 := PerCpu [] 1 false None 1 []]} {[1 := Task (SchedData SLICE 0 0 0) TASK_RUNNING]} ∅ [] [].

Example boot_counts_idle : exists s', rr_init 0 boot_sys = Ok s' /\ sched_wf (fun _ => 1) s'.
Proof. eexists. split; [vm_compute; reflexivity|]. apply sched_wfb_ok; [lia|by vm_compute]. Qed.

(** Two CPUs: CPU 0 runs task 10 with five tasks waiting, CPU 1 runs its idle
    task and has an empty queue. *)
Definition ex_task : task_struct := Task (SchedData SLICE 0 0 0) TASK_RUNNING.
Definition ex_cpu0 : per_cpu := PerCpu [11; 12; 13; 14; 15] 5 false (Some 10) 1 [].
Definition ex_cpu1 : per_cpu := PerCpu [] 0 false (Some 2) 2 [].
Definition ex_sys : sys :=
  Sys {[0 := ex_cpu0; 1 := ex_cpu1]}
      (list_to_map ((fun t => (t, ex_task)) <$> [1; 2; 10; 11; 12; 13; 14; 15]))
      {[0 := MIG_FREE; 1 := MIG_FREE]} [] [].
Definition ex_sys1 : sys :=
  Sys {[0 := PerCpu [] 0 false (Some 10) 1 []]} (list_to_map ((fun t => (t, ex_task)) <$> [1; 10])) ∅ [] [].

Lemma ex_sys_wf : sched_wf exact ex_sys.
Proof. apply sched_wfb_ok; [done|by vm_compute]. Qed.

Lemma ex_sys1_wf : sched_wf exact ex_sys1.
Proof. apply sched_wfb_ok; [done|by vm_compute]. Qed.

Lemma free_task_ok s t :
  bool_decide (map_Forall (fun _ p => t ∉ queued p /\ idle p <> t) (cpus s)) && bool_decide (is_Some (tasks s !! t)) = true ->
  free_task s t.
Proof.
  rewrite andb_true_iff, !bool_decide_eq_true. intros [H1 H2]. split_and!; [|done|].
  - intros c (p & E & Hp). destruct (H1 c p E) as [H _]. apply H. unfold queued. by rewrite elem_of_app.
  - intros c p E. by destruct (H1 c p E).
Qed.

Lemma ex_free : free_task ex_sys 10.
Proof. apply free_task_ok. by vm_compute. Qed.

Lemma ex_free1 : free_task ex_sys1 10.
Proof. apply free_task_ok. by vm_compute. Qed.

(** A run of picks on both CPUs with an enqueue of task 10 after the first. *)
Definition after {A} (s : sys) (o : outcome (A * sys)) : sys := match o with Ok (_, s') => s' | _ => s end.
Definition ex_r1 : sys := after ex_sys (rr_pick_next 0 ex_sys).
Definition ex_r2 : sys := match rr_enqueue 0 10 ex_r1 with Ok s => s | _ => ex_r1 end.
Definition ex_r3 : sys := after ex_r2 (rr_pick_next 0 ex_r2).
Definition ex_log : list (Z * Z) := [(0, 11); (0, 12); (1, 2)].

Lemma ex_run : rr_run ex_sys ex_log ex_r3.
Proof.
  apply (rr_run_pick ex_sys [(0, 11); (0, 12)] ex_r3 ex_r3 1 2); [|by vm_compute].
  apply (rr_run_pick ex_sys [(0, 11)] ex_r2 ex_r3 0 12); [|by vm_compute].
  apply (rr_run_enqueue ex_sys [(0, 11)] ex_r1 ex_r2 0 10); [|apply free_task_ok; by vm_compute|by vm_compute].
  apply (rr_run_pick ex_sys [] ex_sys ex_r1 0 11); [apply rr_run_start|by vm_compute].
Qed.

Lemma rr_fifo_witness :
  take 5 (picks 0 ex_log) = take (length (picks 0 ex_log)) [11; 12; 13; 14; 15].
Proof. exact (proj1 (rr_fifo (extra := exact) ex_sys ex_log ex_r3 0 ex_cpu0 ex_sys_wf eq_refl ex_run)). Defined.

Lemma task_sched_rotates_witness :
  exists s', task_sched 0 2 ex_sys = Ok s' /\ sched_wf exact s' /\ timer_reqs s' = [(0, 10000000)] /\
    cpus s' !! 0 = Some (PerCpu [12; 13; 14; 15; 10] 5 false (Some 11) 1 []).
Proof.
  destruct (task_sched_rotates (extra := exact) ex_sys 0 2 ex_cpu0 10 ex_task 11 [12; 13; 14; 15; 10])
    as (s' & rn & H1 & H2 & _ & H3 & H4 & H5);
    [apply ex_sys_wf|reflexivity|reflexivity|reflexivity|reflexivity|apply ex_free|reflexivity|].
  exists s'. split; [exact H1|]. split; [exact H2|]. split.
  - rewrite H5. injection H4 as <-. reflexivity.
  - rewrite H3. apply lookup_insert_eq.
Defined.

Lemma task_try_migration_balances_witness :
  exists s', task_try_migration 1 2 ex_sys = Ok s' /\ sched_wf exact s'.
Proof.
  destruct (task_try_migration_balances ex_sys 1 2 ex_cpu1) as (s' & H1 & H2 & _);
    [apply ex_sys_wf|lia|lia| | |reflexivity|reflexivity|].
  - intros i Hi. assert (i = 0 \/ i = 1) as [->| ->] by lia; eexists; reflexivity.
  - intros i Hi. assert (i = 0 \/ i = 1) as [->| ->] by lia; reflexivity.
  - by exists s'.
Defined.

(** The outcome of the example: tasks 15 and 14 move to CPU 1. *)
Example migration_moves_half :
  match task_try_migration 1 2 ex_sys with
  | Ok s => (run_queue <$> cpus s !! 0, run_queue <$> cpus s !! 1) = (Some [11; 12; 13], Some [15; 14])
  | _ => False
  end.
Proof. by vm_compute. Qed.

Lemma task_exit_miscounts_witness :
  exists s' p', task_exit_leave 0 ex_sys1 = Ok s' /\ cpus s' !! 0 = Some p' /\ nr_running p' = 2 ^ 64 - 1 /\
    task_do_migration 0 (set_info s' 0 (MIG_STATE_PACK 1 true)) = Fault.
Proof.
  destruct (task_exit_miscounts ex_sys1 0 (PerCpu [] 0 false (Some 10) 1 []) 10 ex_task 1)
    as (s' & p' & H1 & H2 & _ & _ & H3);
    [apply ex_sys1_wf|reflexivity|reflexivity|reflexivity|apply ex_free1|lia|].
  exists s', p'. destruct (H3 eq_refl) as [H4 H5]. split_and!; done.
Defined.

Lemma sleep_wakeup_race_witness :
  exists s1 s2, task_sleep 0 true ex_sys = Ok (Some 10, s1) /\ task_wakeup 1 10 s1 = Ok s2 /\
    task_sched 0 2 s2 = Fault.
Proof.
  apply (sleep_wakeup_race exact ex_sys 0 1 2 ex_cpu0 ex_cpu1 10 ex_task true);
    [apply ex_sys_wf|reflexivity|reflexivity|reflexivity|reflexivity|apply ex_free|apply not_elem_of_nil].
Defined.
