(* ===== verification/Vfs.v ===== *)
(** * The virtual file system: names, paths and mounts (kernel/fs/vfs.c)

    The state is the dentries and mounts by address, the dentry cache, the
    list of unused dentries, and the state [F] of the file systems below, which
    are the class [Fs].  Both file systems answer a lookup with the dentry they
    were given; the code allows another one, and so does the class.  Every
    allocation asks [vmem] whether there is memory; following NULL or a freed
    object is a [Fault]. *)

From S2P Require Import Prelude StateM Hash Tmpfs.

Local Open Scope Z_scope.

(** include/libc/errno.h *)
Definition EPERM : Z := 1.
Definition ENOTDIR : Z := 20.
Definition ELOOP : Z := 40.

(** fs/vfs.c, fs/vfs.h: limits and flags *)
Definition MAX_SYMLINKS : nat := 8.
Definition VFS_HASH_MIN : Z := 256.
Definition VFS_HASH_MAX : Z := Z.shiftl 1 18.
Definition LOOKUP_FOLLOW : Z := 1.
Definition LOOKUP_DIRECTORY : Z := 2.
Definition DCACHE_MOUNTED : Z := 1.
Definition MS_NOUSER : Z := 2.
Definition MAY_READ : Z := 1.
Definition MAY_WRITE : Z := 2.
Definition MAY_EXEC : Z := 4.
Definition S_ISLNK (mode : Z) : bool := Z.land mode S_IFMT =? S_IFLNK.
Definition SLASH : Z := 47.

(** The operations of a file system: the inode of a directory and a name give
    an error, or another dentry (0: the one that was passed) and the inode (0:
    there is none); the mode and the owners of an inode; the target of a link;
    a new directory; the super block and root inode of a new mount of a type, a
    device and data; the end of a super block. *)
Class Fs (F : Type) := {
  fs_lookup : Z -> list Z -> F -> outcome ((Z + (Z * Z)) * F);
  fs_attr : F -> Z -> option (Z * Z * Z);
  fs_readlink : Z -> F -> outcome (Z + list Z);
  fs_mkdir : Z -> Z -> list Z -> Z -> F -> outcome ((Z + Z) * F);
  fs_mount : list Z -> option (list Z) -> option (list Z) -> F -> outcome ((Z + (Z * Z)) * F);
  fs_kill_sb : Z -> F -> outcome F
}.

(** fs/vfs.h: struct dentry.  [vd_named] is false when the name could not be
    copied *)
Record dent := Dent { vd_parent : Z; vd_name : list Z; vd_named : bool; vd_inode : Z; vd_flags : Z; vd_count : Z; vd_subdirs : list Z }.

(** fs/vfs.h: struct vfsmount *)
Record vfsmount := Mnt { m_sb : Z; m_root : Z; m_mountpoint : Z; m_parent : Z; m_flags : Z; m_mounts : list Z; m_count : Z }.

(** include/vfs.h: struct path: a mount and a dentry *)
Definition vpath : Type := Z * Z.

(** fs/vfs.h: vfs_path_prs_t; [p_rest] is the text from the offset on *)
Record prs := Prs { p_path : list Z; p_curr : option vpath; p_rest : list Z }.

Record vst (F : Type) := Vst {
  dents : gmap Z dent;
  dcache : hash_table;
  dlru : list Z;
  mnts : gmap Z vfsmount;
  mount_tree_root : Z;
  mount_tree_count : Z;
  sb_refs : gmap Z Z;
  vfs_root : vpath;
  fs_list : list (list Z);
  fsys : F;
  vnext : Z;
  vmem : nat -> bool;
  vtick : nat;
  vugid : Z * Z
}.
Arguments Vst {F} _ _ _ _ _ _ _ _ _ _ _ _ _ _.
Arguments dents {F} _.
Arguments dcache {F} _.
Arguments dlru {F} _.
Arguments mnts {F} _.
Arguments mount_tree_root {F} _.
Arguments mount_tree_count {F} _.
Arguments sb_refs {F} _.
Arguments vfs_root {F} _.
Arguments fs_list {F} _.
Arguments fsys {F} _.
Arguments vnext {F} _.
Arguments vmem {F} _ _.
Arguments vtick {F} _.
Arguments vugid {F} _.

Definition w_dents {F} (s : vst F) x := Vst x (dcache s) (dlru s) (mnts s) (mount_tree_root s) (mount_tree_count s) (sb_refs s) (vfs_root s) (fs_list s) (fsys s) (vnext s) (vmem s) (vtick s) (vugid s).
Definition w_dcache {F} (s : vst F) x := Vst (dents s) x (dlru s) (mnts s) (mount_tree_root s) (mount_tree_count s) (sb_refs s) (vfs_root s) (fs_list s) (fsys s) (vnext s) (vmem s) (vtick s) (vugid s).
Definition w_dlru {F} (s : vst F) x := Vst (dents s) (dcache s) x (mnts s) (mount_tree_root s) (mount_tree_count s) (sb_refs s) (vfs_root s) (fs_list s) (fsys s) (vnext s) (vmem s) (vtick s) (vugid s).
Definition w_mnts {F} (s : vst F) x := Vst (dents s) (dcache s) (dlru s) x (mount_tree_root s) (mount_tree_count s) (sb_refs s) (vfs_root s) (fs_list s) (fsys s) (vnext s) (vmem s) (vtick s) (vugid s).
Definition w_count {F} (s : vst F) x := Vst (dents s) (dcache s) (dlru s) (mnts s) (mount_tree_root s) x (sb_refs s) (vfs_root s) (fs_list s) (fsys s) (vnext s) (vmem s) (vtick s) (vugid s).
Definition w_sb_refs {F} (s : vst F) x := Vst (dents s) (dcache s) (dlru s) (mnts s) (mount_tree_root s) (mount_tree_count s) x (vfs_root s) (fs_list s) (fsys s) (vnext s) (vmem s) (vtick s) (vugid s).
Definition w_fs_list {F} (s : vst F) x := Vst (dents s) (dcache s) (dlru s) (mnts s) (mount_tree_root s) (mount_tree_count s) (sb_refs s) (vfs_root s) x (fsys s) (vnext s) (vmem s) (vtick s) (vugid s).
Definition w_tree {F} (s : vst F) x := Vst (dents s) (dcache s) (dlru s) (mnts s) x (mount_tree_count s) (sb_refs s) (vfs_root s) (fs_list s) (fsys s) (vnext s) (vmem s) (vtick s) (vugid s).
Definition w_root {F} (s : vst F) x := Vst (dents s) (dcache s) (dlru s) (mnts s) (mount_tree_root s) (mount_tree_count s) (sb_refs s) x (fs_list s) (fsys s) (vnext s) (vmem s) (vtick s) (vugid s).
Definition w_fsys {F} (s : vst F) (x : F) := Vst (dents s) (dcache s) (dlru s) (mnts s) (mount_tree_root s) (mount_tree_count s) (sb_refs s) (vfs_root s) (fs_list s) x (vnext s) (vmem s) (vtick s) (vugid s).
Definition w_alloc {F} (s : vst F) a t := Vst (dents s) (dcache s) (dlru s) (mnts s) (mount_tree_root s) (mount_tree_count s) (sb_refs s) (vfs_root s) (fs_list s) (fsys s) a (vmem s) t (vugid s).

(** ** The size of the caches *)

(** vfs.c: vfs_get_hash_size, rounding up to a power of two *)
Definition round_up_pow2 (b : Z) : Z :=
  let smear n x := Z.lor x (Z.shiftr x n) in
  u64 (smear 32 (smear 16 (smear 8 (smear 4 (smear 2 (smear 1 (b - 1)))))) + 1).

(** vfs.c: vfs_get_hash_size, for the pages of the machine *)
Definition vfs_get_hash_size (total_pages obj_size scale : Z) : Z :=
  let objs_per_page := TMPFS_PAGE_SIZE / obj_size in
  let max_objs := u64 (total_pages * objs_per_page) in
  let buckets := max_objs / scale in
  let buckets := if buckets <? VFS_HASH_MIN then VFS_HASH_MIN else if VFS_HASH_MAX <? buckets then VFS_HASH_MAX else buckets in
  if buckets =? 0 then 1 else round_up_pow2 buckets.

(** vfs.c: vfs_full_name_hash; characters are signed *)
Definition vfs_full_name_hash (name : list Z) : Z :=
  fold_left (fun h c => u32 (u32 (Z.shiftl h 5) + h + to_signed 8 c)) name 0.

(** vfs.c: vfs_dentry_hash_fn, vfs_dentry_eq_fn, on parent and name *)
Definition vfs_dentry_hash_fn (k : Z * list Z) : Z := u32 (Z.lxor (u32 (fst k)) (vfs_full_name_hash (snd k)) * 0x9e370001).
Definition vfs_dentry_eq_fn (k1 k2 : Z * list Z) : bool := (fst k1 =? fst k2) && bool_decide (snd k1 = snd k2).

(** ** Permissions *)

(** vfs.c: vfs_inode_permission, the test of three permission bits from bit
    [sh] on *)
Definition denied (mode mask sh : Z) : bool :=
  let bit b := negb (Z.land mode (Z.shiftl b sh) =? 0) in
  (negb (Z.land mask MAY_READ =? 0) && negb (bit 4)) ||
  (negb (Z.land mask MAY_WRITE =? 0) && negb (bit 2)) ||
  (negb (Z.land mask MAY_EXEC =? 0) && negb (bit 1)).

(** vfs.c: vfs_inode_permission, for mode and owners of the inode *)
Definition permission (ugid : Z * Z) (attr : Z * Z * Z) (mask : Z) : Z :=
  let '(mode, uid, gid) := attr in
  if fst ugid =? 0 then 0
  else if denied mode mask (if fst ugid =? uid then 6 else if snd ugid =? gid then 3 else 0) then - EACCES else 0.

Section vfs.
Context {F : Type} `{Fs F}.

Abbreviation vm := (ST (vst F)).

(** An access to NULL or to freed memory. *)
Definition vfault {A} : vm A := fun _ => Fault.

Definition valloc : vm Z := fun s =>
  if vmem s (vtick s) then Ok (vnext s, w_alloc s (vnext s + 1) (S (vtick s))) else Ok (0, w_alloc s (vnext s) (S (vtick s))).

Definition get_dent (d : Z) : vm dent := st_deref (fun s => dents s !! d).
Definition upd_dent (d : Z) (f : dent -> dent) : vm unit := e ← get_dent d; st_modify (fun s => w_dents s (<[d := f e]> (dents s))).
Definition get_mnt (m : Z) : vm vfsmount := st_deref (fun s => mnts s !! m).
Definition upd_mnt (m : Z) (f : vfsmount -> vfsmount) : vm unit := x ← get_mnt m; st_modify (fun s => w_mnts s (<[m := f x]> (mnts s))).
Definition on_fs {A} (f : F -> outcome (A * F)) : vm A := fun s => '(a, x) ← f (fsys s); Ok (a, w_fsys s x).
Definition attr_of (x : Z) : vm (Z * Z * Z) := st_deref (fun s => fs_attr (fsys s) x).

Definition d_count (e : dent) n := Dent (vd_parent e) (vd_name e) (vd_named e) (vd_inode e) (vd_flags e) n (vd_subdirs e).
Definition d_set_inode (e : dent) x := Dent (vd_parent e) (vd_name e) (vd_named e) x (vd_flags e) (vd_count e) (vd_subdirs e).
Definition d_set_flags (e : dent) x := Dent (vd_parent e) (vd_name e) (vd_named e) (vd_inode e) x (vd_count e) (vd_subdirs e).
Definition d_add_child (e : dent) d := Dent (vd_parent e) (vd_name e) (vd_named e) (vd_inode e) (vd_flags e) (vd_count e) (vd_subdirs e ++ [d]).
Definition m_set_count (m : vfsmount) n := Mnt (m_sb m) (m_root m) (m_mountpoint m) (m_parent m) (m_flags m) (m_mounts m) n.
Definition m_set_mounts (m : vfsmount) l := Mnt (m_sb m) (m_root m) (m_mountpoint m) (m_parent m) (m_flags m) l (m_count m).

(** ** References *)

(** vfs.c: vfs_dget with vfs_dlru_del *)
Definition vfs_dget (d : Z) : vm unit :=
  e ← get_dent d;
  _ ← upd_dent d (fun e => d_count e (u32 (vd_count e + 1)));
  if vd_count e =? 0 then st_modify (fun s => w_dlru s (filter (fun y => y <> d) (dlru s))) else mret tt.

(** vfs.c: vfs_dput with vfs_dlru_add *)
Definition vfs_dput (d : Z) : vm unit :=
  e ← get_dent d;
  _ ← upd_dent d (fun e => d_count e (u32 (vd_count e - 1)));
  if vd_count e =? 1 then st_modify (fun s => w_dlru s (if bool_decide (d ∈ dlru s) then dlru s else dlru s ++ [d])) else mret tt.

(** vfs.c: vfs_mntget, vfs_mntput *)
Definition vfs_mntget (m : Z) : vm unit := upd_mnt m (fun x => m_set_count x (u32 (m_count x + 1))).
Definition vfs_mntput (m : Z) : vm unit :=
  x ← get_mnt m;
  if m_count x =? 1 then st_modify (fun s => w_mnts s (delete m (mnts s))) else upd_mnt m (fun x => m_set_count x (u32 (m_count x - 1))).

(** vfs.c: vfs_path_get, vfs_path_put *)
Definition vfs_path_get (p : vpath) : vm unit := _ ← vfs_mntget (fst p); vfs_dget (snd p).
Definition vfs_path_put (p : vpath) : vm unit := _ ← vfs_dput (snd p); vfs_mntput (fst p).

(** ** The dentry cache *)

(** vfs.c: vfs_dentry_get_key, read through the dentry *)
Definition vfs_dentry_get_key (s : vst F) (x : Z) : outcome (Z * list Z) :=
  e ← deref (dents s !! x); if vd_named e then Ok (vd_parent e, vd_name e) else Fault.

(** vfs.c: vfs_dcache_add *)
Definition vfs_dcache_add (d : Z) : vm unit := fun s =>
  e ← deref (dents s !! d);
  h ← hash_add vfs_dentry_hash_fn (dcache s) d (vd_parent e, vd_name e);
  Ok (tt, w_dcache s h).

(** vfs.c: vfs_dcache_find; 0 when there is none *)
Definition vfs_dcache_find (parent : Z) (name : list Z) : vm Z :=
  r ← (fun s => r ← hash_lookup vfs_dentry_hash_fn vfs_dentry_eq_fn (dcache s) (parent, name) (vfs_dentry_get_key s); Ok (r, s));
  match r with
  | None => mret 0
  | Some d => _ ← vfs_dget d; mret d
  end.

(** vfs.c: vfs_dalloc; 0 without memory *)
Definition vfs_dalloc (parent : Z) (name : list Z) : vm Z :=
  d ← vfs_dcache_find parent name;
  if negb (d =? 0) then mret d
  else
    d ← valloc;
    if d =? 0 then mret 0
    else
      _ ← (if parent =? 0 then mret tt else vfs_dget parent);
      nm ← valloc;
      _ ← st_modify (fun s => w_dents s (<[d := Dent parent name (negb (nm =? 0)) 0 DCACHE_NONE 1 []]> (dents s)));
      _ ← (if parent =? 0 then mret tt else upd_dent parent (fun e => d_add_child e d));
      mret d.

(** A lookup of the file system for a dentry, which gets the inode. *)
Definition fs_lookup_dentry (dir d : Z) : vm (Z + Z) :=
  e ← get_dent d;
  if negb (vd_named e) then vfault
  else
    r ← on_fs (fs_lookup dir (vd_name e));
    match r with
    | inl err => mret (inl err)
    | inr (other, x) =>
        _ ← (if x =? 0 then mret tt else upd_dent d (fun e => d_set_inode e x));
        mret (inr (if other =? 0 then d else other))
    end.

(** vfs.c: vfs_file_exists; the cache is asked for the name, the file system for
    the whole text that starts with it *)
Definition vfs_file_exists (parent : Z) (name text : list Z) : vm bool :=
  d ← vfs_dcache_find parent name;
  if negb (d =? 0) then
    e ← get_dent d;
    _ ← vfs_dput d;
    mret (negb (vd_inode e =? 0))
  else
    d ← vfs_dalloc parent text;
    if d =? 0 then mret false
    else
      p ← get_dent parent;
      r ← fs_lookup_dentry (vd_inode p) d;
      match r with
      | inl _ => mret false
      | inr found =>
          e ← get_dent found;
          _ ← vfs_dput found;
          mret (negb (vd_inode e =? 0))
      end.

(** ** Mounts *)

(** vfs.c: vfs_attach_mount *)
Definition vfs_attach_mount (m : Z) (mp : vpath) : vm unit :=
  _ ← upd_mnt (fst mp) (fun x => m_set_mounts x (m_mounts x ++ [m]));
  _ ← st_modify (fun s => w_count s (u32 (mount_tree_count s + 1)));
  upd_dent (snd mp) (fun e => d_set_flags e (Z.lor (vd_flags e) DCACHE_MOUNTED)).

(** vfs.c: vfs_find_mount, one turn of the loop over the stack, whose array
    has [total] elements *)
Definition find_mount_turn (total : Z) (d : Z) (stack : list Z) : vm (list Z + Z) :=
  match stack with
  | [] => mret (inr 0)
  | cur :: stack =>
      m ← get_mnt cur;
      if m_mountpoint m =? d then _ ← vfs_mntget cur; mret (inr cur)
      else
        let stack := rev (m_mounts m) ++ stack in
        if total <? Z.of_nat (length stack) then vfault else mret (inl stack)
  end.

(** vfs.c: vfs_find_mount; 0 when there is none or no memory *)
Definition vfs_find_mount (d : Z) : vm Z :=
  total ← st_gets mount_tree_count;
  a ← valloc;
  if a =? 0 then mret 0
  else
    r ← st_gets mount_tree_root;
    n ← st_gets (fun s => S (S (base.size (mnts s))));
    if negb (r =? 0) && (total =? 0) then vfault
    else st_loop n (find_mount_turn total d) (if r =? 0 then [] else [r]).

(** ** Paths *)

Fixpoint skip_slashes (l : list Z) : list Z :=
  match l with c :: r => if c =? SLASH then skip_slashes r else l | [] => [] end.

(** The next name of a path, and the rest. *)
Fixpoint take_name (l : list Z) : list Z * list Z :=
  match l with
  | c :: r => if c =? SLASH then ([], l) else let '(n, r) := take_name r in (c :: n, r)
  | [] => ([], [])
  end.

(** vfs.c: vfs_path_prs_next, the start of a path that has no position yet:
    an error, or the parser *)
Definition prs_start (p : prs) (pwd : vpath) : vm (Z + prs) :=
  match p_curr p with
  | Some _ => mret (inr p)
  | None =>
      a ← valloc;
      if a =? 0 then mret (inl (- ENOMEM))
      else
        rt ← st_gets vfs_root;
        let cur := if bool_decide (head (p_path p) = Some SLASH) then rt else pwd in
        _ ← vfs_path_get cur;
        mret (inr (Prs (p_path p) (Some cur) (p_rest p)))
  end.

(** vfs.c: vfs_path_prs_next, the dentry of a name: an error, or the dentry.
    Without memory the label err_dentry drops a reference of NULL *)
Definition prs_dentry (parent : Z) (name : list Z) : vm (Z + Z) :=
  d ← vfs_dcache_find parent name;
  if negb (d =? 0) then mret (inr d)
  else
    nm ← valloc;
    if nm =? 0 then vfault
    else
      d ← vfs_dalloc parent name;
      if d =? 0 then vfault
      else
        pe ← get_dent parent;
        if vd_inode pe =? 0 then vfault
        else
          r ← fs_lookup_dentry (vd_inode pe) d;
          match r with
          | inl err => _ ← vfs_dput d; mret (inl err)
          | inr found => if found =? d then mret (inr d) else _ ← vfs_dput d; mret (inr found)
          end.

(** vfs.c: vfs_path_prs_next: an error, or the new position ([None] at the
    end of the path); and the parser *)
Definition vfs_path_prs_next (p : prs) (pwd : vpath) : vm ((Z + option vpath) * prs) :=
  r ← prs_start p pwd;
  match r with
  | inl err => mret (inl err, p)
  | inr p =>
      match skip_slashes (p_rest p), p_curr p with
      | [], _ => mret (inr None, Prs (p_path p) (p_curr p) [])
      | rest, Some cur =>
          let '(name, rest) := take_name rest in
          let p := Prs (p_path p) (Some cur) rest in
          r ← prs_dentry (snd cur) name;
          match r with
          | inl err => mret (inl err, p)
          | inr d =>
              a ← valloc;
              if a =? 0 then _ ← vfs_dput d; mret (inl (- ENOMEM), p)
              else
                _ ← vfs_mntget (fst cur);
                _ ← vfs_path_put cur;
                let new := (fst cur, d) in
                mret (inr (Some new), Prs (p_path p) (Some new) rest)
          end
      | _, None => vfault
      end
  end.

(** vfs.c: vfs_readlink *)
Definition vfs_readlink (d : Z) : vm (Z + list Z) :=
  e ← get_dent d;
  if vd_inode e =? 0 then mret (inl (- EINVAL))
  else
    '(mode, _, _) ← attr_of (vd_inode e);
    if negb (S_ISLNK mode) then mret (inl (- EINVAL))
    else on_fs (fun f => r ← fs_readlink (vd_inode e) f; Ok (r, f)).

(** vfs.c: vfs_path_lookup, the frames that are left after an error, the
    outermost first *)
Fixpoint put_frames (l : list prs) : vm unit :=
  match l with
  | [] => mret tt
  | p :: l => _ ← (match p_curr p with Some c => vfs_path_put c | None => mret tt end); put_frames l
  end.
Definition lookup_fail (stack : list prs) (err : Z) : vm (list prs + (Z + vpath)) :=
  _ ← put_frames (rev stack); mret (inr (inl err)).

(** vfs.c: vfs_path_lookup, the end of a path: the position if it has an
    inode of the right kind, or back to the path of the symbolic link *)
Definition lookup_end (flags : Z) (top : prs) (below : list prs) : vm (list prs + (Z + vpath)) :=
  cur ← st_deref (fun _ => p_curr top);
  match below with
  | [] =>
      e ← get_dent (snd cur);
      if vd_inode e =? 0 then lookup_fail [top] (- ENOENT)
      else if negb (Z.land flags LOOKUP_DIRECTORY =? 0) then
        '(mode, _, _) ← attr_of (vd_inode e);
        if negb (S_ISDIR mode) then lookup_fail [top] (- ENOTDIR) else mret (inr (inr cur))
      else mret (inr (inr cur))
  | prev :: below =>
      _ ← (match p_curr prev with Some c => vfs_path_put c | None => mret tt end);
      mret (inl (Prs (p_path prev) (Some cur) (p_rest prev) :: below))
  end.

(** vfs.c: vfs_path_lookup, a position that is a mount point *)
Definition lookup_mounted (top : prs) (below : list prs) (cur : vpath) : vm (list prs + (Z + vpath)) :=
  m ← vfs_find_mount (snd cur);
  if m =? 0 then lookup_fail (top :: below) (- ENOENT)
  else
    a ← valloc;
    if a =? 0 then lookup_fail (top :: below) (- ENOMEM)
    else
      x ← get_mnt m;
      _ ← vfs_dget (m_root x);
      _ ← vfs_path_put cur;
      mret (inl (Prs (p_path top) (Some (m, m_root x)) (p_rest top) :: below)).

(** vfs.c: vfs_path_lookup, a position that is a symbolic link to follow *)
Definition lookup_link (top : prs) (below : list prs) (cur : vpath) : vm (list prs + (Z + vpath)) :=
  if (MAX_SYMLINKS <=? S (length below))%nat then lookup_fail (top :: below) (- ELOOP)
  else
    _ ← vfs_path_get cur;
    r ← vfs_readlink (snd cur);
    match r with
    | inl err => _ ← vfs_path_put cur; lookup_fail (top :: below) err
    | inr target =>
        a ← valloc;
        if a =? 0 then _ ← vfs_path_put cur; lookup_fail (top :: below) (- ENOMEM)
        else
          rt ← st_gets vfs_root;
          let base := if bool_decide (head target = Some SLASH) then rt else cur in
          b ← valloc;
          if b =? 0 then _ ← vfs_path_put cur; lookup_fail (top :: below) (- ENOMEM)
          else _ ← vfs_path_get base; mret (inl (Prs target (Some base) target :: top :: below))
    end.

(** vfs.c: vfs_path_lookup, one turn of the loop; the innermost path comes
    first *)
Definition lookup_turn (flags : Z) (pwd : vpath) (stack : list prs) : vm (list prs + (Z + vpath)) :=
  match stack with
  | [] => vfault
  | top :: below =>
      '(r, top) ← vfs_path_prs_next top pwd;
      match r with
      | inl err => lookup_fail (top :: below) err
      | inr None => lookup_end flags top below
      | inr (Some cur) =>
          e ← get_dent (snd cur);
          if negb (Z.land (vd_flags e) DCACHE_MOUNTED =? 0) then lookup_mounted top below cur
          else
            '(mode, _, _) ← (if vd_inode e =? 0 then vfault else attr_of (vd_inode e));
            if S_ISLNK mode && negb (Z.land flags LOOKUP_FOLLOW =? 0) then lookup_link top below cur
            else mret (inl (top :: below))
      end
  end.

(** vfs.c: vfs_path_lookup in at most [fuel] turns: an error, or the path *)
Definition vfs_path_lookup (fuel : nat) (path : list Z) (flags : Z) (pwd : vpath) : vm (Z + vpath) :=
  a ← valloc;
  if a =? 0 then mret (inl (- ENOMEM))
  else st_loop fuel (lookup_turn flags pwd) [Prs path None path].

(** vfs.c: vfs_path_parent, the path without the slashes at its end, cut at its
    last slash *)
Definition drop_last_slashes (path : list Z) : list Z := rev (skip_slashes (rev path)).
Definition split_last (path : list Z) : option (list Z * list Z) :=
  let '(n, r) := take_name (rev path) in
  match r with [] => None | _ :: d => Some (rev d, rev n) end.

(** vfs.c: vfs_path_parent: an error, or the path of the parent, the last name,
    and the text from it on, which keeps the slashes at the end *)
Definition vfs_path_parent (fuel : nat) (path : list Z) (pwd : vpath) : vm (Z + (vpath * list Z * list Z)) :=
  match drop_last_slashes path with
  | [] => mret (inl (- ENOENT))
  | l =>
      '(dir, name) ←
        (match split_last l with
         | Some ([], n) => r ← vfs_path_lookup fuel [SLASH] LOOKUP_DIRECTORY pwd; mret (r, n)
         | Some (d, n) =>
             a ← valloc;
             if a =? 0 then mret (inl (- ENOMEM), n) else r ← vfs_path_lookup fuel d LOOKUP_DIRECTORY pwd; mret (r, n)
         | None => r ← vfs_path_lookup fuel dot LOOKUP_DIRECTORY pwd; mret (r, l)
         end);
      match dir with inl err => mret (inl err) | inr p => mret (inr (p, name, name ++ drop (length l) path)) end
  end.

(** vfs.c: vfs_inode_permission *)
Definition vfs_inode_permission (x mask : Z) : vm Z :=
  u ← st_gets vugid;
  if fst u =? 0 then mret 0 else a ← attr_of x; mret (permission u a mask).

(** vfs.c: vfs_mkdir; the parent is released in every case, also when there is
    none *)
Definition vfs_mkdir (fuel : nat) (path : list Z) (mode : Z) (pwd : vpath) : vm Z :=
  r ← vfs_path_parent fuel path pwd;
  match r with
  | inl err => vfault
  | inr (parent, name, text) =>
      pe ← get_dent (snd parent);
      err ← vfs_inode_permission (vd_inode pe) (Z.lor MAY_WRITE MAY_EXEC);
      err ← (if negb (err =? 0) then mret err
             else
               nm ← valloc;
               if nm =? 0 then mret (- ENOMEM)
               else
                 d ← vfs_dalloc (snd parent) name;
                 if d =? 0 then mret (- ENOMEM)
                 else
                   exists_ ← vfs_file_exists (snd parent) name text;
                   if exists_ : bool then _ ← vfs_dput d; mret (- EEXIST)
                   else
                     r ← on_fs (fs_mkdir (vd_inode pe) d name (Z.land mode (cnot 32 18)));
                     err ← (match r with
                            | inl err => mret err
                            | inr x => _ ← upd_dent d (fun e => d_set_inode e x); _ ← vfs_dcache_add d; mret 0
                            end);
                     _ ← vfs_dput d;
                     mret err);
      _ ← vfs_path_put parent;
      mret err
  end.

(** vfs.c: vfs_register_filesystem; -EEXIST for a name that is taken *)
Definition vfs_register_filesystem (name : option (list Z)) : vm Z :=
  match name with
  | None => mret (- EINVAL)
  | Some name =>
      l ← st_gets fs_list;
      if bool_decide (name ∈ l) then mret (- EEXIST) else _ ← st_modify (fun s => w_fs_list s (fs_list s ++ [name])); mret 0
  end.

(** vfs.c: vfs_find_filesystem *)
Definition vfs_find_filesystem (name : list Z) : vm bool := l ← st_gets fs_list; mret (bool_decide (name ∈ l)).

(** vfs.c: vfs_get_current_fs, vfs_put_current_fs, for root and working
    directory of the task: true when both could be copied *)
Definition vfs_get_current_fs (root pwd : vpath) : vm (bool * bool) :=
  a ← valloc;
  _ ← (if a =? 0 then mret tt else vfs_path_get root);
  b ← valloc;
  _ ← (if b =? 0 then mret tt else vfs_path_get pwd);
  mret (negb (a =? 0), negb (b =? 0)).
Definition vfs_put_current_fs (got : bool * bool) (root pwd : vpath) : vm unit :=
  _ ← (if fst got then vfs_path_put root else mret tt);
  if snd got then vfs_path_put pwd else mret tt.

(** The names and the mode the source writes out. *)
Definition tmpfs_type : list Z := [116; 109; 112; 102; 115].
Definition dev_dir : list Z := [SLASH; 100; 101; 118].
Definition DEV_MODE : Z := 0x1ED.
Definition devtmpfs : list Z := [100; 101; 118; 116; 109; 112; 102; 115].

(** The dentry a file system makes for the root of a mount. *)
Definition root_dent (x : Z) : vm Z :=
  d ← st_gets vnext;
  _ ← st_modify (fun s => w_dents (w_alloc s (d + 1) (vtick s)) (<[d := Dent 0 [SLASH] true x DCACHE_NONE 1 []]> (dents s)));
  mret d.

(** vfs.c: vfs_mount, from the call of the file system on: an error, or the
    mount *)
Definition mount_fs (type : list Z) (dev_name data : option (list Z)) (flags : Z) (mp : vpath) : vm (Z + Z) :=
  r ← on_fs (fs_mount type dev_name data);
  match r with
  | inl err => _ ← vfs_path_put mp; mret (inl err)
  | inr (sb, x) =>
      d ← root_dent x;
      m ← valloc;
      if m =? 0 then _ ← vfs_dput d; _ ← vfs_path_put mp; mret (inl (- ENOMEM))
      else
        _ ← st_modify (fun s => w_mnts s (<[m := Mnt sb d (snd mp) (fst mp) flags [] 1]> (mnts s)));
        _ ← vfs_mntget (fst mp);
        _ ← vfs_dget (snd mp);
        _ ← st_modify (fun s => w_sb_refs s (<[sb := u32 (default 1 (sb_refs s !! sb) + 1)]> (sb_refs s)));
        _ ← vfs_attach_mount m mp;
        _ ← vfs_path_put mp;
        mret (inr m)
  end.

(** vfs.c: vfs_mount, from the path of the mount point on.  A type that is not
    registered is not noticed: after the loop the variable points to the head
    of the list, which is no file system *)
Definition mount_at (dev_name type data : option (list Z)) (flags : Z) (mp : vpath) : vm (Z + Z) :=
  match type with
  | None => _ ← vfs_path_put mp; mret (inl (- EINVAL))
  | Some type =>
      known ← vfs_find_filesystem type;
      if known : bool then mount_fs type dev_name data flags mp else vfault
  end.

(** vfs.c: vfs_root_mount; without memory the tree keeps the mount that was
    freed, and if tmpfs fails a reference of NULL is dropped *)
Definition vfs_root_mount : vm Z :=
  known ← vfs_find_filesystem tmpfs_type;
  if negb known then mret (- ENODEV)
  else
    r ← on_fs (fs_mount tmpfs_type None None);
    match r with
    | inl err => vfault
    | inr (sb, x) =>
        d ← root_dent x;
        m ← valloc;
        if m =? 0 then _ ← vfs_dput d; mret (- ENOMEM)
        else
          _ ← st_modify (fun s => w_tree (w_mnts s (<[m := Mnt sb d 0 0 0 [] 1]> (mnts s))) m);
          a ← valloc;
          if a =? 0 then _ ← st_modify (fun s => w_mnts s (delete m (mnts s))); _ ← vfs_dput d; mret (- ENOMEM)
          else _ ← vfs_path_get (m, d); _ ← st_modify (fun s => w_root s (m, d)); mret 0
    end.

(** vfs.c: vfs_dev_mount *)
Definition vfs_dev_mount (fuel : nat) : vm Z :=
  rt ← st_gets vfs_root;
  err ← vfs_mkdir fuel dev_dir DEV_MODE rt;
  if negb (err =? 0) then mret err
  else
    rt ← st_gets vfs_root;
    r ← vfs_path_lookup fuel dev_dir LOOKUP_FOLLOW rt;
    match r with
    | inl err => mret err
    | inr mp =>
        known ← vfs_find_filesystem tmpfs_type;
        if negb known then _ ← vfs_path_put mp; mret (- ENODEV)
        else r ← mount_fs tmpfs_type None None MS_NOUSER mp; mret (match r with inl err => err | inr _ => 0 end)
    end.

(** vfs.c: vfs_mount *)
Definition vfs_mount (fuel : nat) (dev_name dir_name type data : option (list Z)) (flags : Z) (from_kernel : bool) (root pwd : vpath) : vm (Z + Z) :=
  match dir_name with
  | None => mret (inl (- EINVAL))
  | Some dir_name =>
      if negb from_kernel && negb (Z.land flags MS_NOUSER =? 0) then mret (inl (- EINVAL))
      else if negb from_kernel && bool_decide (type = Some devtmpfs) then mret (inl (- EPERM))
      else
        got ← vfs_get_current_fs root pwd;
        if negb (fst got && snd got) then _ ← vfs_put_current_fs got root pwd; mret (inl (- ENOMEM))
        else
          r ← vfs_path_lookup fuel dir_name LOOKUP_DIRECTORY pwd;
          r ← (match r with inl err => mret (inl err) | inr mp => mount_at dev_name type data flags mp end);
          _ ← vfs_put_current_fs got root pwd;
          mret r
  end.

(** vfs.c: vfs_umount, from the path of the mount point on *)
Definition umount_at (from_kernel : bool) (mp : vpath) : vm Z :=
  m ← get_mnt (fst mp);
  if negb from_kernel && negb (Z.land (m_flags m) MS_NOUSER =? 0) then _ ← vfs_path_put mp; mret (- EPERM)
  else
    match m_mounts m with
    | _ :: _ => _ ← vfs_path_put mp; mret (- EBUSY)
    | [] =>
        _ ← upd_mnt (m_parent m) (fun x => m_set_mounts x (filter (fun y => y <> fst mp) (m_mounts x)));
        _ ← upd_dent (snd mp) (fun e => d_set_flags e (Z.land (vd_flags e) (cnot 32 DCACHE_MOUNTED)));
        n ← st_deref (fun s => sb_refs s !! m_sb m);
        _ ← st_modify (fun s => w_sb_refs s (<[m_sb m := u32 (n - 1)]> (sb_refs s)));
        _ ← (if n =? 1 then on_fs (fun f => f ← fs_kill_sb (m_sb m) f; Ok (tt, f)) else mret tt);
        _ ← vfs_mntput (fst mp);
        _ ← vfs_path_put mp;
        mret 0
    end.

(** vfs.c: vfs_umount *)
Definition vfs_umount (fuel : nat) (dir_name : option (list Z)) (flags : Z) (from_kernel : bool) (root pwd : vpath) : vm Z :=
  match dir_name with
  | None => mret (- EINVAL)
  | Some dir_name =>
      if negb (flags =? 0) then mret (- EINVAL)
      else
        got ← vfs_get_current_fs root pwd;
        if negb (fst got && snd got) then _ ← vfs_put_current_fs got root pwd; mret (- ENOMEM)
        else
          r ← vfs_path_lookup fuel dir_name LOOKUP_DIRECTORY pwd;
          err ← (match r with inl err => mret err | inr mp => umount_at from_kernel mp end);
          _ ← vfs_put_current_fs got root pwd;
          mret err
  end.

End vfs.
