(* ===== verification/VfsSpec.v ===== *)
(** * The virtual file system: the dentry cache and single steps

    The invariant of the dentries over a file system that is a tree of names,
    and what the operations on dentries do. *)

From S2P Require Import Prelude StateM Hash Tmpfs Vfs.

Local Open Scope Z_scope.

(** ** Sizes of hash tables *)

(** Bit [i] of [y] says whether one of the [k] bits of [x] from [i] on is set. *)
Definition covers (k y x : Z) : Prop := forall i, 0 <= i -> Z.testbit y i = true <-> exists j, 0 <= j < k /\ Z.testbit x (i + j) = true.

Lemma covers_start x : covers 1 x x.
Proof. intros i Hi. split; [intros E; exists 0; by rewrite Z.add_0_r|]. intros (j & Hj & E). by replace (i + j) with i in E by lia. Qed.

Lemma covers_smear k n y x : 0 <= n <= k -> covers k y x -> covers (k + n) (Z.lor y (Z.shiftr y n)) x.
Proof.
  intros Hn Hc i Hi. rewrite Z.lor_spec, Z.shiftr_spec by done. rewrite orb_true_iff, (Hc i Hi), (Hc (i + n)) by lia. split.
  - intros [(j & Hj & E)|(j & Hj & E)]; [exists j; split; [lia|done]|]. exists (n + j). split; [lia|]. by replace (i + (n + j)) with (i + n + j) by lia.
  - intros (j & Hj & E). destruct (Z.lt_ge_cases j k); [left; exists j; split; [lia|done]|]. right. exists (j - n). split; [lia|]. by replace (i + n + (j - n)) with (i + j) by lia.
Qed.

Lemma covers_all k y x : 0 < x < 2 ^ k -> 0 <= k -> 0 <= y -> covers k y x -> y = 2 ^ (Z.log2 x + 1) - 1.
Proof.
  intros Hx Hk Hy Hc. pose proof (Z.log2_nonneg x).  replace (2 ^ (Z.log2 x + 1) - 1) with (Z.ones (Z.log2 x + 1)) by (rewrite Z.ones_equiv; lia).
  apply Z.bits_inj'. intros i Hi. destruct (Z.le_gt_cases i (Z.log2 x)) as [Hle|Hgt].
  - rewrite Z.ones_spec_low by lia. apply (Hc i Hi). exists (Z.log2 x - i). assert (Z.log2 x < k) by (apply Z.log2_lt_pow2; lia). split; [lia|].
    replace (i + (Z.log2 x - i)) with (Z.log2 x) by lia. apply Z.bit_log2. lia.
  - rewrite Z.ones_spec_high by lia. apply not_true_iff_false. intros E. apply (Hc i Hi) in E as (j & Hj & E). rewrite Z.bits_above_log2 in E by lia. done.
Qed.

Lemma round_up_pow2_spec b : 1 < b <= 2 ^ 63 -> exists n, round_up_pow2 b = 2 ^ n /\ 2 ^ (n - 1) < b <= 2 ^ n /\ 1 <= n <= 63.
Proof.
  intros Hb. set (x := b - 1). assert (0 < x < 2 ^ 63) as Hx by lia. pose proof (Z.log2_nonneg x) as H0. assert (Z.log2 x < 63) as Hl by (apply Z.log2_lt_pow2; lia).
  unfold round_up_pow2. fold x. set (y := Z.lor _ (Z.shiftr _ 32)).
  assert (covers 64 y x) as Hc.
  { unfold y. apply (covers_smear 32); [lia|]. apply (covers_smear 16); [lia|]. apply (covers_smear 8); [lia|]. apply (covers_smear 4); [lia|]. apply (covers_smear 2); [lia|]. apply (covers_smear 1); [lia|]. apply covers_start. }
  assert (forall n z, 0 <= z -> 0 <= Z.lor z (Z.shiftr z n)) as Hpos by (intros n z Hz; apply Z.lor_nonneg; split; [done|by apply Z.shiftr_nonneg]).
  assert (0 <= y) as Hy by (unfold y; repeat (apply Hpos); lia).
  rewrite (covers_all 64 y x) by (done || lia). exists (Z.log2 x + 1). destruct (Z.log2_spec x) as [L1 L2]; [lia|]. rewrite <- Z.add_1_r in L2.
  assert (2 ^ (Z.log2 x + 1) <= 2 ^ 63) by (apply Z.pow_le_mono_r; lia). rewrite wrap_small by (unfold fits; lia). split; [lia|].
  replace (Z.log2 x + 1 - 1) with (Z.log2 x) by lia. lia.
Qed.

(** The caches have a power of two of buckets, as hash tables need, from 2^8
    to 2^18. *)
Theorem vfs_get_hash_size_pow2 total_pages obj_size scale : 0 < obj_size -> 0 < scale ->
  exists n, vfs_get_hash_size total_pages obj_size scale = 2 ^ n /\ 8 <= n <= 18.
Proof.
  intros _ _. unfold vfs_get_hash_size. set (b := _ / scale). set (b' := if b <? VFS_HASH_MIN then VFS_HASH_MIN else if VFS_HASH_MAX <? b then VFS_HASH_MAX else b).
  assert (2 ^ 8 <= b' <= 2 ^ 18) as Hb by (unfold b', VFS_HASH_MIN, VFS_HASH_MAX; change (Z.shiftl 1 18) with (2 ^ 18); destruct (Z.ltb_spec b 256); [lia|]; destruct (Z.ltb_spec (2 ^ 18) b); lia).
  rewrite (proj2 (Z.eqb_neq b' 0)) by lia. destruct (round_up_pow2_spec b') as (n & -> & Hn & Hn1); [lia|]. exists n. split; [done|].
  assert (n - 1 < 18) by (apply (Z.pow_lt_mono_r_iff 2); lia). assert (8 <= n) by (apply (Z.pow_le_mono_r_iff 2); lia). lia.
Qed.

(** ** File systems as trees of names *)

(** What path resolution needs of a file system: its names form a tree, which
    a lookup reports and does not change. *)
Class FsTree (F : Type) `{Fs F} := {
  fs_inv : F -> Prop;
  tree : Z -> list Z -> option Z;
  tree_lookup f dir name : fs_inv f -> is_Some (fs_attr f dir) ->
    exists f', fs_lookup dir name f = Ok (inr (0, default 0 (tree dir name)), f') /\ fs_inv f' /\ forall x, fs_attr f' x = fs_attr f x;
  tree_live f dir name x : fs_inv f -> is_Some (fs_attr f dir) -> tree dir name = Some x -> x <> 0 /\ is_Some (fs_attr f x)
}.

#[export] Instance dentry_hash_laws : HashLaws vfs_dentry_hash_fn vfs_dentry_eq_fn.
Proof.
  split.
  - intros k. apply wrap_fits. lia.
  - intros [a b] [c d]. unfold vfs_dentry_eq_fn. cbn. intros E. apply andb_true_iff in E as [E1 E2]. apply Z.eqb_eq in E1. apply bool_decide_eq_true in E2. by subst.
Qed.

Lemma dentry_eq_iff k k' : vfs_dentry_eq_fn k k' = true <-> k = k'.
Proof.
  destruct k as [a b], k' as [c d]. unfold vfs_dentry_eq_fn. cbn. rewrite andb_true_iff, Z.eqb_eq, bool_decide_eq_true. split; [by intros [-> ->]|by intros [= -> ->]].
Qed.

Section spec.
Context {F : Type} `{FsTree F}.

Lemma get_dent_run (s : vst F) d e : dents s !! d = Some e -> get_dent d s = Ok (e, s).
Proof. intros E. unfold get_dent, st_deref. by rewrite E. Qed.
Lemma upd_dent_run (s : vst F) d e f : dents s !! d = Some e -> upd_dent d f s = Ok (tt, w_dents s (<[d := f e]> (dents s))).
Proof. intros E. unfold upd_dent. by rewrite (st_step _ _ _ _ _ (get_dent_run s d e E)). Qed.
Lemma get_mnt_run (s : vst F) m x : mnts s !! m = Some x -> get_mnt m s = Ok (x, s).
Proof. intros E. unfold get_mnt, st_deref. by rewrite E. Qed.
Lemma upd_mnt_run (s : vst F) m x f : mnts s !! m = Some x -> upd_mnt m f s = Ok (tt, w_mnts s (<[m := f x]> (mnts s))).
Proof. intros E. unfold upd_mnt. by rewrite (st_step _ _ _ _ _ (get_mnt_run s m x E)). Qed.

(** The key the cache reads through a dentry. *)
Definition dkey (s : vst F) (d : Z) : option (Z * list Z) :=
  e ← dents s !! d; if vd_named e then Some (vd_parent e, vd_name e) else None.

Lemma dget_key_eq s d : vfs_dentry_get_key s d = deref (dkey s d).
Proof. unfold vfs_dentry_get_key, dkey. destruct (dents s !! d) as [e|]; [|done]. cbn. by destruct (vd_named e). Qed.

(** What a dentry says about the tree, the reference count and the children
    aside. *)
Definition same_dent (e e' : dent) : Prop :=
  vd_parent e' = vd_parent e /\ vd_name e' = vd_name e /\ vd_named e' = vd_named e /\ vd_inode e' = vd_inode e /\ vd_flags e' = vd_flags e.

(** Every allocation succeeds, cached dentries are in their buckets and agree
    with the tree, no dentry is a mount point, and inodes are live. *)
Record vinv (s : vst F) : Prop := {
  vi_mem n : vmem s n = true;
  vi_next : 0 < vnext s;
  vi_addr d e : dents s !! d = Some e -> 0 < d < vnext s;
  vi_cache : hash_wf vfs_dentry_hash_fn (dcache s) (dkey s);
  vi_coherent d e : d ∈ hash_nodes (dcache s) -> dents s !! d = Some e ->
    exists p, dents s !! vd_parent e = Some p /\ vd_inode e = default 0 (tree (vd_inode p) (vd_name e));
  vi_flags d e : dents s !! d = Some e -> Z.land (vd_flags e) DCACHE_MOUNTED = 0;
  vi_live d e : dents s !! d = Some e -> vd_inode e = 0 \/ is_Some (fs_attr (fsys s) (vd_inode e));
  vi_fs : fs_inv (fsys s)
}.

(** A step that leaves the known dentries as they are, and the rest of the
    state that path resolution reads. *)
Record vext (s s' : vst F) : Prop := {
  vx_dents d e : dents s !! d = Some e -> exists e', dents s' !! d = Some e' /\ same_dent e e';
  vx_attr x : fs_attr (fsys s') x = fs_attr (fsys s) x;
  vx_root : vfs_root s' = vfs_root s;
  vx_mnts : mnts s' = mnts s
}.

Lemma same_dent_refl e : same_dent e e.
Proof. done. Qed.

Lemma vext_refl s : vext s s.
Proof. split; try done. intros d e E. by exists e. Qed.

Lemma vext_trans s1 s2 s3 : vext s1 s2 -> vext s2 s3 -> vext s1 s3.
Proof.
  intros [A1 A2 A3 A4] [B1 B2 B3 B4]. split; try congruence.
  intros d e E. destruct (A1 d e E) as (e1 & E1 & P1 & P2 & P3 & P4 & P5). destruct (B1 d e1 E1) as (e2 & E2 & Q1 & Q2 & Q3 & Q4 & Q5). exists e2. split; [done|].
  split; [congruence|]. split; [congruence|]. split; [congruence|]. split; congruence.
Qed.

(** A dentry changes in what the tree does not depend on. *)
Lemma vinv_same s d e e' l : vinv s -> dents s !! d = Some e -> same_dent e e' ->
  vinv (w_dlru (w_dents s (<[d := e']> (dents s))) l) /\ vext s (w_dlru (w_dents s (<[d := e']> (dents s))) l).
Proof.
  intros Hv Hd (P1 & P2 & P3 & P4 & P5). set (s' := w_dlru _ _).
  assert (forall x y, dents s' !! x = Some y -> exists y0, dents s !! x = Some y0 /\ same_dent y0 y) as Hback.
  { intros x y. cbn. destruct (decide (x = d)) as [->|Hx]; [rewrite lookup_insert_eq; intros [= <-]; by exists e|]. rewrite lookup_insert_ne by done. intros E. by exists y. }
  assert (forall x y, dents s !! x = Some y -> exists y', dents s' !! x = Some y' /\ same_dent y y') as Hfor.
  { intros x y E. cbn. destruct (decide (x = d)) as [->|Hx]; [rewrite lookup_insert_eq; exists e'; split; [done|]; assert (y = e) as -> by congruence; done|]. rewrite lookup_insert_ne by done. by exists y. }
  assert (forall x, dkey s' x = dkey s x) as Hk.
  { intros x. unfold dkey. destruct (dents s !! x) as [y|] eqn:Ey.
    - destruct (Hfor x y Ey) as (y' & -> & Q1 & Q2 & Q3 & _). cbn. by rewrite Q1, Q2, Q3.
    - destruct (dents s' !! x) as [y'|] eqn:Ey'; [|done]. destruct (Hback x y' Ey') as (y & E & _). congruence. }
  split; [|split; [exact Hfor|done|done|done]]. split; cbn [vmem vnext dcache fsys s' w_dents w_dlru].
  - apply (vi_mem s Hv).
  - apply (vi_next s Hv).
  - intros x y Ey. destruct (Hback x y Ey) as (y0 & E0 & _). by apply (vi_addr s Hv x y0).
  - destruct (vi_cache s Hv) as [Hp Hks]. split; [done|]. intros i b x Eb Hx. rewrite Hk. by eapply Hks.
  - intros x y Hx Ey. destruct (Hback x y Ey) as (y0 & E0 & Q1 & Q2 & _ & Q4 & _). destruct (vi_coherent s Hv x y0 Hx E0) as (p & Ep & Hi).
    destruct (Hfor _ _ Ep) as (p' & Ep' & _ & _ & _ & R4 & _). exists p'. rewrite Q1, Q2, Q4, R4. by split.
  - intros x y Ey. destruct (Hback x y Ey) as (y0 & E0 & _ & _ & _ & _ & Q5). rewrite Q5. by apply (vi_flags s Hv x).
  - intros x y Ey. destruct (Hback x y Ey) as (y0 & E0 & _ & _ & _ & Q4 & _). rewrite Q4. by apply (vi_live s Hv x).
  - apply (vi_fs s Hv).
Qed.

(** References only change the count and the list of unused dentries. *)
Definition touched (s : vst F) (d : Z) (e : dent) (s' : vst F) : Prop := exists e' l, same_dent e e' /\ s' = w_dlru (w_dents s (<[d := e']> (dents s))) l.

Lemma touched_inv s d e s' : vinv s -> dents s !! d = Some e -> touched s d e s' -> vinv s' /\ vext s s'.
Proof. intros Hv Hd (e' & l & Hs & ->). by apply (vinv_same s d e). Qed.

Lemma dget_touch s d e : dents s !! d = Some e -> exists s', vfs_dget d s = Ok (tt, s') /\ touched s d e s'.
Proof.
  intros Hd. unfold vfs_dget. rewrite (st_step _ _ _ _ _ (get_dent_run s d e Hd)), (st_step _ _ _ _ _ (upd_dent_run s d e _ Hd)).
  destruct (vd_count e =? 0); (eexists; split; [reflexivity|]); eexists _, _; (split; [|reflexivity || (instantiate (1 := dlru s); by destruct s)]); done.
Qed.

Lemma dput_touch s d e : dents s !! d = Some e -> exists s', vfs_dput d s = Ok (tt, s') /\ touched s d e s'.
Proof.
  intros Hd. unfold vfs_dput. rewrite (st_step _ _ _ _ _ (get_dent_run s d e Hd)), (st_step _ _ _ _ _ (upd_dent_run s d e _ Hd)).
  destruct (vd_count e =? 1); (eexists; split; [reflexivity|]); eexists _, _; (split; [|reflexivity || (instantiate (1 := dlru s); by destruct s)]); done.
Qed.

Lemma dget_run s d e : vinv s -> dents s !! d = Some e -> exists s', vfs_dget d s = Ok (tt, s') /\ vinv s' /\ vext s s'.
Proof. intros Hv Hd. destruct (dget_touch s d e Hd) as (s' & E & Ht). exists s'. split; [done|]. by apply (touched_inv s d e). Qed.

Lemma dput_run s d e : vinv s -> dents s !! d = Some e -> exists s', vfs_dput d s = Ok (tt, s') /\ vinv s' /\ vext s s'.
Proof. intros Hv Hd. destruct (dput_touch s d e Hd) as (s' & E & Ht). exists s'. split; [done|]. by apply (touched_inv s d e). Qed.

Definition uncached (s : vst F) (parent : Z) (name : list Z) : Prop := forall x, x ∈ hash_nodes (dcache s) -> dkey s x <> Some (parent, name).

(** The cache finds a dentry of the name, or there is none. *)
Lemma dcache_find_run s parent name : vinv s ->
  exists r s', vfs_dcache_find parent name s = Ok (r, s') /\ vinv s' /\ vext s s' /\
    ((r = 0 /\ s' = s /\ uncached s parent name) \/ (r <> 0 /\ r ∈ hash_nodes (dcache s) /\ dkey s r = Some (parent, name))).
Proof.
  intros Hv. destruct (hash_lookup_spec vfs_dentry_hash_fn vfs_dentry_eq_fn (dcache s) (dkey s) (parent, name) (vi_cache s Hv)) as (r & E & Hr).
  assert ((fun s => r ← hash_lookup vfs_dentry_hash_fn vfs_dentry_eq_fn (dcache s) (parent, name) (vfs_dentry_get_key s); Ok (r, s)) s = Ok (r, s)) as El.
  { unfold hash_lookup in *. destruct (deref _) as [b| |]; [|done|done]. rewrite Ok_bind in *.
    replace (bucket_find vfs_dentry_eq_fn (vfs_dentry_get_key s) (parent, name) b) with (bucket_find vfs_dentry_eq_fn (fun x => deref (dkey s x)) (parent, name) b); [by rewrite E|].
    clear. induction b as [|x b IH]; cbn; [done|]. by rewrite dget_key_eq, IH. }
  unfold vfs_dcache_find. rewrite (st_step _ _ _ _ _ El). destruct r as [d|].
  - destruct Hr as (Hin & k & Ek & Eq). apply dentry_eq_iff in Eq as <-. pose proof Ek as Ek'. unfold dkey in Ek. destruct (dents s !! d) as [e|] eqn:Ed; [|done].
    destruct (dget_run s d e Hv Ed) as (s' & E' & Hv' & Hx). rewrite (st_step _ _ _ _ _ E'). exists d, s'. split; [done|]. split; [done|]. split; [done|]. right.
    pose proof (vi_addr s Hv d e Ed). split; [lia|done].
  - exists 0, s. split; [done|]. split; [done|]. split; [apply vext_refl|]. left. split; [done|]. split; [done|]. intros x Hx Ek. specialize (Hr x _ Hx Ek).
    by rewrite (proj2 (dentry_eq_iff _ _) eq_refl) in Hr.
Qed.

(** ** New dentries *)

Lemma vinv_alloc s t : vinv s -> vinv (w_alloc s (vnext s + 1) t) /\ vext s (w_alloc s (vnext s + 1) t).
Proof.
  intros [A1 A2 A3 A4 A5 A6 A7 A8]. split; [split; try done; cbn; [lia|]|split; try done; intros d e E; by exists e]. intros d e E. specialize (A3 d e E). lia.
Qed.

Lemma valloc_run s : vinv s -> exists s', valloc s = Ok (vnext s, s') /\ s' = w_alloc s (vnext s + 1) (S (vtick s)) /\ vinv s' /\ vext s s' /\ vnext s =? 0 = false.
Proof.
  intros Hv. unfold valloc. rewrite (vi_mem s Hv). eexists. split; [reflexivity|]. split; [done|]. destruct (vinv_alloc s (S (vtick s)) Hv) as [H1 H2]. split; [done|]. split; [done|].
  pose proof (vi_next s Hv). lia.
Qed.

Lemma cached_dent s d : vinv s -> d ∈ hash_nodes (dcache s) -> is_Some (dents s !! d).
Proof.
  intros Hv Hd. apply hash_nodes_elem in Hd as (i & b & Eb & Hd). destruct (hw_keys _ _ _ (vi_cache s Hv) i b d Eb Hd) as (k & Ek & _). unfold dkey in Ek. by destruct (dents s !! d).
Qed.

(** A dentry that is new or not in the cache may become anything live. *)
Lemma vinv_set s d e : vinv s -> d ∉ hash_nodes (dcache s) -> 0 < d < vnext s -> Z.land (vd_flags e) DCACHE_MOUNTED = 0 ->
  (vd_inode e = 0 \/ is_Some (fs_attr (fsys s) (vd_inode e))) -> (forall x y, x ∈ hash_nodes (dcache s) -> dents s !! x = Some y -> vd_parent y <> d) ->
  vinv (w_dents s (<[d := e]> (dents s))).
Proof.
  intros Hv Hnc Hd Hfl Hl Hpar. set (s' := w_dents s _).
  assert (forall x, x ∈ hash_nodes (dcache s) -> dents s' !! x = dents s !! x) as Hsame by (intros x Hx; cbn; apply lookup_insert_ne; congruence).
  split; cbn [vmem vnext dcache fsys s' w_dents].
  - apply (vi_mem s Hv).
  - apply (vi_next s Hv).
  - intros x y Ey. cbn in Ey. apply lookup_insert_Some in Ey as [[<- _]|[_ Ey]]; [done|by apply (vi_addr s Hv x y)].
  - destruct (vi_cache s Hv) as [Hp Hks]. split; [done|]. intros i b x Eb Hx. unfold dkey. rewrite Hsame by (apply hash_nodes_elem; by eexists _, _). by apply (Hks i b x Eb Hx).
  - intros x y Hx Ey. change (dents s' !! x = Some y) in Ey. rewrite Hsame in Ey by done. destruct (vi_coherent s Hv x y Hx Ey) as (p & Ep & Hi). exists p. split; [|done].
    cbn. rewrite lookup_insert_ne; [done|]. apply not_eq_sym. by apply (Hpar x y).
  - intros x y Ey. cbn in Ey. apply lookup_insert_Some in Ey as [[_ <-]|[_ Ey]]; [done|by apply (vi_flags s Hv x)].
  - intros x y Ey. cbn in Ey. apply lookup_insert_Some in Ey as [[_ <-]|[_ Ey]]; [done|by apply (vi_live s Hv x)].
  - apply (vi_fs s Hv).
Qed.

Lemma parent_known s x y d : vinv s -> x ∈ hash_nodes (dcache s) -> dents s !! x = Some y -> dents s !! d = None -> vd_parent y <> d.
Proof. intros Hv Hx Ey Hd E. destruct (vi_coherent s Hv x y Hx Ey) as (p & Ep & _). congruence. Qed.

(** A dentry for a name that is not cached. *)
Lemma dalloc_run s parent name pe : vinv s -> dents s !! parent = Some pe -> uncached s parent name ->
  exists d s', vfs_dalloc parent name s = Ok (d, s') /\ vinv s' /\ vext s s' /\ d <> 0 /\ dents s !! d = None /\
    dents s' !! d = Some (Dent parent name true 0 DCACHE_NONE 1 []) /\ dcache s' = dcache s /\ (forall x y, x ∈ hash_nodes (dcache s') -> dents s' !! x = Some y -> vd_parent y <> d).
Proof.
  intros Hv Hp Hunc. unfold vfs_dalloc. destruct (dcache_find_run s parent name Hv) as (r & s0 & E0 & _ & _ & [(-> & -> & _)|(_ & Hin & Hk)]); [|by destruct (Hunc r Hin)].
  rewrite (st_step _ _ _ _ _ E0). cbn [negb Z.eqb]. destruct (valloc_run s Hv) as (s1 & E1 & Hs1 & Hv1 & Hx1 & Hz1). rewrite (st_step _ _ _ _ _ E1), Hz1. set (d := vnext s) in *.
  assert (dents s !! d = None) as Hd. { destruct (dents s !! d) as [e|] eqn:E; [|done]. pose proof (vi_addr s Hv d e E). lia. }
  pose proof (vi_addr s Hv parent pe Hp) as Hpa. rewrite (proj2 (Z.eqb_neq parent 0)) by lia. assert (parent <> d) as Hne by (unfold d; lia).
  assert (dents s1 !! parent = Some pe) as Hp1 by (by rewrite Hs1). destruct (dget_touch s1 parent pe Hp1) as (s2 & E2 & Ht). rewrite (st_step _ _ _ _ _ E2).
  destruct (touched_inv s1 parent pe s2 Hv1 Hp1 Ht) as [Hv2 Hx2]. destruct Ht as (pe' & l & Hsame & Es2).
  destruct (valloc_run s2 Hv2) as (s3 & E3 & Hs3 & Hv3 & Hx3 & Hz3). rewrite (st_step _ _ _ _ _ E3), Hz3. cbn [negb]. rewrite st_modify_step.
  assert (dents s3 = <[parent := pe']> (dents s)) as Hd3 by (rewrite Hs3, Es2, Hs1; done). assert (dcache s3 = dcache s) as Hc3 by (rewrite Hs3, Es2, Hs1; done).
  assert (dents s3 !! d = None) as Hn3 by (rewrite Hd3, lookup_insert_ne by done; exact Hd). assert (d ∉ hash_nodes (dcache s3)) as Hnc by (intros Hin; destruct (cached_dent s3 d Hv3 Hin); congruence).
  assert (0 < d < vnext s3) as Hda by (rewrite Hs3, Es2, Hs1; cbn; pose proof (vi_next s Hv); unfold d; lia).
  set (e0 := Dent parent name true 0 DCACHE_NONE 1 []). assert (vinv (w_dents s3 (<[d := e0]> (dents s3)))) as Hv4.
  { apply vinv_set; try done; [by left|]. intros x y Hx Ey. by apply (parent_known s3 x y d). }
  set (s4 := w_dents s3 _) in *. assert (dents s4 !! parent = Some pe') as Hp4 by (cbn; rewrite lookup_insert_ne by done; rewrite Hd3; apply lookup_insert_eq).
  rewrite (st_step _ _ _ _ _ (upd_dent_run s4 parent pe' _ Hp4)). destruct (vinv_same s4 parent pe' (d_add_child pe' d) (dlru s4) Hv4 Hp4) as [Hv5 Hx5]; [done|].
  set (s5 := w_dents s4 _). assert (w_dlru s5 (dlru s4) = s5) as Es5 by done. change (w_dlru (w_dents s4 (<[parent := d_add_child pe' d]> (dents s4))) (dlru s4)) with s5 in Hv5, Hx5.
  assert (vext s3 s4) as Hx4. { split; try done. intros x y Ey. exists y. split; [|done]. cbn. rewrite lookup_insert_ne; [done|]. congruence. }
  exists d, s5. split; [done|]. split; [done|]. split; [by eapply vext_trans; [|by eapply vext_trans; [|by eapply vext_trans; [|by eapply vext_trans; [exact Hx4|exact Hx5]]]]|].
  split; [pose proof (vi_next s Hv); unfold d; lia|]. split; [done|]. split; [cbn; rewrite lookup_insert_ne by done; apply lookup_insert_eq|]. split; [exact Hc3|].
  intros x y Hx Ey. cbn in Ey. change (hash_nodes (dcache s5)) with (hash_nodes (dcache s3)) in Hx. destruct (cached_dent s3 x Hv3 Hx) as [z Ez]. assert (x <> d) as Hxd by congruence.
  assert (vd_parent y = vd_parent z) as ->; [|by apply (parent_known s3 x z d)].
  destruct (decide (x = parent)) as [->|Hxp]; [rewrite lookup_insert_eq in Ey|rewrite !lookup_insert_ne in Ey by done; congruence].
  injection Ey as <-. cbn. rewrite Hd3, lookup_insert_eq in Ez. by injection Ez as <-.
Qed.

Lemma vinv_fsys s f : vinv s -> fs_inv f -> (forall x, fs_attr f x = fs_attr (fsys s) x) -> vinv (w_fsys s f) /\ vext s (w_fsys s f).
Proof.
  intros [A1 A2 A3 A4 A5 A6 A7 A8] Hf Ha. split; [split; try done|split; try done; intros d e E; by exists e]. intros d e E. cbn. rewrite Ha. by apply (A7 d).
Qed.

(** The file system binds a new dentry to the inode of its name. *)
Lemma fs_lookup_dentry_run s dir d e : vinv s -> dents s !! d = Some e -> vd_named e = true -> vd_inode e = 0 -> d ∉ hash_nodes (dcache s) ->
  (forall x y, x ∈ hash_nodes (dcache s) -> dents s !! x = Some y -> vd_parent y <> d) -> is_Some (fs_attr (fsys s) dir) ->
  exists s' e', fs_lookup_dentry dir d s = Ok (inr d, s') /\ vinv s' /\ dents s' !! d = Some e' /\ vd_inode e' = default 0 (tree dir (vd_name e)) /\
    (forall x y, x <> d -> dents s !! x = Some y -> dents s' !! x = Some y) /\ (forall x, fs_attr (fsys s') x = fs_attr (fsys s) x) /\ vfs_root s' = vfs_root s /\ mnts s' = mnts s.
Proof.
  intros Hv Hd Hnm Hi Hnc Hpar Hlive. unfold fs_lookup_dentry. rewrite (st_step _ _ _ _ _ (get_dent_run s d e Hd)), Hnm. cbn [negb].
  destruct (tree_lookup (fsys s) dir (vd_name e) (vi_fs s Hv) Hlive) as (f' & El & Hf' & Ha). destruct (vinv_fsys s f' Hv Hf' Ha) as [Hv1 _]. set (s1 := w_fsys s f') in *.
  assert (on_fs (fs_lookup dir (vd_name e)) s = Ok (inr (0, default 0 (tree dir (vd_name e))), s1)) as E1 by (unfold on_fs; by rewrite El). rewrite (st_step _ _ _ _ _ E1). cbn [Z.eqb].
  destruct (tree dir (vd_name e)) as [x|] eqn:Et; cbn [from_option id].
  - destruct (tree_live (fsys s) dir (vd_name e) x (vi_fs s Hv) Hlive Et) as [Hx0 Hxl]. rewrite (proj2 (Z.eqb_neq _ _) Hx0). assert (dents s1 !! d = Some e) as Hd1 by done.
    rewrite (st_step _ _ _ _ _ (upd_dent_run s1 d e _ Hd1)). eexists _, (d_set_inode e x). split; [reflexivity|]. split.
    { apply vinv_set; [exact Hv1|exact Hnc|exact (vi_addr s Hv d e Hd)|exact (vi_flags s Hv d e Hd)|right; cbn; by rewrite Ha|exact Hpar]. }
    split; [cbn; apply lookup_insert_eq|]. split; [done|]. split; [intros y z Hy Ez; cbn; by rewrite lookup_insert_ne|]. done.
  - exists s1, e. split; [done|]. split; [done|]. split; [done|]. split; [done|]. split; [done|]. done.
Qed.

(** ** The next name of a path *)

Lemma prs_dentry_run s parent name pe : vinv s -> dents s !! parent = Some pe -> vd_inode pe <> 0 ->
  exists d s' e, prs_dentry parent name s = Ok (inr d, s') /\ vinv s' /\ vext s s' /\ dents s' !! d = Some e /\ vd_inode e = default 0 (tree (vd_inode pe) name).
Proof.
  intros Hv Hp Hpi. unfold prs_dentry. destruct (dcache_find_run s parent name Hv) as (r & s0 & E0 & Hv0 & Hx0 & [(-> & -> & Hunc)|(Hr & Hin & Hk)]); rewrite (st_step _ _ _ _ _ E0).
  - cbn [negb Z.eqb]. destruct (valloc_run s Hv) as (s1 & E1 & Hs1 & Hv1 & Hx1 & Hz1). rewrite (st_step _ _ _ _ _ E1), Hz1.
    assert (dents s1 !! parent = Some pe) as Hp1 by (by rewrite Hs1). assert (uncached s1 parent name) as Hunc1 by (rewrite Hs1; exact Hunc).
    destruct (dalloc_run s1 parent name pe Hv1 Hp1 Hunc1) as (d & s2 & E2 & Hv2 & Hx2 & Hd0 & Hdn & Hd & Hc & Hpar). rewrite (st_step _ _ _ _ _ E2), (proj2 (Z.eqb_neq _ _) Hd0).
    destruct (vx_dents _ _ Hx2 parent pe Hp1) as (pe2 & Hp2 & _ & _ & _ & Hi2 & _). rewrite (st_step _ _ _ _ _ (get_dent_run s2 parent pe2 Hp2)), Hi2, (proj2 (Z.eqb_neq _ _) Hpi).
    assert (d ∉ hash_nodes (dcache s2)) as Hnc by (rewrite Hc; intros Hin; destruct (cached_dent s1 d Hv1 Hin); congruence).
    assert (is_Some (fs_attr (fsys s2) (vd_inode pe))) as Hlive by (rewrite <- Hi2; destruct (vi_live s2 Hv2 parent pe2 Hp2) as [?|?]; [congruence|done]).
    destruct (fs_lookup_dentry_run s2 (vd_inode pe) d _ Hv2 Hd eq_refl eq_refl Hnc Hpar Hlive) as (s3 & e & E3 & Hv3 & He & Hei & Hrest & Ha & Hrt & Hm).
    rewrite (st_step _ _ _ _ _ E3), Z.eqb_refl. exists d, s3, e. split; [done|]. split; [done|]. split; [|done].
    assert (vext s s2) as Hx by (by eapply vext_trans). split; [|intros x; rewrite Ha; apply (vx_attr _ _ Hx)|rewrite Hrt; apply (vx_root _ _ Hx)|rewrite Hm; apply (vx_mnts _ _ Hx)].
    intros y z Ez. destruct (vx_dents _ _ Hx y z Ez) as (z' & Ez' & Hs). exists z'. split; [|done]. apply Hrest; [|done]. intros ->. rewrite Hs1 in Hdn. cbn in Hdn. congruence.
  - rewrite (proj2 (Z.eqb_neq _ _) Hr). cbn [negb]. unfold dkey in Hk. destruct (dents s !! r) as [e|] eqn:Ee; [|done]. cbn in Hk. destruct (vd_named e); [|done]. injection Hk as Hpar Hnm.
    destruct (vx_dents _ _ Hx0 r e Ee) as (e' & Ee' & _ & _ & _ & Hi & _). exists r, s0, e'. split; [done|]. split; [done|]. split; [done|]. split; [done|].
    destruct (vi_coherent s Hv r e Hin Ee) as (p & Ep & Hc). rewrite Hpar in Ep. assert (p = pe) as -> by congruence. by rewrite Hi, Hc, Hnm.
Qed.
End spec.
