(* ===== verification/VfsCorrect.v ===== *)
(** * The virtual file system: resolving paths

    [vfs_path_lookup] follows the names of a path through the tree of the file
    system; a name that does not exist makes it follow a NULL pointer. *)

From S2P Require Import Prelude StateM Hash Tmpfs Vfs VfsSpec.

Local Open Scope Z_scope.

(** ** The names of a path *)

Fixpoint split_slash (l : list Z) : list (list Z) :=
  match l with
  | [] => [[]]
  | c :: r => if c =? SLASH then [] :: split_slash r else match split_slash r with h :: t => (c :: h) :: t | [] => [[c]] end
  end.
Definition path_names (l : list Z) : list (list Z) := filter (fun n => n <> []) (split_slash l).

Lemma path_names_slash l : path_names (SLASH :: l) = path_names l.
Proof. unfold path_names. cbn [split_slash]. rewrite Z.eqb_refl. by rewrite filter_cons_False by (intros Hn; by apply Hn). Qed.

Lemma split_slash_name l : exists n r, take_name l = (n, r) /\ ((r = [] /\ split_slash l = [n]) \/ exists r', r = SLASH :: r' /\ split_slash l = n :: split_slash r').
Proof.
  induction l as [|c l (n & r & E & IH)]; cbn [take_name split_slash]; [exists [], []; split; [done|by left]|].
  destruct (Z.eqb_spec c SLASH) as [->|Hc]; [exists [], (SLASH :: l); split; [done|]; right; by exists l|]. rewrite E. exists (c :: n), r. split; [done|].
  destruct IH as [[-> ->]|(r' & -> & ->)]; [by left|right; by exists r'].
Qed.

(** The parser takes the names one by one. *)
Lemma path_names_step l : match skip_slashes l with [] => path_names l = [] | r => exists n r', take_name r = (n, r') /\ path_names l = n :: path_names r' end.
Proof.
  induction l as [|c l IH]; cbn [skip_slashes]; [done|]. destruct (Z.eqb_spec c SLASH) as [->|Hc].
  - rewrite path_names_slash. exact IH.
  - destruct (split_slash_name (c :: l)) as (n & r & E & Hs). exists n, r. split; [done|]. cbn [take_name] in E. rewrite (proj2 (Z.eqb_neq _ _) Hc) in E. destruct (take_name l) as [n0 r0]. injection E as <- <-.
    unfold path_names. destruct Hs as [[-> ->]|(r' & -> & ->)]; rewrite filter_cons_True by done; [done|]. fold (path_names r'). by rewrite <- path_names_slash.
Qed.

Lemma st_bind_eq {S A B} (e e' : ST S A) (f : A -> ST S B) s s' : e s = e' s' -> (e ≫= f) s = (e' ≫= f) s'.
Proof. intros E. unfold mbind, ST_bind. by rewrite E. Qed.

Section correct.
Context {F : Type} `{FsTree F}.

(** The inode a list of names leads to. *)
Fixpoint walk (x : Z) (l : list (list Z)) : option Z :=
  match l with [] => Some x | n :: l => y ← tree x n; walk y l end.

(** ** References of paths *)

Lemma vinv_mnts (s : vst F) m : vinv s -> vinv (w_mnts s m).
Proof. intros [A1 A2 A3 A4 A5 A6 A7 A8]. by split. Qed.

Lemma mntget_run (s : vst F) m x : mnts s !! m = Some x -> vfs_mntget m s = Ok (tt, w_mnts s (<[m := m_set_count x (u32 (m_count x + 1))]> (mnts s))).
Proof. intros Hm. unfold vfs_mntget. by rewrite (upd_mnt_run s m x _ Hm). Qed.

Lemma mntput_run (s : vst F) m x : mnts s !! m = Some x -> m_count x <> 1 -> vfs_mntput m s = Ok (tt, w_mnts s (<[m := m_set_count x (u32 (m_count x - 1))]> (mnts s))).
Proof. intros Hm Hc. unfold vfs_mntput. rewrite (st_step _ _ _ _ _ (get_mnt_run s m x Hm)), (proj2 (Z.eqb_neq _ _) Hc). by rewrite (upd_mnt_run s m x _ Hm). Qed.

(** A path that is held. *)
Definition held (s : vst F) (p : vpath) (x : vfsmount) (e : dent) : Prop :=
  mnts s !! fst p = Some x /\ 1 <= m_count x < 2 ^ 32 /\ dents s !! snd p = Some e.

(** The state with one more, or one less, reference to a mount. *)
Record vmove (n : Z) (m : Z) (x : vfsmount) (s s' : vst F) : Prop := {
  vm_dents d e : dents s !! d = Some e -> exists e', dents s' !! d = Some e' /\ same_dent e e';
  vm_attr y : fs_attr (fsys s') y = fs_attr (fsys s) y;
  vm_root : vfs_root s' = vfs_root s;
  vm_mnts : mnts s' = <[m := m_set_count x (m_count x + n)]> (mnts s)
}.

Lemma path_get_run s p x e : vinv s -> held s p x e -> m_count x + 1 < 2 ^ 32 -> exists s', vfs_path_get p s = Ok (tt, s') /\ vinv s' /\ vmove 1 (fst p) x s s'.
Proof.
  intros Hv (Hm & Hc & Hd) Hc1. unfold vfs_path_get. rewrite (st_step _ _ _ _ _ (mntget_run s _ x Hm)), wrap_small by (unfold fits; lia). set (s1 := w_mnts s _).
  destruct (dget_run s1 (snd p) e (vinv_mnts s _ Hv) Hd) as (s2 & E2 & Hv2 & Hx). exists s2. split; [done|]. split; [done|]. split; [apply (vx_dents _ _ Hx)|apply (vx_attr _ _ Hx)|apply (vx_root _ _ Hx)|apply (vx_mnts _ _ Hx)].
Qed.

Lemma path_put_run s p x e : vinv s -> held s p x e -> 2 <= m_count x -> exists s', vfs_path_put p s = Ok (tt, s') /\ vinv s' /\ vmove (-1) (fst p) x s s'.
Proof.
  intros Hv (Hm & Hc & Hd) Hc2. unfold vfs_path_put. destruct (dput_run s (snd p) e Hv Hd) as (s1 & E1 & Hv1 & Hx). rewrite (st_step _ _ _ _ _ E1).
  assert (mnts s1 !! fst p = Some x) as Hm1 by (by rewrite (vx_mnts _ _ Hx)). rewrite (mntput_run s1 _ x Hm1) by lia. rewrite wrap_small by (unfold fits; lia).
  eexists. split; [reflexivity|]. split; [by apply vinv_mnts|]. split; [apply (vx_dents _ _ Hx)|apply (vx_attr _ _ Hx)|apply (vx_root _ _ Hx)|cbn; by rewrite (vx_mnts _ _ Hx)].
Qed.

(** ** One name *)

Lemma prs_next_run s p pwd cur x e n r : vinv s -> p_curr p = Some cur -> held s cur x e -> m_count x + 1 < 2 ^ 32 -> vd_inode e <> 0 -> skip_slashes (p_rest p) <> [] -> take_name (skip_slashes (p_rest p)) = (n, r) ->
  exists d s' e', vfs_path_prs_next p pwd s = Ok ((inr (Some (fst cur, d)), Prs (p_path p) (Some (fst cur, d)) r), s') /\ vinv s' /\ vext s s' /\
    dents s' !! d = Some e' /\ vd_inode e' = default 0 (tree (vd_inode e) n).
Proof.
  intros Hv Hcur Hh Hc1 Hi Hne Htn. pose proof Hh as (Hm & Hc & Hd). unfold vfs_path_prs_next, prs_start. rewrite Hcur, st_ret_step, Hcur. destruct (skip_slashes (p_rest p)) as [|c l] eqn:Es; [done|]. rewrite Htn.
  destruct (prs_dentry_run s (snd cur) n e Hv Hd Hi) as (d & s1 & e1 & E1 & Hv1 & Hx1 & Hd1 & Hi1). rewrite (st_step _ _ _ _ _ E1).
  destruct (valloc_run s1 Hv1) as (s2 & E2 & Hs2 & Hv2 & Hx2 & Hz2). rewrite (st_step _ _ _ _ _ E2), Hz2.
  assert (vext s s2) as Hx by (by eapply vext_trans). assert (mnts s2 !! fst cur = Some x) as Hm2 by (by rewrite (vx_mnts _ _ Hx)). rewrite (st_step _ _ _ _ _ (mntget_run s2 _ x Hm2)), wrap_small by (unfold fits; lia).
  set (x' := m_set_count x (m_count x + 1)). set (s3 := w_mnts s2 _). destruct (vx_dents _ _ Hx _ _ Hd) as (e2 & Hd2 & _).
  assert (held s3 cur x' e2) as Hh3 by (split; [cbn; apply lookup_insert_eq|]; split; [cbn; lia|done]).
  destruct (path_put_run s3 cur x' e2 (vinv_mnts s2 _ Hv2) Hh3) as (s4 & E4 & Hv4 & [M1 M2 M3 M4]); [cbn; lia|]. rewrite (st_step _ _ _ _ _ E4).
  assert (dents s3 !! d = Some e1) as Hd3 by (change (dents s2 !! d = Some e1); rewrite Hs2; exact Hd1). destruct (M1 d e1 Hd3) as (e4 & Hd4 & _ & _ & _ & Hi4 & _).
  exists d, s4, e4. split; [done|]. split; [done|]. split; [|split; [done|by rewrite Hi4]]. split.
  - intros y z Ez. destruct (vx_dents _ _ Hx y z Ez) as (z2 & Ez2 & Q1 & Q2 & Q3 & Q4 & Q5). destruct (M1 y z2 Ez2) as (z4 & Ez4 & R1 & R2 & R3 & R4 & R5). exists z4. split; [done|]. unfold same_dent. split_and!; congruence.
  - intros y. rewrite M2. apply (vx_attr _ _ Hx).
  - rewrite M3. apply (vx_root _ _ Hx).
  - rewrite M4. cbn. rewrite insert_insert_eq, (vx_mnts _ _ Hx). unfold m_set_count. cbn. replace (m_count x + 1 + -1) with (m_count x) by lia. rewrite insert_id; [done|]. rewrite Hm. by destruct x.
Qed.

(** ** The whole path *)

(** No symbolic link is followed. *)
Definition plain (flags : Z) (f : F) : Prop :=
  Z.land flags LOOKUP_FOLLOW = 0 \/ forall x mo u g, fs_attr f x = Some (mo, u, g) -> S_ISLNK mo = false.

Definition wants_dir (flags : Z) (f : F) (y : Z) : bool :=
  negb (Z.land flags LOOKUP_DIRECTORY =? 0) && match fs_attr f y with Some (mo, _, _) => negb (S_ISDIR mo) | None => false end.

(** What a lookup that comes to the end of its path answers: [x] is the mount
    of the path before the lookup took its reference. *)
Definition found (flags : Z) (s : vst F) (m : Z) (x : vfsmount) (y : Z) (r : Z + vpath) (s' : vst F) : Prop :=
  vinv s' /\ vfs_root s' = vfs_root s /\
  if wants_dir flags (fsys s) y then r = inl (- ENOTDIR) /\ mnts s' = <[m := m_set_count x (m_count x)]> (mnts s)
  else mnts s' = <[m := m_set_count x (m_count x + 1)]> (mnts s) /\ exists d e, r = inr (m, d) /\ dents s' !! d = Some e /\ vd_inode e = y.

Lemma lookup_end_run flags s p cur x e : vinv s -> p_curr p = Some cur -> held s cur (m_set_count x (m_count x + 1)) e -> 1 <= m_count x -> vd_inode e <> 0 ->
  exists r s', lookup_end flags p [] s = Ok (inr r, s') /\ found flags s (fst cur) x (vd_inode e) r s'.
Proof.
  intros Hv Hcur Hh Hc Hi. pose proof Hh as (Hm & Hcc & Hd). unfold lookup_end. rewrite (st_deref_step _ _ s cur Hcur), (st_step _ _ _ _ _ (get_dent_run s _ e Hd)), (proj2 (Z.eqb_neq _ _) Hi).
  destruct (vi_live s Hv _ e Hd) as [?|[[[mo u] g] Ha]]; [done|]. assert (mnts s = <[fst cur := m_set_count x (m_count x + 1)]> (mnts s)) as Hms by (by rewrite insert_id).
  unfold found, wants_dir. rewrite Ha. destruct (negb (Z.land flags LOOKUP_DIRECTORY =? 0)); cbn [andb].
  - unfold attr_of. rewrite (st_deref_step _ _ s (mo, u, g)) by done. destruct (negb (S_ISDIR mo)) eqn:Es.
    + destruct (path_put_run s cur _ e Hv Hh) as (s' & E & Hv' & [M1 M2 M3 M4]); [cbn; lia|]. unfold lookup_fail. cbn [rev app put_frames]. rewrite Hcur.
      assert ((_ ← vfs_path_put cur; mret tt) s = Ok (tt, s')) as E' by (by rewrite (st_step _ _ _ _ _ E)). rewrite (st_step _ _ _ _ _ E'). eexists _, s'. split; [reflexivity|]. split; [done|]. split; [done|]. split; [done|].
      rewrite M4. unfold m_set_count. cbn. by replace (m_count x + 1 + -1) with (m_count x) by lia.
    + eexists _, s. split; [reflexivity|]. split; [done|]. split; [done|]. split; [done|]. exists (snd cur), e. split; [by destruct cur|done].
  - eexists _, s. split; [reflexivity|]. split; [done|]. split; [done|]. split; [done|]. exists (snd cur), e. split; [by destruct cur|done].
Qed.

Lemma found_ext flags s1 s m x y r s' : vext s s1 -> found flags s1 m x y r s' -> found flags s m x y r s'.
Proof.
  intros [_ Ha Hr Hm] (Hv & Hr' & Hf). split; [done|]. split; [congruence|]. unfold wants_dir in *. rewrite Ha, Hm in Hf. exact Hf.
Qed.

(** A turn on a name: the position moves to its dentry, where NULL is
    followed if the name does not exist, and a link is followed. *)
Lemma lookup_turn_name flags pwd s p below cur x e n r : vinv s -> p_curr p = Some cur -> held s cur x e -> m_count x + 1 < 2 ^ 32 -> vd_inode e <> 0 ->
  skip_slashes (p_rest p) <> [] -> take_name (skip_slashes (p_rest p)) = (n, r) ->
  match tree (vd_inode e) n with
  | None => lookup_turn flags pwd (p :: below) s = Fault
  | Some y => exists d s' e', vinv s' /\ vext s s' /\ held s' (fst cur, d) x e' /\ vd_inode e' = y /\ y <> 0 /\
      forall mo u g, fs_attr (fsys s) y = Some (mo, u, g) ->
        lookup_turn flags pwd (p :: below) s =
          (if S_ISLNK mo && negb (Z.land flags LOOKUP_FOLLOW =? 0) then lookup_link (Prs (p_path p) (Some (fst cur, d)) r) below (fst cur, d) s' else Ok (inl (Prs (p_path p) (Some (fst cur, d)) r :: below), s'))
  end.
Proof.
  intros Hv Hcur Hh Hc Hi Hne Htn. destruct (prs_next_run s p pwd cur x e n r Hv Hcur Hh Hc Hi Hne Htn) as (d & s1 & e1 & E1 & Hv1 & Hx1 & Hd1 & Hi1).
  pose proof (vi_flags s1 Hv1 d e1 Hd1) as Hfl. assert (is_Some (fs_attr (fsys s) (vd_inode e))) as Hlv by (by destruct (vi_live s Hv _ e (proj2 (proj2 Hh)))).
  destruct (tree (vd_inode e) n) as [y|] eqn:Ey; cbn [from_option id] in Hi1.
  - destruct (tree_live (fsys s) _ n y (vi_fs s Hv) Hlv Ey) as [Hy0 _]. exists d, s1, e1. split; [done|]. split; [done|].
    split; [destruct Hh as (Hm & Hcx & _); split; [cbn; by rewrite (vx_mnts _ _ Hx1)|by split]|]. split; [done|]. split; [done|]. intros mo u g Ha.
    unfold lookup_turn. rewrite (st_step _ _ _ _ _ E1). cbn [snd]. rewrite (st_step _ _ _ _ _ (get_dent_run s1 d e1 Hd1)), Hfl, Hi1, (proj2 (Z.eqb_neq _ _) Hy0). cbn [Z.eqb negb]. unfold attr_of.
    rewrite (st_deref_step _ _ s1 (mo, u, g)) by (by rewrite (vx_attr _ _ Hx1)). by destruct (_ && _).
  - unfold lookup_turn. rewrite (st_step _ _ _ _ _ E1). cbn [snd]. by rewrite (st_step _ _ _ _ _ (get_dent_run s1 d e1 Hd1)), Hfl, Hi1.
Qed.

Lemma lookup_loop flags pwd path : forall ns s rest cur x e fuel, path_names rest = ns -> vinv s -> held s cur (m_set_count x (m_count x + 1)) e -> 1 <= m_count x -> m_count x + 2 < 2 ^ 32 ->
  vd_inode e <> 0 -> plain flags (fsys s) -> (length ns < fuel)%nat ->
  match walk (vd_inode e) ns with
  | None => st_loop fuel (lookup_turn flags pwd) [Prs path (Some cur) rest] s = Fault
  | Some y => exists r s', st_loop fuel (lookup_turn flags pwd) [Prs path (Some cur) rest] s = Ok (r, s') /\ found flags s (fst cur) x y r s'
  end.
Proof.
  induction ns as [|n ns IH]; intros s rest cur x e fuel Hns Hv Hh Hc Hc2 Hi Hpl Hf; (destruct fuel as [|fuel]; [cbn in Hf; lia|]); cbn [walk st_loop]; pose proof (path_names_step rest) as Hst.
  - destruct (skip_slashes rest) as [|c l] eqn:Es; [|destruct Hst as (? & ? & _ & Hst); congruence].
    destruct (lookup_end_run flags s (Prs path (Some cur) []) cur x e Hv eq_refl Hh Hc Hi) as (r & s' & E & Hfd). exists r, s'. split; [|done].
    assert (lookup_turn flags pwd [Prs path (Some cur) rest] s = Ok (inr r, s')) as Et; [|by rewrite (st_step _ _ _ _ _ Et)].
    unfold lookup_turn, vfs_path_prs_next, prs_start. cbn [p_curr p_rest p_path]. 
    rewrite (st_step _ _ s (inr None, Prs path (Some cur) []) s); [exact E|]. rewrite st_ret_step. cbn [p_curr p_rest p_path]. by rewrite Es.
  - destruct (skip_slashes rest) as [|c l] eqn:Es; [congruence|]. destruct Hst as (n' & r' & Htn & Hst). rewrite Hns in Hst. injection Hst as <- Hrest.
    pose proof (lookup_turn_name flags pwd s (Prs path (Some cur) rest) [] cur _ e n r' Hv eq_refl Hh ltac:(cbn; lia) Hi) as L. cbn [p_rest p_path] in L. rewrite Es in L. specialize (L ltac:(done) Htn).
    destruct (tree (vd_inode e) n) as [y|] eqn:Ey; cbn [mbind option_bind]; [|by rewrite (st_fault _ _ _ L)]. destruct L as (d & s1 & e1 & Hv1 & Hx1 & Hh1 & Hi1 & Hy0 & Lt).
    destruct (vi_live s1 Hv1 d e1 (proj2 (proj2 Hh1))) as [?|[[[mo u] g] Ha]]; [congruence|]. rewrite Hi1, (vx_attr _ _ Hx1) in Ha. specialize (Lt mo u g Ha).
    assert (S_ISLNK mo && negb (Z.land flags LOOKUP_FOLLOW =? 0) = false) as Hnl by (destruct Hpl as [->|Hpl]; [by rewrite andb_false_r|by rewrite (Hpl y mo u g Ha)]). rewrite Hnl in Lt. rewrite (st_step _ _ _ _ _ Lt).
    assert (plain flags (fsys s1)) as Hpl1. { destruct Hpl as [Hpl|Hpl]; [by left|right]. intros z mo' u' g' Ez. rewrite (vx_attr _ _ Hx1) in Ez. by apply (Hpl z mo' u' g'). }
    specialize (IH s1 r' (fst cur, d) x e1 fuel (eq_sym Hrest) Hv1 Hh1 Hc Hc2). rewrite Hi1 in IH. specialize (IH Hy0 Hpl1 ltac:(cbn in Hf; lia)). destruct (walk y ns) as [z|]; [|exact IH].
    destruct IH as (r & s' & E & Hfd). exists r, s'. split; [exact E|]. by apply (found_ext flags s1).
Qed.

Lemma found_move flags s1 s m x y r s' : vmove 1 m x s s1 -> found flags s1 m x y r s' -> found flags s m x y r s'.
Proof.
  intros [_ Ha Hr Hm] (Hv & Hr' & Hf). split; [done|]. split; [congruence|]. unfold wants_dir in *. rewrite Ha, Hm, !insert_insert_eq in Hf. exact Hf.
Qed.

Definition start_of (s : vst F) (path : list Z) (pwd : vpath) : vpath := if bool_decide (head path = Some SLASH) then vfs_root s else pwd.

(** The first turn takes its reference and goes on as any other. *)
Lemma lookup_start flags s path pwd x e : vinv s -> held s (start_of s path pwd) x e -> m_count x + 1 < 2 ^ 32 ->
  exists s', lookup_turn flags pwd [Prs path None path] s = lookup_turn flags pwd [Prs path (Some (start_of s path pwd)) path] s' /\ vinv s' /\ vmove 1 (fst (start_of s path pwd)) x s s'.
Proof.
  intros Hv Hh Hc. destruct (valloc_run s Hv) as (s1 & E1 & Hs1 & Hv1 & Hx1 & Hz1). assert (start_of s1 path pwd = start_of s path pwd) as Hst by (unfold start_of; by rewrite (vx_root _ _ Hx1)).
  assert (held s1 (start_of s path pwd) x e) as Hh1 by (by rewrite Hs1). destruct (path_get_run s1 _ x e Hv1 Hh1 Hc) as (s2 & E2 & Hv2 & Hm2). exists s2.
  split; [|split; [done|]; rewrite Hs1 in Hm2; destruct Hm2; by split].
  assert (prs_start (Prs path None path) pwd s = Ok (inr (Prs path (Some (start_of s path pwd)) path), s2)) as Ep.
  { unfold prs_start. cbn [p_curr p_path p_rest]. rewrite (st_step _ _ _ _ _ E1), Hz1, st_gets_step. fold (start_of s1 path pwd). rewrite Hst, (st_step _ _ _ _ _ E2). done. }
  assert (vfs_path_prs_next (Prs path None path) pwd s = vfs_path_prs_next (Prs path (Some (start_of s path pwd)) path) pwd s2) as En by (unfold vfs_path_prs_next; by rewrite (st_step _ _ _ _ _ Ep)).
  unfold lookup_turn. by rewrite !(st_bind_eq _ _ _ _ _ En).
Qed.

(** Resolving a path.  From the root or the working directory
    [vfs_path_lookup] follows the names of the path, in the dentry cache or in
    the file system, when no mount point and no symbolic link to follow is on
    the way.  If all of them exist it ends at the inode they lead to, with one
    reference to the mount more, or answers -ENOTDIR and keeps no reference if
    a directory was asked for and it is none; dentries and cache stay coherent.  If a name does not
    exist it follows the NULL inode of the dentry. *)
Lemma path_lookup_run s path flags pwd x e : vinv s -> held s (start_of s path pwd) x e -> m_count x + 2 < 2 ^ 32 -> vd_inode e <> 0 -> plain flags (fsys s) ->
  match walk (vd_inode e) (path_names path) with
  | None => vfs_path_lookup (S (length (path_names path))) path flags pwd s = Fault
  | Some y => exists r s', vfs_path_lookup (S (length (path_names path))) path flags pwd s = Ok (r, s') /\ found flags s (fst (start_of s path pwd)) x y r s'
  end.
Proof.
  intros Hv Hh Hc Hi Hpl. unfold vfs_path_lookup. destruct (valloc_run s Hv) as (s1 & E1 & Hs1 & Hv1 & Hx1 & Hz1). rewrite (st_step _ _ _ _ _ E1), Hz1.
  assert (start_of s1 path pwd = start_of s path pwd) as Hst by (unfold start_of; by rewrite (vx_root _ _ Hx1)). rewrite <- Hst in *.
  assert (held s1 (start_of s1 path pwd) x e) as Hh1 by (by rewrite Hs1 in *). destruct (lookup_start flags s1 path pwd x e Hv1 Hh1) as (s2 & Et & Hv2 & Hm2); [lia|].
  destruct (vm_dents _ _ _ _ _ Hm2 _ e (proj2 (proj2 Hh1))) as (e2 & He2 & _ & _ & _ & Hi2 & _). pose proof (proj1 (proj2 Hh)) as Hcx.
  assert (plain flags (fsys s2)) as Hpl2. { destruct Hpl as [Hpl|Hpl]; [by left|right]. intros z mo u g Ez. rewrite (vm_attr _ _ _ _ _ Hm2), (vx_attr _ _ Hx1) in Ez. by apply (Hpl z mo u g). }
  pose proof (lookup_loop flags pwd path (path_names path) s2 path (start_of s1 path pwd) x e2 (S (length (path_names path))) eq_refl Hv2) as L. rewrite Hi2 in L.
  specialize (L ltac:(split; [rewrite (vm_mnts _ _ _ _ _ Hm2); apply lookup_insert_eq|split; [cbn; lia|done]]) ltac:(lia) ltac:(lia) Hi Hpl2 ltac:(lia)).
  replace (st_loop _ _ _ s1) with (st_loop (S (length (path_names path))) (lookup_turn flags pwd) [Prs path (Some (start_of s1 path pwd)) path] s2) by (cbn [st_loop]; symmetry; by apply st_bind_eq).
  destruct (walk _ _) as [y|]; [|exact L]. destruct L as (r & s' & E & Hf). exists r, s'. split; [exact E|]. apply (found_ext flags s1); [done|]. by apply (found_move flags s2).
Qed.

(** ** Symbolic links *)

Lemma vmove_held n m x s s' d e : vmove n m x s s' -> dents s !! d = Some e -> 1 <= m_count x + n < 2 ^ 32 -> exists e', held s' (m, d) (m_set_count x (m_count x + n)) e' /\ same_dent e e'.
Proof.
  intros [M1 M2 M3 M4] Hd Hc. destruct (M1 d e Hd) as (e' & He & Hs). exists e'. split; [|done]. split; [cbn; rewrite M4; apply lookup_insert_eq|]. by split.
Qed.

(** Two more references to the position, and the target is the next path: one
    that does not start with a slash begins at the link. *)
Lemma lookup_link_run s top cur x e target mo u g : vinv s -> held s cur x e -> m_count x + 2 < 2 ^ 32 -> fs_attr (fsys s) (vd_inode e) = Some (mo, u, g) -> S_ISLNK mo = true -> vd_inode e <> 0 ->
  (forall f, fs_inv f -> fs_readlink (vd_inode e) f = Ok (inr target)) -> head target <> Some SLASH ->
  exists s' e', lookup_link top [] cur s = Ok (inl [Prs target (Some cur) target; top], s') /\ vinv s' /\ held s' cur (m_set_count x (m_count x + 2)) e' /\ same_dent e e'.
Proof.
  intros Hv Hh Hc Ha Hl Hi Hrl Hhd. unfold lookup_link. cbn [length Nat.leb MAX_SYMLINKS].
  destruct (path_get_run s cur x e Hv Hh) as (s1 & E1 & Hv1 & Hm1); [lia|]. rewrite (st_step _ _ _ _ _ E1). pose proof Hh as (_ & Hcx & Hd).
  destruct (vmove_held _ _ _ _ _ _ e Hm1 Hd) as (e1 & Hh1 & Hs1); [lia|]. destruct Hs1 as (Q1 & Q2 & Q3 & Q4 & Q5).
  assert (vfs_readlink (snd cur) s1 = Ok (inr target, s1)) as Er.
  { unfold vfs_readlink. rewrite (st_step _ _ _ _ _ (get_dent_run s1 (snd cur) e1 (proj2 (proj2 Hh1)))), Q4, (proj2 (Z.eqb_neq _ _) Hi). unfold attr_of.
    rewrite (st_deref_step _ _ s1 (mo, u, g)) by (by rewrite (vm_attr _ _ _ _ _ Hm1)). rewrite Hl. cbn [negb]. unfold on_fs. rewrite (Hrl _ (vi_fs s1 Hv1)). cbn. by destruct s1. }
  rewrite (st_step _ _ _ _ _ Er). destruct (valloc_run s1 Hv1) as (s2 & E2 & Hs2 & Hv2 & Hx2 & Hz2). rewrite (st_step _ _ _ _ _ E2), Hz2, st_gets_step, bool_decide_false by done.
  destruct (valloc_run s2 Hv2) as (s3 & E3 & Hs3 & Hv3 & Hx3 & Hz3). rewrite (st_step _ _ _ _ _ E3), Hz3.
  assert (held s3 cur (m_set_count x (m_count x + 1)) e1) as Hh3 by (rewrite Hs3, Hs2; by destruct cur). destruct (path_get_run s3 cur _ e1 Hv3 Hh3) as (s4 & E4 & Hv4 & Hm4); [cbn; lia|].
  rewrite (st_step _ _ _ _ _ E4). destruct (vmove_held _ _ _ _ _ _ e1 Hm4 (proj2 (proj2 Hh3))) as (e4 & Hh4 & R1 & R2 & R3 & R4 & R5); [cbn; lia|].
  exists s4, e4. split; [done|]. split; [done|]. split; [|unfold same_dent; split_and!; congruence].
  replace (m_set_count x (m_count x + 2)) with (m_set_count (m_set_count x (m_count x + 1)) (m_count x + 1 + 1)) by (unfold m_set_count; cbn; f_equal; lia). by destruct cur.
Qed.

(** A relative link is resolved from the link itself, where no name is. *)
Lemma relative_link_run s path flags pwd x e n ns y mo u g target n1 rest fuel : vinv s -> held s (start_of s path pwd) x e -> m_count x + 4 < 2 ^ 32 -> vd_inode e <> 0 ->
  path_names path = n :: ns -> tree (vd_inode e) n = Some y -> fs_attr (fsys s) y = Some (mo, u, g) -> S_ISLNK mo = true -> Z.land flags LOOKUP_FOLLOW <> 0 ->
  (forall f, fs_inv f -> fs_readlink y f = Ok (inr target)) -> head target <> Some SLASH -> path_names target = n1 :: rest -> tree y n1 = None ->
  vfs_path_lookup fuel path flags pwd s = Fault.
Proof.
  intros Hv Hh Hc Hi Hn Hy Ha Hl Hfo Hrl Hhd Hn1 Hy1. unfold vfs_path_lookup. destruct (valloc_run s Hv) as (s1 & E1 & Hs1 & Hv1 & Hx1 & Hz1). rewrite (st_step _ _ _ _ _ E1), Hz1.
  destruct fuel as [|fuel]; [done|]. cbn [st_loop]. assert (held s1 (start_of s1 path pwd) x e) as Hh1 by (by rewrite Hs1). pose proof (proj1 (proj2 Hh)) as Hcx.
  destruct (lookup_start flags s1 path pwd x e Hv1 Hh1) as (s2 & Et & Hv2 & Hm2); [lia|]. destruct (vmove_held _ _ _ _ _ _ e Hm2 (proj2 (proj2 Hh1))) as (e2 & Hh2 & _ & _ & _ & Hi2 & _); [lia|].
  set (cur := start_of s1 path pwd) in *. assert (p_curr (Prs path (Some cur) path) = Some (fst cur, snd cur)) as Hcur by (by destruct cur).
  pose proof (path_names_step path) as Hst. rewrite Hn in Hst. destruct (skip_slashes path) as [|c l] eqn:Es; [done|]. destruct Hst as (n' & r & Htn & [= <- Hr]).
  pose proof (lookup_turn_name flags pwd s2 (Prs path (Some cur) path) [] _ _ e2 n r Hv2 Hcur Hh2 ltac:(cbn; lia) ltac:(congruence)) as L. cbn [p_rest p_path] in L. rewrite Es, Hi2, Hy in L.
  destruct (L ltac:(done) Htn) as (d & s3 & e3 & Hv3 & Hx3 & Hh3 & Hi3 & Hy0 & Lt). assert (fs_attr (fsys s2) y = Some (mo, u, g)) as Ha2 by (by rewrite (vm_attr _ _ _ _ _ Hm2), (vx_attr _ _ Hx1)).
  specialize (Lt mo u g Ha2). rewrite Hl, (proj2 (Z.eqb_neq _ _) Hfo) in Lt. cbn [negb andb fst] in Lt.
  assert (fs_attr (fsys s3) (vd_inode e3) = Some (mo, u, g)) as Ha3 by (by rewrite (vx_attr _ _ Hx3), Hi3). rewrite <- Hi3 in Hrl, Hy1, Hy0.
  destruct (lookup_link_run s3 (Prs path (Some (fst cur, d)) r) (fst cur, d) _ e3 target mo u g Hv3 Hh3 ltac:(cbn; lia) Ha3 Hl Hy0 Hrl Hhd) as (s4 & e4 & E4 & Hv4 & Hh4 & _ & _ & _ & Hi4 & _).
  rewrite E4 in Lt. assert (lookup_turn flags pwd [Prs path None path] s1 = Ok (inl [Prs target (Some (fst cur, d)) target; Prs path (Some (fst cur, d)) r], s4)) as Et' by (by rewrite Et).
  rewrite (st_step _ _ _ _ _ Et'). destruct fuel as [|fuel]; [done|]. cbn [st_loop].
  pose proof (path_names_step target) as Hst. rewrite Hn1 in Hst. destruct (skip_slashes target) as [|c' l'] eqn:Es'; [done|]. destruct Hst as (n'' & r' & Htn' & [= <- Hr']).
  pose proof (lookup_turn_name flags pwd s4 (Prs target (Some (fst cur, d)) target) [Prs path (Some (fst cur, d)) r] _ _ e4 n1 r' Hv4 eq_refl Hh4 ltac:(cbn; lia) ltac:(congruence)) as L2.
  cbn [p_rest p_path] in L2. rewrite Es', Hi4, Hy1 in L2. by rewrite (st_fault _ _ _ (L2 ltac:(done) Htn')).
Qed.
End correct.
