(* ===== verification/VfsTmpfs.v ===== *)
(** * The virtual file system over tmpfs

    tmpfs as a file system of the layer above: its operations under the
    interface [Fs], and the proof that they behave as a tree of names. *)

From S2P Require Import Prelude StateM Bitmap Dynarr Devt Hash Tmpfs TmpfsSpec TmpfsCreate TmpfsMount Vfs VfsSpec VfsCorrect.

Local Open Scope Z_scope.

(** ** The operations *)

Section ops.
Context `{Heap}.

(** A dentry of the layer above is seen by tmpfs as a name to which it gives
    an inode. *)
Definition with_name {A} (name : list Z) (f : Z -> ST tst A) : ST tst (A * Z) := fun t =>
  let d := next_addr t in
  '(a, t') ← f d (with_dentries t (<[d := Dentry name 0 DCACHE_NONE 0]> (dentries t)));
  e ← deref (dentries t' !! d);
  Ok (a, d_inode e, with_dentries t' (dentries t)).

Definition tmpfs_fs_lookup (dir : Z) (name : list Z) : ST tst (Z + (Z * Z)) :=
  '(_, x) ← with_name name (tmpfs_lookup dir); mret (inr (0, x)).
Definition tmpfs_fs_mkdir (dir : Z) (d : Z) (name : list Z) (mo : Z) : ST tst (Z + Z) :=
  '(err, x) ← with_name name (fun d => tmpfs_mkdir dir d mo); mret (if err =? 0 then inr x else inl err).
Definition tmpfs_fs_readlink (x : Z) (t : tst) : outcome (Z + list Z) :=
  '(r, l, _) ← tmpfs_readlink x (PATH_MAX - 1) t; Ok (if r <? 0 then inl r else inr l).
Definition tmpfs_fs_mount (type : list Z) (dev_name data : option (list Z)) : ST tst (Z + (Z * Z)) :=
  r ← tmpfs_mount data;
  match r with
  | inl err => mret (inl err)
  | inr d => e ← get_dentry d; i ← get_inode (d_inode e); mret (inr (sb i, d_inode e))
  end.

#[export] Instance tmpfs_fs : Fs tst := {|
  fs_lookup := tmpfs_fs_lookup;
  fs_attr t x := i ← inodes t !! x; Some (mode i, uid i, gid i);
  fs_readlink := tmpfs_fs_readlink;
  fs_mkdir := tmpfs_fs_mkdir;
  fs_mount := tmpfs_fs_mount;
  fs_kill_sb b t := '(_, t) ← tmpfs_kill_sb b t; Ok t
|}.
End ops.

(** ** The tree of names *)

(** An inode without its reference count. *)
Definition strip (i : inode) : inode := set_refs i 0.

(** The cached inode of a key, and the inode a name leads to. *)
Definition node_by_key (t : tst) (k : Z * Z) : option Z := head (filter (fun x => key_of t x = Some k) (hash_nodes (icache t))).
Definition name_in (t : tst) (dir : Z) (name : list Z) : option Z :=
  i ← inodes t !! dir; de ← find_entry (dir_list i) name; p ← supers t !! sb i; node_by_key t (dev p, de_ino de).

(** Only references and the list of unused inodes differ. *)
Record frozen (t0 t : tst) : Prop := {
  fz_inodes : strip <$> inodes t = strip <$> inodes t0;
  fz_supers : supers t = supers t0;
  fz_cache : icache t = icache t0;
  fz_next : next_addr t = next_addr t0
}.

Lemma frozen_refl t : frozen t t.
Proof. done. Qed.
Lemma frozen_sym t t' : frozen t t' -> frozen t' t.
Proof. by intros []. Qed.
Lemma frozen_trans t1 t2 t3 : frozen t1 t2 -> frozen t2 t3 -> frozen t1 t3.
Proof. intros [] []. split; congruence. Qed.

Lemma frozen_inode t0 t x i : frozen t0 t -> inodes t !! x = Some i -> exists i0, inodes t0 !! x = Some i0 /\ strip i = strip i0.
Proof.
  intros Hz Hx. assert ((strip <$> inodes t0) !! x = Some (strip i)) as E by (by rewrite <- (fz_inodes _ _ Hz), lookup_fmap, Hx).
  rewrite lookup_fmap in E. destruct (inodes t0 !! x) as [i0|]; [|done]. apply (inj Some) in E. by exists i0.
Qed.

Lemma strip_fields i j : strip i = strip j -> ino i = ino j /\ sb i = sb j /\ dir_list i = dir_list j /\ mode i = mode j /\ uid i = uid j /\ gid i = gid j.
Proof. unfold strip, set_refs. intros E. by injection E. Qed.

Lemma frozen_key t0 t x : frozen t0 t -> key_of t x = key_of t0 x.
Proof.
  intros Hz. unfold key_of. rewrite (fz_supers _ _ Hz). destruct (inodes t !! x) as [i|] eqn:Ei.
  - destruct (frozen_inode t0 t x i Hz Ei) as (i0 & -> & Hs). destruct (strip_fields i i0 Hs) as (E1 & E2 & _). cbn. by rewrite E1, E2.
  - destruct (inodes t0 !! x) as [i0|] eqn:E0; [|done]. destruct (frozen_inode t t0 x i0 (frozen_sym _ _ Hz) E0) as (i & Hi & _). congruence.
Qed.

Lemma frozen_fs_ok t0 t : frozen t0 t -> fs_ok t0 -> fs_ok t.
Proof.
  intros Hz [A1 A2 A3 A4 A5 A6 A7 A8 A9 A10 A11]. pose proof (fun x => frozen_key t0 t x Hz) as Hk. pose proof (fz_cache _ _ Hz) as Hc. pose proof (fz_supers _ _ Hz) as Hs. pose proof (fz_next _ _ Hz) as Hn.
  split; rewrite ?Hc, ?Hn; try done.
  - destruct A1 as [P1 P2]. split; [done|]. intros i b x. rewrite Hk. apply P2.
  - intros x y k. rewrite !Hk. apply A3.
  - intros x i p Hx Hi. rewrite Hs. destruct (frozen_inode _ _ _ _ Hz Hi) as (i0 & Hi0 & (-> & -> & _)%strip_fields). by apply (A4 x i0 p).
  - intros x i Hi. destruct (frozen_inode _ _ _ _ Hz Hi) as (i0 & Hi0 & (_ & -> & _)%strip_fields). rewrite Hs. by apply (A5 x i0).
  - intros b p. rewrite Hs. apply A6.
  - intros b b' p p'. rewrite Hs. apply A7.
  - intros x i Hi. destruct (frozen_inode _ _ _ _ Hz Hi) as (i0 & Hi0 & _). by apply (A9 x i0).
  - intros x i e Hi. destruct (frozen_inode _ _ _ _ Hz Hi) as (i0 & Hi0 & (_ & _ & -> & _)%strip_fields). by apply (A10 x i0).
  - intros x i Hi. destruct (frozen_inode _ _ _ _ Hz Hi) as (i0 & Hi0 & (_ & _ & -> & _)%strip_fields). by apply (A11 x i0).
Qed.

Lemma frozen_name t0 t dir name : frozen t0 t -> name_in t dir name = name_in t0 dir name.
Proof.
  intros Hz. unfold name_in. assert (forall k, node_by_key t k = node_by_key t0 k) as Hnk.
  { intros k. unfold node_by_key. rewrite (fz_cache _ _ Hz). f_equal. apply list_filter_iff. intros x. by rewrite (frozen_key t0 t x Hz). }
  rewrite (fz_supers _ _ Hz). destruct (inodes t !! dir) as [i|] eqn:Ei.
  - destruct (frozen_inode t0 t dir i Hz Ei) as (i0 & -> & (E1 & E2 & E3 & _)%strip_fields). cbn. rewrite E2, E3. destruct (find_entry _ _); [|done]. cbn. destruct (supers t0 !! sb i0); [|done]. cbn. apply Hnk.
  - destruct (inodes t0 !! dir) as [i0|] eqn:E0; [|done]. destruct (frozen_inode t t0 dir i0 (frozen_sym _ _ Hz) E0) as (i & Hi & _). congruence.
Qed.

Lemma node_by_key_eq t k r : fs_ok t ->
  match r with Some x => x ∈ hash_nodes (icache t) /\ key_of t x = Some k | None => forall x, x ∈ hash_nodes (icache t) -> key_of t x <> Some k end -> node_by_key t k = r.
Proof.
  intros Hf Hr. unfold node_by_key. destruct (filter _ _) as [|y l] eqn:E.
  - destruct r as [x|]; [|done]. destruct Hr as [Hx Hk]. assert (x ∈ ([] : list Z)) as Hin by (rewrite <- E; by apply list_elem_of_filter). by apply elem_of_nil in Hin.
  - assert (y ∈ filter (fun x => key_of t x = Some k) (hash_nodes (icache t))) as [Hk Hy]%list_elem_of_filter by (rewrite E; left). cbn. destruct r as [x|]; [|by destruct (Hr y)].
    destruct Hr as [Hx Hkx]. f_equal. by apply (fo_keys t Hf y x k).
Qed.

Lemma name_in_live t dir name x : fs_ok t -> name_in t dir name = Some x -> x <> 0 /\ is_Some (inodes t !! x).
Proof.
  intros Hf. unfold name_in, node_by_key. destruct (inodes t !! dir) as [i|]; [|done]. cbn. destruct (find_entry _ _); [|done]. cbn. destruct (supers t !! sb i); [|done]. cbn.
  intros E. destruct (filter _ _) as [|y l] eqn:El; [done|]. injection E as ->. assert (x ∈ x :: l) as Hx by left. rewrite <- El in Hx. apply list_elem_of_filter in Hx as [Hk _].
  unfold key_of in Hk. destruct (inodes t !! x) as [ix|] eqn:Ex; [|done]. pose proof (fo_addr t Hf x ix Ex). split; [lia|done].
Qed.

(** A lookup through a dentry that has no inode yet. *)
Lemma tmpfs_lookup_tree t dir d e : fs_ok t -> is_Some (inodes t !! dir) -> dentries t !! d = Some e -> d_inode e = 0 ->
  exists t' e', tmpfs_lookup dir d t = Ok (d, t') /\ frozen t t' /\ dentries t' !! d = Some e' /\ d_inode e' = default 0 (name_in t dir (d_name e)).
Proof.
  intros Hf [i Hi] He H0. destruct (fo_live t Hf dir i Hi) as [_ [p Hp]]. unfold tmpfs_lookup, name_in.
  rewrite (st_step _ _ _ _ _ (get_inode_run t dir i Hi)), (st_step _ _ _ _ _ (get_dentry_run t d e He)), (st_step _ _ _ _ _ (dir_lookup_run t dir i _ Hi)), Hi. cbn [mbind option_bind].
  destruct (find_entry _ _) as [de|]; cbn [mbind option_bind]; [|by exists t, e]. rewrite Hp. cbn [mbind option_bind]. destruct (icache_find_run t (sb i) p (de_ino de) Hf Hp) as (r & Er & Hr).
  rewrite (node_by_key_eq t _ r Hf Hr). unfold vfs_icache_find. destruct r as [x|]; cbn [from_option id].
  - destruct Hr as [Hx Hk]. unfold key_of in Hk. destruct (inodes t !! x) as [ix|] eqn:Ex; [|done]. assert (x <> 0) as Hx0 by (pose proof (fo_addr t Hf x ix Ex); lia).
    destruct (iget_run t x ix Hx0 Ex) as (l & Eg). set (t1 := with_lru _ _) in Eg. assert (dentries t1 !! d = Some e) as He1 by done.
    assert ((sup ← get_super (sb i); r ← (fun s => r ← hash_lookup vfs_inode_hash_fn vfs_inode_eq_fn (icache s) (dev sup, de_ino de) (vfs_inode_get_key s); Ok (r, s));
      match r with None => mret 0 | Some x => _ ← vfs_iget x; mret x end) t = Ok (x, t1)) as Ef.
    { rewrite (st_step _ _ _ _ _ (get_super_run t _ p Hp)), (st_step _ _ _ _ _ Er). by rewrite (st_step _ _ _ _ _ Eg). }
    rewrite (st_step _ _ _ _ _ Ef), (proj2 (Z.eqb_neq _ _) Hx0). cbn [negb]. rewrite (st_step _ _ _ _ _ (upd_dentry_run t1 d e _ He1)).
    eexists _, _. split; [reflexivity|]. split; [|split; [cbn; apply lookup_insert_eq|done]]. split; try done. cbn. rewrite fmap_insert, insert_id; [done|]. by rewrite lookup_fmap, Ex.
  - assert ((sup ← get_super (sb i); r ← (fun s => r ← hash_lookup vfs_inode_hash_fn vfs_inode_eq_fn (icache s) (dev sup, de_ino de) (vfs_inode_get_key s); Ok (r, s));
      match r with None => mret 0 | Some x => _ ← vfs_iget x; mret x end) t = Ok (0, t)) as Ef.
    { by rewrite (st_step _ _ _ _ _ (get_super_run t _ p Hp)), (st_step _ _ _ _ _ Er). }
    rewrite (st_step _ _ _ _ _ Ef). by exists t, e.
Qed.

Section tree.
Context `{Heap}.
Context (t0 : tst) (Hok : fs_ok t0).

Lemma tmpfs_fs_lookup_tree t dir name : frozen t0 t -> is_Some (fs_attr t dir) ->
  exists t', fs_lookup dir name t = Ok (inr (0, default 0 (name_in t0 dir name)), t') /\ frozen t0 t' /\ forall x, fs_attr t' x = fs_attr t x.
Proof.
  intros Hz Hl. pose proof (frozen_fs_ok t0 t Hz Hok) as Hf. set (d := next_addr t). set (t1 := with_dentries t (<[d := Dentry name 0 DCACHE_NONE 0]> (dentries t))).
  assert (fs_ok t1) as Hf1 by (apply (frozen_fs_ok t); [by split|done]). assert (dentries t1 !! d = Some (Dentry name 0 DCACHE_NONE 0)) as Hd by (cbn; apply lookup_insert_eq).
  assert (is_Some (inodes t1 !! dir)) as Hl1 by (destruct Hl as [a Ha]; cbn in *; by destruct (inodes t !! dir)).
  destruct (tmpfs_lookup_tree t1 dir d _ Hf1 Hl1 Hd eq_refl) as (t2 & e & E & Hz2 & He & Hx). exists (with_dentries t2 (dentries t)).
  assert (frozen t1 t2 -> frozen t (with_dentries t2 (dentries t))) as Hz' by (intros [B1 B2 B3 B4]; by split). specialize (Hz' Hz2).
  assert (with_name name (tmpfs_lookup dir) t = Ok (d, default 0 (name_in t0 dir name), with_dentries t2 (dentries t))) as Ew.
  { unfold with_name. fold d. change (with_dentries t _) with t1. rewrite E. cbn. rewrite He. cbn. rewrite Hx. do 3 f_equal. cbn [d_name].
    assert (frozen t0 t1) as Hz1 by (destruct Hz; by split). by rewrite (frozen_name t0 t1). }
  split; [cbn; unfold tmpfs_fs_lookup; by rewrite (st_step _ _ _ _ _ Ew)|]. split; [by eapply frozen_trans|]. intros x. cbn.
  destruct (inodes t2 !! x) as [i|] eqn:Ei.
  - destruct (frozen_inode t _ x i Hz' Ei) as (i0 & -> & (_ & _ & _ & E1 & E2 & E3)%strip_fields). cbn. by rewrite E1, E2, E3.
  - destruct (inodes t !! x) as [i0|] eqn:E0; [|done]. destruct (frozen_inode _ t x i0 (frozen_sym _ _ Hz') E0) as (i & Hi & _). cbn in Hi. congruence.
Qed.

Lemma tmpfs_tree_live t dir name x : frozen t0 t -> is_Some (fs_attr t dir) -> name_in t0 dir name = Some x -> x <> 0 /\ is_Some (fs_attr t x).
Proof.
  intros Hz _ Hn. destruct (name_in_live t0 dir name x Hok Hn) as [Hx [i Hi]]. split; [done|].
  destruct (frozen_inode t t0 x i (frozen_sym _ _ Hz) Hi) as (j & Hj & _). cbn. by rewrite Hj.
Qed.

(** tmpfs keeps what path resolution needs. *)
Definition tmpfs_tree : FsTree tst := {|
  fs_inv := frozen t0;
  tree := name_in t0;
  tree_lookup := tmpfs_fs_lookup_tree;
  tree_live := tmpfs_tree_live
|}.
End tree.

Section paths.
Context `{Heap}.

(** C20: paths on tmpfs.  Over a coherent tmpfs, with the root of a mount held,
    a dentry cache that agrees with its directories, and memory that never
    runs out ([vinv] has every allocation succeed; the error path of
    [vfs_path_prs_next], which drops a NULL dentry, is left aside),
    [vfs_path_lookup] ends at the inode the directory entries of the path lead
    to, or answers -ENOTDIR; tmpfs is coherent afterwards, and its directories
    are as before.  When a name of the path does not exist, the mode of the
    inode is read through a NULL pointer before the test for -ENOENT is
    reached: in C that is undefined, a [Fault] of the model; only where the
    processor can read the first page does the code go on to the -ENOENT that
    the tests in test/fs.c expect. *)
Theorem tmpfs_path_lookup_correct (s : vst tst) path flags pwd x e (Hok : fs_ok (fsys s)) : let T := tmpfs_tree (fsys s) Hok in
  vinv s -> held s (start_of s path pwd) x e -> m_count x + 2 < 2 ^ 32 -> vd_inode e <> 0 -> plain flags (fsys s) ->
  match walk (vd_inode e) (path_names path) with
  | None => vfs_path_lookup (S (length (path_names path))) path flags pwd s = Fault
  | Some y => exists r s', vfs_path_lookup (S (length (path_names path))) path flags pwd s = Ok (r, s') /\
      found flags s (fst (start_of s path pwd)) x y r s' /\ fs_ok (fsys s') /\ frozen (fsys s) (fsys s')
  end.
Proof.
  intros T Hv Hh Hc Hi Hpl. pose proof (path_lookup_run s path flags pwd x e Hv Hh Hc Hi Hpl) as L. destruct (walk _ _) as [y|]; [|exact L].
  destruct L as (r & s' & E & Hfd). exists r, s'. split; [done|]. split; [done|]. destruct Hfd as [Hv' _]. pose proof (vi_fs s' Hv') as Hz. split; [|exact Hz]. by apply (frozen_fs_ok (fsys s)).
Qed.

Lemma strip_target i j : strip i = strip j -> symlink_target i = symlink_target j /\ data_size i = data_size j.
Proof. unfold strip, set_refs. intros E. by injection E. Qed.

Lemma tmpfs_readlink_frozen t0 t y iy target : frozen t0 t -> inodes t0 !! y = Some iy -> symlink_target iy = Some target -> data_size iy = Z.of_nat (length target) -> Z.of_nat (length target) < PATH_MAX ->
  fs_readlink y t = Ok (inr target).
Proof.
  intros Hz Hy Ht Hs Hlen. destruct (frozen_inode t t0 y iy (frozen_sym _ _ Hz) Hy) as (i & Hi & [E1 E2]%strip_target). cbn. unfold tmpfs_fs_readlink, tmpfs_readlink.
  rewrite (st_step _ _ _ _ _ (get_inode_run t y i Hi)), <- E1, Ht, <- E2, Hs, Z.min_l by (unfold PATH_MAX in *; lia). unfold mret, ST_ret. cbn.
  by rewrite (proj2 (Z.ltb_ge _ _)), Nat2Z.id, take_app_length by lia.
Qed.

(** C39: relative symbolic links.  On tmpfs, a path that leads to a symbolic
    link whose target does not start with a slash cannot be followed: the
    target is looked up in the link itself and not in its directory, where
    nothing is found, and in no number of turns does [vfs_path_lookup] give an
    answer: it follows a NULL inode. *)
Theorem tmpfs_relative_link_faults (s : vst tst) path flags pwd x e n ns y iy target fuel (Hok : fs_ok (fsys s)) : let T := tmpfs_tree (fsys s) Hok in
  vinv s -> held s (start_of s path pwd) x e -> m_count x + 4 < 2 ^ 32 -> vd_inode e <> 0 -> path_names path = n :: ns ->
  name_in (fsys s) (vd_inode e) n = Some y -> inodes (fsys s) !! y = Some iy -> S_ISLNK (mode iy) = true -> dir_list iy = [] ->
  symlink_target iy = Some target -> data_size iy = Z.of_nat (length target) -> Z.of_nat (length target) < PATH_MAX ->
  Z.land flags LOOKUP_FOLLOW <> 0 -> head target <> Some SLASH -> path_names target <> [] ->
  vfs_path_lookup fuel path flags pwd s = Fault.
Proof.
  intros T Hv Hh Hc Hi Hn Hy Hiy Hl Hdir Ht Hs Hlen Hfo Hhd Hnt. destruct (path_names target) as [|n1 rest] eqn:Hn1; [done|].
  apply (relative_link_run s path flags pwd x e n ns y (mode iy) (uid iy) (gid iy) target n1 rest fuel Hv Hh Hc Hi Hn Hy); try done; [cbn; by rewrite Hiy|..].
  - intros f Hz. by apply (tmpfs_readlink_frozen (fsys s) f y iy).
  - cbn. unfold name_in. rewrite Hiy. cbn. by rewrite Hdir.
Qed.
End paths.

(** ** A small instance *)

(** The root of a tmpfs is mounted, and nothing is cached. *)
Definition demo_vfs (t : tst) : vst tst :=
  Vst {[1 := Dent 0 [SLASH] true 10 DCACHE_NONE 1 []]} (Ht [[]]) [] {[2 := Mnt 1 1 0 0 0 [] 2]} 2 0 ∅ (2, 1) [] t 3 (fun _ => true) 0 (0, 0).

Lemma demo_vinv t (Hok : fs_ok t) : is_Some (inodes t !! 10) -> @vinv tst (@tmpfs_fs demo_heap) (@tmpfs_tree demo_heap t Hok) (demo_vfs t).
Proof.
  intros [i Hi]. split; cbn [vmem vnext dents dcache fsys demo_vfs].
  - done.
  - lia.
  - intros d e [<- _]%lookup_singleton_Some. lia.
  - split; [exists 0; split; [lia|done]|]. intros [|j] b x Eb Hx; [|done]. injection Eb as <-. by apply elem_of_nil in Hx.
  - intros d e Hd. cbn in Hd. by apply elem_of_nil in Hd.
  - intros d e [_ <-]%lookup_singleton_Some. done.
  - intros d e [_ <-]%lookup_singleton_Some. right. cbn. by rewrite Hi.
  - apply frozen_refl.
Qed.

(** tmpfs after a file, or a relative link, was made in its root. *)
Definition demo_file : tst := after_ok demo_fs (@tmpfs_create demo_heap 10 20 0 demo_fs).
Definition demo_link : tst := after_ok demo_fs (@tmpfs_symlink demo_heap 10 20 [98; 99] demo_fs).

Lemma demo_file_ok : fs_ok demo_file.
Proof.
  destruct (@create_run demo_heap demo_fs 10 20 0 demo_root (demo_entry [97]) demo_super demo_fs_ok eq_refl eq_refl eq_refl demo_free) as (err & s' & E & Ho).
  unfold demo_file. rewrite E. cbn [after_ok]. assert (err = 0) as ->. { vm_compute in E. by injection E. }
  by destruct Ho as [(_ & x & n & Hf & _)|[[? _]|[[[? _]|[? _]] _]]].
Qed.

Lemma demo_link_ok : fs_ok demo_link.
Proof.
  destruct (@symlink_run demo_heap demo_fs 10 20 [98; 99] demo_root (demo_entry [97]) demo_super demo_fs_ok eq_refl eq_refl eq_refl demo_free eq_refl) as (err & s' & E & Ho).
  unfold demo_link. rewrite E. cbn [after_ok]. assert (err = 0) as ->. { vm_compute in E. by injection E. }
  by destruct Ho as [[(_ & x & n & Hf & _)|[[? _]|[[[? _]|[? _]] _]]]|[? _]].
Qed.

Lemma demo_walk : walk (H0 := @tmpfs_tree demo_heap demo_file demo_file_ok) 10 (path_names [SLASH; 97]) = Some 100.
Proof. by vm_compute. Qed.

Lemma demo_live : is_Some (inodes demo_file !! 10) /\ is_Some (inodes demo_link !! 10).
Proof. split; vm_compute; by eexists. Qed.

Lemma demo_held t : held (demo_vfs t) (2, 1) (Mnt 1 1 0 0 0 [] 2) (Dent 0 [SLASH] true 10 DCACHE_NONE 1 []).
Proof. by split_and!. Qed.

Lemma tmpfs_path_lookup_correct_witness :
  exists r s', @vfs_path_lookup tst (@tmpfs_fs demo_heap) 2 [SLASH; 97] 0 (2, 1) (demo_vfs demo_file) = Ok (r, s') /\
    @found tst (@tmpfs_fs demo_heap) (@tmpfs_tree demo_heap demo_file demo_file_ok) 0 (demo_vfs demo_file) 2 (Mnt 1 1 0 0 0 [] 2) 100 r s' /\ fs_ok (fsys s') /\ frozen demo_file (fsys s').
Proof.
  pose proof (@tmpfs_path_lookup_correct demo_heap (demo_vfs demo_file) [SLASH; 97] 0 (2, 1) (Mnt 1 1 0 0 0 [] 2) (Dent 0 [SLASH] true 10 DCACHE_NONE 1 []) demo_file_ok
    (demo_vinv demo_file demo_file_ok (proj1 demo_live)) (demo_held demo_file) eq_refl (fun E => ltac:(discriminate E)) (or_introl eq_refl)) as L.
  cbn zeta in L. cbn [vd_inode] in L. change (fsys (demo_vfs demo_file)) with demo_file in L. rewrite demo_walk in L. exact L.
Defined.

Lemma tmpfs_relative_link_faults_witness : @vfs_path_lookup tst (@tmpfs_fs demo_heap) 9 [SLASH; 97] LOOKUP_FOLLOW (2, 1) (demo_vfs demo_link) = Fault.
Proof.
  destruct (inodes demo_link !! 100) as [iy|] eqn:Ey; [|vm_compute in Ey; discriminate Ey]. pose proof Ey as E. vm_compute in E. injection E as E.
  apply (@tmpfs_relative_link_faults demo_heap (demo_vfs demo_link) [SLASH; 97] LOOKUP_FOLLOW (2, 1) (Mnt 1 1 0 0 0 [] 2) (Dent 0 [SLASH] true 10 DCACHE_NONE 1 []) [97] [] 100 iy [98; 99] 9 demo_link_ok
    (demo_vinv demo_link demo_link_ok (proj2 demo_live)) (demo_held demo_link)); try exact Ey; try (by rewrite <- E); done.
Defined.
