(* ===== verification/VfsMount.v ===== *)
(** * The virtual file system: mounting and unmounting

    What [vfs_mount] and [vfs_umount] leave behind. *)

From S2P Require Import Prelude StateM Bitmap Dynarr Devt Hash Tmpfs TmpfsCreate TmpfsMount Vfs VfsSpec VfsCorrect VfsTmpfs.

Local Open Scope Z_scope.

Section mounts.
Context {F : Type} `{Fs F}.

(** A step that leaves the flags of a dentry as they are. *)
Definition keeps_flags {A} (d : Z) (m : ST (vst F) A) : Prop := forall s a s', m s = Ok (a, s') -> vd_flags <$> dents s' !! d = vd_flags <$> dents s !! d.

Lemma keeps_bind {A B} d (m : ST (vst F) A) (f : A -> ST (vst F) B) : keeps_flags d m -> (forall a, keeps_flags d (f a)) -> keeps_flags d (m ≫= f).
Proof. intros Hm Hf s b s' E. destruct (st_bind_Ok _ _ _ _ _ E) as (a & s1 & E1 & E2). by rewrite (Hf a s1 b s' E2), (Hm s a s1 E1). Qed.
Lemma keeps_ret {A} d (a : A) : keeps_flags d (mret a).
Proof. by intros s b s' [= <- <-]. Qed.
Lemma keeps_deref {A} d (g : vst F -> option A) : keeps_flags d (st_deref g).
Proof. intros s a s'. unfold st_deref. destruct (g s); [|done]. by intros [= <- <-]. Qed.
Lemma keeps_modify d (g : vst F -> vst F) : (forall s, dents (g s) = dents s) -> keeps_flags d (st_modify g).
Proof. intros Hg s a s' [= <- <-]. by rewrite Hg. Qed.
Lemma keeps_on_fs {A} d (f : F -> outcome (A * F)) : keeps_flags d (on_fs f).
Proof. intros s a s'. unfold on_fs. destruct (f (fsys s)) as [[b x]| |]; [|done..]. by intros [= <- <-]. Qed.

Lemma keeps_upd_dent d y f : (forall e, vd_flags (f e) = vd_flags e) \/ y <> d -> keeps_flags d (upd_dent y f).
Proof.
  intros Hf s a s' E. unfold upd_dent, get_dent in E. destruct (st_bind_Ok _ _ _ _ _ E) as (e & s1 & E1 & E2). unfold st_deref in E1. destruct (dents s !! y) as [e0|] eqn:Ey; [|done].
  injection E1 as <- <-. injection E2 as <- <-. cbn. destruct (decide (y = d)) as [->|Hne]; [|by rewrite lookup_insert_ne]. destruct Hf as [Hf|]; [|done]. rewrite lookup_insert_eq, Ey. cbn. by rewrite Hf.
Qed.
Lemma keeps_upd_mnt d m f : keeps_flags d (upd_mnt m f).
Proof. apply keeps_bind; [apply keeps_deref|]. intros x. by apply keeps_modify. Qed.

Lemma keeps_dput d y : keeps_flags d (vfs_dput y).
Proof.
  apply keeps_bind; [apply keeps_deref|]. intros e. apply keeps_bind; [apply keeps_upd_dent; by left|]. intros _. destruct (_ =? 1); [by apply keeps_modify|apply keeps_ret].
Qed.
Lemma keeps_mntput d m : keeps_flags d (vfs_mntput m).
Proof. apply keeps_bind; [apply keeps_deref|]. intros x. destruct (_ =? 1); [by apply keeps_modify|apply keeps_upd_mnt]. Qed.
Lemma keeps_path_put d p : keeps_flags d (vfs_path_put p).
Proof. apply keeps_bind; [apply keeps_dput|]. intros _. apply keeps_mntput. Qed.

(** ** The mount on a dentry *)

(** The mounts below a mount. *)
Inductive below (s : vst F) (r : Z) : Z -> Prop :=
  | below_root : below s r r
  | below_child m x c : below s r m -> mnts s !! m = Some x -> c ∈ m_mounts x -> below s r c.

Lemma find_mount_loop s d total r n : forall stack, Forall (below s r) stack -> forall m s', st_loop n (find_mount_turn total d) stack s = Ok (m, s') -> m <> 0 -> below s r m /\ exists x, mnts s !! m = Some x /\ m_mountpoint x = d.
Proof.
  induction n as [|n IH]; intros stack Hst m s' E Hm; [done|]. cbn [st_loop] in E. destruct (st_bind_Ok _ _ _ _ _ E) as (a & s1 & E1 & E2). destruct stack as [|cur stack]; cbn [find_mount_turn] in E1.
  { injection E1 as <- <-. injection E2 as <- _. done. }
  apply Forall_cons in Hst as [Hcur Hst]. destruct (st_bind_Ok _ _ _ _ _ E1) as (x & s2 & Ex & E3). unfold get_mnt, st_deref in Ex. destruct (mnts s !! cur) as [x0|] eqn:Ec; [|done]. injection Ex as <- <-.
  destruct (Z.eqb_spec (m_mountpoint x0) d) as [Hd|_].
  - destruct (st_bind_Ok _ _ _ _ _ E3) as ([] & s3 & E4 & E5). injection E5 as <- _. injection E2 as <- _. split; [done|]. by exists x0.
  - destruct (_ <? _); [done|]. injection E3 as <- <-. apply (IH (rev (m_mounts x0) ++ stack)) with s'; [|done..]. apply Forall_app. split; [|done].
    apply Forall_forall. intros c Hc. apply (below_child s r cur x0); [done..|]. by apply list_elem_of_In, in_rev, list_elem_of_In.
Qed.

(** [vfs_find_mount] finds a mount of the tree that is mounted on the dentry. *)
Lemma find_mount_sound s d m s' : vfs_find_mount d s = Ok (m, s') -> m <> 0 -> below s (mount_tree_root s) m /\ exists x, mnts s !! m = Some x /\ m_mountpoint x = d.
Proof.
  intros E Hm. unfold vfs_find_mount in E. rewrite st_gets_step in E. destruct (st_bind_Ok _ _ _ _ _ E) as (a & s1 & E1 & E2).
  assert (mnts s1 = mnts s /\ mount_tree_root s1 = mount_tree_root s) as [Hm1 Hr1] by (unfold valloc in E1; destruct (vmem s _); by injection E1 as <- <-).
  destruct (a =? 0); [by injection E2 as <- _|]. rewrite !st_gets_step in E2. destruct (_ && _); [done|].
  assert (Forall (below s1 (mount_tree_root s1)) (if mount_tree_root s1 =? 0 then [] else [mount_tree_root s1])) as Hst by (destruct (mount_tree_root s1 =? 0); [by apply Forall_nil|apply Forall_singleton, below_root]).
  apply (find_mount_loop _ _ _ _ _ _ Hst _ _ E2) in Hm. clear E2. rename Hm into E2. rewrite Hr1, Hm1 in E2. destruct E2 as [Hb Hx]. split; [|done].
  clear -Hb Hm1. induction Hb as [|m x c Hb IH Hx Hc]; [constructor|]. rewrite Hm1 in Hx. by apply (below_child s _ m x).
Qed.

Lemma umount_keeps fk mp s m err s' : mnts s !! fst mp = Some m -> m_mountpoint m <> snd mp -> umount_at fk mp s = Ok (err, s') ->
  vd_flags <$> dents s' !! m_mountpoint m = vd_flags <$> dents s !! m_mountpoint m.
Proof.
  intros Hm Hne. unfold umount_at. rewrite (st_step _ _ _ _ _ (get_mnt_run s _ m Hm)). destruct (_ && _).
  { apply (keeps_bind _ (vfs_path_put mp)); [apply keeps_path_put|]. intros _. apply keeps_ret. }
  destruct (m_mounts m); [|apply (keeps_bind _ (vfs_path_put mp)); [apply keeps_path_put|]; intros _; apply keeps_ret].
  revert s' Hm. intros s' Hm E. revert E.
  enough (keeps_flags (m_mountpoint m) (_ ← upd_mnt (m_parent m) (fun x => m_set_mounts x (filter (fun y => y <> fst mp) (m_mounts x)));
        _ ← upd_dent (snd mp) (fun e => d_set_flags e (Z.land (vd_flags e) (cnot 32 DCACHE_MOUNTED)));
        n ← st_deref (fun s => sb_refs s !! m_sb m);
        _ ← st_modify (fun s => w_sb_refs s (<[m_sb m := u32 (n - 1)]> (sb_refs s)));
        _ ← (if n =? 1 then on_fs (fun f => f ← fs_kill_sb (m_sb m) f; Ok (tt, f)) else mret tt);
        _ ← vfs_mntput (fst mp);
        _ ← vfs_path_put mp;
        mret 0)) as Hk by apply Hk.
  apply keeps_bind; [apply keeps_upd_mnt|intros _]. apply keeps_bind; [apply keeps_upd_dent; right; by apply not_eq_sym|intros _].
  apply keeps_bind; [apply keeps_deref|intros n]. apply keeps_bind; [by apply keeps_modify|intros _].
  apply keeps_bind; [destruct (n =? 1); [apply keeps_on_fs|apply keeps_ret]|intros _]. apply keeps_bind; [apply keeps_mntput|intros _]. apply keeps_bind; [apply keeps_path_put|intros _]. apply keeps_ret.
Qed.

(** After unmounting, the directory is still marked as a mount point, since the
    mark is cleared on the root of the mount that goes away; unless another
    mount is on it, [vfs_find_mount] finds nothing there. *)
Theorem umount_hides_directory fk mp s m e s' : mnts s !! fst mp = Some m -> m_mountpoint m <> snd mp -> umount_at fk mp s = Ok (0, s') ->
  dents s !! m_mountpoint m = Some e -> Z.land (vd_flags e) DCACHE_MOUNTED <> 0 ->
  (forall c x, below s' (mount_tree_root s') c -> mnts s' !! c = Some x -> m_mountpoint x <> m_mountpoint m) ->
  (exists e', dents s' !! m_mountpoint m = Some e' /\ Z.land (vd_flags e') DCACHE_MOUNTED <> 0) /\
  forall r s'', vfs_find_mount (m_mountpoint m) s' = Ok (r, s'') -> r = 0.
Proof.
  intros Hm Hne E He Hfl Hno. pose proof (umount_keeps fk mp s m 0 s' Hm Hne E) as Hk. rewrite He in Hk. split.
  - destruct (dents s' !! m_mountpoint m) as [e'|]; [|done]. exists e'. split; [done|]. injection Hk as Hk. by rewrite Hk.
  - intros r s'' Ef. destruct (Z.eq_dec r 0) as [|Hr]; [done|]. destruct (find_mount_sound _ _ _ _ Ef Hr) as [Hb (x & Hx & Hd)]. by destruct (Hno r x Hb Hx).
Qed.
End mounts.

(** ** A run of the whole layer over tmpfs *)

#[local] Instance demo_zero : Heap := zero_heap.
Definition demo_dir : list Z := [SLASH; 100].

(** tmpfs is registered, the root is mounted, and /dev. *)
Definition demo_boot : vst tst :=
  let s := Vst ∅ (Ht [[]]) [] ∅ 0 0 ∅ (0, 0) [] no_fs 1 (fun _ => true) 0 (0, 0) in
  match (_ ← vfs_register_filesystem (Some tmpfs_type); _ ← vfs_root_mount; vfs_dev_mount 9) s with Ok (0, s') => s' | _ => s end.

(** A directory is made and found; a mount on it is found in its place; after
    unmounting, the directory cannot be found any more. *)
Example umount_loses_directory : exists s',
  (e ← vfs_mkdir 9 demo_dir 511 (2, 1); r0 ← vfs_path_lookup 9 demo_dir 0 (2, 1);
   m ← vfs_mount 9 None (Some demo_dir) (Some tmpfs_type) None 0 true (2, 1) (2, 1); r1 ← vfs_path_lookup 9 demo_dir 0 (2, 1);
   u ← vfs_umount 9 (Some demo_dir) 0 true (2, 1) (2, 1); r2 ← vfs_path_lookup 9 demo_dir 0 (2, 1);
   mret (e, r0, m, r1, u, r2)) demo_boot = Ok (0, inr (2, 19), inr 32, inr (32, 31), 0, inl (- ENOENT), s').
Proof. eexists. vm_compute. reflexivity. Qed.
