(* ===== verification/VfsFile.v ===== *)
(** * The virtual file system: open files (kernel/fs/vfs.c)

    File objects on top of paths: opening with its permission mask, the file
    position, reading, writing and closing.  What a file system offers for
    open files is the class [FileFs].  The table of device files, which looks up
    a driver when it is opened, is left to the instances. *)

From S2P Require Import Prelude StateM Bitmap Dynarr Devt Hash Tmpfs TmpfsSpec TmpfsCreate TmpfsFile TmpfsMount Vfs VfsSpec VfsCorrect VfsTmpfs.

Local Open Scope Z_scope.

(** include/libc/errno.h *)
Definition ESPIPE : Z := 29.
Definition EROFS : Z := 30.

(** include/vfs.h: open_flags_t, mount_flags_t *)
Definition O_RDONLY : Z := 0.
Definition O_WRONLY : Z := 1.
Definition O_RDWR : Z := 2.
Definition O_CREAT : Z := 0x40.
Definition O_EXCL : Z := 0x80.
Definition O_TRUNC : Z := 0x200.
Definition O_APPEND : Z := 0x400.
Definition O_DIRECTORY : Z := 0x10000.
Definition O_NOFOLLOW : Z := 0x20000.
Definition MS_RDONLY : Z := 1.
Definition S_ISREG (mode : Z) : bool := Z.land mode S_IFMT =? S_IFREG.

(** Whether one of the bits is set. *)
Definition has (flags bits : Z) : bool := negb (Z.land flags bits =? 0).

(** fs/vfs.h: struct file; the table of operations by its address *)
Record file := File { f_path : vpath; f_pos : Z; f_mode : Z; f_flags : Z; f_count : Z; f_ops : Z }.

(** include/vfs.h: struct file_operations, with NULL for what is missing.
    [open] may replace the table; reading answers the result, the bytes and the
    offset, writing the result and the offset. *)
Record file_ops (F : Type) := FileOps {
  op_open : option (Z -> Z -> F -> outcome ((Z * Z) * F));
  op_release : option (Z -> F -> outcome (Z * F));
  op_read : option (Z -> Z -> Z -> F -> outcome ((Z * list Z * Z) * F));
  op_write : option (Z -> list Z -> Z -> F -> outcome ((Z * Z) * F));
  op_llseek : option (Z -> Z -> seek_whence -> F -> outcome (Z * F))
}.
Arguments FileOps {F} _ _ _ _ _.
Arguments op_open {F} _.
Arguments op_release {F} _.
Arguments op_read {F} _.
Arguments op_write {F} _.
Arguments op_llseek {F} _.

(** The size of an inode, the address of its table (0: it has none), the table
    at an address; a change of size, -EINVAL where it is not offered; a new
    file in a directory: an error, or its inode. *)
Class FileFs (F : Type) := {
  fs_size : F -> Z -> option Z;
  fs_fop : F -> Z -> option Z;
  fops_at : Z -> file_ops F;
  fs_set_size : Z -> Z -> F -> outcome (Z * F);
  fs_create : Z -> list Z -> Z -> F -> outcome ((Z + Z) * F)
}.

Record fst_t (F : Type) := Fst { vfs : vst F; files : gmap Z file }.
Arguments Fst {F} _ _.
Arguments vfs {F} _.
Arguments files {F} _.

(** vfs.c: vfs_open, the permissions an access mode asks for *)
Definition perm_mask (flags : Z) : Z :=
  let acc := Z.land flags O_RDWR in
  Z.lor (if negb (acc =? O_WRONLY) then MAY_READ else 0) (if negb (acc =? O_RDONLY) then MAY_WRITE else 0).

Section files.
Context {F : Type} `{Fs F} `{FileFs F}.

Abbreviation fm := (ST (fst_t F)).

Definition lift {A} (m : ST (vst F) A) : fm A := fun s => '(a, v) ← m (vfs s); Ok (a, Fst v (files s)).
Definition get_file (f : Z) : fm file := st_deref (fun s => files s !! f).
Definition put_file (f : Z) (x : file) : fm unit := st_modify (fun s => Fst (vfs s) (<[f := x]> (files s))).
Definition free_file (f : Z) : fm unit := st_modify (fun s => Fst (vfs s) (delete f (files s))).

Definition set_pos (x : file) p := File (f_path x) p (f_mode x) (f_flags x) (f_count x) (f_ops x).
Definition set_ops (x : file) o := File (f_path x) (f_pos x) (f_mode x) (f_flags x) (f_count x) o.
Definition set_count (x : file) n := File (f_path x) (f_pos x) (f_mode x) (f_flags x) n (f_ops x).

(** vfs.c: vfs_default_llseek *)
Definition vfs_default_llseek (x offset : Z) (whence : seek_whence) (f : F) : outcome (Z * F) :=
  n ← deref (fs_size f x);
  let new_pos := match whence with SEEK_SET => Some offset | SEEK_END => Some (off_t (n + offset)) | SEEK_CUR => None end in
  Ok (match new_pos with None => - EINVAL | Some p => if p <? 0 then - EINVAL else p end, f).

(** vfs.c: default_file_operations, and the table of a file *)
Definition default_file_operations : file_ops F := FileOps None None None None (Some vfs_default_llseek).
Definition table (ops : Z) : file_ops F := if ops =? 0 then default_file_operations else fops_at ops.

(** The inode of an open file. *)
Definition file_inode (x : file) : fm Z := e ← lift (get_dent (snd (f_path x))); mret (vd_inode e).

(** vfs.c: vfs_truncate *)
Definition vfs_truncate (f length : Z) : fm Z :=
  x ← get_file f; i ← file_inode x; lift (on_fs (fs_set_size i length)).

(** vfs.c: vfs_do_open, the label out *)
Definition open_fail (ps : vpath) (err : Z) : fm (Z + Z) := _ ← lift (vfs_path_put ps); mret (inl err).

(** vfs.c: vfs_do_open, once the file object is there *)
Definition open_file (ps : vpath) (f x flags mask ops : Z) : fm (Z + Z) :=
  err ← (match op_open (table ops) with
         | None => mret 0
         | Some o =>
             '(err, ops) ← lift (on_fs (o x ops));
             y ← get_file f;
             _ ← put_file f (set_ops y ops);
             mret err
         end);
  err ← (if negb (err =? 0) then mret err
         else
           '(mode, _, _) ← lift (attr_of x);
           if has flags O_TRUNC && has mask MAY_WRITE && S_ISREG mode then vfs_truncate f 0 else mret 0);
  if err =? 0 then mret (inr f)
  else _ ← lift (vfs_path_put ps); _ ← free_file f; open_fail ps err.

(** vfs.c: vfs_do_open: an error, or the file *)
Definition vfs_do_open (ps : vpath) (flags mask : Z) : fm (Z + Z) :=
  e ← lift (get_dent (snd ps));
  let x := vd_inode e in
  err ← lift (vfs_inode_permission x mask);
  if negb (err =? 0) then open_fail ps err
  else
    no_dir ← (if has flags O_DIRECTORY then '(mode, _, _) ← lift (attr_of x); mret (negb (S_ISDIR mode)) else mret false);
    if no_dir : bool then open_fail ps (- ENOTDIR)
    else
      read_only ← (if has mask MAY_WRITE || has flags O_TRUNC then m ← lift (get_mnt (fst ps)); mret (has (m_flags m) MS_RDONLY) else mret false);
      if read_only : bool then open_fail ps (- EROFS)
      else
        f ← lift valloc;
        if f =? 0 then open_fail ps (- ENOMEM)
        else
          _ ← lift (vfs_path_get ps);
          ops ← lift (st_deref (fun s => fs_fop (fsys s) x));
          _ ← put_file f (File ps 0 mask flags 1 ops);
          open_file ps f x flags mask ops.

(** vfs.c: vfs_file_get; 0 is NULL *)
Definition vfs_file_get (f : Z) : fm unit :=
  if f =? 0 then mret tt else x ← get_file f; put_file f (set_count x (u32 (f_count x + 1))).

(** vfs.c: vfs_lseek *)
Definition vfs_lseek (f offset : Z) (whence : seek_whence) : fm Z :=
  x ← get_file f;
  let '(offset, whence) := match whence with SEEK_CUR => (off_t (f_pos x + offset), SEEK_SET) | _ => (offset, whence) end in
  match op_llseek (table (f_ops x)) with
  | None => mret (- ESPIPE)
  | Some op =>
      i ← file_inode x;
      p ← lift (on_fs (op i offset whence));
      if p <? 0 then mret p else _ ← put_file f (set_pos x p); mret p
  end.

(** vfs.c: vfs_read: the result, the bytes, and the offset of the caller if he
    passed one *)
Definition vfs_read (f cnt : Z) (pos : option Z) : fm (Z * list Z * option Z) :=
  x ← get_file f;
  if negb (has (f_mode x) MAY_READ) then mret (- EBADF, [], pos)
  else
    match op_read (table (f_ops x)) with
    | None => mret (- EINVAL, [], pos)
    | Some op =>
        i ← file_inode x;
        '(ret, buf, off) ← lift (on_fs (op i cnt (default (f_pos x) pos)));
        if ret <=? 0 then mret (ret, buf, pos)
        else match pos with
             | Some _ => mret (ret, buf, Some off)
             | None => _ ← put_file f (set_pos x off); mret (ret, buf, None)
             end
    end.

(** vfs.c: vfs_write: the result, and the offset of the caller *)
Definition vfs_write (f : Z) (buf : list Z) (pos : option Z) : fm (Z * option Z) :=
  x ← get_file f;
  if negb (has (f_mode x) MAY_WRITE) then mret (- EBADF, pos)
  else
    match op_write (table (f_ops x)) with
    | None => mret (- EINVAL, pos)
    | Some op =>
        i ← file_inode x;
        off ← (if has (f_flags x) O_APPEND then lift (st_deref (fun s => fs_size (fsys s) i)) else mret (default (f_pos x) pos));
        '(ret, off) ← lift (on_fs (op i buf off));
        if ret <=? 0 then mret (ret, pos)
        else match pos with
             | Some _ => mret (ret, Some off)
             | None => _ ← put_file f (set_pos x off); mret (ret, None)
             end
    end.

(** vfs.c: vfs_close *)
Definition vfs_close (f : Z) : fm unit :=
  x ← get_file f;
  _ ← (match op_release (table (f_ops x)) with
       | None => mret tt
       | Some op => i ← file_inode x; _ ← lift (on_fs (op i)); mret tt
       end);
  if f_count x =? 1 then _ ← lift (vfs_path_put (f_path x)); free_file f
  else put_file f (set_count x (u32 (f_count x - 1))).

(** vfs.c: vfs_create: an error, or the inode *)
Definition vfs_create (dir d : Z) (name : list Z) (mode : Z) : fm Z :=
  err ← lift (vfs_inode_permission dir (Z.lor MAY_WRITE MAY_EXEC));
  if negb (err =? 0) then mret err
  else
    r ← lift (on_fs (fs_create dir name mode));
    match r with
    | inl err => mret err
    | inr x => _ ← lift (upd_dent d (fun e => d_set_inode e x)); mret 0
    end.

(** vfs.c: vfs_open, the path of a file in an open directory *)
Definition open_in (parent : vpath) (d flags : Z) : fm (Z + Z) :=
  a ← lift valloc;
  if a =? 0 then _ ← lift (vfs_dput d); _ ← lift (vfs_path_put parent); mret (inl (- ENOMEM))
  else
    _ ← lift (vfs_mntget (fst parent));
    _ ← lift (vfs_path_put parent);
    vfs_do_open (fst parent, d) flags (perm_mask flags).

(** vfs.c: vfs_open, from the directory on *)
Definition open_new (parent : vpath) (name : list Z) (flags mode : Z) : fm (Z + Z) :=
  d ← lift (vfs_dalloc (snd parent) name);
  if d =? 0 then _ ← lift (vfs_path_put parent); mret (inl (- ENOMEM))
  else
    there ← lift (vfs_file_exists (snd parent) name name);
    if there : bool then
      _ ← lift (vfs_dput d);
      if has flags O_EXCL then _ ← lift (vfs_path_put parent); mret (inl (- EEXIST))
      else
        d ← lift (vfs_dalloc (snd parent) name);
        if d =? 0 then _ ← lift (vfs_path_put parent); mret (inl (- ENOMEM)) else open_in parent d flags
    else
      pe ← lift (get_dent (snd parent));
      err ← vfs_create (vd_inode pe) d name (Z.land mode (cnot 32 18));
      if negb (err =? 0) then _ ← lift (vfs_dput d); _ ← lift (vfs_path_put parent); mret (inl err)
      else _ ← lift (vfs_dcache_add d); open_in parent d flags.

(** vfs.c: vfs_open: an error, or the file *)
Definition vfs_open (fuel : nat) (path : list Z) (flags mode : Z) (pwd : vpath) : fm (Z + Z) :=
  let lookup_flags := if has flags O_NOFOLLOW then 0 else LOOKUP_FOLLOW in
  r ← lift (vfs_path_lookup fuel path lookup_flags pwd);
  match r with
  | inr ps =>
      if has flags O_EXCL then _ ← lift (vfs_path_put ps); mret (inl (- EEXIST))
      else vfs_do_open ps flags (perm_mask flags)
  | inl err =>
      if negb (err =? - ENOENT) then mret (inl err)
      else if negb (has flags O_CREAT) then mret (inl (- ENOENT))
      else
        a ← lift valloc;
        if a =? 0 then mret (inl (- ENOMEM))
        else
          let '(dir, name) := match split_last path with Some (dir, name) => (dir, name) | None => (dot, path) end in
          r ← lift (vfs_path_lookup fuel dir lookup_flags pwd);
          match r with
          | inl err => mret (inl err)
          | inr parent => open_new parent name flags mode
          end
  end.

(** ** Open files *)

Lemma lift_files {A} (m : ST (vst F) A) s a s' : lift m s = Ok (a, s') -> files s' = files s /\ m (vfs s) = Ok (a, vfs s').
Proof. unfold lift. destruct (m (vfs s)) as [[b v]| |]; [|done..]. by intros [= <- <-]. Qed.

Lemma get_file_inv f s x s' : get_file f s = Ok (x, s') -> s' = s /\ files s !! f = Some x.
Proof. unfold get_file, st_deref. destruct (files s !! f); [|done]. by intros [= <- <-]. Qed.

(** What an open file says about how it was opened. *)
Definition opened (s : fst_t F) (f : Z) (ps : vpath) (flags mask : Z) : Prop :=
  exists x, files s !! f = Some x /\ f_path x = ps /\ f_mode x = mask /\ f_flags x = flags /\ f_count x = 1.

Lemma opened_lift {A} (m : ST (vst F) A) s a s' f ps flags mask : lift m s = Ok (a, s') -> opened s f ps flags mask -> opened s' f ps flags mask.
Proof. intros [E _]%lift_files. unfold opened. by rewrite E. Qed.

Lemma truncate_opened g n s a s' f ps flags mask : vfs_truncate g n s = Ok (a, s') -> opened s f ps flags mask -> opened s' f ps flags mask.
Proof.
  intros E Ho. unfold vfs_truncate, file_inode in E. destruct (st_bind_Ok _ _ _ _ _ E) as (x & s1 & [-> _]%get_file_inv & E2).
  destruct (st_bind_Ok _ _ _ _ _ E2) as (i & s2 & E3 & E4). destruct (st_bind_Ok _ _ _ _ _ E3) as (e & s3 & E5 & [= <- <-]). eapply opened_lift; [exact E4|]. by eapply opened_lift.
Qed.

Lemma open_fail_err ps err s r s' : open_fail ps err s = Ok (r, s') -> r = inl err.
Proof. intros E. unfold open_fail in E. destruct (st_bind_Ok _ _ _ _ _ E) as (? & ? & _ & [= <- _]). done. Qed.

Lemma open_file_opened ps f x flags mask ops s g s' : opened s f ps flags mask -> open_file ps f x flags mask ops s = Ok (inr g, s') -> g = f /\ opened s' f ps flags mask.
Proof.
  intros Ho E. unfold open_file in E. destruct (st_bind_Ok _ _ _ _ _ E) as (err & s1 & E1 & E2). assert (opened s1 f ps flags mask) as Ho1.
  { destruct (op_open (table ops)) as [o|]; [|by injection E1 as <- <-]. destruct (st_bind_Ok _ _ _ _ _ E1) as ([err' ops'] & s2 & E3 & E4). pose proof (opened_lift _ _ _ _ _ _ _ _ E3 Ho) as (y & Hy & Hp).
    destruct (st_bind_Ok _ _ _ _ _ E4) as (y' & s3 & [-> Hy']%get_file_inv & E5). destruct (st_bind_Ok _ _ _ _ _ E5) as ([] & s4 & E6 & [= _ <-]). injection E6 as <-.
    exists (set_ops y' ops'). split; [cbn; apply lookup_insert_eq|]. assert (y' = y) as -> by congruence. done. }
  destruct (st_bind_Ok _ _ _ _ _ E2) as (err2 & s2 & E3 & E4). assert (opened s2 f ps flags mask) as Ho2.
  { destruct (negb (err =? 0)); [by injection E3 as <- <-|]. destruct (st_bind_Ok _ _ _ _ _ E3) as ([[mo u] gg] & s3 & E5 & E6). pose proof (opened_lift _ _ _ _ _ _ _ _ E5 Ho1) as Ho3.
    destruct (has flags O_TRUNC && has mask MAY_WRITE && S_ISREG mo); [exact (truncate_opened _ _ _ _ _ _ _ _ _ E6 Ho3)|by injection E6 as <- <-]. }
  destruct (err2 =? 0); [injection E4 as Eg Es; by subst|]. destruct (st_bind_Ok _ _ _ _ _ E4) as (? & s3 & _ & E5). destruct (st_bind_Ok _ _ _ _ _ E5) as (? & s4 & _ & E6). by apply open_fail_err in E6.
Qed.

Lemma do_open_opened ps flags mask s f s' : vfs_do_open ps flags mask s = Ok (inr f, s') -> opened s' f ps flags mask.
Proof.
  intros E. unfold vfs_do_open in E. destruct (st_bind_Ok _ _ _ _ _ E) as (e & s1 & _ & E1). destruct (st_bind_Ok _ _ _ _ _ E1) as (err & s2 & _ & E2). destruct (negb _); [by apply open_fail_err in E2|].
  destruct (st_bind_Ok _ _ _ _ _ E2) as (nd & s3 & _ & E3). destruct nd; [by apply open_fail_err in E3|]. destruct (st_bind_Ok _ _ _ _ _ E3) as (ro & s4 & _ & E4). destruct ro; [by apply open_fail_err in E4|].
  destruct (st_bind_Ok _ _ _ _ _ E4) as (g & s5 & _ & E5). destruct (g =? 0); [by apply open_fail_err in E5|]. destruct (st_bind_Ok _ _ _ _ _ E5) as (? & s6 & _ & E6).
  destruct (st_bind_Ok _ _ _ _ _ E6) as (ops & s7 & _ & E7). destruct (st_bind_Ok _ _ _ _ _ E7) as ([] & s8 & E8 & E9). injection E8 as <-.
  apply open_file_opened in E9 as [<- Ho]; [done|]. exists (File ps 0 mask flags 1 ops). split; [cbn; apply lookup_insert_eq|done].
Qed.

(** Every way to open a file uses the mask of its flags. *)
Lemma open_opened fuel path flags mode pwd s f s' : vfs_open fuel path flags mode pwd s = Ok (inr f, s') -> exists ps, opened s' f ps flags (perm_mask flags).
Proof.
  assert (forall parent d s, open_in parent d flags s = Ok (inr f, s') -> exists ps, opened s' f ps flags (perm_mask flags)) as Hin.
  { intros parent d t E. unfold open_in in E. destruct (st_bind_Ok _ _ _ _ _ E) as (a & s1 & _ & E1). destruct (a =? 0).
    - destruct (st_bind_Ok _ _ _ _ _ E1) as (? & ? & _ & E2). by destruct (st_bind_Ok _ _ _ _ _ E2) as (? & ? & _ & ?).
    - destruct (st_bind_Ok _ _ _ _ _ E1) as (? & ? & _ & E2). destruct (st_bind_Ok _ _ _ _ _ E2) as (? & ? & _ & E3). exists (fst parent, d). by apply do_open_opened in E3. }
  assert (forall (m : ST (fst_t F) unit) err s, (_ ← m; mret (inl err) : ST (fst_t F) (Z + Z)) s <> Ok (inr f, s')) as Hl by (intros m err t E; by destruct (st_bind_Ok _ _ _ _ _ E) as (? & ? & _ & ?)).
  intros E. unfold vfs_open in E. destruct (st_bind_Ok _ _ _ _ _ E) as (r & s1 & _ & E1). destruct r as [err|ps].
  - destruct (negb (err =? - ENOENT)); [discriminate E1|]. destruct (negb (has flags O_CREAT)); [discriminate E1|]. destruct (st_bind_Ok _ _ _ _ _ E1) as (a & s2 & _ & E2). destruct (a =? 0); [discriminate E2|].
    destruct (match split_last path with Some (dir, name) => (dir, name) | None => (dot, path) end) as [dir name]. destruct (st_bind_Ok _ _ _ _ _ E2) as (r & s3 & _ & E3). destruct r as [|parent]; [discriminate E3|].
    unfold open_new in E3. destruct (st_bind_Ok _ _ _ _ _ E3) as (d & s4 & _ & E4). destruct (d =? 0); [by apply Hl in E4|]. destruct (st_bind_Ok _ _ _ _ _ E4) as (there & s5 & _ & E5). destruct there.
    + destruct (st_bind_Ok _ _ _ _ _ E5) as (? & s6 & _ & E6). destruct (has flags O_EXCL); [by apply Hl in E6|]. destruct (st_bind_Ok _ _ _ _ _ E6) as (d2 & s7 & _ & E7). destruct (d2 =? 0); [by apply Hl in E7|by eapply Hin].
    + destruct (st_bind_Ok _ _ _ _ _ E5) as (pe & s6 & _ & E6). destruct (st_bind_Ok _ _ _ _ _ E6) as (err2 & s7 & _ & E7). destruct (negb (err2 =? 0)).
      * destruct (st_bind_Ok _ _ _ _ _ E7) as (? & ? & _ & E8). by apply Hl in E8.
      * destruct (st_bind_Ok _ _ _ _ _ E7) as (? & ? & _ & E8). by eapply Hin.
  - destruct (has flags O_EXCL); [by apply Hl in E1|]. exists ps. by apply do_open_opened in E1.
Qed.

(** Files opened for writing only.  The mask that selects the access mode
    is O_RDWR, which does not contain the bit of O_WRONLY: a file that
    [vfs_open] opens with the access mode O_WRONLY may be read, and every
    [vfs_write] to it answers -EBADF and changes nothing. *)
Theorem open_write_only_refused fuel path flags mode pwd s f s' buf pos : vfs_open fuel path flags mode pwd s = Ok (inr f, s') -> Z.land flags 3 = O_WRONLY ->
  vfs_write f buf pos s' = Ok ((- EBADF, pos), s') /\ exists x, files s' !! f = Some x /\ has (f_mode x) MAY_READ = true.
Proof.
  intros E Hw. destruct (open_opened _ _ _ _ _ _ _ _ E) as (ps & x & Hx & _ & Hm & _). assert (Z.land flags O_RDWR = 0) as Hacc.
  { change O_RDWR with (Z.land 3 2). rewrite Z.land_assoc, Hw. done. }
  assert (perm_mask flags = MAY_READ) as Hp by (unfold perm_mask; by rewrite Hacc). split; [|exists x; split; [done|by rewrite Hm, Hp]].
  unfold vfs_write, get_file. rewrite (st_deref_step _ _ s' x Hx), Hm, Hp. done.
Qed.

(** ** References of open files *)

Definition keeps_mnts {A} (m : fm A) : Prop := forall s a s', m s = Ok (a, s') -> mnts (vfs s') = mnts (vfs s).

Lemma km_bind {A B} (m : fm A) (g : A -> fm B) : keeps_mnts m -> (forall a, keeps_mnts (g a)) -> keeps_mnts (m ≫= g).
Proof. intros Hm Hg s b s' E. destruct (st_bind_Ok _ _ _ _ _ E) as (a & s1 & E1 & E2). by rewrite (Hg a s1 b s' E2), (Hm s a s1 E1). Qed.
Lemma km_ret {A} (a : A) : keeps_mnts (mret a).
Proof. by intros s b s' [= <- <-]. Qed.
Lemma km_lift {A} (m : ST (vst F) A) : (forall s a s', m s = Ok (a, s') -> mnts s' = mnts s) -> keeps_mnts (lift m).
Proof. intros Hm s a s' [_ E]%lift_files. by apply Hm in E. Qed.
Lemma km_get f : keeps_mnts (get_file f).
Proof. by intros s x s' [-> _]%get_file_inv. Qed.
Lemma km_put f x : keeps_mnts (put_file f x).
Proof. by intros s a s' [= <- <-]. Qed.
Lemma km_on_fs {A} (g : F -> outcome (A * F)) : keeps_mnts (lift (on_fs g)).
Proof. apply km_lift. intros s a s'. unfold on_fs. destruct (g (fsys s)) as [[b x]| |]; [|done..]. by intros [= <- <-]. Qed.
Lemma km_deref {A} (g : vst F -> option A) : keeps_mnts (lift (st_deref g)).
Proof. apply km_lift. intros s a s'. unfold st_deref. destruct (g s); [|done]. by intros [= <- <-]. Qed.
Lemma km_valloc : keeps_mnts (lift valloc).
Proof. apply km_lift. intros s a s'. unfold valloc. destruct (vmem s _); by intros [= <- <-]. Qed.
Lemma km_permission x mask : keeps_mnts (lift (vfs_inode_permission x mask)).
Proof.
  apply km_lift. intros s a s' E. unfold vfs_inode_permission in E. rewrite st_gets_step in E. destruct (fst (vugid s) =? 0); [by injection E as <- <-|].
  destruct (st_bind_Ok _ _ _ _ _ E) as (b & s1 & E1 & [= _ <-]). unfold attr_of, st_deref in E1. destruct (fs_attr _ _); [|done]. by injection E1 as <- <-.
Qed.
Lemma km_inode x : keeps_mnts (file_inode x).
Proof. apply km_bind; [apply km_deref|]. intros e. apply km_ret. Qed.
Lemma km_truncate f n : keeps_mnts (vfs_truncate f n).
Proof. apply km_bind; [apply km_get|]. intros x. apply km_bind; [apply km_inode|]. intros i. apply km_on_fs. Qed.

Lemma dent_ref_mnts d (s s' : vst F) : vfs_dget d s = Ok (tt, s') \/ vfs_dput d s = Ok (tt, s') -> mnts s' = mnts s.
Proof.
  intros [E|E]; (unfold vfs_dget, vfs_dput, get_dent in E; destruct (st_bind_Ok _ _ _ _ _ E) as (e & s1 & E1 & E2); unfold st_deref in E1; destruct (dents s !! d) as [e0|] eqn:Ed; [|done]; injection E1 as <- <-;
    rewrite (st_step _ _ _ _ _ (upd_dent_run s d e0 _ Ed)) in E2); [destruct (vd_count e0 =? 0)|destruct (vd_count e0 =? 1)]; by injection E2 as <-.
Qed.

Lemma path_get_mnts p s s' m : mnts (vfs s) !! fst p = Some m -> lift (vfs_path_get p) s = Ok (tt, s') -> mnts (vfs s') = <[fst p := m_set_count m (u32 (m_count m + 1))]> (mnts (vfs s)).
Proof.
  intros Hm [_ E]%lift_files. unfold vfs_path_get in E. rewrite (st_step _ _ _ _ _ (mntget_run _ _ m Hm)) in E. by rewrite (dent_ref_mnts (snd p) _ _ (or_introl E)).
Qed.

Lemma path_put_mnts p s s' m : mnts (vfs s) !! fst p = Some m -> m_count m <> 1 -> lift (vfs_path_put p) s = Ok (tt, s') -> mnts (vfs s') = <[fst p := m_set_count m (u32 (m_count m - 1))]> (mnts (vfs s)).
Proof.
  intros Hm Hc [_ E]%lift_files. unfold vfs_path_put in E. destruct (st_bind_Ok _ _ _ _ _ E) as ([] & s1 & E1 & E2). pose proof (dent_ref_mnts (snd p) _ _ (or_intror E1)) as Hs1.
  rewrite (mntput_run s1 (fst p) m) in E2; [|by rewrite Hs1|done]. injection E2 as <-. cbn. by rewrite Hs1.
Qed.

(** Without an error [vfs_do_open] takes one reference. *)
Lemma open_file_mnts ps f x flags mask ops s g s' : open_file ps f x flags mask ops s = Ok (inr g, s') -> mnts (vfs s') = mnts (vfs s).
Proof.
  intros E. unfold open_file in E. destruct (st_bind_Ok _ _ _ _ _ E) as (err & s1 & E1 & E2). destruct (st_bind_Ok _ _ _ _ _ E2) as (err2 & s2 & E3 & E4).
  assert (mnts (vfs s1) = mnts (vfs s)) as <-.
  { destruct (op_open (table ops)) as [o|]; [|by injection E1 as _ <-]. revert E1. apply km_bind; [apply km_on_fs|]. intros [err' ops']. apply km_bind; [apply km_get|]. intros y.
    apply km_bind; [apply km_put|]. intros _. apply km_ret. }
  assert (mnts (vfs s2) = mnts (vfs s1)) as <-.
  { destruct (negb (err =? 0)); [by injection E3 as _ <-|]. revert E3. apply km_bind; [apply km_deref|]. intros [[mo u] gg]. destruct (has flags O_TRUNC && has mask MAY_WRITE && S_ISREG mo); [apply km_truncate|apply km_ret]. }
  destruct (err2 =? 0); [by injection E4 as _ <-|]. destruct (st_bind_Ok _ _ _ _ _ E4) as (? & s3 & _ & E5). destruct (st_bind_Ok _ _ _ _ _ E5) as (? & s4 & _ & E6). by apply open_fail_err in E6.
Qed.

Lemma do_open_mnts ps flags mask s f s' m : vfs_do_open ps flags mask s = Ok (inr f, s') -> mnts (vfs s) !! fst ps = Some m -> mnts (vfs s') = <[fst ps := m_set_count m (u32 (m_count m + 1))]> (mnts (vfs s)).
Proof.
  intros E Hm. unfold vfs_do_open in E. destruct (st_bind_Ok _ _ _ _ _ E) as (e & s1 & E0 & E1). apply (km_deref _ s e s1) in E0. destruct (st_bind_Ok _ _ _ _ _ E1) as (err & s2 & P1 & E2). apply (km_permission _ _ s1) in P1.
  destruct (negb (err =? 0)); [by apply open_fail_err in E2|]. destruct (st_bind_Ok _ _ _ _ _ E2) as (nd & s3 & P2 & E3). destruct nd; [by apply open_fail_err in E3|].
  destruct (st_bind_Ok _ _ _ _ _ E3) as (ro & s4 & P3 & E4). destruct ro; [by apply open_fail_err in E4|]. destruct (st_bind_Ok _ _ _ _ _ E4) as (g & s5 & P4 & E5). apply (km_valloc s4) in P4.
  destruct (g =? 0); [by apply open_fail_err in E5|]. destruct (st_bind_Ok _ _ _ _ _ E5) as ([] & s6 & P5 & E6). destruct (st_bind_Ok _ _ _ _ _ E6) as (ops & s7 & P6 & E7). apply (km_deref _ s6) in P6.
  destruct (st_bind_Ok _ _ _ _ _ E7) as ([] & s8 & E8 & E9). injection E8 as <-. apply open_file_mnts in E9. cbn [vfs] in E9.
  assert (mnts (vfs s3) = mnts (vfs s2)) as P2'. { revert P2. destruct (has flags O_DIRECTORY); [|apply km_ret]. apply km_bind; [apply km_deref|]. intros [[mo u] gg]. apply km_ret. }
  assert (mnts (vfs s4) = mnts (vfs s3)) as P3'. { revert P3. destruct (has mask MAY_WRITE || has flags O_TRUNC); [|apply km_ret]. apply km_bind; [apply km_deref|]. intros mm. apply km_ret. }
  assert (mnts (vfs s5) = mnts (vfs s)) as Hs5 by congruence. rewrite E9, P6, (path_get_mnts ps s5 s6 m) by (done || by rewrite Hs5). by rewrite Hs5.
Qed.

Lemma close_mnts f s s' ps flags mask m : opened s f ps flags mask -> vfs_close f s = Ok (tt, s') -> mnts (vfs s) !! fst ps = Some m -> m_count m <> 1 ->
  mnts (vfs s') = <[fst ps := m_set_count m (u32 (m_count m - 1))]> (mnts (vfs s)).
Proof.
  intros (x & Hx & Hp & _ & _ & Hc) E Hm Hc1. unfold vfs_close, get_file in E. rewrite (st_deref_step _ _ s x Hx), Hc in E. destruct (st_bind_Ok _ _ _ _ _ E) as ([] & s1 & E1 & E2).
  assert (mnts (vfs s1) = mnts (vfs s)) as Hs1.
  { revert E1. destruct (op_release (table (f_ops x))); [|apply km_ret]. apply km_bind; [apply km_inode|]. intros i. apply km_bind; [apply km_on_fs|]. intros ?. apply km_ret. }
  cbn [Z.eqb Pos.eqb] in E2. destruct (st_bind_Ok _ _ _ _ _ E2) as ([] & s2 & E3 & E4). injection E4 as <-. cbn [vfs]. rewrite Hp in E3. rewrite (path_put_mnts ps s1 s2 m) by (done || by rewrite Hs1). by rewrite Hs1.
Qed.
End files.

Section leak.
Context {F : Type} `{FsTree F} `{!FileFs F}.

(** Opening and closing.  When [vfs_open] opens a file that exists and
    [vfs_close] closes it, the mount keeps one reference more than it had
    before: [vfs_do_open] takes a reference of its own, and nothing drops the
    one that comes with the path. *)
Theorem open_close_leaks (s : fst_t F) path flags mode pwd x e y f s1 s2 : vinv (vfs s) -> held (vfs s) (start_of (vfs s) path pwd) x e -> m_count x + 2 < 2 ^ 32 -> vd_inode e <> 0 ->
  plain (if has flags O_NOFOLLOW then 0 else LOOKUP_FOLLOW) (fsys (vfs s)) -> walk (vd_inode e) (path_names path) = Some y ->
  vfs_open (S (length (path_names path))) path flags mode pwd s = Ok (inr f, s1) -> vfs_close f s1 = Ok (tt, s2) ->
  mnts (vfs s2) = <[fst (start_of (vfs s) path pwd) := m_set_count x (m_count x + 1)]> (mnts (vfs s)).
Proof.
  intros Hv Hh Hc Hi Hpl Hw E Ecl. pose proof (path_lookup_run (vfs s) path _ pwd x e Hv Hh ltac:(lia) Hi Hpl) as L. rewrite Hw in L. destruct L as (r & v & El & Hv' & _ & Hf).
  assert (wants_dir (if has flags O_NOFOLLOW then 0 else LOOKUP_FOLLOW) (fsys (vfs s)) y = false) as Hd by (unfold wants_dir; by destruct (has flags O_NOFOLLOW)). rewrite Hd in Hf. destruct Hf as (Hm & d & ed & -> & _).
  unfold vfs_open in E. set (m := fst (start_of (vfs s) path pwd)) in *. set (s0 := Fst v (files s)).
  assert (lift (vfs_path_lookup (S (length (path_names path))) path (if has flags O_NOFOLLOW then 0 else LOOKUP_FOLLOW) pwd) s = Ok (inr (m, d), s0)) as El' by (unfold lift; by rewrite El).
  rewrite (st_step _ _ _ _ _ El') in E. destruct (has flags O_EXCL); [by destruct (st_bind_Ok _ _ _ _ _ E) as (? & ? & _ & ?)|].
  assert (mnts (vfs s0) !! fst (m, d) = Some (m_set_count x (m_count x + 1))) as Hm0 by (cbn; rewrite Hm; apply lookup_insert_eq). destruct Hh as (_ & Hcx & _).
  pose proof (do_open_opened _ _ _ _ _ _ E) as Ho. pose proof (do_open_mnts _ _ _ _ _ _ _ E Hm0) as Hm1. cbn [m_count m_set_count fst] in Hm1. rewrite wrap_small in Hm1 by (unfold fits; lia).
  assert (mnts (vfs s1) !! fst (m, d) = Some (m_set_count x (m_count x + 2))) as Hm1' by (cbn [fst]; rewrite Hm1, lookup_insert_eq; unfold m_set_count; cbn; do 2 f_equal; lia).
  rewrite (close_mnts f s1 s2 _ _ _ _ Ho Ecl Hm1') by (cbn; lia). cbn [m_count m_set_count fst]. rewrite wrap_small by (unfold fits; lia). rewrite Hm1. cbn [vfs s0]. rewrite Hm, !insert_insert_eq.
  unfold m_set_count. cbn. by replace (m_count x + 2 - 1) with (m_count x + 1) by lia.
Qed.
End leak.

(** ** Files on tmpfs *)

Section tmpfs.
Context `{Heap}.
(** The tables of operations of the drivers. *)
Context (driver_fops : Z -> file_ops tst).

(** tmpfs.c: tmpfs_file_operations *)
Definition tmpfs_fops : file_ops tst :=
  FileOps (Some (fun _ ops t => Ok ((0, ops), t))) (Some (fun x => tmpfs_release x)) (Some (fun x cnt off => tmpfs_read x cnt off)) (Some (fun x buf off => tmpfs_write x buf off))
    (Some (fun x off wh => tmpfs_llseek x off wh)).

(** vfs.c: vfs_dev_open: the table of the driver takes over *)
Definition vfs_dev_open (x ops : Z) (t : tst) : outcome ((Z * Z) * tst) :=
  i ← deref (inodes t !! x);
  real_fops ← drivers_dev_find (rdev i) (anon t);
  if real_fops =? 0 then Ok ((- ENODEV, ops), t)
  else match op_open (driver_fops real_fops) with
       | Some o => o x real_fops t
       | None => Ok ((0, real_fops), t)
       end.

(** vfs.c: dev_fops with vfs_dev_read, vfs_dev_write, vfs_dev_llseek and
    vfs_dev_release *)
Definition dev_file_ops : file_ops tst :=
  FileOps (Some vfs_dev_open) (Some (fun _ t => Ok (- ENODEV, t))) (Some (fun _ _ off t => Ok ((- ENODEV, [], off), t))) (Some (fun _ _ off t => Ok ((- ENODEV, off), t)))
    (Some (fun _ _ _ t => Ok (- ENODEV, t))).

(** The two tables of the kernel get the addresses 1 and 2. *)
#[export] Instance tmpfs_files : FileFs tst := {|
  fs_size t x := size <$> inodes t !! x;
  fs_fop t x := i ← inodes t !! x; Some (match fop i with no_fops => 0 | tmpfs_file_operations => 1 | dev_fops => 2 end);
  fops_at a := if a =? 1 then tmpfs_fops else if a =? 2 then dev_file_ops else driver_fops a;
  fs_set_size x n t :=
    let d := next_addr t in
    '(err, t') ← tmpfs_setattr d (Iattr ATTR_SIZE 0 0 0 n 0 0) (with_dentries t (<[d := Dentry [] x DCACHE_NONE 0]> (dentries t)));
    Ok (err, with_dentries t' (dentries t));
  fs_create dir name mo := '(err, x) ← with_name name (fun d => tmpfs_create dir d mo); mret (if err =? 0 then inr x else inl err)
|}.
End tmpfs.

(** The small instance of VfsTmpfs.v, with a file in the root, which nothing
    refers to yet or which is in use. *)
Definition no_drivers (a : Z) : file_ops tst := FileOps None None None None None.
#[local] Instance demo_heap_file : Heap := demo_heap.
#[local] Instance demo_files : FileFs tst := tmpfs_files no_drivers.
Definition demo_used : tst := with_inodes demo_file (alter (fun i => set_refs i 1) 100 (inodes demo_file)).

Lemma demo_used_ok : fs_ok demo_used.
Proof.
  apply (frozen_fs_ok demo_file); [|exact demo_file_ok]. by split.
Qed.

Definition demo_open (t : tst) (flags : Z) : outcome ((Z + Z) * fst_t tst) := vfs_open 2 [SLASH; 97] flags 0 (2, 1) (Fst (demo_vfs t) ∅).
Definition demo_opened (t : tst) (flags : Z) : fst_t tst := match demo_open t flags with Ok (_, s) => s | _ => Fst (demo_vfs t) ∅ end.
Definition demo_closed : fst_t tst := match vfs_close 9 (demo_opened demo_used O_NOFOLLOW) with Ok (_, s) => s | _ => Fst (demo_vfs demo_used) ∅ end.

(** Closing a file that nothing else refers to: the inode goes to the list of
    unused inodes, whose head was never initialised. *)
Example close_last_faults : demo_open demo_file O_NOFOLLOW = Ok (inr 9, demo_opened demo_file O_NOFOLLOW) /\ vfs_close 9 (demo_opened demo_file O_NOFOLLOW) = Fault.
Proof. split; by vm_compute. Qed.

Lemma demo_write_only : demo_open demo_file O_WRONLY = Ok (inr 9, demo_opened demo_file O_WRONLY).
Proof. by vm_compute. Qed.

Lemma open_write_only_refused_witness : vfs_write 9 [65] None (demo_opened demo_file O_WRONLY) = Ok ((- EBADF, None), demo_opened demo_file O_WRONLY) /\
  exists x, files (demo_opened demo_file O_WRONLY) !! 9 = Some x /\ has (f_mode x) MAY_READ = true.
Proof. exact (open_write_only_refused 2 [SLASH; 97] O_WRONLY 0 (2, 1) (Fst (demo_vfs demo_file) ∅) 9 (demo_opened demo_file O_WRONLY) [65] None demo_write_only eq_refl). Defined.

Lemma demo_use : demo_open demo_used O_NOFOLLOW = Ok (inr 9, demo_opened demo_used O_NOFOLLOW) /\ vfs_close 9 (demo_opened demo_used O_NOFOLLOW) = Ok (tt, demo_closed) /\
  is_Some (inodes demo_used !! 10) /\ walk (H0 := @tmpfs_tree demo_heap demo_used demo_used_ok) 10 (path_names [SLASH; 97]) = Some 100.
Proof. split; [by vm_compute|split; [by vm_compute|split; [vm_compute; eexists; reflexivity|by vm_compute]]]. Qed.

Lemma open_close_leaks_witness : mnts (vfs demo_closed) = <[2 := Mnt 1 1 0 0 0 [] 3]> (mnts (demo_vfs demo_used)).
Proof.
  destruct demo_use as (Eo & Ec & Hl & Hw).
  exact (@open_close_leaks tst (@tmpfs_fs demo_heap) (@tmpfs_tree demo_heap demo_used demo_used_ok) demo_files (Fst (demo_vfs demo_used) ∅) [SLASH; 97] O_NOFOLLOW 0 (2, 1) (Mnt 1 1 0 0 0 [] 2) (Dent 0 [SLASH] true 10 DCACHE_NONE 1 [])
    100 9 (demo_opened demo_used O_NOFOLLOW) demo_closed (demo_vinv demo_used demo_used_ok Hl) (demo_held demo_used) eq_refl (fun E => ltac:(discriminate E)) (or_introl eq_refl) Hw Eo Ec).
Defined.
